(* ===== verification/_CoqProject ===== *)
-Q . S2P
Prelude.v
Endian.v
Bitmap.v
Array.v
Threadlist.v
Frames.v
Kmalloc.v
Addrspace.v
Copyinout.v
Uio.v
Loadelf.v
Syscall.v
Exec.v
Program.v
Hangman.v
Spinlock.v
Thread.v
Synch.v
Files.v
Proc.v
Kernel.v
Sfs.v
Sfskeep.v
Lhd.v
Sfsio.v
Sfsdir.v
Sfsvnode.v
Sfsops.v
Sfsmount.v
Sfsdata.v
Kgets.v
Vfs.v
Semfs.v
