(* ===== verification/Prelude.v ===== *)
(** * OS/161 "SHELL" kernel: a verification library

    The program is an OS/161 teaching kernel for MIPS with processes, open files, [execv],
    a page allocator, a kernel heap, the SFS file system and the VFS layer (all under
    [kern/] of the repository).  The library models the parts that carry its logic and
    proves what they do, errors included; where the code does something it should not,
    the theorem says what it does.

    ** How the parts interact

    A user program traps into [syscall] (file [Syscall]), which decodes the registers and
    calls a handler of the process component ([Proc]: fork, _exit, waitpid, getpid), of the
    file component ([Files]: open, close, read, write, lseek, dup2, fstat, mkdir),
    [execv] ([Exec]), or one of [Program] (chdir, getcwd, time), which also starts the menu's
    programs.  The handlers read and write user memory by [Copyinout] and
    describe transfers by [Uio].  A new program is loaded by [Loadelf] into an address
    space ([Addrspace]), whose frames come from [Frames].  The kernel's own objects come
    from [Kmalloc], which also takes its pages from [Frames].  Opening, removing and so on go
    by path through [Vfs] to a file system; [Sfs] and [Sfsdir] are the blocks, files and
    directories of SFS, whose free blocks are a [Bitmap]; [Sfsvnode] has its inodes, vnodes,
    mounting and the operations on names, which are built from these; [Sfsio] moves user data
    between files and address spaces over the disk driver [Lhd].  [Semfs] is a second file system, of
    semaphores.  Under all this, [Thread] switches
    between threads on any number of CPUs, [Spinlock] is how CPUs exclude each other, and
    locks, semaphores and condition variables are [Synch]; wait channels and run queues are
    [Threadlist]s, and [Hangman] is the deadlock detector.
    [Array] is the kernel's resizeable array, [Kgets] the line input of the menu, and
    [Endian] has byte order and time arithmetic.

    ** How code is modelled

    A C function that touches a state of type [S] and returns an [A] is a computation
    [K S A] (this file): from a state it returns a value and a state ([Ret]), panics with a
    failed [KASSERT] or [panic] ([Panic]), makes an access that would trap or is undefined
    ([Fault]), or blocks for ever ([Block]).  [wp m Q s] says that [m] from [s] returns, in
    [Q]; [wlp] allows the other outcomes.  So a theorem with [wp] also says that there is
    no panic, no fault and no deadlock of the caller with himself.  A loop is structural on
    a list or on a number that bounds its iterations; the bound is always one that the code
    has too (the number of elements, the length of a table) or, where it is fuel
    ([Array.grow], [Kmalloc.remove_loop], [Kmalloc.find_page], [Kmalloc.find_owner],
    [Proc.free_index], [Uio.uiomove_loop], [Threadlist.forall_from], [Hangman.check_loop], [Semfs.read_loop]), the
    theorems show that the fuel given is enough.  Integers are [Z],
    with the wrap-around of the C type ([u8] to [u64], [s32], [s64]) wherever the code can
    reach it.  Pointers are addresses or indices into a store, so aliasing and
    use-after-free are the source's; [NULL] is [None].  Code between taking and
    releasing a spinlock is one uninterrupted step.

    ** Interfaces

    Components see each other through classes; the theorems of a client hold for every
    implementation, and the implementing component discharges the laws.
    - [Frames.PageAlloc]: pages for the heap; implemented by [Frames] ([frames_alloc]).
    - [Exec.UserStrings]: user strings for [execv]; by [Copyinout] ([machine_strings]).
    - [Bitmap.FreeMap]: sets of block numbers for SFS; by [Bitmap] ([bitmap_freemap]).
    - [Sfsdir.ByteFile]: byte access to a file, what a step of it may do to the rest of the volume,
      and what holds where the disk does not fail; by [Sfs] ([sfs_bytefile]).
    - [Proc.ProcEnv]: what processes need of files and address spaces; by [Files]
      ([Kernel.kernel_procs]).
    - [Sfs.Disk]: whole blocks of a disk; by the driver ([Sfsio.driver_disk]) over hardware of which
      [Lhd.DiskHardware] and [Sfsio.ReliableWrites] say what it promises.  A disk may fail at any
      block; [Sfskeep.reliable] is the assumption that it does not, made by the theorems of
      [Sfsops] and [Sfsmount] and by no other.
    - [Syscall.Syscalls]: the handlers; by [Proc] and [Files] ([Kernel.kernel_calls]).
    - [Thread.ThreadEnv] with [Thread.ThreadEnvLaws]: what threads need of memory, processes,
      the MMU and the bus.
    - [Files.FileEnv], [Kernel.MachineEnv], [Loadelf.ElfEnv], [Program.ProgEnv], [Vfs.FileSystems]
      with [Vfs.FileSystemLaws]: the world below (file systems, console, disk, machine).  Each
      has a small instance in the file, on which the witnesses run.

    ** The files, what they model, and what their theorems show

    - [Prelude]: the monad, its rules and tactics, integers, lists.
    - [Endian] ([lib/bswap.c], [lib/time.c]): the byte swaps and their round trips;
      [bswap64] is proved not to reverse the bytes.
    - [Bitmap] ([lib/bitmap.c]): a bitmap refines a finite set of indices.
    - [Array] ([lib/array.c], [include/array.h]): an array refines a list.
    - [Threadlist] ([thread/threadlist.c]): the doubly linked lists refine sequences of
      threads, with a frame property.
    - [Frames] ([arch/mips/vm/ram.c], [dumbvm.c]): blocks of frames never overlap and
      stay recorded.
    - [Kmalloc] ([vm/kmalloc.c]): the heap refines a set of disjoint live blocks whose
      contents the allocator does not touch; free lists, counts and page references
      are an invariant, as long as fewer than 256 pages for page references were missing, and
      for sizes below 2^31 - 4095; what happens otherwise is shown by example.
    - [Addrspace] ([arch/mips/vm/dumbvm.c]): regions, copies, page faults; isolation of
      address spaces.
    - [Copyinout] ([vm/copyinout.c]): transfers succeed exactly on accessible user regions;
      the kernel's memory is out of reach.
    - [Uio] ([lib/uio.c]): [uiomove] moves the next bytes of the transfer described.
    - [Loadelf] ([syscall/loadelf.c]): a loaded program has its segments' bytes at their
      addresses and zeros behind.
    - [Syscall] ([arch/mips/syscall/syscall.c]): the dispatcher refines typed calls.
    - [Exec] ([syscall/execv.c]): the argument block, the error paths, the overrun.
    - [Program] ([syscall/runprogram.c], [curdir_syscalls.c], [time_syscalls.c]): the arguments on
      a new program's stack; [chdir] with its path parser, and where each overruns the heap.
    - [Hangman] ([thread/hangman.c]): the detector panics exactly when a wait would close a
      cycle, and its search ends.
    - [Spinlock] ([thread/spinlock.c], [thread/spl.c]): cut at the memory accesses, over any number of
      CPUs: mutual exclusion, and interrupt levels that nest.
    - [Thread] ([thread/thread.c], [thread/clock.c]): creation, switching, sleep, wake-up, exit,
      migration and interprocessor interrupts, every interleaving of any number of CPUs: no
      thread is lost or runs twice, threads take turns, migration ends.
    - [Synch] ([thread/synch.c]): all interleavings of the operations as a step relation;
      mutual exclusion, counting, no lost wake-up.
    - [Files] ([syscall/file_syscalls.c], parts of [proc/proc.c] and [exit.c]): open files with
      their aliasing; what fork shares; each call on every branch; exhaustion of the table.
    - [Proc] ([proc/proc.c], [syscall/fork.c], [exit.c], [waitpid.c], [getpid.c]): the table
      of identifiers as an invariant, fork, exit and wait.
    - [Kernel]: the composition, and one fork-exit-wait through the dispatcher.
    - [Sfs] ([fs/sfs/sfs_balloc.c], [sfs_bmap.c], parts of [sfs_io.c]): block mapping, allocation,
      truncation and metadata access against the bytes of a file.
    - [Lhd] ([dev/lamebus/lhd.c]): a transfer through the controller's registers and interrupts
      reads and writes the blocks asked for; which errors reach the caller.
    - [Sfsio] ([fs/sfs/sfs_io.c]): reading and writing file data, with partial blocks.
    - [Sfsdir] ([fs/sfs/sfs_dir.c]): a directory refines a map from names to inode numbers.
    - [Sfskeep]: what the operations of [Sfs] leave alone in a volume, whatever fails, and what
      they cannot fail with on a disk that does not.
    - [Sfsvnode] ([fs/sfs/sfs_inode.c], [sfs_vnops.c], [sfs_fsops.c]): inodes in memory and on the
      disk, vnodes, the operations on names, sync and mounting; the layout of superblock and
      inodes; when a volume is consistent ([fs_ok]), and what one step does to it.
    - [Sfsops]: the operations of [Sfsvnode] as wholes: any sequence of calls leaves the volume
      consistent and the reference counts exact; the directory is a map from names to files.
    - [Sfsmount]: what [sfs_sync] leaves on the disk is what [sfs_domount] reads from it.
    - [Sfsdata] ([sfs_read], [sfs_write]): file data through a vnode, over the driver.  These
      theorems and [Sfsio]'s are for disks of at most 2^23 sectors whose writes succeed; a write
      that fails is not always reported ([Lhd.write_errors_lost]).
    - [Kgets] ([lib/kgets.c]): equivalence with a line editor.
    - [Vfs] ([vfs/vnode.c], [vfscwd.c], [vfslookup.c], [vfspath.c], [vfslist.c]): the account of vnode
      references over any sequence of calls, the life of a device, the start of a path.
    - [Semfs] ([fs/semfs/]): the tables of the semaphore file system over any of the calls getroot,
      lookup, lookparent, creat, remove and close, each in one step, with memory running out; where
      reading the directory and unmounting follow a null pointer; the directory as a map; the
      threads on one semaphore.
    In each file the state is a record named after the code's structure or after the component
    ([Vfs.vfs], [Sfs.sfs], [Files.files], [Proc.procs], [Kmalloc.kheap], ...), the operations
    bear the names of the C functions, and a loop or an exit path of a function that had to be a
    definition of its own is named after it ([copy_args_loop], [doadd_fail]).

    ** Not modelled

    - Device drivers ([dev/lamebus], [dev/generic], [arch/sys161/dev]) but for the disk, assembly and the trap
      frames around it ([arch/mips/locore]), TLB and CPU primitives: hardware access; and what
      only starts the system ([main/main.c]) or tests it ([main/menu.c], [test/]).
    - emufs: behind [FileSystems] here.  So is SFS for [Vfs], whose paths and locks are the
      only way to it: [Sfsops] takes the calls that reach it one at a time, as the global lock of
      the file systems orders them.  [Semfs] is not an instance of [FileSystemLaws]: unmounting it can fault, and [creat]
      can succeed without a vnode.
    - [kprintf] and the string routines (formatting, not state).
    - Vnode counts are unbounded in [Vfs]; the code's [int] would overflow after 2^31
      references.  Waiting for I/O is not modelled: a transfer is one step.
    - The switch of registers and stacks itself (assembly), and the start-up of secondary CPUs.
      In [Thread] a section under a run queue's lock is one step; that such sections exclude each
      other is [Spinlock]'s theorem. *)
From stdpp Require Export base gmap strings list list_numbers numbers pretty.
From Stdlib Require Export ZArith Lia.
#[global] Open Scope Z_scope.

(** ** Error codes and booleans of the kernel ([kern/include/kern/errno.h]) *)

Definition ENOSYS : Z := 1.
Definition ENOMEM : Z := 3.
Definition EAGAIN : Z := 4.
Definition EFAULT : Z := 6.
Definition ENAMETOOLONG : Z := 7.
Definition EINVAL : Z := 8.
Definition EPERM : Z := 9.
Definition EMPROC : Z := 11.
Definition ENPROC : Z := 12.
Definition ENOEXEC : Z := 13.
Definition E2BIG : Z := 14.
Definition ESRCH : Z := 15.
Definition ECHILD : Z := 16.
Definition ENOTDIR : Z := 17.
Definition EISDIR : Z := 18.
Definition ENOENT : Z := 19.
Definition EEXIST : Z := 22.
Definition EXDEV : Z := 24.
Definition ENODEV : Z := 25.
Definition ENXIO : Z := 26.
Definition EBUSY : Z := 27.
Definition EMFILE : Z := 28.
Definition ENFILE : Z := 29.
Definition EBADF : Z := 30.
Definition EIO : Z := 32.
Definition ESPIPE : Z := 33.
Definition ENOSPC : Z := 36.
Definition EFBIG : Z := 38.

(** ** Machine integers

    A C integer of width [w] is a [Z] in the range of its type; a conversion to
    the type is written out where the source has it. *)

Definition u8 (z : Z) : Z := z mod 2 ^ 8.
Definition u16 (z : Z) : Z := z mod 2 ^ 16.
Definition u32 (z : Z) : Z := z mod 2 ^ 32.
Definition u64 (z : Z) : Z := z mod 2 ^ 64.
(** Two's complement conversions ([int], [int64_t]). *)
Definition s32 (z : Z) : Z := (z + 2 ^ 31) mod 2 ^ 32 - 2 ^ 31.
Definition s64 (z : Z) : Z := (z + 2 ^ 63) mod 2 ^ 64 - 2 ^ 63.

Lemma u8_range z : 0 <= u8 z < 256.
Proof. unfold u8. apply Z.mod_pos_bound. lia. Qed.
Lemma u32_range z : 0 <= u32 z < 4294967296.
Proof. unfold u32. apply Z.mod_pos_bound. lia. Qed.
Lemma s32_range z : -2147483648 <= s32 z < 2147483648.
Proof. unfold s32. pose proof (Z.mod_pos_bound (z + 2 ^ 31) (2 ^ 32)). lia. Qed.
Lemma u8_small z : 0 <= z < 256 -> u8 z = z.
Proof. intros. unfold u8. apply Z.mod_small. lia. Qed.
Lemma u16_small z : 0 <= z < 65536 -> u16 z = z.
Proof. intros. unfold u16. apply Z.mod_small. lia. Qed.
Lemma u32_small z : 0 <= z < 4294967296 -> u32 z = z.
Proof. intros. unfold u32. apply Z.mod_small. lia. Qed.
Lemma s32_small z : -2147483648 <= z < 2147483648 -> s32 z = z.
Proof. intros. unfold s32. rewrite Z.mod_small by lia. lia. Qed.
Lemma s64_small z : - 2 ^ 63 <= z < 2 ^ 63 -> s64 z = z.
Proof. intros. unfold s64. rewrite Z.mod_small by lia. lia. Qed.
Lemma u64_small z : 0 <= z < 2 ^ 64 -> u64 z = z.
Proof. intros. unfold u64. apply Z.mod_small. lia. Qed.

(** [DIVROUNDUP(a, b)] on [unsigned]. *)
Definition DIVROUNDUP (a b : Z) : Z := u32 (a + b - 1) / b.

Lemma DIVROUNDUP_spec a b :
  0 <= a -> 0 < b -> a + b <= 2 ^ 32 ->
  (DIVROUNDUP a b - 1) * b < a <= DIVROUNDUP a b * b.
Proof.
  intros. unfold DIVROUNDUP. rewrite u32_small by lia.
  pose proof (Z.div_mod (a + b - 1) b). pose proof (Z.mod_pos_bound (a + b - 1) b). nia.
Qed.

(** ** Computations of the kernel

    [K S A] is C code over the state [S] that returns an [A].  The four outcomes
    are the ways such code ends: it returns; [panic] or a failed [KASSERT] halts
    the system; it performs an access that has no meaning in C (a null or
    dangling pointer, an index out of range); or the thread has to sleep. *)

Inductive outcome (S A : Type) : Type :=
  | Ret (a : A) (s : S)
  | Panic (why : string)
  | Fault (why : string)
  | Block.
Arguments Ret {S A} a s.
Arguments Panic {S A} why.
Arguments Fault {S A} why.
Arguments Block {S A}.

Definition K (S A : Type) : Type := S -> outcome S A.

#[global] Instance K_ret {S} : MRet (K S) := fun A a s => Ret a s.
#[global] Instance K_bind {S} : MBind (K S) := fun A B f m s =>
  match m s with
  | Ret a s' => f a s'
  | Panic w => Panic w
  | Fault w => Fault w
  | Block => Block
  end.

Definition get {S} : K S S := fun s => Ret s s.
Definition gets {S A} (f : S -> A) : K S A := fun s => Ret (f s) s.
Definition put {S} (s : S) : K S () := fun _ => Ret tt s.
Definition modify {S} (f : S -> S) : K S () := fun s => Ret tt (f s).
Definition panic {S A} (why : string) : K S A := fun _ => Panic why.
Definition fault {S A} (why : string) : K S A := fun _ => Fault why.
Definition block {S A} : K S A := fun _ => Block.

(** [KASSERT(b)]. *)
Definition KASSERT {S} (b : bool) (why : string) : K S () :=
  if b then mret tt else panic why.

(** Dereference of a pointer whose target is [o]. *)
Definition deref {S A} (o : option A) (why : string) : K S A :=
  match o with Some a => mret a | None => fault why end.

(** A component's code run inside a larger state, through a lens. *)
Record lens (S T : Type) := Lens { lget : S -> T; lset : T -> S -> S }.
Arguments Lens {S T} _ _.
Arguments lget {S T} _ _.
Arguments lset {S T} _ _ _.

Definition zoom {S T A} (L : lens S T) (m : K T A) : K S A := fun s =>
  match m (lget L s) with
  | Ret a t => Ret a (lset L t s)
  | Panic w => Panic w
  | Fault w => Fault w
  | Block => Block
  end.

(** ** Total correctness

    [wp m Q s]: run from [s], [m] returns, with a result and a state in [Q]; in
    particular it neither panics, nor faults, nor sleeps. *)

Definition wp {S A} (m : K S A) (Q : A -> S -> Prop) (s : S) : Prop :=
  match m s with Ret a s' => Q a s' | _ => False end.

(** [wlp m Q s]: if [m] returns, then in [Q]. *)
Definition wlp {S A} (m : K S A) (Q : A -> S -> Prop) (s : S) : Prop :=
  match m s with Ret a s' => Q a s' | _ => True end.

Section wp_rules.
Context {S : Type}.

Lemma wp_ret {A} (a : A) (Q : A -> S -> Prop) s : wp (mret a) Q s = Q a s.
Proof. reflexivity. Qed.

Lemma wp_bind {A B} (m : K S A) (f : A -> K S B) Q s :
  wp (m ≫= f) Q s <-> wp m (fun a s' => wp (f a) Q s') s.
Proof. unfold wp, mbind, K_bind. by destruct (m s). Qed.

Lemma wp_mono {A} (m : K S A) (P Q : A -> S -> Prop) s :
  (forall a s', P a s' -> Q a s') -> wp m P s -> wp m Q s.
Proof. unfold wp. destruct (m s); naive_solver. Qed.

Lemma wp_and {A} (m : K S A) (P Q : A -> S -> Prop) s : wp m P s -> wp m Q s -> wp m (fun a s' => P a s' /\ Q a s') s.
Proof. unfold wp. by destruct (m s). Qed.
Lemma wp_KASSERT b why (Q : () -> S -> Prop) s :
  wp (KASSERT b why) Q s <-> b = true /\ Q tt s.
Proof. destruct b; unfold wp; simpl; naive_solver. Qed.

Lemma wp_get (Q : S -> S -> Prop) s : wp get Q s = Q s s.
Proof. reflexivity. Qed.
Lemma wp_gets {A} (f : S -> A) (Q : A -> S -> Prop) s : wp (gets f) Q s = Q (f s) s.
Proof. reflexivity. Qed.
Lemma wp_put s' (Q : () -> S -> Prop) s : wp (put s') Q s = Q tt s'.
Proof. reflexivity. Qed.
Lemma wp_modify (f : S -> S) (Q : () -> S -> Prop) s : wp (modify f) Q s = Q tt (f s).
Proof. reflexivity. Qed.
Lemma wp_deref {A} (o : option A) a why (Q : A -> S -> Prop) s :
  o = Some a -> wp (deref o why) Q s = Q a s.
Proof. by intros ->. Qed.

Lemma wp_deref_Some {A} (a : A) why (Q : A -> S -> Prop) s : wp (deref (Some a) why) Q s = Q a s.
Proof. reflexivity. Qed.

Lemma wp_returns {A} (m : K S A) Q s :
  wp m Q s <-> exists a s', m s = Ret a s' /\ Q a s'.
Proof. unfold wp. destruct (m s); naive_solver. Qed.

(** A computation whose result is known. *)
Lemma wp_eq {A} (m : K S A) a s s' (Q : A -> S -> Prop) : m s = Ret a s' -> wp m Q s = Q a s'.
Proof. unfold wp. by intros ->. Qed.

Lemma wp_zoom {T A} (L : lens S T) (m : K T A) Q s :
  wp (zoom L m) Q s <-> wp m (fun a t => Q a (lset L t s)) (lget L s).
Proof. unfold wp, zoom. by destruct (m (lget L s)). Qed.

Lemma wlp_bind {A B} (m : K S A) (f : A -> K S B) Q s :
  wlp (m ≫= f) Q s <-> wlp m (fun a s' => wlp (f a) Q s') s.
Proof. unfold wlp, mbind, K_bind. by destruct (m s). Qed.

Lemma wlp_ret {A} (a : A) (Q : A -> S -> Prop) s : wlp (mret a) Q s = Q a s.
Proof. reflexivity. Qed.
Lemma wlp_get (Q : S -> S -> Prop) s : wlp get Q s = Q s s.
Proof. reflexivity. Qed.
Lemma wlp_put s' (Q : () -> S -> Prop) s : wlp (put s') Q s = Q tt s'.
Proof. reflexivity. Qed.
Lemma wlp_modify (f : S -> S) (Q : () -> S -> Prop) s : wlp (modify f) Q s = Q tt (f s).
Proof. reflexivity. Qed.
Lemma wlp_KASSERT b why (Q : () -> S -> Prop) s :
  wlp (KASSERT b why) Q s <-> (b = true -> Q tt s).
Proof. destruct b; unfold wlp; simpl; naive_solver. Qed.
Lemma wlp_mono {A} (m : K S A) (P Q : A -> S -> Prop) s :
  (forall a s', P a s' -> Q a s') -> wlp m P s -> wlp m Q s.
Proof. unfold wlp. destruct (m s); naive_solver. Qed.
Lemma wlp_true {A} (m : K S A) s : wlp m (fun _ _ => True) s.
Proof. unfold wlp. by destruct (m s). Qed.
Lemma wp_wlp {A} (m : K S A) (Q : A -> S -> Prop) s : wp m Q s -> wlp m Q s.
Proof. unfold wp, wlp. by destruct (m s). Qed.

Lemma bind_ret_l {A B} (a : A) (f : A -> K S B) : (mret a ≫= f : K S B) = f a.
Proof. reflexivity. Qed.
End wp_rules.

(** Equational stepping: one call of known result ([run E], with [E : m s = Ret a s']);
    and [wp] along an equation. *)
Lemma bind_eq {S A B} (m : K S A) (f : A -> K S B) (s s' : S) a :
  m s = Ret a s' -> (m ≫= f) s = f a s'.
Proof. intros E. unfold mbind, K_bind. by rewrite E. Qed.
Lemma wp_same {S A} (m m' : K S A) (Q : A -> S -> Prop) (s s' : S) : m s = m' s' -> wp m' Q s' -> wp m Q s.
Proof. unfold wp. by intros ->. Qed.
Lemma zoom_eq {S T A} (L : lens S T) (m : K T A) s a t :
  m (lget L s) = Ret a t -> zoom L m s = Ret a (lset L t s).
Proof. unfold zoom. by intros ->. Qed.
Ltac run E := erewrite bind_eq; [|apply E]; cbv beta iota.

(** Stepping through a computation whose guards are known. *)
Ltac kunfold :=
  unfold get, gets, put, modify, panic, fault, block, KASSERT, deref, zoom in *;
  unfold mbind, K_bind, mret, K_ret in *.
Ltac kstep := kunfold; simpl in *.

(** Decides [if (err)] on an error code that is a constant. *)
Ltac const_test :=
  match goal with
  | |- context [?a =? 0] =>
      first [constr_eq a 0 | is_const a];
      let r := eval vm_compute in (a =? 0) in
      lazymatch r with
      | true => change (a =? 0) with true
      | false => change (a =? 0) with false
      end
  end; cbn [negb].

(** Steps [wp] through the administrative part of a computation, up to the next
    call, branch or guard. *)
Ltac wp_simpl :=
  repeat first
    [ rewrite wp_bind | rewrite wp_ret | rewrite wp_get | rewrite wp_gets
    | rewrite wp_put | rewrite wp_modify
    | rewrite wp_deref_Some
    | erewrite wp_deref by eassumption
    | progress cbn [negb]
    | progress cbv zeta
    | const_test ].

(** The same for [wlp]. *)
Ltac wlp_simpl :=
  repeat first
    [ rewrite wlp_bind | rewrite wlp_ret | rewrite wlp_get | rewrite wlp_put
    | rewrite wlp_modify | progress cbn [negb] | progress cbv zeta ].

(** Splits the first match of the goal (then of the hypotheses) on its
    scrutinee, keeping the equation. *)
Ltac kcase :=
  match goal with
  | |- context [match ?x with _ => _ end] =>
      lazymatch x with
      | context [match _ with _ => _ end] => fail
      | _ => let E := fresh "E" in destruct x eqn:E
      end
  | H : context [match ?x with _ => _ end] |- _ =>
      lazymatch x with
      | context [match _ with _ => _ end] => fail
      | _ => let E := fresh "E" in destruct x eqn:E
      end
  end.

(** [keeps P m]: wherever [m] returns from a state in [P], the state is in [P]. *)
Definition keeps {S A} (P : S -> Prop) (m : K S A) : Prop := forall s, P s -> wlp m (fun _ => P) s.

Section keeps.
Context {S : Type} (P : S -> Prop).
Lemma keeps_ret {A} (a : A) : keeps P (mret a).
Proof. by intros s Hs. Qed.
Lemma keeps_bind {A B} (m : K S A) (f : A -> K S B) :
  keeps P m -> (forall a, keeps P (f a)) -> keeps P (m ≫= f).
Proof.
  intros Hm Hf s Hs. apply wlp_bind. eapply wlp_mono; [|by apply Hm]. intros a s' Hs'. by apply Hf.
Qed.
Lemma keeps_get : keeps P get.
Proof. by intros s Hs. Qed.
Lemma keeps_panic {A} why : keeps P (panic why : K S A).
Proof. by intros s Hs. Qed.
Lemma keeps_fault {A} why : keeps P (fault why : K S A).
Proof. by intros s Hs. Qed.
Lemma keeps_block {A} : keeps P (block : K S A).
Proof. by intros s Hs. Qed.
Lemma keeps_KASSERT b why : keeps P (KASSERT b why).
Proof. by destruct b; intros s Hs. Qed.
Lemma keeps_deref {A} (o : option A) why : keeps P (deref o why).
Proof. by destruct o; intros s Hs. Qed.
Lemma keeps_modify f : (forall s, P s -> P (f s)) -> keeps P (modify f).
Proof. intros Hf s Hs. by apply Hf. Qed.
Lemma keeps_zoom {T A} (L : lens S T) (m : K T A) :
  (forall s t, P s -> P (lset L t s)) -> keeps P (zoom L m).
Proof. intros HL s Hs. unfold wlp, zoom. destruct (m (lget L s)); auto. Qed.
End keeps.

Create HintDb keeps discriminated.
#[export] Hint Resolve keeps_ret keeps_get keeps_panic keeps_fault keeps_block keeps_KASSERT keeps_deref : keeps.
#[export] Hint Constants Opaque : keeps.

(** Follows the code: binds, branches, then the lemmas on the calls. *)
Ltac keeps_tac :=
  repeat first
    [ progress cbv beta zeta
    | match goal with
      | |- keeps _ (mbind _ _) => apply keeps_bind; [|intros ?]
      | |- keeps _ (match ?x with _ => _ end) => destruct x
      end
    | solve [eauto with keeps nocore] ].

(** An invariant of the steps holds in every reachable state. *)
Lemma rtc_invariant {A} (R : A -> A -> Prop) (I : A -> Prop) x y :
  (forall a b, I a -> R a b -> I b) -> rtc R x y -> I x -> I y.
Proof. intros HI. induction 1; eauto. Qed.

(** ** Bytes of a word, most significant first (MIPS is big-endian) *)

Definition is_byte (b : Z) : Prop := 0 <= b < 256.
#[global] Instance is_byte_dec b : Decision (is_byte b).
Proof. unfold is_byte. apply _. Defined.

Definition be_val (l : list Z) : Z := foldl (fun acc b => acc * 256 + b) 0 l.

Fixpoint be_bytes (n : nat) (z : Z) : list Z :=
  match n with
  | O => []
  | S n => (z / 256 ^ Z.of_nat n) mod 256 :: be_bytes n z
  end.

(** [Forall P] of a list written out. *)
Ltac forall_list := repeat first [apply Forall_nil_2 | apply Forall_cons_2].
Ltac forall_list_inv :=
  repeat match goal with
  | H : Forall _ (_ :: _) |- _ =>
      let H1 := fresh "Hh" in apply Forall_cons in H; destruct H as [H1 H]
  end.

(** The [i]-th byte of [v], least significant first. *)
Definition byte_at (i : Z) (v : Z) : Z := (v / 2 ^ (8 * i)) mod 256.

Section bytes.
Lemma pow256_pos n : 0 < 256 ^ Z.of_nat n.
Proof. apply Z.pow_pos_nonneg; lia. Qed.

Lemma be_bytes_length n z : length (be_bytes n z) = n.
Proof. induction n; simpl; congruence. Qed.

Lemma be_bytes_byte n z : Forall is_byte (be_bytes n z).
Proof.
  induction n; simpl; constructor; [|done].
  apply Z.mod_pos_bound. lia.
Qed.

Lemma be_val_snoc l b : be_val (l ++ [b]) = be_val l * 256 + b.
Proof. unfold be_val. by rewrite foldl_app. Qed.

Lemma be_val_app l1 l2 :
  be_val (l1 ++ l2) = be_val l1 * 256 ^ Z.of_nat (length l2) + be_val l2.
Proof.
  induction l2 as [|b l2 IH] using rev_ind.
  - rewrite app_nil_r. simpl. unfold be_val. simpl. lia.
  - rewrite app_assoc, !be_val_snoc, IH, length_app, Nat2Z.inj_add. simpl.
    rewrite Z.pow_add_r by lia. change (256 ^ 1) with 256. lia.
Qed.

Lemma be_val_range l : Forall is_byte l -> 0 <= be_val l < 256 ^ Z.of_nat (length l).
Proof.
  induction l as [|b l IH] using rev_ind; [done|].
  rewrite Forall_app, Forall_singleton. intros [Hl Hb]. specialize (IH Hl).
  rewrite be_val_snoc, length_app, Nat2Z.inj_add. change (Z.of_nat (length [b])) with 1.
  rewrite Z.pow_add_r, Z.pow_1_r by lia. unfold is_byte in Hb. lia.
Qed.

Lemma be_val_cons b l : be_val (b :: l) = b * 256 ^ Z.of_nat (length l) + be_val l.
Proof. change (b :: l) with ([b] ++ l). rewrite be_val_app. done. Qed.

(** Encoding then decoding an [n]-byte word. *)
Lemma be_val_bytes n z : be_val (be_bytes n z) = z mod 256 ^ Z.of_nat n.
Proof.
  induction n as [|n IH]; [simpl; by rewrite Z.mod_1_r|].
  simpl be_bytes. rewrite be_val_cons, IH, be_bytes_length, Nat2Z.inj_succ, Z.pow_succ_r by lia.
  rewrite (Z.mul_comm 256 (256 ^ Z.of_nat n)).
  assert (0 < 256 ^ Z.of_nat n) by apply pow256_pos.
  rewrite Z.rem_mul_r by lia. lia.
Qed.

Lemma be_bytes_mod n m z :
  (n <= m)%nat -> be_bytes n (z mod 256 ^ Z.of_nat m) = be_bytes n z.
Proof.
  induction n as [|n IH]; intros Hle; simpl; [done|]. f_equal; [|apply IH; lia].
  replace (Z.of_nat m) with (Z.of_nat n + 1 + Z.of_nat (m - n - 1)) by lia.
  rewrite !Z.pow_add_r, <-Z.mul_assoc by lia. change (256 ^ 1) with 256.
  assert (0 < 256 ^ Z.of_nat n) by apply pow256_pos.
  assert (0 < 256 ^ Z.of_nat (m - n - 1)) by apply pow256_pos.
  rewrite Z.rem_mul_r, (Z.mul_comm (256 ^ Z.of_nat n)), Z.div_add, Z.div_small by
    first [lia | apply Z.mod_pos_bound; lia].
  rewrite Z.add_0_l, Z.rem_mul_r by lia.
  rewrite (Z.mul_comm 256), Z.mod_add, Zmod_mod by lia. done.
Qed.

(** Decoding then encoding a list of bytes. *)
Lemma be_bytes_val l : Forall is_byte l -> be_bytes (length l) (be_val l) = l.
Proof.
  induction l as [|b l IH]; [done|]. intros [Hb Hl]%Forall_cons. simpl.
  assert (Hr := be_val_range l Hl).
  assert (0 < 256 ^ Z.of_nat (length l)) by apply pow256_pos.
  rewrite be_val_cons. f_equal.
  - rewrite Z.add_comm, Z.div_add, Z.div_small by lia. rewrite Z.add_0_l.
    apply Z.mod_small. exact Hb.
  - rewrite <-(be_bytes_mod _ (length l)) by lia.
    rewrite Z.add_comm, Z.mod_add, be_bytes_mod by lia. auto.
Qed.

Lemma be_val_inj l1 l2 :
  length l1 = length l2 -> Forall is_byte l1 -> Forall is_byte l2 ->
  be_val l1 = be_val l2 -> l1 = l2.
Proof.
  intros Hlen H1 H2 E. rewrite <-(be_bytes_val l1), <-(be_bytes_val l2) by done.
  by rewrite E, Hlen.
Qed.
End bytes.

(** ** Bit fields *)

Section bitfields.
Lemma byte_at_range i v : is_byte (byte_at i v).
Proof. unfold byte_at, is_byte. apply Z.mod_pos_bound. lia. Qed.

(** Selecting the byte at bit [8 * i] with a mask. *)
Lemma land_byte_mask i v :
  0 <= i -> Z.land v (Z.shiftl 255 (8 * i)) = byte_at i v * 2 ^ (8 * i).
Proof.
  intros Hi. unfold byte_at. change 256 with (2 ^ 8). change 255 with (Z.ones 8).
  rewrite <-Z.shiftr_div_pow2, <-Z.land_ones, <-Z.shiftl_mul_pow2 by lia.
  apply Z.bits_inj'. intros n Hn. rewrite Z.land_spec, !Z.shiftl_spec by lia.
  destruct (Z.lt_ge_cases n (8 * i)).
  - rewrite !Z.testbit_neg_r with (n := n - 8 * i) by lia. by rewrite andb_false_r.
  - rewrite Z.land_spec, Z.shiftr_spec by lia. by rewrite Z.sub_add.
Qed.

(** Two fields that do not overlap: [|] is [+]. *)
Lemma lor_disjoint a b k : 0 <= k -> 0 <= b < 2 ^ k -> Z.lor (a * 2 ^ k) b = a * 2 ^ k + b.
Proof.
  intros Hk Hb.
  assert (Hd : Z.land (a * 2 ^ k) b = 0).
  { apply Z.bits_inj'. intros n Hn.
    rewrite Z.land_spec, Z.bits_0, <-Z.shiftl_mul_pow2, Z.shiftl_spec by lia.
    destruct (Z.lt_ge_cases n k); [by rewrite Z.testbit_neg_r by lia|].
    rewrite <-(Z.mod_small b (2 ^ k)), Z.mod_pow2_bits_high by lia.
    apply andb_false_r. }
  rewrite <-Z.lxor_lor by done. symmetry. by apply Z.add_nocarry_lxor.
Qed.
Lemma lor_byte a b : is_byte a -> is_byte b -> is_byte (Z.lor a b).
Proof.
  unfold is_byte. intros Ha Hb.
  rewrite <-(Z.mod_small a (2 ^ 8)), <-(Z.mod_small b (2 ^ 8)) by lia.
  rewrite <-!Z.land_ones, <-Z.land_lor_distr_l, Z.land_ones by lia.
  apply Z.mod_pos_bound. lia.
Qed.
End bitfields.
