(* ===== verification/Endian.v ===== *)
(** * Byte order and time arithmetic: [kern/lib/bswap.c] and [kern/lib/time.c]

    The byte-swap routines as written, on 16-, 32- and 64-bit words; the pasting
    of two register-sized words into a 64-bit one; and the addition and
    subtraction of [struct timespec].  The kernel is big-endian, so [ntoh*] and
    [hton*] are the identity. *)
From S2P Require Import Prelude.

Module Bswap.
Definition bswap16 (val : Z) : Z :=
  u16 (Z.lor (Z.shiftl (Z.land val 0x00ff) 8)
             (Z.shiftr (Z.land val 0xff00) 8)).

Definition bswap32 (val : Z) : Z :=
  Z.lor (Z.lor (Z.lor (u32 (Z.shiftl (Z.land val 0x000000ff) 24))
                      (u32 (Z.shiftl (Z.land val 0x0000ff00) 8)))
               (Z.shiftr (Z.land val 0x00ff0000) 8))
        (Z.shiftr (Z.land val 0xff000000) 24).

Definition bswap64 (val : Z) : Z :=
  Z.lor (Z.lor (Z.lor (Z.lor (Z.lor (Z.lor (Z.lor
    (u64 (Z.shiftl (Z.land val 0x00000000000000ff) 56))
    (u64 (Z.shiftl (Z.land val 0x000000000000ff00) 40)))
    (u64 (Z.shiftl (Z.land val 0x0000000000ff0000) 24)))
    (u64 (Z.shiftl (Z.land val 0x00000000ff000000) 8)))
    (u64 (Z.shiftl (Z.land val 0x000000ff00000000) 8)))
    (u64 (Z.shiftl (Z.land val 0x0000ff0000000000) 24)))
    (Z.shiftr (Z.land val 0x00ff000000000000) 40))
    (Z.shiftr (Z.land val 0xff00000000000000) 56).

(** [TO(s, 16, uint16_t)] and the two below, [_BYTE_ORDER == _BIG_ENDIAN]. *)
Definition ntohs (val : Z) : Z := val.
Definition htons (val : Z) : Z := val.
Definition ntohl (val : Z) : Z := val.
Definition htonl (val : Z) : Z := val.
Definition ntohll (val : Z) : Z := val.
Definition htonll (val : Z) : Z := val.

Definition join32to64 (x1 x2 : Z) : Z := Z.lor (u64 (Z.shiftl x1 32)) x2.
Definition split64to32 (x : Z) : Z * Z := (u32 (Z.shiftr x 32), Z.land x 0xffffffff).
End Bswap.

Module Time.
(** [tv_sec] is a 64-bit [time_t], [tv_nsec] a 32-bit [int]. *)
Record timespec := Timespec { tv_sec : Z; tv_nsec : Z }.

Definition timespec_add (ts1 ts2 : timespec) : timespec :=
  let nsec := s32 (tv_nsec ts1 + tv_nsec ts2) in
  let sec := s64 (tv_sec ts1 + tv_sec ts2) in
  if 1000000000 <=? nsec
  then Timespec (s64 (sec + 1)) (s32 (nsec - 1000000000))
  else Timespec sec nsec.

Definition timespec_sub (ts1 ts2 : timespec) : timespec :=
  let r :=
    if tv_nsec ts1 <? tv_nsec ts2
    then Timespec (s64 (tv_sec ts1 - 1)) (s32 (tv_nsec ts1 + 1000000000))
    else ts1 in
  Timespec (s64 (tv_sec r - tv_sec ts2)) (s32 (tv_nsec r - tv_nsec ts2)).

(** The invariant of the clock values: nanoseconds below a second.  Seconds are
    kept away from the ends of the 64-bit range. *)
Definition normalised (t : timespec) : Prop :=
  0 <= tv_nsec t < 1000000000 /\ - 2 ^ 61 <= tv_sec t < 2 ^ 61.

(** The instant, in nanoseconds. *)
Definition nanos (t : timespec) : Z := tv_sec t * 1000000000 + tv_nsec t.
End Time.

Section Bswap_facts.
Import Bswap.

(** Each term of a byte swap moves one byte to the left or to the right. *)
Lemma move_left i k v :
  0 <= i -> 0 <= k ->
  Z.shiftl (Z.land v (Z.shiftl 255 (8 * i))) k = byte_at i v * 2 ^ (8 * i + k).
Proof.
  intros. rewrite land_byte_mask, Z.shiftl_mul_pow2, Z.pow_add_r by lia. lia.
Qed.

Lemma move_right i k v :
  0 <= k <= 8 * i ->
  Z.shiftr (Z.land v (Z.shiftl 255 (8 * i))) k = byte_at i v * 2 ^ (8 * i - k).
Proof.
  intros. rewrite land_byte_mask, Z.shiftr_div_pow2 by lia.
  replace (8 * i) with ((8 * i - k) + k) at 1 by lia.
  rewrite Z.pow_add_r, Z.mul_assoc, Z.div_mul by lia. done.
Qed.

Lemma byte_at_be_val i (l1 l2 : list Z) b :
  is_byte b -> Forall is_byte l2 -> i = Z.of_nat (length l2) ->
  byte_at i (be_val (l1 ++ b :: l2)) = b.
Proof.
  intros Hb Hl ->. unfold byte_at. change (b :: l2) with ([b] ++ l2).
  rewrite app_assoc, be_val_app, be_val_snoc.
  replace (2 ^ (8 * Z.of_nat (length l2))) with (256 ^ Z.of_nat (length l2))
    by (rewrite Z.pow_mul_r by lia; done).
  pose proof (pow256_pos (length l2)). pose proof (be_val_range l2 Hl).
  rewrite Z.add_comm, Z.div_add, Z.div_small, Z.add_0_l, Z.add_comm, Z.mod_add by lia.
  apply Z.mod_small. exact Hb.
Qed.

(** Appending a byte field to a run of byte fields. *)
Lemma lor_field l b n :
  0 <= n -> is_byte b ->
  Z.lor (be_val l * 2 ^ (8 * (n + 1))) (b * 2 ^ (8 * n)) = be_val (l ++ [b]) * 2 ^ (8 * n).
Proof.
  intros Hn Hb. unfold is_byte in Hb. assert (0 < 2 ^ (8 * n)) by (apply Z.pow_pos_nonneg; lia).
  replace (8 * (n + 1)) with (8 + 8 * n) by lia.
  assert (E : 2 ^ (8 + 8 * n) = 256 * 2 ^ (8 * n)) by (rewrite Z.pow_add_r by lia; done).
  rewrite lor_disjoint, be_val_snoc, E by (rewrite ?E; nia). lia.
Qed.

Lemma lor_same_field a b k :
  0 <= k -> Z.lor (a * 2 ^ k) (b * 2 ^ k) = Z.lor a b * 2 ^ k.
Proof. intros. by rewrite <-!Z.shiftl_mul_pow2, <-Z.shiftl_lor by lia. Qed.

Lemma be_val_1 b : be_val [b] = b.
Proof. done. Qed.

(** The fields of a masked and shifted word that stay inside the result. *)
Ltac fields v :=
  rewrite ?move_left, ?move_right by lia;
  repeat match goal with
  | |- context [2 ^ (8 * ?i + ?k)] =>
      let j := eval compute in (i + k / 8) in change (2 ^ (8 * i + k)) with (2 ^ (8 * j))
  | |- context [2 ^ (8 * ?i - ?k)] =>
      let j := eval compute in (i - k / 8) in change (2 ^ (8 * i - k)) with (2 ^ (8 * j))
  end;
  pose proof (byte_at_range 0 v); pose proof (byte_at_range 1 v);
  pose proof (byte_at_range 2 v); pose proof (byte_at_range 3 v);
  pose proof (byte_at_range 4 v); pose proof (byte_at_range 5 v);
  pose proof (byte_at_range 6 v); pose proof (byte_at_range 7 v).

Lemma u32_field b i : is_byte b -> 0 <= i < 4 -> u32 (b * 2 ^ (8 * i)) = b * 2 ^ (8 * i).
Proof.
  unfold is_byte. intros Hb Hi. apply u32_small.
  assert (i = 0 \/ i = 1 \/ i = 2 \/ i = 3) as [->|[->|[->| ->]]] by lia; simpl; lia.
Qed.
Lemma u64_field b i : is_byte b -> 0 <= i < 8 -> u64 (b * 2 ^ (8 * i)) = b * 2 ^ (8 * i).
Proof.
  unfold is_byte. intros Hb Hi. apply u64_small. change (2 ^ 64) with (2 ^ 8 * 2 ^ 56).
  assert (0 < 2 ^ (8 * i)) by (apply Z.pow_pos_nonneg; lia).
  assert (2 ^ (8 * i) <= 2 ^ 56) by (apply Z.pow_le_mono_r; lia). nia.
Qed.
Lemma u64_field_out b : u64 (b * 2 ^ (8 * 8)) = 0.
Proof. unfold u64. change (8 * 8) with 64. rewrite Z.mod_mul by lia. done. Qed.

Lemma bswap16_bytes v : bswap16 v = be_val [byte_at 0 v; byte_at 1 v].
Proof.
  unfold bswap16. change 0x00ff with (Z.shiftl 255 (8 * 0)).
  change 0xff00 with (Z.shiftl 255 (8 * 1)). fields v.
  rewrite <-(be_val_1 (byte_at 0 v)) at 1. change 1 with (0 + 1) at 1.
  rewrite lor_field, Z.mul_1_r by done. unfold is_byte in *.
  apply u16_small. unfold be_val. simpl. lia.
Qed.

Lemma bswap32_bytes v :
  bswap32 v = be_val [byte_at 0 v; byte_at 1 v; byte_at 2 v; byte_at 3 v].
Proof.
  unfold bswap32. change 0x000000ff with (Z.shiftl 255 (8 * 0)).
  change 0x0000ff00 with (Z.shiftl 255 (8 * 1)).
  change 0x00ff0000 with (Z.shiftl 255 (8 * 2)).
  change 0xff000000 with (Z.shiftl 255 (8 * 3)). fields v.
  rewrite !u32_field by (done || lia). rewrite <-(be_val_1 (byte_at 0 v)) at 1.
  rewrite (lor_field _ _ 2), (lor_field _ _ 1), (lor_field _ _ 0) by (done || lia).
  apply Z.mul_1_r.
Qed.

(** What the code computes on 64 bits. *)
Lemma bswap64_bytes v :
  bswap64 v = be_val [byte_at 0 v; byte_at 1 v; Z.lor (byte_at 2 v) (byte_at 4 v);
                      byte_at 3 v; 0; 0; byte_at 6 v; byte_at 7 v].
Proof.
  unfold bswap64. change 0x00000000000000ff with (Z.shiftl 255 (8 * 0)).
  change 0x000000000000ff00 with (Z.shiftl 255 (8 * 1)).
  change 0x0000000000ff0000 with (Z.shiftl 255 (8 * 2)).
  change 0x00000000ff000000 with (Z.shiftl 255 (8 * 3)).
  change 0x000000ff00000000 with (Z.shiftl 255 (8 * 4)).
  change 0x0000ff0000000000 with (Z.shiftl 255 (8 * 5)).
  change 0x00ff000000000000 with (Z.shiftl 255 (8 * 6)).
  change 0xff00000000000000 with (Z.shiftl 255 (8 * 7)). fields v.
  rewrite u64_field_out, Z.lor_0_r, !u64_field by (done || lia).
  rewrite <-(Z.lor_assoc _ (byte_at 3 v * _)), (Z.lor_comm (byte_at 3 v * _)), Z.lor_assoc.
  rewrite <-(Z.lor_assoc _ (byte_at 2 v * _)), lor_same_field by lia.
  assert (is_byte (Z.lor (byte_at 2 v) (byte_at 4 v))).
  { by apply lor_byte. }
  rewrite <-(be_val_1 (byte_at 0 v)) at 1.
  rewrite (lor_field _ _ 6), (lor_field _ _ 5), (lor_field _ _ 4) by (done || lia).
  simpl app.
  replace (be_val [byte_at 0 v; byte_at 1 v; Z.lor (byte_at 2 v) (byte_at 4 v); byte_at 3 v]
            * 2 ^ (8 * 4))
    with (be_val [byte_at 0 v; byte_at 1 v; Z.lor (byte_at 2 v) (byte_at 4 v); byte_at 3 v; 0; 0]
            * 2 ^ (8 * (1 + 1))) by (unfold be_val; simpl; lia).
  rewrite (lor_field _ _ 1), (lor_field _ _ 0) by (done || lia). apply Z.mul_1_r.
Qed.

(** Every 32-bit word is the value of its four bytes. *)
Lemma u32_as_bytes v :
  0 <= v < 2 ^ 32 -> be_val [byte_at 3 v; byte_at 2 v; byte_at 1 v; byte_at 0 v] = v.
Proof.
  intros Hv. transitivity (be_val (be_bytes 4 v)); [done|].
  rewrite be_val_bytes. apply Z.mod_small. simpl. lia.
Qed.

Lemma bytes_of_word i (l : list Z) n b :
  Forall is_byte l -> l !! n = Some b -> i = Z.of_nat (length l - S n) ->
  byte_at i (be_val l) = b.
Proof.
  intros Hl Hn ->. pose proof (lookup_lt_Some _ _ _ Hn) as Hlt.
  rewrite <-(take_drop_middle l n b Hn) at 2.
  apply byte_at_be_val.
  - eapply Forall_lookup_1; eauto.
  - by apply Forall_drop.
  - rewrite length_drop. lia.
Qed.

Lemma bswap32_rev l :
  length l = 4%nat -> Forall is_byte l -> bswap32 (be_val l) = be_val (rev l).
Proof.
  intros Hlen Hl. rewrite bswap32_bytes.
  destruct l as [|b3 [|b2 [|b1 [|b0 [|]]]]]; try discriminate Hlen.
  rewrite (bytes_of_word 0 _ 3 b0), (bytes_of_word 1 _ 2 b1), (bytes_of_word 2 _ 1 b2),
    (bytes_of_word 3 _ 0 b3) by done. done.
Qed.

(** [bswap32] reverses the four bytes of a word; it is its own inverse, and
    its result is again a 32-bit word. *)
Lemma bswap32_spec l v :
  length l = 4%nat -> Forall is_byte l -> 0 <= v < 2 ^ 32 ->
  bswap32 (be_val l) = be_val (rev l) /\ 0 <= bswap32 v < 2 ^ 32 /\ bswap32 (bswap32 v) = v.
Proof.
  intros Hlen Hl Hv. split; [by apply bswap32_rev|].
  set (k := [byte_at 3 v; byte_at 2 v; byte_at 1 v; byte_at 0 v]).
  assert (Hk : Forall is_byte k) by (forall_list; apply byte_at_range).
  rewrite <-(u32_as_bytes v Hv). change (be_val _) with (be_val k).
  rewrite (bswap32_rev k), (bswap32_rev (rev k)) by (done || by apply Forall_rev).
  split; [|by rewrite rev_involutive].
  apply (be_val_range (rev k)). by apply Forall_rev.
Qed.

Lemma bswap64_bytes_ok_iff (b7 b6 b5 b4 b3 b2 b1 b0 : Z) :
  Forall is_byte [b7; b6; b5; b4; b3; b2; b1; b0] ->
  be_val [b0; b1; Z.lor b2 b4; b3; 0; 0; b6; b7] = be_val [b0; b1; b2; b3; b4; b5; b6; b7] <->
  b4 = 0 /\ b5 = 0.
Proof.
  intros Hl. split.
  - intros E. forall_list_inv.
    assert (is_byte 0) by by compute. apply be_val_inj in E; [by simplify_eq|done|..];
      forall_list; try done; by apply lor_byte.
  - intros [-> ->]. by rewrite Z.lor_0_r.
Qed.

(** [bswap64] does not reverse the bytes of a word: the two terms for bytes 4
    and 5 shift to the left where they should shift to the right.  Byte 5 is
    lost, byte 4 is or-ed over byte 2, and so two words that differ have the
    same image: no inverse exists.  The bytes come out reversed exactly when bytes
    4 and 5 are 0. *)
Lemma bswap64_not_reversal :
  (forall b7 b6 b5 b4 b3 b2 b1 b0,
    Forall is_byte [b7; b6; b5; b4; b3; b2; b1; b0] ->
    bswap64 (be_val [b7; b6; b5; b4; b3; b2; b1; b0]) =
      be_val [b0; b1; Z.lor b2 b4; b3; 0; 0; b6; b7] /\
    (bswap64 (be_val [b7; b6; b5; b4; b3; b2; b1; b0]) =
      be_val (rev [b7; b6; b5; b4; b3; b2; b1; b0]) <-> b4 = 0 /\ b5 = 0)) /\
  (exists v w, 0 <= v < w /\ w < 2 ^ 64 /\ bswap64 v = bswap64 w).
Proof.
  split.
  - intros * Hl. rewrite <-bswap64_bytes_ok_iff by done. simpl rev.
    assert (E : forall x y : Z, x = y -> x = y /\ (x = be_val [b0; b1; b2; b3; b4; b5; b6; b7] <->
              y = be_val [b0; b1; b2; b3; b4; b5; b6; b7])) by (intros ? ? ->; done).
    apply E. rewrite bswap64_bytes.
    by rewrite (bytes_of_word 0 _ 7 b0), (bytes_of_word 1 _ 6 b1), (bytes_of_word 2 _ 5 b2),
      (bytes_of_word 3 _ 4 b3), (bytes_of_word 4 _ 3 b4), (bytes_of_word 6 _ 1 b6),
      (bytes_of_word 7 _ 0 b7).
  - exists 0, 0x0000ff0000000000. repeat split; lia || reflexivity.
Qed.

(** Splitting a 64-bit word into two registers and pasting them back is the
    identity, both ways. *)
Lemma join_split_spec x x1 x2 :
  0 <= x < 2 ^ 64 -> 0 <= x1 < 2 ^ 32 -> 0 <= x2 < 2 ^ 32 ->
  split64to32 (join32to64 x1 x2) = (x1, x2) /\
  join32to64 (split64to32 x).1 (split64to32 x).2 = x.
Proof.
  intros Hx H1 H2. unfold split64to32, join32to64. simpl.
  change 0xffffffff with (Z.ones 32). rewrite !Z.land_ones, !Z.shiftr_div_pow2 by lia.
  assert (J : forall a b, 0 <= a < 2 ^ 32 -> 0 <= b < 2 ^ 32 ->
            Z.lor (u64 (Z.shiftl a 32)) b = a * 2 ^ 32 + b).
  { intros a b Ha Hb. rewrite Z.shiftl_mul_pow2, u64_small, lor_disjoint by lia. done. }
  rewrite (J x1 x2) by lia.
  assert (Hd : 0 <= x / 2 ^ 32 < 2 ^ 32)
    by (split; [apply Z.div_pos; lia | apply Z.div_lt_upper_bound; lia]).
  rewrite (u32_small (x / 2 ^ 32)) by lia.
  rewrite J by (lia || apply Z.mod_pos_bound; lia). split.
  - rewrite Z.div_add_l, (Z.div_small x2), Z.add_0_r, u32_small by lia.
    rewrite (Z.add_comm (x1 * _)), Z.mod_add, Z.mod_small by lia. done.
  - rewrite (Z.div_mod x (2 ^ 32)) at 3 by lia. lia.
Qed.

(** Byte order.  [bswap32] reverses the four bytes of a word, is its own inverse and
    gives a 32-bit word again; splitting a 64-bit word into two registers and pasting
    them back is the identity, both ways. *)
Lemma byte_order_round_trips l v x x1 x2 :
  length l = 4%nat -> Forall is_byte l -> 0 <= v < 2 ^ 32 ->
  0 <= x < 2 ^ 64 -> 0 <= x1 < 2 ^ 32 -> 0 <= x2 < 2 ^ 32 ->
  bswap32 (be_val l) = be_val (rev l) /\ 0 <= bswap32 v < 2 ^ 32 /\ bswap32 (bswap32 v) = v /\
  split64to32 (join32to64 x1 x2) = (x1, x2) /\
  join32to64 (split64to32 x).1 (split64to32 x).2 = x.
Proof.
  intros Hlen Hl Hv Hx H1 H2. destruct (bswap32_spec l v Hlen Hl Hv) as (? & ? & ?).
  destruct (join_split_spec x x1 x2 Hx H1 H2). tauto.
Qed.

Lemma byte_order_round_trips_witness :
  bswap32 (be_val [1; 2; 3; 4]) = be_val [4; 3; 2; 1] /\ 0 <= bswap32 0x12345678 < 2 ^ 32 /\
  bswap32 (bswap32 0x12345678) = 0x12345678 /\ split64to32 (join32to64 7 9) = (7, 9) /\
  join32to64 (split64to32 0x123456789a).1 (split64to32 0x123456789a).2 = 0x123456789a.
Proof.
  apply (byte_order_round_trips [1; 2; 3; 4] 0x12345678 0x123456789a 7 9); [done| |lia..].
  forall_list; by compute.
Defined.
End Bswap_facts.

Section Time_facts.
Import Time.

Lemma timespec_add_spec ts1 ts2 :
  normalised ts1 -> normalised ts2 ->
  nanos (timespec_add ts1 ts2) = nanos ts1 + nanos ts2 /\
  0 <= tv_nsec (timespec_add ts1 ts2) < 1000000000.
Proof.
  unfold normalised, timespec_add, nanos. intros [? ?] [? ?].
  rewrite (s32_small (tv_nsec ts1 + tv_nsec ts2)), (s64_small (tv_sec ts1 + _)) by lia.
  case_match; simpl; rewrite ?s32_small, ?s64_small by lia; lia.
Qed.

Lemma timespec_sub_spec ts1 ts2 :
  normalised ts1 -> normalised ts2 ->
  nanos (timespec_sub ts1 ts2) = nanos ts1 - nanos ts2 /\
  0 <= tv_nsec (timespec_sub ts1 ts2) < 1000000000.
Proof.
  unfold normalised, timespec_sub, nanos. intros [? ?] [? ?].
  case_match; simpl;
    rewrite ?(s64_small (tv_sec ts1 - 1)), ?(s32_small (tv_nsec ts1 + 1000000000)) by lia;
    rewrite s32_small, s64_small by lia; lia.
Qed.

(** Normalised times are determined by the instant. *)
Lemma nanos_inj ts1 ts2 :
  0 <= tv_nsec ts1 < 1000000000 -> 0 <= tv_nsec ts2 < 1000000000 ->
  nanos ts1 = nanos ts2 -> ts1 = ts2.
Proof.
  destruct ts1, ts2. unfold nanos. simpl. intros.
  assert (tv_sec0 = tv_sec1) by lia. subst. f_equal. lia.
Qed.

(** On normalised times addition and subtraction are exact: they add and
    subtract the instants, carry and borrow included, keep the nanoseconds below
    a second, and subtraction undoes addition. *)
Lemma timespec_arith ts1 ts2 :
  normalised ts1 -> normalised ts2 -> normalised (timespec_add ts1 ts2) ->
  nanos (timespec_add ts1 ts2) = nanos ts1 + nanos ts2 /\
  nanos (timespec_sub ts1 ts2) = nanos ts1 - nanos ts2 /\
  0 <= tv_nsec (timespec_sub ts1 ts2) < 1000000000 /\
  timespec_sub (timespec_add ts1 ts2) ts2 = ts1.
Proof.
  intros H1 H2 H3.
  destruct (timespec_add_spec ts1 ts2 H1 H2), (timespec_sub_spec ts1 ts2 H1 H2),
    (timespec_sub_spec _ ts2 H3 H2).
  split_and!; try tauto. apply nanos_inj; [done|apply H1|lia].
Qed.

Lemma timespec_arith_witness :
  let a := Timespec 3 900000000 in let b := Timespec 1 200000000 in
  nanos (timespec_add a b) = nanos a + nanos b /\
  nanos (timespec_sub a b) = nanos a - nanos b /\
  0 <= tv_nsec (timespec_sub a b) < 1000000000 /\
  timespec_sub (timespec_add a b) b = a.
Proof. apply timespec_arith; compute; intuition discriminate. Defined.
End Time_facts.
