(* ===== verification/Bitmap.v ===== *)
(** * Bitmaps: [kern/lib/bitmap.c]

    A bitmap is [nbits] bits packed into bytes; the bits past the end, in the last
    byte, are kept set so that no search returns them.  The abstraction of a
    bitmap is the set of its indices whose bit is set ([bit]); every operation is
    specified by what it does to that set. *)
From S2P Require Import Prelude.

Module Bitmap.
Record bitmap := MkBitmap { nbits : Z; v : list Z }.

Definition WORD_ALLBITS : Z := 0xff.

Definition set_word (ix : Z) (w : Z) (b : bitmap) : bitmap :=
  MkBitmap (nbits b) (<[Z.to_nat ix := w]> (v b)).

(** [for (j=overbits; j<BITS_PER_WORD; j++) b->v[ix] |= 1 << j]. *)
Definition mark_leftover (overbits : Z) (w : Z) : Z :=
  foldl (fun w j => Z.lor w (u8 (Z.shiftl 1 j))) w (seqZ overbits (8 - overbits)).

(** The two allocations succeed or not ([mem], [mem']). *)
Definition bitmap_create (mem mem' : bool) (n : Z) : K () (option bitmap) :=
  let words := DIVROUNDUP n 8 in
  if negb mem then mret None else
  if negb mem' then mret None else
  let b := MkBitmap n (replicate (Z.to_nat words) 0) in
  if n / 8 <? words then
    let ix := u32 (words - 1) in
    let overbits := u32 (n - u32 (ix * 8)) in
    KASSERT (n / 8 =? ix) "nbits / BITS_PER_WORD == words-1";;
    KASSERT ((0 <? overbits) && (overbits <? 8)) "overbits > 0 && overbits < BITS_PER_WORD";;
    w ← deref (v b !! Z.to_nat ix) "b->v[ix]";
    mret (Some (set_word ix (mark_leftover overbits w) b))
  else mret (Some b).

Definition bitmap_getdata (b : bitmap) : list Z := v b.

(** The inner loop of [bitmap_alloc]: the first offset from [offset] on whose
    bit of [w] is clear; [n] is [8 - offset]. *)
Fixpoint clear_offset (n : nat) (offset : Z) (w : Z) : option Z :=
  match n with
  | O => None
  | S n => if Z.land w (u8 (Z.shiftl 1 offset)) =? 0 then Some offset
           else clear_offset n (offset + 1) w
  end.

(** The outer loop; [n] is [maxix - ix].  Result: error code and [*index]. *)
Fixpoint alloc_from (n : nat) (ix : Z) : K bitmap (Z * option Z) :=
  match n with
  | O => mret (ENOSPC, None)
  | S n =>
      b ← get;
      w ← deref (v b !! Z.to_nat ix) "b->v[ix]";
      if w =? WORD_ALLBITS then alloc_from n (ix + 1) else
      match clear_offset 8 0 w with
      | Some offset =>
          put (set_word ix (Z.lor w (u8 (Z.shiftl 1 offset))) b);;
          let index := u32 (ix * 8 + offset) in
          KASSERT (index <? nbits b) "*index < b->nbits";;
          mret (0, Some index)
      | None => panic "KASSERT(0)"
      end
  end.

Definition bitmap_alloc : K bitmap (Z * option Z) :=
  b ← get; alloc_from (Z.to_nat (DIVROUNDUP (nbits b) 8)) 0.

Definition bitmap_translate (bitno : Z) : Z * Z := (bitno / 8, u8 (Z.shiftl 1 (bitno mod 8))).

Definition bitmap_mark (index : Z) : K bitmap () :=
  b ← get;
  KASSERT (index <? nbits b) "index < b->nbits";;
  let '(ix, mask) := bitmap_translate index in
  w ← deref (v b !! Z.to_nat ix) "b->v[ix]";
  KASSERT (Z.land w mask =? 0) "(b->v[ix] & mask)==0";;
  put (set_word ix (Z.lor w mask) b).

Definition bitmap_unmark (index : Z) : K bitmap () :=
  b ← get;
  KASSERT (index <? nbits b) "index < b->nbits";;
  let '(ix, mask) := bitmap_translate index in
  w ← deref (v b !! Z.to_nat ix) "b->v[ix]";
  KASSERT (negb (Z.land w mask =? 0)) "(b->v[ix] & mask)!=0";;
  put (set_word ix (u8 (Z.land w (Z.lnot mask))) b).

Definition bitmap_isset (index : Z) : K bitmap Z :=
  b ← get;
  let '(ix, mask) := bitmap_translate index in
  w ← deref (v b !! Z.to_nat ix) "b->v[ix]";
  mret (Z.land w mask).

(** ** Abstraction and invariant *)

Definition bit (b : bitmap) (i : Z) : bool :=
  match v b !! Z.to_nat (i / 8) with Some w => Z.testbit w (i mod 8) | None => false end.

Definition wf (b : bitmap) : Prop :=
  0 <= nbits b /\ nbits b + 7 < 2 ^ 32 /\
  Z.of_nat (length (v b)) = DIVROUNDUP (nbits b) 8 /\
  Forall is_byte (v b) /\
  (forall i, nbits b <= i < 8 * Z.of_nat (length (v b)) -> bit b i = true).
End Bitmap.

Section Bitmap_facts.
Import Bitmap.

Lemma mask_pow j : 0 <= j < 8 -> u8 (Z.shiftl 1 j) = 2 ^ j.
Proof.
  intros. rewrite Z.shiftl_1_l. apply u8_small. split; [apply Z.pow_nonneg; lia|].
  change 256 with (2 ^ 8). apply Z.pow_lt_mono_r; lia.
Qed.

Lemma land_bit w j : 0 <= j -> Z.land w (2 ^ j) = if Z.testbit w j then 2 ^ j else 0.
Proof.
  intros. apply Z.bits_inj'. intros n Hn. rewrite Z.land_spec, Z.pow2_bits_eqb by lia.
  destruct (Z.eqb_spec j n) as [->|]; case_match;
    rewrite ?Z.pow2_bits_eqb, ?Z.bits_0, ?Z.eqb_refl by lia; try congruence; try done.
  all: rewrite andb_false_r; try done. symmetry. by apply Z.eqb_neq.
Qed.

Lemma land_bit_eqb w j : 0 <= j -> (Z.land w (2 ^ j) =? 0) = negb (Z.testbit w j).
Proof.
  intros. rewrite land_bit by done. destruct (Z.testbit w j); [|done].
  apply Z.eqb_neq. assert (0 < 2 ^ j) by (apply Z.pow_pos_nonneg; lia). lia.
Qed.

Lemma lor_bit_testbit w j k :
  0 <= j -> 0 <= k -> Z.testbit (Z.lor w (2 ^ j)) k = (j =? k) || Z.testbit w k.
Proof. intros. rewrite Z.lor_spec, Z.pow2_bits_eqb by lia. apply orb_comm. Qed.

Lemma clear_bit_testbit w j k :
  0 <= j < 8 -> 0 <= k < 8 ->
  Z.testbit (u8 (Z.land w (Z.lnot (2 ^ j)))) k = negb (j =? k) && Z.testbit w k.
Proof.
  intros. unfold u8. rewrite Z.mod_pow2_bits_low by lia.
  rewrite Z.land_spec, Z.lnot_spec, Z.pow2_bits_eqb by lia. apply andb_comm.
Qed.

Lemma pow2_byte j : 0 <= j < 8 -> is_byte (2 ^ j).
Proof. intros. rewrite <-mask_pow by lia. apply u8_range. Qed.

(** A byte that is not [0xff] has a clear bit. *)
Lemma byte_full w : is_byte w -> (forall j, 0 <= j < 8 -> Z.testbit w j = true) -> w = 255.
Proof.
  intros Hw H. rewrite <-(Z.mod_small w (2 ^ 8)) by (unfold is_byte in Hw; lia).
  change 255 with (Z.ones 8). apply Z.bits_inj'. intros n Hn.
  destruct (Z.lt_ge_cases n 8).
  - rewrite Z.mod_pow2_bits_low, Z.ones_spec_low, H by lia. done.
  - rewrite Z.mod_pow2_bits_high, Z.ones_spec_high by lia. done.
Qed.

Lemma clear_offset_spec n offset w :
  0 <= offset -> offset + Z.of_nat n = 8 ->
  match clear_offset n offset w with
  | Some j => offset <= j < 8 /\ Z.testbit w j = false /\
              forall k, offset <= k < j -> Z.testbit w k = true
  | None => forall k, offset <= k < 8 -> Z.testbit w k = true
  end.
Proof.
  revert offset. induction n as [|n IH]; intros offset H0 Hn; simpl; [lia|].
  rewrite mask_pow, land_bit_eqb by lia.
  destruct (Z.testbit w offset) eqn:E; simpl.
  - specialize (IH (offset + 1)). destruct (clear_offset n (offset + 1) w) as [j|].
    + destruct IH as (? & ? & IH); [lia..|]. split_and!; [lia|lia|done|].
      intros k Hk. destruct (decide (k = offset)) as [->|]; [done|]. apply IH. lia.
    + intros k Hk. destruct (decide (k = offset)) as [->|]; [done|]. apply IH; lia.
  - split_and!; [lia|lia|done|lia].
Qed.

Lemma wf_length b :
  wf b -> (Z.of_nat (length (v b)) - 1) * 8 < nbits b <= Z.of_nat (length (v b)) * 8.
Proof. intros (? & ? & -> & _). apply DIVROUNDUP_spec; lia. Qed.

(** The byte of a bit is in the array. *)
Lemma wf_word b i :
  wf b -> 0 <= i < nbits b ->
  exists w, v b !! Z.to_nat (i / 8) = Some w /\ is_byte w /\
            bit b i = Z.testbit w (i mod 8).
Proof.
  intros Hwf Hi. pose proof (wf_length b Hwf). destruct Hwf as (_ & _ & _ & Hv & _).
  destruct (lookup_lt_is_Some_2 (v b) (Z.to_nat (i / 8))) as [w Hw].
  { apply Nat2Z.inj_lt. rewrite Z2Nat.id by (apply Z.div_pos; lia).
    apply Z.div_lt_upper_bound; lia. }
  exists w. unfold bit. rewrite Hw. split_and!; [done| |done].
  by eapply Forall_lookup_1 in Hv.
Qed.

(** Writing the word of one bit changes that bit only. *)
Lemma bit_set_word b i j w w' (val : bool) :
  0 <= i -> 0 <= j -> v b !! Z.to_nat (i / 8) = Some w ->
  (forall k, 0 <= k < 8 ->
     Z.testbit w' k = if Z.eqb (i mod 8) k then val else Z.testbit w k) ->
  bit (set_word (i / 8) w' b) j = if i =? j then val else bit b j.
Proof.
  intros Hi Hj Hw Hw'. unfold bit, set_word; cbn [v].
  pose proof (Z.div_mod i 8). pose proof (Z.div_mod j 8).
  pose proof (Z.mod_pos_bound i 8). pose proof (Z.mod_pos_bound j 8).
  assert (0 <= i / 8) by (apply Z.div_pos; lia). assert (0 <= j / 8) by (apply Z.div_pos; lia).
  destruct (decide (i / 8 = j / 8)) as [E|E].
  - rewrite <-E, list_lookup_insert_eq, Hw by (by eapply lookup_lt_Some).
    rewrite Hw' by lia.
    destruct (Z.eqb_spec (i mod 8) (j mod 8)), (Z.eqb_spec i j); try done; subst; lia.
  - rewrite list_lookup_insert_ne by lia.
    destruct (Z.eqb_spec i j) as [->|]; done.
Qed.

Lemma wf_set_word b i w' :
  wf b -> 0 <= i < nbits b -> is_byte w' ->
  (forall j, 0 <= j -> j <> i -> bit (set_word (i / 8) w' b) j = bit b j) ->
  wf (set_word (i / 8) w' b).
Proof.
  intros (? & ? & Hlen & Hv & Hover) Hi Hw' Hj. unfold wf, set_word in *; simpl in *.
  rewrite length_insert. split_and!; try done.
  - by apply Forall_insert.
  - intros k Hk. rewrite Hj by lia. apply Hover. done.
Qed.

(** [wp] of the loop over words, started at any word below which all is set. *)
Lemma alloc_from_spec b n ix :
  wf b -> 0 <= ix -> ix + Z.of_nat n = Z.of_nat (length (v b)) ->
  (forall j, 0 <= j < 8 * ix -> bit b j = true) ->
  wp (alloc_from n ix) (fun r b' =>
    match r with
    | (e, Some i) => e = 0 /\ 0 <= i < nbits b /\ bit b i = false /\
        (forall j, 0 <= j < i -> bit b j = true) /\ wf b' /\ nbits b' = nbits b /\
        (forall j, 0 <= j -> bit b' j = (i =? j) || bit b j)
    | (e, None) => e = ENOSPC /\ b' = b /\ forall j, 0 <= j < nbits b -> bit b j = true
    end) b.
Proof.
  intros Hwf. pose proof (wf_length b Hwf) as Hlen.
  revert ix. induction n as [|n IH]; intros ix Hix Hn Hbelow; cbn [alloc_from].
  { rewrite wp_ret. split_and!; try done. intros j Hj. apply Hbelow. lia. }
  destruct (lookup_lt_is_Some_2 (v b) (Z.to_nat ix)) as [w Hw]; [lia|].
  assert (is_byte w) as Hwb
    by (destruct Hwf as (_ & _ & _ & Hv & _); by eapply Forall_lookup_1 in Hv).
  assert (Hbit : forall k, 0 <= k < 8 -> bit b (ix * 8 + k) = Z.testbit w k).
  { intros k Hk. unfold bit. rewrite Z.div_add_l, Z.div_small, Z.add_0_r, Hw by lia.
    by rewrite Z.add_comm, Z.mod_add, Z.mod_small by lia. }
  wp_simpl.
  pose proof (clear_offset_spec 8 0 w ltac:(lia) ltac:(lia)) as Hc. unfold WORD_ALLBITS.
  destruct (Z.eqb_spec w 255) as [->|Hne].
  - apply IH; [lia|lia|]. intros j Hj. destruct (decide (j < 8 * ix)); [apply Hbelow; lia|].
    replace j with (ix * 8 + (j - ix * 8)) by lia. rewrite Hbit by lia.
    change 255 with (Z.ones 8). apply Z.ones_spec_low. lia.
  - destruct (clear_offset 8 0 w) as [k|]; [|by destruct Hne; apply byte_full; auto].
    destruct Hc as (Hk & Hclear & Hfirst).
    assert (Hin : ix * 8 + k < nbits b).
    { destruct (decide (ix * 8 + k < nbits b)); [done|]. rewrite <-Hbit in Hclear by lia.
      destruct Hwf as (_ & _ & _ & _ & Hover). rewrite Hover in Hclear by lia. done. }
    assert (Hsmall : u32 (ix * 8 + k) = ix * 8 + k)
      by (apply u32_small; destruct Hwf; lia).
    wp_simpl. rewrite Hsmall, wp_KASSERT. split; [by apply Z.ltb_lt|]. wp_simpl.
    rewrite mask_pow by lia.
    assert (Hset : forall j, 0 <= j -> bit (set_word ix (Z.lor w (2 ^ k)) b) j
              = (ix * 8 + k =? j) || bit b j).
    { intros j Hj. replace ix with ((ix * 8 + k) / 8) at 1
        by (rewrite Z.div_add_l, Z.div_small; lia).
      rewrite (bit_set_word b (ix * 8 + k) j w (Z.lor w (2 ^ k)) true); try lia.
      - by destruct (ix * 8 + k =? j).
      - by rewrite Z.div_add_l, Z.div_small, Z.add_0_r by lia.
      - intros k' Hk'. rewrite Z.add_comm, Z.mod_add, (Z.mod_small k) by lia.
        rewrite lor_bit_testbit by lia. by destruct (k =? k'). }
    split_and!; try done; try lia.
    + by rewrite Hbit.
    + intros j Hj. destruct (decide (j < 8 * ix)); [apply Hbelow; lia|].
      replace j with (ix * 8 + (j - ix * 8)) by lia. rewrite Hbit by lia. apply Hfirst. lia.
    + replace ix with ((ix * 8 + k) / 8) at 1 by (rewrite Z.div_add_l, Z.div_small; lia).
      apply wf_set_word; try done; try lia.
      * apply lor_byte; [done|]. apply pow2_byte. lia.
      * intros j Hj Hne'. replace ((ix * 8 + k) / 8) with ix
          by (rewrite Z.div_add_l, Z.div_small; lia).
        rewrite Hset by done. by destruct (Z.eqb_spec (ix * 8 + k) j).
Qed.

(** [bitmap_alloc] returns the lowest clear index after setting its bit, or ENOSPC. *)
Lemma bitmap_alloc_spec b :
  wf b ->
  wp bitmap_alloc (fun r b' =>
    match r with
    | (e, Some i) => e = 0 /\ 0 <= i < nbits b /\ bit b i = false /\
        (forall j, 0 <= j < i -> bit b j = true) /\ wf b' /\ nbits b' = nbits b /\
        (forall j, 0 <= j -> bit b' j = (i =? j) || bit b j)
    | (e, None) => e = ENOSPC /\ b' = b /\ forall j, 0 <= j < nbits b -> bit b j = true
    end) b.
Proof.
  intros Hwf. unfold bitmap_alloc. wp_simpl. apply alloc_from_spec; [done|lia| |lia].
  destruct Hwf as (? & ? & <- & _). lia.
Qed.

Lemma bitmap_translate_spec i :
  0 <= i -> bitmap_translate i = (i / 8, 2 ^ (i mod 8)).
Proof.
  intros. unfold bitmap_translate. by rewrite mask_pow by (apply Z.mod_pos_bound; lia).
Qed.

Lemma bitmap_mark_spec b i :
  wf b -> 0 <= i < nbits b ->
  if bit b i then bitmap_mark i b = Panic "(b->v[ix] & mask)==0" else
  wp (bitmap_mark i) (fun _ b' => wf b' /\ nbits b' = nbits b /\
    forall j, 0 <= j -> bit b' j = (i =? j) || bit b j) b.
Proof.
  intros Hwf Hi. destruct (wf_word b i Hwf Hi) as (w & Hw & Hwb & Hbit).
  assert (Hlt : (i <? nbits b) = true) by (apply Z.ltb_lt; lia).
  assert (Hm : 0 <= i mod 8 < 8) by (apply Z.mod_pos_bound; lia).
  unfold bitmap_mark. rewrite bitmap_translate_spec by lia. rewrite Hbit.
  destruct (Z.testbit w (i mod 8)) eqn:E.
  { kunfold. rewrite Hlt, Hw. cbv beta iota. by rewrite land_bit_eqb, E by lia. }
  wp_simpl. rewrite wp_KASSERT. split; [done|]. wp_simpl. rewrite wp_KASSERT.
  rewrite land_bit_eqb, E by lia. split; [done|]. wp_simpl.
  assert (Hset : forall j, 0 <= j ->
            bit (set_word (i / 8) (Z.lor w (2 ^ (i mod 8))) b) j = (i =? j) || bit b j).
  { intros j Hj. rewrite (bit_set_word b i j w _ true); [by destruct (i =? j)|lia..|done|].
    intros k Hk. rewrite lor_bit_testbit by lia. by destruct (_ =? k). }
  split_and!; [|done|done]. apply wf_set_word; [done|lia| |].
  - apply lor_byte; [done|]. by apply pow2_byte.
  - intros j Hj Hne. rewrite Hset by done. by destruct (Z.eqb_spec i j).
Qed.

Lemma bitmap_unmark_spec b i :
  wf b -> 0 <= i < nbits b ->
  if bit b i then
  wp (bitmap_unmark i) (fun _ b' => wf b' /\ nbits b' = nbits b /\
    forall j, 0 <= j -> bit b' j = negb (i =? j) && bit b j) b
  else bitmap_unmark i b = Panic "(b->v[ix] & mask)!=0".
Proof.
  intros Hwf Hi. destruct (wf_word b i Hwf Hi) as (w & Hw & Hwb & Hbit).
  assert (Hlt : (i <? nbits b) = true) by (apply Z.ltb_lt; lia).
  assert (Hm : 0 <= i mod 8 < 8) by (apply Z.mod_pos_bound; lia).
  unfold bitmap_unmark. rewrite bitmap_translate_spec by lia. rewrite Hbit.
  destruct (Z.testbit w (i mod 8)) eqn:E.
  2:{ kunfold. rewrite Hlt, Hw. cbv beta iota. by rewrite land_bit_eqb, E by lia. }
  wp_simpl. rewrite wp_KASSERT. split; [done|]. wp_simpl. rewrite wp_KASSERT.
  rewrite land_bit_eqb, E by lia. split; [done|]. wp_simpl.
  assert (Hset : forall j, 0 <= j ->
            bit (set_word (i / 8) (u8 (Z.land w (Z.lnot (2 ^ (i mod 8))))) b) j
            = negb (i =? j) && bit b j).
  { intros j Hj. rewrite (bit_set_word b i j w _ false); [by destruct (i =? j)|lia..|done|].
    intros k Hk. rewrite clear_bit_testbit by lia. by destruct (_ =? k). }
  split_and!; [|done|done]. apply wf_set_word; [done|lia|apply u8_range|].
  intros j Hj Hne. rewrite Hset by done. by destruct (Z.eqb_spec i j).
Qed.

Lemma bitmap_isset_spec b i :
  wf b -> 0 <= i < nbits b ->
  wp (bitmap_isset i) (fun r b' => b' = b /\ (r <> 0 <-> bit b i = true)) b.
Proof.
  intros Hwf Hi. destruct (wf_word b i Hwf Hi) as (w & Hw & _ & ->). unfold bitmap_isset.
  rewrite bitmap_translate_spec by lia. wp_simpl. split; [done|].
  pose proof (Z.mod_pos_bound i 8 ltac:(lia)). rewrite land_bit by lia.
  assert (0 < 2 ^ (i mod 8)) by (apply Z.pow_pos_nonneg; lia).
  destruct (Z.testbit w (i mod 8)); split; intros; (done || lia).
Qed.

(** C40. A well-formed bitmap is the set of its indices whose bit is set.
    [bitmap_alloc] adds the lowest index that is missing and returns it, or answers
    ENOSPC with nothing changed when there is none; marking a clear bit adds it,
    unmarking a set bit removes it, and [bitmap_isset] tests; marking a set bit or
    unmarking a clear one halts the kernel.  No other assertion can fail, no other bit
    changes, and the bitmap stays well-formed. *)
Theorem bitmap_is_set b :
  wf b ->
  wp bitmap_alloc (fun r b' =>
    match r with
    | (e, Some i) => e = 0 /\ 0 <= i < nbits b /\ bit b i = false /\
        (forall j, 0 <= j < i -> bit b j = true) /\ wf b' /\ nbits b' = nbits b /\
        (forall j, 0 <= j -> bit b' j = (i =? j) || bit b j)
    | (e, None) => e = ENOSPC /\ b' = b /\ forall j, 0 <= j < nbits b -> bit b j = true
    end) b /\
  forall i, 0 <= i < nbits b ->
  (if bit b i
   then bitmap_mark i b = Panic "(b->v[ix] & mask)==0" /\
        wp (bitmap_unmark i) (fun _ b' => wf b' /\ nbits b' = nbits b /\
          forall j, 0 <= j -> bit b' j = negb (i =? j) && bit b j) b
   else bitmap_unmark i b = Panic "(b->v[ix] & mask)!=0" /\
        wp (bitmap_mark i) (fun _ b' => wf b' /\ nbits b' = nbits b /\
          forall j, 0 <= j -> bit b' j = (i =? j) || bit b j) b) /\
  wp (bitmap_isset i) (fun r b' => b' = b /\ (r <> 0 <-> bit b i = true)) b.
Proof.
  intros Hwf. split; [by apply bitmap_alloc_spec|]. intros i Hi. split; [|by apply bitmap_isset_spec].
  pose proof (bitmap_mark_spec b i Hwf Hi). pose proof (bitmap_unmark_spec b i Hwf Hi). by destruct (bit b i).
Qed.

Lemma mark_leftover_testbit o w k :
  0 < o < 8 -> 0 <= k < 8 ->
  Z.testbit (mark_leftover o w) k = (o <=? k) || Z.testbit w k.
Proof.
  intros Ho Hk. unfold mark_leftover.
  assert (Hl : Forall (fun j => 0 <= j < 8) (seqZ o (8 - o))).
  { apply Forall_forall. intros j Hj%elem_of_seqZ. lia. }
  replace (o <=? k) with (bool_decide (k ∈ seqZ o (8 - o))).
  2:{ destruct (Z.leb_spec o k); [apply bool_decide_eq_true|apply bool_decide_eq_false];
      rewrite elem_of_seqZ; lia. }
  revert w. induction (seqZ o (8 - o)) as [|j l IH]; intros w; simpl; [done|].
  apply Forall_cons in Hl as [Hj Hl].
  rewrite IH, mask_pow, lor_bit_testbit, orb_assoc by (done || lia). f_equal.
  destruct (Z.eqb_spec j k); destruct (decide (k ∈ l)); repeat case_bool_decide; set_solver.
Qed.

Lemma mark_leftover_byte o w : 0 < o < 8 -> is_byte w -> is_byte (mark_leftover o w).
Proof.
  intros Ho. unfold mark_leftover.
  assert (Hl : Forall (fun j => is_byte (u8 (Z.shiftl 1 j))) (seqZ o (8 - o))).
  { apply Forall_true. intros j. apply u8_range. }
  revert w Hl. induction (seqZ o (8 - o)) as [|j l IH]; intros w Hl Hw; simpl; [done|].
  apply Forall_cons in Hl as [??]. apply IH; [done|]. by apply lor_byte.
Qed.

(** [bitmap_create] succeeds when its two allocations do, never trips its
    assertions, and gives a well-formed bitmap of [n] bits, all clear, whose
    leftover bits are marked. *)
Lemma bitmap_create_spec mem mem' n :
  0 <= n -> n + 7 < 2 ^ 32 ->
  wp (bitmap_create mem mem' n) (fun r _ =>
    match r with
    | None => mem && mem' = false
    | Some b => mem && mem' = true /\ wf b /\ nbits b = n /\
                forall i, 0 <= i < n -> bit b i = false
    end) tt.
Proof.
  intros H0 Hn. unfold bitmap_create. destruct mem; [|done]. destruct mem'; [|done]. cbn [negb].
  pose proof (DIVROUNDUP_spec n 8) as Hw. set (words := DIVROUNDUP n 8) in *.
  assert (Hwf0 : forall i, bit (MkBitmap n (replicate (Z.to_nat words) 0)) i = false).
  { intros i. unfold bit. cbn [v]. case_match eqn:E; [|done].
    apply lookup_replicate in E as [-> _]. apply Z.bits_0. }
  assert (Hb0 : Forall is_byte (replicate (Z.to_nat words) 0)) by (by apply Forall_replicate).
  wp_simpl. pose proof (Z.div_mod n 8). pose proof (Z.mod_pos_bound n 8).
  destruct (Z.ltb_spec (n / 8) words) as [Hlt|Hge].
  2:{ wp_simpl. split_and!; try done. unfold wf. cbn [nbits v].
      rewrite length_replicate. split_and!; try done; fold words; lia. }
  rewrite !(u32_small (words - 1)), !(u32_small ((words - 1) * 8)), !u32_small by lia.
  wp_simpl. rewrite wp_KASSERT. split; [apply Z.eqb_eq; lia|]. wp_simpl. rewrite wp_KASSERT.
  split; [apply andb_true_intro; split; apply Z.ltb_lt; lia|].
  set (b := MkBitmap n _) in *.
  assert (Hw0 : v b !! Z.to_nat (words - 1) = Some 0).
  { subst b. cbn [v]. apply lookup_replicate. split; [done|lia]. }
  wp_simpl. set (o := n - (words - 1) * 8).
  assert (Hbit : forall i, 0 <= i -> bit (set_word (words - 1) (mark_leftover o 0) b) i
            = (n <=? i) && (i <? words * 8)).
  { intros i Hi. destruct (decide (i / 8 = words - 1)) as [E|E].
    - unfold bit, set_word. cbn [v]. rewrite E, list_lookup_insert_eq
        by (by eapply lookup_lt_Some).
      pose proof (Z.div_mod i 8). pose proof (Z.mod_pos_bound i 8).
      rewrite mark_leftover_testbit, Z.bits_0, orb_false_r by lia.
      destruct (Z.leb_spec n i), (Z.leb_spec o (i mod 8)), (Z.ltb_spec i (words * 8)); done || lia.
    - pose proof (Z.div_mod i 8). pose proof (Z.mod_pos_bound i 8).
      unfold bit, set_word. cbn [v]. rewrite list_lookup_insert_ne by lia.
      pose proof (Hwf0 i) as Hc. unfold bit in Hc. fold b in Hc. rewrite Hc.
      destruct (Z.leb_spec n i), (Z.ltb_spec i (words * 8)); done || lia. }
  split_and!; [done| |done|].
  - unfold wf, set_word. cbn [nbits v]. rewrite length_insert.
    unfold b at 1 2 3 4 5. cbn [nbits v]. rewrite length_replicate.
    split_and!; [lia|lia|fold words; lia| |].
    + apply Forall_insert; [done|]. apply mark_leftover_byte; [lia|by compute].
    + intros i Hi. assert (length (v b) = Z.to_nat words) by apply length_replicate.
      change (nbits b) with n in Hi. etrans; [apply Hbit; lia|].
      apply andb_true_intro; split; [apply Z.leb_le|apply Z.ltb_lt]; lia.
  - intros i Hi. rewrite Hbit by lia. destruct (Z.leb_spec n i); [lia|done].
Qed.

(** A bitmap of ten bits, the first four and the eighth in use. *)
Definition sample : bitmap := MkBitmap 10 [0x8f; 0xfc].

Lemma bitmap_sample_wf : wf sample.
Proof.
  unfold wf, sample. cbn. split_and!; try done.
  - forall_list; by compute.
  - intros i Hi.
    assert (i = 10 \/ i = 11 \/ i = 12 \/ i = 13 \/ i = 14 \/ i = 15) as Hc by lia.
    by destruct_or! Hc; subst.
Qed.

Lemma bitmap_is_set_witness :
  bitmap_alloc sample = Ret (0, Some 4) (MkBitmap 10 [0x9f; 0xfc]) /\
  bitmap_mark 9 sample = Ret tt (MkBitmap 10 [0x8f; 0xfe]) /\
  bitmap_unmark 9 sample = Panic "(b->v[ix] & mask)!=0" /\
  wp (bitmap_isset 9) (fun r b' => b' = sample /\ (r <> 0 <-> bit sample 9 = true)) sample.
Proof.
  split; [reflexivity|]. split; [reflexivity|].
  destruct (bitmap_is_set sample bitmap_sample_wf) as [_ Hb]. destruct (Hb 9) as [[Hu _] Hi]; [cbn; lia|].
  split; [exact Hu|exact Hi].
Defined.

End Bitmap_facts.

(** ** What a client relies on: a set of the indices below a bound *)

Class FreeMap (B : Type) := {
  fm_alloc : K B (Z * option Z);
  fm_unmark : Z -> K B ();
  fm_isset : Z -> K B Z;
  fm_ok : B -> Prop;
  fm_size : B -> Z;
  fm_used : B -> Z -> bool;
  fm_alloc_spec b : fm_ok b ->
    wp fm_alloc (fun r b' =>
      match r with
      | (e, Some i) => e = 0 /\ 0 <= i < fm_size b /\ fm_used b i = false /\ fm_ok b' /\ fm_size b' = fm_size b /\
          (forall j, 0 <= j -> fm_used b' j = (i =? j) || fm_used b j)
      | (e, None) => e = ENOSPC /\ b' = b
      end) b;
  fm_unmark_spec b i : fm_ok b -> 0 <= i < fm_size b -> fm_used b i = true ->
    wp (fm_unmark i) (fun _ b' => fm_ok b' /\ fm_size b' = fm_size b /\
      forall j, 0 <= j -> fm_used b' j = negb (i =? j) && fm_used b j) b;
  fm_isset_spec b i : fm_ok b -> 0 <= i < fm_size b ->
    wp (fm_isset i) (fun r b' => b' = b /\ (r <> 0 <-> fm_used b i = true)) b;
  (** in any state *)
  fm_alloc_frame b : wlp fm_alloc (fun r b' => fm_size b' = fm_size b /\ (r.1 <> 0 -> b' = b)) b;
  fm_unmark_frame b i : wlp (fm_unmark i) (fun _ b' => fm_size b' = fm_size b) b;
  fm_isset_frame b i : wlp (fm_isset i) (fun _ b' => b' = b) b }.

Lemma alloc_from_frame n : forall ix b, wlp (Bitmap.alloc_from n ix) (fun r b' => Bitmap.nbits b' = Bitmap.nbits b /\ (r.1 <> 0 -> b' = b)) b.
Proof.
  induction n as [|n IH]; intros ix b; cbn [Bitmap.alloc_from]; [done|]. wlp_simpl. destruct (Bitmap.v b !! Z.to_nat ix) as [w|]; cbn [deref]; [|done]. wlp_simpl.
  destruct (w =? Bitmap.WORD_ALLBITS); [apply IH|]. destruct (Bitmap.clear_offset 8 0 w); [|done]. wlp_simpl. rewrite wlp_KASSERT. intros _. by wlp_simpl.
Qed.

#[export, refine] Instance bitmap_freemap : FreeMap Bitmap.bitmap := {|
  fm_alloc := Bitmap.bitmap_alloc; fm_unmark := Bitmap.bitmap_unmark; fm_isset := Bitmap.bitmap_isset;
  fm_ok := Bitmap.wf; fm_size := Bitmap.nbits; fm_used := Bitmap.bit |}.
Proof.
  - intros b Hb. eapply wp_mono; [|by apply bitmap_alloc_spec]. intros [e [i|]] b'; [|naive_solver].
    intros (? & ? & ? & _ & ? & ? & ?). split_and!; (done || lia).
  - intros b i Hb Hi Hu. pose proof (bitmap_unmark_spec b i Hb Hi) as Hs. by rewrite Hu in Hs.
  - intros b i Hb Hi. by apply bitmap_isset_spec.
  - intros b. unfold Bitmap.bitmap_alloc. wlp_simpl. apply alloc_from_frame.
  - intros b i. unfold Bitmap.bitmap_unmark. wlp_simpl. rewrite wlp_KASSERT. intros _. destruct (Bitmap.bitmap_translate i) as [ix mask]. wlp_simpl.
    destruct (Bitmap.v b !! Z.to_nat ix) as [w|]; cbn [deref]; [|done]. wlp_simpl. rewrite wlp_KASSERT. intros _. by wlp_simpl.
  - intros b i. unfold Bitmap.bitmap_isset. wlp_simpl. destruct (Bitmap.bitmap_translate i) as [ix mask]. wlp_simpl. destruct (Bitmap.v b !! Z.to_nat ix) as [w|]; cbn [deref]; [|done]. by wlp_simpl.
Defined.
