(* ===== verification/Array.v ===== *)
(** * Resizeable arrays: [kern/lib/array.c] and [kern/include/array.h]

    The kernel's array of pointers: a block [v] of [max] cells of which the first
    [num] are in use.  Cells of a fresh block hold whatever the allocator left
    there ([junk]).  The abstraction of an array is the list of its elements
    ([elems]); the operations are specified on it. *)
From S2P Require Import Prelude.

Module Array.
Section ops.
Context {A : Type} (junk : A).

Record array := MkArray { num : Z; max : Z; v : list A }.

Definition array_init : array := MkArray 0 0 [].

Definition array_create (mem : bool) : option array :=
  if mem then Some array_init else None.

Definition array_cleanup : K array () :=
  a ← get;
  KASSERT (num a =? 0) "a->num == 0";;
  put (MkArray (num a) (max a) []).

Definition array_destroy : K array () := array_cleanup.

Definition array_num (a : array) : Z := num a.

Definition array_get (index : Z) : K array A :=
  a ← get;
  KASSERT (index <? num a) "index < a->num";;
  deref (v a !! Z.to_nat index) "a->v[index]".

Definition array_set (index : Z) (val : A) : K array () :=
  a ← get;
  KASSERT (index <? num a) "index < a->num";;
  _ ← deref (v a !! Z.to_nat index) "a->v[index]";
  put (MkArray (num a) (max a) (<[Z.to_nat index := val]> (v a))).

(** [while (num > newmax) newmax = newmax ? newmax*2 : 4]. *)
Fixpoint grow (fuel : nat) (n newmax : Z) : option Z :=
  if n <=? newmax then Some newmax else
  match fuel with
  | O => None
  | S fuel => grow fuel n (if newmax =? 0 then 4 else u32 (newmax * 2))
  end.

(** A block of [bytes] bytes from the allocator, seen as cells. *)
Definition fresh_block (bytes : Z) : list A := replicate (Z.to_nat (bytes / 4)) junk.

(** [mem] is what [kmalloc] answers if it is called.  A size above [2^31] makes the
    loop run for ever: the thread does not come back. *)
Definition array_preallocate (mem : bool) (n : Z) : K array Z :=
  a ← get;
  if max a <? n then
    match grow 33 n (max a) with
    | None => block
    | Some newmax =>
        if negb mem then mret ENOMEM else
        let newptr := fresh_block (u32 (newmax * 4)) in
        let cells := Z.to_nat (u32 (num a * 4) / 4) in
        if (cells <=? length newptr)%nat && (cells <=? length (v a))%nat then
          put (MkArray (num a) newmax (take cells (v a) ++ drop cells newptr));;
          mret 0
        else fault "memcpy(newptr, a->v, a->num*sizeof(*a->v))"
    end
  else mret 0.

Definition array_setsize (mem : bool) (n : Z) : K array Z :=
  result ← array_preallocate mem n;
  if negb (result =? 0) then mret result else
  a ← get;
  put (MkArray n (max a) (v a));;
  mret 0.

(** Result: error code and [*index_ret]. *)
Definition array_add (mem : bool) (val : A) : K array (Z * option Z) :=
  a ← get;
  let index := num a in
  ret ← array_setsize mem (u32 (index + 1));
  if negb (ret =? 0) then mret (ret, None) else
  a ← get;
  _ ← deref (v a !! Z.to_nat index) "a->v[index]";
  put (MkArray (num a) (max a) (<[Z.to_nat index := val]> (v a)));;
  mret (0, Some index).

(** [memmove] of [n] cells, from index [src] to index [dst]. *)
Definition memmove (l : list A) (dst src n : nat) : list A :=
  take dst l ++ take n (drop src l) ++ drop (dst + n) l.

Definition array_remove (index : Z) : K array () :=
  a ← get;
  KASSERT (num a <=? max a) "a->num <= a->max";;
  KASSERT (index <? num a) "index < a->num";;
  let num_to_move := Z.to_nat (num a - (index + 1)) in
  let i := Z.to_nat index in
  if (i + 1 + num_to_move <=? length (v a))%nat then
    put (MkArray (u32 (num a - 1)) (max a) (memmove (v a) i (i + 1) num_to_move))
  else fault "memmove(a->v + index, a->v + index+1, num_to_move*sizeof(void *))".

(** ** Abstraction and invariant *)

Definition elems (a : array) : list A := take (Z.to_nat (num a)) (v a).

(** Arrays whose block is below 2^31 bytes. *)
Definition wf (a : array) : Prop :=
  0 <= num a <= max a /\ max a <= 2 ^ 29 /\ Z.of_nat (length (v a)) = max a.
End ops.
Arguments array A : clear implicits.
End Array.

Section Array_facts.
Import Array.
Context {A : Type} (junk : A).
Implicit Types a : array A.

Lemma elems_length a : wf a -> Z.of_nat (length (elems a)) = num a.
Proof. intros (? & ? & ?). unfold elems. rewrite length_take. lia. Qed.

Lemma grow_spec fuel n m :
  0 <= m -> n <= 2 ^ 31 ->
  (m = 0 -> n <= 4 * 2 ^ (Z.of_nat fuel - 1) /\ (0 < fuel)%nat) ->
  (0 < m -> n <= m * 2 ^ Z.of_nat fuel) ->
  exists r, grow fuel n m = Some r /\ n <= r /\ m <= r /\ (r = m \/ r = 4 \/ r < 2 * n).
Proof.
  revert m. induction fuel as [|fuel IH]; intros m Hm Hn H0 H1; cbn [grow];
    destruct (Z.leb_spec n m) as [Hle|Hlt]; [by exists m; split; [|lia]| |by exists m; split; [|lia]|].
  { destruct (decide (m = 0)); [destruct H0; lia|]. simpl in H1. lia. }
  rewrite Nat2Z.inj_succ in *. destruct (Z.eqb_spec m 0) as [->|Hne].
  - destruct (IH 4) as (r & -> & ? & ? & ?); [lia|lia|by intros; exfalso; lia| |exists r; split; [done|lia]].
    intros _. destruct H0 as [H0 _]; [done|]. by replace (Z.of_nat fuel)
      with (Z.succ (Z.of_nat fuel) - 1) by lia.
  - rewrite u32_small by lia.
    destruct (IH (m * 2)) as (r & -> & ? & ? & ?); [lia|lia|by intros; exfalso; lia| |exists r; split; [done|lia]].
    intros _. rewrite Z.pow_succ_r in H1 by lia. lia.
Qed.

Lemma grow_total n m :
  0 <= m -> n <= 2 ^ 31 ->
  exists r, grow 33 n m = Some r /\ n <= r /\ m <= r /\ (r = m \/ r = 4 \/ r < 2 * n).
Proof. intros. apply grow_spec; try done; simpl; lia. Qed.

(** Past [2^31] elements the loop doubles for ever: no power of two below [2^32]
    is large enough. *)
Lemma grow_diverges fuel n m :
  2 ^ 31 < n -> m = 0 \/ (exists k, 0 <= k < 32 /\ m = 2 ^ k) -> grow fuel n m = None.
Proof.
  intros Hn. revert m. induction fuel as [|fuel IH]; intros m Hm; cbn [grow];
    assert (Hlt : m <= 2 ^ 31)
      by (destruct Hm as [->|(k & Hk & ->)]; [lia|apply Z.pow_le_mono_r; lia]);
    destruct (Z.leb_spec n m); try lia; try done.
  apply IH. destruct (Z.eqb_spec m 0); [right; by exists 2|].
  destruct Hm as [->|(k & Hk & ->)]; [done|]. destruct (decide (k = 31)) as [->|].
  - left. by compute.
  - right. exists (k + 1). split; [lia|]. rewrite Z.pow_add_r, Z.pow_1_r by lia.
    apply u32_small. assert (2 ^ k <= 2 ^ 30) by (apply Z.pow_le_mono_r; lia).
    assert (0 < 2 ^ k) by (apply Z.pow_pos_nonneg; lia). lia.
Qed.

(** Room is made, or [ENOMEM] is returned with the array as it was; the elements
    stay. *)
Lemma preallocate_spec a mem n :
  wf a -> 0 <= n <= 2 ^ 28 ->
  wp (array_preallocate junk mem n) (fun r a' =>
    (r = 0 /\ wf a' /\ n <= max a' /\ num a' = num a /\ elems a' = elems a) \/
    (r = ENOMEM /\ mem = false /\ max a < n /\ a' = a)) a.
Proof.
  intros (Hnum & Hmax & Hv) Hn. unfold array_preallocate. wp_simpl.
  destruct (Z.ltb_spec (max a) n); [|wp_simpl; left; repeat split; lia].
  destruct (grow_total n (max a)) as (r & -> & ? & ? & ?); [lia..|].
  destruct mem; cbn [negb]; wp_simpl; [|right; by repeat split].
  unfold fresh_block. rewrite length_replicate, !u32_small, !Z.div_mul by lia.
  destruct (Nat.leb_spec (Z.to_nat (num a)) (Z.to_nat r)), (Nat.leb_spec (Z.to_nat (num a)) (length (v a)));
    cbn [andb]; try lia.
  wp_simpl. left. unfold wf, elems. cbn [num max v].
  rewrite length_app, length_take, length_drop, length_replicate.
  split_and!; try done; try lia.
  rewrite take_app_le, take_take by (rewrite length_take; lia). f_equal. lia.
Qed.

(** [array_add] appends: the new element comes last, at the index returned, and
    the others keep their places; when the block has to grow and there is no
    memory the result is [ENOMEM] and nothing changed.  It always returns, without
    a failed assertion and without touching memory outside the block. *)
Lemma array_add_spec a mem val :
  wf a -> num a < 2 ^ 28 ->
  wp (array_add junk mem val) (fun r a' =>
    (r = (0, Some (num a)) /\ wf a' /\ elems a' = elems a ++ [val]) \/
    (r = (ENOMEM, None) /\ mem = false /\ max a = num a /\ a' = a)) a.
Proof.
  intros Hwf Hlt. pose proof Hwf as (Hnum & Hmax & Hv).
  unfold array_add, array_setsize. wp_simpl. rewrite u32_small by lia.
  eapply wp_mono; [|apply preallocate_spec; [done|lia]]. cbv beta. intros r a1.
  intros [(-> & (? & ? & Hv1) & ? & En & Ee)|(-> & -> & ? & ->)].
  - cbn [Z.eqb negb]. wp_simpl. cbn [v num max].
    destruct (lookup_lt_is_Some_2 (v a1) (Z.to_nat (num a))) as [x Hx]; [lia|].
    wp_simpl. left. unfold wf, elems in *. cbn [num max v].
    rewrite length_insert, En in *. split_and!; try done; try lia.
    replace (Z.to_nat (num a + 1)) with (S (Z.to_nat (num a))) by lia.
    erewrite take_S_r by (apply list_lookup_insert_eq; lia).
    by rewrite take_insert_ge, Ee by lia.
  - wp_simpl. right. repeat split. lia.
Qed.

(** Moving the tail of the elements down one place deletes one of them. *)
Lemma take_memmove (l : list A) i n :
  (i < n)%nat -> (n <= length l)%nat ->
  take (n - 1) (memmove l i (i + 1) (n - (i + 1))) = delete i (take n l).
Proof.
  intros Hi Hn. unfold memmove. rewrite (delete_take_drop (take n l)).
  rewrite take_take, Nat.min_l, skipn_firstn_comm by lia. rewrite app_assoc.
  rewrite take_app_le by (rewrite length_app, !length_take, length_drop; lia).
  rewrite take_ge by (rewrite length_app, !length_take, length_drop; lia).
  by replace (S i) with (i + 1)%nat by lia.
Qed.

(** [array_remove] on an index in range deletes that element and slides the
    later ones down; out of range it halts the kernel, as [array_get] and
    [array_set] do. *)
Lemma array_remove_spec a i :
  wf a -> 0 <= i ->
  (i < num a -> wp (array_remove i) (fun _ a' =>
     wf a' /\ elems a' = delete (Z.to_nat i) (elems a)) a) /\
  (num a <= i -> array_remove i a = Panic "index < a->num" /\
     array_get i a = Panic "index < a->num" /\
     (forall x, array_set i x a = Panic "index < a->num")).
Proof.
  intros (Hnum & Hmax & Hv) Hi. split.
  - intros Hlt. unfold array_remove. wp_simpl. rewrite wp_KASSERT.
    split; [lia|]. wp_simpl. rewrite wp_KASSERT.
    split; [lia|]. wp_simpl.
    replace (Z.to_nat (num a - (i + 1))) with (Z.to_nat (num a) - (Z.to_nat i + 1))%nat by lia.
    case_match eqn:E; [|apply Nat.leb_gt in E; lia]. wp_simpl.
    unfold wf, elems. cbn [num max v]. rewrite u32_small by lia. split_and!; try lia.
    + unfold memmove. rewrite !length_app, !length_take, !length_drop. lia.
    + replace (Z.to_nat (num a - 1)) with (Z.to_nat (num a) - 1)%nat by lia.
      apply take_memmove; lia.
  - intros Hge. unfold array_remove, array_get, array_set. kunfold.
    destruct (Z.leb_spec (num a) (max a)); [|lia]. destruct (Z.ltb_spec i (num a)); [lia|done].
Qed.

Lemma array_get_spec a i x :
  wf a -> 0 <= i -> elems a !! Z.to_nat i = Some x -> array_get i a = Ret x a.
Proof.
  intros (? & ? & ?) Hi Hx. unfold elems in Hx. apply lookup_take_Some in Hx as [Hx Hlt].
  unfold array_get. kunfold. destruct (Z.ltb_spec i (num a)); [|lia]. by rewrite Hx.
Qed.

Lemma array_set_spec a i x :
  wf a -> 0 <= i < num a ->
  wp (array_set i x) (fun _ a' => wf a' /\ num a' = num a /\
    elems a' = <[Z.to_nat i := x]> (elems a)) a.
Proof.
  intros (? & ? & Hv) Hi. unfold array_set. wp_simpl. rewrite wp_KASSERT.
  split; [lia|]. wp_simpl.
  destruct (lookup_lt_is_Some_2 (v a) (Z.to_nat i)) as [y Hy]; [lia|]. wp_simpl.
  unfold wf, elems. cbn [num max v]. rewrite length_insert.
  split_and!; try done; try lia. by rewrite take_insert_lt by lia.
Qed.

Lemma array_init_wf : wf (array_init (A := A)) /\ elems (array_init (A := A)) = [].
Proof. done. Qed.

(** The array refines a list.  [array_add] appends: the new element comes last, at
    the index returned; or, when the block has to grow and there is no memory, ENOMEM
    and nothing changed.  [array_set] and [array_get] write and read an element;
    [array_remove] deletes one and slides the later ones down.  An index out of range
    halts the kernel.  All return, without touching memory outside the block. *)
Lemma array_is_list a mem i x :
  wf a -> num a < 2 ^ 28 -> 0 <= i ->
  wp (array_add junk mem x) (fun r a' =>
    (r = (0, Some (num a)) /\ wf a' /\ elems a' = elems a ++ [x]) \/
    (r = (ENOMEM, None) /\ mem = false /\ max a = num a /\ a' = a)) a /\
  (i < num a ->
     (forall y, elems a !! Z.to_nat i = Some y -> array_get i a = Ret y a) /\
     wp (array_set i x) (fun _ a' => wf a' /\ num a' = num a /\ elems a' = <[Z.to_nat i := x]> (elems a)) a /\
     wp (array_remove i) (fun _ a' => wf a' /\ elems a' = delete (Z.to_nat i) (elems a)) a) /\
  (num a <= i -> array_remove i a = Panic "index < a->num" /\
     array_get i a = Panic "index < a->num" /\ array_set i x a = Panic "index < a->num").
Proof.
  intros Hwf Hlt Hi. destruct (array_remove_spec a i Hwf Hi) as [Hin Hout].
  split; [by apply array_add_spec|]. split.
  - intros Hr. split; [intros y Hy; by apply array_get_spec|]. split; [by apply array_set_spec|by apply Hin].
  - intros Hr. by destruct (Hout Hr) as (? & ? & ?).
Qed.
End Array_facts.

Section Array_witnesses.
Import Array.

Definition sample : array Z := MkArray 3 4 [7; 8; 9; 0].

Lemma array_sample_wf : wf sample.
Proof. unfold wf. cbn. lia. Qed.

Lemma array_is_list_witness :
  array_add 0 false 5 sample = Ret (0, Some 3) (MkArray 4 4 [7; 8; 9; 5]) /\
  wp (array_remove 0) (fun _ a' => wf a' /\ elems a' = delete 0%nat [7; 8; 9]) sample /\
  array_get 3 sample = Panic "index < a->num".
Proof.
  split; [reflexivity|]. split.
  - destruct (array_is_list 0 sample false 0 5 array_sample_wf ltac:(by compute) ltac:(lia)) as (_ & Hin & _).
    apply Hin. by compute.
  - destruct (array_is_list 0 sample false 3 5 array_sample_wf ltac:(by compute) ltac:(lia)) as (_ & _ & Hout).
    apply Hout. by compute.
Defined.
End Array_witnesses.
