(* ===== verification/Threadlist.v ===== *)
(** * Thread lists: [kern/thread/threadlist.c]

    The doubly linked lists of threads behind the run queues and the wait
    channels.  A list has two bookend nodes embedded in it and a count; the node
    of a thread is embedded in the thread.  The model keeps the nodes in a store
    and the code's pointer assignments one by one, in their order.

    Abstraction: list [tl] holds the sequence [ts] of threads ([holds]).  The
    theorems say what each operation does to the sequence, and that the other
    lists of the store are left alone. *)
From S2P Require Import Prelude.

Module Threadlist.
(** Pointers to nodes: [&tl->tl_head], [&tl->tl_tail], [&t->t_listnode]. *)
Inductive node :=
  | NHead (tl : Z)
  | NTail (tl : Z)
  | NThread (t : Z).

#[global] Instance node_eq_dec : EqDecision node.
Proof. solve_decision. Defined.
#[global] Instance node_countable : Countable node.
Proof.
  refine (inj_countable'
    (fun n => match n with NHead x => inl (inl x) | NTail x => inl (inr x) | NThread x => inr x end)
    (fun s => match s with inl (inl x) => NHead x | inl (inr x) => NTail x | inr x => NThread x end) _).
  by intros [].
Defined.

#[global] Instance NThread_inj : Inj eq eq NThread.
Proof. by intros ?? [=]. Qed.

Record threadlistnode := Tln {
  tln_prev : option node; tln_next : option node; tln_self : option Z }.

(** The nodes of all lists and threads, and [tl_count] of each list. *)
Record store := Store { nodes : gmap node threadlistnode; tl_count : gmap Z Z }.

Definition read (p : option node) : K store threadlistnode :=
  st ← get;
  n ← deref p "null node pointer";
  deref (nodes st !! n) "no such node".

Definition write (p : option node) (f : threadlistnode -> threadlistnode) : K store () :=
  st ← get;
  n ← deref p "null node pointer";
  d ← deref (nodes st !! n) "no such node";
  put (Store (<[n := f d]> (nodes st)) (tl_count st)).

Definition set_prev (q : option node) (d : threadlistnode) := Tln q (tln_next d) (tln_self d).
Definition set_next (q : option node) (d : threadlistnode) := Tln (tln_prev d) q (tln_self d).

Definition count (tl : Z) : K store Z :=
  st ← get; deref (tl_count st !! tl) "no such list".
Definition count_add (tl : Z) (k : Z) : K store () :=
  c ← count tl;
  modify (fun st => Store (nodes st) (<[tl := u32 (c + k)]> (tl_count st))).

Definition threadlistnode_init (t : Z) : K store () :=
  modify (fun st => Store (<[NThread t := Tln None None (Some t)]> (nodes st)) (tl_count st)).

Definition threadlistnode_cleanup (t : Z) : K store () :=
  d ← read (Some (NThread t));
  KASSERT (bool_decide (tln_next d = None)) "tln->tln_next == NULL";;
  KASSERT (bool_decide (tln_prev d = None)) "tln->tln_prev == NULL";;
  KASSERT (bool_decide (tln_self d <> None)) "tln->tln_self != NULL".

Definition threadlist_init (tl : Z) : K store () :=
  modify (fun st => Store
    (<[NHead tl := Tln None (Some (NTail tl)) None]>
     (<[NTail tl := Tln (Some (NHead tl)) None None]> (nodes st)))
    (<[tl := 0]> (tl_count st))).

Definition threadlist_isempty (tl : Z) : K store bool :=
  c ← count tl; mret (c =? 0).

Definition threadlist_cleanup (tl : Z) : K store () :=
  e ← threadlist_isempty tl;
  KASSERT e "threadlist_isempty(tl)";;
  c ← count tl;
  KASSERT (c =? 0) "tl->tl_count == 0".

Definition threadlist_insertafternode (onlist : node) (t : Z) : K store () :=
  let addee := Some (NThread t) in
  write addee (set_prev (Some onlist));;
  o ← read (Some onlist);
  write addee (set_next (tln_next o));;
  d ← read addee; write (tln_prev d) (set_next addee);;
  d ← read addee; write (tln_next d) (set_prev addee).

Definition threadlist_insertbeforenode (t : Z) (onlist : node) : K store () :=
  let addee := Some (NThread t) in
  o ← read (Some onlist);
  write addee (set_prev (tln_prev o));;
  write addee (set_next (Some onlist));;
  d ← read addee; write (tln_prev d) (set_next addee);;
  d ← read addee; write (tln_next d) (set_prev addee).

Definition threadlist_removenode (tln : option node) : K store () :=
  d ← read tln; write (tln_prev d) (set_next (tln_next d));;
  d ← read tln; write (tln_next d) (set_prev (tln_prev d));;
  write tln (set_prev None);;
  write tln (set_next None).

Definition threadlist_addhead (tl t : Z) : K store () :=
  threadlist_insertafternode (NHead tl) t;; count_add tl 1.

Definition threadlist_addtail (tl t : Z) : K store () :=
  threadlist_insertbeforenode t (NTail tl);; count_add tl 1.

Definition threadlist_remhead (tl : Z) : K store (option Z) :=
  h ← read (Some (NHead tl));
  let tln := tln_next h in
  d ← read tln;
  if bool_decide (tln_next d = None) then mret None else
  threadlist_removenode tln;;
  count_add tl (-1);;
  d ← read tln; mret (tln_self d).

Definition threadlist_remtail (tl : Z) : K store (option Z) :=
  h ← read (Some (NTail tl));
  let tln := tln_prev h in
  d ← read tln;
  if bool_decide (tln_prev d = None) then mret None else
  threadlist_removenode tln;;
  count_add tl (-1);;
  d ← read tln; mret (tln_self d).

Definition threadlist_insertafter (tl onlist addee : Z) : K store () :=
  threadlist_insertafternode (NThread onlist) addee;; count_add tl 1.

Definition threadlist_insertbefore (tl addee onlist : Z) : K store () :=
  threadlist_insertbeforenode addee (NThread onlist);; count_add tl 1.

Definition threadlist_remove (tl t : Z) : K store () :=
  threadlist_removenode (Some (NThread t));; count_add tl (-1).

(** [THREADLIST_FORALL]: the threads visited, within [fuel] steps. *)
Fixpoint forall_from (fuel : nat) (st : store) (p : option node) : option (list Z) :=
  match fuel with
  | O => None
  | S fuel =>
      d ← p ≫= fun n => nodes st !! n;
      match tln_self d with
      | None => Some []
      | Some t => l ← forall_from fuel st (nodes st !! NThread t ≫= tln_next); Some (t :: l)
      end
  end.
Definition THREADLIST_FORALL (fuel : nat) (st : store) (tl : Z) : option (list Z) :=
  h ← nodes st !! NHead tl; forall_from fuel st (tln_next h).

(** ** Abstraction *)

Definition self_of (n : node) : option Z :=
  match n with NThread t => Some t | _ => None end.

Definition hd_or (l : list node) (q : option node) : option node :=
  match l with [] => q | n :: _ => Some n end.

Definition last_or (p : option node) (l : list node) : option node :=
  match last l with None => p | o => o end.

(** The nodes [l] are linked to each other both ways, [p] before and [q] after. *)
Fixpoint linked (m : gmap node threadlistnode) (p : option node) (l : list node)
    (q : option node) : Prop :=
  match l with
  | [] => True
  | n :: l' => m !! n = Some (Tln p (hd_or l' q) (self_of n)) /\ linked m (Some n) l' q
  end.

Definition nodes_of (tl : Z) (ts : list Z) : list node :=
  NHead tl :: (NThread <$> ts) ++ [NTail tl].

(** List [tl] holds the threads [ts], in this order. *)
Definition holds (st : store) (tl : Z) (ts : list Z) : Prop :=
  linked (nodes st) None (nodes_of tl ts) None /\ NoDup ts /\
  tl_count st !! tl = Some (Z.of_nat (length ts)) /\ Z.of_nat (length ts) < 2 ^ 32.

(** Thread [t] is on no list. *)
Definition detached (st : store) (t : Z) : Prop :=
  nodes st !! NThread t = Some (Tln None None (Some t)).
End Threadlist.

Section Threadlist_facts.
Import Threadlist.
Implicit Types st : store.

Lemma last_or_snoc p l n : last_or p (l ++ [n]) = Some n.
Proof. unfold last_or. by rewrite last_snoc. Qed.

Lemma last_or_cons p l n : last_or p (n :: l) = last_or (Some n) l.
Proof. unfold last_or. rewrite last_cons. by destruct (last l). Qed.

Lemma linked_app m p l1 l2 q :
  linked m p (l1 ++ l2) q <-> linked m p l1 (hd_or l2 q) /\ linked m (last_or p l1) l2 q.
Proof.
  revert p. induction l1 as [|n l1 IH]; intros p; simpl; [unfold last_or; simpl; tauto|].
  rewrite IH, last_or_cons. destruct l1; simpl; tauto.
Qed.

(** Writing a node outside a segment keeps the segment. *)
Lemma linked_frame m p l q n d : n ∉ l -> linked m p l q -> linked (<[n := d]> m) p l q.
Proof.
  revert p. induction l as [|a l IH]; intros p Hn; [done|].
  apply not_elem_of_cons in Hn as [Hne Hn]. intros [Ha Hl]. simpl.
  split; [by rewrite lookup_insert_ne|]. by apply IH.
Qed.

Lemma wp_read p n d (Q : threadlistnode -> store -> Prop) st :
  p = Some n -> nodes st !! n = Some d -> wp (read p) Q st = Q d st.
Proof. intros -> Hn. unfold read. unfold wp. kstep. by rewrite Hn. Qed.

Lemma wp_write p n d f (Q : () -> store -> Prop) st :
  p = Some n -> nodes st !! n = Some d ->
  wp (write p f) Q st = Q tt (Store (<[n := f d]> (nodes st)) (tl_count st)).
Proof. intros -> Hn. unfold write, wp. kstep. by rewrite Hn. Qed.

Lemma wp_count_add tl k c (Q : () -> store -> Prop) st :
  tl_count st !! tl = Some c ->
  wp (count_add tl k) Q st = Q tt (Store (nodes st) (<[tl := u32 (c + k)]> (tl_count st))).
Proof. intros Hc. unfold count_add, count, wp. kstep. by rewrite Hc. Qed.

Ltac look := cbn [set_prev set_next tln_next tln_prev tln_self nodes tl_count];
  repeat (rewrite lookup_insert_eq || rewrite lookup_insert_ne by congruence); done.

(** The two ways of inserting [x] between neighbours [a] and [b] do the same. *)
Definition inserted (m : gmap node threadlistnode) (a b x : node) (da db : threadlistnode) :=
  <[b := set_prev (Some x) db]> (<[a := set_next (Some x) da]>
    (<[x := Tln (Some a) (Some b) (self_of x)]> m)).

Lemma insertafternode_spec st a b t da db (Q : () -> store -> Prop) :
  nodes st !! a = Some da -> nodes st !! b = Some db -> tln_next da = Some b ->
  detached st t -> a <> b -> a <> NThread t -> b <> NThread t ->
  Q tt (Store (inserted (nodes st) a b (NThread t) da db) (tl_count st)) ->
  wp (threadlist_insertafternode a t) Q st.
Proof.
  intros Ha Hb Hab Ht ???. unfold threadlist_insertafternode. intros HQ.
  rewrite wp_bind, (wp_write _ _ _ _ _ _ eq_refl Ht), wp_bind, (wp_read _ a da) by look.
  rewrite wp_bind. erewrite wp_write by look. rewrite wp_bind. erewrite wp_read by look.
  rewrite wp_bind. erewrite wp_write by look. rewrite wp_bind. erewrite wp_read by look.
  cbn [set_prev set_next tln_next tln_prev tln_self nodes tl_count]. rewrite Hab.
  erewrite wp_write by look. cbn [nodes tl_count]. rewrite insert_insert_eq. exact HQ.
Qed.

Lemma insertbeforenode_spec st a b t da db (Q : () -> store -> Prop) :
  nodes st !! a = Some da -> nodes st !! b = Some db -> tln_prev db = Some a ->
  detached st t -> a <> b -> a <> NThread t -> b <> NThread t ->
  Q tt (Store (inserted (nodes st) a b (NThread t) da db) (tl_count st)) ->
  wp (threadlist_insertbeforenode t b) Q st.
Proof.
  intros Ha Hb Hab Ht ???. unfold threadlist_insertbeforenode. intros HQ.
  rewrite wp_bind. erewrite wp_read by look. rewrite wp_bind, (wp_write _ _ _ _ _ _ eq_refl Ht).
  rewrite wp_bind. erewrite wp_write by look. rewrite wp_bind. erewrite wp_read by look.
  cbn [set_prev set_next tln_next tln_prev tln_self nodes tl_count]. rewrite Hab.
  rewrite wp_bind. erewrite wp_write by look. rewrite wp_bind. erewrite wp_read by look.
  cbn [set_prev set_next tln_next tln_prev tln_self nodes tl_count].
  erewrite wp_write by look. cbn [nodes tl_count]. rewrite insert_insert_eq. exact HQ.
Qed.

Lemma linked_inserted m p l1 a b l2 q x da db :
  NoDup (l1 ++ a :: b :: l2) -> x ∉ l1 ++ a :: b :: l2 ->
  linked m p (l1 ++ a :: b :: l2) q -> m !! a = Some da -> m !! b = Some db ->
  linked (inserted m a b x da db) p (l1 ++ a :: x :: b :: l2) q.
Proof.
  rewrite NoDup_app, !NoDup_cons. intros (_ & Hd & Ha & Hb & _) Hx.
  apply not_elem_of_app in Hx as [Hx1 Hx].
  apply not_elem_of_cons in Hx as [Hxa Hx]. apply not_elem_of_cons in Hx as [Hxb Hx2].
  apply not_elem_of_cons in Ha as [Hab Ha2].
  rewrite !linked_app. cbn [linked hd_or]. intros (H1 & Hda & Hdb & H2) ? ?. simplify_eq.
  assert (a ∉ l1 /\ b ∉ l1) as [Ha1 Hb1] by (split; intros Hin; apply Hd in Hin; set_solver).
  unfold inserted. split; [by repeat apply linked_frame|].
  split_and!; [look..|]. by repeat apply linked_frame.
Qed.

Definition removed (m : gmap node threadlistnode) (a b x : node) (da db : threadlistnode) :=
  <[x := Tln None None (self_of x)]> (<[b := set_prev (Some a) db]>
    (<[a := set_next (Some b) da]> m)).

Lemma removenode_spec st a b x da db (Q : () -> store -> Prop) :
  nodes st !! a = Some da -> nodes st !! b = Some db ->
  nodes st !! x = Some (Tln (Some a) (Some b) (self_of x)) ->
  a <> b -> a <> x -> b <> x ->
  Q tt (Store (removed (nodes st) a b x da db) (tl_count st)) ->
  wp (threadlist_removenode (Some x)) Q st.
Proof.
  intros Ha Hb Hx ???. unfold threadlist_removenode. intros HQ.
  rewrite wp_bind. erewrite wp_read by look. rewrite wp_bind. erewrite wp_write by look.
  rewrite wp_bind. erewrite wp_read by look. rewrite wp_bind. erewrite wp_write by look.
  rewrite wp_bind. erewrite wp_write by look. erewrite wp_write by look.
  cbn [set_prev set_next tln_next tln_prev tln_self nodes tl_count].
  rewrite insert_insert_eq. exact HQ.
Qed.

Lemma linked_removed m p l1 a x b l2 q da db :
  NoDup (l1 ++ a :: x :: b :: l2) ->
  linked m p (l1 ++ a :: x :: b :: l2) q -> m !! a = Some da -> m !! b = Some db ->
  linked (removed m a b x da db) p (l1 ++ a :: b :: l2) q.
Proof.
  rewrite NoDup_app, !NoDup_cons. intros (_ & Hd & Ha & Hx & Hb & _).
  apply not_elem_of_cons in Ha as [Hax Ha]. apply not_elem_of_cons in Ha as [Hab Ha2].
  apply not_elem_of_cons in Hx as [Hxb Hx2].
  rewrite !linked_app. cbn [linked hd_or]. intros (H1 & Hda & Hdx & Hdb & H2) ? ?. simplify_eq.
  assert (a ∉ l1 /\ b ∉ l1 /\ x ∉ l1) as (Ha1 & Hb1 & Hx1)
    by (split_and!; intros Hin; apply Hd in Hin; set_solver).
  unfold removed. split; [by repeat apply linked_frame|].
  split_and!; [look..|]. by repeat apply linked_frame.
Qed.

(** ** The neighbours of a position in a list *)

Definition before (tl : Z) (ts : list Z) : node :=
  match last ts with Some t => NThread t | None => NHead tl end.
Definition after (tl : Z) (ts : list Z) : node :=
  match ts with t :: _ => NThread t | [] => NTail tl end.

Lemma before_split tl ts :
  exists l1, NHead tl :: (NThread <$> ts) = l1 ++ [before tl ts] /\ (l1 = [] <-> ts = []).
Proof.
  unfold before. induction ts as [|t ts _] using rev_ind; [by exists []|].
  rewrite last_snoc, fmap_app. exists (NHead tl :: (NThread <$> ts)).
  split; [done|]. split; [done|]. by destruct ts.
Qed.

Lemma after_split tl ts :
  exists l2, (NThread <$> ts) ++ [NTail tl] = after tl ts :: l2 /\ (l2 = [] <-> ts = []).
Proof.
  destruct ts as [|t ts]; simpl; [by exists []|]. eexists; split; [done|].
  split; [|done]. by destruct ts.
Qed.

Lemma nodes_split tl ts1 ts2 :
  exists l1 l2, nodes_of tl (ts1 ++ ts2) = l1 ++ before tl ts1 :: after tl ts2 :: l2 /\
    (forall t, nodes_of tl (ts1 ++ t :: ts2) =
       l1 ++ before tl ts1 :: NThread t :: after tl ts2 :: l2) /\
    (l1 = [] <-> ts1 = []) /\ (l2 = [] <-> ts2 = []).
Proof.
  destruct (before_split tl ts1) as (l1 & H1 & ?), (after_split tl ts2) as (l2 & H2 & ?).
  exists l1, l2. unfold nodes_of. split_and!; [|intros t|done..].
  - rewrite fmap_app, <-app_assoc, app_comm_cons, H1, H2, <-app_assoc. done.
  - rewrite fmap_app, fmap_cons, <-app_assoc. cbn [app].
    rewrite app_comm_cons, H1, H2, <-app_assoc. done.
Qed.

Lemma nodes_of_thread tl ts t : NThread t ∈ nodes_of tl ts <-> t ∈ ts.
Proof.
  unfold nodes_of. rewrite elem_of_cons, elem_of_app, list_elem_of_singleton, list_elem_of_fmap.
  naive_solver.
Qed.

Lemma NoDup_nodes tl ts : NoDup ts -> NoDup (nodes_of tl ts).
Proof.
  intros Hts. unfold nodes_of. rewrite NoDup_cons, NoDup_app, elem_of_app, list_elem_of_singleton,
    list_elem_of_fmap. split_and!.
  - naive_solver.
  - by apply (NoDup_fmap_2 _).
  - intros n (t & -> & _)%list_elem_of_fmap ?%list_elem_of_singleton. done.
  - apply NoDup_singleton.
Qed.

(** A node has one place: the nodes before it are found by following [tln_prev]. *)
Lemma linked_prefix_unique m n l1 l1' r r' q q' :
  linked m None (l1 ++ n :: r) q -> linked m None (l1' ++ n :: r') q' -> l1 = l1'.
Proof.
  revert n l1' r r' q q'. induction l1 as [|a l1 IH] using rev_ind; intros n l1' r r' q q'.
  - rewrite (linked_app _ _ l1'). intros [Hn _] (_ & Hn' & _).
    destruct l1' as [|a' l1' _] using rev_ind; [done|]. rewrite last_or_snoc in Hn'.
    rewrite Hn in Hn'. discriminate.
  - destruct l1' as [|a' l1' _] using rev_ind.
    + rewrite linked_app. intros (_ & Hn & _) [Hn' _]. rewrite last_or_snoc in Hn.
      rewrite Hn in Hn'. discriminate.
    + intros H H'. assert (a = a') as ->.
      { rewrite linked_app in H, H'. destruct H as (_ & Hn & _), H' as (_ & Hn' & _).
        rewrite last_or_snoc in Hn, Hn'. rewrite Hn in Hn'. by simplify_eq. }
      f_equal. rewrite <-!app_assoc in H, H'. by eapply IH.
Qed.

Lemma holds_disjoint st tl tl' ts ts' n :
  holds st tl ts -> holds st tl' ts' -> n ∈ nodes_of tl ts -> n ∈ nodes_of tl' ts' -> tl = tl'.
Proof.
  intros (H & _) (H' & _) (l1 & r & E)%list_elem_of_split (l1' & r' & E')%list_elem_of_split.
  rewrite E in H. rewrite E' in H'.
  pose proof (linked_prefix_unique _ _ _ _ _ _ _ _ H H') as ->.
  unfold nodes_of in E, E'. destruct l1' as [|b l1']; simplify_eq/=; congruence.
Qed.

Lemma linked_in m p l q n :
  n ∈ l -> linked m p l q -> exists d, m !! n = Some d.
Proof.
  revert p. induction l as [|a l IH]; intros p Hn; [by apply not_elem_of_nil in Hn|].
  intros [Ha Hl]. apply elem_of_cons in Hn as [->|Hn]; eauto.
Qed.

Lemma detached_not_in st tl ts t : detached st t -> holds st tl ts -> t ∉ ts.
Proof.
  intros Hd (H & _) Hin. apply (nodes_of_thread tl) in Hin.
  apply list_elem_of_split in Hin as (l1 & r & E). rewrite E, linked_app in H.
  destruct H as (_ & Ht & _). rewrite Hd in Ht. unfold nodes_of in E.
  destruct l1 as [|a l1 _] using rev_ind; [discriminate|]. rewrite last_or_snoc in Ht.
  discriminate.
Qed.

Lemma linked_agree m m' p l q :
  (forall n, n ∈ l -> m' !! n = m !! n) -> linked m p l q -> linked m' p l q.
Proof.
  revert p. induction l as [|a l IH]; intros p Hm; [done|]. intros [Ha Hl]. simpl.
  split; [rewrite Hm by set_solver; done|]. apply IH; [|done]. intros. apply Hm. set_solver.
Qed.

(** The other lists of the store do not notice. *)
Definition others_kept (st st' : store) (tl : Z) : Prop :=
  forall tl' ts', tl' <> tl -> holds st tl' ts' -> holds st' tl' ts'.

Lemma others_kept_intro st st' tl ts t :
  holds st tl ts -> (t ∈ ts \/ detached st t) ->
  (forall n, n ∉ nodes_of tl ts -> n <> NThread t -> nodes st' !! n = nodes st !! n) ->
  (forall tl', tl' <> tl -> tl_count st' !! tl' = tl_count st !! tl') ->
  others_kept st st' tl.
Proof.
  intros Hh Ht Hn Hc tl' ts' Hne Hh'. pose proof Hh' as (Hl & ? & Hcnt & ?).
  split_and!; [|done|by rewrite Hc|done]. eapply linked_agree; [|exact Hl].
  intros n Hin. apply Hn.
  - intros Hin'. destruct Hne. symmetry. by apply (holds_disjoint st tl tl' ts ts' n).
  - intros ->. destruct Ht as [Ht|Ht].
    + destruct Hne. symmetry. apply (holds_disjoint st tl tl' ts ts' (NThread t)); try done.
      by apply nodes_of_thread.
    + apply nodes_of_thread in Hin. by eapply detached_not_in.
Qed.

(** The nodes on both sides of a position, and what they hold. *)
Lemma holds_nodes st tl ts1 ts2 :
  holds st tl (ts1 ++ ts2) ->
  exists da db, nodes st !! before tl ts1 = Some da /\ nodes st !! after tl ts2 = Some db /\
    tln_next da = Some (after tl ts2) /\ tln_prev db = Some (before tl ts1) /\
    before tl ts1 <> after tl ts2 /\
    (tln_prev da = None <-> ts1 = []) /\ (tln_next db = None <-> ts2 = []).
Proof.
  intros (Hl & Hnd & _). apply (NoDup_nodes tl) in Hnd.
  destruct (nodes_split tl ts1 ts2) as (l1 & l2 & E & _ & H1 & H2). rewrite E in Hnd.
  rewrite E, linked_app in Hl. cbn [linked hd_or] in Hl.
  destruct Hl as (_ & Ha & Hb & Hc). do 2 eexists.
  split_and!; [done..| | |]; cbn [tln_prev tln_next].
  - apply NoDup_app in Hnd as (_ & _ & Hnd). apply NoDup_cons in Hnd. set_solver.
  - rewrite <-H1. destruct l1 as [|n l1 _] using rev_ind; [done|].
    rewrite last_or_snoc. split; [done|]. by destruct l1.
  - rewrite <-H2. by destruct l2.
Qed.

Lemma inserted_holds st tl ts1 ts2 t da db :
  holds st tl (ts1 ++ ts2) -> detached st t -> Z.of_nat (length (ts1 ++ ts2)) + 1 < 2 ^ 32 ->
  nodes st !! before tl ts1 = Some da -> nodes st !! after tl ts2 = Some db ->
  let st' := Store (inserted (nodes st) (before tl ts1) (after tl ts2) (NThread t) da db)
               (<[tl := u32 (Z.of_nat (length (ts1 ++ ts2)) + 1)]> (tl_count st)) in
  holds st' tl (ts1 ++ t :: ts2) /\ others_kept st st' tl.
Proof.
  intros Hh Ht Hlen Ha Hb. pose proof (detached_not_in _ _ _ _ Ht Hh) as Hnin.
  destruct (nodes_split tl ts1 ts2) as (l1 & l2 & E & E' & _).
  split.
  - destruct Hh as (Hl & Hnd & Hc & _). split_and!.
    + rewrite E'. apply linked_inserted; [..|done|done].
      * rewrite <-E. by apply NoDup_nodes.
      * rewrite <-E. by rewrite nodes_of_thread.
      * by rewrite <-E.
    + rewrite <-Permutation_middle. by apply NoDup_cons.
    + cbn. rewrite lookup_insert_eq, u32_small by lia. f_equal.
      rewrite !length_app. cbn. lia.
    + rewrite !length_app in *. cbn. lia.
  - eapply (others_kept_intro _ _ _ _ t Hh); [by right|..].
    + intros n Hn Hne. cbn. unfold inserted. rewrite E in Hn.
      rewrite !lookup_insert_ne by set_solver. done.
    + intros tl' Hne. cbn. by rewrite lookup_insert_ne.
Qed.

Lemma removed_holds st tl ts1 t ts2 da db :
  holds st tl (ts1 ++ t :: ts2) ->
  nodes st !! before tl ts1 = Some da -> nodes st !! after tl ts2 = Some db ->
  let st' := Store (removed (nodes st) (before tl ts1) (after tl ts2) (NThread t) da db)
               (<[tl := u32 (Z.of_nat (length (ts1 ++ t :: ts2)) + -1)]> (tl_count st)) in
  holds st' tl (ts1 ++ ts2) /\ detached st' t /\ others_kept st st' tl.
Proof.
  intros Hh Ha Hb.
  destruct (nodes_split tl ts1 ts2) as (l1 & l2 & E & E' & _).
  split_and!.
  - destruct Hh as (Hl & Hnd & Hc & ?). split_and!.
    + rewrite E. apply linked_removed; [..|done|done].
      * rewrite <-E'. by apply NoDup_nodes.
      * by rewrite <-E'.
    + rewrite <-Permutation_middle in Hnd. by apply NoDup_cons in Hnd as [_ ?].
    + cbn. rewrite lookup_insert_eq. rewrite !length_app in *. cbn [length] in *.
      rewrite u32_small by lia. f_equal. lia.
    + rewrite !length_app in *. cbn [length] in *. lia.
  - unfold detached, removed. cbn. look.
  - eapply (others_kept_intro _ _ _ _ t Hh); [left; set_solver|..].
    + intros n Hn Hne. cbn. unfold removed. rewrite E' in Hn.
      rewrite !lookup_insert_ne by set_solver. done.
    + intros tl' Hne. cbn. by rewrite lookup_insert_ne.
Qed.

(** ** The operations *)

Lemma insert_wp st tl ts1 ts2 t (m : K store ()) :
  m = threadlist_insertafternode (before tl ts1) t \/
  m = threadlist_insertbeforenode t (after tl ts2) ->
  holds st tl (ts1 ++ ts2) -> detached st t -> Z.of_nat (length (ts1 ++ ts2)) + 1 < 2 ^ 32 ->
  wp (m;; count_add tl 1) (fun _ st' => holds st' tl (ts1 ++ t :: ts2) /\ others_kept st st' tl) st.
Proof.
  intros Hm Hh Ht Hlen.
  destruct (holds_nodes _ _ _ _ Hh) as (da & db & Ha & Hb & Hn & Hp & Hne & _).
  assert (before tl ts1 <> NThread t /\ after tl ts2 <> NThread t) as [??].
  { split; intros E; rewrite E in *; unfold detached in Ht; simplify_eq/=. }
  pose proof (inserted_holds _ _ _ _ _ _ _ Hh Ht Hlen Ha Hb) as Hres.
  assert (tl_count st !! tl = Some (Z.of_nat (length (ts1 ++ ts2)))) as Hc by apply Hh.
  rewrite wp_bind. destruct Hm as [-> | ->].
  - eapply (insertafternode_spec _ (before tl ts1) (after tl ts2) _ da db); try done. cbv beta.
    erewrite wp_count_add by exact Hc. exact Hres.
  - eapply (insertbeforenode_spec _ (before tl ts1) (after tl ts2) _ da db); try done. cbv beta.
    erewrite wp_count_add by exact Hc. exact Hres.
Qed.

Lemma remove_wp st tl ts1 t ts2 {A} (k : K store A) Q :
  holds st tl (ts1 ++ t :: ts2) ->
  (forall st', holds st' tl (ts1 ++ ts2) -> detached st' t -> others_kept st st' tl -> wp k Q st') ->
  wp (threadlist_removenode (Some (NThread t));; count_add tl (-1);; k) Q st.
Proof.
  intros Hh HQ. destruct (nodes_split tl ts1 ts2) as (l1 & l2 & E & E' & _).
  assert (exists da db, nodes st !! before tl ts1 = Some da /\ nodes st !! after tl ts2 = Some db /\
    nodes st !! NThread t = Some (Tln (Some (before tl ts1)) (Some (after tl ts2)) (Some t)) /\
    NoDup [before tl ts1; NThread t; after tl ts2]) as (da & db & Ha & Hb & Ht & Hnd).
  { destruct Hh as (Hl & Hnd & _). apply (NoDup_nodes tl) in Hnd.
    rewrite E' in Hl, Hnd. apply linked_app in Hl as (_ & Ha & Ht & Hb & _).
    do 2 eexists. split_and!; [done..|].
    apply NoDup_app in Hnd as (_ & _ & Hnd).
    change (before tl ts1 :: NThread t :: after tl ts2 :: l2)
      with ([before tl ts1; NThread t; after tl ts2] ++ l2) in Hnd.
    by apply NoDup_app in Hnd as (Hnd & _). }
  assert (tl_count st !! tl = Some (Z.of_nat (length (ts1 ++ t :: ts2)))) as Hc by apply Hh.
  destruct (removed_holds _ _ _ _ _ _ _ Hh Ha Hb) as (? & ? & ?).
  rewrite !NoDup_cons in Hnd. rewrite wp_bind.
  eapply removenode_spec; [exact Ha|exact Hb|exact Ht|set_solver..|].
  rewrite wp_bind. erewrite wp_count_add by done. by apply HQ.
Qed.

(** Insertion, at either end or next to a thread that is on the list. *)
Lemma threadlist_insert_spec st tl t ts ts1 ts2 u :
  holds st tl ts -> detached st t -> Z.of_nat (length ts) + 1 < 2 ^ 32 ->
  wp (threadlist_addhead tl t) (fun _ st' => holds st' tl (t :: ts) /\ others_kept st st' tl) st /\
  wp (threadlist_addtail tl t) (fun _ st' => holds st' tl (ts ++ [t]) /\ others_kept st st' tl) st /\
  (ts = ts1 ++ u :: ts2 ->
   wp (threadlist_insertafter tl u t)
     (fun _ st' => holds st' tl (ts1 ++ u :: t :: ts2) /\ others_kept st st' tl) st /\
   wp (threadlist_insertbefore tl t u)
     (fun _ st' => holds st' tl (ts1 ++ t :: u :: ts2) /\ others_kept st st' tl) st).
Proof.
  intros Hh Ht Hlen. split_and!.
  - by apply (insert_wp st tl [] ts t _ (or_introl eq_refl)).
  - apply (insert_wp st tl ts [] t _ (or_intror eq_refl)); by rewrite ?app_nil_r.
  - intros ->. split.
    + replace (ts1 ++ u :: t :: ts2) with ((ts1 ++ [u]) ++ t :: ts2) by by rewrite <-app_assoc.
      replace (ts1 ++ u :: ts2) with ((ts1 ++ [u]) ++ ts2) in * by by rewrite <-app_assoc.
      apply insert_wp; [|done..]. left. unfold before. by rewrite last_snoc.
    + apply insert_wp; [|done..]. by right.
Qed.

(** Removal at either end or from anywhere. *)
Lemma threadlist_remove_spec st tl ts t :
  holds st tl ts ->
  (ts = [] -> threadlist_remhead tl st = Ret None st /\ threadlist_remtail tl st = Ret None st) /\
  (forall ts', ts = t :: ts' -> wp (threadlist_remhead tl) (fun r st' => r = Some t /\
     holds st' tl ts' /\ detached st' t /\ others_kept st st' tl) st) /\
  (forall ts', ts = ts' ++ [t] -> wp (threadlist_remtail tl) (fun r st' => r = Some t /\
     holds st' tl ts' /\ detached st' t /\ others_kept st st' tl) st) /\
  (forall ts1 ts2, ts = ts1 ++ t :: ts2 -> wp (threadlist_remove tl t) (fun _ st' =>
     holds st' tl (ts1 ++ ts2) /\ detached st' t /\ others_kept st st' tl) st).
Proof.
  intros Hh. split_and!.
  - intros ->. pose proof Hh as ((Hhd & Htl & _) & _). cbn in Hhd, Htl.
    unfold threadlist_remhead, threadlist_remtail, read. kstep. rewrite Hhd. cbn. rewrite Htl. cbn.
    by rewrite Hhd.
  - intros ts' ->. destruct (holds_nodes st tl [] (t :: ts') Hh) as (da & db & Ha & Hb & Hn & _ & _ & _ & Hne).
    unfold threadlist_remhead. rewrite wp_bind, (wp_read _ _ _ _ _ eq_refl Ha).
    rewrite wp_bind, (wp_read _ _ _ _ _ Hn Hb), bool_decide_eq_false_2, Hn by (by rewrite Hne).
    apply (remove_wp st tl [] t ts'); [done|]. intros st' ? Hd ?.
    rewrite wp_bind, (wp_read _ _ _ _ _ eq_refl Hd). by rewrite wp_ret.
  - intros ts' ->. destruct (holds_nodes st tl (ts' ++ [t]) []) as (da & db & Ha & Hb & _ & Hp & _ & Hne & _).
    { by rewrite app_nil_r. }
    assert (Eb : before tl (ts' ++ [t]) = NThread t) by (unfold before; by rewrite last_snoc).
    rewrite Eb in *. unfold threadlist_remtail. rewrite wp_bind, (wp_read _ _ _ _ _ eq_refl Hb).
    rewrite wp_bind, (wp_read _ _ _ _ _ Hp Ha), bool_decide_eq_false_2, Hp
      by (rewrite Hne; by destruct ts').
    apply (remove_wp st tl ts' t []); [done|]. intros st' Hh' Hd ?. rewrite app_nil_r in Hh'.
    rewrite wp_bind, (wp_read _ _ _ _ _ eq_refl Hd). by rewrite wp_ret.
  - intros ts1 ts2 ->. unfold threadlist_remove.
    pose proof (remove_wp st tl ts1 t ts2 (mret tt) (fun _ st' =>
      holds st' tl (ts1 ++ ts2) /\ detached st' t /\ others_kept st st' tl) Hh) as H.
    rewrite !wp_bind in H. rewrite wp_bind. eapply wp_mono; [|apply H; by intros].
    cbv beta. intros _ st' H'. rewrite wp_bind in H'. eapply wp_mono; [|exact H']. by intros [] ?.
Qed.

(** The pointer code refines a sequence of threads.  Insertion, at either end or
    next to a thread on the list, splices the new thread in at that place; [remhead]
    and [remtail] take the first and the last one, or give NULL on an empty list, which
    stays as it is; [remove] takes a thread out from anywhere, and its node is
    detached.  The order of the others is kept, the links in both directions and the
    count are right, no assertion fails, and no other list changes. *)
Lemma threadlist_is_sequence st tl ts :
  holds st tl ts ->
  (forall t, detached st t -> Z.of_nat (length ts) + 1 < 2 ^ 32 ->
    wp (threadlist_addhead tl t) (fun _ st' => holds st' tl (t :: ts) /\ others_kept st st' tl) st /\
    wp (threadlist_addtail tl t) (fun _ st' => holds st' tl (ts ++ [t]) /\ others_kept st st' tl) st /\
    (forall ts1 u ts2, ts = ts1 ++ u :: ts2 ->
      wp (threadlist_insertafter tl u t)
        (fun _ st' => holds st' tl (ts1 ++ u :: t :: ts2) /\ others_kept st st' tl) st /\
      wp (threadlist_insertbefore tl t u)
        (fun _ st' => holds st' tl (ts1 ++ t :: u :: ts2) /\ others_kept st st' tl) st)) /\
  (ts = [] -> threadlist_remhead tl st = Ret None st /\ threadlist_remtail tl st = Ret None st) /\
  (forall t ts', ts = t :: ts' -> wp (threadlist_remhead tl) (fun r st' => r = Some t /\
     holds st' tl ts' /\ detached st' t /\ others_kept st st' tl) st) /\
  (forall t ts', ts = ts' ++ [t] -> wp (threadlist_remtail tl) (fun r st' => r = Some t /\
     holds st' tl ts' /\ detached st' t /\ others_kept st st' tl) st) /\
  (forall t ts1 ts2, ts = ts1 ++ t :: ts2 -> wp (threadlist_remove tl t) (fun _ st' =>
     holds st' tl (ts1 ++ ts2) /\ detached st' t /\ others_kept st st' tl) st).
Proof.
  intros Hh. split.
  { intros t Ht Hl. pose proof (fun ts1 u ts2 => threadlist_insert_spec st tl t ts ts1 ts2 u Hh Ht Hl) as H.
    destruct (H [] 0 []) as (? & ? & _). split_and!; [done..|]. intros ts1 u ts2. apply H. }
  pose proof (fun t => threadlist_remove_spec st tl ts t Hh) as H.
  split_and!; [apply (H 0)|intros t; apply H..].
Qed.

(** [threadlist_init] makes an empty list. *)
Lemma threadlist_init_holds st tl :
  wp (threadlist_init tl) (fun _ st' => holds st' tl []) st.
Proof.
  unfold threadlist_init. rewrite wp_modify. split_and!; cbn; [split_and!; look|..]; try done.
  - apply NoDup_nil_2.
  - by rewrite lookup_insert_eq.
Qed.

(** The iteration macro visits the threads of the list, in order. *)
Lemma forall_from_spec st tl ts1 ts2 fuel :
  holds st tl (ts1 ++ ts2) -> (length ts2 < fuel)%nat ->
  forall_from fuel st (Some (after tl ts2)) = Some ts2.
Proof.
  revert ts1 fuel. induction ts2 as [|t ts2 IH]; intros ts1 fuel Hh Hf;
    (destruct fuel as [|fuel]; [simpl in Hf; lia|]).
  - destruct Hh as (Hl & _). unfold nodes_of in Hl.
    rewrite app_nil_r, app_comm_cons, linked_app in Hl. destruct Hl as (_ & Ht & _).
    simpl. by rewrite Ht.
  - assert (nodes st !! NThread t = Some (Tln (Some (before tl ts1)) (Some (after tl ts2)) (Some t))) as Ht.
    { destruct (nodes_split tl ts1 ts2) as (l1 & l2 & _ & E' & _). destruct Hh as (Hl & _).
      rewrite E', linked_app in Hl. by destruct Hl as (_ & _ & Ht & _). }
    simpl. rewrite Ht. simpl. rewrite Ht. simpl.
    rewrite (IH (ts1 ++ [t])) by (rewrite <-?app_assoc; simpl in *; done || lia). done.
Qed.

Lemma THREADLIST_FORALL_spec st tl ts fuel :
  holds st tl ts -> (length ts < fuel)%nat -> THREADLIST_FORALL fuel st tl = Some ts.
Proof.
  intros Hh Hf. destruct (holds_nodes st tl [] ts Hh) as (da & db & Ha & _ & Hn & _).
  unfold THREADLIST_FORALL. change (before tl []) with (NHead tl) in Ha. rewrite Ha. simpl.
  rewrite Hn. by apply (forall_from_spec st tl []).
Qed.

(** A store with list 0 and the detached threads 1 to 3, list 0 holding 1 and 2. *)
Definition sample_build : K store () :=
  threadlist_init 0;; threadlistnode_init 1;; threadlistnode_init 2;; threadlistnode_init 3;;
  threadlist_addtail 0 1;; threadlist_addtail 0 2.
Definition sample : store :=
  match sample_build (Store ∅ ∅) with Ret _ st => st | _ => Store ∅ ∅ end.

Lemma sample_holds : holds sample 0 [1; 2] /\ detached sample 3.
Proof.
  split; [|reflexivity]. split_and!; [|..|done|done]; [by vm_compute|].
  apply (bool_decide_unpack (NoDup [1; 2])). by vm_compute.
Qed.

Lemma threadlist_is_sequence_witness :
  wp (threadlist_addtail 0 3) (fun _ st' => holds st' 0 [1; 2; 3] /\ others_kept sample st' 0) sample /\
  wp (threadlist_insertafter 0 1 3) (fun _ st' => holds st' 0 [1; 3; 2] /\ others_kept sample st' 0) sample /\
  wp (threadlist_remtail 0) (fun r st' => r = Some 2 /\ holds st' 0 [1] /\ detached st' 2 /\
    others_kept sample st' 0) sample.
Proof.
  destruct (threadlist_is_sequence sample 0 [1; 2]) as (Hi & _ & _ & Ht & _); [apply sample_holds|].
  destruct (Hi 3) as (_ & Ha & Hs); [apply sample_holds|by compute|].
  split; [exact Ha|]. split; [apply (Hs [] 1 [2] eq_refl)|apply (Ht 2 [1] eq_refl)].
Defined.
End Threadlist_facts.
