(* ===== verification/Frames.v ===== *)
(** * Physical memory: [kern/arch/mips/vm/ram.c] and the frame allocator of
    [kern/arch/mips/vm/dumbvm.c]

    Two allocators share the physical frames.  [ram_stealmem] hands out frames in
    order and never takes them back; on top of it [getppages] and [freeppages]
    recycle the frames that were freed, found by a first-fit search of the table
    [freeRamFrames], and remember the length of each block in [allocSize].

    A section of code between [spinlock_acquire] and [spinlock_release] is one
    uninterrupted piece of the computation.  [long] has 32 bits on MIPS. *)
From S2P Require Import Prelude.

Module Frames.
Definition PAGE_SIZE : Z := 4096.
Definition PAGE_FRAME : Z := 0xfffff000.
Definition MIPS_KSEG0 : Z := 0x80000000.
Definition PADDR_TO_KVADDR (paddr : Z) : Z := u32 (paddr + MIPS_KSEG0).

(** The static variables of the two files, the physical memory (a byte per
    address), the TLB, and whether the code runs in a context that may sleep. *)
Record vm := Vm {
  firstfree : Z; firstpaddr : Z; lastpaddr : Z;
  freeRamFrames : option (list Z); allocSize : option (list Z);
  nRamFrames : Z; allocTableActive : bool;
  can_sleep : bool; mem : Z -> Z; tlb : list (Z * Z) }.

Definition set_ram (first last : Z) (s : vm) : vm :=
  Vm (firstfree s) first last (freeRamFrames s) (allocSize s) (nRamFrames s)
     (allocTableActive s) (can_sleep s) (mem s) (tlb s).
Definition set_tables (fr al : option (list Z)) (n : Z) (act : bool) (s : vm) : vm :=
  Vm (firstfree s) (firstpaddr s) (lastpaddr s) fr al n act (can_sleep s) (mem s) (tlb s).
Definition set_mem (m : Z -> Z) (s : vm) : vm :=
  Vm (firstfree s) (firstpaddr s) (lastpaddr s) (freeRamFrames s) (allocSize s) (nRamFrames s)
     (allocTableActive s) (can_sleep s) m (tlb s).
Definition set_tlb (t : list (Z * Z)) (s : vm) : vm :=
  Vm (firstfree s) (firstpaddr s) (lastpaddr s) (freeRamFrames s) (allocSize s) (nRamFrames s)
     (allocTableActive s) (can_sleep s) (mem s) t.
Definition set_free (fr : list Z) (s : vm) : vm :=
  set_tables (Some fr) (allocSize s) (nRamFrames s) (allocTableActive s) s.
Definition set_alloc (al : list Z) (s : vm) : vm :=
  set_tables (freeRamFrames s) (Some al) (nRamFrames s) (allocTableActive s) s.

(** ** [ram.c] *)

Definition ram_bootstrap (mainbus_ramsize : Z) : K vm () :=
  let ramsize := if 512 * 1024 * 1024 <? mainbus_ramsize
                 then 512 * 1024 * 1024 else mainbus_ramsize in
  modify (fun s => set_ram (u32 (firstfree s - MIPS_KSEG0)) ramsize s).

Definition ram_stealmem (npages : Z) : K vm Z :=
  s ← get;
  let size := u32 (npages * PAGE_SIZE) in
  if lastpaddr s <? u32 (firstpaddr s + size) then mret 0 else
  put (set_ram (u32 (firstpaddr s + size)) (lastpaddr s) s);;
  mret (firstpaddr s).

Definition ram_getsize : K vm Z := gets lastpaddr.

Definition ram_getfirstfree : K vm Z :=
  s ← get; put (set_ram 0 0 s);; mret (firstpaddr s).

(** ** The frame tables *)

Definition isTableActive : K vm bool := gets allocTableActive.

(** [kmalloc] tells whether the allocation succeeded. *)
Definition vm_bootstrap (kmalloc : Z -> K vm bool) : K vm () :=
  size ← ram_getsize;
  let n := Z.quot (s32 size) PAGE_SIZE in
  modify (fun s => set_tables (freeRamFrames s) (allocSize s) n (allocTableActive s) s);;
  ok ← kmalloc (u32 n);
  if negb ok then
    modify (fun s => set_tables None (allocSize s) n (allocTableActive s) s)
  else
  ok ← kmalloc (u32 (4 * n));
  if negb ok then
    modify (fun s => set_tables None None n (allocTableActive s) s)
  else
  modify (fun s => set_tables (Some (replicate (Z.to_nat n) 0))
                              (Some (replicate (Z.to_nat n) 0)) n true s).

(** [dumbvm_can_sleep]: no spinlock held, not in an interrupt handler. *)
Definition dumbvm_can_sleep : K vm () :=
  s ← get; KASSERT (can_sleep s) "curcpu->c_spinlocks == 0 && !t_in_interrupt".

(** The search loop of [getfreeppages], at index [i]; [n] is [nRamFrames - i].
    [None] when the code would read outside the table. *)
Fixpoint search (n : nat) (free : list Z) (np i first : Z) : option Z :=
  match n with
  | O => Some (-1)
  | S n =>
      c ← free !! Z.to_nat i;
      if c =? 0 then search n free np (i + 1) first else
      start ← (if i =? 0 then Some true else
               p ← free !! Z.to_nat (i - 1); Some (p =? 0));
      let first := if start : bool then i else first in
      if np <=? i - first + 1 then Some first
      else search n free np (i + 1) first
  end.

(** [for (i=lo; i<lo+n; i++) l[i] = x]. *)
Fixpoint fill (n : nat) (i x : Z) (l : list Z) : option (list Z) :=
  match n with
  | O => Some l
  | S n => if bool_decide (0 <= i < Z.of_nat (length l))
           then fill n (i + 1) x (<[Z.to_nat i := x]> l) else None
  end.

Definition getfreeppages (npages : Z) : K vm Z :=
  active ← isTableActive;
  if negb active then mret 0 else
  s ← get;
  let np := s32 npages in
  free ← deref (freeRamFrames s) "freeRamFrames";
  found ← deref (search (Z.to_nat (nRamFrames s)) free np 0 (-1)) "freeRamFrames[i]";
  if 0 <=? found then
    free' ← deref (fill (Z.to_nat np) found 0 free) "freeRamFrames[i]";
    modify (set_free free');;
    al ← deref (allocSize s) "allocSize";
    al' ← deref (fill 1 found (u32 np) al) "allocSize[found]";
    modify (set_alloc al');;
    mret (u32 (found * PAGE_SIZE))
  else mret 0.

Definition getppages (npages : Z) : K vm Z :=
  addr ← getfreeppages npages;
  addr ← (if addr =? 0 then ram_stealmem npages else mret addr);
  active ← isTableActive;
  (if negb (addr =? 0) && active then
     s ← get;
     al ← deref (allocSize s) "allocSize";
     al' ← deref (fill 1 (addr / PAGE_SIZE) npages al) "allocSize[addr/PAGE_SIZE]";
     modify (set_alloc al')
   else mret tt);;
  mret addr.

Definition freeppages (addr npages : Z) : K vm Z :=
  active ← isTableActive;
  if negb active then mret 0 else
  s ← get;
  let first := addr / PAGE_SIZE in
  KASSERT (bool_decide (allocSize s <> None)) "allocSize!=NULL";;
  KASSERT (first <? nRamFrames s) "nRamFrames>first";;
  free ← deref (freeRamFrames s) "freeRamFrames";
  free' ← deref (fill (Z.to_nat (s32 npages)) first 1 free) "freeRamFrames[i]";
  modify (set_free free');;
  mret 1.

Definition alloc_kpages (npages : Z) : K vm Z :=
  dumbvm_can_sleep;;
  pa ← getppages npages;
  if pa =? 0 then mret 0 else mret (PADDR_TO_KVADDR pa).

Definition free_kpages (addr : Z) : K vm () :=
  active ← isTableActive;
  if negb active then mret tt else
  s ← get;
  let paddr := u32 (addr - MIPS_KSEG0) in
  let first := paddr / PAGE_SIZE in
  KASSERT (bool_decide (allocSize s <> None)) "allocSize!=NULL";;
  KASSERT (first <? nRamFrames s) "nRamFrames>first";;
  al ← deref (allocSize s) "allocSize";
  n ← deref (al !! Z.to_nat first) "allocSize[first]";
  freeppages paddr n;;
  mret tt.

(** ** Invariant

    [blocks] are the allocated blocks, first frame and length.  Every frame of a
    block is below the stealing mark and not marked free, blocks do not overlap,
    and frame 0, which holds the exception handlers, is never handed out. *)

Definition in_block (i s n : Z) : Prop := s <= i < s + n.

Definition owned (blocks : gmap Z Z) (i : Z) : Prop :=
  exists s n, blocks !! s = Some n /\ in_block i s n.

Definition mark (s : vm) : Z := firstpaddr s / PAGE_SIZE.

Record inv (s : vm) (blocks : gmap Z Z) : Prop := Inv {
  inv_active : allocTableActive s = true;
  inv_ram : 0 < nRamFrames s <= 2 ^ 17 /\ lastpaddr s = nRamFrames s * PAGE_SIZE;
  inv_mark : firstpaddr s = mark s * PAGE_SIZE /\ 1 <= mark s <= nRamFrames s;
  inv_free : exists free, freeRamFrames s = Some free /\
    Z.of_nat (length free) = nRamFrames s /\
    (forall i, free !! Z.to_nat i <> Some 0 -> 0 <= i < nRamFrames s ->
       1 <= i < mark s /\ ~ owned blocks i);
  inv_alloc : exists al, allocSize s = Some al /\
    Z.of_nat (length al) = nRamFrames s /\
    (forall b n, blocks !! b = Some n -> al !! Z.to_nat b = Some n);
  inv_blocks : forall b n, blocks !! b = Some n -> 1 <= b /\ 1 <= n /\ b + n <= mark s;
  inv_disjoint : forall b n b' n' i, blocks !! b = Some n -> blocks !! b' = Some n' ->
    in_block i b n -> in_block i b' n' -> b = b' }.

(** Frame [i] can be recycled. *)
Definition recyclable (s : vm) (i : Z) : Prop :=
  exists free c, freeRamFrames s = Some free /\ free !! Z.to_nat i = Some c /\ c <> 0.
End Frames.

(** What the frame allocator promises to the code above it, over states [W] with a
    table of live blocks, by first frame and number of frames: an allocation answers
    0 or the kernel address of a new block, and a live block can be freed. *)
Class PageAlloc (W : Type) := {
  alloc_kpages : Z -> K W Z;
  free_kpages : Z -> K W ();
  pages_inv : W -> gmap Z Z -> Prop;
  alloc_kpages_ok w live np : pages_inv w live -> 1 <= np < 2 ^ 19 ->
    wp (alloc_kpages np) (fun r w' => (r = 0 /\ pages_inv w' live) \/
      exists b, r = Frames.MIPS_KSEG0 + b * Frames.PAGE_SIZE /\ live !! b = None /\
        pages_inv w' (<[b := np]> live)) w;
  free_kpages_ok w live b n : pages_inv w live -> live !! b = Some n ->
    wp (free_kpages (Frames.MIPS_KSEG0 + b * Frames.PAGE_SIZE)) (fun _ w' => pages_inv w' (delete b live)) w;
  live_bounds w live b n : pages_inv w live -> live !! b = Some n -> 1 <= b /\ 1 <= n /\ b + n <= 2 ^ 17;
  live_disjoint w live b n b' n' : pages_inv w live -> live !! b = Some n -> live !! b' = Some n' ->
    b <> b' -> b + n <= b' \/ b' + n' <= b }.

Section Frames_facts.
Import Frames.

(** The page and the offset of an address. *)
Lemma land_frame a : 0 <= a < 2 ^ 32 -> Z.land a PAGE_FRAME = a / 4096 * 4096.
Proof.
  intros Ha. unfold PAGE_FRAME. change 0xfffff000 with (Z.shiftl (Z.ones 20) 12).
  change 4096 with (2 ^ 12). rewrite <-Z.shiftr_div_pow2, <-Z.shiftl_mul_pow2 by lia.
  apply Z.bits_inj'. intros n Hn. rewrite Z.land_spec, !Z.shiftl_spec by lia.
  destruct (Z.lt_ge_cases n 12).
  - rewrite !(Z.testbit_neg_r _ (n - 12)) by lia. apply andb_false_r.
  - rewrite Z.shiftr_spec, Z.sub_add by lia. destruct (Z.lt_ge_cases n 32).
    + rewrite Z.ones_spec_low by lia. apply andb_true_r.
    + rewrite <-(Z.mod_small a (2 ^ 32)), Z.mod_pow2_bits_high by lia. done.
Qed.

Lemma land_offset a : 0 <= a -> Z.land a 0xfff = a mod 4096.
Proof. intros. change 0xfff with (Z.ones 12). by rewrite Z.land_ones by lia. Qed.

Lemma fill_spec n i x l :
  0 <= i -> i + Z.of_nat n <= Z.of_nat (length l) ->
  exists l', fill n i x l = Some l' /\ length l' = length l /\
    forall j, 0 <= j -> l' !! Z.to_nat j =
      if decide (i <= j < i + Z.of_nat n) then Some x else l !! Z.to_nat j.
Proof.
  revert i l. induction n as [|n IH]; intros i l Hi Hn; cbn [fill].
  - exists l. split_and!; [done..|]. intros j Hj. case_decide; [lia|done].
  - rewrite bool_decide_eq_true_2 by lia.
    destruct (IH (i + 1) (<[Z.to_nat i:=x]> l)) as (l' & -> & Hlen & Hl);
      [lia|rewrite length_insert; lia|].
    exists l'. rewrite length_insert in Hlen. split_and!; [done..|].
    intros j Hj. rewrite Hl by done. repeat case_decide; try lia; try done.
    + assert (i = j) as -> by lia. apply list_lookup_insert_eq. lia.
    + apply list_lookup_insert_ne. lia.
Qed.

(** The frames [lo .. hi - 1] are all free in the table. *)
Definition all_free (free : list Z) (lo hi : Z) : Prop :=
  forall j, lo <= j < hi -> exists c, free !! Z.to_nat j = Some c /\ c <> 0.

(** What the loop knows at index [i]: [first] is the start of the run of free
    frames that ends just before [i], if there is one. *)
Definition run (free : list Z) (i first : Z) : Prop :=
  (0 < i -> forall p, free !! Z.to_nat (i - 1) = Some p -> p <> 0 ->
     0 <= first < i /\ all_free free first i /\
     (first = 0 \/ free !! Z.to_nat (first - 1) = Some 0)).

Lemma search_spec n free np i first :
  1 <= np -> 0 <= i -> i + Z.of_nat n = Z.of_nat (length free) -> run free i first ->
  (forall k, 0 <= k -> k + np <= i -> ~ all_free free k (k + np)) ->
  exists r, search n free np i first = Some r /\
    ((0 <= r /\ r + np <= Z.of_nat (length free) /\ all_free free r (r + np) /\
      forall k, 0 <= k < r -> ~ all_free free k (k + np)) \/
     (r = -1 /\ forall k, 0 <= k -> k + np <= Z.of_nat (length free) -> ~ all_free free k (k + np))).
Proof.
  intros Hnp. revert i first. induction n as [|n IH]; intros i first Hi Hn Hrun Hno; cbn [search].
  { exists (-1). split; [done|]. right. split; [done|]. intros k Hk Hle. apply Hno; lia. }
  destruct (lookup_lt_is_Some_2 free (Z.to_nat i)) as [c Hc]; [lia|]. rewrite Hc. cbn [mbind option_bind].
  destruct (Z.eqb_spec c 0) as [->|Hc0].
  { apply IH; try lia.
    - intros _ p Hp. replace (i + 1 - 1) with i in Hp by lia. congruence.
    - intros k Hk Hle Hall. destruct (decide (k + np <= i)); [by eapply Hno|].
      destruct (Hall i) as (c & ? & ?); [lia|congruence]. }
  assert (exists start, (if i =? 0 then Some true else p ← free !! Z.to_nat (i - 1); Some (p =? 0)) = Some start
    /\ (if start then i = 0 \/ free !! Z.to_nat (i - 1) = Some 0
        else 0 < i /\ exists p, free !! Z.to_nat (i - 1) = Some p /\ p <> 0)) as (start & -> & Hstart).
  { destruct (Z.eqb_spec i 0); [exists true; auto|].
    destruct (lookup_lt_is_Some_2 free (Z.to_nat (i - 1))) as [p Hp]; [lia|]. rewrite Hp. cbn.
    exists (p =? 0). split; [done|]. destruct (Z.eqb_spec p 0) as [->|]; [auto|]. split; [lia|eauto]. }
  cbn [mbind option_bind]. set (first' := if start then i else first).
  assert (H' : 0 <= first' <= i /\ all_free free first' (i + 1) /\
               (first' = 0 \/ free !! Z.to_nat (first' - 1) = Some 0)).
  { destruct start; subst first'.
    - split_and!; [lia..| |done]. intros j Hj. assert (j = i) as -> by lia. eauto.
    - destruct Hstart as (? & p & Hp & Hp0).
      destruct (Hrun ltac:(lia) p Hp Hp0) as (? & Hall & ?). split_and!; [lia..| |done].
      intros j Hj. destruct (decide (j = i)) as [->|]; [eauto|]. apply Hall. lia. }
  destruct H' as (Hf & Hall & Hbefore).
  assert (Hmax : forall k, 0 <= k < first' -> first' < k + np -> ~ all_free free k (k + np)).
  { intros k Hk Hlt Hk'. destruct Hbefore as [->|Hb]; [lia|].
    destruct (Hk' (first' - 1)) as (c' & ? & ?); [lia|congruence]. }
  destruct (Z.leb_spec np (i - first' + 1)) as [Hle|Hgt].
  - exists first'. split; [done|]. left. split_and!; [lia|lia| |].
    + intros j Hj. apply Hall. lia.
    + intros k Hk Hk'. destruct (decide (k + np <= i)); [by eapply (Hno k); [lia|lia|]|].
      eapply (Hmax k); [lia| |done].
      destruct (decide (first' < k + np)); [done|]. lia.
  - apply IH; try lia.
    + intros _ p Hp Hp0. split_and!; [lia..|done|done].
    + intros k Hk Hle Hk'. destruct (decide (k + np <= i)); [by eapply (Hno k)|].
      destruct (decide (k < first')); [|lia]. eapply (Hmax k); [lia|lia|done].
Qed.

(** What the allocator does not touch. *)
Definition same_rest (s s' : vm) : Prop :=
  mem s' = mem s /\ tlb s' = tlb s /\ can_sleep s' = can_sleep s /\ nRamFrames s' = nRamFrames s.

Lemma owned_insert blocks b n i :
  blocks !! b = None -> owned (<[b := n]> blocks) i <-> in_block i b n \/ owned blocks i.
Proof.
  intros Hb. unfold owned. split.
  - intros (b' & n' & H & ?). apply lookup_insert_Some in H as [[-> ->]|[? ?]]; eauto.
  - intros [?|(b' & n' & H & ?)].
    + exists b, n. by rewrite lookup_insert_eq.
    + exists b', n'. rewrite lookup_insert_ne by congruence. done.
Qed.

(** Recording a block of frames that nobody owns. *)
Lemma inv_new_block s blocks s' b np free' al al' :
  inv s blocks -> 1 <= b -> 1 <= np -> b + np <= mark s' ->
  (forall i, in_block i b np -> ~ owned blocks i) ->
  same_rest s s' -> allocTableActive s' = true -> lastpaddr s' = lastpaddr s ->
  firstpaddr s' = mark s' * PAGE_SIZE -> mark s <= mark s' <= nRamFrames s ->
  freeRamFrames s' = Some free' -> Z.of_nat (length free') = nRamFrames s ->
  (forall i, 0 <= i < nRamFrames s -> free' !! Z.to_nat i <> Some 0 ->
     ~ in_block i b np /\ exists free, freeRamFrames s = Some free /\ free !! Z.to_nat i <> Some 0) ->
  allocSize s = Some al -> allocSize s' = Some al' -> length al' = length al ->
  (forall i, 0 <= i -> al' !! Z.to_nat i = if decide (i = b) then Some np else al !! Z.to_nat i) ->
  inv s' (<[b := np]> blocks).
Proof.
  intros [Hact [Hn Hlast] [Hf Hm] (free & Hfr & Hlf & Hfree) (al0 & Hal & Hla & Halloc) Hblk Hdis]
    Hb Hnp Hle Hfresh (_ & _ & _ & HN) Hact' Hlast' Hf' Hm' Hfr' Hlf' Hfree' Hal0 Hal' Hla' Hlk.
  assert (al0 = al) as -> by congruence.
  assert (Hbn : blocks !! b = None).
  { destruct (blocks !! b) as [n|] eqn:E; [|done]. destruct (Hfresh b).
    - unfold in_block. lia.
    - exists b, n. split; [done|]. apply Hblk in E. unfold in_block. lia. }
  split; rewrite ?HN.
  - done.
  - rewrite Hlast'. done.
  - split; [done|lia].
  - exists free'. split_and!; [done..|]. intros i Hi Hr.
    destruct (Hfree' i Hr Hi) as (Hni & free0 & Efree & Hi0). assert (free0 = free) as -> by congruence.
    destruct (Hfree i Hi0 Hr) as (? & Hno). split; [lia|]. rewrite owned_insert by done. tauto.
  - exists al'. split_and!; [done|congruence|]. intros b' n'. rewrite lookup_insert_Some.
    intros [[<- <-]|[Hne Hb']].
    + rewrite Hlk by lia. by rewrite decide_True.
    + rewrite Hlk by (apply Hblk in Hb'; lia). rewrite decide_False by congruence. by apply Halloc.
  - intros b' n'. rewrite lookup_insert_Some. intros [[<- <-]|[Hne Hb']]; [lia|].
    apply Hblk in Hb'. lia.
  - intros b1 n1 b2 n2 i. rewrite !lookup_insert_Some.
    intros [[<- <-]|[? H1]] [[<- <-]|[? H2]] Hi1 Hi2; try done.
    + destruct (Hfresh i Hi1). by exists b2, n2.
    + destruct (Hfresh i Hi2). by exists b1, n1.
    + by eapply Hdis.
Qed.

Lemma getfreeppages_spec s blocks np :
  inv s blocks -> 1 <= np < 2 ^ 19 ->
  wp (getfreeppages np) (fun r s' =>
    (r = 0 /\ s' = s /\ exists free, freeRamFrames s = Some free /\
       forall k, 0 <= k -> k + np <= nRamFrames s -> ~ all_free free k (k + np)) \/
    (exists b free, r = b * PAGE_SIZE /\ 1 <= b < nRamFrames s /\ inv s' (<[b := np]> blocks) /\ same_rest s s' /\
       (forall i, in_block i b np -> ~ owned blocks i) /\
       freeRamFrames s = Some free /\ all_free free b (b + np) /\
       forall k, 0 <= k < b -> ~ all_free free k (k + np))) s.
Proof.
  intros Hinv Hnp. pose proof Hinv as [Hact [Hn Hlast] [Hf Hm] (free & Hfr & Hlf & Hfree)
    (al & Hal & Hla & Halloc) Hblk Hdis].
  unfold getfreeppages, isTableActive. wp_simpl. rewrite Hact. wp_simpl. rewrite Hfr. wp_simpl.
  rewrite (s32_small np) by lia.
  destruct (search_spec (Z.to_nat (nRamFrames s)) free np 0 (-1)) as (r & Hs & Hr);
    [lia|lia|lia|intros ?; lia|intros; lia|]. erewrite wp_deref by exact Hs.
  destruct Hr as [(H0 & Hle & Hall & Hfirst)|(-> & Hno)].
  2:{ cbn [Z.leb Z.compare]. wp_simpl. left. split_and!; [done..|]. exists free.
      split; [done|]. intros k ??. apply Hno; lia. }
  assert (Hrun : forall i, in_block i r np -> 1 <= i < mark s /\ ~ owned blocks i).
  { intros i Hi. unfold in_block in Hi. destruct (Hall i) as (c & Hc & ?); [lia|].
    apply Hfree; [congruence|lia]. }
  assert (1 <= r) by (destruct (Hrun r); unfold in_block; lia).
  assert (r + np - 1 < mark s) by (destruct (Hrun (r + np - 1)); unfold in_block; lia).
  case_match; [|lia]. wp_simpl.
  destruct (fill_spec (Z.to_nat np) r 0 free) as (free' & Ef & Hlf' & Hlk'); [lia|lia|].
  rewrite (wp_deref _ _ _ _ _ Ef). wp_simpl. 
  destruct (fill_spec 1 r (u32 np) al) as (al' & Ea & Hla' & Hlka); [lia|lia|].
  rewrite (wp_deref _ _ _ _ _ Ea). wp_simpl. right. exists r, free.
  rewrite u32_small by (unfold PAGE_SIZE; lia).
  split_and!; try done; try lia; [|intros i Hi; by apply Hrun].
  apply (inv_new_block s blocks _ r np free' al al'); try done; try (unfold mark; cbn; fold (mark s); lia).
  - intros i Hi. by apply Hrun.
  - intros i Hi Hne. rewrite Hlk' in Hne by lia. unfold in_block.
    case_decide; [done|]. split; [lia|eauto].
  - intros i Hi. rewrite Hlka by lia. rewrite u32_small by lia. repeat case_decide; try lia; done.
Qed.

Lemma ram_stealmem_spec s blocks np :
  inv s blocks -> 1 <= np < 2 ^ 19 ->
  wp (ram_stealmem np) (fun r s' =>
    (r = 0 /\ s' = s /\ nRamFrames s < mark s + np) \/
    (r = mark s * PAGE_SIZE /\ mark s + np <= nRamFrames s /\
     s' = set_ram ((mark s + np) * PAGE_SIZE) (lastpaddr s) s)) s.
Proof.
  intros [_ [Hn Hlast] [Hf Hm] _ _ _ _] Hnp. unfold ram_stealmem. wp_simpl.
  unfold PAGE_SIZE in *. rewrite !(u32_small (np * 4096)), !u32_small by lia.
  destruct (Z.ltb_spec (lastpaddr s) (firstpaddr s + np * 4096)); wp_simpl.
  - left. split_and!; [done..|]. lia.
  - right. split_and!; [lia|lia|]. f_equal. lia.
Qed.

Lemma mark_set_ram m l s : mark (set_ram (m * PAGE_SIZE) l s) = m.
Proof. unfold mark. cbn [firstpaddr set_ram]. apply Z.div_mul. done. Qed.

Lemma getppages_spec s blocks np :
  inv s blocks -> 1 <= np < 2 ^ 19 ->
  wp (getppages np) (fun r s' =>
    (r = 0 /\ s' = s /\ nRamFrames s < mark s + np /\ exists free, freeRamFrames s = Some free /\
       forall k, 0 <= k -> k + np <= nRamFrames s -> ~ all_free free k (k + np)) \/
    (exists b, r = b * PAGE_SIZE /\ 1 <= b < nRamFrames s /\ inv s' (<[b := np]> blocks) /\
       same_rest s s' /\ forall i, in_block i b np -> ~ owned blocks i)) s.
Proof.
  intros Hinv Hnp. pose proof Hinv as [Hact [Hn Hlast] [Hf Hm] (free & Hfr & Hlf & Hfree)
    (al & Hal & Hla & Halloc) Hblk Hdis].
  unfold getppages. rewrite wp_bind. eapply wp_mono; [|by apply getfreeppages_spec]. cbv beta.
  intros r s1 [(-> & -> & Hno)|(b & _ & -> & Hb & Hinv1 & Hrest & Hfresh & _)].
  - cbn [Z.eqb]. rewrite wp_bind. eapply wp_mono; [|by eapply ram_stealmem_spec]. cbv beta.
    intros r s1 [(-> & -> & Hlt)|(-> & Hle & ->)].
    + cbn [Z.eqb negb andb]. unfold isTableActive. wp_simpl. left. split_and!; done.
    + unfold isTableActive, PAGE_SIZE. wp_simpl. cbn [allocTableActive set_ram]. rewrite Hact.
      destruct (Z.eqb_spec (mark s * 4096) 0); [lia|]. cbn [negb andb]. wp_simpl.
      cbn [allocSize set_ram]. rewrite Z.div_mul by lia.
      destruct (fill_spec 1 (mark s) np al) as (al' & Ea & Hla' & Hlka); [lia|lia|].
      rewrite (wp_deref _ _ _ _ _ Ea). wp_simpl. right. exists (mark s).
      assert (Hfresh : forall i, in_block i (mark s) np -> ~ owned blocks i).
      { intros i Hi (b & k & Hb & Hi'). apply Hblk in Hb. unfold in_block in *. lia. }
      split_and!; try done; try lia.
      assert (Em : mark (set_alloc al' (set_ram ((mark s + np) * 4096) (lastpaddr s) s)) = mark s + np)
        by apply (mark_set_ram (mark s + np) (lastpaddr s) s).
      apply (inv_new_block s blocks _ (mark s) np free al al'); rewrite ?Em; try done; try lia.
      * intros i Hi Hne. split; [|eauto]. destruct (Hfree i Hne Hi). unfold in_block. lia.
      * intros i Hi. rewrite Hlka by lia. repeat case_decide; try lia; done.
  - unfold PAGE_SIZE. destruct (Z.eqb_spec (b * 4096) 0); [lia|]. wp_simpl.
    unfold isTableActive. wp_simpl. rewrite (inv_active _ _ Hinv1).
    destruct (Z.eqb_spec (b * 4096) 0); [lia|]. cbn [negb andb]. wp_simpl.
    pose proof Hinv1 as [_ _ Hf1 (free1 & Hfr1 & Hlf1 & Hfree1) (al1 & Hal1 & Hla1 & Halloc1) Hblk1 _].
    rewrite Hal1. wp_simpl. rewrite Z.div_mul by lia.
    assert (HN : nRamFrames s1 = nRamFrames s) by apply Hrest.
    destruct (fill_spec 1 b np al1) as (al' & Ea & Hla' & Hlka); [lia|lia|].
    rewrite (wp_deref _ _ _ _ _ Ea). wp_simpl. right. exists b. split_and!; try done; try lia.
    assert (al' = al1) as ->.
    { apply list_eq. intros j. rewrite <-(Nat2Z.id j) at 1 2. rewrite Hlka by lia.
      case_decide; [|done]. assert (Z.of_nat j = b) as -> by lia. symmetry. apply Halloc1.
      apply lookup_insert_eq. }
    destruct s1. cbn in Hal1. subst. exact Hinv1.
Qed.

(** Marking the frames of a block free and forgetting the block. *)
Lemma freeppages_spec s blocks b n :
  inv s blocks -> blocks !! b = Some n ->
  wp (freeppages (b * PAGE_SIZE) n) (fun r s' => r = 1 /\ inv s' (delete b blocks) /\
    same_rest s s' /\ (forall i, in_block i b n -> recyclable s' i) /\
    (forall i, recyclable s i -> recyclable s' i)) s.
Proof.
  intros [Hact [Hn Hlast] Hm (free & Hfr & Hlf & Hfree) (al & Hal & Hla & Halloc) Hblk Hdis] Hb.
  pose proof (Hblk b n Hb) as Hbn.
  unfold freeppages, isTableActive. wp_simpl. rewrite Hact. wp_simpl.
  rewrite wp_KASSERT. split; [apply bool_decide_eq_true; congruence|]. wp_simpl.
  unfold PAGE_SIZE in *. rewrite Z.div_mul by lia. rewrite wp_KASSERT. split; [lia|]. wp_simpl.
  rewrite (s32_small n) by lia.
  destruct (fill_spec (Z.to_nat n) b 1 free) as (free' & Ef & Hlf' & Hlk); [lia|lia|].
  rewrite (wp_deref _ _ _ _ _ Ef). wp_simpl. split; [done|]. split_and!.
  - split; cbn; try done.
    + exists free'. split_and!; [done|lia|]. intros i Hi Hr. rewrite Hlk in Hi by lia.
      case_decide as Hin.
      * split; [unfold mark in *; cbn; lia|]. intros (b' & n' & Hb' & Hi').
        apply lookup_delete_Some in Hb' as [Hne Hb']. destruct Hne.
        apply (Hdis b n b' n' i); try done. unfold in_block. lia.
      * destruct (Hfree i Hi Hr) as [? Hno]. split; [done|]. intros (b' & n' & Hb' & Hi').
        apply lookup_delete_Some in Hb' as [Hne Hb']. destruct Hno. by exists b', n'.
    + exists al. split_and!; [done..|]. intros b' n' [_ Hb']%lookup_delete_Some. by apply Halloc.
    + intros b' n' [_ Hb']%lookup_delete_Some. by apply Hblk.
    + intros b1 n1 b2 n2 i [_ H1]%lookup_delete_Some [_ H2]%lookup_delete_Some. by apply Hdis.
  - done.
  - intros i Hi. unfold in_block in Hi. exists free', 1. split_and!; [done| |done].
    rewrite Hlk by lia. by rewrite decide_True by lia.
  - intros i (free0 & c & ? & Hc & ?). assert (free0 = free) as -> by congruence.
    destruct (decide (0 <= i)) as [Hi0|].
    + exists free'. rewrite Hlk by done. case_decide; [by exists 1|by exists c].
    + exists free'. replace (Z.to_nat i) with (Z.to_nat 0) in * by lia.
      rewrite Hlk by done. case_decide; [by exists 1|by exists c].
Qed.

Lemma alloc_kpages_spec s blocks np :
  inv s blocks -> can_sleep s = true -> 1 <= np < 2 ^ 19 ->
  wp (alloc_kpages np) (fun r s' =>
    (r = 0 /\ s' = s /\ nRamFrames s < mark s + np /\ exists free, freeRamFrames s = Some free /\
       forall k, 0 <= k -> k + np <= nRamFrames s -> ~ all_free free k (k + np)) \/
    (exists b, r = MIPS_KSEG0 + b * PAGE_SIZE /\ 1 <= b /\ inv s' (<[b := np]> blocks) /\
       same_rest s s' /\ forall i, in_block i b np -> ~ owned blocks i)) s.
Proof.
  intros Hinv Hsl Hnp. unfold alloc_kpages, dumbvm_can_sleep. wp_simpl. rewrite wp_KASSERT.
  split; [done|]. rewrite wp_bind. eapply wp_mono; [|by apply getppages_spec]. cbv beta.
  intros r s' [(-> & -> & ?)|(b & -> & Hb & Hinv' & ? & ?)].
  - wp_simpl. by left.
  - pose proof (inv_ram _ _ Hinv). unfold PAGE_SIZE.
    destruct (Z.eqb_spec (b * 4096) 0); [lia|]. wp_simpl. right. exists b.
    unfold PADDR_TO_KVADDR, MIPS_KSEG0. rewrite u32_small by lia. split_and!; try done; lia.
Qed.

Lemma free_kpages_spec s blocks b n :
  inv s blocks -> blocks !! b = Some n ->
  wp (free_kpages (MIPS_KSEG0 + b * PAGE_SIZE)) (fun _ s' => inv s' (delete b blocks) /\
    same_rest s s' /\ (forall i, in_block i b n -> recyclable s' i) /\
    (forall i, recyclable s i -> recyclable s' i)) s.
Proof.
  intros Hinv Hb. pose proof Hinv as [Hact [Hn Hlast] Hm _ (al & Hal & Hla & Halloc) Hblk _].
  pose proof (Hblk b n Hb) as Hbn. unfold free_kpages, isTableActive. wp_simpl. rewrite Hact.
  wp_simpl. unfold MIPS_KSEG0, PAGE_SIZE.
  replace (2147483648 + b * 4096 - 2147483648) with (b * 4096) by lia.
  rewrite u32_small, Z.div_mul by lia.
  rewrite wp_KASSERT. split; [apply bool_decide_eq_true; congruence|]. wp_simpl.
  rewrite wp_KASSERT. split; [lia|]. wp_simpl.
  rewrite (wp_deref _ n) by (by apply Halloc). rewrite wp_bind.
  eapply wp_mono; [|by apply freeppages_spec]. cbv beta. intros r s' (_ & ? & ?). by rewrite wp_ret.
Qed.

(** C39. The frame allocator.  From a state that satisfies the invariant, [alloc_kpages]
    either returns the kernel address of [np] frames that no live block owns and
    that the invariant now records as a block, or 0, and then nothing changed, no
    run of [np] recycled frames exists and the untouched RAM is too small.
    Freeing a live block by its kernel address returns exactly its frames, as
    many as were allocated there, to the recycling table, and the invariant holds for
    the remaining blocks.  Both return; memory contents and TLB stay as they were. *)
Theorem frame_allocator_correct s blocks :
  inv s blocks -> can_sleep s = true ->
  (forall np, 1 <= np < 2 ^ 19 -> wp (alloc_kpages np) (fun r s' =>
    (r = 0 /\ s' = s /\ nRamFrames s < mark s + np /\ exists free, freeRamFrames s = Some free /\
       forall k, 0 <= k -> k + np <= nRamFrames s -> ~ all_free free k (k + np)) \/
    (exists b, r = MIPS_KSEG0 + b * PAGE_SIZE /\ 1 <= b /\ inv s' (<[b := np]> blocks) /\
       same_rest s s' /\ forall i, in_block i b np -> ~ owned blocks i)) s) /\
  (forall b n, blocks !! b = Some n ->
    wp (free_kpages (MIPS_KSEG0 + b * PAGE_SIZE)) (fun _ s' => inv s' (delete b blocks) /\
      same_rest s s' /\ (forall i, in_block i b n -> recyclable s' i) /\
      (forall i, recyclable s i -> recyclable s' i)) s).
Proof.
  intros Hinv Hsl. split; intros; [by apply alloc_kpages_spec|by apply free_kpages_spec].
Qed.

(** The frame allocator implements its interface. *)
#[global] Program Instance frames_alloc : PageAlloc vm :=
  Build_PageAlloc vm alloc_kpages free_kpages
    (fun s live => inv s live /\ can_sleep s = true) _ _ _ _.
Next Obligation.
  intros w live np [Hinv Hsl] Hnp. eapply wp_mono; [|by apply alloc_kpages_spec].
  intros r w' [(-> & -> & _)|(b & -> & Hb & Hinv' & (_ & _ & Hsl' & _) & Hfresh)]; [by left|]. right.
  exists b. split_and!; [done| |done|congruence].
  destruct (live !! b) as [n|] eqn:E; [|done]. destruct (Hfresh b); [unfold in_block; lia|].
  exists b, n. split; [done|]. pose proof (inv_blocks _ _ Hinv b n E). unfold in_block. lia.
Qed.
Next Obligation.
  intros w live b n [Hinv Hsl] Hb. eapply wp_mono; [|by apply free_kpages_spec].
  intros r w' (Hinv' & (_ & _ & Hsl' & _) & _). split; [done|congruence].
Qed.
Next Obligation.
  intros w live b n [Hinv _] Hb. pose proof (inv_blocks _ _ Hinv b n Hb).
  pose proof (inv_ram _ _ Hinv). pose proof (inv_mark _ _ Hinv). lia.
Qed.
Next Obligation.
  intros w live b n b' n' [Hinv _] Hb Hb' Hne. pose proof (inv_disjoint _ _ Hinv) as Hd.
  pose proof (inv_blocks _ _ Hinv b n Hb). pose proof (inv_blocks _ _ Hinv b' n' Hb').
  destruct (decide (b + n <= b' \/ b' + n' <= b)); [done|].
  destruct Hne. apply (Hd b n b' n' (Z.max b b')); unfold in_block; (done || lia).
Qed.

(** [vm_bootstrap] establishes the invariant with no block live, whenever its
    two table allocations succeed and leave the RAM marks page-aligned; when one
    fails, the tables stay off. *)
Lemma vm_bootstrap_correct s kmalloc (n : Z) :
  lastpaddr s = n * PAGE_SIZE -> 0 < n <= 2 ^ 17 -> allocTableActive s = false ->
  (forall z t, lastpaddr t = lastpaddr s -> allocTableActive t = false ->
     wp (kmalloc z) (fun _ t' => lastpaddr t' = lastpaddr s /\ allocTableActive t' = false /\
       firstpaddr t' = mark t' * PAGE_SIZE /\ 1 <= mark t' <= n) t) ->
  wp (vm_bootstrap kmalloc) (fun _ s' => inv s' ∅ \/ allocTableActive s' = false) s.
Proof.
  intros Hlast Hn Hact Hk. unfold vm_bootstrap, ram_getsize. wp_simpl.
  unfold PAGE_SIZE in *. rewrite s32_small by lia. rewrite Hlast, Z.quot_mul by lia.
  eapply wp_mono; [|by apply Hk]. cbv beta. intros ok1 s1 (Hl1 & Ha1 & Hm1).
  destruct ok1; wp_simpl; [|by right].
  eapply wp_mono; [|by apply Hk]. cbv beta. intros ok2 s2 (Hl2 & Ha2 & Hm2).
  destruct ok2; wp_simpl; [|by right]. left.
  assert (Hz : forall i x, replicate (Z.to_nat n) 0 !! i = Some x -> x = 0)
    by (by intros i x [-> _]%lookup_replicate).
  split; cbn; try done.
  - split; [done|]. unfold PAGE_SIZE. lia.
  - exists (replicate (Z.to_nat n) 0). rewrite length_replicate. split_and!; [done|lia|].
    intros i Hi Hr. destruct Hi. apply lookup_replicate. split; [done|lia].
  - exists (replicate (Z.to_nat n) 0). rewrite length_replicate. split_and!; [done|lia|done].
Qed.

(** The size computation of [ram_stealmem] wraps: a request for 2^20 - 1 pages,
    far beyond any RAM, is granted at the current mark, and the mark moves down, so
    that frames already handed out are handed out again. *)
Lemma ram_stealmem_wraps s :
  PAGE_SIZE <= firstpaddr s <= lastpaddr s -> lastpaddr s <= 2 ^ 29 ->
  ram_stealmem (2 ^ 20 - 1) s =
    Ret (firstpaddr s) (set_ram (firstpaddr s - PAGE_SIZE) (lastpaddr s) s).
Proof.
  unfold PAGE_SIZE, ram_stealmem. intros ??. kunfold.
  rewrite (u32_small ((2 ^ 20 - 1) * PAGE_SIZE)) by (unfold PAGE_SIZE; lia).
  assert (u32 (firstpaddr s + (2 ^ 20 - 1) * PAGE_SIZE) = firstpaddr s - 4096) as ->.
  { unfold u32, PAGE_SIZE.
    replace (firstpaddr s + (2 ^ 20 - 1) * 4096) with (firstpaddr s - 4096 + 1 * 2 ^ 32) by lia.
    rewrite Z.mod_add, Z.mod_small by lia. done. }
  destruct (Z.ltb_spec (lastpaddr s) (firstpaddr s - 4096)); [lia|done].
Qed.

(** Sixteen frames: 0 to 3 hold the kernel, 4 and 5 are a block, 6 and 7 were freed,
    the rest is untouched. *)
Definition sample : vm :=
  Vm 0x80000000 (8 * 4096) (16 * 4096)
     (Some [0;0;0;0;0;0;1;1;0;0;0;0;0;0;0;0]) (Some [0;0;0;0;2;0;0;0;0;0;0;0;0;0;0;0])
     16 true true (fun _ => 0) (replicate 64 (0, 0)).

Lemma frames_sample_inv : inv sample {[4 := 2]}.
Proof.
  split; cbn; try done.
  - eexists. split_and!; [done..|]. intros i Hi Hr.
    assert (Hc : i = 6 \/ i = 7).
    { assert (i = 0 \/ i = 1 \/ i = 2 \/ i = 3 \/ i = 4 \/ i = 5 \/ i = 6 \/ i = 7 \/ i = 8 \/ i = 9 \/
        i = 10 \/ i = 11 \/ i = 12 \/ i = 13 \/ i = 14 \/ i = 15) as Hc by lia.
      destruct_or! Hc; subst; try (by destruct Hi); auto. }
    split; [destruct Hc; subst; by compute|]. intros (b & n & H & Hin).
    apply lookup_singleton_Some in H as [<- <-]. unfold in_block in Hin. lia.
  - eexists. split_and!; [done..|]. by intros b n [<- <-]%lookup_singleton_Some.
  - intros b n [<- <-]%lookup_singleton_Some. by compute.
  - by intros b n b' n' i [<- <-]%lookup_singleton_Some [<- <-]%lookup_singleton_Some.
Qed.

Lemma frame_allocator_correct_witness :
  wp (alloc_kpages 2) (fun r s' => r = 0x80006000) sample /\
  wp (alloc_kpages 2) (fun r s' =>
    (r = 0 /\ s' = sample /\ 16 < 8 + 2 /\ exists free, freeRamFrames sample = Some free /\
       forall k, 0 <= k -> k + 2 <= 16 -> ~ all_free free k (k + 2)) \/
    (exists b, r = MIPS_KSEG0 + b * PAGE_SIZE /\ 1 <= b /\ inv s' (<[b := 2]> {[4 := 2]}) /\
       same_rest sample s' /\ forall i, in_block i b 2 -> ~ owned {[4 := 2]} i)) sample /\
  wp (free_kpages (MIPS_KSEG0 + 4 * PAGE_SIZE)) (fun _ s' => inv s' (delete 4 {[4 := 2]}) /\
    same_rest sample s' /\ (forall i, in_block i 4 2 -> recyclable s' i) /\
    (forall i, recyclable sample i -> recyclable s' i)) sample.
Proof.
  destruct (frame_allocator_correct sample {[4 := 2]} frames_sample_inv eq_refl) as [Ha Hf].
  split_and!; [reflexivity|apply Ha; lia|apply (Hf 4 2); reflexivity].
Defined.

Lemma vm_bootstrap_correct_witness :
  let s := Vm 0 (4 * 4096) (16 * 4096) None None 0 false true (fun _ => 0) [] in
  let kmalloc (z : Z) (t : vm) := Ret true (set_ram (5 * 4096) (lastpaddr t) t) in
  wp (vm_bootstrap kmalloc) (fun _ s' => inv s' ∅ \/ allocTableActive s' = false) s.
Proof.
  intros s kmalloc. apply (vm_bootstrap_correct s kmalloc 16); try by compute.
Defined.

End Frames_facts.
