(* ===== verification/Kmalloc.v ===== *)
(** * The kernel heap: [kern/vm/kmalloc.c]

    Blocks smaller than 2048 bytes come from pages that hold blocks of one size.  A
    [struct pageref] describes such a page; the free blocks of a page are linked
    through their first words, and every pageref is on two lists, the pages of one
    size and all pages.  Larger blocks are whole pages.  The pagerefs live in pages
    of their own, with a bitmap of the entries in use.

    Pages come from the interface [PageAlloc], which [Frames] implements.  Kernel
    memory is word-addressed here ([words]); the pagerefs are a typed part of it
    ([refs]), by address.  The debugging modes (SLOW, GUARDS, LABELS) are off, as in
    the source.  Code between two releases of [kmalloc_spinlock] is one
    uninterrupted piece of the computation. *)
From S2P Require Import Prelude Frames.

Module Kmalloc.
Import Frames (PAGE_SIZE, PAGE_FRAME, MIPS_KSEG0).

Definition sizes : list Z := [16; 32; 64; 128; 256; 512; 1024; 2048].
Definition NSIZES : Z := 8.
Definition LARGEST_SUBPAGE_SIZE : Z := 2048.
Definition INVALID_OFFSET : Z := 0xffff.
Definition NPAGEREFS_PER_PAGE : Z := 256.
Definition INUSE_WORDS : nat := 8.
Definition NUM_PAGEREFPAGES : nat := 16.

Record pageref := Pageref {
  next_samesize : Z; next_all : Z; pageaddr_and_blocktype : Z; freelist_offset : Z; nfree : Z }.

Definition PR_PAGEADDR (pr : pageref) : Z := Z.land (pageaddr_and_blocktype pr) PAGE_FRAME.
Definition PR_BLOCKTYPE (pr : pageref) : Z := Z.land (pageaddr_and_blocktype pr) 0xfff.
Definition MKPAB (pa blk : Z) : Z := Z.lor (Z.land pa PAGE_FRAME) (Z.land blk 0xfff).

Record kheap_root := Root { page : Z; pagerefs_inuse : list Z; numinuse : Z }.

(** The static variables, the memory, and the allocator of pages. *)
Record kheap (W : Type) := Kheap {
  kheaproots : list kheap_root; sizebases : list Z; allbase : Z;
  refs : Z -> pageref; words : Z -> Z; world : W }.
Arguments Kheap {W} _ _ _ _ _ _.
Arguments kheaproots {W} _.
Arguments sizebases {W} _.
Arguments allbase {W} _.
Arguments refs {W} _.
Arguments words {W} _.
Arguments world {W} _.

Section ops.
Context {W : Type} `{PageAlloc W}.

Definition set_roots (x : list kheap_root) (s : kheap W) : kheap W :=
  Kheap x (sizebases s) (allbase s) (refs s) (words s) (world s).
Definition set_sizebases (x : list Z) (s : kheap W) : kheap W :=
  Kheap (kheaproots s) x (allbase s) (refs s) (words s) (world s).
Definition set_allbase (x : Z) (s : kheap W) : kheap W :=
  Kheap (kheaproots s) (sizebases s) x (refs s) (words s) (world s).
Definition set_refs (x : Z -> pageref) (s : kheap W) : kheap W :=
  Kheap (kheaproots s) (sizebases s) (allbase s) x (words s) (world s).
Definition set_words (x : Z -> Z) (s : kheap W) : kheap W :=
  Kheap (kheaproots s) (sizebases s) (allbase s) (refs s) x (world s).
Definition world_lens : lens (kheap W) W :=
  Lens world (fun w s => Kheap (kheaproots s) (sizebases s) (allbase s) (refs s) (words s) w).

(** ** Memory *)

Definition upd {A} (a : Z) (x : A) (f : Z -> A) : Z -> A := fun b => if decide (b = a) then x else f b.

Definition read_ref (p : Z) : K (kheap W) pageref :=
  if p =? 0 then fault "struct pageref" else gets (fun s => refs s p).
Definition write_ref (p : Z) (f : pageref -> pageref) : K (kheap W) () :=
  x ← read_ref p; modify (fun s => set_refs (upd p (f x) (refs s)) s).

Definition set_next_samesize (n : Z) (x : pageref) : pageref :=
  Pageref n (next_all x) (pageaddr_and_blocktype x) (freelist_offset x) (nfree x).
Definition set_next_all (n : Z) (x : pageref) : pageref :=
  Pageref (next_samesize x) n (pageaddr_and_blocktype x) (freelist_offset x) (nfree x).
Definition set_pab (n : Z) (x : pageref) : pageref :=
  Pageref (next_samesize x) (next_all x) n (freelist_offset x) (nfree x).
Definition set_freelist_offset (n : Z) (x : pageref) : pageref :=
  Pageref (next_samesize x) (next_all x) (pageaddr_and_blocktype x) n (nfree x).
Definition set_nfree (n : Z) (x : pageref) : pageref :=
  Pageref (next_samesize x) (next_all x) (pageaddr_and_blocktype x) (freelist_offset x) n.

Definition load_word (a : Z) : K (kheap W) Z := gets (fun s => words s a).
Definition store_word (a x : Z) : K (kheap W) () := modify (fun s => set_words (upd a x (words s)) s).

(** [for (i=0; i<n; i++) ptr[i] = 0xdeadbeef]. *)
Fixpoint fill_loop (n : nat) (ptr : Z) : K (kheap W) () :=
  match n with
  | O => mret tt
  | S n => store_word ptr 0xdeadbeef;; fill_loop n (ptr + 4)
  end.
Definition fill_deadbeef (vptr len : Z) : K (kheap W) () := fill_loop (Z.to_nat (len / 4)) vptr.

(** ** Page references *)

Definition read_root (k : nat) : K (kheap W) kheap_root :=
  s ← get; deref (kheaproots s !! k) "kheaproots[whichroot]".
Definition write_root (k : nat) (r : kheap_root) : K (kheap W) () :=
  modify (fun s => set_roots (<[k := r]> (kheaproots s)) s).

Definition allocpagerefpage (k : nat) : K (kheap W) () :=
  root ← read_root k;
  KASSERT (page root =? 0) "root->page == NULL";;
  va ← zoom world_lens (alloc_kpages 1);
  if va =? 0 then mret tt else
  KASSERT (va mod PAGE_SIZE =? 0) "va % PAGE_SIZE == 0";;
  root ← read_root k;
  if negb (page root =? 0) then
    zoom world_lens (free_kpages va);;
    root ← read_root k;
    KASSERT (negb (page root =? 0)) "root->page != NULL"
  else write_root k (Root va (pagerefs_inuse root) (numinuse root)).

(** [for (k=1,j=0; k!=0; k<<=1,j++)]: the first bit that is clear, as mask and index. *)
Fixpoint bit_loop (fuel : nat) (w k j : Z) : option (Z * Z) :=
  match fuel with
  | O => None
  | S fuel =>
      if k =? 0 then None else
      if Z.land w k =? 0 then Some (k, j) else bit_loop fuel w (u32 (Z.shiftl k 1)) (j + 1)
  end.

(** The loop over the bitmap from word [i]; None when all its words are full. *)
Fixpoint word_loop (n i whichroot : nat) : K (kheap W) (option Z) :=
  match n with
  | O => mret None
  | S n =>
      root ← read_root whichroot;
      w ← deref (pagerefs_inuse root !! i) "pagerefs_inuse[i]";
      if w =? 0xffffffff then word_loop n (S i) whichroot else
      match bit_loop 33 w 1 0 with
      | None => panic "0"
      | Some (k, j) =>
          write_root whichroot (Root (page root) (<[i := Z.lor w k]> (pagerefs_inuse root))
                                  (u32 (numinuse root + 1)));;
          (if page root =? 0 then allocpagerefpage whichroot else mret tt);;
          root ← read_root whichroot;
          if page root =? 0 then mret (Some 0) else
          mret (Some (page root + 16 * (Z.of_nat i * 32 + j)))
      end
  end.

Fixpoint root_loop (n whichroot : nat) : K (kheap W) Z :=
  match n with
  | O => mret 0
  | S n =>
      root ← read_root whichroot;
      if NPAGEREFS_PER_PAGE <=? numinuse root then root_loop n (S whichroot) else
      r ← word_loop INUSE_WORDS 0 whichroot;
      match r with Some p => mret p | None => root_loop n (S whichroot) end
  end.
Definition allocpageref : K (kheap W) Z := root_loop NUM_PAGEREFPAGES 0.

(** [p - page->refs] is a difference of pointers to 16-byte structures. *)
Fixpoint free_loop (n whichroot : nat) (p : Z) : K (kheap W) () :=
  match n with
  | O => panic "0"
  | S n =>
      root ← read_root whichroot;
      if page root =? 0 then
        KASSERT (numinuse root =? 0) "root->numinuse == 0";; free_loop n (S whichroot) p
      else
      let j := u32 ((p - page root) / 16) in
      if j <? NPAGEREFS_PER_PAGE then
        let i := Z.to_nat (j / 32) in
        let k := u32 (Z.shiftl 1 (j mod 32)) in
        w ← deref (pagerefs_inuse root !! i) "pagerefs_inuse[i]";
        KASSERT (negb (Z.land w k =? 0)) "(root->pagerefs_inuse[i] & k) != 0";;
        KASSERT (0 <? numinuse root) "root->numinuse > 0";;
        write_root whichroot (Root (page root)
          (<[i := Z.land w (0xffffffff - k)]> (pagerefs_inuse root)) (numinuse root - 1))
      else free_loop n (S whichroot) p
  end.
Definition freepageref (p : Z) : K (kheap W) () := free_loop NUM_PAGEREFPAGES 0 p.

(** ** The two lists of pages *)

Inductive list_id := Same (blktype : nat) | All.

(** [struct pageref **guy]. *)
Inductive link := Base | Next (p : Z).

Definition next_of (w : list_id) (x : pageref) : Z :=
  match w with Same _ => next_samesize x | All => next_all x end.
Definition set_next (w : list_id) (n : Z) (x : pageref) : pageref :=
  match w with Same _ => set_next_samesize n x | All => set_next_all n x end.

Definition read_link (w : list_id) (guy : link) : K (kheap W) Z :=
  match guy, w with
  | Next p, _ => x ← read_ref p; mret (next_of w x)
  | Base, Same t => s ← get; deref (sizebases s !! t) "sizebases[blktype]"
  | Base, All => gets allbase
  end.
Definition write_link (w : list_id) (guy : link) (n : Z) : K (kheap W) () :=
  match guy, w with
  | Next p, _ => write_ref p (set_next w n)
  | Base, Same t => modify (fun s => set_sizebases (<[t := n]> (sizebases s)) s)
  | Base, All => modify (set_allbase n)
  end.

(** A loop of [remove_lists]. *)
Fixpoint remove_loop (fuel : nat) (w : list_id) (guy : link) (pr : Z) : K (kheap W) () :=
  match fuel with
  | O => block
  | S fuel =>
      g ← read_link w guy;
      if g =? 0 then mret tt else
      if g =? pr then x ← read_ref pr; write_link w guy (next_of w x)
      else remove_loop fuel w (Next g) pr
  end.

(** No list is longer than the number of page references. *)
Definition FUEL : nat := Z.to_nat (Z.of_nat NUM_PAGEREFPAGES * NPAGEREFS_PER_PAGE + 1).

Definition remove_lists (pr blktype : Z) : K (kheap W) () :=
  KASSERT ((0 <=? blktype) && (blktype <? NSIZES)) "blktype>=0 && blktype<NSIZES";;
  remove_loop FUEL (Same (Z.to_nat blktype)) Base pr;;
  remove_loop FUEL All Base pr.

(** ** Allocation *)

Fixpoint blocktype_loop (l : list Z) (i clientsz : Z) : option Z :=
  match l with
  | [] => None
  | z :: l => if clientsz <=? z then Some i else blocktype_loop l (i + 1) clientsz
  end.
Definition blocktype (clientsz : Z) : K (kheap W) Z :=
  match blocktype_loop sizes 0 clientsz with
  | Some i => mret i
  | None => panic "Subpage allocator cannot handle allocation"
  end.

(** The search for a page with a free block; 0 at the end of the list. *)
Fixpoint find_page (fuel : nat) (pr blktype : Z) : K (kheap W) Z :=
  match fuel with
  | O => block
  | S fuel =>
      if pr =? 0 then mret 0 else
      x ← read_ref pr;
      KASSERT (PR_BLOCKTYPE x =? blktype) "PR_BLOCKTYPE(pr) == blktype";;
      if 0 <? nfree x then mret pr else find_page fuel (next_samesize x) blktype
  end.

(** From the label [doalloc] on. *)
Definition doalloc (pr : Z) : K (kheap W) Z :=
  x ← read_ref pr;
  KASSERT (freelist_offset x <? PAGE_SIZE) "pr->freelist_offset < PAGE_SIZE";;
  let prpage := PR_PAGEADDR x in
  let retptr := prpage + freelist_offset x in
  fl ← load_word retptr;
  write_ref pr (fun x => set_nfree (u16 (nfree x - 1)) x);;
  x ← read_ref pr;
  (if negb (fl =? 0) then
     KASSERT (0 <? nfree x) "pr->nfree > 0";;
     KASSERT (u32 (fl - prpage) <? PAGE_SIZE) "fla - prpage < PAGE_SIZE";;
     write_ref pr (set_freelist_offset (u16 (fl - prpage)))
   else
     KASSERT (nfree x =? 0) "pr->nfree == 0";;
     write_ref pr (set_freelist_offset INVALID_OFFSET));;
  mret retptr.

(** [for (i=1; i<pr->nfree; i++)], [n] turns left: the last block. *)
Fixpoint thread_loop (n : nat) (i fla size fl : Z) : K (kheap W) Z :=
  match n with
  | O => mret fl
  | S n =>
      let fl := fla + i * size in
      store_word fl (fla + (i - 1) * size);;
      next ← load_word fl;
      KASSERT (negb (fl =? next)) "fl != fl->next";;
      thread_loop n (i + 1) fla size fl
  end.

(** A fresh page: its blocks are linked, and its reference goes on both lists. *)
Definition init_page (prpage pr blktype : Z) : K (kheap W) () :=
  size ← deref (sizes !! Z.to_nat blktype) "sizes[blktype]";
  write_ref pr (set_pab (MKPAB prpage blktype));;
  write_ref pr (set_nfree (u16 (PAGE_SIZE / size)));;
  store_word prpage 0;;
  x ← read_ref pr;
  fl ← thread_loop (Z.to_nat (nfree x - 1)) 1 prpage size prpage;
  write_ref pr (set_freelist_offset (u16 (fl - prpage)));;
  x ← read_ref pr;
  KASSERT (freelist_offset x =? (nfree x - 1) * size) "pr->freelist_offset == (pr->nfree-1)*sizes[blktype]";;
  s ← get;
  base ← deref (sizebases s !! Z.to_nat blktype) "sizebases[blktype]";
  write_ref pr (set_next_samesize base);;
  modify (fun s => set_sizebases (<[Z.to_nat blktype := pr]> (sizebases s)) s);;
  write_ref pr (set_next_all (allbase s));;
  modify (set_allbase pr).

(** The second half of [subpage_kmalloc]: a new page. *)
Definition new_page (blktype : Z) : K (kheap W) Z :=
  prpage ← zoom world_lens (alloc_kpages 1);
  if prpage =? 0 then mret 0 else
  KASSERT (prpage mod PAGE_SIZE =? 0) "prpage % PAGE_SIZE == 0";;
  pr ← allocpageref;
  if pr =? 0 then zoom world_lens (free_kpages prpage);; mret 0 else
  init_page prpage pr blktype;;
  doalloc pr.

Definition subpage_kmalloc (sz : Z) : K (kheap W) Z :=
  blktype ← blocktype sz;
  s ← get;
  base ← deref (sizebases s !! Z.to_nat blktype) "sizebases[blktype]";
  pr ← find_page FUEL base blktype;
  if negb (pr =? 0) then doalloc pr else new_page blktype.

(** ** Release *)

(** The page that holds an address; 0 when there is none. *)
Fixpoint find_owner (fuel : nat) (pr ptraddr : Z) : K (kheap W) Z :=
  match fuel with
  | O => block
  | S fuel =>
      if pr =? 0 then mret 0 else
      x ← read_ref pr;
      KASSERT ((0 <=? PR_BLOCKTYPE x) && (PR_BLOCKTYPE x <? NSIZES)) "blktype >= 0 && blktype < NSIZES";;
      if (PR_PAGEADDR x <=? ptraddr) && (ptraddr <? PR_PAGEADDR x + PAGE_SIZE) then mret pr
      else find_owner fuel (next_all x) ptraddr
  end.

(** The block [fl] goes to the head of the free list of [pr]. *)
Definition link_block (pr prpage offset fl : Z) : K (kheap W) () :=
  x ← read_ref pr;
  (if freelist_offset x =? INVALID_OFFSET then store_word fl 0
   else
     store_word fl (prpage + freelist_offset x);;
     next ← load_word fl;
     KASSERT (negb (fl =? next)) "fl != fl->next");;
  write_ref pr (set_freelist_offset (u16 offset));;
  write_ref pr (fun x => set_nfree (u16 (nfree x + 1)) x).

Definition subpage_kfree (ptraddr : Z) : K (kheap W) Z :=
  s ← get;
  pr ← find_owner FUEL (allbase s) ptraddr;
  if pr =? 0 then mret (-1) else
  x ← read_ref pr;
  let prpage := PR_PAGEADDR x in
  let blktype := PR_BLOCKTYPE x in
  let offset := ptraddr - prpage in
  size ← deref (sizes !! Z.to_nat blktype) "sizes[blktype]";
  if (PAGE_SIZE <=? offset) || negb (offset mod size =? 0) then panic "kfree: subpage free of invalid addr" else
  fill_deadbeef ptraddr size;;
  link_block pr prpage offset (prpage + offset);;
  x ← read_ref pr;
  KASSERT (nfree x <=? PAGE_SIZE / size) "pr->nfree <= PAGE_SIZE / sizes[blktype]";;
  (if nfree x =? PAGE_SIZE / size then
     remove_lists pr blktype;;
     freepageref pr;;
     zoom world_lens (free_kpages prpage)
   else mret tt);;
  mret 0.

(** ** The interface of the heap *)

Definition kmalloc (sz : Z) : K (kheap W) Z :=
  if LARGEST_SUBPAGE_SIZE <=? sz then
    address ← zoom world_lens (alloc_kpages (u32 (sz + PAGE_SIZE - 1) / PAGE_SIZE));
    if address =? 0 then mret 0 else
    KASSERT (address mod PAGE_SIZE =? 0) "address % PAGE_SIZE == 0";;
    mret address
  else subpage_kmalloc sz.

Definition kfree (ptr : Z) : K (kheap W) () :=
  if ptr =? 0 then mret tt else
  r ← subpage_kfree ptr;
  if negb (r =? 0) then
    KASSERT (ptr mod PAGE_SIZE =? 0) "(vaddr_t)ptr%PAGE_SIZE==0";;
    zoom world_lens (free_kpages ptr)
  else mret tt.

(** ** The heap as the sequence of its pages

    [pages] are the pages in the order of the list of all pages, each with the offsets
    of its free blocks in the order of its free list; [big] are the blocks of whole
    pages, by first frame. *)
Record hpage := Hpage { h_ref : Z; h_frame : Z; h_type : nat; h_free : list Z }.

Definition h_size (h : hpage) : Z := sizes !!! h_type h.
Definition frame_addr (b : Z) : Z := MIPS_KSEG0 + b * PAGE_SIZE.
Definition h_addr (h : hpage) : Z := frame_addr (h_frame h).

(** A list through [next] from [base]. *)
Fixpoint chain (next : Z -> Z) (base : Z) (l : list Z) : Prop :=
  match l with
  | [] => base = 0
  | p :: l => base = p /\ p <> 0 /\ chain next (next p) l
  end.

Definition free_ptr (pg : Z) (offs : list Z) : Z := match offs with [] => 0 | o :: _ => pg + o end.
Fixpoint free_chain (words : Z -> Z) (pg : Z) (offs : list Z) : Prop :=
  match offs with
  | [] => True
  | o :: l => words (pg + o) = free_ptr pg l /\ free_chain words pg l
  end.

(** Offsets of blocks of size [z]. *)
Definition block_off (z o : Z) : Prop := 0 <= o < PAGE_SIZE /\ o mod z = 0.

Record page_ok (s : kheap W) (h : hpage) : Prop := PageOk {
  po_type : (h_type h < 8)%nat;
  po_frame : 1 <= h_frame h < 2 ^ 17;
  po_pab : pageaddr_and_blocktype (refs s (h_ref h)) = h_addr h + Z.of_nat (h_type h);
  po_off : freelist_offset (refs s (h_ref h)) = match h_free h with [] => INVALID_OFFSET | o :: _ => o end;
  po_nfree : nfree (refs s (h_ref h)) = Z.of_nat (length (h_free h));
  po_chain : free_chain (words s) (h_addr h) (h_free h);
  po_nodup : NoDup (h_free h);
  po_blocks : Forall (block_off (h_size h)) (h_free h) }.

(** The page has a block that is not free. *)
Definition in_use (h : hpage) : Prop := Z.of_nat (length (h_free h)) < PAGE_SIZE / h_size h.

Record heap_ok (s : kheap W) (pages : list hpage) : Prop := HeapOk {
  ho_all : chain (fun p => next_all (refs s p)) (allbase s) (h_ref <$> pages);
  ho_len : length (sizebases s) = 8%nat;
  ho_same t b : sizebases s !! t = Some b ->
    chain (fun p => next_samesize (refs s p)) b (h_ref <$> filter (fun h => h_type h = t) pages);
  ho_pages : Forall (page_ok s) pages;
  ho_refs : NoDup (h_ref <$> pages) }.

(** The entries [used] for page references are marked in the bitmaps. *)
Definition entry (r : kheap_root) (i : Z) : Z := page r + 16 * i.
Definition marked (r : kheap_root) (i : Z) : bool :=
  match pagerefs_inuse r !! Z.to_nat (i / 32) with
  | Some w => Z.testbit w (i mod 32)
  | None => false
  end.
Definition marked_entries (r : kheap_root) : list Z :=
  filter (fun i => marked r i = true) (seqZ 0 NPAGEREFS_PER_PAGE).

Record root_ok (r : kheap_root) : Prop := RootOk {
  rk_len : length (pagerefs_inuse r) = INUSE_WORDS;
  rk_words : Forall (fun w => 0 <= w < 2 ^ 32) (pagerefs_inuse r);
  rk_num : numinuse r = Z.of_nat (length (marked_entries r));
  rk_none : page r = 0 -> numinuse r < NPAGEREFS_PER_PAGE;
  rk_page : page r <> 0 -> exists b, 1 <= b < 2 ^ 17 /\ page r = frame_addr b }.

Record roots_ok (roots : list kheap_root) (used : list Z) : Prop := RootsOk {
  ro_len : length roots = NUM_PAGEREFPAGES;
  ro_root : Forall root_ok roots;
  ro_order j k rj rk : roots !! j = Some rj -> roots !! k = Some rk -> (j < k)%nat ->
    0 < numinuse rk -> page rj <> 0;
  ro_distinct j k rj rk : roots !! j = Some rj -> roots !! k = Some rk -> page rj = page rk ->
    page rj <> 0 -> j = k;
  ro_ref p : p ∈ used -> exists k r i, roots !! k = Some r /\ page r <> 0 /\
    0 <= i < NPAGEREFS_PER_PAGE /\ p = entry r i /\ marked r i = true }.

Definition is_root_frame (roots : list kheap_root) (b : Z) : Prop :=
  exists k r, roots !! k = Some r /\ page r <> 0 /\ page r = frame_addr b.

(** Every live page belongs to a heap page, to the page references or to a big block. *)
Record live_ok (w : W) (roots : list kheap_root) (frames : list Z) (big : gmap Z Z) : Prop := LiveOk {
  lo_live : exists live, pages_inv w live /\ forall b n, live !! b = Some n <->
    big !! b = Some n \/ (n = 1 /\ (b ∈ frames \/ is_root_frame roots b));
  lo_nodup : NoDup frames;
  lo_roots b : b ∈ frames -> ~ is_root_frame roots b;
  lo_big b n : big !! b = Some n -> b ∉ frames /\ ~ is_root_frame roots b }.

Record base_ok (s : kheap W) (used frames : list Z) (big : gmap Z Z) : Prop := BaseOk {
  bo_used : NoDup used;
  bo_roots : roots_ok (kheaproots s) used;
  bo_live : live_ok (world s) (kheaproots s) frames big }.

Record kheap_inv (s : kheap W) (pages : list hpage) (big : gmap Z Z) : Prop := KheapInv {
  ki_heap : heap_ok s pages;
  ki_base : base_ok s (h_ref <$> pages) (h_frame <$> pages) big;
  ki_in_use : Forall in_use pages }.

(** What the clients hold: address and length of the allocated blocks. *)
Definition allocated (pages : list hpage) (big : gmap Z Z) (p len : Z) : Prop :=
  (exists h o, h ∈ pages /\ block_off (h_size h) o /\ o ∉ h_free h /\ p = h_addr h + o /\ len = h_size h) \/
  (exists b n, big !! b = Some n /\ p = frame_addr b /\ len = n * PAGE_SIZE).

(** The roots without a page have entries for [n] more failures to get one: every failure
    uses up an entry for good. *)
Definition room (n : Z) (roots : list kheap_root) : Prop :=
  forall r, r ∈ roots -> page r = 0 -> numinuse r + n < NPAGEREFS_PER_PAGE.
End ops.
End Kmalloc.

Section Kmalloc_facts.
Import Frames (PAGE_SIZE, PAGE_FRAME, MIPS_KSEG0).
Import Kmalloc.
Context {W : Type} `{PageAlloc W}.
Implicit Types s : kheap W.

(** ** Sizes and offsets *)

Lemma size_cases (t : nat) : (t < 8)%nat -> In (sizes !!! t) sizes.
Proof. intros Ht. do 8 (destruct t as [|t]; [cbn; tauto|]). lia. Qed.

(** A block size divides the page, and is a power of two of at least 16. *)
Lemma size_spec (t : nat) :
  (t < 8)%nat -> exists z c, sizes !! t = Some z /\ sizes !!! t = z /\ 16 <= z <= 2048 /\ z mod 16 = 0 /\
    2 <= c <= 256 /\ PAGE_SIZE = c * z /\ PAGE_SIZE / z = c.
Proof.
  intros Ht. exists (sizes !!! t), (PAGE_SIZE / sizes !!! t).
  do 8 (destruct t as [|t]; [vm_compute; repeat split; try reflexivity; discriminate|]). lia.
Qed.

Lemma blocktype_loop_some l i sz :
  Exists (fun z => sz <= z) l ->
  exists t, (t < length l)%nat /\ blocktype_loop l i sz = Some (i + Z.of_nat t) /\ sz <= l !!! t.
Proof.
  revert i. induction l as [|z l IH]; intros i; [by intros ?%Exists_nil|]. cbn [blocktype_loop].
  destruct (Z.leb_spec sz z) as [Hle|Hgt]; intros Hex.
  - exists 0%nat. cbn. split_and!; [lia|f_equal; lia|done].
  - apply Exists_cons in Hex as [?|Hex]; [lia|].
    destruct (IH (i + 1) Hex) as (t & Ht & -> & Hz). exists (S t). cbn.
    split_and!; [lia|f_equal; lia|done].
Qed.

Lemma blocktype_loop_spec sz :
  sz < LARGEST_SUBPAGE_SIZE -> exists t, (t < 8)%nat /\ blocktype_loop sizes 0 sz = Some (Z.of_nat t) /\
    sz <= sizes !!! t.
Proof.
  unfold LARGEST_SUBPAGE_SIZE. intros Hsz. apply (blocktype_loop_some sizes 0).
  apply Exists_exists. exists 2048. split; [unfold sizes; set_solver|lia].
Qed.

(** ** Lists *)

Lemma chain_ext f g b l : (forall p, p ∈ l -> f p = g p) -> chain f b l -> chain g b l.
Proof.
  revert b. induction l as [|p l IH]; intros b E; [done|]. cbn [chain].
  intros (-> & Hp & Hc). split_and!; [done..|]. rewrite <-(E p) by set_solver. apply IH; set_solver.
Qed.

Lemma chain_base_nil f l : chain f 0 l -> l = [].
Proof. destruct l as [|p l]; [done|]. by intros (<- & ? & _). Qed.

Lemma free_chain_ext w w' pg l :
  Forall (fun o => w (pg + o) = w' (pg + o)) l -> free_chain w pg l -> free_chain w' pg l.
Proof.
  induction 1 as [|o l E _ IH]; [done|]. cbn [free_chain]. intros [Hw Hc]. split; [congruence|auto].
Qed.

Lemma frame_addr_inj b b' : frame_addr b = frame_addr b' -> b = b'.
Proof. unfold frame_addr, PAGE_SIZE. lia. Qed.

(** ** Bits *)

Lemma land_pow2_test w j : 0 <= j -> Z.land w (2 ^ j) = if Z.testbit w j then 2 ^ j else 0.
Proof.
  intros Hj. apply Z.bits_inj'. intros i Hi. rewrite Z.land_spec, Z.pow2_bits_eqb by lia.
  destruct (Z.eqb_spec j i) as [<-|]; [|rewrite andb_false_r; destruct (Z.testbit w j);
    rewrite ?Z.bits_0, ?Z.pow2_bits_eqb by lia; [symmetry; by apply Z.eqb_neq|done]].
  rewrite andb_true_r. destruct (Z.testbit w j); [by rewrite Z.pow2_bits_true|by rewrite Z.bits_0].
Qed.

Lemma bit_loop_spec fuel w j :
  0 <= w < 2 ^ 32 -> 0 <= j <= 32 -> 32 - j < Z.of_nat fuel ->
  (forall i, 0 <= i < j -> Z.testbit w i = true) -> w <> 0xffffffff ->
  exists i, 0 <= i < 32 /\ bit_loop fuel w (if j <? 32 then 2 ^ j else 0) j = Some (2 ^ i, i) /\
    Z.testbit w i = false.
Proof.
  intros Hw. revert j. induction fuel as [|fuel IH]; intros j Hj Hf Hset Hne; [lia|].
  cbn [bit_loop]. destruct (Z.ltb_spec j 32) as [Hj'|Hj'].
  - assert (Hp : 0 < 2 ^ j) by (apply Z.pow_pos_nonneg; lia).
    destruct (Z.eqb_spec (2 ^ j) 0); [lia|].
    rewrite (land_pow2_test w j) by lia. destruct (Z.testbit w j) eqn:Eb.
    + destruct (Z.eqb_spec (2 ^ j) 0); [lia|].
      assert (Hk : u32 (Z.shiftl (2 ^ j) 1) = if j + 1 <? 32 then 2 ^ (j + 1) else 0).
      { rewrite Z.shiftl_mul_pow2, <-Z.pow_add_r by lia. unfold u32. destruct (Z.ltb_spec (j + 1) 32).
        - apply Z.mod_small. split; [apply Z.pow_nonneg; lia|apply Z.pow_lt_mono_r; lia].
        - assert (j = 31) as -> by lia. done. }
      rewrite Hk. apply IH; [lia|lia| |done]. intros i Hi.
      destruct (decide (i = j)) as [->|]; [done|apply Hset; lia].
    + exists j. split_and!; [lia|lia|done|done].
  - exfalso. apply Hne. apply Z.bits_inj'. intros i Hi. change 0xffffffff with (Z.ones 32).
    destruct (Z.lt_ge_cases i 32).
    + rewrite Z.ones_spec_low by lia. apply Hset. lia.
    + rewrite Z.ones_spec_high by lia. rewrite <-(Z.mod_small w (2 ^ 32)) by lia.
      by apply Z.mod_pow2_bits_high.
Qed.

(** ** Pages from the frame allocator *)

Lemma live_bound w roots frames big b n :
  live_ok w roots frames big -> big !! b = Some n \/ (n = 1 /\ (b ∈ frames \/ is_root_frame roots b)) ->
  1 <= b /\ 1 <= n /\ b + n <= 2 ^ 17.
Proof. intros [(live & Hinv & Hlive) _ _ _] Hc. eapply live_bounds; [done|]. by apply Hlive. Qed.

Lemma alloc_big w roots frames big np :
  live_ok w roots frames big -> 1 <= np < 2 ^ 19 ->
  wp (alloc_kpages np) (fun r w' => (r = 0 /\ live_ok w' roots frames big) \/
    exists b, r = frame_addr b /\ big !! b = None /\ live_ok w' roots frames (<[b := np]> big)) w.
Proof.
  intros [(live & Hinv & Hlive) Hnd Hro Hbig] Hnp.
  eapply wp_mono; [|by apply alloc_kpages_ok]. cbv beta.
  intros r w' [(-> & Hinv')|(b & -> & Hnone & Hinv')]; [left; split; [done|]; split; eauto|].
  assert (Hb : big !! b = None /\ b ∉ frames /\ ~ is_root_frame roots b).
  { assert (Hno : forall n, ~ (big !! b = Some n \/ (n = 1 /\ (b ∈ frames \/ is_root_frame roots b))))
      by (intros n Hc; apply Hlive in Hc; congruence).
    split_and!; [|naive_solver..]. destruct (big !! b) eqn:E; naive_solver. }
  right. exists b. split_and!; [done|tauto|]. split; [|done|done|].
  - exists (<[b := np]> live). split; [done|]. intros b' n'. rewrite !lookup_insert_Some.
    rewrite Hlive. destruct (decide (b' = b)) as [->|]; naive_solver.
  - intros b' n' [[<- <-]|[Hne Hb']]%lookup_insert_Some; [tauto|eauto].
Qed.

Lemma free_big w roots frames big b n :
  live_ok w roots frames big -> big !! b = Some n ->
  wp (free_kpages (frame_addr b)) (fun _ w' => live_ok w' roots frames (delete b big)) w.
Proof.
  intros [(live & Hinv & Hlive) Hnd Hro Hbig] Hb.
  eapply wp_mono; [|eapply free_kpages_ok; [done|apply Hlive; by left]]. cbv beta. intros _ w' Hinv'.
  destruct (Hbig b n Hb) as [Hnf Hnr]. split; [|done|done|].
  - exists (delete b live). split; [done|]. intros b' n'. rewrite !lookup_delete_Some, Hlive.
    destruct (decide (b' = b)) as [->|]; naive_solver.
  - intros b' n' [_ Hb']%lookup_delete_Some. eauto.
Qed.

(** A block of one page becomes a page of the heap, and back; a page of the heap becomes
    a page of references. *)
Lemma big_to_frame w roots frames big b :
  big !! b = None -> live_ok w roots frames (<[b := 1]> big) <-> live_ok w roots (b :: frames) big.
Proof.
  intros Hnone. split; intros [(live & Hinv & Hlive) Hnd Hro Hbig].
  - destruct (Hbig b 1) as [Hnf Hnr]; [by rewrite lookup_insert_eq|]. split.
    + exists live. split; [done|]. intros b' n'. rewrite Hlive, lookup_insert_Some, elem_of_cons.
      destruct (decide (b' = b)) as [->|]; naive_solver.
    + by constructor.
    + intros b' [->|Hin]%elem_of_cons; [done|by apply Hro].
    + intros b' n' Hb'. rewrite not_elem_of_cons. assert (b' <> b) by congruence.
      destruct (Hbig b' n'); [by rewrite lookup_insert_ne|]. tauto.
  - apply NoDup_cons in Hnd as [Hnf Hnd]. split; [|done| |].
    + exists live. split; [done|]. intros b' n'. rewrite Hlive, lookup_insert_Some, elem_of_cons.
      destruct (decide (b' = b)) as [->|]; naive_solver.
    + intros b' Hin. apply Hro. by right.
    + intros b' n' [[<- <-]|[Hne Hb']]%lookup_insert_Some.
      * split; [done|]. apply Hro. by left.
      * destruct (Hbig b' n' Hb') as [Hn ?]. split; [|done]. intros ?. apply Hn. by right.
Qed.

Lemma root_frame_upd roots k r r' b :
  roots !! k = Some r -> is_root_frame (<[k := r']> roots) b <->
    (page r' <> 0 /\ page r' = frame_addr b) \/ exists j rj, j <> k /\ roots !! j = Some rj /\ page rj <> 0 /\ page rj = frame_addr b.
Proof.
  intros Hk. pose proof (lookup_lt_Some _ _ _ Hk). unfold is_root_frame. split.
  - intros (j & rj & Hj & Hp). destruct (decide (j = k)) as [->|].
    + rewrite list_lookup_insert_eq in Hj by done. left. naive_solver.
    + rewrite list_lookup_insert_ne in Hj by done. right. naive_solver.
  - intros [Hp|(j & rj & Hne & Hj & Hp)].
    + exists k, r'. by rewrite list_lookup_insert_eq.
    + exists j, rj. by rewrite list_lookup_insert_ne.
Qed.

Lemma root_frame_same roots k r r' b :
  roots !! k = Some r -> page r' = page r -> is_root_frame (<[k := r']> roots) b <-> is_root_frame roots b.
Proof.
  intros Hk E. rewrite (root_frame_upd _ _ r), E by done. unfold is_root_frame. split.
  - intros [Hp|(j & rj & _ & Hj & Hp)]; eauto.
  - intros (j & rj & Hj & Hp). destruct (decide (j = k)); [left; naive_solver|right; naive_solver].
Qed.

Lemma live_same_roots w roots roots' frames big :
  (forall b, is_root_frame roots' b <-> is_root_frame roots b) ->
  live_ok w roots frames big -> live_ok w roots' frames big.
Proof.
  intros E [(live & Hinv & Hlive) Hnd Hro Hbig]. split; [|done| |].
  - exists live. split; [done|]. intros b n. by rewrite Hlive, E.
  - intros b. rewrite E. apply Hro.
  - intros b n. rewrite E. apply Hbig.
Qed.

Lemma frame_to_root w roots frames big k r r' b :
  roots !! k = Some r -> page r = 0 -> page r' = frame_addr b -> live_ok w roots (b :: frames) big ->
  live_ok w (<[k := r']> roots) frames big.
Proof.
  intros Hk Hr Hr' Hok. pose proof (live_bound _ _ _ _ b 1 Hok ltac:(set_solver)) as Hb.
  destruct Hok as [(live & Hinv & Hlive) Hnd Hro Hbig]. apply NoDup_cons in Hnd as [Hnf Hnd].
  assert (E : forall b', is_root_frame (<[k := r']> roots) b' <-> b' = b \/ is_root_frame roots b').
  { intros b'. rewrite (root_frame_upd _ _ r) by done. rewrite Hr'. split.
    - intros [[_ Hp%frame_addr_inj]|(j & rj & _ & Hj & Hp)]; [by left|]. right. by exists j, rj.
    - intros [->|(j & rj & Hj & Hp & Hp')].
      + left. split; [|done]. unfold frame_addr, MIPS_KSEG0, PAGE_SIZE. lia.
      + right. exists j, rj. split; [|done]. intros ->. congruence. }
  split; [|done| |].
  - exists live. split; [done|]. intros b' n'. rewrite Hlive, E, elem_of_cons. tauto.
  - intros b' Hin. rewrite E. intros [->|?]; [done|]. apply (Hro b'); [by right|done].
  - intros b' n' Hb'. rewrite E. destruct (Hbig b' n' Hb') as [Hn ?]. rewrite not_elem_of_cons in Hn. tauto.
Qed.

Lemma live_perm w roots frames frames' big :
  frames ≡ₚ frames' -> live_ok w roots frames big -> live_ok w roots frames' big.
Proof.
  intros E [(live & Hinv & Hlive) Hnd Hro Hbig]. split.
  - exists live. split; [done|]. intros b n. by rewrite Hlive, E.
  - by rewrite <-E.
  - intros b. rewrite <-E. apply Hro.
  - intros b n. rewrite <-E. apply Hbig.
Qed.

(** ** Marking an entry for a page reference *)

Lemma filter_add (P P' : Z -> Prop) `{!forall x, Decision (P x), !forall x, Decision (P' x)} i l :
  NoDup l -> i ∈ l -> ~ P i -> (forall x, x ∈ l -> P' x <-> x = i \/ P x) ->
  length (filter P' l) = S (length (filter P l)).
Proof.
  intros Hnd Hi Hn E. change (S (length (filter P l))) with (length (i :: filter P l)).
  apply Permutation_length, NoDup_Permutation; [by apply NoDup_filter| |].
  - constructor; [|by apply NoDup_filter]. by rewrite list_elem_of_filter; intros [? _].
  - intros x. rewrite elem_of_cons, !list_elem_of_filter. specialize (E x). naive_solver.
Qed.

Lemma entry_index i : 0 <= i < NPAGEREFS_PER_PAGE ->
  (Z.to_nat (i / 32) < INUSE_WORDS)%nat /\ 0 <= i mod 32 < 32 /\ i = 32 * Z.of_nat (Z.to_nat (i / 32)) + i mod 32.
Proof.
  unfold NPAGEREFS_PER_PAGE, INUSE_WORDS. intros Hi. pose proof (Z.div_mod i 32). pose proof (Z.mod_pos_bound i 32).
  assert (0 <= i / 32 < 8) by (split; [apply Z.div_pos; lia|apply Z.div_lt_upper_bound; lia]). lia.
Qed.

Lemma marked_range r i : root_ok r -> marked r i = true -> (0 <= i / 32 -> i < NPAGEREFS_PER_PAGE).
Proof.
  intros Hr. unfold marked. destruct (_ !! _) eqn:E; [|done]. intros _ Hi.
  apply lookup_lt_Some in E. rewrite (rk_len _ Hr) in E. unfold INUSE_WORDS, NPAGEREFS_PER_PAGE in *.
  pose proof (Z.div_mod i 32). pose proof (Z.mod_pos_bound i 32). lia.
Qed.

(** Word [i] of the bitmap replaced. *)
Lemma marked_upd r pg n i w x :
  (i < length (pagerefs_inuse r))%nat -> 0 <= x ->
  marked (Root pg (<[i := w]> (pagerefs_inuse r)) n) x =
    if decide (Z.to_nat (x / 32) = i) then Z.testbit w (x mod 32) else marked r x.
Proof.
  intros Hi Hx. unfold marked. cbn. case_decide as E.
  - by rewrite E, list_lookup_insert_eq.
  - by rewrite list_lookup_insert_ne.
Qed.

Lemma lor_word w j : 0 <= w < 2 ^ 32 -> 0 <= j < 32 -> 0 <= Z.lor w (2 ^ j) < 2 ^ 32.
Proof.
  intros Hw Hj. assert (0 < 2 ^ j) by (apply Z.pow_pos_nonneg; lia).
  assert (2 ^ j < 2 ^ 32) by (apply Z.pow_lt_mono_r; lia). split; [apply Z.lor_nonneg; lia|].
  rewrite <-(Z.mod_small w (2 ^ 32)), <-(Z.mod_small (2 ^ j) (2 ^ 32)) by lia.
  rewrite <-!Z.land_ones, <-Z.land_lor_distr_l, Z.land_ones by lia. apply Z.mod_pos_bound. lia.
Qed.

Lemma in_entries x : x ∈ seqZ 0 NPAGEREFS_PER_PAGE <-> 0 <= x < NPAGEREFS_PER_PAGE.
Proof. rewrite elem_of_seqZ. lia. Qed.

Lemma marked_num r : Z.of_nat (length (marked_entries r)) <= NPAGEREFS_PER_PAGE.
Proof.
  unfold marked_entries. etrans; [apply Nat2Z.inj_le, length_filter|]. by rewrite length_seqZ.
Qed.

Lemma entry_word (i : nat) j : 0 <= j < 32 -> (32 * Z.of_nat i + j) / 32 = Z.of_nat i /\ (32 * Z.of_nat i + j) mod 32 = j.
Proof.
  intros Hj. rewrite Z.mul_comm. split; [rewrite Z.div_add_l, Z.div_small by lia; lia|].
  by rewrite Z.add_comm, Z.mod_add, Z.mod_small by lia.
Qed.

(** A bit of the bitmap set or cleared. *)
Lemma mark_bit r i w w' j pg n :
  pagerefs_inuse r !! i = Some w -> 0 <= j < 32 ->
  (forall b, 0 <= b < 32 -> b <> j -> Z.testbit w' b = Z.testbit w b) ->
  let r' := Root pg (<[i := w']> (pagerefs_inuse r)) n in
  marked r' (32 * Z.of_nat i + j) = Z.testbit w' j /\ marked r (32 * Z.of_nat i + j) = Z.testbit w j /\
  forall x, 0 <= x -> x <> 32 * Z.of_nat i + j -> marked r' x = marked r x.
Proof.
  intros Hi Hj Hw r'. pose proof (lookup_lt_Some _ _ _ Hi). destruct (entry_word i j Hj) as [Ed Em].
  unfold r'. split; [|split].
  - by rewrite marked_upd, Ed, Em, Nat2Z.id, decide_True by lia.
  - unfold marked. by rewrite Ed, Em, Nat2Z.id, Hi.
  - intros x Hx Hne. rewrite marked_upd by done. case_decide as E; [|done]. unfold marked. rewrite E, Hi.
    pose proof (Z.div_mod x 32). pose proof (Z.mod_pos_bound x 32). pose proof (Z.div_pos x 32).
    apply Hw; lia.
Qed.

Lemma root_mark r i w j pg :
  root_ok r -> pagerefs_inuse r !! i = Some w -> 0 <= j < 32 -> Z.testbit w j = false ->
  (pg = 0 -> numinuse r < NPAGEREFS_PER_PAGE - 1) ->
  (pg <> 0 -> exists b, 1 <= b < 2 ^ 17 /\ pg = frame_addr b) ->
  let e := 32 * Z.of_nat i + j in
  let r' := Root pg (<[i := Z.lor w (2 ^ j)]> (pagerefs_inuse r)) (u32 (numinuse r + 1)) in
  root_ok r' /\ numinuse r' = numinuse r + 1 /\ 0 <= e < NPAGEREFS_PER_PAGE /\ marked r e = false /\
  forall x, 0 <= x -> marked r' x = true <-> x = e \/ marked r x = true.
Proof.
  intros Hr Hi Hj Hb Hnone Hpage e r'. pose proof (lookup_lt_Some _ _ _ Hi) as Hlt.
  rewrite (rk_len _ Hr) in Hlt. unfold INUSE_WORDS in Hlt.
  assert (Hw : 0 <= w < 2 ^ 32) by (exact (proj1 (Forall_lookup _ _) (rk_words _ Hr) i w Hi)).
  destruct (mark_bit r i w (Z.lor w (2 ^ j)) j pg (u32 (numinuse r + 1)) Hi Hj) as (H1 & H2 & H3).
  { intros b Hb' Hne. rewrite Z.lor_spec, Z.pow2_bits_eqb by lia.
    destruct (Z.eqb_spec j b); [congruence|]. apply orb_false_r. }
  assert (He : 0 <= e < NPAGEREFS_PER_PAGE) by (unfold e, NPAGEREFS_PER_PAGE; lia).
  assert (Hm : forall x, 0 <= x -> marked r' x = true <-> x = e \/ marked r x = true).
  { intros x Hx. destruct (decide (x = e)) as [->|Hne].
    - unfold r', e. rewrite H1, Z.lor_spec, Z.pow2_bits_true by lia. rewrite orb_true_r. tauto.
    - unfold r'. rewrite H3 by done. tauto. }
  assert (Hn : length (marked_entries r') = S (length (marked_entries r))).
  { unfold marked_entries. apply (filter_add _ _ e); [apply NoDup_seqZ|by apply in_entries| |].
    - unfold e. by rewrite H2, Hb.
    - intros x Hx%in_entries. apply Hm. lia. }
  pose proof (marked_num r') as Hmax. rewrite Hn in Hmax. pose proof (rk_num _ Hr) as Hnum.
  unfold NPAGEREFS_PER_PAGE in *.
  assert (Hu : u32 (numinuse r + 1) = numinuse r + 1) by (apply u32_small; lia).
  split_and!; [|done|lia|lia|unfold e; by rewrite H2|done].
  split; cbn [page numinuse pagerefs_inuse r'].
  - by rewrite length_insert, (rk_len _ Hr).
  - apply Forall_insert; [apply (rk_words _ Hr)|by apply lor_word].
  - rewrite Hu, Hn. lia.
  - intros ->. rewrite Hu. specialize (Hnone eq_refl). unfold NPAGEREFS_PER_PAGE in *. lia.
  - done.
Qed.

(** ** The table of roots *)

Lemma entry_inj r r' i i' :
  root_ok r -> root_ok r' -> page r <> 0 -> page r' <> 0 ->
  0 <= i < NPAGEREFS_PER_PAGE -> 0 <= i' < NPAGEREFS_PER_PAGE ->
  entry r i = entry r' i' -> page r = page r' /\ i = i'.
Proof.
  intros Hr Hr' Hp Hp' Hi Hi'. destruct (rk_page _ Hr Hp) as (b & _ & Eb).
  destruct (rk_page _ Hr' Hp') as (b' & _ & Eb'). unfold entry. rewrite Eb, Eb'.
  unfold frame_addr, PAGE_SIZE, NPAGEREFS_PER_PAGE in *. lia.
Qed.

Lemma roots_get roots used k r : roots_ok roots used -> roots !! k = Some r -> root_ok r.
Proof. intros Hok Hk. exact (proj1 (Forall_lookup _ _) (ro_root _ _ Hok) k r Hk). Qed.

Lemma roots_upd roots used used' k r r' :
  roots_ok roots used -> roots !! k = Some r -> root_ok r' ->
  (page r' = page r \/ (page r = 0 /\ forall j rj, roots !! j = Some rj -> page rj <> page r')) ->
  (0 < numinuse r' -> forall j rj, (j < k)%nat -> roots !! j = Some rj -> page rj <> 0) ->
  (forall p, p ∈ used' ->
     (p ∈ used /\ forall i, p = entry r i -> 0 <= i < NPAGEREFS_PER_PAGE -> page r <> 0 -> marked r' i = true) \/
     (page r' <> 0 /\ exists i, 0 <= i < NPAGEREFS_PER_PAGE /\ p = entry r' i /\ marked r' i = true)) ->
  roots_ok (<[k := r']> roots) used'.
Proof.
  intros Hok Hk Hr' Hpage Hord Hused. pose proof (lookup_lt_Some _ _ _ Hk) as Hlt.
  assert (Hlk : forall j rj, <[k := r']> roots !! j = Some rj ->
            (j = k /\ rj = r') \/ (j <> k /\ roots !! j = Some rj)).
  { intros j rj. destruct (decide (j = k)) as [->|].
    - rewrite list_lookup_insert_eq by done. intros [= <-]. by left.
    - rewrite list_lookup_insert_ne by done. by right. }
  split.
  - by rewrite length_insert, (ro_len _ _ Hok).
  - apply Forall_insert; [apply (ro_root _ _ Hok)|done].
  - intros j i rj ri [[-> ->]|[? Hj]]%Hlk [[-> ->]|[? Hi]]%Hlk Hji Hn; try lia.
    + pose proof (ro_order _ _ Hok k i r ri Hk Hi Hji Hn). destruct Hpage as [->|[? _]]; congruence.
    + by apply (Hord Hn j rj).
    + by apply (ro_order _ _ Hok j i rj ri).
  - intros j i rj ri [[-> ->]|[? Hj]]%Hlk [[-> ->]|[? Hi]]%Hlk Hji Hn; [done| | |].
    + destruct Hpage as [E|[_ Hf]]; [|by destruct (Hf i ri Hi)].
      apply (ro_distinct _ _ Hok k i r ri); congruence.
    + destruct Hpage as [E|[_ Hf]]; [|by destruct (Hf j rj Hj)].
      apply (ro_distinct _ _ Hok j k rj r); congruence.
    + by apply (ro_distinct _ _ Hok j i rj ri).
  - intros p Hp. destruct (Hused p Hp) as [[Hin Hm]|(Hp' & i & Hi & -> & Hm)].
    + destruct (ro_ref _ _ Hok p Hin) as (j & rj & i & Hj & Hpj & Hi & -> & Hmj).
      destruct (decide (j = k)) as [->|Hne].
      * assert (rj = r) as -> by congruence. exists k, r', i. rewrite list_lookup_insert_eq by done.
        destruct Hpage as [E|[? _]]; [|done]. unfold entry. rewrite E. split_and!; try done; try lia.
        by apply Hm.
      * exists j, rj, i. rewrite list_lookup_insert_ne by done. done.
    + exists k, r', i. rewrite list_lookup_insert_eq by done. done.
Qed.

(** ** [allocpageref] *)

Definition same_heap s s' : Prop :=
  sizebases s' = sizebases s /\ allbase s' = allbase s /\ refs s' = refs s /\ words s' = words s.

Lemma wp_read_root (Q : kheap_root -> kheap W -> Prop) s k r :
  kheaproots s !! k = Some r -> wp (read_root k) Q s = Q r s.
Proof. intros E. apply wp_eq. unfold read_root. kunfold. by rewrite E. Qed.

Lemma frame_addr_pos b : 0 <= b -> frame_addr b <> 0.
Proof. unfold frame_addr, MIPS_KSEG0, PAGE_SIZE. lia. Qed.

Lemma frame_addr_aligned b : (frame_addr b mod PAGE_SIZE =? 0) = true.
Proof.
  apply Z.eqb_eq. unfold frame_addr, MIPS_KSEG0, PAGE_SIZE.
  replace (2147483648 + b * 4096) with ((524288 + b) * 4096) by lia. apply Z.mod_mul. lia.
Qed.

Lemma allocpagerefpage_spec s used frames big k r :
  base_ok s used frames big -> kheaproots s !! k = Some r -> page r = 0 ->
  wp (allocpagerefpage k) (fun _ s' => same_heap s s' /\
    ((kheaproots s' = kheaproots s /\ base_ok s' used frames big) \/
     exists b, 1 <= b < 2 ^ 17 /\
       kheaproots s' = <[k := Root (frame_addr b) (pagerefs_inuse r) (numinuse r)]> (kheaproots s) /\
       (forall j rj, kheaproots s !! j = Some rj -> page rj <> frame_addr b) /\
       live_ok (world s') (kheaproots s') frames big)) s.
Proof.
  intros [Hnd Hroots Hlive] Hk Hp. unfold allocpagerefpage. rewrite wp_bind, (wp_read_root _ _ _ r) by done.
  rewrite wp_bind, wp_KASSERT. split; [by apply Z.eqb_eq|]. rewrite wp_bind, wp_zoom.
  eapply wp_mono; [|by apply (alloc_big (world s))]. cbv beta.
  intros va w [(-> & Hok)|(b & -> & Hnone & Hok)]; [split; [done|by left]|].
  apply big_to_frame in Hok; [|done]. pose proof (live_bound _ _ _ _ b 1 Hok ltac:(set_solver)) as Hb.
  destruct (Z.eqb_spec (frame_addr b) 0) as [E|_]; [by apply frame_addr_pos in E; [|lia]|].
  rewrite wp_bind, wp_KASSERT. split; [apply frame_addr_aligned|].
  rewrite wp_bind, (wp_read_root _ _ _ r) by done. rewrite Hp, Z.eqb_refl. cbn [negb].
  unfold write_root. rewrite wp_modify. split; [done|]. right. exists b. cbn. split_and!; [lia|lia|done| |].
  - intros j rj Hj E. apply (lo_roots _ _ _ _ Hok b); [by left|]. exists j, rj. split_and!; [done| |done].
    rewrite E. apply frame_addr_pos. lia.
  - by apply (frame_to_root _ _ _ _ _ r _ b).
Qed.

(** What [allocpageref] achieves: an entry that no page reference uses, or NULL. *)
Definition got_ref (s : kheap W) (used frames : list Z) (big : gmap Z Z) (p : Z) (s' : kheap W) : Prop :=
  same_heap s s' /\
  ((p = 0 /\ base_ok s' used frames big /\ (forall n, room (n + 1) (kheaproots s) -> room n (kheaproots s'))) \/
   (p <> 0 /\ p ∉ used /\ base_ok s' (p :: used) frames big /\ (forall n, room n (kheaproots s) -> room n (kheaproots s')))).

Lemma room_less n roots : room (n + 1) roots -> room n roots.
Proof. intros Hr x Hx Hp. specialize (Hr x Hx Hp). lia. Qed.
(** One more entry of a root is in use. *)
Lemma room_use n roots k r r' :
  roots !! k = Some r -> page r' = page r -> numinuse r' = numinuse r + 1 ->
  room (n + 1) roots -> room n (<[k := r']> roots).
Proof.
  intros Hk Hp Hn Hroom x Hx Hpx. apply list_elem_of_lookup_1 in Hx as [j [(-> & -> & _)|[_ Hj]]%list_lookup_insert_Some].
  - rewrite Hn. assert (Hr := Hroom r (list_elem_of_lookup_2 _ _ _ Hk)). rewrite <-Hp in Hr. specialize (Hr Hpx). lia.
  - apply (room_less n roots Hroom); [by eapply list_elem_of_lookup_2|done].
Qed.
Lemma room_upd n roots k r : page r <> 0 -> room n roots -> room n (<[k := r]> roots).
Proof.
  intros Hp Hroom x Hx Hpx. apply list_elem_of_lookup_1 in Hx as [j Hj].
  destruct (decide (j = k)) as [->|Hne].
  - assert (Hlt := lookup_lt_Some _ _ _ Hj). rewrite length_insert in Hlt.
    rewrite list_lookup_insert_eq in Hj by done. congruence.
  - rewrite list_lookup_insert_ne in Hj by done. eapply Hroom; [by eapply list_elem_of_lookup_2|done].
Qed.

Lemma entry_pos r i : root_ok r -> page r <> 0 -> 0 <= i -> entry r i <> 0.
Proof.
  intros Hr Hp Hi. destruct (rk_page _ Hr Hp) as (b & Hb & E). unfold entry. rewrite E.
  unfold frame_addr, MIPS_KSEG0, PAGE_SIZE. lia.
Qed.

Lemma entry_fresh roots used k r i :
  roots_ok roots used -> roots !! k = Some r -> page r <> 0 -> 0 <= i < NPAGEREFS_PER_PAGE ->
  marked r i = false -> entry r i ∉ used.
Proof.
  intros Hok Hk Hp Hi Hm Hin. destruct (ro_ref _ _ Hok _ Hin) as (j & rj & i' & Hj & Hpj & Hi' & E & Hmj).
  destruct (entry_inj r rj i i') as [E1 ->]; eauto using roots_get.
  assert (k = j) as -> by (by apply (ro_distinct _ _ Hok k j r rj)). congruence.
Qed.

(** The entry found in word [i] of the bitmap of root [k]. *)
Lemma word_found s used frames big k r i w j :
  base_ok s used frames big -> kheaproots s !! k = Some r ->
  (forall l rl, (l < k)%nat -> kheaproots s !! l = Some rl -> page rl <> 0) ->
  (page r = 0 -> numinuse r < NPAGEREFS_PER_PAGE - 1) ->
  pagerefs_inuse r !! i = Some w -> 0 <= j < 32 -> Z.testbit w j = false ->
  wp (write_root k (Root (page r) (<[i := Z.lor w (2 ^ j)]> (pagerefs_inuse r)) (u32 (numinuse r + 1)));;
      (if page r =? 0 then allocpagerefpage k else mret tt);;
      root ← read_root k;
      if page root =? 0 then mret (Some 0) else mret (Some (page root + 16 * (Z.of_nat i * 32 + j))))
    (fun o s' => exists p, o = Some p /\ got_ref s used frames big p s') s.
Proof.
  intros Hbase Hk Hord Hroom Hi Hj Hb. pose proof Hbase as [Hnd Hroots Hlive].
  pose proof (roots_get _ _ _ _ Hroots Hk) as Hr. pose proof (lookup_lt_Some _ _ _ Hk) as Hlt.
  destruct (root_mark r i w j (page r) Hr Hi Hj Hb Hroom (rk_page _ Hr)) as (Hr' & Hn & He & Hm & Hm').
  set (r' := Root (page r) _ _) in *. set (e := 32 * Z.of_nat i + j) in *.
  replace (Z.of_nat i * 32 + j) with e by (unfold e; lia).
  unfold write_root. rewrite wp_bind, wp_modify. cbv beta. set (s1 := set_roots _ s).
  assert (Hused : forall p, p ∈ used -> p ∈ used /\ forall x, p = entry r x -> 0 <= x < NPAGEREFS_PER_PAGE ->
            page r <> 0 -> marked r' x = true).
  { intros p Hp. split; [done|]. intros x -> Hx Hpr. apply Hm'; [lia|]. right.
    destruct (marked r x) eqn:E; [done|]. by destruct (entry_fresh _ _ _ _ _ Hroots Hk Hpr Hx E). }
  assert (Hroots1 : roots_ok (kheaproots s1) used)
    by (apply (roots_upd _ used _ k r r'); auto).
  assert (Hlive1 : live_ok (world s1) (kheaproots s1) frames big).
  { eapply live_same_roots; [|exact Hlive]. intros b. by apply (root_frame_same _ _ r). }
  assert (Hk1 : kheaproots s1 !! k = Some r') by (cbn; by rewrite list_lookup_insert_eq).
  rewrite wp_bind. destruct (Z.eqb_spec (page r) 0) as [Hp|Hp].
  - eapply wp_mono; [|apply (allocpagerefpage_spec s1 used frames big k r'); done]. cbv beta.
    intros _ s2 (Hsame & [[E2 Hok2]|(b & Hbb & E2 & Hfresh & Hlive2)]).
    + rewrite wp_bind, (wp_read_root _ _ _ r') by (by rewrite E2). change (page r') with (page r). rewrite Hp, Z.eqb_refl, wp_ret.
      exists 0. split; [done|]. split; [done|left]. split; [done|]. split; [done|].
      intros n Hn'. rewrite E2. by apply (room_use n _ k r).
    + set (r2 := Root (frame_addr b) _ _) in *.
      assert (Hk2 : kheaproots s2 !! k = Some r2) by (rewrite E2, list_lookup_insert_eq; [done|cbn; by rewrite length_insert]).
      rewrite wp_bind, (wp_read_root _ _ _ r2) by done.
      destruct (Z.eqb_spec (page r2) 0) as [E|Hp2]; [by apply frame_addr_pos in E; [|lia]|]. rewrite wp_ret.
      exists (entry r2 e). split; [done|]. split; [done|]. right.
      assert (Hr2 : root_ok r2).
      { destruct Hr' as [? ? ? ? ?]. split; try done. intros _. by exists b. }
      assert (Hnew : entry r2 e ∉ used).
      { intros Hin. destruct (ro_ref _ _ Hroots1 _ Hin) as (l & rl & x & Hl & Hpl & Hx & E & _).
        destruct (entry_inj r2 rl e x) as [Ep _]; eauto using roots_get. by destruct (Hfresh l rl Hl). }
      split; [by apply entry_pos; [| |lia]|]. split; [done|]. split; cycle 1.
      { intros n Hrm. rewrite E2. cbn. rewrite list_insert_insert_eq. apply room_upd; [|done].
        apply frame_addr_pos. lia. }
      split; [by constructor| |done].
      rewrite E2. apply (roots_upd _ used _ k r' r2); try done.
      * right. split; [done|]. intros l rl Hl. by apply (Hfresh l).
      * intros _ l rl Hl Hrl. cbn in Hrl. rewrite list_lookup_insert_ne in Hrl by lia. by apply (Hord l).
      * intros p [->|Hp']%elem_of_cons; [right|left].
        -- split; [done|]. exists e. split_and!; [lia|lia|done|]. by apply Hm'; [lia|left].
        -- split; [done|]. intros x _ _ Hpr. done.
  - rewrite wp_ret, wp_bind, (wp_read_root _ _ _ r') by done. cbn [page r'].
    destruct (Z.eqb_spec (page r) 0) as [|_]; [done|]. rewrite wp_ret. exists (entry r e).
    split; [done|]. split; [done|]. right. split; [by apply entry_pos; [| |lia]|].
    assert (Hnew : entry r e ∉ used) by (by apply (entry_fresh (kheaproots s) used k)).
    split; [done|]. split; [|intros n; cbn; by apply room_upd].
    split; [by constructor| |done]. apply (roots_upd _ used _ k r r'); auto.
    intros p [->|Hp']%elem_of_cons; [right|left; auto]. split; [done|]. exists e.
    split_and!; [lia|lia|done|]. by apply Hm'; [lia|left].
Qed.

Lemma filter_all (P : Z -> Prop) `{!forall x, Decision (P x)} l : Forall P l -> filter P l = l.
Proof. induction 1; [done|]. rewrite filter_cons_True by done. by f_equal. Qed.

(** A bitmap without a clear bit is that of a root with no entry left. *)
Lemma full_root r :
  root_ok r -> (forall i, (i < INUSE_WORDS)%nat -> pagerefs_inuse r !! i = Some 0xffffffff) ->
  numinuse r = NPAGEREFS_PER_PAGE.
Proof.
  intros Hr Hfull. rewrite (rk_num _ Hr). unfold marked_entries. rewrite filter_all.
  - by rewrite length_seqZ.
  - apply Forall_forall. intros x Hx%in_entries. destruct (entry_index x Hx) as (Hi & Hm & _).
    unfold marked. rewrite (Hfull _ Hi). change 0xffffffff with (Z.ones 32). by apply Z.ones_spec_low.
Qed.

Lemma word_loop_spec s used frames big k r n i :
  base_ok s used frames big -> kheaproots s !! k = Some r -> numinuse r < NPAGEREFS_PER_PAGE ->
  (forall l rl, (l < k)%nat -> kheaproots s !! l = Some rl -> page rl <> 0) ->
  (page r = 0 -> numinuse r < NPAGEREFS_PER_PAGE - 1) ->
  (n + i = INUSE_WORDS)%nat -> (forall j, (j < i)%nat -> pagerefs_inuse r !! j = Some 0xffffffff) ->
  wp (word_loop n i k) (fun o s' => exists p, o = Some p /\ got_ref s used frames big p s') s.
Proof.
  intros Hbase Hk Hnum Hord Hroom. revert i. pose proof (roots_get _ _ _ _ (bo_roots _ _ _ _ Hbase) Hk) as Hr.
  induction n as [|n IH]; intros i Hni Hfull; cbn [word_loop].
  - exfalso. rewrite (full_root r) in Hnum; [lia|done|]. intros j Hj. apply Hfull. lia.
  - rewrite wp_bind, (wp_read_root _ _ _ r) by done.
    destruct (lookup_lt_is_Some_2 (pagerefs_inuse r) i) as [w Hi]; [rewrite (rk_len _ Hr); lia|].
    rewrite wp_bind, (wp_deref _ w) by done. destruct (Z.eqb_spec w 0xffffffff) as [->|Hw].
    + apply IH; [lia|]. intros j Hj. destruct (decide (j = i)) as [->|]; [done|]. apply Hfull. lia.
    + assert (Hwr : 0 <= w < 2 ^ 32) by (exact (proj1 (Forall_lookup _ _) (rk_words _ Hr) i w Hi)).
      destruct (bit_loop_spec 33 w 0) as (j & Hj & E & Hb); [done|lia|lia|lia|done|].
      cbn [Z.ltb] in E. change (if 0 <? 32 then 2 ^ 0 else 0) with 1 in E. rewrite E.
      by apply word_found.
Qed.

Lemma root_loop_spec s used frames big n k :
  base_ok s used frames big -> room 1 (kheaproots s) -> (n + k = NUM_PAGEREFPAGES)%nat ->
  (forall l rl, (l < k)%nat -> kheaproots s !! l = Some rl -> NPAGEREFS_PER_PAGE <= numinuse rl) ->
  wp (root_loop n k) (got_ref s used frames big) s.
Proof.
  intros Hbase Hroom. pose proof (bo_roots _ _ _ _ Hbase) as Hroots. revert k.
  induction n as [|n IH]; intros k Hnk Hfull; cbn [root_loop].
  - rewrite wp_ret. split; [done|left]. split; [done|]. split; [done|]. intros m. apply room_less.
  - destruct (lookup_lt_is_Some_2 (kheaproots s) k) as [r Hk]; [rewrite (ro_len _ _ Hroots); lia|].
    rewrite wp_bind, (wp_read_root _ _ _ r) by done.
    destruct (Z.leb_spec NPAGEREFS_PER_PAGE (numinuse r)) as [Hf|Hf].
    + apply IH; [lia|]. intros l rl Hl Hrl. destruct (decide (l = k)) as [->|]; [|apply (Hfull l); [lia|done]].
      by assert (rl = r) as -> by congruence.
    + rewrite wp_bind. eapply wp_mono; [|apply (word_loop_spec s used frames big k r)]; try done.
      * intros o s' (p & -> & Hp). by rewrite wp_ret.
      * intros l rl Hl Hrl Hp. pose proof (rk_none _ (roots_get _ _ _ _ Hroots Hrl) Hp).
        specialize (Hfull l rl Hl Hrl). lia.
      * intros Hp. assert (Hr := Hroom r (list_elem_of_lookup_2 _ _ _ Hk) Hp). lia.
      * intros j Hj. lia.
Qed.

Lemma allocpageref_spec s used frames big :
  base_ok s used frames big -> room 1 (kheaproots s) -> wp allocpageref (got_ref s used frames big) s.
Proof. intros Hbase Hroom. apply root_loop_spec; [done..|]. intros l rl Hl. lia. Qed.

(** ** [freepageref] *)

Lemma land_word w m : 0 <= w < 2 ^ 32 -> 0 <= Z.land w m < 2 ^ 32.
Proof.
  intros Hw. rewrite <-(Z.mod_small w (2 ^ 32)) by lia. rewrite <-Z.land_ones by lia.
  rewrite <-Z.land_assoc, (Z.land_comm (Z.ones 32)), Z.land_assoc, Z.land_ones by lia.
  apply Z.mod_pos_bound. lia.
Qed.

Lemma clear_mask j b : 0 <= j < 32 -> 0 <= b < 32 -> Z.testbit (0xffffffff - 2 ^ j) b = negb (b =? j).
Proof.
  intros Hj Hb. change 0xffffffff with (Z.ones 32).
  rewrite Z.sub_nocarry_ldiff, Z.ldiff_spec, Z.ones_spec_low, Z.pow2_bits_eqb by
    first [lia | (apply Z.bits_inj'; intros i Hi; rewrite Z.ldiff_spec, Z.bits_0, Z.pow2_bits_eqb by lia;
                  destruct (Z.eqb_spec j i) as [<-|]; [by rewrite Z.ones_spec_low|done])].
  by rewrite Z.eqb_sym.
Qed.

Lemma root_clear r i w j :
  root_ok r -> pagerefs_inuse r !! i = Some w -> 0 <= j < 32 -> Z.testbit w j = true ->
  let e := 32 * Z.of_nat i + j in
  let r' := Root (page r) (<[i := Z.land w (0xffffffff - 2 ^ j)]> (pagerefs_inuse r)) (numinuse r - 1) in
  root_ok r' /\ 0 < numinuse r /\ forall x, 0 <= x -> marked r' x = true <-> x <> e /\ marked r x = true.
Proof.
  intros Hr Hi Hj Hb e r'. pose proof (lookup_lt_Some _ _ _ Hi) as Hlt.
  rewrite (rk_len _ Hr) in Hlt. unfold INUSE_WORDS in Hlt.
  assert (Hw : 0 <= w < 2 ^ 32) by (exact (proj1 (Forall_lookup _ _) (rk_words _ Hr) i w Hi)).
  destruct (mark_bit r i w (Z.land w (0xffffffff - 2 ^ j)) j (page r) (numinuse r - 1) Hi Hj) as (H1 & H2 & H3).
  { intros b Hb' Hne. rewrite Z.land_spec, clear_mask by lia. apply Z.eqb_neq in Hne as ->. apply andb_true_r. }
  assert (He : 0 <= e < NPAGEREFS_PER_PAGE) by (unfold e, NPAGEREFS_PER_PAGE; lia).
  assert (Hm : forall x, 0 <= x -> marked r' x = true <-> x <> e /\ marked r x = true).
  { intros x Hx. destruct (decide (x = e)) as [->|Hne].
    - unfold r', e. rewrite H1, Z.land_spec, clear_mask, Z.eqb_refl, andb_false_r by lia. naive_solver.
    - unfold r'. rewrite H3 by done. tauto. }
  assert (Hn : length (marked_entries r) = S (length (marked_entries r'))).
  { unfold marked_entries. apply (filter_add _ _ e); [apply NoDup_seqZ|by apply in_entries| |].
    - rewrite Hm by lia. tauto.
    - intros x Hx%in_entries. rewrite Hm by lia. destruct (decide (x = e)) as [->|]; [|naive_solver].
      split; [by left|]. intros _. unfold e. by rewrite H2. }
  pose proof (rk_num _ Hr) as Hnum. split_and!; [|lia|done].
  split; cbn [page numinuse pagerefs_inuse r'].
  - by rewrite length_insert, (rk_len _ Hr).
  - apply Forall_insert; [apply (rk_words _ Hr)|by apply land_word].
  - lia.
  - intros Hp. pose proof (rk_none _ Hr Hp). lia.
  - apply (rk_page _ Hr).
Qed.

(** The bit of an entry of root [r]. *)
Lemma free_entry s used frames big k r e :
  base_ok s (entry r e :: used) frames big -> kheaproots s !! k = Some r -> page r <> 0 ->
  0 <= e < NPAGEREFS_PER_PAGE -> marked r e = true ->
  wp (w ← deref (pagerefs_inuse r !! Z.to_nat (e / 32)) "pagerefs_inuse[i]";
      KASSERT (negb (Z.land w (u32 (Z.shiftl 1 (e mod 32))) =? 0)) "(root->pagerefs_inuse[i] & k) != 0";;
      KASSERT (0 <? numinuse r) "root->numinuse > 0";;
      write_root k (Root (page r)
        (<[Z.to_nat (e / 32) := Z.land w (0xffffffff - u32 (Z.shiftl 1 (e mod 32)))]> (pagerefs_inuse r))
        (numinuse r - 1)))
    (fun _ s' => same_heap s s' /\ base_ok s' used frames big /\ (forall n, room n (kheaproots s) -> room n (kheaproots s'))) s.
Proof.
  intros [Hnd Hroots Hlive] Hk Hp He Hm. pose proof (roots_get _ _ _ _ Hroots Hk) as Hr.
  destruct (entry_index e He) as (Hi & Hj & Ee). set (i := Z.to_nat (e / 32)) in *. set (j := e mod 32) in *.
  assert (Hk2 : u32 (Z.shiftl 1 j) = 2 ^ j).
  { rewrite Z.shiftl_1_l. apply u32_small. split; [apply Z.pow_nonneg; lia|]. apply (Z.pow_lt_mono_r 2 j 32); lia. }
  rewrite Hk2. unfold marked in Hm. fold i j in Hm. destruct (pagerefs_inuse r !! i) as [w|] eqn:Hw; [|done].
  destruct (root_clear r i w j Hr Hw Hj Hm) as (Hr' & Hpos & Hm'). set (r' := Root _ _ _) in *.
  rewrite <-Ee in Hm'. rewrite wp_bind, wp_deref_Some, wp_bind, wp_KASSERT. split.
  { rewrite land_pow2_test, Hm by lia. assert (0 < 2 ^ j) by (apply Z.pow_pos_nonneg; lia).
    destruct (Z.eqb_spec (2 ^ j) 0); [lia|done]. }
  rewrite wp_bind, wp_KASSERT. split; [by apply Z.ltb_lt|]. unfold write_root. rewrite wp_modify.
  split; [done|]. split; [|intros n; cbn; by apply room_upd]. apply NoDup_cons in Hnd as [Hn Hnd]. split; [done| |].
  - apply (roots_upd _ _ _ k r r' Hroots); [done..|by left| |].
    + intros _ l rl Hl Hrl. by apply (ro_order _ _ Hroots l k rl r).
    + intros p Hp'. left. split; [by right|]. intros x -> Hx _. apply Hm'; [lia|].
      split; [by intros ->|]. destruct (marked r x) eqn:E; [done|].
      destruct (entry_fresh _ _ _ _ _ Hroots Hk Hp Hx E). by right.
  - eapply live_same_roots; [|exact Hlive]. intros b. by apply (root_frame_same _ _ r).
Qed.

Lemma free_loop_spec s used frames big k r e n l :
  base_ok s (entry r e :: used) frames big -> kheaproots s !! k = Some r -> page r <> 0 ->
  0 <= e < NPAGEREFS_PER_PAGE -> marked r e = true -> (l <= k)%nat -> (n + l = NUM_PAGEREFPAGES)%nat ->
  wp (free_loop n l (entry r e)) (fun _ s' => same_heap s s' /\ base_ok s' used frames big /\
    (forall n, room n (kheaproots s) -> room n (kheaproots s'))) s.
Proof.
  intros Hbase Hk Hp He Hm. pose proof (bo_roots _ _ _ _ Hbase) as Hroots.
  pose proof (roots_get _ _ _ _ Hroots Hk) as Hr. pose proof (lookup_lt_Some _ _ _ Hk) as Hlt.
  rewrite (ro_len _ _ Hroots) in Hlt. revert l. induction n as [|n IH]; intros l Hl Hn; cbn [free_loop]; [lia|].
  destruct (lookup_lt_is_Some_2 (kheaproots s) l) as [rl Hrl]; [rewrite (ro_len _ _ Hroots); lia|].
  pose proof (roots_get _ _ _ _ Hroots Hrl) as Hrlok.
  assert (Hnum : 0 < numinuse r).
  { destruct (entry_index e He) as (_ & Hj & _). unfold marked in Hm.
    destruct (pagerefs_inuse r !! _) as [w|] eqn:Hw; [|done]. by destruct (root_clear r _ w _ Hr Hw Hj Hm) as (_ & ? & _). }
  assert (Hpl : page rl <> 0).
  { destruct (decide (l = k)) as [->|]; [congruence|]. apply (ro_order _ _ Hroots l k rl r Hrl Hk); [lia|done]. }
  rewrite wp_bind, (wp_read_root _ _ _ rl) by done. destruct (Z.eqb_spec (page rl) 0) as [|_]; [done|].
  destruct (decide (l = k)) as [->|Hne].
  - assert (rl = r) as -> by congruence. replace ((entry r e - page r) / 16) with e.
    + rewrite (u32_small e) by (unfold NPAGEREFS_PER_PAGE in He; lia).
      destruct (Z.ltb_spec e NPAGEREFS_PER_PAGE); [|lia]. by apply free_entry.
    + unfold entry. replace (page r + 16 * e - page r) with (e * 16) by lia. by rewrite Z.div_mul.
  - destruct (rk_page _ Hr Hp) as (b & Hb & Eb). destruct (rk_page _ Hrlok Hpl) as (b' & Hb' & Eb').
    assert (b <> b').
    { intros <-. apply Hne. apply (ro_distinct _ _ Hroots l k rl r); congruence. }
    assert (Hj : NPAGEREFS_PER_PAGE <= u32 ((entry r e - page rl) / 16)).
    { unfold entry. rewrite Eb, Eb'. unfold frame_addr, PAGE_SIZE, MIPS_KSEG0.
      replace (2147483648 + b * 4096 + 16 * e - (2147483648 + b' * 4096)) with ((256 * (b - b') + e) * 16) by lia.
      rewrite Z.div_mul by lia. unfold NPAGEREFS_PER_PAGE in *. destruct (decide (b' < b)).
      - rewrite u32_small; lia.
      - unfold u32. rewrite <-(Z.mod_add _ 1), Z.mod_small by lia. lia. }
    destruct (Z.ltb_spec (u32 ((entry r e - page rl) / 16)) NPAGEREFS_PER_PAGE); [lia|]. apply IH; lia.
Qed.

Lemma freepageref_spec s p used frames big :
  base_ok s (p :: used) frames big ->
  wp (freepageref p) (fun _ s' => same_heap s s' /\ base_ok s' used frames big /\
    (forall n, room n (kheaproots s) -> room n (kheaproots s'))) s.
Proof.
  intros Hbase. destruct (ro_ref _ _ (bo_roots _ _ _ _ Hbase) p) as (k & r & e & Hk & Hp & He & -> & Hm); [by left|].
  apply (free_loop_spec s used frames big k r e); try done. lia.
Qed.

(** ** Page references *)

Lemma frame_range b : 1 <= b < 2 ^ 17 -> 2 ^ 31 < frame_addr b /\ frame_addr b + PAGE_SIZE <= 2 ^ 32.
Proof. unfold frame_addr, MIPS_KSEG0, PAGE_SIZE. lia. Qed.

Lemma frame_addr_shift b : frame_addr b = (2 ^ 19 + b) * 2 ^ 12.
Proof. unfold frame_addr, MIPS_KSEG0, PAGE_SIZE. lia. Qed.

Lemma pab_parts b t :
  1 <= b < 2 ^ 17 -> 0 <= t < PAGE_SIZE ->
  Z.land (frame_addr b + t) PAGE_FRAME = frame_addr b /\ Z.land (frame_addr b + t) 0xfff = t.
Proof.
  intros Hb Ht. pose proof (frame_range b Hb). unfold PAGE_SIZE in *.
  assert (Hl : Z.land (frame_addr b + t) 0xfff = t).
  { rewrite land_offset, frame_addr_shift by lia. change 4096 with (2 ^ 12).
    by rewrite Z.add_comm, Z.mod_add, Z.mod_small by lia. }
  split; [|done]. rewrite land_frame, frame_addr_shift by lia. change 4096 with (2 ^ 12).
  by rewrite Z.div_add_l, (Z.div_small t), Z.add_0_r by lia.
Qed.

Lemma mkpab b t : 1 <= b < 2 ^ 17 -> 0 <= t < PAGE_SIZE -> MKPAB (frame_addr b) t = frame_addr b + t.
Proof.
  intros Hb Ht. unfold MKPAB. destruct (pab_parts b 0 Hb) as [E _]; [done|]. rewrite Z.add_0_r in E. rewrite E.
  change 0xfff with (Z.ones 12). unfold PAGE_SIZE in Ht. rewrite Z.land_ones, (Z.mod_small t), frame_addr_shift by lia.
  by apply lor_disjoint.
Qed.

Lemma page_parts s h : page_ok s h ->
  PR_PAGEADDR (refs s (h_ref h)) = h_addr h /\ PR_BLOCKTYPE (refs s (h_ref h)) = Z.of_nat (h_type h).
Proof.
  intros Hok. unfold PR_PAGEADDR, PR_BLOCKTYPE. rewrite (po_pab _ _ Hok).
  pose proof (po_type _ _ Hok). apply pab_parts; [apply (po_frame _ _ Hok)|unfold PAGE_SIZE; lia].
Qed.

Lemma read_ref_eq s p : p <> 0 -> read_ref p s = Ret (refs s p) s.
Proof. intros Hp. unfold read_ref. by destruct (Z.eqb_spec p 0). Qed.
Lemma write_ref_eq s p f : p <> 0 -> write_ref p f s = Ret tt (set_refs (upd p (f (refs s p)) (refs s)) s).
Proof. intros Hp. unfold write_ref. by run (read_ref_eq s p Hp). Qed.
Lemma wp_read_ref s p (Q : pageref -> kheap W -> Prop) : p <> 0 -> wp (read_ref p) Q s = Q (refs s p) s.
Proof. intros Hp. apply wp_eq. by apply read_ref_eq. Qed.
Lemma wp_write_ref s p f (Q : () -> kheap W -> Prop) :
  p <> 0 -> wp (write_ref p f) Q s = Q tt (set_refs (upd p (f (refs s p)) (refs s)) s).
Proof. intros Hp. apply wp_eq. by apply write_ref_eq. Qed.

Lemma upd_eq {A} a (x : A) f : upd a x f a = x.
Proof. unfold upd. by rewrite decide_True. Qed.
Lemma upd_ne {A} a b (x : A) f : b <> a -> upd a x f b = f b.
Proof. intros Hne. unfold upd. by rewrite decide_False. Qed.

(** A page whose reference and free blocks are as before. *)
Lemma page_ok_ext s s' h :
  page_ok s h ->
  pageaddr_and_blocktype (refs s' (h_ref h)) = pageaddr_and_blocktype (refs s (h_ref h)) ->
  freelist_offset (refs s' (h_ref h)) = freelist_offset (refs s (h_ref h)) ->
  nfree (refs s' (h_ref h)) = nfree (refs s (h_ref h)) ->
  (forall o, o ∈ h_free h -> words s' (h_addr h + o) = words s (h_addr h + o)) -> page_ok s' h.
Proof.
  intros [? ? ? ? ? Hc ? ?] E1 E2 E3 Ew. split; try done; try congruence.
  eapply free_chain_ext; [|exact Hc]. apply Forall_forall. intros o Ho. symmetry. by apply Ew.
Qed.

(** One page of the heap replaced. *)
Lemma heap_replace s s' l1 h h' l2 :
  heap_ok s (l1 ++ h :: l2) -> h_ref h' = h_ref h -> h_type h' = h_type h ->
  sizebases s' = sizebases s -> allbase s' = allbase s ->
  (forall p, next_all (refs s' p) = next_all (refs s p) /\ next_samesize (refs s' p) = next_samesize (refs s p)) ->
  Forall (page_ok s') (l1 ++ h' :: l2) -> heap_ok s' (l1 ++ h' :: l2).
Proof.
  intros [Hall Hlen Hsame Hpages Hnd] Er Et Es Ea En Hp.
  assert (Eref : h_ref <$> l1 ++ h' :: l2 = h_ref <$> l1 ++ h :: l2) by (by rewrite !fmap_app, !fmap_cons, Er).
  split; [| | |done|by rewrite Eref].
  - rewrite Ea, Eref. eapply chain_ext; [|exact Hall]. intros p _. symmetry. apply En.
  - by rewrite Es.
  - intros t b Hb. rewrite Es in Hb. specialize (Hsame t b Hb).
    assert (Ef : h_ref <$> filter (fun x => h_type x = t) (l1 ++ h' :: l2) =
                 h_ref <$> filter (fun x => h_type x = t) (l1 ++ h :: l2)).
    { rewrite !filter_app, !filter_cons, Et. case_decide; by rewrite !fmap_app, ?fmap_cons, ?Er. }
    rewrite Ef. eapply chain_ext; [|exact Hsame]. intros p _. symmetry. apply En.
Qed.

(** The other pages of the heap. *)
Lemma others_ref s l1 h l2 x :
  heap_ok s (l1 ++ h :: l2) -> x ∈ l1 ++ l2 -> h_ref x <> h_ref h.
Proof.
  intros Hheap Hx. pose proof (ho_refs _ _ Hheap) as Hnd. rewrite <-Permutation_middle, fmap_cons in Hnd.
  apply NoDup_cons in Hnd as [Hn _]. intros E. apply Hn. rewrite <-E. by apply list_elem_of_fmap_2.
Qed.

Lemma pages_split (P : hpage -> Prop) l1 h l2 :
  Forall P (l1 ++ h :: l2) <-> P h /\ forall x, x ∈ l1 ++ l2 -> P x.
Proof. by rewrite <-Permutation_middle, Forall_cons, (Forall_forall P (l1 ++ l2)). Qed.

Lemma heap_upd_page s s' l1 h h' l2 :
  heap_ok s (l1 ++ h :: l2) -> h_ref h' = h_ref h -> h_type h' = h_type h ->
  sizebases s' = sizebases s -> allbase s' = allbase s ->
  (forall p, p <> h_ref h -> refs s' p = refs s p) ->
  next_all (refs s' (h_ref h)) = next_all (refs s (h_ref h)) ->
  next_samesize (refs s' (h_ref h)) = next_samesize (refs s (h_ref h)) ->
  (forall x o, x ∈ l1 ++ l2 -> o ∈ h_free x -> words s' (h_addr x + o) = words s (h_addr x + o)) ->
  page_ok s' h' -> heap_ok s' (l1 ++ h' :: l2).
Proof.
  intros Hheap Er Et Es Ea Eo En1 En2 Ew Hok. eapply heap_replace; [exact Hheap|done..| |].
  - intros p. destruct (decide (p = h_ref h)) as [->|Hne]; [done|by rewrite Eo].
  - pose proof (ho_pages _ _ Hheap) as Hall. rewrite pages_split in Hall |- *. destruct Hall as [_ Hall].
    split; [done|]. intros x Hx. pose proof (others_ref _ _ _ _ _ Hheap Hx).
    apply (page_ok_ext s); [by apply Hall|by rewrite Eo..|]. intros o Ho. by apply Ew.
Qed.

(** ** [doalloc] *)

(** The state but for the heap's own variables. *)
Definition same_base s s' : Prop := kheaproots s' = kheaproots s /\ world s' = world s.

Lemma block_off_range z o : block_off z o -> 0 <= o < 4096.
Proof. by intros [? _]. Qed.

Lemma free_length s h : page_ok s h -> Z.of_nat (length (h_free h)) <= 4096.
Proof.
  intros Hok. pose proof (po_blocks _ _ Hok) as Hb. rewrite Forall_forall in Hb.
  assert (length (h_free h) <= length (seqZ 0 4096))%nat as Hl.
  { apply submseteq_length, NoDup_submseteq; [apply (po_nodup _ _ Hok)|]. intros x Hx. apply elem_of_seqZ.
    specialize (Hb x Hx). apply block_off_range in Hb. lia. }
  rewrite length_seqZ in Hl. lia.
Qed.

Definition first_free (free : list Z) : Z := match free with [] => INVALID_OFFSET | o :: _ => o end.

Lemma doalloc_spec s l1 h o free l2 :
  heap_ok s (l1 ++ h :: l2) -> h_ref h <> 0 -> h_free h = o :: free ->
  let h' := Hpage (h_ref h) (h_frame h) (h_type h) free in
  wp (doalloc (h_ref h)) (fun p s' => p = h_addr h + o /\ heap_ok s' (l1 ++ h' :: l2) /\
    same_base s s' /\ words s' = words s) s.
Proof.
  intros Hheap Hp Ho h'. pose proof (ho_pages _ _ Hheap) as [Hok _]%pages_split.
  pose proof (free_length _ _ Hok) as Hlen. pose proof (page_parts _ _ Hok) as [Epa _].
  destruct Hok as [Hty Hfr Epab Eo En Hc Hnd Hb]. rewrite Ho in Eo, En, Hc, Hb, Hnd, Hlen. cbn [length] in En, Hlen.
  destruct Hc as [Ew Hc]. apply Forall_cons in Hb as [Hbo Hbf]. apply NoDup_cons in Hnd as [_ Hnd].
  pose proof (block_off_range _ _ Hbo) as Hro.
  unfold doalloc. rewrite wp_bind, wp_read_ref, wp_bind, wp_KASSERT by done. rewrite Eo, Epa.
  split; [by apply Z.ltb_lt, Hro|]. unfold load_word. rewrite wp_bind, wp_gets, Ew, wp_bind, wp_write_ref by done.
  rewrite wp_bind, wp_read_ref, wp_bind by done. cbn [refs set_refs]. rewrite upd_eq. cbn [nfree set_nfree].
  rewrite En, (u16_small (Z.of_nat (S (length free)) - 1)) by lia. replace (Z.of_nat (S (length free)) - 1) with (Z.of_nat (length free)) by lia.
  set (s1 := set_refs _ s).
  assert (Hend : wp (write_ref (h_ref h) (set_freelist_offset (first_free free))) (fun _ s' =>
            heap_ok s' (l1 ++ h' :: l2) /\ same_base s s' /\ words s' = words s) s1).
  { rewrite wp_write_ref by done. split; [|done]. apply (heap_upd_page s _ l1 h h' l2 Hheap); try done; cbn.
    - intros p Hne. by rewrite !upd_ne.
    - by rewrite !upd_eq.
    - by rewrite !upd_eq.
    - split; cbn; rewrite ?upd_eq; try done. }
  destruct free as [|o2 free]; cbn [free_ptr].
  - rewrite Z.eqb_refl. cbn [negb]. rewrite wp_bind, wp_KASSERT. split; [done|].
    eapply wp_mono; [|exact Hend]. cbv beta. intros _ s' ?. by rewrite wp_ret.
  - apply Forall_cons in Hbf as [Hbo2 _]. pose proof (block_off_range _ _ Hbo2). pose proof (frame_range _ Hfr) as Hfa.
    fold (h_addr h) in Hfa. destruct (Z.eqb_spec (h_addr h + o2) 0); [lia|]. cbn [negb].
    rewrite wp_bind, wp_KASSERT. split; [done|].
    replace (h_addr h + o2 - h_addr h) with o2 by lia. rewrite u32_small, u16_small by lia.
    rewrite wp_bind, wp_KASSERT. split; [apply Z.ltb_lt; unfold PAGE_SIZE; lia|].
    eapply wp_mono; [|exact Hend]. cbv beta. intros _ s' ?. by rewrite wp_ret.
Qed.

(** ** [remove_lists] *)

Definition base_of (w : list_id) s : option Z :=
  match w with Same t => sizebases s !! t | All => Some (allbase s) end.
Definition nexts (w : list_id) s : Z -> Z := fun p => next_of w (refs s p).
Definition link_of (pre : list Z) : link := match last pre with Some q => Next q | None => Base end.

(** All but the list [w], of the references [l], is as before. *)
Definition other_ref (w : list_id) (x y : pageref) : Prop :=
  pageaddr_and_blocktype y = pageaddr_and_blocktype x /\ freelist_offset y = freelist_offset x /\
  nfree y = nfree x /\ match w with Same _ => next_all y = next_all x | All => next_samesize y = next_samesize x end.
Record other_lists (w : list_id) (l : list Z) s s' : Prop := OtherLists {
  ol_out p : p ∉ l -> refs s' p = refs s p;
  ol_refs p : other_ref w (refs s p) (refs s' p);
  ol_bases : match w with
             | Same t => allbase s' = allbase s /\ length (sizebases s') = length (sizebases s) /\
                         forall u, u <> t -> sizebases s' !! u = sizebases s !! u
             | All => sizebases s' = sizebases s
             end;
  ol_base : same_base s s';
  ol_words : words s' = words s }.

Lemma other_ref_refl w x : other_ref w x x.
Proof. by destruct w. Qed.

Lemma chain_app f b l1 l2 :
  chain f b (l1 ++ l2) -> chain f (match last l1 with Some q => f q | None => b end) l2.
Proof.
  revert b. induction l1 as [|p l1 IH]; intros b; [done|]. cbn [app chain]. intros (-> & _ & Hc).
  specialize (IH _ Hc). rewrite last_cons. by destruct (last l1).
Qed.

Lemma chain_unlink f f' b pre q p suf :
  chain f b (pre ++ q :: p :: suf) -> NoDup (pre ++ q :: p :: suf) -> f' q = f p ->
  (forall x, x <> q -> f' x = f x) -> chain f' b (pre ++ q :: suf).
Proof.
  intros Hc Hnd Hq Hx. revert b Hc. induction pre as [|y pre IH]; intros b; cbn [app chain].
  - intros (-> & Hq0 & E & Hp & Hc). split_and!; [done..|]. rewrite Hq.
    cbn [app] in Hnd. apply NoDup_cons in Hnd as [Hnq _].
    eapply chain_ext; [|exact Hc]. intros z Hz. symmetry. apply Hx. intros ->. apply Hnq. by right.
  - intros (-> & Hy & Hc). cbn [app] in Hnd. apply NoDup_cons in Hnd as [Hny Hnd]. split_and!; [done..|].
    rewrite Hx by set_solver. by apply IH.
Qed.

Lemma write_link_spec w s pre p suf b :
  base_of w s = Some b -> chain (nexts w s) b (pre ++ p :: suf) -> NoDup (pre ++ p :: suf) ->
  wp (write_link w (link_of pre) (nexts w s p)) (fun _ s' => other_lists w pre s s' /\
    exists b', base_of w s' = Some b' /\ chain (nexts w s') b' (pre ++ suf)) s.
Proof.
  intros Hb Hc Hnd. destruct pre as [|q pre _] using rev_ind.
  - cbn [app] in *. destruct Hc as (_ & _ & Hc). destruct w as [t|]; cbn [write_link link_of last]; rewrite wp_modify.
    + assert (Ht : (t < length (sizebases s))%nat) by (by eapply lookup_lt_Some).
      split; [split; [done|done| |done|done]|].
      * cbn. split_and!; [done|by rewrite length_insert|]. intros u Hu. by rewrite list_lookup_insert_ne.
      * exists (next_samesize (refs s p)). cbn. by rewrite list_lookup_insert_eq.
    + split; [done|]. by exists (next_all (refs s p)).
  - unfold link_of. rewrite last_snoc. rewrite <-app_assoc in *. cbn [app] in *.
    assert (Hq0 : q <> 0) by (apply chain_app in Hc as (_ & ? & _); done).
    cbn [write_link]. rewrite wp_write_ref by done. split; [split; [| |by destruct w|done|done]|].
    + intros x Hx. cbn. rewrite upd_ne; [done|]. intros ->. apply Hx. set_solver.
    + intros x. cbn. unfold upd. case_decide as E; [rewrite E; by destruct w|apply other_ref_refl].
    + exists b. split; [by destruct w|]. eapply chain_unlink; [exact Hc|done| |].
      * unfold nexts. cbn. rewrite upd_eq. by destruct w.
      * intros x Hx. unfold nexts. cbn. by rewrite upd_ne.
Qed.

Lemma remove_loop_spec fuel w s pre0 pre1 p suf b :
  base_of w s = Some b -> chain (nexts w s) b ((pre0 ++ pre1) ++ p :: suf) ->
  NoDup ((pre0 ++ pre1) ++ p :: suf) -> (length pre1 < fuel)%nat ->
  wp (remove_loop fuel w (link_of pre0) p) (fun _ s' => other_lists w (pre0 ++ pre1) s s' /\
    exists b', base_of w s' = Some b' /\ chain (nexts w s') b' (pre0 ++ pre1 ++ suf)) s.
Proof.
  intros Hb. revert pre0 pre1. induction fuel as [|fuel IH]; intros pre0 pre1 Hc Hnd Hf; [lia|].
  cbn [remove_loop].
  assert (Hread : forall g, chain (nexts w s) g (pre1 ++ p :: suf) ->
            g = match last pre0 with Some q => nexts w s q | None => b end -> read_link w (link_of pre0) s = Ret g s).
  { intros g _ ->. destruct (last pre0) as [q|] eqn:El; unfold link_of; rewrite El; cbn [read_link].
    - apply last_Some in El as [l ->]. rewrite <-!app_assoc in Hc. apply chain_app in Hc as (_ & Hq & _).
      by run (read_ref_eq s q Hq).
    - destruct w as [t|]; cbn in Hb; [|by injection Hb as <-]. kunfold. by rewrite Hb. }
  assert (Hc1 : chain (nexts w s) (match last pre0 with Some q => nexts w s q | None => b end) (pre1 ++ p :: suf))
    by (apply chain_app; by rewrite app_assoc).
  rewrite wp_bind. erewrite (wp_eq (read_link _ _)) by (by eapply Hread).
  destruct pre1 as [|g pre1]; cbn [app] in Hc1.
  - destruct Hc1 as (-> & Hp & _). destruct (Z.eqb_spec p 0) as [|_]; [done|]. rewrite Z.eqb_refl.
    rewrite wp_bind, wp_read_ref by done. rewrite app_nil_r in Hc, Hnd |- *. by apply (write_link_spec w s pre0 p suf b).
  - destruct Hc1 as (-> & Hg & _). destruct (Z.eqb_spec g 0) as [|_]; [done|].
    destruct (Z.eqb_spec g p) as [->|Hne].
    { exfalso. rewrite <-app_assoc in Hnd. apply NoDup_app in Hnd as (_ & _ & Hnd). cbn in Hnd.
      apply NoDup_cons in Hnd as [Hn _]. set_solver. }
    replace (Next g) with (link_of (pre0 ++ [g])) by (unfold link_of; by rewrite last_snoc).
    replace (pre0 ++ (g :: pre1) ++ suf) with ((pre0 ++ [g]) ++ pre1 ++ suf) by (by rewrite <-app_assoc).
    replace (pre0 ++ g :: pre1) with ((pre0 ++ [g]) ++ pre1) in Hc, Hnd |- * by (by rewrite <-app_assoc).
    cbn [length] in Hf. apply IH; [done|done|lia].
Qed.

(** ** Walks over the lists end *)

Lemma used_length roots used : roots_ok roots used -> NoDup used -> (length used < FUEL)%nat.
Proof.
  intros Hok Hnd. set (all := mjoin ((fun r => entry r <$> seqZ 0 NPAGEREFS_PER_PAGE) <$> roots)).
  assert (Hl : length all = (length roots * 256)%nat).
  { unfold all. clear. induction roots as [|r l IH]; [done|]. rewrite fmap_cons. cbn [mjoin list_join].
    rewrite length_app, length_fmap, length_seqZ. etrans; [apply f_equal2_plus; [reflexivity|exact IH]|].
    unfold NPAGEREFS_PER_PAGE. cbn [length]. lia. }
  assert (length used <= length all)%nat as Hle.
  { apply submseteq_length, NoDup_submseteq; [done|]. intros p Hp.
    destruct (ro_ref _ _ Hok p Hp) as (k & r & i & Hk & _ & Hi & -> & _). unfold all.
    apply list_elem_of_join. exists (entry r <$> seqZ 0 NPAGEREFS_PER_PAGE). split.
    - apply list_elem_of_fmap_2. by apply in_entries.
    - apply (list_elem_of_fmap_2 (fun r => entry r <$> seqZ 0 NPAGEREFS_PER_PAGE)). by eapply list_elem_of_lookup_2. }
  rewrite Hl, (ro_len _ _ Hok) in Hle. unfold FUEL, NUM_PAGEREFPAGES, NPAGEREFS_PER_PAGE in *. lia.
Qed.

Lemma fmap_inj {A} (f : A -> Z) l x y : NoDup (f <$> l) -> x ∈ l -> y ∈ l -> f x = f y -> x = y.
Proof.
  intros Hnd [i Hi]%list_elem_of_lookup_1 [j Hj]%list_elem_of_lookup_1 E.
  assert (i = j) as ->; [|congruence].
  apply (NoDup_lookup _ _ _ (f x) Hnd); rewrite list_lookup_fmap; [by rewrite Hi|by rewrite Hj, E].
Qed.

Lemma remove_lists_spec s l1 h l2 :
  heap_ok s (l1 ++ h :: l2) -> (length (l1 ++ h :: l2) < FUEL)%nat ->
  wp (remove_lists (h_ref h) (Z.of_nat (h_type h))) (fun _ s' =>
    heap_ok s' (l1 ++ l2) /\ same_base s s' /\ words s' = words s) s.
Proof.
  intros Hheap Hfuel. pose proof Hheap as [Hall Hlen Hsame Hpages Hnd].
  pose proof Hpages as [Hok Hothers]%pages_split. pose proof (po_type _ _ Hok) as Hty.
  unfold remove_lists. rewrite wp_bind, wp_KASSERT. split; [unfold NSIZES; lia|]. rewrite Nat2Z.id.
  set (t := h_type h) in *. set (ft := filter (fun x => h_type x = t) : list hpage -> list hpage).
  assert (Hft : ft (l1 ++ h :: l2) = ft l1 ++ h :: ft l2)
    by (unfold ft; rewrite filter_app, filter_cons_True by done; done).
  destruct (lookup_lt_is_Some_2 (sizebases s) t) as [b Hb]; [lia|]. pose proof (Hsame t b Hb) as Hc.
  fold (ft (l1 ++ h :: l2)) in Hc. rewrite Hft, fmap_app, fmap_cons in Hc.
  assert (Hnd1 : NoDup ((h_ref <$> ft l1) ++ h_ref h :: (h_ref <$> ft l2))).
  { rewrite <-fmap_cons, <-fmap_app, <-Hft. eapply sublist_NoDup; [exact Hnd|].
    apply fmap_sublist, sublist_filter. }
  rewrite wp_bind. eapply wp_mono; [|apply (remove_loop_spec FUEL (Same t) s [] (h_ref <$> ft l1) _ (h_ref <$> ft l2) b);
    [done|done|done|]].
  2: { rewrite length_fmap. unfold ft. pose proof (length_filter (fun x => h_type x = t) l1).
       rewrite length_app in Hfuel. lia. }
  cbv beta. cbn [app]. intros _ s1 ([Hout Href (Ea & El & Eu) Hsb Hw] & b1 & Hb1 & Hc1).
  rewrite fmap_app, fmap_cons in Hall, Hnd.
  eapply wp_mono; [|apply (remove_loop_spec FUEL All s1 [] (h_ref <$> l1) _ (h_ref <$> l2) (allbase s1));
    [done| |done|rewrite length_fmap; rewrite length_app in Hfuel; lia]].
  2: { rewrite Ea. eapply chain_ext; [|exact Hall]. intros p _. symmetry. apply (Href p). }
  cbv beta. cbn [app]. intros _ s2 ([_ Href2 Es2 Hsb2 Hw2] & b2 & [= Hb2] & Hc2).
  split; [|split; [split; etrans; [apply Hsb2|apply Hsb|apply Hsb2|apply Hsb]|congruence]].
  assert (Hs2 : forall p, next_samesize (refs s2 p) = next_samesize (refs s1 p)) by (intros p; apply (Href2 p)).
  split.
  - rewrite fmap_app, Hb2. exact Hc2.
  - rewrite Es2. congruence.
  - intros u bu Hu. rewrite Es2 in Hu. destruct (decide (u = t)) as [->|Hne].
    + cbn in Hb1. assert (bu = b1) as -> by congruence. rewrite filter_app, fmap_app.
      eapply chain_ext; [|exact Hc1]. intros p _. symmetry. apply Hs2.
    + rewrite Eu in Hu by done. specialize (Hsame u bu Hu).
      rewrite filter_app, filter_cons_False, <-filter_app in Hsame by (fold t; congruence).
      eapply chain_ext; [|exact Hsame]. intros p Hp. rewrite Hs2, Hout; [done|].
      intros Hp'. apply list_elem_of_fmap in Hp as (x & -> & Hx), Hp' as (y & E & Hy).
      apply list_elem_of_filter in Hx as [Htx Hx], Hy as [Hty' Hy].
      assert (x = y) as ->; [|congruence].
      apply (fmap_inj h_ref (l1 ++ l2)); [|done|rewrite elem_of_app; by left|done].
      rewrite fmap_app. eapply sublist_NoDup; [exact Hnd|]. apply sublist_app; [done|by apply sublist_cons].
  - apply Forall_forall. intros x Hx. specialize (Hothers x Hx). destruct (Href (h_ref x)) as (E1 & E2 & E3 & _).
    destruct (Href2 (h_ref x)) as (F1 & F2 & F3 & _). apply (page_ok_ext s); [done|congruence..|].
    intros o _. by rewrite Hw2, Hw.
  - rewrite fmap_app. eapply sublist_NoDup; [exact Hnd|]. apply sublist_app; [done|by apply sublist_cons].
Qed.

(** ** Pages taken and given back *)

Lemma base_alloc_big s used frames big np :
  base_ok s used frames big -> 1 <= np < 2 ^ 19 ->
  wp (zoom world_lens (alloc_kpages np)) (fun r s' => same_heap s s' /\ kheaproots s' = kheaproots s /\
    ((r = 0 /\ base_ok s' used frames big) \/
     exists b, r = frame_addr b /\ big !! b = None /\ base_ok s' used frames (<[b := np]> big))) s.
Proof.
  intros [Hnd Hroots Hlive] Hnp. rewrite wp_zoom. eapply wp_mono; [|by apply (alloc_big (world s))].
  cbv beta. intros r w [(-> & Hok)|(b & -> & Hb & Hok)]; (split; [done|]; split; [done|]); [by left|right].
  by exists b.
Qed.

Lemma base_free_big s used frames big b n :
  base_ok s used frames big -> big !! b = Some n ->
  wp (zoom world_lens (free_kpages (frame_addr b))) (fun _ s' => same_heap s s' /\
    kheaproots s' = kheaproots s /\ base_ok s' used frames (delete b big)) s.
Proof.
  intros [Hnd Hroots Hlive] Hb. rewrite wp_zoom. eapply wp_mono; [|by eapply free_big].
  cbv beta. by intros _ w Hok.
Qed.

Lemma base_alloc_frame s used frames big :
  base_ok s used frames big ->
  wp (zoom world_lens (alloc_kpages 1)) (fun r s' => same_heap s s' /\ kheaproots s' = kheaproots s /\
    ((r = 0 /\ base_ok s' used frames big) \/
     exists b, r = frame_addr b /\ 1 <= b < 2 ^ 17 /\ base_ok s' used (b :: frames) big)) s.
Proof.
  intros Hbase. eapply wp_mono; [|by apply (base_alloc_big s used frames big 1)]. cbv beta.
  intros r s' (Hs & Hr & [?|(b & -> & Hb & [Hnd Hroots Hlive])]); (split; [done|]; split; [done|]); [by left|].
  right. apply big_to_frame in Hlive; [|done]. exists b. split; [done|].
  pose proof (live_bound _ _ _ _ b 1 Hlive ltac:(set_solver)). split; [lia|done].
Qed.

Lemma base_free_frame s used b frames big :
  base_ok s used (b :: frames) big ->
  wp (zoom world_lens (free_kpages (frame_addr b))) (fun _ s' => same_heap s s' /\
    kheaproots s' = kheaproots s /\ base_ok s' used frames big) s.
Proof.
  intros [Hnd Hroots Hlive].
  assert (Hb : big !! b = None).
  { destruct (big !! b) eqn:E; [|done]. destruct (lo_big _ _ _ _ Hlive b _ E) as [Hn _]. destruct Hn. by left. }
  eapply wp_mono; [|eapply (base_free_big s used frames (<[b := 1]> big) b 1)].
  - cbv beta. rewrite delete_insert_id by done. done.
  - split; [done..|]. by apply big_to_frame.
  - by rewrite lookup_insert_eq.
Qed.

Lemma base_perm s used used' frames frames' big :
  used ≡ₚ used' -> frames ≡ₚ frames' -> base_ok s used frames big -> base_ok s used' frames' big.
Proof.
  intros Eu Ef [Hnd [? ? ? ? Href] Hlive]. split; [by rewrite <-Eu| |by eapply live_perm].
  split; try done. intros p. rewrite <-Eu. apply Href.
Qed.

(** ** A new page *)

(** The offsets of [n] blocks of size [z], last first. *)
Fixpoint down (n : nat) (z : Z) : list Z :=
  match n with O => [] | S n => Z.of_nat n * z :: down n z end.

Lemma down_length n z : length (down n z) = n.
Proof. induction n; cbn; congruence. Qed.

Lemma elem_of_down n z o : o ∈ down n z <-> exists i, 0 <= i < Z.of_nat n /\ o = i * z.
Proof.
  induction n as [|n IH]; cbn [down].
  - rewrite elem_of_nil. split; [done|]. intros (i & ? & _). lia.
  - rewrite elem_of_cons, IH. split.
    + intros [->|(i & ? & ->)]; [exists (Z.of_nat n)|exists i]; (split; [lia|done]).
    + intros (i & Hi & ->). destruct (decide (i = Z.of_nat n)) as [->|]; [by left|]. right. exists i. split; [lia|done].
Qed.

Lemma down_nodup n z : 0 < z -> NoDup (down n z).
Proof.
  intros Hz. induction n as [|n IH]; cbn [down]; constructor; [|done].
  intros (i & Hi & E)%elem_of_down. nia.
Qed.

Lemma thread_loop_spec s n (i : nat) fla z :
  0 < fla -> 0 < z -> (1 <= i)%nat -> free_chain (words s) fla (down i z) ->
  wp (thread_loop n (Z.of_nat i) fla z (fla + (Z.of_nat i - 1) * z)) (fun fl s' =>
    fl = fla + (Z.of_nat (n + i) - 1) * z /\ exists w, s' = set_words w s /\
    free_chain w fla (down (n + i) z) /\
    forall a, ~ (fla <= a < fla + Z.of_nat (n + i) * z) -> w a = words s a) s.
Proof.
  intros Hfla Hz. revert s i. induction n as [|n IH]; intros s i Hi Hc; cbn [thread_loop].
  - rewrite wp_ret. split; [done|]. exists (words s). by destruct s.
  - unfold store_word, load_word. rewrite wp_bind, wp_modify, wp_bind, wp_gets. cbn [words set_words].
    rewrite upd_eq, wp_bind, wp_KASSERT. split.
    { apply negb_true_iff, Z.eqb_neq. nia. }
    set (s1 := set_words _ s). specialize (IH s1 (S i)).
    replace (Z.of_nat i + 1) with (Z.of_nat (S i)) by lia.
    replace (fla + Z.of_nat i * z) with (fla + (Z.of_nat (S i) - 1) * z) by lia.
    eapply wp_mono; [|apply IH; [lia|]].
    + cbv beta. intros fl s' (-> & w & -> & Hc' & Hw). replace (n + S i)%nat with (S n + i)%nat in * by lia.
      split; [done|]. exists w. split; [done|]. split; [done|]. intros a Ha. rewrite Hw by done. cbn.
      apply upd_ne. nia.
    + cbn [down free_chain]. split.
      * cbn. rewrite upd_eq. destruct i as [|i]; [lia|]. cbn. f_equal. nia.
      * eapply free_chain_ext; [|exact Hc]. apply Forall_forall. intros o (j & Hj & ->)%elem_of_down.
        cbn. rewrite upd_ne; [done|]. nia.
Qed.

Lemma heap_cons s s' pages h b :
  heap_ok s pages -> h_ref h ∉ h_ref <$> pages -> h_ref h <> 0 ->
  sizebases s !! h_type h = Some b -> sizebases s' = <[h_type h := h_ref h]> (sizebases s) -> allbase s' = h_ref h ->
  (forall p, p <> h_ref h -> refs s' p = refs s p) -> next_all (refs s' (h_ref h)) = allbase s ->
  next_samesize (refs s' (h_ref h)) = b ->
  (forall x o, x ∈ pages -> o ∈ h_free x -> words s' (h_addr x + o) = words s (h_addr x + o)) ->
  page_ok s' h -> heap_ok s' (h :: pages).
Proof.
  intros [Hall Hlen Hsame Hpages Hnd] Hn Hp Hb Es Ea Er En Ens Ew Hok.
  pose proof (lookup_lt_Some _ _ _ Hb) as Hlt.
  assert (Hx : forall x, x ∈ pages -> h_ref x <> h_ref h).
  { intros x Hx E. apply Hn. rewrite <-E. by apply list_elem_of_fmap_2. }
  split.
  - rewrite fmap_cons. cbn [chain]. split_and!; [done..|]. rewrite En. eapply chain_ext; [|exact Hall].
    intros p Hp'. rewrite Er; [done|]. by intros ->.
  - by rewrite Es, length_insert.
  - intros t bt Ht. rewrite Es in Ht. rewrite filter_cons. case_decide as E.
    + subst t. rewrite list_lookup_insert_eq in Ht by done. injection Ht as <-. rewrite fmap_cons. cbn [chain].
      split_and!; [done..|]. rewrite Ens. eapply chain_ext; [|by apply Hsame].
      intros p (x & -> & [_ Hin]%list_elem_of_filter)%list_elem_of_fmap. by rewrite Er by auto.
    + rewrite list_lookup_insert_ne in Ht by done. eapply chain_ext; [|by apply Hsame].
      intros p (x & -> & [_ Hin]%list_elem_of_filter)%list_elem_of_fmap. by rewrite Er by auto.
  - apply Forall_cons. split; [done|]. rewrite Forall_forall in Hpages |- *. intros x Hin.
    apply (page_ok_ext s); [by apply Hpages|by rewrite Er by auto..|]. intros o Ho. by apply Ew.
  - rewrite fmap_cons. by constructor.
Qed.

Lemma frames_apart b b' o o' :
  b <> b' -> 0 <= o < PAGE_SIZE -> 0 <= o' < PAGE_SIZE -> frame_addr b + o <> frame_addr b' + o'.
Proof. unfold frame_addr, PAGE_SIZE. lia. Qed.

Lemma free_in_page s pages x o :
  heap_ok s pages -> x ∈ pages -> o ∈ h_free x -> 0 <= o < PAGE_SIZE.
Proof.
  intros Hheap Hx Ho. pose proof (ho_pages _ _ Hheap) as Hp. rewrite Forall_forall in Hp.
  pose proof (po_blocks _ _ (Hp x Hx)) as Hb. rewrite Forall_forall in Hb. apply (Hb o Ho).
Qed.

Lemma init_page_spec s pages b pr t z c :
  heap_ok s pages -> pr ∉ h_ref <$> pages -> pr <> 0 -> 1 <= b < 2 ^ 17 -> b ∉ h_frame <$> pages -> (t < 8)%nat ->
  sizes !!! t = z -> PAGE_SIZE / z = Z.of_nat c ->
  wp (init_page (frame_addr b) pr (Z.of_nat t)) (fun _ s' => same_base s s' /\
    heap_ok s' (Hpage pr b t (down c z) :: pages) /\
    forall a, ~ (frame_addr b <= a < frame_addr b + PAGE_SIZE) -> words s' a = words s a) s.
Proof.
  intros Hheap Hpr Hp0 Hb Hbf Ht Ez Ec. destruct (size_spec t Ht) as (z' & c' & Hz' & Ez' & Hz & _ & Hc & Epz & Ec').
  assert (z' = z) as -> by congruence. assert (c' = Z.of_nat c) as -> by congruence. clear Ez' Ec'.
  pose proof (frame_range b Hb) as Hfr. unfold PAGE_SIZE in Epz, Hfr.
  unfold init_page. rewrite Nat2Z.id, wp_bind, (wp_deref _ z) by done.
  rewrite wp_bind, wp_write_ref, wp_bind, wp_write_ref by done. unfold store_word. rewrite wp_bind, wp_modify.
  rewrite wp_bind, wp_read_ref, wp_bind by done. cbn [refs set_refs set_words words]. rewrite !upd_eq.
  cbn [nfree set_nfree]. rewrite Ec, (u16_small (Z.of_nat c)), mkpab by (unfold PAGE_SIZE; lia).
  set (x1 := set_nfree _ _). set (s1 := set_words _ _).
  assert (Hl := thread_loop_spec s1 (Z.to_nat (Z.of_nat c - 1)) 1 (frame_addr b) z ltac:(lia) ltac:(lia) ltac:(lia)).
  replace (frame_addr b + (Z.of_nat 1 - 1) * z) with (frame_addr b) in Hl by lia.
  eapply wp_mono; [|apply Hl; cbn; split; [rewrite Z.add_0_r; apply upd_eq|done]].
  cbv beta. replace (Z.to_nat (Z.of_nat c - 1) + 1)%nat with c by lia.
  intros fl s' (-> & w & -> & Hchain & Hw).
  replace (frame_addr b + (Z.of_nat c - 1) * z - frame_addr b) with ((Z.of_nat c - 1) * z) by lia.
  assert (Hoff : 0 <= (Z.of_nat c - 1) * z < 4096) by nia. rewrite u16_small by lia.
  assert (E1 : refs s1 pr = x1) by (cbn; apply upd_eq).
  rewrite wp_bind, wp_write_ref, wp_bind, wp_read_ref by done. cbn [refs set_refs set_words].
  rewrite upd_eq, E1. cbn [freelist_offset nfree set_freelist_offset].
  rewrite wp_bind, wp_KASSERT. split; [by apply Z.eqb_eq|].
  rewrite wp_bind, wp_get. cbn [sizebases set_refs set_words s1].
  destruct (lookup_lt_is_Some_2 (sizebases s) t) as [base Hbase]; [by rewrite (ho_len _ _ Hheap)|].
  rewrite wp_bind, (wp_deref _ base) by done.
  rewrite wp_bind, wp_write_ref, wp_bind, wp_modify, wp_bind, wp_write_ref, wp_modify by done.
  split; [done|]. cbn [words refs set_refs set_words set_sizebases set_allbase allbase s1].
  assert (Hout : forall a, ~ (frame_addr b <= a < frame_addr b + PAGE_SIZE) -> w a = words s a).
  { intros a Ha. unfold PAGE_SIZE in Ha. rewrite Hw by lia. unfold s1. cbn. apply upd_ne. lia. }
  split; [|done]. eapply (heap_cons s _ _ _ base Hheap); cbn [h_ref h_type]; try done; cbn.
  - intros p Hp. by rewrite !upd_ne.
  - by rewrite upd_eq.
  - by rewrite !upd_eq.
  - intros x o Hx Ho. apply Hout. pose proof (free_in_page _ _ _ _ Hheap Hx Ho) as Hro.
    assert (h_frame x <> b) by (intros <-; apply Hbf; by apply list_elem_of_fmap_2).
    unfold h_addr, frame_addr, PAGE_SIZE in *. lia.
  - split; cbn; rewrite ?upd_eq; cbn; try done.
    + destruct c as [|c]; [lia|]. cbn. lia.
    + by rewrite down_length.
    + apply down_nodup. lia.
    + unfold h_size. cbn. rewrite Ez. apply Forall_forall. intros o (i & Hi & ->)%elem_of_down.
      split; [unfold PAGE_SIZE; nia|]. apply Z.mod_mul. lia.
Qed.

(** ** Allocated blocks *)

Lemma find_page_spec s l fuel b t :
  chain (fun p => next_samesize (refs s p)) b (h_ref <$> l) -> Forall (page_ok s) l ->
  Forall (fun h => h_type h = t) l -> (length l < fuel)%nat ->
  wp (find_page fuel b (Z.of_nat t)) (fun pr s' => s' = s /\
    (pr = 0 \/ exists h, h ∈ l /\ pr = h_ref h /\ pr <> 0 /\ h_free h <> [])) s.
Proof.
  revert b l. induction fuel as [|fuel IH]; intros b l Hc Hok Ht Hf; [lia|]. cbn [find_page].
  destruct l as [|h l]; cbn [fmap list_fmap chain] in Hc.
  - subst b. rewrite Z.eqb_refl, wp_ret. split; [done|by left].
  - destruct Hc as (-> & Hp & Hc). apply Forall_cons in Hok as [Hh Hok], Ht as [Eh Ht]. cbn in Hf.
    destruct (Z.eqb_spec (h_ref h) 0) as [|_]; [done|]. rewrite wp_bind, wp_read_ref by done.
    destruct (page_parts _ _ Hh) as [_ ->]. rewrite wp_bind, wp_KASSERT. split; [rewrite Eh; apply Z.eqb_refl|].
    rewrite (po_nfree _ _ Hh). destruct (Z.ltb_spec 0 (Z.of_nat (length (h_free h)))) as [Hl|Hl].
    + rewrite wp_ret. split; [done|]. right. exists h. split_and!; [by left|done|done|]. intros E.
      rewrite E in Hl. done.
    + eapply wp_mono; [|apply (IH _ l); [done..|lia]]. cbv beta. intros pr s' (-> & [->|(h' & ? & ?)]).
      * split; [done|by left].
      * split; [done|]. right. exists h'. split; [by right|done].
Qed.

(** The blocks of the heap, free or not, are apart. *)
Definition block (pages : list hpage) (big : gmap Z Z) (p len : Z) : Prop :=
  (exists h o, h ∈ pages /\ block_off (h_size h) o /\ p = h_addr h + o /\ len = h_size h) \/
  (exists b n, big !! b = Some n /\ p = frame_addr b /\ len = n * PAGE_SIZE).

Lemma allocated_block pages big p len : allocated pages big p len -> block pages big p len.
Proof. intros [(h & o & ? & ? & _ & ? & ?)|?]; [left; by exists h, o|by right]. Qed.

(** Offsets of one block size are a block apart, and the last block ends with the page. *)
Lemma offs_apart z c o o' : 0 < z -> PAGE_SIZE = c * z -> block_off z o -> block_off z o' ->
  o + z <= PAGE_SIZE /\ (o = o' \/ o + z <= o' \/ o' + z <= o).
Proof.
  intros Hz Hc [Ho Hm] [Ho' Hm']. pose proof (Z.div_mod o z). pose proof (Z.div_mod o' z).
  assert (o / z < c) by nia. assert (o / z = o' / z \/ o / z + 1 <= o' / z \/ o' / z + 1 <= o / z) by lia. nia.
Qed.

Lemma page_size s h : page_ok s h -> exists c, 16 <= h_size h <= 2048 /\ h_size h mod 16 = 0 /\
  2 <= c <= 256 /\ PAGE_SIZE = c * h_size h /\ PAGE_SIZE / h_size h = c /\ sizes !! h_type h = Some (h_size h).
Proof. intros Hok. destruct (size_spec (h_type h) (po_type _ _ Hok)) as (z & c & ? & <- & ?). exists c. tauto. Qed.

Lemma live_apart w roots frames big b n b' n' :
  live_ok w roots frames big ->
  big !! b = Some n \/ (n = 1 /\ b ∈ frames) -> big !! b' = Some n' \/ (n' = 1 /\ b' ∈ frames) ->
  b <> b' -> b + n <= b' \/ b' + n' <= b.
Proof.
  intros [(live & Hinv & Hlive) _ _ _] Hb Hb'. apply (live_disjoint w live); [done|apply Hlive; tauto..].
Qed.

Lemma block_fits s h o : page_ok s h -> block_off (h_size h) o -> 0 <= o /\ o + h_size h <= PAGE_SIZE.
Proof.
  intros Hok Ho. destruct (page_size _ _ Hok) as (c & Hz & _ & _ & Ec & _).
  destruct (offs_apart (h_size h) c o o) as [He _]; [lia|done..|]. destruct Ho. lia.
Qed.

Lemma blocks_apart s used pages big p len p' len' :
  heap_ok s pages -> base_ok s used (h_frame <$> pages) big -> block pages big p len -> block pages big p' len' ->
  (p = p' /\ len = len') \/ p + len <= p' \/ p' + len' <= p.
Proof.
  intros Hheap [_ _ Hlive] Hb Hb'. pose proof (ho_pages _ _ Hheap) as Hp. rewrite Forall_forall in Hp.
  assert (Hin : forall h, h ∈ pages -> h_frame h ∈ h_frame <$> pages) by (intros; by apply list_elem_of_fmap_2).
  destruct Hb as [(h & o & Hh & Ho & -> & ->)|(b & n & Hb & -> & ->)],
    Hb' as [(h' & o' & Hh' & Ho' & -> & ->)|(b' & n' & Hb' & -> & ->)].
  - destruct (block_fits _ _ _ (Hp h Hh) Ho), (block_fits _ _ _ (Hp h' Hh') Ho').
    destruct (decide (h_frame h = h_frame h')) as [E|Hne].
    + assert (h = h') as <- by (apply (fmap_inj h_frame pages); [apply (lo_nodup _ _ _ _ Hlive)|done..]).
      destruct (page_size _ _ (Hp h Hh)) as (c & Hz & _ & _ & Ec & _).
      destruct (offs_apart (h_size h) c o o') as [_ [->|?]]; [lia|done..|by left|right; lia].
    + right. destruct (live_apart _ _ _ _ _ 1 _ 1 Hlive (or_intror (conj eq_refl (Hin h Hh)))
        (or_intror (conj eq_refl (Hin h' Hh'))) Hne); unfold h_addr, frame_addr, PAGE_SIZE in *; lia.
  - destruct (block_fits _ _ _ (Hp h Hh) Ho). destruct (lo_big _ _ _ _ Hlive b' n' Hb') as [Hn _].
    right. destruct (live_apart _ _ _ _ (h_frame h) 1 b' n' Hlive (or_intror (conj eq_refl (Hin h Hh)))
      (or_introl Hb')) as [?|?]; [intros <-; by apply Hn, Hin|unfold h_addr, frame_addr, PAGE_SIZE in *; lia..].
  - destruct (block_fits _ _ _ (Hp h' Hh') Ho'). destruct (lo_big _ _ _ _ Hlive b n Hb) as [Hn _].
    right. destruct (live_apart _ _ _ _ b n (h_frame h') 1 Hlive (or_introl Hb)
      (or_intror (conj eq_refl (Hin h' Hh')))) as [?|?]; [intros ->; by apply Hn, Hin|unfold h_addr, frame_addr, PAGE_SIZE in *; lia..].
  - destruct (decide (b = b')) as [<-|Hne]; [left; split; [done|congruence]|]. right.
    destruct (live_apart _ _ _ _ b n b' n' Hlive (or_introl Hb) (or_introl Hb') Hne);
      unfold frame_addr, PAGE_SIZE in *; lia.
Qed.

(** A free block is not allocated. *)
Lemma free_not_allocated s used pages big h o :
  heap_ok s pages -> base_ok s used (h_frame <$> pages) big -> h ∈ pages -> o ∈ h_free h ->
  ~ allocated pages big (h_addr h + o) (h_size h).
Proof.
  intros Hheap [_ _ Hlive] Hh Ho. pose proof (free_in_page _ _ _ _ Hheap Hh Ho) as Hro.
  intros [(h' & o' & Hh' & [Ho' _] & Hn & E & _)|(b & n & Hb & E & _)].
  - assert (h_frame h = h_frame h') as Ef by (unfold h_addr, frame_addr, PAGE_SIZE in *; lia).
    assert (h = h') as <- by (apply (fmap_inj h_frame pages); [apply (lo_nodup _ _ _ _ Hlive)|done..]).
    assert (o = o') as <- by lia. done.
  - destruct (lo_big _ _ _ _ Hlive b n Hb) as [Hn _]. apply Hn.
    replace b with (h_frame h) by (unfold h_addr, frame_addr, PAGE_SIZE in *; lia). by apply list_elem_of_fmap_2.
Qed.

(** ** [kmalloc] *)

Lemma base_same s s' used frames big : same_base s s' -> base_ok s used frames big -> base_ok s' used frames big.
Proof. intros [Er Ew] [Hnd Hroots Hlive]. split; [done|by rewrite Er|by rewrite Er, Ew]. Qed.

Lemma heap_same s s' pages : same_heap s s' -> heap_ok s pages -> heap_ok s' pages.
Proof.
  intros (Es & Ea & Er & Ew) [Hall Hlen Hsame Hp Hnd]. split; [by rewrite Er, Ea|by rewrite Es| | |done].
  - intros t b. rewrite Es, Er. apply Hsame.
  - eapply Forall_impl; [exact Hp|]. intros h Hh. by apply (page_ok_ext s); rewrite ?Er, ?Ew.
Qed.

(** One block taken from the free list of a page. *)
Lemma allocated_take l1 h o free l2 big q l :
  h_free h = o :: free -> NoDup (o :: free) -> block_off (h_size h) o ->
  allocated (l1 ++ Hpage (h_ref h) (h_frame h) (h_type h) free :: l2) big q l <->
  (q = h_addr h + o /\ l = h_size h) \/ allocated (l1 ++ h :: l2) big q l.
Proof.
  intros Ho Hnd Hb. set (h' := Hpage _ _ _ _). apply NoDup_cons in Hnd as [Hn _]. split.
  - intros [(x & u & Hx & Hu & Hfree & -> & ->)|Hbig]; [|right; by right].
    apply elem_of_app in Hx as [Hx|[->|Hx]%elem_of_cons].
    + right; left. exists x, u. rewrite elem_of_app. tauto.
    + destruct (decide (u = o)) as [->|Hne]; [by left|]. right; left. exists h, u.
      rewrite Ho, not_elem_of_cons. rewrite elem_of_app, elem_of_cons. tauto.
    + right; left. exists x, u. rewrite elem_of_app, elem_of_cons. tauto.
  - intros [[-> ->]|[(x & u & Hx & Hu & Hfree & -> & ->)|Hbig]]; [| |by right]; left.
    + exists h', o. rewrite elem_of_app, elem_of_cons. tauto.
    + apply elem_of_app in Hx as [Hx|[->|Hx]%elem_of_cons].
      * exists x, u. rewrite elem_of_app. tauto.
      * exists h', u. rewrite Ho, not_elem_of_cons in Hfree. rewrite elem_of_app, elem_of_cons. tauto.
      * exists x, u. rewrite elem_of_app, elem_of_cons. tauto.
Qed.

(** A page of free blocks only. *)
Lemma allocated_idle h pages big q l :
  (forall o, block_off (h_size h) o -> o ∈ h_free h) -> allocated (h :: pages) big q l <-> allocated pages big q l.
Proof.
  intros Hall. split; (intros [(x & u & Hx & Hu & Hfree & -> & ->)|Hbig]; [|by right]); left.
  - apply elem_of_cons in Hx as [->|Hx]; [by destruct Hfree; apply Hall|]. by exists x, u.
  - exists x, u. split_and!; try done. by right.
Qed.

(** What an allocation of [sz] bytes achieves. *)
Definition got_block s pages big (sz p : Z) s' : Prop :=
  exists pages' big', kheap_inv s' pages' big' /\
    (forall q l a, allocated pages big q l -> q <= a < q + l -> words s' a = words s a) /\
    ((p = 0 /\ (forall n, room (n + 1) (kheaproots s) -> room n (kheaproots s')) /\
       forall q l, allocated pages' big' q l <-> allocated pages big q l) \/
     (exists len, p <> 0 /\ sz <= len /\ p mod 16 = 0 /\ (forall n, room n (kheaproots s) -> room n (kheaproots s')) /\
       (forall q l, allocated pages big q l -> q + l <= p \/ p + len <= q) /\
       forall q l, allocated pages' big' q l <-> (q = p /\ l = len) \/ allocated pages big q l)).

(** Taking the first free block of a page. *)
Lemma take_block s s0 pages0 l1 h o free l2 big sz :
  heap_ok s (l1 ++ h :: l2) -> base_ok s (h_ref <$> l1 ++ h :: l2) (h_frame <$> l1 ++ h :: l2) big ->
  Forall in_use (l1 ++ l2) -> Z.of_nat (length free) < PAGE_SIZE / h_size h ->
  h_ref h <> 0 -> h_free h = o :: free -> sz <= h_size h ->
  (forall q l, allocated pages0 big q l <-> allocated (l1 ++ h :: l2) big q l) ->
  (forall q l a, allocated pages0 big q l -> q <= a < q + l -> words s a = words s0 a) ->
  (forall n, room n (kheaproots s0) -> room n (kheaproots s)) ->
  wp (doalloc (h_ref h)) (fun p s' => got_block s0 pages0 big sz p s') s.
Proof.
  intros Hheap Hbase Hused Hu Hp Ho Hsz Hal Hw Hroom. pose proof (ho_pages _ _ Hheap) as [Hok _]%pages_split.
  pose proof (po_nodup _ _ Hok) as Hnd. pose proof (po_blocks _ _ Hok) as Hbl. rewrite Ho in Hnd, Hbl.
  apply Forall_cons in Hbl as [Hbo _]. eapply wp_mono; [|by apply (doalloc_spec s l1 h o free l2)]. cbv beta.
  set (h' := Hpage _ _ _ _). intros p s' (-> & Hheap' & Hsb & Hw').
  assert (Hinv : kheap_inv s' (l1 ++ h' :: l2) big).
  { split; [done| |].
    - apply (base_same s); [done|]. by rewrite !fmap_app, !fmap_cons in *.
    - apply pages_split. split; [done|]. rewrite Forall_forall in Hused. done. }
  exists (l1 ++ h' :: l2), big. split; [done|]. split; [intros q l a Hq Ha; rewrite Hw'; eauto|]. right.
  assert (Hal' : forall q l, allocated (l1 ++ h' :: l2) big q l <-> (q = h_addr h + o /\ l = h_size h) \/ allocated pages0 big q l).
  { intros q l. rewrite Hal. by apply allocated_take. }
  exists (h_size h). pose proof (frame_range _ (po_frame _ _ Hok)). pose proof (block_off_range _ _ Hbo).
  split_and!; [unfold h_addr; lia|done| |by destruct Hsb as [-> _]| |done].
  - destruct (page_size _ _ Hok) as (c & Hz & Hz16 & _). destruct Hbo as [_ Hm]. unfold h_addr. rewrite frame_addr_shift.
    apply Z.mod_divide in Hm as [u ->]; [|lia]. apply Z.mod_divide in Hz16 as [v Ev]; [|lia]. rewrite Ev.
    replace ((2 ^ 19 + h_frame h) * 2 ^ 12 + u * (v * 16)) with (((2 ^ 19 + h_frame h) * 256 + u * v) * 16) by lia.
    apply Z.mod_mul. lia.
  - intros q l Hq. destruct (blocks_apart s' _ _ _ q l (h_addr h + o) (h_size h) (ki_heap _ _ _ Hinv) (ki_base _ _ _ Hinv)) as [[-> ->]|?]; [| | |done].
    + apply allocated_block, Hal'. by right.
    + apply allocated_block, Hal'. by left.
    + exfalso. apply Hal in Hq. apply (free_not_allocated s _ _ _ h o Hheap Hbase) in Hq; [done|set_solver|].
      rewrite Ho. by left.
Qed.

Lemma idle_page h b pr t z c :
  h = Hpage pr b t (down c z) -> z = h_size h -> 0 < z -> PAGE_SIZE = Z.of_nat c * z ->
  forall o, block_off (h_size h) o -> o ∈ h_free h.
Proof.
  intros -> <- Hz Hc o [Ho Hm]. apply elem_of_down. exists (o / z). pose proof (Z.div_mod o z). nia.
Qed.

Lemma new_page_spec s pages big t sz :
  kheap_inv s pages big -> room 1 (kheaproots s) -> (t < 8)%nat -> sz <= sizes !!! t ->
  wp (new_page (Z.of_nat t)) (got_block s pages big sz) s.
Proof.
  intros [Hheap Hbase Hused] Hroom Ht Hsz. unfold new_page. rewrite wp_bind.
  eapply wp_mono; [|by apply base_alloc_frame]. cbv beta.
  assert (Hnone : forall s', same_heap s s' -> base_ok s' (h_ref <$> pages) (h_frame <$> pages) big ->
            (forall n, room (n + 1) (kheaproots s) -> room n (kheaproots s')) -> got_block s pages big sz 0 s').
  { intros s' Hs Hb Hrm. exists pages, big. split; [split; [by eapply heap_same|done|done]|].
    split; [|by left]. intros q l a _ _. by destruct Hs as (_ & _ & _ & ->). }
  intros prpage s1 (Hs1 & Hr1 & [(-> & Hb1)|(b & -> & Hb & Hb1)]); [rewrite Z.eqb_refl, wp_ret; apply Hnone; [done..|intros n; rewrite Hr1; apply room_less]|].
  destruct (Z.eqb_spec (frame_addr b) 0) as [E|_]; [by apply frame_addr_pos in E; [|lia]|].
  rewrite wp_bind, wp_KASSERT. split; [apply frame_addr_aligned|]. rewrite wp_bind.
  eapply wp_mono; [|apply (allocpageref_spec s1); [exact Hb1|by rewrite Hr1]]. cbv beta.
  assert (Htrans : forall s2, same_heap s1 s2 -> same_heap s s2) by (unfold same_heap in *; naive_solver congruence).
  intros pr s2 (Hs2 & [(-> & Hb2 & Hroom2)|(Hpr & Hfresh & Hb2 & Hroom2)]).
  - rewrite Z.eqb_refl, wp_bind. eapply wp_mono; [|by apply base_free_frame]. cbv beta.
    intros _ s3 (Hs3 & Hr3 & Hb3). rewrite wp_ret. apply Hnone; [unfold same_heap in *; naive_solver congruence|done|].
    intros n Hn. rewrite Hr3. apply Hroom2. by rewrite Hr1.
  - destruct (Z.eqb_spec pr 0) as [|_]; [done|]. rewrite wp_bind.
    destruct (size_spec t Ht) as (z & c & _ & Ez & Hz & _ & Hc & Epz & Ec).
    replace c with (Z.of_nat (Z.to_nat c)) in Epz, Ec by lia. set (n := Z.to_nat c) in *.
    assert (Hbf : b ∉ h_frame <$> pages)
      by (pose proof (lo_nodup _ _ _ _ (bo_live _ _ _ _ Hb2)) as Hnd; by apply NoDup_cons in Hnd as [? _]).
    eapply wp_mono; [|apply (init_page_spec s2 pages b pr t z n); try done; by apply (heap_same s); [apply Htrans|]].
    cbv beta. set (h := Hpage pr b t (down n z)). intros _ s3 (Hs3 & Hheap3 & Hw3).
    destruct n as [|m] eqn:En; [lia|].
    assert (Hsize : h_size h = z) by (unfold h_size; cbn; done).
    apply (take_block s3 s pages [] h (Z.of_nat m * z) (down m z) pages big sz); try done.
    + by apply (base_same s2).
    + rewrite down_length, Hsize, Ec. lia.
    + intros q l. symmetry. apply allocated_idle, (idle_page h b pr t z (S m)); [done..|lia|done].
    + intros q l a Hq Ha. transitivity (words s2 a).
      * apply Hw3. intros Hin. destruct Hq as [(x & o & Hx & Ho & _ & -> & ->)|(d & k & Hd & -> & ->)].
        -- pose proof (ho_pages _ _ Hheap) as Hp. rewrite Forall_forall in Hp.
           destruct (block_fits _ _ _ (Hp x Hx) Ho). apply Hbf.
           replace b with (h_frame x) by (unfold h_addr, frame_addr, PAGE_SIZE in *; lia). by apply list_elem_of_fmap_2.
        -- destruct (lo_big _ _ _ _ (bo_live _ _ _ _ Hb2) d k Hd) as [Hn _]. apply not_elem_of_cons in Hn as [Hn _].
           destruct (live_apart _ _ _ _ d k b 1 (bo_live _ _ _ _ Hb2) (or_introl Hd)) as [?|?];
             [right; split; [done|by left]|done|unfold frame_addr, PAGE_SIZE in *; lia..].
      * destruct (Htrans s2 Hs2) as (_ & _ & _ & ->). done.
    + intros u Hu. destruct Hs3 as [-> _]. apply Hroom2. by rewrite Hr1.
Qed.

Lemma pages_length s pages big : kheap_inv s pages big -> (length pages < FUEL)%nat.
Proof.
  intros [_ [Hnd Hroots _] _]. pose proof (used_length _ _ Hroots Hnd) as Hl. by rewrite length_fmap in Hl.
Qed.

Lemma subpage_kmalloc_spec s pages big sz :
  kheap_inv s pages big -> room 1 (kheaproots s) -> sz < LARGEST_SUBPAGE_SIZE ->
  wp (subpage_kmalloc sz) (got_block s pages big sz) s.
Proof.
  intros Hinv Hroom Hsz. destruct (blocktype_loop_spec sz Hsz) as (t & Ht & Eb & Hle).
  pose proof Hinv as [Hheap Hbase Hused]. unfold subpage_kmalloc, blocktype. rewrite Eb, wp_bind, wp_ret, wp_bind, wp_get.
  rewrite Nat2Z.id. destruct (lookup_lt_is_Some_2 (sizebases s) t) as [b Hb]; [by rewrite (ho_len _ _ Hheap)|].
  rewrite wp_bind, (wp_deref _ b) by done. rewrite wp_bind.
  set (l := filter (fun h => h_type h = t) pages).
  assert (Hin : forall h, h ∈ l -> h_type h = t /\ h ∈ pages) by (intros h; unfold l; by rewrite list_elem_of_filter).
  pose proof (ho_pages _ _ Hheap) as Hok. rewrite Forall_forall in Hok.
  eapply wp_mono; [|apply (find_page_spec s l); [by apply (ho_same _ _ Hheap)|apply Forall_forall..|]].
  2: { intros h Hh. by apply Hok, Hin. }
  2: { intros h Hh. by apply Hin. }
  2: { eapply Nat.le_lt_trans; [apply length_filter|by eapply pages_length]. }
  cbv beta. intros pr s' (-> & [->|(h & Hh & -> & Hp & Hfree)]); [by apply new_page_spec|].
  destruct (Z.eqb_spec (h_ref h) 0) as [|_]; [done|]. cbn [negb]. destruct (Hin h Hh) as [Et Hhp].
  apply list_elem_of_split in Hhp as (l1 & l2 & ->). destruct (h_free h) as [|o free] eqn:Ef; [done|].
  apply pages_split in Hused as [Hu Hused].
  apply (take_block s s (l1 ++ h :: l2) l1 h o free l2); try done.
  - by apply Forall_forall.
  - unfold in_use in Hu. rewrite Ef in Hu. cbn [length] in Hu. lia.
  - unfold h_size. by rewrite Et.
Qed.

Lemma kmalloc_spec s pages big sz :
  kheap_inv s pages big -> room 1 (kheaproots s) -> 0 <= sz <= 2 ^ 31 - PAGE_SIZE -> wp (kmalloc sz) (got_block s pages big sz) s.
Proof.
  intros Hinv Hroom Hsz. unfold kmalloc. destruct (Z.leb_spec LARGEST_SUBPAGE_SIZE sz) as [Hl|Hl];
    [|by apply subpage_kmalloc_spec].
  unfold LARGEST_SUBPAGE_SIZE in Hl. pose proof Hinv as [Hheap Hbase Hused].
  unfold PAGE_SIZE in *. rewrite u32_small by lia. set (np := (sz + 4096 - 1) / 4096).
  assert (Hnp : 1 <= np < 2 ^ 19 /\ sz <= np * 4096).
  { unfold np. pose proof (Z.div_mod (sz + 4096 - 1) 4096). pose proof (Z.mod_pos_bound (sz + 4096 - 1) 4096). lia. }
  rewrite wp_bind. eapply wp_mono; [|apply (base_alloc_big s _ _ big np Hbase); lia]. cbv beta.
  intros r s' (Hs & Hr & [(-> & Hb)|(b & -> & Hnone & Hb)]).
  - rewrite Z.eqb_refl, wp_ret. exists pages, big. split; [split; [by eapply heap_same|done|done]|].
    split; [|left; split; [done|]; split; [intros n; rewrite Hr; apply room_less|done]]. intros q l a _ _. by destruct Hs as (_ & _ & _ & ->).
  - assert (Hnew : <[b := np]> big !! b = Some np) by (by rewrite lookup_insert_eq).
    pose proof (live_bound _ _ _ _ b np (bo_live _ _ _ _ Hb) (or_introl Hnew)) as Hbb.
    destruct (Z.eqb_spec (frame_addr b) 0) as [E|_]; [by apply frame_addr_pos in E; [|lia]|].
    rewrite wp_bind, wp_KASSERT. split; [apply frame_addr_aligned|]. rewrite wp_ret.
    assert (Hinv' : kheap_inv s' pages (<[b := np]> big)) by (split; [by eapply heap_same|done|done]).
    exists pages, (<[b := np]> big). split; [done|]. split; [intros q l a _ _; by destruct Hs as (_ & _ & _ & ->)|].
    right. exists (np * PAGE_SIZE).
    assert (Hal : forall q l, allocated pages (<[b := np]> big) q l <->
              (q = frame_addr b /\ l = np * PAGE_SIZE) \/ allocated pages big q l).
    { intros q l. unfold allocated. split.
      - intros [Hsm|(b' & n' & [[<- <-]|[_ Hb']]%lookup_insert_Some & -> & ->)]; [tauto|by left|].
        right; right. by exists b', n'.
      - intros [[-> ->]|[Hsm|(b' & n' & Hb' & -> & ->)]]; [right; by exists b, np|by left|].
        right. exists b', n'. rewrite lookup_insert_ne; [done|congruence]. }
    split_and!; [apply frame_addr_pos; lia|unfold PAGE_SIZE; lia| |by rewrite Hr| |done].
    + rewrite frame_addr_shift. replace ((2 ^ 19 + b) * 2 ^ 12) with ((2 ^ 19 + b) * 256 * 16) by lia.
      apply Z.mod_mul. lia.
    + intros q l Hq. destruct (blocks_apart s' _ pages _ q l (frame_addr b) (np * PAGE_SIZE) (ki_heap _ _ _ Hinv') (ki_base _ _ _ Hinv')) as [[-> ->]|?]; [| | |done].
      * apply allocated_block, Hal. by right.
      * apply allocated_block, Hal. by left.
      * exfalso. destruct Hq as [(h & o & Hh & [Ho _] & _ & E & _)|(b' & n' & Hb' & E%frame_addr_inj & _)]; [|congruence].
        destruct (lo_big _ _ _ _ (bo_live _ _ _ _ Hb) b np Hnew) as [Hn _]. apply Hn.
        replace b with (h_frame h) by (unfold h_addr, frame_addr, PAGE_SIZE in *; lia). by apply list_elem_of_fmap_2.
Qed.

(** ** [kfree] *)

Lemma fill_loop_spec s n a :
  wp (fill_loop n a) (fun _ s' => exists w, s' = set_words w s /\
    forall x, ~ (a <= x < a + 4 * Z.of_nat n) -> w x = words s x) s.
Proof.
  revert s a. induction n as [|n IH]; intros s a; cbn [fill_loop].
  - rewrite wp_ret. exists (words s). by destruct s.
  - unfold store_word. rewrite wp_bind, wp_modify. eapply wp_mono; [|apply IH]. cbv beta.
    intros _ s' (w & -> & Hw). exists w. split; [done|]. intros x Hx. rewrite Hw by lia. cbn. apply upd_ne. lia.
Qed.

Lemma find_owner_spec s l fuel b ptr :
  chain (fun p => next_all (refs s p)) b (h_ref <$> l) -> Forall (page_ok s) l -> (length l < fuel)%nat ->
  wp (find_owner fuel b ptr) (fun pr s' => s' = s /\
    ((pr = 0 /\ forall h, h ∈ l -> ~ (h_addr h <= ptr < h_addr h + PAGE_SIZE)) \/
     exists h, h ∈ l /\ pr = h_ref h /\ pr <> 0 /\ h_addr h <= ptr < h_addr h + PAGE_SIZE)) s.
Proof.
  revert b l. induction fuel as [|fuel IH]; intros b l Hc Hok Hf; [lia|]. cbn [find_owner].
  destruct l as [|h l]; cbn [fmap list_fmap chain] in Hc.
  - subst b. rewrite Z.eqb_refl, wp_ret. split; [done|]. left. split; [done|]. by intros h ?%elem_of_nil.
  - destruct Hc as (-> & Hp & Hc). apply Forall_cons in Hok as [Hh Hok]. cbn in Hf.
    destruct (Z.eqb_spec (h_ref h) 0) as [|_]; [done|]. rewrite wp_bind, wp_read_ref by done.
    destruct (page_parts _ _ Hh) as [-> ->]. pose proof (po_type _ _ Hh). rewrite wp_bind, wp_KASSERT.
    split; [unfold NSIZES; lia|].
    destruct (Z.leb_spec (h_addr h) ptr), (Z.ltb_spec ptr (h_addr h + PAGE_SIZE)); cbn [andb].
    1: { rewrite wp_ret. split; [done|]. right. exists h. split_and!; [by left|done..]. }
    all: (eapply wp_mono; [|apply (IH _ l); [done..|lia]]); cbv beta; intros pr s' (-> & [(-> & Hno)|(h' & ? & ?)]);
      (split; [done|]); [left|right; exists h'; (split; [by right|done])].
    all: split; [done|]; intros x [->|Hx]%elem_of_cons; [lia|by apply Hno].
Qed.

(** The last word of an offset's block and the other blocks. *)
Lemma link_block_spec s l1 h o l2 w :
  heap_ok s (l1 ++ h :: l2) -> h_ref h <> 0 -> block_off (h_size h) o -> o ∉ h_free h -> in_use h ->
  NoDup (h_frame <$> l1 ++ h :: l2) ->
  (forall a, ~ (h_addr h + o <= a < h_addr h + o + h_size h) -> w a = words s a) ->
  let h' := Hpage (h_ref h) (h_frame h) (h_type h) (o :: h_free h) in
  wp (link_block (h_ref h) (h_addr h) o (h_addr h + o)) (fun _ s' => same_base s s' /\
    heap_ok s' (l1 ++ h' :: l2) /\
    forall a, ~ (h_addr h + o <= a < h_addr h + o + h_size h) -> words s' a = words s a) (set_words w s).
Proof.
  intros Hheap Hp Hbo Hn Hu Hnd Hw h'. pose proof (ho_pages _ _ Hheap) as [Hok Hothers]%pages_split.
  destruct (page_size _ _ Hok) as (c & Hz & _ & Hc & Epz & Ec & _). pose proof (block_off_range _ _ Hbo) as Hro.
  pose proof (po_blocks _ _ Hok) as Hbl. pose proof (po_off _ _ Hok) as Eo. rewrite Forall_forall in Hbl.
  unfold link_block. rewrite wp_bind, wp_read_ref by done. cbn [refs set_words].
  rewrite wp_bind. apply (wp_mono _ (fun _ s1 => exists w', s1 = set_words w' s /\
    w' (h_addr h + o) = free_ptr (h_addr h) (h_free h) /\ forall a, a <> h_addr h + o -> w' a = w a)).
  - cbv beta. intros _ s1 (w' & -> & Ew & Hw'). rewrite wp_bind, wp_write_ref, wp_write_ref by done.
    cbn [refs set_refs set_words]. rewrite upd_eq. cbn [nfree set_freelist_offset].
    rewrite (po_nfree _ _ Hok), !u16_small by (unfold in_use in Hu; lia).
    assert (Hout : forall a, ~ (h_addr h + o <= a < h_addr h + o + h_size h) -> w' a = words s a)
      by (intros a Ha; rewrite Hw' by lia; by apply Hw).
    split; [done|]. split; [|done]. apply (heap_upd_page s _ l1 h h' l2 Hheap); try done; cbn.
    + intros p Hne. by rewrite !upd_ne.
    + by rewrite upd_eq.
    + by rewrite upd_eq.
    + intros x u Hx Hfree. apply Hout. assert (Hxp : x ∈ l1 ++ h :: l2) by set_solver.
      pose proof (free_in_page _ _ _ _ Hheap Hxp Hfree). destruct (block_fits _ _ _ Hok Hbo).
      rewrite <-Permutation_middle, fmap_cons in Hnd. apply NoDup_cons in Hnd as [Hnf _].
      assert (h_frame x <> h_frame h) by (intros E; apply Hnf; rewrite <-E; by apply list_elem_of_fmap_2).
      unfold h_addr, frame_addr, PAGE_SIZE in *. lia.
    + split; cbn; rewrite ?upd_eq; cbn; try apply Hok.
      * done.
      * lia.
      * change (h_addr h') with (h_addr h). split; [done|]. eapply free_chain_ext; [|apply (po_chain _ _ Hok)]. apply Forall_forall. intros u Hfree.
        symmetry. apply Hout. destruct (offs_apart (h_size h) c o u) as [_ [->|?]]; [lia|done|done|by apply Hbl|done|lia].
      * constructor; [done|apply (po_nodup _ _ Hok)].
      * constructor; [done|apply (po_blocks _ _ Hok)].
  - rewrite Eo. unfold store_word, load_word. destruct (h_free h) as [|u free] eqn:Ef; cbn [free_ptr].
    + rewrite Z.eqb_refl, wp_modify. eexists. split; [reflexivity|]. cbn. split; [apply upd_eq|]. intros a Ha. by apply upd_ne.
    + pose proof (Hbl u ltac:(by left)) as Hbu. pose proof (block_off_range _ _ Hbu).
      destruct (Z.eqb_spec u INVALID_OFFSET) as [E|_]; [unfold INVALID_OFFSET in E; lia|].
      rewrite wp_bind, wp_modify, wp_bind, wp_gets. cbn [words set_words]. rewrite upd_eq, wp_KASSERT. split.
      * apply negb_true_iff, Z.eqb_neq. apply not_elem_of_cons in Hn as [? _]. lia.
      * eexists. split; [reflexivity|]. split; [apply upd_eq|]. intros a Ha. by apply upd_ne.
Qed.

Lemma allocated_perm pages pages' big q l :
  pages ≡ₚ pages' -> allocated pages big q l <-> allocated pages' big q l.
Proof. intros E. unfold allocated. by setoid_rewrite E. Qed.

Lemma block_pos s used pages big p len :
  heap_ok s pages -> base_ok s used (h_frame <$> pages) big -> block pages big p len -> 0 < len.
Proof.
  intros Hheap [_ _ Hlive] [(h & o & Hh & _ & _ & ->)|(b & n & Hb & _ & ->)].
  - pose proof (ho_pages _ _ Hheap) as Hp. rewrite Forall_forall in Hp.
    destruct (page_size _ _ (Hp h Hh)) as (c & ? & _). lia.
  - destruct (live_bound _ _ _ _ b n Hlive (or_introl Hb)) as (_ & ? & _). unfold PAGE_SIZE. lia.
Qed.

(** One block given back to its page. *)
Lemma allocated_give s used l1 h o l2 big q l :
  let h' := Hpage (h_ref h) (h_frame h) (h_type h) (o :: h_free h) in
  heap_ok s (l1 ++ h' :: l2) -> base_ok s used (h_frame <$> l1 ++ h' :: l2) big ->
  allocated (l1 ++ h' :: l2) big q l <-> allocated (l1 ++ h :: l2) big q l /\ q <> h_addr h + o.
Proof.
  intros h' Hheap Hbase. pose proof (ho_pages _ _ Hheap) as [Hok _]%pages_split.
  pose proof (po_blocks _ _ Hok) as [Hbo _]%Forall_cons. pose proof (po_nodup _ _ Hok) as Hnd.
  assert (Ht := allocated_take l1 h' o (h_free h) l2 big q l eq_refl Hnd Hbo).
  replace (Hpage (h_ref h') (h_frame h') (h_type h') (h_free h)) with h in Ht by (by destruct h).
  rewrite Ht. split.
  - intros Hal. split; [by right|]. intros ->.
    assert (Hb' : block (l1 ++ h' :: l2) big (h_addr h + o) (h_size h)).
    { left. exists h', o. split_and!; [set_solver|done..]. }
    pose proof (block_pos _ _ _ _ _ _ Hheap Hbase (allocated_block _ _ _ _ Hal)).
    pose proof (block_pos _ _ _ _ _ _ Hheap Hbase Hb').
    destruct (blocks_apart _ _ _ _ _ _ _ _ Hheap Hbase (allocated_block _ _ _ _ Hal) Hb') as [[_ ->]|?]; [|lia].
    eapply (free_not_allocated s _ _ _ h' o Hheap Hbase) in Hal; [done|set_solver|by left].
  - intros [[[-> _]|?] Hne]; [by destruct Hne|done].
Qed.

(** A page with as many free blocks as blocks. *)
Lemma all_free s h :
  page_ok s h -> ~ in_use h -> forall o, block_off (h_size h) o -> o ∈ h_free h.
Proof.
  intros Hok Hu o Ho. destruct (page_size _ _ Hok) as (c & Hz & _ & Hc & Epz & Ec & _).
  unfold in_use in Hu. rewrite Ec in Hu. set (all := down (Z.to_nat c) (h_size h)).
  assert (Hin : forall x, block_off (h_size h) x -> x ∈ all).
  { intros x [Hx Hm]. apply elem_of_down. exists (x / h_size h). pose proof (Z.div_mod x (h_size h)). nia. }
  assert (h_free h ≡ₚ all) as ->; [|by apply Hin].
  apply submseteq_length_Permutation.
  - apply NoDup_submseteq; [apply (po_nodup _ _ Hok)|]. intros x Hx. apply Hin.
    pose proof (po_blocks _ _ Hok) as Hb. rewrite Forall_forall in Hb. by apply Hb.
  - unfold all. rewrite down_length. lia.
Qed.

(** What giving back the block at [p] achieves. *)
Definition gave_back s pages big (p : Z) s' : Prop :=
  exists pages' big', kheap_inv s' pages' big' /\ (forall n, room n (kheaproots s) -> room n (kheaproots s')) /\
    (forall q l, allocated pages' big' q l <-> allocated pages big q l /\ q <> p) /\
    (forall q l a, allocated pages big q l -> q <> p -> q <= a < q + l -> words s' a = words s a).

(** The page [h], whose blocks are all free now, is given back. *)
Lemma release_page s l1 h l2 big :
  heap_ok s (l1 ++ h :: l2) -> base_ok s (h_ref <$> l1 ++ h :: l2) (h_frame <$> l1 ++ h :: l2) big ->
  Forall in_use (l1 ++ l2) ->
  wp (remove_lists (h_ref h) (Z.of_nat (h_type h));; freepageref (h_ref h);;
      zoom world_lens (free_kpages (h_addr h)))
    (fun _ s' => kheap_inv s' (l1 ++ l2) big /\ words s' = words s /\
      (forall n, room n (kheaproots s) -> room n (kheaproots s'))) s.
Proof.
  intros Hheap Hbase Hused.
  assert (Hfuel : (length (l1 ++ h :: l2) < FUEL)%nat).
  { destruct Hbase as [Hnd Hroots _]. pose proof (used_length _ _ Hroots Hnd) as Hl. by rewrite length_fmap in Hl. }
  rewrite wp_bind. eapply wp_mono; [|by apply remove_lists_spec]. cbv beta. intros _ s1 (Hheap1 & Hs1 & Hw1).
  apply (base_same s s1) in Hbase; [|done].
  apply (base_perm _ _ (h_ref h :: (h_ref <$> l1 ++ l2)) _ (h_frame h :: (h_frame <$> l1 ++ l2))) in Hbase;
    [|by rewrite <-Permutation_middle, fmap_cons..].
  rewrite wp_bind. eapply wp_mono; [|by apply freepageref_spec]. cbv beta. intros _ s2 (Hs2 & Hb2 & Hr2).
  eapply wp_mono; [|by apply base_free_frame]. cbv beta. intros _ s3 (Hs3 & Hr3 & Hb3).
  split; [split; [|done|done]|].
  - eapply heap_same; [exact Hs3|]. by eapply heap_same.
  - split; [unfold same_heap in *; naive_solver congruence|]. intros n Hroom. rewrite Hr3. apply Hr2.
    by destruct Hs1 as [-> _].
Qed.

(** The page of the heap that an address lies in. *)
Lemma find_owner_in s pages big h ptr :
  kheap_inv s pages big -> h ∈ pages -> h_addr h <= ptr < h_addr h + PAGE_SIZE ->
  wp (find_owner FUEL (allbase s) ptr) (fun pr s' => s' = s /\ pr = h_ref h /\ pr <> 0) s.
Proof.
  intros Hinv Hh Hin. pose proof Hinv as [Hheap [_ _ Hlive] _].
  eapply wp_mono; [|apply (find_owner_spec s pages); [apply (ho_all _ _ Hheap)|apply (ho_pages _ _ Hheap)|by eapply pages_length]].
  cbv beta. intros pr s' (-> & [(_ & Hno)|(x & Hx & -> & Hp & Hxin)]); [by destruct (Hno h Hh)|].
  assert (x = h) as ->; [|done]. apply (fmap_inj h_frame pages); [apply (lo_nodup _ _ _ _ Hlive)|done..|].
  unfold h_addr, frame_addr, PAGE_SIZE in *. lia.
Qed.

Lemma subpage_kfree_spec s pages big h o :
  kheap_inv s pages big -> h ∈ pages -> block_off (h_size h) o -> o ∉ h_free h ->
  wp (subpage_kfree (h_addr h + o)) (fun r s' => r = 0 /\ gave_back s pages big (h_addr h + o) s') s.
Proof.
  intros Hinv Hh Hbo Hn. pose proof Hinv as [Hheap Hbase Hused]. pose proof (block_off_range _ _ Hbo) as Hro.
  unfold subpage_kfree. rewrite wp_bind, wp_get, wp_bind.
  eapply wp_mono; [|apply (find_owner_in s pages big h); [done..|unfold PAGE_SIZE; lia]]. cbv beta.
  intros pr s' (-> & -> & Hp). destruct (Z.eqb_spec (h_ref h) 0) as [|_]; [done|].
  apply list_elem_of_split in Hh as (l1 & l2 & ->). pose proof (ho_pages _ _ Hheap) as [Hok _]%pages_split.
  destruct (page_size _ _ Hok) as (c & Hz & _ & Hc & Epz & Ec & Esz). destruct (page_parts _ _ Hok) as [Epa Ept].
  rewrite wp_bind, wp_read_ref by done. rewrite Epa, Ept, Nat2Z.id, wp_bind, (wp_deref _ (h_size h)) by done.
  replace (h_addr h + o - h_addr h) with o by lia. destruct (Z.leb_spec PAGE_SIZE o); [unfold PAGE_SIZE in *; lia|].
  destruct Hbo as [Hbr Hm]. rewrite Hm. change (negb (0 =? 0)) with false. cbn [orb].
  apply pages_split in Hused as [Hu Hused].
  rewrite wp_bind. eapply wp_mono; [|apply fill_loop_spec]. cbv beta. intros _ s1 (w & -> & Hw).
  set (h' := Hpage (h_ref h) (h_frame h) (h_type h) (o :: h_free h)).
  rewrite wp_bind. eapply wp_mono; [|apply (link_block_spec s l1 h o l2 w); try done].
  2: { apply (lo_nodup _ _ _ _ (bo_live _ _ _ _ Hbase)). }
  2: { intros a Ha. apply Hw. rewrite Z2Nat.id by (apply Z.div_pos; lia).
       pose proof (Z.div_mod (h_size h) 4). pose proof (Z.mod_pos_bound (h_size h) 4). lia. }
  cbv beta. fold h'. intros _ s2 (Hsb & Hheap2 & Hw2).
  assert (Hbase2 : base_ok s2 (h_ref <$> l1 ++ h' :: l2) (h_frame <$> l1 ++ h' :: l2) big)
    by (apply (base_same s); [done|]; by rewrite !fmap_app, !fmap_cons in *).
  pose proof (ho_pages _ _ Hheap2) as [Hok2 _]%pages_split.
  rewrite wp_bind, wp_read_ref by done. change (h_ref h) with (h_ref h'). rewrite (po_nfree _ _ Hok2), Ec.
  unfold in_use in Hu. rewrite Ec in Hu. cbn [h' h_free length]. rewrite wp_bind, wp_KASSERT. split; [apply Z.leb_le; lia|].
  assert (Hword : forall q l a, allocated (l1 ++ h :: l2) big q l -> q <> h_addr h + o -> q <= a < q + l -> words s2 a = words s a).
  { intros q l a Hq Hne Ha. apply Hw2. assert (Hb : block (l1 ++ h :: l2) big (h_addr h + o) (h_size h))
      by (left; exists h, o; split_and!; [set_solver|done..]).
    destruct (blocks_apart _ _ _ _ _ _ _ _ Hheap Hbase (allocated_block _ _ _ _ Hq) Hb) as [[? _]|?]; [done|lia]. }
  assert (Hal : forall q l, allocated (l1 ++ h' :: l2) big q l <-> allocated (l1 ++ h :: l2) big q l /\ q <> h_addr h + o)
    by (intros q l; by eapply allocated_give).
  assert (Hroom : forall n, room n (kheaproots s) -> room n (kheaproots s2)) by (by destruct Hsb as [-> _]).
  rewrite wp_bind. destruct (Z.eqb_spec (Z.of_nat (S (length (h_free h)))) c) as [E|E].
  - change (h_ref h) with (h_ref h'). change (h_type h) with (h_type h'). change (h_addr h) with (h_addr h').
    eapply wp_mono; [|apply (release_page s2 l1 h' l2 big); try done; by apply Forall_forall].
    cbv beta. intros _ s3 (Hinv3 & Hw3 & Hr3). rewrite wp_ret. split; [done|]. exists (l1 ++ l2), big.
    split_and!; [done|auto| |intros q l a Hq Hne Ha; rewrite Hw3; by apply (Hword q l)].
    intros q l. etrans; [|apply Hal]. rewrite (allocated_perm (l1 ++ h' :: l2) (h' :: l1 ++ l2)) by (by rewrite Permutation_middle).
    symmetry. apply allocated_idle. apply (all_free s2); [done|]. unfold in_use. cbn [h' h_free length].
    change (h_size h') with (h_size h). rewrite Ec. lia.
  - rewrite !wp_ret. split; [done|]. exists (l1 ++ h' :: l2), big. split_and!; [split; [done|done|]|done|done|done].
    apply pages_split. split; [|done]. unfold in_use. cbn [h' h_free length]. change (h_size h') with (h_size h). rewrite Ec. lia.
Qed.

Lemma kfree_spec s pages big p len :
  kheap_inv s pages big -> allocated pages big p len ->
  wp (kfree p) (fun _ s' => gave_back s pages big p s') s.
Proof.
  intros Hinv [(h & o & Hh & Hbo & Hn & -> & ->)|(b & n & Hb & -> & ->)].
  - pose proof Hinv as [Hheap _ _]. pose proof (ho_pages _ _ Hheap) as Hp. rewrite Forall_forall in Hp.
    pose proof (frame_range _ (po_frame _ _ (Hp h Hh))). pose proof (block_off_range _ _ Hbo).
    unfold kfree. destruct (Z.eqb_spec (h_addr h + o) 0); [unfold h_addr in *; lia|]. rewrite wp_bind.
    eapply wp_mono; [|by apply subpage_kfree_spec]. cbv beta. intros r s' (-> & Hg). done.
  - pose proof Hinv as [Hheap Hbase Hused].
    pose proof (live_bound _ _ _ _ b n (bo_live _ _ _ _ Hbase) (or_introl Hb)) as Hbb.
    unfold kfree. destruct (Z.eqb_spec (frame_addr b) 0) as [E|_]; [by apply frame_addr_pos in E; [|lia]|].
    unfold subpage_kfree. rewrite !wp_bind, wp_get, wp_bind.
    eapply wp_mono; [|apply (find_owner_spec s pages); [apply (ho_all _ _ Hheap)|apply (ho_pages _ _ Hheap)|by eapply pages_length]].
    cbv beta. intros pr s' (-> & [(-> & _)|(h & Hh & _ & _ & Hin)]).
    + rewrite Z.eqb_refl, wp_ret. change (negb (-1 =? 0)) with true. cbv iota. rewrite wp_bind, wp_KASSERT.
      split; [apply frame_addr_aligned|]. eapply wp_mono; [|by eapply base_free_big]. cbv beta.
      intros _ s' (Hs & Hr & Hb'). exists pages, (delete b big).
      split_and!; [split; [by eapply heap_same|done|done]|by rewrite Hr| |by destruct Hs as (_ & _ & _ & ->)].
      intros q l. unfold allocated. destruct (lo_big _ _ _ _ (bo_live _ _ _ _ Hbase) b n Hb) as [Hnf _]. split.
      * intros [(h & o & Hh & [Ho Hm] & Hn & -> & ->)|(b' & n' & [Hne Hb'']%lookup_delete_Some & -> & ->)].
        -- split; [left; by exists h, o|]. intros E. apply Hnf.
           replace b with (h_frame h) by (unfold h_addr, frame_addr, PAGE_SIZE in *; lia). by apply list_elem_of_fmap_2.
        -- split; [right; by exists b', n'|]. intros E%frame_addr_inj. done.
      * intros [[Hs'|(b' & n' & Hb'' & -> & ->)] Hne]; [by left|right]. exists b', n'.
        rewrite lookup_delete_ne; [done|]. by intros ->.
    + exfalso. destruct (lo_big _ _ _ _ (bo_live _ _ _ _ Hbase) b n Hb) as [Hnf _]. apply Hnf.
      replace b with (h_frame h) by (unfold h_addr, frame_addr, PAGE_SIZE in *; lia). by apply list_elem_of_fmap_2.
Qed.

(** An address in a page of the heap that is not the start of a block. *)
Lemma kfree_misplaced s pages big h o :
  kheap_inv s pages big -> h ∈ pages -> 0 <= o < PAGE_SIZE -> o mod h_size h <> 0 ->
  kfree (h_addr h + o) s = Panic "kfree: subpage free of invalid addr".
Proof.
  intros Hinv Hh Ho Hm. pose proof Hinv as [Hheap _ _]. pose proof (ho_pages _ _ Hheap) as Hp. rewrite Forall_forall in Hp.
  pose proof (Hp h Hh) as Hok. pose proof (frame_range _ (po_frame _ _ Hok)).
  destruct (page_size _ _ Hok) as (c & _ & _ & _ & _ & _ & Esz). destruct (page_parts _ _ Hok) as [Epa Ept].
  assert (Hf := find_owner_in s pages big h (h_addr h + o) Hinv Hh ltac:(lia)). apply wp_returns in Hf.
  destruct Hf as (pr & s' & E & -> & -> & Hp0). unfold kfree.
  destruct (Z.eqb_spec (h_addr h + o) 0); [unfold h_addr in *; lia|].
  assert (Esub : subpage_kfree (h_addr h + o) s = Panic "kfree: subpage free of invalid addr").
  { unfold subpage_kfree. rewrite (bind_eq get _ _ s s) by done. run E.
    destruct (Z.eqb_spec (h_ref h) 0) as [|_]; [done|]. run (read_ref_eq s _ Hp0). rewrite Epa, Ept, Nat2Z.id, Esz.
    cbn [deref]. rewrite bind_ret_l. replace (h_addr h + o - h_addr h) with o by lia.
    destruct (Z.eqb_spec (o mod h_size h) 0); [done|]. cbn [negb]. by rewrite orb_true_r. }
  unfold mbind, K_bind. by rewrite Esub.
Qed.

(** C37. [kmalloc], for one call at a time, under two conditions.  The size is at most
    2^31 - 4096: the number of pages is computed with 32 bits, so a size above 2^32 - 4096
    asks for no page at all and is answered by a frame that stays free
    ([kmalloc_of_no_page]).  And a page reference can still be marked where the page for it
    is missing ([room 1]): each failure to get such a page uses up one of 256 marks for
    good, and after the last of them [kfree] can panic ([failures_break_kfree]).

    On a well-formed heap such a request is answered by NULL, with the same blocks allocated
    as before, or by a block that is at least as long, aligned to 16 bytes and apart from
    every allocated block; then exactly this block is new.  The heap stays well-formed, no
    assertion fails, and the contents of the allocated blocks are untouched.  A NULL
    uses up at most one of the marks, an answer that is a block uses up none, and the heap at
    the start has 255 ([heap0_room]); so the second condition holds through 255 NULLs. *)
Theorem kmalloc_correct s pages big sz :
  kheap_inv s pages big -> room 1 (kheaproots s) -> 0 <= sz <= 2 ^ 31 - PAGE_SIZE ->
  wp (kmalloc sz) (fun p s' => exists pages' big', kheap_inv s' pages' big' /\
    (forall q l a, allocated pages big q l -> q <= a < q + l -> words s' a = words s a) /\
    ((p = 0 /\ (forall n, room (n + 1) (kheaproots s) -> room n (kheaproots s')) /\
       forall q l, allocated pages' big' q l <-> allocated pages big q l) \/
     (exists len, p <> 0 /\ sz <= len /\ p mod 16 = 0 /\ (forall n, room n (kheaproots s) -> room n (kheaproots s')) /\
       (forall q l, allocated pages big q l -> q + l <= p \/ p + len <= q) /\
       forall q l, allocated pages' big' q l <-> (q = p /\ l = len) \/ allocated pages big q l))) s.
Proof. exact (kmalloc_spec s pages big sz). Qed.

(** C38. [kfree].  Giving back an allocated block returns, keeps the heap well-formed
    (a page whose last block is given back leaves the heap), and frees this block and
    no other; the contents of the others are untouched.  NULL is ignored; an
    address inside a page of the heap that is not the start of a block is a panic. *)
Theorem kfree_correct s pages big :
  kheap_inv s pages big ->
  (forall p len, allocated pages big p len -> wp (kfree p) (fun _ s' => exists pages' big',
    kheap_inv s' pages' big' /\ (forall n, room n (kheaproots s) -> room n (kheaproots s')) /\
    (forall q l, allocated pages' big' q l <-> allocated pages big q l /\ q <> p) /\
    (forall q l a, allocated pages big q l -> q <> p -> q <= a < q + l -> words s' a = words s a)) s) /\
  kfree 0 s = Ret tt s /\
  (forall h o, h ∈ pages -> 0 <= o < PAGE_SIZE -> o mod h_size h <> 0 ->
    kfree (h_addr h + o) s = Panic "kfree: subpage free of invalid addr").
Proof.
  intros Hinv. split_and!; [|done|].
  - intros p len Hal. by eapply kfree_spec.
  - intros h o. by apply (kfree_misplaced s pages big).
Qed.
End Kmalloc_facts.

Section Kmalloc_witnesses.
Import Frames (PAGE_SIZE, MIPS_KSEG0).
Import Kmalloc.

(** The heap at the start, over sixteen frames of which two are a block of a client. *)
Definition no_root : kheap_root := Root 0 (replicate 8 0) 0.
Definition heap0 : kheap Frames.vm :=
  Kheap (replicate 16 no_root) (replicate 8 0) 0 (fun _ => Pageref 0 0 0 0 0) (fun _ => 0) sample.

Lemma no_root_frame b : ~ is_root_frame (replicate 16 no_root) b.
Proof. intros (k & r & [-> _]%lookup_replicate & Hp & _). by apply Hp. Qed.

Lemma heap0_inv : kheap_inv heap0 [] {[4 := 2]}.
Proof.
  split; [| |constructor].
  - split; [done|done| |constructor|constructor]. by intros t b [-> _]%lookup_replicate.
  - split; [constructor| |].
    + split; cbn [kheaproots heap0]; [done|..].
      * apply Forall_replicate. split; try done. by apply Forall_replicate.
      * intros j k rj rk _ [-> _]%lookup_replicate _ Hn. done.
      * intros j k rj rk [-> _]%lookup_replicate _ _ Hp. by destruct Hp.
      * by intros p ?%elem_of_nil.
    + split; cbn [world heap0 fmap list_fmap kheaproots].
      * exists {[4 := 2]}. split; [split; [apply frames_sample_inv|done]|]. intros b n. split; [by left|].
        intros [?|(_ & [Hb%elem_of_nil|Hb])]; [done|done|]. by apply no_root_frame in Hb.
      * constructor.
      * by intros b ?%elem_of_nil.
      * intros b n _. split; [apply not_elem_of_nil|apply no_root_frame].
Qed.

Lemma heap0_room : room 255 (kheaproots heap0).
Proof. by intros r [-> _]%elem_of_replicate _. Qed.
Lemma heap0_room1 : room 1 (kheaproots heap0).
Proof. by intros r [-> _]%elem_of_replicate _. Qed.

(** The first small block takes the two free frames 6 and 7: one for the page of blocks
    of 32 bytes, one for its page reference. *)
Lemma kmalloc_correct_witness :
  wp (kmalloc 20) (fun p s' => p = 0x80006000 + 127 * 32) heap0 /\
  wp (kmalloc 20) (got_block heap0 [] {[4 := 2]} 20) heap0.
Proof.
  split; [vm_compute; reflexivity|].
  apply (kmalloc_correct heap0 [] {[4 := 2]} 20 heap0_inv heap0_room1). vm_compute. split; discriminate.
Defined.

Lemma kfree_correct_witness :
  wp (kfree 0x80004000) (fun _ s' => gave_back heap0 [] {[4 := 2]} 0x80004000 s') heap0.
Proof.
  destruct (kfree_correct heap0 [] {[4 := 2]} heap0_inv) as [Hk _].
  apply (Hk 0x80004000 8192). right. exists 4, 2. split_and!; reflexivity.
Defined.

(** [n] requests, one after the other. *)
Fixpoint kmallocs (n : nat) (sz : Z) : K (kheap Frames.vm) () :=
  match n with O => mret tt | S n => kmalloc sz;; kmallocs n sz end.

(** A request for almost 4 GB is answered by a block, and so is the next request, by the
    same block. *)
Example kmalloc_of_no_page :
  wp (p ← kmalloc (2 ^ 32 - 1); q ← kmalloc 4096; mret (p, q)) (fun r _ => r.1 = 0x80006000 /\ r.2 = 0x80006000) heap0.
Proof. vm_compute. split; reflexivity. Qed.

(** With one frame left, a small request fails for want of a page for the page
    references.  After 256 such failures the first root has no mark left and no page; a
    block allocated later, from the second root, can not be given back. *)
Example failures_break_kfree :
  (p ← kmalloc 4096; kmallocs 8 4096;; kmallocs 256 20;; kfree p;; q ← kmalloc 20; kfree q) heap0 =
    Panic "root->numinuse == 0" /\
  wp (p ← kmalloc 4096; kmallocs 8 4096;; kmallocs 255 20;; kfree p;; q ← kmalloc 20; kfree q)
    (fun _ s' => allbase s' = 0) heap0.
Proof. vm_compute. split; reflexivity. Qed.

(** Every block taken is given back: the heap is empty again and the page is free. *)
Example kmalloc_kfree_roundtrip :
  wp (p ← kmalloc 20; q ← kmalloc 2000; kfree p;; r ← kmalloc 3000; kfree q;; kfree r) (fun _ s' =>
    allbase s' = 0 /\ sizebases s' = replicate 8 0) heap0.
Proof. vm_compute. split; reflexivity. Qed.
End Kmalloc_witnesses.
