(* ===== verification/Addrspace.v ===== *)
(** * Address spaces: the rest of [kern/arch/mips/vm/dumbvm.c]

    An address space is two regions and a stack, each a run of virtual pages
    mapped to a run of contiguous frames.  The file models how one is described,
    given memory, copied and destroyed, and the page-fault handler that fills the
    TLB from it.  The three mapped runs are live blocks of the frame allocator
    ([owns]). *)
From S2P Require Import Prelude Frames.
Import Frames.

Module Addrspace.
Record addrspace := As {
  as_vbase1 : Z; as_pbase1 : Z; as_npages1 : Z;
  as_vbase2 : Z; as_pbase2 : Z; as_npages2 : Z;
  as_stackpbase : Z }.

Definition DUMBVM_STACKPAGES : Z := 18.
Definition USERSTACK : Z := 0x80000000.
Definition VM_FAULT_READ : Z := 0.
Definition VM_FAULT_WRITE : Z := 1.
Definition VM_FAULT_READONLY : Z := 2.
Definition NUM_TLB : nat := 64.
Definition TLBLO_DIRTY : Z := 0x400.
Definition TLBLO_VALID : Z := 0x200.
Definition TLBHI_INVALID (i : Z) : Z := Z.shiftl (0x80000 + i) 12.
Definition TLBLO_INVALID : Z := 0.

(** [mem]: whether [kmalloc] succeeds. *)
Definition as_create (mem : bool) : K vm (option addrspace) :=
  mret (if mem then Some (As 0 0 0 0 0 0 0) else None).

Definition as_destroy (a : addrspace) : K vm () :=
  dumbvm_can_sleep;;
  freeppages (as_pbase1 a) (as_npages1 a);;
  freeppages (as_pbase2 a) (as_npages2 a);;
  freeppages (as_stackpbase a) DUMBVM_STACKPAGES;;
  mret tt.

(** [a] is the result of [proc_getas()]. *)
Definition as_activate (a : option addrspace) : K vm () :=
  match a with
  | None => mret tt
  | Some _ => modify (set_tlb ((fun i => (TLBHI_INVALID (Z.of_nat i), TLBLO_INVALID)) <$> seq 0 NUM_TLB))
  end.

Definition as_deactivate : K vm () := mret tt.

Definition as_define_region (a : addrspace) (vaddr sz : Z) : K vm (Z * addrspace) :=
  dumbvm_can_sleep;;
  let sz := u32 (sz + Z.land vaddr 0xfff) in
  let vaddr := Z.land vaddr PAGE_FRAME in
  let sz := Z.land (u32 (u32 (sz + PAGE_SIZE) - 1)) PAGE_FRAME in
  let npages := sz / PAGE_SIZE in
  if as_vbase1 a =? 0 then
    mret (0, As vaddr (as_pbase1 a) npages (as_vbase2 a) (as_pbase2 a) (as_npages2 a)
                (as_stackpbase a))
  else if as_vbase2 a =? 0 then
    mret (0, As (as_vbase1 a) (as_pbase1 a) (as_npages1 a) vaddr (as_pbase2 a) npages
                (as_stackpbase a))
  else mret (ENOSYS, a).

(** [bzero] and [memmove] on physical memory. *)
Definition bzero_mem (lo n : Z) (m : Z -> Z) : Z -> Z :=
  fun x => if (lo <=? x) && (x <? lo + n) then 0 else m x.
Definition memmove_mem (dst src n : Z) (m : Z -> Z) : Z -> Z :=
  fun x => if (dst <=? x) && (x <? dst + n) then m (src + (x - dst)) else m x.

Definition as_zero_region (paddr npages : Z) : K vm () :=
  modify (fun s => set_mem (bzero_mem paddr (u32 (npages * PAGE_SIZE)) (mem s)) s).

Definition set_pbases (p1 p2 st : Z) (a : addrspace) : addrspace :=
  As (as_vbase1 a) p1 (as_npages1 a) (as_vbase2 a) p2 (as_npages2 a) st.

(** Result: error code, and the address space as it was updated in place. *)
Definition as_prepare_load (a : addrspace) : K vm (Z * addrspace) :=
  KASSERT (as_pbase1 a =? 0) "as->as_pbase1 == 0";;
  KASSERT (as_pbase2 a =? 0) "as->as_pbase2 == 0";;
  KASSERT (as_stackpbase a =? 0) "as->as_stackpbase == 0";;
  dumbvm_can_sleep;;
  p1 ← getppages (as_npages1 a);
  if p1 =? 0 then mret (ENOMEM, set_pbases p1 0 0 a) else
  p2 ← getppages (as_npages2 a);
  if p2 =? 0 then mret (ENOMEM, set_pbases p1 p2 0 a) else
  st ← getppages DUMBVM_STACKPAGES;
  if st =? 0 then mret (ENOMEM, set_pbases p1 p2 st a) else
  as_zero_region p1 (as_npages1 a);;
  as_zero_region p2 (as_npages2 a);;
  as_zero_region st DUMBVM_STACKPAGES;;
  mret (0, set_pbases p1 p2 st a).

Definition as_complete_load (a : addrspace) : K vm Z :=
  dumbvm_can_sleep;; mret 0.

Definition as_define_stack (a : addrspace) : K vm (Z * Z) :=
  KASSERT (negb (as_stackpbase a =? 0)) "as->as_stackpbase != 0";;
  mret (0, USERSTACK).

Definition memmove_pages (dst src npages : Z) : K vm () :=
  modify (fun s => set_mem (memmove_mem dst src (u32 (npages * PAGE_SIZE)) (mem s)) s).

(** Result: error code and [*ret]. *)
Definition as_copy (mem : bool) (old : addrspace) : K vm (Z * option addrspace) :=
  dumbvm_can_sleep;;
  new ← as_create mem;
  match new with
  | None => mret (ENOMEM, None)
  | Some new =>
      let new := As (as_vbase1 old) (as_pbase1 new) (as_npages1 old)
                    (as_vbase2 old) (as_pbase2 new) (as_npages2 old) (as_stackpbase new) in
      '(result, new) ← as_prepare_load new;
      if negb (result =? 0) then
        as_destroy new;;
        mret (ENOMEM, None)
      else
      KASSERT (negb (as_pbase1 new =? 0)) "new->as_pbase1 != 0";;
      KASSERT (negb (as_pbase2 new =? 0)) "new->as_pbase2 != 0";;
      KASSERT (negb (as_stackpbase new =? 0)) "new->as_stackpbase != 0";;
      memmove_pages (as_pbase1 new) (as_pbase1 old) (as_npages1 old);;
      memmove_pages (as_pbase2 new) (as_pbase2 old) (as_npages2 old);;
      memmove_pages (as_stackpbase new) (as_stackpbase old) DUMBVM_STACKPAGES;;
      mret (0, Some new)
  end.

(** The frame address [vm_fault] computes for a page, or [None] for [EFAULT]. *)
Definition translate (a : addrspace) (faultaddress : Z) : option Z :=
  let vbase1 := as_vbase1 a in
  let vtop1 := u32 (vbase1 + as_npages1 a * PAGE_SIZE) in
  let vbase2 := as_vbase2 a in
  let vtop2 := u32 (vbase2 + as_npages2 a * PAGE_SIZE) in
  let stackbase := USERSTACK - DUMBVM_STACKPAGES * PAGE_SIZE in
  let stacktop := USERSTACK in
  if (vbase1 <=? faultaddress) && (faultaddress <? vtop1) then
    Some (u32 ((faultaddress - vbase1) + as_pbase1 a))
  else if (vbase2 <=? faultaddress) && (faultaddress <? vtop2) then
    Some (u32 ((faultaddress - vbase2) + as_pbase2 a))
  else if (stackbase <=? faultaddress) && (faultaddress <? stacktop) then
    Some (u32 ((faultaddress - stackbase) + as_stackpbase a))
  else None.

Definition aligned (x : Z) : bool := Z.land x PAGE_FRAME =? x.

(** The loop over the TLB; [n] is [NUM_TLB - i]. *)
Fixpoint tlb_insert (n i : nat) (ehi elo : Z) : K vm Z :=
  match n with
  | O => mret EFAULT
  | S n =>
      s ← get;
      '(_, lo) ← deref (tlb s !! i) "tlb_read";
      if negb (Z.land lo TLBLO_VALID =? 0) then tlb_insert n (S i) ehi elo else
      put (set_tlb (<[i := (ehi, elo)]> (tlb s)) s);;
      mret 0
  end.

(** [curproc] tells whether there is a current process, [a] is [proc_getas()]. *)
Definition vm_fault (curproc : bool) (a : option addrspace) (faulttype faultaddress : Z) : K vm Z :=
  let faultaddress := Z.land faultaddress PAGE_FRAME in
  if faulttype =? VM_FAULT_READONLY then panic "dumbvm: got VM_FAULT_READONLY" else
  if negb ((faulttype =? VM_FAULT_READ) || (faulttype =? VM_FAULT_WRITE)) then mret EINVAL else
  if negb curproc then mret EFAULT else
  match a with
  | None => mret EFAULT
  | Some a =>
      KASSERT (negb (as_vbase1 a =? 0)) "as->as_vbase1 != 0";;
      KASSERT (negb (as_pbase1 a =? 0)) "as->as_pbase1 != 0";;
      KASSERT (negb (as_npages1 a =? 0)) "as->as_npages1 != 0";;
      KASSERT (negb (as_vbase2 a =? 0)) "as->as_vbase2 != 0";;
      KASSERT (negb (as_pbase2 a =? 0)) "as->as_pbase2 != 0";;
      KASSERT (negb (as_npages2 a =? 0)) "as->as_npages2 != 0";;
      KASSERT (negb (as_stackpbase a =? 0)) "as->as_stackpbase != 0";;
      KASSERT (aligned (as_vbase1 a)) "(as->as_vbase1 & PAGE_FRAME) == as->as_vbase1";;
      KASSERT (aligned (as_pbase1 a)) "(as->as_pbase1 & PAGE_FRAME) == as->as_pbase1";;
      KASSERT (aligned (as_vbase2 a)) "(as->as_vbase2 & PAGE_FRAME) == as->as_vbase2";;
      KASSERT (aligned (as_pbase2 a)) "(as->as_pbase2 & PAGE_FRAME) == as->as_pbase2";;
      KASSERT (aligned (as_stackpbase a)) "(as->as_stackpbase & PAGE_FRAME) == as->as_stackpbase";;
      match translate a faultaddress with
      | None => mret EFAULT
      | Some paddr =>
          KASSERT (aligned paddr) "(paddr & PAGE_FRAME) == paddr";;
          tlb_insert NUM_TLB 0 faultaddress (Z.lor (Z.lor paddr TLBLO_DIRTY) TLBLO_VALID)
      end
  end.

(** ** Well-formedness *)

(** The address space maps three different live blocks, of the right lengths. *)
Definition owns (blocks : gmap Z Z) (a : addrspace) : Prop :=
  exists b1 b2 b3, as_pbase1 a = b1 * PAGE_SIZE /\ as_pbase2 a = b2 * PAGE_SIZE /\
    as_stackpbase a = b3 * PAGE_SIZE /\ b1 <> b2 /\ b1 <> b3 /\ b2 <> b3 /\
    blocks !! b1 = Some (as_npages1 a) /\ blocks !! b2 = Some (as_npages2 a) /\
    blocks !! b3 = Some DUMBVM_STACKPAGES.

(** The regions: page-aligned, not empty, below the stack, and not overlapping. *)
Definition regions_ok (a : addrspace) : Prop :=
  exists v1 v2, as_vbase1 a = v1 * PAGE_SIZE /\ as_vbase2 a = v2 * PAGE_SIZE /\
    1 <= v1 /\ 1 <= v2 /\ 1 <= as_npages1 a /\ 1 <= as_npages2 a /\
    (v1 + as_npages1 a <= v2 \/ v2 + as_npages2 a <= v1) /\
    v1 + as_npages1 a <= 2 ^ 19 - DUMBVM_STACKPAGES /\ v2 + as_npages2 a <= 2 ^ 19 - DUMBVM_STACKPAGES.
End Addrspace.

Section Addrspace_facts.
Import Addrspace.

Lemma aligned_page k : 0 <= k < 2 ^ 20 -> aligned (k * PAGE_SIZE) = true.
Proof.
  intros. unfold aligned, PAGE_SIZE. rewrite land_frame by lia. rewrite Z.div_mul by lia.
  apply Z.eqb_refl.
Qed.

(** [as_define_region] rounds a segment out to whole pages: the pages it records
    cover every byte of the segment, begin at the page of its first byte and leave
    less than a page over at its end.  The first free slot is used, and a third
    region is refused with [ENOSYS] and changes nothing. *)
Lemma as_define_region_spec s a vaddr sz :
  can_sleep s = true -> 0 <= vaddr < 2 ^ 32 -> 0 <= sz -> vaddr mod 4096 + sz + 4095 < 2 ^ 32 ->
  exists v n, v * PAGE_SIZE <= vaddr < (v + 1) * PAGE_SIZE /\
    vaddr + sz <= (v + n) * PAGE_SIZE < vaddr + sz + PAGE_SIZE /\
    as_define_region a vaddr sz s = Ret
      (if as_vbase1 a =? 0 then
         (0, As (v * PAGE_SIZE) (as_pbase1 a) n (as_vbase2 a) (as_pbase2 a) (as_npages2 a) (as_stackpbase a))
       else if as_vbase2 a =? 0 then
         (0, As (as_vbase1 a) (as_pbase1 a) (as_npages1 a) (v * PAGE_SIZE) (as_pbase2 a) n (as_stackpbase a))
       else (ENOSYS, a)) s.
Proof.
  intros Hs Hv Hsz Hover. pose proof (Z.div_mod vaddr 4096). pose proof (Z.mod_pos_bound vaddr 4096).
  exists (vaddr / 4096), ((vaddr mod 4096 + sz + 4095) / 4096).
  pose proof (Z.div_mod (vaddr mod 4096 + sz + 4095) 4096).
  pose proof (Z.mod_pos_bound (vaddr mod 4096 + sz + 4095) 4096).
  unfold PAGE_SIZE. split_and!; [lia..|].
  unfold as_define_region, dumbvm_can_sleep. kunfold. rewrite Hs. cbv zeta iota.
  rewrite land_offset by lia. unfold PAGE_SIZE. rewrite !(u32_small (sz + _)) by lia.
  replace (u32 (u32 (sz + vaddr mod 4096 + 4096) - 1)) with (vaddr mod 4096 + sz + 4095).
  2:{ unfold u32. rewrite Zminus_mod_idemp_l, (Z.mod_small (_ - 1)) by lia. lia. }
  rewrite !land_frame, Z.div_mul by lia. by repeat case_match.
Qed.

(** The frame of a virtual page, in unbounded arithmetic. *)
Definition frame_of (a : addrspace) (pg : Z) : option Z :=
  if decide (in_block pg (as_vbase1 a / PAGE_SIZE) (as_npages1 a))
  then Some (as_pbase1 a / PAGE_SIZE + (pg - as_vbase1 a / PAGE_SIZE))
  else if decide (in_block pg (as_vbase2 a / PAGE_SIZE) (as_npages2 a))
  then Some (as_pbase2 a / PAGE_SIZE + (pg - as_vbase2 a / PAGE_SIZE))
  else if decide (in_block pg (2 ^ 19 - DUMBVM_STACKPAGES) DUMBVM_STACKPAGES)
  then Some (as_stackpbase a / PAGE_SIZE + (pg - (2 ^ 19 - DUMBVM_STACKPAGES)))
  else None.

(** What the allocator's invariant says of an address space's blocks. *)
Lemma owns_bounds s blocks a :
  inv s blocks -> owns blocks a ->
  exists b1 b2 b3, as_pbase1 a = b1 * PAGE_SIZE /\ as_pbase2 a = b2 * PAGE_SIZE /\
    as_stackpbase a = b3 * PAGE_SIZE /\
    1 <= b1 /\ b1 + as_npages1 a <= 2 ^ 17 /\ 1 <= b2 /\ b2 + as_npages2 a <= 2 ^ 17 /\
    1 <= b3 /\ b3 + DUMBVM_STACKPAGES <= 2 ^ 17.
Proof.
  intros [_ Hr Hm _ _ Hblk _] (b1 & b2 & b3 & -> & -> & -> & _ & _ & _ & H1 & H2 & H3).
  apply Hblk in H1, H2, H3. exists b1, b2, b3. split_and!; try done; lia.
Qed.

Lemma translate_spec s blocks a pg :
  inv s blocks -> owns blocks a -> regions_ok a -> 0 <= pg < 2 ^ 20 ->
  translate a (pg * PAGE_SIZE) = (fun f => f * PAGE_SIZE) <$> frame_of a pg.
Proof.
  intros Hinv Ho (v1 & v2 & E1 & E2 & Hv1 & Hv2 & Hn1 & Hn2 & _ & Ht1 & Ht2) Hpg.
  destruct (owns_bounds _ _ _ Hinv Ho) as (b1 & b2 & b3 & P1 & P2 & P3 & ? & ? & ? & ? & ? & ?).
  unfold translate, frame_of, in_block, USERSTACK, DUMBVM_STACKPAGES, PAGE_SIZE in *.
  rewrite E1, E2, P1, P2, P3, !Z.div_mul by lia.
  rewrite !(u32_small (v1 * 4096 + _)), !(u32_small (v2 * 4096 + _)) by lia.
  destruct (Z.leb_spec (v1 * 4096) (pg * 4096)), (Z.ltb_spec (pg * 4096) (v1 * 4096 + as_npages1 a * 4096)),
    (Z.leb_spec (v2 * 4096) (pg * 4096)), (Z.ltb_spec (pg * 4096) (v2 * 4096 + as_npages2 a * 4096)),
    (Z.leb_spec (2147483648 - 18 * 4096) (pg * 4096)), (Z.ltb_spec (pg * 4096) 2147483648);
    cbn [andb]; repeat (case_decide; try lia); cbn; try done; f_equal; rewrite u32_small; lia.
Qed.

Lemma frame_of_block blocks a pg f :
  owns blocks a -> frame_of a pg = Some f ->
  exists b n, blocks !! b = Some n /\ in_block f b n /\
    (as_pbase1 a = b * PAGE_SIZE \/ as_pbase2 a = b * PAGE_SIZE \/ as_stackpbase a = b * PAGE_SIZE).
Proof.
  intros (b1 & b2 & b3 & P1 & P2 & P3 & _ & _ & _ & H1 & H2 & H3). unfold frame_of, in_block, PAGE_SIZE in *.
  rewrite P1, P2, P3, !Z.div_mul by lia. intros Hf. repeat case_decide; simplify_eq.
  - exists b1, (as_npages1 a). split_and!; try lia; auto.
  - exists b2, (as_npages2 a). split_and!; try lia; auto.
  - exists b3, DUMBVM_STACKPAGES. split_and!; try lia; auto.
Qed.

Lemma frame_of_inj s blocks a pg pg' f :
  inv s blocks -> owns blocks a -> frame_of a pg = Some f -> frame_of a pg' = Some f -> pg = pg'.
Proof.
  intros Hinv Ho Hf Hf'. destruct (decide (pg = pg')) as [|Hne]; [done|exfalso].
  pose proof (inv_disjoint _ _ Hinv) as Hdis.
  destruct Ho as (b1 & b2 & b3 & P1 & P2 & P3 & N12 & N13 & N23 & H1 & H2 & H3).
  unfold frame_of, in_block, PAGE_SIZE, DUMBVM_STACKPAGES in *.
  rewrite P1, P2, P3, !Z.div_mul in * by lia.
  assert (Hc : forall x y, x <> y ->
    forall n m, blocks !! x = Some n -> blocks !! y = Some m -> x <= f < x + n -> ~ (y <= f < y + m))
    by (intros x y Hxy n m Hx Hy Hfx Hfy; apply Hxy; by eapply (Hdis x n y m f)).
  repeat case_decide; simplify_eq; try lia; exfalso;
    first [ apply (Hc b1 b2 N12 _ _ H1 H2); lia | apply (Hc b1 b3 N13 _ _ H1 H3); lia
          | apply (Hc b2 b3 N23 _ _ H2 H3); lia ].
Qed.

(** Isolation: in one address space different pages are mapped to different
    frames, and two address spaces without a common block never map pages to the
    same frame. *)
Lemma translate_isolated s blocks a a' pg pg' p p' :
  inv s blocks -> owns blocks a -> owns blocks a' -> regions_ok a -> regions_ok a' ->
  0 <= pg < 2 ^ 20 -> 0 <= pg' < 2 ^ 20 ->
  translate a (pg * PAGE_SIZE) = Some p -> translate a' (pg' * PAGE_SIZE) = Some p' ->
  (exists f, p = f * PAGE_SIZE /\ owned blocks f) /\ (a = a' -> pg <> pg' -> p <> p') /\
  ({[as_pbase1 a; as_pbase2 a; as_stackpbase a]} ##
     ({[as_pbase1 a'; as_pbase2 a'; as_stackpbase a']} : gset Z) -> p <> p').
Proof.
  intros Hinv Ho Ho' Hr Hr' Hpg Hpg'.
  rewrite (translate_spec s blocks a pg), (translate_spec s blocks a' pg') by done.
  intros (f & Hf & ->)%fmap_Some (f' & Hf' & ->)%fmap_Some.
  destruct (frame_of_block _ _ _ _ Ho Hf) as (b & n & Hb & Hin & Hor).
  destruct (frame_of_block _ _ _ _ Ho' Hf') as (b' & n' & Hb' & Hin' & Hor').
  split; [|split].
  - exists f. split; [done|]. by exists b, n.
  - intros <- Hne E. assert (f = f') as <- by (unfold PAGE_SIZE in E; lia). apply Hne. by eapply frame_of_inj.
  - intros Hd E. assert (f = f') as <- by (unfold PAGE_SIZE in E; lia).
    pose proof (inv_disjoint _ _ Hinv _ _ _ _ _ Hb Hb' Hin Hin') as <-.
    apply (Hd (b * PAGE_SIZE)); rewrite !elem_of_union, !elem_of_singleton;
      naive_solver.
Qed.

(** ** Page faults *)

Definition tlb_free (s : vm) (i : nat) : Prop :=
  exists hi lo, tlb s !! i = Some (hi, lo) /\ Z.land lo TLBLO_VALID = 0.

Lemma tlb_insert_spec s n i hi lo :
  (i + n)%nat = length (tlb s) ->
  wp (tlb_insert n i hi lo) (fun r s' =>
    (r = 0 /\ exists j, (i <= j)%nat /\ tlb_free s j /\ (forall k, (i <= k < j)%nat -> ~ tlb_free s k) /\
       s' = set_tlb (<[j := (hi, lo)]> (tlb s)) s) \/
    (r = EFAULT /\ s' = s /\ forall k, (i <= k)%nat -> ~ tlb_free s k)) s.
Proof.
  revert i. induction n as [|n IH]; intros i Hn; cbn [tlb_insert].
  - wp_simpl. right. split_and!; [done..|]. intros k Hk (h & l & H & _).
    apply lookup_lt_Some in H. lia.
  - wp_simpl. destruct (lookup_lt_is_Some_2 (tlb s) i) as [[h l] Hi]; [lia|]. rewrite Hi. wp_simpl.
    destruct (Z.eqb_spec (Z.land l TLBLO_VALID) 0) as [E|E]; cbn [negb].
    + wp_simpl. left. split; [done|]. exists i. split_and!; [done|by exists h, l|lia|done].
    + assert (Hnf : ~ tlb_free s i) by (intros (h' & l' & ? & ?); congruence).
      eapply wp_mono; [|apply IH; lia]. cbv beta. intros r s'.
      intros [(-> & j & Hj & Hf & Hlt & ->)|(-> & -> & Hall)]; [left|right].
      * split; [done|]. exists j. split_and!; [lia|done| |done]. intros k Hk.
        destruct (decide (k = i)) as [->|]; [done|]. apply Hlt. lia.
      * split_and!; [done..|]. intros k Hk. destruct (decide (k = i)) as [->|]; [done|]. apply Hall. lia.
Qed.

Lemma tlb_entry f :
  Z.lor (Z.lor (f * PAGE_SIZE) TLBLO_DIRTY) TLBLO_VALID = f * PAGE_SIZE + 0x600.
Proof.
  rewrite <-Z.lor_assoc. change (Z.lor TLBLO_DIRTY TLBLO_VALID) with 0x600.
  change PAGE_SIZE with (2 ^ 12). apply lor_disjoint; lia.
Qed.

(** C34. A read or write fault at an address of the address space installs, in the
    first invalid TLB slot, the entry that maps its page to the page's frame,
    valid and writable, and changes nothing else; with no invalid slot, and
    outside the three segments, the result is [EFAULT].  No assertion fails. *)
Theorem vm_fault_correct s blocks a ft fa :
  inv s blocks -> owns blocks a -> regions_ok a -> length (tlb s) = NUM_TLB ->
  ft = VM_FAULT_READ \/ ft = VM_FAULT_WRITE -> 0 <= fa < 2 ^ 32 ->
  wp (vm_fault true (Some a) ft fa) (fun r s' =>
    match frame_of a (fa / PAGE_SIZE) with
    | Some f =>
        (r = 0 /\ owned blocks f /\ exists j, tlb_free s j /\ (forall k, (k < j)%nat -> ~ tlb_free s k) /\
           s' = set_tlb (<[j := (fa / PAGE_SIZE * PAGE_SIZE, f * PAGE_SIZE + 0x600)]> (tlb s)) s) \/
        (r = EFAULT /\ s' = s /\ forall k, ~ tlb_free s k)
    | None => r = EFAULT /\ s' = s
    end) s.
Proof.
  intros Hinv Ho Hr Hlen Hft Hfa. unfold vm_fault.
  destruct (owns_bounds _ _ _ Hinv Ho) as (b1 & b2 & b3 & P1 & P2 & P3 & ? & ? & ? & ? & ? & ?).
  pose proof Hr as (v1 & v2 & E1 & E2 & ? & ? & ? & ? & _ & ? & ?).
  unfold DUMBVM_STACKPAGES in *.
  assert (Hpg : 0 <= fa / 4096 < 2 ^ 20) by (split; [apply Z.div_pos|apply Z.div_lt_upper_bound]; lia).
  assert (Hguard : ft =? VM_FAULT_READONLY = false /\
                   ((ft =? VM_FAULT_READ) || (ft =? VM_FAULT_WRITE)) = true)
    by (by destruct Hft as [-> | ->]).
  destruct Hguard as [-> ->]. wp_simpl.
  rewrite P1, P2, P3, E1, E2, !aligned_page by lia.
  repeat (rewrite wp_KASSERT; split; [first [done | unfold PAGE_SIZE; lia]|]; wp_simpl).
  rewrite land_frame by done. change (fa / 4096 * 4096) with (fa / 4096 * PAGE_SIZE).
  rewrite (translate_spec s blocks) by done. change (fa / PAGE_SIZE) with (fa / 4096).
  destruct (frame_of a (fa / 4096)) as [f|] eqn:Ef; cbn [fmap option_fmap option_map]; wp_simpl; [|done].
  destruct (frame_of_block _ _ _ _ Ho Ef) as (b & n & Hb & Hin & _).
  assert (0 <= f < 2 ^ 20).
  { pose proof (inv_blocks _ _ Hinv _ _ Hb). pose proof (inv_ram _ _ Hinv).
    pose proof (inv_mark _ _ Hinv). unfold in_block in Hin. lia. }
  rewrite wp_KASSERT. split; [by apply aligned_page|]. wp_simpl. rewrite tlb_entry.
  eapply wp_mono; [|apply tlb_insert_spec; by rewrite Hlen]. cbv beta. intros r s'.
  intros [(-> & j & _ & ? & Hk & ->)|(-> & -> & Hk)]; [left|right].
  - split; [done|]. split; [by exists b, n|]. exists j. split_and!; [done| |done]. intros k ?. apply Hk. lia.
  - split_and!; [done..|]. intros k. apply Hk. lia.
Qed.

(** ** Destruction *)

(** Destroying a loaded address space frees exactly its three blocks. *)
Lemma as_destroy_correct s blocks a :
  inv s blocks -> owns blocks a -> can_sleep s = true ->
  wp (as_destroy a) (fun _ s' =>
    inv s' (delete (as_stackpbase a / PAGE_SIZE)
             (delete (as_pbase2 a / PAGE_SIZE) (delete (as_pbase1 a / PAGE_SIZE) blocks))) /\
    same_rest s s' /\
    forall b n i, blocks !! b = Some n -> in_block i b n ->
      b = as_pbase1 a / PAGE_SIZE \/ b = as_pbase2 a / PAGE_SIZE \/ b = as_stackpbase a / PAGE_SIZE ->
      recyclable s' i) s.
Proof.
  intros Hinv (b1 & b2 & b3 & P1 & P2 & P3 & N12 & N13 & N23 & H1 & H2 & H3) Hsl.
  assert (Hd : forall b, b * PAGE_SIZE / PAGE_SIZE = b) by (intros; by apply Z.div_mul).
  unfold as_destroy, dumbvm_can_sleep. wp_simpl. rewrite wp_KASSERT. split; [done|].
  rewrite P1, P2, P3, !Hd. wp_simpl.
  eapply wp_mono; [|by apply freeppages_spec]. cbv beta. intros _ s1 (_ & I1 & R1 & F1 & K1).
  wp_simpl. eapply wp_mono; [|apply (freeppages_spec s1 _ b2 (as_npages2 a) I1); by rewrite lookup_delete_ne].
  cbv beta. intros _ s2 (_ & I2 & R2 & F2 & K2).
  wp_simpl. eapply wp_mono; [|apply (freeppages_spec s2 _ b3 DUMBVM_STACKPAGES I2); by rewrite !lookup_delete_ne].
  cbv beta. intros _ s3 (_ & I3 & R3 & F3 & K3). wp_simpl. split_and!; [done|..].
  - unfold same_rest in *. destruct_and!. split_and!; congruence.
  - intros b n i Hb Hin [->|[->| ->]]; simplify_eq; auto.
Qed.

(** ** Loading and copying *)

(** Only what [freeppages] needs to return. *)
Definition tables_ok (s : vm) : Prop :=
  allocTableActive s = true /\ 0 < nRamFrames s <= 2 ^ 17 /\ allocSize s <> None /\
  exists free, freeRamFrames s = Some free /\ Z.of_nat (length free) = nRamFrames s.

Lemma inv_tables s blocks : inv s blocks -> tables_ok s.
Proof.
  intros [? [? _] _ (free & ? & ? & _) (al & ? & _) _ _]. split_and!; try done; try lia; [congruence|eauto].
Qed.

Lemma freeppages_tables s b n :
  tables_ok s -> 0 <= b < nRamFrames s -> 0 <= n -> b + n <= nRamFrames s ->
  wp (freeppages (b * PAGE_SIZE) n) (fun _ s' => tables_ok s' /\ same_rest s s' /\
    (forall i, in_block i b n -> recyclable s' i) /\ (forall i, 0 <= i -> recyclable s i -> recyclable s' i)) s.
Proof.
  intros (Hact & HN & Hal & free & Hfr & Hlf) Hb Hn Hbn.
  unfold freeppages, isTableActive, PAGE_SIZE. wp_simpl. rewrite Hact. wp_simpl.
  rewrite wp_KASSERT. split; [by apply bool_decide_eq_true|]. wp_simpl. rewrite Z.div_mul by lia.
  rewrite wp_KASSERT. split; [lia|]. wp_simpl. rewrite (s32_small n) by lia.
  destruct (fill_spec (Z.to_nat n) b 1 free) as (free' & Ef & Hlf' & Hlk); [lia|lia|].
  rewrite (wp_deref _ _ _ _ _ Ef). wp_simpl. split; [|split; [done|split]].
  - unfold tables_ok; cbn. split_and!; try done; try lia. exists free'. split; [done|lia].
  - intros i Hi. unfold in_block in Hi. exists free', 1. split_and!; [done| |done].
    rewrite Hlk by lia. by rewrite decide_True by lia.
  - intros i Hi0 (free0 & c & ? & Hc & ?). assert (free0 = free) as -> by congruence.
    exists free'. rewrite Hlk by done. case_decide; [by exists 1|by exists c].
Qed.

Definition in_mem (x b n : Z) : Prop := b * PAGE_SIZE <= x < (b + n) * PAGE_SIZE.

Lemma in_mem_disjoint s blocks b n b' n' x :
  inv s blocks -> blocks !! b = Some n -> blocks !! b' = Some n' -> b <> b' ->
  in_mem x b n -> ~ in_mem x b' n'.
Proof.
  unfold in_mem, PAGE_SIZE. intros Hinv Hb Hb' Hne Hx Hx'. apply Hne.
  eapply (inv_disjoint _ _ Hinv _ _ _ _ (x / 4096) Hb Hb');
    pose proof (Z.div_mod x 4096); pose proof (Z.mod_pos_bound x 4096); unfold in_block; lia.
Qed.

Lemma bzero_mem_out m lo n x : ~ (lo <= x < lo + n) -> bzero_mem lo n m x = m x.
Proof. unfold bzero_mem. intros. case_match; [lia|done]. Qed.
Lemma memmove_mem_out m dst src n x : ~ (dst <= x < dst + n) -> memmove_mem dst src n m x = m x.
Proof. unfold memmove_mem. intros. case_match; [lia|done]. Qed.
Lemma memmove_mem_in m dst src n i : 0 <= i < n -> memmove_mem dst src n m (dst + i) = m (src + i).
Proof. unfold memmove_mem. intros. case_match; [|lia]. f_equal. lia. Qed.

Lemma fresh_none blocks b n s :
  inv s blocks -> 1 <= n -> (forall i, in_block i b n -> ~ owned blocks i) -> blocks !! b = None.
Proof.
  intros Hinv Hn Hf. destruct (blocks !! b) as [k|] eqn:E; [|done]. exfalso.
  apply (Hf b); [unfold in_block; lia|]. exists b, k. split; [done|].
  apply (inv_blocks _ _ Hinv) in E. unfold in_block. lia.
Qed.

(** The state the error paths of [as_prepare_load] leave: what was allocated is
    recorded, the stack base is 0. *)
Definition half_loaded (a : addrspace) (s s' : vm) (a' : addrspace) : Prop :=
  tables_ok s' /\ nRamFrames s' = nRamFrames s /\ can_sleep s' = can_sleep s /\ as_stackpbase a' = 0 /\
  as_npages1 a' = as_npages1 a /\ as_npages2 a' = as_npages2 a /\
  exists b1 b2, as_pbase1 a' = b1 * PAGE_SIZE /\ as_pbase2 a' = b2 * PAGE_SIZE /\
    0 <= b1 < nRamFrames s /\ 0 <= b2 < nRamFrames s /\
    (b1 = 0 \/ b1 + as_npages1 a <= nRamFrames s) /\ (b2 = 0 \/ b2 + as_npages2 a <= nRamFrames s).

Lemma as_prepare_load_spec s blocks a :
  inv s blocks -> can_sleep s = true ->
  as_pbase1 a = 0 -> as_pbase2 a = 0 -> as_stackpbase a = 0 ->
  1 <= as_npages1 a < 2 ^ 19 -> 1 <= as_npages2 a < 2 ^ 19 ->
  wp (as_prepare_load a) (fun r s' =>
    (r.1 = ENOMEM /\ half_loaded a s s' r.2) \/
    (exists b1 b2 b3, r = (0, set_pbases (b1 * PAGE_SIZE) (b2 * PAGE_SIZE) (b3 * PAGE_SIZE) a) /\
       let blocks' := <[b3 := DUMBVM_STACKPAGES]> (<[b2 := as_npages2 a]> (<[b1 := as_npages1 a]> blocks)) in
       inv s' blocks' /\ blocks !! b1 = None /\ blocks !! b2 = None /\ blocks !! b3 = None /\
       b1 <> b2 /\ b1 <> b3 /\ b2 <> b3 /\ can_sleep s' = can_sleep s /\ tlb s' = tlb s /\
       forall x, mem s' x =
         if decide (in_mem x b1 (as_npages1 a) \/ in_mem x b2 (as_npages2 a) \/ in_mem x b3 DUMBVM_STACKPAGES)
         then 0 else mem s x)) s.
Proof.
  intros Hinv Hsl Z1 Z2 Z3 Hn1 Hn2. unfold as_prepare_load. rewrite Z1, Z2, Z3.
  wp_simpl. rewrite wp_KASSERT. split; [done|]. wp_simpl. rewrite wp_KASSERT. split; [done|].
  wp_simpl. rewrite wp_KASSERT. split; [done|]. unfold dumbvm_can_sleep. wp_simpl.
  rewrite wp_KASSERT. split; [done|]. wp_simpl.
  pose proof (inv_ram _ _ Hinv) as [HN _].
  eapply wp_mono; [|by apply getppages_spec]. cbv beta.
  intros p1 s1 [(-> & -> & _)|(b1 & -> & Hb1 & I1 & R1 & F1)].
  { wp_simpl. left. split; [done|]. split_and!; try done; [by eapply inv_tables|].
    exists 0, 0. cbn. lia. }
  destruct (Z.eqb_spec (b1 * PAGE_SIZE) 0); [unfold PAGE_SIZE in *; lia|].
  pose proof R1 as (M1 & T1 & C1 & N1). wp_simpl.
  eapply wp_mono; [|by apply (getppages_spec s1)]. cbv beta.
  assert (Hle1 : b1 + as_npages1 a <= nRamFrames s).
  { pose proof (inv_blocks _ _ I1 b1 (as_npages1 a) ltac:(apply lookup_insert_eq)).
    pose proof (inv_mark _ _ I1). lia. }
  intros p2 s2 [(-> & -> & _)|(b2 & -> & Hb2 & I2 & R2 & F2)].
  { wp_simpl. left. split; [done|]. split_and!; try done; [by eapply inv_tables|].
    exists b1, 0. cbn. lia. }
  destruct (Z.eqb_spec (b2 * PAGE_SIZE) 0); [unfold PAGE_SIZE in *; lia|].
  pose proof R2 as (M2 & T2 & C2 & N2). wp_simpl.
  eapply wp_mono; [|by apply (getppages_spec s2)]. cbv beta.
  assert (Hle2 : b2 + as_npages2 a <= nRamFrames s).
  { pose proof (inv_blocks _ _ I2 b2 (as_npages2 a) ltac:(apply lookup_insert_eq)).
    pose proof (inv_mark _ _ I2). lia. }
  intros p3 s3 [(-> & -> & _)|(b3 & -> & Hb3 & I3 & R3 & F3)].
  { wp_simpl. left. split; [done|]. split_and!; try done; [by eapply inv_tables|congruence|congruence|].
    exists b1, b2. cbn. lia. }
  destruct (Z.eqb_spec (b3 * PAGE_SIZE) 0); [unfold PAGE_SIZE in *; lia|].
  pose proof R3 as (M3 & T3 & C3 & N3). unfold as_zero_region. wp_simpl. right.
  exists b1, b2, b3. split; [done|]. cbv zeta.
  assert (B1 : blocks !! b1 = None) by (eapply fresh_none; [exact Hinv| |exact F1]; lia).
  assert (B2 : (<[b1 := as_npages1 a]> blocks) !! b2 = None)
    by (eapply fresh_none; [exact I1| |exact F2]; lia).
  assert (B3 : (<[b2 := as_npages2 a]> (<[b1 := as_npages1 a]> blocks)) !! b3 = None)
    by (eapply fresh_none; [exact I2| |exact F3]; unfold DUMBVM_STACKPAGES; lia).
  apply lookup_insert_None in B2 as [B2 N12]. apply lookup_insert_None in B3 as [B3 N23].
  apply lookup_insert_None in B3 as [B3 N13].
  split_and!; try done; [by destruct I3; constructor|cbn; congruence|cbn; congruence|].
  intros x. cbn. unfold bzero_mem, in_mem, DUMBVM_STACKPAGES, PAGE_SIZE in *.
  rewrite !(u32_small (_ * 4096)) by lia. rewrite M3, M2, M1.
  repeat case_match; case_decide; try done; lia.
Qed.

(** The clean-up after a failed [as_prepare_load] frees the first frames of the machine. *)
Lemma as_copy_failed s s1 blocks old new :
  inv s blocks -> half_loaded old s s1 new -> can_sleep s = true ->
  0 <= as_npages1 old <= nRamFrames s -> 0 <= as_npages2 old <= nRamFrames s -> DUMBVM_STACKPAGES <= nRamFrames s ->
  wp (as_destroy new) (fun _ s' => forall i, 0 <= i < 18 -> recyclable s' i) s1.
Proof.
  intros Hinv (Ht & Hn & Hc & S0 & M1 & M2 & c1 & c2 & Q1 & Q2 & ? & ? & ? & ?) Hsl ???.
  pose proof (inv_ram _ _ Hinv) as [HN _]. unfold as_destroy, dumbvm_can_sleep.
  wp_simpl. rewrite wp_KASSERT. split; [congruence|]. wp_simpl.
  rewrite Q1, Q2, S0, M1, M2. unfold DUMBVM_STACKPAGES in *.
  eapply wp_mono; [|apply freeppages_tables; [done|lia..]]. cbv beta.
  intros _ s2 (Ht2 & (_ & _ & _ & Hn2) & _). wp_simpl.
  eapply wp_mono; [|apply freeppages_tables; [done|lia..]]. cbv beta.
  intros _ s3 (Ht3 & (_ & _ & _ & Hn3) & _). wp_simpl. change 0 with (0 * PAGE_SIZE).
  eapply wp_mono; [|apply freeppages_tables; [done|lia..]]. cbv beta.
  intros _ s4 (_ & _ & Hrec & _). wp_simpl. intros i Hi. by apply Hrec.
Qed.

(** A copy of one run of pages to another. *)
Definition page_move (dst src n : Z) (m : Z -> Z) : Z -> Z := memmove_mem (dst * PAGE_SIZE) (src * PAGE_SIZE) (n * PAGE_SIZE) m.

Lemma page_move_out m d o n x : ~ in_mem x d n -> page_move d o n m x = m x.
Proof. intros Hx. apply memmove_mem_out. unfold in_mem, PAGE_SIZE in *. lia. Qed.

Lemma page_move_in m d o n i :
  0 <= i < n * PAGE_SIZE -> page_move d o n m (d * PAGE_SIZE + i) = m (o * PAGE_SIZE + i).
Proof. apply memmove_mem_in. Qed.

(** Three runs copied to three runs, all six apart: each target holds its source, and
    what lies outside the targets is unchanged. *)
Lemma page_moves (apart : Z -> Z -> Z -> Z -> Prop) m d1 o1 n1 d2 o2 n2 d3 o3 n3 :
  (forall b n b' n', apart b n b' n' -> forall x, in_mem x b n -> ~ in_mem x b' n') ->
  apart d1 n1 d2 n2 -> apart d1 n1 d3 n3 -> apart d2 n2 d3 n3 ->
  apart o2 n2 d1 n1 -> apart o3 n3 d1 n1 -> apart o3 n3 d2 n2 ->
  let m' := page_move d3 o3 n3 (page_move d2 o2 n2 (page_move d1 o1 n1 m)) in
  (forall i, 0 <= i < n1 * PAGE_SIZE -> m' (d1 * PAGE_SIZE + i) = m (o1 * PAGE_SIZE + i)) /\
  (forall i, 0 <= i < n2 * PAGE_SIZE -> m' (d2 * PAGE_SIZE + i) = m (o2 * PAGE_SIZE + i)) /\
  (forall i, 0 <= i < n3 * PAGE_SIZE -> m' (d3 * PAGE_SIZE + i) = m (o3 * PAGE_SIZE + i)) /\
  (forall x, ~ in_mem x d1 n1 -> ~ in_mem x d2 n2 -> ~ in_mem x d3 n3 -> m' x = m x).
Proof.
  intros Hap A12 A13 A23 B21 B31 B32 m'.
  assert (Hin : forall b n i, 0 <= i < n * PAGE_SIZE -> in_mem (b * PAGE_SIZE + i) b n)
    by (unfold in_mem, PAGE_SIZE; lia).
  split_and!; unfold m'.
  - intros i Hi. rewrite !page_move_out, page_move_in by eauto. done.
  - intros i Hi. rewrite page_move_out, page_move_in, page_move_out by eauto. done.
  - intros i Hi. rewrite page_move_in, !page_move_out by eauto. done.
  - intros x H1 H2 H3. by rewrite !page_move_out.
Qed.

(** [as_copy] either gives a second address space over three fresh blocks, with
    the same regions and, byte for byte, the same contents, while all memory owned
    before is unchanged; or [ENOMEM].  In the second case, if it was the frames that
    ran out, the clean-up passes the missing base addresses, which are 0, to
    [freeppages]: the first 18 frames of the machine, the exception handlers and
    the kernel's, are then marked free for recycling. *)
Lemma as_copy_correct s blocks old m :
  inv s blocks -> owns blocks old -> can_sleep s = true ->
  wp (as_copy m old) (fun r s' =>
    match r with
    | (e, Some new) => e = 0 /\ exists blocks',
        inv s' blocks' /\ blocks ⊆ blocks' /\ owns blocks' old /\ owns blocks' new /\
        {[as_pbase1 old; as_pbase2 old; as_stackpbase old]} ##
          ({[as_pbase1 new; as_pbase2 new; as_stackpbase new]} : gset Z) /\
        (as_vbase1 new, as_npages1 new, as_vbase2 new, as_npages2 new) =
          (as_vbase1 old, as_npages1 old, as_vbase2 old, as_npages2 old) /\
        (forall i, 0 <= i < as_npages1 old * PAGE_SIZE ->
           mem s' (as_pbase1 new + i) = mem s (as_pbase1 old + i)) /\
        (forall i, 0 <= i < as_npages2 old * PAGE_SIZE ->
           mem s' (as_pbase2 new + i) = mem s (as_pbase2 old + i)) /\
        (forall i, 0 <= i < DUMBVM_STACKPAGES * PAGE_SIZE ->
           mem s' (as_stackpbase new + i) = mem s (as_stackpbase old + i)) /\
        (forall b n x, blocks !! b = Some n -> in_mem x b n -> mem s' x = mem s x)
    | (e, None) => e = ENOMEM /\ (m = true -> forall i, 0 <= i < 18 -> recyclable s' i)
    end) s.
Proof.
  intros Hinv (o1 & o2 & o3 & P1 & P2 & P3 & N12 & N13 & N23 & H1 & H2 & H3) Hsl.
  pose proof (inv_blocks _ _ Hinv _ _ H1) as L1. pose proof (inv_blocks _ _ Hinv _ _ H2) as L2.
  pose proof (inv_blocks _ _ Hinv _ _ H3) as L3.
  pose proof (inv_ram _ _ Hinv) as [HN _]. pose proof (inv_mark _ _ Hinv) as [_ HM].
  unfold as_copy, dumbvm_can_sleep, as_create. wp_simpl. rewrite wp_KASSERT. split; [done|].
  wp_simpl. destruct m; [|by wp_simpl]. cbn [as_pbase1 as_pbase2 as_stackpbase]. wp_simpl.
  set (a0 := As _ _ _ _ _ _ _).
  eapply wp_mono; [|apply (as_prepare_load_spec s blocks a0); try done; cbn; lia]. cbv beta.
  intros [e new] s1 [(E & Hh)|(b1 & b2 & b3 & E & Hres)]; cbn [fst snd] in *.
  { subst e. wp_simpl. eapply wp_mono; [|apply (as_copy_failed s s1 blocks a0); (done || cbn; lia)].
    cbv beta. intros _ s' Hrec. by wp_simpl. }
  destruct Hres as (I' & B1 & B2 & B3 & D12 & D13 & D23 & Hc & _ & Hm). simplify_eq.
  cbn [as_npages1 as_npages2 as_pbase1 as_pbase2 as_stackpbase set_pbases a0] in *.
  set (blocks' := <[b3:=_]> _) in *. wp_simpl.
  assert (Hsub : blocks ⊆ blocks') by (repeat apply insert_subseteq_r; rewrite ?lookup_insert_ne; try done; congruence).
  assert (G1 : blocks' !! b1 = Some (as_npages1 old)) by (unfold blocks'; by rewrite 2!lookup_insert_ne, lookup_insert_eq by done).
  assert (G2 : blocks' !! b2 = Some (as_npages2 old)) by (unfold blocks'; by rewrite lookup_insert_ne, lookup_insert_eq by done).
  assert (G3 : blocks' !! b3 = Some DUMBVM_STACKPAGES) by (unfold blocks'; by rewrite lookup_insert_eq).
  pose proof (inv_blocks _ _ I' _ _ G1). pose proof (inv_blocks _ _ I' _ _ G2). pose proof (inv_blocks _ _ I' _ _ G3).
  repeat (rewrite wp_KASSERT; split; [unfold PAGE_SIZE; lia|]; wp_simpl).
  unfold memmove_pages. wp_simpl. split; [done|]. exists blocks'. cbn [mem set_mem]. rewrite P1, P2, P3.
  rewrite !(u32_small (_ * PAGE_SIZE)) by (unfold DUMBVM_STACKPAGES, PAGE_SIZE in *; lia).
  assert (Hne : forall o n b, blocks !! o = Some n -> blocks !! b = None -> o <> b) by (intros; congruence).
  pose proof (fun b n b' n' Hb Hb' Hd x => in_mem_disjoint s1 blocks' b n b' n' x I' Hb Hb' Hd) as Hdis.
  destruct (page_moves (fun b n b' n' => blocks' !! b = Some n /\ blocks' !! b' = Some n' /\ b <> b') (mem s1)
    b1 o1 (as_npages1 old) b2 o2 (as_npages2 old) b3 o3 DUMBVM_STACKPAGES) as (K1 & K2 & K3 & K4);
    [naive_solver|(split_and!; try done; try (by eapply lookup_weaken); eauto)..|].
  assert (Hold : forall b n x, blocks !! b = Some n -> in_mem x b n ->
    (~ in_mem x b1 (as_npages1 old) /\ ~ in_mem x b2 (as_npages2 old) /\ ~ in_mem x b3 DUMBVM_STACKPAGES) /\ mem s1 x = mem s x).
  { intros b n x Hb Hx. assert (Hb' := lookup_weaken _ _ _ _ Hb Hsub).
    assert (Hd : ~ in_mem x b1 (as_npages1 old) /\ ~ in_mem x b2 (as_npages2 old) /\ ~ in_mem x b3 DUMBVM_STACKPAGES)
      by (split_and!; eapply Hdis; eauto). split; [done|]. rewrite Hm, decide_False by tauto. done. }
  assert (Hsrc : forall o n i, blocks !! o = Some n -> 0 <= i < n * PAGE_SIZE -> mem s1 (o * PAGE_SIZE + i) = mem s (o * PAGE_SIZE + i))
    by (intros o n i Ho Hi; apply (Hold o n); [done|unfold in_mem, PAGE_SIZE in *; lia]).
  split_and!; [by destruct I'; constructor|done| | | |done|..].
  - exists o1, o2, o3. split_and!; try done; by eapply lookup_weaken.
  - by exists b1, b2, b3.
  - cbn. intros x Hx Hy. rewrite !elem_of_union, !elem_of_singleton in Hx, Hy.
    assert (Hn : forall o b, (o = o1 \/ o = o2 \/ o = o3) -> (b = b1 \/ b = b2 \/ b = b3) -> o <> b) by naive_solver.
    unfold PAGE_SIZE in Hx, Hy. apply (Hn (x / 4096) (x / 4096)); [|  |done];
      [destruct Hx as [[-> | ->] | ->]|destruct Hy as [[-> | ->] | ->]]; rewrite Z.div_mul by lia; auto.
  - intros i Hi. etrans; [by apply K1|]. by apply (Hsrc o1 (as_npages1 old)).
  - intros i Hi. etrans; [by apply K2|]. by apply (Hsrc o2 (as_npages2 old)).
  - intros i Hi. etrans; [by apply K3|]. by apply (Hsrc o3 DUMBVM_STACKPAGES).
  - intros b n x Hb Hx. destruct (Hold b n x Hb Hx) as [(? & ? & ?) <-]. by apply K4.
Qed.

(** ** An address space in a machine of 64 frames *)

Definition sample : vm :=
  Vm 0x80000000 (25 * 4096) (64 * 4096) (Some (replicate 64 0))
     (Some (<[7%nat := 18]> (<[5%nat := 2]> (<[4%nat := 1]> (replicate 64 0)))))
     64 true true (fun x => x mod 251) (replicate 64 (0, 0)).
Definition sample_blocks : gmap Z Z := <[7 := 18]> (<[5 := 2]> {[4 := 1]}).
Definition sample_as : addrspace :=
  As 0x400000 (4 * 4096) 1 0x10000000 (5 * 4096) 2 (7 * 4096).

Lemma sample_lookup b n :
  sample_blocks !! b = Some n -> (b = 7 /\ n = 18) \/ (b = 5 /\ n = 2) \/ (b = 4 /\ n = 1).
Proof.
  unfold sample_blocks. rewrite !lookup_insert_Some, lookup_singleton_Some. naive_solver.
Qed.

Lemma as_sample_inv : inv sample sample_blocks.
Proof.
  split; try done.
  - exists (replicate 64 0). split_and!; [done..|]. intros i Hi Hr. destruct Hi.
    apply lookup_replicate. split; [done|]. cbn in Hr. lia.
  - eexists. split_and!; [done..|]. intros b n H.
    apply sample_lookup in H as [[-> ->]|[[-> ->]|[-> ->]]]; reflexivity.
  - intros b n H. apply sample_lookup in H as [[-> ->]|[[-> ->]|[-> ->]]]; by compute.
  - intros b n b' n' i H H'. unfold in_block.
    apply sample_lookup in H as [[-> ->]|[[-> ->]|[-> ->]]];
      apply sample_lookup in H' as [[-> ->]|[[-> ->]|[-> ->]]]; lia.
Qed.

Lemma sample_owns : owns sample_blocks sample_as.
Proof. exists 4, 5, 7. by split_and!. Qed.

Lemma sample_regions : regions_ok sample_as.
Proof. exists 0x400, 0x10000. split_and!; try reflexivity; cbn; unfold DUMBVM_STACKPAGES; lia. Qed.

Lemma vm_fault_correct_witness :
  wp (vm_fault true (Some sample_as) VM_FAULT_READ 0x10001abc) (fun r s' => r = 0 \/ r = EFAULT) sample.
Proof.
  eapply wp_mono; [|apply (vm_fault_correct sample sample_blocks sample_as); try done].
  - intros r s' H. change (frame_of sample_as (0x10001abc / PAGE_SIZE)) with (Some 6) in H.
    destruct H as [[? _]|[? _]]; auto.
  - apply as_sample_inv.
  - apply sample_owns.
  - apply sample_regions.
  - by left.
Defined.

Lemma translate_isolated_witness : 0x4000 <> 0x6000.
Proof.
  refine (proj1 (proj2 (translate_isolated sample sample_blocks sample_as sample_as 0x400 0x10001
    0x4000 0x6000 as_sample_inv sample_owns sample_owns sample_regions sample_regions _ _ _ _)) eq_refl _);
    (reflexivity || lia).
Defined.

Lemma as_destroy_correct_witness :
  wp (as_destroy sample_as) (fun _ s' => inv s' (delete 7 (delete 5 (delete 4 sample_blocks)))) sample.
Proof.
  eapply wp_mono; [|apply (as_destroy_correct sample sample_blocks sample_as as_sample_inv sample_owns); reflexivity].
  intros [] s' (H & _). exact H.
Defined.

Lemma as_copy_correct_witness :
  wp (as_copy true sample_as) (fun r s' => r.1 = 0 \/ r.1 = ENOMEM) sample.
Proof.
  eapply wp_mono; [|apply (as_copy_correct sample sample_blocks sample_as true as_sample_inv sample_owns); reflexivity].
  intros [e [new|]] s'; [intros [-> _]; by left | intros [-> _]; by right].
Defined.
End Addrspace_facts.
