(* ===== verification/Copyinout.v ===== *)
(** * Access to user memory: [kern/vm/copyinout.c]

    User and kernel memory share one address space: addresses below
    [USERSPACETOP] belong to the user process and may be unmapped.  An access to
    an unmapped address traps; if the thread has set [tm_badfaultfunc], the trap
    handler jumps back to the last [setjmp], and otherwise the kernel dies.  The
    kernel's own memory is always mapped. *)
From S2P Require Import Prelude.

Module Copyinout.
Definition USERSPACETOP : Z := 0x80000000.

Record machine := Machine {
  mapped : Z -> bool;          (** user pages the fault handler can serve *)
  bytes : Z -> Z;
  badfaultfunc : bool }.       (** [t_machdep.tm_badfaultfunc] is [copyfail] *)

Definition set_badfault (b : bool) : K machine () :=
  modify (fun s => Machine (mapped s) (bytes s) b).

Definition poke (a x : Z) (m : Z -> Z) : Z -> Z := fun b => if b =? a then x else m b.

Definition accessible (s : machine) (a : Z) : bool := (USERSPACETOP <=? a) || mapped s a.

(** A load and a store; [None] and [false] are the jump to [copyfail]. *)
Definition load (a : Z) : K machine (option Z) :=
  s ← get;
  if accessible s a then mret (Some (bytes s a)) else
  if badfaultfunc s then mret None else panic "Fatal exception in kernel mode".
Definition store (a x : Z) : K machine bool :=
  s ← get;
  if accessible s a then put (Machine (mapped s) (poke a x (bytes s)) (badfaultfunc s));; mret true else
  if badfaultfunc s then mret false else panic "Fatal exception in kernel mode".

(** [memcpy(dest, src, n)]; [false] when it was left by [copyfail]. *)
Fixpoint memcpy (n : nat) (dest src : Z) : K machine bool :=
  match n with
  | O => mret true
  | S n =>
      x ← load src;
      match x with
      | None => mret false
      | Some x =>
          ok ← store dest x;
          if ok : bool then memcpy n (dest + 1) (src + 1) else mret false
      end
  end.

(** Result: error code and [*stoplen]. *)
Definition copycheck (userptr len : Z) : Z * Z :=
  let bot := userptr in
  let top := u32 (u32 (bot + len) - 1) in
  if top <? bot then (EFAULT, len) else
  if USERSPACETOP <=? bot then (EFAULT, len) else
  if USERSPACETOP <=? top then (0, USERSPACETOP - bot) else
  (0, len).

Definition copyin (usersrc dest len : Z) : K machine Z :=
  let '(result, stoplen) := copycheck usersrc len in
  if negb (result =? 0) then mret result else
  if negb (stoplen =? len) then mret EFAULT else
  set_badfault true;;
  ok ← memcpy (Z.to_nat len) dest usersrc;
  set_badfault false;;
  mret (if ok : bool then 0 else EFAULT).

Definition copyout (src userdest len : Z) : K machine Z :=
  let '(result, stoplen) := copycheck userdest len in
  if negb (result =? 0) then mret result else
  if negb (stoplen =? len) then mret EFAULT else
  set_badfault true;;
  ok ← memcpy (Z.to_nat len) userdest src;
  set_badfault false;;
  mret (if ok : bool then 0 else EFAULT).

(** The loop of [copystr] at index [i], [n] iterations left.  [None] is the jump to
    [copyfail]; otherwise the length found, or 0 when the loop ran out. *)
Fixpoint copystr_loop (n : nat) (i dest src : Z) : K machine (option Z) :=
  match n with
  | O => mret (Some 0)
  | S n =>
      x ← load (src + i);
      match x with
      | None => mret None
      | Some x =>
          ok ← store (dest + i) x;
          if negb ok then mret None else
          y ← load (src + i);
          match y with
          | None => mret None
          | Some y => if y =? 0 then mret (Some (i + 1)) else copystr_loop n (i + 1) dest src
          end
      end
  end.

(** Result: error code and [*gotlen], or [None] for the jump to [copyfail]. *)
Definition copystr (dest src maxlen stoplen : Z) : K machine (option (Z * Z)) :=
  r ← copystr_loop (Z.to_nat (maxlen `min` stoplen)) 0 dest src;
  match r with
  | None => mret None
  | Some got =>
      if negb (got =? 0) then mret (Some (0, got)) else
      if stoplen <? maxlen then mret (Some (EFAULT, 0)) else
      mret (Some (ENAMETOOLONG, 0))
  end.

(** Result: error code and [*actual]. *)
Definition copyinstr (usersrc dest len : Z) : K machine (Z * Z) :=
  let '(result, stoplen) := copycheck usersrc len in
  if negb (result =? 0) then mret (result, 0) else
  set_badfault true;;
  r ← copystr dest usersrc len stoplen;
  set_badfault false;;
  mret (default (EFAULT, 0) r).

Definition copyoutstr (src userdest len : Z) : K machine (Z * Z) :=
  let '(result, stoplen) := copycheck userdest len in
  if negb (result =? 0) then mret (result, 0) else
  set_badfault true;;
  r ← copystr userdest src len stoplen;
  set_badfault false;;
  mret (default (EFAULT, 0) r).
End Copyinout.

Section Copyinout_facts.
Import Copyinout.
Implicit Types s : machine.

Lemma wp_set_badfault b (Q : () -> machine -> Prop) s :
  wp (set_badfault b) Q s = Q tt (Machine (mapped s) (bytes s) b).
Proof. reflexivity. Qed.

(** [copycheck] accepts exactly the non-empty regions that begin in user space and
    do not wrap, and [stoplen] is the part of them in user space. *)
Lemma copycheck_spec p len :
  0 <= p < 2 ^ 32 -> 0 <= len < 2 ^ 32 ->
  copycheck p len =
    if (p <? USERSPACETOP) && (0 <? len) && (p + len <=? 2 ^ 32) then (0, len `min` (USERSPACETOP - p))
    else if (p =? 0) && (len =? 0) then (0, USERSPACETOP) else (EFAULT, len).
Proof.
  intros Hp Hl. unfold copycheck, USERSPACETOP.
  assert (E : u32 (u32 (p + len) - 1) =
    if p + len =? 0 then 2 ^ 32 - 1 else if p + len <=? 2 ^ 32 then p + len - 1 else p + len - 1 - 2 ^ 32).
  { unfold u32. rewrite Zminus_mod_idemp_l. destruct (Z.eqb_spec (p + len) 0) as [->|]; [done|].
    destruct (Z.leb_spec (p + len) (2 ^ 32)); [apply Z.mod_small; lia|].
    replace (p + len - 1) with (p + len - 1 - 2 ^ 32 + 1 * 2 ^ 32) by lia.
    rewrite Z.mod_add, Z.mod_small by lia. lia. }
  rewrite E. repeat case_match; try lia; f_equal; lia.
Qed.

(** The memory after copying [n] bytes from [src] to [dest]. *)
Definition copied (m : Z -> Z) (n dest src : Z) : Z -> Z :=
  fun a => if (dest <=? a) && (a <? dest + n) then m (src + (a - dest)) else m a.

Definition accessible_all s (a n : Z) : Prop := forall b, a <= b < a + n -> accessible s b = true.

(** Regions without a common byte. *)
Definition apart (a b n : Z) : Prop := a + n <= b \/ b + n <= a.

(** [memcpy] with the handler set: it copies a prefix, all of it exactly when no
    byte is inaccessible, and touches nothing else. *)
Lemma memcpy_spec s n dest src :
  badfaultfunc s = true -> apart dest src (Z.of_nat n) ->
  wp (memcpy n dest src) (fun ok s' => exists k, 0 <= k <= Z.of_nat n /\
    mapped s' = mapped s /\ badfaultfunc s' = true /\
    (forall a, bytes s' a = copied (bytes s) k dest src a) /\
    (ok = true <-> k = Z.of_nat n) /\
    (ok = false -> accessible s (src + k) = false \/ accessible s (dest + k) = false) /\
    (ok = true -> accessible_all s src k /\ accessible_all s dest k)) s.
Proof.
  intros Hb. revert s dest src Hb. induction n as [|n IH]; intros s dest src Hb Hap; cbn [memcpy].
  { wp_simpl. exists 0. split_and!; try done; try lia.
    - intros a. unfold copied. case_match; [lia|done].
    - intros _. split; intros b; lia. }
  unfold load, store. wp_simpl.
  destruct (accessible s src) eqn:Es.
  2:{ rewrite Hb. wp_simpl. exists 0. split_and!; try done; try lia.
      - intros a. unfold copied. case_match; [lia|done].
      - intros _. left. by rewrite Z.add_0_r. }
  wp_simpl. destruct (accessible s dest) eqn:Ed.
  2:{ rewrite Hb. wp_simpl. exists 0. split_and!; try done; try lia.
      - intros a. unfold copied. case_match; [lia|done].
      - intros _. right. by rewrite Z.add_0_r. }
  wp_simpl. set (s1 := Machine _ _ _).
  eapply wp_mono; [|apply (IH s1 (dest + 1) (src + 1)); [done|unfold apart in *; lia]]. cbv beta.
  intros ok s' (k & Hk & Hm & Hf & Hbytes & Hok & Hno & Hyes).
  exists (k + 1). do 3 (split; [done || lia|]). split; [|split; [rewrite Hok; lia|split]].
  - intros a. rewrite Hbytes. unfold s1, copied, poke, apart in *. cbn [bytes].
    repeat case_match; try lia; f_equal; lia.
  - intros E. specialize (Hno E). unfold accessible in *. cbn [mapped s1] in Hno.
    replace (src + (k + 1)) with (src + 1 + k) by lia.
    replace (dest + (k + 1)) with (dest + 1 + k) by lia. done.
  - intros E. destruct (Hyes E) as [H1 H2]. unfold accessible_all, accessible in *. cbn [mapped s1] in *.
    split; intros b Hb'.
    + destruct (decide (b = src)) as [->|]; [done|]. apply H1. lia.
    + destruct (decide (b = dest)) as [->|]; [done|]. apply H2. lia.
Qed.

(** The user region [p, p + len) is all in user space. *)
Definition user_region (p len : Z) : Prop := 0 < len /\ p + len <= USERSPACETOP.

Lemma copycheck_ok p len :
  0 <= p < 2 ^ 32 -> 0 <= len < 2 ^ 32 ->
  (user_region p len -> copycheck p len = (0, len)) /\
  (~ user_region p len -> exists r l, copycheck p len = (r, l) /\ (r = EFAULT \/ (r = 0 /\ l <> len))).
Proof.
  intros Hp Hl. rewrite copycheck_spec by done. unfold user_region, USERSPACETOP. split.
  - intros ?. repeat case_match; try lia; f_equal; lia.
  - intros ?. repeat case_match; do 2 eexists; (split; [done|]); try (by left); right; lia.
Qed.

(** The two ways a copy of [len] bytes between user address [u] and the kernel ends. *)
Definition copy_result s (u len dest src r : Z) (s' : machine) : Prop :=
  (user_region u len /\ mapped s' = mapped s /\ badfaultfunc s' = false /\
     ((r = 0 /\ accessible_all s src len /\ accessible_all s dest len /\
       forall a, bytes s' a = copied (bytes s) len dest src a) \/
      (r = EFAULT /\ ~ (accessible_all s src len /\ accessible_all s dest len) /\
       exists k, 0 <= k < len /\ forall a, bytes s' a = copied (bytes s) k dest src a))) \/
  (~ user_region u len /\ r = EFAULT /\ s' = s).

(** The common shape of [copyin] and [copyout]. *)
Lemma copy_spec s p len dest src :
  0 <= p < 2 ^ 32 -> 0 <= len < 2 ^ 32 -> apart dest src len ->
  wp (let '(result, stoplen) := copycheck p len in
      if negb (result =? 0) then mret result else
      if negb (stoplen =? len) then mret EFAULT else
      set_badfault true;;
      ok ← memcpy (Z.to_nat len) dest src;
      set_badfault false;;
      mret (if ok : bool then 0 else EFAULT)) (copy_result s p len dest src) s.
Proof.
  intros Hp Hl Hap. unfold copy_result. destruct (copycheck_ok p len Hp Hl) as [Hyes Hno].
  assert (Hdec : Decision (user_region p len)) by (unfold user_region; apply _).
  destruct (decide (user_region p len)) as [Hu|Hu].
  - rewrite Hyes by done. cbn [Z.eqb negb]. rewrite Z.eqb_refl. wp_simpl. rewrite wp_set_badfault. wp_simpl.
    eapply wp_mono; [|apply memcpy_spec; [done|by rewrite Z2Nat.id by lia]]. cbv beta.
    rewrite Z2Nat.id by lia. intros ok s' (k & Hk & Hm & Hf & Hb & Hok & Hn & Hy).
    wp_simpl. rewrite wp_set_badfault. wp_simpl. left. do 3 (split; [done|]).
    destruct ok.
    + left. assert (k = len) as -> by (by apply Hok). destruct (Hy eq_refl). done.
    + right. assert (k <> len) by (intros ->; destruct Hok as [_ H]; by discriminate H).
      split; [done|]. split; [|exists k; split; [lia|done]].
      intros [Ha1 Ha2]. destruct (Hn eq_refl) as [E|E].
      * specialize (Ha1 (src + k) ltac:(lia)). unfold accessible in *. cbn [mapped] in E. congruence.
      * specialize (Ha2 (dest + k) ltac:(lia)). unfold accessible in *. cbn [mapped] in E. congruence.
  - destruct (Hno Hu) as (r & l & -> & [-> |[-> Hne]]).
    + wp_simpl. by right.
    + rewrite (proj2 (Z.eqb_neq l len)) by done. wp_simpl. by right.
Qed.

(** [copyin] and [copyout] return, with the fault handler reset.  They succeed
    exactly when the region is not empty, lies in user space and every byte of
    both sides is accessible; then the destination holds the source and nothing
    else changed.  Otherwise the result is [EFAULT] and at most a prefix of the
    destination was written; on a region that is not in user space nothing is. *)
Lemma copyin_copyout_correct s uaddr kaddr len :
  0 <= uaddr < 2 ^ 32 -> 0 <= len < 2 ^ 32 -> apart kaddr uaddr len ->
  wp (copyin uaddr kaddr len) (copy_result s uaddr len kaddr uaddr) s /\
  wp (copyout kaddr uaddr len) (copy_result s uaddr len uaddr kaddr) s.
Proof.
  intros Hu Hl Hap. split; apply copy_spec; try done. unfold apart in *. lia.
Qed.

(** The loop of [copystr], with the handler set: it copies a prefix, and what it
    returns tells whether the prefix ends in the first NUL. *)
Lemma copystr_loop_spec s n i dest src :
  badfaultfunc s = true -> apart (dest + i) (src + i) (Z.of_nat n) -> 0 <= i ->
  wp (copystr_loop n i dest src) (fun r s' => exists k, 0 <= k <= Z.of_nat n /\
    mapped s' = mapped s /\ badfaultfunc s' = true /\
    (forall a, bytes s' a = copied (bytes s) k (dest + i) (src + i) a) /\
    match r with
    | None => exists a, (src + i <= a < src + i + Z.of_nat n \/ dest + i <= a < dest + i + Z.of_nat n) /\
                accessible s a = false
    | Some got =>
        (got = 0 /\ k = Z.of_nat n /\ forall j, i <= j < i + k -> bytes s (src + j) <> 0) \/
        (got = i + k /\ 0 < k /\ bytes s (src + got - 1) = 0 /\
         forall j, i <= j < got - 1 -> bytes s (src + j) <> 0)
    end) s.
Proof.
  intros Hb. revert s i Hb. induction n as [|n IH]; intros s i Hb Hap Hi; cbn [copystr_loop].
  { wp_simpl. exists 0. do 3 (split; [done|]). split; [|left; split_and!; try done; lia].
    intros a. unfold copied. case_match; [lia|done]. }
  assert (Hnone : forall a, bytes s a = copied (bytes s) 0 (dest + i) (src + i) a)
    by (intros a; unfold copied; case_match; [lia|done]).
  unfold load, store. wp_simpl. destruct (accessible s (src + i)) eqn:Es.
  2:{ rewrite Hb. wp_simpl. exists 0. do 3 (split; [done || lia|]). split; [done|].
      exists (src + i). split; [left; lia|done]. }
  wp_simpl. destruct (accessible s (dest + i)) eqn:Ed.
  2:{ rewrite Hb. wp_simpl. exists 0. do 3 (split; [done || lia|]). split; [done|].
      exists (dest + i). split; [right; lia|done]. }
  wp_simpl. set (s1 := Machine _ _ _).
  assert (Es1 : accessible s1 (src + i) = true) by exact Es. rewrite Es1. wp_simpl.
  assert (Ey : bytes s1 (src + i) = bytes s (src + i)).
  { unfold s1, poke, apart in *. cbn [bytes]. case_match; [lia|done]. }
  rewrite Ey. destruct (Z.eqb_spec (bytes s (src + i)) 0) as [E0|E0].
  - wp_simpl. exists 1. do 3 (split; [done || lia|]). split.
    + intros a. unfold s1, copied, poke. cbn [bytes]. repeat case_match; try lia; try done.
      f_equal. lia.
    + right. split_and!; try lia. by replace (src + (i + 1) - 1) with (src + i) by lia.
  - eapply wp_mono; [|apply (IH s1 (i + 1)); [done|unfold apart in *; lia|lia]]. cbv beta.
    intros r s' (k & Hk & Hm & Hf & Hbytes & Hr). exists (k + 1). do 3 (split; [done || lia|]).
    assert (Hs1 : forall j, i < j < i + Z.of_nat (S n) -> bytes s1 (src + j) = bytes s (src + j)).
    { intros j Hj. cbn [bytes s1]. unfold poke.
      rewrite (proj2 (Z.eqb_neq (src + j) (dest + i))) by (unfold apart in Hap; lia). done. }
    split.
    + intros a. rewrite Hbytes. unfold copied, s1, poke, apart in *. cbn [bytes].
      repeat case_match; try lia; f_equal; lia.
    + destruct r as [got|].
      * destruct Hr as [(-> & Hk' & Hnz)|(-> & Hk' & Hz & Hnz)]; [left|right].
        -- split_and!; [done|lia|]. intros j Hj. destruct (decide (j = i)) as [->|]; [done|].
           rewrite <-Hs1 by lia. apply Hnz. lia.
        -- split_and!; [lia|lia| |].
           ++ replace (src + (i + 1 + k) - 1) with (src + (i + k)) in Hz by lia.
              rewrite <-Hz. replace (src + (i + 1 + k) - 1) with (src + (i + k)) by lia.
              symmetry. apply Hs1. lia.
           ++ intros j Hj. destruct (decide (j = i)) as [->|]; [done|].
              rewrite <-Hs1 by lia. apply Hnz. lia.
      * destruct Hr as (a & Ha & Hacc). exists a. split; [lia|]. exact Hacc.
Qed.

(** How [copyinstr] and [copyoutstr] end: with the string, whole and terminated;
    with [ENAMETOOLONG] when it has no end within [len] bytes; with [EFAULT] at an
    inaccessible byte or at the end of user space. *)
Definition str_result s (u len dest src : Z) (r : Z * Z) (s' : machine) : Prop :=
  (exists k, 0 <= k <= len `min` (0 `max` (USERSPACETOP - u)) /\
     (forall a, bytes s' a = copied (bytes s) k dest src a) /\
     (r.1 = 0 -> k = r.2)) /\ mapped s' = mapped s /\
  (r.1 = 0 -> user_region u r.2 /\ 0 < r.2 <= len /\ bytes s (src + r.2 - 1) = 0 /\
     forall j, 0 <= j < r.2 - 1 -> bytes s (src + j) <> 0) /\
  (r.1 = ENAMETOOLONG -> user_region u len /\ forall j, 0 <= j < len -> bytes s (src + j) <> 0) /\
  (r.1 = EFAULT ->
     USERSPACETOP <= u \/ 2 ^ 32 < u + len \/
     (exists a, (src <= a < src + len \/ dest <= a < dest + len) /\ accessible s a = false) \/
     (USERSPACETOP < u + len /\ forall j, 0 <= j < USERSPACETOP - u -> bytes s (src + j) <> 0)) /\
  (r.1 = 0 \/ r.1 = ENAMETOOLONG \/ r.1 = EFAULT) /\
  (s' = s \/ badfaultfunc s' = false).

Lemma copystr_result s u len dest src :
  0 <= u < 2 ^ 32 -> 0 < len < 2 ^ 32 -> apart dest src len ->
  wp (let '(result, stoplen) := copycheck u len in
      if negb (result =? 0) then mret (result, 0) else
      set_badfault true;;
      r ← copystr dest src len stoplen;
      set_badfault false;;
      mret (default (EFAULT, 0) r)) (str_result s u len dest src) s.
Proof.
  intros Hu Hl Hap. rewrite copycheck_spec by lia. unfold str_result.
  assert (Hnone : forall a, bytes s a = copied (bytes s) 0 dest src a)
    by (intros a; unfold copied; case_match; [lia|done]).
  destruct (Z.ltb_spec u USERSPACETOP); cbn [andb].
  2:{ rewrite (proj2 (Z.eqb_neq u 0)) by (unfold USERSPACETOP in *; lia). wp_simpl.
      split; [exists 0; split_and!; try done; lia|]. split_and!; try done; auto. }
  destruct (Z.ltb_spec 0 len); [|lia]. cbn [andb].
  destruct (Z.leb_spec (u + len) (2 ^ 32)).
  2:{ rewrite (proj2 (Z.eqb_neq len 0)), andb_false_r by lia. wp_simpl.
      split; [exists 0; split_and!; try done; lia|]. split_and!; try done; auto. }
  wp_simpl. rewrite wp_set_badfault. unfold copystr. wp_simpl.
  set (st := len `min` (USERSPACETOP - u)). set (s1 := Machine _ _ true).
  assert (Hst : 0 < st <= len /\ st <= USERSPACETOP - u /\ (st < len -> st = USERSPACETOP - u)) by lia.
  replace (len `min` st) with st by lia. clearbody st.
  eapply wp_mono; [|apply copystr_loop_spec; [done| |lia]].
  2:{ unfold apart in *. lia. }
  cbv beta. intros r s' (k & Hk & Hm & Hf & Hb & Hr). rewrite !Z.add_0_r in *.
  assert (E1 : bytes s1 = bytes s) by done. rewrite E1, (Z2Nat.id st) in * by lia.
  destruct r as [got|]; [destruct Hr as [(-> & -> & Hnz)|(-> & Hk' & Hz & Hnz)]|].
  - destruct (Z.ltb_spec st len); wp_simpl; rewrite wp_set_badfault; wp_simpl; cbn [default id fst snd].
    + split; [exists st; split_and!; try done; lia|]. do 3 (split; [done|]). split; [|split_and!; try done; auto].
      intros _. right. right. right. split; [lia|]. intros j Hj. apply Hnz. lia.
    + split; [exists st; split_and!; try done; lia|]. do 2 (split; [done|]). split; [|split_and!; try done; auto].
      intros _. unfold user_region. split; [lia|]. intros j Hj. apply Hnz. lia.
  - rewrite Z.add_0_l in *. rewrite (proj2 (Z.eqb_neq k 0)) by lia. wp_simpl.
    rewrite wp_set_badfault. wp_simpl. cbn [default id fst snd].
    split; [exists k; split_and!; try done; lia|]. split; [done|]. split; [|split_and!; try done; auto].
    intros _. unfold user_region. split_and!; try done; lia.
  - wp_simpl. rewrite wp_set_badfault. wp_simpl. cbn [default id fst snd].
    split; [exists k; split_and!; try done; lia|]. do 3 (split; [done|]). split; [|split_and!; try done; auto].
    intros _. right. right. left. destruct Hr as (a & Ha & Hacc). exists a. split; [lia|exact Hacc].
Qed.

(** [copyinstr] and [copyoutstr] return either a whole string, its terminator at
    the length they report and no NUL before it, copied to the destination; or
    [ENAMETOOLONG] when no byte of the buffer's length is NUL; or [EFAULT] at an
    inaccessible byte or when the string runs out of user space. *)
Lemma copyinstr_copyoutstr_correct s uaddr kaddr len :
  0 <= uaddr < 2 ^ 32 -> 0 < len < 2 ^ 32 -> apart kaddr uaddr len ->
  wp (copyinstr uaddr kaddr len) (str_result s uaddr len kaddr uaddr) s /\
  wp (copyoutstr kaddr uaddr len) (str_result s uaddr len uaddr kaddr) s.
Proof.
  intros Hu Hl Hap. split; apply copystr_result; try done. unfold apart in *. lia.
Qed.

(** C33. Protection: whatever address and length a process passes, [copyout] and
    [copyoutstr] write no byte of kernel memory. *)
Theorem copyout_protects_kernel s src userdest len :
  0 <= userdest < 2 ^ 32 -> 0 < len < 2 ^ 32 -> apart userdest src len ->
  wp (copyout src userdest len) (fun _ s' => forall a, USERSPACETOP <= a -> bytes s' a = bytes s a) s /\
  wp (copyoutstr src userdest len) (fun _ s' => forall a, USERSPACETOP <= a -> bytes s' a = bytes s a) s.
Proof.
  intros Hu Hl Hap. split.
  - eapply wp_mono; [|apply (copy_spec s userdest len userdest src); (done || lia)].
    intros r s' [(Hr & _ & _ & [(_ & _ & _ & Hb)|(_ & _ & k & Hk & Hb)])|(_ & _ & ->)] a Ha; [..|done].
    all: rewrite Hb; unfold copied, user_region in *; case_match; [lia|done].
  - eapply wp_mono; [|by apply (copystr_result s userdest len userdest src)].
    intros r s' ((k & Hk & Hb & _) & _) a Ha. rewrite Hb. unfold copied. case_match; [lia|done].
Qed.

(** ** A process with two mapped pages *)

Definition sample : machine :=
  Machine (fun a => (0x400000 <=? a) && (a <? 0x402000))
    (fun a => if a =? 0x400003 then 0 else 65) false.

Lemma copyin_copyout_correct_witness :
  wp (copyin 0x401fff 0x80010000 2) (fun r _ => r = EFAULT) sample /\
  wp (copyin 0x401fff 0x80010000 2) (copy_result sample 0x401fff 2 0x80010000 0x401fff) sample.
Proof.
  split; [reflexivity|].
  refine (proj1 (copyin_copyout_correct sample 0x401fff 0x80010000 2 _ _ _)); [lia|lia|right; lia].
Defined.

Lemma copyinstr_copyoutstr_correct_witness :
  wp (copyinstr 0x400000 0x80010000 10) (fun r _ => r = (0, 4)) sample /\
  wp (copyinstr 0x400000 0x80010000 10) (str_result sample 0x400000 10 0x80010000 0x400000) sample.
Proof.
  split; [reflexivity|].
  refine (proj1 (copyinstr_copyoutstr_correct sample 0x400000 0x80010000 10 _ _ _)); [lia|lia|right; lia].
Defined.

Lemma copyout_protects_kernel_witness :
  wp (copyout 0x80010000 0x7ffffff0 100) (fun r _ => r = EFAULT) sample /\
  wp (copyout 0x80010000 0x7ffffff0 100)
     (fun _ s' => forall a, USERSPACETOP <= a -> bytes s' a = bytes sample a) sample.
Proof.
  split; [reflexivity|].
  refine (proj1 (copyout_protects_kernel sample 0x80010000 0x7ffffff0 100 _ _ _)); [lia|lia|left; lia].
Defined.
End Copyinout_facts.
