(* ===== verification/Uio.v ===== *)
(** * I/O descriptors: [kern/lib/uio.c]

    A [struct uio] describes a transfer between a kernel buffer and a list of
    memory blocks, in kernel or user space.  [uiomove] moves the next bytes and
    updates the descriptor in place.  Abstraction: the list of the addresses the
    descriptor still has to transfer ([addrs]). *)
From S2P Require Import Prelude Copyinout.
Import Copyinout.

Module Uio.
Inductive uio_rw_t := UIO_READ | UIO_WRITE.
Inductive uio_seg_t := UIO_USERISPACE | UIO_USERSPACE | UIO_SYSSPACE.

#[global] Instance uio_seg_dec : EqDecision uio_seg_t.
Proof. solve_decision. Defined.

(** [iov_ubase] and [iov_kbase] share their storage. *)
Record iovec := Iovec { iov_base : Z; iov_len : Z }.

(** [uio_iov] is the list of the blocks that are left, [uio_iovcnt] its length. *)
Record uio := Uio {
  uio_iov : list iovec; uio_offset : Z; uio_resid : Z;
  uio_segflg : uio_seg_t; uio_rw : uio_rw_t; uio_space : option Z }.

(** [memmove] inside kernel memory. *)
Definition memmove (dest src n : Z) : K machine () :=
  modify (fun s => Machine (mapped s) (copied (bytes s) n dest src) (badfaultfunc s)).

(** The end of an iteration of the loop, after [size] bytes were moved. *)
Definition advance (size : Z) (u : uio) : uio :=
  match uio_iov u with
  | [] => u
  | v :: l => Uio (Iovec (iov_base v + size) (u32 (iov_len v - size)) :: l)
                  (s64 (uio_offset u + size)) (u32 (uio_resid u - size))
                  (uio_segflg u) (uio_rw u) (uio_space u)
  end.

(** Result: error code and the descriptor as updated.  An iteration moves a byte or
    steps to the next block, so [fuel] is bounded by their number. *)
Fixpoint uiomove_loop (fuel : nat) (ptr n : Z) (u : uio) : K machine (Z * uio) :=
  if negb ((0 <? n) && (0 <? uio_resid u)) then mret (0, u) else
  match fuel with
  | O => block
  | S fuel =>
      match uio_iov u with
      | [] => fault "uio->uio_iov"
      | iov :: rest =>
          let size := if n <? iov_len iov then n else iov_len iov in
          if size =? 0 then
            match rest with
            | [] => panic "uiomove: ran out of buffers"
            | _ => uiomove_loop fuel ptr n
                     (Uio rest (uio_offset u) (uio_resid u) (uio_segflg u) (uio_rw u) (uio_space u))
            end
          else
          result ← match uio_segflg u with
            | UIO_SYSSPACE =>
                match uio_rw u with
                | UIO_READ => memmove (iov_base iov) ptr size
                | UIO_WRITE => memmove ptr (iov_base iov) size
                end;; mret 0
            | UIO_USERSPACE | UIO_USERISPACE =>
                match uio_rw u with
                | UIO_READ => copyout ptr (iov_base iov) size
                | UIO_WRITE => copyin (iov_base iov) ptr size
                end
            end;
          if negb (result =? 0) then mret (result, u) else
          uiomove_loop fuel (ptr + size) (u32 (n - size)) (advance size u)
      end
  end.

(** [curas] is [proc_getas()]. *)
Definition uiomove (curas : option Z) (ptr n : Z) (u : uio) : K machine (Z * uio) :=
  (if bool_decide (uio_segflg u = UIO_SYSSPACE)
   then KASSERT (bool_decide (uio_space u = None)) "uio->uio_space == NULL"
   else KASSERT (bool_decide (uio_space u = curas)) "uio->uio_space == proc_getas()");;
  uiomove_loop (Z.to_nat n + length (uio_iov u)) ptr n u.

(** [zeros]: the address of the static array of 16 zero bytes. *)
Fixpoint uiomovezeros_loop (fuel : nat) (curas : option Z) (zeros n : Z) (u : uio) : K machine (Z * uio) :=
  if negb (0 <? n) then mret (0, u) else
  match fuel with
  | O => block
  | S fuel =>
      let amt := if n <? 16 then n else 16 in
      '(result, u) ← uiomove curas zeros amt u;
      if negb (result =? 0) then mret (result, u) else
      uiomovezeros_loop fuel curas zeros (n - amt) u
  end.
Definition uiomovezeros (curas : option Z) (zeros n : Z) (u : uio) : K machine (Z * uio) :=
  KASSERT (match uio_rw u with UIO_READ => true | UIO_WRITE => false end) "uio->uio_rw == UIO_READ";;
  uiomovezeros_loop (Z.to_nat n) curas zeros n u.

Definition uio_kinit (kbuf len pos : Z) (rw : uio_rw_t) : uio :=
  Uio [Iovec kbuf len] pos len UIO_SYSSPACE rw None.

(** ** Abstraction *)

Definition addrs (l : list iovec) : list Z := concat ((fun v => seqZ (iov_base v) (iov_len v)) <$> l).
Definition total (l : list iovec) : Z := Z.of_nat (length (addrs l)).

(** The bytes at [ptr], [ptr+1], ... and at the addresses [l] after a transfer. *)
Definition moved (rw : uio_rw_t) (s s' : machine) (ptr : Z) (l : list Z) : Prop :=
  match rw with
  | UIO_READ =>
      (forall i a, l !! i = Some a -> bytes s' a = bytes s (ptr + Z.of_nat i)) /\
      (forall a, a ∉ l -> bytes s' a = bytes s a)
  | UIO_WRITE =>
      (forall i a, l !! i = Some a -> bytes s' (ptr + Z.of_nat i) = bytes s a) /\
      (forall a, ~ (ptr <= a < ptr + Z.of_nat (length l)) -> bytes s' a = bytes s a)
  end.

(** The kernel buffer at [ptr] has no byte in the blocks. *)
Definition buffer_apart (ptr : Z) (l : list Z) : Prop :=
  forall a, a ∈ l -> ~ (ptr <= a < ptr + Z.of_nat (length l)).

Definition wf_iov (l : list iovec) : Prop :=
  Forall (fun v => 0 <= iov_base v /\ 0 <= iov_len v /\ iov_base v + iov_len v <= 2 ^ 32 /\
                   iov_len v < 2 ^ 32) l.
End Uio.

Section Uio_facts.
Import Uio.

Lemma addrs_cons v l : addrs (v :: l) = seqZ (iov_base v) (iov_len v) ++ addrs l.
Proof. done. Qed.

Lemma seqZ_split b n k : 0 <= k <= n -> seqZ b n = seqZ b k ++ seqZ (b + k) (n - k).
Proof. intros. rewrite <-seqZ_app by lia. f_equal. lia. Qed.

Lemma moved_nil rw s ptr : moved rw s s ptr [].
Proof. destruct rw; split; done. Qed.

(** Two transfers in a row. *)
Lemma moved_app rw s s1 s2 ptr l1 l2 :
  NoDup (l1 ++ l2) -> buffer_apart ptr (l1 ++ l2) ->
  moved rw s s1 ptr l1 -> moved rw s1 s2 (ptr + Z.of_nat (length l1)) l2 ->
  moved rw s s2 ptr (l1 ++ l2).
Proof.
  intros Hnd Hap. apply NoDup_app in Hnd as (_ & Hd & _).
  unfold buffer_apart in Hap. rewrite length_app in Hap.
  destruct rw; intros [H1 F1] [H2 F2]; split.
  - intros i a [Hi|[Hle Hi]]%lookup_app_Some.
    + rewrite F2, (H1 i a Hi); [done|]. apply Hd. by eapply list_elem_of_lookup_2.
    + rewrite (H2 _ _ Hi), F1.
      * f_equal. lia.
      * intros Hin. apply lookup_lt_Some in Hi.
        eapply (Hap (ptr + Z.of_nat (length l1) + Z.of_nat (i - length l1))); [set_solver|lia].
  - intros a Ha. rewrite F2, F1; set_solver.
  - intros i a [Hi|[Hle Hi]]%lookup_app_Some.
    + rewrite F2, (H1 i a Hi); [done|]. apply lookup_lt_Some in Hi. lia.
    + replace (ptr + Z.of_nat i) with (ptr + Z.of_nat (length l1) + Z.of_nat (i - length l1)) by lia.
      rewrite (H2 _ _ Hi). apply F1. intros Hr. apply lookup_lt_Some in Hi as Hlt.
      apply list_elem_of_lookup_2 in Hi. eapply (Hap a); [set_solver|lia].
  - intros a Ha. rewrite length_app in Ha. rewrite F2, F1; [done|lia|lia].
Qed.

(** One [memmove] or copy of a block's first [size] bytes. *)
Lemma moved_copied rw s s' ptr b size :
  0 <= size ->
  (forall a, bytes s' a = match rw with
     | UIO_READ => copied (bytes s) size b ptr a | UIO_WRITE => copied (bytes s) size ptr b a end) ->
  moved rw s s' ptr (seqZ b size).
Proof.
  intros Hs Hb. destruct rw; split.
  - intros i a [-> Hi]%lookup_seqZ. rewrite Hb. unfold copied. case_match; [f_equal; lia|lia].
  - intros a Ha. rewrite elem_of_seqZ in Ha. rewrite Hb. unfold copied. case_match; [lia|done].
  - intros i a [-> Hi]%lookup_seqZ. rewrite Hb. unfold copied. case_match; [f_equal; lia|lia].
  - intros a Ha. rewrite length_seqZ in Ha. rewrite Hb. unfold copied. case_match; [lia|done].
Qed.

(** The transfer inside one iteration, in either kind of space. *)
Definition block_move (u : uio) (v : iovec) (ptr size : Z) : K machine Z :=
  match uio_segflg u with
  | UIO_SYSSPACE =>
      match uio_rw u with
      | UIO_READ => memmove (iov_base v) ptr size
      | UIO_WRITE => memmove ptr (iov_base v) size
      end;; mret 0
  | UIO_USERSPACE | UIO_USERISPACE =>
      match uio_rw u with
      | UIO_READ => copyout ptr (iov_base v) size
      | UIO_WRITE => copyin (iov_base v) ptr size
      end
  end.

Lemma block_move_spec s u v ptr size :
  0 <= iov_base v < 2 ^ 32 -> 0 < size < 2 ^ 32 -> apart (iov_base v) ptr size ->
  wp (block_move u v ptr size) (fun r s' =>
    (r = 0 /\ moved (uio_rw u) s s' ptr (seqZ (iov_base v) size)) \/
    (r = EFAULT /\ uio_segflg u <> UIO_SYSSPACE)) s.
Proof.
  intros Hb Hs Hap. unfold block_move, memmove, copyout, copyin.
  destruct (uio_segflg u) eqn:Eseg; [| |].
  3:{ destruct (uio_rw u) eqn:E; wp_simpl; left; (split; [done|]); apply moved_copied; try lia; done. }
  all: destruct (uio_rw u) eqn:E; (eapply wp_mono; [|apply copy_spec; (done || lia || (unfold apart in *; lia))]);
    intros r s' [(_ & _ & _ & [(-> & _ & _ & Hc)|(-> & _)])|(_ & -> & _)]; auto; left;
    (split; [done|]); apply moved_copied; try lia; done.
Qed.

Lemma uiomove_stop fuel ptr n u :
  n <= 0 \/ uio_resid u <= 0 -> uiomove_loop fuel ptr n u = mret (0, u).
Proof.
  intros H. assert (Hg : (0 <? n) && (0 <? uio_resid u) = false).
  { destruct (Z.ltb_spec 0 n), (Z.ltb_spec 0 (uio_resid u)); (done || lia). }
  destruct fuel; cbn [uiomove_loop]; by rewrite Hg.
Qed.

Lemma uiomove_loop_spec fuel s ptr n u :
  wf_iov (uio_iov u) -> 0 <= n < 2 ^ 32 -> 0 <= uio_resid u <= total (uio_iov u) -> uio_resid u < 2 ^ 32 ->
  n <= uio_resid u \/ uio_resid u = total (uio_iov u) ->
  - 2 ^ 63 <= uio_offset u -> uio_offset u + n < 2 ^ 63 ->
  NoDup (addrs (uio_iov u)) -> (forall a, a ∈ addrs (uio_iov u) -> ~ (ptr <= a < ptr + n)) ->
  n + Z.of_nat (length (uio_iov u)) <= Z.of_nat fuel ->
  wp (uiomove_loop fuel ptr n u) (fun r s' => exists k u', r.2 = u' /\
    0 <= k <= n `min` uio_resid u /\
    addrs (uio_iov u') = drop (Z.to_nat k) (addrs (uio_iov u)) /\
    uio_resid u' = uio_resid u - k /\ uio_offset u' = uio_offset u + k /\
    uio_segflg u' = uio_segflg u /\ uio_rw u' = uio_rw u /\ uio_space u' = uio_space u /\ wf_iov (uio_iov u') /\
    ((r.1 = 0 /\ k = n `min` uio_resid u /\
        moved (uio_rw u) s s' ptr (take (Z.to_nat k) (addrs (uio_iov u)))) \/
     (r.1 = EFAULT /\ uio_segflg u <> UIO_SYSSPACE))) s.
Proof.
  revert s ptr n u. induction fuel as [|fuel IH]; intros s ptr n u Hwf Hn Hres Hres32 Hor Hlo Hhi Hnd Hap Hf;
    (destruct (decide (0 < n /\ 0 < uio_resid u)) as [[H0 H1]|Hstop];
     [|rewrite uiomove_stop by lia; wp_simpl; exists 0, u; rewrite drop_0, take_0;
       split_and!; try done; try lia; left; split_and!; [done|lia|apply moved_nil]]);
    cbn [uiomove_loop];
    rewrite (proj2 (Z.ltb_lt 0 n)), (proj2 (Z.ltb_lt 0 (uio_resid u))) by done; cbn [andb negb].
  { assert (total (uio_iov u) = 0); [|lia]. destruct (uio_iov u); [done|simpl in Hf; lia]. }
  destruct (uio_iov u) as [|v rest] eqn:Eiov; [unfold total in Hres; simpl in Hres; lia|].
  pose proof Hwf as [(Hv1 & Hv2 & Hv3 & Hv4) Hwf']%Forall_cons.
  set (size := if n <? iov_len v then n else iov_len v).
  assert (Hsize : size = n `min` iov_len v) by (unfold size; case_match; lia). clearbody size.
  unfold total in Hres, Hor. rewrite addrs_cons, length_app, length_seqZ in Hres, Hor.
  destruct (Z.eqb_spec size 0) as [E0|E0].
  { assert (Elen : iov_len v = 0) by lia.
    destruct rest as [|v' rest]; [simpl in *; lia|].
    rewrite addrs_cons, Elen in Hnd, Hap. cbn [seqZ] in *.
    change (seqZ (iov_base v) 0) with (@nil Z) in *. simpl in Hnd, Hap.
    set (u1 := Uio _ _ _ _ _ _). 
    eapply wp_mono; [|apply (IH s ptr n u1); try done; subst u1; cbn [uio_iov uio_resid uio_offset]].
    - cbv beta. intros r s' (k & u' & ? & ? & Ha & H). exists k, u'. subst u1. cbn [uio_iov uio_resid uio_offset uio_segflg uio_rw uio_space] in *.
      rewrite addrs_cons, Elen. change (seqZ (iov_base v) 0) with (@nil Z). simpl app. done.
    - unfold total. lia.
    - unfold total. lia.
    - simpl in Hf. simpl. lia. }
  fold (block_move u v ptr size). rewrite wp_bind.
  rewrite addrs_cons, (seqZ_split _ (iov_len v) size), <-app_assoc in Hnd, Hap by lia.
  assert (Happ : apart (iov_base v) ptr size).
  { unfold apart. destruct (decide (iov_base v + size <= ptr)); [by left|].
    destruct (decide (ptr + size <= iov_base v)); [by right|]. exfalso.
    eapply (Hap (iov_base v `max` ptr)); [|lia]. rewrite elem_of_app, elem_of_seqZ. left. lia. }
  eapply wp_mono; [|apply block_move_spec; try done; lia]. cbv beta.
  intros r s1 [(-> & Hmv)|(-> & Hseg)].
  2:{ wp_simpl. exists 0, u. rewrite Eiov, drop_0. split_and!; try done; try lia. by right. }
  wp_simpl. rewrite (u32_small (n - size)) by lia.
  set (u1 := advance size u).
  assert (Eu1 : u1 = Uio (Iovec (iov_base v + size) (iov_len v - size) :: rest)
                  (uio_offset u + size) (uio_resid u - size) (uio_segflg u) (uio_rw u) (uio_space u)).
  { unfold u1, advance. rewrite Eiov. by rewrite !u32_small, s64_small by lia. }
  assert (Ea : addrs (uio_iov u1) = drop (Z.to_nat size) (addrs (v :: rest))).
  { rewrite Eu1, addrs_cons. cbn [uio_iov]. rewrite addrs_cons. cbn [iov_base iov_len].
    rewrite (seqZ_split (iov_base v) (iov_len v) size), <-app_assoc, drop_app_ge by (rewrite ?length_seqZ; lia).
    by rewrite length_seqZ, Nat.sub_diag, drop_0. }
  assert (Etk : take (Z.to_nat size) (addrs (v :: rest)) = seqZ (iov_base v) size).
  { rewrite addrs_cons, (seqZ_split (iov_base v) (iov_len v) size), <-app_assoc by lia.
    by rewrite take_app_length' by (rewrite length_seqZ; lia). }
  assert (Et : total (uio_iov u1) = total (v :: rest) - size).
  { unfold total. rewrite Ea, length_drop, addrs_cons, length_app, length_seqZ. lia. }
  assert (Etot : total (v :: rest) = iov_len v + Z.of_nat (length (addrs rest))).
  { unfold total. rewrite addrs_cons, length_app, length_seqZ. lia. }
  assert (Fu : uio_resid u1 = uio_resid u - size /\ uio_offset u1 = uio_offset u + size /\
    uio_segflg u1 = uio_segflg u /\ uio_rw u1 = uio_rw u /\ uio_space u1 = uio_space u) by by rewrite Eu1.
  destruct Fu as (Fr & Fo & Fs & Fw & Fp).
  assert (Hdis : forall a, a ∈ seqZ (iov_base v) size ++ addrs (uio_iov u1) -> ~ (ptr <= a < ptr + n)).
  { intros a Ha. apply Hap. rewrite Eu1 in Ha. exact Ha. }
  assert (Hnd' : NoDup (seqZ (iov_base v) size ++ addrs (uio_iov u1))) by (rewrite Eu1; exact Hnd).
  eapply wp_mono; [|apply (IH s1 (ptr + size) (n - size) u1)]; rewrite ?Fr, ?Fo, ?Et; try lia.
  - cbv beta. intros r s' (k & u' & Er & Hk & Hak & Hrk & Hok & Hsk & Hwk & Hspk & Hwfk & Hcase).
    exists (size + k), u'. rewrite Fp in Hspk. rewrite Fs in Hsk, Hcase.
    rewrite Fw in Hwk, Hcase.
    rewrite Ea, drop_drop in Hak.
    replace (Z.to_nat (size + k)) with (Z.to_nat size + Z.to_nat k)%nat by lia.
    split_and!; try done; try lia.
    destruct Hcase as [(E & Hk' & Hmv')|(E & Hseg)]; [left|by right].
    split_and!; [done|lia|].
    rewrite <-(take_drop (Z.to_nat size) (take (Z.to_nat size + Z.to_nat k) (addrs (v :: rest)))).
    rewrite take_take, Nat.min_l, skipn_firstn_comm, Etk, <-Ea by lia.
    replace (Z.to_nat size + Z.to_nat k - Z.to_nat size)%nat with (Z.to_nat k) by lia.
    eapply moved_app; [| |exact Hmv|].
    + eapply sublist_NoDup; [exact Hnd'|]. apply sublist_app; [done|apply sublist_take].
    + intros a Ha. rewrite length_app, length_seqZ, length_take.
      assert (a ∈ seqZ (iov_base v) size ++ addrs (uio_iov u1)) as Hin.
      { apply elem_of_app in Ha as [Ha|Ha]; apply elem_of_app; [by left|right].
        by eapply elem_of_take in Ha as (? & ? & _); eapply list_elem_of_lookup_2. }
      specialize (Hdis a Hin). lia.
    + rewrite length_seqZ, Z2Nat.id by lia. exact Hmv'.
  - rewrite Eu1. cbn [uio_iov]. apply Forall_cons. cbn [iov_base iov_len]. split; [lia|done].
  - by apply NoDup_app in Hnd' as (_ & _ & ?).
  - intros a Ha. specialize (Hdis a ltac:(set_solver)). lia.
  - rewrite Eu1. cbn [uio_iov length] in *. lia.
Qed.

(** The descriptor is consistent for a transfer of [n] bytes at kernel address
    [ptr]: its blocks do not overlap each other or the kernel buffer, and its
    residue is their total, or at most that and at least [n]. *)
Definition ready (curas : option Z) (ptr n : Z) (u : uio) : Prop :=
  wf_iov (uio_iov u) /\ 0 <= n < 2 ^ 32 /\ 0 <= uio_resid u <= total (uio_iov u) /\
  uio_resid u < 2 ^ 32 /\ (n <= uio_resid u \/ uio_resid u = total (uio_iov u)) /\
  - 2 ^ 63 <= uio_offset u /\ uio_offset u + n < 2 ^ 63 /\
  NoDup (addrs (uio_iov u)) /\ (forall a, a ∈ addrs (uio_iov u) -> ~ (ptr <= a < ptr + n)) /\
  uio_space u = (if decide (uio_segflg u = UIO_SYSSPACE) then None else curas).

(** [uiomove] returns.  On success it has moved [min n resid] bytes, in the
    direction of the descriptor, between the kernel buffer and the first addresses
    of the descriptor, and touched nothing else; in kernel space it always
    succeeds.  Whatever happens, the descriptor stays consistent: the addresses
    left are the old ones less a prefix, and residue and offset moved by its
    length. *)
Lemma uiomove_correct s curas ptr n u :
  ready curas ptr n u ->
  wp (uiomove curas ptr n u) (fun r s' => exists k u', r.2 = u' /\
    0 <= k <= n `min` uio_resid u /\
    addrs (uio_iov u') = drop (Z.to_nat k) (addrs (uio_iov u)) /\
    uio_resid u' = uio_resid u - k /\ uio_offset u' = uio_offset u + k /\
    uio_segflg u' = uio_segflg u /\ uio_rw u' = uio_rw u /\ uio_space u' = uio_space u /\
    wf_iov (uio_iov u') /\
    ((r.1 = 0 /\ k = n `min` uio_resid u /\
        moved (uio_rw u) s s' ptr (take (Z.to_nat k) (addrs (uio_iov u)))) \/
     (r.1 = EFAULT /\ uio_segflg u <> UIO_SYSSPACE))) s.
Proof.
  intros (? & ? & ? & ? & ? & ? & ? & ? & ? & Hsp). unfold uiomove. rewrite wp_bind.
  assert (Hg : wp (if bool_decide (uio_segflg u = UIO_SYSSPACE)
     then KASSERT (bool_decide (uio_space u = None)) "uio->uio_space == NULL"
     else KASSERT (bool_decide (uio_space u = curas)) "uio->uio_space == proc_getas()")
     (fun _ s' => s' = s) s).
  { case_bool_decide; rewrite wp_KASSERT, bool_decide_eq_true, Hsp; by case_decide. }
  eapply wp_mono; [|exact Hg]. cbv beta. intros _ s' ->.
  apply uiomove_loop_spec; try done. rewrite Nat2Z.inj_add. lia.
Qed.

(** A read of 5 bytes into two blocks of kernel memory. *)
Definition sample : uio :=
  Uio [Iovec 0x80001000 3; Iovec 0x80002000 4] 100 7 UIO_SYSSPACE UIO_READ None.

Lemma uiomove_correct_witness :
  wp (uiomove None 0x80005000 5 sample) (fun r s' =>
    r = (0, Uio [Iovec 0x80002002 2] 105 2 UIO_SYSSPACE UIO_READ None)) Copyinout.sample /\
  wp (uiomove None 0x80005000 5 sample) (fun r s' => r.1 = 0 \/ r.1 = EFAULT) Copyinout.sample.
Proof.
  split; [reflexivity|].
  eapply wp_mono; [|apply (uiomove_correct Copyinout.sample None 0x80005000 5 sample)].
  - intros r s' (k & u' & _ & _ & _ & _ & _ & _ & _ & _ & _ & [[? _]|[? _]]); auto.
  - assert (Ht : total (uio_iov sample) = 7) by by vm_compute.
    unfold ready. rewrite Ht. cbn [uio_resid uio_offset uio_space uio_segflg sample].
    do 7 (split; [first [lia | forall_list; cbn; lia]|]). split; [|split; [|done]].
    + apply (bool_decide_unpack (NoDup [0x80001000; 0x80001001; 0x80001002; 0x80002000; 0x80002001;
        0x80002002; 0x80002003])). by vm_compute.
    + intros a Ha. unfold sample, addrs in Ha. cbn [uio_iov fmap list_fmap concat iov_base iov_len] in Ha.
      rewrite !elem_of_app, !elem_of_seqZ, elem_of_nil in Ha. lia.
Defined.
End Uio_facts.
