(* ===== verification/Loadelf.v ===== *)
(** * The loader of executables: [kern/syscall/loadelf.c]

    [load_elf] reads the file header and twice the table of program headers, defines a
    region of the address space for each segment to load, gets the memory, and reads
    each segment into it.  The file is read through [VOP_READ], the interface
    [ElfEnv]; the address space and the physical memory are those of [Addrspace] and
    [Frames], so that a user address is a byte of a frame the allocator gave. *)
From S2P Require Import Prelude Frames Addrspace Uio.
Import Frames Addrspace Uio.

(** The current address space ([proc_getas()]), the machine, and the kernel memory
    that holds the two headers. *)
Record loader := Loader { l_as : addrspace; l_vm : vm; l_kmem : Z -> Z }.

(** [n] bytes of memory at [a]. *)
Definition kbytes (m : Z -> Z) (a : Z) (n : nat) : list Z := (fun i => m (a + Z.of_nat i)) <$> seq 0 n.

(** The physical address of a user address, as the TLB filled by [vm_fault] maps it. *)
Definition phys (a : addrspace) (va : Z) : option Z :=
  (fun p => p + va mod PAGE_SIZE) <$> translate a (va / PAGE_SIZE * PAGE_SIZE).

(** What a read of [n] bytes of the file [f] at offset [off] to address [base] does: at
    most to the end of the file, to the kernel or through the address space. *)
Definition read_len (f : list Z) (off n : Z) : Z := 0 `max` (n `min` (Z.of_nat (length f) - off)).
Definition file_at (f : list Z) (i : Z) : Z := f !!! Z.to_nat i.

Definition read_kernel (f : list Z) (off n base : Z) (s s' : loader) : Prop :=
  l_as s' = l_as s /\ l_vm s' = l_vm s /\
  forall x, l_kmem s' x = if decide (base <= x < base + n) then file_at f (off + (x - base)) else l_kmem s x.

Definition read_user (f : list Z) (off n base : Z) (s s' : loader) : Prop :=
  l_as s' = l_as s /\ l_kmem s' = l_kmem s /\
  (exists m t, l_vm s' = set_tlb t (set_mem m (l_vm s))) /\
  (forall i x, 0 <= i < n -> phys (l_as s) (base + i) = Some x -> mem (l_vm s') x = file_at f (off + i)) /\
  (forall x, (forall i, 0 <= i < n -> phys (l_as s) (base + i) <> Some x) -> mem (l_vm s') x = mem (l_vm s) x).

(** The file operations: a read fails with an error, or transfers what there is to read
    and updates the descriptor.  A failed read may have written part of the buffer. *)
Class ElfEnv := {
  file : Z -> list Z;
  VOP_READ : Z -> uio -> K loader (Z * uio);
  VOP_READ_kernel v base len off s : 0 <= len -> 0 <= off ->
    wp (VOP_READ v (uio_kinit base len off UIO_READ)) (fun r s' =>
      (r.1 <> 0 /\ l_as s' = l_as s /\ l_vm s' = l_vm s) \/
      (r.1 = 0 /\ uio_resid r.2 = len - read_len (file v) off len /\
       read_kernel (file v) off (read_len (file v) off len) base s s')) s;
  VOP_READ_user v base len n off seg sp s : 0 <= n <= len -> 0 <= off -> seg <> UIO_SYSSPACE ->
    (forall i, 0 <= i < n -> is_Some (phys (l_as s) (base + i))) ->
    (forall i j, 0 <= i < n -> 0 <= j < n -> phys (l_as s) (base + i) = phys (l_as s) (base + j) -> i = j) ->
    wp (VOP_READ v (Uio [Iovec base len] off n seg UIO_READ sp)) (fun r s' =>
      (r.1 <> 0 /\ l_as s' = l_as s) \/
      (r.1 = 0 /\ uio_resid r.2 = n - read_len (file v) off n /\
       read_user (file v) off (read_len (file v) off n) base s s')) s }.

Module Loadelf.
Definition PT_NULL : Z := 0.
Definition PT_LOAD : Z := 1.
Definition PT_PHDR : Z := 6.
Definition PT_MIPS_REGINFO : Z := 0x70000000.
Definition PF_X : Z := 1.
Definition EHDR_SIZE : Z := 52.
Definition PHDR_SIZE : Z := 32.

(** The fields that are not ignored. *)
Record Elf_Ehdr := Ehdr {
  e_ident : list Z; e_type : Z; e_machine : Z; e_version : Z; e_entry : Z; e_phoff : Z;
  e_phentsize : Z; e_phnum : Z }.
Record Elf_Phdr := Phdr {
  p_type : Z; p_offset : Z; p_vaddr : Z; p_filesz : Z; p_memsz : Z; p_flags : Z }.

(** The structures in memory; MIPS is big-endian, like the file format. *)
Definition word (m : Z -> Z) (a : Z) (n : nat) : Z := be_val (kbytes m a n).
Definition get_ehdr (m : Z -> Z) (a : Z) : Elf_Ehdr :=
  Ehdr (kbytes m a 16) (word m (a + 16) 2) (word m (a + 18) 2) (word m (a + 20) 4) (word m (a + 24) 4)
       (word m (a + 28) 4) (word m (a + 42) 2) (word m (a + 44) 2).
Definition get_phdr (m : Z -> Z) (a : Z) : Elf_Phdr :=
  Phdr (word m a 4) (word m (a + 4) 4) (word m (a + 8) 4) (word m (a + 16) 4) (word m (a + 20) 4)
       (word m (a + 24) 4).

(** A 32-bit big-endian ELF version 1 executable for MIPS. *)
Definition good_header (eh : Elf_Ehdr) : bool :=
  bool_decide (take 7 (e_ident eh) = [0x7f; 69; 76; 70; 1; 2; 1]) &&
  (e_version eh =? 1) && (e_type eh =? 2) && (e_machine eh =? 8).

Section ops.
Context `{ElfEnv}.

(** A function of [dumbvm.c] on the current address space, which it updates in place. *)
Definition on_as (m : addrspace -> K vm (Z * addrspace)) : K loader Z := fun s =>
  match m (l_as s) (l_vm s) with
  | Ret (r, a) t => Ret r (Loader a t (l_kmem s))
  | Panic w => Panic w
  | Fault w => Fault w
  | Block => Block
  end.

Definition load_segment (as_ptr v offset vaddr memsize filesize is_executable : Z) : K loader Z :=
  let filesize := if memsize <? filesize then memsize else filesize in
  '(result, u) ← VOP_READ v (Uio [Iovec vaddr memsize] offset filesize
                   (if negb (is_executable =? 0) then UIO_USERISPACE else UIO_USERSPACE) UIO_READ (Some as_ptr));
  if negb (result =? 0) then mret result else
  if negb (uio_resid u =? 0) then mret ENOEXEC else
  mret result.

(** A header read into the kernel buffer at [buf]: an error code, or 0. *)
Definition read_header (v buf size offset : Z) : K loader Z :=
  '(result, ku) ← VOP_READ v (uio_kinit buf size offset UIO_READ);
  if negb (result =? 0) then mret result else
  if negb (uio_resid ku =? 0) then mret ENOEXEC else
  mret 0.

(** [off_t offset = eh.e_phoff + i*eh.e_phentsize], in unsigned arithmetic. *)
Definition ph_offset (eh : Elf_Ehdr) (i : Z) : Z := u32 (e_phoff eh + i * e_phentsize eh).

(** The loops over the program headers from [i], [n] headers left: [act] is what is
    done with a segment to load. *)
Fixpoint ph_loop (n : nat) (i v buf : Z) (eh : Elf_Ehdr) (act : Elf_Phdr -> K loader Z) : K loader Z :=
  match n with
  | O => mret 0
  | S n =>
      result ← read_header v buf PHDR_SIZE (ph_offset eh i);
      if negb (result =? 0) then mret result else
      s ← get;
      let ph := get_phdr (l_kmem s) buf in
      if (p_type ph =? PT_NULL) || (p_type ph =? PT_PHDR) || (p_type ph =? PT_MIPS_REGINFO) then
        ph_loop n (i + 1) v buf eh act
      else if negb (p_type ph =? PT_LOAD) then mret ENOEXEC else
      result ← act ph;
      if negb (result =? 0) then mret result else
      ph_loop n (i + 1) v buf eh act
  end.

(** [eh_buf] and [ph_buf] are the addresses of [eh] and [ph] on the kernel stack.
    Result: an error code, or the entry point. *)
Definition load_elf (as_ptr v eh_buf ph_buf : Z) : K loader (Z + Z) :=
  result ← read_header v eh_buf EHDR_SIZE 0;
  if negb (result =? 0) then mret (inl result) else
  s ← get;
  let eh := get_ehdr (l_kmem s) eh_buf in
  if negb (good_header eh) then mret (inl ENOEXEC) else
  result ← ph_loop (Z.to_nat (e_phnum eh)) 0 v ph_buf eh
             (fun ph => on_as (fun a => as_define_region a (p_vaddr ph) (p_memsz ph)));
  if negb (result =? 0) then mret (inl result) else
  result ← on_as as_prepare_load;
  if negb (result =? 0) then mret (inl result) else
  result ← ph_loop (Z.to_nat (e_phnum eh)) 0 v ph_buf eh
             (fun ph => load_segment as_ptr v (p_offset ph) (p_vaddr ph) (p_memsz ph) (p_filesz ph)
                          (Z.land (p_flags ph) PF_X));
  if negb (result =? 0) then mret (inl result) else
  result ← on_as (fun a => r ← as_complete_load a; mret (r, a));
  if negb (result =? 0) then mret (inl result) else
  mret (inr (e_entry eh)).
End ops.
End Loadelf.

Section Loadelf_facts.
Import Loadelf.
Context `{ElfEnv}.
Implicit Types s : loader.

(** ** Headers in the file *)

(** The structures at offset [off] of a file. *)
Definition file_ehdr (f : list Z) : Elf_Ehdr := get_ehdr (file_at f) 0.
Definition file_phdr (f : list Z) (eh : Elf_Ehdr) (i : Z) : Elf_Phdr := get_phdr (file_at f) (ph_offset eh i).

Lemma kbytes_shift m m' a a' n :
  (forall i, 0 <= i < Z.of_nat n -> m (a + i) = m' (a' + i)) -> kbytes m a n = kbytes m' a' n.
Proof.
  intros E. unfold kbytes. apply list_fmap_ext. intros k j Hj. apply lookup_seq in Hj. apply E. lia.
Qed.

Lemma get_ehdr_shift m m' a a' :
  (forall i, 0 <= i < EHDR_SIZE -> m (a + i) = m' (a' + i)) -> get_ehdr m a = get_ehdr m' a'.
Proof.
  unfold EHDR_SIZE. intros E. unfold get_ehdr, word.
  f_equal; (apply kbytes_shift || (f_equal; apply kbytes_shift)); intros i Hi; rewrite <-?Z.add_assoc; apply E; lia.
Qed.

Lemma get_phdr_shift m m' a a' :
  (forall i, 0 <= i < PHDR_SIZE -> m (a + i) = m' (a' + i)) -> get_phdr m a = get_phdr m' a'.
Proof.
  unfold PHDR_SIZE. intros E. unfold get_phdr, word.
  f_equal; (f_equal; apply kbytes_shift); intros i Hi; rewrite <-?Z.add_assoc; apply E; lia.
Qed.

(** Only the kernel buffer has changed. *)
Definition same_machine s s' : Prop := l_as s' = l_as s /\ l_vm s' = l_vm s.

(** Reading a header: an error, or the bytes of the file are in the buffer. *)
Lemma read_header_spec v buf size offset s :
  0 < size -> 0 <= offset ->
  wp (read_header v buf size offset) (fun r s' => same_machine s s' /\
    (r = 0 -> offset + size <= Z.of_nat (length (file v)) /\
       forall i, 0 <= i < size -> l_kmem s' (buf + i) = file_at (file v) (offset + i))) s.
Proof.
  intros Hs Ho. unfold read_header. rewrite wp_bind.
  eapply wp_mono; [|apply (VOP_READ_kernel v buf size offset s); lia]. cbv beta.
  intros [r u] s'. cbn [fst snd]. intros [(Hr & Ea & Ev)|(-> & Eu & Ea & Ev & Em)].
  { destruct (Z.eqb_spec r 0) as [|_]; [done|]. cbn [negb]. by rewrite wp_ret. }
  change (negb (0 =? 0)) with false. cbv iota. rewrite Eu. unfold read_len in *.
  destruct (Z.eqb_spec (size - 0 `max` (size `min` (Z.of_nat (length (file v)) - offset))) 0) as [E|E]; cbn [negb];
    rewrite wp_ret; (split; [done|]); [|done].
  intros _. split; [lia|]. intros i Hi. rewrite Em, decide_True by lia. f_equal. lia.
Qed.


(** ** The loops over the program headers *)

Definition headers (f : list Z) (eh : Elf_Ehdr) (n : nat) (i : Z) : list Elf_Phdr :=
  file_phdr f eh <$> seqZ i (Z.of_nat n).
(** The segments to load. *)
Definition loads (l : list Elf_Phdr) : list Elf_Phdr := filter (fun p => p_type p = PT_LOAD) l.

Lemma headers_cons f eh n i : headers f eh (S n) i = file_phdr f eh i :: headers f eh n (i + 1).
Proof. unfold headers. rewrite seqZ_cons by lia. cbn [fmap list_fmap]. do 3 f_equal; lia. Qed.

Lemma ph_loop_spec v buf eh act (I : list Elf_Phdr -> loader -> Prop) total n i l s :
  (forall l s s', I l s -> same_machine s s' -> I l s') ->
  (forall l p rest s, total = l ++ p :: rest -> I l s -> wp (act p) (fun r s' => r = 0 -> I (l ++ [p]) s') s) ->
  total = l ++ loads (headers (file v) eh n i) -> I l s ->
  wp (ph_loop n i v buf eh act) (fun r s' => r = 0 -> I total s') s.
Proof.
  intros Hsame Hact. revert i l s. induction n as [|n IH]; intros i l s Ht HI; cbn [ph_loop].
  - rewrite wp_ret. intros _. cbn in Ht. by rewrite app_nil_r in Ht; subst.
  - rewrite headers_cons in Ht. set (p := file_phdr (file v) eh i) in *. unfold loads in Ht. rewrite filter_cons in Ht.
    rewrite wp_bind. eapply wp_mono; [|apply read_header_spec; [done|apply u32_range]]. cbv beta.
    intros r s1 (Hsm & Hread). destruct (Z.eqb_spec r 0) as [->|Hr]; cbn [negb]; [|by rewrite wp_ret].
    destruct (Hread eq_refl) as [_ Hbytes]. rewrite wp_bind, wp_get.
    assert (Eph : get_phdr (l_kmem s1) buf = p) by (by apply get_phdr_shift). rewrite Eph.
    pose proof (Hsame _ _ _ HI Hsm) as HI1. clear HI.
    destruct ((p_type p =? PT_NULL) || (p_type p =? PT_PHDR) || (p_type p =? PT_MIPS_REGINFO)) eqn:Eskip.
    + apply (IH _ l); [|done]. rewrite decide_False in Ht; [done|]. intros E. rewrite E in Eskip. done.
    + destruct (Z.eqb_spec (p_type p) PT_LOAD) as [El|El]; cbn [negb]; [|by rewrite wp_ret].
      rewrite decide_True in Ht by done. rewrite wp_bind. eapply wp_mono; [|by eapply Hact]. cbv beta.
      intros r s2 HI2. destruct (Z.eqb_spec r 0) as [->|Hr]; cbn [negb]; [|by rewrite wp_ret].
      apply IH with (l := l ++ [p]); [by rewrite <-app_assoc|by apply HI2].
Qed.

(** ** The two regions *)

(** A segment in user memory below the stack, not in page 0. *)
Definition seg_ok (p : Elf_Phdr) : Prop :=
  PAGE_SIZE <= p_vaddr p /\ 0 < p_memsz p /\ p_vaddr p + p_memsz p <= USERSTACK - DUMBVM_STACKPAGES * PAGE_SIZE /\
  0 <= p_filesz p /\ 0 <= p_offset p.
Definition first_page (p : Elf_Phdr) : Z := p_vaddr p / PAGE_SIZE.
Definition end_page (p : Elf_Phdr) : Z := (p_vaddr p + p_memsz p + PAGE_SIZE - 1) / PAGE_SIZE.

(** The address space with its regions defined for the segments. *)
Definition with_regions (l : list Elf_Phdr) : addrspace :=
  match l with
  | [] => As 0 0 0 0 0 0 0
  | [p1] => As (first_page p1 * PAGE_SIZE) 0 (end_page p1 - first_page p1) 0 0 0 0
  | p1 :: p2 :: _ => As (first_page p1 * PAGE_SIZE) 0 (end_page p1 - first_page p1)
                        (first_page p2 * PAGE_SIZE) 0 (end_page p2 - first_page p2) 0
  end.

Lemma seg_pages p : seg_ok p -> 1 <= first_page p /\ first_page p < end_page p /\
  end_page p <= 2 ^ 19 - DUMBVM_STACKPAGES /\ first_page p * PAGE_SIZE <= p_vaddr p /\
  p_vaddr p + p_memsz p <= end_page p * PAGE_SIZE.
Proof.
  unfold seg_ok, first_page, end_page, USERSTACK, DUMBVM_STACKPAGES, PAGE_SIZE. intros (H1 & H2 & H3 & _ & _).
  pose proof (Z.div_mod (p_vaddr p) 4096). pose proof (Z.mod_pos_bound (p_vaddr p) 4096).
  pose proof (Z.div_mod (p_vaddr p + p_memsz p + 4096 - 1) 4096).
  pose proof (Z.mod_pos_bound (p_vaddr p + p_memsz p + 4096 - 1) 4096). lia.
Qed.

Lemma define_seg a p t : can_sleep t = true -> seg_ok p ->
  as_define_region a (p_vaddr p) (p_memsz p) t = Ret
    (if as_vbase1 a =? 0 then
       (0, As (first_page p * PAGE_SIZE) (as_pbase1 a) (end_page p - first_page p)
              (as_vbase2 a) (as_pbase2 a) (as_npages2 a) (as_stackpbase a))
     else if as_vbase2 a =? 0 then
       (0, As (as_vbase1 a) (as_pbase1 a) (as_npages1 a)
              (first_page p * PAGE_SIZE) (as_pbase2 a) (end_page p - first_page p) (as_stackpbase a))
     else (ENOSYS, a)) t.
Proof.
  intros Hs Hp. pose proof (seg_pages p Hp) as Hpg. pose proof Hp as (H1 & H2 & H3 & _).
  unfold USERSTACK, DUMBVM_STACKPAGES, PAGE_SIZE in *. pose proof (Z.mod_pos_bound (p_vaddr p) 4096).
  destruct (as_define_region_spec t a (p_vaddr p) (p_memsz p)) as (v & n & Hv & Hn & ->); [done|lia..|].
  unfold PAGE_SIZE in *. pose proof (Z.div_mod (p_vaddr p) 4096). assert (v = first_page p) as -> by (unfold first_page, PAGE_SIZE; lia).
  assert (n = end_page p - first_page p) as ->; [|done].
  unfold end_page, PAGE_SIZE. pose proof (Z.div_mod (p_vaddr p + p_memsz p + 4096 - 1) 4096).
  pose proof (Z.mod_pos_bound (p_vaddr p + p_memsz p + 4096 - 1) 4096). lia.
Qed.

(** The first loop: the address space gets the regions, the machine is unchanged; a
    third segment is refused. *)
Lemma define_loop v buf eh s total :
  l_as s = with_regions [] -> can_sleep (l_vm s) = true -> Forall seg_ok (take 3 total) ->
  total = loads (headers (file v) eh (Z.to_nat (e_phnum eh)) 0) ->
  wp (ph_loop (Z.to_nat (e_phnum eh)) 0 v buf eh
        (fun ph => on_as (fun a => as_define_region a (p_vaddr ph) (p_memsz ph))))
     (fun r s' => r = 0 -> (length total <= 2)%nat /\ l_as s' = with_regions total /\ l_vm s' = l_vm s) s.
Proof.
  intros Ha Hsl Hseg Ht.
  apply (ph_loop_spec v buf eh _ (fun l s' => (length l <= 2)%nat /\ l_as s' = with_regions l /\ l_vm s' = l_vm s)
    total _ 0 []); [|clear Ht|done|split_and!; [cbn; lia|done..]].
  - intros l s1 s2 (? & ? & ?) [E1 E2]. split_and!; congruence.
  - intros l p rest s1 Et (Hl & Ea & Ev).
    assert (Hp : seg_ok p).
    { rewrite Forall_forall in Hseg. apply Hseg. rewrite Et. rewrite take_app_ge by lia.
      destruct (3 - length l)%nat eqn:E; [lia|]. cbn. apply elem_of_app. right. by left. }
    unfold wp, on_as. rewrite Ev, define_seg, Ea by done. pose proof (seg_pages p Hp) as (? & _).
    assert (Hnz : forall q, seg_ok q -> (first_page q * PAGE_SIZE =? 0) = false).
    { intros q Hq. pose proof (seg_pages q Hq). apply Z.eqb_neq. unfold PAGE_SIZE. lia. }
    destruct l as [|p1 [|p2 [|]]]; cbn [length] in Hl; [| | |lia]; cbn -[Z.mul first_page end_page].
    + intros _. split_and!; [lia|done..].
    + rewrite (Hnz p1); [intros _; split_and!; [lia|done..]|].
      rewrite Forall_forall in Hseg. apply Hseg. rewrite Et. cbn. by left.
    + rewrite (Hnz p1), (Hnz p2); [done|..]; rewrite Forall_forall in Hseg; apply Hseg; rewrite Et; cbn;
        [right; by left|by left].
Qed.

(** ** User addresses *)

Lemma phys_spec t blocks a va :
  inv t blocks -> owns blocks a -> regions_ok a -> 0 <= va < 2 ^ 32 ->
  phys a va = (fun f => f * PAGE_SIZE + va mod PAGE_SIZE) <$> frame_of a (va / PAGE_SIZE).
Proof.
  intros Hi Ho Hr Hva. unfold phys. rewrite (translate_spec t blocks) by
    (done || (unfold PAGE_SIZE; split; [apply Z.div_pos|apply Z.div_lt_upper_bound]; lia)).
  by destruct (frame_of a (va / PAGE_SIZE)).
Qed.

Lemma phys_inj t blocks a va va' x :
  inv t blocks -> owns blocks a -> regions_ok a -> 0 <= va < 2 ^ 32 -> 0 <= va' < 2 ^ 32 ->
  phys a va = Some x -> phys a va' = Some x -> va = va'.
Proof.
  intros Hi Ho Hr Hva Hva'. rewrite !(phys_spec t blocks) by done.
  intros (f & Hf & ->)%fmap_Some (f' & Hf' & E)%fmap_Some. unfold PAGE_SIZE in *.
  pose proof (Z.mod_pos_bound va 4096). pose proof (Z.mod_pos_bound va' 4096).
  assert (f' = f) as -> by lia. pose proof (frame_of_inj _ _ _ _ _ _ Hi Ho Hf Hf').
  pose proof (Z.div_mod va 4096). pose proof (Z.div_mod va' 4096). lia.
Qed.

(** A mapped byte is in one of the three blocks of the address space. *)
Lemma phys_block t blocks a va x :
  inv t blocks -> owns blocks a -> regions_ok a -> 0 <= va < 2 ^ 32 -> phys a va = Some x ->
  in_mem x (as_pbase1 a / PAGE_SIZE) (as_npages1 a) \/ in_mem x (as_pbase2 a / PAGE_SIZE) (as_npages2 a) \/
  in_mem x (as_stackpbase a / PAGE_SIZE) DUMBVM_STACKPAGES.
Proof.
  intros Hi Ho Hr Hva. rewrite (phys_spec t blocks) by done. intros (f & Hf & ->)%fmap_Some.
  pose proof (Z.mod_pos_bound va 4096). unfold frame_of, in_mem, in_block, PAGE_SIZE in *.
  repeat case_decide; simplify_eq; lia.
Qed.

(** The pages of the regions are mapped. *)
Lemma phys_mapped t blocks a va :
  inv t blocks -> owns blocks a -> regions_ok a -> 0 <= va < 2 ^ 32 ->
  as_vbase1 a <= va < as_vbase1 a + as_npages1 a * PAGE_SIZE \/
  as_vbase2 a <= va < as_vbase2 a + as_npages2 a * PAGE_SIZE -> is_Some (phys a va).
Proof.
  intros Hi Ho Hr Hva Hin. rewrite (phys_spec t blocks), fmap_is_Some by done.
  destruct Hr as (v1 & v2 & E1 & E2 & _). unfold frame_of. rewrite E1, E2 in *. unfold in_block, PAGE_SIZE in *.
  rewrite !Z.div_mul by lia. pose proof (Z.div_mod va 4096). pose proof (Z.mod_pos_bound va 4096).
  case_decide; [done|]. case_decide; [done|lia].
Qed.

(** ** Loading the segments *)

(** The byte of the user's memory at [va] when the segments [l] are loaded: from the
    last segment whose bytes in the file cover it, or zero. *)
Definition seg_len (p : Elf_Phdr) : Z := p_filesz p `min` p_memsz p.
Definition image (f : list Z) (l : list Elf_Phdr) (va : Z) : Z :=
  foldl (fun b p => if decide (p_vaddr p <= va < p_vaddr p + seg_len p)
                    then file_at f (p_offset p + (va - p_vaddr p)) else b) 0 l.

Lemma image_snoc f l p va : image f (l ++ [p]) va =
  if decide (p_vaddr p <= va < p_vaddr p + seg_len p) then file_at f (p_offset p + (va - p_vaddr p)) else image f l va.
Proof. unfold image. by rewrite foldl_app. Qed.

(** The state while the segments are loaded: [l] is done; [mem0] is what the memory of
    the other blocks holds. *)
Record loading (f : list Z) (a : addrspace) (blocks : gmap Z Z) (mem0 : Z -> Z) (l : list Elf_Phdr) s : Prop := {
  ld_as : l_as s = a;
  ld_sleep : can_sleep (l_vm s) = true;
  ld_inv : inv (l_vm s) blocks;
  ld_user va x : 0 <= va < 2 ^ 32 -> phys a va = Some x -> mem (l_vm s) x = image f l va;
  ld_rest x : (forall va, 0 <= va < 2 ^ 32 -> phys a va <> Some x) -> mem (l_vm s) x = mem0 x }.

Lemma loading_same f a blocks m0 l s s' :
  loading f a blocks m0 l s -> same_machine s s' -> loading f a blocks m0 l s'.
Proof. intros [L1 L2 L3 L4 L5] [E1 E2]. split; rewrite ?E1, ?E2; done. Qed.

Lemma load_segment_spec as_ptr v a blocks m0 l p x s :
  owns blocks a -> regions_ok a -> seg_ok p ->
  (forall i, 0 <= i < p_memsz p -> is_Some (phys a (p_vaddr p + i))) ->
  loading (file v) a blocks m0 l s ->
  wp (load_segment as_ptr v (p_offset p) (p_vaddr p) (p_memsz p) (p_filesz p) x)
     (fun r s' => r = 0 -> loading (file v) a blocks m0 (l ++ [p]) s') s.
Proof.
  intros Ho Hr (V1 & V2 & V3 & V4 & V5) Hmap [L1 L2 L3 L4 L5]. unfold load_segment.
  assert (E : (if p_memsz p <? p_filesz p then p_memsz p else p_filesz p) = seg_len p)
    by (unfold seg_len; destruct (Z.ltb_spec (p_memsz p) (p_filesz p)); lia).
  rewrite E. assert (Hlen : 0 <= seg_len p <= p_memsz p) by (unfold seg_len; lia).
  unfold USERSTACK, DUMBVM_STACKPAGES, PAGE_SIZE in V1, V3.
  rewrite wp_bind. eapply wp_mono; [|apply VOP_READ_user; [lia|lia|by destruct (negb (x =? 0))| |]]; cbv beta.
  2:{ intros i Hi. rewrite L1. apply Hmap. lia. }
  2:{ intros i j Hi Hj. rewrite L1. destruct (Hmap i) as [y Hy]; [lia|]. rewrite Hy. intros Hj'.
      assert (p_vaddr p + i = p_vaddr p + j); [|lia]. eapply phys_inj; try done; lia. }
  intros [r u] s'. cbn [fst snd]. intros [(Hr0 & _)|(-> & Eu & Ea & Ek & (m & t & Ev) & Hin & Hout)].
  { destruct (Z.eqb_spec r 0) as [|_]; [done|]. cbn [negb]. by rewrite wp_ret. }
  change (negb (0 =? 0)) with false. cbv iota. rewrite Eu.
  destruct (Z.eqb_spec (seg_len p - read_len (file v) (p_offset p) (seg_len p)) 0) as [E0|]; cbn [negb];
    rewrite wp_ret; [|done]. intros _.
  assert (read_len (file v) (p_offset p) (seg_len p) = seg_len p) as El by lia. rewrite El, L1 in *.
  split.
  - congruence.
  - by rewrite Ev.
  - rewrite Ev. by destruct L3; constructor.
  - intros va y Hva Hy. rewrite image_snoc. case_decide as Hc.
    + rewrite <-(Hin (va - p_vaddr p) y); [done|lia|]. rewrite <-Hy. f_equal. lia.
    + rewrite Hout; [by apply L4|]. intros i Hi Hy'. apply Hc.
      assert (va = p_vaddr p + i) as ->; [|lia]. eapply phys_inj; try done; lia.
  - intros y Hy. rewrite Hout; [by apply L5|]. intros i Hi. apply Hy. lia.
Qed.
(** The second loop. *)
Lemma load_loop as_ptr v buf eh a blocks m0 s total :
  owns blocks a -> regions_ok a -> Forall seg_ok total ->
  (forall p i, p ∈ total -> 0 <= i < p_memsz p -> is_Some (phys a (p_vaddr p + i))) ->
  total = loads (headers (file v) eh (Z.to_nat (e_phnum eh)) 0) ->
  loading (file v) a blocks m0 [] s ->
  wp (ph_loop (Z.to_nat (e_phnum eh)) 0 v buf eh
        (fun ph => load_segment as_ptr v (p_offset ph) (p_vaddr ph) (p_memsz ph) (p_filesz ph)
                     (Z.land (p_flags ph) PF_X)))
     (fun r s' => r = 0 -> loading (file v) a blocks m0 total s') s.
Proof.
  intros Ho Hr Hseg Hmap Ht HI. rewrite Forall_forall in Hseg.
  apply (ph_loop_spec v buf eh _ (loading (file v) a blocks m0) total _ 0 []); [|clear Ht|done|done].
  - intros l s1 s2. apply loading_same.
  - intros l p rest s1 Et HI1. assert (p ∈ total) by (rewrite Et; set_solver). apply load_segment_spec; auto.
Qed.

(** Two segments to load, in user memory, on different pages. *)
Definition segs_ok (l : list Elf_Phdr) : Prop :=
  Forall seg_ok l /\ exists p q rest, l = p :: q :: rest /\
    (end_page p <= first_page q \/ end_page q <= first_page p).

Lemma with_regions_ok p q b1 b2 b3 :
  seg_ok p -> seg_ok q -> end_page p <= first_page q \/ end_page q <= first_page p ->
  regions_ok (set_pbases b1 b2 b3 (with_regions [p; q])).
Proof.
  intros Hp Hq Hd. pose proof (seg_pages p Hp). pose proof (seg_pages q Hq).
  exists (first_page p), (first_page q). cbn. split_and!; try done; lia.
Qed.

Lemma with_regions_mapped t blocks p q b1 b2 b3 x i :
  let a := set_pbases b1 b2 b3 (with_regions [p; q]) in
  inv t blocks -> owns blocks a -> regions_ok a -> seg_ok p -> seg_ok q ->
  x ∈ [p; q] -> 0 <= i < p_memsz x -> is_Some (phys a (p_vaddr x + i)).
Proof.
  intros a Hi Ho Hr Hp Hq Hx Hlt. pose proof (seg_pages p Hp). pose proof (seg_pages q Hq).
  pose proof Hp as (_ & _ & ? & _). pose proof Hq as (_ & _ & ? & _).
  unfold USERSTACK, DUMBVM_STACKPAGES, PAGE_SIZE in *.
  assert (x = p \/ x = q) as [-> | ->] by set_solver;
    (eapply phys_mapped; [done..|lia|]; cbn -[Z.mul first_page end_page]; unfold PAGE_SIZE; lia).
Qed.

(** The memory for the two regions, empty. *)
Lemma prepare_two s blocks p q :
  inv (l_vm s) blocks -> can_sleep (l_vm s) = true -> seg_ok p -> seg_ok q ->
  end_page p <= first_page q \/ end_page q <= first_page p -> l_as s = with_regions [p; q] ->
  wp (on_as as_prepare_load) (fun r s' => r = 0 -> exists blocks',
    blocks ⊆ blocks' /\ owns blocks' (l_as s') /\ regions_ok (l_as s') /\
    (forall x i, x ∈ [p; q] -> 0 <= i < p_memsz x -> is_Some (phys (l_as s') (p_vaddr x + i))) /\
    (forall b n va x, blocks !! b = Some n -> in_mem x b n -> 0 <= va < 2 ^ 32 -> phys (l_as s') va <> Some x) /\
    exists m0, loading [] (l_as s') blocks' m0 [] s' /\
      forall b n x, blocks !! b = Some n -> in_mem x b n -> m0 x = mem (l_vm s) x) s.
Proof.
  intros Hi Hsl Hp Hq Hd Ea. unfold wp, on_as. rewrite Ea.
  pose proof (seg_pages p Hp) as (? & ? & ? & _). pose proof (seg_pages q Hq) as (? & ? & ? & _).
  pose proof (as_prepare_load_spec (l_vm s) blocks (with_regions [p; q]) Hi Hsl eq_refl eq_refl eq_refl) as Hw.
  unfold wp, DUMBVM_STACKPAGES in *.
  specialize (Hw ltac:(cbn -[first_page end_page]; lia) ltac:(cbn -[first_page end_page]; lia)).
  destruct (as_prepare_load (with_regions [p; q]) (l_vm s)) as [[r a] t|w|w|]; [|done..].
  destruct Hw as [[E _]|(b1 & b2 & b3 & E & I' & B1 & B2 & B3 & N12 & N13 & N23 & Hs' & _ & Hm)];
    cbn [fst snd] in E; [subst r; intros ?; discriminate|]. simplify_eq. intros _. cbn [l_as l_vm].
  set (blocks' := <[b3:=_]> _) in *. set (a := set_pbases _ _ _ _).
  assert (Hsub : blocks ⊆ blocks') by (repeat apply insert_subseteq_r; rewrite ?lookup_insert_ne; done || congruence).
  assert (Ho : owns blocks' a).
  { exists b1, b2, b3. unfold blocks'. split_and!; try done;
      by rewrite ?lookup_insert_eq, 1?lookup_insert_ne, ?lookup_insert_eq, 1?lookup_insert_ne, ?lookup_insert_eq. }
  assert (Hr : regions_ok a) by by apply with_regions_ok.
  assert (Hblk : forall va x, 0 <= va < 2 ^ 32 -> phys a va = Some x ->
    in_mem x b1 (as_npages1 a) \/ in_mem x b2 (as_npages2 a) \/ in_mem x b3 DUMBVM_STACKPAGES).
  { intros va x Hva Hx. apply (phys_block t blocks') in Hx; [|done..]. cbn in Hx.
    unfold PAGE_SIZE in Hx. by rewrite !Z.div_mul in Hx by lia. }
  assert (Hdis : forall b n x, blocks !! b = Some n -> in_mem x b n ->
    ~ (in_mem x b1 (as_npages1 a) \/ in_mem x b2 (as_npages2 a) \/ in_mem x b3 DUMBVM_STACKPAGES)).
  { intros b n x Hb Hx. assert (Hb' := lookup_weaken _ _ _ _ Hb Hsub).
    intros [Hy|[Hy|Hy]]; revert Hy; (eapply (in_mem_disjoint t blocks'); [done|done| | |done]); try congruence; unfold blocks';
      by rewrite ?lookup_insert_eq, 1?lookup_insert_ne, ?lookup_insert_eq, 1?lookup_insert_ne, ?lookup_insert_eq. }
  exists blocks'. split_and!; try done.
  - intros x i Hx Hlt. by eapply (with_regions_mapped t blocks').
  - intros b n va x Hb Hx Hva Hp'. by eapply Hdis, Hblk.
  - exists (fun x => mem t x). split.
    + split; cbn [l_as l_vm]; try done; [congruence|]. intros va x Hva Hx.
      rewrite Hm, decide_True; [done|]. by eapply Hblk.
    + intros b n x Hb Hx. rewrite Hm, decide_False; [done|]. by eapply Hdis.
Qed.
(** C36. [load_elf] of a file with two segments to load, in user memory and on different
    pages: it ends without panic, with an error, or with the entry point of a good
    header.  In the second case the address space has two regions over fresh memory, every
    byte of a segment is mapped, and every mapped byte - to the end of the last pages, and
    of the stack - holds the byte of the file or zero; other memory is unchanged.  A third
    segment to load is always refused. *)
Theorem load_elf_correct as_ptr v eh_buf ph_buf s blocks :
  let f := file v in
  let eh := file_ehdr f in
  let segs := loads (headers f eh (Z.to_nat (e_phnum eh)) 0) in
  inv (l_vm s) blocks -> can_sleep (l_vm s) = true -> l_as s = As 0 0 0 0 0 0 0 ->
  (good_header eh = true -> segs_ok segs) ->
  wp (load_elf as_ptr v eh_buf ph_buf) (fun r s' =>
    match r with
    | inl e => e <> 0
    | inr entry => good_header eh = true /\ entry = e_entry eh /\ length segs = 2%nat /\
        exists blocks', inv (l_vm s') blocks' /\ blocks ⊆ blocks' /\ owns blocks' (l_as s') /\ regions_ok (l_as s') /\
          (forall p i, p ∈ segs -> 0 <= i < p_memsz p -> is_Some (phys (l_as s') (p_vaddr p + i))) /\
          (forall va x, 0 <= va < 2 ^ 32 -> phys (l_as s') va = Some x -> mem (l_vm s') x = image f segs va) /\
          (forall b n x, blocks !! b = Some n -> in_mem x b n -> mem (l_vm s') x = mem (l_vm s) x)
    end) s.
Proof.
  intros f eh segs Hinv Hsl Ha Hsegs. unfold load_elf.
  rewrite wp_bind. eapply wp_mono; [|by apply read_header_spec]. cbv beta. intros r s1 ((E1 & E2) & Hread).
  destruct (Z.eqb_spec r 0) as [->|Hr]; cbn [negb]; [|by rewrite wp_ret]. destruct (Hread eq_refl) as [_ Hb].
  rewrite wp_bind, wp_get.
  assert (get_ehdr (l_kmem s1) eh_buf = eh) as -> by (by apply get_ehdr_shift).
  destruct (good_header eh) eqn:Eg; cbn [negb]; [|by rewrite wp_ret].
  destruct (Hsegs eq_refl) as (Hok & p & q & rest & Et & Hd). clear Hread Hb Hsegs.
  rewrite wp_bind. eapply wp_mono; [|apply (define_loop v ph_buf eh s1 segs); [by rewrite E1|by rewrite E2| |done]].
  2:{ by apply Forall_take. }
  cbv beta. intros r s2 H2. destruct (Z.eqb_spec r 0) as [->|Hr]; cbn [negb]; [|by rewrite wp_ret].
  destruct (H2 eq_refl) as (Hl & E3 & E4). destruct rest; [|rewrite Et in Hl; cbn in Hl; lia].
  rewrite Et in E3. pose proof Hok as Hok'. rewrite Et, !Forall_cons in Hok'. destruct Hok' as (Hp & Hq & _).
  rewrite wp_bind. eapply wp_mono; [|apply (prepare_two s2 blocks p q); try done; congruence].
  cbv beta. intros r s3 H3. destruct (Z.eqb_spec r 0) as [->|Hr]; cbn [negb]; [|by rewrite wp_ret].
  destruct (H3 eq_refl) as (blocks' & Hsub & Ho & Hreg & Hmap & Hapart & m0 & HI & Hm0). rewrite <-Et in Hmap.
  rewrite wp_bind. eapply wp_mono; [|apply (load_loop as_ptr v ph_buf eh (l_as s3) blocks' m0 s3 segs); try done].
  2:{ by destruct HI; constructor. }
  cbv beta. intros r s4 H4. destruct (Z.eqb_spec r 0) as [->|Hr]; cbn [negb]; [|by rewrite wp_ret].
  destruct (H4 eq_refl) as [L1 L2 L3 L4 L5].
  rewrite wp_bind. unfold wp at 1, on_as, as_complete_load, dumbvm_can_sleep. kunfold. rewrite L2. cbn.
  rewrite L1. split_and!; try done; [by rewrite Et|]. exists blocks'. split_and!; try done.
  intros b n x Hb Hx. rewrite L5.
  - rewrite <-E2, <-E4. by eapply Hm0.
  - intros va Hva. by eapply Hapart.
Qed.
End Loadelf_facts.

(** ** A small executable *)

Section Loadelf_sample.
Import Loadelf.

Definition half (z : Z) : list Z := [z / 256; z mod 256].
Definition quad (z : Z) : list Z := half (z / 65536) ++ half (z mod 65536).
(** Code of 8 bytes at 0x400004, and data of 4 bytes out of 16 at 0x10000ffc. *)
Definition sample_file : list Z :=
  [0x7f; 69; 76; 70; 1; 2; 1; 0; 0; 0; 0; 0; 0; 0; 0; 0] ++ half 2 ++ half 8 ++ quad 1 ++ quad 0x400004 ++
  quad 52 ++ quad 0 ++ quad 0 ++ half 52 ++ half 32 ++ half 3 ++ half 0 ++ half 0 ++ half 0 ++
  (quad PT_MIPS_REGINFO ++ concat (replicate 7 (quad 0))) ++
  (quad PT_LOAD ++ quad 148 ++ quad 0x400004 ++ quad 0 ++ quad 8 ++ quad 8 ++ quad 5 ++ quad 0) ++
  (quad PT_LOAD ++ quad 156 ++ quad 0x10000ffc ++ quad 0 ++ quad 4 ++ quad 16 ++ quad 6 ++ quad 0) ++
  [11; 12; 13; 14; 15; 16; 17; 18; 21; 22; 23; 24].

(** A read that never fails. *)
Definition store_user (f : list Z) (off base : Z) (a : addrspace) (n : nat) (m : Z -> Z) : Z -> Z :=
  foldl (fun m i => match phys a (base + Z.of_nat i) with
                    | Some x => fun y => if decide (y = x) then file_at f (off + Z.of_nat i) else m y
                    | None => m end) m (seq 0 n).

Definition read_all (v : Z) (u : uio) : K loader (Z * uio) := fun s =>
  match uio_iov u with
  | [] => Ret (0, u) s
  | iov :: _ =>
      let f := if decide (v = 0) then sample_file else [] in
      let base := iov_base iov in let off := uio_offset u in
      let n := read_len f off (uio_resid u) in
      Ret (0, Uio (uio_iov u) (off + n) (uio_resid u - n) (uio_segflg u) (uio_rw u) (uio_space u))
        (if decide (uio_segflg u = UIO_SYSSPACE)
         then Loader (l_as s) (l_vm s)
                (fun x => if decide (base <= x < base + n) then file_at f (off + (x - base)) else l_kmem s x)
         else Loader (l_as s) (set_mem (store_user f off base (l_as s) (Z.to_nat n) (mem (l_vm s))) (l_vm s)) (l_kmem s))
  end.

Lemma store_user_spec f off base a n m :
  (forall i j, 0 <= i < Z.of_nat n -> 0 <= j < Z.of_nat n -> is_Some (phys a (base + i)) ->
     phys a (base + i) = phys a (base + j) -> i = j) ->
  (forall i x, 0 <= i < Z.of_nat n -> phys a (base + i) = Some x -> store_user f off base a n m x = file_at f (off + i)) /\
  (forall x, (forall i, 0 <= i < Z.of_nat n -> phys a (base + i) <> Some x) -> store_user f off base a n m x = m x).
Proof.
  induction n as [|n IH]; intros Hinj; [split; [lia|done]|].
  unfold store_user in *. rewrite seq_S, foldl_app. cbn [foldl Nat.add].
  destruct IH as [IHin IHout]; [intros i j Hi Hj; apply Hinj; lia|].
  split.
  - intros i x Hi Hx. destruct (decide (i = Z.of_nat n)) as [->|Hne]; [by rewrite Hx, decide_True|].
    destruct (phys a (base + Z.of_nat n)) as [y|] eqn:Ey; [|apply IHin; [lia|done]].
    rewrite decide_False; [apply IHin; [lia|done]|]. intros ->. apply Hne.
    apply Hinj; [lia..|by rewrite Hx|congruence].
  - intros x Hx. destruct (phys a (base + Z.of_nat n)) as [y|] eqn:Ey.
    + rewrite decide_False; [apply IHout; intros i Hi; apply Hx; lia|]. intros ->. apply (Hx (Z.of_nat n)); [lia|done].
    + apply IHout. intros i Hi. apply Hx. lia.
Qed.

Program Instance sample_env : ElfEnv := {|
  file := fun v => if decide (v = 0) then sample_file else [];
  VOP_READ := read_all |}.
Next Obligation.
  intros v base len off s Hl Ho. unfold wp, read_all. cbn -[read_len sample_file]. right. by split_and!.
Qed.
Next Obligation.
  intros v base len n off seg sp s Hn Ho Hseg Hmap Hinj. unfold wp, read_all.
  cbn -[read_len sample_file decide store_user]. set (f := if decide (v = 0) then _ else _).
  rewrite decide_False by done. right. split_and!; [done..|].
  assert (Hlen : 0 <= read_len f off n <= n) by (unfold read_len; lia).
  destruct (store_user_spec f off base (l_as s) (Z.to_nat (read_len f off n)) (mem (l_vm s))) as [Hin Hout].
  { intros i j Hi Hj _. apply Hinj; lia. }
  unfold read_user. split_and!; cbn -[read_len sample_file decide store_user]; try done.
  - by exists (store_user f off base (l_as s) (Z.to_nat (read_len f off n)) (mem (l_vm s))), (tlb (l_vm s)).
  - intros i x Hi. apply Hin. lia.
  - intros x Hx. apply Hout. intros i Hi. apply Hx. lia.
Qed.

Definition sample_loader : loader := Loader (As 0 0 0 0 0 0 0) Addrspace.sample (fun _ => 0xaa).

(** The first byte of code, the last byte of data and the byte after it. *)
Definition peek (s : loader) (va : Z) : option Z := mem (l_vm s) <$> phys (l_as s) va.
Example load_sample :
  match load_elf 1 0 0x80001000 0x80002000 sample_loader with
  | Ret (inr e) s => (e, peek s <$> [0x400003; 0x400004; 0x10000fff; 0x10001000; 0x7fffffff; 0x500000])
                     = (0x400004, [Some 0; Some 11; Some 24; Some 0; Some 0; None])
  | _ => False
  end.
Proof. vm_compute. reflexivity. Qed.

Lemma sample_segs :
  let eh := file_ehdr sample_file in
  loads (headers sample_file eh (Z.to_nat (e_phnum eh)) 0) =
    [Phdr 1 148 0x400004 8 8 5; Phdr 1 156 0x10000ffc 4 16 6].
Proof. vm_compute. reflexivity. Qed.

Lemma sample_segs_ok : segs_ok [Phdr 1 148 0x400004 8 8 5; Phdr 1 156 0x10000ffc 4 16 6].
Proof.
  split; [|by eexists _, _, []; split; [done|left; vm_compute]].
  repeat constructor; by vm_compute.
Qed.

Lemma load_elf_correct_witness :
  wp (load_elf 1 0 0x80001000 0x80002000) (fun r s' =>
    match r with inl e => e <> 0 | inr entry => entry = 0x400004 /\ regions_ok (l_as s') end) sample_loader.
Proof.
  eapply wp_mono; [|apply (load_elf_correct 1 0 0x80001000 0x80002000 sample_loader sample_blocks as_sample_inv eq_refl eq_refl)].
  - intros [e|entry] s' H; [exact H|]. destruct H as (_ & -> & _ & blocks' & _ & _ & _ & Hr & _).
    split; [by vm_compute|exact Hr].
  - intros _. change (file 0) with sample_file. rewrite sample_segs. exact sample_segs_ok.
Defined.
End Loadelf_sample.
