(* ===== verification/Syscall.v ===== *)
(** * The system call dispatcher: [kern/arch/mips/syscall/syscall.c]

    [syscall] decodes the registers of a trap frame, calls the handler and puts its
    answer into the frame.  The handlers are an interface, [Syscalls]; [Kernel]
    implements it with the modelled components.  The specification is the view of the
    user program: typed calls, encoded as the comment in [syscall.c] prescribes, that
    answer with a value or an error number. *)
From S2P Require Import Prelude.

(** The saved registers a system call uses, and the others. *)
Record trapframe := Trapframe {
  tf_v0 : Z; tf_v1 : Z; tf_a0 : Z; tf_a1 : Z; tf_a2 : Z; tf_a3 : Z; tf_sp : Z; tf_epc : Z;
  tf_other : list Z }.

(** What a handler that does not fall through leaves: [_exit] ends the thread; a
    successful [execv] enters the new program with argc, stack pointer and entry point. *)
Inductive resume := Resume (tf : trapframe) | Exited | Entered (argc stackptr entry : Z).

(** The handlers.  A handler with an [int *err] gives its value and what it stored
    there, if it did. *)
Class Syscalls (S : Type) := {
  sys_reboot : Z -> K S Z;
  sys___time : Z -> Z -> K S Z;
  sys_open : Z -> Z -> Z -> K S (Z * option Z);
  sys_close : Z -> K S (Z * option Z);
  sys_chdir : Z -> K S (Z * option Z);
  sys_fstat : Z -> Z -> K S (Z * option Z);
  sys_mkdir : Z -> Z -> K S (Z * option Z);
  sys___getcwd : Z -> Z -> K S (Z * option Z);
  sys_dup2 : Z -> Z -> K S (Z * option Z);
  sys_lseek : Z -> Z -> Z -> K S (Z * option Z);
  sys_write : Z -> Z -> Z -> K S (Z * option Z);
  sys_read : Z -> Z -> Z -> K S (Z * option Z);
  sys__exit : Z -> K S ();
  sys_waitpid : Z -> Z -> Z -> K S (Z * option Z);
  sys_getpid : K S Z;
  (** The return value and [*retval]. *)
  sys_fork : trapframe -> K S (Z * Z);
  sys_execv : Z -> Z -> K S (Z + Z * Z * Z);
  (** [copyin] of an [int]: an error or the value. *)
  copyin_int : Z -> K S (Z + Z) }.

Module Syscall.
Definition SYS_fork : Z := 0.
Definition SYS_execv : Z := 2.
Definition SYS__exit : Z := 3.
Definition SYS_waitpid : Z := 4.
Definition SYS_getpid : Z := 5.
Definition SYS_open : Z := 45.
Definition SYS_dup2 : Z := 48.
Definition SYS_close : Z := 49.
Definition SYS_read : Z := 50.
Definition SYS_write : Z := 55.
Definition SYS_lseek : Z := 59.
Definition SYS_remove : Z := 68.
Definition SYS_mkdir : Z := 69.
Definition SYS_chdir : Z := 74.
Definition SYS___getcwd : Z := 76.
Definition SYS_fstat : Z := 82.
Definition SYS___time : Z := 113.
Definition SYS_reboot : Z := 119.

(** [err] after a handler: it was 0 before. *)
Definition err_of (r : Z * option Z) : Z := default 0 r.2.

(** The end of [syscall]: the answer and the next instruction. *)
Definition finish (tf : trapframe) (callno err retval ret_offset : Z) : trapframe :=
  if negb (err =? 0) then
    Trapframe (u32 err) (tf_v1 tf) (tf_a0 tf) (tf_a1 tf) (tf_a2 tf) 1 (tf_sp tf) (u32 (tf_epc tf + 4)) (tf_other tf)
  else if callno =? SYS_lseek then
    Trapframe (u32 (Z.shiftr ret_offset 32)) (u32 (Z.land ret_offset 0xffffffff))
      (tf_a0 tf) (tf_a1 tf) (tf_a2 tf) 0 (tf_sp tf) (u32 (tf_epc tf + 4)) (tf_other tf)
  else
    Trapframe (u32 retval) (tf_v1 tf) (tf_a0 tf) (tf_a1 tf) (tf_a2 tf) 0 (tf_sp tf) (u32 (tf_epc tf + 4)) (tf_other tf).

(** The child's copy of the frame: [enter_forked_process]. *)
Definition enter_forked_process (tf : trapframe) : trapframe :=
  Trapframe 0 (tf_v1 tf) (tf_a0 tf) (tf_a1 tf) (tf_a2 tf) 0 (tf_sp tf) (u32 (tf_epc tf + 4)) (tf_other tf).

Section dispatcher.
Context {S : Type} `{Syscalls S}.

Definition syscall (tf : trapframe) : K S resume :=
  let callno := s32 (tf_v0 tf) in
  let done (err retval : Z) : K S resume := mret (Resume (finish tf callno err retval 0)) in
  let pair (m : K S (Z * option Z)) : K S resume := r ← m; done (err_of r) r.1 in
  if callno =? SYS_reboot then err ← sys_reboot (s32 (tf_a0 tf)); done err 0
  else if callno =? SYS___time then err ← sys___time (tf_a0 tf) (tf_a1 tf); done err 0
  else if callno =? SYS_open then pair (sys_open (tf_a0 tf) (s32 (tf_a1 tf)) (tf_a2 tf))
  else if callno =? SYS_close then pair (sys_close (s32 (tf_a0 tf)))
  else if callno =? SYS_remove then done 0 0
  else if callno =? SYS_chdir then pair (sys_chdir (tf_a0 tf))
  else if callno =? SYS_fstat then pair (sys_fstat (s32 (tf_a0 tf)) (tf_a1 tf))
  else if callno =? SYS_mkdir then pair (sys_mkdir (tf_a0 tf) (tf_a1 tf))
  else if callno =? SYS___getcwd then pair (sys___getcwd (tf_a0 tf) (tf_a1 tf))
  else if callno =? SYS_dup2 then pair (sys_dup2 (s32 (tf_a0 tf)) (s32 (tf_a1 tf)))
  else if callno =? SYS_lseek then
    let offset_lseek := s64 (Z.lor (Z.shiftl (tf_a2 tf) 32) (tf_a3 tf)) in
    w ← copyin_int (u32 (tf_sp tf + 16));
    match w with
    | inl err => done err 0
    | inr whence =>
        r ← sys_lseek (s32 (tf_a0 tf)) offset_lseek whence;
        mret (Resume (finish tf callno (err_of r) 0 r.1))
    end
  else if callno =? SYS_write then pair (sys_write (s32 (tf_a0 tf)) (tf_a1 tf) (tf_a2 tf))
  else if callno =? SYS_read then pair (sys_read (s32 (tf_a0 tf)) (tf_a1 tf) (tf_a2 tf))
  else if callno =? SYS__exit then sys__exit (s32 (tf_a0 tf));; mret Exited
  else if callno =? SYS_waitpid then
    r ← sys_waitpid (s32 (tf_a0 tf)) (tf_a1 tf) (s32 (tf_a2 tf)); done (err_of r) 0
  else if callno =? SYS_getpid then
    retval ← sys_getpid; done (if retval <? 0 then ENOSYS else 0) retval
  else if callno =? SYS_fork then
    '(err, retval) ← sys_fork tf; done (if err <? 0 then retval else err) retval
  else if callno =? SYS_execv then
    r ← sys_execv (tf_a0 tf) (tf_a1 tf);
    match r with
    | inl err => done err 0
    | inr (argc, stackptr, entry) => mret (Entered argc stackptr entry)
    end
  else done ENOSYS 0.

(** ** The user program's view *)

Inductive call :=
  | Reboot (code : Z) | Time (secs nsecs : Z) | Open (path flags mode : Z) | Close (fd : Z) | Remove (path : Z)
  | Chdir (path : Z) | Fstat (fd buf : Z) | Mkdir (path mode : Z) | Getcwd (buf len : Z) | Dup2 (old new : Z)
  | Lseek (fd pos whence : Z) | Write (fd buf n : Z) | Read (fd buf n : Z) | Exit (code : Z)
  | Waitpid (pid status options : Z) | Getpid | Fork | Execv (program args : Z) | Unknown (n : Z).

Definition callno (c : call) : Z :=
  match c with
  | Reboot _ => SYS_reboot | Time _ _ => SYS___time | Open _ _ _ => SYS_open | Close _ => SYS_close
  | Remove _ => SYS_remove | Chdir _ => SYS_chdir | Fstat _ _ => SYS_fstat | Mkdir _ _ => SYS_mkdir
  | Getcwd _ _ => SYS___getcwd | Dup2 _ _ => SYS_dup2 | Lseek _ _ _ => SYS_lseek | Write _ _ _ => SYS_write
  | Read _ _ _ => SYS_read | Exit _ => SYS__exit | Waitpid _ _ _ => SYS_waitpid | Getpid => SYS_getpid
  | Fork => SYS_fork | Execv _ _ => SYS_execv | Unknown n => n
  end.

(** The arguments in the registers: 64-bit ones in an aligned pair, the high word
    first. *)
Definition encode (c : call) (tf : trapframe) : trapframe :=
  let regs (a0 a1 a2 a3 : Z) :=
    Trapframe (u32 (callno c)) (tf_v1 tf) (u32 a0) (u32 a1) (u32 a2) (u32 a3) (tf_sp tf) (tf_epc tf) (tf_other tf) in
  match c with
  | Reboot a | Close a | Remove a | Chdir a | Exit a => regs a (tf_a1 tf) (tf_a2 tf) (tf_a3 tf)
  | Time a b | Fstat a b | Mkdir a b | Getcwd a b | Dup2 a b | Execv a b => regs a b (tf_a2 tf) (tf_a3 tf)
  | Open a b d | Write a b d | Read a b d | Waitpid a b d => regs a b d (tf_a3 tf)
  | Lseek fd pos _ => regs fd (tf_a1 tf) (Z.shiftr pos 32) pos
  | Getpid | Fork | Unknown _ => regs (tf_a0 tf) (tf_a1 tf) (tf_a2 tf) (tf_a3 tf)
  end.

Definition int32 (z : Z) : Prop := - 2 ^ 31 <= z < 2 ^ 31.
Definition word32 (z : Z) : Prop := 0 <= z < 2 ^ 32.

(** Arguments that fit their types; an unknown number is none of the others. *)
Definition well_typed (c : call) : Prop :=
  match c with
  | Reboot a | Close a | Exit a => int32 a
  | Remove a | Chdir a => word32 a
  | Time a b | Mkdir a b | Getcwd a b | Execv a b => word32 a /\ word32 b
  | Fstat a b => int32 a /\ word32 b
  | Dup2 a b => int32 a /\ int32 b
  | Open a b d => word32 a /\ int32 b /\ word32 d
  | Write a b d | Read a b d => int32 a /\ word32 b /\ word32 d
  | Waitpid a b d => int32 a /\ word32 b /\ int32 d
  | Lseek fd pos whence => int32 fd /\ - 2 ^ 63 <= pos < 2 ^ 63
  | Getpid | Fork => True
  | Unknown n => int32 n /\ n ∉ [SYS_fork; SYS_execv; SYS__exit; SYS_waitpid; SYS_getpid; SYS_open; SYS_dup2; SYS_close;
      SYS_read; SYS_write; SYS_lseek; SYS_remove; SYS_mkdir; SYS_chdir; SYS___getcwd; SYS_fstat; SYS___time; SYS_reboot]
  end.

(** What the program sees when it goes on: an error number, or a value. *)
Definition reply (c : call) (tf : trapframe) : Z + Z :=
  if negb (tf_a3 tf =? 0) then inl (s32 (tf_v0 tf)) else
  match c with
  | Lseek _ _ _ => inr (s64 (Z.lor (Z.shiftl (tf_v0 tf) 32) (tf_v1 tf)))
  | _ => inr (s32 (tf_v0 tf))
  end.

Inductive view := Answer (r : Z + Z) | Gone | NewProgram (argc stackptr entry : Z).

(** The abstract call: its handler on the typed arguments, and what of the answer
    reaches the program.  The value of [waitpid] does not. *)
Definition answer (r : Z * option Z) : view :=
  Answer (if err_of r =? 0 then inr r.1 else inl (err_of r)).
Definition answer_err (err : Z) : view := Answer (if err =? 0 then inr 0 else inl err).

Definition map_result {A B} (f : A -> B) (m : K S A) : K S B := r ← m; mret (f r).

Definition perform (tf : trapframe) (c : call) : K S view :=
  match c with
  | Reboot code => map_result answer_err (sys_reboot code)
  | Time a b => map_result answer_err (sys___time a b)
  | Open p f m => map_result answer (sys_open p f m)
  | Close fd => map_result answer (sys_close fd)
  | Remove _ => mret (Answer (inr 0))
  | Chdir p => map_result answer (sys_chdir p)
  | Fstat fd b => map_result answer (sys_fstat fd b)
  | Mkdir p m => map_result answer (sys_mkdir p m)
  | Getcwd b n => map_result answer (sys___getcwd b n)
  | Dup2 a b => map_result answer (sys_dup2 a b)
  | Lseek fd pos _ =>
      w ← copyin_int (u32 (tf_sp tf + 16));
      match w with
      | inl err => mret (answer_err err)
      | inr whence => map_result answer (sys_lseek fd pos whence)
      end
  | Write fd b n => map_result answer (sys_write fd b n)
  | Read fd b n => map_result answer (sys_read fd b n)
  | Exit code => map_result (fun _ => Gone) (sys__exit code)
  | Waitpid pid st o => map_result (fun r => answer_err (err_of r)) (sys_waitpid pid st o)
  | Getpid => map_result (fun p => Answer (if p <? 0 then inl ENOSYS else inr p)) (sys_getpid)
  | Fork =>
      '(err, retval) ← sys_fork (encode c tf);
      mret (Answer (if err <? 0 then (if retval =? 0 then inr 0 else inl retval)
                    else if err =? 0 then inr retval else inl err))
  | Execv p a =>
      r ← sys_execv p a;
      mret (match r with inl err => answer_err err | inr (n, sp, e) => NewProgram n sp e end)
  | Unknown _ => mret (Answer (inl ENOSYS))
  end.

(** The program's view of a return from the dispatcher. *)
Definition seen (c : call) (r : resume) : view :=
  match r with Resume tf => Answer (reply c tf) | Exited => Gone | Entered n sp e => NewProgram n sp e end.

(** An answer through 32-bit registers, or 64-bit ones for [lseek]. *)
Definition narrow (c : call) (v : view) : view :=
  match v with
  | Answer (inl e) => Answer (inl (s32 e))
  | Answer (inr x) => Answer (inr (if c is Lseek _ _ _ then s64 x else s32 x))
  | v => v
  end.

(** The frame goes on behind the system call instruction, with the stack pointer, the
    first three arguments and all other registers as they were. *)
Definition frame_kept (tf : trapframe) (r : resume) : Prop :=
  match r with
  | Resume tf' => tf_epc tf' = u32 (tf_epc tf + 4) /\ tf_sp tf' = tf_sp tf /\ tf_other tf' = tf_other tf /\
      (tf_a0 tf', tf_a1 tf', tf_a2 tf') = (tf_a0 tf, tf_a1 tf, tf_a2 tf)
  | _ => True
  end.
End dispatcher.
End Syscall.

Section Syscall_facts.
Import Syscall.
Context {S : Type} `{Syscalls S}.

Lemma s32_u32 z : s32 (u32 z) = s32 z.
Proof. unfold s32, u32. by rewrite Z.add_mod_idemp_l by lia. Qed.

Lemma s32_id z : int32 z -> s32 z = z.
Proof. unfold int32. intros. apply s32_small. lia. Qed.
Lemma u32_id z : word32 z -> u32 z = z.
Proof. unfold word32. intros. apply u32_small. lia. Qed.

(** A 64-bit value in two registers and back. *)
Lemma join_halves z : s64 (Z.lor (Z.shiftl (u32 (Z.shiftr z 32)) 32) (u32 z)) = s64 z.
Proof.
  rewrite Z.shiftl_mul_pow2, Z.shiftr_div_pow2 by lia. rewrite lor_disjoint by (lia || apply u32_range).
  unfold s64, u32. pose proof (Z.div_mod z (2 ^ 32)). pose proof (Z.div_mod (z / 2 ^ 32) (2 ^ 32)).
  replace ((z / 2 ^ 32) mod 2 ^ 32 * 2 ^ 32 + z mod 2 ^ 32 + 2 ^ 63)
    with (z + 2 ^ 63 + - (z / 2 ^ 32 / 2 ^ 32) * 2 ^ 64) by lia.
  by rewrite Z.mod_add by lia.
Qed.

Lemma u32_land z : u32 (Z.land z 0xffffffff) = u32 z.
Proof. change 0xffffffff with (Z.ones 32). rewrite Z.land_ones by lia. unfold u32. by rewrite Z.mod_mod by lia. Qed.

Lemma finish_seen c tf n err x :
  (n =? SYS_lseek) = (if c is Lseek _ _ _ then true else false) ->
  reply c (finish tf n err (if c is Lseek _ _ _ then 0 else x) (if c is Lseek _ _ _ then x else 0)) =
    if err =? 0 then inr (if c is Lseek _ _ _ then s64 x else s32 x) else inl (s32 err).
Proof.
  intros En. unfold reply, finish. rewrite En. destruct (err =? 0); cbn [negb]; [|cbn; by rewrite s32_u32].
  destruct c; cbn [tf_a3 tf_v0 tf_v1 Z.eqb negb]; rewrite ?s32_u32; try done.
  by rewrite u32_land, join_halves.
Qed.

Lemma finish_kept tf n err x y : frame_kept tf (Resume (finish tf n err x y)).
Proof. unfold finish. repeat case_match; done. Qed.

Lemma map_bind {A B C} (m : K S A) (f : A -> B) (g : B -> C) s :
  map_result g (map_result f m) s = map_result (fun a => g (f a)) m s.
Proof. unfold map_result. kunfold. by destruct (m s). Qed.
Lemma map_ext {A B} (m : K S A) (f g : A -> B) s : (forall a, f a = g a) -> map_result f m s = map_result g m s.
Proof. intros E. unfold map_result. kunfold. destruct (m s); by rewrite ?E. Qed.

(** The handlers with an error pointer. *)
Lemma pair_seen (m m' : K S (Z * option Z)) tf c n s :
  (n =? SYS_lseek) = (if c is Lseek _ _ _ then true else false) -> m = m' ->
  map_result (seen c) (r ← m; mret (Resume (finish tf n (err_of r)
    (if c is Lseek _ _ _ then 0 else r.1) (if c is Lseek _ _ _ then r.1 else 0)))) s =
  map_result (narrow c) (map_result answer m') s.
Proof.
  intros En <-. unfold map_result. kunfold. destruct (m s) as [r s'|w|w|]; try done. cbn [seen].
  rewrite finish_seen by done. unfold answer. by destruct (err_of r =? 0).
Qed.

(** The handlers that give only an error. *)
Lemma err_seen (m m' : K S Z) tf c n s :
  (n =? SYS_lseek) = false -> (if c is Lseek _ _ _ then false else true) = true -> m = m' ->
  map_result (seen c) (err ← m; mret (Resume (finish tf n err 0 0))) s =
  map_result (narrow c) (map_result answer_err m') s.
Proof.
  intros En Ec <-. unfold map_result. kunfold. destruct (m s) as [err s'|w|w|]; try done. cbn [seen].
  pose proof (finish_seen c tf n err 0) as Hf. destruct c; try done; cbn in Hf; rewrite (Hf En);
    unfold answer_err; by destruct (err =? 0).
Qed.

Definition is_lseek (c : call) : bool := if c is Lseek _ _ _ then true else false.

Lemma finish_plain c tf n err x :
  (n =? SYS_lseek) = false -> is_lseek c = false ->
  reply c (finish tf n err x 0) = if err =? 0 then inr (s32 x) else inl (s32 err).
Proof. intros En Ec. pose proof (finish_seen c tf n err x) as Hf. destruct c; try done; by apply Hf. Qed.

(** An answer that is not 64 bits wide. *)
Lemma narrow_plain c r : is_lseek c = false ->
  narrow c (Answer r) = Answer (match r with inr x => inr (s32 x) | inl e => inl (s32 e) end).
Proof. intros Ec. by destruct r, c. Qed.

Definition known (c : call) : Prop := match c with Unknown _ => False | _ => True end.

Lemma callno_encode c tf : known c -> s32 (tf_v0 (encode c tf)) = callno c.
Proof. by destruct c. Qed.

(** The number of a known call selects its handler. *)
Ltac select_handler :=
  unfold syscall; rewrite callno_encode by done;
  cbn [callno encode tf_v0 tf_a0 tf_a1 tf_a2 tf_a3 tf_sp];
  repeat match goal with
    |- context [?a =? ?b] =>
      is_const a; is_const b;
      let v := eval vm_compute in (a =? b) in change (a =? b) with v
    end; cbv iota zeta beta.
Ltac same_handler := destruct_and?; rewrite ?s32_u32, ?u32_id, ?s32_id by done; done.

Lemma unknown_call n tf s : well_typed (Unknown n) ->
  syscall (encode (Unknown n) tf) s = Ret (Resume (finish (encode (Unknown n) tf) n ENOSYS 0 0)) s.
Proof.
  intros [Hn Hnot]. unfold syscall.
  replace (s32 (tf_v0 (encode (Unknown n) tf))) with n by (cbn; by rewrite s32_u32, s32_id).
  repeat match goal with |- context [n =? ?k] => destruct (Z.eqb_spec n k) as [->|_]; [exfalso; apply Hnot; set_solver|] end.
  done.
Qed.

(** The program's view of every call, and the frame. *)
Lemma dispatch_refines c tf s :
  well_typed c -> word32 (tf_sp tf) ->
  map_result (seen c) (syscall (encode c tf)) s = map_result (narrow c) (perform tf c) s /\
  wlp (syscall (encode c tf)) (fun r _ => frame_kept (encode c tf) r) s.
Proof.
  intros Hc Hsp. split.
  - destruct c; cbn [well_typed] in Hc; unfold perform.
    all: try (select_handler; apply err_seen; [done..|same_handler]).
    all: try (select_handler;
              match goal with |- map_result (seen ?c) _ _ = _ => apply (pair_seen _ _ _ c _ s) end; [done|same_handler]).
    + by select_handler.
    + select_handler. destruct Hc as [Hfd Hpos]. unfold map_result. kunfold.
      destruct (copyin_int (u32 (tf_sp tf + 16)) s) as [[err|wh] s1|w|w|]; try done.
      * cbn [seen narrow]. unfold answer_err. rewrite (finish_seen (Lseek fd pos whence) _ _ err 0) by done.
        by destruct (err =? 0).
      * rewrite join_halves, s32_u32, (s32_id fd), (s64_small pos) by (done || lia).
        destruct (sys_lseek fd pos wh s1) as [r s2|w|w|]; try done. cbn [seen].
        rewrite (finish_seen (Lseek fd pos whence) _ _ (err_of r) r.1) by done.
        unfold answer. by destruct (err_of r =? 0).
    + select_handler. rewrite s32_u32, s32_id by done. unfold map_result. kunfold. by destruct (sys__exit code s).
    + select_handler. destruct Hc as (? & ? & ?). rewrite !s32_u32, (u32_id status), (s32_id pid), (s32_id options) by done. unfold map_result. kunfold.
      destruct (sys_waitpid pid status options s) as [r s1|w|w|]; try done.
      cbn [seen]; rewrite finish_plain by done. unfold answer_err. rewrite narrow_plain by done. by destruct (err_of r =? 0).
    + select_handler. unfold map_result. kunfold. destruct (sys_getpid s) as [r s1|w|w|]; try done.
      cbn [seen]; rewrite finish_plain, narrow_plain by done. by destruct (r <? 0).
    + select_handler. unfold map_result. kunfold. destruct (sys_fork _ s) as [[err r] s1|w|w|]; try done.
      cbn [seen]; rewrite finish_plain, narrow_plain by done. destruct (Z.ltb_spec err 0).
      * destruct (Z.eqb_spec r 0) as [->|]; done.
      * by destruct (Z.eqb_spec err 0) as [->|].
    + select_handler. destruct Hc. rewrite (u32_id program), (u32_id args) by done. unfold map_result. kunfold.
      destruct (sys_execv program args s) as [[err|[[n sp] e]] s1|w|w|]; try done.
      cbn [seen]; rewrite finish_plain by done. unfold answer_err. rewrite narrow_plain by done. by destruct (err =? 0).
    + unfold map_result. rewrite (bind_eq _ _ _ _ _ (unknown_call n tf s Hc)).
      unfold mret at 1, K_ret. cbn [seen]; rewrite finish_plain; [done| |done].
      apply Z.eqb_neq. intros ->. apply Hc. set_solver.
  - unfold syscall. cbv zeta. set (tf' := encode c tf).
    repeat match goal with |- wlp (if ?b then _ else _) _ _ => destruct b end.
    all: rewrite ?wlp_bind; try (rewrite wlp_ret; apply finish_kept).
    all: eapply wlp_mono; [|apply wlp_true]; intros r s1 _; cbv beta.
    all: try (apply finish_kept || (rewrite wlp_ret; done)).
    + destruct r; [apply finish_kept|]. rewrite wlp_bind. eapply wlp_mono; [|apply wlp_true].
      intros r s2 _. apply finish_kept.
    + destruct r. apply finish_kept.
    + destruct r as [|[[]]]; [apply finish_kept|done].
Qed.

(** C22. The dispatcher refines the calls the user program means: for well-typed
    arguments, encoded as the calling convention says, the program sees exactly the
    handler's answer - a value, 64 bits wide for [lseek], or the error number - with
    signed, unsigned and 64-bit arguments arriving whole; it goes on behind the
    system call with the other registers unchanged, and unknown calls answer ENOSYS
    and touch nothing.  The value of [waitpid] is lost: the program sees 0. *)
Theorem syscall_refines c tf s :
  well_typed c -> word32 (tf_sp tf) ->
  map_result (seen c) (syscall (encode c tf)) s = map_result (narrow c) (perform tf c) s /\
  wlp (syscall (encode c tf)) (fun r _ => frame_kept (encode c tf) r) s.
Proof. apply dispatch_refines. Qed.
End Syscall_facts.

(** ** A session with handlers that answer their arguments *)

Section Syscall_sample.
Import Syscall.

Definition echo {A} (a : A) : K () A := mret a.
Instance echo_calls : Syscalls () := {|
  sys_reboot := echo; sys___time := fun a b => echo 0; sys_open := fun _ _ _ => echo (-1, Some EMFILE);
  sys_close := fun _ => echo (0, None); sys_chdir := fun _ => echo (0, None); sys_fstat := fun _ _ => echo (0, Some 0);
  sys_mkdir := fun _ _ => echo (0, Some 0); sys___getcwd := fun _ n => echo (n, None); sys_dup2 := fun _ _ => echo (0, Some 0);
  sys_lseek := fun _ pos _ => echo (pos, Some 0); sys_write := fun _ _ n => echo (n, None);
  sys_read := fun _ _ n => echo (n, None); sys__exit := fun _ => echo tt; sys_waitpid := fun pid _ _ => echo (pid, None);
  sys_getpid := echo 2; sys_fork := fun _ => echo (0, 3); sys_execv := fun _ _ => echo (inl ENOENT);
  copyin_int := fun _ => echo (inr 0) |}.

Definition user_frame : trapframe := Trapframe 7 7 1 2 3 4 0x7fffff00 0x400100 [1; 2; 3].

(** A file position over 4 GB goes down and comes back; [waitpid] answers 0. *)
Lemma syscall_refines_witness :
  map_result (seen (Lseek 3 0x123456789a 0)) (syscall (encode (Lseek 3 0x123456789a 0) user_frame)) () =
    Ret (Answer (inr 0x123456789a)) () /\
  map_result (seen (Waitpid 3 0 0)) (syscall (encode (Waitpid 3 0 0) user_frame)) () = Ret (Answer (inr 0)) ().
Proof.
  destruct (syscall_refines (Lseek 3 0x123456789a 0) user_frame ()) as [-> _]; [by split; [split|]|done|].
  destruct (syscall_refines (Waitpid 3 0 0) user_frame ()) as [-> _]; [by split_and!|done|].
  split; vm_compute; reflexivity.
Defined.
End Syscall_sample.
