(* ===== verification/Exec.v ===== *)
(** * Program execution: [kern/syscall/execv.c]

    [execv] collects the arguments of the new program in a static buffer laid out
    like the top of the user stack: a table of pointers, then the strings, padded
    to words.  The table first holds offsets into the buffer, which are turned into
    stack addresses before the buffer is copied out.

    User memory is reached through the interface [UserStrings]; the routines of
    [Copyinout] implement it.  Outcomes of calls into other components that matter
    to the control flow (opening the file, loading it, ...) are inputs of the model. *)
From S2P Require Import Prelude Copyinout.

(** What the code relies on to read user memory: a word ([args[i]]) and a string
    of bounded length ([copyinstr]): an error code, or the bytes before the NUL.
    A direct access to a bad address kills the kernel ([None]). *)
Class UserStrings (U : Type) := {
  user_word : U -> Z -> option Z;
  user_strlen : U -> Z -> option Z;
  user_str : U -> Z -> Z -> Z + list Z;
  user_str_ok u p len l : 0 <= p < 2 ^ 32 -> 0 < len <= 2 ^ 20 ->
    user_str u p len = inr l -> Z.of_nat (length l) < len /\ 0 ∉ l }.

Module Exec.
Definition ARG_MAX : Z := 65536.
Definition INVALID_PTR : Z := 0x40000000.
Definition KERNEL_PTR : Z := 0x80000000.
Definition USERSTACK : Z := 0x80000000.

(** The static buffers [karg] and [kbuf], of [ARG_MAX] bytes each. *)
Record bufs := Bufs { karg : Z -> Z; kbuf : Z -> Z }.

(** [f] overwritten with the bytes [l] from index [i]. *)
Definition overlay (i : Z) (l : list Z) (f : Z -> Z) : Z -> Z :=
  fun j => match (if i <=? j then l !! Z.to_nat (j - i) else None) with Some b => b | None => f j end.

(** [n] bytes of a buffer from index [i]. *)
Definition bytes_at (f : Z -> Z) (i : Z) (n : nat) : list Z := (fun j => f (i + Z.of_nat j)) <$> seq 0 n.

(** A write to [kbuf]; outside the array it hits other kernel data. *)
Definition kbuf_write (i : Z) (l : list Z) : K bufs () :=
  if (0 <=? i) && (i + Z.of_nat (length l) <=? ARG_MAX)
  then modify (fun s => Bufs (karg s) (overlay i l (kbuf s)))
  else fault "kbuf overrun".

Definition padded_length (arg : list Z) (alignment : Z) : Z :=
  let len := Z.of_nat (length arg) + 1 in
  if len mod 4 =? 0 then len else len + (alignment - len mod alignment).

(** The loop of [copy_args_to_kbuf] over [args[i]], [i < argc - 1]; the pointers
    into [kbuf] are indices.  Result: error code and [*buflen]. *)
Fixpoint copy_args_loop {U} `{UserStrings U} (u : U) (args : list Z)
    (padding p_begin p_end last_offset buflen : Z) : K bufs (Z * Z) :=
  match args with
  | [] => mret (0, buflen + 4)
  | arg :: args =>
      match user_str u arg ARG_MAX with
      | inl err => mret (err, buflen)
      | inr str =>
          modify (fun s => Bufs (overlay 0 (str ++ [0]) (karg s)) (kbuf s));;
          let offset := last_offset + padding in
          let padding := padded_length str 4 in
          s ← get;
          kbuf_write p_end ((fun j => karg s (Z.of_nat j)) <$> seq 0 (Z.to_nat padding));;
          kbuf_write p_begin [u8 offset];;
          copy_args_loop u args padding (p_begin + 4) (p_end + padding) offset
            (buflen + (padding + 4))
      end
  end.

Definition copy_args_to_kbuf {U} `{UserStrings U} (u : U) (args : list Z) (argc : Z) : K bufs (Z * Z) :=
  copy_args_loop u args 0 0 (argc * 4) (argc * 4) 0.

(** The loop of [change_kbuf_for_userstack] at index [i], [n] iterations left:
    [old_offset] is the one byte [kbuf[index]], the new value a word. *)
Fixpoint change_loop (n : nat) (i stackptr : Z) : K bufs () :=
  match n with
  | O => mret tt
  | S n =>
      s ← get;
      let index := i * 4 in
      let old_offset := kbuf s index in
      let new_offset := u32 (stackptr + old_offset) in
      kbuf_write index (be_bytes 4 new_offset);;
      change_loop n (i + 1) stackptr
  end.

Definition change_kbuf_for_userstack (argc stackptr : Z) : K bufs Z :=
  change_loop (Z.to_nat (argc - 1)) 0 stackptr;; mret 0.

(** ** [sys_execv] *)

(** What the calls into other components answer: [kmalloc], [vfs_open], [as_create],
    [proc_start_filetable], [load_elf] (an entry point), [as_define_stack],
    [copyout]. *)
Record answers := Answers {
  a_kmalloc : bool; a_open : Z; a_as_create : bool; a_filetable : Z;
  a_load : Z + Z; a_stack : Z; a_copyout : Z }.

(** The state [sys_execv] is responsible for: the lock, the address space of the
    process and the ones destroyed, the references to the executable's vnode, and
    what was copied to the new stack: its address and bytes. *)
Record exec := Exec {
  exec_lock : bool; curas : Z; destroyed : list Z; vn_refs : Z;
  user_stack : option (Z * list Z); buffers : bufs }.

Definition bufs_lens : lens exec bufs :=
  Lens buffers (fun b s => Exec (exec_lock s) (curas s) (destroyed s) (vn_refs s) (user_stack s) b).

Definition lock_acquire : K exec () :=
  s ← get;
  if exec_lock s then block else
  put (Exec true (curas s) (destroyed s) (vn_refs s) (user_stack s) (buffers s)).
Definition lock_release : K exec () :=
  s ← get;
  KASSERT (exec_lock s) "lock_do_i_hold(lock)";;
  put (Exec false (curas s) (destroyed s) (vn_refs s) (user_stack s) (buffers s)).
Definition proc_setas (a : Z) : K exec Z :=
  s ← get; put (Exec (exec_lock s) a (destroyed s) (vn_refs s) (user_stack s) (buffers s));; mret (curas s).
Definition as_destroy (a : Z) : K exec () :=
  modify (fun s => Exec (exec_lock s) (curas s) (a :: destroyed s) (vn_refs s) (user_stack s) (buffers s)).
Definition vn_ref (k : Z) : K exec () :=
  modify (fun s => Exec (exec_lock s) (curas s) (destroyed s) (vn_refs s + k) (user_stack s) (buffers s)).

(** [for (i = 0; args[i] != NULL; i++)]: the pointers read. *)
Fixpoint count_args {U} `{UserStrings U} (u : U) (fuel : nat) (args : Z) : K exec (list Z) :=
  match fuel with
  | O => block
  | S fuel =>
      p ← match user_word u args with
          | Some p => mret p
          | None => panic "Fatal exception in kernel mode"
          end;
      if p =? 0 then mret [] else
      l ← count_args u fuel (args + 4); mret (p :: l)
  end.

(** The clean-up shared by the error paths after the new address space is active. *)
Definition undo_as (oldas newas : Z) : K exec () :=
  _ ← proc_setas oldas; as_destroy newas;; vn_ref (-1);; lock_release.

(** [newas] is the address space [as_create] makes.  Result: an error code, or the
    arguments of [enter_new_process]: argc, stack pointer, entry point. *)
Definition sys_execv {U} `{UserStrings U} (u : U) (fuel : nat) (ans : answers) (newas program args : Z)
    : K exec (Z + Z * Z * Z) :=
  if (program =? 0) || (args =? 0) then mret (inl EFAULT) else
  if (program =? INVALID_PTR) || (args =? INVALID_PTR) then mret (inl EFAULT) else
  if (KERNEL_PTR <=? program) || (KERNEL_PTR <=? args) then mret (inl EFAULT) else
  lock_acquire;;
  ptrs ← count_args u fuel args;
  let argc := Z.of_nat (length ptrs) + 1 in
  if ARG_MAX <? argc then mret (inl E2BIG) else
  '(err, buflen) ← zoom bufs_lens (copy_args_to_kbuf u ptrs argc);
  if negb (err =? 0) then lock_release;; mret (inl err) else
  len ← match user_strlen u program with
        | Some n => mret (n + 1)
        | None => panic "Fatal exception in kernel mode"
        end;
  if negb (a_kmalloc ans) then lock_release;; mret (inl ENOMEM) else
  match user_str u program len with
  | inl err => lock_release;; mret (inl err)
  | inr kprogram =>
      if negb (a_open ans =? 0) then lock_release;; mret (inl (a_open ans)) else
      vn_ref 1;;
      if negb (a_as_create ans) then lock_release;; vn_ref (-1);; mret (inl ENOMEM) else
      oldas ← proc_setas newas;
      if negb (a_filetable ans =? 0) then mret (inl (a_filetable ans)) else
      match a_load ans with
      | inl err => undo_as oldas newas;; mret (inl err)
      | inr entrypoint =>
          if negb (a_stack ans =? 0) then undo_as oldas newas;; mret (inl (a_stack ans)) else
          let stackptr := u32 (USERSTACK - buflen) in
          err ← zoom bufs_lens (change_kbuf_for_userstack argc stackptr);
          if negb (err =? 0) then undo_as oldas newas;; mret (inl err) else
          if negb (a_copyout ans =? 0) then undo_as oldas newas;; mret (inl (a_copyout ans)) else
          modify (fun s => Exec (exec_lock s) (curas s) (destroyed s) (vn_refs s)
                             (Some (stackptr, bytes_at (kbuf (buffers s)) 0 (Z.to_nat buflen))) (buffers s));;
          lock_release;;
          vn_ref (-1);;
          as_destroy oldas;;
          modify (fun s => Exec (exec_lock s) (curas s) (destroyed s) (vn_refs s) (user_stack s)
                             (Bufs (karg (buffers s)) (fun j => if (0 <=? j) && (j <? ARG_MAX) then 0 else kbuf (buffers s) j)));;
          mret (inr (argc - 1, stackptr, entrypoint))
      end
  end.

(** ** Specification of the layout *)

Definition pad (str : list Z) : Z := padded_length str 4.
Definition sum_pads (strs : list (list Z)) : Z := foldr (fun s n => pad s + n) 0 strs.

(** The offset of string [i], and the length of the block. *)
Definition offset_of (strs : list (list Z)) (i : nat) : Z :=
  4 * (Z.of_nat (length strs) + 1) + sum_pads (take i strs).
Definition block_len (strs : list (list Z)) : Z := offset_of strs (length strs).

Definition word_at (f : Z -> Z) (i : Z) : Z := be_val (bytes_at f i 4).
End Exec.

Section Exec_facts.
Import Exec.
Context {U : Type} `{UserStrings U} (u : U).

Lemma bytes_at_length f i n : length (bytes_at f i n) = n.
Proof. unfold bytes_at. by rewrite length_fmap, length_seq. Qed.

Lemma bytes_at_ext f g i n :
  (forall j, i <= j < i + Z.of_nat n -> f j = g j) -> bytes_at f i n = bytes_at g i n.
Proof.
  intros E. unfold bytes_at. apply list_fmap_ext. intros k j Hj.
  apply lookup_seq in Hj. apply E. lia.
Qed.

Lemma overlay_in i l f j b : l !! j = Some b -> overlay i l f (i + Z.of_nat j) = b.
Proof.
  intros Hb. unfold overlay. destruct (Z.leb_spec i (i + Z.of_nat j)); [|lia].
  replace (Z.to_nat (i + Z.of_nat j - i)) with j by lia. by rewrite Hb.
Qed.

Lemma overlay_hd i b l f : overlay i (b :: l) f i = b.
Proof. unfold overlay. by rewrite Z.leb_refl, Z.sub_diag. Qed.

Lemma overlay_out i l f j : ~ (i <= j < i + Z.of_nat (length l)) -> overlay i l f j = f j.
Proof.
  intros Hj. unfold overlay. destruct (Z.leb_spec i j); [|done].
  by rewrite lookup_ge_None_2 by lia.
Qed.

Lemma bytes_at_overlay i l f : bytes_at (overlay i l f) i (length l) = l.
Proof.
  unfold bytes_at. apply list_eq. intros k. rewrite list_lookup_fmap.
  destruct (l !! k) as [b|] eqn:E.
  - pose proof (lookup_lt_Some _ _ _ E). rewrite lookup_seq_lt by done. cbn.
    by rewrite (overlay_in i l f k b).
  - apply lookup_ge_None in E. rewrite lookup_seq_ge by done. done.
Qed.

Lemma bytes_at_app f i n m : bytes_at f i (n + m) = bytes_at f i n ++ bytes_at f (i + Z.of_nat n) m.
Proof.
  unfold bytes_at. rewrite seq_app, fmap_app. f_equal. simpl.
  apply list_eq. intros k. rewrite !list_lookup_fmap. destruct (decide (k < m)%nat).
  - rewrite !lookup_seq_lt by done. cbn. do 2 f_equal. lia.
  - by rewrite !lookup_seq_ge by lia.
Qed.

Lemma wp_kbuf_write i l (Q : () -> bufs -> Prop) s :
  0 <= i -> i + Z.of_nat (length l) <= ARG_MAX ->
  wp (kbuf_write i l) Q s = Q tt (Bufs (karg s) (overlay i l (kbuf s))).
Proof.
  intros. unfold kbuf_write. destruct (Z.leb_spec 0 i); [|lia].
  destruct (Z.leb_spec (i + Z.of_nat (length l)) ARG_MAX); [done|lia].
Qed.

(** Padded lengths are whole words, with room for the string and its NUL, and no
    word is wasted. *)
Lemma pad_spec str :
  pad str mod 4 = 0 /\ Z.of_nat (length str) + 1 <= pad str < Z.of_nat (length str) + 5.
Proof.
  unfold pad, padded_length.
  pose proof (Z.div_mod (Z.of_nat (length str) + 1) 4).
  pose proof (Z.mod_pos_bound (Z.of_nat (length str) + 1) 4).
  destruct (Z.eqb_spec ((Z.of_nat (length str) + 1) mod 4) 0); [lia|]. split; [|lia].
  replace (Z.of_nat (length str) + 1 + (4 - (Z.of_nat (length str) + 1) mod 4))
    with (((Z.of_nat (length str) + 1) / 4 + 1) * 4) by lia. apply Z.mod_mul. lia.
Qed.

Lemma sum_pads_nonneg strs : 0 <= sum_pads strs.
Proof. induction strs as [|s strs IH]; simpl; [lia|]. pose proof (pad_spec s). lia. Qed.

Lemma sum_pads_app l1 l2 : sum_pads (l1 ++ l2) = sum_pads l1 + sum_pads l2.
Proof. induction l1 as [|s l1 IH]; simpl; lia. Qed.

Lemma sum_pads_take_le strs i s :
  strs !! i = Some s -> sum_pads (take i strs) + pad s <= sum_pads strs.
Proof.
  intros Hs. rewrite <-(take_drop_middle strs i s Hs) at 2. rewrite sum_pads_app. simpl.
  pose proof (sum_pads_nonneg (drop (S i) strs)). lia.
Qed.

(** The strings of the argument pointers. *)
Definition user_strings (args : list Z) (strs : list (list Z)) : Prop :=
  Forall2 (fun p s => user_str u p ARG_MAX = inr s) args strs.

(** The loop when all fits: string [i] comes to lie where the paddings before it
    end; byte [4 * i] of the table holds the low byte of that offset; the rest of
    the buffer is unchanged. *)
Lemma copy_args_loop_spec st args strs padding p_begin p_end last buflen :
  user_strings args strs -> p_end = last + padding ->
  0 <= p_begin -> p_begin + 4 * Z.of_nat (length strs) <= p_end ->
  p_end + sum_pads strs <= ARG_MAX ->
  wp (copy_args_loop u args padding p_begin p_end last buflen) (fun r st' =>
    r = (0, buflen + 4 * Z.of_nat (length strs) + sum_pads strs + 4) /\
    (forall i s, strs !! i = Some s ->
       kbuf st' (p_begin + 4 * Z.of_nat i) = u8 (p_end + sum_pads (take i strs)) /\
       bytes_at (kbuf st') (p_end + sum_pads (take i strs)) (length s + 1) = s ++ [0]) /\
    (forall j, ~ (p_end <= j < p_end + sum_pads strs) ->
       (forall i, (i < length strs)%nat -> j <> p_begin + 4 * Z.of_nat i) ->
       kbuf st' j = kbuf st j)) st.
Proof.
  intros Hargs. revert st padding p_begin p_end last buflen.
  induction Hargs as [|arg str args strs Hstr Hargs IH];
    intros st padding p_begin p_end last buflen Hend Hb Hb' Hfit; cbn [copy_args_loop].
  - wp_simpl. split; [f_equal; simpl; lia|]. split; [done|]. done.
  - rewrite Hstr. wp_simpl. destruct (pad_spec str) as [Hpm Hpl]. fold (pad str).
    pose proof (sum_pads_nonneg strs). cbn [length sum_pads foldr] in Hb', Hfit. fold (sum_pads strs) in *.
    set (chunk := (fun j => _) <$> seq 0 (Z.to_nat (pad str))).
    assert (Hlen : Z.of_nat (length chunk) = pad str)
      by (unfold chunk; rewrite length_fmap, length_seq; lia).
    assert (Hchunk : take (length str + 1) chunk = str ++ [0]).
    { unfold chunk. cbn [karg]. rewrite <-fmap_take.
      rewrite take_seq, Nat.min_l by lia.
      pose proof (bytes_at_overlay 0 (str ++ [0]) (karg st)) as Hby. rewrite length_app in Hby.
      exact Hby. }
    rewrite wp_kbuf_write by (rewrite ?Hlen; lia). wp_simpl.
    rewrite wp_kbuf_write by (cbn [length]; lia). cbn [karg kbuf].
    set (st1 := Bufs _ _).
    eapply wp_mono; [|apply (IH st1); lia]. cbv beta.
    intros r st' (-> & Hstrs & Hout). split; [f_equal; simpl; lia|]. split.
    + intros [|i] s Hs.
      * injection Hs as <-. cbn [take sum_pads foldr]. rewrite Z.add_0_r.
        replace (p_begin + 4 * Z.of_nat 0) with p_begin by lia.
        assert (Hkeep : forall j, p_begin <= j < p_begin + 4 \/ p_end <= j < p_end + pad str ->
                  kbuf st' j = kbuf st1 j).
        { intros j Hj. apply Hout; [lia|]. intros i Hi. lia. }
        split.
        -- rewrite Hkeep by lia. unfold st1. cbn [kbuf]. rewrite overlay_hd. f_equal.
           simpl. lia.
        -- rewrite (bytes_at_ext _ (kbuf st1)) by (intros j Hj; apply Hkeep; lia).
           rewrite <-Hchunk. unfold st1. cbn [kbuf].
           rewrite (bytes_at_ext _ (overlay p_end chunk (kbuf st)))
             by (intros j Hj; apply overlay_out; cbn [length]; lia).
           pose proof (bytes_at_overlay p_end chunk (kbuf st)) as Hby.
           replace (length chunk) with (length str + 1 + (length chunk - (length str + 1)))%nat in Hby by lia.
           rewrite bytes_at_app in Hby. apply (f_equal (take (length str + 1))) in Hby.
           rewrite take_app_length' in Hby by (symmetry; apply bytes_at_length).
           etrans; [|exact Hby]. f_equal; simpl; lia.
      * cbn [lookup list_lookup] in Hs. destruct (Hstrs i s Hs) as [H1 H2].
        cbn [take sum_pads foldr]. fold (sum_pads (take i strs)).
        replace (p_begin + 4 * Z.of_nat (S i)) with (p_begin + 4 + 4 * Z.of_nat i) by lia.
        rewrite Z.add_assoc. done.
    + intros j Hj Hj'. rewrite Hout.
      * unfold st1. cbn [kbuf]. rewrite !overlay_out; [done|rewrite Hlen|cbn [length]].
        -- cbn [sum_pads foldr] in Hj. fold (sum_pads strs) in Hj. lia.
        -- specialize (Hj' 0%nat ltac:(simpl; lia)). lia.
      * cbn [sum_pads foldr] in Hj. fold (sum_pads strs) in Hj. lia.
      * intros i Hi. specialize (Hj' (S i) ltac:(simpl; lia)). lia.
Qed.

Lemma be_bytes_word_at i z f : word_at (overlay i (be_bytes 4 z) f) i = z mod 2 ^ 32.
Proof.
  unfold word_at. pose proof (bytes_at_overlay i (be_bytes 4 z) f) as E.
  rewrite be_bytes_length in E. rewrite E. by rewrite be_val_bytes.
Qed.

Lemma word_at_ext f g i : (forall j, i <= j < i + 4 -> f j = g j) -> word_at f i = word_at g i.
Proof. intros E. unfold word_at. f_equal. by apply bytes_at_ext. Qed.

(** Each entry of the table becomes the stack pointer plus the entry's first byte. *)
Lemma change_loop_spec st n i sp :
  0 <= i -> (i + Z.of_nat n) * 4 <= ARG_MAX ->
  wp (change_loop n i sp) (fun _ st' =>
    (forall k, i <= k < i + Z.of_nat n -> word_at (kbuf st') (k * 4) = u32 (sp + kbuf st (k * 4))) /\
    (forall j, ~ (i * 4 <= j < (i + Z.of_nat n) * 4) -> kbuf st' j = kbuf st j)) st.
Proof.
  revert st i. induction n as [|n IH]; intros st i Hi Hn; cbn [change_loop].
  - wp_simpl. split; [intros; lia|done].
  - wp_simpl. rewrite wp_kbuf_write by (rewrite ?be_bytes_length; lia).
    set (st1 := Bufs _ _). eapply wp_mono; [|apply (IH st1); lia]. cbv beta. intros [] st' [H1 H2].
    assert (Hout : forall j, ~ (i * 4 <= j < i * 4 + 4) -> kbuf st1 j = kbuf st j)
      by (intros j Hj; unfold st1; cbn [kbuf]; apply overlay_out; by rewrite be_bytes_length).
    split.
    + intros k Hk. destruct (decide (k = i)) as [->|].
      * rewrite (word_at_ext _ (kbuf st1)) by (intros; apply H2; lia).
        unfold st1. cbn [kbuf]. rewrite be_bytes_word_at. unfold u32. by rewrite Zmod_mod.
      * rewrite H1 by lia. rewrite Hout by lia. done.
    + intros j Hj. rewrite H2, Hout by lia. done.
Qed.

(** The block is too large for [kbuf]: the first string that does not fit is
    written past its end. *)
Lemma copy_args_loop_overrun st args strs padding p_begin p_end last buflen :
  user_strings args strs -> 0 <= p_begin <= p_end -> strs <> [] ->
  ARG_MAX < p_end + sum_pads strs ->
  copy_args_loop u args padding p_begin p_end last buflen st = Fault "kbuf overrun".
Proof.
  intros Hargs. revert st padding p_begin p_end last buflen.
  induction Hargs as [|arg str args strs Hstr Hargs IH]; intros st padding p_begin p_end last buflen Hb Hne Hover;
    [done|]. cbn [copy_args_loop]. rewrite Hstr. fold (pad str). destruct (pad_spec str) as [Hpm Hp].
  cbn [sum_pads foldr] in Hover. fold (sum_pads strs) in Hover.
  kunfold. unfold kbuf_write.
  rewrite length_fmap, length_seq, Z2Nat.id by lia.
  destruct (Z.leb_spec 0 p_end), (Z.leb_spec (p_end + pad str) ARG_MAX); cbn [andb]; try done; try lia.
  kunfold. cbn [length]. 
  destruct (Z.leb_spec 0 p_begin), (Z.leb_spec (p_begin + Z.of_nat 1) ARG_MAX); cbn [andb]; try done; try lia.
  pose proof (Z.div_mod (pad str) 4). kunfold. apply IH; [lia| |lia]. intros ->. simpl in *. lia.
Qed.

(** The pointers of the argument array, and its terminator, in user memory. *)
Fixpoint arg_array (args : Z) (ptrs : list Z) : Prop :=
  match ptrs with
  | [] => user_word u args = Some 0
  | p :: ptrs => user_word u args = Some p /\ p <> 0 /\ arg_array (args + 4) ptrs
  end.

Lemma count_args_spec s fuel args ptrs :
  arg_array args ptrs -> (length ptrs < fuel)%nat -> count_args u fuel args s = Ret ptrs s.
Proof.
  revert args ptrs. induction fuel as [|fuel IH]; intros args ptrs Ha Hf; [lia|]. cbn [count_args].
  destruct ptrs as [|p ptrs]; simpl in Ha.
  - rewrite Ha. kunfold. done.
  - destruct Ha as (-> & Hp & Ha). kunfold. rewrite (proj2 (Z.eqb_neq p 0)) by done.
    rewrite (IH _ ptrs) by (done || (simpl in Hf; lia)). done.
Qed.

Definition valid_ptr (p : Z) : Prop := 0 < p < KERNEL_PTR /\ p <> INVALID_PTR.

Lemma ptr_guards program args :
  valid_ptr program -> valid_ptr args ->
  (program =? 0) || (args =? 0) = false /\ (program =? INVALID_PTR) || (args =? INVALID_PTR) = false /\
  (KERNEL_PTR <=? program) || (KERNEL_PTR <=? args) = false.
Proof.
  unfold valid_ptr, KERNEL_PTR, INVALID_PTR. intros. repeat split; apply orb_false_intro; lia.
Qed.

Lemma offset_of_bounds strs i str :
  strs !! i = Some str ->
  4 * (Z.of_nat (length strs) + 1) <= offset_of strs i /\ offset_of strs i + pad str <= block_len strs.
Proof.
  intros Hs. pose proof (sum_pads_take_le strs i str Hs).
  unfold block_len, offset_of. rewrite firstn_all. pose proof (sum_pads_nonneg (take i strs)). lia.
Qed.

(** What ends up in [kbuf] when both passes are done. *)
Lemma kbuf_layout st ptrs strs sp :
  user_strings ptrs strs -> block_len strs <= ARG_MAX -> 0 <= sp -> sp + 256 <= 2 ^ 32 ->
  let argc := Z.of_nat (length ptrs) + 1 in
  wp (r ← copy_args_to_kbuf u ptrs argc; e ← change_kbuf_for_userstack argc sp; mret (r, e)) (fun re st' =>
    re = ((0, block_len strs), 0) /\
    (forall i str, strs !! i = Some str ->
       bytes_at (kbuf st') (offset_of strs i) (length str + 1) = str ++ [0] /\
       word_at (kbuf st') (4 * Z.of_nat i) = sp + u8 (offset_of strs i)) /\
    word_at (kbuf st') (4 * Z.of_nat (length strs)) = word_at (kbuf st) (4 * Z.of_nat (length strs))) st.
Proof.
  intros Hstr Hfit Hsp Hsp'. pose proof (Forall2_length _ _ _ Hstr) as Hlen. cbv zeta.
  unfold block_len, offset_of in Hfit. rewrite firstn_all in Hfit.
  rewrite wp_bind. unfold copy_args_to_kbuf.
  pose proof (sum_pads_nonneg strs).
  eapply wp_mono; [|apply (copy_args_loop_spec st ptrs strs); (done || lia)]. cbv beta.
  intros r st1 (-> & Hs & Hout). rewrite wp_bind. unfold change_kbuf_for_userstack. rewrite wp_bind.
  eapply wp_mono; [|apply change_loop_spec; [lia|]].
  2:{ lia. }
  cbv beta. intros [] st2 [Hw Hk]. wp_simpl. split.
  { do 2 f_equal. unfold block_len, offset_of. rewrite firstn_all. lia. }
  split.
  - intros i str Hi. destruct (offset_of_bounds _ _ _ Hi) as [Ho1 Ho2].
    destruct (Hs i str Hi) as [H1 H2]. destruct (pad_spec str) as [_ Hp].
    pose proof (lookup_lt_Some _ _ _ Hi).
    replace ((Z.of_nat (length ptrs) + 1) * 4 + sum_pads (take i strs)) with (offset_of strs i) in *
      by (unfold offset_of; lia).
    split.
    + rewrite <-H2. apply bytes_at_ext. intros j Hj. apply Hk. lia.
    + replace (4 * Z.of_nat i) with (Z.of_nat i * 4) by lia. rewrite Hw by lia.
      replace (Z.of_nat i * 4) with (0 + 4 * Z.of_nat i) by lia. rewrite H1.
      pose proof (u8_range (offset_of strs i)). apply u32_small. lia.
  - apply word_at_ext. intros j Hj. rewrite Hk by lia. apply Hout; [lia|]. intros i Hi. lia.
Qed.

Lemma bytes_at_lookup f n j : 0 <= j < Z.of_nat n -> bytes_at f 0 n !!! Z.to_nat j = f j.
Proof.
  intros Hj. apply list_lookup_total_correct. unfold bytes_at. rewrite list_lookup_fmap, lookup_seq_lt by lia.
  cbn. f_equal. f_equal. lia.
Qed.

Definition all_succeed (ans : answers) (entry : Z) : Prop :=
  a_kmalloc ans = true /\ a_open ans = 0 /\ a_as_create ans = true /\ a_filetable ans = 0 /\
  a_load ans = inr entry /\ a_stack ans = 0 /\ a_copyout ans = 0.

(** C31. When every call succeeds and the block fits the buffer, [execv] enters the
    program with the right argument count and stack pointer, releases the lock,
    destroys the old address space and closes the file; and on the new stack every
    argument string lies, whole and terminated, at its place.  The pointer
    [argv[i]], however, is right only if the string's offset is below 256, since
    the table keeps one byte of it; and the terminating entry [argv[argc]] is never
    written: it holds what an earlier call left in the buffer. *)
Theorem execv_args_correct s fuel ans newas program args ptrs strs n kprogram entry :
  valid_ptr program -> valid_ptr args -> exec_lock s = false ->
  arg_array args ptrs -> (length ptrs < fuel)%nat -> user_strings ptrs strs ->
  block_len strs <= ARG_MAX ->
  user_strlen u program = Some n -> user_str u program (n + 1) = inr kprogram ->
  all_succeed ans entry ->
  wp (sys_execv u fuel ans newas program args) (fun r s' =>
    let sp := USERSTACK - block_len strs in
    r = inr (Z.of_nat (length strs), sp, entry) /\
    exec_lock s' = false /\ curas s' = newas /\ destroyed s' = curas s :: destroyed s /\
    vn_refs s' = vn_refs s /\
    exists img, user_stack s' = Some (sp, img) /\ Z.of_nat (length img) = block_len strs /\
      let f j := img !!! Z.to_nat j in
      (forall i str, strs !! i = Some str ->
         bytes_at f (offset_of strs i) (length str + 1) = str ++ [0] /\
         (word_at f (4 * Z.of_nat i) = sp + offset_of strs i <-> offset_of strs i < 256)) /\
      word_at f (4 * Z.of_nat (length strs)) = word_at (kbuf (buffers s)) (4 * Z.of_nat (length strs))) s.
Proof.
  intros Hp Ha Hlock Harr Hfuel Hstr Hfit Hsl Hprog (A1 & A2 & A3 & A4 & A5 & A6 & A7).
  pose proof (Forall2_length _ _ _ Hstr) as Hlen.
  assert (Hblk : 4 * (Z.of_nat (length strs) + 1) <= block_len strs).
  { unfold block_len, offset_of. rewrite firstn_all. pose proof (sum_pads_nonneg strs). lia. }
  unfold sys_execv. destruct (ptr_guards _ _ Hp Ha) as (-> & -> & ->).
  unfold lock_acquire. wp_simpl. rewrite Hlock. wp_simpl.
  rewrite (wp_eq _ _ _ _ _ (count_args_spec _ _ _ _ Harr Hfuel)).
  destruct (Z.ltb_spec ARG_MAX (Z.of_nat (length ptrs) + 1)); [lia|]. wp_simpl. rewrite wp_zoom.
  set (sp := USERSTACK - block_len strs).
  assert (Hsp : u32 sp = sp) by (apply u32_small; unfold sp, USERSTACK, ARG_MAX in *; lia).
  pose proof (kbuf_layout (buffers s) ptrs strs sp Hstr Hfit) as Hlay.
  cbv zeta in Hlay. rewrite wp_bind in Hlay.
  assert (Hsp1 : 0 <= sp /\ sp + 256 <= 2 ^ 32) by (unfold sp, USERSTACK, ARG_MAX in *; lia).
  eapply wp_mono; [|apply Hlay; lia]. cbv beta. clear Hlay. intros [e blen] b1 Hlay.
  rewrite wp_bind in Hlay. apply wp_returns in Hlay as (e2 & b2 & Hch & Hlay).
  rewrite wp_ret in Hlay. destruct Hlay as (E & Hs & Hterm). injection E as -> -> ->.
  cbn [lset bufs_lens]. wp_simpl. rewrite Hsl. wp_simpl. rewrite A1. wp_simpl. rewrite Hprog, A2. wp_simpl.
  unfold vn_ref. wp_simpl. rewrite A3. wp_simpl. unfold proc_setas. wp_simpl. rewrite A4. wp_simpl.
  rewrite A5, A6. wp_simpl. fold sp. rewrite Hsp, wp_zoom. cbn [lget bufs_lens buffers].
  rewrite (wp_eq _ _ _ _ _ Hch). wp_simpl. rewrite A7. wp_simpl.
  unfold lock_release, as_destroy. wp_simpl. cbn [exec_lock lset bufs_lens curas destroyed vn_refs user_stack buffers].
  rewrite wp_KASSERT. split; [done|]. wp_simpl.
  cbn [exec_lock lset bufs_lens curas destroyed vn_refs user_stack buffers].
  split; [by rewrite Hlen, Z.add_simpl_r|]. do 3 (split; [done|]). split; [lia|].
  eexists. split; [done|]. rewrite bytes_at_length. split; [lia|]. split.
  - intros i str Hi. destruct (Hs i str Hi) as [H1 H2]. destruct (offset_of_bounds _ _ _ Hi) as [Ho1 Ho2].
    destruct (pad_spec str) as [_ Hpd]. pose proof (lookup_lt_Some _ _ _ Hi). split.
    + rewrite <-H1. apply bytes_at_ext. intros j Hj. apply bytes_at_lookup. lia.
    + rewrite (word_at_ext _ (kbuf b2)) by (intros j Hj; apply bytes_at_lookup; lia).
      rewrite H2. unfold u8. change (2 ^ 8) with 256.
      pose proof (Z.mod_pos_bound (offset_of strs i) 256). split; intros Hx; [lia|].
      rewrite Z.mod_small by lia. done.
  - rewrite <-Hterm. apply word_at_ext. intros j Hj. apply bytes_at_lookup. lia.
Qed.

(** A block of arguments larger than the buffer is written past its end: the
    length is never checked, whatever follows [kbuf] is overwritten. *)
Lemma execv_overruns_kbuf s fuel ans newas program args ptrs strs :
  valid_ptr program -> valid_ptr args -> exec_lock s = false ->
  arg_array args ptrs -> (length ptrs < fuel)%nat -> user_strings ptrs strs ->
  Z.of_nat (length ptrs) < ARG_MAX -> strs <> [] -> ARG_MAX < block_len strs ->
  sys_execv u fuel ans newas program args s = Fault "kbuf overrun".
Proof.
  intros Hp Ha Hlock Harr Hfuel Hstr Hn Hne Hover.
  pose proof (Forall2_length _ _ _ Hstr) as Hlen.
  unfold block_len, offset_of in Hover. rewrite firstn_all in Hover.
  unfold sys_execv. destruct (ptr_guards _ _ Hp Ha) as (-> & -> & ->).
  unfold lock_acquire. kunfold. rewrite Hlock. rewrite (count_args_spec _ _ _ _ Harr Hfuel).
  destruct (Z.ltb_spec ARG_MAX (Z.of_nat (length ptrs) + 1)); [lia|].
  kunfold. cbn [lget bufs_lens buffers]. unfold copy_args_to_kbuf.
  by rewrite (copy_args_loop_overrun _ ptrs strs) by (done || lia).
Qed.












End Exec_facts.

(** ** The routines of [Copyinout] implement the interface *)

(** The address of [karg]. *)
Definition KARG : Z := 0x80100000.

Definition machine_word (s : Copyinout.machine) (a : Z) : option Z :=
  if forallb (Copyinout.accessible s) (seqZ a 4) then Some (Exec.word_at (Copyinout.bytes s) a) else None.

Fixpoint machine_strlen (fuel : nat) (s : Copyinout.machine) (a n : Z) : option Z :=
  match fuel with
  | O => None
  | S fuel => if negb (Copyinout.accessible s a) then None else
              if Copyinout.bytes s a =? 0 then Some n else machine_strlen fuel s (a + 1) (n + 1)
  end.

Definition machine_str (s : Copyinout.machine) (a len : Z) : Z + list Z :=
  match Copyinout.copyinstr a KARG len s with
  | Ret (e, got) s' =>
      if e =? 0 then inr (Exec.bytes_at (Copyinout.bytes s') KARG (Z.to_nat (got - 1))) else inl e
  | _ => inl EFAULT
  end.

Lemma machine_str_ok s p len l :
  0 <= p < 2 ^ 32 -> 0 < len <= 2 ^ 20 ->
  machine_str s p len = inr l -> Z.of_nat (length l) < len /\ 0 ∉ l.
Proof.
  intros Hp Hlen Hl. unfold machine_str in Hl.
  destruct (decide (p < Copyinout.USERSPACETOP)) as [Hu|Hu].
  2:{ unfold Copyinout.copyinstr in Hl. rewrite copycheck_spec in Hl by lia.
      destruct (Z.ltb_spec p Copyinout.USERSPACETOP); [lia|]. cbn [andb] in Hl.
      rewrite (proj2 (Z.eqb_neq p 0)) in Hl by (unfold Copyinout.USERSPACETOP in *; lia). discriminate Hl. }
  assert (Hap : Copyinout.apart KARG p len)
    by (right; unfold KARG, Copyinout.USERSPACETOP in *; lia).
  pose proof (copystr_result s p len KARG p Hp ltac:(lia) Hap) as Hw.
  apply wp_returns in Hw as ([e got] & s' & E & (k & Hk & Hb & Hgot) & _ & H0 & _).
  unfold Copyinout.copyinstr in Hl. rewrite E in Hl. clear E Hap.
  destruct (Z.eqb_spec e 0) as [->|]; [|discriminate]. cbn [fst snd] in *.
  specialize (Hgot eq_refl). destruct (H0 eq_refl) as (_ & Hg & Hz & Hnz). subst k. injection Hl as <-.
  rewrite bytes_at_length. split; [lia|]. unfold Exec.bytes_at.
  intros (j & Hj & Hin)%list_elem_of_fmap. apply elem_of_seq in Hin.
  rewrite Hb in Hj. unfold Copyinout.copied in Hj. set (K := KARG) in *. clearbody K.
  destruct (Z.leb_spec K (K + Z.of_nat j)), (Z.ltb_spec (K + Z.of_nat j) (K + got)); cbn [andb] in Hj; try lia.
  apply (Hnz (Z.of_nat j)); [lia|]. rewrite Hj. f_equal. lia.
Qed.

#[global] Instance machine_strings : UserStrings Copyinout.machine := {|
  user_word := machine_word;
  user_strlen s a := machine_strlen (Z.to_nat Exec.ARG_MAX) s a 0;
  user_str := machine_str;
  user_str_ok := machine_str_ok |}.

(** ** Two arguments in the memory of a process *)

Section Exec_witnesses.
Import Exec.

(** The path at 0x1000, the pointers at 0x2000, the strings at 0x3000 and 0x3004. *)
Definition sample_mem : Copyinout.machine :=
  Copyinout.Machine (fun a => (0x1000 <=? a) && (a <? 0x4000))
    (overlay 0x1000 [47; 97; 0] (overlay 0x2000 (be_bytes 4 0x3000 ++ be_bytes 4 0x3004 ++ [0; 0; 0; 0])
       (overlay 0x3000 [104; 105; 0; 0; 120; 0] (fun _ => 7)))) false.

Definition sample_exec : exec := Exec false 1 [] 0 None (Bufs (fun _ => 0) (fun _ => 0)).
Definition sample_answers : answers := Answers true 0 true 0 (inr 0x400000) 0 0.

Lemma sample_valid : valid_ptr 0x1000 /\ valid_ptr 0x2000.
Proof. unfold valid_ptr, KERNEL_PTR, INVALID_PTR. lia. Qed.

Lemma execv_args_correct_witness :
  wp (sys_execv sample_mem 5 sample_answers 2 0x1000 0x2000) (fun r s' =>
    r = inr (2, 0x80000000 - 20, 0x400000) /\ curas s' = 2) sample_exec.
Proof.
  eapply wp_mono; [|apply (execv_args_correct sample_mem sample_exec 5 sample_answers 2 0x1000 0x2000
    [0x3000; 0x3004] [[104; 105]; [120]] 2 [47; 97] 0x400000)].
  - intros r s' (-> & _ & ? & _). split; [by vm_compute|done].
  - apply sample_valid.
  - apply sample_valid.
  - reflexivity.
  - cbn [arg_array]. split_and!; by vm_compute.
  - cbn [length]. lia.
  - unfold user_strings. apply Forall2_cons_2; [by vm_compute|]. apply Forall2_cons_2; [by vm_compute|].
    apply Forall2_nil_2.
  - by vm_compute.
  - by vm_compute.
  - by vm_compute.
  - unfold all_succeed. split_and!; reflexivity.
Defined.

(** A user memory whose every string has 40000 bytes. *)
Definition long_str (len : Z) : Z + list Z :=
  if 40000 <? len then inr (replicate (Z.to_nat 40000) 7) else inl ENAMETOOLONG.

Lemma long_str_ok len l : long_str len = inr l -> Z.of_nat (length l) < len /\ 0 ∉ l.
Proof.
  unfold long_str. destruct (Z.ltb_spec 40000 len) as [Hlt|Hge].
  - intros E. assert (l = replicate (Z.to_nat 40000) 7) as -> by congruence.
    rewrite length_replicate. split; [lia|].
    intros Hin. by apply elem_of_replicate in Hin as [? _].
  - discriminate.
Qed.

#[local] Instance long_strings : UserStrings unit := {|
  user_word _ a := if a <? 0x2008 then Some 0x3000 else Some 0;
  user_strlen _ _ := Some 40000;
  user_str _ _ len := long_str len;
  user_str_ok _ p len l _ _ := long_str_ok len l |}.

Lemma execv_overruns_kbuf_witness :
  sys_execv tt 5 sample_answers 2 0x1000 0x2000 sample_exec = Fault "kbuf overrun".
Proof.
  apply (execv_overruns_kbuf tt sample_exec 5 sample_answers 2 0x1000 0x2000 [0x3000; 0x3000]
    [replicate (Z.to_nat 40000) 7; replicate (Z.to_nat 40000) 7]).
  - apply sample_valid.
  - apply sample_valid.
  - reflexivity.
  - cbn [arg_array]. split_and!; by vm_compute.
  - cbn [length]. lia.
  - unfold user_strings. apply Forall2_cons_2; [done|]. apply Forall2_cons_2; [done|]. apply Forall2_nil_2.
  - cbn [length]. unfold ARG_MAX. lia.
  - discriminate.
  - by vm_compute.
Defined.

End Exec_witnesses.
