(* ===== verification/Program.v ===== *)
(** * Starting a program, and the system calls on the current directory and the time
    ([kern/syscall/runprogram.c], [curdir_syscalls.c], [time_syscalls.c])

    [runprogram] places the arguments on the user stack itself, string by string, with a table
    of pointers built in the kernel heap below them.  [sys_chdir] first runs the path through a
    parser of its own, on a copy.  Here the size of a heap block matters, so the state has
    the blocks that [kmalloc] has handed out, with the sizes that [Kmalloc] gives them. *)
From S2P Require Import Prelude Copyinout Uio Kmalloc Exec.
Import Copyinout Uio Exec.

(** What is below: the file system, the current directory, address spaces, standard files,
    the loader.  The loader writes only user memory. *)
Class ProgEnv (W : Type) := {
  env_chdir : list Z -> K W Z;
  env_getcwd : uio -> K (machine * W) (Z * uio);
  env_cwd : W -> option Z;
  env_open : list Z -> K W (Z * Z);
  env_close : Z -> K W ();
  env_getas : W -> option Z;
  env_as_create : K W (option Z);
  env_setas : Z -> K W ();
  env_as_activate : K W ();
  env_start_filetable : K W Z;
  env_load_elf : Z -> K (machine * W) (Z + Z);
  env_define_stack : Z -> K W (Z + Z);
  env_load_user s v : wlp (env_load_elf v) (fun _ s' => badfaultfunc s'.1 = badfaultfunc s.1 /\
    forall a, USERSPACETOP <= a -> bytes s'.1 a = bytes s.1 a) s }.

Module Program.
Definition PATH_MAX : Z := 1024.

(** [blocks]: the live heap blocks by address, with their sizes; [answers]: what the next calls
    of [kmalloc] will return, [None] for [NULL]. *)
Record prog (W : Type) := Prog { mach : machine; blocks : gmap Z Z; answers : list (option Z); world : W }.
Arguments Prog {W} _ _ _ _.
Arguments mach {W} _.
Arguments blocks {W} _.
Arguments answers {W} _.
Arguments world {W} _.

Section program.
Context {W : Type} {E : ProgEnv W}.
Implicit Types s : prog W.

Definition mach_lens : lens (prog W) machine := Lens mach (fun m s => Prog m (blocks s) (answers s) (world s)).
Definition world_lens : lens (prog W) W := Lens world (fun w s => Prog (mach s) (blocks s) (answers s) w).
Definition both_lens : lens (prog W) (machine * W) := Lens (fun s => (mach s, world s)) (fun p s => Prog p.1 (blocks s) (answers s) p.2).
Definition set_blocks (b : gmap Z Z) s : prog W := Prog (mach s) b (answers s) (world s).
Definition set_answers (l : list (option Z)) s : prog W := Prog (mach s) (blocks s) l (world s).

(** The size of the block for a request of [sz] bytes. *)
Definition granted (sz : Z) : Z :=
  if Kmalloc.LARGEST_SUBPAGE_SIZE <=? sz then (sz + 4095) / 4096 * 4096
  else match Kmalloc.blocktype_loop Kmalloc.sizes 0 sz with Some t => Kmalloc.sizes !!! Z.to_nat t | None => 0 end.
Definition kmalloc (sz : Z) : K (prog W) (option Z) :=
  s ← get;
  let r := default None (head (answers s)) in
  put (set_answers (tail (answers s)) s);;
  match r with
  | Some p => modify (fun s => set_blocks (<[p := granted sz]> (blocks s)) s);; mret (Some p)
  | None => mret None
  end.
Definition kfree (p : Z) : K (prog W) () := modify (fun s => set_blocks (delete p (blocks s)) s).

(** ** [dir_parser] *)

(** [strcpy], with [n] bytes of room at [dest].  No handler is set: an access to an unmapped
    page of the user stops the kernel. *)
Fixpoint strcpy (n : nat) (dest src : Z) : K machine () :=
  match n with
  | O => fault "strcpy past the end of the block"
  | S n =>
      x ← load src;
      match x with
      | None => panic "Fatal exception in kernel mode"
      | Some x =>
          _ ← store dest x;
          if x =? 0 then mret tt else strcpy n (dest + 1) (src + 1)
      end
  end.
(** The loop over the copy at [l1_dir], of at most [n] bytes. *)
Fixpoint parser_loop (n : nat) (l1_dir prev : Z) : K machine Z :=
  match n with
  | O => fault "l1_dir past the end of the block"
  | S n =>
      s ← get;
      let c := bytes s l1_dir in
      if c =? 0 then mret 0 else
      if prev =? 0 then parser_loop n (l1_dir + 1) c else
      if (c =? 47) && (prev =? 47) then mret 1 else
      parser_loop n (l1_dir + 1) c
  end.
Definition dir_parser (dir : Z) : K (prog W) Z :=
  l1_dir ← kmalloc 4;
  match l1_dir with
  | None => mret (-2)
  | Some l1_dir =>
      zoom mach_lens (strcpy (Z.to_nat (granted 4)) l1_dir dir);;
      r ← zoom mach_lens (parser_loop (Z.to_nat (granted 4)) l1_dir 0);
      if r =? 1 then mret 1 else
      kfree l1_dir;;
      mret 0
  end.

(** ** The current directory *)

Definition sys_chdir (path : Z) : K (prog W) (Z * option Z) :=
  if path =? 0 then mret (-1, Some EFAULT) else
  if (path =? INVALID_PTR) || (KERNEL_PTR <=? path) then mret (-1, Some EFAULT) else
  r ← dir_parser path;
  if negb (r =? 0) then mret (-1, Some ENOTDIR) else
  kpath ← kmalloc PATH_MAX;
  match kpath with
  | None => mret (-1, Some EFAULT)
  | Some kpath =>
      '(e, got) ← zoom mach_lens (copyinstr path kpath PATH_MAX);
      if negb (e =? 0) then kfree kpath;; mret (-1, Some EFAULT) else
      s ← get;
      vfs_err ← zoom world_lens (env_chdir (bytes_at (bytes (mach s)) kpath (Z.to_nat (got - 1))));
      kfree kpath;;
      if negb (vfs_err =? 0) then mret (-1, Some vfs_err) else mret (0, None)
  end.

Definition uspace_uio_kinit (buf size : Z) (w : W) : uio := Uio [Iovec buf size] 0 size UIO_USERSPACE UIO_READ (env_getas w).
Definition sys___getcwd (buf size : Z) : K (prog W) (Z * option Z) :=
  if buf =? 0 then mret (-1, Some EFAULT) else
  if (buf =? INVALID_PTR) || (KERNEL_PTR <=? buf) then mret (-1, Some EFAULT) else
  s ← get;
  match env_cwd (world s) with
  | None => mret (-1, Some ENOTDIR)
  | Some _ =>
      '(vfs_err, u) ← zoom both_lens (env_getcwd (uspace_uio_kinit buf size (world s)));
      if negb (vfs_err =? 0) then mret (-1, Some vfs_err) else
      mret (s32 (u32 (size - uio_resid u)), Some 0)
  end.

(** ** The time of day: [ts], at the address [ts_at] of the kernel's stack *)

Definition sys___time (tv_sec tv_nsec ts_at user_seconds_ptr user_nanoseconds_ptr : Z) : K machine Z :=
  modify (fun s : machine => Machine (mapped s) (overlay ts_at (be_bytes 8 tv_sec ++ be_bytes 4 tv_nsec) (bytes s)) (badfaultfunc s));;
  result ← copyout ts_at user_seconds_ptr 8;
  if negb (result =? 0) then mret result else
  result ← copyout (ts_at + 8) user_nanoseconds_ptr 4;
  if negb (result =? 0) then mret result else
  mret 0.

(** ** [runprogram] *)

(** A word of the block [argvptr]. *)
Definition write_slot (argvptr i x : Z) : K (prog W) () :=
  s ← get;
  match blocks s !! argvptr with
  | Some size =>
      if 4 * i + 4 <=? size
      then zoom mach_lens (modify (fun s : machine => Machine (mapped s) (overlay (argvptr + 4 * i) (be_bytes 4 x) (bytes s)) (badfaultfunc s)))
      else fault "argvptr[i]"
  | None => fault "argvptr"
  end.
Definition align_down (p : Z) : Z := if negb (Z.land p 3 =? 0) then u32 (p - Z.land p 3) else p.
(** The loop from argument [i] on: an error code or the stack pointer.  [strlen] is looked for in
    [ARG_MAX] bytes; the menu's command lines are far shorter. *)
Fixpoint args_loop (args : list Z) (i argvptr stackptr : Z) : K (prog W) (Z + Z) :=
  match args with
  | [] => mret (inr stackptr)
  | arg :: args =>
      s ← get;
      n ← match machine_strlen (Z.to_nat ARG_MAX) (mach s) arg 0 with Some n => mret n | None => Prelude.block end;
      let len := n + 1 in
      p ← kmalloc 4;
      write_slot argvptr i (default 0 p);;
      match p with
      | None => mret (inl ENOMEM)
      | Some _ =>
          let stackptr := align_down (u32 (stackptr - len)) in
          _ ← zoom mach_lens (copyoutstr arg stackptr len);
          write_slot argvptr i stackptr;;
          args_loop args (i + 1) argvptr stackptr
      end
  end.
(** The part that places the arguments.  Result: an error code, or the arguments of
    [enter_new_process]: argc, argv, entry point; argv is the stack pointer too. *)
Definition run_args (args : list Z) (stackptr entrypoint : Z) : K (prog W) (Z + Z * Z * Z) :=
  let argc := Z.of_nat (length args) in
  argvptr ← kmalloc (u32 (argc * 4));
  match argvptr with
  | None => mret (inl ENOMEM)
  | Some argvptr =>
      r ← args_loop args 0 argvptr stackptr;
      match r with
      | inl e => mret (inl e)
      | inr stackptr =>
          write_slot argvptr argc 0;;
          let stackptr := u32 (stackptr - 4 * (argc + 1)) in
          result ← zoom mach_lens (copyout argvptr stackptr (4 * argc));
          if negb (result =? 0) then mret (inl result) else
          mret (inr (argc, stackptr, entrypoint))
      end
  end.
(** [args] are the pointers [args[0]] to [args[argc-1]]. *)
Definition runprogram (progname : list Z) (args : list Z) : K (prog W) (Z + Z * Z * Z) :=
  let argc := Z.of_nat (length args) in
  if ARG_MAX <? argc then mret (inl E2BIG) else
  '(result, v) ← zoom world_lens (env_open progname);
  if negb (result =? 0) then mret (inl result) else
  s ← get;
  KASSERT (bool_decide (env_getas (world s) = None)) "proc_getas() == NULL";;
  a ← zoom world_lens env_as_create;
  match a with
  | None => zoom world_lens (env_close v);; mret (inl ENOMEM)
  | Some a =>
      zoom world_lens (env_setas a);;
      zoom world_lens env_as_activate;;
      result ← zoom world_lens env_start_filetable;
      if negb (result =? 0) then mret (inl result) else
      r ← zoom both_lens (env_load_elf v);
      match r with
      | inl e => zoom world_lens (env_close v);; mret (inl e)
      | inr entrypoint =>
          zoom world_lens (env_close v);;
          r ← zoom world_lens (env_define_stack a);
          match r with
          | inl e => mret (inl e)
          | inr stackptr => run_args args stackptr entrypoint
          end
      end
  end.
End program.
End Program.

Section strings.
Import Program.
Implicit Types m : machine.

(** A string in memory, all of it mapped. *)
Fixpoint string_at m (a : Z) (str : list Z) : Prop :=
  accessible m a = true /\
  match str with [] => bytes m a = 0 | c :: str => bytes m a = c /\ c <> 0 /\ string_at m (a + 1) str end.
(** Another memory, the same at [n] bytes from [a]. *)
Definition same_bytes m m' (a n : Z) : Prop := mapped m' = mapped m /\ forall j, a <= j < a + n -> bytes m' j = bytes m j.
Lemma string_at_ext m m' a str : string_at m a str -> same_bytes m m' a (Z.of_nat (length str) + 1) -> string_at m' a str.
Proof.
  revert a. induction str as [|c str IH]; intros a Hs [Hm Hb]; cbn [string_at length] in *; unfold accessible in *; rewrite Hm.
  - destruct Hs as [Ha H0]. rewrite Hb by lia. done.
  - destruct Hs as (Ha & Hc & Hne & Hs). rewrite Hb by lia. split_and!; [done|done|done|]. apply IH; [done|]. split; [done|]. intros j Hj. apply Hb. lia.
Qed.
Lemma overlay_cons i c l f : forall a, overlay i (c :: l) f a = overlay (i + 1) l (poke i c f) a.
Proof.
  intros a. unfold overlay, poke. destruct (Z.leb_spec i a), (Z.leb_spec (i + 1) a); try lia.
  - destruct (Z.to_nat (a - i)) as [|k] eqn:Ek; [lia|]. replace (Z.to_nat (a - (i + 1))) with k by lia. cbn [lookup list_lookup]. rewrite (proj2 (Z.eqb_neq a i)) by lia. done.
  - assert (a = i) as -> by lia. by rewrite Z.sub_diag, Z.eqb_refl.
  - by rewrite (proj2 (Z.eqb_neq a i)) by lia.
Qed.
Lemma overlay_ext i l f g a : f a = g a -> overlay i l f a = overlay i l g a.
Proof. intros E. unfold overlay. by rewrite E. Qed.
Lemma overlay_one i c f a : overlay i [c] f a = poke i c f a.
Proof. rewrite overlay_cons. unfold overlay. by destruct (_ <=? _). Qed.
Lemma string_written m a str : (forall j, a <= j < a + Z.of_nat (length str) + 1 -> accessible m j = true) -> Forall (fun c => c <> 0) str ->
  (forall j, a <= j < a + Z.of_nat (length str) + 1 -> bytes m j = overlay a (str ++ [0]) (bytes m) j) -> string_at m a str.
Proof.
  revert a. induction str as [|c str IH]; intros a Ha Hc Hb; cbn [string_at length app] in *; (split; [apply Ha; lia|]).
  - rewrite Hb by lia. apply overlay_hd.
  - apply Forall_cons in Hc as [Hc0 Hc]. split; [rewrite Hb by lia; apply overlay_hd|]. split; [done|]. apply IH; [intros j Hj; apply Ha; lia|done|].
    intros j Hj. rewrite Hb at 1 by lia. rewrite overlay_cons. apply overlay_ext. unfold poke. by rewrite (proj2 (Z.eqb_neq j a)) by lia.
Qed.
Lemma string_nonzero m a str : string_at m a str -> Forall (fun c => c <> 0) str.
Proof. revert a. induction str as [|c str IH]; intros a Hs; [done|]. destruct Hs as (_ & _ & Hc & Hs). constructor; [done|by eapply IH]. Qed.
Lemma string_bytes f a str l : (forall j, f j = overlay a (str ++ l) (fun _ => 0) j \/ ~ (a <= j < a + Z.of_nat (length str))) -> bytes_at f a (length str) = str.
Proof.
  intros Hf. rewrite (bytes_at_ext f (overlay a (str ++ l) (fun _ => 0))) by (intros j Hj; by destruct (Hf j)).
  pose proof (bytes_at_overlay a (str ++ l) (fun _ => 0)) as E. rewrite length_app, bytes_at_app in E. by apply app_inj_1 in E as [E _]; [|rewrite bytes_at_length].
Qed.
Lemma strlen_string m a str n k : string_at m a str -> (length str < n)%nat -> machine_strlen n m a k = Some (k + Z.of_nat (length str)).
Proof.
  revert a n k. induction str as [|c str IH]; intros a [|n] k Hs Hn; cbn [length] in Hn; try lia; cbn [machine_strlen].
  - destruct Hs as [-> ->]. cbn. f_equal. lia.
  - destruct Hs as (-> & -> & Hc & Hs). cbn [negb]. rewrite (proj2 (Z.eqb_neq c 0)) by done. rewrite (IH (a + 1) n (k + 1)) by (done || lia). f_equal. cbn [length]. lia.
Qed.

(** A transfer of a string that fits. *)
Definition string_copied m (dest : Z) (str : list Z) m' : Prop :=
  mapped m' = mapped m /\ forall a, bytes m' a = overlay dest (str ++ [0]) (bytes m) a.
Lemma string_copied_at m m' dest str : string_copied m dest str m' -> Forall (fun c => c <> 0) str ->
  (forall j, dest <= j < dest + Z.of_nat (length str) + 1 -> accessible m j = true) -> string_at m' dest str.
Proof.
  intros [Hm Hb] Hc Ha. apply string_written; [intros j Hj; unfold accessible in *; rewrite Hm; by apply Ha|done|]. intros j Hj. rewrite Hb. unfold overlay. rewrite (proj2 (Z.leb_le dest j)) by lia.
  destruct (lookup_lt_is_Some_2 (str ++ [0]) (Z.to_nat (j - dest))) as [c Hc']; [rewrite length_app; cbn; lia|]. by rewrite Hc'.
Qed.
Lemma copystr_string str : forall n i m dest src, string_at m (src + i) str -> (length str < n)%nat ->
  (forall j, dest + i <= j < dest + i + Z.of_nat (length str) + 1 -> accessible m j = true) -> apart (dest + i) (src + i) (Z.of_nat (length str) + 1) ->
  wp (copystr_loop n i dest src) (fun r m' => r = Some (i + Z.of_nat (length str) + 1) /\ badfaultfunc m' = badfaultfunc m /\ string_copied m (dest + i) str m') m.
Proof.
  induction str as [|c str IH]; intros [|n] i m dest src Hs Hn Hd Hap; cbn [length] in *; try lia; cbn [copystr_loop]; unfold load, store; wp_simpl.
  - destruct Hs as [Ha H0]. rewrite Ha. wp_simpl. rewrite (Hd (dest + i)) by lia. wp_simpl.
    unfold accessible in *. cbn [mapped bytes]. rewrite Ha. wp_simpl. unfold poke at 1. rewrite (proj2 (Z.eqb_neq (src + i) (dest + i))) by (unfold apart in Hap; lia). rewrite H0. wp_simpl.
    split; [f_equal; lia|]. split; [done|]. split; [done|]. intros a. cbn. by rewrite overlay_one.
  - destruct Hs as (Ha & Hc & Hne & Hs). rewrite Ha. wp_simpl. rewrite (Hd (dest + i)) by lia. wp_simpl. set (m1 := Machine _ _ _).
    assert (Ha1 : accessible m1 (src + i) = true) by exact Ha. rewrite Ha1. wp_simpl.
    assert (Ey : bytes m1 (src + i) = c) by (unfold m1, poke; cbn; rewrite (proj2 (Z.eqb_neq (src + i) (dest + i))) by (unfold apart in Hap; lia); done).
    rewrite Ey. rewrite (proj2 (Z.eqb_neq c 0)) by done. eapply wp_mono; [|apply (IH n (i + 1) m1 dest src)].
    + cbv beta. intros r m' (-> & Hf & Hm & Hb). split; [f_equal; lia|]. split; [done|]. split; [done|]. intros a. cbn [app]. rewrite Hb, overlay_cons, Z.add_assoc. apply overlay_ext. unfold m1. cbn. by rewrite Hc.
    + replace (src + (i + 1)) with (src + i + 1) by lia. apply (string_at_ext m); [done|]. split; [done|]. intros j Hj. unfold m1, poke. cbn. by rewrite (proj2 (Z.eqb_neq j (dest + i))) by (unfold apart in Hap; lia).
    + lia.
    + intros j Hj. apply Hd. lia.
    + unfold apart in *. lia.
Qed.
Lemma copy_string m u len dest src str : 0 <= u < USERSPACETOP -> u + Z.of_nat (length str) + 1 <= USERSPACETOP -> Z.of_nat (length str) < len < USERSPACETOP -> string_at m src str ->
  (forall j, dest <= j < dest + Z.of_nat (length str) + 1 -> accessible m j = true) -> apart dest src (Z.of_nat (length str) + 1) ->
  wp (let '(result, stoplen) := copycheck u len in
      if negb (result =? 0) then mret (result, 0) else
      set_badfault true;;
      r ← copystr dest src len stoplen;
      set_badfault false;;
      mret (default (EFAULT, 0) r)) (fun r m' => r = (0, Z.of_nat (length str) + 1) /\ badfaultfunc m' = false /\ string_copied m dest str m') m.
Proof.
  intros Hu Hfit Hlen Hs Hd Hap. unfold USERSPACETOP in *. rewrite copycheck_spec by lia. unfold USERSPACETOP. rewrite (proj2 (Z.ltb_lt u _)), (proj2 (Z.ltb_lt 0 len)), (proj2 (Z.leb_le (u + len) _)) by lia. cbn [andb Z.eqb negb].
  wp_simpl. rewrite wp_set_badfault. wp_simpl. unfold copystr. wp_simpl. set (m1 := Machine _ _ true).
  eapply wp_mono; [|apply (copystr_string str _ 0 m1)]; rewrite ?Z.add_0_r.
  - cbv beta. intros r m' (-> & Hf & Hc). rewrite Z.add_0_l. rewrite (proj2 (Z.eqb_neq (Z.of_nat (length str) + 1) 0)) by lia. wp_simpl. rewrite wp_set_badfault. by wp_simpl.
  - by apply (string_at_ext m).
  - lia.
  - exact Hd.
  - exact Hap.
Qed.
End strings.

(** ** [sys_chdir] *)

Section chdir.
Import Program.
Context {W : Type} {E : ProgEnv W}.
Implicit Types (s : prog W) (m : machine).

Lemma strcpy_spec str : forall n m dest src, string_at m src str -> badfaultfunc m = false -> (length str < n)%nat ->
  (forall j, dest <= j < dest + Z.of_nat (length str) + 1 -> accessible m j = true) -> apart dest src (Z.of_nat (length str) + 1) ->
  wp (strcpy n dest src) (fun _ m' => badfaultfunc m' = false /\ string_copied m dest str m') m.
Proof.
  induction str as [|c str IH]; intros [|n] m dest src Hs Hf Hn Hd Hap; cbn [length] in *; try lia; cbn [strcpy]; unfold load, store; wp_simpl.
  - destruct Hs as [-> ->]. wp_simpl. rewrite (Hd dest) by lia. wp_simpl. split; [done|]. split; [done|]. intros a. cbn. by rewrite overlay_one.
  - destruct Hs as (-> & -> & Hne & Hs). wp_simpl. rewrite (Hd dest) by lia. wp_simpl. rewrite (proj2 (Z.eqb_neq c 0)) by done. set (m1 := Machine _ _ _).
    eapply wp_mono; [|apply (IH n m1)]; [|apply (string_at_ext m); [done|]; split; [done|]|done|lia|intros j Hj; apply Hd; lia|unfold apart in *; lia].
    + cbv beta. intros _ m' (Hf' & Hm & Hb). split; [done|]. split; [done|]. intros a. cbn [app]. rewrite Hb, overlay_cons. by apply overlay_ext.
    + intros j Hj. unfold m1, poke. cbn. by rewrite (proj2 (Z.eqb_neq j dest)) by (unfold apart in Hap; lia).
Qed.
Lemma strcpy_overrun str : forall n m dest src, string_at m src str -> (n <= length str)%nat ->
  (forall j, dest <= j < dest + Z.of_nat n -> accessible m j = true) -> apart dest src (Z.of_nat (length str) + 1) ->
  strcpy n dest src m = Fault "strcpy past the end of the block".
Proof.
  induction str as [|c str IH]; intros [|n] m dest src Hs Hn Hd Hap; cbn [length] in *; try lia; [done|done|]. cbn [strcpy]. unfold load, store. kunfold.
  destruct Hs as (-> & -> & Hne & Hs). rewrite (Hd dest) by lia. rewrite (proj2 (Z.eqb_neq c 0)) by done. apply IH; [|lia|intros j Hj; apply (Hd j); lia|unfold apart in *; lia].
  apply (string_at_ext m); [done|]. split; [done|]. intros j Hj. unfold poke. cbn. by rewrite (proj2 (Z.eqb_neq j dest)) by (unfold apart in Hap; lia).
Qed.

(** Two slashes in a row. *)
Fixpoint double_slash (prev : Z) (str : list Z) : bool :=
  match str with [] => false | c :: str => ((c =? 47) && (prev =? 47)) || double_slash c str end.
Lemma parser_spec str : forall n m a prev, string_at m a str -> (length str < n)%nat ->
  parser_loop n a prev m = Ret (if double_slash prev str then 1 else 0) m.
Proof.
  induction str as [|c str IH]; intros [|n] m a prev Hs Hn; cbn [length] in *; try lia; cbn [parser_loop double_slash]; kunfold.
  - by destruct Hs as [_ ->].
  - destruct Hs as (_ & -> & Hne & Hs). rewrite (proj2 (Z.eqb_neq c 0)) by done. specialize (IH n m (a + 1) c Hs ltac:(lia)).
    destruct (Z.eqb_spec prev 0) as [->|Hp]; [rewrite andb_false_r; exact IH|]. destruct ((c =? 47) && (prev =? 47)); [done|exact IH].
Qed.
Lemma granted_4 : granted 4 = 16.
Proof. reflexivity. Qed.

(** Blocks are in kernel memory. *)
Definition kernel_block (p : option Z) : Prop := match p with Some p => USERSPACETOP <= p | None => True end.
Lemma kernel_accessible m a b : USERSPACETOP <= a -> forall j, a <= j < b -> accessible m j = true.
Proof. intros Ha j Hj. unfold accessible. by rewrite (proj2 (Z.leb_le _ j)) by lia. Qed.
Lemma wp_prog_kmalloc sz s (Q : option Z -> prog W -> Prop) p rest : answers s = p :: rest ->
  Q p (match p with Some q => set_blocks (<[q := granted sz]> (blocks s)) (set_answers rest s) | None => set_answers rest s end) -> wp (kmalloc sz) Q s.
Proof. intros Ha HQ. unfold kmalloc. wp_simpl. rewrite Ha. cbn [head tail default]. by destruct p; wp_simpl. Qed.

Definition chdir_path s (path : Z) (str : list Z) : Prop :=
  valid_ptr path /\ path + Z.of_nat (length str) + 1 <= USERSPACETOP /\ string_at (mach s) path str /\ badfaultfunc (mach s) = false.
(** What the parser leaves: a heap, and user memory as it was. *)
Lemma dir_parser_spec s path str l rest : chdir_path s path str -> answers s = Some l :: rest -> USERSPACETOP <= l -> blocks s !! l = None -> (length str < 16)%nat ->
  wp (dir_parser path) (fun r s' => (r <> 0 <-> double_slash 0 str = true) /\ chdir_path s' path str /\ answers s' = rest /\ world s' = world s /\
    blocks s' = if double_slash 0 str then <[l := 16]> (blocks s) else blocks s) s.
Proof.
  intros (Hv & Hu & Hs & Hf) Ha Hl Hfresh Hn. unfold dir_parser. rewrite wp_bind. eapply wp_prog_kmalloc; [done|]. rewrite granted_4. change (Z.to_nat 16) with 16%nat.
  pose proof Hv as [[Hv1 Hv2] _]. unfold KERNEL_PTR, USERSPACETOP in *. assert (Hap : apart l path (Z.of_nat (length str) + 1)) by (right; lia).
  rewrite wp_bind, wp_zoom. eapply wp_mono; [|apply (strcpy_spec str 16 (mach s)); [done|done|done|by apply kernel_accessible|exact Hap]]. cbv beta. intros _ m (Hf' & Hm & Hb).
  assert (Hstr : string_at m l str) by (apply (string_copied_at (mach s)); [done|by eapply string_nonzero|by apply kernel_accessible]).
  rewrite wp_bind, wp_zoom. cbn [lget lset mach_lens mach]. rewrite (wp_eq _ _ _ _ _ (parser_spec str 16 m l 0 Hstr Hn)).
  assert (Hkeep : string_at m path str).
  { apply (string_at_ext (mach s)); [done|]. split; [done|]. intros j Hj. rewrite Hb. apply overlay_out. rewrite length_app. cbn. lia. }
  destruct (double_slash 0 str); cbn [Z.eqb]; [wp_simpl; done|]. unfold kfree. wp_simpl. split; [done|]. split; [done|]. split; [done|]. split; [done|]. cbn. by rewrite delete_insert_id.
Qed.

(** C30. [sys_chdir] for a path that can be read.  It first copies the path into a heap block that was
    asked for with the size of a pointer, which [kmalloc] rounds up to 16 bytes: a path of 16
    characters or more is written past its end.  A shorter path with two
    slashes in a row is refused with [ENOTDIR], and the block is never given back.  Any other
    path goes to [vfs_chdir] as it is, whose error is the answer, and the heap is as before; if one
    of the two allocations fails the directory stays, with [ENOTDIR] or [EFAULT]. *)
Theorem chdir_correct s path str (a1 a2 : option Z) rest e w :
  chdir_path s path str -> answers s = a1 :: a2 :: rest -> kernel_block a1 -> kernel_block a2 ->
  (forall p, a1 = Some p \/ a2 = Some p -> blocks s !! p = None) -> env_chdir str (world s) = Ret e w ->
  match a1 with
  | None => wp (sys_chdir path) (fun r s' => r = (-1, Some ENOTDIR) /\ blocks s' = blocks s /\ world s' = world s) s
  | Some l =>
      if decide (16 <= length str)%nat then sys_chdir path s = Fault "strcpy past the end of the block" else
      if double_slash 0 str then wp (sys_chdir path) (fun r s' => r = (-1, Some ENOTDIR) /\ blocks s' = <[l := 16]> (blocks s) /\ world s' = world s) s else
      wp (sys_chdir path) (fun r s' => blocks s' = blocks s /\
        match a2 with
        | None => r = (-1, Some EFAULT) /\ world s' = world s
        | Some _ => r = (if e =? 0 then (0, None) else (-1, Some e)) /\ world s' = w
        end) s
  end.
Proof.
  intros Hp Ha H1 H2 Hfresh He. pose proof Hp as (Hv & Hu & Hs & Hf). pose proof Hv as [[Hv1 Hv2] Hv3].
  assert (Hguards : (path =? 0) = false /\ ((path =? INVALID_PTR) || (KERNEL_PTR <=? path)) = false).
  { unfold KERNEL_PTR, INVALID_PTR in *. split; [apply Z.eqb_neq; lia|]. apply orb_false_iff. split; [by apply Z.eqb_neq|apply Z.leb_gt; lia]. }
  destruct Hguards as [G1 G2]. destruct a1 as [l|]; cbn [kernel_block] in *.
  2:{ unfold sys_chdir. rewrite G1, G2. unfold dir_parser. rewrite wp_bind, wp_bind. eapply wp_prog_kmalloc; [done|]. by wp_simpl. }
  case_decide as Hlen.
  { unfold sys_chdir. rewrite G1, G2. unfold dir_parser, kmalloc. kunfold. rewrite Ha. cbn [head default tail lget mach_lens mach set_blocks set_answers]. rewrite granted_4. change (Z.to_nat 16) with 16%nat. cbn [id mach lget mach_lens set_blocks set_answers].
    rewrite (strcpy_overrun str); [done|done|lia|by apply kernel_accessible|right; unfold KERNEL_PTR, USERSPACETOP in *; lia]. }
  assert (Hrun : wp (sys_chdir path) (fun r s' => if double_slash 0 str then r = (-1, Some ENOTDIR) /\ blocks s' = <[l := 16]> (blocks s) /\ world s' = world s else
      blocks s' = blocks s /\ match a2 with None => r = (-1, Some EFAULT) /\ world s' = world s | Some _ => r = (if e =? 0 then (0, None) else (-1, Some e)) /\ world s' = w end) s).
  2:{ by destruct (double_slash 0 str). }
  unfold sys_chdir. rewrite G1, G2, wp_bind. eapply wp_mono; [|apply (dir_parser_spec s path str l); [done|done|done|apply Hfresh; by left|lia]].
  cbv beta. intros r s1 (Hr & (_ & _ & Hs1 & Hf1) & Ha1 & Hw1 & Hb1). destruct (double_slash 0 str).
  { rewrite (proj2 (Z.eqb_neq r 0)) by (by apply Hr). cbn [negb]. by wp_simpl. }
  assert (r = 0) as -> by (destruct (Z.eq_dec r 0); [done|]; by apply Hr in n). cbn [Z.eqb negb].
  rewrite wp_bind. eapply wp_prog_kmalloc; [done|]. destruct a2 as [k|]; [|wp_simpl; split; [exact Hb1|by split]]. cbn [kernel_block] in H2.
  rewrite wp_bind, wp_zoom. unfold copyinstr, PATH_MAX. unfold KERNEL_PTR, USERSPACETOP in *.
  eapply wp_mono; [|apply (copy_string (mach s1) path 1024 k path str); unfold USERSPACETOP; [lia|lia|lia|exact Hs1|by apply kernel_accessible|right; lia]].
  cbv beta. intros [e' got] m' ([= -> ->] & Hf' & Hm' & Hb'). cbn [Z.eqb negb lget lset mach_lens]. wp_simpl. rewrite wp_zoom. cbn [lget lset world_lens world mach set_blocks set_answers].
  replace (Z.to_nat (Z.of_nat (length str) + 1 - 1)) with (length str) by lia.
  assert (Es : bytes_at (bytes m') k (length str) = str).
  { apply (string_bytes _ _ _ [0]). intros j. rewrite Hb'. unfold overlay. destruct (Z.leb_spec k j); [|right; lia].
    destruct (decide (j < k + Z.of_nat (length str))); [left|right; lia]. destruct (lookup_lt_is_Some_2 (str ++ [0]) (Z.to_nat (j - k))) as [c Hc]; [rewrite length_app; cbn; lia|]. by rewrite Hc. }
  rewrite Es, Hw1. rewrite (wp_eq _ _ _ _ _ He). unfold kfree. wp_simpl.
  assert (Hb2 : delete k (<[k := granted 1024]> (blocks s1)) = blocks s).
  { rewrite delete_insert_id, Hb1; [done|]. rewrite Hb1. apply Hfresh. by right. }
  destruct (e =? 0); cbn [negb]; wp_simpl; (split; [exact Hb2|done]).
Qed.
End chdir.

(** ** [runprogram] *)

Section run.
Import Program.
Context {W : Type} {E : ProgEnv W}.
Implicit Types (s : prog W) (m : machine) (sp : Z).

(** The place of a string below [sp], and of the last of several. *)
Definition place sp (str : list Z) : Z := align_down (u32 (sp - (Z.of_nat (length str) + 1))).
Definition low sp (strs : list (list Z)) : Z := foldl place sp strs.
Lemma place_spec sp str : Z.of_nat (length str) + 4 <= sp < 2 ^ 32 ->
  place sp str mod 4 = 0 /\ sp - Z.of_nat (length str) - 4 <= place sp str <= sp - (Z.of_nat (length str) + 1).
Proof.
  intros Hsp. unfold place, align_down. rewrite u32_small by lia. set (p := sp - _). assert (El : Z.land p 3 = p mod 4) by (change 3 with (Z.ones 2); by rewrite Z.land_ones).
  rewrite El. pose proof (Z.mod_pos_bound p 4). pose proof (Z.div_mod p 4). destruct (Z.eqb_spec (p mod 4) 0) as [E0|E0]; cbn [negb]; [unfold p in *; lia|].
  rewrite u32_small by (unfold p in *; lia). split; [|unfold p in *; lia]. replace (p - p mod 4) with (p / 4 * 4) by lia. apply Z.mod_mul. done.
Qed.
(** The room that strings need at most. *)
Definition room (strs : list (list Z)) : Z := foldr (fun str n => Z.of_nat (length str) + 4 + n) 0 strs.
Lemma low_spec strs : forall sp, room strs <= sp < 2 ^ 32 -> sp - room strs <= low sp strs <= sp.
Proof.
  induction strs as [|str strs IH]; intros sp Hsp; cbn [low foldl room foldr] in *; [lia|]. fold (room strs) in *. change (foldl place (place sp str) strs) with (low (place sp str) strs).
  assert (Hr : 0 <= room strs) by (clear; induction strs as [|x l IH]; cbn; [lia|]; fold (room l); lia).
  destruct (place_spec sp str) as [_ Hp]; [lia|]. specialize (IH (place sp str)). lia.
Qed.
Lemma room_nonneg strs : 0 <= room strs.
Proof. induction strs as [|x l IH]; cbn; [lia|]. fold (room l). lia. Qed.
Lemma low_aligned strs sp : strs <> [] -> room strs <= sp < 2 ^ 32 -> low sp strs mod 4 = 0.
Proof.
  revert sp. induction strs as [|str strs IH]; intros sp Hne Hsp; [done|]. cbn [low foldl room foldr] in *. fold (room strs) in *. pose proof (room_nonneg strs).
  destruct (place_spec sp str) as [H4 Hp]; [lia|]. destruct strs as [|x strs]; [done|]. apply IH; [done|lia].
Qed.

Definition words_at m (a : Z) : Z := word_at (bytes m) a.
(** An argument: a string of the kernel that [argvptr]'s block of [size] bytes does not meet. *)
Definition kernel_string m (p size : Z) (a : Z) (str : list Z) : Prop :=
  string_at m a str /\ USERSPACETOP <= a /\ Z.of_nat (length str) < ARG_MAX /\ (a + Z.of_nat (length str) + 1 <= p \/ p + size <= a).
(** The memory outside of two regions. *)
Definition same_outside m m' (a b c d : Z) : Prop :=
  mapped m' = mapped m /\ forall j, ~ (a <= j < b) -> ~ (c <= j < d) -> bytes m' j = bytes m j.
Lemma kernel_string_same m m' p size a str (lo hi c d : Z) : kernel_string m p size a str -> same_outside m m' lo hi c d -> hi <= USERSPACETOP -> p <= c -> d <= p + size -> kernel_string m' p size a str.
Proof.
  intros (Hs & Hk & Hl & Hap) [Hm Hb] Hhi Hc Hd. split; [|done]. apply (string_at_ext m); [done|]. split; [done|]. intros j Hj. apply Hb; [lia|]. destruct Hap; lia.
Qed.
Lemma wp_write_slot p i x s (Q : () -> prog W -> Prop) size : blocks s !! p = Some size -> 4 * i + 4 <= size ->
  Q tt (lset mach_lens (Machine (mapped (mach s)) (overlay (p + 4 * i) (be_bytes 4 x) (bytes (mach s))) (badfaultfunc (mach s))) s) -> wp (write_slot p i x) Q s.
Proof. intros Hb Hi HQ. unfold write_slot. wp_simpl. rewrite Hb. rewrite (proj2 (Z.leb_le (4 * i + 4) size)) by done. rewrite wp_zoom. by wp_simpl. Qed.

(** The result of the loop for arguments [strs] from index [i] on. *)
Record placed s (p i sp : Z) (strs : list (list Z)) s' : Prop := {
  pl_strings : forall (k : nat) str, strs !! k = Some str -> exists a, words_at (mach s') (p + 4 * (i + Z.of_nat k)) = a /\
    low sp strs <= a /\ a + Z.of_nat (length str) + 1 <= sp /\ a mod 4 = 0 /\ string_at (mach s') a str;
  pl_rest : same_outside (mach s) (mach s') (low sp strs) sp (p + 4 * i) (p + 4 * (i + Z.of_nat (length strs)));
  pl_fault : badfaultfunc (mach s') = false;
  pl_world : world s' = world s;
  pl_block : forall q z, blocks s !! q = Some z -> blocks s' !! q = Some z;
  pl_size : size (blocks s') = (size (blocks s) + length strs)%nat }.
Fixpoint grants (l : list (option Z)) (used : gset Z) (n : nat) : Prop :=
  match n with O => True | S n => match l with Some p :: l => p ∉ used /\ grants l ({[p]} ∪ used) n | _ => False end end.
Lemma placed_nil s p i sp : badfaultfunc (mach s) = false -> placed s p i sp [] s.
Proof. intros Hf. by split. Qed.
Lemma words_outside m m' a b c d x : same_outside m m' a b c d -> (x + 4 <= a \/ b <= x) -> (x + 4 <= c \/ d <= x) -> words_at m' x = words_at m x.
Proof. intros [_ Hb] H1 H2. apply word_at_ext. intros j Hj. apply Hb; lia. Qed.
Lemma string_outside m m' a b c d x str : same_outside m m' a b c d -> string_at m x str ->
  (x + Z.of_nat (length str) + 1 <= a \/ b <= x) -> (x + Z.of_nat (length str) + 1 <= c \/ d <= x) -> string_at m' x str.
Proof. intros [Hm Hb] Hs H1 H2. apply (string_at_ext m); [done|]. split; [done|]. intros j Hj. apply Hb; lia. Qed.
(** One argument, then the others. *)
Lemma placed_cons s s1 s2 p i sp str strs : room (str :: strs) <= sp <= USERSPACETOP -> USERSPACETOP <= p -> 0 <= i ->
  words_at (mach s1) (p + 4 * i) = place sp str -> string_at (mach s1) (place sp str) str ->
  same_outside (mach s) (mach s1) (place sp str) sp (p + 4 * i) (p + 4 * i + 4) -> world s1 = world s ->
  (forall q z, blocks s !! q = Some z -> blocks s1 !! q = Some z) -> size (blocks s1) = S (size (blocks s)) ->
  placed s1 p (i + 1) (place sp str) strs s2 -> placed s p i sp (str :: strs) s2.
Proof.
  intros Hsp Hp Hi Hw Hstr Hout Hworld Hbl Hsz [P1 P2 P3 P4 P5 P6]. unfold USERSPACETOP in *. cbn [room foldr] in Hsp. fold (room strs) in Hsp. pose proof (room_nonneg strs).
  destruct (place_spec sp str) as [Hal Hpl]; [lia|]. destruct (low_spec strs (place sp str)) as [Hlo1 Hlo2]; [lia|]. change (low sp (str :: strs)) with (low (place sp str) strs) in *.
  split; [| |done|congruence|auto|cbn; lia]; change (low sp (str :: strs)) with (low (place sp str) strs).
  - intros [|k] str' Hk.
    + injection Hk as <-. exists (place sp str). split_and!; [|lia|lia|done|].
      * rewrite <-Hw. replace (p + 4 * (i + Z.of_nat 0)) with (p + 4 * i) by lia. apply (words_outside _ _ _ _ _ _ _ P2); lia.
      * apply (string_outside _ _ _ _ _ _ _ _ P2 Hstr); lia.
    + destruct (P1 k str' Hk) as (a & Ha & A1 & A2 & A3 & A4). exists a. split_and!; [|done|lia|done|done]. rewrite <-Ha. f_equal. lia.
  - destruct P2 as [P2m P2b], Hout as [Om Ob]. split; [congruence|]. intros j H1 H2. cbn [length] in H2. rewrite P2b by lia. apply Ob; lia.
Qed.
Lemma args_loop_spec p z strs : forall args i s sp, Forall2 (kernel_string (mach s) p z) args strs -> blocks s !! p = Some z -> USERSPACETOP <= p -> 0 <= i -> 4 * (i + Z.of_nat (length strs)) <= z ->
  room strs <= sp <= USERSPACETOP -> (forall j, low sp strs <= j < sp -> accessible (mach s) j = true) -> badfaultfunc (mach s) = false -> grants (answers s) (dom (blocks s)) (length strs) ->
  wp (args_loop args i p sp) (fun r s' => r = inr (low sp strs) /\ placed s p i sp strs s') s.
Proof.
  induction strs as [|str strs IH]; intros args i s sp Hargs Hb Hp Hi Hz Hsp Hacc Hf Hg; cbn [length] in *.
  { apply Forall2_nil_inv_r in Hargs as ->. cbn [args_loop]. wp_simpl. split; [done|by apply placed_nil]. }
  apply Forall2_cons_inv_r in Hargs as (arg & args' & Harg & Hargs & ->). pose proof Harg as (Hs & Hk & Hl & Hap). cbn [args_loop]. wp_simpl.
  pose proof Hsp as Hsp'. unfold USERSPACETOP in *. cbn [room foldr] in Hsp'. fold (room strs) in Hsp'. pose proof (room_nonneg strs). destruct (place_spec sp str) as [Hal Hpl]; [lia|].
  destruct (low_spec strs (place sp str)) as [Hlo Hlo2]; [lia|]. change (low sp (str :: strs)) with (low (place sp str) strs) in *.
  rewrite (strlen_string _ _ str) by (done || (unfold ARG_MAX in *; lia)). wp_simpl. destruct (answers s) as [|[q|] rest] eqn:Ha; cbn [grants] in Hg; [done| |done]. destruct Hg as [Hq Hg].
  eapply wp_prog_kmalloc; [done|]. rewrite granted_4. wp_simpl. assert (Hqp : q <> p) by (intros ->; apply Hq, elem_of_dom; eauto).
  eapply wp_write_slot; [cbn; by rewrite lookup_insert_ne|lia|]. wp_simpl. cbn [default mach set_blocks set_answers lset mach_lens blocks answers world].
  set (m1 := Machine _ _ _). rewrite wp_zoom. cbn [lget mach_lens mach]. change (align_down _) with (place sp str).
  assert (Hm1 : forall j, ~ (p + 4 * i <= j < p + 4 * i + 4) -> bytes m1 j = bytes (mach s) j) by (intros j Hj; unfold m1; cbn; by apply overlay_out).
  eapply wp_mono; [|apply (copy_string m1 (place sp str) (Z.of_nat (length str) + 1) (place sp str) arg str); unfold USERSPACETOP; try lia].
  2:{ apply (string_at_ext (mach s)); [done|]. split; [done|]. intros j Hj. apply Hm1. lia. }
  2:{ intros j Hj. apply Hacc. lia. }
  2:{ left. lia. }
  cbv beta. intros r m2 (-> & Hf2 & Hc2). pose proof Hc2 as [Hm2 Hb2]. wp_simpl. eapply wp_write_slot; [cbn; by rewrite lookup_insert_ne|lia|]. wp_simpl.
  cbn [mach set_blocks set_answers lset mach_lens blocks answers world]. set (m3 := Machine _ _ _).
  assert (Hm3 : forall j, ~ (p + 4 * i <= j < p + 4 * i + 4) -> bytes m3 j = bytes m2 j) by (intros j Hj; unfold m3; cbn; by apply overlay_out).
  assert (Hout : same_outside (mach s) m3 (place sp str) sp (p + 4 * i) (p + 4 * i + 4)).
  { split; [exact Hm2|]. intros j H1 H2. rewrite Hm3, Hb2, overlay_out, Hm1; [done|done| |done]. rewrite length_app. cbn. lia. }
  assert (Hstr : string_at m3 (place sp str) str).
  { apply (string_at_ext m2); [apply (string_copied_at m1); [done|by eapply string_nonzero|intros j Hj; apply Hacc; lia]|]. split; [done|]. intros j Hj. apply Hm3. lia. }
  set (s3 := Prog m3 _ _ _). eapply wp_mono; [|apply (IH args' (i + 1) s3 (place sp str))]; try done; try lia.
  - cbv beta. intros r s' [-> Hpl']. split; [done|]. apply (placed_cons s s3 s'); try done; [|unfold s3; cbn..].
    + unfold words_at, s3, m3. cbn [mach bytes]. rewrite be_bytes_word_at. apply Z.mod_small. lia.
    + intros q' z' Hq'. rewrite lookup_insert_ne; [done|]. intros ->. apply Hq, elem_of_dom. eauto.
    + rewrite map_size_insert_None; [done|]. by apply not_elem_of_dom.
  - eapply Forall2_impl; [exact Hargs|]. cbv beta. intros a str' Hks. eapply (kernel_string_same (mach s)); [exact Hks|exact Hout|unfold USERSPACETOP; lia|lia|lia].
  - unfold s3. cbn. by rewrite lookup_insert_ne.
  - intros j Hj. unfold accessible, s3, m3. cbn. rewrite Hm2. apply Hacc. lia.
  - unfold s3. cbn. by rewrite dom_insert_L.
Qed.

Lemma granted_ge sz : 0 <= sz -> sz <= granted sz.
Proof.
  intros Hz. unfold granted. destruct (Z.leb_spec Kmalloc.LARGEST_SUBPAGE_SIZE sz).
  - pose proof (Z.div_mod (sz + 4095) 4096). pose proof (Z.mod_pos_bound (sz + 4095) 4096). lia.
  - destruct (blocktype_loop_spec sz) as (t & _ & -> & Ht); [done|]. by rewrite Nat2Z.id.
Qed.
Lemma copyout_ok m u src len : 0 <= u -> 0 < len -> u + len <= USERSPACETOP -> USERSPACETOP <= src -> (forall j, u <= j < u + len -> accessible m j = true) ->
  wp (copyout src u len) (fun r m' => r = 0 /\ mapped m' = mapped m /\ forall a, bytes m' a = copied (bytes m) len u src a) m.
Proof.
  intros Hu Hl Hf Hs Ha. unfold USERSPACETOP in *. eapply wp_mono; [|apply (copyin_copyout_correct m u src len); [lia|lia|right; lia]].
  cbv beta. intros r m' [(_ & Hm & _ & [(-> & _ & _ & Hb)|(_ & Hn & _)])|(Hn & _)]; [done| |].
  - destruct Hn. split; intros j Hj; [|by apply Ha]. by apply (kernel_accessible m src (src + len)).
  - destruct Hn. split; [done|]. unfold USERSPACETOP. lia.
Qed.

(** The calls into other components succeed, up to the stack: memory [m] and world [w] then. *)
Definition starts s progname stackptr entry m w : Prop :=
  exists v a w1 w2 w3 w4 w5 w6 w7, env_open progname (world s) = Ret (0, v) w1 /\ env_getas w1 = None /\ env_as_create w1 = Ret (Some a) w2 /\
    env_setas a w2 = Ret tt w3 /\ env_as_activate w3 = Ret tt w4 /\ env_start_filetable w4 = Ret 0 w5 /\
    env_load_elf v (mach s, w5) = Ret (inr entry) (m, w6) /\ env_close v w6 = Ret tt w7 /\ env_define_stack a w7 = Ret (inr stackptr) w.
Lemma runprogram_starts s progname args stackptr entry m w : Z.of_nat (length args) <= ARG_MAX -> starts s progname stackptr entry m w ->
  runprogram progname args s = run_args args stackptr entry (Prog m (blocks s) (answers s) w) /\ badfaultfunc m = badfaultfunc (mach s) /\
  forall a, USERSPACETOP <= a -> bytes m a = bytes (mach s) a.
Proof.
  intros Hn (v & a & w1 & w2 & w3 & w4 & w5 & w6 & w7 & E1 & E2 & E3 & E4 & E5 & E6 & E7 & E8 & E9). split.
  - unfold runprogram. rewrite (proj2 (Z.ltb_ge ARG_MAX _)) by done. kunfold. cbn [lget lset world_lens both_lens world mach blocks answers]. rewrite E1. cbn [lset world_lens world mach blocks answers Z.eqb negb].
    rewrite bool_decide_eq_true_2 by done. cbn [lset world_lens world mach blocks answers]. rewrite E3. cbn [lset world_lens world mach blocks answers]. rewrite E4. cbn [lset world_lens world mach blocks answers]. rewrite E5. cbn [lset world_lens world mach blocks answers].
    rewrite E6. cbn [lset world_lens both_lens world mach blocks answers Z.eqb negb]. rewrite E7. cbn [lset world_lens both_lens world mach blocks answers fst snd]. rewrite E8. cbn [lset world_lens world mach blocks answers]. by rewrite E9.
  - pose proof (env_load_user (mach s, w5) v) as Hl. unfold wlp in Hl. by rewrite E7 in Hl.
Qed.
Lemma kernel_string_load m m' p z a str : kernel_string m p z a str -> (forall j, USERSPACETOP <= j -> bytes m' j = bytes m j) -> kernel_string m' p z a str.
Proof.
  intros (Hs & Hk & Hr) Hb. split; [|done]. clear Hr. revert a Hs Hk. induction str as [|c str IH]; intros a Hs Hk; cbn [string_at] in *; rewrite (Hb a) by done; (split; [by apply (kernel_accessible m' a (a + 1)); [|lia]|]).
  - apply Hs.
  - destruct Hs as (_ & Hc & Hne & Hs). split_and!; [done|done|]. apply IH; [done|lia].
Qed.

(** What the new program finds on its stack: [argc] pointers at [argv], in a memory that was [m]. *)
Record arguments (strs : list (list Z)) sp argv m m' : Prop := {
  ar_aligned : argv mod 4 = 0;
  ar_strings : forall (k : nat) str, strs !! k = Some str -> exists a, words_at m' (argv + 4 * Z.of_nat k) = a /\
    argv + 4 * (Z.of_nat (length strs) + 1) <= a /\ a + Z.of_nat (length str) + 1 <= sp /\ a mod 4 = 0 /\ string_at m' a str;
  ar_last : words_at m' (argv + 4 * Z.of_nat (length strs)) = words_at m (argv + 4 * Z.of_nat (length strs)) }.
(** The loop, the terminator in the table, and the copy of the table without it. *)
Lemma arguments_placed s s2 p sp strs m3 m4 (n := Z.of_nat (length strs)) (argv := low sp strs - 4 * (n + 1)) : placed s p 0 sp strs s2 -> strs <> [] ->
  room strs + 4 * (n + 1) <= sp <= USERSPACETOP -> USERSPACETOP <= p ->
  mapped m3 = mapped (mach s2) -> (forall j, ~ (p + 4 * n <= j < p + 4 * n + 4) -> bytes m3 j = bytes (mach s2) j) ->
  mapped m4 = mapped m3 -> (forall j, bytes m4 j = copied (bytes m3) (4 * n) argv p j) ->
  arguments strs sp argv (mach s) m4 /\ same_outside (mach s) m4 argv sp p (p + 4 * (n + 1)).
Proof.
  intros [P1 [P2m P2b] _ _ _ _] Hne Hsp Hp Hm3 Hb3 Hm4 Hb4. pose proof (room_nonneg strs). unfold USERSPACETOP in *. assert (Hn : 0 <= n) by lia.
  destruct (low_spec strs sp) as [Hlo1 Hlo2]; [lia|]. pose proof (low_aligned strs sp Hne ltac:(lia)) as Hal.
  assert (Hin : forall j, ~ (argv <= j < argv + 4 * n) -> bytes m4 j = bytes m3 j) by (intros j Hj; rewrite Hb4; unfold copied; case_match; [lia|done]).
  assert (Hout : forall j, ~ (argv <= j < argv + 4 * n) -> j < p -> bytes m4 j = bytes (mach s2) j) by (intros j Hj Hjp; rewrite Hin by done; apply Hb3; lia).
  split; [split|split].
  - unfold argv. replace (low sp strs - 4 * (n + 1)) with (low sp strs + (- (n + 1)) * 4) by lia. by rewrite Z.mod_add.
  - intros k str Hk. pose proof (lookup_lt_Some _ _ _ Hk). destruct (P1 k str Hk) as (a & Ha & A1 & A2 & A3 & A4). exists a. fold n. split_and!; [|unfold argv; lia|done|done|].
    + rewrite <-Ha, Z.add_0_l. unfold words_at, word_at. f_equal. unfold bytes_at. apply list_fmap_ext. intros i x Hx. apply lookup_seq in Hx as [-> Hx]. rewrite Hb4. unfold copied.
      rewrite (proj2 (Z.leb_le argv _)), (proj2 (Z.ltb_lt _ (argv + 4 * n))) by lia. cbn [andb]. replace (p + (argv + 4 * Z.of_nat k + Z.of_nat (0 + i) - argv)) with (p + 4 * Z.of_nat k + Z.of_nat (0 + i)) by lia. apply Hb3. lia.
    + apply (string_at_ext (mach s2)); [done|]. split; [congruence|]. intros j Hj. apply Hout; unfold argv; lia.
  - fold n. apply word_at_ext. intros j Hj. unfold argv in *. rewrite Hout by lia. apply P2b; lia.
  - congruence.
  - intros j H1 H2. unfold argv in *. rewrite Hin by lia. rewrite Hb3 by lia. apply P2b; lia.
Qed.

(** The program is loaded in memory [m]; there are kernel memory for [argvptr] and its strings, and room
    on the stack. *)
Record ready s m args strs sp p rest : Prop := {
  rd_args : Forall2 (kernel_string (mach s) p (granted (4 * Z.of_nat (length strs)))) args strs;
  rd_some : strs <> [];
  rd_many : Z.of_nat (length strs) <= ARG_MAX;
  rd_answers : answers s = Some p :: rest;
  rd_block : USERSPACETOP <= p /\ p ∉ dom (blocks s);
  rd_grants : grants rest ({[p]} ∪ dom (blocks s)) (length strs);
  rd_room : room strs + 4 * (Z.of_nat (length strs) + 1) <= sp <= USERSPACETOP;
  rd_stack : forall j, low sp strs - 4 * (Z.of_nat (length strs) + 1) <= j < sp -> accessible m j = true;
  rd_fault : badfaultfunc (mach s) = false }.
Lemma run_args_spec s args strs sp p rest entry (n := Z.of_nat (length strs)) (argv := low sp strs - 4 * (n + 1)) : ready s (mach s) args strs sp p rest ->
  if decide (4 * (n + 1) <= granted (4 * n)) then
    wp (run_args args sp entry) (fun r s' => r = inr (n, argv, entry) /\ arguments strs sp argv (mach s) (mach s') /\
      same_outside (mach s) (mach s') argv sp p (p + 4 * (n + 1)) /\ world s' = world s /\ size (blocks s') = (size (blocks s) + length strs + 1)%nat) s
  else run_args args sp entry s = Fault "argvptr[i]".
Proof.
  intros [R1 R2 R3 R4 [R5 R5'] R6 R7 R8 R9]. pose proof (Forall2_length _ _ _ R1) as El. unfold ARG_MAX in *. assert (Hn : 0 < n) by (unfold n; destruct strs; [done|cbn; lia]).
  pose proof (room_nonneg strs). destruct (low_spec strs sp) as [Hlo1 Hlo2]; [unfold USERSPACETOP in *; lia|].
  set (s1 := set_blocks (<[p := granted (4 * n)]> (blocks s)) (set_answers rest s)). assert (Hp1 : blocks s1 !! p = Some (granted (4 * n))) by apply lookup_insert_eq.
  assert (Hloop : wp (args_loop args 0 p sp) (fun r s' => r = inr (low sp strs) /\ placed s1 p 0 sp strs s') s1).
  { apply (args_loop_spec p (granted (4 * n))); try done; [rewrite Z.add_0_l; apply granted_ge; lia|lia|intros j Hj; apply R8; unfold n in *; lia|]. unfold s1. cbn. by rewrite dom_insert_L. }
  assert (Hmalloc : u32 (n * 4) = 4 * n) by (rewrite u32_small by lia; lia).
  case_decide as Hroom.
  - unfold run_args. rewrite El. fold n. rewrite wp_bind. eapply wp_prog_kmalloc; [done|]. rewrite Hmalloc. fold s1. rewrite wp_bind. eapply wp_mono; [|exact Hloop].
    cbv beta. intros r s2 [-> Hpl]. pose proof (pl_block _ _ _ _ _ _ Hpl p _ Hp1) as Hb2. rewrite wp_bind. eapply wp_write_slot; [exact Hb2|lia|].
    set (m3 := Machine _ _ _). rewrite wp_bind, wp_zoom. cbn [lget lset mach_lens mach]. fold argv. rewrite u32_small by (unfold argv, USERSPACETOP in *; lia).
    eapply wp_mono; [|apply (copyout_ok m3 argv p (4 * n)); [unfold argv; lia|lia|unfold argv; lia|done|]].
    2:{ intros j Hj. unfold m3, accessible. cbn [mapped]. rewrite (proj1 (pl_rest _ _ _ _ _ _ Hpl)). apply R8. unfold argv in *. fold n. lia. }
    cbv beta. intros r m4 (-> & Hm4 & Hb4). cbn [Z.eqb negb]. wp_simpl. split; [done|]. cbn [mach world blocks lset mach_lens].
    destruct (arguments_placed s1 s2 p sp strs m3 m4 Hpl R2 R7 R5) as [Ha Ho]; [done| |done|exact Hb4|].
    { intros j Hj. unfold m3. cbn [bytes]. by apply overlay_out. }
    split; [exact Ha|]. split; [exact Ho|]. split; [exact (pl_world _ _ _ _ _ _ Hpl)|]. rewrite (pl_size _ _ _ _ _ _ Hpl). unfold s1. cbn. rewrite map_size_insert_None by (by apply not_elem_of_dom). lia.
  - apply wp_returns in Hloop as (r & s2 & Er & -> & Hpl). pose proof (pl_block _ _ _ _ _ _ Hpl p _ Hp1) as Hb2.
    unfold run_args, kmalloc. kunfold. rewrite R4, El. fold n. cbn [head tail default]. rewrite Hmalloc. cbn [id]. change (set_blocks _ (set_answers rest s)) with s1. rewrite Er. unfold write_slot. kunfold. rewrite Hb2.
    destruct (Z.leb_spec (4 * n + 4) (granted (4 * n))); [lia|done].
Qed.

(** C29. [runprogram] places the arguments of the program.  When the program can be opened and loaded and
    there is memory, the program is entered with [argc] and a word-aligned [argv] on its
    stack, at which there are [argc] pointers to the strings, each aligned, whole and terminated,
    above the table; nothing else of the process's memory or of the kernel's is written than the
    stack from [argv] up and the table built in the heap.  The pointer behind the last, which ends
    the table, is not copied: the program finds there what the stack had.  None of the
    [argc + 1] heap blocks is given back.  And if [kmalloc] has no room behind the
    [argc] words that are asked for, as with 4, 8, 16 and so on arguments, the terminator of the
    table in the heap is written past its end. *)
Theorem runprogram_correct s progname args strs sp entry m w p rest (n := Z.of_nat (length strs)) (argv := low sp strs - 4 * (n + 1)) :
  starts s progname sp entry m w -> ready s m args strs sp p rest ->
  if decide (4 * (n + 1) <= granted (4 * n)) then
    wp (runprogram progname args) (fun r s' => r = inr (n, argv, entry) /\ arguments strs sp argv m (mach s') /\
      same_outside m (mach s') argv sp p (p + 4 * (n + 1)) /\ world s' = w /\ size (blocks s') = (size (blocks s) + length strs + 1)%nat) s
  else runprogram progname args s = Fault "argvptr[i]".
Proof.
  intros Hs [R1 R2 R3 R4 R5 R6 R7 R8 R9]. pose proof (Forall2_length _ _ _ R1) as El. destruct (runprogram_starts s progname args sp entry m w) as (Hr & Hf & Hk); [lia|done|].
  unfold wp. rewrite Hr. apply (run_args_spec (Prog m (blocks s) (answers s) w) args strs sp p rest entry). split; try done; [|cbn; congruence].
  eapply Forall2_impl; [exact R1|]. cbv beta. intros a str Ha. by eapply kernel_string_load.
Qed.
(** Without arguments it always fails: the copy of an empty table is refused. *)
Lemma no_arguments s progname sp entry m w p rest : starts s progname sp entry m w -> answers s = Some p :: rest -> 4 <= sp < 2 ^ 32 ->
  wp (runprogram progname []) (fun r _ => r = inl EFAULT) s.
Proof.
  intros Hs Ha Hsp. destruct (runprogram_starts s progname [] sp entry m w) as (Hr & _ & _); [done|done|]. unfold wp. rewrite Hr. unfold run_args, kmalloc. kunfold. cbn [answers length]. rewrite Ha.
  cbn [head tail default id args_loop]. unfold write_slot. kunfold. cbn [blocks set_blocks set_answers]. change (granted (u32 (Z.of_nat 0 * 4))) with 16. rewrite lookup_insert_eq. change (4 * Z.of_nat 0 + 4 <=? 16) with true.
  cbn [lget lset mach_lens mach]. rewrite u32_small by lia. unfold copyout. rewrite copycheck_spec by lia. unfold USERSPACETOP. replace (sp - 4 * (Z.of_nat 0 + 1)) with (sp - 4) by lia.
  change (4 * Z.of_nat 0) with 0. rewrite Z.ltb_irrefl, andb_false_r. cbn [andb]. destruct (Z.eqb_spec (sp - 4) 0); done.
Qed.
End run.

(** ** A machine with one page of stack *)

Module Program_sample.
Import Program.

#[export, refine] Instance sample_env : ProgEnv (option Z) := {|
  env_chdir path := mret (if decide (path = [47; 97]) then 0 else ENOENT);
  env_getcwd u := mret (0, u);
  env_cwd _ := Some 1;
  env_open name := mret (if decide (name = [47; 97]) then (0, 5) else (ENOENT, 0));
  env_close _ := mret tt;
  env_getas w := w;
  env_as_create := mret (Some 7);
  env_setas a := put (Some a);
  env_as_activate := mret tt;
  env_start_filetable := mret 0;
  env_load_elf _ := mret (inr 0x400000);
  env_define_stack _ := mret (inr USERSTACK) |}.
Proof. done. Defined.

(** Strings in kernel memory, and the path of [chdir] at 0x1000. *)
Definition sample_mem (path : list Z) : machine :=
  Machine (fun a => (0x1000 <=? a) && (a <? 0x2000) || (0x7ffff000 <=? a) && (a <? USERSTACK))
    (fun a => if a <? 0x2000 then overlay 0x1000 (path ++ [0]) (fun _ => 0) a else overlay 0x80000100 [47; 97; 0; 0; 45; 108; 0; 0] (fun _ => 0) a) false.
Definition sample_prog (path : list Z) (l : list (option Z)) : prog (option Z) := Prog (sample_mem path) ∅ l None.

(** Two arguments: the strings are at 0x7ffffffc and 0x7ffffff8, the table is at 0x7fffffec. *)
Definition argument_words (n : nat) (l : list (option Z)) : option (Z * list Z) :=
  match runprogram [47; 97] (replicate n 0x80000100) (sample_prog [] l) with
  | Ret (inr (argc, argv, _)) s => Some (argc, (fun k => words_at (mach s) (argv + 4 * k)) <$> seqZ 0 (Z.of_nat n + 1))
  | _ => None end.
Definition some_blocks (n : nat) : list (option Z) := (fun k => Some (0x80000200 + 16 * Z.of_nat k)) <$> seq 0 n.
Example two_arguments : argument_words 2 (some_blocks 3) = Some (2, [0x7ffffffc; 0x7ffffff8; 0]).
Proof. vm_compute. reflexivity. Qed.
Example four_arguments : runprogram [47; 97] (replicate 4 0x80000100) (sample_prog [] (some_blocks 5)) = Fault "argvptr[i]".
Proof. vm_compute. reflexivity. Qed.
(** Seventeen characters and a double slash. *)
Example long_path : sys_chdir 0x1000 (sample_prog (replicate 17 97) (some_blocks 2)) = Fault "strcpy past the end of the block".
Proof. vm_compute. reflexivity. Qed.
Example slashes : match sys_chdir 0x1000 (sample_prog [47; 47; 97] (some_blocks 2)) with
  | Ret r s => r = (-1, Some ENOTDIR) /\ blocks s = {[0x80000200 := 16]} | _ => False end.
Proof. vm_compute. by split. Qed.

Lemma chdir_correct_witness : wp (sys_chdir 0x1000) (fun r s' => r = (0, None) /\ blocks s' = ∅) (sample_prog [47; 97] (some_blocks 2)).
Proof.
  eapply wp_mono; [|apply (chdir_correct (sample_prog [47; 97] (some_blocks 2)) 0x1000 [47; 97] (Some 0x80000200) (Some 0x80000210) [] 0 None)].
  - cbv beta. intros r s' (H1 & H2 & _). split; [exact H2|exact H1].
  - split; [by unfold valid_ptr|]. split; [done|]. split; [by cbn|done].
  - reflexivity.
  - done.
  - done.
  - done.
  - reflexivity.
Defined.
Lemma sample_string : kernel_string (sample_mem []) 0x80000200 16 0x80000100 [47; 97] /\ kernel_string (sample_mem []) 0x80000200 16 0x80000104 [45; 108].
Proof. by split; (split; [by vm_compute|]); (split; [done|]); (split; [done|left]). Qed.
Lemma runprogram_correct_witness : wp (runprogram [47; 97] [0x80000100; 0x80000104]) (fun r s' => r = inr (2, 0x80000000 - 20, 0x400000)) (sample_prog [] (some_blocks 3)).
Proof.
  eapply wp_mono; [|apply (runprogram_correct (sample_prog [] (some_blocks 3)) [47; 97] [0x80000100; 0x80000104] [[47; 97]; [45; 108]] USERSTACK 0x400000 (sample_mem []) (Some 7) 0x80000200 [Some 0x80000210; Some 0x80000220])].
  - cbv beta. intros r s' [-> _]. by vm_compute.
  - by exists 5, 7, None, None, (Some 7), (Some 7), (Some 7), (Some 7), (Some 7).
  - split; try done.
    + apply Forall2_cons_2; [apply sample_string|]. apply Forall2_cons_2; [apply sample_string|]. apply Forall2_nil_2.
    + intros j Hj. change (2147483628 <= j < 2147483648) in Hj. unfold accessible, USERSPACETOP. cbn [mapped sample_mem]. rewrite (proj2 (Z.leb_le 0x7ffff000 j)), (proj2 (Z.ltb_lt j USERSTACK)) by (unfold USERSTACK; lia). by rewrite !orb_true_r.
Defined.
End Program_sample.
