(* ===== verification/Hangman.v ===== *)
(** * The deadlock detector: [kern/thread/hangman.c]

    An actor (a thread or a CPU) waits for at most one lockable, which is held by at most one
    actor, so the waits-for graph is a partial function on the actors ([waits_for]).  The
    detector follows it from the holder of the lock that is wanted.  The theorem: it always
    comes to an end, because the graph is kept without cycles, and it panics exactly when the
    wait would close one. *)
From S2P Require Import Prelude.

Module Hangman.
(** The fields [a_waiting] and [l_holding] of all actors and lockables; no entry is [NULL]. *)
Record hangman := TheHangman { a_waiting : gmap Z Z; l_holding : gmap Z Z }.
Definition set_waiting (m : gmap Z Z) (s : hangman) : hangman := TheHangman m (l_holding s).
Definition set_holding (m : gmap Z Z) (s : hangman) : hangman := TheHangman (a_waiting s) m.

(** [&hangman_lock.splk_hangman]. *)
Definition hangman_lockable : Z := 0.

(** The loop of [hangman_check] from [cur]; [true] is the jump to [found].  A loop that does
    not end is [Block]. *)
Fixpoint check_loop (fuel : nat) (cur : option Z) (target : Z) : K hangman bool :=
  match fuel with
  | O => block
  | S fuel =>
      match cur with
      | None => mret false
      | Some cur =>
          if cur =? target then mret true else
          s ← get;
          match a_waiting s !! cur with
          | None => mret false
          | Some l => check_loop fuel (l_holding s !! l) target
          end
      end
  end.
(** [panic] after the printout, which follows the same path once more. *)
Definition hangman_check (fuel : nat) (start target : Z) : K hangman () :=
  s ← get;
  found ← check_loop fuel (l_holding s !! start) target;
  if found : bool then panic "Deadlock." else mret tt.

Definition hangman_wait (fuel : nat) (a l : Z) : K hangman () :=
  if l =? hangman_lockable then mret tt else
  s ← get;
  if bool_decide (a_waiting s !! a <> None) then panic "hangman_wait: already waiting for something?" else
  hangman_check fuel l a;;
  modify (fun s => set_waiting (<[a := l]> (a_waiting s)) s).

Definition hangman_acquire (a l : Z) : K hangman () :=
  if l =? hangman_lockable then mret tt else
  s ← get;
  if bool_decide (a_waiting s !! a <> Some l) then panic "hangman_acquire: not waiting for lock" else
  if bool_decide (l_holding s !! l <> None) then panic "hangman_acquire: lock still held" else
  modify (fun s => set_holding (<[l := a]> (l_holding s)) s);;
  modify (fun s => set_waiting (delete a (a_waiting s)) s).

Definition hangman_release (a l : Z) : K hangman () :=
  if l =? hangman_lockable then mret tt else
  s ← get;
  if bool_decide (a_waiting s !! a <> None) then panic "hangman_release: waiting for something?" else
  if bool_decide (l_holding s !! l <> Some a) then panic "hangman_release: not the holder" else
  modify (fun s => set_holding (delete l (l_holding s)) s).
End Hangman.
Import Hangman.

(** ** The waits-for graph *)

Definition waits_for (s : hangman) (a b : Z) : Prop :=
  exists l, a_waiting s !! a = Some l /\ l_holding s !! l = Some b.
Definition acyclic (s : hangman) : Prop := forall a, ~ tc (waits_for s) a a.

Lemma waits_for_fun s a b c : waits_for s a b -> waits_for s a c -> b = c.
Proof. intros (l & H1 & H2) (l' & H3 & H4). congruence. Qed.

(** A path, with the actors it leaves. *)
Fixpoint path (s : hangman) (a : Z) (l : list Z) (b : Z) : Prop :=
  match l with [] => a = b | x :: l => x = a /\ exists c, waits_for s a c /\ path s c l b end.
Lemma path_rtc s a l b : path s a l b -> rtc (waits_for s) a b.
Proof.
  revert a. induction l as [|x l IH]; intros a; cbn; [by intros ->|]. intros (_ & c & Hc & Hp). eapply rtc_l; [exact Hc|by apply IH].
Qed.
Lemma path_waiting s a l b x : path s a l b -> x ∈ l -> is_Some (a_waiting s !! x).
Proof.
  revert a. induction l as [|y l IH]; intros a; cbn; [by intros _ ?%elem_of_nil|].
  intros (-> & c & (k & Hk & _) & Hp) [->|Hx]%elem_of_cons; [by exists k|by eapply IH].
Qed.
Lemma path_inside s a l b x : path s a l b -> x ∈ l -> rtc (waits_for s) a x.
Proof.
  revert a. induction l as [|y l IH]; intros a; cbn; [by intros _ ?%elem_of_nil|].
  intros (-> & c & Hc & Hp) [->|Hx]%elem_of_cons; [done|]. eapply rtc_l; [exact Hc|by eapply IH].
Qed.
Lemma path_nodup s a l b : acyclic s -> path s a l b -> NoDup l.
Proof.
  intros Hac. revert a. induction l as [|y l IH]; intros a; cbn; [by constructor|]. intros (-> & c & Hc & Hp). constructor; [|by eapply IH].
  intros Hin. apply (Hac a). eapply tc_rtc_r; [by apply tc_once|]. by eapply path_inside.
Qed.
(** No path is longer than the number of actors that wait. *)
Lemma path_length s a l b : acyclic s -> path s a l b -> (length l <= size (a_waiting s))%nat.
Proof.
  intros Hac Hp. rewrite <-size_dom. rewrite <-(size_list_to_set (C := gset Z) l) by by eapply path_nodup.
  apply subseteq_size. intros x Hx%elem_of_list_to_set. apply elem_of_dom. by eapply path_waiting.
Qed.
Lemma path_snoc s a l b c : path s a l b -> waits_for s b c -> path s a (l ++ [b]) c.
Proof.
  revert a. induction l as [|y l IH]; intros a; cbn.
  - intros -> Hc. split; [done|]. by exists c.
  - intros (-> & d & Hd & Hp) Hc. split; [done|]. exists d. split; [done|by apply IH].
Qed.

(** ** The loop *)

(** Going on from [cur], at the end of a path of [length seen] steps, the rest of the fuel is enough. *)
Lemma check_loop_spec fuel s cur target seen a : acyclic s -> path s a seen cur ->
  (size (a_waiting s) + 1 < fuel + length seen)%nat ->
  exists found : bool, check_loop fuel (Some cur) target s = Ret found s /\ (found = true <-> rtc (waits_for s) cur target).
Proof.
  intros Hac. revert cur seen. induction fuel as [|fuel IH]; intros cur seen Hp Hf.
  { pose proof (path_length s a seen cur Hac Hp). lia. }
  cbn [check_loop]. destruct (Z.eqb_spec cur target) as [->|Hne]; [by exists true|]. erewrite bind_eq by reflexivity.
  destruct (a_waiting s !! cur) as [l|] eqn:El.
  2:{ exists false. split; [done|]. split; [done|]. intros Hr. exfalso. apply rtc_inv in Hr as [->|(b & (l & Hl & _) & _)]; congruence. }
  destruct (l_holding s !! l) as [next|] eqn:En.
  - assert (Hw : waits_for s cur next) by by exists l.
    destruct (IH next (seen ++ [cur])) as (found & -> & Hfound); [by eapply path_snoc|rewrite length_app; cbn; lia|].
    exists found. split; [done|]. rewrite Hfound. split; [by apply rtc_l|]. intros Hr.
    apply rtc_inv in Hr as [->|(b & Hb & Hr)]; [done|]. by rewrite (waits_for_fun _ _ _ _ Hw Hb).
  - pose proof (path_length s a seen cur Hac Hp). destruct fuel as [|fuel]; [lia|].
    exists false. split; [done|]. split; [done|]. intros Hr. exfalso.
    apply rtc_inv in Hr as [->|(b & (l' & Hl & Hb) & _)]; congruence.
Qed.

(** Would a wait of [a] for [l] close a cycle? *)
Definition closes_cycle (s : hangman) (a l : Z) : Prop := exists b, l_holding s !! l = Some b /\ rtc (waits_for s) b a.

Lemma check_spec fuel s l a : acyclic s -> (size (a_waiting s) + 1 < fuel)%nat ->
  (closes_cycle s a l -> hangman_check fuel l a s = Panic "Deadlock.") /\
  (~ closes_cycle s a l -> hangman_check fuel l a s = Ret tt s).
Proof.
  intros Hac Hf. unfold hangman_check. erewrite bind_eq by reflexivity. destruct (l_holding s !! l) as [b|] eqn:El.
  - destruct (check_loop_spec fuel s b a [] b Hac eq_refl ltac:(cbn; lia)) as (found & Hc & Hfound).
    assert (Hiff : found = true <-> closes_cycle s a l).
    { rewrite Hfound. split; [by exists b|]. intros (b' & Hb & Hr). by assert (b' = b) as -> by congruence. }
    erewrite bind_eq by exact Hc. by destruct found; split; intros H; try done; [destruct H; by apply Hiff|apply Hiff in H].
  - destruct fuel as [|fuel]; [lia|]. split; [|done]. intros (b & Hb & _). congruence.
Qed.

(** ** The steps keep the graph acyclic *)

Lemma acyclic_sub s s' : acyclic s -> (forall u v, waits_for s' u v -> waits_for s u v) -> acyclic s'.
Proof.
  intros Hac Hsub. assert (Htc : forall x y, tc (waits_for s') x y -> tc (waits_for s) x y).
  { intros x y Hxy. induction Hxy as [x y H|x z y H _ IH]; [by apply tc_once, Hsub|eapply tc_l; [by apply Hsub|done]]. }
  intros a Ha. by apply (Hac a), Htc.
Qed.

Lemma wait_acyclic s a l : acyclic s -> a_waiting s !! a = None -> ~ closes_cycle s a l ->
  acyclic (set_waiting (<[a := l]> (a_waiting s)) s).
Proof.
  intros Hac Ha Hno. set (s' := set_waiting _ s).
  assert (Hedge : forall u v, waits_for s' u v -> (u <> a /\ waits_for s u v) \/ (u = a /\ l_holding s !! l = Some v)).
  { intros u v (k & Hk & Hv). cbn in Hk, Hv. destruct (decide (u = a)) as [->|Hu].
    - rewrite lookup_insert_eq in Hk. injection Hk as <-. by right.
    - rewrite lookup_insert_ne in Hk by done. left. split; [done|]. by exists k. }
  assert (Htc : forall x y, tc (waits_for s') x y -> tc (waits_for s) x y \/
    (rtc (waits_for s) x a /\ exists b, l_holding s !! l = Some b /\ rtc (waits_for s) b y)).
  { intros x y Hxy. induction Hxy as [x y H|x z y H _ IH].
    - destruct (Hedge _ _ H) as [[_ Hold]|[-> Hb]]; [left; by apply tc_once|right]. split; [done|]. by exists y.
    - destruct (Hedge _ _ H) as [[_ Hold]|[-> Hb]].
      + destruct IH as [IH|[Hr Hb]]; [left; by eapply tc_l|right]. split; [by eapply rtc_l|done].
      + destruct IH as [IH|[Hr _]]; [right; split; [done|]; exists z; split; [done|by apply tc_rtc]|]. destruct Hno. by exists z. }
  intros x Hx. destruct (Htc x x Hx) as [Hold|(Hxa & b & Hb & Hbx)]; [by apply (Hac x)|]. apply Hno. exists b. split; [done|]. by etrans.
Qed.
Lemma acquire_acyclic s a l : acyclic s -> l_holding s !! l = None ->
  acyclic (TheHangman (delete a (a_waiting s)) (<[l := a]> (l_holding s))).
Proof.
  intros Hac Hl. set (s' := TheHangman _ _).
  assert (Hedge : forall u v, waits_for s' u v -> u <> a /\ (v = a \/ waits_for s u v)).
  { intros u v (k & Hk & Hv). cbn in Hk, Hv. apply lookup_delete_Some in Hk as [Hu Hk]. split; [done|].
    destruct (decide (k = l)) as [->|Hne]; [rewrite lookup_insert_eq in Hv; left; congruence|]. rewrite lookup_insert_ne in Hv by done.
    right. by exists k. }
  assert (Hout : forall y, ~ tc (waits_for s') a y).
  { intros y Hy. inversion Hy as [? ? H|? z ? H _]; subst; by destruct (Hedge _ _ H). }
  assert (Htc : forall x y, tc (waits_for s') x y -> y = a \/ tc (waits_for s) x y).
  { intros x y Hxy. induction Hxy as [x y H|x z y H Hzy IH].
    - destruct (Hedge _ _ H) as [_ [->|Hold]]; [by left|right; by apply tc_once].
    - destruct (Hedge _ _ H) as [_ [->|Hold]]; [by apply Hout in Hzy|]. destruct IH as [->|IH]; [by left|right; by eapply tc_l]. }
  intros x Hx. destruct (Htc x x Hx) as [->|Hold]; [by apply (Hout a)|by apply (Hac x)].
Qed.
Lemma release_acyclic s l : acyclic s -> acyclic (set_holding (delete l (l_holding s)) s).
Proof.
  intros Hac. apply (acyclic_sub s); [done|]. intros u v (k & Hk & Hv). cbn in Hv. apply lookup_delete_Some in Hv as [_ Hv]. by exists k.
Qed.

(** ** Reachable states *)

Inductive hangman_step (s : hangman) : hangman -> Prop :=
  | step_wait fuel a l s' : hangman_wait fuel a l s = Ret tt s' -> hangman_step s s'
  | step_acquire a l s' : hangman_acquire a l s = Ret tt s' -> hangman_step s s'
  | step_release a l s' : hangman_release a l s = Ret tt s' -> hangman_step s s'.
Definition nobody : hangman := TheHangman ∅ ∅.

(** Whatever the fuel, a wait that returns has not closed a cycle. *)
Lemma check_loop_ret fuel s cur target s' : check_loop fuel cur target s = Ret false s' ->
  forall b, cur = Some b -> ~ rtc (waits_for s) b target.
Proof.
  revert cur. induction fuel as [|fuel IH]; intros cur; [done|]. cbn [check_loop]. intros Hc b ->. revert Hc.
  destruct (Z.eqb_spec b target) as [->|Hne]; [done|]. erewrite bind_eq by reflexivity.
  destruct (a_waiting s !! b) as [l|] eqn:El; intros Hc Hr; apply rtc_inv in Hr as [->|(c & (l' & Hl & Hc') & Hr)]; [done| |done|congruence].
  assert (l' = l) as -> by congruence. by eapply IH.
Qed.
Lemma check_loop_state fuel s cur target r s' : check_loop fuel cur target s = Ret r s' -> s' = s.
Proof.
  revert cur. induction fuel as [|fuel IH]; intros cur; [done|]. cbn [check_loop].
  destruct cur as [b|]; [|by intros [= _ <-]]. destruct (b =? target); [by intros [= _ <-]|]. erewrite bind_eq by reflexivity.
  destruct (a_waiting s !! b); [apply IH|by intros [= _ <-]].
Qed.
Lemma step_acyclic s s' : acyclic s -> hangman_step s s' -> acyclic s'.
Proof.
  intros Hac [fuel a l s1 Hw|a l s1 Hw|a l s1 Hw].
  - unfold hangman_wait in Hw. destruct (l =? hangman_lockable); [by injection Hw as <-|]. erewrite bind_eq in Hw by reflexivity.
    destruct (bool_decide_reflect (a_waiting s !! a <> None)) as [|Ha]; [done|]. apply dec_stable in Ha.
    unfold hangman_check in Hw. revert Hw. unfold mbind, K_bind, get. destruct (check_loop fuel (l_holding s !! l) a s) as [[] s2| | |] eqn:Ec; try done.
    intros [= <-]. rewrite (check_loop_state _ _ _ _ _ _ Ec). apply wait_acyclic; [done|done|].
    intros (b & Hb & Hr). by eapply check_loop_ret.
  - unfold hangman_acquire in Hw. destruct (l =? hangman_lockable); [by injection Hw as <-|]. erewrite bind_eq in Hw by reflexivity.
    destruct (bool_decide (a_waiting s !! a <> Some l)); [done|]. destruct (bool_decide_reflect (l_holding s !! l <> None)) as [|Hl]; [done|].
    apply dec_stable in Hl. injection Hw as <-. by apply acquire_acyclic.
  - unfold hangman_release in Hw. destruct (l =? hangman_lockable); [by injection Hw as <-|]. erewrite bind_eq in Hw by reflexivity.
    destruct (bool_decide (a_waiting s !! a <> None)); [done|]. destruct (bool_decide (l_holding s !! l <> Some a)); [done|].
    injection Hw as <-. by apply release_acyclic.
Qed.
Lemma nobody_acyclic : acyclic nobody.
Proof. intros a Ha. inversion Ha as [? ? (l & Hl & _)|? ? ? (l & Hl & _)]; subst; by cbn in Hl; rewrite lookup_empty in Hl. Qed.

(** C28. After any waits, acquisitions and releases that went through, nobody waits for himself in a
    circle, so the detector's walk along the waits-for graph ends, after no more steps than actors
    wait: with that much fuel or more, [hangman_wait] panics with "Deadlock." if the wait would close a
    circle, and otherwise records it; an actor that already waits is a panic. *)
Theorem hangman_correct s a l fuel : rtc hangman_step nobody s -> l <> hangman_lockable ->
  (size (a_waiting s) + 1 < fuel)%nat ->
  (forall b, ~ tc (waits_for s) b b) /\
  (a_waiting s !! a <> None -> hangman_wait fuel a l s = Panic "hangman_wait: already waiting for something?") /\
  (a_waiting s !! a = None -> closes_cycle s a l -> hangman_wait fuel a l s = Panic "Deadlock.") /\
  (a_waiting s !! a = None -> ~ closes_cycle s a l ->
    hangman_wait fuel a l s = Ret tt (set_waiting (<[a := l]> (a_waiting s)) s) /\
    hangman_step s (set_waiting (<[a := l]> (a_waiting s)) s)).
Proof.
  intros Hr Hl Hf. assert (Hac : acyclic s) by (eapply rtc_invariant; [exact step_acyclic|exact Hr|exact nobody_acyclic]).
  destruct (check_spec fuel s l a Hac Hf) as [Hyes Hno].
  assert (Hw : a_waiting s !! a = None -> hangman_wait fuel a l s =
    (hangman_check fuel l a;; modify (fun s => set_waiting (<[a := l]> (a_waiting s)) s)) s).
  { intros Ha. unfold hangman_wait. destruct (Z.eqb_spec l hangman_lockable); [done|]. erewrite bind_eq by reflexivity.
    rewrite bool_decide_false; [done|]. intros H. by apply H. }
  split; [exact Hac|]. split; [|split].
  - intros Ha. unfold hangman_wait. destruct (Z.eqb_spec l hangman_lockable); [done|]. erewrite bind_eq by reflexivity.
    by rewrite bool_decide_true.
  - intros Ha Hc. rewrite Hw by done. unfold mbind, K_bind. by rewrite Hyes.
  - intros Ha Hc. assert (Hret : hangman_wait fuel a l s = Ret tt (set_waiting (<[a := l]> (a_waiting s)) s)).
    { rewrite Hw by done. by erewrite bind_eq by by apply Hno. }
    split; [done|]. by eapply step_wait.
Qed.

(** Two actors take two locks crosswise; the second wait is the deadlock. *)
Definition crossed : hangman := TheHangman {[ 1 := 20 ]} {[ 10 := 1; 20 := 2 ]}.
Lemma crossed_reachable : rtc hangman_step nobody crossed.
Proof.
  eapply rtc_l; [by eapply (step_wait _ 2 1 10)|]. eapply rtc_l; [by eapply (step_acquire _ 1 10)|].
  eapply rtc_l; [by eapply (step_wait _ 2 2 20)|]. eapply rtc_l; [by eapply (step_acquire _ 2 20)|].
  eapply rtc_l; [by eapply (step_wait _ 3 1 20)|]. match goal with |- rtc _ ?x ?y => replace x with y; [done|by vm_compute] end.
Qed.
Lemma hangman_correct_witness : hangman_wait 3 2 10 crossed = Panic "Deadlock." /\
  hangman_wait 9 3 10 crossed = Ret tt (TheHangman {[ 1 := 20; 3 := 10 ]} {[ 10 := 1; 20 := 2 ]}).
Proof.
  split.
  - apply (hangman_correct crossed 2 10 3 crossed_reachable); [done|vm_compute; lia|done|].
    exists 1. split; [done|]. apply rtc_once. by exists 20.
  - destruct (hangman_correct crossed 3 10 9 crossed_reachable) as (_ & _ & _ & Hw); [done|vm_compute; lia|].
    rewrite (proj1 (Hw eq_refl ltac:(intros (b & [= <-] & Hr); apply rtc_inv in Hr as [Hr|(c & (l & [= <-] & [= <-]) & Hr)];
      [done|apply rtc_inv in Hr as [Hr|(c & (l & Hl & _) & _)]; done]))). by vm_compute.
Defined.
