(* ===== verification/Spinlock.v ===== *)
(** * Spinlocks and interrupt levels: [kern/thread/spinlock.c], [kern/thread/spl.c]

    Every CPU runs its own code; the machine interleaves their memory accesses.  Here the
    steps are these accesses: [spinlock_acquire] is cut where it reads the lock word, tests and
    sets it, and writes the holder, [spinlock_release] between clearing the holder and clearing
    the word.  [pc] says where a CPU is.  A store-conditional may fail at any time.

    The theorem, over all interleavings: a lock has at most one owner, interrupts are off
    while a CPU owns a lock or waits for one, and no assertion fails.  The case before the first
    CPU exists ([CURCPU_EXISTS()] false), the deadlock detector (off, see [Hangman]) and thread
    switches are not in this model. *)
From S2P Require Import Prelude.

Module Spinlock.
Definition IPL_NONE : Z := 0.
Definition IPL_HIGH : Z := 1.

Record spinlock := Splk { splk_lock : Z; splk_holder : option nat }.

(** Where a CPU is in the code of the spinlocks. *)
Inductive place :=
  | Elsewhere
  | Spinning (l : nat)  (** before [spinlock_data_get] *)
  | Testing (l : nat)   (** before [spinlock_data_testandset] *)
  | Taking (l : nat)    (** before writing [splk_holder] *)
  | Freeing (l : nat).  (** before [spinlock_data_set] *)

(** A CPU, with the interrupt state of the thread that runs on it. *)
Record cpu := Cpu { c_spinlocks : Z; t_iplhigh_count : Z; t_curspl : Z; irq : bool; pc : place }.
Record machine := Machine { cpus : nat -> cpu; locks : list spinlock }.

Definition set_pc (p : place) (c : cpu) : cpu := Cpu (c_spinlocks c) (t_iplhigh_count c) (t_curspl c) (irq c) p.
Definition set_spinlocks (n : Z) (c : cpu) : cpu := Cpu n (t_iplhigh_count c) (t_curspl c) (irq c) (pc c).
Definition set_curspl (n : Z) (c : cpu) : cpu := Cpu (c_spinlocks c) (t_iplhigh_count c) n (irq c) (pc c).
Definition set_count (n : Z) (c : cpu) : cpu := Cpu (c_spinlocks c) n (t_curspl c) (irq c) (pc c).
Definition set_irq (b : bool) (c : cpu) : cpu := Cpu (c_spinlocks c) (t_iplhigh_count c) (t_curspl c) b (pc c).

Section on_cpu.
Context (me : nat).
Definition cpu_lens : lens machine cpu :=
  Lens (fun s => cpus s me) (fun c s => Machine (fun i => if decide (i = me) then c else cpus s i) (locks s)).
Definition curcpu {A} (m : K cpu A) : K machine A := zoom cpu_lens m.
Definition get_lock (l : nat) : K machine spinlock := s ← get; deref (locks s !! l) "splk".
Definition set_lock (l : nat) (x : spinlock) : K machine () := modify (fun s => Machine (cpus s) (<[l := x]> (locks s))).

(** ** Interrupt levels ([spl.c]) *)

Definition splraise (oldspl newspl : Z) : K cpu () :=
  KASSERT (oldspl =? IPL_NONE) "oldspl == IPL_NONE";;
  KASSERT (newspl =? IPL_HIGH) "newspl == IPL_HIGH";;
  c ← get;
  (if t_iplhigh_count c =? 0 then modify (set_irq false) else mret tt);;
  modify (fun c => set_count (t_iplhigh_count c + 1) c).
Definition spllower (oldspl newspl : Z) : K cpu () :=
  KASSERT (oldspl =? IPL_HIGH) "oldspl == IPL_HIGH";;
  KASSERT (newspl =? IPL_NONE) "newspl == IPL_NONE";;
  modify (fun c => set_count (t_iplhigh_count c - 1) c);;
  c ← get;
  if t_iplhigh_count c =? 0 then modify (set_irq true) else mret tt.
Definition splx (spl : Z) : K cpu Z :=
  c ← get;
  if t_curspl c <? spl then
    splraise (t_curspl c) spl;;
    modify (set_curspl spl);;
    mret (t_curspl c)
  else if spl <? t_curspl c then
    let ret := t_curspl c in
    modify (set_curspl spl);;
    spllower ret spl;;
    mret ret
  else mret spl.

(** ** Spinlocks ([spinlock.c]) *)

(** [spinlock_acquire] up to the loop. *)
Definition acquire_enter (l : nat) : K machine () :=
  curcpu (splraise IPL_NONE IPL_HIGH);;
  x ← get_lock l;
  if bool_decide (splk_holder x = Some me) then panic "Deadlock on spinlock" else
  curcpu (modify (fun c => set_spinlocks (c_spinlocks c + 1) c));;
  curcpu (modify (set_pc (Spinning l))).
(** [if (spinlock_data_get(...) != 0) continue;] *)
Definition acquire_read (l : nat) : K machine () :=
  x ← get_lock l;
  if negb (splk_lock x =? 0) then mret tt else curcpu (modify (set_pc (Testing l))).
(** LL/SC: the previous value, or 1 when the store failed. *)
Definition spinlock_data_testandset (sc : bool) (l : nat) : K machine Z :=
  x ← get_lock l;
  if sc then set_lock l (Splk 1 (splk_holder x));; mret (splk_lock x) else mret 1.
Definition acquire_test (sc : bool) (l : nat) : K machine () :=
  x ← spinlock_data_testandset sc l;
  curcpu (modify (set_pc (if negb (x =? 0) then Spinning l else Taking l))).
Definition acquire_leave (l : nat) : K machine () :=
  x ← get_lock l;
  set_lock l (Splk (splk_lock x) (Some me));;
  curcpu (modify (set_pc Elsewhere)).

(** [spinlock_release] up to the barrier, and the rest. *)
Definition release_enter (l : nat) : K machine () :=
  x ← get_lock l;
  KASSERT (bool_decide (splk_holder x = Some me)) "splk->splk_holder == curcpu->c_self";;
  c ← curcpu get;
  KASSERT (0 <? c_spinlocks c) "curcpu->c_spinlocks > 0";;
  curcpu (modify (fun c => set_spinlocks (c_spinlocks c - 1) c));;
  set_lock l (Splk (splk_lock x) None);;
  curcpu (modify (set_pc (Freeing l))).
Definition release_leave (l : nat) : K machine () :=
  x ← get_lock l;
  set_lock l (Splk 0 (splk_holder x));;
  curcpu (spllower IPL_HIGH IPL_NONE);;
  curcpu (modify (set_pc Elsewhere)).

Definition spinlock_do_i_hold (l : nat) (s : machine) : bool :=
  match locks s !! l with Some x => bool_decide (splk_holder x = Some me) | None => false end.
Definition spinlock_init : spinlock := Splk 0 None.
Definition spinlock_cleanup (x : spinlock) : K machine () :=
  KASSERT (bool_decide (splk_holder x = None)) "splk->splk_holder == NULL";;
  KASSERT (splk_lock x =? 0) "spinlock_data_get(&splk->splk_lock) == 0".

(** ** What a CPU may do next

    It may begin to acquire any lock, release one it holds, change the interrupt level, or go on
    with what it does. *)
Inductive action :=
  | Acquire (l : nat) | Release (l : nat) | Splx (spl : Z) | Go_on (sc : bool).
Definition act (a : action) : K machine () :=
  c ← curcpu get;
  match pc c, a with
  | Elsewhere, Acquire l => acquire_enter l
  | Elsewhere, Release l => release_enter l
  | Elsewhere, Splx spl => _ ← curcpu (splx spl); mret tt
  | Spinning l, Go_on _ => acquire_read l
  | Testing l, Go_on sc => acquire_test sc l
  | Taking l, Go_on _ => acquire_leave l
  | Freeing l, Go_on _ => release_leave l
  | _, _ => mret tt
  end.
(** The code's own calls: no lock twice, release of held locks, levels that exist. *)
Definition proper (a : action) (s : machine) : Prop :=
  match a with
  | Acquire l => (l < length (locks s))%nat /\ spinlock_do_i_hold l s = false
  | Release l => spinlock_do_i_hold l s = true
  | Splx spl => spl = IPL_NONE \/ spl = IPL_HIGH
  | Go_on _ => True
  end.
End on_cpu.
End Spinlock.
Import Spinlock.

(** ** The invariant *)

(** The CPU is between setting the word and writing the holder, or between clearing them. *)
Definition at_lock (p : place) (l : nat) : Prop := p = Taking l \/ p = Freeing l.
Definition lock_ok (s : machine) (l : nat) (x : spinlock) : Prop :=
  match splk_holder x with
  | Some _ => splk_lock x = 1 /\ forall j, ~ at_lock (pc (cpus s j)) l
  | None => (splk_lock x = 0 /\ forall j, ~ at_lock (pc (cpus s j)) l) \/
            (splk_lock x = 1 /\ exists i, at_lock (pc (cpus s i)) l /\ forall j, at_lock (pc (cpus s j)) l -> j = i)
  end.
Definition holds (i : nat) (x : spinlock) : Z := if decide (splk_holder x = Some i) then 1 else 0.
Lemma holds_bound i x : 0 <= holds i x <= 1.
Proof. unfold holds. case_decide; lia. Qed.
Definition nheld (i : nat) (ls : list spinlock) : Z := foldr (fun x n => holds i x + n) 0 ls.
Definition wanting (p : place) : Z := match p with Spinning _ | Testing _ | Taking _ => 1 | _ => 0 end.
Definition freeing (p : place) : Z := match p with Freeing _ => 1 | _ => 0 end.
Definition place_lock (p : place) : option nat :=
  match p with Elsewhere => None | Spinning l | Testing l | Taking l | Freeing l => Some l end.
Record cpu_ok (held : Z) (n : nat) (c : cpu) : Prop := {
  ok_count : c_spinlocks c = held + wanting (pc c);
  ok_high : t_iplhigh_count c = t_curspl c + c_spinlocks c + freeing (pc c);
  ok_spl : t_curspl c = IPL_NONE \/ t_curspl c = IPL_HIGH;
  ok_irq : irq c = (t_iplhigh_count c =? 0);
  ok_place : forall l, place_lock (pc c) = Some l -> (l < n)%nat }.
Record ok (s : machine) : Prop := {
  ok_locks : forall l x, locks s !! l = Some x -> lock_ok s l x;
  ok_cpus : forall i, cpu_ok (nheld i (locks s)) (length (locks s)) (cpus s i) }.

Lemma nheld_cons i x ls : nheld i (x :: ls) = holds i x + nheld i ls.
Proof. done. Qed.
Lemma nheld_pos i ls : 0 <= nheld i ls.
Proof. induction ls as [|x ls IH]; [done|]. rewrite nheld_cons. pose proof (holds_bound i x). lia. Qed.
Lemma nheld_insert i ls l x y : ls !! l = Some x ->
  nheld i (<[l := y]> ls) = nheld i ls - holds i x + holds i y.
Proof.
  revert l. induction ls as [|z ls IH]; intros [|l] Hl; [done|done|injection Hl as ->|].
  - change (<[O := y]> (x :: ls)) with (y :: ls). rewrite !nheld_cons. lia.
  - change (<[S l := y]> (z :: ls)) with (z :: <[l := y]> ls). rewrite !nheld_cons, (IH l Hl). lia.
Qed.
Lemma nheld_in i ls l x : ls !! l = Some x -> splk_holder x = Some i -> 1 <= nheld i ls.
Proof.
  intros Hl Hx. pose proof (nheld_insert i ls l x (Splk 0 None) Hl) as E. unfold holds in E. rewrite (decide_True) in E by done. rewrite decide_False in E by done.
  pose proof (nheld_pos i (<[l := Splk 0 None]> ls)). lia.
Qed.

Lemma lock_ok_same s s' l x : lock_ok s l x -> (forall j, at_lock (pc (cpus s' j)) l <-> at_lock (pc (cpus s j)) l) -> lock_ok s' l x.
Proof.
  intros Hlock Hat. unfold lock_ok in *. destruct (splk_holder x) as [h|].
  - destruct Hlock as [Hw Hno]. split; [done|]. intros j. by rewrite Hat.
  - destruct Hlock as [[Hw Hno]|(Hw & j & Hj' & Hu)]; [left|right]; (split; [done|]).
    + intros j. by rewrite Hat.
    + exists j. rewrite Hat. split; [done|]. intros j'. rewrite Hat. apply Hu.
Qed.

(** A step of the CPU [i] that leaves it as [c'] and the lock [l] as [x']. *)
Definition moves (i : nat) (c' : cpu) (l : nat) (x' : spinlock) (s s' : machine) : Prop :=
  cpus s' i = c' /\ (forall j, j <> i -> cpus s' j = cpus s j) /\ locks s' = <[l := x']> (locks s).
Lemma moves_ok i c' l x x' s s' : ok s -> moves i c' l x' s s' -> locks s !! l = Some x ->
  (place_lock (pc (cpus s i)) = None \/ place_lock (pc (cpus s i)) = Some l) -> (place_lock (pc c') = None \/ place_lock (pc c') = Some l) ->
  lock_ok s' l x' -> (forall j, j <> i -> splk_holder x' = Some j <-> splk_holder x = Some j) ->
  (forall n, 0 <= n -> cpu_ok n (length (locks s)) (cpus s i) ->
    cpu_ok (n - holds i x + holds i x') (length (locks s)) c') ->
  ok s'.
Proof.
  intros [Hlocks Hcpus] (Hi & Hj & Hl') Hl Hp Hp' Hlock Hothers Hcpu. split.
  - intros k y Hk. rewrite Hl' in Hk. destruct (decide (k = l)) as [->|Hne].
    + rewrite list_lookup_insert_eq in Hk by by eapply lookup_lt_Some. by injection Hk as <-.
    + rewrite list_lookup_insert_ne in Hk by done. specialize (Hlocks k y Hk).
      assert (Hat : forall j, at_lock (pc (cpus s' j)) k <-> at_lock (pc (cpus s j)) k).
      { intros j. destruct (decide (j = i)) as [->|Hji]; [|by rewrite Hj]. rewrite Hi. unfold at_lock.
        split; intros [E|E]; rewrite E in *; cbn in *; naive_solver. }
      by apply (lock_ok_same s).
  - intros j. rewrite Hl', length_insert, (nheld_insert j _ _ x) by done. destruct (decide (j = i)) as [->|Hji].
    + rewrite Hi. apply Hcpu; [apply nheld_pos|done].
    + rewrite Hj by done. specialize (Hcpus j). specialize (Hothers j Hji).
      replace (_ - _ + _) with (nheld j (locks s)); [done|]. unfold holds. repeat case_decide; try lia; tauto.
Qed.

(** ** Each step *)

Section steps.
Context (s : machine) (i : nat) (Hok : ok s).
Notation c := (cpus s i).

(** A state in the middle of a step: only the own CPU and the locks have changed. *)
Definition looks (c' : cpu) (ls : list spinlock) (s' : machine) : Prop :=
  cpus s' i = c' /\ (forall j, j <> i -> cpus s' j = cpus s j) /\ locks s' = ls.
Lemma looks_here : looks c (locks s) s.
Proof using. done. Qed.
Lemma wp_curcpu {A} (m : K cpu A) c' ls s' (Q : A -> machine -> Prop) : looks c' ls s' ->
  wp m (fun a c'' => forall s'', looks c'' ls s'' -> Q a s'') c' -> wp (curcpu i m) Q s'.
Proof using.
  intros (Hi & Hj & Hls) Hm. unfold curcpu. rewrite wp_zoom. cbn [lget cpu_lens]. rewrite Hi.
  eapply wp_mono; [|exact Hm]. cbv beta. intros a c'' HQ. apply HQ. split_and!; cbn; [by rewrite decide_True| |done].
  intros j Hne. rewrite decide_False by done. by apply Hj.
Qed.
Lemma wp_get_lock l x c' ls s' (Q : spinlock -> machine -> Prop) : looks c' ls s' -> ls !! l = Some x -> Q x s' -> wp (get_lock l) Q s'.
Proof using. intros (_ & _ & Hls) Hl HQ. unfold get_lock. wp_simpl. by rewrite Hls, Hl, wp_deref_Some. Qed.
Lemma wp_set_lock l x c' ls s' (Q : () -> machine -> Prop) : looks c' ls s' ->
  (forall s'', looks c' (<[l := x]> ls) s'' -> Q tt s'') -> wp (set_lock l x) Q s'.
Proof using. intros (Hi & Hj & Hls) HQ. unfold set_lock. rewrite wp_modify. apply HQ. split_and!; cbn; [done|done|by rewrite Hls]. Qed.

Lemma wp_splraise c0 (Q : () -> cpu -> Prop) :
  Q tt (Cpu (c_spinlocks c0) (t_iplhigh_count c0 + 1) (t_curspl c0) (if t_iplhigh_count c0 =? 0 then false else irq c0) (pc c0)) ->
  wp (splraise IPL_NONE IPL_HIGH) Q c0.
Proof using. intros HQ. unfold splraise. do 2 (rewrite wp_bind, wp_KASSERT; split; [done|]). wp_simpl. destruct (t_iplhigh_count c0 =? 0); wp_simpl; exact HQ. Qed.
Lemma wp_spllower c0 (Q : () -> cpu -> Prop) :
  Q tt (Cpu (c_spinlocks c0) (t_iplhigh_count c0 - 1) (t_curspl c0) (if t_iplhigh_count c0 - 1 =? 0 then true else irq c0) (pc c0)) ->
  wp (spllower IPL_HIGH IPL_NONE) Q c0.
Proof using. intros HQ. unfold spllower. do 2 (rewrite wp_bind, wp_KASSERT; split; [done|]). wp_simpl. cbn [t_iplhigh_count set_count]. destruct (t_iplhigh_count c0 - 1 =? 0); wp_simpl; exact HQ. Qed.

(** The three ways a lock can be. *)
Lemma held_ok l x h : locks s !! l = Some x -> splk_holder x = Some h -> splk_lock x = 1 /\ forall j, ~ at_lock (pc (cpus s j)) l.
Proof using Hok. intros Hl Hx. pose proof (ok_locks s Hok l x Hl) as Ho. unfold lock_ok in Ho. by rewrite Hx in Ho. Qed.
Lemma at_ok l x : locks s !! l = Some x -> at_lock (pc c) l -> splk_lock x = 1 /\ splk_holder x = None /\ forall j, at_lock (pc (cpus s j)) l -> j = i.
Proof using Hok.
  intros Hl Hat. pose proof (ok_locks s Hok l x Hl) as Ho. unfold lock_ok in Ho. destruct (splk_holder x); [by destruct (proj2 Ho i)|].
  destruct Ho as [[_ Hno]|(Hw & j & _ & Hu)]; [by destruct (Hno i)|]. split_and!; [done|done|]. intros k Hk. rewrite (Hu k Hk). symmetry. by apply Hu.
Qed.

(** A step that leaves the lock as it was and does not go to the places where the word is set. *)
Lemma quiet_ok l x c' s' : locks s !! l = Some x -> looks c' (locks s) s' ->
  (place_lock (pc c) = None \/ place_lock (pc c) = Some l) -> (place_lock (pc c') = None \/ place_lock (pc c') = Some l) ->
  ~ at_lock (pc c) l -> ~ at_lock (pc c') l ->
  (forall n, 0 <= n -> cpu_ok n (length (locks s)) c -> cpu_ok n (length (locks s)) c') -> ok s'.
Proof using Hok.
  intros Hl (Hi & Hj & Hls) Hp Hp' Hn Hn' Hc. eapply (moves_ok i c' l x x s); [done| |done|done|done| |done|].
  - split_and!; [done|done|by rewrite list_insert_id].
  - eapply lock_ok_same; [by apply (ok_locks s Hok)|]. intros j. destruct (decide (j = i)) as [->|Hne]; [by rewrite Hi|by rewrite Hj].
  - intros n H0 Hc0. replace (n - _ + _) with n by lia. by apply Hc.
Qed.
Lemma enter_spec l x : pc c = Elsewhere -> locks s !! l = Some x -> splk_holder x <> Some i ->
  wp (acquire_enter i l) (fun _ => ok) s.
Proof using Hok.
  intros Hpc Hl Hx. unfold acquire_enter. rewrite wp_bind. eapply wp_curcpu; [apply looks_here|]. apply wp_splraise. intros s1 H1. rewrite wp_bind.
  eapply wp_get_lock; [exact H1|exact Hl|]. rewrite bool_decide_false by done. rewrite wp_bind. eapply wp_curcpu; [exact H1|]. rewrite wp_modify.
  intros s2 H2. eapply wp_curcpu; [exact H2|]. rewrite wp_modify. intros s3 H3. eapply (quiet_ok l x); [exact Hl|exact H3|left; by rewrite Hpc|by right|..].
  - rewrite Hpc. by intros [?|?].
  - by intros [?|?].
  - intros n H0 [Hc Hh Hs Hirq Hpl]. rewrite Hpc in *. cbn in *. unfold IPL_NONE, IPL_HIGH in *. split; cbn; [lia|lia|done| |].
    + destruct (Z.eqb_spec (t_iplhigh_count c) 0), (Z.eqb_spec (t_iplhigh_count c + 1) 0); try done; lia.
    + intros k [= <-]. by eapply lookup_lt_Some.
Qed.
Lemma enter_again l x : locks s !! l = Some x -> splk_holder x = Some i -> acquire_enter i l s = Panic "Deadlock on spinlock".
Proof using.
  intros Hl Hx. unfold acquire_enter, get_lock, curcpu, splraise. kunfold. cbn. destruct (t_iplhigh_count (cpus s i) =? 0); cbn; rewrite Hl; cbn; by rewrite bool_decide_true.
Qed.
Lemma read_spec l x : pc c = Spinning l -> locks s !! l = Some x -> wp (acquire_read i l) (fun _ => ok) s.
Proof using Hok.
  intros Hpc Hl. unfold acquire_read. rewrite wp_bind. eapply wp_get_lock; [apply looks_here|exact Hl|]. destruct (negb _); [by rewrite wp_ret|].
  eapply wp_curcpu; [apply looks_here|]. rewrite wp_modify. intros s1 H1. eapply (quiet_ok l x); [exact Hl|exact H1|right; by rewrite Hpc|by right|..].
  - rewrite Hpc. by intros [?|?].
  - by intros [?|?].
  - intros n H0 [Hc Hh Hs Hirq Hpl]. rewrite Hpc in *. by split.
Qed.
Lemma test_spec l x sc : pc c = Testing l -> locks s !! l = Some x -> wp (acquire_test i sc l) (fun _ => ok) s.
Proof using Hok.
  intros Hpc Hl. unfold acquire_test, spinlock_data_testandset. rewrite !wp_bind. eapply wp_get_lock; [apply looks_here|exact Hl|].
  assert (Hback : forall s1, looks c (locks s) s1 -> wp (curcpu i (modify (set_pc (Spinning l)))) (fun _ => ok) s1).
  { intros s1 H1. eapply wp_curcpu; [exact H1|]. rewrite wp_modify. intros s2 H2.
    eapply (quiet_ok l x); [exact Hl|exact H2|right; by rewrite Hpc|by right|..].
    - rewrite Hpc. by intros [?|?].
    - by intros [?|?].
    - intros n H0 [Hc Hh Hs Hirq Hpl]. rewrite Hpc in *. by split. }
  destruct sc; [|rewrite wp_ret; by apply Hback, looks_here]. rewrite wp_bind. eapply wp_set_lock; [apply looks_here|]. intros s1 H1. rewrite wp_ret.
  destruct (splk_lock x =? 0) eqn:E; cbn [negb].
  - apply Z.eqb_eq in E. eapply wp_curcpu; [exact H1|]. rewrite wp_modify. intros s2 (Hi & Hj & Hls).
    pose proof (ok_locks s Hok l x Hl) as Ho. unfold lock_ok in Ho. assert (Hx : splk_holder x = None /\ forall j, ~ at_lock (pc (cpus s j)) l).
    { destruct (splk_holder x); [lia|]. split; [done|]. destruct Ho as [[_ Ho]|[? _]]; [done|lia]. }
    destruct Hx as [Hx Hno]. eapply (moves_ok i _ l x); [done|split_and!; [exact Hi|exact Hj|exact Hls]|done|right; by rewrite Hpc|by right| | |].
    + unfold lock_ok. cbn. rewrite Hx. right. split; [done|]. exists i. rewrite Hi. split; [by left|]. intros j Hat.
      destruct (decide (j = i)) as [|Hne]; [done|]. rewrite Hj in Hat by done. by destruct (Hno j).
    + done.
    + intros n H0 [Hc Hh Hs Hirq Hpl]. unfold holds. cbn. rewrite Hx, decide_False by done. rewrite Hpc in *. cbn in *. split; cbn; [lia|lia|done|done|done].
  - apply Hback. destruct H1 as (Hi & Hj & Hls). split_and!; [done|done|]. rewrite Hls. apply list_insert_id. rewrite Hl. f_equal.
    pose proof (ok_locks s Hok l x Hl) as Ho. assert (splk_lock x = 1).
    { unfold lock_ok in Ho. apply Z.eqb_neq in E. destruct (splk_holder x); [by destruct Ho|]. destruct Ho as [[? _]|[? _]]; [lia|done]. }
    destruct x as [w h]. cbn in *. by subst.
Qed.
Lemma leave_lock_spec l x : pc c = Taking l -> locks s !! l = Some x -> wp (acquire_leave i l) (fun _ => ok) s.
Proof using Hok.
  intros Hpc Hl. destruct (at_ok l x Hl (or_introl Hpc)) as (Hw & Hx & Hu). unfold acquire_leave. rewrite wp_bind.
  eapply wp_get_lock; [apply looks_here|exact Hl|]. rewrite wp_bind. eapply wp_set_lock; [apply looks_here|]. intros s1 H1.
  eapply wp_curcpu; [exact H1|]. rewrite wp_modify. intros s2 (Hi & Hj & Hls).
  eapply (moves_ok i _ l x); [done|split_and!; [exact Hi|exact Hj|exact Hls]|done|right; by rewrite Hpc|by left| | |].
  - unfold lock_ok. cbn. split; [done|]. intros j Hat. destruct (decide (j = i)) as [->|Hne]; [rewrite Hi in Hat; by destruct Hat|].
    rewrite Hj in Hat by done. by apply Hne, Hu.
  - intros j Hne. cbn. rewrite Hx. naive_solver.
  - intros n H0 [Hc Hh Hs Hirq Hpl]. unfold holds. cbn. rewrite Hx, decide_False, decide_True by done. rewrite Hpc in *. cbn in *.
    split; cbn; [lia|lia|done|done|done].
Qed.
Lemma splk_release_spec l x : pc c = Elsewhere -> locks s !! l = Some x -> splk_holder x = Some i -> wp (release_enter i l) (fun _ => ok) s.
Proof using Hok.
  intros Hpc Hl Hx. destruct (held_ok l x i Hl Hx) as [Hw Hno]. pose proof (nheld_in i _ l x Hl Hx) as Hn. pose proof (ok_cpus s Hok i) as Hci.
  unfold release_enter. rewrite wp_bind. eapply wp_get_lock; [apply looks_here|exact Hl|]. rewrite wp_bind, wp_KASSERT. split; [by apply bool_decide_eq_true|].
  rewrite wp_bind. eapply wp_curcpu; [apply looks_here|]. rewrite wp_get. intros s1 H1. rewrite wp_bind, wp_KASSERT.
  split; [apply Z.ltb_lt; rewrite (ok_count _ _ _ Hci), Hpc; cbn; lia|]. rewrite wp_bind. eapply wp_curcpu; [exact H1|]. rewrite wp_modify. intros s2 H2.
  rewrite wp_bind. eapply wp_set_lock; [exact H2|]. intros s3 H3. eapply wp_curcpu; [exact H3|]. rewrite wp_modify. intros s4 (Hi & Hj & Hls).
  eapply (moves_ok i _ l x); [done|split_and!; [exact Hi|exact Hj|exact Hls]|done|left; by rewrite Hpc|by right| | |].
  - unfold lock_ok. cbn. right. split; [done|]. exists i. rewrite Hi. split; [by right|]. intros j Hat.
    destruct (decide (j = i)) as [|Hne]; [done|]. rewrite Hj in Hat by done. by destruct (Hno j).
  - intros j Hne. cbn. rewrite Hx. naive_solver.
  - intros n H0 [Hc Hh Hs Hirq Hpl]. unfold holds. cbn. rewrite Hx, decide_True, decide_False by done. rewrite Hpc in *. cbn in *.
    split; cbn; [lia|lia|done|done|]. intros k [= <-]. by eapply lookup_lt_Some.
Qed.
Lemma free_spec l x : pc c = Freeing l -> locks s !! l = Some x -> wp (release_leave i l) (fun _ => ok) s.
Proof using Hok.
  intros Hpc Hl. destruct (at_ok l x Hl (or_intror Hpc)) as (Hw & Hx & Hu). unfold release_leave. rewrite wp_bind.
  eapply wp_get_lock; [apply looks_here|exact Hl|]. rewrite wp_bind. eapply wp_set_lock; [apply looks_here|]. intros s1 H1. rewrite wp_bind.
  eapply wp_curcpu; [exact H1|]. apply wp_spllower. intros s2 H2. eapply wp_curcpu; [exact H2|]. rewrite wp_modify. intros s3 (Hi & Hj & Hls).
  eapply (moves_ok i _ l x); [done|split_and!; [exact Hi|exact Hj|exact Hls]|done|right; by rewrite Hpc|by left| |done|].
  - unfold lock_ok. cbn. rewrite Hx. left. split; [done|]. intros j Hat.
    destruct (decide (j = i)) as [->|Hne]; [rewrite Hi in Hat; by destruct Hat|]. rewrite Hj in Hat by done. by apply Hne, Hu.
  - intros n H0 [Hc Hh Hs Hirq Hpl]. replace (n - _ + _) with n by (cbn; unfold holds; cbn; lia). rewrite Hpc in *. cbn in *.
    unfold IPL_NONE, IPL_HIGH in *. split; cbn; [lia|lia|done| |done].
    destruct (Z.eqb_spec (t_iplhigh_count c) 0), (Z.eqb_spec (t_iplhigh_count c - 1) 0); try done; lia.
Qed.
Lemma splx_spec spl : pc c = Elsewhere -> spl = IPL_NONE \/ spl = IPL_HIGH -> wp (_ ← curcpu i (splx spl); mret tt) (fun _ => ok) s.
Proof using Hok.
  intros Hpc Hspl. rewrite wp_bind. eapply wp_curcpu; [apply looks_here|]. pose proof (ok_cpus s Hok i) as [Hc Hh Hs Hirq Hpl].
  pose proof (nheld_pos i (locks s)). rewrite Hpc in *. cbn in *.
  assert (Hdone : forall c' s1, looks c' (locks s) s1 -> pc c' = Elsewhere -> c_spinlocks c' = c_spinlocks c ->
    t_iplhigh_count c' = t_curspl c' + c_spinlocks c' -> t_curspl c' = IPL_NONE \/ t_curspl c' = IPL_HIGH ->
    irq c' = (t_iplhigh_count c' =? 0) -> ok s1).
  { intros c' s1 (Hi & Hj & Hls) Hp Hn Hh' Hs' Hirq'. split.
    - intros k y Hk. rewrite Hls in Hk. eapply lock_ok_same; [by apply (ok_locks s Hok)|]. intros j. destruct (decide (j = i)) as [->|Hne]; [by rewrite Hi, Hp, Hpc|by rewrite Hj].
    - intros j. rewrite Hls. destruct (decide (j = i)) as [->|Hne]; [|rewrite Hj by done; apply (ok_cpus s Hok)]. rewrite Hi.
      split; rewrite ?Hp; cbn; [lia|lia|done|done|done]. }
  unfold splx. wp_simpl. unfold IPL_NONE, IPL_HIGH in *. destruct (Z.ltb_spec (t_curspl c) spl).
  - assert (t_curspl c = 0) as E by lia. assert (spl = 1) as -> by lia. rewrite E. rewrite wp_bind. apply wp_splraise. wp_simpl. intros s1 H1.
    eapply Hdone; [exact H1|done|done|cbn; lia|by right|]. cbn.
    destruct (Z.eqb_spec (t_iplhigh_count c) 0), (Z.eqb_spec (t_iplhigh_count c + 1) 0); try done; lia.
  - destruct (Z.ltb_spec spl (t_curspl c)); [|wp_simpl; intros s1 Hs1; eapply Hdone; [exact Hs1|done|done|lia|done|done]].
    assert (t_curspl c = 1) as E by lia. assert (spl = 0) as -> by lia. wp_simpl. rewrite E. apply wp_spllower. wp_simpl. intros s1 Hs1.
    eapply Hdone; [exact Hs1|done|done|cbn; lia|by left|]. cbn.
    destruct (Z.eqb_spec (t_iplhigh_count c) 0), (Z.eqb_spec (t_iplhigh_count c - 1) 0); try done; lia.
Qed.
End steps.

(** ** All interleavings *)

Lemma act_ok s i a : ok s -> proper i a s -> wp (act i a) (fun _ => ok) s.
Proof.
  intros Hok Hp. unfold act. rewrite wp_bind. eapply wp_curcpu; [apply looks_here|]. rewrite wp_get. intros s1 H1.
  assert (Hok1 : ok s1).
  { destruct H1 as (Hi & Hj & Hls). destruct Hok as [Hlocks Hcpus]. assert (Hall : forall j, cpus s1 j = cpus s j).
    { intros j. destruct (decide (j = i)) as [->|Hne]; [done|by apply Hj]. }
    split; [|intros j; rewrite Hls, Hall; apply Hcpus]. intros l x Hl. rewrite Hls in Hl. eapply lock_ok_same; [by apply Hlocks|]. intros j. by rewrite Hall. }
  destruct H1 as (Hi & _ & Hls). assert (Hp1 : proper i a s1) by (destruct a; cbn in *; unfold spinlock_do_i_hold in *; by rewrite ?Hls).
  rewrite <-Hi. assert (Hlook : forall l, place_lock (pc (cpus s1 i)) = Some l -> exists x, locks s1 !! l = Some x).
  { intros l Hl. apply lookup_lt_is_Some. by eapply (ok_place _ _ _ (ok_cpus s1 Hok1 i)). }
  destruct (pc (cpus s1 i)) as [|l|l|l|l] eqn:Hpc; destruct a as [k|k|spl|sc]; try (by rewrite wp_ret); cbn in Hp1.
  - destruct Hp1 as [Hk Hf]. apply lookup_lt_is_Some in Hk as [x Hx]. eapply enter_spec; [done|done|exact Hx|].
    unfold spinlock_do_i_hold in Hf. rewrite Hx in Hf. by apply bool_decide_eq_false in Hf.
  - unfold spinlock_do_i_hold in Hp1. destruct (locks s1 !! k) as [x|] eqn:Hx; [|done]. apply bool_decide_eq_true in Hp1. by eapply splk_release_spec.
  - by apply splx_spec.
  - destruct (Hlook l eq_refl) as [x Hx]. by eapply read_spec.
  - destruct (Hlook l eq_refl) as [x Hx]. by eapply test_spec.
  - destruct (Hlook l eq_refl) as [x Hx]. by eapply leave_lock_spec.
  - destruct (Hlook l eq_refl) as [x Hx]. by eapply free_spec.
Qed.

Definition machine_step (s s' : machine) : Prop := exists i a, proper i a s /\ act i a s = Ret tt s'.
(** At boot: interrupts off on every CPU, all locks free. *)
Definition boot (n : nat) : machine := Machine (fun _ => Cpu 0 1 IPL_HIGH false Elsewhere) (replicate n spinlock_init).
Lemma machine_boot_ok n : ok (boot n).
Proof.
  split.
  - intros l x [-> _]%lookup_replicate. left. split; [done|]. intros j [?|?]; done.
  - intros i. assert (nheld i (replicate n spinlock_init) = 0) as E by (induction n as [|n IH]; [done|]; rewrite replicate_S, nheld_cons, IH; done).
    change (locks (boot n)) with (replicate n spinlock_init). rewrite E. split; cbn; [done|done|by right|done|done].
Qed.
(** A CPU owns a lock from the moment it has set the word until it clears it. *)
Definition owns (s : machine) (i l : nat) : Prop :=
  at_lock (pc (cpus s i)) l \/ exists x, locks s !! l = Some x /\ splk_holder x = Some i.
Lemma owns_unique s l i j : ok s -> (l < length (locks s))%nat -> owns s i l -> owns s j l -> i = j.
Proof.
  intros Hok Hlt. apply lookup_lt_is_Some in Hlt as [x Hx]. pose proof (ok_locks s Hok l x Hx) as Ho. unfold lock_ok in Ho.
  intros [Hi|(x1 & Hx1 & Hi)] [Hj|(x2 & Hx2 & Hj)].
  - destruct (splk_holder x); [by destruct (proj2 Ho i)|]. destruct Ho as [[_ Hno]|(_ & k & _ & Hu)]; [by destruct (Hno i)|].
    by rewrite (Hu i Hi), (Hu j Hj).
  - assert (x2 = x) as -> by congruence. rewrite Hj in Ho. by destruct (proj2 Ho i).
  - assert (x1 = x) as -> by congruence. rewrite Hi in Ho. by destruct (proj2 Ho j).
  - congruence.
Qed.

(** C27. Under every interleaving of the CPUs' memory accesses: a spinlock has at most one owner, and
    its word is set exactly while it has one; a CPU that owns a lock or spins for one has its
    interrupts off, and they are on again when it has none and did not ask for [splhigh];
    [spinlock_do_i_hold] is true between the calls exactly for the locks the CPU owns; no assertion of
    [spinlock.c] and [spl.c] fails, and taking a lock twice is a panic instead of an endless loop. *)
Theorem spinlock_safe n s : rtc machine_step (boot n) s ->
  (forall l i j, (l < length (locks s))%nat -> owns s i l -> owns s j l -> i = j) /\
  (forall l x, locks s !! l = Some x -> splk_lock x = 1 <-> exists i, owns s i l) /\
  (forall i l, owns s i l \/ place_lock (pc (cpus s i)) = Some l -> irq (cpus s i) = false) /\
  (forall i, pc (cpus s i) = Elsewhere -> t_curspl (cpus s i) = IPL_NONE -> (forall l, ~ owns s i l) -> irq (cpus s i) = true) /\
  (forall i l, pc (cpus s i) = Elsewhere -> spinlock_do_i_hold i l s = true <-> owns s i l) /\
  (forall i a, proper i a s -> exists s', act i a s = Ret tt s') /\
  (forall i l, pc (cpus s i) = Elsewhere -> owns s i l -> act i (Acquire l) s = Panic "Deadlock on spinlock").
Proof.
  intros Hr. assert (Hok : ok s).
  { eapply rtc_invariant; [|exact Hr|apply machine_boot_ok]. intros s1 s2 H1 (i & a & Hp & Ha). pose proof (act_ok s1 i a H1 Hp) as Hw.
    unfold wp in Hw. by rewrite Ha in Hw. }
  assert (Helse : forall i l, pc (cpus s i) = Elsewhere -> owns s i l -> exists x, locks s !! l = Some x /\ splk_holder x = Some i).
  { intros i l Hp [[?|?]|Hx]; [congruence|congruence|done]. }
  assert (Hhold : forall i l x, locks s !! l = Some x -> splk_holder x = Some i -> 1 <= nheld i (locks s)) by (intros; by eapply nheld_in).
  split_and!.
  - intros l i j Hl. by apply owns_unique.
  - intros l x Hx. pose proof (ok_locks s Hok l x Hx) as Ho. unfold lock_ok in Ho. split.
    + intros Hw. destruct (splk_holder x) as [h|] eqn:E; [exists h; right; by exists x|]. destruct Ho as [[? _]|(_ & i & Hi & _)]; [lia|]. exists i. by left.
    + intros (i & [Hat|(x' & Hx' & Hh)]).
      * destruct (splk_holder x); [by destruct Ho|]. destruct Ho as [[_ Hno]|[? _]]; [by destruct (Hno i)|done].
      * assert (x' = x) as -> by congruence. rewrite Hh in Ho. by destruct Ho.
  - intros i l Hl. destruct (ok_cpus s Hok i) as [Hc Hh Hs Hirq _]. pose proof (nheld_pos i (locks s)). rewrite Hirq. apply Z.eqb_neq.
    assert (1 <= nheld i (locks s) \/ pc (cpus s i) <> Elsewhere) as [?|Hp].
    { destruct Hl as [[[E|E]|(x & Hx & Hi)]|Hl]; [right; by rewrite E|right; by rewrite E|left; by eapply Hhold|right]. by destruct (pc (cpus s i)). }
    + unfold IPL_NONE, IPL_HIGH in *. destruct (pc (cpus s i)); cbn in *; lia.
    + unfold IPL_NONE, IPL_HIGH in *. destruct (pc (cpus s i)); [done|cbn in *; lia..].
  - intros i Hp Hs Hno. destruct (ok_cpus s Hok i) as [Hc Hh _ Hirq _]. rewrite Hirq, Hh, Hs, Hc, Hp.
    assert (nheld i (locks s) = 0) as ->; [|done].
    assert (Hall : forall x, x ∈ locks s -> splk_holder x <> Some i).
    { intros x [l Hl]%list_elem_of_lookup Hx. apply (Hno l). right. by exists x. }
    clear -Hall. induction (locks s) as [|x ls IH]; [done|]. rewrite nheld_cons, IH by (intros y Hy; apply Hall; by right).
    unfold holds. rewrite decide_False; [done|]. apply Hall. left.
  - intros i l Hp. unfold spinlock_do_i_hold. split.
    + destruct (locks s !! l) as [x|] eqn:Hx; [|done]. intros Hb%bool_decide_eq_true. right. by exists x.
    + intros Ho. destruct (Helse i l Hp Ho) as (x & -> & Hx). by apply bool_decide_eq_true.
  - intros i a Hp. pose proof (act_ok s i a Hok Hp) as Hw. apply wp_returns in Hw as ([] & s' & Hw & _). by exists s'.
  - intros i l Hp Ho. destruct (Helse i l Hp Ho) as (x & Hx & Hh). unfold act. unfold curcpu. unfold mbind at 1, K_bind at 1.
    unfold zoom at 1, get at 1. cbn [lget lset cpu_lens]. rewrite Hp. apply (enter_again _ i l x); [done|done].
Qed.

(** Two CPUs want the same lock: the second sees the word set and spins. *)
Definition race : list (nat * action) :=
  [(0%nat, Splx IPL_NONE); (0%nat, Acquire 0); (1%nat, Acquire 0); (0%nat, Go_on true); (1%nat, Go_on true);
   (0%nat, Go_on true); (1%nat, Go_on true); (0%nat, Go_on true); (1%nat, Go_on true)].
Fixpoint run_actions (l : list (nat * action)) : K machine () :=
  match l with [] => mret tt | (i, a) :: l => act i a;; run_actions l end.
Fixpoint all_proper (l : list (nat * action)) (s : machine) : Prop :=
  match l with
  | [] => True
  | (i, a) :: l => proper i a s /\ match act i a s with Ret _ s' => all_proper l s' | _ => False end
  end.
Lemma race_reach l s : all_proper l s -> match run_actions l s with Ret _ s' => rtc machine_step s s' | _ => False end.
Proof.
  revert s. induction l as [|[i a] l IH]; intros s; cbn [all_proper run_actions]; [intros _; apply rtc_refl|]. intros [Hp Hl]. unfold mbind, K_bind.
  destruct (act i a s) as [[] s1| | |] eqn:Ea; [|done..]. specialize (IH s1 Hl). destruct (run_actions l s1) as [u s2| | |]; [|done..].
  eapply rtc_l; [|exact IH]. by exists i, a.
Qed.
Lemma spinlock_safe_witness : exists s, rtc machine_step (boot 1) s /\ owns s 0 0 /\ pc (cpus s 1%nat) = Spinning 0 /\ irq (cpus s 1%nat) = false /\ irq (cpus s 0%nat) = false.
Proof.
  assert (Hp : all_proper race (boot 1)) by (vm_compute; repeat split; auto; lia). pose proof (race_reach race (boot 1) Hp) as Hr.
  destruct (run_actions race (boot 1)) as [u s| | |] eqn:Er; [|done..].
  assert (Hs : locks s = [Splk 1 (Some 0%nat)] /\ pc (cpus s 1%nat) = Spinning 0) by (vm_compute in Er; injection Er as _ <-; by vm_compute).
  destruct Hs as [Hl Hpc]. assert (Ho : owns s 0 0) by (right; rewrite Hl; by eexists).
  destruct (spinlock_safe 1 s Hr) as (_ & _ & Hirq & _). exists s. split_and!; [done|done|done| |].
  - apply (Hirq 1%nat 0%nat). right. by rewrite Hpc.
  - apply (Hirq 0%nat 0%nat). by left.
Defined.
