(* ===== verification/Thread.v ===== *)
(** * Threads: creation, switching, waking, migration ([kern/thread/thread.c], [clock.c])

    Any number of CPUs run this code at once.  What a CPU does while it holds a run queue's lock
    (or another spinlock) is one step; [pc] says where a CPU is between two of them: inside
    [cpu_idle], in the middle of [wchan_wakeall], or in one of the stages of
    [thread_consider_migration].  The lists of threads are the sequences that [Threadlist]
    implements; spinlocks and interrupt levels are in [Spinlock].

    The theorems are about all interleavings: no thread is lost or runs twice, no two CPUs use
    the same kernel stack, the dead are destroyed once and by their own CPU, an idle CPU is
    not left asleep with work in its queue, and waiting in a queue ends. *)
From S2P Require Import Prelude.

(** What threads need of the rest: memory, processes, the MMU, the bus. *)
Class ThreadEnv (W : Type) := {
  w_kmalloc : K W bool;
  w_proc_addthread : Z -> Z -> K W Z;
  w_proc_remthread : Z -> K W ();
  w_proc_file_table_copy : Z -> Z -> K W ();
  w_as_activate : K W ();
  w_send_ipi : nat -> K W ();
  w_tlbshootdown : Z -> K W () }.

Module Thread.
Definition THREAD_STACK_MAGIC : Z := 0xbaadf00d.
Definition IPI_PANIC : Z := 0.
Definition IPI_OFFLINE : Z := 1.
Definition IPI_UNIDLE : Z := 2.
Definition IPI_TLBSHOOTDOWN : Z := 3.
Definition TLBSHOOTDOWN_MAX : Z := 16.
Definition SCHEDULE_HARDCLOCKS : Z := 4.
Definition MIGRATE_HARDCLOCKS : Z := 16.

Inductive threadstate_t := S_RUN | S_READY | S_SLEEP | S_ZOMBIE.
#[global] Instance state_eq_dec : EqDecision threadstate_t.
Proof. solve_decision. Defined.
(** [t_stack]: the guard words at the end of the stack, if there is one. *)
Record thread := TheThread {
  t_wchan_name : option string; t_state : threadstate_t; t_stack : option (list Z);
  t_cpu : option nat; t_proc : option Z; t_in_interrupt : bool }.
Record wchan := Wchan { wc_name : string; wc_threads : list Z }.

(** Where a CPU is between two steps, with its local variables and lists. *)
Inductive place :=
  | Running
  | Halted (** in [cpu_idle] *)
  | Waking (l : list Z)
  | Counting (i : nat) (my_count total_count : Z)
  | Choosing (to_send : nat) (one_share : Z)
  | Sending (i to_send : nat) (one_share : Z) (victims : list Z)
  | Restoring (victims : list Z)
  | Ticking (** back in [hardclock] *)
  | Off. (** in [cpu_halt] *)
Record cpu := Cpu {
  c_curthread : Z; c_zombies : list Z; c_hardclocks : Z; c_isidle : bool; c_runqueue : list Z;
  c_ipi_pending : Z; c_shootdown : list Z; pc : place }.
Record system (W : Type) := System { allcpus : list cpu; threads : gmap Z thread; wchans : list wchan; world : W }.
Arguments System {W} _ _ _ _.
Arguments allcpus {W} _.
Arguments threads {W} _.
Arguments wchans {W} _.
Arguments world {W} _.

Definition set_state (st : threadstate_t) (th : thread) : thread :=
  TheThread (t_wchan_name th) st (t_stack th) (t_cpu th) (t_proc th) (t_in_interrupt th).
Definition set_wchan_name (n : option string) (th : thread) : thread :=
  TheThread n (t_state th) (t_stack th) (t_cpu th) (t_proc th) (t_in_interrupt th).
Definition set_stack (st : option (list Z)) (th : thread) : thread :=
  TheThread (t_wchan_name th) (t_state th) st (t_cpu th) (t_proc th) (t_in_interrupt th).
Definition set_t_cpu (i : option nat) (th : thread) : thread :=
  TheThread (t_wchan_name th) (t_state th) (t_stack th) i (t_proc th) (t_in_interrupt th).
Definition set_proc (p : option Z) (th : thread) : thread :=
  TheThread (t_wchan_name th) (t_state th) (t_stack th) (t_cpu th) p (t_in_interrupt th).
Definition set_curthread (t : Z) (c : cpu) : cpu :=
  Cpu t (c_zombies c) (c_hardclocks c) (c_isidle c) (c_runqueue c) (c_ipi_pending c) (c_shootdown c) (pc c).
Definition set_zombies (l : list Z) (c : cpu) : cpu :=
  Cpu (c_curthread c) l (c_hardclocks c) (c_isidle c) (c_runqueue c) (c_ipi_pending c) (c_shootdown c) (pc c).
Definition set_hardclocks (n : Z) (c : cpu) : cpu :=
  Cpu (c_curthread c) (c_zombies c) n (c_isidle c) (c_runqueue c) (c_ipi_pending c) (c_shootdown c) (pc c).
Definition set_isidle (b : bool) (c : cpu) : cpu :=
  Cpu (c_curthread c) (c_zombies c) (c_hardclocks c) b (c_runqueue c) (c_ipi_pending c) (c_shootdown c) (pc c).
Definition set_runqueue (l : list Z) (c : cpu) : cpu :=
  Cpu (c_curthread c) (c_zombies c) (c_hardclocks c) (c_isidle c) l (c_ipi_pending c) (c_shootdown c) (pc c).
Definition set_ipi_pending (n : Z) (c : cpu) : cpu :=
  Cpu (c_curthread c) (c_zombies c) (c_hardclocks c) (c_isidle c) (c_runqueue c) n (c_shootdown c) (pc c).
Definition set_shootdown (l : list Z) (c : cpu) : cpu :=
  Cpu (c_curthread c) (c_zombies c) (c_hardclocks c) (c_isidle c) (c_runqueue c) (c_ipi_pending c) l (pc c).
Definition set_pc (p : place) (c : cpu) : cpu :=
  Cpu (c_curthread c) (c_zombies c) (c_hardclocks c) (c_isidle c) (c_runqueue c) (c_ipi_pending c) (c_shootdown c) p.

Section ops.
Context {W : Type} `{ThreadEnv W} (me : nat).
Implicit Types s : system W.

Definition set_cpus (l : list cpu) s : system W := System l (threads s) (wchans s) (world s).
Definition set_threads (m : gmap Z thread) s : system W := System (allcpus s) m (wchans s) (world s).
Definition set_wchans (l : list wchan) s : system W := System (allcpus s) (threads s) l (world s).
Definition world_lens : lens (system W) W := Lens world (fun w s => System (allcpus s) (threads s) (wchans s) w).
Definition env {A} (m : K W A) : K (system W) A := zoom world_lens m.

Definition get_cpu (i : nat) : K (system W) cpu := s ← get; deref (allcpus s !! i) "cpuarray_get".
Definition put_cpu (i : nat) (c : cpu) : K (system W) () := modify (fun s => set_cpus (<[i := c]> (allcpus s)) s).
Definition on_cpu (i : nat) (f : cpu -> cpu) : K (system W) () := c ← get_cpu i; put_cpu i (f c).
Definition get_thread (t : Z) : K (system W) thread := s ← get; deref (threads s !! t) "thread".
Definition on_thread (t : Z) (f : thread -> thread) : K (system W) () :=
  th ← get_thread t; modify (fun s => set_threads (<[t := f th]> (threads s)) s).
Definition get_wchan (w : nat) : K (system W) wchan := s ← get; deref (wchans s !! w) "wc".
Definition put_wchan (w : nat) (wc : wchan) : K (system W) () := modify (fun s => set_wchans (<[w := wc]> (wchans s)) s).
Definition curthread : K (system W) Z := c ← get_cpu me; mret (c_curthread c).

(** ** Creating and destroying threads *)

Definition thread_checkstack (t : Z) : K (system W) () :=
  th ← get_thread t;
  match t_stack th with
  | None => mret tt
  | Some g => KASSERT (bool_decide (g = replicate 4 THREAD_STACK_MAGIC)) "t_stack[i] == THREAD_STACK_MAGIC"
  end.
(** [kmalloc] and [kstrdup]; the address is one that no thread has. *)
Definition thread_create : K (system W) (option Z) :=
  room ← env w_kmalloc;
  if negb room then mret None else
  room ← env w_kmalloc;
  if negb room then mret None else
  s ← get;
  let t := fresh (dom (threads s)) in
  modify (fun s => set_threads (<[t := TheThread (Some "NEW") S_READY None None None false]> (threads s)) s);;
  mret (Some t).

(** The threads on the private list of a CPU. *)
Definition private (p : place) : list Z :=
  match p with Waking l | Sending _ _ _ l | Restoring l => l | _ => [] end.
Definition on_list (t : Z) s : bool :=
  existsb (fun c => bool_decide (t ∈ c_runqueue c ++ c_zombies c ++ private (pc c))) (allcpus s) ||
  existsb (fun wc => bool_decide (t ∈ wc_threads wc)) (wchans s).
Definition threadlistnode_cleanup (t : Z) : K (system W) () :=
  s ← get; KASSERT (negb (on_list t s)) "tln->tln_next == NULL && tln->tln_prev == NULL".
Definition thread_destroy (t : Z) : K (system W) () :=
  cur ← curthread;
  KASSERT (negb (t =? cur)) "thread != curthread";;
  th ← get_thread t;
  KASSERT (bool_decide (t_state th <> S_RUN)) "thread->t_state != S_RUN";;
  KASSERT (bool_decide (t_proc th = None)) "thread->t_proc == NULL";;
  threadlistnode_cleanup t;;
  modify (fun s => set_threads (delete t (threads s)) s).
(** The loop of [exorcise]; [l] is what is on the list. *)
Fixpoint exorcise_loop (l : list Z) : K (system W) () :=
  match l with
  | [] => mret tt
  | z :: l =>
      on_cpu me (set_zombies l);;
      cur ← curthread;
      KASSERT (negb (z =? cur)) "z != curthread";;
      th ← get_thread z;
      KASSERT (bool_decide (t_state th = S_ZOMBIE)) "z->t_state == S_ZOMBIE";;
      thread_destroy z;;
      exorcise_loop l
  end.
Definition exorcise : K (system W) () := c ← get_cpu me; exorcise_loop (c_zombies c).

(** ** Interprocessor interrupts *)

Definition ipi_send (target : nat) (code : Z) : K (system W) () :=
  KASSERT ((0 <=? code) && (code <? 32)) "code >= 0 && code < 32";;
  on_cpu target (fun c => set_ipi_pending (Z.lor (c_ipi_pending c) (Z.shiftl 1 code)) c);;
  env (w_send_ipi target).
(** The loop of [ipi_broadcast] over the CPUs from [i]. *)
Fixpoint broadcast_loop (n i : nat) (code : Z) : K (system W) () :=
  match n with
  | O => mret tt
  | S n => (if decide (i = me) then mret tt else ipi_send i code);; broadcast_loop n (S i) code
  end.
Definition ipi_broadcast (code : Z) : K (system W) () := s ← get; broadcast_loop (length (allcpus s)) 0 code.
Definition ipi_tlbshootdown (target : nat) (mapping : Z) : K (system W) () :=
  c ← get_cpu target;
  if Z.of_nat (length (c_shootdown c)) =? TLBSHOOTDOWN_MAX then panic "ipi_tlbshootdown: Too many shootdowns queued" else
  on_cpu target (set_shootdown (c_shootdown c ++ [mapping]));;
  on_cpu target (fun c => set_ipi_pending (Z.lor (c_ipi_pending c) (Z.shiftl 1 IPI_TLBSHOOTDOWN)) c);;
  env (w_send_ipi target).
Fixpoint shootdown_loop (l : list Z) : K (system W) () :=
  match l with [] => mret tt | m :: l => env (w_tlbshootdown m);; shootdown_loop l end.
Definition interprocessor_interrupt : K (system W) () :=
  c ← get_cpu me;
  let bits := c_ipi_pending c in
  if Z.testbit bits IPI_PANIC then on_cpu me (set_pc Off) else
  if Z.testbit bits IPI_OFFLINE then on_cpu me (set_pc Off) else
  (if Z.testbit bits IPI_TLBSHOOTDOWN then
     shootdown_loop (c_shootdown c);;
     on_cpu me (set_shootdown [])
   else mret tt);;
  on_cpu me (set_ipi_pending 0).
(** The run queue of a panicking CPU is dropped. *)
Definition thread_panic : K (system W) () := ipi_broadcast IPI_PANIC;; on_cpu me (set_runqueue []).
Definition thread_shutdown : K (system W) () := ipi_broadcast IPI_OFFLINE.

(** ** Switching *)

Definition thread_make_runnable (target : Z) : K (system W) () :=
  th ← get_thread target;
  targetcpu ← deref (t_cpu th) "target->t_cpu";
  on_thread target (set_state S_READY);;
  on_cpu targetcpu (fun c => set_runqueue (c_runqueue c ++ [target]) c);;
  c ← get_cpu targetcpu;
  if c_isidle c && negb (bool_decide (targetcpu = me)) then ipi_send targetcpu IPI_UNIDLE else mret tt.

(** Once the next thread runs: the end of [thread_switch], and the beginning of [thread_startup]. *)
Definition switch_tail : K (system W) () :=
  cur ← curthread;
  on_thread cur (fun th => set_state S_RUN (set_wchan_name None th));;
  env w_as_activate;;
  exorcise.
(** The loop for the next thread, up to the first that there is, or into [cpu_idle]. *)
Definition next_thread : K (system W) () :=
  c ← get_cpu me;
  match c_runqueue c with
  | [] => on_cpu me (set_pc Halted)
  | next :: q =>
      put_cpu me (set_curthread next (set_isidle false (set_runqueue q c)));;
      switch_tail
  end.
(** [true]: back at once, without a switch. *)
Definition thread_switch (newstate : threadstate_t) (wc : option nat) : K (system W) bool :=
  c ← get_cpu me;
  let cur := c_curthread c in
  if c_isidle c then mret true else
  thread_checkstack cur;;
  if bool_decide (newstate = S_READY) && bool_decide (c_runqueue c = []) then mret true else
  (match newstate with
   | S_RUN => panic "Illegal S_RUN in thread_switch"
   | S_READY => thread_make_runnable cur
   | S_SLEEP =>
       w ← deref wc "wc";
       ch ← get_wchan w;
       on_thread cur (set_wchan_name (Some (wc_name ch)));;
       put_wchan w (Wchan (wc_name ch) (wc_threads ch ++ [cur]))
   | S_ZOMBIE =>
       on_thread cur (set_wchan_name (Some "ZOMBIE"));;
       on_cpu me (fun c => set_zombies (c_zombies c ++ [cur]) c)
   end);;
  on_thread cur (set_state newstate);;
  on_cpu me (set_isidle true);;
  next_thread;;
  mret false.

Definition thread_fork (proc : option Z) : K (system W) Z :=
  newthread ← thread_create;
  match newthread with None => mret ENOMEM | Some newthread =>
  room ← env w_kmalloc;
  if negb room then thread_destroy newthread;; mret ENOMEM else
  on_thread newthread (set_stack (Some (replicate 4 THREAD_STACK_MAGIC)));;
  cur ← curthread;
  c ← get_thread cur;
  on_thread newthread (set_t_cpu (t_cpu c));;
  let proc := match proc with None => t_proc c | Some p => Some p end in
  p ← deref proc "proc";
  result ← env (w_proc_addthread p newthread);
  if negb (result =? 0) then thread_destroy newthread;; mret result else
  on_thread newthread (set_proc (Some p));;
  from ← deref (t_proc c) "curproc";
  env (w_proc_file_table_copy from p);;
  thread_make_runnable newthread;;
  mret 0
  end.

Definition thread_exit : K (system W) () :=
  cur ← curthread;
  th ← get_thread cur;
  (match t_proc th with
   | Some _ => env (w_proc_remthread cur);; on_thread cur (set_proc None)
   | None => mret tt
   end);;
  th ← get_thread cur;
  KASSERT (bool_decide (t_proc th = None)) "cur->t_proc == NULL";;
  thread_checkstack cur;;
  back ← thread_switch S_ZOMBIE None;
  if back : bool then panic "braaaaaaaiiiiiiiiiiinssssssss" else mret tt.
Definition thread_yield : K (system W) () := _ ← thread_switch S_READY None; mret tt.

(** ** Wait channels *)

Definition wchan_create (name : string) : K (system W) (option nat) :=
  room ← env w_kmalloc;
  if negb room then mret None else
  s ← get;
  modify (fun s => set_wchans (wchans s ++ [Wchan name []]) s);;
  mret (Some (length (wchans s))).
Definition wchan_destroy (w : nat) : K (system W) () :=
  wc ← get_wchan w; KASSERT (bool_decide (wc_threads wc = [])) "threadlist_isempty(tl)".
Definition wchan_sleep (w : nat) : K (system W) () :=
  cur ← curthread;
  th ← get_thread cur;
  KASSERT (negb (t_in_interrupt th)) "!curthread->t_in_interrupt";;
  _ ← thread_switch S_SLEEP (Some w); mret tt.
Definition wchan_wakeone (w : nat) : K (system W) () :=
  wc ← get_wchan w;
  match wc_threads wc with
  | [] => mret tt
  | target :: l => put_wchan w (Wchan (wc_name wc) l);; thread_make_runnable target
  end.
(** [wchan_wakeall]: the channel's threads go to a private list; the rest is [go_on]. *)
Definition wchan_wakeall (w : nat) : K (system W) () :=
  wc ← get_wchan w;
  put_wchan w (Wchan (wc_name wc) []);;
  on_cpu me (set_pc (Waking (wc_threads wc))).
Definition wchan_isempty (w : nat) s : bool := match wchans s !! w with Some wc => bool_decide (wc_threads wc = []) | None => false end.

(** ** Migration and the clock *)

Definition schedule : K (system W) () := mret tt.
(** [hardclock] after the migration. *)
Definition hardclock_rest : K (system W) () :=
  c ← get_cpu me;
  on_cpu me (set_pc Running);;
  (if c_hardclocks c mod SCHEDULE_HARDCLOCKS =? 0 then schedule else mret tt);;
  thread_yield.
Definition hardclock : K (system W) () :=
  on_cpu me (fun c => set_hardclocks (u32 (c_hardclocks c + 1)) c);;
  c ← get_cpu me;
  if c_hardclocks c mod MIGRATE_HARDCLOCKS =? 0 then on_cpu me (set_pc (Counting 0 0 0)) else hardclock_rest.

(** [thread_consider_migration]: counting one CPU, and the decision after the last. *)
Definition count_one (i : nat) (my total : Z) : K (system W) () :=
  s ← get;
  let numcpus := Z.of_nat (length (allcpus s)) in
  match allcpus s !! i with
  | Some c =>
      let n := Z.of_nat (length (c_runqueue c)) in
      on_cpu me (set_pc (Counting (S i) (if decide (i = me) then n else my) (u32 (total + n))))
  | None =>
      let one_share := DIVROUNDUP total numcpus in
      on_cpu me (set_pc (if my <? one_share then Ticking else Choosing (Z.to_nat (my - one_share)) one_share))
  end.
(** [n] times [threadlist_remtail], [threadlist_addhead]. *)
Fixpoint choose_loop (n : nat) (queue victims : list Z) : option (list Z * list Z) :=
  match n with
  | O => Some (queue, victims)
  | S n => match last queue with Some t => choose_loop n (removelast queue) (t :: victims) | None => None end
  end.
Definition choose (to_send : nat) (one_share : Z) : K (system W) () :=
  c ← get_cpu me;
  r ← deref (choose_loop to_send (c_runqueue c) []) "threadlist_addhead(NULL)";
  put_cpu me (set_pc (Sending 0 to_send one_share r.2) (set_runqueue r.1 c)).
(** The inner loop at the CPU [i], with [to_send] threads to go; what is left to send. *)
Fixpoint send_loop (to_send : nat) (i : nat) (one_share : Z) : K (system W) nat :=
  match to_send with
  | O => mret O
  | S n =>
      c ← get_cpu i;
      if negb (Z.of_nat (length (c_runqueue c)) <? one_share) then mret (S n) else
      m ← get_cpu me;
      match private (pc m) with
      | [] => fault "threadlist_remhead(&victims)"
      | t :: victims =>
          if t =? c_curthread m then
            on_cpu me (set_pc (Sending i n one_share (victims ++ [t])));;
            send_loop n i one_share
          else
            on_cpu me (set_pc (Sending i n one_share victims));;
            on_thread t (set_t_cpu (Some i));;
            on_cpu i (fun c => set_runqueue (c_runqueue c ++ [t]) c);;
            (if c_isidle c then ipi_send i IPI_UNIDLE else mret tt);;
            send_loop n i one_share
      end
  end.
Definition send_to (i to_send : nat) (one_share : Z) (victims : list Z) : K (system W) () :=
  s ← get;
  if bool_decide (i < length (allcpus s))%nat && negb (bool_decide (to_send = O)) then
    if decide (i = me) then on_cpu me (set_pc (Sending (S i) to_send one_share victims)) else
    left ← send_loop to_send i one_share;
    on_cpu me (fun c => set_pc (Sending (S i) left one_share (private (pc c))) c)
  else on_cpu me (set_pc (Restoring victims)).
Definition restore (victims : list Z) : K (system W) () :=
  on_cpu me (fun c => set_pc Ticking (set_runqueue (c_runqueue c ++ victims) c)).

(** The next step of what the CPU is doing; an idle one looks for a thread again. *)
Definition go_on : K (system W) () :=
  c ← get_cpu me;
  match pc c with
  | Running => if c_isidle c then next_thread else mret tt
  | Waking [] => on_cpu me (set_pc Running)
  | Waking (t :: l) => on_cpu me (set_pc (Waking l));; thread_make_runnable t
  | Counting i my total => count_one i my total
  | Choosing n share => choose n share
  | Sending i n share victims => send_to i n share victims
  | Restoring victims => restore victims
  | Ticking => hardclock_rest
  | Halted | Off => mret tt
  end.

(** ** Booting *)

(** Another CPU, with its first thread; [cpuarray_add] may need memory too. *)
Definition cpu_create (kproc : Z) : K (system W) nat :=
  room ← env w_kmalloc;
  if negb room then panic "cpu_create: Out of memory" else
  room ← env w_kmalloc;
  if negb room then panic "cpu_create: array_add" else
  s ← get;
  let c := length (allcpus s) in
  modify (fun s => set_cpus (allcpus s ++ [Cpu 0 [] 0 false [] 0 [] Running]) s);;
  t ← thread_create;
  match t with None => panic "cpu_create: thread_create failed" | Some t =>
  on_cpu c (set_curthread t);;
  on_thread t (set_t_cpu (Some c));;
  room ← (if decide (c = O) then mret true else env w_kmalloc);
  if negb room then panic "cpu_create: couldn't allocate stack" else
  (if decide (c = O) then mret tt else on_thread t (set_stack (Some (replicate 4 THREAD_STACK_MAGIC))));;
  result ← env (w_proc_addthread kproc t);
  if negb (result =? 0) then panic "cpu_create: proc_addthread" else
  on_thread t (set_proc (Some kproc));;
  mret c
  end.
Fixpoint boot (kproc : Z) (n : nat) : K (system W) () :=
  match n with O => mret tt | S n => boot kproc n;; _ ← cpu_create kproc; mret tt end.
Definition start (w : W) : system W := System [] ∅ [] w.

(** ** What a CPU can do next *)

Inductive action :=
  | Fork (proc : option Z) | Yield | Exit | Sleep (w : nat) | Wake_one (w : nat) | Wake_all (w : nat) | Create_channel (name : string)
  | Shoot_down (i : nat) (mapping : Z) | Shut_down
  | Hardclock | Ipi
  | Interrupt (** [cpu_idle] returns *)
  | Go_on.
Definition perform (a : action) : K (system W) () :=
  match a with
  | Fork proc => _ ← thread_fork proc; mret tt
  | Yield => thread_yield
  | Exit => thread_exit
  | Sleep w => wchan_sleep w
  | Wake_one w => wchan_wakeone w
  | Wake_all w => wchan_wakeall w
  | Create_channel name => _ ← wchan_create name; mret tt
  | Shoot_down i m => ipi_tlbshootdown i m
  | Shut_down => thread_shutdown
  | Hardclock => hardclock
  | Ipi => interprocessor_interrupt
  | Interrupt => on_cpu me (set_pc Running)
  | Go_on => go_on
  end.
(** A thread calls the operations; between them, and on an idle CPU, interrupt handlers do, which
    only wake.  The thread that forks has a process, the one that sleeps is not in an interrupt,
    channels exist, and shootdowns are not queued faster than handled. *)
Definition proper (a : action) s : bool :=
  match allcpus s !! me with
  | None => false
  | Some c =>
      let on := match pc c with Running => true | _ => false end in
      let busy := on && negb (c_isidle c) in
      let cur (P : thread -> bool) := match threads s !! c_curthread c with Some th => P th | None => false end in
      let exists_ w := bool_decide (w < length (wchans s))%nat in
      match a with
      | Fork _ => busy && cur (fun th => bool_decide (is_Some (t_proc th)))
      | Yield | Exit | Create_channel _ | Shut_down => busy
      | Sleep w => busy && exists_ w && cur (fun th => negb (t_in_interrupt th))
      | Shoot_down i _ => busy && match allcpus s !! i with Some d => bool_decide (length (c_shootdown d) < 16)%nat | None => false end
      | Wake_one w | Wake_all w => on && exists_ w
      | Hardclock | Ipi => on
      | Interrupt => match pc c with Halted => true | _ => false end
      | Go_on => true
      end
  end.
End ops.

(** Any interleaving of what the CPUs do. *)
Fixpoint exec {W} `{ThreadEnv W} (l : list (nat * action)) (s : system W) : option (system W) :=
  match l with
  | [] => Some s
  | (i, a) :: l => if proper i a s then match perform i a s with Ret _ s' => exec l s' | _ => None end else None
  end.
Definition reachable {W} `{ThreadEnv W} (s : system W) : Prop :=
  exists kproc n w s0 l, boot kproc n (start w) = Ret tt s0 /\ exec l s0 = Some s.

(** Every place where a thread can be: on a CPU, in a queue, dead, in the hands of a CPU's code, on a channel. *)
Definition places (c : cpu) : list Z := (if c_isidle c then [] else [c_curthread c]) ++ c_runqueue c ++ c_zombies c ++ private (pc c).
Definition everywhere {W} (s : system W) : list Z := concat (map places (allcpus s)) ++ concat (map wc_threads (wchans s)).
Definition running {W} (i : nat) (t : Z) (s : system W) : Prop := exists c, allcpus s !! i = Some c /\ c_isidle c = false /\ c_curthread c = t.
(** [t] waits in the queue of the CPU [i], behind [k] others. *)
Definition waits_at {W} (i : nat) (t : Z) (k : nat) (s : system W) : Prop := exists c, allcpus s !! i = Some c /\ c_runqueue c !! k = Some t.

(** The states that [exec] goes through. *)
Fixpoint states {W} `{ThreadEnv W} (l : list (nat * action)) (s : system W) : list (system W) :=
  s :: match l with [] => [] | (i, a) :: l => match perform i a s with Ret _ s' => states l s' | _ => [] end end.
(** The running thread of the CPU gives it up; with the clock, not if a migration comes first. *)
Definition migration_due (c : cpu) : bool := u32 (c_hardclocks c + 1) mod MIGRATE_HARDCLOCKS =? 0.
Definition gives_up {W} (me i : nat) (a : action) (s : system W) : bool :=
  bool_decide (i = me) && match a, allcpus s !! me with
    | (Yield | Exit | Sleep _), _ => true
    | Hardclock, Some c => negb (c_isidle c)
    | _, _ => false
    end.
Fixpoint turns {W} `{ThreadEnv W} (me : nat) (l : list (nat * action)) (s : system W) : nat :=
  match l with
  | [] => O
  | (i, a) :: l => ((if gives_up me i a s then 1 else 0) + match perform i a s with Ret _ s' => turns me l s' | _ => O end)%nat
  end.
(** No migration by the CPU [me]. *)
Fixpoint calm {W} `{ThreadEnv W} (me : nat) (l : list (nat * action)) (s : system W) : bool :=
  match l with
  | [] => true
  | (i, a) :: l =>
      match a, allcpus s !! me with Hardclock, Some c => negb (bool_decide (i = me) && migration_due c) | _, _ => true end &&
      match perform i a s with Ret _ s' => calm me l s' | _ => true end
  end.
End Thread.
Import Thread.

Class ThreadEnvLaws (W : Type) `{ThreadEnv W} := {
  kmalloc_returns (w : W) : wp w_kmalloc (fun _ _ => True) w;
  addthread_returns p t (w : W) : wp (w_proc_addthread p t) (fun _ _ => True) w;
  remthread_returns t (w : W) : wp (w_proc_remthread t) (fun _ _ => True) w;
  file_table_copy_returns p q (w : W) : wp (w_proc_file_table_copy p q) (fun _ _ => True) w;
  as_activate_returns (w : W) : wp w_as_activate (fun _ _ => True) w;
  send_ipi_returns i (w : W) : wp (w_send_ipi i) (fun _ _ => True) w;
  tlbshootdown_returns m (w : W) : wp (w_tlbshootdown m) (fun _ _ => True) w }.

(** ** Counting: how often something is in a list, and sums over lists *)

Definition occ (t : Z) (l : list Z) : Z := foldr (fun x n => (if x =? t then 1 else 0) + n) 0 l.
Definition total {A} (f : A -> Z) (l : list A) : Z := foldr (fun x n => f x + n) 0 l.
Lemma occ_nil t : occ t [] = 0.
Proof. done. Qed.
Lemma occ_cons t x l : occ t (x :: l) = (if x =? t then 1 else 0) + occ t l.
Proof. done. Qed.
Lemma occ_app t l k : occ t (l ++ k) = occ t l + occ t k.
Proof. induction l as [|x l IH]; [done|]. cbn [app]. rewrite !occ_cons, IH. lia. Qed.
Lemma occ_pos t l : 0 <= occ t l.
Proof. induction l as [|x l IH]; [done|]. rewrite occ_cons. destruct (x =? t); lia. Qed.
Lemma occ_in t l : t ∈ l <-> 0 < occ t l.
Proof.
  induction l as [|x l IH]; [rewrite elem_of_nil; cbn; lia|]. rewrite elem_of_cons, occ_cons, IH. pose proof (occ_pos t l).
  destruct (Z.eqb_spec x t); split; [lia|by left|intros [?|?]; [congruence|lia]|right; lia].
Qed.
Lemma total_cons {A} (f : A -> Z) x l : total f (x :: l) = f x + total f l.
Proof. done. Qed.
Lemma total_app {A} (f : A -> Z) l k : total f (l ++ k) = total f l + total f k.
Proof. induction l as [|x l IH]; [done|]. cbn [app]. rewrite !total_cons, IH. lia. Qed.
Lemma total_insert {A} (f : A -> Z) l i x y : l !! i = Some x -> total f (<[i := y]> l) = total f l - f x + f y.
Proof.
  revert i. induction l as [|z l IH]; intros [|i] Hl; [done|done|injection Hl as ->|].
  - change (<[O := y]> (x :: l)) with (y :: l). rewrite !total_cons. lia.
  - change (<[S i := y]> (z :: l)) with (z :: <[i := y]> l). rewrite !total_cons, (IH i Hl). lia.
Qed.
Lemma total_pos {A} (f : A -> Z) l : (forall x, 0 <= f x) -> 0 <= total f l.
Proof. intros Hf. induction l as [|x l IH]; [done|]. rewrite total_cons. specialize (Hf x). lia. Qed.
Lemma total_elem {A} (f : A -> Z) l i x : (forall x, 0 <= f x) -> l !! i = Some x -> f x <= total f l.
Proof.
  intros Hf. revert i. induction l as [|z l IH]; intros [|i] Hl; [done|done|injection Hl as ->|]; rewrite total_cons.
  - pose proof (total_pos f l Hf). lia.
  - pose proof (IH i Hl). specialize (Hf z). lia.
Qed.
Lemma total_two {A} (f : A -> Z) l i j x y : (forall x, 0 <= f x) -> i <> j -> l !! i = Some x -> l !! j = Some y -> f x + f y <= total f l.
Proof.
  intros Hf. revert i j. induction l as [|z l IH]; intros [|i] [|j] Hij Hi Hj; try done; rewrite total_cons.
  - injection Hi as ->. pose proof (total_elem f l j y Hf Hj). lia.
  - injection Hj as ->. pose proof (total_elem f l i x Hf Hi). lia.
  - pose proof (IH i j ltac:(congruence) Hi Hj). specialize (Hf z). lia.
Qed.

(** ** The invariant *)

(** The places where a thread can be: running, in a queue, dead, in the hands of a CPU's code. *)
Definition occ_cpu (t : Z) (c : cpu) : Z :=
  (if c_isidle c then 0 else occ t [c_curthread c]) + occ t (c_runqueue c) + occ t (c_zombies c) + occ t (private (pc c)).
Definition occ_wchan (t : Z) (wc : wchan) : Z := occ t (wc_threads wc).

Definition at_ (ths : gmap Z thread) (P : thread -> Prop) (t : Z) : Prop := exists th, ths !! t = Some th /\ P th.
Definition ready (i : nat) (th : thread) : Prop := t_state th = S_READY /\ t_cpu th = Some i.
Definition dead (i : nat) (th : thread) : Prop := t_state th = S_ZOMBIE /\ t_cpu th = Some i /\ t_proc th = None.
Definition asleep (th : thread) : Prop := t_state th = S_SLEEP.
(** The current thread; an idle CPU still uses its stack.  A CPU's first thread begins in [S_READY]. *)
Definition current (i : nat) (idle : bool) (th : thread) : Prop :=
  t_cpu th = Some i /\ (idle = false -> t_state th = S_RUN \/ t_state th = S_READY).
Definition in_hands (i : nat) (p : place) (th : thread) : Prop :=
  match p with Waking _ => asleep th | _ => ready i th end.
Record cpu_inv (ths : gmap Z thread) (i : nat) (c : cpu) : Prop := {
  ci_current : at_ ths (current i (c_isidle c)) (c_curthread c);
  ci_queue : Forall (at_ ths (ready i)) (c_runqueue c);
  ci_zombies : Forall (at_ ths (dead i)) (c_zombies c);
  ci_private : Forall (at_ ths (in_hands i (pc c))) (private (pc c));
  ci_counts : match pc c with
    | Choosing n _ => (n <= length (c_runqueue c))%nat
    | Counting k my _ => if decide (k <= i)%nat then my = 0 else my <= Z.of_nat (length (c_runqueue c))
    | Sending _ n _ l => (n <= length l)%nat
    | _ => True
    end;
  (** asleep in [cpu_idle] with work to do only if an interrupt is on its way *)
  ci_halted : pc c = Halted -> c_isidle c = true /\ (c_runqueue c <> [] -> Z.testbit (c_ipi_pending c) IPI_UNIDLE = true) }.
Record thread_inv (n : nat) (th : thread) : Prop := {
  ti_stack : t_stack th = None \/ t_stack th = Some (replicate 4 THREAD_STACK_MAGIC);
  ti_cpu : forall j, t_cpu th = Some j -> (j < n)%nat }.

(** [hand]: threads that the code has taken out of their place and not put anywhere yet. *)
Record Inv {W} (hand : list Z) (s : system W) : Prop := {
  inv_count : forall t, total (occ_cpu t) (allcpus s) + total (occ_wchan t) (wchans s) + occ t hand =
                        if decide (is_Some (threads s !! t)) then 1 else 0;
  inv_cpu : forall i c, allcpus s !! i = Some c -> cpu_inv (threads s) i c;
  inv_wchan : forall w wc, wchans s !! w = Some wc -> Forall (at_ (threads s) asleep) (wc_threads wc);
  (** a thread that is in some place has been given to a CPU *)
  inv_placed : forall t th, threads s !! t = Some th -> t ∉ hand -> exists j, t_cpu th = Some j;
  inv_thread : forall t th, threads s !! t = Some th -> thread_inv (length (allcpus s)) th }.

Lemma occ_cpu_pos t c : 0 <= occ_cpu t c.
Proof.
  unfold occ_cpu. pose proof (occ_pos t (c_runqueue c)). pose proof (occ_pos t (c_zombies c)). pose proof (occ_pos t (private (pc c))).
  pose proof (occ_pos t [c_curthread c]). destruct (c_isidle c); lia.
Qed.
Lemma occ_cpu_zero t c : occ_cpu t c = 0 <->
  (c_isidle c = false -> c_curthread c <> t) /\ t ∉ c_runqueue c /\ t ∉ c_zombies c /\ t ∉ private (pc c).
Proof.
  unfold occ_cpu. rewrite !occ_in. pose proof (occ_pos t (c_runqueue c)). pose proof (occ_pos t (c_zombies c)). pose proof (occ_pos t (private (pc c))).
  rewrite occ_cons, occ_nil. destruct (c_isidle c), (Z.eqb_spec (c_curthread c) t) as [Ec|Ec]; split.
  all: try (intros Hs; split_and!; (done || lia || (intros ?; done))).
  all: intros (Ha & Hb & Hc & Hd); (lia || (exfalso; by apply Ha)).
Qed.
Lemma occ_running t c : c_isidle c = false -> c_curthread c = t -> occ_cpu t c = 1 + occ t (c_runqueue c ++ c_zombies c ++ private (pc c)).
Proof. intros Hi <-. unfold occ_cpu. rewrite Hi, !occ_app, occ_cons, occ_nil, Z.eqb_refl. lia. Qed.
Lemma at_mono ths (P Q : thread -> Prop) t : (forall th, P th -> Q th) -> at_ ths P t -> at_ ths Q t.
Proof. intros HPQ (th & Ht & HP). exists th. split; [done|by apply HPQ]. Qed.
Lemma at_other ths ths' P t : ths' !! t = ths !! t -> at_ ths P t -> at_ ths' P t.
Proof. intros E (th & Ht & HP). exists th. by rewrite E. Qed.
(** Only the threads in a CPU's places, and its current one, matter to it. *)
Lemma cpu_inv_ext ths ths' i c : cpu_inv ths i c -> (forall x, x ∈ c_runqueue c ++ c_zombies c ++ private (pc c) -> ths' !! x = ths !! x) ->
  at_ ths' (current i (c_isidle c)) (c_curthread c) -> cpu_inv ths' i c.
Proof.
  intros [H1 H2 H3 H4 H5 H6] Hx Hc. split; try done.
  - rewrite Forall_forall in *. intros x Hin. eapply at_other; [apply Hx; apply elem_of_app; by left|by apply H2].
  - rewrite Forall_forall in *. intros x Hin. eapply at_other; [apply Hx; rewrite !elem_of_app; by right; left|by apply H3].
  - rewrite Forall_forall in *. intros x Hin. eapply at_other; [apply Hx; rewrite !elem_of_app; by right; right|by apply H4].
Qed.
Lemma not_in_places t c x : occ_cpu t c = 0 -> x ∈ c_runqueue c ++ c_zombies c ++ private (pc c) -> t <> x.
Proof. intros (_ & H1 & H2 & H3)%occ_cpu_zero. rewrite !elem_of_app. by intros [?|[?|?]] <-. Qed.
Lemma cpu_inv_insert ths i c t th th' : cpu_inv ths i c -> ths !! t = Some th -> occ_cpu t c = 0 ->
  (c_curthread c = t -> t_cpu th' = t_cpu th) -> cpu_inv (<[t := th']> ths) i c.
Proof.
  intros Hc Ht Ho Hcpu. apply (cpu_inv_ext ths); [done| |].
  - intros x Hx. rewrite lookup_insert_ne; [done|]. by eapply not_in_places.
  - destruct (ci_current _ _ _ Hc) as (th0 & H0 & H1 & H2). destruct (decide (c_curthread c = t)) as [E|Hne].
    + assert (th0 = th) as -> by congruence. exists th'. split; [rewrite E; apply lookup_insert_eq|]. split; [by rewrite Hcpu|].
      intros Hidle. apply occ_cpu_zero in Ho as [Ho _]. by destruct (Ho Hidle).
    + exists th0. by rewrite lookup_insert_ne.
Qed.

(** Projections of an updated CPU; of an updated system. *)
Ltac fields := cbn [set_curthread set_zombies set_hardclocks set_isidle set_runqueue set_ipi_pending set_shootdown set_pc
  c_curthread c_zombies c_hardclocks c_isidle c_runqueue c_ipi_pending c_shootdown pc private] in *.
Ltac proj := cbn [set_cpus set_threads set_wchans allcpus threads wchans world] in *.

Section Inv.
Context {W : Type} {E : ThreadEnv W} {EL : ThreadEnvLaws W}.
Implicit Types s : system W.

Lemma Inv_total s hand t : Inv hand s -> total (occ_cpu t) (allcpus s) + total (occ_wchan t) (wchans s) + occ t hand <= 1.
Proof. intros HI. rewrite (inv_count hand s HI t). destruct (decide _); lia. Qed.
Lemma occ_wchan_pos t wc : 0 <= occ_wchan t wc.
Proof. apply occ_pos. Qed.
(** A thread in somebody's hand is nowhere else. *)
Lemma Inv_hand s hand t : Inv hand s -> t ∈ hand ->
  (forall i c, allcpus s !! i = Some c -> occ_cpu t c = 0) /\ (forall w wc, wchans s !! w = Some wc -> t ∉ wc_threads wc) /\ is_Some (threads s !! t).
Proof.
  intros HI Ht%occ_in. pose proof (Inv_total s hand t HI). pose proof (total_pos _ (allcpus s) (occ_cpu_pos t)). pose proof (total_pos _ (wchans s) (occ_wchan_pos t)).
  split_and!.
  - intros i c Hc. pose proof (total_elem _ _ i c (occ_cpu_pos t) Hc). pose proof (occ_cpu_pos t c). lia.
  - intros w wc Hw Hin%occ_in. pose proof (total_elem _ _ w wc (occ_wchan_pos t) Hw). unfold occ_wchan in *. lia.
  - pose proof (inv_count hand s HI t) as Hc. destruct (decide _); [done|lia].
Qed.
(** A thread in a place of one CPU is in no other's. *)
Lemma Inv_one s hand t i c : Inv hand s -> allcpus s !! i = Some c -> 0 < occ_cpu t c ->
  (forall j c', j <> i -> allcpus s !! j = Some c' -> occ_cpu t c' = 0) /\ (forall w wc, wchans s !! w = Some wc -> t ∉ wc_threads wc) /\
  t ∉ hand /\ occ_cpu t c = 1.
Proof.
  intros HI Hc Ho. pose proof (Inv_total s hand t HI). pose proof (total_elem _ _ i c (occ_cpu_pos t) Hc). pose proof (occ_pos t hand).
  pose proof (total_pos _ (wchans s) (occ_wchan_pos t)). split_and!.
  - intros j c' Hj Hc'. pose proof (total_two _ _ i j c c' (occ_cpu_pos t) ltac:(congruence) Hc Hc'). pose proof (occ_cpu_pos t c'). lia.
  - intros w wc Hw Hin%occ_in. pose proof (total_elem _ _ w wc (occ_wchan_pos t) Hw). unfold occ_wchan in *. lia.
  - rewrite occ_in. lia.
  - lia.
Qed.

Lemma Inv_cpu s hand hand' i c c' : Inv hand s -> allcpus s !! i = Some c ->
  (forall t, occ_cpu t c' + occ t hand' = occ_cpu t c + occ t hand) -> cpu_inv (threads s) i c' ->
  (forall t th, threads s !! t = Some th -> t ∈ hand -> t ∈ hand' \/ exists j, t_cpu th = Some j) ->
  Inv hand' (set_cpus (<[i := c']> (allcpus s)) s).
Proof.
  intros [H1 H2 H3 H4 H5] Hi Ho Hc Hp. split; proj.
  - intros t. rewrite (total_insert _ _ i c) by done. rewrite <-H1. specialize (Ho t). lia.
  - intros j d Hj. destruct (decide (j = i)) as [->|Hne].
    + rewrite list_lookup_insert_eq in Hj by by eapply lookup_lt_Some. by injection Hj as <-.
    + rewrite list_lookup_insert_ne in Hj by done. by apply H2.
  - done.
  - intros t th Ht Hn. destruct (decide (t ∈ hand)) as [Hin|Hin]; [by destruct (Hp t th Ht Hin)|by eapply H4].
  - intros t th Ht. rewrite length_insert. by eapply H5.
Qed.
Lemma Inv_wchan s hand hand' w wc wc' : Inv hand s -> wchans s !! w = Some wc ->
  (forall t, occ_wchan t wc' + occ t hand' = occ_wchan t wc + occ t hand) -> Forall (at_ (threads s) asleep) (wc_threads wc') ->
  (forall t th, threads s !! t = Some th -> t ∈ hand -> t ∈ hand' \/ exists j, t_cpu th = Some j) ->
  Inv hand' (set_wchans (<[w := wc']> (wchans s)) s).
Proof.
  intros [H1 H2 H3 H4 H5] Hi Ho Hc Hp. split; proj; try done.
  - intros t. rewrite (total_insert _ _ w wc) by done. rewrite <-H1. specialize (Ho t). lia.
  - intros j d Hj. destruct (decide (j = w)) as [->|Hne].
    + rewrite list_lookup_insert_eq in Hj by by eapply lookup_lt_Some. by injection Hj as <-.
    + rewrite list_lookup_insert_ne in Hj by done. by eapply H3.
  - intros t th Ht Hn. destruct (decide (t ∈ hand)) as [Hin|Hin]; [by destruct (Hp t th Ht Hin)|by eapply H4].
Qed.
Lemma Inv_thread s hand t th th' : Inv hand s -> threads s !! t = Some th -> thread_inv (length (allcpus s)) th' ->
  (t ∉ hand -> exists j, t_cpu th' = Some j) ->
  (forall i c, allcpus s !! i = Some c -> cpu_inv (threads s) i c -> cpu_inv (<[t := th']> (threads s)) i c) ->
  (forall w wc, wchans s !! w = Some wc -> t ∈ wc_threads wc -> asleep th') ->
  Inv hand (set_threads (<[t := th']> (threads s)) s).
Proof.
  intros [H1 H2 H3 H4 H5] Ht Hth Hp Hc Hw. split; proj.
  - intros x. rewrite H1. destruct (decide (x = t)) as [->|Hne]; [by rewrite lookup_insert_eq, Ht|by rewrite lookup_insert_ne].
  - intros i c Hi. apply Hc; [done|by apply H2].
  - intros w wc Hw'. specialize (H3 w wc Hw'). rewrite Forall_forall in *. intros x Hx. destruct (decide (x = t)) as [->|Hne].
    + exists th'. split; [apply lookup_insert_eq|by eapply Hw].
    + eapply at_other; [by apply lookup_insert_ne|by apply H3].
  - intros x y Hx Hn. destruct (decide (x = t)) as [->|Hne].
    + rewrite lookup_insert_eq in Hx. injection Hx as <-. by apply Hp.
    + rewrite lookup_insert_ne in Hx by done. by eapply H4.
  - intros x y Hx. destruct (decide (x = t)) as [->|Hne].
    + rewrite lookup_insert_eq in Hx. by injection Hx as <-.
    + rewrite lookup_insert_ne in Hx by done. by eapply H5.
Qed.
(** A thread in the hand may be changed, as long as a CPU whose stack it is keeps it. *)
Lemma Inv_hand_thread s hand t th th' : Inv hand s -> threads s !! t = Some th -> t ∈ hand -> thread_inv (length (allcpus s)) th' ->
  (forall i c, allcpus s !! i = Some c -> c_curthread c = t -> t_cpu th' = t_cpu th) ->
  Inv hand (set_threads (<[t := th']> (threads s)) s).
Proof.
  intros HI Ht Hin Hth Hcur. destruct (Inv_hand s hand t HI Hin) as (Hc & Hw & _). eapply Inv_thread; [done|done|done|done| |].
  - intros i c Hi Hci. eapply cpu_inv_insert; [done|done|by eapply Hc|]. by eapply Hcur.
  - intros w wc Hw' Hin'. by destruct (Hw w wc Hw').
Qed.
Lemma Inv_world s hand (w : W) : Inv hand s -> Inv hand (System (allcpus s) (threads s) (wchans s) w).
Proof. by intros [H1 H2 H3 H4 H5]. Qed.
Lemma Inv_delete s hand t : Inv (t :: hand) s -> (forall i c, allcpus s !! i = Some c -> c_curthread c <> t) ->
  Inv hand (set_threads (delete t (threads s)) s).
Proof.
  intros HI Hcur. destruct (Inv_hand s _ t HI ltac:(left)) as (Hc & Hw & His). destruct HI as [H1 H2 H3 H4 H5]. split; proj.
  - intros x. specialize (H1 x). rewrite occ_cons in H1. destruct (Z.eqb_spec t x) as [->|Hne].
    + rewrite lookup_delete_eq. destruct (decide (is_Some (threads s !! x))); [|done]. destruct (decide (is_Some None)) as [[? ?]|_]; [done|lia].
    + rewrite lookup_delete_ne by done. lia.
  - intros i c Hi. specialize (H2 i c Hi). apply (cpu_inv_ext (threads s)); [done| |].
    + intros x Hx. rewrite lookup_delete_ne; [done|]. eapply not_in_places; [by eapply Hc|done].
    + eapply at_other; [|apply H2]. apply lookup_delete_ne. intros E'. by eapply Hcur.
  - intros w wc Hw'. specialize (H3 w wc Hw'). rewrite Forall_forall in *. intros x Hx. eapply at_other; [|by apply H3].
    apply lookup_delete_ne. intros ->. by destruct (Hw w wc Hw').
  - intros x y [Hne Hx]%lookup_delete_Some Hn. eapply H4; [done|]. intros [->|?]%elem_of_cons; [done|done].
  - intros x y [Hne Hx]%lookup_delete_Some. by eapply H5.
Qed.
Lemma Inv_new s hand t th : Inv hand s -> threads s !! t = None -> thread_inv (length (allcpus s)) th ->
  Inv (t :: hand) (set_threads (<[t := th]> (threads s)) s).
Proof.
  intros [H1 H2 H3 H4 H5] Hn Hth.
  assert (Hin : forall x th0, threads s !! x = Some th0 -> t <> x) by (intros x th0 Hx ->; congruence).
  assert (Hat : forall P x, at_ (threads s) P x -> at_ (<[t := th]> (threads s)) P x).
  { intros P x (th0 & Hx & HP). exists th0. split; [|done]. rewrite lookup_insert_ne; [done|]. by eapply Hin. }
  split; proj.
  - intros x. rewrite occ_cons. destruct (Z.eqb_spec t x) as [->|Hne].
    + rewrite lookup_insert_eq. specialize (H1 x). rewrite Hn in H1. destruct (decide (is_Some None)) as [[? ?]|_]; [done|].
      destruct (decide (is_Some (Some th))) as [|Hf]; [lia|]. destruct Hf. by eexists.
    + rewrite lookup_insert_ne by done. specialize (H1 x). lia.
  - intros i c Hi. destruct (H2 i c Hi) as [G1 G2 G3 G4 G5 G6]. split; try done; [by apply Hat|..]; (eapply Forall_impl; [eassumption|]; intros; by apply Hat).
  - intros w wc Hw. eapply Forall_impl; [by eapply H3|]. intros; by apply Hat.
  - intros x y Hx Hnot. apply not_elem_of_cons in Hnot as [Hne Hnot]. rewrite lookup_insert_ne in Hx by done. by eapply H4.
  - intros x y Hx. destruct (decide (x = t)) as [->|Hne].
    + rewrite lookup_insert_eq in Hx. by injection Hx as <-.
    + rewrite lookup_insert_ne in Hx by done. by eapply H5.
Qed.

(** ** Rules for the accesses *)

Section wp.
Context (s : system W).
Lemma wp_get_cpu i c (Q : cpu -> system W -> Prop) : allcpus s !! i = Some c -> Q c s -> wp (get_cpu i) Q s.
Proof. intros Hi HQ. unfold get_cpu. by wp_simpl. Qed.
Lemma wp_put_cpu i c (Q : () -> system W -> Prop) : Q tt (set_cpus (<[i := c]> (allcpus s)) s) -> wp (put_cpu i c) Q s.
Proof. done. Qed.
Lemma wp_on_cpu i c f (Q : () -> system W -> Prop) : allcpus s !! i = Some c -> Q tt (set_cpus (<[i := f c]> (allcpus s)) s) -> wp (on_cpu i f) Q s.
Proof. intros Hi HQ. unfold on_cpu. rewrite wp_bind. by eapply wp_get_cpu. Qed.
Lemma wp_get_thread t th (Q : thread -> system W -> Prop) : threads s !! t = Some th -> Q th s -> wp (get_thread t) Q s.
Proof. intros Hi HQ. unfold get_thread. by wp_simpl. Qed.
Lemma wp_on_thread t th f (Q : () -> system W -> Prop) : threads s !! t = Some th -> Q tt (set_threads (<[t := f th]> (threads s)) s) -> wp (on_thread t f) Q s.
Proof. intros Hi HQ. unfold on_thread. rewrite wp_bind. by eapply wp_get_thread. Qed.
Lemma wp_get_wchan w wc (Q : wchan -> system W -> Prop) : wchans s !! w = Some wc -> Q wc s -> wp (get_wchan w) Q s.
Proof. intros Hi HQ. unfold get_wchan. by wp_simpl. Qed.
Lemma wp_env {A} (m : K W A) (Q : A -> system W -> Prop) : (forall w, wp m (fun _ _ => True) w) ->
  (forall a w, Q a (System (allcpus s) (threads s) (wchans s) w)) -> wp (env m) Q s.
Proof. intros Hm HQ. unfold env. rewrite wp_zoom. eapply wp_mono; [|apply Hm]. cbv beta. intros a w _. apply HQ. Qed.
Lemma wp_curthread me c (Q : Z -> system W -> Prop) : allcpus s !! me = Some c -> Q (c_curthread c) s -> wp (curthread me) Q s.
Proof. intros Hi HQ. unfold curthread. rewrite wp_bind. eapply wp_get_cpu; [exact Hi|]. by rewrite wp_ret. Qed.
End wp.

(** The state of [s'], up to the world. *)
Definition looks (s' : system W) (cs : list cpu) (ths : gmap Z thread) (wcs : list wchan) : Prop :=
  allcpus s' = cs /\ threads s' = ths /\ wchans s' = wcs.
Lemma Inv_looks s s' hand : Inv hand s -> looks s' (allcpus s) (threads s) (wchans s) -> Inv hand s'.
Proof. intros HI (H1 & H2 & H3). destruct s' as [cs ths wcs w]; cbn in *. subst. by apply Inv_world. Qed.
Lemma looks_refl s : looks s (allcpus s) (threads s) (wchans s).
Proof. done. Qed.

Lemma ipi_send_spec s i c code : allcpus s !! i = Some c -> 0 <= code < 32 ->
  wp (ipi_send i code) (fun _ s' => looks s' (<[i := set_ipi_pending (Z.lor (c_ipi_pending c) (Z.shiftl 1 code)) c]> (allcpus s)) (threads s) (wchans s)) s.
Proof.
  intros Hi Hc. unfold ipi_send. rewrite wp_bind, wp_KASSERT. split; [apply andb_true_iff; split; [apply Z.leb_le; lia|apply Z.ltb_lt; lia]|].
  rewrite wp_bind. eapply wp_on_cpu; [exact Hi|]. apply wp_env; [apply send_ipi_returns|]. intros _ w. done.
Qed.
Lemma unidle_bit n : Z.testbit (Z.lor n (Z.shiftl 1 IPI_UNIDLE)) IPI_UNIDLE = true.
Proof. rewrite Z.lor_spec. change (Z.testbit (Z.shiftl 1 IPI_UNIDLE) IPI_UNIDLE) with true. apply orb_true_r. Qed.
Lemma other_bit n k : 0 <= k -> Z.testbit n IPI_UNIDLE = true -> Z.testbit (Z.lor n (Z.shiftl 1 k)) IPI_UNIDLE = true.
Proof. intros Hk Hn. by rewrite Z.lor_spec, Hn. Qed.

(** ** Making a thread runnable *)

(** What [thread_make_runnable] does to the target's CPU. *)
Definition woken (me j : nat) (t : Z) (c : cpu) : cpu :=
  let c' := set_runqueue (c_runqueue c ++ [t]) c in
  if c_isidle c && negb (bool_decide (j = me)) then set_ipi_pending (Z.lor (c_ipi_pending c) (Z.shiftl 1 IPI_UNIDLE)) c' else c'.
Lemma make_runnable_eq me s t th j c : threads s !! t = Some th -> t_cpu th = Some j -> allcpus s !! j = Some c ->
  wp (thread_make_runnable me t) (fun _ s' => looks s' (<[j := woken me j t c]> (allcpus s)) (<[t := set_state S_READY th]> (threads s)) (wchans s)) s.
Proof.
  intros Ht Hj Hc. assert (Hlt := lookup_lt_Some _ _ _ Hc). unfold thread_make_runnable. rewrite wp_bind. eapply wp_get_thread; [exact Ht|]. rewrite Hj. wp_simpl.
  eapply wp_on_thread; [exact Ht|]. rewrite wp_bind. eapply wp_on_cpu; [exact Hc|]. rewrite wp_bind. eapply wp_get_cpu; [apply list_lookup_insert_eq; done|].
  cbn [c_isidle set_runqueue]. unfold woken. destruct (c_isidle c && negb (bool_decide (j = me))).
  - eapply wp_mono; [|eapply ipi_send_spec; [by apply list_lookup_insert_eq|done]]. cbv beta. intros _ s' (H1 & H2 & H3).
    split_and!; [|done|done]. rewrite H1. proj. by rewrite list_insert_insert_eq.
  - by rewrite wp_ret.
Qed.

Lemma woken_same me j t c : c_curthread (woken me j t c) = c_curthread c /\ c_zombies (woken me j t c) = c_zombies c /\
  c_isidle (woken me j t c) = c_isidle c /\ pc (woken me j t c) = pc c /\ c_runqueue (woken me j t c) = c_runqueue c ++ [t].
Proof. unfold woken. by destruct (c_isidle c && negb (bool_decide (j = me))). Qed.
(** One more thread in the queue of a CPU that will notice. *)
Lemma cpu_inv_queue ths j c c' t th : cpu_inv ths j c -> ths !! t = Some th -> ready j th ->
  c_curthread c' = c_curthread c -> c_zombies c' = c_zombies c -> c_isidle c' = c_isidle c -> pc c' = pc c -> c_runqueue c' = c_runqueue c ++ [t] ->
  (pc c = Halted -> Z.testbit (c_ipi_pending c') IPI_UNIDLE = true) -> cpu_inv ths j c'.
Proof.
  intros [G1 G2 G3 G4 G5 G6] Ht Hr E1 E2 E3 E4 E5 Hh. split; rewrite ?E1, ?E2, ?E3, ?E4, ?E5; try done.
  - apply Forall_app. split; [done|]. apply Forall_singleton. by exists th.
  - destruct (pc c); try done; rewrite length_app; [|lia]. case_decide; [done|lia].
  - intros Hp. split; [by apply G6|]. intros _. by apply Hh.
Qed.
Lemma occ_cpu_queue t0 c c' t : c_curthread c' = c_curthread c -> c_zombies c' = c_zombies c -> c_isidle c' = c_isidle c -> pc c' = pc c ->
  c_runqueue c' = c_runqueue c ++ [t] -> occ_cpu t0 c' = occ_cpu t0 c + occ t0 [t].
Proof. intros E1 E2 E3 E4 E5. unfold occ_cpu. rewrite E1, E2, E3, E4, E5, occ_app. lia. Qed.
Lemma Inv_woken me s s' hand t th j c : Inv (t :: hand) s -> threads s !! t = Some th -> t_cpu th = Some j -> allcpus s !! j = Some c ->
  (j = me -> pc c <> Halted) ->
  looks s' (<[j := woken me j t c]> (allcpus s)) (<[t := set_state S_READY th]> (threads s)) (wchans s) -> Inv hand s'.
Proof.
  intros HI Ht Hj Hc Hh Hs'. eapply Inv_looks with (s := set_cpus (<[j := woken me j t c]> (allcpus s)) (set_threads (<[t := set_state S_READY th]> (threads s)) s)); [|exact Hs'].
  assert (H1 : Inv (t :: hand) (set_threads (<[t := set_state S_READY th]> (threads s)) s)).
  { eapply Inv_hand_thread; [done|exact Ht|left| |done]. destruct (inv_thread _ s HI t th Ht) as [? ?]. by split. }
  destruct (woken_same me j t c) as (E1 & E2 & E3 & E4 & E5).
  eapply (Inv_cpu _ (t :: hand) hand j c _ H1); [done| | |].
  - intros x. rewrite (occ_cpu_queue x c _ t), !occ_cons, occ_nil by done. lia.
  - pose proof (inv_cpu _ _ H1 j c Hc) as Hci. eapply cpu_inv_queue; [exact Hci|apply lookup_insert_eq|by split|done..|].
    intros Hp. destruct (ci_halted _ _ _ Hci Hp) as [Hidle _]. unfold woken. rewrite Hidle, bool_decide_false; [apply unidle_bit|].
    intros ->. by apply Hh.
  - intros x y Hx [->|Hin]%elem_of_cons; [|by left]. proj. rewrite lookup_insert_eq in Hx. injection Hx as <-. right. by exists j.
Qed.
Lemma make_runnable_spec me s hand t th : Inv (t :: hand) s -> threads s !! t = Some th -> (exists j, t_cpu th = Some j) ->
  (forall c, allcpus s !! me = Some c -> pc c <> Halted) ->
  wp (thread_make_runnable me t) (fun _ s' => Inv hand s' /\ exists j c, allcpus s !! j = Some c /\ allcpus s' = <[j := woken me j t c]> (allcpus s) /\ wchans s' = wchans s) s.
Proof.
  intros HI Ht [j Hj] Hh. destruct (lookup_lt_is_Some_2 (allcpus s) j) as [c Hc].
  { by eapply (ti_cpu _ _ (inv_thread _ s HI t th Ht)). }
  eapply wp_mono; [|by eapply make_runnable_eq]. cbv beta. intros _ s' Hs'. split; [|by exists j, c; destruct Hs' as (? & ? & ?)].
  eapply (Inv_woken me); [done..| |exact Hs']. intros ->. by apply Hh.
Qed.

(** ** Destroying threads *)

Lemma on_list_false s t hand : Inv (t :: hand) s -> on_list t s = false.
Proof.
  intros HI. destruct (Inv_hand s _ t HI ltac:(left)) as (Hc & Hw & _). unfold on_list. apply orb_false_iff. split.
  - apply not_true_iff_false. intros (c & [i Hi]%list_elem_of_In%list_elem_of_lookup & Hin%bool_decide_eq_true)%existsb_exists.
    by eapply (not_in_places t c t); [eapply Hc|..].
  - apply not_true_iff_false. intros (wc & [i Hi]%list_elem_of_In%list_elem_of_lookup & Hin%bool_decide_eq_true)%existsb_exists.
    by eapply Hw.
Qed.
Lemma destroy_spec me s hand t th c : Inv (t :: hand) s -> threads s !! t = Some th -> allcpus s !! me = Some c ->
  (forall i c, allcpus s !! i = Some c -> c_curthread c <> t) -> t_state th <> S_RUN -> t_proc th = None ->
  wp (thread_destroy me t) (fun _ s' => Inv hand s' /\ looks s' (allcpus s) (delete t (threads s)) (wchans s)) s.
Proof.
  intros HI Ht Hme Hcur Hst Hp. unfold thread_destroy. rewrite wp_bind. eapply wp_curthread; [exact Hme|]. rewrite wp_bind, wp_KASSERT.
  split. { apply negb_true_iff, Z.eqb_neq. intros ->. by eapply Hcur. }
  rewrite wp_bind. eapply wp_get_thread; [exact Ht|]. rewrite wp_bind, wp_KASSERT. split; [by apply bool_decide_eq_true|].
  rewrite wp_bind, wp_KASSERT. split; [by apply bool_decide_eq_true|]. rewrite wp_bind. unfold threadlistnode_cleanup. wp_simpl.
  rewrite wp_KASSERT. split; [by rewrite (on_list_false s t hand)|]. split; [by apply Inv_delete|done].
Qed.
(** The running thread's CPU destroys those that died on it. *)
Lemma exorcise_loop_spec me l : forall s c, Inv [] s -> allcpus s !! me = Some c -> c_isidle c = false -> c_zombies c = l ->
  wp (exorcise_loop me l) (fun _ s' => Inv [] s' /\ allcpus s' = <[me := set_zombies [] c]> (allcpus s) /\ wchans s' = wchans s /\
    (forall t, t ∉ l -> threads s' !! t = threads s !! t)) s.
Proof.
  induction l as [|z l IH]; intros s c HI Hme Hidle Hz; cbn [exorcise_loop].
  { rewrite wp_ret. split; [done|]. rewrite list_insert_id; [done|]. rewrite Hme. f_equal. destruct c; cbn in *. by subst. }
  pose proof (inv_cpu _ s HI me c Hme) as Hci. assert (Hlt := lookup_lt_Some _ _ _ Hme).
  destruct (ci_current _ _ _ Hci) as (cth & Hcur & Hccpu & _).
  assert (Hzd : at_ (threads s) (dead me) z) by (pose proof (ci_zombies _ _ _ Hci) as Hf; rewrite Hz in Hf; by inversion Hf). destruct Hzd as (zth & Hzt & Hzs & Hzc & Hzp).
  assert (HI1 : Inv [z] (set_cpus (<[me := set_zombies l c]> (allcpus s)) s)).
  { eapply (Inv_cpu s [] [z] me c); [done|done| | |by intros ? ? _ ?%elem_of_nil].
    - intros t. unfold occ_cpu. cbn [set_zombies c_isidle c_curthread c_runqueue c_zombies pc]. rewrite Hz, !occ_cons, occ_nil. lia.
    - destruct Hci as [G1 G2 G3 G4 G5 G6]. split; try done. cbn. rewrite Hz in G3. by inversion G3. }
  rewrite wp_bind. eapply wp_on_cpu; [exact Hme|]. rewrite wp_bind. eapply wp_curthread; [by apply list_lookup_insert_eq|].
  assert (Hne : z <> c_curthread c).
  { intros ->. destruct (Inv_hand _ _ (c_curthread c) HI1 ltac:(left)) as (Hall & _). specialize (Hall me _ ltac:(by apply list_lookup_insert_eq)).
    apply occ_cpu_zero in Hall as [Hall _]. by apply Hall. }
  rewrite wp_bind, wp_KASSERT. split; [by apply negb_true_iff, Z.eqb_neq|]. rewrite wp_bind. eapply wp_get_thread; [exact Hzt|].
  rewrite wp_bind, wp_KASSERT. split; [by apply bool_decide_eq_true|]. rewrite wp_bind.
  eapply wp_mono; [|eapply (destroy_spec me _ [] z zth); [exact HI1|exact Hzt|by apply list_lookup_insert_eq| |congruence|done]].
  - cbv beta. intros _ s2 (HI2 & E1 & E2 & E3). proj. eapply wp_mono; [|apply (IH s2 (set_zombies l c)); [done|rewrite E1; by apply list_lookup_insert_eq|done|done]].
    cbv beta. intros _ s3 (HI3 & F1 & F2 & F3). split; [done|]. rewrite F1, E1, list_insert_insert_eq, F2, E3. split_and!; [done|done|].
    intros t [Htz Htl]%not_elem_of_cons. rewrite F3, E2 by done. by rewrite lookup_delete_ne.
  - intros i d Hi Ed. proj. destruct (decide (i = me)) as [->|Him].
    + rewrite list_lookup_insert_eq in Hi by done. injection Hi as <-. by apply Hne.
    + rewrite list_lookup_insert_ne in Hi by done. destruct (ci_current _ _ _ (inv_cpu _ s HI i d Hi)) as (dth & Hd & Hdc & _).
      rewrite Ed in Hd. congruence.
Qed.

(** ** Switching *)

(** The running thread may be changed, if it stays on its CPU. *)
Lemma Inv_running s me c th th' : Inv [] s -> allcpus s !! me = Some c -> c_isidle c = false -> threads s !! c_curthread c = Some th ->
  thread_inv (length (allcpus s)) th' -> t_cpu th' = Some me -> t_state th' = S_RUN \/ t_state th' = S_READY ->
  Inv [] (set_threads (<[c_curthread c := th']> (threads s)) s).
Proof.
  intros HI Hme Hidle Ht Hinv Hcpu Hst. assert (Hocc := occ_running (c_curthread c) c Hidle eq_refl).
  pose proof (occ_pos (c_curthread c) (c_runqueue c ++ c_zombies c ++ private (pc c))).
  destruct (Inv_one s [] (c_curthread c) me c HI Hme ltac:(lia)) as (Hother & Hwc & _ & Hz). destruct (ci_current _ _ _ (inv_cpu _ s HI me c Hme)) as (th0 & Ht0 & Hc0 & _).
  eapply (Inv_thread s [] _ th); [done|done|done| | |].
  - intros _. by exists me.
  - intros i d Hi Hd. destruct (decide (i = me)) as [->|Him].
    + assert (d = c) as -> by congruence. apply (cpu_inv_ext (threads s)); [done| |].
      * intros x Hx. rewrite lookup_insert_ne; [done|]. intros <-. apply occ_in in Hx. lia.
      * exists th'. by rewrite lookup_insert_eq.
    + eapply cpu_inv_insert; [done|exact Ht|by eapply Hother|]. congruence.
  - intros w wc Hw Hin. by destruct (Hwc w wc Hw).
Qed.
(** The running thread, taken off its CPU (which keeps using its stack). *)
Lemma Inv_park s me c th th' : Inv [] s -> allcpus s !! me = Some c -> c_isidle c = false -> pc c <> Halted -> threads s !! c_curthread c = Some th ->
  thread_inv (length (allcpus s)) th' -> t_cpu th' = t_cpu th ->
  Inv [c_curthread c] (set_threads (<[c_curthread c := th']> (threads s)) (set_cpus (<[me := set_isidle true c]> (allcpus s)) s)).
Proof.
  intros HI Hme Hidle Hpc Ht Hinv Hcpu.
  assert (HI1 : Inv [c_curthread c] (set_cpus (<[me := set_isidle true c]> (allcpus s)) s)).
  { eapply (Inv_cpu s [] _ me c); [done|done| | |by intros ? ? _ ?%elem_of_nil].
    - intros x. unfold occ_cpu. cbn [set_isidle c_isidle c_curthread c_runqueue c_zombies pc]. rewrite Hidle, occ_nil. lia.
    - destruct (inv_cpu _ s HI me c Hme) as [(th0 & G1 & G1' & _) G2 G3 G4 G5 G6]. split; try done. by exists th0. }
  eapply (Inv_hand_thread (set_cpus (<[me := set_isidle true c]> (allcpus s)) s) [c_curthread c] _ th); [exact HI1|exact Ht|left| |done].
  proj. by rewrite length_insert.
Qed.
(** What [next_thread] makes of the CPU. *)
Definition taken (c : cpu) : cpu :=
  match c_runqueue c with
  | [] => set_pc Halted c
  | t :: q => set_zombies [] (set_curthread t (set_isidle false (set_runqueue q c)))
  end.
Lemma next_thread_spec me s c : Inv [] s -> allcpus s !! me = Some c -> c_isidle c = true -> pc c = Running ->
  wp (next_thread me) (fun _ s' => Inv [] s' /\ allcpus s' = <[me := taken c]> (allcpus s) /\ wchans s' = wchans s) s.
Proof.
  intros HI Hme Hidle Hpc. pose proof (inv_cpu _ s HI me c Hme) as Hci. assert (Hlt := lookup_lt_Some _ _ _ Hme).
  unfold next_thread, taken. rewrite wp_bind. eapply wp_get_cpu; [exact Hme|]. destruct (c_runqueue c) as [|t q] eqn:Eq.
  - eapply wp_on_cpu; [exact Hme|]. split; [|done]. eapply (Inv_cpu s [] [] me c); [done|done| | |by intros ? ? _ ?%elem_of_nil].
    + intros x. unfold occ_cpu. cbn. by rewrite Hpc.
    + destruct Hci as [G1 G2 G3 G4 G5 G6]. by split.
  - assert (Ht : at_ (threads s) (ready me) t) by (pose proof (ci_queue _ _ _ Hci) as Hf; rewrite Eq in Hf; by inversion Hf).
    destruct Ht as (th & Ht & Hst & Hcpu). set (c1 := set_curthread t (set_isidle false (set_runqueue q c))).
    assert (HI1 : Inv [] (set_cpus (<[me := c1]> (allcpus s)) s)).
    { eapply (Inv_cpu s [] [] me c); [done|done| | |by intros ? ? _ ?%elem_of_nil].
      - intros x. unfold occ_cpu. cbn [c1 set_curthread set_isidle set_runqueue c_isidle c_curthread c_runqueue c_zombies pc].
        rewrite Hidle, Eq, !occ_cons, !occ_nil. lia.
      - destruct Hci as [G1 G2 G3 G4 G5 G6]. rewrite Eq in G2. split; cbn; try done.
        + exists th. split; [done|]. split; [done|]. intros _. by right.
        + by inversion G2.
        + by rewrite Hpc.
        + by rewrite Hpc. }
    rewrite wp_bind. apply wp_put_cpu. unfold switch_tail. rewrite wp_bind. eapply wp_curthread; [by apply list_lookup_insert_eq|]. cbn [c1 set_curthread c_curthread].
    rewrite wp_bind. eapply wp_on_thread; [exact Ht|]. set (th1 := set_state S_RUN (set_wchan_name None th)).
    assert (HI2 : Inv [] (set_threads (<[t := th1]> (threads s)) (set_cpus (<[me := c1]> (allcpus s)) s))).
    { eapply (Inv_running (set_cpus (<[me := c1]> (allcpus s)) s) me c1 th); [exact HI1|by apply list_lookup_insert_eq|done|exact Ht| |done|by left].
      destruct (inv_thread _ s HI t th Ht) as [? ?]. proj. rewrite length_insert. by split. }
    rewrite wp_bind. apply wp_env; [apply as_activate_returns|]. intros _ w. unfold exorcise. rewrite wp_bind.
    eapply wp_get_cpu; [by apply list_lookup_insert_eq|]. eapply wp_mono; [|eapply (exorcise_loop_spec me _ _ c1); [by eapply Inv_world|by apply list_lookup_insert_eq|done|done]].
    cbv beta. intros _ s' (HI' & F1 & F2 & _). proj. rewrite list_insert_insert_eq in F1. split; [done|]. split; [|done]. rewrite F1. done.
Qed.

(** What [thread_switch] does before it looks for the next thread: to the CPU, to the wait channels. *)
Definition left_cpu (newstate : threadstate_t) (c : cpu) : cpu :=
  set_isidle true (match newstate with
    | S_READY => set_runqueue (c_runqueue c ++ [c_curthread c]) c
    | S_ZOMBIE => set_zombies (c_zombies c ++ [c_curthread c]) c
    | _ => c
    end).
Definition left_wchans (newstate : threadstate_t) (wc : option nat) (t : Z) (l : list wchan) : list wchan :=
  match newstate, wc with
  | S_SLEEP, Some w => match l !! w with Some ch => <[w := Wchan (wc_name ch) (wc_threads ch ++ [t])]> l | None => l end
  | _, _ => l
  end.
Definition may_leave (newstate : threadstate_t) (wc : option nat) (s : system W) (c : cpu) : Prop :=
  match newstate with
  | S_RUN => False
  | S_READY => True
  | S_SLEEP => exists w ch, wc = Some w /\ wchans s !! w = Some ch
  | S_ZOMBIE => at_ (threads s) (fun th => t_proc th = None) (c_curthread c)
  end.
Lemma Inv_left newstate wc me s c th th' : Inv [] s -> allcpus s !! me = Some c -> c_isidle c = false -> pc c = Running ->
  threads s !! c_curthread c = Some th -> thread_inv (length (allcpus s)) th' -> t_cpu th' = t_cpu th -> t_proc th' = t_proc th -> t_state th' = newstate ->
  may_leave newstate wc s c ->
  Inv [] (System (<[me := left_cpu newstate c]> (allcpus s)) (<[c_curthread c := th']> (threads s)) (left_wchans newstate wc (c_curthread c) (wchans s)) (world s)).
Proof.
  intros HI Hme Hidle Hpc Ht Hinv Hcpu Hproc Hst Hmay. assert (Hlt := lookup_lt_Some _ _ _ Hme).
  assert (HP := Inv_park s me c th th' HI Hme Hidle ltac:(by rewrite Hpc) Ht Hinv Hcpu). set (t := c_curthread c) in *.
  set (s1 := set_threads _ _) in HP. assert (Hc1 : allcpus s1 !! me = Some (set_isidle true c)) by by apply list_lookup_insert_eq.
  destruct (inv_cpu _ _ HP me _ Hc1) as [(th0 & E0 & G1 & G1') G2 G3 G4 G5 G6]. cbn [set_isidle c_isidle c_curthread c_runqueue c_zombies pc] in *. rewrite Hpc in *.
  assert (Hth' : threads s1 !! t = Some th') by apply lookup_insert_eq. assert (th0 = th') as -> by (unfold t in *; congruence).
  assert (Hplaced : forall t' th0, threads s1 !! t' = Some th0 -> t' ∈ [t] -> t' ∈ [] \/ exists j, t_cpu th0 = Some j).
  { intros t' th0 Hth0 ->%list_elem_of_singleton. right. exists me. by assert (th0 = th') as -> by congruence. }
  destruct newstate; cbn in Hmay; [done| | |].
  - eapply (Inv_looks (set_cpus (<[me := left_cpu S_READY c]> (allcpus s1)) s1)); [|split_and!; [by cbn; rewrite list_insert_insert_eq|done|done]].
    eapply (Inv_cpu s1 [t] [] me); [done|exact Hc1| | |exact Hplaced].
    + intros x. unfold occ_cpu, left_cpu. fields. rewrite occ_app, occ_nil. unfold t. lia.
    + unfold left_cpu. split; fields; rewrite ?Hpc; try done.
      * by exists th'.
      * apply Forall_app. split; [done|]. apply Forall_singleton. by exists th'.
  - destruct Hmay as (w & ch & -> & Hw). set (ch' := Wchan (wc_name ch) (wc_threads ch ++ [t])).
    assert (Hal : left_wchans S_SLEEP (Some w) t (wchans s) = <[w := ch']> (wchans s)) by by cbn [left_wchans]; rewrite Hw.
    eapply (Inv_looks (set_wchans (<[w := ch']> (wchans s1)) s1)); [|split_and!; [done|done|exact Hal]].
    eapply (Inv_wchan s1 [t] [] w ch); [done|exact Hw| | |exact Hplaced].
    + intros x. unfold occ_wchan. cbn [ch' wc_threads]. rewrite occ_app, occ_nil. lia.
    + cbn [ch' wc_threads]. apply Forall_app. split; [by eapply (inv_wchan _ _ HP)|]. apply Forall_singleton. by exists th'.
  - destruct Hmay as (th0 & Ht0 & Hp0). assert (th0 = th) as -> by (unfold t in *; congruence).
    eapply (Inv_looks (set_cpus (<[me := left_cpu S_ZOMBIE c]> (allcpus s1)) s1)); [|split_and!; [by cbn; rewrite list_insert_insert_eq|done|done]].
    eapply (Inv_cpu s1 [t] [] me); [done|exact Hc1| | |exact Hplaced].
    + intros x. unfold occ_cpu, left_cpu. fields. rewrite occ_app, occ_nil. unfold t. lia.
    + unfold left_cpu. split; fields; rewrite ?Hpc; try done.
      * by exists th'.
      * apply Forall_app. split; [done|]. apply Forall_singleton. exists th'. split; [done|]. split; [done|]. split; congruence.
Qed.
Lemma checkstack_spec s t th : Inv [] s -> threads s !! t = Some th -> wp (thread_checkstack t) (fun _ s' => s' = s) s.
Proof.
  intros HI Ht. unfold thread_checkstack. rewrite wp_bind. eapply wp_get_thread; [exact Ht|].
  destruct (ti_stack _ _ (inv_thread _ s HI t th Ht)) as [-> | ->]; [done|]. rewrite wp_KASSERT. done.
Qed.
Definition stays (newstate : threadstate_t) (c : cpu) : bool :=
  c_isidle c || (bool_decide (newstate = S_READY) && bool_decide (c_runqueue c = [])).
Lemma thread_switch_spec me s c newstate wc : Inv [] s -> allcpus s !! me = Some c -> pc c = Running ->
  (c_isidle c = false -> may_leave newstate wc s c) ->
  wp (thread_switch me newstate wc) (fun back s' => Inv [] s' /\
    back = stays newstate c /\
    if back : bool then s' = s
    else allcpus s' = <[me := taken (left_cpu newstate c)]> (allcpus s) /\
         wchans s' = left_wchans newstate wc (c_curthread c) (wchans s)) s.
Proof.
  intros HI Hme Hpc Hmay. assert (Hlt := lookup_lt_Some _ _ _ Hme).
  destruct (ci_current _ _ _ (inv_cpu _ s HI me c Hme)) as (th & Ht & Hcpu & Hst). unfold thread_switch. rewrite wp_bind. eapply wp_get_cpu; [exact Hme|].
  destruct (c_isidle c) eqn:Hidle; [rewrite wp_ret; unfold stays; by rewrite Hidle|]. specialize (Hmay eq_refl).
  rewrite wp_bind. eapply wp_mono; [|by eapply checkstack_spec]. cbv beta. intros _ ? ->.
  destruct (bool_decide (newstate = S_READY) && bool_decide (c_runqueue c = [])) eqn:Hback.
  { rewrite wp_ret. unfold stays. by rewrite Hidle, Hback. }
  assert (Hti : forall n st, thread_inv (length (allcpus s)) (set_state st (set_wchan_name n th)))
    by (intros; destruct (inv_thread _ s HI _ th Ht); by split).
  rewrite wp_bind. set (P := fun (_ : ()) (s' : system W) => exists th' c', allcpus s' = <[me := c']> (allcpus s) /\ set_isidle true c' = left_cpu newstate c /\
    wchans s' = left_wchans newstate wc (c_curthread c) (wchans s) /\ threads s' = <[c_curthread c := th']> (threads s) /\
    exists n st, th' = set_state st (set_wchan_name n th)). 
  apply (wp_mono _ P).
  - intros _ s1 (th' & c' & E1 & E2 & E3 & E4 & n & st & ->). rewrite wp_bind. eapply wp_on_thread; [rewrite E4; apply lookup_insert_eq|].
    rewrite wp_bind. eapply wp_on_cpu; [proj; rewrite E1; by apply list_lookup_insert_eq|]. rewrite wp_bind. proj. rewrite E2.
    eapply wp_mono; [|eapply (next_thread_spec me _ (left_cpu newstate c))].
    + cbv beta. intros _ s' (HI' & F1 & F2). rewrite wp_ret. proj. rewrite E1, !list_insert_insert_eq in F1. rewrite F1, F2. unfold stays. by rewrite Hidle, Hback.
    + eapply Inv_looks; [eapply (Inv_left newstate wc me s c th (set_state newstate (set_state st (set_wchan_name n th)))); try done; apply Hti|].
      split_and!; proj; [by rewrite E1, list_insert_insert_eq|by rewrite E4, insert_insert_eq|done].
    + proj. rewrite E1. by rewrite list_insert_insert_eq, list_lookup_insert_eq.
    + by destruct newstate.
    + by destruct newstate.
  - unfold P. destruct newstate; cbn in Hmay; [done| | |].
    + eapply wp_mono; [|by eapply make_runnable_eq]. cbv beta. intros _ s1 (E1 & E2 & E3). eexists _, _. split_and!; [exact E1| |exact E3|exact E2|].
      * unfold woken. rewrite Hidle. done.
      * exists (t_wchan_name th), S_READY. by destruct th.
    + destruct Hmay as (w & ch & -> & Hw). wp_simpl. eapply wp_get_wchan; [exact Hw|]. rewrite wp_bind. eapply wp_on_thread; [exact Ht|].
      exists (set_wchan_name (Some (wc_name ch)) th), c. split_and!; [proj; by rewrite list_insert_id|done| |done|].
      * cbn. by rewrite Hw.
      * exists (Some (wc_name ch)), (t_state th). by destruct th.
    + rewrite wp_bind. eapply wp_on_thread; [exact Ht|]. eapply wp_on_cpu; [exact Hme|]. eexists _, _. split_and!; [done|done|done|done|].
      exists (Some "ZOMBIE"), (t_state th). by destruct th.
Qed.

(** ** What a step does to the CPUs *)

(** From outside, a run queue only grows, at its end. *)
Record grown (c c' : cpu) : Prop := {
  gr_curthread : c_curthread c' = c_curthread c;
  gr_isidle : c_isidle c' = c_isidle c;
  gr_hardclocks : c_hardclocks c' = c_hardclocks c;
  gr_runqueue : c_runqueue c `prefix_of` c_runqueue c' }.
#[local] Instance grown_preorder : PreOrder grown.
Proof.
  split; [by intros c; split|]. intros c1 c2 c3 [A1 A2 A3 A4] [B1 B2 B3 B4].
  split; [congruence..|]. by transitivity (c_runqueue c2).
Qed.
Definition kept (c c' : cpu) : Prop := grown c c' /\ pc c' = pc c.
Lemma kept_refl c : kept c c.
Proof. done. Qed.
Lemma kept_trans c c' c'' : kept c c' -> kept c' c'' -> kept c c''.
Proof. intros [H1 H2] [H3 H4]. split; [by transitivity c'|congruence]. Qed.
(** A step of the CPU [me] does [P] to it, and to the others nothing but adding to their queues. *)
Record frame (me : nat) (P : cpu -> cpu -> Prop) (s s' : system W) : Prop := {
  fr_cpus : length (allcpus s') = length (allcpus s);
  fr_wchans : (length (wchans s) <= length (wchans s'))%nat;
  fr_me : forall c, allcpus s !! me = Some c -> exists c', allcpus s' !! me = Some c' /\ P c c';
  fr_others : forall j c, j <> me -> allcpus s !! j = Some c -> exists c', allcpus s' !! j = Some c' /\ kept c c' }.
Lemma frame_refl me (P : cpu -> cpu -> Prop) s : (forall c, allcpus s !! me = Some c -> P c c) -> frame me P s s.
Proof. intros HP. split; [done|done|..]. - intros c Hc. by exists c; eauto. - intros j c _ Hc. by exists c. Qed.
Lemma frame_trans me (P Q R : cpu -> cpu -> Prop) s1 s2 s3 : (forall c c' c'', P c c' -> Q c' c'' -> R c c'') ->
  frame me P s1 s2 -> frame me Q s2 s3 -> frame me R s1 s3.
Proof.
  intros HR [A1 A2 A3 A4] [B1 B2 B3 B4]. split; [congruence|lia|..].
  - intros c (c' & Hc' & HP)%A3. destruct (B3 c' Hc') as (c'' & Hc'' & HQ). eauto.
  - intros j c Hj (c' & Hc' & HP)%A4; [|done]. destruct (B4 j c' Hj Hc') as (c'' & Hc'' & HQ). exists c''. split; [done|]. by apply (kept_trans c c').
Qed.
Lemma frame_mono me (P Q : cpu -> cpu -> Prop) s s' : (forall c c', allcpus s !! me = Some c -> P c c' -> Q c c') -> frame me P s s' -> frame me Q s s'.
Proof. intros HPQ [A1 A2 A3 A4]. split; [done|done| |done]. intros c Hc. destruct (A3 c Hc) as (c' & ? & ?). eauto. Qed.
(** The CPU changes itself. *)
Lemma frame_self me (P : cpu -> cpu -> Prop) s s' c c' : allcpus s !! me = Some c -> allcpus s' = <[me := c']> (allcpus s) -> P c c' ->
  (length (wchans s) <= length (wchans s'))%nat -> frame me P s s'.
Proof.
  intros Hc E' HP Hw. assert (Hlt := lookup_lt_Some _ _ _ Hc). split; rewrite ?E'; [by rewrite length_insert|done|..].
  - intros d Hd. rewrite list_lookup_insert_eq by done. exists c'. split; [done|]. congruence.
  - intros j d Hj Hd. exists d. rewrite list_lookup_insert_ne by done. by split_and!.
Qed.
Lemma frame_nothing me s s' : allcpus s' = allcpus s -> (length (wchans s) <= length (wchans s'))%nat -> frame me kept s s'.
Proof. intros H1 H3. split; [congruence|done|..]; rewrite H1; [intros c Hc|intros j c Hj Hc]; by exists c. Qed.
(** The CPU changes one that may be itself, or another. *)
Lemma frame_one me s s' j c c' : allcpus s !! j = Some c -> allcpus s' = <[j := c']> (allcpus s) -> grown c c' -> pc c' = pc c ->
  (length (wchans s) <= length (wchans s'))%nat -> frame me kept s s'.
Proof.
  intros Hc E' HP Hpc Hw. assert (Hlt := lookup_lt_Some _ _ _ Hc).
  assert (Hall : forall i d, allcpus s !! i = Some d -> exists d', allcpus s' !! i = Some d' /\ grown d d' /\ pc d' = pc d).
  { intros i d Hd. rewrite E'. destruct (decide (i = j)) as [->|Hne].
    - rewrite list_lookup_insert_eq by done. exists c'. by assert (d = c) as -> by congruence.
    - rewrite list_lookup_insert_ne by done. by exists d. }
  split; [by rewrite E', length_insert|done|by intros; apply Hall|by intros; apply Hall].
Qed.
Lemma woken_grown me j t c : grown c (woken me j t c).
Proof. destruct (woken_same me j t c) as (E1 & E2 & E3 & E4 & E5). split; try done; [unfold woken; by destruct (_ && _)|]. rewrite E5. by apply prefix_app_r. Qed.
Lemma make_runnable_frame me s hand t th : Inv (t :: hand) s -> threads s !! t = Some th -> (exists j, t_cpu th = Some j) ->
  (forall c, allcpus s !! me = Some c -> pc c <> Halted) ->
  wp (thread_make_runnable me t) (fun _ s' => Inv hand s' /\ frame me kept s s') s.
Proof.
  intros. eapply wp_mono; [|by eapply make_runnable_spec]. cbv beta. intros _ s' (HI' & j & c & Hc & E1 & E2). split; [done|].
  eapply frame_one; [exact Hc|exact E1|apply woken_grown| |by rewrite E2]. by destruct (woken_same me j t c) as (_ & _ & _ & ? & _).
Qed.

(** ** Creation and the end of threads *)

Lemma thread_create_spec s : Inv [] s ->
  wp thread_create (fun r s' => allcpus s' = allcpus s /\ wchans s' = wchans s /\
    match r with
    | None => threads s' = threads s
    | Some t => threads s !! t = None /\ threads s' = <[t := TheThread (Some "NEW") S_READY None None None false]> (threads s)
    end) s.
Proof.
  intros HI. unfold thread_create. rewrite wp_bind. apply wp_env; [apply kmalloc_returns|]. intros room1 w1. destruct room1; cbn [negb]; [|by rewrite wp_ret].
  rewrite wp_bind. apply wp_env; [apply kmalloc_returns|]. intros room2 w2. destruct room2; cbn [negb]; [|by rewrite wp_ret].
  wp_simpl. split_and!; [done|done| |done]. apply not_elem_of_dom. apply is_fresh.
Qed.
(** A new thread, not yet visible to anyone, may be anything. *)
Lemma Inv_newborn s s' t th : Inv [] s -> threads s !! t = None -> thread_inv (length (allcpus s)) th ->
  looks s' (allcpus s) (<[t := th]> (threads s)) (wchans s) -> Inv [t] s'.
Proof. intros HI Ht Hth Hs'. eapply (Inv_looks (set_threads (<[t := th]> (threads s)) s)); [by apply Inv_new|done]. Qed.
Lemma newborn_not_current s t i c : Inv [] s -> threads s !! t = None -> allcpus s !! i = Some c -> c_curthread c <> t.
Proof. intros HI Ht Hi E0. destruct (ci_current _ _ _ (inv_cpu _ s HI i c Hi)) as (th & Hth & _). congruence. Qed.
(** [thread_fork] gives up: the new thread is destroyed, and all is as before. *)
Lemma fork_fails me s s' c t th : Inv [] s -> threads s !! t = None -> allcpus s !! me = Some c -> thread_inv (length (allcpus s)) th ->
  t_state th = S_READY -> t_proc th = None -> looks s' (allcpus s) (<[t := th]> (threads s)) (wchans s) ->
  wp (thread_destroy me t) (fun _ s2 => looks s2 (allcpus s) (threads s) (wchans s)) s'.
Proof.
  intros HI Ht Hme Hth Hst Hp Hs'. assert (HI' := Inv_newborn s s' t th HI Ht Hth Hs'). destruct Hs' as (E1 & E2 & E3).
  eapply wp_mono; [|eapply (destroy_spec me s' [] t th c)]; [|done|by rewrite E2, lookup_insert_eq|by rewrite E1| |congruence|done].
  - cbv beta. intros _ s2 (_ & F1 & F2 & F3). split_and!; [congruence| |congruence]. rewrite F2, E2, delete_insert_eq. by apply delete_id.
  - intros i d. rewrite E1. by apply newborn_not_current.
Qed.
Definition forked (me : nat) (p : Z) : thread := TheThread (Some "NEW") S_READY (Some (replicate 4 THREAD_STACK_MAGIC)) (Some me) (Some p) false.
(** The new thread is at the end of the caller's run queue; an error leaves everything as it was. *)
Lemma fork_adds_thread me s c proc p0 : Inv [] s -> allcpus s !! me = Some c -> pc c = Running ->
  at_ (threads s) (fun th => t_proc th = Some p0) (c_curthread c) ->
  wp (thread_fork me proc) (fun r s' => Inv [] s' /\ frame me kept s s' /\
    if decide (r = 0) then exists t c', threads s !! t = None /\ threads s' !! t = Some (forked me (default p0 proc)) /\
      allcpus s' !! me = Some c' /\ c_runqueue c' = c_runqueue c ++ [t]
    else looks s' (allcpus s) (threads s) (wchans s)) s.
Proof.
  intros HI Hme Hpc (cth & Hcur & Hproc). assert (Hlt := lookup_lt_Some _ _ _ Hme).
  assert (Hcc : t_cpu cth = Some me) by (destruct (ci_current _ _ _ (inv_cpu _ s HI me c Hme)) as (? & ? & ? & _); congruence).
  assert (Hfail : forall s' r, looks s' (allcpus s) (threads s) (wchans s) -> r <> 0 -> Inv [] s' /\ frame me kept s s' /\
    if decide (r = 0) then exists t c', threads s !! t = None /\ threads s' !! t = Some (forked me (default p0 proc)) /\
      allcpus s' !! me = Some c' /\ c_runqueue c' = c_runqueue c ++ [t]
    else looks s' (allcpus s) (threads s) (wchans s)).
  { intros s' r Hl Hr. rewrite decide_False by done. split; [by eapply Inv_looks|]. split; [|done]. destruct Hl as (? & ? & Hw). by apply frame_nothing; [|rewrite Hw]. }
  unfold thread_fork. rewrite wp_bind. eapply wp_mono; [|by apply thread_create_spec]. cbv beta. intros [t|] s1 (E1 & E3 & E2).
  2: { rewrite wp_ret. by apply Hfail. }
  destruct E2 as [Hn E2]. assert (Hne : c_curthread c <> t) by by eapply newborn_not_current.
  rewrite wp_bind. apply wp_env; [apply kmalloc_returns|]. intros room w. destruct room; cbn [negb].
  2: { rewrite wp_bind. eapply wp_mono; [|apply (fork_fails me s _ c t (TheThread (Some "NEW") S_READY None None None false)); [done|done|done|by split; [left|]|done|done|by split_and!]].
       cbv beta. intros _ s2 Hs2. rewrite wp_ret. by apply Hfail. }
  rewrite wp_bind. eapply wp_on_thread; [proj; by rewrite E2, lookup_insert_eq|]. proj. rewrite wp_bind. eapply wp_curthread; [proj; by rewrite E1|].
  rewrite wp_bind. eapply wp_get_thread; [proj; rewrite E2, !lookup_insert_ne; done|].
  rewrite wp_bind. eapply wp_on_thread; [proj; by rewrite lookup_insert_eq|]. proj. rewrite Hproc, Hcc.
  assert (Hp : (match proc with Some p => Some p | None => Some p0 end) = Some (default p0 proc)) by by destruct proc. rewrite Hp. wp_simpl.
  apply wp_env; [apply addthread_returns|]. intros r w1. proj. rewrite E2, !insert_insert_eq. fold (forked me (default p0 proc)).
  assert (Hinv : forall st pr, thread_inv (length (allcpus s)) (TheThread (Some "NEW") st (Some (replicate 4 THREAD_STACK_MAGIC)) (Some me) pr false)).
  { intros st pr. split; [by right|]. by intros j [= <-]. }
  destruct (Z.eqb_spec r 0) as [->|Hr]; cbn [negb].
  2: { rewrite wp_bind. eapply wp_mono; [|eapply (fork_fails me s _ c t); [done|done|done| | | |split_and!; [done|done|done]]; [apply Hinv|done|done]].
    cbv beta. intros _ s2 Hs2. rewrite wp_ret. by apply Hfail. }
  rewrite wp_bind. eapply wp_on_thread; [proj; by rewrite lookup_insert_eq|]. proj. rewrite insert_insert_eq. wp_simpl.
  apply wp_env; [apply file_table_copy_returns|]. intros _ w2. proj. rewrite wp_bind. set (s2 := System _ _ _ _).
  assert (HI2 : Inv [t] s2). { eapply (Inv_newborn s s2 t (forked me (default p0 proc))); [done|done|apply Hinv|split_and!; done]. }
  eapply wp_mono; [|eapply (make_runnable_eq me s2 t (forked me (default p0 proc)) me c); [by apply lookup_insert_eq|done|by cbn; rewrite E1]].
  cbv beta. intros _ s3 Hs3. rewrite wp_ret. destruct Hs3 as (F1 & F2 & F3). cbn [s2 allcpus wchans] in F1, F3. split_and!.
  - eapply (Inv_woken me s2 s3 [] t _ me c); [done|by apply lookup_insert_eq|done|by cbn; rewrite E1|by rewrite Hpc|split_and!; done].
  - eapply (frame_one me s s3 me c); [done|by rewrite F1, E1|apply woken_grown| |by rewrite F3, E3]. by destruct (woken_same me me t c) as (_ & _ & _ & ? & _).
  - exists t, (woken me me t c). split_and!; [done|by rewrite F2, lookup_insert_eq|by rewrite F1, E1, list_lookup_insert_eq|].
    by destruct (woken_same me me t c) as (_ & _ & _ & _ & ?).
Qed.

(** The running thread leaves: the CPU is as before, or takes the next thread of its queue. *)
Definition leaves (newstate : threadstate_t) (c c' : cpu) : Prop := c' = if stays newstate c then c else taken (left_cpu newstate c).
Lemma left_wchans_length newstate wc t l : length (left_wchans newstate wc t l) = length l.
Proof. destruct newstate, wc as [w|]; try done. cbn. destruct (l !! w); [by rewrite length_insert|done]. Qed.
Lemma switch_frame me s c newstate wc : Inv [] s -> allcpus s !! me = Some c -> pc c = Running ->
  (c_isidle c = false -> may_leave newstate wc s c) ->
  wp (thread_switch me newstate wc) (fun back s' => Inv [] s' /\ frame me (leaves newstate) s s' /\ back = stays newstate c) s.
Proof.
  intros HI Hme Hpc Hmay. eapply wp_mono; [|by eapply (thread_switch_spec me s c newstate wc)]. cbv beta. unfold leaves.
  intros back s' (HI' & -> & Hs'). split; [done|]. split; [|done]. destruct (stays newstate c) eqn:Es.
  - subst s'. apply frame_refl. intros d Hd. assert (d = c) as -> by congruence. by rewrite Es.
  - destruct Hs' as (E1 & E2). eapply (frame_self me _ s s' c); [done|exact E1|by rewrite Es|]. by rewrite E2, left_wchans_length.
Qed.
Lemma thread_yield_spec me s c : Inv [] s -> allcpus s !! me = Some c -> pc c = Running ->
  wp (thread_yield me) (fun _ s' => Inv [] s' /\ frame me (leaves S_READY) s s') s.
Proof.
  intros HI Hme Hpc. unfold thread_yield. rewrite wp_bind. eapply wp_mono; [|by eapply (switch_frame me s c S_READY None)].
  cbv beta. intros back s' (HI' & Hf & _). by rewrite wp_ret.
Qed.
Lemma wchan_sleep_spec me s c w wc : Inv [] s -> allcpus s !! me = Some c -> pc c = Running -> wchans s !! w = Some wc ->
  at_ (threads s) (fun th => t_in_interrupt th = false) (c_curthread c) ->
  wp (wchan_sleep me w) (fun _ s' => Inv [] s' /\ frame me (leaves S_SLEEP) s s') s.
Proof.
  intros HI Hme Hpc Hw (th & Ht & Hint). unfold wchan_sleep. rewrite wp_bind. eapply wp_curthread; [exact Hme|].
  rewrite wp_bind. eapply wp_get_thread; [exact Ht|]. rewrite wp_bind, wp_KASSERT, Hint. split; [done|].
  rewrite wp_bind. eapply wp_mono; [|eapply (switch_frame me s c S_SLEEP (Some w)); [done..|by exists w, wc]].
  cbv beta. intros back s' (HI' & Hf & _). by rewrite wp_ret.
Qed.
(** [thread_exit] does not return to its caller: another thread runs, or none. *)
Lemma thread_exit_spec me s c : Inv [] s -> allcpus s !! me = Some c -> pc c = Running -> c_isidle c = false ->
  wp (thread_exit me) (fun _ s' => Inv [] s' /\ frame me (leaves S_ZOMBIE) s s') s.
Proof.
  intros HI Hme Hpc Hidle. destruct (ci_current _ _ _ (inv_cpu _ s HI me c Hme)) as (th & Ht & Hcpu & Hst). specialize (Hst Hidle).
  set (P := fun (_ : ()) s1 => Inv [] s1 /\ allcpus s1 = allcpus s /\ wchans s1 = wchans s /\ at_ (threads s1) (fun th => t_proc th = None) (c_curthread c)).
  unfold thread_exit. rewrite wp_bind. eapply wp_curthread; [exact Hme|]. rewrite wp_bind. eapply wp_get_thread; [exact Ht|].
  rewrite wp_bind. apply (wp_mono _ P); unfold P; clear P.
  - intros _ s1 (HI1 & E1 & E2 & th1 & Ht1 & Hp1). rewrite wp_bind. eapply wp_get_thread; [exact Ht1|].
    rewrite wp_bind, wp_KASSERT. split; [by apply bool_decide_eq_true|]. rewrite wp_bind. eapply wp_mono; [|by eapply checkstack_spec].
    cbv beta. intros _ ? ->. rewrite wp_bind. eapply wp_mono; [|eapply (switch_frame me s1 c S_ZOMBIE None); [done|by rewrite E1|done|by exists th1]].
    cbv beta. intros back s' (HI' & [F1 F2 F3 F4] & ->). unfold stays. rewrite Hidle. cbn. split; [done|]. rewrite E1, E2 in *. done.
  - destruct (t_proc th) eqn:Hp.
    + rewrite wp_bind. apply wp_env; [apply remthread_returns|]. intros _ w. eapply wp_on_thread; [exact Ht|]. proj.
      split_and!; [|done|done|eexists; by rewrite lookup_insert_eq].
      eapply (Inv_running (System (allcpus s) (threads s) (wchans s) w) me c th); [by apply Inv_world|done..| |done|done].
      destruct (inv_thread _ s HI _ th Ht) as [? ?]. by split.
    + rewrite wp_ret. split_and!; [done|done|done|by exists th].
Qed.

(** ** Waking and interrupts *)

Lemma placed_cpu s hand t th : Inv hand s -> threads s !! t = Some th -> t ∉ hand -> exists j, t_cpu th = Some j.
Proof. intros HI. by eapply inv_placed. Qed.
Lemma wchan_create_spec me s name : Inv [] s -> wp (wchan_create name) (fun _ s' => Inv [] s' /\ frame me kept s s') s.
Proof.
  intros HI. unfold wchan_create. rewrite wp_bind. apply wp_env; [apply kmalloc_returns|]. intros room w. destruct room; cbn [negb].
  2: { rewrite wp_ret. split; [by apply Inv_world|by apply frame_nothing]. }
  wp_simpl. proj. split; [|by apply frame_nothing; [|cbn; rewrite length_app; lia]]. destruct HI as [H1 H2 H3 H4 H5]. split; proj; try done.
  - intros t. rewrite total_app, <-H1. cbn. lia.
  - intros v wc Hv. apply lookup_app_Some in Hv as [Hv|[_ Hv]]; [by eapply H3|]. by apply list_lookup_singleton_Some in Hv as [_ <-].
Qed.
Lemma wchan_wakeone_spec me s c w wc : Inv [] s -> allcpus s !! me = Some c -> pc c = Running -> wchans s !! w = Some wc ->
  wp (wchan_wakeone me w) (fun _ s' => Inv [] s' /\ frame me kept s s') s.
Proof.
  intros HI Hme Hpc Hw. unfold wchan_wakeone. rewrite wp_bind. eapply wp_get_wchan; [exact Hw|].
  destruct (wc_threads wc) as [|t l] eqn:El; [rewrite wp_ret; split; [done|by apply frame_nothing]|].
  assert (Hf := inv_wchan _ _ HI w wc Hw). rewrite El in Hf. apply Forall_cons in Hf as [(th & Ht & Hth) Hl].
  destruct (placed_cpu s [] t th HI Ht (not_elem_of_nil t)) as [j Hj].
  set (s1 := set_wchans (<[w := Wchan (wc_name wc) l]> (wchans s)) s). wp_simpl. change (wp (thread_make_runnable me t) (fun _ s' => Inv [] s' /\ frame me kept s s') s1). eapply wp_mono; [|apply (make_runnable_frame me s1 [] t th)].
  - cbv beta. intros _ s' [HI' [F1 F2 F3 F4]]. split; [done|]. cbn [s1 set_wchans allcpus wchans] in *. rewrite length_insert in F2. done.
  - eapply (Inv_wchan s [] [t] w wc); [done|done| |done|by intros ? ? _ ?%elem_of_nil].
    intros x. unfold occ_wchan. cbn [wc_threads]. rewrite El, !occ_cons, occ_nil. lia.
  - done.
  - by exists j.
  - intros d Hd. assert (d = c) as -> by (cbn in Hd; congruence). by rewrite Hpc.
Qed.
(** The list of [wchan_wakeall] holds the threads that were asleep on the channel. *)
Definition waking (l : list Z) (c c' : cpu) : Prop := grown c c' /\ pc c' = Waking l.
Lemma wchan_wakeall_spec me s c w wc : Inv [] s -> allcpus s !! me = Some c -> pc c = Running -> wchans s !! w = Some wc ->
  wp (wchan_wakeall me w) (fun _ s' => Inv [] s' /\ frame me (waking (wc_threads wc)) s s') s.
Proof.
  intros HI Hme Hpc Hw. unfold wchan_wakeall. rewrite wp_bind. eapply wp_get_wchan; [exact Hw|]. wp_simpl. eapply wp_on_cpu; [exact Hme|]. proj.
  set (s1 := set_wchans (<[w := Wchan (wc_name wc) []]> (wchans s)) s).
  assert (HI1 : Inv (wc_threads wc) s1).
  { eapply (Inv_wchan s [] _ w wc); [done|done| |done|by intros ? ? _ ?%elem_of_nil]. intros x. unfold occ_wchan. cbn [wc_threads]. rewrite occ_nil. lia. }
  split.
  - eapply (Inv_cpu s1 (wc_threads wc) [] me c); [done|done| | |].
    + intros x. unfold occ_cpu. fields. rewrite Hpc, occ_nil. cbn [private]. rewrite occ_nil. lia.
    + destruct (inv_cpu _ _ HI me c Hme) as [G1 G2 G3 G4 G5 G6]. split; try done. fields. by eapply (inv_wchan _ _ HI).
    + intros t th Ht Hin. right. by eapply (placed_cpu s []); [|exact Ht|apply not_elem_of_nil].
  - eapply (frame_self me _ s _ c); [done|done|by split|]. cbn [s1 set_wchans wchans set_cpus]. by rewrite length_insert.
Qed.
(** A new word in [c_ipi_pending]. *)
Lemma Inv_pending s hand i c n : Inv hand s -> allcpus s !! i = Some c -> (pc c = Halted -> Z.testbit (c_ipi_pending c) IPI_UNIDLE = true -> Z.testbit n IPI_UNIDLE = true) ->
  Inv hand (set_cpus (<[i := set_ipi_pending n c]> (allcpus s)) s).
Proof.
  intros HI Hc Hn. eapply (Inv_cpu s hand hand i c); [done|done|done| |by intros; left].
  destruct (inv_cpu _ _ HI i c Hc) as [G1 G2 G3 G4 G5 G6]. split; try done. fields. intros Hp. destruct (G6 Hp) as [G7 G8]. split; [done|]. eauto.
Qed.
Lemma ipi_send_inv me s i c code : Inv [] s -> allcpus s !! i = Some c -> 0 <= code < 32 ->
  wp (ipi_send i code) (fun _ s' => Inv [] s' /\ frame me kept s s') s.
Proof.
  intros HI Hi Hcode. eapply wp_mono; [|by eapply ipi_send_spec]. cbv beta. intros _ s' Hs'. split.
  - eapply Inv_looks; [eapply (Inv_pending s [] i c _ HI Hi)|split_and!; [apply Hs'|apply Hs'|apply Hs']]. intros _ Hb. by apply other_bit; [lia|].
  - destruct Hs' as (E1 & E2 & E3). by eapply (frame_one me s s' i c); [..|rewrite E3].
Qed.
Lemma broadcast_spec me code n : 0 <= code < 32 -> forall i s, Inv [] s -> (i + n = length (allcpus s))%nat ->
  wp (broadcast_loop me n i code) (fun _ s' => Inv [] s' /\ frame me kept s s') s.
Proof.
  intros Hcode. induction n as [|n IH]; intros i s HI Hi; cbn [broadcast_loop]; [rewrite wp_ret; split; [done|by apply frame_nothing]|].
  rewrite wp_bind. apply (wp_mono _ (fun _ s' => Inv [] s' /\ frame me kept s s')).
  - intros _ s1 [HI1 Hf1]. eapply wp_mono; [|apply IH; [done|rewrite (fr_cpus _ _ _ _ Hf1); lia]]. cbv beta.
    intros _ s2 [HI2 Hf2]. split; [done|]. by eapply frame_trans; [apply kept_trans| |].
  - case_decide; [rewrite wp_ret; split; [done|by apply frame_nothing]|].
    destruct (lookup_lt_is_Some_2 (allcpus s) i ltac:(lia)) as [c Hc]. by eapply ipi_send_inv.
Qed.
Lemma thread_shutdown_spec me s : Inv [] s -> wp (thread_shutdown me) (fun _ s' => Inv [] s' /\ frame me kept s s') s.
Proof. intros HI. unfold thread_shutdown, ipi_broadcast. wp_simpl. by apply broadcast_spec. Qed.
Definition handled (c c' : cpu) : Prop :=
  let bits := c_ipi_pending c in
  c' = if Z.testbit bits IPI_PANIC || Z.testbit bits IPI_OFFLINE then set_pc Off c
       else set_ipi_pending 0 (if Z.testbit bits IPI_TLBSHOOTDOWN then set_shootdown [] c else c).
(** The CPU's own change that leaves every thread where it is. *)
Lemma Inv_self s me c c' : Inv [] s -> allcpus s !! me = Some c -> (forall t, occ_cpu t c' = occ_cpu t c) -> cpu_inv (threads s) me c' ->
  Inv [] (set_cpus (<[me := c']> (allcpus s)) s).
Proof. intros HI Hc Ho Hci. eapply (Inv_cpu s [] [] me c); [done|done| |done|by intros ? ? _ ?%elem_of_nil]. intros t. by rewrite Ho. Qed.
Lemma shootdown_loop_spec l : forall s, wp (shootdown_loop l) (fun _ s' => looks s' (allcpus s) (threads s) (wchans s)) s.
Proof.
  induction l as [|m l IH]; intros s; cbn [shootdown_loop]; [done|]. rewrite wp_bind. apply wp_env; [apply tlbshootdown_returns|]. intros _ w. apply (IH (System (allcpus s) (threads s) (wchans s) w)).
Qed.
Lemma interprocessor_interrupt_spec me s c : Inv [] s -> allcpus s !! me = Some c -> pc c = Running ->
  wp (interprocessor_interrupt me) (fun _ s' => Inv [] s' /\ frame me handled s s') s.
Proof.
  intros HI Hme Hpc. assert (Hlt := lookup_lt_Some _ _ _ Hme). unfold interprocessor_interrupt. rewrite wp_bind. eapply wp_get_cpu; [exact Hme|]. cbv zeta.
  destruct (inv_cpu _ _ HI me c Hme) as [G1 G2 G3 G4 G5 G6].
  assert (Hocc : forall t c', c_isidle c' = c_isidle c -> c_curthread c' = c_curthread c -> c_runqueue c' = c_runqueue c -> c_zombies c' = c_zombies c ->
    pc c' = pc c \/ pc c' = Off -> occ_cpu t c' = occ_cpu t c).
  { intros t c' E0 E1 E2 E3 Hp. unfold occ_cpu. rewrite E0, E1, E2, E3, Hpc in *. by destruct Hp as [-> | ->]. }
  assert (Hoff : Z.testbit (c_ipi_pending c) IPI_PANIC || Z.testbit (c_ipi_pending c) IPI_OFFLINE = true ->
    wp (on_cpu me (set_pc Off)) (fun _ s' => Inv [] s' /\ frame me handled s s') s).
  { intros Hb. eapply wp_on_cpu; [exact Hme|]. split; [|eapply (frame_self me _ s _ c); [done|done|unfold handled; by rewrite Hb|done]].
    eapply Inv_self; [done|done|intros t; apply Hocc; try done; by right|]. by split. }
  destruct (Z.testbit _ IPI_PANIC) eqn:Hb0; [by apply Hoff|]. destruct (Z.testbit _ IPI_OFFLINE) eqn:Hb1; [by apply Hoff|].
  set (c1 := if Z.testbit (c_ipi_pending c) IPI_TLBSHOOTDOWN then set_shootdown [] c else c).
  rewrite wp_bind. apply (wp_mono _ (fun _ s1 => looks s1 (<[me := c1]> (allcpus s)) (threads s) (wchans s))).
  - intros _ s1 (E1 & E2 & E3). eapply wp_on_cpu; [rewrite E1; by apply list_lookup_insert_eq|]. proj. rewrite E1, list_insert_insert_eq.
    split; [eapply (Inv_looks (set_cpus (<[me := set_ipi_pending 0 c1]> (allcpus s)) s)); [|by split_and!]|].
    + eapply Inv_self; [done|done| |].
      * intros t. apply Hocc; unfold c1; try (by destruct (Z.testbit _ IPI_TLBSHOOTDOWN)). left. by destruct (Z.testbit _ IPI_TLBSHOOTDOWN).
      * unfold c1. destruct (Z.testbit _ IPI_TLBSHOOTDOWN); split; fields; try done; by rewrite Hpc.
    + eapply (frame_self me _ s _ c); [done|done|unfold handled; by rewrite Hb0, Hb1|]. by rewrite <-E3.
  - unfold c1. destruct (Z.testbit _ IPI_TLBSHOOTDOWN); [|rewrite wp_ret; by rewrite list_insert_id].
    rewrite wp_bind. eapply wp_mono; [|apply shootdown_loop_spec]. cbv beta. intros _ s1 (E1 & E2 & E3).
    eapply wp_on_cpu; [by rewrite E1|]. split_and!; [proj; by rewrite E1|done|done].
Qed.
Lemma ipi_tlbshootdown_spec me s i c m : Inv [] s -> allcpus s !! i = Some c -> (length (c_shootdown c) < 16)%nat ->
  wp (ipi_tlbshootdown i m) (fun _ s' => Inv [] s' /\ frame me kept s s') s.
Proof.
  intros HI Hi Hlen. assert (Hlt := lookup_lt_Some _ _ _ Hi). unfold ipi_tlbshootdown. rewrite wp_bind. eapply wp_get_cpu; [exact Hi|].
  destruct (Z.eqb_spec (Z.of_nat (length (c_shootdown c))) TLBSHOOTDOWN_MAX) as [Heq|_]; [unfold TLBSHOOTDOWN_MAX in Heq; lia|].
  rewrite wp_bind. eapply wp_on_cpu; [exact Hi|]. rewrite wp_bind. eapply wp_on_cpu; [by apply list_lookup_insert_eq|].
  apply wp_env; [apply send_ipi_returns|]. intros _ w. set (c' := set_ipi_pending _ _). proj. rewrite list_insert_insert_eq. split.
  - eapply (Inv_looks (set_cpus (<[i := c']> (allcpus s)) s)); [|done]. eapply Inv_self; [done|done|done|].
    destruct (inv_cpu _ _ HI i c Hi) as [G1 G2 G3 G4 G5 G6]. split; try done. unfold c'. fields. intros Hp. destruct (G6 Hp) as [G7 G8].
    split; [done|]. intros Hq. apply other_bit; [done|by apply G8].
  - by eapply (frame_one me s _ i c).
Qed.

(** ** Migration *)

(** How many steps a migration has left, at most, with [n] CPUs. *)
Definition stages (n : nat) (p : place) : nat :=
  match p with
  | Counting i _ _ => (n - i) + n + 6
  | Choosing _ _ => n + 5
  | Sending i _ _ _ => (n - i) + 4
  | Restoring _ => 2
  | Ticking => 1
  | _ => 0
  end.
(** A step of a migration: the CPU goes on with the next stage. *)
Definition migrates (n : nat) (c c' : cpu) : Prop :=
  c_curthread c' = c_curthread c /\ c_isidle c' = c_isidle c /\ c_hardclocks c' = c_hardclocks c /\ (stages n (pc c') < stages n (pc c))%nat.
Lemma Inv_stage s me c p : Inv [] s -> allcpus s !! me = Some c -> private (pc c) = [] -> private p = [] -> p <> Halted ->
  match p with Choosing n _ => (n <= length (c_runqueue c))%nat | Counting k my _ => if decide (k <= me)%nat then my = 0 else my <= Z.of_nat (length (c_runqueue c))
  | Sending _ n _ _ => n = O | _ => True end ->
  Inv [] (set_cpus (<[me := set_pc p c]> (allcpus s)) s).
Proof.
  intros HI Hme Hp Hp' Hh Hcount. eapply Inv_self; [done|done| |].
  - intros t. unfold occ_cpu. fields. by rewrite Hp, Hp'.
  - destruct (inv_cpu _ _ HI me c Hme) as [G1 G2 G3 G4 G5 G6]. split; fields; try done; [by rewrite Hp'|]. destruct p; try done. lia.
Qed.
Lemma count_one_spec me s c i my total : Inv [] s -> allcpus s !! me = Some c -> pc c = Counting i my total ->
  wp (count_one me i my total) (fun _ s' => Inv [] s' /\ frame me (migrates (length (allcpus s))) s s') s.
Proof.
  intros HI Hme Hpc. assert (Hlt := lookup_lt_Some _ _ _ Hme). assert (Hmy := ci_counts _ _ _ (inv_cpu _ _ HI me c Hme)). rewrite Hpc in Hmy.
  unfold count_one. wp_simpl. destruct (allcpus s !! i) as [d|] eqn:Hi.
  - assert (Hil := lookup_lt_Some _ _ _ Hi). eapply wp_on_cpu; [exact Hme|]. split.
    + eapply Inv_stage; [done|done|by rewrite Hpc|done|done|]. destruct (decide (i = me)) as [->|Hne].
      * assert (d = c) as -> by congruence. rewrite decide_False by lia. lia.
      * repeat case_decide; first [done|lia].
    + eapply frame_self; [done|done| |done]. unfold migrates. fields. rewrite Hpc. cbn [stages]. split_and!; [done|done|done|lia].
  - apply lookup_ge_None in Hi. rewrite decide_False in Hmy by lia. set (share := DIVROUNDUP _ _).
    assert (0 <= share). { unfold share, DIVROUNDUP. apply Z.div_pos; [apply u32_range|lia]. }
    eapply wp_on_cpu; [exact Hme|]. split.
    + destruct (Z.ltb_spec my share); (eapply Inv_stage; [done|done|by rewrite Hpc|done|done|]); [done|lia].
    + eapply frame_self; [done|done| |done]. unfold migrates. fields. rewrite Hpc. split_and!; [done|done|done|]. destruct (my <? share); cbn [stages]; lia.
Qed.
Lemma choose_loop_eq n : forall queue victims, (n <= length queue)%nat ->
  choose_loop n queue victims = Some (take (length queue - n) queue, drop (length queue - n) queue ++ victims).
Proof.
  induction n as [|n IH]; intros queue victims Hn; cbn [choose_loop].
  { by rewrite Nat.sub_0_r, firstn_all, drop_all. }
  destruct queue as [|x queue' _] using rev_ind; [cbn in Hn; lia|]. rewrite last_snoc, removelast_last, length_app in *. cbn [length] in *. rewrite IH by lia.
  replace (length queue' + 1 - S n)%nat with (length queue' - n)%nat by lia.
  rewrite take_app_le, drop_app_le, <-(assoc_L (++)) by lia. done.
Qed.
Lemma choose_spec me s c n share : Inv [] s -> allcpus s !! me = Some c -> pc c = Choosing n share ->
  wp (choose me n share) (fun _ s' => Inv [] s' /\ frame me (migrates (length (allcpus s))) s s') s.
Proof.
  intros HI Hme Hpc. destruct (inv_cpu _ _ HI me c Hme) as [G1 G2 G3 G4 G5 G6]. rewrite Hpc in G5. unfold choose. rewrite wp_bind. eapply wp_get_cpu; [exact Hme|].
  rewrite choose_loop_eq by done. wp_simpl. apply wp_put_cpu. rewrite app_nil_r. set (k := (length (c_runqueue c) - n)%nat). split.
  - eapply Inv_self; [done|done| |].
    + intros t. unfold occ_cpu. fields. rewrite Hpc. cbn [private].
      assert (Hq := occ_app t (take k (c_runqueue c)) (drop k (c_runqueue c))). rewrite take_drop in Hq. cbn [fst snd]. rewrite occ_nil. lia.
    + rewrite <-(take_drop k (c_runqueue c)) in G2. apply Forall_app in G2 as [G2a G2b]. split; fields; cbn [fst snd]; try done. rewrite length_drop. unfold k. lia.
  - eapply frame_self; [done|done| |done]. unfold migrates. fields. rewrite Hpc. cbn [stages]. split_and!; [done|done|done|lia].
Qed.
Lemma restore_spec me s c l : Inv [] s -> allcpus s !! me = Some c -> pc c = Restoring l ->
  wp (restore me l) (fun _ s' => Inv [] s' /\ frame me (migrates (length (allcpus s))) s s') s.
Proof.
  intros HI Hme Hpc. destruct (inv_cpu _ _ HI me c Hme) as [G1 G2 G3 G4 G5 G6]. rewrite Hpc in *. unfold restore. eapply wp_on_cpu; [exact Hme|]. split.
  - eapply Inv_self; [done|done| |].
    + intros t. unfold occ_cpu. fields. rewrite Hpc. cbn [private]. rewrite occ_app, occ_nil. lia.
    + split; fields; try done. by apply Forall_app.
  - eapply frame_self; [done|done| |done]. unfold migrates. fields. rewrite Hpc. cbn [stages]. split_and!; [done|done|done|lia].
Qed.
(** A thread moves from the private list of [me] to the queue of [i]. *)
Lemma Inv_sent s me c i d t th n share victims : Inv [] s -> allcpus s !! me = Some c -> pc c = Sending i (S n) share (t :: victims) -> i <> me ->
  allcpus s !! i = Some d -> t <> c_curthread c -> threads s !! t = Some th ->
  Inv [] (System (<[i := woken me i t d]> (<[me := set_pc (Sending i n share victims) c]> (allcpus s)))
            (<[t := set_t_cpu (Some i) th]> (threads s)) (wchans s) (world s)).
Proof.
  intros HI Hme Hpc Hi Hd Ht Hth. set (c1 := set_pc (Sending i n share victims) c).
  assert (Hlt := lookup_lt_Some _ _ _ Hme). assert (Hlt' := lookup_lt_Some _ _ _ Hd).
  destruct (inv_cpu _ _ HI me c Hme) as [G1 G2 G3 G4 G5 G6]. rewrite Hpc in *. cbn [private length] in *. apply Forall_cons in G4 as [(th0 & E0 & Hst & Hcpu) G4].
  assert (th0 = th) as -> by congruence.
  assert (HI1 : Inv [t] (set_cpus (<[me := c1]> (allcpus s)) s)).
  { eapply (Inv_cpu s [] [t] me c); [done|done| | |by intros ? ? _ ?%elem_of_nil].
    - intros x. unfold occ_cpu, c1. fields. rewrite Hpc. cbn [private]. rewrite !occ_cons, occ_nil. lia.
    - split; unfold c1; fields; try done. lia. }
  set (s1 := set_cpus _ _) in HI1. set (th' := set_t_cpu (Some i) th).
  assert (HI2 : Inv [t] (set_threads (<[t := th']> (threads s1)) s1)).
  { eapply Inv_hand_thread; [done|exact Hth|left| |].
    - destruct (inv_thread _ _ HI t th Hth) as [H1 H2]. split; [done|]. intros j [= <-]. cbn [s1 set_cpus allcpus]. by rewrite length_insert.
    - intros j e He Ecur. exfalso. destruct (ci_current _ _ _ (inv_cpu _ _ HI1 j e He)) as (th0 & F1 & F2 & _). rewrite Ecur in F1. cbn [s1 set_cpus threads allcpus] in *.
      assert (j = me) as -> by congruence. rewrite list_lookup_insert_eq in He by done. injection He as <-. by apply Ht. }
  set (s2 := set_threads _ _) in HI2. assert (Hd2 : allcpus s2 !! i = Some d) by (cbn; by rewrite list_lookup_insert_ne).
  destruct (woken_same me i t d) as (F1 & F2 & F3 & F4 & F5). assert (Hci := inv_cpu _ _ HI2 i d Hd2).
  eapply (Inv_looks (set_cpus (<[i := woken me i t d]> (allcpus s2)) s2)); [|by split_and!].
  eapply (Inv_cpu s2 [t] [] i d); [done|done| | |].
  - intros x. rewrite (occ_cpu_queue x d _ t), !occ_cons, occ_nil by done. lia.
  - eapply (cpu_inv_queue _ i d _ t th'); [done|by apply lookup_insert_eq|by split|done..|].
    intros Hp. destruct (ci_halted _ _ _ Hci Hp) as [Hidle _]. unfold woken. rewrite Hidle, bool_decide_false by done. apply unidle_bit.
  - intros x y Hx ->%list_elem_of_singleton. right. exists i. cbn in Hx. rewrite lookup_insert_eq in Hx. by injection Hx as <-.
Qed.
(** What the inner loop did: [sent] to the CPU [i], with [left] still to go and [rest] in the hands of [me]. *)
Record sent_to (me i : nat) (share : Z) (n left : nat) (c d : cpu) (sent rest victims : list Z) (s s' : system W) : Prop := {
  st_cpus : length (allcpus s') = length (allcpus s);
  st_me : allcpus s' !! me = Some (set_pc (Sending i left share rest) c);
  st_target : exists d', allcpus s' !! i = Some d' /\ kept d d' /\ c_runqueue d' = c_runqueue d ++ sent /\
    (sent = [] \/ Z.of_nat (length (c_runqueue d')) <= share) /\ (left = O \/ share <= Z.of_nat (length (c_runqueue d')));
  st_others : forall j, j <> me -> j <> i -> allcpus s' !! j = allcpus s !! j;
  st_wchans : wchans s' = wchans s;
  st_threads : Permutation (sent ++ rest) victims;
  st_cpu : Forall (at_ (threads s') (ready i)) sent;
  st_current : c_curthread c ∉ sent;
  st_left : (left <= n)%nat }.
Lemma send_loop_spec me i share : i <> me -> forall n s c d victims, Inv [] s -> allcpus s !! me = Some c -> pc c = Sending i n share victims -> allcpus s !! i = Some d ->
  wp (send_loop me n i share) (fun left s' => Inv [] s' /\ exists sent rest, sent_to me i share n left c d sent rest victims s s') s.
Proof.
  intros Hi n. induction n as [|n IH]; intros s c d victims HI Hme Hpc Hd; cbn [send_loop].
  { rewrite wp_ret. split; [done|]. exists [], victims. split; try done; [|by exists d; rewrite app_nil_r; split_and!; [done|done|done|left|left]|by apply not_elem_of_nil].
    rewrite Hme. f_equal. destruct c; cbn in *. by subst. }
  assert (Hlt := lookup_lt_Some _ _ _ Hme). assert (Hlt' := lookup_lt_Some _ _ _ Hd).
  rewrite wp_bind. eapply wp_get_cpu; [exact Hd|]. destruct (Z.ltb_spec (Z.of_nat (length (c_runqueue d))) share) as [Hshare|Hshare]; cbn [negb].
  2: { rewrite wp_ret. split; [done|]. exists [], victims. split; try done; [|by exists d; rewrite app_nil_r; split_and!; [done|done|done|left|right]|by apply not_elem_of_nil].
    rewrite Hme. f_equal. destruct c; cbn in *. by subst. }
  rewrite wp_bind. eapply wp_get_cpu; [exact Hme|]. assert (Hn := ci_counts _ _ _ (inv_cpu _ _ HI me c Hme)). rewrite Hpc in *. cbn [private].
  destruct victims as [|t victims]; [cbn in Hn; lia|].
  destruct (Z.eqb_spec t (c_curthread c)) as [Hcur|Hcur].
  - rewrite wp_bind. eapply wp_on_cpu; [exact Hme|]. set (c1 := set_pc _ c). set (s1 := set_cpus _ s).
    assert (HI1 : Inv [] s1).
    { destruct (inv_cpu _ _ HI me c Hme) as [G1 G2 G3 G4 G5 G6]. rewrite Hpc in *. cbn [private] in *. eapply Inv_self; [done|done| |].
      - intros x. unfold occ_cpu, c1. fields. rewrite Hpc. cbn [private]. rewrite occ_app, !occ_cons, occ_nil. lia.
      - apply Forall_cons in G4 as [G4 G4']. split; unfold c1; fields; try done; [|rewrite length_app; cbn in *; lia]. apply Forall_app. split; [done|]. by apply Forall_singleton. }
    eapply wp_mono; [|eapply (IH s1 c1 d); [done|by apply list_lookup_insert_eq|done|cbn; by rewrite list_lookup_insert_ne]].
    cbv beta. intros left s' (HI' & sent & rest & [F1 F2 F3 F4 F5 F6 F7 F8 F9]). split; [done|]. exists sent, rest. split; try done.
    + rewrite F1. cbn. by rewrite length_insert.
    + intros j Hj Hji. rewrite F4 by done. cbn. by rewrite list_lookup_insert_ne.
    + rewrite F6. by rewrite Permutation_app_comm.
    + lia.
  - destruct (inv_cpu _ _ HI me c Hme) as [G1 G2 G3 G4 G5 G6]. rewrite Hpc in G4. cbn [private] in G4. apply Forall_cons in G4 as [(th & Hth & Hrd) G4].
    rewrite wp_bind. eapply wp_on_cpu; [exact Hme|]. rewrite wp_bind. eapply wp_on_thread; [exact Hth|]. proj.
    rewrite wp_bind. eapply wp_on_cpu; [proj; by rewrite list_lookup_insert_ne|]. proj.
    rewrite wp_bind. set (c1 := set_pc _ c). set (th1 := set_t_cpu _ th).
    assert (HI1 := Inv_sent s me c i d t th n share victims HI Hme Hpc Hi Hd Hcur Hth).
    destruct (woken_same me i t d) as (_ & _ & _ & W4 & W5). assert (Wk : kept d (woken me i t d)) by (split; [apply woken_grown|done]). set (d1 := woken me i t d) in *.
    apply (wp_mono _ (fun _ s1 => looks s1 (<[i := d1]> (<[me := c1]> (allcpus s))) (<[t := th1]> (threads s)) (wchans s))).
    + intros _ s1 Hs1. assert (HI1' : Inv [] s1) by (eapply Inv_looks; [exact HI1|exact Hs1]). destruct Hs1 as (E1 & E2 & E3).
      eapply wp_mono; [|eapply (IH s1 c1 d1 victims); [done|rewrite E1, list_lookup_insert_ne by done; by apply list_lookup_insert_eq|done|rewrite E1; apply list_lookup_insert_eq; by rewrite length_insert]].
      cbv beta. intros left s' (HI' & sent & rest & [F1 F2 (d' & D1 & D2 & D3 & D4 & D5) F4 F5 F6 F7 F8 F9]). split; [done|]. exists (t :: sent), rest.
      assert (Hq : c_runqueue d' = c_runqueue d ++ t :: sent) by by rewrite D3, W5, <-(assoc_L (++)).
      split; [by rewrite F1, E1, !length_insert|done| | |by rewrite F5| | | |lia].
      * exists d'. split_and!; [done|by apply (kept_trans d d1)|done| |done]. right. destruct D4 as [-> | ?]; [|done].
        rewrite Hq, length_app. cbn [length]. lia.
      * intros j Hj Hji. rewrite F4, E1 by done. by rewrite !list_lookup_insert_ne.
      * cbn [app]. by rewrite F6.
      * pose proof (ci_queue _ _ _ (inv_cpu _ _ HI' i d' D1)) as Hqd. rewrite Hq in Hqd. by apply Forall_app in Hqd as [_ ?].
      * apply not_elem_of_cons. split; [congruence|done].
    + destruct (c_isidle d) eqn:Hidle.
      * eapply wp_mono; [|eapply ipi_send_spec; [proj; apply list_lookup_insert_eq; by rewrite length_insert|done]]. cbv beta. intros _ s1 (E1 & E2 & E3).
        proj. split_and!; [|done|done]. rewrite E1, list_insert_insert_eq. unfold d1, woken. by rewrite Hidle, bool_decide_false.
      * rewrite wp_ret. split_and!; [|done|done]. unfold d1, woken. by rewrite Hidle.
Qed.
Lemma Inv_sending s me c i j n share victims p : Inv [] s -> allcpus s !! me = Some c -> pc c = Sending i n share victims ->
  p = Sending j n share victims \/ p = Restoring victims -> Inv [] (set_cpus (<[me := set_pc p c]> (allcpus s)) s).
Proof.
  intros HI Hme Hpc Hp. destruct (inv_cpu _ _ HI me c Hme) as [G1 G2 G3 G4 G5 G6]. rewrite Hpc in *. eapply Inv_self; [done|done| |].
  - intros t. unfold occ_cpu. fields. rewrite Hpc. by destruct Hp as [-> | ->].
  - destruct Hp as [-> | ->]; by split.
Qed.
(** The next CPU in turn: how [thread_consider_migration] treats it. *)
Definition served (me i n : nat) (share : Z) (c : cpu) (victims : list Z) (s s' : system W) : Prop :=
  if bool_decide (i < length (allcpus s))%nat && negb (bool_decide (n = O)) then
    if decide (i = me) then looks s' (<[me := set_pc (Sending (S i) n share victims) c]> (allcpus s)) (threads s) (wchans s)
    else exists d left sent rest s1, allcpus s !! i = Some d /\ sent_to me i share n left c d sent rest victims s s1 /\
      looks s' (<[me := set_pc (Sending (S i) left share rest) c]> (allcpus s1)) (threads s1) (wchans s1)
  else looks s' (<[me := set_pc (Restoring victims) c]> (allcpus s)) (threads s) (wchans s).
Lemma send_to_spec me s c i n share victims : Inv [] s -> allcpus s !! me = Some c -> pc c = Sending i n share victims ->
  wp (send_to me i n share victims) (fun _ s' => Inv [] s' /\ served me i n share c victims s s') s.
Proof.
  intros HI Hme Hpc. unfold send_to, served. wp_simpl. destruct (bool_decide (i < _)%nat && negb (bool_decide (n = O))) eqn:Hb.
  2: { eapply wp_on_cpu; [exact Hme|]. split; [eapply (Inv_sending s me c i i n); [done|done|done|by right]|done]. }
  apply andb_true_iff in Hb as [Hil%bool_decide_eq_true _]. destruct (decide (i = me)) as [->|Hne].
  - eapply wp_on_cpu; [exact Hme|]. split; [eapply (Inv_sending s me c me (S me) n); [done|done|done|by left]|done].
  - destruct (lookup_lt_is_Some_2 _ _ Hil) as [d Hd]. rewrite wp_bind. eapply wp_mono; [|by eapply send_loop_spec]. cbv beta.
    intros left s1 (HI1 & sent & rest & Hs). eapply wp_on_cpu; [apply Hs|]. cbn [private pc set_pc]. split.
    + eapply (Inv_sending s1 me (set_pc (Sending i left share rest) c) i (S i) left); [done|apply Hs|done|by left].
    + by exists d, left, sent, rest, s1.
Qed.
Lemma served_migrates me s s' c i n share victims : allcpus s !! me = Some c -> pc c = Sending i n share victims ->
  served me i n share c victims s s' -> frame me (migrates (length (allcpus s))) s s'.
Proof.
  intros Hme Hpc. assert (Hlt := lookup_lt_Some _ _ _ Hme). unfold served.
  assert (Hmig : forall m v p, p = Sending (S i) m share v /\ (i < length (allcpus s))%nat \/ p = Restoring v -> migrates (length (allcpus s)) c (set_pc p c)).
  { intros m v p Hp. unfold migrates. fields. rewrite Hpc. split_and!; [done|done|done|]. destruct Hp as [[-> ?] | ->]; cbn [stages]; lia. }
  destruct (bool_decide (i < _)%nat && negb (bool_decide (n = O))) eqn:Hb.
  2: { intros (E1 & E2 & E3). eapply frame_self; [done|exact E1|by eapply (Hmig n); right|by rewrite E3]. }
  apply andb_true_iff in Hb as [Hil%bool_decide_eq_true _]. destruct (decide (i = me)) as [->|Hne].
  - intros (E1 & E2 & E3). eapply frame_self; [done|exact E1|by eapply (Hmig n); left|by rewrite E3].
  - intros (d & left & sent & rest & s1 & Hd & [F1 F2 (d' & D1 & D2 & D3) F4 F5 _ _ _ _] & E1 & E2 & E3). split; rewrite ?E1, ?length_insert.
    + done.
    + by rewrite E3, F5.
    + intros c0 Hc0. assert (c0 = c) as -> by congruence. exists (set_pc (Sending (S i) left share rest) c).
      rewrite list_lookup_insert_eq by (by rewrite F1). split; [done|]. eapply (Hmig left). by left.
    + intros j e Hj He. rewrite list_lookup_insert_ne by done. destruct (decide (j = i)) as [->|Hji].
      * exists d'. by assert (e = d) as -> by congruence.
      * exists e. rewrite F4 by done. done.
Qed.

(** ** The clock, and going on *)

(** What a clock interrupt does in the end: the thread yields, and the CPU is where it was. *)
Definition ticks (c c' : cpu) : Prop := leaves S_READY (set_pc Running c) c'.
Lemma hardclock_rest_spec me s c : Inv [] s -> allcpus s !! me = Some c -> pc c = Running \/ pc c = Ticking ->
  wp (hardclock_rest me) (fun _ s' => Inv [] s' /\ frame me ticks s s') s.
Proof.
  intros HI Hme Hpc. assert (Hlt := lookup_lt_Some _ _ _ Hme). unfold hardclock_rest. rewrite wp_bind. eapply wp_get_cpu; [exact Hme|]. rewrite wp_bind. eapply wp_on_cpu; [exact Hme|].
  set (s1 := set_cpus _ s). assert (HI1 : Inv [] s1) by (eapply Inv_stage; [done|done|by destruct Hpc as [-> | ->]|done..]).
  assert (Hmid : wp (if c_hardclocks c mod SCHEDULE_HARDCLOCKS =? 0 then schedule else mret tt) (fun _ s2 => s2 = s1) s1) by by destruct (_ =? 0).
  rewrite wp_bind. eapply wp_mono; [|exact Hmid]. cbv beta. intros _ ? ->.
  eapply wp_mono; [|eapply (thread_yield_spec me s1 (set_pc Running c)); [done|by apply list_lookup_insert_eq|done]]. cbv beta. intros _ s' [HI' Hf]. split; [done|].
  eapply (frame_trans me (fun c c1 => c1 = set_pc Running c) (leaves S_READY) ticks s s1 s'); [by intros c1 ? c2 ->| |done]. by eapply frame_self.
Qed.
Definition clocked (c c' : cpu) : Prop :=
  let c1 := set_hardclocks (u32 (c_hardclocks c + 1)) c in
  if c_hardclocks c1 mod MIGRATE_HARDCLOCKS =? 0 then c' = set_pc (Counting 0 0 0) c1 else ticks c1 c'.
Lemma hardclock_spec me s c : Inv [] s -> allcpus s !! me = Some c -> pc c = Running ->
  wp (hardclock me) (fun _ s' => Inv [] s' /\ frame me clocked s s') s.
Proof.
  intros HI Hme Hpc. assert (Hlt := lookup_lt_Some _ _ _ Hme). unfold hardclock. rewrite wp_bind. eapply wp_on_cpu; [exact Hme|]. set (c1 := set_hardclocks _ c). set (s1 := set_cpus _ s).
  assert (HI1 : Inv [] s1). { eapply Inv_self; [done|done|done|]. destruct (inv_cpu _ _ HI me c Hme) as [G1 G2 G3 G4 G5 G6]. by split. }
  assert (Hme1 : allcpus s1 !! me = Some c1) by by apply list_lookup_insert_eq. rewrite wp_bind. eapply wp_get_cpu; [exact Hme1|].
  destruct (c_hardclocks c1 mod MIGRATE_HARDCLOCKS =? 0) eqn:Hm.
  - eapply wp_on_cpu; [exact Hme1|]. split; [eapply Inv_stage; [done|done|cbn; by rewrite Hpc|done|done|]|].
    + by case_decide; [|lia].
    + eapply frame_self; [done|cbn; by rewrite list_insert_insert_eq| |done]. unfold clocked. fold c1. by rewrite Hm.
  - eapply wp_mono; [|eapply (hardclock_rest_spec me s1 c1); [done|done|by left]]. cbv beta. intros _ s' [HI' Hf]. split; [done|].
    eapply (frame_trans me (fun d d' => d = c /\ d' = c1) ticks _ s s1 s'); [|by eapply frame_self|done].
    intros d d1 d' [-> ->] Ht. unfold clocked. fold c1. by rewrite Hm.
Qed.
(** What [go_on] does to the CPU. *)
Definition goes_on (n : nat) (c c' : cpu) : Prop :=
  match pc c with
  | Running => c' = if c_isidle c then taken c else c
  | Waking [] => c' = set_pc Running c
  | Waking (t :: l) => grown c c' /\ pc c' = Waking l
  | Ticking => ticks c c'
  | Halted | Off => c' = c
  | _ => migrates n c c'
  end.
(** On the CPU that is known. *)
Lemma wp_frame_case {A} me (P Q : cpu -> cpu -> Prop) (m : K (system W) A) s c : allcpus s !! me = Some c -> (forall c', P c c' -> Q c c') ->
  wp m (fun _ s' => Inv [] s' /\ frame me P s s') s -> wp m (fun _ s' => Inv [] s' /\ frame me Q s s') s.
Proof.
  intros Hc HPQ Hm. eapply wp_mono; [|exact Hm]. cbv beta. intros _ s' [HI Hf]. split; [done|]. eapply frame_mono; [|exact Hf].
  intros d d' Hd. assert (d = c) as -> by congruence. apply HPQ.
Qed.
Lemma waking_spec me s c t l : Inv [] s -> allcpus s !! me = Some c -> pc c = Waking (t :: l) ->
  wp (on_cpu me (set_pc (Waking l));; thread_make_runnable me t) (fun _ s' => Inv [] s' /\ frame me (fun c c' => grown c c' /\ pc c' = Waking l) s s') s.
Proof.
  intros HI Hme Hpc. assert (Hlt := lookup_lt_Some _ _ _ Hme). destruct (inv_cpu _ _ HI me c Hme) as [G1 G2 G3 G4 G5 G6]. rewrite Hpc in *. cbn [private] in *.
  apply Forall_cons in G4 as [(th & Ht & Hst) G4]. destruct (placed_cpu s [] t th HI Ht (not_elem_of_nil t)) as [j Hj].
  rewrite wp_bind. eapply wp_on_cpu; [exact Hme|]. set (s1 := set_cpus _ s).
  assert (HI1 : Inv [t] s1).
  { eapply (Inv_cpu s [] [t] me c); [done|done| | |by intros ? ? _ ?%elem_of_nil].
    - intros x. unfold occ_cpu. fields. rewrite Hpc. cbn [private]. rewrite !occ_cons, occ_nil. lia.
    - by split. }
  eapply wp_mono; [|eapply (make_runnable_frame me s1 [] t th); [done|done|by exists j|]].
  - cbv beta. intros _ s' [HI' Hf]. split; [done|]. eapply (frame_trans me (fun d d' => grown d d' /\ pc d' = Waking l) kept); [|by eapply (frame_self me _ s s1 c)|exact Hf].
    intros c1 c2 c3 [A1 A2] [B1 B2]. split; [by transitivity c2|congruence].
  - intros d Hd. cbn in Hd. rewrite list_lookup_insert_eq in Hd by done. by injection Hd as <-.
Qed.
Lemma go_on_spec me s c : Inv [] s -> allcpus s !! me = Some c ->
  wp (go_on me) (fun _ s' => Inv [] s' /\ frame me (goes_on (length (allcpus s))) s s') s.
Proof.
  intros HI Hme. unfold go_on. rewrite wp_bind. eapply wp_get_cpu; [exact Hme|].
  assert (Hid : wp (mret () : K (system W) ()) (fun _ s' => Inv [] s' /\ frame me (fun c c' => c' = c) s s') s) by (split; [done|by apply frame_refl]).
  destruct (pc c) as [| |[|t l]|i my total|k share|i k share victims|victims| |] eqn:Hpc.
  - destruct (c_isidle c) eqn:Hidle; (eapply (wp_frame_case me (fun c c' => c' = if c_isidle c then taken c else c)); [done|unfold goes_on; by rewrite Hpc|]).
    + eapply wp_mono; [|by eapply next_thread_spec]. cbv beta. intros _ s' (HI' & E1 & E2). split; [done|].
      eapply frame_self; [done|exact E1|by rewrite Hidle|by rewrite E2].
    + eapply wp_frame_case; [done| |exact Hid]. cbv beta. intros c' ->. by rewrite Hidle.
  - eapply wp_frame_case; [done| |exact Hid]. unfold goes_on. by rewrite Hpc.
  - eapply wp_on_cpu; [exact Hme|]. split; [eapply Inv_stage; [done|done|by rewrite Hpc|done..]|]. eapply frame_self; [done|done|unfold goes_on; by rewrite Hpc|done].
  - eapply wp_frame_case; [done| |by eapply waking_spec]. unfold goes_on. by rewrite Hpc.
  - eapply wp_frame_case; [done| |by eapply count_one_spec]. unfold goes_on. by rewrite Hpc.
  - eapply wp_frame_case; [done| |by eapply choose_spec]. unfold goes_on. by rewrite Hpc.
  - eapply wp_frame_case; [done| |]; [|eapply wp_mono; [|by eapply send_to_spec]; cbv beta; intros _ s' [HI' Hf%served_migrates]; [split; [exact HI'|exact Hf]|done|done]].
    unfold goes_on. by rewrite Hpc.
  - eapply wp_frame_case; [done| |by eapply restore_spec]. unfold goes_on. by rewrite Hpc.
  - eapply wp_frame_case; [done| |eapply hardclock_rest_spec; [done|done|by right]]. unfold goes_on. by rewrite Hpc.
  - eapply wp_frame_case; [done| |exact Hid]. unfold goes_on. by rewrite Hpc.
Qed.

(** ** Booting *)

Lemma wlp_env {A} (m : K W A) (Q : A -> system W -> Prop) s : (forall a w, Q a (System (allcpus s) (threads s) (wchans s) w)) -> wlp (env m) Q s.
Proof. intros HQ. unfold env, wlp, zoom. destruct (m _); [apply HQ|done..]. Qed.
Lemma Inv_boot s s' t th : Inv [] s -> threads s !! t = None -> t_cpu th = Some (length (allcpus s)) -> t_state th = S_READY ->
  (t_stack th = None \/ t_stack th = Some (replicate 4 THREAD_STACK_MAGIC)) ->
  looks s' (allcpus s ++ [Cpu t [] 0 false [] 0 [] Running]) (<[t := th]> (threads s)) (wchans s) -> Inv [] s'.
Proof.
  intros [H1 H2 H3 H4 H5] Hn Hcpu Hst Hstack Hs'. eapply (Inv_looks (System _ _ _ (world s))); [|exact Hs']. split; proj.
  - intros x. specialize (H1 x). rewrite occ_nil in *. rewrite total_app, total_cons. unfold occ_cpu at 2. fields. rewrite !occ_cons, !occ_nil. cbn [total foldr].
    destruct (Z.eqb_spec t x) as [->|Hne].
    + rewrite Hn in H1. rewrite lookup_insert_eq. destruct (decide (is_Some None)) as [[? ?]|_]; [done|].
      destruct (decide (is_Some (Some th))) as [|Hf]; [lia|]. destruct Hf. by eexists.
    + rewrite lookup_insert_ne by done. lia.
  - intros i c [Hi|[Hi1 Hi2]]%lookup_app_Some.
    + specialize (H2 i c Hi). destruct (ci_current _ _ _ H2) as (th0 & Hth0 & Hc0). apply (cpu_inv_ext (threads s)); [done| |].
      * intros x Hx. rewrite lookup_insert_ne; [done|]. intros <-. destruct H2 as [_ G2 G3 G4 _ _]. rewrite !elem_of_app, Forall_forall in *.
        assert (at_ (threads s) (fun _ => True) t) as (? & ? & _); [|congruence].
        destruct Hx as [?|[?|?]]; (eapply at_mono; [|eauto]; done).
      * exists th0. rewrite lookup_insert_ne by congruence. done.
    + apply list_lookup_singleton_Some in Hi2 as [Hi2 <-]. assert (i = length (allcpus s)) as -> by lia. split; fields; try done.
      exists th. rewrite lookup_insert_eq. split; [done|]. split; [done|]. by right.
  - intros w wc Hw. eapply Forall_impl; [by eapply H3|]. intros x (y & Hy & ?). exists y. rewrite lookup_insert_ne by congruence. done.
  - intros x y Hx _. destruct (decide (x = t)) as [->|Hne].
    + rewrite lookup_insert_eq in Hx. injection Hx as <-. eauto.
    + rewrite lookup_insert_ne in Hx by done. eapply H4; [done|apply not_elem_of_nil].
  - intros x y Hx. rewrite length_app. cbn [length]. destruct (decide (x = t)) as [->|Hne].
    + rewrite lookup_insert_eq in Hx. injection Hx as <-. split; [done|]. intros j. rewrite Hcpu. intros [= <-]. lia.
    + rewrite lookup_insert_ne in Hx by done. destruct (H5 x y Hx) as [A B]. split; [done|]. intros j Hj. specialize (B j Hj). lia.
Qed.
Lemma wlp_panic {A} why (Q : A -> system W -> Prop) s : wlp (panic why) Q s.
Proof. done. Qed.
Lemma cpu_create_spec kproc s : Inv [] s -> wlp (cpu_create kproc) (fun _ => Inv []) s.
Proof.
  intros HI. unfold cpu_create. rewrite wlp_bind. apply wlp_env. intros room1 w1. destruct room1; cbn [negb]; [|apply wlp_panic].
  rewrite wlp_bind. apply wlp_env. intros room2 w2. proj. destruct room2; cbn [negb]; [|apply wlp_panic].
  rewrite wlp_bind, wlp_get. cbv zeta. rewrite wlp_bind, wlp_modify. proj. set (n := length (allcpus s)).
  set (c0 := Cpu 0 [] 0 false [] 0 [] Running).
  assert (Hat : forall c, (allcpus s ++ [c]) !! n = Some c) by (intros c; by apply list_lookup_middle).
  assert (Hins : forall c d, <[n := d]> (allcpus s ++ [c]) = allcpus s ++ [d]).
  { intros c d. rewrite insert_app_r_alt by done. by rewrite Nat.sub_diag. }
  rewrite wlp_bind. unfold thread_create. rewrite wlp_bind. apply wlp_env. intros room3 w3. destruct room3; cbn [negb]; [|by rewrite wlp_ret].
  rewrite wlp_bind. apply wlp_env. intros room4 w4. proj. destruct room4; cbn [negb]; [|by rewrite wlp_ret].
  rewrite wlp_bind, wlp_get. cbv zeta. rewrite wlp_bind, wlp_modify, wlp_ret. proj. set (t := fresh _).
  assert (Hn : threads s !! t = None) by (apply not_elem_of_dom, is_fresh).
  rewrite wlp_bind. apply wp_wlp. eapply wp_on_cpu; [proj; apply Hat|]. proj. rewrite Hins.
  rewrite wlp_bind. apply wp_wlp. eapply wp_on_thread; [proj; by rewrite lookup_insert_eq|]. proj. rewrite insert_insert_eq.
  set (Q := fun (b : bool) (s1 : system W) => exists w, s1 = System (allcpus s ++ [set_curthread t c0]) (<[t := TheThread (Some "NEW") S_READY None (Some n) None false]> (threads s)) (wchans s) w).
  rewrite wlp_bind. apply (wlp_mono _ Q).
  2: { case_decide; [rewrite wlp_ret; eexists; done|]. apply wlp_env. intros. eexists. done. }
  intros room s1 [w5 ->]. destruct room; cbn [negb]; [|apply wlp_panic].
  set (Q' := fun (_ : ()) (s1 : system W) => exists w st, (st = None \/ st = Some (replicate 4 THREAD_STACK_MAGIC)) /\
    s1 = System (allcpus s ++ [set_curthread t c0]) (<[t := TheThread (Some "NEW") S_READY st (Some n) None false]> (threads s)) (wchans s) w).
  rewrite wlp_bind. apply (wlp_mono _ Q').
  2: { case_decide; [rewrite wlp_ret; exists w5, None; split; [by left|done]|]. apply wp_wlp. eapply wp_on_thread; [proj; by rewrite lookup_insert_eq|]. proj.
    rewrite insert_insert_eq. exists w5, (Some (replicate 4 THREAD_STACK_MAGIC)). split; [by right|done]. }
  intros _ s2 (w6 & st & Hst & ->). rewrite wlp_bind. apply wlp_env. intros result w7. destruct (result =? 0); cbn [negb]; [|apply wlp_panic]. proj.
  rewrite wlp_bind. apply wp_wlp. eapply wp_on_thread; [proj; by rewrite lookup_insert_eq|]. proj. rewrite insert_insert_eq, wlp_ret.
  by eapply (Inv_boot s _ t (TheThread (Some "NEW") S_READY st (Some n) (Some kproc) false)).
Qed.
Lemma Inv_start w : Inv [] (start w : system W).
Proof. by split. Qed.
Lemma boot_spec kproc n : forall s, Inv [] s -> wlp (boot kproc n) (fun _ => Inv []) s.
Proof.
  induction n as [|n IH]; intros s HI; cbn [boot]; [done|]. rewrite wlp_bind. eapply wlp_mono; [|by apply IH]. cbv beta. intros _ s1 HI1.
  rewrite wlp_bind. eapply wlp_mono; [|by apply cpu_create_spec]. cbv beta. intros i s2 HI2. done.
Qed.

(** ** Every step *)

(** What an action does to the CPU that performs it. *)
Definition effect (n : nat) (a : action) (c c' : cpu) : Prop :=
  match a with
  | Yield => leaves S_READY c c'
  | Exit => leaves S_ZOMBIE c c'
  | Sleep _ => leaves S_SLEEP c c'
  | Wake_all _ => exists l, waking l c c'
  | Hardclock => clocked c c'
  | Ipi => handled c c'
  | Interrupt => c' = set_pc Running c
  | Go_on => goes_on n c c'
  | _ => kept c c'
  end.
Lemma perform_spec me a s : Inv [] s -> proper me a s = true ->
  wp (perform me a) (fun _ s' => Inv [] s' /\ frame me (effect (length (allcpus s)) a) s s') s.
Proof.
  intros HI. unfold proper. destruct (allcpus s !! me) as [c|] eqn:Hme; [|done].
  set (on := match pc c with Running => true | _ => false end). assert (Hon : on = true -> pc c = Running) by (unfold on; by destruct (pc c)).
  destruct a as [proc| | |w|w|w|name|i m| | | | |]; cbn [perform effect]; rewrite ?andb_true_iff, ?negb_true_iff; intros Hp.
  - destruct Hp as [[Hr%Hon Hidle] Hcur]. destruct (threads s !! c_curthread c) as [th|] eqn:Hth; [|done]. apply bool_decide_eq_true in Hcur as [p Hp].
    rewrite wp_bind. eapply wp_mono; [|eapply (fork_adds_thread me s c proc p); [done|done|done|by exists th]]. cbv beta. intros r s' (HI' & Hf & _). by rewrite wp_ret.
  - destruct Hp as [Hr%Hon Hidle]. by eapply thread_yield_spec.
  - destruct Hp as [Hr%Hon Hidle]. by eapply thread_exit_spec.
  - destruct Hp as [[[Hr%Hon Hidle] Hw%bool_decide_eq_true] Hcur]. destruct (lookup_lt_is_Some_2 _ _ Hw) as [wc Hwc].
    destruct (threads s !! c_curthread c) as [th|] eqn:Hth; [|done]. apply negb_true_iff in Hcur. eapply wchan_sleep_spec; [done..|by exists th].
  - destruct Hp as [Hr%Hon Hw%bool_decide_eq_true]. destruct (lookup_lt_is_Some_2 _ _ Hw) as [wc Hwc]. by eapply wchan_wakeone_spec.
  - destruct Hp as [Hr%Hon Hw%bool_decide_eq_true]. destruct (lookup_lt_is_Some_2 _ _ Hw) as [wc Hwc]. eapply (wp_frame_case me (waking (wc_threads wc))); [done| |by eapply wchan_wakeall_spec].
    intros c' Hc'. by exists (wc_threads wc).
  - rewrite wp_bind. eapply wp_mono; [|by apply (wchan_create_spec me)]. cbv beta. intros r s' Hs'. by rewrite wp_ret.
  - destruct Hp as [_ Hd]. destruct (allcpus s !! i) as [d|] eqn:Hi; [|done]. apply bool_decide_eq_true in Hd. by eapply ipi_tlbshootdown_spec.
  - by apply thread_shutdown_spec.
  - by eapply hardclock_spec; [| |apply Hon].
  - by eapply interprocessor_interrupt_spec; [| |apply Hon].
  - destruct (pc c) eqn:Hpc; try done. eapply wp_on_cpu; [exact Hme|]. split; [eapply Inv_stage; [done|done|by rewrite Hpc|done..]|]. by eapply frame_self.
  - by eapply go_on_spec.
Qed.
Lemma exec_cons i a l s s' : Inv [] s -> exec ((i, a) :: l) s = Some s' ->
  exists s1, proper i a s = true /\ perform i a s = Ret tt s1 /\ Inv [] s1 /\ frame i (effect (length (allcpus s)) a) s s1 /\ exec l s1 = Some s'.
Proof.
  intros HI. cbn [exec]. destruct (proper i a s) eqn:Hp; [|done]. pose proof (perform_spec i a s HI Hp) as Hw. unfold wp in Hw.
  destruct (perform i a s) as [[] s1| | |]; try done. intros He. destruct Hw as [Hw1 Hw2]. exists s1. by split_and!.
Qed.
Lemma exec_Inv l : forall s s', Inv [] s -> exec l s = Some s' -> Inv [] s'.
Proof.
  induction l as [|[i a] l IH]; intros s s' HI He; [by injection He as <-|].
  destruct (exec_cons i a l s s' HI He) as (s1 & _ & _ & HI1 & _ & He1). by eapply IH.
Qed.
Lemma reachable_Inv s : reachable s -> Inv [] s.
Proof.
  intros (kproc & n & w & s0 & l & Hb & He). eapply exec_Inv; [|exact He]. pose proof (boot_spec kproc n (start w) (Inv_start w)) as Hw. unfold wlp in Hw. by rewrite Hb in Hw.
Qed.

(** ** Taking turns *)

Lemma taken_waits c q t : c_runqueue c = t :: q -> c_runqueue (taken c) = q /\ c_curthread (taken c) = t /\ c_isidle (taken c) = false /\ pc (taken c) = pc c.
Proof. intros Hq. unfold taken. by rewrite Hq. Qed.
(** One place nearer, or running. *)
Definition advances (k : nat) (t : Z) (c' : cpu) : Prop :=
  match k with O => c_curthread c' = t /\ c_isidle c' = false | S k => c_runqueue c' !! k = Some t end.
Lemma leaves_advances st k t c c' : leaves st c c' -> c_isidle c = false -> c_runqueue c !! k = Some t -> advances k t c' /\ pc c' = pc c.
Proof.
  intros Hl Hidle Hk. unfold leaves, stays in Hl. rewrite Hidle in Hl. assert (Hne : c_runqueue c <> []) by by intros E0; rewrite E0 in Hk.
  rewrite (bool_decide_false (c_runqueue c = [])), andb_false_r in Hl by done. cbn [orb] in Hl. subst c'.
  destruct (c_runqueue c) as [|x q] eqn:Eq; [done|].
  assert (Hq : exists r, c_runqueue (left_cpu st c) = x :: q ++ r).
  { unfold left_cpu. destruct st; fields; rewrite ?Eq; [exists []|exists [c_curthread c]|exists []|exists []]; rewrite ?app_nil_r; done. }
  destruct Hq as [r Hq]. destruct (taken_waits _ _ _ Hq) as (T1 & T2 & T3 & T4). unfold advances. rewrite T1, T2, T3, T4.
  split; [|by unfold left_cpu; destruct st]. destruct k as [|k]; [cbn in Hk; by injection Hk|]. cbn in Hk. by apply lookup_app_l_Some.
Qed.
Lemma grown_waits k t c c' : grown c c' -> c_runqueue c !! k = Some t -> c_runqueue c' !! k = Some t.
Proof. intros [_ _ _ H4] Hk. by eapply prefix_lookup_Some. Qed.
(** The thread at [k] of the queue of [me], through a step of [i]. *)
Lemma step_waits me i a s s' k t c : Inv [] s -> proper i a s = true -> frame i (effect (length (allcpus s)) a) s s' ->
  allcpus s !! me = Some c -> c_runqueue c !! k = Some t -> stages (length (allcpus s)) (pc c) = O ->
  (i = me -> a = Hardclock -> migration_due c = false) ->
  exists c', allcpus s' !! me = Some c' /\ stages (length (allcpus s)) (pc c') = O /\
    (gives_up me i a s = false /\ c_runqueue c' !! k = Some t \/ advances k t c').
Proof.
  intros HI Hp Hf Hme Hk Hst Hcalm. unfold gives_up. destruct (decide (i = me)) as [->|Hne].
  2: { destruct (fr_others _ _ _ _ Hf me c ltac:(congruence) Hme) as (c' & Hc' & Hg & Hpc). exists c'. rewrite Hpc, bool_decide_false by done.
    split_and!; [done|done|]. left. split; [done|]. by eapply grown_waits. }
  destruct (fr_me _ _ _ _ Hf c Hme) as (c' & Hc' & He). exists c'. split; [done|]. rewrite bool_decide_true, Hme by done. cbn [andb].
  unfold proper in Hp. rewrite Hme in Hp. set (n := length (allcpus s)) in *.
  assert (Hkept : kept c c' -> stages n (pc c') = O /\ (false = false /\ c_runqueue c' !! k = Some t \/ advances k t c')).
  { intros [Hg Hpc]. rewrite Hpc. split; [done|]. left. split; [done|]. by eapply grown_waits. }
  assert (Hleaves : forall st, leaves st c c' -> c_isidle c = false -> stages n (pc c') = O /\ (true = false /\ c_runqueue c' !! k = Some t \/ advances k t c')).
  { intros st Hl Hidle. destruct (leaves_advances st k t c c' Hl Hidle Hk) as [Ha Hpc]. rewrite Hpc. split; [done|]. by right. }
  destruct a as [proc| | |w|w|w|name|j m| | | | |]; cbn [effect] in He.
  all: try by apply Hkept.
  - apply andb_true_iff in Hp as [_ Hidle%negb_true_iff]. by apply (Hleaves S_READY).
  - apply andb_true_iff in Hp as [_ Hidle%negb_true_iff]. by apply (Hleaves S_ZOMBIE).
  - rewrite !andb_true_iff in Hp. destruct Hp as [[[_ Hidle%negb_true_iff] _] _]. by apply (Hleaves S_SLEEP).
  - destruct He as (l & Hg & Hpc). rewrite Hpc. split; [done|]. left. split; [done|]. by eapply grown_waits.
  - unfold clocked in He. fields. specialize (Hcalm eq_refl eq_refl). unfold migration_due in Hcalm. rewrite Hcalm in He. unfold ticks in He.
    set (c1 := set_pc Running _) in He. destruct (c_isidle c) eqn:Hidle; cbn [negb].
    + unfold leaves, stays in He. cbn [c1 set_pc set_hardclocks c_isidle] in He. rewrite Hidle in He. subst c'. split; [done|]. by left.
    + destruct (leaves_advances S_READY k t c1 c' He Hidle Hk) as [Ha Hpc]. rewrite Hpc. split; [done|]. by right.
  - unfold handled in He. split; [|left; split; [done|]]; subst c'; (destruct (_ || _); [done|]); by destruct (Z.testbit _ IPI_TLBSHOOTDOWN).
  - subst c'. split; [done|]. by left.
  - unfold goes_on in He. destruct (pc c) as [| |[|x l]|i my total|m share|i m share victims|victims| |] eqn:Hpc; cbn [stages] in Hst; try lia.
    + destruct (c_isidle c); subst c'; [|rewrite Hpc; split; [done|by left]].
      destruct (c_runqueue c) as [|x q] eqn:Eq; [done|]. destruct (taken_waits c _ _ Eq) as (T1 & T2 & T3 & T4). rewrite T4, Hpc. split; [done|]. right.
      unfold advances. rewrite T1, T2, T3. destruct k as [|k]; [cbn in Hk; by injection Hk|done].
    + subst c'. rewrite Hpc. split; [done|by left].
    + subst c'. split; [done|by left].
    + destruct He as [Hg Hpc']. rewrite Hpc'. split; [done|]. left. split; [done|]. by eapply grown_waits.
    + subst c'. rewrite Hpc. split; [done|by left].
Qed.
Lemma turns_run me l : forall s s' k t c, Inv [] s -> exec l s = Some s' -> allcpus s !! me = Some c -> c_runqueue c !! k = Some t ->
  stages (length (allcpus s)) (pc c) = O -> calm me l s = true -> (k < turns me l s)%nat -> exists s1, s1 ∈ states l s /\ running me t s1.
Proof.
  induction l as [|[i a] l IH]; intros s s' k t c HI He Hme Hk Hst Hcalm Hturns; [cbn in Hturns; lia|].
  destruct (exec_cons i a l s s' HI He) as (s1 & Hp & Hperf & HI1 & Hf & He1). cbn [calm turns states] in *. rewrite Hperf in *.
  apply andb_true_iff in Hcalm as [Hcm Hcalm].
  destruct (step_waits me i a s s1 k t c HI Hp Hf Hme Hk Hst) as (c' & Hc' & Hst' & Hadv).
  { intros -> ->. rewrite Hme, bool_decide_true in Hcm by done. by apply negb_true_iff in Hcm. }
  rewrite <-(fr_cpus _ _ _ _ Hf) in Hst'.
  assert (Hrec : forall k', c_runqueue c' !! k' = Some t -> (k' < turns me l s1)%nat -> exists s2, s2 ∈ s :: states l s1 /\ running me t s2).
  { intros k' Hk' Hlt. destruct (IH s1 s' k' t c' HI1 He1 Hc' Hk' Hst' Hcalm Hlt) as (s2 & Hin & Hrun). exists s2. split; [by right|done]. }
  destruct Hadv as [[Hg Hk']|Hadv]; [rewrite Hg in Hturns; by eapply Hrec|].
  destruct k as [|k]; cbn [advances] in Hadv.
  - exists s1. split; [right; by destruct l as [|[? ?] ?]; left|]. destruct Hadv. by exists c'.
  - eapply Hrec; [exact Hadv|]. destruct (gives_up me i a s); lia.
Qed.

(** ** The places of the threads *)

Lemma occ_concat t l : occ t (concat l) = total (occ t) l.
Proof. induction l as [|x l IH]; [done|]. cbn [concat]. by rewrite occ_app, total_cons, IH. Qed.
Lemma total_map {A B} (f : B -> Z) (g : A -> B) l : total f (map g l) = total (fun x => f (g x)) l.
Proof. induction l as [|x l IH]; [done|]. cbn [map]. by rewrite !total_cons, IH. Qed.
Lemma occ_everywhere t s : occ t (everywhere s) = total (occ_cpu t) (allcpus s) + total (occ_wchan t) (wchans s).
Proof.
  unfold everywhere. rewrite occ_app, !occ_concat, !total_map. f_equal. induction (allcpus s) as [|c l IH]; [done|]. rewrite !total_cons, IH. f_equal.
  unfold places, occ_cpu. rewrite !occ_app. destruct (c_isidle c); [rewrite occ_nil|]; lia.
Qed.
Lemma occ_NoDup l : (forall t, occ t l <= 1) -> NoDup l.
Proof.
  induction l as [|x l IH]; intros Ho; [constructor|]. constructor.
  - intros Hin%occ_in. specialize (Ho x). rewrite occ_cons, Z.eqb_refl in Ho. lia.
  - apply IH. intros t. specialize (Ho t). rewrite occ_cons in Ho. pose proof (occ_pos t l). destruct (x =? t); lia.
Qed.
Lemma exec_app l1 : forall l2 s, exec (l1 ++ l2) s = match exec l1 s with Some s1 => exec l2 s1 | None => None end.
Proof. induction l1 as [|[i a] l1 IH]; intros l2 s; cbn [app exec]; [done|]. destruct (proper i a s); [|done]. by destruct (perform i a s). Qed.
Lemma reachable_step i a s s' : reachable s -> proper i a s = true -> perform i a s = Ret tt s' -> reachable s'.
Proof.
  intros (kproc & n & w & s0 & l & Hb & He) Hp Hs'. exists kproc, n, w, s0, (l ++ [(i, a)]). split; [done|]. rewrite exec_app, He. cbn [exec]. by rewrite Hp, Hs'.
Qed.

(** C24. Threads are safe, whatever the CPUs do and in whatever order: every thread is in exactly
    one place; no two CPUs use the same thread's stack, not even an idle one; what is in a run
    queue is ready and belongs to that CPU, zombies have ended and left their process, and what
    is on a channel is asleep; a CPU that stays in [cpu_idle] with threads in its queue has an
    interrupt pending; and no operation that a CPU may perform panics or gets stuck. *)
Theorem threads_safe (s : system W) : reachable s ->
  NoDup (everywhere s) /\ (forall t, t ∈ everywhere s <-> is_Some (threads s !! t)) /\
  (forall i j c d, i <> j -> allcpus s !! i = Some c -> allcpus s !! j = Some d -> c_curthread c <> c_curthread d) /\
  (forall i c, allcpus s !! i = Some c -> Forall (at_ (threads s) (ready i)) (c_runqueue c) /\ Forall (at_ (threads s) (dead i)) (c_zombies c) /\
    (pc c = Halted -> c_runqueue c <> [] -> Z.testbit (c_ipi_pending c) IPI_UNIDLE = true)) /\
  (forall w wc, wchans s !! w = Some wc -> Forall (at_ (threads s) asleep) (wc_threads wc)) /\
  (forall i a, proper i a s = true -> exists s', perform i a s = Ret tt s' /\ reachable s').
Proof.
  intros Hr. assert (HI := reachable_Inv s Hr).
  assert (Hocc : forall t, occ t (everywhere s) = if decide (is_Some (threads s !! t)) then 1 else 0).
  { intros t. rewrite occ_everywhere. pose proof (inv_count _ _ HI t) as Hc. rewrite occ_nil in Hc. lia. }
  split; [|split; [|split; [|split; [|split]]]].
  - apply occ_NoDup. intros t. rewrite Hocc. case_decide; lia.
  - intros t. rewrite occ_in, Hocc. case_decide; split; (done || lia || intros; done).
  - intros i j c d Hij Hi Hj Heq. destruct (ci_current _ _ _ (inv_cpu _ _ HI i c Hi)) as (th & H1 & H2 & _).
    destruct (ci_current _ _ _ (inv_cpu _ _ HI j d Hj)) as (th' & H3 & H4 & _). congruence.
  - intros i c Hi. destruct (inv_cpu _ _ HI i c Hi) as [G1 G2 G3 G4 G5 G6]. split_and!; [done|done|]. intros Hh. by apply G6.
  - intros w wc. apply (inv_wchan _ _ HI).
  - intros i a Hp. pose proof (perform_spec i a s HI Hp) as Hw. unfold wp in Hw. destruct (perform i a s) as [[] s'| | |] eqn:Hs'; try done.
    exists s'. split; [done|]. by eapply reachable_step.
Qed.
(** C25. Threads take turns: one that waits in a CPU's queue behind [k] others runs on it by the time
    that CPU's threads have given it up [k + 1] times (by yielding, sleeping, ending, or at the
    clock), whatever the other CPUs do meanwhile, as long as the CPU does not migrate threads. *)
Theorem round_robin (me k : nat) (t : Z) (l : list (nat * action)) (s s' : system W) : reachable s -> waits_at me t k s ->
  (forall c, allcpus s !! me = Some c -> stages (length (allcpus s)) (pc c) = O) ->
  exec l s = Some s' -> calm me l s = true -> (k < turns me l s)%nat ->
  exists s1, s1 ∈ states l s /\ running me t s1.
Proof. intros Hr (c & Hc & Hk) Hst He Hcalm Hturns. eapply turns_run; [by apply reachable_Inv|done|done|done|by apply Hst|done|done]. Qed.

(** What a stage of [thread_consider_migration] does, up to the last. *)
Definition stage_done (me : nat) (c : cpu) (s s' : system W) : Prop :=
  match pc c with
  | Choosing n share =>
      exists queue victims, c_runqueue c = queue ++ victims /\ length victims = n /\
        looks s' (<[me := set_pc (Sending 0 n share victims) (set_runqueue queue c)]> (allcpus s)) (threads s) (wchans s)
  | Sending i n share victims => served me i n share c victims s s'
  | Restoring victims => looks s' (<[me := set_pc Ticking (set_runqueue (c_runqueue c ++ victims) c)]> (allcpus s)) (threads s) (wchans s)
  | _ => True
  end.
Lemma goes_on_less n c c' : goes_on n c c' -> stages n (pc c) <> O -> (stages n (pc c') < stages n (pc c))%nat.
Proof.
  unfold goes_on. destruct (pc c) as [| |[|t l]|i my total|k share|i k share victims|victims| |] eqn:Hpc; intros Hg Hst; try done.
  1-4: by destruct Hg as (_ & _ & _ & Hlt); rewrite Hpc in Hlt.
  change (stages n (pc c') < 1)%nat. unfold ticks, leaves in Hg. subst c'. destruct (stays _ _); [cbn; lia|].
  unfold taken. destruct (c_runqueue (left_cpu S_READY (set_pc Running c))); unfold left_cpu; fields; cbn [stages]; lia.
Qed.
Lemma stage_spec me s c : Inv [] s -> allcpus s !! me = Some c -> stages (length (allcpus s)) (pc c) <> O -> wp (go_on me) (fun _ => stage_done me c s) s.
Proof.
  intros HI Hme Hst. assert (Hc := ci_counts _ _ _ (inv_cpu _ _ HI me c Hme)). destruct (pc c) as [| |[|t l]|i my total|k share|i k share victims|victims| |] eqn:Hpc; try done.
  1,5: by eapply wp_mono; [|by eapply go_on_spec]; intros; unfold stage_done; rewrite Hpc.
  all: unfold go_on; rewrite wp_bind; (eapply wp_get_cpu; [exact Hme|]); rewrite Hpc; unfold stage_done; rewrite Hpc.
  - unfold choose. rewrite wp_bind. eapply wp_get_cpu; [exact Hme|]. rewrite choose_loop_eq by done. wp_simpl. apply wp_put_cpu. rewrite app_nil_r.
    set (m := (length (c_runqueue c) - k)%nat). exists (take m (c_runqueue c)), (drop m (c_runqueue c)). rewrite take_drop, length_drop. split_and!; [done|lia|done..].
  - eapply wp_mono; [|by eapply send_to_spec]. by intros _ s' [_ ?].
  - unfold restore. eapply wp_on_cpu; [exact Hme|]. done.
Qed.
(** C26. A migration ends, and moves threads as it should: each of its steps brings it closer to its
    end, no step of another CPU holds it up, and no step of it fails.  The victims are the last
    threads of the queue; a CPU gets some only while its queue is shorter than its share, in
    order, with its number in [t_cpu]; [curthread] is never sent; what is left goes back. *)
Theorem migration_correct (me : nat) (s : system W) (c : cpu) : reachable s -> allcpus s !! me = Some c -> stages (length (allcpus s)) (pc c) <> O ->
  wp (go_on me) (fun _ s' => stage_done me c s s' /\
    exists c', allcpus s' !! me = Some c' /\ (stages (length (allcpus s)) (pc c') < stages (length (allcpus s)) (pc c))%nat) s /\
  (forall i a s', i <> me -> proper i a s = true -> perform i a s = Ret tt s' -> exists c', allcpus s' !! me = Some c' /\ pc c' = pc c).
Proof.
  intros Hr Hme Hst. assert (HI := reachable_Inv s Hr). split.
  - pose proof (stage_spec me s c HI Hme Hst) as H1. pose proof (go_on_spec me s c HI Hme) as H2. unfold wp in *.
    destruct (go_on me s) as [[] s'| | |]; try done. split; [done|]. destruct (fr_me _ _ _ _ (proj2 H2) c Hme) as (c' & Hc' & Hg).
    exists c'. split; [done|]. by apply goes_on_less.
  - intros i a s' Hi Hp Hs'. pose proof (perform_spec i a s HI Hp) as Hw. unfold wp in Hw. rewrite Hs' in Hw.
    destruct (fr_others _ _ _ _ (proj2 Hw) me c ltac:(congruence) Hme) as (c' & Hc' & Hk). exists c'. split; [done|apply Hk].
Qed.
End Inv.

(** ** Two CPUs *)

Module Thread_sample.
#[local] Instance quiet : ThreadEnv () := {
  w_kmalloc := mret true; w_proc_addthread _ _ := mret 0; w_proc_remthread _ := mret tt; w_proc_file_table_copy _ _ := mret tt;
  w_as_activate := mret tt; w_send_ipi _ := mret tt; w_tlbshootdown _ := mret tt }.
#[local] Instance quiet_laws : ThreadEnvLaws ().
Proof. by split. Qed.
Definition booted : system () := match boot 1 2 (start tt) with Ret _ s => s | _ => start tt end.
Definition after (l : list (nat * action)) : system () := match exec l booted with Some s => s | None => booted end.
Lemma after_reachable l : match exec l booted with Some _ => True | None => False end -> reachable (after l).
Proof. intros He. exists 1, 2%nat, tt, booted, l. split; [by vm_compute|]. unfold after. by destruct (exec l booted). Qed.
(** CPU 0 forks four threads, CPU 1 goes idle; 16 clock interrupts; CPU 0 migrates. *)
Definition forks : list (nat * action) := replicate 4 (0, Fork None)%nat ++ [(1, Exit)%nat].
Definition migrating (n : nat) : list (nat * action) := forks ++ replicate 16 (0, Hardclock)%nat ++ replicate n (0, Go_on)%nat.
Definition cpu0 (s : system ()) : cpu := default (Cpu 0 [] 0 false [] 0 [] Off) (allcpus s !! 0%nat).

Lemma threads_safe_witness : NoDup (everywhere (after (migrating 6))) /\ (exists s', perform 1%nat Interrupt (after (migrating 6)) = Ret tt s' /\ reachable s').
Proof.
  pose proof (threads_safe (after (migrating 6)) (after_reachable (migrating 6) I)) as (H1 & _ & _ & _ & _ & H2).
  split; [exact H1|]. apply H2. by vm_compute.
Defined.
Lemma round_robin_witness : waits_at 0 3 1 (after forks) /\
  exists s1, s1 ∈ states [(0, Yield); (1, Interrupt); (0, Hardclock)]%nat (after forks) /\ running 0 3 s1.
Proof.
  assert (Hw : waits_at 0 3 1 (after forks)) by (exists (cpu0 (after forks)); by split; vm_compute).
  split; [exact Hw|].
  apply (round_robin 0 1 3 _ (after forks) (after (forks ++ [(0, Yield); (1, Interrupt); (0, Hardclock)]%nat)));
    [by apply after_reachable; vm_compute|exact Hw| |by vm_compute|by vm_compute|vm_compute; lia].
  intros c Hc. vm_compute in Hc. by injection Hc as <-.
Defined.
Lemma migration_correct_witness : pc (cpu0 (after (migrating 5))) = Sending 1 2 2 [4; 5] /\
  wp (go_on 0) (fun _ s' => stage_done 0 (cpu0 (after (migrating 5))) (after (migrating 5)) s') (after (migrating 5)).
Proof.
  split; [by vm_compute|].
  assert (H1 : allcpus (after (migrating 5)) !! 0%nat = Some (cpu0 (after (migrating 5)))) by by vm_compute.
  assert (H2 : stages (length (allcpus (after (migrating 5)))) (pc (cpu0 (after (migrating 5)))) <> O) by by vm_compute.
  refine (wp_mono _ _ _ _ _ (proj1 (migration_correct 0 _ _ (after_reachable (migrating 5) I) H1 H2))).
  intros [] s' Hs'. exact (proj1 Hs').
Defined.
End Thread_sample.
