(* ===== verification/Synch.v ===== *)
(** * Semaphores, locks and condition variables: [kern/thread/synch.c]

    A section between [spinlock_acquire] and [spinlock_release] is one atomic
    action; a loop around [wchan_sleep] is split where the thread sleeps: an action
    that tests once and either goes through or puts the thread on the wait channel
    ([P_try], [lock_try]).  The actions are then interleaved in any order by a step
    relation over all threads, and the invariants hold in every reachable state.

    The module also gives the blocking operations as one thread sees them
    ([P], [lock_acquire], ...), for the components that use locks. *)
From S2P Require Import Prelude.

Module Synch.
(** ** Wait channels: the sleeping threads, first come first served *)

Definition wchan := list Z.
Definition wchan_wakeone (wc : wchan) : option Z * wchan :=
  match wc with [] => (None, []) | t :: wc => (Some t, wc) end.
Definition wchan_wakeall (wc : wchan) : list Z * wchan := (wc, []).
Definition wchan_destroy (wc : wchan) : K () () :=
  KASSERT (bool_decide (wc = [])) "threadlist_isempty(tl)".

(** ** Semaphores *)

Record semaphore := Semaphore { sem_count : Z; sem_wchan : wchan }.

(** The three allocations succeed or not. *)
Definition sem_create (m1 m2 m3 : bool) (initial_count : Z) : option semaphore :=
  if m1 && m2 && m3 then Some (Semaphore initial_count []) else None.

Definition sem_destroy (s : semaphore) : K () () := wchan_destroy (sem_wchan s).

(** One turn of the loop of [P] by thread [me]; false when it goes to sleep. *)
Definition P_try (me : Z) : K semaphore bool :=
  s ← get;
  if sem_count s =? 0 then
    put (Semaphore (sem_count s) (sem_wchan s ++ [me]));; mret false
  else
    KASSERT (0 <? sem_count s) "sem->sem_count > 0";;
    put (Semaphore (u32 (sem_count s - 1)) (sem_wchan s));; mret true.

(** The result is the thread made runnable, if any. *)
Definition V : K semaphore (option Z) :=
  s ← get;
  let c := u32 (sem_count s + 1) in
  KASSERT (0 <? c) "sem->sem_count > 0";;
  let '(target, wc) := wchan_wakeone (sem_wchan s) in
  put (Semaphore c wc);;
  mret target.

Definition P (me : Z) (in_interrupt : bool) : K semaphore () :=
  KASSERT (negb in_interrupt) "curthread->t_in_interrupt == false";;
  ok ← P_try me;
  if ok : bool then mret tt else block.

(** ** Locks *)

Record lock := Lock { thread_who_acquired : option Z; lock_wchan : wchan }.

Definition lock_create (m1 m2 m3 : bool) : option lock :=
  if m1 && m2 && m3 then Some (Lock None []) else None.

Definition lock_destroy (l : lock) : K () () := wchan_destroy (lock_wchan l).

Definition lock_do_i_hold (me : Z) (l : lock) : bool :=
  bool_decide (thread_who_acquired l = Some me).

(** One turn of the loop of [lock_acquire]. *)
Definition lock_try (me : Z) : K lock bool :=
  l ← get;
  match thread_who_acquired l with
  | Some h => put (Lock (Some h) (lock_wchan l ++ [me]));; mret false
  | None =>
      KASSERT (bool_decide (thread_who_acquired l = None)) "lock->thread_who_acquired == NULL";;
      put (Lock (Some me) (lock_wchan l));; mret true
  end.

Definition lock_acquire (me : Z) (in_interrupt : bool) : K lock () :=
  l ← get;
  KASSERT (negb (lock_do_i_hold me l)) "!(lock_do_i_hold(lock))";;
  KASSERT (negb in_interrupt) "curthread->t_in_interrupt == false";;
  ok ← lock_try me;
  if ok : bool then mret tt else block.

Definition lock_release (me : Z) : K lock (option Z) :=
  l ← get;
  KASSERT (lock_do_i_hold me l) "lock_do_i_hold(lock)";;
  let '(target, wc) := wchan_wakeone (lock_wchan l) in
  put (Lock None wc);;
  mret target.

(** ** Condition variables *)

Definition cv := wchan.

Definition cv_create (m1 m2 m3 : bool) : option cv :=
  if m1 && m2 && m3 then Some [] else None.
Definition cv_destroy (c : cv) : K () () := wchan_destroy c.

Definition lock_part : lens (lock * cv) lock := Lens fst (fun l s => (l, s.2)).

(** [cv_wait] up to the point where the thread sleeps; the thread made runnable by
    the release of the lock.  On wake-up it goes on with [lock_acquire]. *)
Definition cv_wait_sleep (me : Z) : K (lock * cv) (option Z) :=
  s ← get;
  KASSERT (lock_do_i_hold me s.1) "lock_do_i_hold(lock)";;
  target ← zoom lock_part (lock_release me);
  modify (fun s => (s.1, s.2 ++ [me]));;
  mret target.

Definition cv_signal (me : Z) : K (lock * cv) (option Z) :=
  s ← get;
  KASSERT (lock_do_i_hold me s.1) "lock_do_i_hold(lock)";;
  let '(target, wc) := wchan_wakeone s.2 in
  put (s.1, wc);;
  mret target.

Definition cv_broadcast (me : Z) : K (lock * cv) (list Z) :=
  s ← get;
  KASSERT (lock_do_i_hold me s.1) "lock_do_i_hold(lock)";;
  let '(targets, wc) := wchan_wakeall s.2 in
  put (s.1, wc);;
  mret targets.

(** ** All threads on one semaphore

    [s_ready]: the threads inside [P] that are not asleep; [s_done] and [s_posts]
    count the completed [P] and [V]. *)
Record sem_sys := SemSys { s_sem : semaphore; s_ready : list Z; s_done : Z; s_posts : Z }.

Inductive sem_step : sem_sys -> sem_sys -> Prop :=
  | sem_call t s r d v :
      t ∉ r -> t ∉ sem_wchan s ->
      sem_step (SemSys s r d v) (SemSys s (t :: r) d v)
  | sem_try t s s' r1 r2 d v (ok : bool) :
      P_try t s = Ret ok s' ->
      sem_step (SemSys s (r1 ++ t :: r2) d v) (SemSys s' (r1 ++ r2) (if ok then d + 1 else d) v)
  | sem_post s s' r d v target :
      sem_count s + 1 < 2 ^ 32 ->
      V s = Ret target s' ->
      sem_step (SemSys s r d v) (SemSys s' (option_list target ++ r) d (v + 1)).

(** ** All threads on one monitor: a lock and a condition variable

    [m_ready]: the threads inside [lock_acquire] that are not asleep; [m_inside]:
    those that went through it and have not released the lock. *)
Record mon_sys := MonSys { m_lock : lock; m_cv : cv; m_ready : list Z; m_inside : list Z }.

Inductive mon_step : mon_sys -> mon_sys -> Prop :=
  | mon_call t l c r i :
      t ∉ r ++ i ++ lock_wchan l ++ c ->
      mon_step (MonSys l c r i) (MonSys l c (t :: r) i)
  | mon_try t l l' c r1 r2 i (ok : bool) :
      lock_try t l = Ret ok l' ->
      mon_step (MonSys l c (r1 ++ t :: r2) i)
               (MonSys l' c (r1 ++ r2) (if ok then t :: i else i))
  | mon_release t l l' c r i1 i2 target :
      lock_release t l = Ret target l' ->
      mon_step (MonSys l c r (i1 ++ t :: i2)) (MonSys l' c (option_list target ++ r) (i1 ++ i2))
  | mon_wait t l l' c c' r i1 i2 target :
      cv_wait_sleep t (l, c) = Ret target (l', c') ->
      mon_step (MonSys l c r (i1 ++ t :: i2)) (MonSys l' c' (option_list target ++ r) (i1 ++ i2))
  | mon_signal t l l' c c' r i target :
      t ∈ i -> cv_signal t (l, c) = Ret target (l', c') ->
      mon_step (MonSys l c r i) (MonSys l' c' (option_list target ++ r) i)
  | mon_broadcast t l l' c c' r i targets :
      t ∈ i -> cv_broadcast t (l, c) = Ret targets (l', c') ->
      mon_step (MonSys l c r i) (MonSys l' c' (targets ++ r) i).

Definition sem_init (n : Z) : sem_sys := SemSys (Semaphore n []) [] 0 0.
Definition mon_init : mon_sys := MonSys (Lock None []) [] [] [].
End Synch.

Section Synch_facts.
Import Synch.

Definition sem_inv (n : Z) (st : sem_sys) : Prop :=
  sem_count (s_sem st) = n + s_posts st - s_done st /\ 0 <= sem_count (s_sem st) < 2 ^ 32 /\
  NoDup (s_ready st ++ sem_wchan (s_sem st)) /\
  (sem_wchan (s_sem st) <> [] -> sem_count (s_sem st) <= Z.of_nat (length (s_ready st))).

Lemma P_try_eq t s :
  0 <= sem_count s < 2 ^ 32 ->
  P_try t s = if sem_count s =? 0 then Ret false (Semaphore (sem_count s) (sem_wchan s ++ [t]))
              else Ret true (Semaphore (sem_count s - 1) (sem_wchan s)).
Proof.
  intros Hc. unfold P_try. kunfold. destruct (Z.eqb_spec (sem_count s) 0); [done|].
  destruct (Z.ltb_spec 0 (sem_count s)); [|lia]. by rewrite u32_small by lia.
Qed.

Lemma V_eq s :
  0 <= sem_count s -> sem_count s + 1 < 2 ^ 32 ->
  V s = Ret (head (sem_wchan s)) (Semaphore (sem_count s + 1) (tail (sem_wchan s))).
Proof.
  intros H0 H1. unfold V. kunfold. rewrite u32_small by lia.
  destruct (Z.ltb_spec 0 (sem_count s + 1)); [|lia]. by destruct (sem_wchan s).
Qed.

Lemma NoDup_insert_front (t : Z) r w : t ∉ r -> t ∉ w -> NoDup (r ++ w) -> NoDup ((t :: r) ++ w).
Proof. intros. apply NoDup_cons. split; [|done]. rewrite elem_of_app. naive_solver. Qed.

Lemma NoDup_perm {A} (l k : list A) : l ≡ₚ k -> NoDup l -> NoDup k.
Proof. by intros ->. Qed.

Lemma sem_step_inv n st st' : sem_inv n st -> sem_step st st' -> sem_inv n st'.
Proof.
  intros (Hc & Hr & Hnd & Hw) Hs. destruct Hs as [t s r d v Ht1 Ht2|t s s' r1 r2 d v ok E|s s' r d v target Hv E];
    cbn in Hc, Hr, Hnd, Hw |- *.
  - split_and!; cbn; try lia; [by apply NoDup_insert_front|]. intros H. specialize (Hw H). lia.
  - rewrite P_try_eq in E by done. rewrite length_app in Hw. cbn in Hw.
    destruct (Z.eqb_spec (sem_count s) 0); injection E as <- <-; split_and!; cbn; try lia.
    + revert Hnd. apply NoDup_perm. solve_Permutation.
    + revert Hnd. rewrite <-!app_assoc. intros Hnd. apply NoDup_app in Hnd as (? & ? & [_ ?]%NoDup_cons).
      apply NoDup_app. split_and!; try done. intros x Hx Hx2. apply (H0 x); [done|]. by right.
    + intros H. specialize (Hw H). rewrite length_app. lia.
  - rewrite V_eq in E by lia. injection E as <- <-. unfold sem_inv. cbn.
    destruct (sem_wchan s) as [|w ws]; cbn; split_and!; cbn; try lia; try done.
    + revert Hnd. apply NoDup_perm. solve_Permutation.
    + intros _. specialize (Hw ltac:(done)). lia.
Qed.

(** Semaphores, under any interleaving: the count is the initial value plus the
    posts minus the completed waits, never negative; no thread is at two places;
    and no wake-up is lost: while threads sleep, at least as many threads are on
    their way to retry as there are units available.  A retry never trips the
    assertion, and it succeeds exactly when a unit is available. *)
Lemma semaphore_safe n st :
  0 <= n < 2 ^ 32 -> rtc sem_step (sem_init n) st ->
  sem_inv n st /\
  (forall t, t ∈ s_ready st -> exists ok s', P_try t (s_sem st) = Ret ok s' /\
     (ok = true <-> 0 < sem_count (s_sem st))).
Proof.
  intros Hn Hr.
  assert (Hinv : sem_inv n st).
  { refine (rtc_invariant _ _ _ _ (sem_step_inv n) Hr _).
    split_and!; cbn; try lia; try done. by apply NoDup_nil_2. }
  split; [done|]. intros t Ht. destruct Hinv as (_ & Hc & _).
  rewrite P_try_eq by done. destruct (Z.eqb_spec (sem_count (s_sem st)) 0); eexists _, _;
    (split; [reflexivity|]); [|naive_solver lia]. split; [done|lia].
Qed.

(** The invariant of the monitor: the holder is the one thread inside; no thread is
    at two places; and while threads sleep on the lock, either someone holds it or
    someone is on its way to take it. *)
Definition mon_inv (st : mon_sys) : Prop :=
  m_inside st = option_list (thread_who_acquired (m_lock st)) /\
  NoDup (m_inside st ++ m_ready st ++ lock_wchan (m_lock st) ++ m_cv st) /\
  (lock_wchan (m_lock st) <> [] -> m_inside st <> [] \/ m_ready st <> []).

Lemma lock_release_eq t l :
  lock_release t l =
    if lock_do_i_hold t l then Ret (head (lock_wchan l)) (Lock None (tail (lock_wchan l)))
    else Panic "lock_do_i_hold(lock)".
Proof. unfold lock_release. kunfold. destruct (lock_do_i_hold t l); [|done]. by destruct (lock_wchan l). Qed.

Lemma cv_wait_sleep_eq t l c :
  cv_wait_sleep t (l, c) =
    if lock_do_i_hold t l then Ret (head (lock_wchan l)) (Lock None (tail (lock_wchan l)), c ++ [t])
    else Panic "lock_do_i_hold(lock)".
Proof.
  unfold cv_wait_sleep. kunfold. cbn [fst snd].
  destruct (lock_do_i_hold t l) eqn:E; cbn [fst snd lget lset lock_part]; [|done].
  by rewrite lock_release_eq, E.
Qed.

Lemma inside_holder (t : Z) o i1 i2 : i1 ++ t :: i2 = option_list o -> i1 = [] /\ i2 = [] /\ o = Some t.
Proof. destruct o; cbn; destruct i1 as [|x [|y i1]]; cbn; intros [=]; subst; done. Qed.

Lemma mon_step_inv st st' : mon_inv st -> mon_step st st' -> mon_inv st'.
Proof.
  intros (Hi & Hnd & Hw) Hs. unfold mon_inv.
  destruct Hs as [t l c r i Ht|t l l' c r1 r2 i ok E|t l l' c r i1 i2 target E
    |t l l' c c' r i1 i2 target E|t l l' c c' r i target Ht E|t l l' c c' r i ts Ht E]; cbn in *.
  - split_and!; [done| |naive_solver].
    apply (NoDup_perm (t :: r ++ i ++ lock_wchan l ++ c)); [solve_Permutation|].
    apply NoDup_cons. split; [done|]. revert Hnd. apply NoDup_perm. solve_Permutation.
  - unfold lock_try in E. kunfold. destruct (thread_who_acquired l) as [h|] eqn:Eh;
      injection E as <- <-; cbn; rewrite ?Eh in *; cbn in *; subst i.
    + split_and!; [done| |by left]. revert Hnd. apply NoDup_perm. solve_Permutation.
    + split_and!; [done| |by left]. revert Hnd. apply NoDup_perm. solve_Permutation.
  - apply inside_holder in Hi as (-> & -> & Hh). rewrite lock_release_eq in E.
    destruct (lock_do_i_hold t l); [|done]. injection E as <- <-. cbn.
    destruct (lock_wchan l) as [|w ws]; cbn in *; (split_and!; [done| |naive_solver]);
      apply NoDup_cons in Hnd as [_ Hnd]; revert Hnd; apply NoDup_perm; solve_Permutation.
  - apply inside_holder in Hi as (-> & -> & Hh). rewrite cv_wait_sleep_eq in E.
    destruct (lock_do_i_hold t l); [|done]. injection E as <- <- <-. cbn.
    destruct (lock_wchan l) as [|w ws]; cbn in *; (split_and!; [done| |naive_solver]);
      revert Hnd; apply NoDup_perm; solve_Permutation.
  - unfold cv_signal in E. kunfold. cbn in E. destruct (lock_do_i_hold t l); [|done].
    destruct c as [|w ws]; cbn in E; injection E as <- <- <-; cbn; split_and!; try done;
      [|naive_solver]. revert Hnd. apply NoDup_perm. solve_Permutation.
  - unfold cv_broadcast in E. kunfold. cbn in E. destruct (lock_do_i_hold t l); [|done].
    injection E as <- <- <-. cbn. split_and!; [done| |].
    + revert Hnd. apply NoDup_perm. rewrite app_nil_r. solve_Permutation.
    + intros H. specialize (Hw H). destruct Hw as [|Hw]; [by left|]. right. by destruct c, r.
Qed.

(** C23. Monitors, under any interleaving of [lock_acquire], [lock_release], [cv_wait],
    [cv_signal] and [cv_broadcast]: at most one thread is between [lock_acquire] and
    [lock_release], and it is the recorded holder; no thread is at two places; and
    while threads sleep on the lock it is held or someone is about to take it.  The
    thread inside never trips the assertions of the four operations on the monitor,
    and a thread that is about to take a free lock gets it. *)
Theorem monitor_safe st :
  rtc mon_step mon_init st ->
  mon_inv st /\
  (forall t, t ∈ m_inside st -> lock_do_i_hold t (m_lock st) = true /\
     wp (lock_release t) (fun _ l => thread_who_acquired l = None) (m_lock st) /\
     wp (cv_wait_sleep t) (fun _ s => thread_who_acquired s.1 = None /\ s.2 = m_cv st ++ [t])
       (m_lock st, m_cv st) /\
     wp (cv_signal t) (fun target s => s.1 = m_lock st /\ option_list target ++ s.2 = m_cv st)
       (m_lock st, m_cv st) /\
     wp (cv_broadcast t) (fun targets s => s = (m_lock st, []) /\ targets = m_cv st)
       (m_lock st, m_cv st)) /\
  (forall t, t ∈ m_ready st -> wp (lock_try t) (fun ok l => ok = true <-> m_inside st = []) (m_lock st)).
Proof.
  intros Hr.
  assert (Hinv : mon_inv st).
  { refine (rtc_invariant _ _ _ _ mon_step_inv Hr _). split_and!; cbn; try done. by apply NoDup_nil_2. }
  split; [done|]. destruct st as [l c r i]. destruct Hinv as (Hi & _ & _).
  cbn [m_lock m_cv m_inside m_ready] in *. subst i. split.
  - intros t Ht. assert (Hh : lock_do_i_hold t l = true).
    { unfold lock_do_i_hold. apply bool_decide_eq_true.
      destruct (thread_who_acquired l); cbn in Ht; [by apply list_elem_of_singleton in Ht as ->|by apply elem_of_nil in Ht]. }
    split; [done|]. unfold wp. rewrite lock_release_eq, cv_wait_sleep_eq, Hh.
    unfold cv_signal, cv_broadcast. kunfold. cbn [fst snd]. rewrite Hh. cbn. by destruct c.
  - intros t _. unfold wp, lock_try. kunfold. by destruct (thread_who_acquired l).
Qed.

Definition sem_example : sem_sys := SemSys (Semaphore 1 []) [8] 1 1.

(** One unit: thread 7 takes it, thread 8 goes to sleep and is woken by a post. *)
Lemma sem_example_reachable : rtc sem_step (sem_init 1) sem_example.
Proof.
  apply (rtc_l _ _ (SemSys (Semaphore 1 []) [7] 0 0)); [apply (sem_call 7); set_solver|].
  apply (rtc_l _ _ (SemSys (Semaphore 0 []) [] 1 0)); [apply (sem_try 7 _ _ [] [] 0 0 true); reflexivity|].
  apply (rtc_l _ _ (SemSys (Semaphore 0 []) [8] 1 0)); [apply (sem_call 8); set_solver|].
  apply (rtc_l _ _ (SemSys (Semaphore 0 [8]) [] 1 0)); [apply (sem_try 8 _ _ [] [] 1 0 false); reflexivity|].
  apply rtc_once, (sem_post _ _ [] 1 0 (Some 8)); reflexivity.
Qed.

Lemma semaphore_safe_witness : sem_inv 1 sem_example /\ P_try 8 (s_sem sem_example) = Ret true (Semaphore 0 []).
Proof.
  split; [|reflexivity]. refine (proj1 (semaphore_safe 1 sem_example _ sem_example_reachable)). lia.
Defined.

Definition mon_example : mon_sys := MonSys (Lock (Some 8) []) [] [7] [8].

(** Thread 7 takes the lock and waits; thread 8 takes it and signals. *)
Lemma mon_example_reachable : rtc mon_step mon_init mon_example.
Proof.
  apply (rtc_l _ _ (MonSys (Lock None []) [] [7] [])); [apply (mon_call 7); set_solver|].
  apply (rtc_l _ _ (MonSys (Lock (Some 7) []) [] [] [7])); [apply (mon_try 7 _ _ _ [] [] _ true); reflexivity|].
  apply (rtc_l _ _ (MonSys (Lock None []) [7] [] [])); [apply (mon_wait 7 _ _ _ _ _ [] [] None); reflexivity|].
  apply (rtc_l _ _ (MonSys (Lock None []) [7] [8] [])); [apply (mon_call 8); set_solver|].
  apply (rtc_l _ _ (MonSys (Lock (Some 8) []) [7] [] [8])); [apply (mon_try 8 _ _ _ [] [] _ true); reflexivity|].
  apply rtc_once, (mon_signal 8 _ _ _ _ [] _ (Some 7)); [set_solver|reflexivity].
Qed.

Lemma monitor_safe_witness :
  mon_inv mon_example /\ wp (lock_try 7) (fun ok _ => ok = true <-> [8] = []) (m_lock mon_example).
Proof.
  split; [exact (proj1 (monitor_safe mon_example mon_example_reachable))|].
  refine (proj2 (proj2 (monitor_safe mon_example mon_example_reachable)) 7 _). set_solver.
Defined.
End Synch_facts.
