(* ===== verification/Files.v ===== *)
(** * Open files and file descriptors: [kern/syscall/file_syscalls.c]

    The system-wide table [systemFileTable], the [struct openfile]s of the kernel
    heap, their locks, and the file tables of the processes form one shared store;
    a file table holds pointers into it, so that aliasing (after [fork] and [dup2])
    is the source's.  The file system, user memory, the console and the allocator
    are an interface, [FileEnv]; what a system call promises is proved for every
    implementation of it. *)
From S2P Require Import Prelude Synch Copyinout Uio.
Import Synch Uio.

Record stat := Stat { st_size : Z; st_bytes : list Z }.

(** A path argument: a pointer of the process handed on as it is, or a string of the
    kernel. *)
Inductive path := UserPath (p : Z) | KernelPath (s : list Z).

Record openfile := Openfile {
  vn : option Z; mode : Z; offset : Z; accmode : Z; file_lock : option Z; ref_count : Z }.

(** What the system calls rely on.  Results are an error code or a value; a
    computation may also panic, as the code behind it does. *)
Class FileEnv (W : Type) := {
  (** [kmalloc] under a spinlock or not; the address of the block. *)
  kmalloc : bool -> K W (option Z);
  (** What a fresh block and an uninitialised variable hold. *)
  fresh_openfile : openfile;
  fresh_stat : stat;
  vfs_open : path -> Z -> Z -> K W (Z + Z);
  vfs_close : Z -> K W ();
  vfs_mkdir : path -> Z -> K W Z;
  VOP_READ : Z -> uio -> K W (Z * uio);
  VOP_WRITE : Z -> uio -> K W (Z * uio);
  (** Error code, and the buffer afterwards. *)
  VOP_STAT : Z -> stat -> K W (Z * stat);
  copyinstr : Z -> Z -> K W (Z + list Z);
  copyout : list Z -> Z -> K W Z;
  user_load : Z -> K W Z;
  user_store : Z -> Z -> K W ();
  putch : Z -> K W ();
  getch : K W Z;
  p_addrspace : W -> option Z;
  (** Laws: a transfer never moves more than asked, and advances the offset by the
      bytes it moved ([uiomove]). *)
  VOP_READ_ok v u w u' w' : VOP_READ v u w = Ret (0, u') w' ->
    0 <= uio_resid u' <= uio_resid u /\ uio_offset u' - uio_offset u = uio_resid u - uio_resid u';
  VOP_WRITE_ok v u w u' w' : VOP_WRITE v u w = Ret (0, u') w' ->
    0 <= uio_resid u' <= uio_resid u /\ uio_offset u' - uio_offset u = uio_resid u - uio_resid u';
  copyinstr_ok p len w l w' : copyinstr p len w = Ret (inr l) w' -> Z.of_nat (length l) < len }.

Module Files.
Definition OPEN_MAX : Z := 128.
Definition SYSTEM_OPEN_MAX : Z := 10 * OPEN_MAX.
Definition PATH_MAX : Z := 1024.
Definition O_RDONLY : Z := 0.
Definition O_WRONLY : Z := 1.
Definition O_RDWR : Z := 2.
Definition O_ACCMODE : Z := 3.
Definition O_APPEND : Z := 32.
Definition EINTR : Z := 5.
Definition SEEK_SET : Z := 0.
Definition SEEK_CUR : Z := 1.
Definition SEEK_END : Z := 2.
Definition INVALID_PTR : Z := 0x40000000.
Definition KERNEL_PTR : Z := 0x80000000.

(** A [struct openfile *]: into the static table or to the heap. *)
Inductive ofptr := OfSys (i : nat) | OfHeap (p : Z).

#[global] Instance ofptr_dec : EqDecision ofptr.
Proof. solve_decision. Defined.

(** [ftables]: the [fileTable] of each process; [cur]: the current one; [me]: the
    current thread. *)
Record files (W : Type) := State {
  sysft : list openfile; heap : gmap Z openfile; locks : gmap Z lock;
  ftables : gmap Z (list (option ofptr)); cur : Z; me : Z; world : W }.
Arguments State {W} _ _ _ _ _ _ _.
Arguments sysft {W} _.
Arguments heap {W} _.
Arguments locks {W} _.
Arguments ftables {W} _.
Arguments cur {W} _.
Arguments me {W} _.
Arguments world {W} _.

Section ops.
Context {W : Type} `{FileEnv W}.

Definition set_sysft (x : list openfile) (s : files W) : files W :=
  State x (heap s) (locks s) (ftables s) (cur s) (me s) (world s).
Definition set_heap (x : gmap Z openfile) (s : files W) : files W :=
  State (sysft s) x (locks s) (ftables s) (cur s) (me s) (world s).
Definition set_locks (x : gmap Z lock) (s : files W) : files W :=
  State (sysft s) (heap s) x (ftables s) (cur s) (me s) (world s).
Definition set_ftables (x : gmap Z (list (option ofptr))) (s : files W) : files W :=
  State (sysft s) (heap s) (locks s) x (cur s) (me s) (world s).
Definition world_lens : lens (files W) W :=
  Lens world (fun w s => State (sysft s) (heap s) (locks s) (ftables s) (cur s) (me s) w).

(** ** Memory *)

Definition read_of (p : ofptr) : K (files W) openfile :=
  s ← get;
  deref (match p with OfSys i => sysft s !! i | OfHeap a => heap s !! a end) "struct openfile".

Definition write_of (p : ofptr) (f : openfile -> openfile) : K (files W) () :=
  o ← read_of p;
  modify (fun s => match p with
                   | OfSys i => set_sysft (<[i := f o]> (sysft s)) s
                   | OfHeap a => set_heap (<[a := f o]> (heap s)) s
                   end).

Definition set_vn (x : option Z) (o : openfile) : openfile :=
  Openfile x (mode o) (offset o) (accmode o) (file_lock o) (ref_count o).
Definition set_mode (x : Z) (o : openfile) : openfile :=
  Openfile (vn o) x (offset o) (accmode o) (file_lock o) (ref_count o).
Definition set_offset (x : Z) (o : openfile) : openfile :=
  Openfile (vn o) (mode o) x (accmode o) (file_lock o) (ref_count o).
Definition set_accmode (x : Z) (o : openfile) : openfile :=
  Openfile (vn o) (mode o) (offset o) x (file_lock o) (ref_count o).
Definition set_file_lock (x : option Z) (o : openfile) : openfile :=
  Openfile (vn o) (mode o) (offset o) (accmode o) x (ref_count o).
Definition set_ref_count (x : Z) (o : openfile) : openfile :=
  Openfile (vn o) (mode o) (offset o) (accmode o) (file_lock o) x.

(** [curproc->fileTable[fd]]. *)
Definition fd_get (fd : Z) : K (files W) (option ofptr) :=
  s ← get;
  t ← deref (ftables s !! cur s) "curproc";
  if fd <? 0 then fault "fileTable[fd]" else deref (t !! Z.to_nat fd) "fileTable[fd]".

Definition fd_set_of (pid fd : Z) (p : option ofptr) : K (files W) () :=
  s ← get;
  t ← deref (ftables s !! pid) "proc";
  if (fd <? 0) || (Z.of_nat (length t) <=? fd) then fault "fileTable[fd]" else
  put (set_ftables (<[pid := <[Z.to_nat fd := p]> t]> (ftables s)) s).
Definition fd_set (fd : Z) (p : option ofptr) : K (files W) () :=
  s ← get; fd_set_of (cur s) fd p.

(** An operation on the lock behind a pointer. *)
Definition on_lock {A} (l : option Z) (m : Z -> K lock A) : K (files W) A :=
  s ← get;
  match l with
  | None => panic "lock != NULL"
  | Some i =>
      k ← deref (locks s !! i) "struct lock";
      match m (me s) k with
      | Ret a k' => put (set_locks (<[i := k']> (locks s)) s);; mret a
      | Panic w => panic w
      | Fault w => fault w
      | Block => block
      end
  end.
Definition acquire (l : option Z) : K (files W) () := on_lock l (fun t => lock_acquire t false).
Definition release (l : option Z) : K (files W) () := _ ← on_lock l lock_release; mret tt.
Definition unit_lens : lens (files W) () := Lens (fun _ => tt) (fun _ s => s).
Definition destroy (l : option Z) : K (files W) () :=
  s ← get;
  match l with
  | None => panic "lock != NULL"
  | Some i =>
      k ← deref (locks s !! i) "struct lock";
      zoom unit_lens (lock_destroy k);;
      modify (fun s => set_locks (delete i (locks s)) s)
  end.

(** [lock_create]: the structure, its name and its wait channel are allocated. *)
Definition create_lock : K (files W) (option Z) :=
  m1 ← zoom world_lens (kmalloc false);
  match m1 with
  | None => mret None
  | Some l =>
      m2 ← zoom world_lens (kmalloc false);
      m3 ← match m2 with None => mret None | Some _ => zoom world_lens (kmalloc false) end;
      match lock_create true (bool_decide (is_Some m2)) (bool_decide (is_Some m3)) with
      | None => mret None
      | Some k => modify (fun s => set_locks (<[l := k]> (locks s)) s);; mret (Some l)
      end
  end.

(** A system call returns a value and, unless it leaves [*err] alone, an error. *)
Definition fail (e : Z) : K (files W) (Z * option Z) := mret (-1, Some e).

Definition is_valid_fd (fd : Z) : K (files W) bool :=
  if (fd <? 0) || (OPEN_MAX <=? fd) then mret false else
  if (fd =? 0) || (fd =? 1) || (fd =? 2) then mret true else
  p ← fd_get fd;
  mret (bool_decide (is_Some p)).

Definition openfileIncrRefCount (ofp : option ofptr) : K (files W) () :=
  match ofp with
  | None => mret tt
  | Some p => write_of p (fun o => set_ref_count (u32 (ref_count o + 1)) o)
  end.

(** ** [proc_start_filetable] *)

Definition con_flags (i : nat) : Z := if decide (i = O) then O_RDONLY else O_WRONLY.

(** The loop from index [i]. *)
Fixpoint start_loop (i : nat) (args : list (list Z)) : K (files W) Z :=
  match args with
  | [] => mret 0
  | arg :: args =>
      if 255 <=? Z.of_nat (length arg) then fault "strcpy(buf, args[i])" else
      r ← zoom world_lens (vfs_open (KernelPath arg) (con_flags i) 0);
      match r with
      | inl result => mret result
      | inr v =>
          write_of (OfSys i) (set_vn (Some v));;
          write_of (OfSys i) (set_offset 0);;
          write_of (OfSys i) (set_accmode (Z.land (con_flags i) O_ACCMODE));;
          l ← create_lock;
          write_of (OfSys i) (set_file_lock l);;
          write_of (OfSys i) (set_ref_count 1);;
          m ← zoom world_lens (kmalloc false);
          fd_set (Z.of_nat i) (OfHeap <$> m);;
          match m with
          | None => mret (-1)
          | Some a =>
              o ← read_of (OfSys i);
              modify (fun s => set_heap (<[a := Openfile (vn o) (mode fresh_openfile) (offset o)
                                                  (accmode o) (file_lock o) (ref_count o)]> (heap s)) s);;
              start_loop (S i) args
          end
      end
  end.

Definition proc_start_filetable (strin strout strerr : list Z) : K (files W) Z :=
  m ← zoom world_lens (kmalloc false);
  match m with
  | None => mret (-1)
  | Some _ => start_loop 0 [strin; strout; strerr]
  end.

(** ** Reading and writing *)

Definition user_uio (rw : uio_rw_t) (buf size off : Z) (s : files W) : uio :=
  Uio [Iovec buf size] off size UIO_USERSPACE rw (p_addrspace (world s)).

Definition file_read (fd buf_ptr size : Z) : K (files W) (Z * option Z) :=
  ok ← is_valid_fd fd;
  if negb ok then fail EBADF else
  ofp ← fd_get fd;
  p ← deref ofp "of->file_lock";
  o ← read_of p;
  acquire (file_lock o);;
  match vn o with
  | None => release (file_lock o);; fail EINVAL
  | Some v =>
      if negb (accmode o =? O_RDWR) && negb (accmode o =? O_RDONLY) then
        release (file_lock o);; fail EBADF
      else
      s ← get;
      '(result, u) ← zoom world_lens (VOP_READ v (user_uio UIO_READ buf_ptr size (offset o) s));
      if negb (result =? 0) then release (file_lock o);; fail result else
      write_of p (set_offset (uio_offset u));;
      release (file_lock o);;
      mret (s32 (u32 (size - uio_resid u)), None)
  end.

Definition file_write (fd buf_ptr size : Z) : K (files W) (Z * option Z) :=
  ok ← is_valid_fd fd;
  if negb ok then fail EBADF else
  ofp ← fd_get fd;
  p ← deref ofp "of->file_lock";
  o ← read_of p;
  acquire (file_lock o);;
  match vn o with
  | None => release (file_lock o);; fail EINVAL
  | Some v =>
      if negb (accmode o =? O_RDWR) && negb (accmode o =? O_WRONLY) then
        release (file_lock o);; fail EBADF
      else
      s ← get;
      '(result, u) ← zoom world_lens (VOP_WRITE v (user_uio UIO_WRITE buf_ptr size (offset o) s));
      if negb (result =? 0) then release (file_lock o);; fail result else
      write_of p (set_offset (uio_offset u));;
      release (file_lock o);;
      mret (s32 (u32 (size - uio_resid u)), None)
  end.

Definition bad_ptr (p : Z) : bool := (p =? 0) || (p =? INVALID_PTR) || (KERNEL_PTR <=? p).

(** [for (i = 0; i < (int)size; i++) putch(p[i])], [n] turns left. *)
Fixpoint putch_loop (n : nat) (p : Z) : K (files W) () :=
  match n with
  | O => mret tt
  | S n =>
      c ← zoom world_lens (user_load p);
      zoom world_lens (putch c);;
      putch_loop n (p + 1)
  end.

(** The loop around [getch]: the index where it stops.  [char] is signed. *)
Fixpoint getch_loop (n : nat) (i p : Z) : K (files W) (option Z) :=
  match n with
  | O => mret None
  | S n =>
      c ← zoom world_lens getch;
      zoom world_lens (user_store (p + i) (u8 c));;
      if 128 <=? u8 c then mret (Some i) else getch_loop n (i + 1) p
  end.

(** [systemFileTable[fd].vn]. *)
Definition sys_vn (fd : Z) : K (files W) (option Z) :=
  o ← read_of (OfSys (Z.to_nat fd)); mret (vn o).

Definition sys_write (fd buf_ptr size : Z) : K (files W) (Z * option Z) :=
  if bad_ptr buf_ptr then fail EFAULT else
  if fd =? 0 then
    ofp ← fd_get fd;
    match ofp with
    | None => fail EINVAL
    | Some p =>
        o ← read_of p;
        v ← sys_vn fd;
        if bool_decide (vn o = v) then fail EINVAL else file_write fd buf_ptr size
    end
  else if (fd =? 1) || (fd =? 2) then
    ofp ← fd_get fd;
    match ofp with
    | Some _ => file_write fd buf_ptr size
    | None => putch_loop (Z.to_nat (s32 size)) buf_ptr;; mret (s32 size, None)
    end
  else file_write fd buf_ptr size.

Definition sys_read (fd buf_ptr size : Z) : K (files W) (Z * option Z) :=
  if bad_ptr buf_ptr then fail EFAULT else
  if (fd =? 2) || (fd =? 1) then
    ofp ← fd_get fd;
    match ofp with
    | None => fail EINVAL
    | Some p =>
        o ← read_of p;
        v ← sys_vn fd;
        if bool_decide (vn o = v) then fail EINVAL else file_read fd buf_ptr size
    end
  else if fd =? 0 then
    ofp ← fd_get fd;
    match ofp with
    | Some _ => file_read fd buf_ptr size
    | None =>
        r ← getch_loop (Z.to_nat (s32 size)) 0 buf_ptr;
        match r with Some i => mret (i, None) | None => mret (s32 size, None) end
    end
  else file_read fd buf_ptr size.

(** ** [sys_open] and [sys_close] *)

(** The search for a free slot in the system-wide table. *)
Definition free_slot (o : openfile) : Prop := vn o = None /\ file_lock o = None.
#[global] Instance free_slot_dec o : Decision (free_slot o).
Proof. unfold free_slot. apply _. Defined.
Definition find_slot (l : list openfile) : option nat := fst <$> list_find free_slot l.

(** The search for a free descriptor. *)
Definition find_fd (t : list (option ofptr)) : option nat := fst <$> list_find (fun p => p = None) t.

(** [vnode_check], on a null pointer. *)
Definition vnode_check (v : option Z) : K (files W) Z :=
  match v with Some v => mret v | None => panic "vnode_check: null vnode" end.

(** The search of the system-wide table, lines 450-464; None when it is full. *)
Definition fill_slot (accmode v : Z) : K (files W) (option ofptr) :=
  s ← get;
  match find_slot (sysft s) with
  | None => mret None
  | Some i =>
      write_of (OfSys i) (set_vn (Some v));;
      write_of (OfSys i) (set_offset 0);;
      write_of (OfSys i) (set_accmode accmode);;
      l ← create_lock;
      write_of (OfSys i) (set_file_lock l);;
      write_of (OfSys i) (set_ref_count 1);;
      mret (Some (OfSys i))
  end.

(** [sys_open] from there on. *)
Definition open_vnode (openflags accmode v : Z) : K (files W) (Z * option Z) :=
  ofp ← fill_slot accmode v;
  p ← deref ofp "of->file_lock";
  o ← read_of p;
  if bool_decide (file_lock o = None) then
    zoom world_lens (vfs_close v);; fail ENOMEM
  else
  append ← (if negb (Z.land openflags O_APPEND =? 0) then
              v' ← vnode_check (vn o);
              '(result, st) ← zoom world_lens (VOP_STAT v' fresh_stat);
              if negb (result =? 0) then mret false else
              write_of p (set_offset (st_size st));; mret true
            else mret true);
  if negb append then zoom world_lens (vfs_close v);; fail EINVAL else
  s ← get;
  t ← deref (ftables s !! cur s) "curproc";
  match find_fd t with
  | Some fd => fd_set (Z.of_nat fd) (Some p);; mret (Z.of_nat fd, None)
  | None => zoom world_lens (vfs_close v);; fail EMFILE
  end.

Definition sys_open (pathp openflags mode : Z) : K (files W) (Z * option Z) :=
  if pathp =? 0 then fail EFAULT else
  let accmode := Z.land openflags O_ACCMODE in
  if (negb (accmode =? O_RDONLY) && negb (accmode =? O_WRONLY) && negb (accmode =? O_RDWR)) &&
     (negb (openflags =? O_RDONLY) && negb (openflags =? O_WRONLY) && negb (openflags =? O_RDWR))
  then fail EINVAL else
  r ← zoom world_lens (copyinstr pathp PATH_MAX);
  match r with
  | inl result => fail result
  | inr fname =>
      if bool_decide (fname = []) then fail EINVAL else
      r ← zoom world_lens (vfs_open (UserPath pathp) openflags mode);
      match r with
      | inl result => fail result
      | inr v => open_vnode openflags accmode v
      end
  end.

Definition sys_close (fd : Z) : K (files W) (Z * option Z) :=
  ok ← is_valid_fd fd;
  if negb ok then fail EBADF else
  ofp ← fd_get fd;
  match ofp with
  | None => fail EBADF
  | Some p =>
      fd_set fd None;;
      o ← read_of p;
      write_of p (set_vn None);;
      match vn o with
      | None => fail EINVAL
      | Some v =>
          acquire (file_lock o);;
          if ref_count o =? 1 then
            zoom world_lens (vfs_close v);;
            release (file_lock o);;
            destroy (file_lock o);;
            mret (0, None)
          else
            KASSERT (1 <? ref_count o) "of->ref_count > 1";;
            write_of p (set_ref_count (ref_count o - 1));;
            release (file_lock o);;
            mret (0, None)
      end
  end.

(** ** [sys_fstat], [sys_mkdir], [sys_dup2], [sys_lseek] *)

Definition sys_fstat (fd buf : Z) : K (files W) (Z * option Z) :=
  if bad_ptr buf then fail EFAULT else
  ok ← is_valid_fd fd;
  if negb ok then fail EBADF else
  if (fd =? 0) || (fd =? 1) || (fd =? 2) then fail ENOSYS else
  ofp ← fd_get fd;
  p ← deref ofp "fileTable[fd]->file_lock";
  o ← read_of p;
  if bool_decide (file_lock o = None) then fail ENOSYS else
  v ← vnode_check (vn o);
  '(vopstat_res, st) ← zoom world_lens (VOP_STAT v fresh_stat);
  if negb (vopstat_res =? 0) then fail vopstat_res else
  co_res ← zoom world_lens (copyout (st_bytes st) buf);
  if negb (co_res =? 0) then fail co_res else
  mret (0, Some 0).

Definition sys_mkdir (pathname mode : Z) : K (files W) (Z * option Z) :=
  if bad_ptr pathname then fail EFAULT else
  r ← zoom world_lens (copyinstr pathname PATH_MAX);
  match r with
  | inl e => fail e
  | inr kbuf_pathname =>
      result ← zoom world_lens (vfs_mkdir (KernelPath kbuf_pathname) mode);
      if negb (result =? 0) then fail result else
      mret (0, Some 0)
  end.

Definition sys_dup2 (old_fd new_fd : Z) : K (files W) (Z * option Z) :=
  ok ← is_valid_fd old_fd;
  if negb ok || (new_fd <? 0) || (OPEN_MAX <=? new_fd) then fail EBADF else
  if old_fd =? new_fd then mret (new_fd, None) else
  ofp ← fd_get new_fd;
  closed ← match ofp with
           | None => mret true
           | Some _ => r ← sys_close new_fd; mret (r.1 =? 0)
           end;
  if negb closed then fail EINTR else
  m ← zoom world_lens (kmalloc true);
  match m with
  | None => fd_set new_fd None;; fail ENOMEM
  | Some a =>
      modify (fun s => set_heap (<[a := fresh_openfile]> (heap s)) s);;
      fd_set new_fd (Some (OfHeap a));;
      old ← fd_get old_fd;
      p ← deref old "fileTable[old_fd]->ref_count";
      write_of p (fun o => set_ref_count (u32 (ref_count o + 1)) o);;
      o ← read_of p;
      write_of (OfHeap a) (set_vn (vn o));;
      write_of (OfHeap a) (set_mode (mode o));;
      write_of (OfHeap a) (set_offset 0);;
      write_of (OfHeap a) (set_accmode (accmode o));;
      write_of (OfHeap a) (set_file_lock (file_lock o));;
      write_of (OfHeap a) (set_ref_count (ref_count o));;
      mret (0, Some 0)
  end.

(** [VOP_STAT(of->vn, &stat)] is expanded even when it fails. *)
Definition sys_lseek (fd off whence : Z) : K (files W) (Z * option Z) :=
  ok ← is_valid_fd fd;
  if negb ok then fail EBADF else
  if fd =? 0 then fail EINVAL else
  ofp ← fd_get fd;
  match ofp with
  | None => fail ENOSYS
  | Some p =>
      o ← read_of p;
      acquire (file_lock o);;
      if negb (whence =? SEEK_CUR) && negb (whence =? SEEK_SET) && negb (whence =? SEEK_END) then
        release (file_lock o);; fail EINVAL
      else
      actual_offset ←
        (if whence =? SEEK_SET then mret off
         else if whence =? SEEK_CUR then mret (s64 (offset o + off))
         else
           v ← vnode_check (vn o);
           '(_, st) ← zoom world_lens (VOP_STAT v fresh_stat);
           mret (s64 (st_size st + off)));
      if actual_offset <? 0 then release (file_lock o);; fail EINVAL else
      write_of p (set_offset actual_offset);;
      release (file_lock o);;
      mret (actual_offset, Some 0)
  end.

(** ** [fork] and [_exit]: [kern/proc/proc.c], [kern/syscall/exit.c] *)

(** The loop of [proc_file_table_copy] from [fd], [n] descriptors left. *)
Fixpoint copy_table (n : nat) (psrc pdest fd : Z) : K (files W) () :=
  match n with
  | O => mret tt
  | S n =>
      s ← get;
      t ← deref (ftables s !! psrc) "psrc";
      ofp ← deref (t !! Z.to_nat fd) "psrc->fileTable[fd]";
      fd_set_of pdest fd ofp;;
      openfileIncrRefCount ofp;;
      copy_table n psrc pdest (fd + 1)
  end.
Definition proc_file_table_copy (psrc pdest : Z) : K (files W) () :=
  copy_table (Z.to_nat OPEN_MAX) psrc pdest 0.

(** The loop of [close_all_files]. *)
Fixpoint close_loop (n : nat) (fd : Z) : K (files W) Z :=
  match n with
  | O => mret 0
  | S n =>
      ofp ← fd_get fd;
      match ofp with
      | None => close_loop n (fd + 1)
      | Some _ =>
          r ← sys_close fd;
          if negb (r.1 =? 0) then mret (-1) else close_loop n (fd + 1)
      end
  end.
Definition close_all_files : K (files W) Z := close_loop (Z.to_nat OPEN_MAX) 0.

(** ** Histories: the system calls of all processes, one after the other *)

Inductive call :=
  | Open (pathp openflags mode : Z) | Close (fd : Z) | Read (fd buf size : Z) | Write (fd buf size : Z)
  | Fstat (fd buf : Z) | Mkdir (pathname mode : Z) | Dup2 (old_fd new_fd : Z) | Lseek (fd off whence : Z)
  | Fork (child : Z) | Switch (pid : Z).

Definition do_call (c : call) : K (files W) (Z * option Z) :=
  match c with
  | Open p f m => sys_open p f m
  | Close fd => sys_close fd
  | Read fd b n => sys_read fd b n
  | Write fd b n => sys_write fd b n
  | Fstat fd b => sys_fstat fd b
  | Mkdir p m => sys_mkdir p m
  | Dup2 a b => sys_dup2 a b
  | Lseek fd o w => sys_lseek fd o w
  | Fork child => s ← get; proc_file_table_copy (cur s) child;; mret (0, None)
  | Switch pid =>
      modify (fun s => State (sysft s) (heap s) (locks s) (ftables s) pid (me s) (world s));; mret (0, None)
  end.

(** The result is the number of [open] calls that succeeded. *)
Fixpoint history (cs : list call) : K (files W) nat :=
  match cs with
  | [] => mret 0%nat
  | c :: cs =>
      r ← do_call c;
      n ← history cs;
      mret (if c is Open _ _ _ then if 0 <=? r.1 then S n else n else n)
  end.

(** ** Specification *)

Definition lookup_of (s : files W) (p : ofptr) : option openfile :=
  match p with OfSys i => sysft s !! i | OfHeap a => heap s !! a end.
Definition upd_of (p : ofptr) (o : openfile) (s : files W) : files W :=
  match p with
  | OfSys i => set_sysft (<[i := o]> (sysft s)) s
  | OfHeap a => set_heap (<[a := o]> (heap s)) s
  end.
Definition set_world (w : W) (s : files W) : files W :=
  State (sysft s) (heap s) (locks s) (ftables s) (cur s) (me s) w.

(** What the descriptor [fd] of process [pid] stands for. *)
Definition slot (s : files W) (pid fd : Z) : option ofptr :=
  t ← ftables s !! pid; if fd <? 0 then None else mjoin (t !! Z.to_nat fd).

(** Descriptor [fd] of the current process leads to [o], at [p], with a free lock. *)
Definition open_at (s : files W) (fd : Z) (p : ofptr) (o : openfile) : Prop :=
  0 <= fd < OPEN_MAX /\ slot s (cur s) fd = Some p /\ lookup_of s p = Some o /\
  exists l, file_lock o = Some l /\ locks s !! l = Some (Lock None []).

(** [s] with descriptor [fd] of [pid] set to [p]. *)
Definition with_fd (pid fd : Z) (p : option ofptr) (s : files W) : files W :=
  set_ftables (alter (fun t => <[Z.to_nat fd := p]> t) pid (ftables s)) s.
Definition without_lock (l : Z) (s : files W) : files W := set_locks (delete l (locks s)) s.

Definition set_cur (pid : Z) (s : files W) : files W :=
  State (sysft s) (heap s) (locks s) (ftables s) pid (me s) (world s).

(** How many descriptors of a table are [p]. *)
Definition refs (p : ofptr) (t : list (option ofptr)) : Z := Z.of_nat (length (filter (fun q => q = Some p) t)).

(** Number of free slots of the system-wide table. *)
Definition free_slots (s : files W) : nat := length (filter free_slot (sysft s)).
End ops.
End Files.

Section Files_facts.
Import Files.
Context {W : Type} `{FileEnv W}.
Implicit Types s : files W.


Lemma file_world_eq {A} (m : K W A) s a w :
  m (world s) = Ret a w -> zoom world_lens m s = Ret a (set_world w s).
Proof. intros E. exact (zoom_eq world_lens m s a w E). Qed.

Lemma slot_Some s pid fd p :
  slot s pid fd = Some p ->
  exists t, ftables s !! pid = Some t /\ 0 <= fd /\ t !! Z.to_nat fd = Some (Some p).
Proof.
  unfold slot. destruct (ftables s !! pid) as [t|]; [|done]. cbn. destruct (Z.ltb_spec fd 0); [done|].
  destruct (t !! Z.to_nat fd) as [[q|]|] eqn:E; [|done..]. intros [= ->]. by exists t.
Qed.

Lemma fd_get_Some s fd p : slot s (cur s) fd = Some p -> fd_get fd s = Ret (Some p) s.
Proof.
  intros (t & Ht & Hfd & Hp)%slot_Some. unfold fd_get. kunfold. rewrite Ht.
  destruct (Z.ltb_spec fd 0); [lia|]. by rewrite Hp.
Qed.

Lemma is_valid_fd_open s fd p :
  0 <= fd < OPEN_MAX -> slot s (cur s) fd = Some p -> is_valid_fd fd s = Ret true s.
Proof.
  intros Hfd Hp. unfold is_valid_fd, OPEN_MAX in *.
  destruct (Z.ltb_spec fd 0), (Z.leb_spec 128 fd); try lia. cbn [orb].
  destruct (_ || _ || _); [done|]. by rewrite (bind_eq _ _ _ _ _ (fd_get_Some _ _ _ Hp)).
Qed.

Lemma is_valid_fd_range fd s : ~ (0 <= fd < OPEN_MAX) -> is_valid_fd fd s = Ret false s.
Proof.
  intros Hfd. unfold is_valid_fd, OPEN_MAX in *. by destruct (Z.ltb_spec fd 0), (Z.leb_spec 128 fd); try lia.
Qed.

Lemma read_of_eq s p o : lookup_of s p = Some o -> read_of p s = Ret o s.
Proof. unfold read_of, lookup_of. kunfold. by intros ->. Qed.

Lemma write_of_eq s p o f : lookup_of s p = Some o -> write_of p f s = Ret tt (upd_of p (f o) s).
Proof.
  intros Hp. unfold write_of. rewrite (bind_eq _ _ _ _ _ (read_of_eq _ _ _ Hp)). kunfold.
  by destruct p.
Qed.

Lemma lookup_upd s p o o' : lookup_of s p = Some o -> lookup_of (upd_of p o' s) p = Some o'.
Proof.
  destruct p; cbn; [|by rewrite lookup_insert_eq].
  intros Hp. apply list_lookup_insert_eq. by eapply lookup_lt_Some.
Qed.
Lemma lookup_upd_ne s p q o : p <> q -> lookup_of (upd_of p o s) q = lookup_of s q.
Proof.
  intros Hpq. destruct p, q; cbn; try done; [apply list_lookup_insert_ne|apply lookup_insert_ne]; congruence.
Qed.

Definition held s (l : Z) : files W := set_locks (<[l := Lock (Some (me s)) []]> (locks s)) s.
Definition freed s (l : Z) : files W := set_locks (<[l := Lock None []]> (locks s)) s.

Lemma acquire_eq s l : locks s !! l = Some (Lock None []) -> acquire (Some l) s = Ret tt (held s l).
Proof. intros Hl. unfold acquire, on_lock. kunfold. by rewrite Hl. Qed.

Lemma release_eq s l : locks s !! l = Some (Lock (Some (me s)) []) -> release (Some l) s = Ret tt (freed s l).
Proof.
  intros Hl. unfold release, on_lock. kunfold. rewrite Hl. unfold lock_release. kunfold.
  unfold lock_do_i_hold. cbn [thread_who_acquired]. rewrite bool_decide_eq_true_2 by done. done.
Qed.


Lemma file_of_open s fd p o :
  open_at s fd p o ->
  exists l, is_valid_fd fd s = Ret true s /\ fd_get fd s = Ret (Some p) s /\ read_of p s = Ret o s /\
    file_lock o = Some l /\ acquire (Some l) s = Ret tt (held s l) /\ locks s !! l = Some (Lock None []).
Proof.
  intros (Hfd & Hslot & Ho & l & Hl & Hlk). exists l. split_and!; try done.
  - by eapply is_valid_fd_open.
  - by apply fd_get_Some.
  - by apply read_of_eq.
  - by apply acquire_eq.
Qed.

(** Releasing the lock after a change of the open file and the world restores the
    locks. *)
Lemma release_held s l p o w (k : files W -> files W) :
  locks s !! l = Some (Lock None []) ->
  k = set_world w \/ k = (fun s => upd_of p o (set_world w s)) \/ k = upd_of p o \/ k = (fun s => s) ->
  release (Some l) (k (held s l)) = Ret tt (k s).
Proof.
  intros Hl Hk.
  assert (Hh : <[l := Lock None []]> (<[l := Lock (Some (me s)) []]> (locks s)) = locks s)
    by (rewrite insert_insert_eq; by apply insert_id).
  destruct s as [sy he lo ft cu m wo]. cbn in *.
  destruct Hk as [->|[-> |[-> | ->]]]; try destruct p;
    rewrite release_eq by (cbn; by rewrite lookup_insert_eq);
    unfold freed, held, set_locks; cbn; by rewrite Hh.
Qed.

Definition readable (o : openfile) : bool := (accmode o =? O_RDWR) || (accmode o =? O_RDONLY).
Definition writable (o : openfile) : bool := (accmode o =? O_RDWR) || (accmode o =? O_WRONLY).

Lemma lookup_held s l p : lookup_of (held s l) p = lookup_of s p.
Proof. by destruct p. Qed.
Lemma lookup_world s w p : lookup_of (set_world w s) p = lookup_of s p.
Proof. by destruct p. Qed.

Lemma count_ok size u :
  0 <= size < 2 ^ 31 -> 0 <= uio_resid u <= size -> s32 (u32 (size - uio_resid u)) = size - uio_resid u.
Proof. intros. by rewrite u32_small, s32_small by lia. Qed.

Lemma file_read_eq s fd p o v buf size r u w :
  open_at s fd p o -> vn o = Some v ->
  VOP_READ v (user_uio UIO_READ buf size (offset o) s) (world s) = Ret (r, u) w ->
  file_read fd buf size s =
    if negb (readable o) then Ret (-1, Some EBADF) s
    else if negb (r =? 0) then Ret (-1, Some r) (set_world w s)
    else Ret (s32 (u32 (size - uio_resid u)), None) (upd_of p (set_offset (uio_offset u) o) (set_world w s)).
Proof.
  intros Hop Hv Hr. destruct (file_of_open _ _ _ _ Hop) as (l & H1 & H2 & H3 & Hl & H4 & Hlk).
  destruct Hop as (_ & _ & Ho & _).
  unfold file_read. run H1. cbn [negb]. run H2. cbn [deref]. rewrite bind_ret_l. run H3.
  rewrite Hl. run H4. rewrite Hv, <-negb_orb. fold (readable o).
  destruct (readable o); cbn [negb].
  2: { run (release_held s l p o (world s) (fun s => s)); [|done|tauto]. done. }
  change (VOP_READ v (user_uio UIO_READ buf size (offset o) (held s l)) (world (held s l)) = Ret (r, u) w) in Hr.
  rewrite (bind_eq get _ _ (held s l) (held s l)) by done. run (file_world_eq _ _ _ _ Hr).
  destruct (r =? 0); cbn [negb].
  2: { run (release_held s l p o w (set_world w)); [|done|tauto]. done. }
  run (write_of_eq (set_world w (held s l)) p o).
  2: { by rewrite lookup_world, lookup_held. }
  run (release_held s l p (set_offset (uio_offset u) o) w (fun s => upd_of p (set_offset (uio_offset u) o) (set_world w s))); [|done|tauto].
  done.
Qed.
Lemma file_write_eq s fd p o v buf size r u w :
  open_at s fd p o -> vn o = Some v ->
  VOP_WRITE v (user_uio UIO_WRITE buf size (offset o) s) (world s) = Ret (r, u) w ->
  file_write fd buf size s =
    if negb (writable o) then Ret (-1, Some EBADF) s
    else if negb (r =? 0) then Ret (-1, Some r) (set_world w s)
    else Ret (s32 (u32 (size - uio_resid u)), None) (upd_of p (set_offset (uio_offset u) o) (set_world w s)).
Proof.
  intros Hop Hv Hr. destruct (file_of_open _ _ _ _ Hop) as (l & H1 & H2 & H3 & Hl & H4 & Hlk).
  destruct Hop as (_ & _ & Ho & _).
  unfold file_write. run H1. cbn [negb]. run H2. cbn [deref]. rewrite bind_ret_l. run H3.
  rewrite Hl. run H4. rewrite Hv, <-negb_orb. fold (writable o).
  destruct (writable o); cbn [negb].
  2: { run (release_held s l p o (world s) (fun s => s)); [|done|tauto]. done. }
  change (VOP_WRITE v (user_uio UIO_WRITE buf size (offset o) (held s l)) (world (held s l)) = Ret (r, u) w) in Hr.
  rewrite (bind_eq get _ _ (held s l) (held s l)) by done. run (file_world_eq _ _ _ _ Hr).
  destruct (r =? 0); cbn [negb].
  2: { run (release_held s l p o w (set_world w)); [|done|tauto]. done. }
  run (write_of_eq (set_world w (held s l)) p o).
  2: { by rewrite lookup_world, lookup_held. }
  run (release_held s l p (set_offset (uio_offset u) o) w (fun s => upd_of p (set_offset (uio_offset u) o) (set_world w s))); [|done|tauto].
  done.
Qed.

Lemma dispatch fd buf size s :
  3 <= fd -> bad_ptr buf = false ->
  sys_read fd buf size s = file_read fd buf size s /\ sys_write fd buf size s = file_write fd buf size s.
Proof.
  intros Hfd Hb. unfold sys_read, sys_write. rewrite Hb.
  destruct (Z.eqb_spec fd 0), (Z.eqb_spec fd 1), (Z.eqb_spec fd 2); try lia. done.
Qed.

Lemma slot_None s fd :
  (exists t, ftables s !! cur s = Some t /\ length t = 128%nat) ->
  0 <= fd < OPEN_MAX -> slot s (cur s) fd = None -> fd_get fd s = Ret None s.
Proof.
  intros (t & Ht & Hlen) Hfd Hs. unfold fd_get, slot, OPEN_MAX in *. kunfold. rewrite Ht in *. cbn in Hs.
  destruct (Z.ltb_spec fd 0); [lia|].
  destruct (lookup_lt_is_Some_2 t (Z.to_nat fd)) as [q Hq]; [lia|]. rewrite Hq in *. by destruct q.
Qed.

(** A descriptor that is not open. *)
Definition closed_at (s : files W) (fd : Z) : Prop :=
  (exists t, ftables s !! cur s = Some t /\ length t = 128%nat) /\
  (~ (0 <= fd < OPEN_MAX) \/ 3 <= fd < OPEN_MAX /\ slot s (cur s) fd = None).

Lemma is_valid_fd_closed s fd : closed_at s fd -> is_valid_fd fd s = Ret false s.
Proof.
  intros (Ht & [Hfd|[Hfd Hs]]); [by apply is_valid_fd_range|].
  assert (Hg : fd_get fd s = Ret None s) by (apply slot_None; unfold OPEN_MAX in *; [done|lia|done]).
  unfold is_valid_fd, OPEN_MAX in *. destruct (Z.ltb_spec fd 0), (Z.leb_spec 128 fd),
    (Z.eqb_spec fd 0), (Z.eqb_spec fd 1), (Z.eqb_spec fd 2); try lia. cbn [orb].
  run Hg. done.
Qed.

Lemma open_or_closed s fd p o : open_at s fd p o -> ~ closed_at s fd.
Proof. intros (? & Hs & _) (_ & [?|[_ ?]]); [done|congruence]. Qed.

(** A file that has lost its vnode. *)
Lemma read_write_gone s fd p o buf size :
  open_at s fd p o -> vn o = None ->
  file_read fd buf size s = Ret (-1, Some EINVAL) s /\ file_write fd buf size s = Ret (-1, Some EINVAL) s.
Proof.
  intros Hop Hv. destruct (file_of_open _ _ _ _ Hop) as (l & H1 & H2 & H3 & Hl & H4 & Hlk).
  unfold file_read, file_write. split; run H1; cbn [negb]; run H2; cbn [deref]; rewrite bind_ret_l;
    run H3; rewrite Hl; run H4; rewrite Hv;
    (run (release_held s l p o (world s) (fun s => s)); [|done|tauto]); done.
Qed.

(** The standard descriptors with an entry: [read] on 1 and 2, and [write] on 0, compare
    the entry's vnode with the one [systemFileTable] has at the descriptor's number. *)
Definition same_vnode s (fd : Z) (o : openfile) : bool :=
  match sysft s !! Z.to_nat fd with Some o' => bool_decide (vn o = vn o') | None => false end.
Definition read_refused s (fd : Z) (o : openfile) : bool := ((fd =? 1) || (fd =? 2)) && same_vnode s fd o.
Definition write_refused s (fd : Z) (o : openfile) : bool := (fd =? 0) && same_vnode s fd o.

Lemma dispatch_open s fd buf size p o :
  open_at s fd p o -> (3 <= length (sysft s))%nat -> bad_ptr buf = false ->
  sys_read fd buf size s = (if read_refused s fd o then Ret (-1, Some EINVAL) s else file_read fd buf size s) /\
  sys_write fd buf size s = (if write_refused s fd o then Ret (-1, Some EINVAL) s else file_write fd buf size s).
Proof.
  intros Hop Hlen Hb. destruct (file_of_open _ _ _ _ Hop) as (l & _ & Hg & Ho & _). destruct Hop as ([Hfd _] & _).
  assert (Hsys : fd < 3 -> exists o', sysft s !! Z.to_nat fd = Some o' /\ sys_vn fd s = Ret (vn o') s).
  { intros Hlt. destruct (lookup_lt_is_Some_2 (sysft s) (Z.to_nat fd)) as [o' Ho']; [lia|]. exists o'. split; [done|].
    unfold sys_vn. by run (read_of_eq s (OfSys (Z.to_nat fd)) o' Ho'). }
  unfold sys_read, sys_write, read_refused, write_refused, same_vnode. rewrite Hb.
  destruct (Z.eqb_spec fd 0), (Z.eqb_spec fd 1), (Z.eqb_spec fd 2); try lia; cbn [orb andb]; try done;
    (destruct Hsys as (o' & -> & Hv); [lia|]); split; run Hg; try done; run Ho; run Hv; by case_bool_decide.
Qed.

(** The console gives, or takes, these characters, at [p + i] of user memory. *)
Fixpoint console_takes (p : Z) (l : list Z) (w w' : W) : Prop :=
  match l with
  | [] => w' = w
  | c :: l => exists w1 w2, user_load p w = Ret c w1 /\ putch c w1 = Ret tt w2 /\ console_takes (p + 1) l w2 w'
  end.
Fixpoint console_gives (p i : Z) (l : list Z) (w w' : W) : Prop :=
  match l with
  | [] => w' = w
  | c :: l => exists w1 w2, getch w = Ret c w1 /\ user_store (p + i) (u8 c) w1 = Ret tt w2 /\ console_gives p (i + 1) l w2 w'
  end.

Lemma putch_loop_eq l p w' s :
  console_takes p l (world s) w' -> putch_loop (length l) p s = Ret tt (set_world w' s).
Proof.
  revert p s. induction l as [|c l IH]; intros p s; cbn [console_takes length putch_loop].
  - intros ->. by destruct s.
  - intros (w1 & w2 & E1 & E2 & Hl). run (file_world_eq _ _ _ _ E1).
    run (file_world_eq (putch c) (set_world w1 s) _ _ E2). exact (IH (p + 1) (set_world w2 s) Hl).
Qed.

Lemma getch_loop_eq l : forall n i p w' s,
  Forall (fun c => u8 c < 128) l -> console_gives p i l (world s) w' ->
  getch_loop (length l + n) i p s = getch_loop n (i + Z.of_nat (length l)) p (set_world w' s).
Proof.
  induction l as [|c l IH]; intros n i p w' s Hc; cbn [console_gives length Nat.add getch_loop].
  - intros ->. rewrite Z.add_0_r. by destruct s.
  - intros (w1 & w2 & E1 & E2 & Hl). inversion_clear Hc as [|? ? Hc1 Hc2].
    run (file_world_eq _ _ _ _ E1). run (file_world_eq (user_store _ _) (set_world w1 s) _ _ E2).
    destruct (Z.leb_spec 128 (u8 c)); [lia|]. replace (i + Z.of_nat (S (length l))) with (i + 1 + Z.of_nat (length l)) by lia.
    exact (IH n (i + 1) p w' (set_world w2 s) Hc2 Hl).
Qed.

(** A standard descriptor without an entry. *)
Lemma console_read s buf size l w' :
  bad_ptr buf = false -> fd_get 0 s = Ret None s -> 0 <= size < 2 ^ 31 -> console_gives buf 0 l (world s) w' ->
  (Forall (fun c => u8 c < 128) l -> Z.of_nat (length l) = size -> sys_read 0 buf size s = Ret (size, None) (set_world w' s)) /\
  (forall l' c, l = l' ++ [c] -> Forall (fun c => u8 c < 128) l' -> 128 <= u8 c -> Z.of_nat (length l) <= size ->
     sys_read 0 buf size s = Ret (Z.of_nat (length l'), None) (set_world w' s)).
Proof.
  intros Hb Hg Hsize Hl. unfold sys_read. rewrite Hb, s32_small by lia. cbn [Z.eqb orb]. split.
  - intros Hc Hn. run Hg. rewrite <-Hn, Nat2Z.id, <-(Nat.add_0_r (length l)).
    erewrite bind_eq; [|by rewrite (getch_loop_eq l 0 0 buf w' s Hc Hl)]. cbv beta iota. by rewrite Nat.add_0_r.
  - intros l' c -> Hc' Hc Hn. rewrite length_app in Hn. cbn [length] in Hn. run Hg.
    assert (Hsplit : forall i w, console_gives buf i (l' ++ [c]) w w' -> exists w1 w2, console_gives buf i l' w w1 /\
              getch w1 = Ret c w2 /\ user_store (buf + (i + Z.of_nat (length l'))) (u8 c) w2 = Ret tt w').
    { clear. induction l' as [|c' l' IH]; intros i w; cbn [app console_gives length].
      - intros (w1 & w2 & E1 & E2 & ->). exists w, w1. by rewrite Z.add_0_r.
      - intros (w1 & w2 & E1 & E2 & (w3 & w4 & H1 & H2 & H3)%IH). exists w3, w4. split; [by exists w1, w2|].
        split; [done|]. by replace (i + Z.of_nat (S (length l'))) with (i + 1 + Z.of_nat (length l')) by lia. }
    destruct (Hsplit 0 _ Hl) as (w1 & w2 & H1 & H2 & H3).
    replace (Z.to_nat size) with (length l' + S (Z.to_nat size - length l' - 1))%nat by lia.
    erewrite bind_eq; [|rewrite (getch_loop_eq l' _ 0 buf w1 s Hc' H1); cbn [getch_loop];
      run (file_world_eq _ (set_world w1 s) _ _ H2); run (file_world_eq (user_store _ _) (set_world w2 (set_world w1 s)) _ _ H3);
      destruct (Z.leb_spec 128 (u8 c)); [reflexivity|lia]].
    done.
Qed.

Lemma console_write s fd buf size l w' :
  bad_ptr buf = false -> fd = 1 \/ fd = 2 -> fd_get fd s = Ret None s -> 0 <= size < 2 ^ 31 ->
  console_takes buf l (world s) w' -> Z.of_nat (length l) = size ->
  sys_write fd buf size s = Ret (size, None) (set_world w' s).
Proof.
  intros Hb Hfd Hg Hsize Hl Hn. unfold sys_write. rewrite Hb, s32_small by lia.
  assert (E : (putch_loop (Z.to_nat size) buf;; mret (size, None)) s = Ret (size, None : option Z) (set_world w' s)).
  { rewrite <-Hn, Nat2Z.id. by run (putch_loop_eq l buf w' s Hl). }
  destruct Hfd as [-> | ->]; cbn [Z.eqb Pos.eqb orb]; run Hg; exact E.
Qed.

Lemma count_word size u :
  0 <= size < 2 ^ 32 -> 0 <= uio_resid u <= size -> u32 (size - uio_resid u) = size - uio_resid u.
Proof. intros. by rewrite u32_small by lia. Qed.

(** C12. [read] and [write], for every descriptor and pointer; the lock of the open file,
    if there is one, is free (otherwise the call sleeps).  A bad pointer (NULL,
    0x40000000 or a kernel address) gives EFAULT, a descriptor out of range or closed
    EBADF.  Standard descriptors are special: closed, 0 reads characters from the
    console up to the size or to a character from 128 on, 1 and 2 write to it, and the
    other direction is EINVAL; open, the other direction is EINVAL when the entry's
    vnode is the one at the same index of the system-wide table.  In all other cases a
    file without vnode gives EINVAL and the wrong access mode EBADF, with nothing
    changed; otherwise the vnode operation is called at the file's offset, and its error
    is passed on with the offset unchanged, or the result is the number of bytes moved
    (as a 32-bit int), between 0 and the size asked for, and the offset of the open
    file, hence of every descriptor that shares it, advances by exactly that number.
    The lock of the file is free afterwards; nothing else changes. *)
Theorem read_write_correct s fd buf size :
  0 <= size < 2 ^ 32 ->
  (bad_ptr buf = true ->
     sys_read fd buf size s = Ret (-1, Some EFAULT) s /\ sys_write fd buf size s = Ret (-1, Some EFAULT) s) /\
  (bad_ptr buf = false -> closed_at s fd ->
     sys_read fd buf size s = Ret (-1, Some EBADF) s /\ sys_write fd buf size s = Ret (-1, Some EBADF) s) /\
  (bad_ptr buf = false -> (exists t, ftables s !! cur s = Some t /\ length t = 128%nat) ->
   0 <= fd < 3 -> slot s (cur s) fd = None ->
     (fd <> 0 -> sys_read fd buf size s = Ret (-1, Some EINVAL) s) /\
     (fd = 0 -> sys_write fd buf size s = Ret (-1, Some EINVAL) s) /\
     forall l w', size < 2 ^ 31 ->
       (fd <> 0 -> console_takes buf l (world s) w' -> Z.of_nat (length l) = size ->
          sys_write fd buf size s = Ret (size, None) (set_world w' s)) /\
       (fd = 0 -> console_gives buf 0 l (world s) w' ->
          (Forall (fun c => u8 c < 128) l -> Z.of_nat (length l) = size ->
             sys_read fd buf size s = Ret (size, None) (set_world w' s)) /\
          (forall l' c, l = l' ++ [c] -> Forall (fun c => u8 c < 128) l' -> 128 <= u8 c -> Z.of_nat (length l) <= size ->
             sys_read fd buf size s = Ret (Z.of_nat (length l'), None) (set_world w' s)))) /\
  (forall p o, bad_ptr buf = false -> open_at s fd p o -> (3 <= length (sysft s))%nat ->
    (read_refused s fd o = true \/ vn o = None -> sys_read fd buf size s = Ret (-1, Some EINVAL) s) /\
    (write_refused s fd o = true \/ vn o = None -> sys_write fd buf size s = Ret (-1, Some EINVAL) s) /\
    forall v r u w, vn o = Some v ->
      (read_refused s fd o = false ->
       VOP_READ v (user_uio UIO_READ buf size (offset o) s) (world s) = Ret (r, u) w ->
         (readable o = false -> sys_read fd buf size s = Ret (-1, Some EBADF) s) /\
         (readable o = true -> r <> 0 -> sys_read fd buf size s = Ret (-1, Some r) (set_world w s)) /\
         (readable o = true -> r = 0 -> exists n, 0 <= n <= size /\
            sys_read fd buf size s =
              Ret (s32 n, None) (upd_of p (set_offset (offset o + n) o) (set_world w s)))) /\
      (write_refused s fd o = false ->
       VOP_WRITE v (user_uio UIO_WRITE buf size (offset o) s) (world s) = Ret (r, u) w ->
         (writable o = false -> sys_write fd buf size s = Ret (-1, Some EBADF) s) /\
         (writable o = true -> r <> 0 -> sys_write fd buf size s = Ret (-1, Some r) (set_world w s)) /\
         (writable o = true -> r = 0 -> exists n, 0 <= n <= size /\
            sys_write fd buf size s =
              Ret (s32 n, None) (upd_of p (set_offset (offset o + n) o) (set_world w s))))).
Proof.
  intros Hsize. split; [|split; [|split]].
  - intros Hb. unfold sys_read, sys_write. by rewrite Hb.
  - intros Hb Hc. assert (Hv := is_valid_fd_closed s fd Hc).
    assert (Hd : sys_read fd buf size s = file_read fd buf size s /\ sys_write fd buf size s = file_write fd buf size s).
    { unfold sys_read, sys_write. rewrite Hb. destruct Hc as (_ & Hfd). unfold OPEN_MAX in Hfd.
      destruct (Z.eqb_spec fd 0), (Z.eqb_spec fd 1), (Z.eqb_spec fd 2); try lia. done. }
    destruct Hd as [-> ->]. unfold file_read, file_write. split; by run Hv.
  - intros Hb Ht Hfd Hs. assert (Hg : fd_get fd s = Ret None s) by (apply slot_None; unfold OPEN_MAX; [done|lia|done]).
    split; [|split; [|intros l w' Hsz; split]].
    + intros Hne. unfold sys_read. rewrite Hb. replace ((fd =? 2) || (fd =? 1)) with true by lia. by run Hg.
    + intros ->. unfold sys_write. rewrite Hb. cbn [Z.eqb]. by run Hg.
    + intros Hne Hl Hn. apply (console_write s fd buf size l w'); try done; lia.
    + intros -> Hl. apply console_read; [done|done|lia|done].
  - intros p o Hb Hop Hlen. destruct (dispatch_open s fd buf size p o Hop Hlen Hb) as [-> ->].
    split; [|split; [|intros v r u w Hv; split]].
    + intros [->|Hv]; [done|]. destruct (read_refused s fd o); [done|]. by apply (read_write_gone _ _ _ _ _ _ Hop).
    + intros [->|Hv]; [done|]. destruct (write_refused s fd o); [done|]. by apply (read_write_gone _ _ _ _ _ _ Hop).
    + intros -> Hr. rewrite (file_read_eq _ _ _ _ _ _ _ _ _ _ Hop Hv Hr). split_and!; [by intros ->| |].
      * intros -> Hne. cbn [negb]. by destruct (Z.eqb_spec r 0).
      * intros -> ->. cbn [negb Z.eqb]. pose proof (VOP_READ_ok _ _ _ _ _ Hr) as [Hn Ho]. cbn in Hn, Ho.
        exists (size - uio_resid u). split; [lia|]. rewrite count_word by lia. do 4 f_equal. lia.
    + intros -> Hr. rewrite (file_write_eq _ _ _ _ _ _ _ _ _ _ Hop Hv Hr). split_and!; [by intros ->| |].
      * intros -> Hne. cbn [negb]. by destruct (Z.eqb_spec r 0).
      * intros -> ->. cbn [negb Z.eqb]. pose proof (VOP_WRITE_ok _ _ _ _ _ Hr) as [Hn Ho]. cbn in Hn, Ho.
        exists (size - uio_resid u). split; [lia|]. rewrite count_word by lia. do 4 f_equal. lia.
Qed.

Definition seek_target (o : openfile) (size off whence : Z) : Z :=
  if whence =? SEEK_SET then off
  else if whence =? SEEK_CUR then s64 (offset o + off) else s64 (size + off).

(** [lseek] on an open file sets the offset to the target the caller asked for and
    returns it, or returns EINVAL with nothing changed when the target is negative or
    [whence] is none of the three; the file's lock is free afterwards.  The result of
    [VOP_STAT] is ignored: when it fails, the file size used is whatever the local
    variable held. *)
Lemma lseek_correct s fd off whence p o v r st w :
  open_at s fd p o -> fd <> 0 -> vn o = Some v ->
  VOP_STAT v fresh_stat (world s) = Ret (r, st) w ->
  let s' := if whence =? SEEK_END then set_world w s else s in
  let target := seek_target o (st_size st) off whence in
  sys_lseek fd off whence s =
    if ((whence =? SEEK_SET) || (whence =? SEEK_CUR) || (whence =? SEEK_END)) && (0 <=? target)
    then Ret (target, Some 0) (upd_of p (set_offset target o) s')
    else Ret (-1, Some EINVAL) s'.
Proof.
  intros Hop Hfd Hv Hst s' target. destruct (file_of_open _ _ _ _ Hop) as (l & H1 & H2 & H3 & Hl & H4 & Hlk).
  destruct Hop as (_ & _ & Ho & _).
  unfold sys_lseek. run H1. cbn [negb]. destruct (Z.eqb_spec fd 0); [done|]. run H2. run H3.
  rewrite Hl. run H4.
  change (VOP_STAT v fresh_stat (world (held s l)) = Ret (r, st) w) in Hst.
  assert (Hrel : forall k, k = set_world w \/ k = (fun s => s) -> release (Some l) (k (held s l)) = Ret tt (k s)).
  { intros k Hk. apply (release_held s l p o w); [done|naive_solver]. }
  assert (Hok : forall k, k = set_world w \/ k = (fun s => s) ->
            (write_of p (set_offset target);; release (Some l);; mret (target, Some 0)) (k (held s l)) =
            Ret (target, Some 0) (upd_of p (set_offset target o) (k s))).
  { intros k Hk. run (write_of_eq (k (held s l)) p o).
    2: { destruct Hk as [-> | ->]; by rewrite ?lookup_world, lookup_held. }
    destruct Hk as [-> | ->].
    - run (release_held s l p (set_offset target o) w (fun s => upd_of p (set_offset target o) (set_world w s)));
        [done|done|tauto].
    - run (release_held s l p (set_offset target o) w (upd_of p (set_offset target o))); [done|done|tauto]. }
  assert (Hfin : forall k t, k = set_world w \/ k = (fun s => s) -> t = target ->
            (if t <? 0 then release (Some l);; fail EINVAL
             else write_of p (set_offset t);; release (Some l);; mret (t, Some 0)) (k (held s l)) =
            if 0 <=? target then Ret (target, Some 0) (upd_of p (set_offset target o) (k s))
            else Ret (-1, Some EINVAL) (k s)).
  { intros k t Hk ->. rewrite Z.ltb_antisym. destruct (0 <=? target); cbn [negb]; [by apply Hok|].
    run (Hrel k Hk). done. }
  unfold seek_target, SEEK_SET, SEEK_CUR, SEEK_END in *.
  destruct (Z.eqb_spec whence 0) as [-> |]; [|destruct (Z.eqb_spec whence 1) as [-> |];
    [|destruct (Z.eqb_spec whence 2) as [-> |]]]; cbn [negb andb orb Z.eqb Pos.eqb] in *.
  - exact (Hfin (fun s => s) off (or_intror eq_refl) eq_refl).
  - exact (Hfin (fun s => s) _ (or_intror eq_refl) eq_refl).
  - rewrite Hv. cbn [vnode_check]. rewrite bind_ret_l.
    erewrite bind_eq; [|by run (file_world_eq _ _ _ _ Hst)].
    exact (Hfin (set_world w) _ (or_introl eq_refl) eq_refl).
  - run (Hrel (fun s => s)); [done|tauto].
Qed.

Lemma fd_set_of_eq s pid fd p t :
  ftables s !! pid = Some t -> 0 <= fd < Z.of_nat (length t) ->
  fd_set_of pid fd p s = Ret tt (with_fd pid fd p s).
Proof.
  intros Ht Hfd. unfold fd_set_of, with_fd. kunfold. rewrite Ht.
  destruct (Z.ltb_spec fd 0), (Z.leb_spec (Z.of_nat (length t)) fd); try lia. cbn [orb].
  f_equal. unfold set_ftables. f_equal. apply map_eq. intros q. destruct (decide (q = pid)) as [->|].
  - by rewrite lookup_insert_eq, lookup_alter_eq, Ht.
  - by rewrite lookup_insert_ne, lookup_alter_ne by done.
Qed.

Lemma slot_with_fd_ne s pid fd p pid' fd' :
  0 <= fd -> (pid', fd') <> (pid, fd) -> slot (with_fd pid fd p s) pid' fd' = slot s pid' fd'.
Proof.
  intros Hfd Hne. unfold slot, with_fd. cbn. destruct (decide (pid' = pid)) as [->|].
  - rewrite lookup_alter_eq. destruct (ftables s !! pid) as [t|]; [|done]. cbn.
    destruct (Z.ltb_spec fd' 0); [done|]. rewrite list_lookup_insert_ne; [done|].
    intros E. apply Z2Nat.inj in E; [|done..]. congruence.
  - by rewrite lookup_alter_ne.
Qed.

Lemma slot_with_fd_eq s pid fd p t :
  ftables s !! pid = Some t -> 0 <= fd < Z.of_nat (length t) -> slot (with_fd pid fd p s) pid fd = p.
Proof.
  intros Ht Hfd. unfold slot, with_fd. cbn. rewrite lookup_alter_eq, Ht. cbn.
  destruct (Z.ltb_spec fd 0); [lia|]. rewrite list_lookup_insert_eq by lia. by destruct p.
Qed.

(** The state in which [sys_close] leaves an open file with other references. *)
Definition closed_shared (s : files W) (fd : Z) (p : ofptr) (o : openfile) : files W :=
  upd_of p (set_ref_count (ref_count o - 1) (set_vn None o)) (with_fd (cur s) fd None s).

Lemma file_upd_upd s p o o' : upd_of p o (upd_of p o' s) = upd_of p o s.
Proof.
  destruct p; destruct s; cbn; unfold set_sysft, set_heap; cbn; f_equal;
    [apply list_insert_insert_eq|apply insert_insert_eq].
Qed.

Lemma destroy_eq s l : locks s !! l = Some (Lock None []) -> destroy (Some l) s = Ret tt (without_lock l s).
Proof. intros Hl. unfold destroy. kunfold. by rewrite Hl. Qed.

Section close.
Context (s : files W) (fd : Z) (p : ofptr) (o : openfile) (l : Z) (t : list (option ofptr)).
Hypotheses (Hop : open_at s fd p o) (Hl : file_lock o = Some l).
Hypotheses (Ht : ftables s !! cur s = Some t) (Hlen : length t = 128%nat).

(** The state when the descriptor is cleared and the vnode pointer taken. *)
Definition cleared : files W := upd_of p (set_vn None o) (with_fd (cur s) fd None s).

Lemma cleared_lock : locks cleared !! l = Some (Lock None []).
Proof.
  destruct Hop as (_ & _ & _ & l' & Hl' & Hlk). rewrite Hl in Hl'. injection Hl' as <-.
  unfold cleared. by destruct p.
Qed.

Lemma cleared_file : lookup_of cleared p = Some (set_vn None o).
Proof. destruct Hop as (_ & _ & Ho & _). apply (lookup_upd _ _ o). by destruct p. Qed.

Lemma sys_close_start :
  sys_close fd s = (match vn o with
      | None => fail EINVAL
      | Some v =>
          acquire (file_lock o);;
          if ref_count o =? 1 then
            zoom world_lens (vfs_close v);;
            release (file_lock o);;
            destroy (file_lock o);;
            mret (0, None)
          else
            KASSERT (1 <? ref_count o) "of->ref_count > 1";;
            write_of p (set_ref_count (ref_count o - 1));;
            release (file_lock o);;
            mret (0, None)
      end) cleared.
Proof.
  destruct (file_of_open _ _ _ _ Hop) as (l' & H1 & H2 & _). destruct Hop as (Hfd & _ & Ho & _).
  unfold OPEN_MAX in Hfd. set (s1 := with_fd (cur s) fd None s).
  assert (Hset : fd_set fd None s = Ret tt s1).
  { unfold fd_set. rewrite (bind_eq get _ _ s s) by done. apply (fd_set_of_eq _ _ _ _ t); [done|lia]. }
  assert (Ho1 : lookup_of s1 p = Some o) by (by destruct p).
  unfold sys_close. run H1. cbn [negb]. run H2. run Hset. run (read_of_eq _ _ _ Ho1).
  run (write_of_eq _ _ _ (set_vn None) Ho1). done.
Qed.

Lemma sys_close_gone : vn o = None -> sys_close fd s = Ret (-1, Some EINVAL) cleared.
Proof. intros Hv. by rewrite sys_close_start, Hv. Qed.

Lemma sys_close_last v w :
  vn o = Some v -> ref_count o = 1 -> vfs_close v (world s) = Ret tt w ->
  sys_close fd s = Ret (0, None) (without_lock l (set_world w cleared)).
Proof.
  intros Hv Hrc Hcl. rewrite sys_close_start, Hv, Hl, Hrc. run (acquire_eq cleared l); [|apply cleared_lock].
  cbn [Z.eqb Pos.eqb].
  assert (Hcl' : vfs_close v (world (held cleared l)) = Ret tt w) by (unfold cleared; destruct p; exact Hcl).
  run (file_world_eq _ _ _ _ Hcl').
  run (release_held cleared l p o w (set_world w)); [|apply cleared_lock|tauto].
  run destroy_eq; [done|exact cleared_lock].
Qed.

Lemma sys_close_shared v :
  vn o = Some v -> 1 < ref_count o -> sys_close fd s = Ret (0, None) (closed_shared s fd p o).
Proof.
  intros Hv Hrc. rewrite sys_close_start, Hv, Hl. run (acquire_eq cleared l); [|apply cleared_lock].
  destruct (Z.eqb_spec (ref_count o) 1); [lia|]. destruct (Z.ltb_spec 1 (ref_count o)); [|lia].
  cbn [KASSERT]. rewrite bind_ret_l.
  run (write_of_eq (held cleared l) p (set_vn None o)); [|rewrite lookup_held; apply cleared_file].
  run (release_held cleared l p (set_ref_count (ref_count o - 1) (set_vn None o)) (world s)
         (upd_of p (set_ref_count (ref_count o - 1) (set_vn None o)))); [|apply cleared_lock|tauto].
  unfold closed_shared, cleared. by rewrite file_upd_upd.
Qed.
End close.

(** [close] on a descriptor that leads to an open file: the descriptor is free
    afterwards and every other one still leads where it did.  The last reference
    closes the vnode and destroys the lock, but the entry keeps the dangling lock
    pointer and is never free again; otherwise the reference count drops by one.  In
    both cases the vnode of the open file is gone, also for the descriptors that
    share it: a further [close] through one of them fails with EINVAL. *)
Lemma close_correct s fd p o l t :
  open_at s fd p o -> file_lock o = Some l -> ftables s !! cur s = Some t -> length t = 128%nat ->
  let s1 := with_fd (cur s) fd None s in
  slot s1 (cur s) fd = None /\
  (forall pid' fd', (pid', fd') <> (cur s, fd) -> slot s1 pid' fd' = slot s pid' fd') /\
  (vn o = None -> sys_close fd s = Ret (-1, Some EINVAL) (upd_of p (set_vn None o) s1)) /\
  (forall v w, vn o = Some v -> ref_count o = 1 -> vfs_close v (world s) = Ret tt w ->
     sys_close fd s = Ret (0, None) (without_lock l (set_world w (upd_of p (set_vn None o) s1))) /\
     ~ free_slot (set_vn None o)) /\
  (forall v, vn o = Some v -> 1 < ref_count o ->
     sys_close fd s = Ret (0, None) (upd_of p (set_ref_count (ref_count o - 1) (set_vn None o)) s1)).
Proof.
  intros Hop Hl Ht Hlen s1. pose proof Hop as (Hfd & _). unfold OPEN_MAX in Hfd. split_and!.
  - apply (slot_with_fd_eq _ _ _ _ t); [done|lia].
  - intros pid' fd' Hne. apply slot_with_fd_ne; [lia|done].
  - by eapply sys_close_gone.
  - intros v w Hv Hrc Hcl. split; [by eapply sys_close_last|]. intros [_ Hno]. cbn in Hno. congruence.
  - intros v. by eapply sys_close_shared.
Qed.

(** ** Sharing through [fork] *)

Lemma refs_cons p q t : refs p (q :: t) = (if decide (q = Some p) then 1 else 0) + refs p t.
Proof. unfold refs. rewrite filter_cons. by case_decide; cbn [length]; lia. Qed.
Lemma refs_nonneg p t : 0 <= refs p t.
Proof. unfold refs. lia. Qed.

Lemma set_ref_count_id o : set_ref_count (ref_count o) o = o.
Proof. by destruct o. Qed.

(** What the loop changes. *)
Definition copied_from (psrc pdest : Z) (ts : list (option ofptr)) (k : nat) (s s' : files W) : Prop :=
  locks s' = locks s /\ world s' = world s /\ cur s' = cur s /\ me s' = me s /\
  (forall pid, pid <> pdest -> ftables s' !! pid = ftables s !! pid) /\
  (forall td, ftables s !! pdest = Some td -> ftables s' !! pdest = Some (take k td ++ drop k ts)) /\
  (forall p, lookup_of s' p = (fun o => set_ref_count (ref_count o + refs p (drop k ts)) o) <$> lookup_of s p).

Lemma copy_table_spec n psrc pdest fd ts td s :
  psrc <> pdest -> ftables s !! psrc = Some ts -> ftables s !! pdest = Some td ->
  length ts = 128%nat -> length td = 128%nat -> 0 <= fd -> fd + Z.of_nat n = 128 ->
  (forall p, Some p ∈ drop (Z.to_nat fd) ts -> exists o, lookup_of s p = Some o) ->
  (forall p o, lookup_of s p = Some o -> 0 <= ref_count o /\ ref_count o + Z.of_nat n < 2 ^ 32) ->
  wp (copy_table n psrc pdest fd) (fun _ s' => copied_from psrc pdest ts (Z.to_nat fd) s s') s.
Proof.
  intros Hne Hts. revert fd td s Hts.
  induction n as [|n IH]; intros fd td s Hts Htd Hls Hld Hfd Hn Hptr Href; cbn [copy_table].
  - rewrite wp_ret. unfold copied_from. rewrite !drop_ge by lia. split_and!; try done.
    + intros td'. rewrite Htd. intros [= ->]. rewrite take_ge, app_nil_r by lia. done.
    + intros p. destruct (lookup_of s p) as [o|]; cbn; [|done]. f_equal.
      change (refs p []) with 0. by rewrite Z.add_0_r, set_ref_count_id.
  - destruct (lookup_lt_is_Some_2 ts (Z.to_nat fd)) as [q Hq]; [lia|]. wp_simpl.
    rewrite (wp_eq _ _ _ _ _ (fd_set_of_eq s pdest fd q td Htd ltac:(lia))).
    set (s1 := with_fd pdest fd q s).
    assert (Hdrop : drop (Z.to_nat fd) ts = q :: drop (Z.to_nat (fd + 1)) ts).
    { replace (Z.to_nat (fd + 1)) with (S (Z.to_nat fd)) by lia. by apply drop_S. }
    set (s2 := match q with
               | Some p => match lookup_of s p with
                           | Some o => upd_of p (set_ref_count (ref_count o + 1) o) s1
                           | None => s1 end
               | None => s1 end).
    assert (Hinc : openfileIncrRefCount q s1 = Ret tt s2).
    { unfold openfileIncrRefCount, s2. destruct q as [p|]; [|done].
      destruct (Hptr p) as [o Ho]; [rewrite Hdrop; by left|]. rewrite Ho.
      rewrite (write_of_eq s1 p o); [|unfold s1; by destruct p].
      destruct (Href p o Ho). by rewrite u32_small by lia. }
    rewrite wp_bind, (wp_eq _ _ _ _ _ Hinc).
    assert (Hl2 : forall p, lookup_of s2 p =
              (fun o => set_ref_count (ref_count o + (if decide (q = Some p) then 1 else 0)) o) <$> lookup_of s p).
    { intros p. assert (H1 : lookup_of s1 p = lookup_of s p) by (unfold s1; by destruct p).
      assert (Hid : lookup_of s p = (fun o => set_ref_count (ref_count o + 0) o) <$> lookup_of s p).
      { destruct (lookup_of s p) as [o|]; cbn; [|done]. by rewrite Z.add_0_r, set_ref_count_id. }
      unfold s2. destruct q as [p'|]; [|rewrite decide_False by done; by rewrite H1].
      destruct (Hptr p') as [o' Ho']; [rewrite Hdrop; by left|]. rewrite Ho'.
      destruct (decide (Some p' = Some p)) as [E|E].
      - injection E as ->. rewrite Ho'. cbn. apply (lookup_upd _ _ o'). by rewrite H1.
      - rewrite lookup_upd_ne by congruence. by rewrite H1. }
    assert (Hsame : locks s2 = locks s /\ world s2 = world s /\ cur s2 = cur s /\ me s2 = me s /\
              ftables s2 = ftables s1).
    { unfold s2. destruct q as [p|]; [|done]. by destruct (lookup_of s p), p. }
    destruct Hsame as (E1 & E2 & E3 & E4 & E5).
    assert (Htd2 : ftables s2 !! pdest = Some (<[Z.to_nat fd := q]> td)).
    { rewrite E5. unfold s1, with_fd. cbn. by rewrite lookup_alter_eq, Htd. }
    assert (Hto : forall pid, pid <> pdest -> ftables s2 !! pid = ftables s !! pid).
    { intros pid Hpid. rewrite E5. unfold s1, with_fd. cbn. by rewrite lookup_alter_ne. }
    eapply wp_mono; [|apply (IH (fd + 1) (<[Z.to_nat fd := q]> td) s2)];
      [|by rewrite Hto|done|done|by rewrite length_insert|lia|lia| |].
    + intros _ s' (F1 & F2 & F3 & F4 & F5 & F6 & F7). unfold copied_from.
      split_and!; try congruence.
      * intros pid Hpid. rewrite F5, Hto; done.
      * intros td'. rewrite Htd. intros [= <-]. rewrite (F6 _ Htd2), Hdrop. f_equal.
        replace (Z.to_nat (fd + 1)) with (S (Z.to_nat fd)) by lia.
        rewrite (take_S_r _ _ q) by (apply list_lookup_insert_eq; lia).
        rewrite take_insert_ge by lia. by rewrite <-app_assoc.
      * intros p. rewrite F7, Hl2, Hdrop, refs_cons. destruct (lookup_of s p) as [o|]; cbn; [|done].
        f_equal. unfold set_ref_count. cbn. f_equal. lia.
    + intros p Hp. destruct (Hptr p) as [o Ho]; [rewrite Hdrop; by right|].
      rewrite Hl2, Ho. by eexists.
    + intros p o. rewrite Hl2. destruct (lookup_of s p) as [o'|] eqn:Eo; cbn; [|done]. intros [= <-].
      destruct (Href _ _ Eo). cbn. case_decide; lia.
Qed.

(** ** What every system call keeps *)

Section kept.
Context (P : files W -> Prop).
Hypothesis P_world : forall w s, P s -> P (set_world w s).
Hypothesis P_locks : forall k s, P s -> P (set_locks k s).

Lemma keeps_world {A} (m : K W A) : keeps P (zoom world_lens m).
Proof. apply keeps_zoom. intros s w. by apply P_world. Qed.

Lemma keeps_on_lock {A} l (m : Z -> K lock A) : keeps P (on_lock l m).
Proof.
  intros s Hs. unfold on_lock. rewrite wlp_bind, wlp_get. destruct l as [i|]; [|done].
  rewrite wlp_bind. destruct (locks s !! i) as [k|]; [|done]. cbn. destruct (m (me s) k); [|done..].
  by apply P_locks.
Qed.

Lemma keeps_acquire l : keeps P (acquire l).
Proof. apply keeps_on_lock. Qed.
Lemma keeps_release l : keeps P (release l).
Proof. unfold release. apply keeps_bind; [apply keeps_on_lock|]. intros. apply keeps_ret. Qed.
Lemma keeps_destroy l : keeps P (destroy l).
Proof.
  unfold destroy. apply keeps_bind; [apply keeps_get|intros s]. destruct l; [|apply keeps_panic].
  apply keeps_bind; [apply keeps_deref|intros k]. apply keeps_bind; [by apply keeps_zoom|intros _].
  apply keeps_modify. intros s'. apply P_locks.
Qed.
Lemma keeps_create_lock : keeps P create_lock.
Proof.
  unfold create_lock. apply keeps_bind; [apply keeps_world|intros [l|]]; [|apply keeps_ret].
  apply keeps_bind; [apply keeps_world|intros m2].
  apply keeps_bind; [destruct m2; [apply keeps_world|apply keeps_ret]|intros m3].
  destruct (lock_create _ _ _); [|apply keeps_ret].
  apply keeps_bind; [|intros; apply keeps_ret]. apply keeps_modify. intros s'. apply P_locks.
Qed.

Lemma keeps_read_of p : keeps P (read_of p).
Proof. unfold read_of. keeps_tac. Qed.
Lemma keeps_fd_get fd : keeps P (fd_get fd).
Proof. unfold fd_get. keeps_tac. Qed.
Lemma keeps_is_valid fd : keeps P (is_valid_fd fd).
Proof. unfold is_valid_fd. keeps_tac. apply keeps_fd_get. Qed.

End kept.

Lemma fd_get_slot s fd q s' : fd_get fd s = Ret q s' -> s' = s /\ slot s (cur s) fd = q.
Proof.
  unfold fd_get, slot. kunfold. destruct (ftables s !! cur s) as [t|]; [|done]. cbn.
  destruct (fd <? 0); [done|]. destruct (t !! Z.to_nat fd) as [x|]; [|done]. intros [= -> ->]. by destruct q.
Qed.

Lemma wlp_fd_get s fd (Q : option ofptr -> files W -> Prop) :
  Q (slot s (cur s) fd) s -> wlp (fd_get fd) Q s.
Proof.
  intros HQ. unfold wlp. destruct (fd_get fd s) eqn:E; [|done..]. by apply fd_get_slot in E as [-> <-].
Qed.

(** [sys_close] keeps [P] when its writes through the descriptor's pointer keep [Q]. *)
Lemma keeps_sys_close (P : files W -> Prop) (Q : ofptr -> files W -> Prop) fd :
  (forall s p, P s -> slot s (cur s) fd = Some p -> Q p s) ->
  (forall p s, Q p s -> P s) ->
  (forall p w s, Q p s -> Q p (set_world w s)) -> (forall p k s, Q p s -> Q p (set_locks k s)) ->
  (forall p, keeps (Q p) (fd_set fd None)) ->
  (forall p, keeps (Q p) (write_of p (set_vn None))) ->
  (forall p n, keeps (Q p) (write_of p (set_ref_count n))) ->
  keeps P (sys_close fd).
Proof.
  intros Hin Hout Hw Hk Hfd Hvn Href. unfold sys_close. apply keeps_bind; [apply keeps_is_valid|intros ok].
  destruct ok; cbn [negb]; [|apply keeps_ret]. intros s Hs. rewrite wlp_bind. apply wlp_fd_get.
  destruct (slot s (cur s) fd) as [p|] eqn:E; [|done]. specialize (Hin s p Hs E).
  eapply wlp_mono; [intros r s' HQ; exact (Hout p s' HQ)|].
  assert (HQ : keeps (Q p) (
    fd_set fd None;; o ← read_of p; write_of p (set_vn None);;
    match vn o with
    | None => fail EINVAL
    | Some v => acquire (file_lock o);;
        if ref_count o =? 1 then
          zoom world_lens (vfs_close v);; release (file_lock o);; destroy (file_lock o);; mret (0, None)
        else KASSERT (1 <? ref_count o) "of->ref_count > 1";;
          write_of p (set_ref_count (ref_count o - 1));; release (file_lock o);; mret (0, None)
    end)).
  { specialize (Hw p). specialize (Hk p). specialize (Hfd p). specialize (Hvn p). specialize (Href p).
    pose proof (keeps_read_of (Q p)). pose proof (keeps_acquire (Q p) Hk).
    pose proof (keeps_release (Q p) Hk). pose proof (keeps_destroy (Q p) Hk).
    pose proof (fun A m => keeps_world (A := A) (Q p) Hw m). unfold fail. keeps_tac. }
  by apply HQ.
Qed.

Lemma keeps_write_of (P : files W -> Prop) p f :
  (forall s o, P s -> lookup_of s p = Some o -> P (upd_of p (f o) s)) -> keeps P (write_of p f).
Proof.
  intros HP s Hs. unfold wlp. destruct (lookup_of s p) as [o|] eqn:E.
  - rewrite (write_of_eq _ _ _ _ E). by apply HP.
  - unfold write_of, read_of. unfold lookup_of in E. kunfold. by rewrite E.
Qed.

Lemma keeps_fd_set_of (P : files W -> Prop) pid fd q :
  (forall s t, P s -> ftables s !! pid = Some t -> 0 <= fd < Z.of_nat (length t) -> P (with_fd pid fd q s)) ->
  keeps P (fd_set_of pid fd q).
Proof.
  intros HP s Hs. unfold wlp. destruct (ftables s !! pid) as [t|] eqn:Et.
  - destruct (decide (0 <= fd < Z.of_nat (length t))).
    + rewrite (fd_set_of_eq _ _ _ _ _ Et) by done. by eapply HP.
    + unfold fd_set_of. kunfold. rewrite Et.
      destruct (Z.ltb_spec fd 0), (Z.leb_spec (Z.of_nat (length t)) fd); try lia; done.
  - unfold fd_set_of. kunfold. by rewrite Et.
Qed.

(** A descriptor whose open file has lost its vnode. *)
Definition dead (s : files W) (fd : Z) : Prop :=
  exists p o, slot s (cur s) fd = Some p /\ lookup_of s p = Some o /\ vn o = None.

Lemma keeps_dead_write fd p f :
  (forall o, vn o = None -> vn (f o) = None) -> keeps (fun s => dead s fd) (write_of p f).
Proof.
  intros Hf. apply keeps_write_of. intros s o (p' & o' & Hs & Ho' & Hv) Ho.
  exists p'. destruct (decide (p = p')) as [->|Hne].
  - exists (f o). split_and!; [by destruct p'|by eapply lookup_upd|]. apply Hf. congruence.
  - exists o'. split_and!; [by destruct p| |done]. by rewrite lookup_upd_ne.
Qed.

Lemma keeps_dead_close fd fd' :
  fd <> fd' -> keeps (fun s => dead s fd) (sys_close fd').
Proof.
  intros Hne. apply (keeps_sys_close _ (fun _ s => dead s fd)); try done.
  - intros _ s Hs. unfold fd_set. rewrite wlp_bind, wlp_get. revert Hs.
    generalize (cur s) as pid. intros pid Hs. revert s Hs.
    apply (keeps_fd_set_of (fun s => dead s fd)). intros s t (p & o & Hsl & Ho & Hv) Ht Hfd'.
    exists p, o. split_and!; [|by destruct p|done].
    cbn [cur with_fd set_ftables]. rewrite slot_with_fd_ne by (try lia; congruence). done.
  - intros p. by apply keeps_dead_write.
  - intros p n. by apply keeps_dead_write.
Qed.

Lemma keeps_vfs_dead s fd w : dead s fd -> dead (set_world w s) fd.
Proof. intros (p & o & Hs & Ho & Hv). exists p, o. by destruct p. Qed.

(** Closing all files where one has lost its vnode never succeeds. *)
Lemma close_loop_dead n fd0 fd s :
  dead s fd -> 0 <= fd0 <= fd -> fd < fd0 + Z.of_nat n -> fd < OPEN_MAX ->
  wlp (close_loop n fd0) (fun r _ => r = -1) s.
Proof.
  intros Hd. revert fd0 s Hd. induction n as [|n IH]; intros fd0 s Hd Hle Hlt Hmax; [lia|].
  cbn [close_loop]. rewrite wlp_bind. apply wlp_fd_get.
  destruct (decide (fd0 = fd)) as [->|Hne].
  - destruct Hd as (p & o & Hs & Ho & Hv). rewrite Hs. rewrite wlp_bind.
    assert (Hc : wlp (sys_close fd) (fun r _ => r.1 = -1) s).
    { unfold sys_close. rewrite wlp_bind. unfold wlp at 1.
      rewrite (is_valid_fd_open _ _ p) by (unfold OPEN_MAX in *; (lia || done)). cbn [negb].
      rewrite wlp_bind. apply wlp_fd_get. rewrite Hs. rewrite wlp_bind.
      eapply wlp_mono; [|apply (keeps_fd_set_of (fun s => lookup_of s p = Some o) (cur s) fd None)];
        [|by intros s' t Hl; destruct p|done].
      cbv beta. intros _ s' Ho'. rewrite wlp_bind. unfold wlp at 1. rewrite (read_of_eq _ _ _ Ho').
      rewrite wlp_bind. unfold wlp at 1. rewrite (write_of_eq _ _ _ _ Ho'). rewrite Hv. done. }
    eapply wlp_mono; [|exact Hc]. intros r s' ->. done.
  - assert (Hrec : forall s', dead s' fd -> wlp (close_loop n (fd0 + 1)) (fun r _ => r = -1) s').
    { intros s' Hd'. apply IH; [done|lia..]. }
    destruct (slot s (cur s) fd0); [|by apply Hrec]. rewrite wlp_bind.
    eapply wlp_mono; [|apply (keeps_dead_close fd fd0 (not_eq_sym Hne) s Hd)].
    intros r s' Hd'. cbv beta. destruct (negb _); [done|]. by apply Hrec.
Qed.

(** ** All descriptors of a process closed *)

(** An open file with its vnode, a free lock and other references. *)
Definition shared_file s (p : ofptr) (o : openfile) : Prop :=
  lookup_of s p = Some o /\ (exists l, file_lock o = Some l /\ locks s !! l = Some (Lock None [])) /\
  is_Some (vn o) /\ 1 < ref_count o.
Definition distinct (t : list (option ofptr)) : Prop :=
  forall i j p, t !! i = Some (Some p) -> t !! j = Some (Some p) -> i = j.

(** What is left of an open file when one of its references was closed. *)
Definition orphan (o : openfile) : openfile := set_ref_count (ref_count o - 1) (set_vn None o).

Lemma slot_lookup s pid (i : nat) t q :
  ftables s !! pid = Some t -> t !! i = Some q -> slot s pid (Z.of_nat i) = q.
Proof.
  intros Ht Hq. unfold slot. rewrite Ht. cbn. destruct (Z.ltb_spec (Z.of_nat i) 0); [lia|].
  rewrite Nat2Z.id, Hq. by destruct q.
Qed.

Lemma fd_get_lookup s (i : nat) t q :
  ftables s !! cur s = Some t -> t !! i = Some q -> fd_get (Z.of_nat i) s = Ret q s.
Proof.
  intros Ht Hq. unfold fd_get. kunfold. rewrite Ht. destruct (Z.ltb_spec (Z.of_nat i) 0); [lia|]. by rewrite Nat2Z.id, Hq.
Qed.

(** Closing every descriptor from [i] when each is shared: the other processes' tables
    stay, and every open file is an orphan. *)
Lemma close_loop_shared n (i : nat) t s :
  ftables s !! cur s = Some t -> length t = 128%nat -> (i + n = 128)%nat -> distinct t ->
  (forall j p, (i <= j)%nat -> t !! j = Some (Some p) -> exists o, shared_file s p o) ->
  exists s', close_loop n (Z.of_nat i) s = Ret 0 s' /\ world s' = world s /\ locks s' = locks s /\
    cur s' = cur s /\ me s' = me s /\ (forall pid, pid <> cur s -> ftables s' !! pid = ftables s !! pid) /\
    (forall j p o, (i <= j)%nat -> t !! j = Some (Some p) -> lookup_of s p = Some o -> lookup_of s' p = Some (orphan o)) /\
    (forall q, (forall j, (i <= j)%nat -> t !! j <> Some (Some q)) -> lookup_of s' q = lookup_of s q).
Proof.
  revert i t s. induction n as [|n IH]; intros i t s Ht Hlen Hn Hd Hsh; cbn [close_loop].
  { eexists. split; [done|]. split_and!; try done. intros j p o Hj Hp. apply lookup_lt_Some in Hp. lia. }
  replace (Z.of_nat i + 1) with (Z.of_nat (S i)) by lia.
  destruct (lookup_lt_is_Some_2 t i) as [q Hq]; [lia|]. run (fd_get_lookup s i t q Ht Hq).
  destruct q as [p|].
  2: { destruct (IH (S i) t s Ht Hlen ltac:(lia) Hd) as (s' & Hc & H1 & H2 & H3 & H4 & H5 & H6 & H7).
       { intros j p Hj. apply Hsh. lia. }
       exists s'. split_and!; try done.
       - intros j p o Hj Hp. destruct (decide (j = i)) as [->|]; [congruence|]. apply (H6 j); [lia|done].
       - intros q Hno. apply H7. intros j Hj. apply Hno. lia. }
  destruct (Hsh i p ltac:(lia) Hq) as (o & Ho & (l & Hl & Hlk) & [v Hv] & Hrc).
  assert (Hop : open_at s (Z.of_nat i) p o).
  { split; [unfold OPEN_MAX; lia|]. split; [by eapply slot_lookup|]. split; [done|]. by exists l. }
  run (sys_close_shared s (Z.of_nat i) p o l t Hop Hl Ht Hlen v Hv Hrc). cbn [fst negb Z.eqb].
  set (s1 := closed_shared s (Z.of_nat i) p o).
  assert (Ht1 : ftables s1 !! cur s1 = Some (<[i := None]> t)).
  { unfold s1, closed_shared. assert (Hc : cur (upd_of p (orphan o) (with_fd (cur s) (Z.of_nat i) None s)) = cur s) by (by destruct p).
    unfold orphan in Hc. rewrite Hc.
    transitivity (ftables (with_fd (cur s) (Z.of_nat i) None s) !! cur s); [by destruct p|].
    unfold with_fd. cbn. by rewrite lookup_alter_eq, Ht, Nat2Z.id. }
  assert (Hl1 : lookup_of s1 p = Some (orphan o)) by (apply (lookup_upd _ _ o); by destruct p).
  assert (Hne : forall q, q <> p -> lookup_of s1 q = lookup_of s q)
    by (intros q Hqp; unfold s1, closed_shared; rewrite lookup_upd_ne by done; by destruct q).
  assert (Hs : world s1 = world s /\ locks s1 = locks s /\ cur s1 = cur s /\ me s1 = me s) by (unfold s1, closed_shared; by destruct p).
  destruct Hs as (E1 & E2 & E3 & E4).
  assert (Hft : forall pid, pid <> cur s -> ftables s1 !! pid = ftables s !! pid).
  { intros pid Hpid. transitivity (ftables (with_fd (cur s) (Z.of_nat i) None s) !! pid); [unfold s1, closed_shared; by destruct p|].
    unfold with_fd. cbn. by rewrite lookup_alter_ne. }
  assert (Hbelow : forall j p', (S i <= j)%nat -> (<[i := None]> t) !! j = Some (Some p') -> t !! j = Some (Some p') /\ p' <> p).
  { intros j p' Hj. rewrite list_lookup_insert_ne by lia. intros Hp'. split; [done|]. intros ->.
    pose proof (Hd _ _ _ Hq Hp'). lia. }
  destruct (IH (S i) (<[i := None]> t) s1 Ht1) as (s' & Hc & H1 & H2 & H3 & H4 & H5 & H6 & H7).
  { by rewrite length_insert. }
  { lia. }
  { intros a b p'. rewrite !list_lookup_insert_Some. naive_solver. }
  { intros j p' Hj [Hp' Hpp]%Hbelow; [|done]. destruct (Hsh j p' ltac:(lia) Hp') as (o' & Ho' & Hlk' & Hv' & Hrc').
    exists o'. split; [by rewrite Hne|]. by rewrite E2. }
  exists s'. split; [done|]. split_and!; try congruence.
  - intros pid Hpid. rewrite H5 by congruence. by apply Hft.
  - intros j p' o' Hj Hp' Ho'. destruct (decide (j = i)) as [->|Hji].
    + rewrite Hq in Hp'. injection Hp' as <-. rewrite Ho in Ho'. injection Ho' as <-. rewrite H7; [done|].
      intros j Hji Hj'. by apply Hbelow in Hj' as [_ ?].
    + assert (Hp1 : (<[i := None]> t) !! j = Some (Some p')) by (by rewrite list_lookup_insert_ne by lia).
      apply (H6 j p' o'); [lia|done|]. rewrite Hne; [done|]. by apply Hbelow in Hp1 as [_ ?]; [|lia].
  - intros q Hno. rewrite H7.
    + apply Hne. intros ->. by apply (Hno i).
    + intros j Hj Hj'. apply Hbelow in Hj' as [Hj' _]; [|done]. apply (Hno j); [lia|done].
Qed.

(** Closing all files when they are all orphans. *)
Lemma close_loop_orphans n (i : nat) t s :
  ftables s !! cur s = Some t -> length t = 128%nat -> (i + n = 128)%nat ->
  (forall j p, t !! j = Some (Some p) -> exists o, lookup_of s p = Some o /\ vn o = None /\
     exists l, file_lock o = Some l /\ locks s !! l = Some (Lock None [])) ->
  (exists j p, (i <= j)%nat /\ t !! j = Some (Some p)) ->
  exists s', close_loop n (Z.of_nat i) s = Ret (-1) s'.
Proof.
  intros Ht Hlen Hn Hor. revert i Hn. induction n as [|n IH]; intros i Hn (j & p & Hj & Hp); cbn [close_loop].
  { apply lookup_lt_Some in Hp. lia. }
  replace (Z.of_nat i + 1) with (Z.of_nat (S i)) by lia.
  destruct (lookup_lt_is_Some_2 t i) as [q Hq]; [lia|]. run (fd_get_lookup s i t q Ht Hq).
  destruct q as [p'|].
  - destruct (Hor i p' Hq) as (o & Ho & Hv & l & Hl & Hlk).
    assert (Hop : open_at s (Z.of_nat i) p' o).
    { split; [unfold OPEN_MAX; lia|]. split; [by eapply slot_lookup|]. split; [done|]. by exists l. }
    run (sys_close_gone s (Z.of_nat i) p' o t Hop Ht Hlen Hv). by eexists.
  - apply IH; [lia|]. exists j, p. split; [|done]. destruct (decide (j = i)) as [->|]; [congruence|lia].
Qed.

Lemma lookup_set_cur s pid p : lookup_of (set_cur pid s) p = lookup_of s p.
Proof. by destruct p. Qed.

(** C9. Descriptors after [fork].  The copy gives the child the parent's descriptors,
    leading to the same open files, whose reference counts grow accordingly.  But when
    the child then closes one of them, as it does when it exits, the parent's
    descriptor loses its file: reading and writing give EINVAL, and when the parent
    exits, closing all its files cannot succeed, which is a panic in [sys__exit]. *)
Theorem fork_shares_files s child fd p o l v ts td :
  child <> cur s -> ftables s !! cur s = Some ts -> ftables s !! child = Some td ->
  length ts = 128%nat -> length td = 128%nat ->
  (forall q, Some q ∈ ts -> exists o, lookup_of s q = Some o) ->
  (forall q o, lookup_of s q = Some o -> 0 <= ref_count o /\ ref_count o + 128 < 2 ^ 32) ->
  open_at s fd p o -> 3 <= fd -> file_lock o = Some l -> vn o = Some v -> 1 <= ref_count o ->
  wp (proc_file_table_copy (cur s) child) (fun _ s1 =>
    (forall fd', slot s1 child fd' = slot s (cur s) fd') /\
    (forall q, lookup_of s1 q = (fun o => set_ref_count (ref_count o + refs q ts) o) <$> lookup_of s q) /\
    exists s2, sys_close fd (set_cur child s1) = Ret (0, None) s2 /\
      let s3 := set_cur (cur s) s2 in
      slot s3 (cur s) fd = Some p /\
      (forall buf size, bad_ptr buf = false -> 0 <= size < 2 ^ 31 ->
         sys_read fd buf size s3 = Ret (-1, Some EINVAL) s3 /\
         sys_write fd buf size s3 = Ret (-1, Some EINVAL) s3) /\
      wlp close_all_files (fun r _ => r = -1) s3) s.
Proof.
  intros Hne Hts Htd Hls Hld Hptr Href Hop Hfd Hl Hv Hrc.
  eapply wp_mono; [|apply (copy_table_spec _ _ _ 0 ts td)]; try done.
  cbv beta. intros _ s1 (E1 & E2 & E3 & E4 & E5 & E6 & E7).
  change (Z.to_nat 0) with 0%nat in E6, E7. rewrite !drop_0 in E7. specialize (E6 _ Htd).
  rewrite take_0, drop_0 in E6. cbn [app] in E6.
  assert (Hsl : forall fd', slot s1 child fd' = slot s (cur s) fd') by (intros; unfold slot; by rewrite E6, Hts).
  split; [done|]. split; [done|]. destruct Hop as (Hr & Hslot & Ho & l' & Hl' & Hlk).
  rewrite Hl in Hl'. injection Hl' as <-.
  set (o1 := set_ref_count (ref_count o + refs p ts) o).
  assert (Hpos : 1 <= refs p ts).
  { destruct (slot_Some _ _ _ _ Hslot) as (t & Ht & _ & Hp). rewrite Hts in Ht. injection Ht as <-.
    apply list_elem_of_lookup_2, list_elem_of_split in Hp as (t1 & t2 & ->).
    unfold refs. rewrite filter_app, filter_cons_True, length_app by done. cbn. lia. }
  assert (Hop1 : open_at (set_cur child s1) fd p o1).
  { split; [done|]. split; [by rewrite <-Hslot, <-Hsl|]. split; [by rewrite lookup_set_cur, E7, Ho|].
    exists l. split; [done|]. cbn. by rewrite E1. }
  rewrite (sys_close_shared _ _ _ _ l ts Hop1 Hl E6 Hls v Hv) by (cbn; lia).
  eexists. split; [done|]. cbv zeta. set (s3 := set_cur (cur s) _).
  assert (Hslot3 : slot s3 (cur s) fd = Some p).
  { unfold s3, closed_shared. rewrite <-Hslot.
    transitivity (slot (set_cur child s1) (cur s) fd); [|unfold slot; cbn; by rewrite (E5 _ (not_eq_sym Hne))].
    transitivity (slot (with_fd child fd None (set_cur child s1)) (cur s) fd); [by destruct p|].
    apply slot_with_fd_ne; [lia|congruence]. }
  assert (Ho3 : lookup_of s3 p = Some (set_ref_count (ref_count o1 - 1) (set_vn None o1))).
  { unfold s3. rewrite lookup_set_cur. apply (lookup_upd _ _ o1). destruct Hop1 as (_ & _ & Ho1 & _).
    rewrite <-Ho1. by destruct p. }
  assert (Hop3 : open_at s3 fd p (set_ref_count (ref_count o1 - 1) (set_vn None o1))).
  { split; [done|]. split; [exact Hslot3|]. split; [done|]. exists l. split; [done|].
    unfold s3, closed_shared. replace (locks _) with (locks s1) by (by destruct p). by rewrite E1. }
  split; [done|]. split.
  - intros buf size Hb Hsize. destruct (dispatch fd buf size s3 Hfd Hb) as [-> ->].
    by apply (read_write_gone _ _ _ _ _ _ Hop3).
  - unfold OPEN_MAX in *. apply (close_loop_dead _ _ fd); unfold OPEN_MAX; [|lia..].
    by exists p, (set_ref_count (ref_count o1 - 1) (set_vn None o1)).
Qed.

(** ** [open] *)

Lemma create_lock_eq s a b c w1 w2 w3 :
  kmalloc false (world s) = Ret (Some a) w1 -> kmalloc false w1 = Ret (Some b) w2 ->
  kmalloc false w2 = Ret (Some c) w3 ->
  create_lock s = Ret (Some a) (set_locks (<[a := Lock None []]> (locks s)) (set_world w3 s)).
Proof.
  intros H1 H2 H3. unfold create_lock.
  run (file_world_eq _ _ _ _ H1). run (file_world_eq (kmalloc false) (set_world w1 s) _ _ H2).
  run (file_world_eq (kmalloc false) (set_world w2 (set_world w1 s)) _ _ H3). done.
Qed.

(** The calls [open] makes before it searches the table: the name is copied in and the
    file opened. *)
Definition open_answers (s : files W) (pathp openflags mode v : Z) (w : W) : Prop :=
  pathp <> 0 /\ Z.land openflags O_ACCMODE <> 3 /\
  exists fname w1, fname <> [] /\ copyinstr pathp PATH_MAX (world s) = Ret (inr fname) w1 /\
    vfs_open (UserPath pathp) openflags mode w1 = Ret (inr v) w.

(** The allocations of the lock, and [fstat] for [O_APPEND], from the world [w]. *)
Definition lock_answers (openflags v : Z) (w : W) (a off : Z) (w' : W) : Prop :=
  exists b c w1 w2 w3, kmalloc false w = Ret (Some a) w1 /\ kmalloc false w1 = Ret (Some b) w2 /\
    kmalloc false w2 = Ret (Some c) w3 /\
    if Z.land openflags O_APPEND =? 0 then off = 0 /\ w' = w3
    else exists st, VOP_STAT v fresh_stat w3 = Ret (0, st) w' /\ off = st_size st.

(** The state once the table entry [i] is set up. *)
Definition opened (s : files W) (i : nat) (o : openfile) (v openflags a off : Z) (w : W) : files W :=
  set_world w (set_locks (<[a := Lock None []]> (locks s))
    (upd_of (OfSys i) (Openfile (Some v) (mode o) off (Z.land openflags O_ACCMODE) (Some a) 1) s)).

Lemma find_slot_Some l i : find_slot l = Some i -> exists o, l !! i = Some o /\ free_slot o /\
  forall j o', (j < i)%nat -> l !! j = Some o' -> ~ free_slot o'.
Proof.
  unfold find_slot. destruct (list_find free_slot l) as [[j o]|] eqn:E; cbn; [|done].
  intros [= ->]. apply list_find_Some in E as (? & ? & ?). eauto.
Qed.

Lemma find_fd_Some t i : find_fd t = Some i -> t !! i = Some None /\
  forall j p, (j < i)%nat -> t !! j = Some p -> is_Some p.
Proof.
  unfold find_fd. destruct (list_find _ t) as [[j p]|] eqn:E; cbn; [|done].
  intros [= ->]. apply list_find_Some in E as (? & -> & Hmin). split; [done|].
  intros k [q|] Hk Hq; [done|]. by destruct (Hmin k None Hq Hk).
Qed.

Lemma accmode_land x : 0 <= Z.land x O_ACCMODE < 4.
Proof. unfold O_ACCMODE. change 3 with (Z.ones 2). rewrite Z.land_ones by lia. apply Z.mod_pos_bound. lia. Qed.

Lemma fill_slot_eq s acc v i o a b c w1 w2 w3 :
  find_slot (sysft s) = Some i -> sysft s !! i = Some o ->
  kmalloc false (world s) = Ret (Some a) w1 -> kmalloc false w1 = Ret (Some b) w2 ->
  kmalloc false w2 = Ret (Some c) w3 ->
  fill_slot acc v s = Ret (Some (OfSys i))
    (set_world w3 (set_locks (<[a := Lock None []]> (locks s))
       (upd_of (OfSys i) (Openfile (Some v) (mode o) 0 acc (Some a) 1) s))).
Proof.
  intros Hi Ho H1 H2 H3. unfold fill_slot. rewrite (bind_eq get _ _ s s) by done. rewrite Hi.
  run (write_of_eq s (OfSys i) o); [|done].
  set (s1 := upd_of _ _ s). assert (Ho1 : lookup_of s1 (OfSys i) = Some (set_vn (Some v) o)) by (by eapply lookup_upd).
  run (write_of_eq _ _ _ (set_offset 0) Ho1).
  set (s2 := upd_of _ _ s1). assert (Ho2 : lookup_of s2 (OfSys i) = Some (set_offset 0 (set_vn (Some v) o))) by (by eapply lookup_upd).
  run (write_of_eq _ _ _ (set_accmode acc) Ho2).
  set (s3 := upd_of _ _ s2).
  assert (Ho3 : lookup_of s3 (OfSys i) = Some (Openfile (Some v) (mode o) 0 acc (file_lock o) (ref_count o)))
    by (by eapply lookup_upd).
  run (create_lock_eq s3 a b c w1 w2 w3 H1 H2 H3).
  set (s4 := set_locks _ _). change (lookup_of s3 (OfSys i)) with (lookup_of s4 (OfSys i)) in Ho3.
  run (write_of_eq _ _ _ (set_file_lock (Some a)) Ho3).
  set (s5 := upd_of _ _ s4). assert (Ho5 : lookup_of s5 (OfSys i) = Some (Openfile (Some v) (mode o) 0 acc (Some a) (ref_count o)))
    by (by eapply lookup_upd).
  run (write_of_eq _ _ _ (set_ref_count 1) Ho5).
  unfold s5, s4, s3, s2, s1. cbn. unfold set_sysft, set_locks, set_world. cbn.
  by rewrite !list_insert_insert_eq.
Qed.

(** [open], once the file system has opened the file: the whole of [open_vnode]. *)
Lemma open_vnode_eq s openflags v a off w t i o :
  lock_answers openflags v (world s) a off w -> ftables s !! cur s = Some t -> length t = 128%nat ->
  find_slot (sysft s) = Some i -> sysft s !! i = Some o ->
  let s' := opened s i o v openflags a off w in
  open_vnode openflags (Z.land openflags O_ACCMODE) v s =
  match find_fd t with
  | Some fd => Ret (Z.of_nat fd, None) (with_fd (cur s) (Z.of_nat fd) (Some (OfSys i)) s')
  | None => (zoom world_lens (vfs_close v);; fail EMFILE) s'
  end.
Proof.
  intros (b & c & w1 & w2 & w3 & H1 & H2 & H3 & Ha) Ht Hlen Hi Ho s'. unfold open_vnode.
  run (fill_slot_eq s (Z.land openflags O_ACCMODE) v i o a b c w1 w2 w3 Hi Ho H1 H2 H3).
  cbn [deref]. rewrite bind_ret_l. set (s1 := set_world _ _).
  set (o1 := Openfile _ _ _ _ _ _) in s1.
  assert (Ho1 : lookup_of s1 (OfSys i) = Some o1) by (by eapply (lookup_upd s (OfSys i))).
  run (read_of_eq _ _ _ Ho1). cbn [file_lock o1]. rewrite bool_decide_eq_false_2 by done.
  assert (Hend : ((if negb (Z.land openflags O_APPEND =? 0) then
              v' ← vnode_check (vn o1);
              '(result, st) ← zoom world_lens (VOP_STAT v' fresh_stat);
              if negb (result =? 0) then mret false else
              write_of (OfSys i) (set_offset (st_size st));; mret true
            else mret true) : K (files W) bool) s1 = Ret true s').
  { destruct (Z.land openflags O_APPEND =? 0); cbn [negb].
    - destruct Ha as [-> ->]. done.
    - destruct Ha as (st & Hst & ->). cbn [vnode_check vn o1]. rewrite bind_ret_l.
      run (file_world_eq (VOP_STAT v fresh_stat) s1 _ _ Hst). cbn [negb Z.eqb].
      run (write_of_eq (set_world w s1) (OfSys i) o1); [|done].
      unfold s', opened, s1. cbn. unfold set_sysft, set_locks, set_world. cbn.
      by rewrite list_insert_insert_eq. }
  run Hend. cbn [negb]. rewrite (bind_eq get _ _ s' s') by done. cbn [opened ftables cur].
  change (ftables s' !! cur s') with (ftables s !! cur s). rewrite Ht. cbn [deref]. rewrite bind_ret_l.
  destruct (find_fd t) as [fd|] eqn:Efd; [|done].
  apply find_fd_Some in Efd as [Hfd _]. apply lookup_lt_Some in Hfd.
  assert (Hset : fd_set (Z.of_nat fd) (Some (OfSys i)) s' = Ret tt (with_fd (cur s) (Z.of_nat fd) (Some (OfSys i)) s')).
  { unfold fd_set. rewrite (bind_eq get _ _ s' s') by done. apply (fd_set_of_eq _ _ _ _ t); [done|lia]. }
  run Hset. done.
Qed.

Lemma good_flags flags :
  negb (Z.land flags O_ACCMODE =? O_RDONLY) && negb (Z.land flags O_ACCMODE =? O_WRONLY) &&
  negb (Z.land flags O_ACCMODE =? O_RDWR) = (Z.land flags O_ACCMODE =? 3).
Proof.
  pose proof (accmode_land flags). unfold O_RDONLY, O_WRONLY, O_RDWR.
  destruct (Z.eqb_spec (Z.land flags O_ACCMODE) 0), (Z.eqb_spec (Z.land flags O_ACCMODE) 1),
    (Z.eqb_spec (Z.land flags O_ACCMODE) 2), (Z.eqb_spec (Z.land flags O_ACCMODE) 3); (done || lia).
Qed.

Lemma sys_open_eq s pathp openflags mode v w :
  open_answers s pathp openflags mode v w ->
  sys_open pathp openflags mode s = open_vnode openflags (Z.land openflags O_ACCMODE) v (set_world w s).
Proof.
  intros (Hp & Hacc & fname & w1 & Hf & Hc & Hv). unfold sys_open. destruct (Z.eqb_spec pathp 0); [done|].
  cbv zeta. rewrite good_flags. destruct (Z.eqb_spec (Z.land openflags O_ACCMODE) 3); [done|].
  cbn [andb]. run (file_world_eq _ _ _ _ Hc). rewrite bool_decide_eq_false_2 by done.
  run (file_world_eq (vfs_open _ _ _) (set_world w1 s) _ _ Hv). done.
Qed.

Lemma least_free_fd s s' t fd p :
  ftables s !! cur s = Some t -> length t = 128%nat -> find_fd t = Some fd -> ftables s' = ftables s ->
  slot s (cur s) (Z.of_nat fd) = None /\
  (forall fd', 0 <= fd' < Z.of_nat fd -> is_Some (slot s (cur s) fd')) /\
  slot (with_fd (cur s) (Z.of_nat fd) p s') (cur s) (Z.of_nat fd) = p.
Proof.
  intros Ht Hlen [Hfd Hmin]%find_fd_Some Hs'. pose proof (lookup_lt_Some _ _ _ Hfd). split_and!.
  - unfold slot. rewrite Ht. cbn. destruct (Z.ltb_spec (Z.of_nat fd) 0); [lia|]. by rewrite Nat2Z.id, Hfd.
  - intros fd' Hfd'. unfold slot. rewrite Ht. cbn. destruct (Z.ltb_spec fd' 0); [lia|].
    destruct (lookup_lt_is_Some_2 t (Z.to_nat fd')) as [q Hq]; [lia|]. rewrite Hq.
    destruct (Hmin (Z.to_nat fd') q) as [x ->]; [lia|done|done].
  - apply (slot_with_fd_eq _ _ _ _ t); [by rewrite Hs'|lia].
Qed.

(** One of the allocations of the lock fails. *)
Definition lock_refused (w w' : W) : Prop :=
  kmalloc false w = Ret None w' \/
  exists a w1, kmalloc false w = Ret (Some a) w1 /\
    (kmalloc false w1 = Ret None w' \/ exists b w2, kmalloc false w1 = Ret (Some b) w2 /\ kmalloc false w2 = Ret None w').

Lemma fill_slot_no_lock s acc v i o w' :
  find_slot (sysft s) = Some i -> sysft s !! i = Some o -> lock_refused (world s) w' ->
  fill_slot acc v s = Ret (Some (OfSys i))
    (set_world w' (upd_of (OfSys i) (Openfile (Some v) (mode o) 0 acc None 1) s)).
Proof.
  intros Hi Ho Hl. unfold fill_slot. rewrite (bind_eq get _ _ s s) by done. rewrite Hi.
  run (write_of_eq s (OfSys i) o); [|done].
  set (s1 := upd_of _ _ s). assert (Ho1 : lookup_of s1 (OfSys i) = Some (set_vn (Some v) o)) by (by eapply lookup_upd).
  run (write_of_eq _ _ _ (set_offset 0) Ho1).
  set (s2 := upd_of _ _ s1). assert (Ho2 : lookup_of s2 (OfSys i) = Some (set_offset 0 (set_vn (Some v) o))) by (by eapply lookup_upd).
  run (write_of_eq _ _ _ (set_accmode acc) Ho2).
  set (s3 := upd_of _ _ s2).
  assert (Ho3 : lookup_of s3 (OfSys i) = Some (Openfile (Some v) (mode o) 0 acc (file_lock o) (ref_count o)))
    by (by eapply lookup_upd).
  assert (Hc : create_lock s3 = Ret None (set_world w' s3)).
  { unfold create_lock. destruct Hl as [E1|(a & w1 & E1 & [E2|(b & w2 & E2 & E3)])];
      run (file_world_eq (kmalloc false) s3 _ _ E1); [done|..];
      run (file_world_eq (kmalloc false) (set_world w1 s3) _ _ E2); [done|].
    by run (file_world_eq (kmalloc false) (set_world w2 (set_world w1 s3)) _ _ E3). }
  run Hc. change (lookup_of s3 (OfSys i)) with (lookup_of (set_world w' s3) (OfSys i)) in Ho3.
  run (write_of_eq _ _ _ (set_file_lock None) Ho3). set (s5 := upd_of _ _ _).
  assert (Ho5 : lookup_of s5 (OfSys i) = Some (Openfile (Some v) (mode o) 0 acc None (ref_count o)))
    by (by eapply lookup_upd).
  run (write_of_eq _ _ _ (set_ref_count 1) Ho5).
  unfold s5, s3, s2, s1. cbn. unfold set_sysft, set_world. cbn. by rewrite !list_insert_insert_eq.
Qed.

(** When the lock cannot be had, or the size for O_APPEND not be asked for. *)
Lemma open_vnode_no_lock s openflags acc v i o w' w'' :
  find_slot (sysft s) = Some i -> sysft s !! i = Some o -> lock_refused (world s) w' -> vfs_close v w' = Ret tt w'' ->
  open_vnode openflags acc v s =
    Ret (-1, Some ENOMEM) (set_world w'' (upd_of (OfSys i) (Openfile (Some v) (mode o) 0 acc None 1) s)).
Proof.
  intros Hi Ho Hl Hc. unfold open_vnode. run (fill_slot_no_lock s acc v i o w' Hi Ho Hl).
  cbn [deref]. rewrite bind_ret_l. set (o1 := Openfile _ _ _ _ _ _). set (s1 := set_world w' _).
  assert (Ho1 : lookup_of s1 (OfSys i) = Some o1) by (by eapply (lookup_upd s (OfSys i))).
  run (read_of_eq _ _ _ Ho1). rewrite bool_decide_eq_true_2 by done. by run (file_world_eq (vfs_close v) s1 _ _ Hc).
Qed.

Lemma open_vnode_no_stat s openflags acc v i o a b c w1 w2 w3 r st w' w'' :
  find_slot (sysft s) = Some i -> sysft s !! i = Some o ->
  kmalloc false (world s) = Ret (Some a) w1 -> kmalloc false w1 = Ret (Some b) w2 -> kmalloc false w2 = Ret (Some c) w3 ->
  Z.land openflags O_APPEND <> 0 -> VOP_STAT v fresh_stat w3 = Ret (r, st) w' -> r <> 0 -> vfs_close v w' = Ret tt w'' ->
  open_vnode openflags acc v s =
    Ret (-1, Some EINVAL) (set_world w'' (set_locks (<[a := Lock None []]> (locks s))
      (upd_of (OfSys i) (Openfile (Some v) (mode o) 0 acc (Some a) 1) s))).
Proof.
  intros Hi Ho H1 H2 H3 Happ Hst Hr Hc. unfold open_vnode.
  run (fill_slot_eq s acc v i o a b c w1 w2 w3 Hi Ho H1 H2 H3). cbn [deref]. rewrite bind_ret_l. set (s1 := set_world _ _).
  set (o1 := Openfile _ _ _ _ _ _) in s1.
  assert (Ho1 : lookup_of s1 (OfSys i) = Some o1) by (by eapply (lookup_upd s (OfSys i))).
  run (read_of_eq _ _ _ Ho1). cbn [file_lock o1]. rewrite bool_decide_eq_false_2 by done.
  destruct (Z.eqb_spec (Z.land openflags O_APPEND) 0); [done|]. cbn [negb].
  assert (E : (v' ← vnode_check (vn o1); '(result, st) ← zoom world_lens (VOP_STAT v' fresh_stat);
              if negb (result =? 0) then mret false else
              write_of (OfSys i) (set_offset (st_size st));; mret true) s1 = Ret false (set_world w' s1)).
  { cbn [vnode_check vn o1]. rewrite bind_ret_l. run (file_world_eq (VOP_STAT v fresh_stat) s1 _ _ Hst).
    by destruct (Z.eqb_spec r 0). }
  run E. cbn [negb]. by run (file_world_eq (vfs_close v) (set_world w' s1) _ _ Hc).
Qed.

(** C11. [open].  When the name can be copied in, the file system opens the file and the
    lock can be allocated, the result is the least free descriptor; it leads to the
    first free entry of the system-wide table, which gets the vnode, the access mode,
    one reference, and offset 0 or, with O_APPEND, the file's size; every other
    descriptor and entry is as before.  Without a free descriptor the result is
    EMFILE, when the lock cannot be allocated ENOMEM, when [fstat] fails EINVAL: each
    time the vnode is closed, but the table entry stays occupied by it.  With
    the table full, the check for it comes after the entry's lock was read through a
    null pointer.  A null name is EFAULT, the access mode 3 EINVAL, an empty name
    EINVAL, and an error of [copyinstr] or of [vfs_open] is passed on; in these cases
    nothing but the world of these two has changed. *)
Theorem open_correct s pathp openflags md t :
  ftables s !! cur s = Some t -> length t = 128%nat ->
  (forall v w, open_answers s pathp openflags md v w ->
    match find_slot (sysft s) with
    | None => sys_open pathp openflags md s = Fault "of->file_lock"
    | Some i => exists o, sysft s !! i = Some o /\ free_slot o /\
       (forall a off w', lock_answers openflags v w a off w' ->
        let s' := opened s i o v openflags a off w' in
        lookup_of s' (OfSys i) = Some (Openfile (Some v) (mode o) off (Z.land openflags O_ACCMODE) (Some a) 1) /\
        (forall q, q <> OfSys i -> lookup_of s' q = lookup_of s q) /\
        match find_fd t with
        | Some fd =>
            sys_open pathp openflags md s =
              Ret (Z.of_nat fd, None) (with_fd (cur s) (Z.of_nat fd) (Some (OfSys i)) s') /\
            slot s (cur s) (Z.of_nat fd) = None /\
            (forall fd', 0 <= fd' < Z.of_nat fd -> is_Some (slot s (cur s) fd')) /\
            slot (with_fd (cur s) (Z.of_nat fd) (Some (OfSys i)) s') (cur s) (Z.of_nat fd) = Some (OfSys i)
        | None => forall w'', vfs_close v w' = Ret tt w'' ->
            sys_open pathp openflags md s = Ret (-1, Some EMFILE) (set_world w'' s')
        end) /\
       (forall w' w'', lock_refused w w' -> vfs_close v w' = Ret tt w'' ->
          sys_open pathp openflags md s = Ret (-1, Some ENOMEM)
            (set_world w'' (upd_of (OfSys i) (Openfile (Some v) (mode o) 0 (Z.land openflags O_ACCMODE) None 1) s))) /\
       (forall a b c w1 w2 w3 r st w' w'', kmalloc false w = Ret (Some a) w1 -> kmalloc false w1 = Ret (Some b) w2 ->
          kmalloc false w2 = Ret (Some c) w3 -> Z.land openflags O_APPEND <> 0 ->
          VOP_STAT v fresh_stat w3 = Ret (r, st) w' -> r <> 0 -> vfs_close v w' = Ret tt w'' ->
          sys_open pathp openflags md s = Ret (-1, Some EINVAL) (opened s i o v openflags a 0 w''))
    end) /\
  (pathp = 0 -> sys_open pathp openflags md s = Ret (-1, Some EFAULT) s) /\
  (pathp <> 0 -> Z.land openflags O_ACCMODE = 3 -> sys_open pathp openflags md s = Ret (-1, Some EINVAL) s) /\
  (pathp <> 0 -> Z.land openflags O_ACCMODE <> 3 ->
     (forall e w, copyinstr pathp PATH_MAX (world s) = Ret (inl e) w ->
        sys_open pathp openflags md s = Ret (-1, Some e) (set_world w s)) /\
     (forall w, copyinstr pathp PATH_MAX (world s) = Ret (inr []) w ->
        sys_open pathp openflags md s = Ret (-1, Some EINVAL) (set_world w s)) /\
     (forall name w e w', copyinstr pathp PATH_MAX (world s) = Ret (inr name) w -> name <> [] ->
        vfs_open (UserPath pathp) openflags md w = Ret (inl e) w' ->
        sys_open pathp openflags md s = Ret (-1, Some e) (set_world w' s))).
Proof.
  intros Ht Hlen. split_and!.
  - intros v w Hop. rewrite (sys_open_eq _ _ _ _ _ _ Hop).
    destruct (find_slot (sysft s)) as [i|] eqn:Ei.
    2: { unfold open_vnode, fill_slot. rewrite (bind_eq _ _ _ (set_world w s) None); [done|].
         rewrite (bind_eq get _ _ (set_world w s) (set_world w s)) by done. cbn [sysft set_world]. by rewrite Ei. }
    destruct (find_slot_Some _ _ Ei) as (o & Ho & Hfree & _). exists o. do 2 (split; [done|]). split; [|split].
    + intros a off w' Hlk. cbv zeta. split_and!.
      * unfold opened. cbn. apply list_lookup_insert_eq. by eapply lookup_lt_Some.
      * intros q Hq. unfold opened.
        rewrite lookup_world. transitivity (lookup_of (upd_of (OfSys i)
          (Openfile (Some v) (mode o) off (Z.land openflags O_ACCMODE) (Some a) 1) s) q); [by destruct q|].
        by apply lookup_upd_ne.
      * rewrite (open_vnode_eq (set_world w s) openflags v a off w' t i o Hlk Ht Hlen Ei Ho).
        destruct (find_fd t) as [fd|] eqn:Efd.
        -- split; [done|]. by apply (least_free_fd s _ t).
        -- intros w'' Hcl. by run (file_world_eq (vfs_close v) (opened s i o v openflags a off w') _ _ Hcl).
    + intros w' w'' Hl Hc. by rewrite (open_vnode_no_lock (set_world w s) openflags _ v i o w' w'' Ei Ho Hl Hc).
    + intros a b c w1 w2 w3 r st w' w'' H1 H2 H3 Happ Hst Hr Hc.
      by rewrite (open_vnode_no_stat (set_world w s) openflags _ v i o a b c w1 w2 w3 r st w' w'' Ei Ho H1 H2 H3 Happ Hst Hr Hc).
  - intros ->. done.
  - intros Hp Hacc. unfold sys_open. destruct (Z.eqb_spec pathp 0); [done|]. cbv zeta.
    rewrite good_flags, Hacc. cbn [andb Z.eqb Pos.eqb].
    destruct (Z.eqb_spec openflags O_RDONLY) as [->|]; [done|].
    destruct (Z.eqb_spec openflags O_WRONLY) as [->|]; [done|].
    by destruct (Z.eqb_spec openflags O_RDWR) as [->|].
  - intros Hp Hacc. unfold sys_open. destruct (Z.eqb_spec pathp 0); [done|].
    cbv zeta. rewrite good_flags. destruct (Z.eqb_spec (Z.land openflags O_ACCMODE) 3); [done|]. cbn [andb].
    split; [|split].
    + intros e w Hc. by run (file_world_eq _ _ _ _ Hc).
    + intros w Hc. by run (file_world_eq _ _ _ _ Hc).
    + intros name w e w' Hc Hne Hv. run (file_world_eq _ _ _ _ Hc). rewrite bool_decide_eq_false_2 by done.
      by run (file_world_eq (vfs_open _ _ _) (set_world w s) _ _ Hv).
Qed.

(** ** The system-wide table is never given back *)

(** Descriptors lead to entries that have a lock. *)
Definition sys_locked (s : files W) : Prop :=
  forall pid fd i, slot s pid fd = Some (OfSys i) ->
    exists o, sysft s !! i = Some o /\ is_Some (file_lock o).

(** At most [k] entries are free. *)
Definition bounded (k : nat) (s : files W) : Prop := sys_locked s /\ (free_slots s <= k)%nat.

Lemma filter_insert (l : list openfile) i o o' :
  l !! i = Some o ->
  (length (filter free_slot (<[i := o']> l)) + (if decide (free_slot o) then 1 else 0) =
   length (filter free_slot l) + (if decide (free_slot o') then 1 else 0))%nat.
Proof.
  intros Ho. pose proof (take_drop_middle _ _ _ Ho) as E. pose proof (lookup_lt_Some _ _ _ Ho).
  rewrite <-E at 2. rewrite insert_take_drop by done. rewrite !filter_app, !filter_cons, !length_app.
  destruct (decide (free_slot o)), (decide (free_slot o')); cbn [length]; lia.
Qed.

Lemma bounded_write k p f :
  (forall o, free_slot (f o) -> free_slot o) -> (forall o, is_Some (file_lock o) -> is_Some (file_lock (f o))) ->
  keeps (bounded k) (write_of p f).
Proof.
  intros Hf Hlk. apply keeps_write_of. intros s o [Hl Hk] Ho. destruct p as [i|a]; [|done].
  cbn in Ho. split.
  - intros pid fd j Hs. destruct (Hl pid fd j Hs) as (o' & Ho' & Hlo). cbn.
    destruct (decide (i = j)) as [<-|].
    + exists (f o). split; [apply list_lookup_insert_eq; by eapply lookup_lt_Some|].
      apply Hlk. by replace o with o' by congruence.
    + exists o'. by rewrite list_lookup_insert_ne.
  - unfold free_slots in *. cbn. pose proof (filter_insert _ _ _ (f o) Ho).
    destruct (decide (free_slot o)), (decide (free_slot (f o))); try lia. naive_solver.
Qed.

Lemma bounded_world k w s : bounded k s -> bounded k (set_world w s).
Proof. done. Qed.
Lemma bounded_locks k x s : bounded k s -> bounded k (set_locks x s).
Proof. done. Qed.

(** Clearing a descriptor, or letting it lead to the heap, or where one leads. *)
Lemma slot_with_fd_cases s pid fd q pid' fd' r :
  slot (with_fd pid fd q s) pid' fd' = Some r -> 0 <= fd -> slot s pid' fd' = Some r \/ q = Some r.
Proof.
  intros Hr Hfd. destruct (decide ((pid', fd') = (pid, fd))) as [E|Hne].
  - injection E as -> ->. unfold slot, with_fd in *. cbn in Hr. rewrite lookup_alter_eq in Hr.
    destruct (ftables s !! pid) as [t|] eqn:Et; [|done]. cbn in Hr. destruct (Z.ltb_spec fd 0); [done|].
    destruct (decide (Z.to_nat fd < length t)%nat).
    + rewrite list_lookup_insert_eq in Hr by done. by destruct q; right.
    + rewrite lookup_ge_None_2 in Hr; [done|]. rewrite length_insert. lia.
  - left. by rewrite slot_with_fd_ne in Hr.
Qed.

Lemma bounded_fd_set k pid fd q :
  (forall i, q <> Some (OfSys i)) -> keeps (bounded k) (fd_set_of pid fd q).
Proof.
  intros Hq. apply keeps_fd_set_of. intros s t [Hl Hk] Ht Hfd. split; [|done].
  intros pid' fd' i [Hs|Hs]%slot_with_fd_cases; [by apply (Hl pid' fd')|by destruct (Hq i)|lia].
Qed.

Lemma bounded_fd_set_cur k fd q : (forall i, q <> Some (OfSys i)) -> keeps (bounded k) (fd_set fd q).
Proof. intros Hq. unfold fd_set. apply keeps_bind; [apply keeps_get|]. intros s. by apply bounded_fd_set. Qed.

(** [p] leads to an entry with a lock. *)
Definition locked_at (k : nat) (p : ofptr) (s : files W) : Prop :=
  bounded k s /\ forall i, p = OfSys i -> exists o, sysft s !! i = Some o /\ is_Some (file_lock o).

Lemma locked_write k p q f :
  (forall o, free_slot (f o) -> free_slot o \/ p = q /\ file_lock o = None) ->
  (forall o, file_lock (f o) = file_lock o) -> keeps (locked_at k p) (write_of q f).
Proof.
  intros Hf Hlk. apply keeps_write_of. intros s o [[Hl Hk] Hp] Ho.
  destruct q as [i|a]; [|done]. cbn in Ho.
  assert (Hkeep : forall j, (exists o, sysft s !! j = Some o /\ is_Some (file_lock o)) ->
            exists o', sysft (upd_of (OfSys i) (f o) s) !! j = Some o' /\ is_Some (file_lock o')).
  { intros j (o' & Ho' & Hlo). cbn. destruct (decide (i = j)) as [<-|].
    - exists (f o). split; [apply list_lookup_insert_eq; by eapply lookup_lt_Some|].
      rewrite Hlk. by replace o with o' by congruence.
    - exists o'. by rewrite list_lookup_insert_ne. }
  split; [split|].
  - intros pid fd j Hs. apply Hkeep. by apply (Hl pid fd).
  - unfold free_slots in *. cbn. pose proof (filter_insert _ _ _ (f o) Ho).
    destruct (decide (free_slot o)) as [|Hno]; [destruct (decide _); lia|].
    destruct (decide (free_slot (f o))) as [Hfo|]; [|lia]. exfalso.
    destruct (Hf o Hfo) as [?|[-> Hn]]; [done|].
    destruct (Hp i eq_refl) as (o' & Ho' & Hlo). rewrite Ho in Ho'. injection Ho' as <-.
    rewrite Hn in Hlo. by destruct Hlo.
  - intros j ->. apply Hkeep. by apply Hp.
Qed.

Lemma bounded_close k fd : keeps (bounded k) (sys_close fd).
Proof.
  apply (keeps_sys_close _ (locked_at k)).
  - intros s p Hb Hs. split; [done|]. intros i ->. by apply (proj1 Hb) in Hs.
  - by intros p s [? _].
  - done.
  - done.
  - intros p. unfold fd_set. apply keeps_bind; [apply keeps_get|intros s0].
    apply keeps_fd_set_of. intros s t [[Hl Hk] Hp] Ht Hfd. split; [split|]; [|done|done].
    intros pid' fd' i [Hs|Hs]%slot_with_fd_cases; [by apply (Hl pid' fd')|done|lia].
  - intros p. apply locked_write; [|done]. intros o [_ Hn]. right. by split.
  - intros p n. apply locked_write; [|done]. intros o Hn. by left.
Qed.

#[local] Hint Resolve bounded_close keeps_read_of keeps_fd_get keeps_is_valid : keeps.

Lemma bounded_on_lock {A} k l (m : Z -> K lock A) : keeps (bounded k) (on_lock l m).
Proof. apply keeps_on_lock, bounded_locks. Qed.
Lemma bounded_zoom {A} k (m : K W A) : keeps (bounded k) (zoom world_lens m).
Proof. apply keeps_world, bounded_world. Qed.
Lemma bounded_set k p x : keeps (bounded k) (write_of p (set_offset x)).
Proof. by apply bounded_write. Qed.
Lemma bounded_ref k p n : keeps (bounded k) (write_of p (set_ref_count n)).
Proof. by apply bounded_write. Qed.
Lemma bounded_ref1 k p : keeps (bounded k) (write_of p (fun o => set_ref_count (u32 (ref_count o + 1)) o)).
Proof. by apply bounded_write. Qed.
Lemma bounded_heap k a f : keeps (bounded k) (write_of (OfHeap a) f).
Proof. by apply keeps_write_of. Qed.
Lemma bounded_new k a : keeps (bounded k) (modify (fun s => set_heap (<[a := fresh_openfile]> (heap s)) s)).
Proof. by apply keeps_modify. Qed.
#[local] Hint Resolve bounded_on_lock bounded_zoom bounded_set bounded_ref bounded_ref1 bounded_heap bounded_new : keeps.

Lemma bounded_putch k n p : keeps (bounded k) (putch_loop n p).
Proof. revert p. induction n as [|n IH]; intros p; cbn [putch_loop]; keeps_tac. Qed.
Lemma bounded_getch k n i p : keeps (bounded k) (getch_loop n i p).
Proof. revert i. induction n as [|n IH]; intros i; cbn [getch_loop]; keeps_tac. Qed.
#[local] Hint Resolve bounded_putch bounded_getch : keeps.

Lemma bounded_transfer k fd b n :
  keeps (bounded k) (file_read fd b n) /\ keeps (bounded k) (file_write fd b n).
Proof. unfold file_read, file_write, acquire, release, fail. split; keeps_tac. Qed.

Lemma bounded_read k fd b n : keeps (bounded k) (sys_read fd b n).
Proof. pose proof (proj1 (bounded_transfer k fd b n)). unfold sys_read, sys_vn, fail. keeps_tac. Qed.
Lemma bounded_write_call k fd b n : keeps (bounded k) (sys_write fd b n).
Proof. pose proof (proj2 (bounded_transfer k fd b n)). unfold sys_write, sys_vn, fail. keeps_tac. Qed.

Lemma bounded_other k c :
  match c with Open _ _ _ | Fork _ | Switch _ => False | _ => True end -> keeps (bounded k) (do_call c).
Proof.
  pose proof (fun fd a => bounded_fd_set_cur k fd (Some (OfHeap a)) ltac:(done)).
  pose proof (fun fd => bounded_fd_set_cur k fd None ltac:(done)).
  destruct c; intros []; cbn [do_call].
  - apply bounded_close.
  - apply bounded_read.
  - apply bounded_write_call.
  - unfold sys_fstat, vnode_check, fail. keeps_tac.
  - unfold sys_mkdir, fail. keeps_tac.
  - unfold sys_dup2, fail. keeps_tac.
  - unfold sys_lseek, acquire, release, vnode_check, fail. keeps_tac.
Qed.

(** A step that keeps the invariant in the context. *)
Tactic Notation "step_keeps" constr(K) "in" ident(Hs) "as" ident(x) :=
  rewrite wlp_bind; eapply wlp_mono; [|eapply K; exact Hs]; cbv beta;
  let s' := fresh "s" in clear Hs; intros x s' Hs.

(** Entry [i] is being set up: taken, and not yet the target of a descriptor. *)
Definition setting_up (B : openfile -> Prop) (i k : nat) (s : files W) : Prop :=
  (forall pid fd, slot s pid fd <> Some (OfSys i)) /\ sys_locked s /\ (S (free_slots s) <= k)%nat /\
  exists o, sysft s !! i = Some o /\ B o.

Definition has_vnode (o : openfile) : Prop := is_Some (vn o).
Definition has_both (o : openfile) : Prop := is_Some (vn o) /\ is_Some (file_lock o).

Lemma setting_up_write B i k f :
  (forall o, B o -> ~ free_slot o) -> (forall o, B o -> B (f o)) ->
  keeps (setting_up B i k) (write_of (OfSys i) f).
Proof.
  intros HB Hf. apply keeps_write_of. intros s o (Hno & Hl & Hk & o' & Ho' & Hb) Ho. cbn in Ho.
  rewrite Ho in Ho'. injection Ho' as <-. split; [done|]. split; [|split].
  - intros pid fd j Hs. destruct (Hl pid fd j Hs) as (o' & Ho' & Hlo). exists o'. split; [|done].
    cbn. rewrite list_lookup_insert_ne; [done|]. intros <-. by apply (Hno pid fd).
  - unfold free_slots in *. cbn. pose proof (filter_insert _ _ _ (f o) Ho).
    pose proof (HB _ Hb). pose proof (HB _ (Hf _ Hb)).
    rewrite !decide_False in H0 by done. lia.
  - exists (f o). split; [|by apply Hf]. cbn. apply list_lookup_insert_eq. by eapply lookup_lt_Some.
Qed.

Lemma setting_up_bounded B i k s : setting_up B i k s -> bounded k s.
Proof. intros (_ & Hl & Hk & _). split; [done|lia]. Qed.

Lemma vnode_taken o : has_vnode o -> ~ free_slot o.
Proof. intros [v Hv] [Hn _]. congruence. Qed.
Lemma both_taken o : has_both o -> ~ free_slot o.
Proof. intros [Hv _]. by apply vnode_taken. Qed.

Lemma fill_slot_bounded k acc v s :
  bounded k s ->
  wlp (fill_slot acc v) (fun r s' => forall p, r = Some p -> exists i, p = OfSys i /\ setting_up has_vnode i k s') s.
Proof.
  intros [Hl Hk]. unfold fill_slot. rewrite wlp_bind, wlp_get.
  destruct (find_slot (sysft s)) as [i|] eqn:Ei; [|done].
  destruct (find_slot_Some _ _ Ei) as (o & Ho & Hfree & _).
  rewrite wlp_bind. unfold wlp at 1. rewrite (write_of_eq s (OfSys i) o) by done.
  set (s1 := upd_of _ _ s).
  assert (H1 : setting_up has_vnode i k s1).
  { split; [|split; [|split]].
    - intros pid fd Hs. destruct (Hl pid fd i Hs) as (o' & Ho' & Hlo). rewrite Ho in Ho'. injection Ho' as <-.
      destruct Hfree as [_ Hn]. rewrite Hn in Hlo. by destruct Hlo.
    - intros pid fd j Hs. destruct (Hl pid fd j Hs) as (o' & Ho' & Hlo). exists o'. split; [|done].
      cbn. rewrite list_lookup_insert_ne; [done|]. intros <-. rewrite Ho in Ho'. injection Ho' as <-.
      destruct Hfree as [_ Hn]. rewrite Hn in Hlo. by destruct Hlo.
    - unfold free_slots in *. cbn. pose proof (filter_insert _ _ _ (set_vn (Some v) o) Ho) as Hc.
      rewrite decide_True, decide_False in Hc by (try done; intros [? _]; done). lia.
    - exists (set_vn (Some v) o). split; [|by eexists]. cbn. apply list_lookup_insert_eq. by eapply lookup_lt_Some. }
  assert (Hw : forall f, (forall o, has_vnode o -> has_vnode (f o)) ->
            keeps (setting_up has_vnode i k) (write_of (OfSys i) f)).
  { intros f Hf. by apply setting_up_write; [apply vnode_taken|]. }
  clearbody s1. pose proof (keeps_create_lock (setting_up has_vnode i k)) as Hc.
  step_keeps (Hw (set_offset 0) ltac:(done)) in H1 as u1.
  step_keeps (Hw (set_accmode acc) ltac:(done)) in H1 as u2.
  step_keeps (Hc ltac:(done) ltac:(done)) in H1 as l.
  step_keeps (Hw (set_file_lock l) ltac:(done)) in H1 as u3.
  step_keeps (Hw (set_ref_count 1) ltac:(done)) in H1 as u4. rewrite wlp_ret. intros p [= <-]. by exists i.
Qed.

(** The outcome of [open] for the table: an error, or one free entry less. *)
Definition open_outcome (k : nat) (r : Z * option Z) (s : files W) : Prop :=
  bounded k s /\ (0 <= r.1 -> exists k', k = S k' /\ bounded k' s).

Lemma fail_outcome k e s : bounded k s -> wlp (fail e) (open_outcome k) s.
Proof. intros Hb. split; [done|]. cbn. lia. Qed.

Lemma open_vnode_bounded k flags acc v s :
  bounded k s -> wlp (open_vnode flags acc v) (open_outcome k) s.
Proof.
  intros Hb. unfold open_vnode. rewrite wlp_bind.
  eapply wlp_mono; [|by apply fill_slot_bounded]. cbv beta. intros [p|] s1 H1; [|done].
  destruct (H1 p eq_refl) as (i & -> & H2). clear H1 Hb. cbn [deref]. rewrite wlp_bind, wlp_ret, wlp_bind.
  pose proof H2 as (_ & _ & _ & o & Ho & Hv). unfold wlp at 1. rewrite (read_of_eq s1 (OfSys i) o Ho).
  assert (Hw : keeps (bounded k) (zoom world_lens (vfs_close v))) by apply bounded_zoom.
  case_bool_decide as Hl.
  { apply setting_up_bounded in H2. step_keeps Hw in H2 as u. by apply fail_outcome. }
  assert (H3 : setting_up has_both i k s1).
  { destruct H2 as (? & ? & ? & _). split_and!; try done. exists o. split; [done|]. split; [done|].
    by destruct (file_lock o). }
  clear H2 Ho Hv Hl.
  assert (Hset : forall x, keeps (setting_up has_both i k) (write_of (OfSys i) (set_offset x))).
  { intros x. by apply setting_up_write; [apply both_taken|]. }
  assert (Happ : keeps (setting_up has_both i k) (
      if negb (Z.land flags O_APPEND =? 0) then
        v' ← vnode_check (vn o);
        '(result, st) ← zoom world_lens (VOP_STAT v' fresh_stat);
        if negb (result =? 0) then mret false else
        write_of (OfSys i) (set_offset (st_size st));; mret true
      else mret true : K (files W) bool)).
  { pose proof (fun A (m : K W A) => keeps_world (setting_up has_both i k) ltac:(done) m).
    unfold vnode_check. keeps_tac. }
  step_keeps Happ in H3 as ok. destruct ok; cbn [negb].
  2: { apply setting_up_bounded in H3. step_keeps Hw in H3 as u. by apply fail_outcome. }
  rewrite wlp_bind, wlp_get, wlp_bind. destruct (ftables _ !! cur _) as [t|]; [|done]. cbn [deref].
  rewrite wlp_ret. destruct (find_fd t) as [fd|].
  2: { apply setting_up_bounded in H3. step_keeps Hw in H3 as u. by apply fail_outcome. }
  destruct H3 as (_ & Hl & Hk & o' & Ho & Hb). destruct k as [|k]; [lia|].
  assert (Hfd : keeps (fun s => bounded k s /\ exists o, sysft s !! i = Some o /\ is_Some (file_lock o))
                  (fd_set (Z.of_nat fd) (Some (OfSys i)))).
  { unfold fd_set. apply keeps_bind; [apply keeps_get|intros s3]. apply keeps_fd_set_of.
    intros s4 t4 [[Hl4 Hk4] Hi4] Ht4 Hfd. split; [split; [|done]|done].
    intros pid' fd' j [Hs|Hs]%slot_with_fd_cases; [by apply (Hl4 pid' fd')| |lia].
    injection Hs as <-. exact Hi4. }
  rewrite wlp_bind. eapply wlp_mono; [|apply Hfd; split; [split; [done|lia]|]; exists o'; split; [done|apply Hb]].
  cbv beta. intros _ s3 [[Hl3 Hk3] _]. rewrite wlp_ret. split; [split; [done|lia]|].
  intros _. by exists k.
Qed.

Lemma open_bounded k pathp flags md s :
  bounded k s -> wlp (sys_open pathp flags md) (open_outcome k) s.
Proof.
  intros Hb. unfold sys_open. destruct (pathp =? 0); [by apply fail_outcome|]. cbv zeta.
  destruct (_ && _); [by apply fail_outcome|].
  pose proof (bounded_zoom k (copyinstr pathp PATH_MAX)) as Hw1.
  pose proof (bounded_zoom k (vfs_open (UserPath pathp) flags md)) as Hw2.
  step_keeps Hw1 in Hb as r. destruct r as [e|fname]; [by apply fail_outcome|].
  case_bool_decide; [by apply fail_outcome|].
  step_keeps Hw2 in Hb as r. destruct r as [e|v]; [by apply fail_outcome|].
  by apply open_vnode_bounded.
Qed.

Lemma bounded_copy k n psrc pdest fd : 0 <= fd -> keeps (bounded k) (copy_table n psrc pdest fd).
Proof.
  revert fd. induction n as [|n IH]; intros fd Hfd; cbn [copy_table]; [apply keeps_ret|].
  intros s Hb. rewrite wlp_bind, wlp_get, wlp_bind. destruct (ftables s !! psrc) as [t|] eqn:Et; [|done].
  cbn [deref]. rewrite wlp_ret, wlp_bind. destruct (t !! Z.to_nat fd) as [q|] eqn:Eq; [|done]. cbn [deref].
  rewrite wlp_ret.
  assert (Hq : keeps (fun s => bounded k s /\ forall i, q = Some (OfSys i) ->
             exists o, sysft s !! i = Some o /\ is_Some (file_lock o)) (fd_set_of pdest fd q)).
  { apply keeps_fd_set_of. intros s4 t4 [[Hl4 Hk4] Hi4] Ht4 Hfd4. split; [split; [|done]|done].
    intros pid' fd' j [Hs|Hs]%slot_with_fd_cases; [by apply (Hl4 pid' fd')| |lia]. by apply Hi4. }
  rewrite wlp_bind. eapply wlp_mono; [|apply Hq; split; [done|]].
  2: { intros i ->. apply (proj1 Hb psrc fd). unfold slot. rewrite Et. cbn.
       destruct (Z.ltb_spec fd 0); [lia|]. by rewrite Eq. }
  cbv beta. intros _ s1 [Hb1 _]. clear Hq Hb.
  assert (Hi : keeps (bounded k) (openfileIncrRefCount q)) by (unfold openfileIncrRefCount; keeps_tac).
  step_keeps Hi in Hb1 as u. apply IH; [lia|done].
Qed.

(** C10. The system-wide table is used up.  Over any sequence of system calls of any
    processes, the [open] calls that succeed are at most the entries that were free:
    no [close] ever gives one back, since it leaves the pointer to the destroyed lock
    in the entry.  And when none is left, an [open] that the file system grants is a
    null dereference in the kernel. *)
Theorem open_files_exhausted s :
  sys_locked s ->
  (forall cs, wlp (history cs) (fun opens s' =>
     (opens + free_slots s' <= free_slots s)%nat /\ sys_locked s') s) /\
  (free_slots s = 0%nat -> forall pathp openflags md v w,
     open_answers s pathp openflags md v w -> sys_open pathp openflags md s = Fault "of->file_lock").
Proof.
  intros Hl. split.
  - intros cs.
    assert (Hgen : forall cs k s, bounded k s ->
              wlp (history cs) (fun opens s' => (opens <= k)%nat /\ bounded (k - opens) s') s).
    { clear. intros cs. induction cs as [|c cs IH]; intros k s Hb; cbn [history].
      { rewrite wlp_ret. split; [lia|]. by rewrite Nat.sub_0_r. }
      rewrite wlp_bind. apply (wlp_mono _ (fun r s' => bounded k s' /\
        (match c with Open _ _ _ => 0 <= r.1 -> exists k', k = S k' /\ bounded k' s' | _ => True end))).
      - intros r s1 [Hb1 Ho]. rewrite wlp_bind.
        destruct (if c is Open _ _ _ then 0 <=? r.1 else false) eqn:Eo.
        + destruct c; try done. apply Z.leb_le in Eo. destruct (Ho Eo) as (k' & -> & Hb').
          eapply wlp_mono; [|apply (IH k' s1 Hb')]. cbv beta. intros n s2 [Hn Hb2].
          rewrite wlp_ret. destruct (Z.leb_spec 0 r.1); [|lia]. split; [lia|exact Hb2].
        + eapply wlp_mono; [|apply (IH k s1 Hb1)]. cbv beta. intros n s2 [Hn Hb2].
          rewrite wlp_ret. destruct c; try by split. by rewrite Eo.
      - destruct c; try (eapply wlp_mono; [|by apply (bounded_other k); [done|]]; by intros).
        + by apply open_bounded.
        + cbn [do_call]. rewrite wlp_bind, wlp_get.
          pose proof (bounded_copy k (Z.to_nat OPEN_MAX) (cur s) child 0 ltac:(lia)) as Hc.
          step_keeps Hc in Hb as u. by rewrite wlp_ret.
        + done. }
    eapply wlp_mono; [|apply (Hgen cs (free_slots s) s)]; [|by split].
    cbv beta. intros n s' (Hn & Hl' & Hk). split; [lia|done].
  - intros Hz pathp flags md v w Hop. rewrite (sys_open_eq _ _ _ _ _ _ Hop).
    unfold open_vnode, fill_slot. rewrite (bind_eq _ _ _ (set_world w s) None); [done|].
    rewrite (bind_eq get _ _ (set_world w s) (set_world w s)) by done. cbn [sysft set_world].
    destruct (find_slot (sysft s)) as [i|] eqn:Ei; [|done].
    destruct (find_slot_Some _ _ Ei) as (o & Ho & Hf & _). exfalso.
    unfold free_slots in Hz. apply nil_length_inv in Hz.
    assert (o ∈ filter free_slot (sysft s)); [|rewrite Hz in *; by apply elem_of_nil in H0].
    apply list_elem_of_filter. split; [done|]. by eapply list_elem_of_lookup_2.
Qed.

(** ** [dup2] *)

(** The state [dup2] leaves: [a] is the new open file. *)
Definition duplicated (s : files W) (new_fd : Z) (p : ofptr) (o : openfile) (a : Z) (w : W) : files W :=
  set_world w (upd_of (OfHeap a) (Openfile (vn o) (mode o) 0 (accmode o) (file_lock o) (ref_count o + 1))
    (upd_of p (set_ref_count (ref_count o + 1) o) (with_fd (cur s) new_fd (Some (OfHeap a)) s))).

Lemma sys_dup2_eq s old new p o t a w :
  open_at s old p o -> 0 <= new < OPEN_MAX -> old <> new ->
  ftables s !! cur s = Some t -> length t = 128%nat -> slot s (cur s) new = None ->
  kmalloc true (world s) = Ret (Some a) w -> heap s !! a = None -> 0 <= ref_count o < 2 ^ 32 - 1 ->
  sys_dup2 old new s = Ret (0, Some 0) (duplicated s new p o a w).
Proof.
  intros Hop Hnew Hne Ht Hlen Hs Hm Ha Hrc. destruct (file_of_open _ _ _ _ Hop) as (l & H1 & _ & _ & _).
  destruct Hop as (Hold & Hsl & Ho & _). unfold OPEN_MAX in Hnew. unfold sys_dup2. run H1.
  unfold OPEN_MAX. destruct (Z.ltb_spec new 0), (Z.leb_spec 128 new); try lia. cbn [negb orb].
  destruct (Z.eqb_spec old new); [done|].
  run (slot_None s new); [|by exists t|unfold OPEN_MAX; lia|done]. rewrite bind_ret_l. cbn [negb].
  run (file_world_eq _ _ _ _ Hm).
  set (s1 := set_heap (<[a := fresh_openfile]> (heap s)) (set_world w s)).
  rewrite (bind_eq _ _ _ s1 tt) by done.
  assert (Hpa : p <> OfHeap a) by (intros ->; cbn in Ho; congruence).
  assert (Hset : fd_set new (Some (OfHeap a)) s1 = Ret tt (with_fd (cur s) new (Some (OfHeap a)) s1)).
  { unfold fd_set. rewrite (bind_eq get _ _ s1 s1) by done. apply (fd_set_of_eq _ _ _ _ t); [done|lia]. }
  run Hset. set (s2 := with_fd _ _ _ s1).
  assert (Hg : fd_get old s2 = Ret (Some p) s2).
  { apply fd_get_Some. change (cur s2) with (cur s). unfold s2. rewrite slot_with_fd_ne by (try lia; congruence). done. }
  run Hg. cbn [deref]. rewrite bind_ret_l.
  assert (Ho2 : lookup_of s2 p = Some o).
  { rewrite <-Ho. destruct p as [i|b]; [done|]. cbn. rewrite lookup_insert_ne; [done|congruence]. }
  run (write_of_eq _ _ _ (fun o => set_ref_count (u32 (ref_count o + 1)) o) Ho2).
  rewrite u32_small by lia. set (o3 := set_ref_count (ref_count o + 1) o). set (s3 := upd_of p o3 s2).
  assert (Ho3 : lookup_of s3 p = Some o3) by (by eapply lookup_upd). run (read_of_eq _ _ _ Ho3).
  assert (Hw : forall f x s4, lookup_of s4 (OfHeap a) = Some x ->
            write_of (OfHeap a) f s4 = Ret tt (upd_of (OfHeap a) (f x) s4)) by (intros; by apply write_of_eq).
  assert (Hx : lookup_of s3 (OfHeap a) = Some fresh_openfile).
  { unfold s3. rewrite lookup_upd_ne by done. cbn. by rewrite lookup_insert_eq. }
  assert (Hup : forall x s4, lookup_of (upd_of (OfHeap a) x s4) (OfHeap a) = Some x).
  { intros. cbn. by rewrite lookup_insert_eq. }
  run (Hw (set_vn (vn o3)) _ _ Hx). run (Hw (set_mode (mode o3))); [|apply Hup].
  run (Hw (set_offset 0)); [|apply Hup]. run (Hw (set_accmode (accmode o3))); [|apply Hup].
  run (Hw (set_file_lock (file_lock o3))); [|apply Hup]. run (Hw (set_ref_count (ref_count o3))); [|apply Hup].
  rewrite !file_upd_upd. unfold duplicated, s3, s2, s1, o3. cbn -[upd_of].
  unfold mret, K_ret. f_equal.
  destruct p as [i|b]; cbn; unfold set_sysft, set_heap, set_world, with_fd, set_ftables; cbn.
  - by rewrite insert_insert_eq.
  - f_equal. rewrite (insert_insert_ne _ a b) by congruence. by rewrite insert_insert_eq, insert_insert_ne by congruence.
Qed.

(** Closing both descriptors afterwards: the count of neither open file reaches one. *)
Lemma close_both s old new p o t a w l v :
  open_at s old p o -> file_lock o = Some l -> 0 <= new < OPEN_MAX -> old <> new ->
  ftables s !! cur s = Some t -> length t = 128%nat -> heap s !! a = None ->
  vn o = Some v -> 1 <= ref_count o ->
  exists s1 s2, sys_close old (duplicated s new p o a w) = Ret (0, None) s1 /\
    sys_close new s1 = Ret (0, None) s2 /\ world s2 = w.
Proof.
  intros (Hold & Hsl & Ho & l' & Hl' & Hlk) Hl Hnew Hne Ht Hlen Ha Hv Hrc.
  rewrite Hl in Hl'. injection Hl' as <-. set (s0 := duplicated s new p o a w).
  assert (Hpa : p <> OfHeap a) by (intros ->; cbn in Ho; congruence).
  set (o0 := set_ref_count (ref_count o + 1) o). unfold OPEN_MAX in *.
  set (t0 := <[Z.to_nat new := Some (OfHeap a)]> t).
  assert (Ht0 : ftables s0 !! cur s0 = Some t0).
  { unfold s0, duplicated. destruct p; cbn; by rewrite lookup_alter_eq, Ht. }
  assert (Hcur : cur s0 = cur s) by (unfold s0, duplicated; by destruct p).
  assert (Hlocks : locks s0 = locks s) by (unfold s0, duplicated; by destruct p).
  assert (Ho0 : lookup_of s0 p = Some o0).
  { unfold s0, duplicated. rewrite lookup_world, lookup_upd_ne by done. apply (lookup_upd _ _ o). by destruct p. }
  assert (Hslots : forall fd', slot s0 (cur s) fd' = slot (with_fd (cur s) new (Some (OfHeap a)) s) (cur s) fd').
  { intros fd'. unfold s0, duplicated. by destruct p. }
  assert (Hop0 : open_at s0 old p o0).
  { split; [done|]. rewrite Hcur, Hslots, slot_with_fd_ne by (try lia; congruence).
    split_and!; [done..|]. exists l. by rewrite Hlocks. }
  rewrite (sys_close_shared s0 old p o0 l t0 Hop0 Hl Ht0 ltac:(unfold t0; by rewrite length_insert) v Hv) by (cbn; lia).
  eexists. set (s1 := closed_shared s0 old p o0).
  set (oa := Openfile (vn o) (mode o) 0 (accmode o) (file_lock o) (ref_count o + 1)).
  assert (Hop1 : open_at s1 new (OfHeap a) oa).
  { unfold s1, closed_shared. split; [done|]. rewrite Hcur. split; [|split].
    - transitivity (slot (with_fd (cur s) old None s0) (cur s) new); [unfold s0, duplicated; by destruct p|].
      rewrite slot_with_fd_ne by (try lia; congruence). rewrite Hslots.
      apply (slot_with_fd_eq _ _ _ _ t); [done|lia].
    - rewrite lookup_upd_ne by done. change (lookup_of s0 (OfHeap a) = Some oa). unfold s0, duplicated.
      rewrite lookup_world. cbn. by rewrite lookup_insert_eq.
    - exists l. split; [done|]. rewrite <-Hlk, <-Hlocks. by destruct p. }
  assert (Ht1 : ftables s1 !! cur s1 = Some (<[Z.to_nat old := None]> t0)).
  { unfold s1, closed_shared. rewrite <-Hcur in Ht. destruct p; cbn in *; by rewrite lookup_alter_eq, Ht0. }
  rewrite (sys_close_shared s1 new _ oa l _ Hop1 Hl Ht1 ltac:(unfold t0; by rewrite !length_insert) v Hv) by (cbn; lia).
  eexists. split; [done|]. split; [done|]. unfold s1, closed_shared, s0, duplicated. by destruct p.
Qed.

(** [dup2] onto a free descriptor returns 0.  The new descriptor gets an open file
    of its own: same vnode, access mode and lock, but offset 0, and a copy of the
    incremented count; so the two do not share their offset, and when both are closed
    the vnode never is.  Equal descriptors: nothing happens and the descriptor is
    returned.  A closed standard descriptor counts as valid, and is dereferenced. *)
Lemma dup2_correct s old new t a w :
  0 <= new < OPEN_MAX -> old <> new -> ftables s !! cur s = Some t -> length t = 128%nat ->
  slot s (cur s) new = None -> kmalloc true (world s) = Ret (Some a) w -> heap s !! a = None ->
  (forall p o, open_at s old p o -> 0 <= ref_count o < 2 ^ 32 - 1 ->
     let s' := duplicated s new p o a w in
     sys_dup2 old new s = Ret (0, Some 0) s' /\
     slot s' (cur s) new = Some (OfHeap a) /\
     (forall fd, fd <> new -> slot s' (cur s) fd = slot s (cur s) fd) /\
     lookup_of s' (OfHeap a) = Some (Openfile (vn o) (mode o) 0 (accmode o) (file_lock o) (ref_count o + 1)) /\
     lookup_of s' p = Some (set_ref_count (ref_count o + 1) o) /\
     (forall v, vn o = Some v -> 1 <= ref_count o -> exists s1 s2,
        sys_close old s' = Ret (0, None) s1 /\ sys_close new s1 = Ret (0, None) s2 /\ world s2 = w) /\
     sys_dup2 old old s = Ret (old, None) s) /\
  (closed_at s old -> sys_dup2 old new s = Ret (-1, Some EBADF) s) /\
  (0 <= old < 3 -> slot s (cur s) old = None -> sys_dup2 old new s = Fault "fileTable[old_fd]->ref_count").
Proof.
  intros Hnew Hne Ht Hlen Hs Hm Ha. split_and!.
  - intros p o Hop Hrc s'.
    assert (Hpa : p <> OfHeap a) by (destruct Hop as (_ & _ & Ho & _); intros ->; cbn in Ho; congruence).
    assert (Hsl : forall fd, slot s' (cur s) fd = slot (with_fd (cur s) new (Some (OfHeap a)) s) (cur s) fd)
      by (intros fd; unfold s', duplicated; by destruct p).
    unfold OPEN_MAX in Hnew. split_and!.
    + by eapply sys_dup2_eq.
    + rewrite Hsl. apply (slot_with_fd_eq _ _ _ _ t); [done|lia].
    + intros fd Hfd. rewrite Hsl, slot_with_fd_ne by (try lia; congruence). done.
    + unfold s', duplicated. rewrite lookup_world. cbn. by rewrite lookup_insert_eq.
    + unfold s', duplicated. rewrite lookup_world, lookup_upd_ne by done. apply (lookup_upd _ _ o).
      destruct Hop as (_ & _ & Ho & _). by destruct p.
    + intros v Hv Hr. pose proof Hop as (_ & _ & _ & l & Hl & _). by eapply (close_both s old new p o t a w l v).
    + pose proof Hop as (Hold & _). destruct (file_of_open _ _ _ _ Hop) as (l & H1 & _).
      unfold sys_dup2. run H1. unfold OPEN_MAX in *.
      destruct (Z.ltb_spec old 0), (Z.leb_spec 128 old); try lia. by rewrite Z.eqb_refl.
  - intros Hc. unfold sys_dup2. run (is_valid_fd_closed _ _ Hc). done.
  - intros Hold Hso. unfold sys_dup2.
    assert (H1 : is_valid_fd old s = Ret true s).
    { unfold is_valid_fd, OPEN_MAX. destruct (Z.ltb_spec old 0), (Z.leb_spec 128 old),
        (Z.eqb_spec old 0), (Z.eqb_spec old 1), (Z.eqb_spec old 2); try lia; done. }
    run H1. unfold OPEN_MAX in *. destruct (Z.ltb_spec new 0), (Z.leb_spec 128 new); try lia. cbn [negb orb].
    destruct (Z.eqb_spec old new); [done|].
    run (slot_None s new); [|by exists t|unfold OPEN_MAX; lia|done]. rewrite bind_ret_l. cbn [negb].
    run (file_world_eq _ _ _ _ Hm).
    set (s1 := set_heap (<[a := fresh_openfile]> (heap s)) (set_world w s)).
    rewrite (bind_eq _ _ _ s1 tt) by done.
    assert (Hset : fd_set new (Some (OfHeap a)) s1 = Ret tt (with_fd (cur s) new (Some (OfHeap a)) s1)).
    { unfold fd_set. rewrite (bind_eq get _ _ s1 s1) by done. apply (fd_set_of_eq _ _ _ _ t); [done|lia]. }
    run Hset. run slot_None; [done| |unfold OPEN_MAX; lia|].
    + eexists. cbn. rewrite lookup_alter_eq, Ht. split; [done|]. by rewrite length_insert.
    + change (cur (with_fd _ _ _ _)) with (cur s). rewrite slot_with_fd_ne by (try lia; congruence). done.
Qed.
End Files_facts.

(** ** A small file system, and the theorems at a concrete state *)

(** One file of [length contents] bytes; [brk] is the next address of the allocator. *)
Record small := Small { contents : list Z; brk : Z; closed : nat }.

Definition small_transfer (u : uio) (w : small) : Z * uio :=
  if uio_resid u <? 0 then (8, u) else
  let n := Z.max 0 (Z.min (uio_resid u) (Z.of_nat (length (contents w)) - uio_offset u)) in
  (0, Uio (uio_iov u) (uio_offset u + n) (uio_resid u - n) (uio_segflg u) (uio_rw u) (uio_space u)).

Lemma small_transfer_ok u w u' :
  small_transfer u w = (0, u') ->
  0 <= uio_resid u' <= uio_resid u /\ uio_offset u' - uio_offset u = uio_resid u - uio_resid u'.
Proof.
  unfold small_transfer. destruct (Z.ltb_spec (uio_resid u) 0); [done|]. intros [= <-]. cbn. lia.
Qed.

#[local] Program Instance small_env : FileEnv small := {
  kmalloc := fun _ w => Ret (Some (brk w)) (Small (contents w) (brk w + 32) (closed w));
  fresh_openfile := Openfile None 7 7 7 None 7;
  fresh_stat := Stat 7 [];
  vfs_open := fun _ _ _ w => Ret (inr 1) w;
  vfs_close := fun _ w => Ret tt (Small (contents w) (brk w) (S (closed w)));
  vfs_mkdir := fun _ _ w => Ret 0 w;
  VOP_READ := fun _ u w => Ret (small_transfer u w) w;
  VOP_WRITE := fun _ u w => Ret (small_transfer u w) w;
  VOP_STAT := fun _ _ w => Ret (0, Stat (Z.of_nat (length (contents w))) []) w;
  copyinstr := fun _ len w => Ret (if len <=? 1 then inl 7 else inr [102]) w;
  copyout := fun _ _ w => Ret 0 w;
  user_load := fun _ w => Ret 0 w;
  user_store := fun _ _ w => Ret tt w;
  putch := fun _ w => Ret tt w;
  getch := fun w => Ret 10 w;
  p_addrspace := fun _ => None }.
Next Obligation. intros v u w u' w' [= E _]. by eapply small_transfer_ok. Qed.
Next Obligation. intros v u w u' w' [= E _]. by eapply small_transfer_ok. Qed.
Next Obligation. intros p len w l w' [= E _]. destruct (Z.leb_spec len 1); [done|]. injection E as <-. cbn. lia. Qed.

Section Files_witnesses.
Import Files.

Definition empty_of : openfile := Openfile None 0 0 0 None 0.
Definition file5 : openfile := Openfile (Some 1) 0 2 O_RDWR (Some 77) 1.

(** Process 1 has descriptor 3 on entry 5; process 2 is its new child. *)
Definition example (o : openfile) : files small :=
  State (<[5%nat := o]> (replicate 1280 empty_of)) ∅ {[77 := Lock None []]}
    {[1 := <[3%nat := Some (OfSys 5)]> (replicate 128 None); 2 := replicate 128 None]} 1 9
    (Small (replicate 100 65) 4096 0).

Lemma example_open o : file_lock o = Some 77 -> open_at (example o) 3 (OfSys 5) o.
Proof.
  intros Hl. split; [done|]. split; [done|]. split; [|by exists 77].
  done.
Qed.

Lemma read_write_correct_witness :
  (exists n, 0 <= n <= 10 /\ sys_read 3 8192 10 (example file5) =
    Ret (n, None) (upd_of (OfSys 5) (set_offset (2 + n) file5) (example file5))) /\
  sys_read 0 8192 2 (example file5) = Ret (2, None) (example file5) /\
  sys_write 0 8192 2 (example file5) = Ret (-1, Some EINVAL) (example file5).
Proof.
  split.
  - pose proof (read_write_correct (example file5) 3 8192 10 ltac:(lia)) as (_ & _ & _ & Ht).
    destruct (Ht _ _ eq_refl (example_open file5 eq_refl)) as (_ & _ & Hr); [apply Nat.leb_le; vm_compute; reflexivity|].
    destruct (Hr 1 0 (small_transfer (user_uio UIO_READ 8192 10 2 (example file5)) (world (example file5))).2
                (world (example file5)) eq_refl) as [Hr1 _].
    destruct (Hr1 eq_refl eq_refl) as (_ & _ & Hok). destruct (Hok eq_refl eq_refl) as (n & Hn & E).
    exists n. split; [exact Hn|]. rewrite s32_small in E by lia. exact E.
  - pose proof (read_write_correct (example file5) 0 8192 2 ltac:(lia)) as (_ & _ & Ht & _).
    destruct (Ht eq_refl) as (_ & Hw & Hc); [|lia|reflexivity|].
    { eexists. split; [reflexivity|]. by rewrite length_insert, length_replicate. }
    split; [|exact (Hw eq_refl)].
    destruct (Hc [10; 10] (world (example file5)) ltac:(lia)) as [_ Hr].
    destruct (Hr eq_refl) as [Hr' _].
    { do 2 (eexists _, _; split; [reflexivity|]; split; [reflexivity|]). reflexivity. }
    apply Hr'; [|reflexivity]. repeat constructor.
Defined.

Lemma lseek_correct_witness :
  sys_lseek 3 (-10) SEEK_END (example file5) =
    Ret (90, Some 0) (upd_of (OfSys 5) (set_offset 90 file5) (set_world (world (example file5)) (example file5))).
Proof.
  exact (lseek_correct (example file5) 3 (-10) SEEK_END (OfSys 5) file5 1 0
           (Stat 100 []) (world (example file5)) (example_open file5 eq_refl) ltac:(done) eq_refl eq_refl).
Defined.

Lemma close_correct_witness :
  exists s', sys_close 3 (example file5) = Ret (0, None) s' /\ slot s' 1 3 = None.
Proof.
  destruct (close_correct (example file5) 3 (OfSys 5) file5 77 _ (example_open file5 eq_refl) eq_refl eq_refl
              ltac:(by rewrite length_insert, length_replicate)) as (Hs & _ & _ & Hc & _).
  destruct (Hc 1 _ eq_refl eq_refl eq_refl) as [Hcl _]. eexists. split; [exact Hcl|]. exact Hs.
Defined.

Lemma open_correct_witness :
  exists s', sys_open 8192 0 0 (example file5) = Ret (0, None) s' /\ slot s' 1 0 = Some (OfSys 0).
Proof.
  destruct (open_correct (example file5) 8192 0 0 _ eq_refl ltac:(by rewrite length_insert, length_replicate))
    as [Hok _].
  assert (Ha : open_answers (example file5) 8192 0 0 1 (world (example file5))).
  { split; [done|]. split; [done|]. exists [102], (world (example file5)). done. }
  assert (Hl : lock_answers 0 1 (world (example file5)) 4096 0 (Small (replicate 100 65) 4192 0)).
  { exists 4128, 4160, (Small (replicate 100 65) 4128 0), (Small (replicate 100 65) 4160 0),
      (Small (replicate 100 65) 4192 0). done. }
  specialize (Hok _ _ Ha).
  change (find_slot (sysft (example file5))) with (Some 0%nat) in Hok. cbv beta iota in Hok.
  destruct Hok as (o & _ & _ & Hok & _). destruct (Hok _ _ _ Hl) as (_ & _ & Hfd).
  change (find_fd _) with (Some 0%nat) in Hfd. cbv beta iota in Hfd. destruct Hfd as (Hret & _ & _ & Hsl).
  eexists. split; [exact Hret|exact Hsl].
Defined.

Lemma example_lookup q o : lookup_of (example file5) q = Some o -> o = file5 \/ o = empty_of.
Proof.
  destruct q as [i|a]; [|done]. cbn -[replicate]. intros Ho.
  destruct (decide (i = 5%nat)) as [->|Hne].
  - rewrite list_lookup_insert_eq in Ho by (rewrite length_replicate; lia). left. by injection Ho as <-.
  - rewrite list_lookup_insert_ne in Ho by done. apply lookup_replicate in Ho as [-> _]. by right.
Qed.

Lemma fork_shares_files_witness :
  wp (proc_file_table_copy 1 2) (fun _ s1 => slot s1 2 3 = Some (OfSys 5) /\
    exists s2, sys_close 3 (set_cur 2 s1) = Ret (0, None) s2 /\
      wlp close_all_files (fun r _ => r = -1) (set_cur 1 s2)) (example file5).
Proof.
  pose proof (fork_shares_files (example file5) 2 3 (OfSys 5) file5 77 1
    (<[3%nat := Some (OfSys 5)]> (replicate 128 None)) (replicate 128 None)
    ltac:(done) eq_refl eq_refl ltac:(by rewrite length_insert, length_replicate) ltac:(by rewrite length_replicate))
    as Hf.
  assert (H1 : forall q, Some q ∈ <[3%nat := Some (OfSys 5)]> (replicate 128 None) ->
            exists o, lookup_of (example file5) q = Some o).
  { intros q Hq. assert (q = OfSys 5) as ->; [|by eexists].
    apply list_elem_of_lookup in Hq as [i Hi]. destruct (decide (i = 3%nat)) as [->|Hne].
    - rewrite list_lookup_insert_eq in Hi by (rewrite length_replicate; lia). by injection Hi as <-.
    - rewrite list_lookup_insert_ne in Hi by done. by apply lookup_replicate in Hi as [? _]. }
  assert (H2 : forall q o, lookup_of (example file5) q = Some o -> 0 <= ref_count o /\ ref_count o + 128 < 2 ^ 32).
  { intros q o [-> | ->]%example_lookup; cbn; lia. }
  specialize (Hf H1 H2 (example_open file5 eq_refl) ltac:(lia) eq_refl eq_refl ltac:(cbn; lia)).
  eapply wp_mono; [|exact Hf]. cbv beta. intros _ s1 (Hsl & _ & s2 & Hc & _ & _ & Hex).
  split; [rewrite Hsl; reflexivity|]. exists s2. split; [exact Hc|exact Hex].
Defined.

Lemma example_locked o : is_Some (file_lock o) -> sys_locked (example o).
Proof.
  intros Hl pid fd i Hs. destruct (slot_Some _ _ _ _ Hs) as (t & Ht & _ & Hi).
  assert (i = 5%nat) as ->; [|exists o; split; [done|exact Hl]].
  destruct (decide (pid = 1)) as [->|]; [|destruct (decide (pid = 2)) as [->|]].
  - change (Some (<[3%nat := Some (OfSys 5)]> (replicate 128 None)) = Some t) in Ht.
    apply (inj Some) in Ht as <-. destruct (decide (Z.to_nat fd = 3%nat)) as [E|Hne].
    + rewrite E in Hi. by injection Hi as <-.
    + rewrite list_lookup_insert_ne in Hi by done. by apply lookup_replicate in Hi as [? _].
  - change (Some (replicate 128 (None (A := ofptr))) = Some t) in Ht.
    apply (inj Some) in Ht as <-. by apply lookup_replicate in Hi as [? _].
  - unfold example in Ht. cbn [ftables] in Ht. by rewrite lookup_insert_ne, lookup_singleton_ne in Ht by done.
Qed.

(** 1279 entries are free; at most that many of any sequence of [open]s succeed. *)
Lemma open_files_exhausted_witness :
  free_slots (example file5) = 1279%nat /\
  wlp (history (replicate 2000 (Open 8192 0 0))) (fun opens _ => (opens <= 1279)%nat) (example file5).
Proof.
  assert (Hf : free_slots (example file5) = 1279%nat) by (vm_compute; reflexivity).
  split; [exact Hf|].
  destruct (open_files_exhausted (example file5) (example_locked file5 ltac:(by eexists))) as [Hh _].
  eapply wlp_mono; [|exact (Hh (replicate 2000 (Open 8192 0 0)))].
  cbv beta. intros n s' [Hn _]. lia.
Defined.

Lemma dup2_correct_witness :
  exists s', sys_dup2 3 4 (example file5) = Ret (0, Some 0) s' /\
    lookup_of s' (OfHeap 4096) = Some (Openfile (Some 1) 0 0 O_RDWR (Some 77) 2).
Proof.
  destruct (dup2_correct (example file5) 3 4 _ 4096 (Small (replicate 100 65) 4128 0)
              ltac:(done) ltac:(done) eq_refl ltac:(by rewrite length_insert, length_replicate)
              eq_refl eq_refl eq_refl) as [Hd _].
  destruct (Hd _ _ (example_open file5 eq_refl) ltac:(cbn; lia)) as (Hret & _ & _ & Hl & _).
  eexists. split; [exact Hret|exact Hl].
Defined.
End Files_witnesses.
