(* ===== verification/Proc.v ===== *)
(** * Processes: [kern/proc/proc.c], [fork.c], [exit.c], [waitpid.c], [getpid.c]

    The process table, the process structures and the threads' processes are one
    state; a pointer to a process is its address, so a structure that was freed is
    known by its absence.  Vnodes, address spaces, the allocator, the threads and the
    descriptors are the interface [ProcEnv]. *)
From S2P Require Import Prelude Synch.
Import Synch.

(** What this component relies on. *)
Class ProcEnv (W : Type) := {
  kmalloc : K W (option Z);
  (** What reading [p_pid] of a freed structure gives. *)
  freed_pid : Z;
  VOP_INCREF : Z -> K W ();
  VOP_DECREF : Z -> K W ();
  as_deactivate : K W ();
  as_destroy : Z -> K W ();
  (** Error code, and what the pointer to the new address space holds. *)
  as_copy : option Z -> K W (Z * option Z);
  (** Whether the array of children could grow to hold one more. *)
  array_room : Z -> K W bool;
  (** Error code of [thread_fork], up to attaching the thread to its process. *)
  thread_fork : Z -> K W Z;
  (** [copyout] of an [int]. *)
  copyout : Z -> Z -> K W Z;
  close_all_files : K W Z }.

Module Proc.
Definition MAX_PROC : Z := 100.
Definition PID_MIN : Z := 2.
Definition PID_MAX : Z := 32767.
Definition WNOHANG : Z := 1.
Definition INVALID_PTR : Z := 0x40000000.
Definition KERNEL_PTR : Z := 0x80000000.
Definition MKWAIT_EXIT (x : Z) : Z := Z.lor (Z.shiftl x 2) 0.
Definition WEXITSTATUS (x : Z) : Z := Z.shiftr x 2.

Record proc := Process {
  p_numthreads : Z; p_addrspace : option Z; p_cwd : option Z; p_status : Z; p_pid : Z;
  p_exited : bool; p_sem : option semaphore; p_parent : option Z; p_children : option (list Z) }.

(** [table] and [last_i] are the fields of [processTable]; [t_proc] gives the process
    of each thread, [me] is the current thread. *)
Record procs (W : Type) := Procs {
  table : list (option Z); last_i : Z; heap : gmap Z proc; kproc : option Z;
  exec_lock : bool; t_proc : gmap Z (option Z); me : Z; world : W }.
Arguments Procs {W} _ _ _ _ _ _ _ _.
Arguments table {W} _.
Arguments last_i {W} _.
Arguments heap {W} _.
Arguments kproc {W} _.
Arguments exec_lock {W} _.
Arguments t_proc {W} _.
Arguments me {W} _.
Arguments world {W} _.

Section ops.
Context {W : Type} `{ProcEnv W}.

Definition set_table (x : list (option Z)) (l : Z) (s : procs W) : procs W :=
  Procs x l (heap s) (kproc s) (exec_lock s) (t_proc s) (me s) (world s).
Definition set_heap (x : gmap Z proc) (s : procs W) : procs W :=
  Procs (table s) (last_i s) x (kproc s) (exec_lock s) (t_proc s) (me s) (world s).
Definition set_t_proc (x : gmap Z (option Z)) (s : procs W) : procs W :=
  Procs (table s) (last_i s) (heap s) (kproc s) (exec_lock s) x (me s) (world s).
Definition world_lens : lens (procs W) W :=
  Lens world (fun w s => Procs (table s) (last_i s) (heap s) (kproc s) (exec_lock s) (t_proc s) (me s) w).

Definition read_proc (p : Z) : K (procs W) proc :=
  s ← get; deref (heap s !! p) "struct proc".
Definition write_proc (p : Z) (f : proc -> proc) : K (procs W) () :=
  x ← read_proc p; modify (fun s => set_heap (<[p := f x]> (heap s)) s).

Definition set_threads (n : Z) (x : proc) : proc :=
  Process n (p_addrspace x) (p_cwd x) (p_status x) (p_pid x) (p_exited x) (p_sem x) (p_parent x) (p_children x).
Definition set_as (a : option Z) (x : proc) : proc :=
  Process (p_numthreads x) a (p_cwd x) (p_status x) (p_pid x) (p_exited x) (p_sem x) (p_parent x) (p_children x).
Definition set_cwd (v : option Z) (x : proc) : proc :=
  Process (p_numthreads x) (p_addrspace x) v (p_status x) (p_pid x) (p_exited x) (p_sem x) (p_parent x) (p_children x).
Definition set_status (n : Z) (x : proc) : proc :=
  Process (p_numthreads x) (p_addrspace x) (p_cwd x) n (p_pid x) (p_exited x) (p_sem x) (p_parent x) (p_children x).
Definition set_pid (n : Z) (x : proc) : proc :=
  Process (p_numthreads x) (p_addrspace x) (p_cwd x) (p_status x) n (p_exited x) (p_sem x) (p_parent x) (p_children x).
Definition set_exited (b : bool) (x : proc) : proc :=
  Process (p_numthreads x) (p_addrspace x) (p_cwd x) (p_status x) (p_pid x) b (p_sem x) (p_parent x) (p_children x).
Definition set_sem (m : option semaphore) (x : proc) : proc :=
  Process (p_numthreads x) (p_addrspace x) (p_cwd x) (p_status x) (p_pid x) (p_exited x) m (p_parent x) (p_children x).
Definition set_parent (p : option Z) (x : proc) : proc :=
  Process (p_numthreads x) (p_addrspace x) (p_cwd x) (p_status x) (p_pid x) (p_exited x) (p_sem x) p (p_children x).
Definition set_children (l : option (list Z)) (x : proc) : proc :=
  Process (p_numthreads x) (p_addrspace x) (p_cwd x) (p_status x) (p_pid x) (p_exited x) (p_sem x) (p_parent x) l.

(** [curproc]: the process of the current thread. *)
Definition curproc : K (procs W) (option Z) :=
  s ← get; deref (t_proc s !! me s) "curthread".
Definition the_curproc : K (procs W) Z :=
  p ← curproc; deref p "curproc".

(** An operation on the semaphore of a process. *)
Definition on_sem {A} (p : Z) (m : K semaphore A) : K (procs W) A :=
  x ← read_proc p;
  match p_sem x with
  | None => panic "sem != NULL"
  | Some sm =>
      match m sm with
      | Ret a sm' => write_proc p (set_sem (Some sm'));; mret a
      | Panic w => panic w
      | Fault w => fault w
      | Block => block
      end
  end.

(** ** Process identifiers *)

(** Result: the process, or NULL and the error. *)
Definition proc_search_pid (pid : Z) : K (procs W) (Z + Z) :=
  if (pid <? 0) || (MAX_PROC <? pid) then mret (inl EBADF) else
  s ← get;
  p ← deref (table s !! Z.to_nat pid) "processTable.proc[pid]";
  match p with
  | None => if 0 <? pid then mret (inl ESRCH) else fault "p->p_pid"
  | Some p =>
      x ← read_proc p;
      if negb (p_pid x =? pid) then mret (inl (-1)) else mret (inr p)
  end.

(** The circular search from [i]: [Some None] when it is back at [last]; None when the
    fuel is used up. *)
Fixpoint free_index (fuel : nat) (t : list (option Z)) (last i : Z) : option (option Z) :=
  match fuel with
  | O => None
  | S fuel =>
      if i =? last then Some None else
      match t !! Z.to_nat i with
      | Some None => Some (Some i)
      | _ => free_index fuel t last (if MAX_PROC <? i + 1 then 1 else i + 1)
      end
  end.

Definition proc_init_waitpid (p : Z) : K (procs W) () :=
  s ← get;
  let i := last_i s + 1 in
  write_proc p (set_pid 0);;
  let i := if MAX_PROC <? i then 1 else i in
  match free_index (Z.to_nat MAX_PROC + 1) (table s) (last_i s) i with
  | None => block
  | Some None => panic "too many processes. proc table is full"
  | Some (Some i) =>
      modify (fun s => set_table (<[Z.to_nat i := Some p]> (table s)) i s);;
      write_proc p (set_pid i);;
      write_proc p (set_status 0);;
      m1 ← zoom world_lens kmalloc;
      m2 ← match m1 with None => mret None | Some _ => zoom world_lens kmalloc end;
      m3 ← match m2 with None => mret None | Some _ => zoom world_lens kmalloc end;
      write_proc p (set_sem (sem_create (bool_decide (is_Some m1)) (bool_decide (is_Some m2))
                               (bool_decide (is_Some m3)) 0))
  end.

Definition unit_lens : lens (procs W) () := Lens (fun _ => tt) (fun _ s => s).

Definition proc_end_waitpid (p : Z) : K (procs W) () :=
  x ← read_proc p;
  KASSERT ((0 <? p_pid x) && (p_pid x <=? MAX_PROC)) "i > 0 && i <= MAX_PROC";;
  modify (fun s => set_table (<[Z.to_nat (p_pid x) := None]> (table s)) (last_i s) s);;
  match p_sem x with
  | None => panic "sem != NULL"
  | Some sm => zoom unit_lens (sem_destroy sm)
  end.

(** ** Creating and destroying processes *)

Definition proc_create : K (procs W) (option Z) :=
  m ← zoom world_lens kmalloc;
  match m with
  | None => mret None
  | Some p =>
      name ← zoom world_lens kmalloc;
      match name with
      | None => mret None
      | Some _ =>
          modify (fun s => set_heap (<[p := Process 0 None None 0 0 false None None None]> (heap s)) s);;
          proc_init_waitpid p;;
          write_proc p (set_exited false);;
          write_proc p (set_parent None);;
          arr ← zoom world_lens kmalloc;
          write_proc p (set_children ((fun _ => []) <$> arr));;
          mret (Some p)
      end
  end.

(** [proc_setas]: the old address space. *)
Definition proc_setas (newas : option Z) : K (procs W) (option Z) :=
  c ← curproc;
  KASSERT (bool_decide (is_Some c)) "proc != NULL";;
  p ← deref c "curproc";
  x ← read_proc p;
  write_proc p (set_as newas);;
  mret (p_addrspace x).

Definition proc_getas : K (procs W) (option Z) :=
  c ← curproc;
  match c with
  | None => mret None
  | Some p => x ← read_proc p; mret (p_addrspace x)
  end.

Definition proc_destroy (p : Z) : K (procs W) () :=
  s ← get;
  KASSERT (bool_decide (kproc s <> Some p)) "proc != kproc";;
  x ← read_proc p;
  match p_cwd x with
  | Some v => zoom world_lens (VOP_DECREF v);; write_proc p (set_cwd None)
  | None => mret tt
  end;;
  match p_addrspace x with
  | Some a =>
      c ← curproc;
      old ← (if bool_decide (c = Some p) then
               old ← proc_setas None; zoom world_lens as_deactivate;; mret old
             else write_proc p (set_as None);; mret (Some a));
      a ← deref old "as";
      zoom world_lens (as_destroy a)
  | None => mret tt
  end;;
  proc_end_waitpid p;;
  x ← read_proc p;
  KASSERT (p_numthreads x =? 0) "proc->p_numthreads == 0";;
  _ ← deref (p_children x) "proc->p_children->num";
  modify (fun s => set_heap (delete p (heap s)) s).

Definition proc_bootstrap : K (procs W) () :=
  p ← proc_create;
  match p with
  | None => panic "proc_create for kproc failed"
  | Some p =>
      modify (fun s => Procs (table s) (last_i s) (heap s) (Some p) (exec_lock s) (t_proc s) (me s) (world s));;
      m1 ← zoom world_lens kmalloc;
      m2 ← match m1 with None => mret None | Some _ => zoom world_lens kmalloc end;
      m3 ← match m2 with None => mret None | Some _ => zoom world_lens kmalloc end;
      match lock_create (bool_decide (is_Some m1)) (bool_decide (is_Some m2)) (bool_decide (is_Some m3)) with
      | None => panic "Could not create exec_lock."
      | Some _ => modify (fun s => Procs (table s) (last_i s) (heap s) (kproc s) true (t_proc s) (me s) (world s))
      end
  end.

Definition proc_create_runprogram : K (procs W) (option Z) :=
  m ← proc_create;
  match m with
  | None => mret None
  | Some p =>
      write_proc p (set_as None);;
      c ← the_curproc;
      x ← read_proc c;
      match p_cwd x with
      | Some v => zoom world_lens (VOP_INCREF v);; write_proc p (set_cwd (Some v))
      | None => mret tt
      end;;
      mret (Some p)
  end.

Definition proc_addthread (p t : Z) : K (procs W) Z :=
  s ← get;
  tp ← deref (t_proc s !! t) "t->t_proc";
  KASSERT (bool_decide (tp = None)) "t->t_proc == NULL";;
  write_proc p (fun x => set_threads (u32 (p_numthreads x + 1)) x);;
  modify (fun s => set_t_proc (<[t := Some p]> (t_proc s)) s);;
  mret 0.

Definition proc_remthread (t : Z) : K (procs W) () :=
  s ← get;
  tp ← deref (t_proc s !! t) "t->t_proc";
  KASSERT (bool_decide (is_Some tp)) "proc != NULL";;
  p ← deref tp "proc";
  x ← read_proc p;
  KASSERT (0 <? p_numthreads x) "proc->p_numthreads > 0";;
  write_proc p (set_threads (p_numthreads x - 1));;
  modify (fun s => set_t_proc (<[t := None]> (t_proc s)) s).

(** ** [wait], [exit], [getpid], [fork] *)

Definition proc_wait (p : Z) : K (procs W) Z :=
  s ← get;
  KASSERT (bool_decide (kproc s <> Some p)) "proc != kproc";;
  on_sem p (P (me s) false);;
  x ← read_proc p;
  KASSERT (p_exited x) "proc->p_exited";;
  let return_status := MKWAIT_EXIT (p_status x) in
  proc_destroy p;;
  mret return_status.

(** A system call's value and error ([*err]), if set.  [p->p_pid] is read after the
    structure was freed. *)
Definition sys_waitpid (pid statusp options : Z) : K (procs W) (Z * option Z) :=
  if negb (Z.land statusp 3 =? 0) then mret (-1, Some EFAULT) else
  if statusp =? INVALID_PTR then mret (-1, Some EFAULT) else
  if KERNEL_PTR <=? statusp then mret (-1, Some EFAULT) else
  if negb (options =? 0) && negb (options =? WNOHANG) then mret (-1, Some EINVAL) else
  if pid <=? 0 then mret (-1, Some ESRCH) else
  r ← proc_search_pid pid;
  match r with
  | inl _ => mret (-1, Some ESRCH)
  | inr p =>
      if (PID_MAX <? pid) || (pid <? PID_MIN) then mret (-1, Some EINVAL) else
      c ← the_curproc;
      if p =? c then mret (-1, Some EPERM) else
      xc ← read_proc c;
      if bool_decide (p_parent xc = Some p) then mret (-1, Some EPERM) else
      x ← read_proc p;
      if bool_decide (p_parent x <> Some c) then mret (-1, Some ECHILD) else
      children ← deref (p_children xc) "curproc->p_children->num";
      if bool_decide (children = []) then mret (-1, Some ECHILD) else
      if bool_decide (p_parent x = p_parent xc) then mret (-1, Some EPERM) else
      if (options =? WNOHANG) && negb (p_exited x) then mret (0, Some 0) else
      st ← proc_wait p;
      s ← get;
      let ret := match heap s !! p with Some x => p_pid x | None => freed_pid end in
      if negb (statusp =? 0) then
        result ← zoom world_lens (copyout st statusp);
        if negb (result =? 0) then mret (result, Some (-1)) else mret (ret, None)
      else mret (ret, None)
  end.

(** [sys__exit], up to [thread_exit], which does not return. *)
Definition sys__exit (status : Z) : K (procs W) () :=
  p ← the_curproc;
  err ← zoom world_lens close_all_files;
  if negb (err =? 0) then panic "Problem closing open file of curproc." else
  write_proc p (set_status (Z.land status 0xff));;
  s ← get;
  proc_remthread (me s);;
  write_proc p (set_exited true);;
  _ ← on_sem p V;
  mret tt.

Definition sys_getpid : K (procs W) Z :=
  c ← curproc;
  KASSERT (bool_decide (is_Some c)) "curproc != NULL";;
  p ← deref c "curproc";
  x ← read_proc p;
  mret (p_pid x).

(** The error of [array_add] is ignored. *)
Definition proc_add_child (parent child : Z) : K (procs W) () :=
  x ← read_proc parent;
  l ← deref (p_children x) "parent->p_children";
  room ← zoom world_lens (array_room (Z.of_nat (length l)));
  if room : bool then write_proc parent (set_children (Some (l ++ [child]))) else mret tt.

(** Result: the return value and [*retval].  [newthread] is the thread that
    [thread_fork] creates. *)
Definition sys_fork (newthread : Z) : K (procs W) (Z * Z) :=
  parent ← the_curproc;
  x ← read_proc parent;
  if MAX_PROC <? p_pid x + 1 then mret (-1, ENPROC) else
  m ← proc_create_runprogram;
  match m with
  | None => mret (-1, ENOMEM)
  | Some child =>
      xc ← read_proc child;
      if (p_pid xc <? PID_MIN) || (PID_MAX <? p_pid xc) then proc_destroy child;; mret (-1, EINVAL) else
      tf ← zoom world_lens kmalloc;
      match tf with
      | None => proc_destroy child;; mret (-1, ENOMEM)
      | Some _ =>
          x ← read_proc parent;
          '(result, a) ← zoom world_lens (as_copy (p_addrspace x));
          write_proc child (set_as a);;
          if negb (result =? 0) || bool_decide (a = None) then proc_destroy child;; mret (- result, -1) else
          write_proc child (set_parent (Some parent));;
          proc_add_child parent child;;
          result ← zoom world_lens (thread_fork child);
          if negb (result =? 0) then proc_destroy child;; mret (-1, ENOMEM) else
          modify (fun s => set_t_proc (<[newthread := None]> (t_proc s)) s);;
          _ ← proc_addthread child newthread;
          xc ← read_proc child;
          mret (0, p_pid xc)
      end
  end.

(** ** Specification *)

(** The indices in the order the search tries them. *)
Definition circ (last : Z) : list Z := seqZ (last + 1) (MAX_PROC - last) ++ seqZ 1 (last - 1).
Definition first_free (t : list (option Z)) (l : list Z) : option Z :=
  head (filter (fun i => t !! Z.to_nat i = Some None) l).

(** The table and the structures agree; at the start nothing is allocated. *)
Definition wf_table (s : procs W) : Prop :=
  length (table s) = 101%nat /\ 0 <= last_i s <= MAX_PROC /\ table s !! 0%nat = Some None /\
  (last_i s = 0 -> table s !! 1%nat = Some None) /\
  forall i p, table s !! i = Some (Some p) -> exists x, heap s !! p = Some x /\ p_pid x = Z.of_nat i.
End ops.
End Proc.

Section Proc_facts.
Import Proc.
Context {W : Type} `{ProcEnv W}.
Implicit Types s : procs W.

(** [kmalloc] returns, with a block or without, and keeps an invariant of the world. *)
Definition kmalloc_total (I : W -> Prop) : Prop :=
  forall w : W, I w -> exists r w', kmalloc w = Ret r w' /\ I w'.

Lemma first_free_cons t i l :
  first_free t (i :: l) = if decide (t !! Z.to_nat i = Some None) then Some i else first_free t l.
Proof. unfold first_free. rewrite filter_cons. by case_decide. Qed.

Lemma seqZ_step a n : 0 < n -> seqZ a n = a :: seqZ (a + 1) (n - 1).
Proof. intros. rewrite seqZ_cons by lia. do 2 f_equal; lia. Qed.

(** The search finds the first free index; the table has [MAX_PROC] usable entries, so
    [MAX_PROC + 1] turns are enough. *)
Lemma free_index_spec fuel t last i :
  1 <= last <= MAX_PROC -> 1 <= i <= MAX_PROC ->
  let l := if last <? i then seqZ i (MAX_PROC + 1 - i) ++ seqZ 1 (last - 1) else seqZ i (last - i) in
  (length l < fuel)%nat -> free_index fuel t last i = Some (first_free t l).
Proof.
  intros Hlast. revert i. induction fuel as [|fuel IH]; intros i Hi l Hf; [lia|].
  cbn [free_index]. unfold MAX_PROC in *. destruct (Z.eqb_spec i last) as [->|Hne].
  { unfold l. rewrite Z.ltb_irrefl, Z.sub_diag. done. }
  set (next := if 100 <? i + 1 then 1 else i + 1) in *.
  assert (Hl : l = i :: (if last <? next then seqZ next (100 + 1 - next) ++ seqZ 1 (last - 1)
                         else seqZ next (last - next))).
  { unfold l, next. destruct (Z.ltb_spec last i).
    - rewrite (seqZ_step i) by lia. cbn [app]. f_equal. destruct (Z.ltb_spec 100 (i + 1)).
      + replace (100 + 1 - i - 1) with 0 by lia. cbn [app].
        destruct (Z.ltb_spec last 1); [lia|]. done.
      + destruct (Z.ltb_spec last (i + 1)); [|lia]. do 2 f_equal. lia.
    - rewrite (seqZ_step i) by lia. f_equal. destruct (Z.ltb_spec 100 (i + 1)); [lia|].
      destruct (Z.ltb_spec last (i + 1)); [lia|]. f_equal. lia. }
  rewrite Hl in Hf |- *. cbn [length] in Hf. rewrite first_free_cons.
  assert (Hn : 1 <= next <= 100) by (unfold next; destruct (Z.ltb_spec 100 (i + 1)); lia).
  specialize (IH next Hn). cbv zeta in IH. specialize (IH ltac:(lia)).
  destruct (t !! Z.to_nat i) as [[q|]|]; [| |]; try (rewrite decide_False by done; exact IH).
  by rewrite decide_True.
Qed.

Lemma free_index_start t last :
  length t = 101%nat -> 0 <= last <= MAX_PROC -> (last = 0 -> t !! 1%nat = Some None) ->
  free_index (Z.to_nat MAX_PROC + 1) t last (if MAX_PROC <? last + 1 then 1 else last + 1) =
    Some (first_free t (circ last)).
Proof.
  intros Hlen Hl H0. destruct (decide (last = 0)) as [->|].
  { specialize (H0 eq_refl).
    assert (Hf : forall fuel, free_index (S fuel) t 0 1 = Some (Some 1)).
    { intros fuel. cbn [free_index]. change (Z.to_nat 1) with 1%nat. by rewrite H0. }
    unfold circ, MAX_PROC. rewrite seqZ_step by lia. cbn [app]. rewrite first_free_cons, decide_True by done.
    exact (Hf 100%nat). }
  unfold MAX_PROC in *. rewrite (free_index_spec _ t last); unfold MAX_PROC; try lia.
  - do 2 f_equal. unfold circ, MAX_PROC. destruct (Z.ltb_spec 100 (last + 1)).
    + assert (last = 100) as -> by lia. done.
    + destruct (Z.ltb_spec last (last + 1)); [|lia]. do 2 f_equal. lia.
  - destruct (Z.ltb_spec 100 (last + 1)); lia.
  - destruct (Z.ltb_spec 100 (last + 1)); [destruct (Z.ltb_spec last 1)|destruct (Z.ltb_spec last (last + 1))];
      rewrite ?length_app, ?length_seqZ; lia.
Qed.


Definition set_world (w : W) s : procs W :=
  Procs (table s) (last_i s) (heap s) (kproc s) (exec_lock s) (t_proc s) (me s) w.
Definition upd (p : Z) (x : proc) s : procs W := set_heap (<[p := x]> (heap s)) s.

Lemma proc_world_eq {A} (m : K W A) s a w :
  m (world s) = Ret a w -> zoom world_lens m s = Ret a (set_world w s).
Proof. intros E. exact (zoom_eq world_lens m s a w E). Qed.
Lemma read_proc_eq s p x : heap s !! p = Some x -> read_proc p s = Ret x s.
Proof. unfold read_proc. kunfold. by intros ->. Qed.
Lemma write_proc_eq s p x f : heap s !! p = Some x -> write_proc p f s = Ret tt (upd p (f x) s).
Proof. intros E. unfold write_proc. run (read_proc_eq _ _ _ E). done. Qed.
Lemma heap_upd s p x : heap (upd p x s) !! p = Some x.
Proof. cbn. by rewrite lookup_insert_eq. Qed.
Lemma proc_upd_upd s p x y : upd p x (upd p y s) = upd p x s.
Proof. unfold upd, set_heap. cbn. by rewrite insert_insert_eq. Qed.

Lemma first_free_Some t l i :
  first_free t l = Some i -> i ∈ l /\ t !! Z.to_nat i = Some None.
Proof.
  unfold first_free. intros Hh. apply head_Some_elem_of in Hh. apply list_elem_of_filter in Hh. naive_solver.
Qed.
Lemma first_free_None t l : first_free t l = None <-> forall i, i ∈ l -> t !! Z.to_nat i <> Some None.
Proof.
  unfold first_free. split.
  - intros Hh i Hi Hn. destruct (filter _ l) eqn:E; [|done].
    assert (i ∈ filter (fun i => t !! Z.to_nat i = Some None) l) by (by apply list_elem_of_filter).
    rewrite E in *. by eapply not_elem_of_nil.
  - intros Hno. destruct (filter _ l) as [|i l'] eqn:E; [done|].
    assert (Hi : i ∈ filter (fun i => t !! Z.to_nat i = Some None) l) by (rewrite E; by left).
    apply list_elem_of_filter in Hi as [Hn Hi]. by destruct (Hno i Hi).
Qed.
Lemma circ_range last i : 0 <= last <= MAX_PROC -> i ∈ circ last <-> 1 <= i <= MAX_PROC /\ i <> last.
Proof. intros Hl. unfold circ, MAX_PROC in *. rewrite elem_of_app, !elem_of_seqZ. lia. Qed.

(** The allocation of the semaphore. *)
Definition alloc_sem (p : Z) : K (procs W) () :=
  m1 ← zoom world_lens kmalloc;
  m2 ← match m1 with None => mret None | Some _ => zoom world_lens kmalloc end;
  m3 ← match m2 with None => mret None | Some _ => zoom world_lens kmalloc end;
  write_proc p (set_sem (sem_create (bool_decide (is_Some m1)) (bool_decide (is_Some m2))
                           (bool_decide (is_Some m3)) 0)).

(** [kmalloc] always returns a block. *)
Definition kmalloc_ok (I : W -> Prop) : Prop :=
  forall w : W, I w -> exists a w', kmalloc w = Ret (Some a) w' /\ I w'.

Lemma kmalloc_ok_total I : kmalloc_ok I -> kmalloc_total I.
Proof. intros Hk w Hw. destruct (Hk w Hw) as (a & w' & E & ?). eauto. Qed.

Lemma wp_world {A} (P : A -> W -> Prop) (m : K W A) (Q : A -> procs W -> Prop) s :
  (exists a w, m (world s) = Ret a w /\ P a w) ->
  (forall a w, m (world s) = Ret a w -> P a w -> Q a (set_world w s)) ->
  wp (zoom world_lens m) Q s.
Proof. intros (a & w & E & Hw) HQ. rewrite (wp_eq _ _ _ _ _ (proc_world_eq _ _ _ _ E)). by apply HQ. Qed.

(** The semaphore of a process, if it could be allocated. *)
Definition fresh_sem (I : W -> Prop) (sm : option semaphore) : Prop :=
  (sm = None \/ sm = Some (Semaphore 0 [])) /\ (kmalloc_ok I -> sm = Some (Semaphore 0 [])).

Lemma alloc_sem_spec I p x s :
  kmalloc_total I -> I (world s) -> heap s !! p = Some x ->
  wp (alloc_sem p) (fun _ s' => exists w sm, s' = set_world w (upd p (set_sem sm x) s) /\ I w /\ fresh_sem I sm) s.
Proof.
  intros Hk HI Hx.
  assert (Hend : forall w (m1 m2 m3 : option Z), I w -> (kmalloc_ok I -> is_Some m1 /\ is_Some m2 /\ is_Some m3) ->
            wp (write_proc p (set_sem (sem_create (bool_decide (is_Some m1)) (bool_decide (is_Some m2))
                                         (bool_decide (is_Some m3)) 0))) (fun _ s' =>
              exists w sm, s' = set_world w (upd p (set_sem sm x) s) /\ I w /\ fresh_sem I sm) (set_world w s)).
  { intros w m1 m2 m3 HIw Hok. rewrite (wp_eq _ _ _ _ _ (write_proc_eq (set_world w s) p x (set_sem _) Hx)).
    eexists w, _. split; [done|]. split; [done|]. split; [unfold sem_create; by destruct m1, m2, m3; cbn; auto|].
    intros (H1 & H2 & H3)%Hok. by rewrite !bool_decide_eq_true_2 by done. }
  assert (Hno : forall w w', I w -> kmalloc w = Ret None w' -> ~ kmalloc_ok I).
  { intros w w' Hw E Hok. destruct (Hok w Hw) as (a & w2 & E' & _). congruence. }
  unfold alloc_sem. rewrite wp_bind. eapply wp_world; [by apply Hk|]. cbv beta. intros [a|] w1 E1 I1; rewrite wp_bind.
  2: { rewrite wp_ret, wp_bind, wp_ret. apply Hend; [done|]. intros Hok. by apply Hno in E1. }
  eapply wp_world; [by apply Hk|]. cbv beta. intros [b|] w2 E2 I2; rewrite wp_bind.
  2: { rewrite wp_ret. apply Hend; [done|]. intros Hok. by apply Hno in E2. }
  eapply wp_world; [by apply Hk|]. cbv beta.
  intros [c|] w3 E3 I3; apply Hend; [done|by eauto|done|]. intros Hok. by apply Hno in E3.
Qed.

Lemma search_found s i p x :
  1 <= i <= MAX_PROC -> table s !! Z.to_nat i = Some (Some p) -> heap s !! p = Some x -> p_pid x = i ->
  proc_search_pid i s = Ret (inr p) s.
Proof.
  intros Hi Ht Hx Hp. unfold proc_search_pid, MAX_PROC in *.
  destruct (Z.ltb_spec i 0), (Z.ltb_spec 100 i); try lia. cbn [orb].
  rewrite (bind_eq get _ _ s s) by done. rewrite Ht. cbn [deref]. rewrite bind_ret_l.
  run (read_proc_eq _ _ _ Hx). rewrite Hp, Z.eqb_refl. done.
Qed.

Lemma search_gone s i :
  1 <= i <= MAX_PROC -> table s !! Z.to_nat i = Some None -> proc_search_pid i s = Ret (inl ESRCH) s.
Proof.
  intros Hi Ht. unfold proc_search_pid, MAX_PROC in *.
  destruct (Z.ltb_spec i 0), (Z.ltb_spec 100 i); try lia. cbn [orb].
  rewrite (bind_eq get _ _ s s) by done. rewrite Ht. cbn [deref]. rewrite bind_ret_l.
  destruct (Z.ltb_spec 0 i); [done|lia].
Qed.

Lemma end_waitpid_eq s p x n :
  heap s !! p = Some x -> p_sem x = Some (Semaphore n []) -> 1 <= p_pid x <= MAX_PROC ->
  proc_end_waitpid p s = Ret tt (set_table (<[Z.to_nat (p_pid x) := None]> (table s)) (last_i s) s).
Proof.
  intros Hx Hs Hpid. unfold proc_end_waitpid, MAX_PROC in *. run (read_proc_eq _ _ _ Hx).
  destruct (Z.ltb_spec 0 (p_pid x)), (Z.leb_spec (p_pid x) 100); try lia. rewrite Hs. done.
Qed.

(** [proc_init_waitpid] when the search finds index [i]. *)
Lemma init_waitpid_spec I s p x i :
  kmalloc_total I -> I (world s) -> wf_table s -> heap s !! p = Some x ->
  first_free (table s) (circ (last_i s)) = Some i ->
  wp (proc_init_waitpid p) (fun _ s' => exists w sm, fresh_sem I sm /\ I w /\
    s' = set_world w (upd p (set_sem sm (set_status 0 (set_pid i (set_pid 0 x))))
           (set_table (<[Z.to_nat i := Some p]> (table s)) i s))) s.
Proof.
  intros Hk HI (Hlen & Hlast & Hz & H0 & Hwf) Hx Ef.
  unfold proc_init_waitpid. rewrite wp_bind, wp_get. cbv zeta.
  rewrite wp_bind, (wp_eq _ _ _ _ _ (write_proc_eq _ _ _ (set_pid 0) Hx)).
  rewrite free_index_start, Ef by done.
  set (s1 := set_table (<[Z.to_nat i := Some p]> (table s)) i s).
  rewrite wp_bind, wp_modify, wp_bind.
  change (set_table _ i (upd p (set_pid 0 x) s)) with (upd p (set_pid 0 x) s1).
  rewrite (wp_eq _ _ _ _ _ (write_proc_eq _ _ _ (set_pid i) (heap_upd _ _ _))), wp_bind.
  rewrite (wp_eq _ _ _ _ _ (write_proc_eq _ _ _ (set_status 0) (heap_upd _ _ _))).
  rewrite !proc_upd_upd. set (x1 := set_status 0 _).
  eapply wp_mono; [|apply (alloc_sem_spec I p x1 (upd p x1 s1)); [done|done|apply heap_upd]]. cbv beta.
  intros _ s' (w & sm & -> & HIw & Hsm). rewrite proc_upd_upd. by exists w, sm.
Qed.

(** The table with a new process, whose structure has the index as its identifier. *)
Lemma wf_table_insert s p i x w :
  wf_table s -> 1 <= i <= MAX_PROC -> (forall j, table s !! j <> Some (Some p)) -> p_pid x = i ->
  wf_table (set_world w (upd p x (set_table (<[Z.to_nat i := Some p]> (table s)) i s))).
Proof.
  intros (Hlen & Hlast & Hz & H0 & Hwf) Hi Hp Hx. unfold MAX_PROC in *.
  unfold wf_table. cbn [table last_i heap set_world upd set_heap set_table]. unfold MAX_PROC. split_and!.
  - by rewrite length_insert.
  - lia.
  - lia.
  - rewrite list_lookup_insert_ne; [done|]. lia.
  - lia.
  - intros j q Hj. destruct (decide (j = Z.to_nat i)) as [->|Hji].
    + rewrite list_lookup_insert_eq in Hj by lia. injection Hj as <-.
      rewrite lookup_insert_eq. eexists. split; [done|]. lia.
    + rewrite list_lookup_insert_ne in Hj by done.
      rewrite lookup_insert_ne; [by apply Hwf|]. intros <-. by apply (Hp j).
Qed.

(** C4. Process identifiers.  A new process gets the first free index of the table in
    circular order after the last one given out, and is found under it from then on;
    the table stays consistent, so no two processes share an identifier.  Only when
    every index other than the last one is taken does the kernel panic (it never
    tries the last one, even if it is free).  Ending the process frees its index. *)
Theorem pid_alloc_correct s p x :
  kmalloc_total (fun _ => True) -> wf_table s -> heap s !! p = Some x -> (forall i, table s !! i <> Some (Some p)) ->
  match first_free (table s) (circ (last_i s)) with
  | Some i =>
      wp (proc_init_waitpid p) (fun _ s' =>
        1 <= i <= MAX_PROC /\ table s' = <[Z.to_nat i := Some p]> (table s) /\ last_i s' = i /\
        wf_table s' /\ proc_search_pid i s' = Ret (inr p) s' /\
        (exists x', heap s' !! p = Some x' /\ p_pid x' = i /\ p_status x' = 0 /\
           (p_sem x' = None \/ p_sem x' = Some (Semaphore 0 [])) /\
           (p_sem x' <> None -> exists s'', proc_end_waitpid p s' = Ret tt s'' /\
              proc_search_pid i s'' = Ret (inl ESRCH) s'')) /\
        (forall q, q <> p -> heap s' !! q = heap s !! q)) s
  | None =>
      proc_init_waitpid p s = Panic "too many processes. proc table is full" /\
      forall i, 1 <= i <= MAX_PROC -> i <> last_i s -> exists q, table s !! Z.to_nat i = Some (Some q)
  end.
Proof.
  intros Hk Hwft Hx Hp. pose proof Hwft as (Hlen & Hlast & Hz & H0 & Hwf).
  destruct (first_free (table s) (circ (last_i s))) as [i|] eqn:Ef.
  - eapply wp_mono; [|by apply (init_waitpid_spec (fun _ => True) s p x i)]. cbv beta.
    apply first_free_Some in Ef as [Hi Hfree]. apply circ_range in Hi as [Hi Hne]; [|done].
    intros _ s' (w & sm & [Hsm _] & _ & ->). set (x1 := set_status 0 _). set (s1 := set_table _ _ s).
    assert (Hx' : heap (set_world w (upd p (set_sem sm x1) s1)) !! p = Some (set_sem sm x1)) by apply heap_upd.
    assert (Htab : table s1 !! Z.to_nat i = Some (Some p)).
    { cbn. apply list_lookup_insert_eq. unfold MAX_PROC in *. lia. }
    split_and!; try done; try lia.
    + by apply (wf_table_insert s p i).
    + by apply (search_found _ i p (set_sem sm x1)).
    + eexists. split; [done|]. split_and!; try done.
      cbn. intros Hsome. destruct Hsm as [-> | ->]; [done|].
      eexists. split; [by apply (end_waitpid_eq _ p (set_sem (Some (Semaphore 0 [])) x1) 0)|].
      apply search_gone; [done|]. cbn. apply list_lookup_insert_eq. rewrite length_insert. unfold MAX_PROC in *. lia.
    + intros q Hq. cbn. by rewrite lookup_insert_ne.
  - split.
    { unfold proc_init_waitpid. rewrite (bind_eq get _ _ s s) by done. cbv zeta.
      run (write_proc_eq _ _ _ (set_pid 0) Hx). by rewrite free_index_start, Ef. }
    intros i Hi Hne.
    destruct (lookup_lt_is_Some_2 (table s) (Z.to_nat i)) as [[q|] Hq]; [unfold MAX_PROC in *; lia|by exists q|].
    exfalso. apply (proj1 (first_free_None _ _) Ef i); [|done]. by apply circ_range.
Qed.

(** ** Exit and wait *)

(** The worlds after the references and the address space are given up. *)
Definition gives_up (x : proc) (w w' : W) : Prop :=
  exists w1, (match p_cwd x with Some v => VOP_DECREF v w = Ret tt w1 | None => w1 = w end) /\
    (match p_addrspace x with Some a => as_destroy a w1 = Ret tt w' | None => w' = w1 end).

Definition destroyed (p : Z) (x : proc) (w : W) s : procs W :=
  set_world w (set_heap (delete p (heap s))
    (set_table (<[Z.to_nat (p_pid x) := None]> (table s)) (last_i s) s)).

(** [proc_destroy] of another process, up to its end. *)
Lemma proc_destroy_start s p x c w :
  kproc s <> Some p -> heap s !! p = Some x -> t_proc s !! me s = Some c -> c <> Some p ->
  gives_up x (world s) w ->
  exists y, p_numthreads y = p_numthreads x /\ p_children y = p_children x /\ p_sem y = p_sem x /\ p_pid y = p_pid x /\
    proc_destroy p s =
      (proc_end_waitpid p;; x ← read_proc p; KASSERT (p_numthreads x =? 0) "proc->p_numthreads == 0";;
       _ ← deref (p_children x) "proc->p_children->num"; modify (fun s => set_heap (delete p (heap s)) s))
        (set_world w (upd p y s)).
Proof.
  intros Hk Hx Hc Hcp (w1 & Hw1 & Hw2). unfold proc_destroy.
  rewrite (bind_eq get _ _ s s) by done. rewrite bool_decide_eq_true_2 by done.
  cbn [KASSERT]. rewrite bind_ret_l. run (read_proc_eq _ _ _ Hx).
  set (x1 := set_cwd None x).
  assert (H1 : exists y, (y = x \/ y = x1) /\
    (match p_cwd x with Some v => zoom world_lens (VOP_DECREF v);; write_proc p (set_cwd None) | None => mret tt end) s =
    Ret tt (set_world w1 (upd p y s))).
  { destruct (p_cwd x) as [v|].
    - exists x1. split; [by right|]. run (proc_world_eq _ _ _ _ Hw1).
      by rewrite (write_proc_eq (set_world w1 s) p x (set_cwd None)).
    - exists x. split; [by left|]. subst w1. unfold upd, set_heap. rewrite insert_id by done. by destruct s. }
  destruct H1 as (y & Hy & H1). run H1. set (s1 := set_world w1 (upd p y s)).
  assert (Hy1 : heap s1 !! p = Some y) by apply heap_upd.
  assert (Hcur : curproc s1 = Ret c s1) by (unfold curproc; kunfold; cbn; by rewrite Hc).
  assert (H2 : exists y', p_numthreads y' = p_numthreads x /\ p_children y' = p_children x /\ p_sem y' = p_sem x /\
    p_pid y' = p_pid x /\
    (match p_addrspace x with
     | Some a =>
        c ← curproc;
        old ← (if bool_decide (c = Some p) then
                 old ← proc_setas None; zoom world_lens as_deactivate;; mret old
               else write_proc p (set_as None);; mret (Some a));
        a ← deref old "as";
        zoom world_lens (as_destroy a)
     | None => mret tt end) s1 = Ret tt (set_world w (upd p y' s))).
  { destruct (p_addrspace x) as [a|].
    - exists (set_as None y). split_and!; try (destruct Hy as [-> | ->]; done).
      run Hcur. rewrite bool_decide_eq_false_2 by done.
      erewrite (bind_eq (write_proc p (set_as None);; mret (Some a))).
      2: { run (write_proc_eq _ _ _ (set_as None) Hy1). done. }
      cbn [deref]. rewrite bind_ret_l.
      set (s2 := upd p (set_as None y) s1). rewrite (proc_world_eq (as_destroy a) s2 tt w Hw2).
      unfold s2, s1. by rewrite <-(proc_upd_upd s p (set_as None y) y).
    - exists y. split_and!; try (destruct Hy as [-> | ->]; done). subst w. done. }
  destruct H2 as (y' & T1 & T2 & T3 & T4 & H2). exists y'. split_and!; try done. by run H2.
Qed.

Lemma proc_destroy_eq s p x c n l w :
  kproc s <> Some p -> heap s !! p = Some x -> t_proc s !! me s = Some c -> c <> Some p ->
  p_sem x = Some (Semaphore n []) -> 1 <= p_pid x <= MAX_PROC -> p_numthreads x = 0 ->
  p_children x = Some l -> gives_up x (world s) w ->
  proc_destroy p s = Ret tt (destroyed p x w s).
Proof.
  intros Hk Hx Hc Hcp Hsem Hpid Hth Hch Hg.
  destruct (proc_destroy_start s p x c w Hk Hx Hc Hcp Hg) as (y' & T1 & T2 & T3 & T4 & ->).
  rewrite Hth in T1. rewrite Hch in T2. set (s2 := set_world w (upd p y' s)).
  assert (Hy2 : heap s2 !! p = Some y') by apply heap_upd.
  run (end_waitpid_eq s2 p y' n Hy2); [|congruence|by rewrite T4].
  set (s3 := set_table _ _ s2). assert (Hy3 : heap s3 !! p = Some y') by apply heap_upd.
  run (read_proc_eq s3 p y' Hy3). rewrite T1, T2. cbn [KASSERT Z.eqb deref]. rewrite !bind_ret_l.
  unfold modify, destroyed, s3, s2. cbn. rewrite T4. unfold set_heap, set_table, set_world. cbn.
  by rewrite delete_insert_eq.
Qed.

(** A process whose semaphore could not be allocated cannot be destroyed, nor one whose
    array of children could not. *)
Lemma proc_destroy_unfinished s p x c w :
  kproc s <> Some p -> heap s !! p = Some x -> t_proc s !! me s = Some c -> c <> Some p ->
  1 <= p_pid x <= MAX_PROC -> p_numthreads x = 0 -> gives_up x (world s) w ->
  (p_sem x = None -> proc_destroy p s = Panic "sem != NULL") /\
  (forall n, p_sem x = Some (Semaphore n []) -> p_children x = None -> proc_destroy p s = Fault "proc->p_children->num").
Proof.
  intros Hk Hx Hc Hcp Hpid Hth Hg.
  destruct (proc_destroy_start s p x c w Hk Hx Hc Hcp Hg) as (y' & T1 & T2 & T3 & T4 & ->).
  set (s2 := set_world w (upd p y' s)). assert (Hy2 : heap s2 !! p = Some y') by apply heap_upd. split.
  - intros Hs. assert (E : proc_end_waitpid p s2 = Panic "sem != NULL").
    { unfold proc_end_waitpid, MAX_PROC in *. run (read_proc_eq s2 p y' Hy2).
      destruct (Z.ltb_spec 0 (p_pid y')), (Z.leb_spec (p_pid y') 100); try lia.
      cbn [andb KASSERT]. by rewrite bind_ret_l, T3, Hs. }
    unfold mbind at 1, K_bind. by rewrite E.
  - intros n Hs Hch. rewrite Hth in T1. rewrite Hch in T2.
    run (end_waitpid_eq s2 p y' n Hy2); [|congruence|by rewrite T4].
    set (s3 := set_table _ _ s2). assert (Hy3 : heap s3 !! p = Some y') by apply heap_upd.
    run (read_proc_eq s3 p y' Hy3). by rewrite T1, T2.
Qed.

(** A process whose one thread has not exited yet. *)
Definition running s (p : Z) (x : proc) : Prop :=
  heap s !! p = Some x /\ p_sem x = Some (Semaphore 0 []) /\ p_exited x = false /\ p_numthreads x = 1 /\
  1 <= p_pid x <= MAX_PROC /\ table s !! Z.to_nat (p_pid x) = Some (Some p) /\ is_Some (p_children x) /\
  kproc s <> Some p.

(** The structure of the process after its exit. *)
Definition zombie (status : Z) (x : proc) : proc :=
  Process 0 (p_addrspace x) (p_cwd x) (Z.land status 0xff) (p_pid x) true (Some (Semaphore 1 []))
    (p_parent x) (p_children x).

Lemma sys__exit_eq s p x status w :
  running s p x -> t_proc s !! me s = Some (Some p) -> close_all_files (world s) = Ret 0 w ->
  sys__exit status s = Ret tt (set_world w (set_t_proc (<[me s := None]> (t_proc s)) (upd p (zombie status x) s))).
Proof.
  intros (Hx & Hsem & Hex & Hth & Hpid & Htab & Hch & Hk) Hme Hcl.
  unfold sys__exit.
  assert (Hc : the_curproc s = Ret p s) by (unfold the_curproc, curproc; kunfold; by rewrite Hme).
  run Hc. run (proc_world_eq _ _ _ _ Hcl). cbn [negb Z.eqb].
  set (s1 := set_world w s). set (x1 := set_status (Z.land status 255) x).
  run (write_proc_eq s1 p x (set_status (Z.land status 255)) Hx).
  rewrite (bind_eq get _ _ (upd p x1 s1) (upd p x1 s1)) by done.
  assert (Hr : proc_remthread (me (upd p x1 s1)) (upd p x1 s1) =
            Ret tt (set_t_proc (<[me s := None]> (t_proc s)) (upd p (set_threads 0 x1) s1))).
  { unfold proc_remthread. rewrite (bind_eq get _ _ (upd p x1 s1) (upd p x1 s1)) by done.
    change (t_proc (upd p x1 s1) !! me (upd p x1 s1)) with (t_proc s !! me s). rewrite Hme. cbn [deref].
    rewrite bind_ret_l, bool_decide_eq_true_2 by (by eexists). cbn [KASSERT deref]. rewrite !bind_ret_l.
    run (read_proc_eq (upd p x1 s1) p x1 (heap_upd _ _ _)). cbn [p_numthreads x1 set_status]. rewrite Hth.
    cbn [KASSERT Z.ltb Z.compare]. rewrite bind_ret_l.
    run (write_proc_eq (upd p x1 s1) p x1 (set_threads (1 - 1)) (heap_upd _ _ _)). by rewrite proc_upd_upd. }
  run Hr. set (s2 := set_t_proc _ _). set (x2 := set_threads 0 x1) in *.
  assert (Hx2 : heap s2 !! p = Some x2) by apply heap_upd.
  run (write_proc_eq s2 p x2 (set_exited true) Hx2).
  set (s3 := upd p (set_exited true x2) s2).
  assert (Hx3 : heap s3 !! p = Some (set_exited true x2)) by apply heap_upd.
  assert (HV : on_sem p V s3 = Ret None (upd p (set_sem (Some (Semaphore 1 [])) (set_exited true x2)) s3)).
  { unfold on_sem. run (read_proc_eq _ _ _ Hx3). cbn [p_sem set_exited x2 set_threads x1 set_status]. rewrite Hsem.
    change (V (Semaphore 0 [])) with (Ret (S := semaphore) (None (A := Z)) (Semaphore 1 [])).
    cbv beta iota. by run (write_proc_eq s3 p _ (set_sem (Some (Semaphore 1 []))) Hx3). }
  run HV. unfold s3, s2. unfold mret, K_ret. f_equal. unfold upd, set_heap, set_t_proc, set_world. cbn.
  by rewrite !insert_insert_eq.
Qed.

Lemma proc_wait_eq s p x status w l c :
  kproc s <> Some p -> heap s !! p = Some (zombie status x) -> t_proc s !! me s = Some c -> c <> Some p ->
  1 <= p_pid x <= MAX_PROC -> p_children x = Some l -> gives_up x (world s) w ->
  proc_wait p s = Ret (MKWAIT_EXIT (Z.land status 0xff)) (destroyed p x w s).
Proof.
  intros Hk Hx Hc Hcp Hpid Hch Hg. unfold proc_wait. rewrite (bind_eq get _ _ s s) by done.
  rewrite bool_decide_eq_true_2 by done. cbn [KASSERT]. rewrite bind_ret_l.
  set (x1 := set_sem (Some (Semaphore 0 [])) (zombie status x)).
  assert (HP : on_sem p (P (me s) false) s = Ret tt (upd p x1 s)).
  { unfold on_sem. run (read_proc_eq _ _ _ Hx). cbn [p_sem zombie].
    change (P (me s) false (Semaphore 1 [])) with (Ret (S := semaphore) tt (Semaphore 0 [])).
    cbv beta iota. by run (write_proc_eq s p _ (set_sem (Some (Semaphore 0 []))) Hx). }
  run HP. run (read_proc_eq (upd p x1 s) p x1 (heap_upd _ _ _)). cbn [p_exited x1 set_sem zombie KASSERT].
  rewrite bind_ret_l. cbv zeta.
  run (proc_destroy_eq (upd p x1 s) p x1 c 0 l w); try done; [|apply heap_upd].
  unfold mret, K_ret, destroyed, upd, set_heap, set_table, set_world. cbn. by rewrite delete_insert_eq.
Qed.

Lemma proc_wait_blocks s p x : running s p x -> proc_wait p s = Block.
Proof.
  intros (Hx & Hsem & _ & _ & _ & _ & _ & Hk). unfold proc_wait. rewrite (bind_eq get _ _ s s) by done.
  rewrite bool_decide_eq_true_2 by done. cbn [KASSERT]. rewrite bind_ret_l.
  assert (Hb : on_sem p (P (me s) false) s = Block).
  { unfold on_sem. run (read_proc_eq _ _ _ Hx). rewrite Hsem. done. }
  unfold mbind, K_bind. by rewrite Hb.
Qed.

Definition set_me (t : Z) s : procs W :=
  Procs (table s) (last_i s) (heap s) (kproc s) (exec_lock s) (t_proc s) t (world s).

Lemma status_roundtrip status :
  0 <= WEXITSTATUS (MKWAIT_EXIT (Z.land status 0xff)) < 256 /\
  WEXITSTATUS (MKWAIT_EXIT (Z.land status 0xff)) = status mod 256.
Proof.
  unfold WEXITSTATUS, MKWAIT_EXIT. rewrite Z.lor_0_r. change 0xff with (Z.ones 8). rewrite Z.land_ones by lia.
  rewrite Z.shiftl_mul_pow2, Z.shiftr_div_pow2, Z.div_mul by lia. change (2 ^ 8) with 256.
  pose proof (Z.mod_pos_bound status 256). lia.
Qed.

(** C2. Exit and wait.  While a child runs, its parent's wait sleeps.  A child that
    cannot close its files panics.  Otherwise, once it has called [_exit], the wait
    returns: the status word carries exactly the low eight bits of the exit code, no
    assertion fails on the way, the child's directory and address space are given up,
    and its index and structure are free; every other process is untouched. *)
Theorem exit_wait_correct s p x t parent c status :
  running s p x -> t_proc s !! t = Some (Some p) ->
  parent <> t -> t_proc s !! parent = Some c -> c <> Some p ->
  proc_wait p (set_me parent s) = Block /\
  (forall e w, e <> 0 -> close_all_files (world s) = Ret e w ->
     sys__exit status (set_me t s) = Panic "Problem closing open file of curproc.") /\
  (forall w w', close_all_files (world s) = Ret 0 w -> gives_up x w w' ->
   exists s1, sys__exit status (set_me t s) = Ret tt s1 /\ t_proc s1 !! t = Some None /\
    (forall q, q <> p -> heap s1 !! q = heap s !! q) /\
    exists s2, proc_wait p (set_me parent s1) = Ret (MKWAIT_EXIT (Z.land status 0xff)) s2 /\
      WEXITSTATUS (MKWAIT_EXIT (Z.land status 0xff)) = status mod 256 /\
      heap s2 = delete p (heap s) /\ table s2 = <[Z.to_nat (p_pid x) := None]> (table s) /\ world s2 = w' /\
      proc_search_pid (p_pid x) s2 = Ret (inl ESRCH) s2).
Proof.
  intros Hrun Ht Hpt Hc Hcp. split; [by apply (proc_wait_blocks (set_me parent s) p x)|]. split.
  { intros e w He Hcl. unfold sys__exit.
    assert (Hcur : the_curproc (set_me t s) = Ret p (set_me t s))
      by (unfold the_curproc, curproc; kunfold; cbn; by rewrite Ht).
    run Hcur. run (proc_world_eq close_all_files (set_me t s) _ _ Hcl). by destruct (Z.eqb_spec e 0). }
  intros w w' Hcl Hg. rewrite (sys__exit_eq (set_me t s) p x status w); [|done..].
  eexists. split; [done|]. set (s1 := set_world w _).
  split; [cbn; by rewrite lookup_insert_eq|]. split; [intros q Hq; cbn; by rewrite lookup_insert_ne|].
  destruct Hrun as (Hx & Hsem & Hex & Hth & Hpid & Htab & [l Hch] & Hk).
  rewrite (proc_wait_eq (set_me parent s1) p x status w' l c); [|done| |cbn; by rewrite lookup_insert_ne|done..].
  2: { cbn. by rewrite lookup_insert_eq. }
  eexists. split; [done|]. split; [apply status_roundtrip|].
  split; [cbn; by rewrite delete_insert_eq|]. split; [done|]. split; [done|].
  apply search_gone; [done|]. cbn. apply list_lookup_insert_eq. by eapply lookup_lt_Some.
Qed.

(** ** [waitpid] *)

Definition bad_status (statusp : Z) : bool :=
  negb (Z.land statusp 3 =? 0) || (statusp =? INVALID_PTR) || (KERNEL_PTR <=? statusp).

(** The process with an identifier. *)
Definition find_pid s (pid : Z) : option Z :=
  if (0 <? pid) && (pid <=? MAX_PROC) then mjoin (table s !! Z.to_nat pid) else None.

Lemma proc_search_pid_eq s pid :
  wf_table s -> 0 < pid ->
  proc_search_pid pid s = match find_pid s pid with
                          | Some p => Ret (inr p) s
                          | None => Ret (inl (if MAX_PROC <? pid then EBADF else ESRCH)) s
                          end.
Proof.
  intros (Hlen & _ & _ & _ & Hwf) Hpid. unfold find_pid. destruct (Z.ltb_spec 0 pid); [|lia]. cbn [andb].
  destruct (Z.leb_spec pid MAX_PROC), (Z.ltb_spec MAX_PROC pid); try lia.
  - destruct (lookup_lt_is_Some_2 (table s) (Z.to_nat pid)) as [[p|] Hq]; [unfold MAX_PROC in *; lia| |];
      rewrite Hq; cbn.
    + destruct (Hwf _ _ Hq) as (x & Hx & Hp). apply (search_found s pid p x); [lia|done|done|lia].
    + apply search_gone; [lia|done].
  - unfold proc_search_pid. destruct (Z.ltb_spec MAX_PROC pid); [|lia]. by rewrite orb_true_r.
Qed.

Lemma waitpid_start s pid statusp options c :
  wf_table s -> t_proc s !! me s = Some (Some c) ->
  bad_status statusp = false -> options = 0 \/ options = WNOHANG ->
  sys_waitpid pid statusp options s =
  if pid <=? 0 then Ret (-1, Some ESRCH) s else
  match find_pid s pid with
  | None => Ret (-1, Some ESRCH) s
  | Some p =>
      (if (PID_MAX <? pid) || (pid <? PID_MIN) then mret (-1, Some EINVAL) else
      if p =? c then mret (-1, Some EPERM) else
      xc ← read_proc c;
      if bool_decide (p_parent xc = Some p) then mret (-1, Some EPERM) else
      x ← read_proc p;
      if bool_decide (p_parent x <> Some c) then mret (-1, Some ECHILD) else
      children ← deref (p_children xc) "curproc->p_children->num";
      if bool_decide (children = []) then mret (-1, Some ECHILD) else
      if bool_decide (p_parent x = p_parent xc) then mret (-1, Some EPERM) else
      if (options =? WNOHANG) && negb (p_exited x) then mret (0, Some 0) else
      st ← proc_wait p;
      s ← get;
      let ret := match heap s !! p with Some x => p_pid x | None => freed_pid end in
      if negb (statusp =? 0) then
        result ← zoom world_lens (copyout st statusp);
        if negb (result =? 0) then mret (result, Some (-1)) else mret (ret, None)
      else mret (ret, None)) s
  end.
Proof.
  intros Hwf Hc Hb Ho. unfold bad_status in Hb. apply orb_false_iff in Hb as [[H1 H2]%orb_false_iff H3].
  unfold sys_waitpid. rewrite H1, H2, H3.
  assert (Hopt : negb (options =? 0) && negb (options =? WNOHANG) = false) by (destruct Ho as [-> | ->]; done).
  rewrite Hopt. destruct (Z.leb_spec pid 0); [done|]. unfold mbind at 1, K_bind at 1.
  rewrite proc_search_pid_eq by (done || lia). destruct (find_pid s pid); [|done].
  destruct (_ || _); [done|].
  assert (Hcur : the_curproc s = Ret c s) by (unfold the_curproc, curproc; kunfold; by rewrite Hc).
  run Hcur. done.
Qed.

Lemma find_pid_Some s pid p :
  wf_table s -> find_pid s pid = Some p -> 1 <= pid <= MAX_PROC /\ exists x, heap s !! p = Some x /\ p_pid x = pid.
Proof.
  intros (_ & _ & _ & _ & Hwf). unfold find_pid.
  destruct (Z.ltb_spec 0 pid), (Z.leb_spec pid MAX_PROC); try done. cbn [andb].
  destruct (table s !! Z.to_nat pid) as [[q|]|] eqn:E; try done. intros [= ->].
  destruct (Hwf _ _ E) as (x & Hx & Hp). split; [lia|]. exists x. split; [done|]. lia.
Qed.

(** The part for an existing process that is no longer the kernel's. *)
Lemma waitpid_child s pid statusp options c p x xc l :
  wf_table s -> t_proc s !! me s = Some (Some c) -> heap s !! c = Some xc -> p_children xc = Some l ->
  bad_status statusp = false -> options = 0 \/ options = WNOHANG ->
  PID_MIN <= pid -> find_pid s pid = Some p -> heap s !! p = Some x ->
  p <> c -> p_parent xc <> Some p -> p_parent xc <> Some c -> p_parent x = Some c -> l <> [] ->
  sys_waitpid pid statusp options s =
  (if (options =? WNOHANG) && negb (p_exited x) then mret (0, Some 0) else
   st ← proc_wait p;
   s ← get;
   let ret := match heap s !! p with Some x => p_pid x | None => freed_pid end in
   if negb (statusp =? 0) then
     result ← zoom world_lens (copyout st statusp);
     if negb (result =? 0) then mret (result, Some (-1)) else mret (ret, None)
   else mret (ret, None)) s.
Proof.
  intros Hwf Hc Hxc Hl Hb Ho Hpid Hf Hx Hpc Hpar Hself Hchild Hne.
  rewrite (waitpid_start s pid statusp options c Hwf Hc Hb Ho). unfold PID_MIN, PID_MAX in *.
  destruct (find_pid_Some s pid p Hwf Hf) as [Hr _]. unfold MAX_PROC in Hr.
  destruct (Z.leb_spec pid 0); [lia|]. rewrite Hf.
  destruct (Z.ltb_spec 32767 pid), (Z.ltb_spec pid 2); try lia. cbn [orb].
  destruct (Z.eqb_spec p c); [done|]. run (read_proc_eq _ _ _ Hxc).
  rewrite bool_decide_eq_false_2 by done. run (read_proc_eq _ _ _ Hx).
  rewrite bool_decide_eq_false_2 by (by intros []). rewrite Hl. cbn [deref]. rewrite bind_ret_l.
  rewrite bool_decide_eq_false_2 by done. rewrite bool_decide_eq_false_2 by congruence. done.
Qed.

(** [waitpid].  A bad status pointer, unknown options, and identifiers of no
    process, of the caller, of its parent or of anyone but a child are refused with
    their error and nothing changes.  For a child: WNOHANG does not sleep; without it
    the call sleeps until the child has exited; then the child is reaped and its
    status copied out.  The value returned is read from the freed structure. *)
Lemma waitpid_correct s pid statusp options c xc l :
  wf_table s -> t_proc s !! me s = Some (Some c) -> heap s !! c = Some xc -> p_children xc = Some l ->
  p_parent xc <> Some c ->
  let call := sys_waitpid pid statusp options s in
  (bad_status statusp = true -> call = Ret (-1, Some EFAULT) s) /\
  (bad_status statusp = false -> options <> 0 -> options <> WNOHANG -> call = Ret (-1, Some EINVAL) s) /\
  (bad_status statusp = false -> options = 0 \/ options = WNOHANG ->
   (pid <= 0 \/ find_pid s pid = None -> call = Ret (-1, Some ESRCH) s) /\
   (forall p x, find_pid s pid = Some p -> heap s !! p = Some x ->
      (pid = 1 -> call = Ret (-1, Some EINVAL) s) /\
      (pid <> 1 -> p = c \/ p_parent xc = Some p -> call = Ret (-1, Some EPERM) s) /\
      (pid <> 1 -> p <> c -> p_parent xc <> Some p -> p_parent x <> Some c -> call = Ret (-1, Some ECHILD) s) /\
      (pid <> 1 -> p <> c -> p_parent xc <> Some p -> p_parent x = Some c -> l <> [] ->
         (options = WNOHANG -> p_exited x = false -> call = Ret (0, Some 0) s) /\
         (options = 0 -> running s p x -> call = Block) /\
         (forall status x0 w w' r, x = zombie status x0 -> kproc s <> Some p -> is_Some (p_children x) ->
            gives_up x (world s) w -> statusp <> 0 ->
            copyout (MKWAIT_EXIT (Z.land status 0xff)) statusp w = Ret r w' ->
            call = Ret (if r =? 0 then (freed_pid, None) else (r, Some (-1))) (set_world w' (destroyed p x w s)))))).
Proof.
  intros Hwf Hc Hxc Hl Hself call. unfold call. clear call. split; [|split].
  - unfold bad_status, sys_waitpid. intros Hb. destruct (negb (_ =? 0)); [done|].
    destruct (statusp =? INVALID_PTR); [done|]. cbn [orb] in Hb. by rewrite Hb.
  - intros Hb H1 H2. unfold bad_status in Hb. apply orb_false_iff in Hb as [[-> ->]%orb_false_iff H3] || idtac.
    unfold sys_waitpid. apply orb_false_iff in Hb as [[Ha Hb]%orb_false_iff H3]. rewrite Ha, Hb, H3.
    by destruct (Z.eqb_spec options 0), (Z.eqb_spec options WNOHANG).
  - intros Hb Ho. split.
    { intros Hp. rewrite (waitpid_start s pid statusp options c Hwf Hc Hb Ho).
      destruct (Z.leb_spec pid 0); [done|]. destruct Hp as [|Hp]; [lia|]. by rewrite Hp. }
    intros p x Hf Hx. pose proof (find_pid_Some s pid p Hwf Hf) as [Hr _]. unfold MAX_PROC in Hr.
    assert (Hstart := waitpid_start s pid statusp options c Hwf Hc Hb Ho).
    destruct (Z.leb_spec pid 0); [lia|]. rewrite Hf in Hstart. unfold PID_MIN, PID_MAX in Hstart.
    split; [|split; [|split]].
    + intros ->. by rewrite Hstart.
    + intros Hp1 Hpc. rewrite Hstart.
      destruct (Z.ltb_spec 32767 pid), (Z.ltb_spec pid 2); try lia. cbn [orb].
      destruct (Z.eqb_spec p c); [done|]. destruct Hpc as [?|Hpc]; [done|].
      run (read_proc_eq _ _ _ Hxc). by rewrite bool_decide_eq_true_2 by done.
    + intros Hp1 Hpc Hpar Hch. rewrite Hstart.
      destruct (Z.ltb_spec 32767 pid), (Z.ltb_spec pid 2); try lia. cbn [orb].
      destruct (Z.eqb_spec p c); [done|]. run (read_proc_eq _ _ _ Hxc).
      rewrite bool_decide_eq_false_2 by done. run (read_proc_eq _ _ _ Hx).
      by rewrite bool_decide_eq_true_2 by done.
    + intros Hp1 Hpc Hpar Hch Hne.
      rewrite (waitpid_child s pid statusp options c p x xc l) by (done || unfold PID_MIN; lia).
      split; [|split].
      * intros -> Hex. by rewrite Hex.
      * intros -> Hrun. cbn [Z.eqb WNOHANG andb]. unfold mbind, K_bind.
        by rewrite (proc_wait_blocks s p x Hrun).
      * intros status x0 w w' r -> Hk [l' Hlc] Hg Hst Hco. cbn [p_exited zombie negb]. rewrite andb_false_r.
        pose proof (find_pid_Some s pid p Hwf Hf) as [_ (x' & Hx' & Hp')]. rewrite Hx in Hx'. injection Hx' as <-.
        cbn [p_pid zombie] in Hp'.
        run (proc_wait_eq s p x0 status w l' (Some c)); [|done|done|done|congruence|unfold MAX_PROC; lia|done|done].
        set (s1 := destroyed p x0 w s). rewrite (bind_eq get _ _ s1 s1) by done. cbv zeta.
        assert (Hdel : heap s1 !! p = None) by (cbn; by rewrite lookup_delete_eq). rewrite Hdel.
        destruct (Z.eqb_spec statusp 0); [done|]. cbn [negb].
        run (proc_world_eq (copyout _ _) s1 _ _ Hco). by destruct (r =? 0).
Qed.

(** ** [fork] *)

(** The interface's operations return, without error or with one ([kmalloc] with a block
    or without); they keep an invariant of the world, and a successful [thread_fork] for
    [child] establishes [T]; [full] tells whether an array of children may fail to grow. *)
Record env_total (I T : W -> Prop) (full : Prop) (child : Z) : Prop := EnvTotal {
  t_kmalloc : kmalloc_total I;
  t_incref v w : I w -> exists w', VOP_INCREF v w = Ret tt w' /\ I w';
  t_decref v w : I w -> exists w', VOP_DECREF v w = Ret tt w' /\ I w';
  t_as_destroy a w : I w -> exists w', as_destroy a w = Ret tt w' /\ I w';
  t_as_copy a w : I w -> exists r w', as_copy a w = Ret r w' /\ I w';
  t_room n w : I w -> exists b w', array_room n w = Ret b w' /\ I w' /\ (b = true \/ full);
  t_thread_fork w : I w -> exists e w', thread_fork child w = Ret e w' /\ if e =? 0 then T w' else I w' }.

Context (I T : W -> Prop) (full : Prop).

(** A process just made by [proc_create_runprogram]. *)
Definition newborn (i : Z) (cwd : option Z) : proc :=
  Process 0 None cwd 0 i false (Some (Semaphore 0 [])) None (Some []).

(** The same with a semaphore and an array of children that may be missing: the fields
    a fork sets before the child runs. *)
Definition made (i : Z) (cwd a par : option Z) (sm : option semaphore) (arr : option (list Z)) : proc :=
  Process 0 a cwd 0 i false sm par arr.

(** The array of children of a new process, if it could be allocated. *)
Definition fresh_array (arr : option (list Z)) : Prop :=
  (arr = None \/ arr = Some []) /\ (kmalloc_ok I -> arr = Some []).

(** The state with the new process [p], not yet running, at index [i]. *)
Definition born s (p : Z) (x : proc) (i : Z) (w : W) : procs W :=
  set_world w (upd p x (set_table (<[Z.to_nat i := Some p]> (table s)) i s)).

Lemma born_upd s p x y i w w' : set_world w' (upd p y (born s p x i w)) = born s p y i w'.
Proof. unfold born, upd, set_heap, set_world, set_table. cbn. by rewrite insert_insert_eq. Qed.
Lemma upd_world s p x w : upd p x (set_world w s) = set_world w (upd p x s).
Proof. reflexivity. Qed.
Lemma world_world s w w' : set_world w (set_world w' s) = set_world w s.
Proof. reflexivity. Qed.
Lemma table_upd s p x t i : set_table t i (upd p x s) = upd p x (set_table t i s).
Proof. reflexivity. Qed.
Lemma table_world s w t i : set_table t i (set_world w s) = set_world w (set_table t i s).
Proof. reflexivity. Qed.
Lemma born_heap s p x i w : heap (born s p x i w) !! p = Some x.
Proof. apply heap_upd. Qed.
Lemma born_heap_ne s p x i w q : q <> p -> heap (born s p x i w) !! q = heap s !! q.
Proof. intros. cbn. by rewrite lookup_insert_ne. Qed.

(** What [proc_create_runprogram] leaves when the allocator's first answer is [p]. *)
Definition created s (p : Z) (cwd : option Z) (i : Z) (r : option Z) s' : Prop :=
  match r with
  | None => exists w, I w /\ s' = set_world w s /\ ~ kmalloc_ok I
  | Some q => q = p /\ exists w sm arr, I w /\ fresh_sem I sm /\ fresh_array arr /\
      s' = born s p (made i cwd None None sm arr) i w
  end.

Lemma proc_create_spec s p i w0 :
  kmalloc_total I -> I (world s) -> wf_table s -> first_free (table s) (circ (last_i s)) = Some i ->
  kmalloc (world s) = Ret (Some p) w0 -> heap s !! p = None ->
  wp proc_create (created s p None i) s.
Proof.
  intros Hkm HI Hwf Hi Hp Hnew.
  assert (HI0 : I w0) by (destruct (Hkm _ HI) as (? & ? & ? & ?); congruence).
  unfold proc_create. rewrite wp_bind, (wp_eq _ _ _ _ _ (proc_world_eq _ _ _ _ Hp)), wp_bind.
  destruct (Hkm w0 HI0) as (nm & w1 & E1 & HI1).
  rewrite (wp_eq _ _ _ _ _ (proc_world_eq kmalloc (set_world w0 s) _ _ E1)).
  destruct nm as [nm|].
  2: { rewrite wp_ret. exists w1. split; [done|]. split; [done|]. intros Hok.
       destruct (Hok w0 HI0) as (? & ? & ? & _). congruence. }
  rewrite wp_bind, wp_modify, wp_bind.
  set (x0 := Process 0 None None 0 0 false None None None). set (s1 := set_heap _ _).
  assert (Hx1 : heap s1 !! p = Some x0) by (cbn; by rewrite lookup_insert_eq).
  assert (Hwf1 : wf_table s1).
  { destruct Hwf as (H1 & H2 & H3 & H4 & H5). split_and!; [done|apply H2|apply H2|done|done|].
    intros j q Hj. destruct (H5 j q Hj) as (y & Hy & Hyp). exists y. split; [|done].
    cbn. rewrite lookup_insert_ne; [done|congruence]. }
  eapply wp_mono; [|by apply (init_waitpid_spec I s1 p x0 i)].
  cbv beta. intros _ s2 (w2 & sm & Hsm & HI2 & ->).
  change (set_sem _ _) with (made i None None None sm None).
  set (x2 := made i None None None sm None). set (s2 := set_world w2 _).
  assert (Hx2 : heap s2 !! p = Some x2) by apply heap_upd.
  rewrite wp_bind, (wp_eq _ _ _ _ _ (write_proc_eq _ _ _ (set_exited false) Hx2)).
  rewrite wp_bind, (wp_eq _ _ _ _ _ (write_proc_eq _ _ _ (set_parent None) (heap_upd _ _ _))).
  rewrite proc_upd_upd. change (set_parent None (set_exited false x2)) with x2. set (s3 := upd p x2 s2). rewrite wp_bind.
  destruct (Hkm (world s3) HI2) as (arr & w3 & E3 & HI3).
  rewrite (wp_eq _ _ _ _ _ (proc_world_eq _ _ _ _ E3)).
  rewrite wp_bind, (wp_eq _ _ _ _ _ (write_proc_eq (set_world w3 s3) p _ (set_children _) (heap_upd _ _ _))).
  rewrite wp_ret. split; [done|]. exists w3, sm, ((fun _ => []) <$> arr). split; [done|]. split; [done|]. split.
  - split; [destruct arr; auto|]. intros Hok. destruct (Hok _ HI2) as (? & ? & E & _).
    change (kmalloc w2 = Ret arr w3) in E3. rewrite E3 in E. by simplify_eq.
  - unfold s3, s2. change (table s1) with (table s). change s1 with (upd p x0 (set_world w1 (set_world w0 s))).
    by rewrite table_upd, !table_world, !upd_world, !proc_upd_upd, !world_world.
Qed.

Lemma create_runprogram_spec s c xc p i w0 :
  env_total I T full p -> I (world s) -> wf_table s -> first_free (table s) (circ (last_i s)) = Some i ->
  t_proc s !! me s = Some (Some c) -> heap s !! c = Some xc ->
  kmalloc (world s) = Ret (Some p) w0 -> heap s !! p = None ->
  wp proc_create_runprogram (created s p (p_cwd xc) i) s.
Proof.
  intros He HI Hwf Hi Hc Hxc Hp Hnew. assert (Hpc : c <> p) by congruence.
  unfold proc_create_runprogram. rewrite wp_bind.
  eapply wp_mono; [|by apply (proc_create_spec s p i w0 (t_kmalloc _ _ _ _ He))].
  cbv beta. intros [q|] s1; [|intros Hn; by rewrite wp_ret].
  intros (-> & w3 & sm & arr & HI3 & Hsm & Harr & ->). set (x := made i None None None sm arr).
  rewrite wp_bind, (wp_eq _ _ _ _ _ (write_proc_eq _ _ _ (set_as None) (born_heap _ _ _ _ _))).
  change (set_as None x) with x. unfold born at 1. rewrite upd_world, proc_upd_upd. fold (born s p x i w3).
  assert (Hcur : the_curproc (born s p x i w3) = Ret c (born s p x i w3))
    by (unfold the_curproc, curproc; kunfold; cbn; by rewrite Hc).
  assert (Hxc' : heap (born s p x i w3) !! c = Some xc) by (by rewrite born_heap_ne).
  rewrite wp_bind, (wp_eq _ _ _ _ _ Hcur), wp_bind, (wp_eq _ _ _ _ _ (read_proc_eq _ _ _ Hxc')), wp_bind.
  destruct (p_cwd xc) as [v|].
  2: { rewrite !wp_ret. split; [done|]. by exists w3, sm, arr. }
  destruct (t_incref _ _ _ _ He v w3 HI3) as (w4 & E4 & HI4).
  rewrite wp_bind, (wp_eq _ _ _ _ _ (proc_world_eq (VOP_INCREF v) (born s p x i w3) _ _ E4)).
  rewrite (wp_eq _ _ _ _ _ (write_proc_eq (set_world w4 (born s p x i w3)) p _ (set_cwd (Some v)) (born_heap _ _ _ _ _))).
  rewrite wp_ret. split; [done|]. exists w4, sm, arr. do 3 (split; [done|]).
  by rewrite upd_world, born_upd.
Qed.

Lemma gives_up_total c x w : env_total I T full c -> I w -> exists w', gives_up x w w' /\ I w'.
Proof.
  intros He HI. unfold gives_up.
  assert (Hw1 : exists w1, match p_cwd x with Some v => VOP_DECREF v w = Ret tt w1 | None => w1 = w end /\ I w1)
    by (destruct (p_cwd x); [by apply (t_decref _ _ _ _ He)|by exists w]).
  destruct Hw1 as (w1 & Hw1 & HI1).
  assert (Hw2 : exists w2, match p_addrspace x with Some a => as_destroy a w1 = Ret tt w2 | None => w2 = w1 end /\ I w2)
    by (destruct (p_addrspace x); [by apply (t_as_destroy _ _ _ _ He)|by exists w1]).
  destruct Hw2 as (w2 & Hw2 & HI2). exists w2. split; [by exists w1|done].
Qed.

(** A child that was never run, with all its parts. *)
Definition unborn (i : Z) (cwd a par : option Z) : proc := made i cwd a par (Some (Semaphore 0 [])) (Some []).

(** What is left when the child is destroyed: the parent's list of children may have
    grown. *)
Definition forgotten s (parent child : Z) s' : Prop :=
  I (world s') /\ table s' = table s /\ t_proc s' = t_proc s /\ heap s' !! child = None /\
  (forall q, q <> parent -> q <> child -> heap s' !! q = heap s !! q) /\
  (exists xp l, heap s !! parent = Some xp /\ heap s' !! parent = Some (set_children l xp)).

(** What a successful fork leaves; the child's semaphore and array of children are those
    it was made with. *)
Definition forked_with s (parent child t i : Z) (xp : proc) (sm : option semaphore) (arr : option (list Z)) s' : Prop :=
  T (world s') /\ kproc s' = kproc s /\ me s' = me s /\
  table s' = <[Z.to_nat i := Some child]> (table s) /\ last_i s' = i /\ t_proc s' = <[t := Some child]> (t_proc s) /\
  exists a l0 l, (exists w w', as_copy (p_addrspace xp) w = Ret (0, Some a) w') /\
    p_children xp = Some l0 /\ (l = l0 ++ [child] \/ l = l0 /\ full) /\
    heap s' = <[child := set_threads 1 (made i (p_cwd xp) (Some a) (Some parent) sm arr)]>
                (<[parent := set_children (Some l) xp]> (heap s)).

Definition forked s (parent child t i : Z) (xp : proc) s' : Prop :=
  forked_with s parent child t i xp (Some (Semaphore 0 [])) (Some []) s'.

(** What [fork] answers when it gives up. *)
Definition refusal (child i : Z) (xp : proc) (r : Z * Z) : Prop :=
  if i <? PID_MIN then r = (-1, EINVAL) else
  r = (-1, ENOMEM) /\ ((exists w w', kmalloc w = Ret None w') \/ exists e w w', thread_fork child w = Ret e w' /\ e <> 0) \/
  exists e a w w', as_copy (p_addrspace xp) w = Ret (e, a) w' /\ (e <> 0 \/ a = None) /\ r = (- e, -1).

(** How [fork] ends past its first checks. *)
Definition fork_outcome s (parent child t i : Z) (xp : proc) (sm : option semaphore) (arr : option (list Z))
    (r : Z * Z) s' : Prop :=
  PID_MIN <= i /\ r = (0, i) /\ forked_with s parent child t i xp sm arr s' \/
  refusal child i xp r /\ is_Some sm /\ is_Some arr /\ forgotten s parent child s'.

Definition fork_ends s (parent child t i : Z) (xp : proc) (sm : option semaphore) (arr : option (list Z))
    (o : outcome (procs W) (Z * Z)) : Prop :=
  match o with
  | Ret r s' => fork_outcome s parent child t i xp sm arr r s'
  | Panic why => sm = None /\ why = "sem != NULL"
  | Fault why => is_Some sm /\ arr = None /\ why = "proc->p_children->num"
  | Block => False
  end.

Lemma wp_ends {S A B} (m : K S A) (f : A -> K S B) (Q : outcome S B -> Prop) (s0 : S) :
  wp m (fun a st => Q (f a st)) s0 -> Q ((m ≫= f) s0).
Proof. unfold wp, mbind, K_bind. by destruct (m s0). Qed.

Lemma fork_cleanup s s1 parent child xp t l i cwd a par sm arr (r : Z * Z) :
  env_total I T full child -> I (world s1) -> t_proc s !! me s = Some (Some parent) -> heap s !! parent = Some xp -> parent <> child ->
  kproc s <> Some child -> 1 <= i <= MAX_PROC -> table s !! Z.to_nat i = Some None ->
  table s1 = <[Z.to_nat i := Some child]> (table s) -> t_proc s1 = t_proc s -> me s1 = me s -> kproc s1 = kproc s ->
  heap s1 = <[child := made i cwd a par sm arr]> (<[parent := set_children l xp]> (heap s)) ->
  fresh_sem I sm -> fresh_array arr -> refusal child i xp r ->
  fork_ends s parent child t i xp sm arr ((proc_destroy child;; mret r) s1).
Proof.
  intros He HI Hc Hxp Hpc Hk Hi Hfree T1 T2 T3 T4 T5 [Hsm _] [Harr _] Hr. set (y := made i cwd a par sm arr) in *.
  assert (Hy : heap s1 !! child = Some y) by (by rewrite T5, lookup_insert_eq).
  destruct (gives_up_total child y (world s1) He HI) as (w & Hg & HIw).
  assert (Hc1 : t_proc s1 !! me s1 = Some (Some parent)) by (by rewrite T2, T3).
  assert (Hk1 : kproc s1 <> Some child) by (by rewrite T4).
  destruct (proc_destroy_unfinished s1 child y (Some parent) w Hk1 Hy Hc1 ltac:(congruence) Hi eq_refl Hg) as [Hno Hno'].
  destruct Hsm as [-> | ->]; [unfold mbind, K_bind; by rewrite Hno|].
  destruct Harr as [-> | ->]; [unfold mbind, K_bind; by rewrite (Hno' 0 eq_refl eq_refl)|].
  unfold mbind, K_bind. rewrite (proc_destroy_eq s1 child y (Some parent) 0 [] w) by (done || congruence).
  right. split; [done|]. split; [by eexists|]. split; [by eexists|]. unfold forgotten, destroyed.
  cbn [table heap t_proc set_world set_heap set_table p_pid y made].
  rewrite T1, T2, T5, list_insert_insert_eq. split_and!.
  - done.
  - by apply list_insert_id.
  - done.
  - by rewrite lookup_delete_eq.
  - intros q Hq1 Hq2. by rewrite lookup_delete_ne, !lookup_insert_ne.
  - exists xp, l. by rewrite lookup_delete_ne, lookup_insert_ne, lookup_insert_eq.
Qed.

Lemma add_child_spec s parent child xp l :
  env_total I T full child -> I (world s) -> heap s !! parent = Some xp -> p_children xp = Some l ->
  wp (proc_add_child parent child) (fun _ s' =>
    exists l' w, I w /\ (l' = l ++ [child] \/ l' = l /\ full) /\
      s' = set_world w (upd parent (set_children (Some l') xp) s)) s.
Proof.
  intros He HI Hxp Hl. unfold proc_add_child. rewrite wp_bind, (wp_eq _ _ _ _ _ (read_proc_eq _ _ _ Hxp)), Hl.
  cbn [deref]. rewrite wp_bind, wp_ret, wp_bind. eapply wp_world; [by apply (t_room _ _ _ _ He)|]. cbv beta. intros b w E [HIw Hb].
  destruct b.
  - rewrite (wp_eq _ _ _ _ _ (write_proc_eq (set_world w s) parent xp (set_children _) Hxp)).
    exists (l ++ [child]), w. auto.
  - rewrite wp_ret. exists l, w. split; [done|]. split; [right; naive_solver|]. assert (Hid : set_children (Some l) xp = xp) by (destruct xp; cbn in *; by subst).
    rewrite Hid. unfold upd. rewrite insert_id by done. by destruct s.
Qed.

(** After it the child is in the table and runs. *)
Lemma forked_child s parent child t i xp s' :
  wf_table s -> first_free (table s) (circ (last_i s)) = Some i -> heap s !! parent = Some xp ->
  heap s !! child = None -> kproc s <> Some child -> forked s parent child t i xp s' ->
  wf_table s' /\ find_pid s' i = Some child /\
  exists a l0 l, p_children xp = Some l0 /\ (l = l0 ++ [child] \/ l = l0 /\ full) /\
    heap s' !! parent = Some (set_children (Some l) xp) /\
    running s' child (set_threads 1 (unborn i (p_cwd xp) (Some a) (Some parent))).
Proof.
  intros Hwf [Hir Hfree]%first_free_Some Hxp Hnew Hk (_ & Ek & _ & Et & El & _ & a & l0 & l & _ & Hl0 & Hl & Eh).
  pose proof Hwf as (Hlen & Hlast & Hz & H0 & Hw). apply circ_range in Hir as [Hir _]; [|done].
  unfold MAX_PROC in *. assert (Hpc : parent <> child) by congruence.
  assert (Hti : table s' !! Z.to_nat i = Some (Some child)) by (rewrite Et; apply list_lookup_insert_eq; lia).
  split; [|split].
  - unfold wf_table, MAX_PROC. rewrite Et, El. split_and!; try lia.
    + by rewrite length_insert.
    + by rewrite list_lookup_insert_ne by lia.
    + intros j p Hj. destruct (decide (j = Z.to_nat i)) as [->|Hji].
      * rewrite list_lookup_insert_eq in Hj by lia. injection Hj as <-. rewrite Eh, lookup_insert_eq.
        eexists. split; [done|]. cbn. lia.
      * rewrite list_lookup_insert_ne in Hj by done. destruct (Hw j p Hj) as (y & Hy & Hyp).
        rewrite Eh, lookup_insert_ne by congruence. destruct (decide (p = parent)) as [->|].
        -- rewrite lookup_insert_eq. eexists. split; [done|]. cbn. congruence.
        -- rewrite lookup_insert_ne by done. eauto.
  - unfold find_pid, MAX_PROC. rewrite Hti. destruct (Z.ltb_spec 0 i), (Z.leb_spec i 100); try lia. done.
  - exists a, l0, l. split; [done|]. split; [done|]. split.
    + by rewrite Eh, lookup_insert_ne, lookup_insert_eq.
    + split; [by rewrite Eh, lookup_insert_eq|]. unfold MAX_PROC. cbn. split_and!; try done; try lia. congruence.
Qed.

Lemma proc_upd_born s p x y i w : upd p y (born s p x i w) = born s p y i w.
Proof. unfold born. by rewrite upd_world, proc_upd_upd. Qed.

(** The end of [fork]: the child enters the family and gets its thread. *)
Lemma fork_attach s parent child xp l0 i w3 a t sm arr :
  env_total I T full child -> I w3 -> t_proc s !! me s = Some (Some parent) -> heap s !! parent = Some xp -> parent <> child ->
  p_children xp = Some l0 -> kproc s <> Some child -> 1 <= i <= MAX_PROC -> PID_MIN <= i ->
  table s !! Z.to_nat i = Some None -> t <> me s -> (exists w w', as_copy (p_addrspace xp) w = Ret (0, Some a) w') ->
  fresh_sem I sm -> fresh_array arr ->
  fork_ends s parent child t i xp sm arr
   ((write_proc child (set_parent (Some parent));;
      proc_add_child parent child;;
      result ← zoom world_lens (thread_fork child);
      if negb (result =? 0) then proc_destroy child;; mret (-1, ENOMEM) else
      modify (fun s => set_t_proc (<[t := None]> (t_proc s)) s);;
      _ ← proc_addthread child t;
      xc ← read_proc child;
      mret (0, p_pid xc))
    (born s child (made i (p_cwd xp) (Some a) None sm arr) i w3)).
Proof.
  intros He HI Hc Hxp Hpc Hch Hk Hir Hmin Hfree Ht Ha Hsm Harr. set (cwd := p_cwd xp) in *.
  assert (Hp2 : forall x w, heap (born s child x i w) !! parent = Some xp) by (intros; by rewrite born_heap_ne).
  run (write_proc_eq _ _ _ (set_parent (Some parent)) (born_heap s child (made i cwd (Some a) None sm arr) i w3)).
  change (set_parent (Some parent) (made i cwd (Some a) None sm arr)) with (made i cwd (Some a) (Some parent) sm arr).
  set (y := made i cwd (Some a) (Some parent) sm arr).
  rewrite proc_upd_born. apply wp_ends. eapply wp_mono; [|apply (add_child_spec (born s child y i w3) parent child xp l0 He HI (Hp2 y w3) Hch)].
  cbv beta. intros _ s4 (l & w4 & HI4 & Hl & ->). apply wp_ends.
  eapply wp_world; [by apply (t_thread_fork _ _ _ _ He)|]. cbv beta. intros e w5 E5 HI5. rewrite world_world.
  set (s5 := set_world w5 _).
  assert (Hheap : heap s5 = <[child := y]> (<[parent := set_children (Some l) xp]> (heap s))).
  { cbn. by rewrite insert_insert_ne. }
  destruct (Z.eqb_spec e 0) as [->|Hne]; cbn [negb].
  2: { apply (fork_cleanup s s5 parent child xp t (Some l) i cwd (Some a) (Some parent)); try done.
       unfold refusal. destruct (Z.ltb_spec i PID_MIN); [lia|]. left. split; [done|]. right. eauto 10. }
  rewrite (bind_eq (modify _) _ s5 (set_t_proc (<[t := None]> (t_proc s5)) s5) tt) by done. set (s6 := set_t_proc _ s5).
  assert (Hy6 : heap s6 !! child = Some y) by (change (heap s6) with (heap s5); by rewrite Hheap, lookup_insert_eq).
  assert (Hadd : proc_addthread child t s6 = Ret 0 (set_t_proc (<[t := Some child]> (t_proc s)) (upd child (set_threads 1 y) s6))).
  { unfold proc_addthread. rewrite (bind_eq get _ _ s6 s6) by done.
    change (t_proc s6) with (<[t := None]> (t_proc s)). rewrite lookup_insert_eq. cbn [deref].
    rewrite bind_ret_l, bool_decide_eq_true_2 by done. cbn [KASSERT]. rewrite bind_ret_l.
    run (write_proc_eq s6 child y (fun x => set_threads (u32 (p_numthreads x + 1)) x) Hy6).
    change (u32 (p_numthreads y + 1)) with 1. unfold modify. kunfold. cbn [t_proc upd set_heap s6 set_t_proc].
    by rewrite insert_insert_eq. }
  run Hadd. set (s7 := set_t_proc _ _).
  assert (Hy7 : heap s7 !! child = Some (set_threads 1 y)) by apply heap_upd.
  run (read_proc_eq _ _ _ Hy7). left. split; [done|]. split; [done|].
  do 6 (split; [done|]). exists a, l0, l. do 3 (split; [done|]).
  change (heap s7) with (<[child := set_threads 1 y]> (heap s5)). by rewrite Hheap, insert_insert_eq.
Qed.

(** [fork] once the child is made: at its identifier, and whatever parts it has. *)
Lemma fork_made s parent xp l0 child t i w1 sm arr :
  env_total I T full child -> I w1 -> wf_table s -> t_proc s !! me s = Some (Some parent) -> heap s !! parent = Some xp ->
  p_children xp = Some l0 -> t <> me s -> p_pid xp < MAX_PROC -> first_free (table s) (circ (last_i s)) = Some i ->
  heap s !! child = None -> kproc s <> Some child -> fresh_sem I sm -> fresh_array arr ->
  proc_create_runprogram s = Ret (Some child) (born s child (made i (p_cwd xp) None None sm arr) i w1) ->
  fork_ends s parent child t i xp sm arr (sys_fork t s).
Proof.
  intros He HI Hwf Hc Hxp Hch Ht Hpid Hi Hnew Hk Hsm Harr Hcr. assert (Hpc : parent <> child) by congruence.
  assert (Hcur : the_curproc s = Ret parent s) by (unfold the_curproc, curproc; kunfold; by rewrite Hc).
  pose proof Hi as [Hir Hfree]%first_free_Some. apply circ_range in Hir as [Hir _]; [|apply Hwf].
  unfold sys_fork. run Hcur. run (read_proc_eq _ _ _ Hxp). destruct (Z.ltb_spec MAX_PROC (p_pid xp + 1)); [lia|].
  run Hcr. set (cwd := p_cwd xp) in *. set (x := made i cwd None None sm arr).
  run (read_proc_eq _ _ _ (born_heap s child x i w1)). cbn [p_pid x made]. unfold PID_MAX in *. unfold MAX_PROC in Hir.
  assert (Hxp0 : set_children (Some l0) xp = xp) by (destruct xp; cbn in *; by subst).
  assert (Hheap : forall y w, heap (born s child y i w) = <[child := y]> (<[parent := set_children (Some l0) xp]> (heap s))).
  { intros. by rewrite Hxp0, (insert_id (heap s)) by done. }
  destruct (Z.ltb_spec 32767 i); [lia|]. rewrite orb_false_r. destruct (Z.ltb_spec i PID_MIN) as [Hlow|Hmin].
  { apply (fork_cleanup s _ parent child xp t (Some l0) i cwd None None); try done.
    unfold refusal. by destruct (Z.ltb_spec i PID_MIN); [|lia]. }
  destruct (t_kmalloc _ _ _ _ He w1 HI) as (tf & w2 & E2 & HI2).
  run (proc_world_eq kmalloc (born s child x i w1) _ _ E2). change (set_world w2 (born s child x i w1)) with (born s child x i w2).
  destruct tf as [tf|].
  2: { apply (fork_cleanup s _ parent child xp t (Some l0) i cwd None None); try done.
       unfold refusal. destruct (Z.ltb_spec i PID_MIN); [lia|]. left. split; [done|]. left. eauto. }
  assert (Hp2 : forall x w, heap (born s child x i w) !! parent = Some xp) by (intros; by rewrite born_heap_ne).
  run (read_proc_eq _ _ _ (Hp2 x w2)). destruct (t_as_copy _ _ _ _ He (p_addrspace xp) w2 HI2) as ([result a] & w3 & E3 & HI3).
  run (proc_world_eq (as_copy _) (born s child x i w2) _ _ E3). change (set_world w3 (born s child x i w2)) with (born s child x i w3).
  run (write_proc_eq _ _ _ (set_as a) (born_heap s child x i w3)). rewrite proc_upd_born.
  change (set_as a x) with (made i cwd a None sm arr).
  destruct (negb (result =? 0) || bool_decide (a = None)) eqn:Ebad.
  { apply (fork_cleanup s _ parent child xp t (Some l0) i cwd a None); try done.
    unfold refusal. destruct (Z.ltb_spec i PID_MIN); [lia|]. right. exists result, a, w2, w3. split; [done|]. split; [|done].
    apply orb_true_iff in Ebad as [Eb|Eb]; [left|right; by apply bool_decide_eq_true in Eb].
    by apply negb_true_iff, Z.eqb_neq in Eb. }
  apply orb_false_iff in Ebad as [Eres Ea]. apply negb_false_iff, Z.eqb_eq in Eres as ->.
  apply bool_decide_eq_false in Ea. destruct a as [a|]; [clear Ea|done].
  apply (fork_attach s parent child xp l0 i w3 a t); try done. eauto.
Qed.

(** [fork] past its first check, when there is memory. *)
Lemma fork_spec s parent xp l0 child t i w0 :
  env_total I T full child -> kmalloc_ok I -> I (world s) -> wf_table s -> t_proc s !! me s = Some (Some parent) ->
  heap s !! parent = Some xp -> p_children xp = Some l0 -> t <> me s ->
  p_pid xp < MAX_PROC -> first_free (table s) (circ (last_i s)) = Some i ->
  kmalloc (world s) = Ret (Some child) w0 -> heap s !! child = None -> kproc s <> Some child ->
  wp (sys_fork t) (fork_outcome s parent child t i xp (Some (Semaphore 0 [])) (Some [])) s.
Proof.
  intros He Hok HI Hwf Hc Hxp Hch Ht Hpid Hi Hkm Hnew Hk.
  assert (Hcr := create_runprogram_spec s parent xp child i w0 He HI Hwf Hi Hc Hxp Hkm Hnew).
  apply wp_returns in Hcr as (r & s1 & Ecr & Hcr). destruct r as [q|]; [|by destruct Hcr as (? & _ & _ & [])].
  destruct Hcr as (-> & w1 & sm & arr & HI1 & [Hsm Hsm'] & [Harr Harr'] & ->).
  assert (Hend := fork_made s parent xp l0 child t i w1 sm arr He HI1 Hwf Hc Hxp Hch Ht Hpid Hi Hnew Hk
    (conj Hsm Hsm') (conj Harr Harr') Ecr).
  rewrite (Hsm' Hok), (Harr' Hok) in Hend. unfold wp. by destruct (sys_fork t s); [|naive_solver..].
Qed.

End Proc_facts.

(** ** A small system, and the theorems at a concrete state *)

(** The world is the next address of the allocator. *)
#[local] Instance small_procs : ProcEnv Z := {
  kmalloc := fun w => Ret (Some w) (w + 64);
  freed_pid := 0xdeadbeef;
  VOP_INCREF := fun _ w => Ret tt w;
  VOP_DECREF := fun _ w => Ret tt w;
  as_deactivate := fun w => Ret tt w;
  as_destroy := fun _ w => Ret tt w;
  as_copy := fun _ w => Ret (0, Some w) (w + 64);
  array_room := fun _ w => Ret true w;
  thread_fork := fun _ w => Ret 0 w;
  copyout := fun _ _ w => Ret 0 w;
  close_all_files := fun w => Ret 0 w }.

Section Proc_witnesses.
Import Proc.

(** The kernel (1), a shell (2, thread 101) and its child (3, thread 102). *)
Definition shell : proc := Process 1 (Some 7) (Some 5) 0 2 false (Some (Semaphore 0 [])) None (Some [30]).
Definition its_child : proc := Process 1 (Some 8) (Some 5) 0 3 false (Some (Semaphore 0 [])) (Some 20) (Some []).
Definition family (t : Z) (child : proc) : procs Z :=
  Procs ([None; Some 10; Some 20; Some 30] ++ replicate 97 None) 3
    {[10 := Process 1 None None 0 1 false (Some (Semaphore 0 [])) None (Some []); 20 := shell; 30 := child]}
    (Some 10) true {[100 := Some 10; 101 := Some 20; 102 := Some 30]} t 4096.

Lemma family_wf t child : p_pid child = 3 -> wf_table (family t child).
Proof.
  intros Hp. split_and!; [reflexivity|done|done|done|done|].
  intros j q Hj. destruct j as [|[|[|[|j]]]]; [done|..].
  - injection Hj as <-. by eexists.
  - injection Hj as <-. by eexists.
  - injection Hj as <-. exists child. split; [done|]. by rewrite Hp.
  - by apply lookup_replicate in Hj as [? _].
Qed.

Lemma small_total c : env_total (W := Z) (fun _ => True) (fun _ => True) False c.
Proof. split; unfold kmalloc_total; intros; first [by eexists | by eexists _, _ | eexists _, _; split_and!; by auto]. Qed.

Lemma pid_alloc_correct_witness :
  let s := set_heap (<[50 := newborn 0 None]> (heap (family 101 its_child))) (family 101 its_child) in
  first_free (table s) (circ 3) = Some 4 /\
  wp (proc_init_waitpid 50) (fun _ s' => last_i s' = 4 /\ proc_search_pid 4 s' = Ret (inr 50) s') s.
Proof.
  intros s. split; [reflexivity|].
  assert (Hwf : wf_table s).
  { destruct (family_wf 101 its_child eq_refl) as (H1 & H2 & H3 & H4 & H5).
    split_and!; [exact H1|apply H2|apply H2|exact H3|exact H4|].
    intros j q Hj. destruct (H5 j q Hj) as (x & Hx & Hxp). exists x. split; [|exact Hxp].
    cbn [s heap set_heap]. rewrite lookup_insert_ne; [exact Hx|]. intros <-. discriminate Hx. }
  assert (Hno : forall j, table s !! j <> Some (Some 50)).
  { intros [|[|[|[|j]]]]; try discriminate. intros Hj. by apply lookup_replicate in Hj as [? _]. }
  pose proof (pid_alloc_correct s 50 (newborn 0 None) (t_kmalloc _ _ _ _ (small_total 50)) Hwf eq_refl Hno) as Ht.
  change (first_free (table s) (circ (last_i s))) with (Some 4) in Ht. cbv beta iota in Ht.
  eapply wp_mono; [|exact Ht]. cbv beta. intros _ s' (_ & _ & Hl & _ & Hs & _). split; [exact Hl|exact Hs].
Defined.

Lemma child_running : running (family 101 its_child) 30 its_child.
Proof. split_and!; done. Qed.

Lemma exit_wait_correct_witness :
  proc_wait 30 (family 101 its_child) = Block /\
  exists s1 s2, sys__exit 258 (family 102 its_child) = Ret tt s1 /\
    proc_wait 30 (set_me 101 s1) = Ret 8 s2 /\ proc_search_pid 3 s2 = Ret (inl ESRCH) s2.
Proof.
  destruct (exit_wait_correct (family 101 its_child) 30 its_child 102 101 (Some 20) 258 child_running
              eq_refl ltac:(done) eq_refl ltac:(done)) as (Hb & _ & Hw).
  split; [exact Hb|].
  assert (Hg : gives_up its_child 4096 4096) by (exists 4096; done).
  destruct (Hw 4096 4096 eq_refl Hg) as (s1 & H1 & _ & _ & s2 & H2 & _ & _ & _ & _ & H3).
  exists s1, s2. split; [exact H1|]. split; [exact H2|exact H3].
Defined.

Lemma waitpid_correct_witness :
  sys_waitpid 3 0 WNOHANG (family 101 its_child) = Ret (0, Some 0) (family 101 its_child) /\
  sys_waitpid 2 0 0 (family 101 its_child) = Ret (-1, Some EPERM) (family 101 its_child).
Proof.
  split.
  - destruct (waitpid_correct (family 101 its_child) 3 0 WNOHANG 20 shell [30] (family_wf 101 its_child eq_refl)
                eq_refl eq_refl eq_refl ltac:(done)) as (_ & _ & Ht).
    destruct (Ht eq_refl (or_intror eq_refl)) as [_ Hp].
    destruct (Hp 30 its_child eq_refl eq_refl) as (_ & _ & _ & Hc).
    destruct (Hc ltac:(done) ltac:(done) ltac:(done) eq_refl ltac:(done)) as [Hn _]. exact (Hn eq_refl eq_refl).
  - destruct (waitpid_correct (family 101 its_child) 2 0 0 20 shell [30] (family_wf 101 its_child eq_refl)
                eq_refl eq_refl eq_refl ltac:(done)) as (_ & _ & Ht).
    destruct (Ht eq_refl (or_introl eq_refl)) as [_ Hp].
    destruct (Hp 20 shell eq_refl eq_refl) as (_ & He & _). exact (He ltac:(done) (or_introl eq_refl)).
Defined.


(** The same system when one allocation, the one at [n], fails: for the trap frame, for
    the child's semaphore, for its array of children. *)
Definition scarce (n : Z) : ProcEnv Z := {|
  kmalloc := fun w => Ret (if w =? n then None else Some w) (w + 64);
  freed_pid := 0xdeadbeef;
  VOP_INCREF := fun _ w => Ret tt w;
  VOP_DECREF := fun _ w => Ret tt w;
  as_deactivate := fun w => Ret tt w;
  as_destroy := fun _ w => Ret tt w;
  as_copy := fun _ w => Ret (0, Some w) (w + 64);
  array_room := fun _ w => Ret true w;
  thread_fork := fun _ w => Ret 12 w;
  copyout := fun _ _ w => Ret 0 w;
  close_all_files := fun w => Ret 0 w |}.
Definition fork_scarce (n : Z) : outcome () (Z * Z * bool) :=
  match @sys_fork Z (scarce n) 103 (family 101 its_child) with
  | Ret r s' => Ret (r, bool_decide (is_Some (heap s' !! 4096))) tt
  | Panic why => Panic why
  | Fault why => Fault why
  | Block => Block
  end.
Example fork_no_trapframe : fork_scarce (4096 + 6 * 64) = Ret (-1, ENOMEM, false) tt.
Proof. vm_compute. reflexivity. Qed.
Example fork_no_sem_no_thread : fork_scarce (4096 + 2 * 64) = Panic "sem != NULL".
Proof. vm_compute. reflexivity. Qed.
Example fork_no_array_no_thread : fork_scarce (4096 + 5 * 64) = Fault "proc->p_children->num".
Proof. vm_compute. reflexivity. Qed.
End Proc_witnesses.
