(* ===== verification/Kernel.v ===== *)
(** * The kernel put together

    The world of the processes is the store of open files, whose world is the machine.
    Each component's interface is implemented by the others: the process component
    closes and shares files through [Files], and the dispatcher calls both.  A system
    call begins by telling the file component which process and thread runs it.
    The theorem follows one [fork] through the exit of the child, [waitpid], and
    what the parent can do with its files afterwards. *)
From S2P Require Import Prelude Synch Uio Syscall Files Proc.
Import Syscall.

(** The rest of the machine. *)
Class MachineEnv (W : Type) := {
  m_freed_pid : Z;
  m_incref : Z -> K W ();
  m_decref : Z -> K W ();
  m_as_deactivate : K W ();
  m_as_destroy : Z -> K W ();
  m_as_copy : option Z -> K W (Z * option Z);
  m_array_room : Z -> K W bool;
  (** [thread_create] and the allocation of the stack: an error code. *)
  m_thread_create : K W Z;
  m_reboot : Z -> K W Z;
  m_time : Z -> Z -> K W Z;
  m_chdir : Z -> K W (Z * option Z);
  m_getcwd : Z -> Z -> K W (Z * option Z);
  m_execv : Z -> Z -> K W (Z + Z * Z * Z);
  m_copyin_int : Z -> K W (Z + Z) }.

Module Kernel.
Section ops.
Context {W : Type} `{FileEnv W, MachineEnv W}.

Definition machine {A} (m : K W A) : K (Files.files W) A := zoom Files.world_lens m.

(** [bzero(proc->fileTable, ...)] of [proc_create], which is where a child's table
    begins. *)
Definition new_filetable (child : Z) : K (Files.files W) () :=
  modify (fun s => Files.set_ftables (<[child := replicate 128 None]> (Files.ftables s)) s).

(** [thread_fork], without attaching the thread, which [Proc] does. *)
Definition thread_fork (child : Z) : K (Files.files W) Z :=
  result ← machine m_thread_create;
  if negb (result =? 0) then mret result else
  new_filetable child;;
  s ← get;
  Files.proc_file_table_copy (Files.cur s) child;;
  mret 0.

#[export] Instance kernel_procs : ProcEnv (Files.files W) := {|
  Proc.kmalloc := machine (Files.kmalloc false);
  freed_pid := m_freed_pid;
  VOP_INCREF v := machine (m_incref v);
  VOP_DECREF v := machine (m_decref v);
  as_deactivate := machine m_as_deactivate;
  as_destroy a := machine (m_as_destroy a);
  as_copy a := machine (m_as_copy a);
  array_room n := machine (m_array_room n);
  Proc.thread_fork := thread_fork;
  Proc.copyout v p := machine (Files.copyout (be_bytes 4 v) p);
  close_all_files := Files.close_all_files |}.

Definition kernel : Type := Proc.procs (Files.files W).

(** [curproc] and [curthread], for the file component. *)
Definition run_by (p t : Z) (f : Files.files W) : Files.files W :=
  Files.State (Files.sysft f) (Files.heap f) (Files.locks f) (Files.ftables f) p t (Files.world f).
Definition enter : K kernel () :=
  p ← Proc.the_curproc;
  modify (fun s => Proc.set_world (run_by p (Proc.me s) (Proc.world s)) s).
Definition in_files {A} (m : K (Files.files W) A) : K kernel A := enter;; zoom Proc.world_lens m.

(** The address of the thread structure that [fork] allocates: one not in use. *)
Definition new_thread : K kernel Z := gets (fun s => fresh (dom (Proc.t_proc s))).

#[export] Instance kernel_calls : Syscalls kernel := {|
  sys_reboot c := in_files (machine (m_reboot c));
  sys___time a b := in_files (machine (m_time a b));
  sys_open p f m := in_files (Files.sys_open p f m);
  sys_close fd := in_files (Files.sys_close fd);
  sys_chdir p := in_files (machine (m_chdir p));
  sys_fstat fd b := in_files (Files.sys_fstat fd b);
  sys_mkdir p m := in_files (Files.sys_mkdir p m);
  sys___getcwd b n := in_files (machine (m_getcwd b n));
  sys_dup2 a b := in_files (Files.sys_dup2 a b);
  sys_lseek fd o w := in_files (Files.sys_lseek fd o w);
  sys_write fd b n := in_files (Files.sys_write fd b n);
  sys_read fd b n := in_files (Files.sys_read fd b n);
  sys__exit c := enter;; Proc.sys__exit c;
  sys_waitpid p st o := enter;; Proc.sys_waitpid p st o;
  sys_getpid := Proc.sys_getpid;
  sys_fork _ := enter;; t ← new_thread; Proc.sys_fork t;
  sys_execv p a := in_files (machine (m_execv p a));
  copyin_int a := in_files (machine (m_copyin_int a)) |}.

(** The thread [t] gets the processor. *)
Definition switch_to (t : Z) (s : kernel) : kernel := Proc.set_me t s.

(** The machine's operations return, and there is memory. *)
Record machine_total : Prop := {
  mt_kmalloc w : exists a w', Files.kmalloc false w = Ret (Some a) w';
  mt_incref v w : exists w', m_incref v w = Ret tt w';
  mt_decref v w : exists w', m_decref v w = Ret tt w';
  mt_as_destroy a w : exists w', m_as_destroy a w = Ret tt w';
  mt_as_copy a w : exists r w', m_as_copy a w = Ret r w';
  mt_room n w : exists w', m_array_room n w = Ret true w';
  mt_thread w : exists e w', m_thread_create w = Ret e w' }.
End ops.
End Kernel.

Section Kernel_facts.
Import Kernel.
Context {W : Type} `{FileEnv W, MachineEnv W}.
Implicit Types f : Files.files W.
Implicit Types s : kernel (W := W).

(** ** The processes' interface, implemented *)

(** Only the machine has changed. *)
Definition only_machine f0 f : Prop := exists w, f = Files.set_world w f0.

Lemma machine_total_op {A} (m : K W A) (P : A -> Prop) f0 f :
  (forall w, exists a w', m w = Ret a w' /\ P a) -> only_machine f0 f ->
  exists a f', machine m f = Ret a f' /\ only_machine f0 f' /\ P a.
Proof.
  intros Hm [w ->]. destruct (Hm w) as (a & w' & E & Ha). exists a, (Files.set_world w' f0).
  split; [|by split; [exists w'|]]. unfold machine. by rewrite (file_world_eq m (Files.set_world w f0) a w' E).
Qed.

Definition with_filetable (child : Z) f : Files.files W :=
  Files.set_ftables (<[child := replicate 128 None]> (Files.ftables f)) f.

(** The child shares the current process's files. *)
Definition shares f0 (child : Z) (ts : list (option Files.ofptr)) f : Prop :=
  exists w, copied_from (Files.cur f0) child ts 0 (Files.set_world w (with_filetable child f0)) f.

(** The tables of a process that can be copied. *)
Record copyable f (ts : list (option Files.ofptr)) : Prop := {
  cp_table : Files.ftables f !! Files.cur f = Some ts;
  cp_length : length ts = 128%nat;
  cp_valid q : Some q ∈ ts -> exists o, Files.lookup_of f q = Some o;
  cp_counts q o : Files.lookup_of f q = Some o -> 0 <= ref_count o /\ ref_count o + 128 < 2 ^ 32 }.

Lemma thread_fork_spec f0 child ts f :
  machine_total (W := W) -> child <> Files.cur f0 -> copyable f0 ts -> only_machine f0 f ->
  exists e f', thread_fork child f = Ret e f' /\ if e =? 0 then shares f0 child ts f' else only_machine f0 f'.
Proof.
  intros Ht Hne [C1 C2 C3 C4] [w ->].
  assert (Hw : wp (thread_fork child) (fun e f' => if e =? 0 then shares f0 child ts f' else only_machine f0 f')
                 (Files.set_world w f0)).
  { destruct (mt_thread Ht w) as (e & w' & E). unfold thread_fork, machine.
    rewrite wp_bind, (wp_eq _ _ _ _ _ (file_world_eq _ (Files.set_world w f0) _ _ E)).
    destruct (Z.eqb_spec e 0) as [->|He]; cbn [negb].
    2: { rewrite wp_ret. destruct (Z.eqb_spec e 0); [done|]. by exists w'. }
    rewrite wp_bind. unfold new_filetable. rewrite wp_modify, wp_bind, wp_get, wp_bind.
    set (f1 := Files.set_world w' (with_filetable child f0)).
    change (Files.set_ftables _ _) with f1.
    eapply wp_mono; [|apply (copy_table_spec _ _ _ 0 ts (replicate 128 None))]; try done.
    - cbv beta. intros _ f' Hc. rewrite wp_ret. by exists w'.
    - unfold f1. cbn. by rewrite lookup_insert_ne.
    - unfold f1. cbn -[replicate]. by rewrite lookup_insert_eq. }
  unfold wp in Hw. destruct (thread_fork child _) as [e f'|?|?|]; [|done..]. eauto.
Qed.

Lemma kernel_memory f0 : machine_total (W := W) -> kmalloc_ok (W := Files.files W) (only_machine f0).
Proof.
  intros Ht f Hf. destruct (machine_total_op (Files.kmalloc false) is_Some f0 f) as (a & f' & E & Ho & [b ->]); [|done|by eauto].
  intros w. destruct (mt_kmalloc Ht w) as (a & w' & E). eauto.
Qed.

Lemma kernel_total f0 child ts :
  machine_total (W := W) -> child <> Files.cur f0 -> copyable f0 ts ->
  env_total (W := Files.files W) (only_machine f0) (shares f0 child ts) False child.
Proof.
  intros Ht Hne Hc. split.
  - by apply kmalloc_ok_total, kernel_memory.
  - intros v f Hf. destruct (machine_total_op (m_incref v) (fun _ => True) f0 f) as ([] & f' & E & Ho & _); [|done|by eauto].
    intros w. destruct (mt_incref Ht v w) as (w' & E). eauto.
  - intros v f Hf. destruct (machine_total_op (m_decref v) (fun _ => True) f0 f) as ([] & f' & E & Ho & _); [|done|by eauto].
    intros w. destruct (mt_decref Ht v w) as (w' & E). eauto.
  - intros a f Hf. destruct (machine_total_op (m_as_destroy a) (fun _ => True) f0 f) as ([] & f' & E & Ho & _); [|done|by eauto].
    intros w. destruct (mt_as_destroy Ht a w) as (w' & E). eauto.
  - intros a f Hf. destruct (machine_total_op (m_as_copy a) (fun _ => True) f0 f) as (r & f' & E & Ho & _); [|done|by eauto].
    intros w. destruct (mt_as_copy Ht a w) as (r & w' & E). eauto.
  - intros n f Hf. destruct (machine_total_op (m_array_room n) (fun b => b = true) f0 f) as (b & f' & E & Ho & ->); [|done|by eauto 10].
    intros w. destruct (mt_room Ht n w) as (w' & E). eauto.
  - intros f Hf. by apply thread_fork_spec.
Qed.

(** ** Entering the kernel *)

(** The state in which the handler of a call runs. *)
Definition entered s (p : Z) : kernel (W := W) := set_world (run_by p (Proc.me s) (Proc.world s)) s.

Lemma enter_bind {A} (m : K (kernel (W := W)) A) s p :
  Proc.t_proc s !! Proc.me s = Some (Some p) -> (enter;; m) s = m (entered s p).
Proof.
  intros Hp. unfold enter.
  assert (Hc : Proc.the_curproc s = Ret p s) by (unfold Proc.the_curproc, Proc.curproc; kunfold; by rewrite Hp).
  unfold mbind, K_bind. by rewrite Hc.
Qed.

Lemma only_machine_gives_up x f0 f :
  machine_total (W := W) -> only_machine f0 f -> exists f', gives_up (W := Files.files W) x f f' /\ only_machine f0 f'.
Proof.
  intros Ht Hf. unfold gives_up.
  assert (H1 : exists f1, match Proc.p_cwd x with Some v => VOP_DECREF v f = Ret tt f1 | None => f1 = f end /\ only_machine f0 f1).
  { destruct (Proc.p_cwd x) as [v|]; [|by exists f].
    destruct (machine_total_op (m_decref v) (fun _ => True) f0 f) as ([] & f1 & E & Ho & _); [|done|by exists f1].
    intros w. destruct (mt_decref Ht v w) as (w' & E). eauto. }
  destruct H1 as (f1 & E1 & Hf1).
  assert (H2 : exists f2, match Proc.p_addrspace x with Some a => as_destroy a f1 = Ret tt f2 | None => f2 = f1 end /\ only_machine f0 f2).
  { destruct (Proc.p_addrspace x) as [a|]; [|by exists f1].
    destruct (machine_total_op (m_as_destroy a) (fun _ => True) f0 f1) as ([] & f2 & E & Ho & _); [|done|by exists f2].
    intros w. destruct (mt_as_destroy Ht a w) as (w' & E). eauto. }
  destruct H2 as (f2 & E2 & Hf2). exists f2. split; [by exists f1|done].
Qed.

(** ** Calls as the program sees them *)

Definition user_call (tf : trapframe) (c : call) : K (kernel (W := W)) view :=
  map_result (seen c) (syscall (encode c tf)).

Lemma user_call_eq tf c s :
  well_typed c -> word32 (tf_sp tf) -> user_call tf c s = map_result (narrow c) (perform tf c) s.
Proof. intros Hc Htf. by apply dispatch_refines. Qed.

(** The files of a running process: all open, with free locks, no two descriptors the
    same. *)
Record healthy f (ts : list (option Files.ofptr)) : Prop := {
  hl_copyable : copyable f ts;
  hl_distinct : distinct ts;
  hl_open j p : ts !! j = Some (Some p) -> exists o, Files.lookup_of f p = Some o /\
    (exists l, file_lock o = Some l /\ Files.locks f !! l = Some (Synch.Lock None [])) /\ is_Some (vn o) /\ 1 <= ref_count o }.

Lemma refs_pos p (ts : list (option Files.ofptr)) j : ts !! j = Some (Some p) -> 1 <= Files.refs p ts.
Proof.
  intros Hj. apply list_elem_of_lookup_2, list_elem_of_split in Hj as (t1 & t2 & ->).
  unfold Files.refs. rewrite filter_app, filter_cons_True, length_app by done. cbn. lia.
Qed.

(** The child closes all its files: the parent keeps its table, of orphans. *)
Lemma child_closes f0 child ts f t :
  healthy f0 ts -> child <> Files.cur f0 -> shares f0 child ts f ->
  exists f', Files.close_all_files (run_by child t f) = Ret 0 f' /\
    Files.ftables f' !! Files.cur f0 = Some ts /\
    forall j p, ts !! j = Some (Some p) -> exists o, Files.lookup_of f' p = Some o /\ vn o = None /\
      exists l, file_lock o = Some l /\ Files.locks f' !! l = Some (Synch.Lock None []).
Proof.
  intros [[C1 C2 C3 C4] Hd Hop] Hne (w & E1 & E2 & E3 & E4 & E5 & E6 & E7).
  specialize (E6 (replicate 128 None)). rewrite take_0, drop_0 in E6. cbn [app] in E6.
  assert (Ht : Files.ftables (run_by child t f) !! child = Some ts).
  { apply E6. cbn -[replicate]. by rewrite lookup_insert_eq. }
  assert (Hsh : forall j p, ts !! j = Some (Some p) -> exists o, shared_file (run_by child t f) p o).
  { intros j p Hj. destruct (Hop j p Hj) as (o & Ho & (l & Hl & Hlk) & Hv & Hrc).
    exists (Files.set_ref_count (ref_count o + Files.refs p ts) o). split.
    - transitivity (Files.lookup_of f p); [by destruct p|]. rewrite E7, drop_0.
      transitivity ((fun o => Files.set_ref_count (ref_count o + Files.refs p ts) o) <$> Files.lookup_of f0 p); [by destruct p|].
      by rewrite Ho.
    - split; [exists l; split; [done|]; cbn; rewrite E1; exact Hlk|]. split; [done|].
      pose proof (refs_pos p ts j Hj). cbn. lia. }
  destruct (close_loop_shared 128 0 ts (run_by child t f) Ht C2 eq_refl Hd ltac:(intros j p _; apply Hsh))
    as (f' & Hc & H1 & H2 & H3 & H4 & H5 & H6 & H7).
  exists f'. split; [exact Hc|]. split.
  - rewrite H5 by done. cbn. rewrite E5 by done. cbn. by rewrite lookup_insert_ne.
  - intros j p Hj. destruct (Hsh j p Hj) as (o & Ho & (l & Hl & Hlk) & _). exists (orphan o).
    split; [by apply (H6 j p o); [lia|..]|]. split; [done|]. exists l. split; [done|]. by rewrite H2.
Qed.

(** The child exits. *)
Lemma child_exits tf s t child x code f' :
  word32 (tf_sp tf) -> int32 code -> running s child x -> Proc.t_proc s !! t = Some (Some child) ->
  Files.close_all_files (run_by child t (Proc.world s)) = Ret 0 f' ->
  user_call tf (Exit code) (switch_to t s) =
    Ret Gone (set_world f' (Proc.set_t_proc (<[t := None]> (Proc.t_proc s)) (upd child (zombie code x) (switch_to t s)))).
Proof.
  intros Htf Hcode Hrun Ht Hcl. rewrite user_call_eq by done. unfold perform, map_result. cbn [sys__exit kernel_calls].
  assert (E : (enter;; Proc.sys__exit code) (switch_to t s) =
    Ret tt (set_world f' (Proc.set_t_proc (<[t := None]> (Proc.t_proc s)) (upd child (zombie code x) (switch_to t s))))).
  { rewrite (enter_bind _ (switch_to t s) child Ht). by apply (sys__exit_eq (entered (switch_to t s) child) child x code f'). }
  unfold mbind, K_bind in *. by rewrite E.
Qed.

(** The parent of a child: what its [waitpid] needs. *)
Record parent_of s (parent child i : Z) (xp y : Proc.proc) : Prop := {
  po_wf : Proc.wf_table s;
  po_cur : Proc.t_proc s !! Proc.me s = Some (Some parent);
  po_parent : Proc.heap s !! parent = Some xp;
  po_child : Proc.heap s !! child = Some y;
  po_link : Proc.p_parent y = Some parent;
  po_pid : find_pid s i = Some child;
  po_min : Proc.PID_MIN <= i;
  po_apart : child <> parent /\ Proc.p_parent xp <> Some child /\ Proc.p_parent xp <> Some parent;
  po_children : exists l, Proc.p_children xp = Some l /\ l <> [] }.

Lemma waitpid_start_eq s parent child i xp y :
  parent_of s parent child i xp y ->
  Proc.sys_waitpid i 0 0 (entered s parent) =
    (st ← Proc.proc_wait child;
     s ← get;
     mret (match Proc.heap s !! child with Some x => Proc.p_pid x | None => m_freed_pid end, None)) (entered s parent).
Proof.
  intros [P1 P2 P3 P4 P5 P6 P7 (P8 & P9 & P10) (l & P11 & P12)].
  rewrite (waitpid_child (entered s parent) i 0 0 parent child y xp l) by (done || by left). reflexivity.
Qed.

Lemma parent_sleeps tf s parent child i xp y :
  word32 (tf_sp tf) -> parent_of s parent child i xp y -> running s child y ->
  user_call tf (Waitpid i 0 0) s = Block.
Proof.
  intros Htf Hp Hrun. pose proof (po_min _ _ _ _ _ _ Hp) as Hmin.
  pose proof (find_pid_Some s i child (po_wf _ _ _ _ _ _ Hp) (po_pid _ _ _ _ _ _ Hp)) as [Hi _].
  unfold Proc.MAX_PROC, Proc.PID_MIN in *.
  rewrite user_call_eq; [|by (split_and!; unfold int32, word32; lia)|done].
  unfold perform, map_result. cbn [sys_waitpid kernel_calls].
  assert (E : (enter;; Proc.sys_waitpid i 0 0) s = Block).
  { rewrite (enter_bind _ s parent (po_cur _ _ _ _ _ _ Hp)), (waitpid_start_eq _ _ _ _ _ _ Hp).
    unfold mbind, K_bind. by rewrite (proc_wait_blocks (entered s parent) child y Hrun). }
  unfold mbind, K_bind in *. by rewrite E.
Qed.

Lemma parent_reaps tf s parent child i xp code x :
  machine_total (W := W) -> word32 (tf_sp tf) -> parent_of s parent child i xp (zombie code x) ->
  is_Some (Proc.p_children x) -> Proc.kproc s <> Some child ->
  exists f' s', user_call tf (Waitpid i 0 0) s = Ret (Answer (inr 0)) s' /\ s' = destroyed child x f' (entered s parent) /\
    only_machine (run_by parent (Proc.me s) (Proc.world s)) f' /\ Proc.proc_search_pid i s' = Ret (inl ESRCH) s'.
Proof.
  intros Ht Htf Hp [l Hl] Hk. pose proof (po_min _ _ _ _ _ _ Hp) as Hmin.
  pose proof (find_pid_Some s i child (po_wf _ _ _ _ _ _ Hp) (po_pid _ _ _ _ _ _ Hp)) as [Hi (y & Hy & Hyp)].
  rewrite (po_child _ _ _ _ _ _ Hp) in Hy. injection Hy as <-. cbn in Hyp.
  unfold Proc.MAX_PROC, Proc.PID_MIN in *.
  destruct (only_machine_gives_up x (run_by parent (Proc.me s) (Proc.world s)) (Proc.world (entered s parent)) Ht)
    as (f' & Hg & Hf'); [by exists (Files.world (Proc.world s))|].
  exists f', (destroyed child x f' (entered s parent)). split; [|split; [done|split; [done|]]].
  - rewrite user_call_eq; [|by (split_and!; unfold int32, word32; lia)|done].
    unfold perform, map_result. cbn [sys_waitpid kernel_calls].
    assert (E : (enter;; Proc.sys_waitpid i 0 0) s = Ret (m_freed_pid, None) (destroyed child x f' (entered s parent))).
    { rewrite (enter_bind _ s parent (po_cur _ _ _ _ _ _ Hp)), (waitpid_start_eq _ _ _ _ _ _ Hp).
      run (proc_wait_eq (entered s parent) child x code f' l (Some parent)); try done.
      - unfold mbind, K_bind, get, mret, K_ret. cbn [Proc.heap destroyed set_world Proc.set_heap]. by rewrite lookup_delete_eq.
      - apply (po_child _ _ _ _ _ _ Hp).
      - apply (po_cur _ _ _ _ _ _ Hp).
      - destruct (po_apart _ _ _ _ _ _ Hp) as (Hne & _). congruence.
      - unfold Proc.MAX_PROC. lia. }
    unfold mbind, K_bind in *. by rewrite E.
  - apply search_gone; [done|]. cbn. rewrite Hyp. apply list_lookup_insert_eq.
    destruct (po_wf _ _ _ _ _ _ Hp) as (Hlen & _). lia.
Qed.

(** The parent with an orphaned descriptor. *)
Lemma orphan_read_write tf s parent fd buf size p o :
  word32 (tf_sp tf) -> Proc.t_proc s !! Proc.me s = Some (Some parent) ->
  Files.open_at (run_by parent (Proc.me s) (Proc.world s)) fd p o -> vn o = None -> 3 <= fd ->
  Files.bad_ptr buf = false -> word32 buf -> word32 size ->
  user_call tf (Read fd buf size) s = Ret (Answer (inl EINVAL)) (entered s parent) /\
  user_call tf (Write fd buf size) s = Ret (Answer (inl EINVAL)) (entered s parent).
Proof.
  intros Htf Hp Hop Hv Hfd Hb Hbuf Hsize. pose proof Hop as ([_ Hmax] & _). unfold Files.OPEN_MAX in Hmax.
  destruct (dispatch fd buf size (run_by parent (Proc.me s) (Proc.world s)) Hfd Hb) as [Er Ew].
  destruct (read_write_gone _ _ _ _ buf size Hop Hv) as [Gr Gw]. rewrite Gr in Er. rewrite Gw in Ew.
  split; (rewrite user_call_eq; [|by (split_and!; [unfold int32; lia|done|done])|done]); unfold perform, map_result;
    cbn [sys_read sys_write kernel_calls]; unfold in_files.
  - assert (E : (enter;; zoom Proc.world_lens (Files.sys_read fd buf size)) s = Ret (-1, Some EINVAL) (entered s parent)).
    { rewrite (enter_bind _ s parent Hp). by rewrite (proc_world_eq _ (entered s parent) _ _ Er). }
    unfold mbind, K_bind in *. by rewrite E.
  - assert (E : (enter;; zoom Proc.world_lens (Files.sys_write fd buf size)) s = Ret (-1, Some EINVAL) (entered s parent)).
    { rewrite (enter_bind _ s parent Hp). by rewrite (proc_world_eq _ (entered s parent) _ _ Ew). }
    unfold mbind, K_bind in *. by rewrite E.
Qed.

(** A process that cannot close its files panics when it exits. *)
Lemma exit_panics tf s parent code f' :
  word32 (tf_sp tf) -> int32 code -> Proc.t_proc s !! Proc.me s = Some (Some parent) ->
  Files.close_all_files (run_by parent (Proc.me s) (Proc.world s)) = Ret (-1) f' ->
  user_call tf (Exit code) s = Panic "Problem closing open file of curproc.".
Proof.
  intros Htf Hcode Hp Hcl. rewrite user_call_eq by done. unfold perform, map_result. cbn [sys__exit kernel_calls].
  assert (E : (enter;; Proc.sys__exit code) s = Panic "Problem closing open file of curproc.").
  { rewrite (enter_bind _ s parent Hp). unfold Proc.sys__exit.
    assert (Hc : Proc.the_curproc (entered s parent) = Ret parent (entered s parent))
      by (unfold Proc.the_curproc, Proc.curproc; kunfold; cbn; by rewrite Hp).
    run Hc. by run (proc_world_eq Files.close_all_files (entered s parent) _ _ Hcl). }
  unfold mbind, K_bind in *. by rewrite E.
Qed.

(** A running process ready to fork, and what the allocators will answer: the child's
    structure at [child], identifier [i]. *)
Record can_fork s (parent child i : Z) (xp : Proc.proc) : Prop := {
  cf_wf : Proc.wf_table s;
  cf_cur : Proc.t_proc s !! Proc.me s = Some (Some parent);
  cf_parent : Proc.heap s !! parent = Some xp;
  cf_children : is_Some (Proc.p_children xp);
  cf_apart : Proc.p_parent xp <> Some parent /\ Proc.p_parent xp <> Some child;
  cf_pid : Proc.p_pid xp < Proc.MAX_PROC;
  cf_free : Proc.first_free (Proc.table s) (Proc.circ (Proc.last_i s)) = Some i;
  cf_min : Proc.PID_MIN <= i;
  cf_child : exists w, Files.kmalloc false (Files.world (Proc.world s)) = Ret (Some child) w;
  cf_new : Proc.heap s !! child = None /\ Proc.kproc s <> Some child }.

Definition thread_of_fork s : Z := fresh (dom (Proc.t_proc s)).

(** The state after a fork that answered the child's identifier. *)
Definition family s (parent child i : Z) (xp : Proc.proc) (ts : list (option Files.ofptr)) s1 : Prop :=
  forked (shares (run_by parent (Proc.me s) (Proc.world s)) child ts) False
    (entered s parent) parent child (thread_of_fork s) i xp s1.

Lemma parent_forks tf s parent child i xp ts :
  machine_total (W := W) -> word32 (tf_sp tf) -> can_fork s parent child i xp ->
  copyable (run_by parent (Proc.me s) (Proc.world s)) ts ->
  wp (user_call tf Fork) (fun v s1 => v = Answer (inr i) -> family s parent child i xp ts s1) s.
Proof.
  intros Ht Htf [C1 C2 C3 [l0 C4] [C5 C5'] C6 C7 C8 [w C9] [C10 C11]] Hcp.
  pose proof C7 as [Hi _]%first_free_Some. apply circ_range in Hi as [Hi _]; [|apply C1].
  unfold Proc.MAX_PROC, Proc.PID_MIN in Hi, C8.
  set (f0 := run_by parent (Proc.me s) (Proc.world s)) in *. set (t := thread_of_fork s).
  assert (Hnt : t <> Proc.me s).
  { intros E. apply (is_fresh (dom (Proc.t_proc s))). fold (thread_of_fork s). fold t. rewrite E.
    apply elem_of_dom. by rewrite C2. }
  assert (Hf : wp (enter;; t ← new_thread; Proc.sys_fork t)
            (fork_outcome (only_machine f0) (shares f0 child ts) False (entered s parent) parent child t i xp (Some (Synch.Semaphore 0 [])) (Some [])) s).
  { unfold wp at 1. rewrite (enter_bind _ s parent C2).
    change (wp (Proc.sys_fork t)
      (fork_outcome (only_machine f0) (shares f0 child ts) False (entered s parent) parent child t i xp (Some (Synch.Semaphore 0 [])) (Some [])) (entered s parent)).
    eapply (fork_spec _ _ _ (entered s parent) parent xp l0 child t i (Files.set_world w f0)); try done.
    - apply kernel_total; [done| |done]. cbn. intros ->. congruence.
    - by apply kernel_memory.
    - by exists (Files.world (Proc.world s)).
    - by apply (file_world_eq (Files.kmalloc false) f0). }
  unfold wp in *. rewrite user_call_eq by done. unfold perform, map_result. cbn [sys_fork kernel_calls].
  unfold mbind at 1 2, K_bind. destruct ((enter;; t ← new_thread; Proc.sys_fork t) s) as [[err rv] s1|?|?|]; [|done..].
  cbn. intros [= Hv]. destruct Hf as [(_ & _ & Hf)|(Hr & _)]; [exact Hf|exfalso].
  assert (Hs32 : s32 i = i) by (apply s32_small; lia).
  assert (Hrv : err = -1 /\ (rv = EINVAL \/ rv = ENOMEM) \/ rv = -1).
  { unfold refusal in Hr. destruct (i <? Proc.PID_MIN); [injection Hr; auto|].
    destruct Hr as [[[= He Hr] _]|(? & ? & ? & ? & _ & _ & [= _ Hr])]; auto. }
  destruct (Z.ltb_spec err 0).
  - destruct (Z.eqb_spec rv 0) as [->|]; [|done]. by destruct Hrv as [(_ & [?|?])|?].
  - destruct (err =? 0); [|done]. cbn in Hv. injection Hv as Hv. destruct Hrv as [[-> _]| ->]; [lia|].
    change (s32 (-1)) with (-1) in Hv. lia.
Qed.

(** What is known when the child runs, and after its exit. *)
Lemma family_runs s parent child i xp ts s1 :
  can_fork s parent child i xp -> family s parent child i xp ts s1 ->
  child <> parent /\ Proc.me s1 = Proc.me s /\ Proc.t_proc s1 !! thread_of_fork s = Some (Some child) /\
  Proc.t_proc s1 !! Proc.me s = Some (Some parent) /\ thread_of_fork s <> Proc.me s /\
  shares (run_by parent (Proc.me s) (Proc.world s)) child ts (Proc.world s1) /\
  exists xp' x, running s1 child x /\ is_Some (Proc.p_children x) /\ parent_of s1 parent child i xp' x.
Proof.
  intros [C1 C2 C3 _ [C5 C5'] _ C7 C8 _ [C10 C11]] Hf.
  assert (Hpc : child <> parent) by congruence.
  assert (Hnt : thread_of_fork s <> Proc.me s).
  { intros E. apply (is_fresh (dom (Proc.t_proc s))). fold (thread_of_fork s). rewrite E.
    apply elem_of_dom. by rewrite C2. }
  destruct (forked_child _ _ (entered s parent) parent child (thread_of_fork s) i xp s1 C1 C7 C3 C10 C11 Hf)
    as (Hwf & Hfind & a & l0 & l & _ & Hl & Hp & Hrun).
  destruct Hf as (Hsh & _ & Hme & _ & _ & Htp & _). cbn in Hme, Htp.
  assert (Hne : l <> []) by (destruct Hl as [->|[_ []]]; by destruct l0).
  assert (Hcur : Proc.t_proc s1 !! Proc.me s = Some (Some parent)) by (by rewrite Htp, lookup_insert_ne).
  split_and!; try done; [by rewrite Htp, lookup_insert_eq|].
  eexists _, _. split; [exact Hrun|]. split; [by eexists|]. destruct Hrun as (Hx & _).
  split; try done; [by rewrite Hme|]. by exists l.
Qed.

(** The child is a zombie, and its parent runs. *)
Lemma parent_of_zombie s1 parent child i xp x code t f' me0 :
  parent_of s1 parent child i xp x -> t <> me0 -> Proc.t_proc s1 !! me0 = Some (Some parent) ->
  parent_of (switch_to me0 (set_world f' (Proc.set_t_proc (<[t := None]> (Proc.t_proc s1))
                                            (upd child (zombie code x) (switch_to t s1)))))
    parent child i xp (zombie code x).
Proof.
  intros [(W1 & W2 & W3 & W4 & W5) _ P3 P4 P5 P6 P7 P8 P9] Ht Hme. pose proof P8 as (Hpc & _). split; try done.
  - split; [done|split; [done|split; [done|split; [done|]]]]. intros j q Hj. destruct (W5 j q Hj) as (y & Hy & Hyp). cbn.
    destruct (decide (q = child)) as [->|].
    + rewrite lookup_insert_eq. eexists. split; [done|]. cbn. congruence.
    + rewrite lookup_insert_ne by done. eauto.
  - cbn. by rewrite lookup_insert_ne.
  - cbn. by rewrite lookup_insert_ne.
  - cbn. by rewrite lookup_insert_eq.
Qed.

(** C1. A session of a shell: [fork], the child's [_exit], [waitpid].  When [fork] has
    answered the child's identifier, the parent's [waitpid] sleeps while the child runs;
    the child can exit; then [waitpid] returns at once and the child is gone from the
    process table - but the program gets 0, not the identifier.  From then on every file
    the parent had open before the fork is lost: reading and writing answer EINVAL,
    and the parent's own [_exit] panics the kernel. *)
Theorem fork_exit_wait tf s parent child i xp ts code fd p :
  machine_total (W := W) -> word32 (tf_sp tf) -> int32 code ->
  can_fork s parent child i xp -> healthy (run_by parent (Proc.me s) (Proc.world s)) ts ->
  3 <= fd -> ts !! Z.to_nat fd = Some (Some p) ->
  wp (user_call tf Fork) (fun v s1 => v = Answer (inr i) ->
    user_call tf (Waitpid i 0 0) s1 = Block /\
    exists s2 s3, user_call tf (Exit code) (switch_to (thread_of_fork s) s1) = Ret Gone s2 /\
      user_call tf (Waitpid i 0 0) (switch_to (Proc.me s) s2) = Ret (Answer (inr 0)) s3 /\
      Proc.proc_search_pid i s3 = Ret (inl ESRCH) s3 /\
      (forall buf size, Files.bad_ptr buf = false -> word32 buf -> word32 size ->
         user_call tf (Read fd buf size) s3 = Ret (Answer (inl EINVAL)) (entered s3 parent) /\
         user_call tf (Write fd buf size) s3 = Ret (Answer (inl EINVAL)) (entered s3 parent)) /\
      forall code', int32 code' ->
        user_call tf (Exit code') s3 = Panic "Problem closing open file of curproc.") s.
Proof.
  intros Ht Htf Hcode Hcf Hh Hfd Hp. eapply wp_mono; [|apply parent_forks; [done|done|exact Hcf|apply Hh]].
  cbv beta. intros v s1 Hfam Hv. specialize (Hfam Hv).
  destruct (family_runs _ _ _ _ _ _ _ Hcf Hfam) as (Hpc & Hme & Htc & Htp & Hnt & Hsh & xp' & x & Hrun & Hch & Hpo).
  set (t := thread_of_fork s) in *. set (f0 := run_by parent (Proc.me s) (Proc.world s)) in *.
  split; [by eapply parent_sleeps|].
  destruct (child_closes f0 child ts (Proc.world s1) t Hh Hpc Hsh) as (f' & Hcl & Hts & Hor).
  eexists. pose proof (parent_of_zombie s1 parent child i xp' x code t f' (Proc.me s) Hpo Hnt Htp) as Hpo2.
  set (s2 := set_world f' _) in *.
  destruct (parent_reaps tf (switch_to (Proc.me s) s2) parent child i xp' code x Ht Htf Hpo2 Hch)
    as (f3 & s3 & Hw & Es3 & Hf3 & Hgone); [by destruct Hrun as (_ & _ & _ & _ & _ & _ & _ & ?)|].
  exists s3. split; [by apply (child_exits tf s1 t child x code f')|]. split; [exact Hw|]. split; [exact Hgone|].
  destruct Hf3 as [w3 Ef3]. cbn in Ef3.
  assert (Hcur3 : Proc.t_proc s3 !! Proc.me s3 = Some (Some parent)) by (rewrite Es3; apply (po_cur _ _ _ _ _ _ Hpo2)).
  set (g := run_by parent (Proc.me s3) (Proc.world s3)) in *.
  assert (Eg : g = Files.set_world w3 (run_by parent (Proc.me s) f')) by (unfold g; rewrite Es3; cbn; by rewrite Ef3).
  assert (Htg : Files.ftables g !! Files.cur g = Some ts) by (rewrite Eg; exact Hts).
  assert (Horg : forall j q, ts !! j = Some (Some q) -> exists o, Files.lookup_of g q = Some o /\ vn o = None /\
     exists l, file_lock o = Some l /\ Files.locks g !! l = Some (Synch.Lock None [])).
  { intros j q Hj. rewrite Eg. destruct (Hor j q Hj) as (o & Ho & ?). exists o. split; [by destruct q|done]. }
  split.
  - intros buf size Hb Hbuf Hsize. destruct (Horg _ _ Hp) as (o & Ho & Hvn & Hlk).
    apply (orphan_read_write tf s3 parent fd buf size p o); try done.
    pose proof (lookup_lt_Some _ _ _ Hp) as Hlt. rewrite (cp_length _ _ (hl_copyable _ _ Hh)) in Hlt.
    split; [unfold Files.OPEN_MAX; lia|]. split; [|by split]. fold g.
    rewrite <-(Z2Nat.id fd) by lia. by eapply slot_lookup.
  - intros code' Hc'. destruct (close_loop_orphans 128 0 ts g Htg (cp_length _ _ (hl_copyable _ _ Hh)) eq_refl Horg)
      as (f4 & Hcl4); [exists (Z.to_nat fd), p; split; [lia|done]|].
    by apply (exit_panics tf s3 parent code' f4).
Qed.
End Kernel_facts.

(** ** A shell with one open file *)

Section Kernel_sample.
Import Kernel.
#[local] Existing Instance small_env.

#[local] Instance small_machine : MachineEnv small := {|
  m_freed_pid := 0xdeadbeef;
  m_incref _ := mret tt; m_decref _ := mret tt; m_as_deactivate := mret tt; m_as_destroy _ := mret tt;
  m_as_copy a := mret (0, a); m_array_room _ := mret true; m_thread_create := mret 0;
  m_reboot _ := mret 0; m_time _ _ := mret 0; m_chdir _ := mret (0, None); m_getcwd _ _ := mret (0, None);
  m_execv _ _ := mret (inl ENOENT); m_copyin_int _ := mret (inr 0) |}.

Lemma small_machine_total : machine_total.
Proof. split; intros; by repeat eexists. Qed.

(** The kernel process (identifier 1) and a shell (2), whose descriptor 3 is a file. *)
Definition the_shell : Proc.proc :=
  Proc.Process 1 (Some 7) None 0 2 false (Some (Synch.Semaphore 0 [])) None (Some []).
Definition small_kernel : kernel :=
  Proc.Procs ([None; Some 10; Some 1] ++ replicate 98 None) 2
    {[10 := Proc.Process 1 None None 0 1 false (Some (Synch.Semaphore 0 [])) None (Some []); 1 := the_shell]}
    (Some 10) true {[100 := Some 10; 101 := Some 1]} 101 (example file5).
Definition its_files : list (option Files.ofptr) := <[3%nat := Some (Files.OfSys 5)]> (replicate 128 None).
Definition its_frame : trapframe := Trapframe 0 0 0 0 0 0 0x7fffff00 0x400100 [].

Example fork_answers :
  match user_call its_frame Fork small_kernel with Ret v _ => v = Answer (inr 3) | _ => False end.
Proof. vm_compute. reflexivity. Qed.

Lemma small_can_fork : can_fork small_kernel 1 4096 3 the_shell.
Proof.
  split; try done.
  - split; [done|split; [done|split; [done|split; [done|]]]]. intros [|[|[|j]]] p Hj; try done.
    + injection Hj as <-. by eexists.
    + injection Hj as <-. by eexists.
    + by apply lookup_replicate in Hj as [? _].
  - by eexists.
Qed.

Lemma its_lookup j p : its_files !! j = Some (Some p) -> j = 3%nat /\ p = Files.OfSys 5.
Proof.
  unfold its_files. rewrite list_lookup_insert_Some. intros [(<- & [= ->] & _)|(_ & Hj)]; [done|].
  by apply lookup_replicate in Hj as [? _].
Qed.

Lemma its_files_healthy : healthy (run_by 1 101 (Proc.world small_kernel)) its_files.
Proof.
  split.
  - split; [done|done| |].
    + intros q (j & Hj)%list_elem_of_lookup. apply its_lookup in Hj as [_ ->]. by eexists.
    + intros q o Ho. assert (Ho' : Files.lookup_of (example file5) q = Some o) by (by destruct q).
      apply example_lookup in Ho' as [-> | ->]; cbn; lia.
  - intros i j p [-> _]%its_lookup [-> _]%its_lookup. done.
  - intros j p [_ ->]%its_lookup. exists file5. split_and!; try done; by exists 77.
Qed.

Lemma fork_exit_wait_witness :
  wp (user_call its_frame Fork) (fun v s1 => v = Answer (inr 3) ->
    exists s2 s3, user_call its_frame (Exit 0) (switch_to (thread_of_fork small_kernel) s1) = Ret Gone s2 /\
      user_call its_frame (Waitpid 3 0 0) (switch_to 101 s2) = Ret (Answer (inr 0)) s3 /\
      user_call its_frame (Exit 0) s3 = Panic "Problem closing open file of curproc.") small_kernel.
Proof.
  eapply wp_mono; [|apply (fork_exit_wait its_frame small_kernel 1 4096 3 the_shell its_files 0 3 (Files.OfSys 5)
    small_machine_total ltac:(by split) ltac:(by split) small_can_fork its_files_healthy ltac:(lia) eq_refl)].
  intros v s1 Hs Hv. destruct (Hs Hv) as (_ & s2 & s3 & H1 & H2 & _ & _ & H3).
  exists s2, s3. split; [exact H1|split; [exact H2|apply H3; by split]].
Defined.
End Kernel_sample.
