(* ===== verification/Sfs.v ===== *)
(** * The file system SFS: blocks and files
    ([kern/fs/sfs/sfs_balloc.c], [sfs_bmap.c], [sfs_io.c])

    A file is an inode that names its blocks, fifteen directly and 128 through an
    indirect block; a bitmap tells which blocks of the volume are in use.  [sfs_bmap]
    finds and allocates, [sfs_itrunc] frees, [sfs_metaio] reads and writes inside a
    block.  The abstraction is the file's bytes, a function of the position
    ([file_byte]), where blocks that do not exist read as zeros.

    The bitmap is the interface [FreeMap], the disk the interface [Disk].  The code runs
    under the file systems' global lock, so each operation is one step; its static
    buffers are overwritten before they are used, and are local here. *)
From S2P Require Import Prelude Bitmap.

Definition SFS_BLOCKSIZE : Z := 512.

(** The device: blocks of [SFS_BLOCKSIZE] bytes.  A transfer gives an error code and what its
    descriptor has then: the bytes read, or those not yet written.  One that fails has left
    the block as it was, or has written all of it, and a write that fails has left its
    descriptor as it was, for another try ([Lhd] is about what happens otherwise).  For a
    block of the device there is no [EINVAL], and [ENOENT], about names, is no answer of it. *)
Class Disk (D : Type) := {
  dev_blocks : Z;
  dev_block : D -> Z -> list Z;
  dev_read : Z -> K D (Z * list Z);
  dev_write : Z -> list Z -> K D (Z * list Z);
  (** states in which it can work; what transfers do to the rest of its state *)
  dev_ok : D -> Prop;
  dev_step : D -> D -> Prop;
  dev_step_preorder : PreOrder dev_step;
  dev_step_ok d d' : dev_ok d -> dev_step d d' -> dev_ok d';
  dev_blocks_fit : dev_blocks <= 2 ^ 32;
  dev_block_ok d b : length (dev_block d b) = 512%nat /\ Forall is_byte (dev_block d b);
  dev_read_spec d b : dev_ok d -> 0 <= b < dev_blocks -> wp (dev_read b) (fun r d' => dev_step d d' /\
    (forall b', dev_block d' b' = dev_block d b') /\ (r.1 = 0 -> r.2 = dev_block d b) /\ r.1 <> EINVAL /\ r.1 <> ENOENT) d;
  dev_write_spec d b l : dev_ok d -> 0 <= b < dev_blocks -> length l = 512%nat -> Forall is_byte l ->
    wp (dev_write b l) (fun r d' => dev_step d d' /\
    (forall b', b' <> b -> dev_block d' b' = dev_block d b') /\
    (dev_block d' b = l \/ r.1 <> 0 /\ dev_block d' b = dev_block d b) /\
    r.1 <> EINVAL /\ (r.1 <> 0 -> r.2 = l)) d }.
#[export] Existing Instance dev_step_preorder.

Module Sfs.
Definition SFS_NDIRECT : Z := 15.
Definition SFS_DBPERIDB : Z := 128.
Definition SFS_NINDIRECT : Z := 1.
Inductive rw := UIO_READ | UIO_WRITE.

Record dinode := Dinode {
  sfi_size : Z; sfi_type : Z; sfi_linkcount : Z; sfi_direct : list Z; sfi_indirect : Z }.

(** The volume and one open file of it. *)
Record sfs (B D : Type) := Volume {
  freemap : B; freemapdirty : bool; sb_nblocks : Z; device : D; sv_i : dinode; sv_dirty : bool }.
Arguments Volume {B D} _ _ _ _ _ _.
Arguments freemap {B D} _.
Arguments freemapdirty {B D} _.
Arguments sb_nblocks {B D} _.
Arguments device {B D} _.
Arguments sv_i {B D} _.
Arguments sv_dirty {B D} _.

(** The words of an indirect block, big-endian. *)
Definition word_of (l : list Z) (j : Z) : Z := be_val (take 4 (drop (4 * Z.to_nat j) l)).
Definition words_of (l : list Z) : list Z := word_of l <$> seqZ 0 SFS_DBPERIDB.
Definition bytes_of (ws : list Z) : list Z := concat (be_bytes 4 <$> ws).

Section ops.
Context {B D : Type} {FM : FreeMap B} {DK : Disk D}.

Definition set_freemap (m : B) (s : sfs B D) : sfs B D :=
  Volume m (freemapdirty s) (sb_nblocks s) (device s) (sv_i s) (sv_dirty s).
Definition mark_freemap (s : sfs B D) : sfs B D :=
  Volume (freemap s) true (sb_nblocks s) (device s) (sv_i s) (sv_dirty s).
Definition set_device (d : D) (s : sfs B D) : sfs B D :=
  Volume (freemap s) (freemapdirty s) (sb_nblocks s) d (sv_i s) (sv_dirty s).
(** The inode is changed and marked dirty. *)
Definition set_inode (i : dinode) (s : sfs B D) : sfs B D :=
  Volume (freemap s) (freemapdirty s) (sb_nblocks s) (device s) i true.
Definition map_lens : lens (sfs B D) B := Lens freemap set_freemap.
Definition dev_lens : lens (sfs B D) D := Lens device set_device.

Definition set_direct (fb b : Z) (i : dinode) : dinode :=
  Dinode (sfi_size i) (sfi_type i) (sfi_linkcount i) (<[Z.to_nat fb := b]> (sfi_direct i)) (sfi_indirect i).
Definition set_indirect (b : Z) (i : dinode) : dinode :=
  Dinode (sfi_size i) (sfi_type i) (sfi_linkcount i) (sfi_direct i) b.
Definition set_size (n : Z) (i : dinode) : dinode :=
  Dinode n (sfi_type i) (sfi_linkcount i) (sfi_direct i) (sfi_indirect i).

(** ** Block I/O *)

(** [sfs_rwblock]: the transfer [io] of the descriptor [uio], with [n] more tries. *)
Fixpoint sfs_rwblock {S U} (n : nat) (io : U -> K S (Z * U)) (uio : U) : K S (Z * U) :=
  '(result, uio) ← io uio;
  if result =? EINVAL then panic "sfs: DEVOP_IO returned EINVAL" else
  if result =? EIO then
    match n with
    | O => mret (result, uio)
    | S n => sfs_rwblock n io uio
    end
  else mret (result, uio).
Definition MAX_TRIES : nat := 10.

Definition sfs_readblock (block : Z) : K (sfs B D) (Z * list Z) :=
  zoom dev_lens (sfs_rwblock MAX_TRIES (fun _ => dev_read block) []).
Definition sfs_writeblock (block : Z) (data : list Z) : K (sfs B D) Z :=
  '(result, _) ← zoom dev_lens (sfs_rwblock MAX_TRIES (dev_write block) data);
  mret result.

(** ** Block allocation *)

Definition zeros : list Z := replicate (Z.to_nat SFS_BLOCKSIZE) 0.
Definition sfs_clearblock (block : Z) : K (sfs B D) Z := sfs_writeblock block zeros.

(** Error code and [*diskblock]. *)
Definition sfs_balloc : K (sfs B D) (Z * Z) :=
  '(result, i) ← zoom map_lens fm_alloc;
  if negb (result =? 0) then mret (result, 0) else
  diskblock ← deref i "*diskblock";
  modify mark_freemap;;
  s ← get;
  if sb_nblocks s <=? diskblock then panic "sfs: balloc: invalid block" else
  result ← sfs_clearblock diskblock;
  (if negb (result =? 0) then zoom map_lens (fm_unmark diskblock) else mret tt);;
  mret (result, diskblock).

Definition sfs_bfree (diskblock : Z) : K (sfs B D) () :=
  zoom map_lens (fm_unmark diskblock);; modify mark_freemap.

Definition sfs_bused (diskblock : Z) : K (sfs B D) Z :=
  s ← get;
  if sb_nblocks s <=? diskblock then panic "sfs: sfs_bused called on out of range block" else
  zoom map_lens (fm_isset diskblock).

(** ** [sfs_bmap] *)

(** The end: a block handed back has to be marked in use. *)
Definition hand_back (block : Z) : K (sfs B D) (Z * Z) :=
  if negb (block =? 0) then
    used ← sfs_bused block;
    if used =? 0 then panic "sfs: Data block marked free" else mret (0, block)
  else mret (0, block).

(** Error code and [*diskblock]. *)
Definition sfs_bmap (fileblock : Z) (doalloc : bool) : K (sfs B D) (Z * Z) :=
  s ← get;
  if fileblock <? SFS_NDIRECT then
    block ← deref (sfi_direct (sv_i s) !! Z.to_nat fileblock) "sfi_direct[fileblock]";
    if (block =? 0) && doalloc then
      '(result, block) ← sfs_balloc;
      if negb (result =? 0) then mret (result, 0) else
      modify (fun s => set_inode (set_direct fileblock block (sv_i s)) s);;
      hand_back block
    else hand_back block
  else
  let fileblock := fileblock - SFS_NDIRECT in
  let idnum := fileblock / SFS_DBPERIDB in
  let idoff := fileblock mod SFS_DBPERIDB in
  if SFS_NINDIRECT <=? idnum then mret (EFBIG, 0) else
  let idblock := sfi_indirect (sv_i s) in
  if (idblock =? 0) && negb doalloc then mret (0, 0) else
  '(result, idblock, idbuf) ←
    (if idblock =? 0 then
       '(result, idblock) ← sfs_balloc;
       if negb (result =? 0) then mret (result, 0, []) else
       modify (fun s => set_inode (set_indirect idblock (sv_i s)) s);;
       mret (0, idblock, replicate (Z.to_nat SFS_DBPERIDB) 0)
     else
       '(result, data) ← sfs_readblock idblock;
       mret (result, idblock, words_of data) : K (sfs B D) (Z * Z * list Z));
  if negb (result =? 0) then mret (result, 0) else
  block ← deref (idbuf !! Z.to_nat idoff) "idbuf[idoff]";
  if (block =? 0) && doalloc then
    '(result, block) ← sfs_balloc;
    if negb (result =? 0) then mret (result, 0) else
    result ← sfs_writeblock idblock (bytes_of (<[Z.to_nat idoff := block]> idbuf));
    if negb (result =? 0) then mret (result, 0) else
    hand_back block
  else hand_back block.

(** ** [sfs_itrunc] *)

(** The loop over the direct blocks from [i], [n] left. *)
Fixpoint trunc_direct (n : nat) (i blocklen : Z) : K (sfs B D) () :=
  match n with
  | O => mret tt
  | S n =>
      s ← get;
      block ← deref (sfi_direct (sv_i s) !! Z.to_nat i) "sfi_direct[i]";
      (if (blocklen <=? i) && negb (block =? 0) then
         sfs_bfree block;;
         modify (fun s => set_inode (set_direct i 0 (sv_i s)) s)
       else mret tt);;
      trunc_direct n (i + 1) blocklen
  end.

(** The loop over the entries of the indirect block from [j]: the buffer, whether it
    has a nonzero entry and whether it is dirty. *)
Fixpoint trunc_indirect (n : nat) (j blocklen : Z) (idbuf : list Z) (hasnonzero iddirty : bool)
    : K (sfs B D) (list Z * bool * bool) :=
  match n with
  | O => mret (idbuf, hasnonzero, iddirty)
  | S n =>
      e ← deref (idbuf !! Z.to_nat j) "idbuf[j]";
      '(idbuf, iddirty) ←
        (if (blocklen <? SFS_NDIRECT + j) && negb (e =? 0) then
           sfs_bfree e;; mret (<[Z.to_nat j := 0]> idbuf, true)
         else mret (idbuf, iddirty) : K (sfs B D) (list Z * bool));
      e ← deref (idbuf !! Z.to_nat j) "idbuf[j]";
      trunc_indirect n (j + 1) blocklen idbuf (hasnonzero || negb (e =? 0)) iddirty
  end.

Definition sfs_itrunc (len : Z) : K (sfs B D) Z :=
  let blocklen := u32 (Z.quot (len + SFS_BLOCKSIZE - 1) SFS_BLOCKSIZE) in
  trunc_direct (Z.to_nat SFS_NDIRECT) 0 blocklen;;
  s ← get;
  let idblock := sfi_indirect (sv_i s) in
  let baseblock := SFS_NDIRECT in
  let highblock := baseblock + SFS_DBPERIDB - 1 in
  result ←
    (if (blocklen <? highblock) && negb (idblock =? 0) then
       '(result, data) ← sfs_readblock idblock;
       if negb (result =? 0) then mret result else
       r ← trunc_indirect (Z.to_nat SFS_DBPERIDB) 0 blocklen (words_of data) false false;
       let '(idbuf, hasnonzero, iddirty) := r : list Z * bool * bool in
       if negb hasnonzero then
         sfs_bfree idblock;;
         modify (fun s => set_inode (set_indirect 0 (sv_i s)) s);;
         mret 0
       else if iddirty then sfs_writeblock idblock (bytes_of idbuf)
       else mret 0
     else mret 0 : K (sfs B D) Z);
  if negb (result =? 0) then mret result else
  modify (fun s => set_inode (set_size (u32 len) (sv_i s)) s);;
  mret 0.

(** ** [sfs_metaio] *)

(** [len] bytes at offset [off] of a buffer, and a buffer with [data] there. *)
Definition region (off len : Z) (buf : list Z) : list Z := take (Z.to_nat len) (drop (Z.to_nat off) buf).
Definition update (off : Z) (data buf : list Z) : list Z :=
  take (Z.to_nat off) buf ++ data ++ drop (Z.to_nat off + length data) buf.

(** For a read, [data] is the result; for a write, what is written. *)
Definition sfs_metaio (actualpos : Z) (data : list Z) (len : Z) (dir : rw) : K (sfs B D) (Z * list Z) :=
  let vnblock := u32 (Z.quot actualpos SFS_BLOCKSIZE) in
  let blockoffset := u32 (Z.rem actualpos SFS_BLOCKSIZE) in
  let doalloc := match dir with UIO_WRITE => true | UIO_READ => false end in
  '(result, diskblock) ← sfs_bmap vnblock doalloc;
  if negb (result =? 0) then mret (result, data) else
  if diskblock =? 0 then
    KASSERT (negb doalloc) "rw == UIO_READ";;
    mret (0, replicate (Z.to_nat len) 0)
  else
  '(result, metaiobuf) ← sfs_readblock diskblock;
  if negb (result =? 0) then mret (result, data) else
  match dir with
  | UIO_READ => mret (0, region blockoffset len metaiobuf)
  | UIO_WRITE =>
      result ← sfs_writeblock diskblock (update blockoffset data metaiobuf);
      if negb (result =? 0) then mret (result, data) else
      let endpos := actualpos + len in
      s ← get;
      (if sfi_size (sv_i s) <? endpos then modify (fun s => set_inode (set_size (u32 endpos) (sv_i s)) s)
       else mret tt);;
      mret (0, data)
  end.
End ops.
End Sfs.
Import Sfs.

(** ** Regions of a list of blocks of one length *)

Section uniform.
Context {A : Type}.
Implicit Types L : list (list A).

Lemma concat_split (n : nat) L k x : Forall (fun y => length y = n) L -> L !! k = Some x ->
  exists l1 l2, concat L = l1 ++ x ++ l2 /\ length l1 = (n * k)%nat /\
    forall y, concat (<[k := y]> L) = l1 ++ y ++ l2.
Proof.
  revert k. induction L as [|z L IH]; intros [|k]; [done|done| |]; cbn.
  - intros _ [= ->]. exists [], (concat L). split_and!; [done|cbn; lia|done].
  - intros [Hz HL]%Forall_cons Hk. destruct (IH k HL Hk) as (l1 & l2 & E & Hl & Hi).
    exists (z ++ l1), l2. rewrite length_app, Hl, Hz, E, <-app_assoc. split_and!; [done|lia|].
    intros y. by rewrite Hi, <-app_assoc.
Qed.
Lemma concat_length (n : nat) L : Forall (fun y => length y = n) L -> length (concat L) = (n * length L)%nat.
Proof. induction 1 as [|z L Hz _ IH]; cbn; [lia|]. rewrite length_app, IH, Hz. lia. Qed.
End uniform.

Section regions.
Context (n : nat) (L : list (list Z)) (HL : Forall (fun y => length y = n) L).

Lemma region_concat k x o len : L !! k = Some x -> 0 <= o -> 0 <= len -> o + len <= Z.of_nat n ->
  region (Z.of_nat n * Z.of_nat k + o) len (concat L) = region o len x.
Proof.
  intros Hk Ho Hlen Hn. destruct (concat_split n L k x HL Hk) as (l1 & l2 & -> & Hl & _).
  assert (length x = n) by (rewrite Forall_lookup in HL; eauto).
  unfold region. replace (Z.to_nat (Z.of_nat n * Z.of_nat k + o)) with (length l1 + Z.to_nat o)%nat by lia.
  rewrite drop_app_add'; [|done]. rewrite drop_app_le, take_app_le; [done| |lia]. rewrite length_drop. lia.
Qed.
Lemma update_concat k x o data : L !! k = Some x -> 0 <= o -> o + Z.of_nat (length data) <= Z.of_nat n ->
  update (Z.of_nat n * Z.of_nat k + o) data (concat L) = concat (<[k := update o data x]> L).
Proof.
  intros Hk Ho Hn. destruct (concat_split n L k x HL Hk) as (l1 & l2 & -> & Hl & ->).
  assert (length x = n) by (rewrite Forall_lookup in HL; eauto).
  unfold update. replace (Z.to_nat (Z.of_nat n * Z.of_nat k + o)) with (length l1 + Z.to_nat o)%nat by lia.
  rewrite <-Nat.add_assoc, drop_app_add', take_app_add' by done.
  rewrite drop_app_le, take_app_le by lia. by rewrite <-!app_assoc.
Qed.
End regions.

Lemma update_length o data l : 0 <= o -> o + Z.of_nat (length data) <= Z.of_nat (length l) -> length (update o data l) = length l.
Proof. intros. unfold update. rewrite !length_app, length_take, length_drop. lia. Qed.
Lemma update_bytes o data l : Forall is_byte data -> Forall is_byte l -> Forall is_byte (update o data l).
Proof. intros. unfold update. rewrite !Forall_app. split_and!; [by apply Forall_take|done|by apply Forall_drop]. Qed.

(** ** The words of an indirect block *)

Definition is_word (w : Z) : Prop := 0 <= w < 2 ^ 32.

Lemma words_length l : length (words_of l) = 128%nat.
Proof. unfold words_of. by rewrite length_fmap, length_seqZ. Qed.
Lemma words_lookup l (j : nat) : (j < 128)%nat -> words_of l !! j = Some (word_of l (Z.of_nat j)).
Proof. intros. unfold words_of. rewrite list_lookup_fmap, lookup_seqZ_lt by (unfold SFS_DBPERIDB; lia). done. Qed.
Lemma words_range l : Forall is_byte l -> Forall is_word (words_of l).
Proof.
  intros Hl. apply Forall_lookup. intros j w Hj. assert (Hj' := Hj). apply lookup_lt_Some in Hj'.
  rewrite words_length in Hj'. rewrite words_lookup in Hj by done. injection Hj as <-. unfold word_of, is_word.
  assert (Hb : Forall is_byte (take 4 (drop (4 * Z.to_nat (Z.of_nat j)) l))) by (by apply Forall_take, Forall_drop).
  pose proof (be_val_range _ Hb) as Hr. rewrite length_take in Hr.
  assert (256 ^ Z.of_nat (4 `min` length (drop (4 * Z.to_nat (Z.of_nat j)) l)) <= 256 ^ 4) by (apply Z.pow_le_mono_r; lia). lia.
Qed.
Lemma bytes_of_uniform ws : Forall (fun y : list Z => length y = 4%nat) (be_bytes 4 <$> ws).
Proof. apply Forall_fmap, Forall_true. intros w. apply be_bytes_length. Qed.
Lemma bytes_of_length ws : length ws = 128%nat -> length (bytes_of ws) = 512%nat.
Proof. intros Hw. unfold bytes_of. rewrite (concat_length 4), length_fmap by apply bytes_of_uniform. lia. Qed.
Lemma bytes_of_bytes ws : Forall is_byte (bytes_of ws).
Proof. unfold bytes_of. apply Forall_concat, Forall_fmap, Forall_true. intros w. apply be_bytes_byte. Qed.
Lemma words_of_bytes ws : length ws = 128%nat -> Forall is_word ws -> words_of (bytes_of ws) = ws.
Proof.
  intros Hl Hw. apply list_eq. intros j. destruct (decide (j < 128)%nat) as [Hj|Hj].
  2:{ rewrite !lookup_ge_None_2; [done|lia|rewrite words_length; lia]. }
  rewrite words_lookup by done. destruct (lookup_lt_is_Some_2 ws j) as [w Ew]; [lia|]. rewrite Ew. f_equal.
  assert (Ej : (be_bytes 4 <$> ws) !! j = Some (be_bytes 4 w)) by (by rewrite list_lookup_fmap, Ew).
  pose proof (region_concat 4 _ (bytes_of_uniform ws) j _ 0 4 Ej ltac:(lia) ltac:(lia) ltac:(lia)) as Hr.
  unfold region in Hr. cbn [Z.to_nat drop] in Hr. rewrite (take_ge (be_bytes 4 w)) in Hr by (by rewrite be_bytes_length).
  unfold word_of, bytes_of. replace (4 * Z.to_nat (Z.of_nat j))%nat with (Z.to_nat (Z.of_nat 4 * Z.of_nat j + 0)) by lia.
  change (Z.to_nat 4) with 4%nat in Hr. rewrite Hr, be_val_bytes. rewrite Forall_lookup in Hw. apply Z.mod_small. by apply (Hw j).
Qed.
Lemma words_of_zeros : words_of zeros = replicate 128 0.
Proof. vm_compute. reflexivity. Qed.

(** ** The block numbers of a file *)

(** Every nonzero number is a block of the volume, in use, and occurs once. *)
Record slots_ok (used : Z -> bool) (n : Z) (l : list Z) : Prop := {
  so_range : forall k b, l !! k = Some b -> b <> 0 -> 0 < b < n /\ used b = true;
  so_inj : forall i j b, l !! i = Some b -> l !! j = Some b -> b <> 0 -> i = j }.

Section slots.
Implicit Types (used : Z -> bool) (n b : Z) (l : list Z).

Lemma slots_mono used used' n l : (forall j, 0 <= j -> used j = true -> used' j = true) ->
  slots_ok used n l -> slots_ok used' n l.
Proof.
  intros Hu [Hr Hi]. split; [|done]. intros k b Hk Hb. destruct (Hr k b Hk Hb). split; [done|]. apply Hu; [lia|done].
Qed.
Lemma slots_insert used n l k b : slots_ok used n l -> 0 < b < n -> used b = true -> b ∉ l ->
  slots_ok used n (<[k := b]> l).
Proof.
  intros [Hr Hi] Hb Hu Hn. split.
  - intros i x [(<- & <- & _)|(_ & Hx)]%list_lookup_insert_Some Hx0; [done|by eapply Hr].
  - intros i j x Hx Hy Hx0. apply list_lookup_insert_Some in Hx as [(<- & <- & _)|(Hik & Hx)];
      apply list_lookup_insert_Some in Hy as [(<- & Ey & _)|(Hjk & Hy)]; try done.
    + by apply list_elem_of_lookup_2 in Hy.
    + subst. by apply list_elem_of_lookup_2 in Hx.
    + by eapply Hi.
Qed.
Lemma slots_clear used used' n l k b : slots_ok used n l -> l !! k = Some b -> b <> 0 ->
  (forall j, 0 <= j -> used' j = negb (b =? j) && used j) -> slots_ok used' n (<[k := 0]> l).
Proof.
  intros [Hr Hi] Hk Hb0 Hu. split.
  - intros i x [(<- & <- & _)|(Hik & Hx)]%list_lookup_insert_Some Hx0; [done|].
    destruct (Hr i x Hx Hx0) as [? Hux]. split; [done|]. rewrite Hu, Hux by lia.
    destruct (Z.eqb_spec b x) as [->|]; [|done]. by destruct (Hik (Hi _ _ _ Hk Hx Hx0)).
  - intros i j x Hx Hy Hx0. apply list_lookup_insert_Some in Hx as [(<- & <- & _)|(Hik & Hx)];
      apply list_lookup_insert_Some in Hy as [(<- & Ey & _)|(Hjk & Hy)]; try done. by eapply Hi.
Qed.
Lemma slots_fresh used n l b : slots_ok used n l -> used b = false -> b <> 0 -> b ∉ l.
Proof. intros [Hr _] Hu Hb [k Hk]%list_elem_of_lookup. destruct (Hr k b Hk Hb). congruence. Qed.
End slots.

Section theory.
Context {B D : Type} {FM : FreeMap B} {DK : Disk D}.
Implicit Types (s : sfs B D) (b : Z).

Definition used s b : bool := fm_used (freemap s) b.
Definition blk s b : list Z := dev_block (device s) b.
Definition ind_words s : list Z :=
  if sfi_indirect (sv_i s) =? 0 then replicate 128 0 else words_of (blk s (sfi_indirect (sv_i s))).
(** The disk block of each block of the file, and all the blocks it owns. *)
Definition refs s : list Z := sfi_direct (sv_i s) ++ ind_words s.
Definition slots s : list Z := sfi_indirect (sv_i s) :: refs s.
Definition block_data s b : list Z := if b =? 0 then zeros else blk s b.
Definition contents s : list (list Z) := block_data s <$> refs s.
(** The file as a list of bytes: its blocks in order, missing ones as zeros. *)
Definition file_bytes s : list Z := concat (contents s).
(** Blocks in use that do not belong to this file (0 in the inode means no block). *)
Definition foreign s b : Prop := used s b = true /\ 0 <= b /\ (b <> 0 -> b ∉ slots s).

Record volume_ok s : Prop := {
  vo_map : fm_ok (freemap s);
  vo_size : 0 < sb_nblocks s <= fm_size (freemap s);
  vo_tail : forall b, sb_nblocks s <= b < fm_size (freemap s) -> used s b = true;
  vo_zero : used s 0 = true;
  vo_ok : dev_ok (device s);
  vo_dev : sb_nblocks s <= dev_blocks (D:=D) }.
Record wf s : Prop := {
  wf_volume : volume_ok s;
  wf_direct : length (sfi_direct (sv_i s)) = 15%nat;
  wf_slots : slots_ok (used s) (sb_nblocks s) (slots s) }.

(** Steps that change no block in use and free none. *)
Record steady s s' : Prop := {
  st_inode : sv_i s' = sv_i s;
  st_n : sb_nblocks s' = sb_nblocks s;
  st_step : dev_step (device s) (device s');
  st_volume : volume_ok s';
  st_blk : forall b, 0 <= b -> used s b = true -> used s' b = true /\ blk s' b = blk s b }.
(** Steps that keep the file's bytes and everybody else's blocks. *)
Record extends s s' : Prop := {
  ex_wf : wf s';
  ex_contents : contents s' = contents s;
  ex_size : sfi_size (sv_i s') = sfi_size (sv_i s);
  ex_kind : sfi_type (sv_i s') = sfi_type (sv_i s);
  ex_n : sb_nblocks s' = sb_nblocks s;
  ex_step : dev_step (device s) (device s');
  ex_foreign : forall b, foreign s b -> foreign s' b /\ blk s' b = blk s b }.

Lemma blk_length s b : length (blk s b) = 512%nat.
Proof. apply dev_block_ok. Qed.
Lemma blk_bytes s b : Forall is_byte (blk s b).
Proof. apply dev_block_ok. Qed.
Lemma block_data_length s b : length (block_data s b) = 512%nat.
Proof. unfold block_data. case_match; [done|apply blk_length]. Qed.
Lemma block_data_bytes s b : Forall is_byte (block_data s b).
Proof. unfold block_data. case_match; [|apply blk_bytes]. by apply Forall_replicate. Qed.
Lemma contents_uniform s : Forall (fun y => length y = 512%nat) (contents s).
Proof. apply Forall_fmap, Forall_true. intros b. apply block_data_length. Qed.
Lemma ind_length s : length (ind_words s) = 128%nat.
Proof. unfold ind_words. case_match; [done|apply words_length]. Qed.
Lemma ind_range s : Forall is_word (ind_words s).
Proof. unfold ind_words. case_match; [by apply Forall_replicate|apply words_range, blk_bytes]. Qed.
Lemma refs_length s : wf s -> length (refs s) = 143%nat.
Proof. intros Hw. unfold refs. by rewrite length_app, ind_length, (wf_direct s Hw). Qed.
Lemma refs_direct s k : wf s -> (k < 15)%nat -> refs s !! k = sfi_direct (sv_i s) !! k.
Proof. intros Hw Hk. unfold refs. apply lookup_app_l. by rewrite (wf_direct s Hw). Qed.
Lemma refs_indirect s k : wf s -> refs s !! (15 + k)%nat = ind_words s !! k.
Proof. intros Hw. unfold refs. rewrite lookup_app_r; rewrite (wf_direct s Hw); [f_equal; lia|lia]. Qed.
Lemma refs_used s k b : wf s -> refs s !! k = Some b -> b <> 0 -> 0 < b < sb_nblocks s /\ used s b = true.
Proof. intros Hw Hk Hb. by apply (so_range _ _ _ (wf_slots s Hw) (S k)). Qed.
Lemma indirect_used s : wf s -> sfi_indirect (sv_i s) <> 0 ->
  0 < sfi_indirect (sv_i s) < sb_nblocks s /\ used s (sfi_indirect (sv_i s)) = true.
Proof. intros Hw Hb. by apply (so_range _ _ _ (wf_slots s Hw) O). Qed.
Lemma refs_not_indirect s k b : wf s -> refs s !! k = Some b -> b <> 0 -> b <> sfi_indirect (sv_i s).
Proof.
  intros Hw Hk Hb ->. by pose proof (so_inj _ _ _ (wf_slots s Hw) O (S k) _ eq_refl Hk Hb).
Qed.

Lemma contents_eq s s' : refs s' = refs s ->
  (forall b, b ∈ refs s -> b <> 0 -> blk s' b = blk s b) -> contents s' = contents s.
Proof.
  intros Hr Hb. unfold contents. rewrite Hr. apply list_fmap_ext. intros i b Hi. unfold block_data.
  destruct (Z.eqb_spec b 0); [done|]. apply Hb; [by eapply list_elem_of_lookup_2|done].
Qed.

Lemma steady_refl s : volume_ok s -> steady s s.
Proof. by split. Qed.
Lemma steady_ind s s' : wf s -> steady s s' -> ind_words s' = ind_words s.
Proof.
  intros Hw Hs. unfold ind_words. rewrite (st_inode _ _ Hs). destruct (Z.eqb_spec (sfi_indirect (sv_i s)) 0); [done|].
  destruct (indirect_used s Hw ltac:(done)). f_equal. apply (st_blk _ _ Hs); [lia|done].
Qed.
Lemma steady_refs s s' : wf s -> steady s s' -> refs s' = refs s.
Proof. intros Hw Hs. unfold refs. by rewrite (steady_ind s s'), (st_inode _ _ Hs). Qed.
Lemma steady_wf s s' : wf s -> steady s s' -> wf s'.
Proof.
  intros Hw Hs. split; [apply Hs|by rewrite (st_inode _ _ Hs); apply Hw|].
  unfold slots. rewrite (steady_refs s s'), (st_inode _ _ Hs), (st_n _ _ Hs) by done.
  apply (slots_mono (used s)); [|apply Hw]. intros j Hj. apply (st_blk _ _ Hs); done.
Qed.
Lemma steady_extends s s' : wf s -> steady s s' -> extends s s'.
Proof.
  intros Hw Hs. split.
  - by eapply steady_wf.
  - apply contents_eq; [by apply steady_refs|]. intros b [k Hk]%list_elem_of_lookup Hb.
    destruct (refs_used s k b Hw Hk Hb). apply (st_blk _ _ Hs); [lia|done].
  - by rewrite (st_inode _ _ Hs).
  - by rewrite (st_inode _ _ Hs).
  - apply Hs.
  - apply Hs.
  - intros b (Hu & Hb & Hn). destruct (st_blk _ _ Hs b Hb Hu). unfold foreign, slots in *.
    by rewrite (steady_refs s s'), (st_inode _ _ Hs).
Qed.
Lemma extends_trans s1 s2 s3 : extends s1 s2 -> extends s2 s3 -> extends s1 s3.
Proof.
  intros H1 H2. split; [apply H2| | | | | |].
  - by rewrite (ex_contents _ _ H2), (ex_contents _ _ H1).
  - by rewrite (ex_size _ _ H2), (ex_size _ _ H1).
  - by rewrite (ex_kind _ _ H2), (ex_kind _ _ H1).
  - by rewrite (ex_n _ _ H2), (ex_n _ _ H1).
  - transitivity (device s2); [apply H1|apply H2].
  - intros b Hb. destruct (ex_foreign _ _ H1 b Hb) as [Hb2 <-]. by apply (ex_foreign _ _ H2).
Qed.

(** ** Block I/O and block allocation *)

(** The device has moved on, with the same blocks. *)
Definition same_disk s s' : Prop :=
  exists d, s' = set_device d s /\ dev_step (device s) d /\ forall b, dev_block d b = dev_block (device s) b.
Lemma same_refl s : same_disk s s.
Proof. exists (device s). split_and!; [by destruct s|done|done]. Qed.
Lemma same_trans s1 s2 s3 : same_disk s1 s2 -> same_disk s2 s3 -> same_disk s1 s3.
Proof.
  intros (d1 & -> & G1 & H1) (d2 & -> & G2 & H2). exists d2. split_and!; [done|by transitivity d1|]. intros b. cbn in H2. by rewrite H2, H1.
Qed.
Lemma set_device_ok s d : volume_ok s -> dev_ok d -> volume_ok (set_device d s).
Proof. intros [] Hd. by split. Qed.
Lemma set_device_volume s d : volume_ok s -> dev_step (device s) d -> volume_ok (set_device d s).
Proof. intros Hv Hd. apply set_device_ok; [done|]. eapply dev_step_ok; [apply Hv|done]. Qed.
(** The device is in another state, with the same blocks. *)
Lemma other_device s d : wf s -> dev_ok d -> (forall b, dev_block d b = blk s b) -> let s' := set_device d s in
  wf s' /\ refs s' = refs s /\ contents s' = contents s /\ (forall x, foreign s x -> foreign s' x /\ blk s' x = blk s x).
Proof.
  intros Hw Hok Hd s'. assert (Hr : refs s' = refs s) by (unfold refs, ind_words; cbn; unfold blk; cbn; by rewrite Hd).
  split_and!; [|done| |].
  - split; [by apply set_device_ok; [apply Hw|]|apply Hw|]. unfold slots. rewrite Hr. apply Hw.
  - apply contents_eq; [done|]. intros b _ _. apply Hd.
  - intros x (Hu & Hx & Hn). split; [|apply Hd]. split; [done|split; [done|]]. unfold slots in *. by rewrite Hr.
Qed.
Lemma same_steady s s' : volume_ok s -> same_disk s s' -> steady s s'.
Proof.
  intros Hv (d & -> & Hs & Hd). split; [done|done|done| |].
  - by apply set_device_volume.
  - intros b _ Hu. split; [done|]. apply Hd.
Qed.
Lemma same_ok s s' : volume_ok s -> same_disk s s' -> dev_ok (device s').
Proof. intros Hv Hs. apply vo_ok, st_volume with s. by apply same_steady. Qed.
Lemma same_extends s s' : wf s -> same_disk s s' -> extends s s'.
Proof. intros Hw Hs. apply steady_extends; [done|]. apply same_steady; [apply Hw|done]. Qed.

Lemma rwblock_read n d b : dev_ok d -> 0 <= b < dev_blocks (D:=D) ->
  forall l0, wp (sfs_rwblock n (fun _ => dev_read b) l0) (fun r d' => dev_step d d' /\
    (forall b', dev_block d' b' = dev_block d b') /\ (r.1 = 0 -> r.2 = dev_block d b) /\ r.1 <> ENOENT) d.
Proof.
  intros Hok Hb. revert d Hok. induction n as [|n IH]; intros d Hok l0; cbn [sfs_rwblock]; rewrite wp_bind;
    (eapply wp_mono; [|by apply (dev_read_spec d b)]); intros [e l] d' (Hst & Hd & Hr & Hi & Hne); cbn [fst snd] in *;
    (destruct (Z.eqb_spec e EINVAL) as [He|]; [done|]);
    (destruct (Z.eqb_spec e EIO) as [He|]; [|by rewrite wp_ret]).
  - by rewrite wp_ret.
  - eapply wp_mono; [|apply IH; by eapply dev_step_ok]. cbv beta. intros [e' l'] d'' (Hst' & Hd' & Hr' & Hne'); cbn [fst snd] in *. split_and!; [by transitivity d'| | |done].
    + intros b'. by rewrite Hd', Hd.
    + intros Ez. by rewrite Hr', Hd.
Qed.
Lemma readblock_spec s b : dev_ok (device s) -> 0 <= b < dev_blocks (D:=D) ->
  wp (sfs_readblock b) (fun r s' => same_disk s s' /\ (r.1 = 0 -> r.2 = blk s b) /\ r.1 <> ENOENT) s.
Proof.
  intros Hok Hb. unfold sfs_readblock. rewrite wp_zoom. eapply wp_mono; [|by apply rwblock_read].
  cbv beta. intros r d (Hst & Hd & Hr & Hne). split_and!; [by exists d|done..].
Qed.

Lemma rwblock_write n d b l : dev_ok d -> 0 <= b < dev_blocks (D:=D) -> length l = 512%nat -> Forall is_byte l ->
  wp (sfs_rwblock n (dev_write b) l) (fun r d' => dev_step d d' /\
    (forall b', b' <> b -> dev_block d' b' = dev_block d b') /\
    (dev_block d' b = l \/ r.1 <> 0 /\ dev_block d' b = dev_block d b)) d.
Proof.
  intros Hok Hb Hl Hy. revert d Hok. induction n as [|n IH]; intros d Hok; cbn [sfs_rwblock]; rewrite wp_bind;
    (eapply wp_mono; [|by apply (dev_write_spec d b l)]); intros [e l'] d' (Hst & Hd & Hr & Hi & Hleft); cbn [fst snd] in *;
    (destruct (Z.eqb_spec e EINVAL) as [He|]; [done|]);
    (destruct (Z.eqb_spec e EIO) as [He|]; [|by rewrite wp_ret]).
  - by rewrite wp_ret.
  - rewrite Hleft by by subst e. eapply wp_mono; [|apply IH; by eapply dev_step_ok]. cbv beta. intros [e' l''] d'' (Hst' & Hd' & Hr'); cbn [fst] in *. split_and!; [by transitivity d'| |].
    + intros b' Hn. by rewrite Hd', Hd.
    + destruct Hr' as [|[? ->]]; [by left|]. destruct Hr as [|[_ ?]]; [by left|by right].
Qed.
Lemma writeblock_spec s b l : dev_ok (device s) -> 0 <= b < dev_blocks (D:=D) -> length l = 512%nat -> Forall is_byte l ->
  wp (sfs_writeblock b l) (fun e s' => exists d, s' = set_device d s /\ dev_step (device s) d /\
    (forall b', b' <> b -> dev_block d b' = blk s b') /\
    (dev_block d b = l \/ e <> 0 /\ dev_block d b = blk s b)) s.
Proof.
  intros Hok Hb Hl Hy. unfold sfs_writeblock. rewrite wp_bind, wp_zoom. eapply wp_mono; [|by apply rwblock_write].
  cbv beta. intros [e l'] d Hd. rewrite wp_ret. by exists d.
Qed.

Lemma set_freemap_volume s m : volume_ok s -> fm_ok m -> fm_size m = fm_size (freemap s) ->
  (forall j, 0 <= j -> used s j = true -> fm_used m j = true) -> volume_ok (set_freemap m s).
Proof.
  intros [] Hm Hz Hu. split; unfold used in *; cbn; rewrite ?Hz; [done|done| | |done|done].
  - intros b Hb. apply Hu; [lia|auto].
  - by apply Hu.
Qed.

(** [sfs_balloc]: a fresh zeroed block, or an error. *)
Lemma balloc_spec s : volume_ok s ->
  wp sfs_balloc (fun r s' => steady s s' /\ (r.1 = 0 ->
    0 < r.2 < sb_nblocks s /\ used s r.2 = false /\ used s' r.2 = true /\ blk s' r.2 = zeros)) s.
Proof.
  intros Hv. pose proof Hv as [Hm Hn Ht Hz Hok Hd]. unfold sfs_balloc. rewrite wp_bind, wp_zoom.
  eapply wp_mono; [|by apply (fm_alloc_spec (freemap s))]. cbv beta. intros [e [i|]] m.
  2:{ intros [-> ->]. cbn. split; [|done]. replace (set_freemap (freemap s) s) with s by (by destruct s). by apply steady_refl. }
  intros (-> & Hi & Hf & Hm' & Hz' & Hu). wp_simpl. cbn [sb_nblocks set_freemap mark_freemap lset map_lens].
  assert (Hi0 : i <> 0) by (intros ->; unfold used in Hz; congruence).
  assert (Hin : i < sb_nblocks s).
  { destruct (decide (i < sb_nblocks s)); [done|]. unfold used in Ht. rewrite Ht in Hf; [done|lia]. }
  destruct (Z.leb_spec (sb_nblocks s) i); [lia|]. cbv iota. wp_simpl.
  set (s1 := mark_freemap _). eapply wp_mono; [|apply (writeblock_spec s1); [done|lia|done|by apply Forall_replicate]].
  cbv beta. intros e s2 (d & -> & Hst & Hdo & Hdi).
  assert (Hblk : forall b, used s b = true -> dev_block d b = blk s b).
  { intros b Hb. apply Hdo. intros ->. unfold used in Hb. congruence. }
  destruct (Z.eqb_spec e 0) as [->|He]; wp_simpl.
  - assert (Hv' : volume_ok (set_device d s1)).
    { assert (Hv1 : volume_ok (set_freemap m s)).
      { apply set_freemap_volume; try done. intros j Hj Huj. rewrite Hu by done. unfold used in Huj. rewrite Huj. apply orb_true_r. }
      destruct (set_device_volume (set_freemap m s) d Hv1 Hst). by split. }
    split; [split; [done|done|done|done|]|].
    + intros b Hb Hub. split; [|by apply Hblk]. unfold used in *. cbn. rewrite Hu, Hub by done. apply orb_true_r.
    + intros _. cbn [snd]. split_and!; [lia|lia|done| |].
      * unfold used. cbn. rewrite Hu by lia. by rewrite Z.eqb_refl.
      * by destruct Hdi as [|[]].
  - rewrite wp_zoom. eapply wp_mono; [|apply (fm_unmark_spec m i); [done|lia|rewrite Hu, Z.eqb_refl by lia; done]].
    cbv beta. intros _ m2 (Hm2 & Hz2 & Hu2). rewrite wp_ret. split; [|done].
    assert (Huu : forall j, 0 <= j -> fm_used m2 j = used s j).
    { intros j Hj. rewrite Hu2, Hu by done. unfold used. destruct (Z.eqb_spec i j) as [<-|]; [by rewrite Hf|done]. }
    assert (Hv' : volume_ok (set_freemap m2 s)).
    { apply set_freemap_volume; [done|done|by rewrite Hz2|]. intros j Hj Huj. by rewrite Huu. }
    split; [done|done|done| |].
    + destruct (set_device_volume (set_freemap m2 s) d Hv' Hst). by split.
    + intros b Hb Hub. split; [|by apply Hblk]. unfold used. cbn. by rewrite Huu.
Qed.

Lemma hand_back_spec s b : volume_ok s -> (b <> 0 -> 0 < b < sb_nblocks s /\ used s b = true) ->
  wp (hand_back b) (fun r s' => r = (0, b) /\ s' = s) s.
Proof.
  intros [Hm Hn Ht Hz Hok Hd] Hb. unfold hand_back. destruct (Z.eqb_spec b 0) as [->|Hb0]; wp_simpl; [done|].
  destruct (Hb Hb0) as [Hr Hu]. unfold sfs_bused. wp_simpl. destruct (Z.leb_spec (sb_nblocks s) b); [lia|]. cbv iota.
  wp_simpl. rewrite wp_zoom. eapply wp_mono; [|apply (fm_isset_spec (freemap s) b); [done|lia]]. cbv beta.
  intros r m [-> Hs]. destruct (Z.eqb_spec r 0) as [->|]; [by destruct (proj2 Hs Hu)|]. wp_simpl. split; [done|by destruct s].
Qed.

(** ** [sfs_bmap] *)

(** A fresh block, as [sfs_balloc] gives it. *)
Definition fresh s s1 b : Prop :=
  steady s s1 /\ 0 < b < sb_nblocks s /\ used s b = false /\ used s1 b = true /\ blk s1 b = zeros.

Lemma fresh_not_slot s s1 b : wf s -> fresh s s1 b -> b ∉ slots s.
Proof. intros Hw (_ & Hb & Hu & _). eapply slots_fresh; [apply Hw|done|lia]. Qed.

(** Entering a fresh block for a missing block of the file: it may rewrite the
    indirect block. *)
Lemma fill s s1 s2 b k : wf s -> fresh s s1 b -> refs s !! k = Some 0 ->
  volume_ok s2 -> used s2 = used s1 -> sb_nblocks s2 = sb_nblocks s -> dev_step (device s) (device s2) ->
  length (sfi_direct (sv_i s2)) = 15%nat -> sfi_size (sv_i s2) = sfi_size (sv_i s) ->
  sfi_type (sv_i s2) = sfi_type (sv_i s) ->
  sfi_indirect (sv_i s2) = sfi_indirect (sv_i s) -> refs s2 = <[k := b]> (refs s) ->
  (forall b', b' = 0 \/ b' <> sfi_indirect (sv_i s) -> blk s2 b' = blk s1 b') -> extends s s2.
Proof.
  intros Hw Hf Hk Hv Hu2 Hn Hstep Hl Hsz Hkd Hi Hr Hb. assert (Hns := fresh_not_slot s s1 b Hw Hf).
  destruct Hf as (Hst & Hrange & Hub & Hu1 & Hz).
  assert (Hs2 : slots s2 = <[S k := b]> (slots s)) by (unfold slots; by rewrite Hi, Hr).
  assert (Hbi : b <> sfi_indirect (sv_i s)) by (intros ->; apply Hns; left).
  split; [split; [done|done|]| |done|done|done|done|].
  - rewrite Hs2, Hn, Hu2. apply slots_insert; [|done|done|done].
    apply (slots_mono (used s)); [|apply Hw]. intros j Hj. by apply (st_blk _ _ Hst).
  - unfold contents. rewrite Hr, list_fmap_insert.
    assert (Hc : block_data s2 <$> refs s = contents s).
    { apply list_fmap_ext. intros i x Hx. unfold block_data. destruct (Z.eqb_spec x 0); [done|].
      destruct (refs_used s i x Hw Hx) as [? Hux]; [done|]. rewrite Hb; [|right; by eapply refs_not_indirect].
      apply (st_blk _ _ Hst); [lia|done]. }
    rewrite Hc. apply list_insert_id. unfold contents. rewrite list_lookup_fmap, Hk. cbn. f_equal.
    unfold block_data. destruct (Z.eqb_spec b 0); [lia|]. rewrite Hb by (by right). done.
  - intros x (Hux & Hx & Hnx). destruct (st_blk _ _ Hst x Hx Hux) as [Hux1 Hbx].
    split; [split; [by rewrite Hu2|split; [done|]]|].
    + intros Hx0. rewrite Hs2. intros [j Hj]%list_elem_of_lookup.
      apply list_lookup_insert_Some in Hj as [(_ & <- & _)|(_ & Hj)]; [congruence|].
      apply (Hnx Hx0). apply list_elem_of_lookup. by exists j.
    + rewrite <-Hbx. apply Hb. destruct (Z.eq_dec x 0) as [|Hx0]; [by left|right]. intros ->. apply (Hnx Hx0). left.
Qed.

Lemma fill_direct s s1 b k : wf s -> fresh s s1 b -> (k < 15)%nat -> refs s !! k = Some 0 ->
  let s2 := set_inode (set_direct (Z.of_nat k) b (sv_i s1)) s1 in extends s s2 /\ refs s2 !! k = Some b.
Proof.
  intros Hw Hf Hk H0 s2. pose proof Hf as (Hst & _). pose proof (steady_ind s s1 Hw Hst) as Hind.
  assert (Hr : refs s2 = <[k := b]> (refs s)).
  { unfold refs. rewrite insert_app_l by (by rewrite (wf_direct s Hw)).
    change (ind_words s2) with (ind_words s1). rewrite Hind. cbn. by rewrite (st_inode _ _ Hst), Nat2Z.id. }
  split.
  - eapply (fill s s1 s2 b k); try done.
    + destruct (st_volume _ _ Hst). by split.
    + apply Hst.
    + apply Hst.
    + cbn. rewrite (st_inode _ _ Hst), length_insert. apply Hw.
    + cbn. by rewrite (st_inode _ _ Hst).
    + cbn. by rewrite (st_inode _ _ Hst).
    + cbn. by rewrite (st_inode _ _ Hst).
  - rewrite Hr, list_lookup_insert_eq; [done|]. by eapply lookup_lt_Some.
Qed.

(** A fresh indirect block names no block. *)
Lemma new_indirect s s1 b : wf s -> fresh s s1 b -> sfi_indirect (sv_i s) = 0 ->
  let s2 := set_inode (set_indirect b (sv_i s1)) s1 in extends s s2 /\ ind_words s2 = replicate 128 0.
Proof.
  intros Hw Hf H0 s2. assert (Hns := fresh_not_slot s s1 b Hw Hf). destruct Hf as (Hst & Hrange & Hub & Hu1 & Hz).
  assert (Hi2 : ind_words s2 = replicate 128 0).
  { unfold ind_words. cbn. destruct (Z.eqb_spec b 0); [lia|]. change (blk s2 b) with (blk s1 b). by rewrite Hz, words_of_zeros. }
  assert (Hi1 : ind_words s = replicate 128 0) by (unfold ind_words; by rewrite H0).
  assert (Hr : refs s2 = refs s) by (unfold refs; rewrite Hi1, Hi2; cbn; by rewrite (st_inode _ _ Hst)).
  assert (Hs2 : slots s2 = <[0%nat := b]> (slots s)) by (unfold slots; by rewrite Hr).
  split; [|done]. split; [split| | | | | |].
  - destruct (st_volume _ _ Hst). by split.
  - cbn. rewrite (st_inode _ _ Hst). apply Hw.
  - rewrite Hs2. change (sb_nblocks s2) with (sb_nblocks s1). rewrite (st_n _ _ Hst). change (used s2) with (used s1).
    apply slots_insert; [|done|done|done]. apply (slots_mono (used s)); [|apply Hw]. intros j Hj. by apply (st_blk _ _ Hst).
  - apply contents_eq; [done|]. intros x [k Hk]%list_elem_of_lookup Hx. destruct (refs_used s k x Hw Hk Hx).
    apply (st_blk _ _ Hst); [lia|done].
  - cbn. by rewrite (st_inode _ _ Hst).
  - cbn. by rewrite (st_inode _ _ Hst).
  - apply Hst.
  - apply Hst.
  - intros x (Hux & Hx & Hnx). destruct (st_blk _ _ Hst x Hx Hux) as [Hux1 Hbx].
    split; [|done]. split; [done|split; [done|]]. intros Hx0. rewrite Hs2. intros [j Hj]%list_elem_of_lookup.
    apply list_lookup_insert_Some in Hj as [(_ & <- & _)|(_ & Hj)]; [congruence|].
    apply (Hnx Hx0), list_elem_of_lookup. by exists j.
Qed.

(** Writing the indirect block with one more entry. *)
Lemma fill_indirect s s1 d b (k : nat) : wf s -> fresh s s1 b -> (k < 128)%nat -> ind_words s !! k = Some 0 ->
  let idb := sfi_indirect (sv_i s) in idb <> 0 ->
  dev_step (device s1) d -> (forall b', b' <> idb -> dev_block d b' = blk s1 b') ->
  dev_block d idb = bytes_of (<[k := b]> (ind_words s)) ->
  extends s (set_device d s1) /\ refs (set_device d s1) !! (15 + k)%nat = Some b.
Proof.
  intros Hw Hf Hk H0 idb Hid Hstep Hd Hdi. pose proof Hf as (Hst & Hrange & _).
  assert (Hword : is_word b).
  { pose proof (vo_dev s (wf_volume s Hw)). pose proof (dev_blocks_fit (D:=D)). unfold is_word. lia. }
  assert (Hi2 : ind_words (set_device d s1) = <[k := b]> (ind_words s)).
  { unfold ind_words at 1. cbn. rewrite (st_inode _ _ Hst). fold idb. destruct (Z.eqb_spec idb 0); [done|].
    change (blk (set_device d s1) idb) with (dev_block d idb). rewrite Hdi. apply words_of_bytes.
    - by rewrite length_insert, ind_length.
    - apply Forall_insert; [apply ind_range|done]. }
  assert (Hr : refs (set_device d s1) = <[(15 + k)%nat := b]> (refs s)).
  { unfold refs. rewrite Hi2. cbn [sv_i set_device]. rewrite (st_inode _ _ Hst), insert_app_r_alt; rewrite (wf_direct s Hw); [|lia].
    do 2 f_equal. lia. }
  assert (Hk0 : refs s !! (15 + k)%nat = Some 0) by (by rewrite refs_indirect).
  split.
  - eapply (fill s s1 _ b (15 + k)%nat); try done.
    + apply set_device_volume; [apply Hst|done].
    + apply Hst.
    + transitivity (device s1); [apply Hst|done].
    + cbn. rewrite (st_inode _ _ Hst). apply Hw.
    + cbn. by rewrite (st_inode _ _ Hst).
    + cbn. by rewrite (st_inode _ _ Hst).
    + cbn. by rewrite (st_inode _ _ Hst).
    + intros b' Hb'. apply Hd. destruct Hb' as [->|]; [|done]. by intros <-.
  - rewrite Hr, list_lookup_insert_eq; [done|]. by eapply lookup_lt_Some.
Qed.

Lemma steady_device s s1 d : steady s s1 -> dev_step (device s1) d ->
  (forall b, 0 <= b -> used s b = true -> dev_block d b = blk s1 b) -> steady s (set_device d s1).
Proof.
  intros Hst Hstep Hd. split; [apply Hst|apply Hst|transitivity (device s1); [apply Hst|done]| |].
  - apply set_device_volume; [apply Hst|done].
  - intros b Hb Hu. destruct (st_blk _ _ Hst b Hb Hu) as [? <-]. split; [done|]. by apply Hd.
Qed.

(** What [sfs_bmap] promises: the file's bytes are untouched, and the number handed
    back is the file's block. *)
Definition bmap_post (doalloc : bool) (fb : nat) s (r : Z * Z) s' : Prop :=
  (if doalloc then extends s s' else same_disk s s') /\
  (r.1 = 0 -> refs s' !! fb = Some r.2 /\ (doalloc = true -> r.2 <> 0)) /\ (doalloc = false -> r.1 <> ENOENT).

Lemma bmap_found s fb b doalloc : wf s -> refs s !! fb = Some b -> (b = 0 -> doalloc = false) ->
  wp (hand_back b) (bmap_post doalloc fb s) s.
Proof.
  intros Hw Hb Hd. eapply wp_mono; [|apply hand_back_spec; [apply Hw|by eapply refs_used]].
  cbv beta. intros r s' [-> ->]. split.
  - destruct doalloc; [apply same_extends; [done|]|]; apply same_refl.
  - split; [|done]. intros _. split; [done|]. cbn. intros -> E. by specialize (Hd E).
Qed.
Lemma bmap_fail s s' fb e (doalloc : bool) : e <> 0 -> (if doalloc then extends s s' else same_disk s s') ->
  (doalloc = false -> e <> ENOENT) -> bmap_post doalloc fb s (e, 0) s'.
Proof. intros He Hs Hne. by split; [|split]. Qed.

Lemma bmap_direct s (fb : nat) b doalloc : wf s -> (fb < 15)%nat -> refs s !! fb = Some b ->
  wp (if (b =? 0) && doalloc then
        '(result, block) ← sfs_balloc;
        if negb (result =? 0) then mret (result, 0) else
        modify (fun s => set_inode (set_direct (Z.of_nat fb) block (sv_i s)) s);;
        hand_back block
      else hand_back b : K (sfs B D) (Z * Z)) (bmap_post doalloc fb s) s.
Proof.
  intros Hw Hfb Hb. destruct (Z.eqb_spec b 0) as [->|Hb0]; [destruct doalloc|]; cbn [andb];
    [|by apply bmap_found..].
  rewrite wp_bind. eapply wp_mono; [|apply balloc_spec, Hw]. cbv beta. intros [e b] s1 [Hst Hok]. cbn [fst snd] in Hok.
  destruct (Z.eqb_spec e 0) as [->|He]; wp_simpl.
  - destruct (fill_direct s s1 b fb Hw (conj Hst (Hok eq_refl)) Hfb Hb) as [Hex Hr].
    specialize (Hok eq_refl). eapply wp_mono; [|by apply (bmap_found _ fb b true); [apply Hex|done|lia]].
    cbv beta. intros r s' [Hx Hx']. split; [by eapply extends_trans|done].
  - by apply bmap_fail; [|apply steady_extends|].
Qed.

Lemma bmap_entry s (k : nat) doalloc : wf s -> (k < 128)%nat -> sfi_indirect (sv_i s) <> 0 ->
  wp (block ← deref (ind_words s !! k) "idbuf[idoff]";
      if (block =? 0) && doalloc then
        '(result, block) ← sfs_balloc;
        if negb (result =? 0) then mret (result, 0) else
        result ← sfs_writeblock (sfi_indirect (sv_i s)) (bytes_of (<[k := block]> (ind_words s)));
        if negb (result =? 0) then mret (result, 0) else
        hand_back block
      else hand_back block : K (sfs B D) (Z * Z)) (bmap_post doalloc (15 + k) s) s.
Proof.
  intros Hw Hk Hid. destruct (lookup_lt_is_Some_2 (ind_words s) k) as [b Hb]; [by rewrite ind_length|].
  rewrite Hb. wp_simpl. assert (Hr := Hb). rewrite <-refs_indirect in Hr by done.
  destruct (Z.eqb_spec b 0) as [->|Hb0]; [destruct doalloc|]; cbn [andb]; [|by apply bmap_found..].
  rewrite wp_bind. eapply wp_mono; [|apply balloc_spec, Hw]. cbv beta. intros [e b] s1 [Hst Hok]. cbn [fst snd] in Hok.
  destruct (Z.eqb_spec e 0) as [->|He]; wp_simpl; [|by apply bmap_fail; [|apply steady_extends|]].
  specialize (Hok eq_refl). destruct (indirect_used s Hw Hid) as [Hidr Hidu].
  pose proof (vo_dev s (wf_volume s Hw)).
  eapply wp_mono; [|apply (writeblock_spec s1); [apply vo_ok, Hst|lia| |apply bytes_of_bytes]].
  2:{ apply bytes_of_length. by rewrite length_insert, ind_length. }
  cbv beta. intros e s2 (d & -> & Hstep & Hdo & Hdi).
  assert (Hcases : extends s (set_device d s1) /\ (e = 0 -> refs (set_device d s1) !! (15 + k)%nat = Some b)).
  { destruct Hdi as [Hdi|[He Hdi]].
    - destruct (fill_indirect s s1 d b k Hw (conj Hst Hok) Hk Hb Hid Hstep Hdo Hdi). done.
    - split; [|done]. apply steady_extends; [done|]. apply steady_device; [done|done|]. intros b' Hb' Hu'.
      destruct (Z.eq_dec b' (sfi_indirect (sv_i s))) as [->|Hn]; [done|by apply Hdo]. }
  destruct Hcases as [Hex Hrr]. destruct (Z.eqb_spec e 0) as [->|He]; wp_simpl; [|by apply bmap_fail].
  eapply wp_mono; [|by apply (bmap_found _ (15 + k) b true); [apply Hex|apply Hrr|lia]].
  cbv beta. intros r s' [Hx Hx']. split; [by eapply extends_trans|done].
Qed.

Lemma bmap_post_later s s1 fb r s2 (doalloc : bool) : wf s -> (if doalloc then extends s s1 else same_disk s s1) ->
  bmap_post doalloc fb s1 r s2 -> bmap_post doalloc fb s r s2.
Proof.
  intros Hw H1 [H2 Hr]. split; [|done]. destruct doalloc; [by eapply extends_trans|by eapply same_trans].
Qed.

Lemma bmap_spec s fb doalloc : wf s -> 0 <= fb ->
  wp (sfs_bmap fb doalloc) (fun r s' => bmap_post doalloc (Z.to_nat fb) s r s' /\ (143 <= fb -> r.1 = EFBIG)) s.
Proof.
  intros Hw Hfb. unfold sfs_bmap. wp_simpl. destruct (Z.ltb_spec fb SFS_NDIRECT) as [Hd|Hd]; unfold SFS_NDIRECT in *.
  - destruct (lookup_lt_is_Some_2 (sfi_direct (sv_i s)) (Z.to_nat fb)) as [b Hb]; [rewrite (wf_direct s Hw); lia|].
    wp_simpl. assert (Hr : refs s !! Z.to_nat fb = Some b) by (rewrite refs_direct by (done || lia); done).
    pose proof (bmap_direct s (Z.to_nat fb) b doalloc Hw ltac:(lia) Hr) as Hb'. rewrite Z2Nat.id in Hb' by done.
    eapply wp_mono; [|exact Hb']. cbv beta. intros r s' Hp. split; [done|lia].
  - destruct (Z.leb_spec SFS_NINDIRECT ((fb - 15) / SFS_DBPERIDB)) as [Hf|Hf]; unfold SFS_NINDIRECT, SFS_DBPERIDB in *.
    { wp_simpl. split; [|done]. apply bmap_fail; [done| |done]. destruct doalloc; [apply same_extends; [done|]|]; apply same_refl. }
    assert (Hlt : fb - 15 < 128) by (destruct (Z.lt_ge_cases (fb - 15) 128); [done|]; pose proof (Z.div_le_lower_bound (fb - 15) 128 1); lia).
    rewrite (Z.mod_small (fb - 15)) by lia. set (k := Z.to_nat (fb - 15)).
    replace (Z.to_nat fb) with (15 + k)%nat by lia.
    eapply wp_mono with (P := bmap_post doalloc (15 + k) s); [intros r s' Hp; split; [done|lia]|].
    destruct (Z.eqb_spec (sfi_indirect (sv_i s)) 0) as [Hi|Hi]; [destruct doalloc|]; cbn [andb negb]; wp_simpl.
    + eapply wp_mono; [|apply balloc_spec, Hw]. cbv beta. intros [e b] s1 [Hst Hok]. cbn [fst snd] in Hok.
      destruct (Z.eqb_spec e 0) as [->|He]; wp_simpl.
      2:{ destruct (Z.eqb_spec e 0); [done|]. wp_simpl. by apply bmap_fail; [|apply steady_extends|]. }
      destruct (new_indirect s s1 b Hw (conj Hst (Hok eq_refl)) Hi) as [Hex Hind]. specialize (Hok eq_refl).
      change (Z.to_nat 128) with 128%nat. rewrite <-Hind. set (s2 := set_inode _ _) in *.
      apply (proj1 (wp_bind _ _ _ _)). eapply wp_mono; [|apply (bmap_entry s2 k true); [apply Hex|lia|cbn; lia]].
      cbv beta. intros r s' Hp. by eapply (bmap_post_later s s2).
    + split_and!; [apply same_refl| |done]. intros _. split; [|done]. rewrite refs_indirect by done. unfold ind_words. rewrite Hi.
      cbn [Z.eqb snd]. apply lookup_replicate_2. lia.
    + destruct (indirect_used s Hw Hi). pose proof (vo_dev s (wf_volume s Hw)).
      eapply wp_mono; [|apply (readblock_spec s); [apply vo_ok, Hw|lia]]. cbv beta. intros [e l] s1 (Hs & Hok & Hne). cbn [fst snd] in Hok.
      assert (Hstep : if doalloc then extends s s1 else same_disk s s1) by (destruct doalloc; [by apply same_extends|done]).
      destruct (Z.eqb_spec e 0) as [->|He]; wp_simpl; [|destruct (Z.eqb_spec e 0); [done|]; wp_simpl; by apply bmap_fail].
      assert (Hi1 : sv_i s1 = sv_i s) by (by destruct Hs as (d & -> & _)).
      assert (Hw1 : wf s1) by (eapply steady_wf; [done|]; apply same_steady; [apply Hw|done]).
      assert (Hind : words_of l = ind_words s1).
      { rewrite Hok by done. unfold ind_words. rewrite Hi1. destruct (Z.eqb_spec (sfi_indirect (sv_i s)) 0); [done|].
        destruct Hs as (d & -> & _ & Hd'). unfold blk. cbn. by rewrite Hd'. }
      rewrite Hind, <-Hi1. apply (proj1 (wp_bind _ _ _ _)). eapply wp_mono; [|apply (bmap_entry s1 k doalloc); [done|lia|by rewrite Hi1]].
      cbv beta. intros r s' Hp. by eapply (bmap_post_later s s1).
Qed.

(** ** [sfs_metaio] *)

Lemma same_refs s s' : wf s -> same_disk s s' -> refs s' = refs s /\ contents s' = contents s.
Proof.
  intros Hw Hs. pose proof (same_steady s s' (wf_volume s Hw) Hs) as Hst.
  split; [by apply steady_refs|]. apply (ex_contents s s'). by apply steady_extends.
Qed.

(** Rewriting one block of the file. *)
Lemma write_file_block s d k b : wf s -> refs s !! k = Some b -> b <> 0 ->
  dev_ok d -> (forall b', b' <> b -> dev_block d b' = blk s b') ->
  let s' := set_device d s in
  wf s' /\ contents s' = <[k := dev_block d b]> (contents s) /\
  (forall x, foreign s x -> foreign s' x /\ blk s' x = blk s x).
Proof.
  intros Hw Hk Hb Hok Hd s'. assert (Hni := refs_not_indirect s k b Hw Hk Hb).
  assert (Hind : ind_words s' = ind_words s).
  { unfold ind_words. cbn. case_match; [done|]. f_equal. by apply Hd. }
  assert (Hr : refs s' = refs s) by (unfold refs; by rewrite Hind).
  split_and!.
  - split; [by apply set_device_ok; [apply Hw|]|apply Hw|]. unfold slots. rewrite Hr. apply Hw.
  - apply list_eq. intros i. unfold contents. rewrite Hr, list_lookup_fmap. destruct (decide (k = i)) as [<-|Hki].
    + rewrite Hk, list_lookup_insert_eq by (rewrite length_fmap; by eapply lookup_lt_Some). cbn.
      unfold block_data. by destruct (Z.eqb_spec b 0).
    + rewrite list_lookup_insert_ne, list_lookup_fmap by done. destruct (refs s !! i) as [x|] eqn:Hi; [|done]. cbn. f_equal.
      unfold block_data. destruct (Z.eqb_spec x 0); [done|]. apply Hd. intros ->.
      by pose proof (so_inj _ _ _ (wf_slots s Hw) (S k) (S i) b Hk Hi Hb) as [= ?].
  - intros x (Hu & Hx & Hn). split; [split; [done|split; [done|]]|].
    + unfold slots in *. by rewrite Hr.
    + apply Hd. intros ->. apply (Hn Hb). right. by eapply list_elem_of_lookup_2.
Qed.

Lemma position_block pos : 0 <= pos < 2 ^ 41 ->
  u32 (Z.quot pos SFS_BLOCKSIZE) = pos / 512 /\ u32 (Z.rem pos SFS_BLOCKSIZE) = pos mod 512 /\
  pos = Z.of_nat 512 * Z.of_nat (Z.to_nat (pos / 512)) + pos mod 512.
Proof.
  intros Hp. unfold SFS_BLOCKSIZE. rewrite Z.quot_div_nonneg, Z.rem_mod_nonneg by lia.
  pose proof (Z.mod_pos_bound pos 512). pose proof (Z.div_mod pos 512). pose proof (Z.div_pos pos 512).
  rewrite !u32_small by lia. split_and!; lia.
Qed.

Lemma contents_lookup s k b : refs s !! k = Some b -> contents s !! k = Some (block_data s b).
Proof. intros Hk. unfold contents. by rewrite list_lookup_fmap, Hk. Qed.

(** The part of a file that can exist. *)
Definition max_size : Z := 143 * 512.

Lemma metaio_read s pos data len : wf s -> 0 <= pos < 2 ^ 41 -> 0 <= len -> pos mod 512 + len <= 512 ->
  wp (sfs_metaio pos data len UIO_READ) (fun r s' => same_disk s s' /\
    (r.1 = 0 -> r.2 = region pos len (file_bytes s)) /\ (max_size <= pos -> r.1 = EFBIG) /\ r.1 <> ENOENT) s.
Proof.
  intros Hw Hp Hl Hfit. destruct (position_block pos Hp) as (Eq & Er & Epos). unfold sfs_metaio. rewrite Eq, Er.
  pose proof (Z.mod_pos_bound pos 512). pose proof (Z.div_pos pos 512).
  wp_simpl. eapply wp_mono; [|apply (bmap_spec s (pos / 512) false); [done|lia]].
  cbv beta. intros [e b] s1 [(Hs & Hok & Hne) Hbig]; cbn [fst snd] in *. destruct (same_refs s s1 Hw Hs) as [Hr1 Hc1].
  assert (Hbig' : max_size <= pos -> e = EFBIG) by (unfold max_size; intros; apply Hbig; lia).
  destruct (Z.eqb_spec e 0) as [->|He]; wp_simpl; [|split_and!; [done|done|done|by apply Hne]].
  destruct (Hok eq_refl) as [Hb _]. rewrite Hr1 in Hb. assert (Hc := contents_lookup s _ _ Hb).
  assert (Hreg : region pos len (file_bytes s) = region (pos mod 512) len (block_data s b)).
  { rewrite Epos at 1. apply region_concat; [apply contents_uniform|done|lia|done|lia]. }
  unfold block_data in Hreg. destruct (Z.eqb_spec b 0) as [->|Hb0]; wp_simpl.
  - split_and!; [done| |done|done]. intros _. rewrite Hreg. cbn [snd]. unfold region, zeros, SFS_BLOCKSIZE.
    rewrite drop_replicate, take_replicate. f_equal. lia.
  - destruct (refs_used s _ b Hw Hb Hb0). pose proof (vo_dev s (wf_volume s Hw)).
    eapply wp_mono; [|apply (readblock_spec s1); [by eapply same_ok; [apply Hw|]|lia]]. cbv beta. intros [e l] s2 (Hs2 & Hl2 & Hne2); cbn [fst snd] in *.
    assert (Hss : same_disk s s2) by (by eapply same_trans).
    destruct (Z.eqb_spec e 0) as [->|He]; wp_simpl.
    + split_and!; [done| |done|done]. intros _. cbn [snd]. rewrite Hreg, Hl2 by done. f_equal.
      destruct Hs as (d & -> & _ & Hd). unfold blk. cbn. by rewrite Hd.
    + split_and!; [done|done| |done]. intros Hm. by apply Hbig' in Hm.
Qed.

(** A write: the bytes of the region are replaced, and nothing else; on an error it may
    or may not have happened. *)
Definition write_post s pos (data : list Z) (e : Z) s' : Prop :=
  wf s' /\ (forall b, foreign s b -> foreign s' b /\ blk s' b = blk s b) /\
  (file_bytes s' = update pos data (file_bytes s) \/ e <> 0 /\ file_bytes s' = file_bytes s) /\
  sfi_size (sv_i s') = (if e =? 0 then Z.max (sfi_size (sv_i s)) (pos + Z.of_nat (length data)) else sfi_size (sv_i s)) /\
  sfi_type (sv_i s') = sfi_type (sv_i s).

Lemma write_none s s' pos data e : extends s s' -> e <> 0 -> write_post s pos data e s'.
Proof.
  intros Hx He. split_and!; [apply Hx|apply Hx| | |apply Hx].
  - right. split; [done|]. unfold file_bytes. by rewrite (ex_contents _ _ Hx).
  - destruct (Z.eqb_spec e 0); [done|]. by apply Hx.
Qed.

Lemma set_inode_size s n : wf s -> let s' := set_inode (set_size n (sv_i s)) s in
  wf s' /\ file_bytes s' = file_bytes s /\ (forall b, foreign s b -> foreign s' b /\ blk s' b = blk s b) /\
  sfi_type (sv_i s') = sfi_type (sv_i s).
Proof. intros [[] ? ?] s'. split_and!; [split; [by split|done|done]|done..]. Qed.

Lemma metaio_write s pos data : wf s -> 0 <= pos -> pos + Z.of_nat (length data) < 2 ^ 32 ->
  pos mod 512 + Z.of_nat (length data) <= 512 -> Forall is_byte data ->
  wp (sfs_metaio pos data (Z.of_nat (length data)) UIO_WRITE) (fun r s' =>
    write_post s pos data r.1 s' /\ (max_size <= pos -> r.1 = EFBIG)) s.
Proof.
  intros Hw Hp Hlt Hfit Hy. destruct (position_block pos) as (Eq & Er & Epos); [lia|]. unfold sfs_metaio. rewrite Eq, Er.
  pose proof (Z.mod_pos_bound pos 512). pose proof (Z.div_pos pos 512).
  wp_simpl. eapply wp_mono; [|apply (bmap_spec s (pos / 512) true); [done|lia]].
  cbv beta. intros [e b] s1 [(Hx & Hok & _) Hbig]; cbn [fst snd] in *.
  assert (Hbig' : max_size <= pos -> e = EFBIG) by (unfold max_size; intros; apply Hbig; lia).
  destruct (Z.eqb_spec e 0) as [->|He]; wp_simpl; [|split; [by apply write_none|done]].
  destruct (Hok eq_refl) as [Hb Hb0]. specialize (Hb0 eq_refl). assert (Hw1 := ex_wf _ _ Hx).
  destruct (Z.eqb_spec b 0) as [|_]; [done|]. cbv iota. wp_simpl.
  destruct (refs_used s1 _ b Hw1 Hb Hb0). pose proof (vo_dev s1 (wf_volume s1 Hw1)).
  eapply wp_mono; [|apply (readblock_spec s1); [apply vo_ok, Hw1|lia]]. cbv beta. intros [e l] s2 (Hs2 & Hl2 & Hne2); cbn [fst snd] in *.
  assert (Hx2 : extends s s2) by (eapply extends_trans; [done|by apply same_extends]).
  assert (Hnbig : forall e', max_size <= pos -> e' = EFBIG) by (intros e' Hm; by apply Hbig' in Hm).
  destruct (Z.eqb_spec e 0) as [->|He]; wp_simpl; [|split; [by apply write_none|apply Hnbig]].
  destruct (same_refs s1 s2 Hw1 Hs2) as [Hr2 Hc2]. rewrite <-Hr2 in Hb. assert (Hw2 := ex_wf _ _ Hx2).
  assert (Hl : l = blk s2 b) by (rewrite Hl2 by done; destruct Hs2 as (d & -> & _ & Hd); symmetry; apply Hd).
  assert (Hll : length l = 512%nat) by (rewrite Hl; apply blk_length).
  pose proof (ex_n _ _ Hx2). assert (sb_nblocks s1 = sb_nblocks s) by apply Hx.
  eapply wp_mono; [|apply (writeblock_spec s2); [apply vo_ok, Hw2|lia|rewrite update_length; lia|apply update_bytes; [done|rewrite Hl; apply blk_bytes]]].
  cbv beta. intros e s3 (d & -> & Hstep & Hdo & Hdi). destruct (write_file_block s2 d _ b Hw2 Hb Hb0 (dev_step_ok _ _ (vo_ok _ (wf_volume _ Hw2)) Hstep) Hdo) as (Hw3 & Hc3 & Hf3).
  assert (Hbytes : file_bytes (set_device d s2) = update pos data (file_bytes s) \/
                   e <> 0 /\ file_bytes (set_device d s2) = file_bytes s).
  { unfold file_bytes. rewrite Hc3, <-(ex_contents _ _ Hx2). assert (Hc := contents_lookup s2 _ _ Hb).
    unfold block_data in Hc. destruct (Z.eqb_spec b 0); [done|]. destruct Hdi as [->|[? ->]]; [left|right; split; [done|]].
    - rewrite Hl. pose proof (update_concat 512 _ (contents_uniform s2) _ _ (pos mod 512) data Hc ltac:(lia) ltac:(lia)) as Hup.
      by rewrite <-Epos in Hup.
    - by rewrite list_insert_id. }
  assert (Hff : forall x, foreign s x -> foreign (set_device d s2) x /\ blk (set_device d s2) x = blk s x).
  { intros x Hxx. destruct (ex_foreign _ _ Hx2 x Hxx) as [Hx' <-]. by apply Hf3. }
  assert (Hz : sfi_size (sv_i (set_device d s2)) = sfi_size (sv_i s)) by apply Hx2.
  assert (Hkd : sfi_type (sv_i (set_device d s2)) = sfi_type (sv_i s)) by apply Hx2.
  unfold write_post.
  destruct (Z.eqb_spec e 0) as [->|He]; wp_simpl.
  2:{ split; [|apply Hnbig]. cbn [fst]. split_and!; [done|done|done| |done]. by destruct (Z.eqb_spec e 0). }
  destruct Hbytes as [Hbytes|[]]; [|done]. rewrite Hz.
  destruct (Z.ltb_spec (sfi_size (sv_i s)) (pos + Z.of_nat (length data))); wp_simpl; (split; [cbn [fst]|apply Hnbig]).
  - destruct (set_inode_size (set_device d s2) (u32 (pos + Z.of_nat (length data))) Hw3) as (Hw4 & Hb4 & Hf4 & Hk4).
    split_and!; [done| |left; by rewrite Hb4| |by rewrite Hk4].
    + intros x Hxx. destruct (Hff x Hxx) as [Hx' <-]. by apply Hf4.
    + cbn. rewrite u32_small by lia. lia.
  - split_and!; [done|done|by left| |done]. cbn [Z.eqb fst]. lia.
Qed.

(** ** [sfs_itrunc] *)

(** Only the bitmap has changed: the block [b] is free now, and no other. *)
Definition freed b s s' : Prop :=
  volume_ok s' /\ sv_i s' = sv_i s /\ sb_nblocks s' = sb_nblocks s /\ device s' = device s /\
  forall j, 0 <= j -> used s' j = negb (b =? j) && used s j.
Lemma bfree_spec s b : volume_ok s -> 0 < b < sb_nblocks s -> used s b = true -> wp (sfs_bfree b) (fun _ => freed b s) s.
Proof.
  intros [Hm Hn Ht Hz Hok Hd] Hb Hu. unfold sfs_bfree. rewrite wp_bind, wp_zoom.
  eapply wp_mono; [|apply (fm_unmark_spec (freemap s) b); [done|lia|done]].
  cbv beta. intros _ m (Hm' & Hz' & Hu'). wp_simpl. split_and!; try done. unfold used in *.
  split; unfold used in *; cbn; rewrite ?Hz'; [done|done| | |done|done].
  - intros x Hx. rewrite Hu' by lia. rewrite Ht by done. destruct (Z.eqb_spec b x); [lia|done].
  - rewrite Hu' by lia. destruct (Z.eqb_spec b 0); [lia|done].
Qed.

(** [s'] has lost the blocks of the file for which [f] fails. *)
Record cut (f : nat -> bool) s s' : Prop := {
  cut_wf : wf s';
  cut_refs : forall k b, refs s !! k = Some b -> refs s' !! k = Some (if f k then b else 0);
  cut_blk : forall k b, refs s' !! k = Some b -> b <> 0 -> blk s' b = blk s b;
  cut_size : sfi_size (sv_i s') = sfi_size (sv_i s);
  cut_n : sb_nblocks s' = sb_nblocks s;
  cut_foreign : forall b, foreign s b -> foreign s' b /\ blk s' b = blk s b }.

Lemma cut_refl f s : wf s -> (forall k b, refs s !! k = Some b -> f k = false -> b = 0) -> cut f s s.
Proof.
  intros Hw Hf. split; try done. intros k b Hk. destruct (f k) eqn:E; [done|]. by rewrite (Hf k b Hk E) in Hk.
Qed.
Lemma cut_trans f g s1 s2 s3 : cut f s1 s2 -> cut g s2 s3 -> cut (fun k => f k && g k) s1 s3.
Proof.
  intros H1 H2. split; [apply H2| | | | |].
  - intros k b Hk. rewrite (cut_refs _ _ _ H2 k _ (cut_refs _ _ _ H1 k b Hk)). by destruct (f k), (g k).
  - intros k b Hk Hb. rewrite (cut_blk _ _ _ H2 k b Hk Hb). apply (cut_blk _ _ _ H1 k b); [|done].
    destruct (lookup_lt_is_Some_2 (refs s2) k) as [x Hx].
    { apply lookup_lt_Some in Hk. rewrite (refs_length s3 (cut_wf _ _ _ H2)) in Hk. by rewrite (refs_length s2 (cut_wf _ _ _ H1)). }
    rewrite (cut_refs _ _ _ H2 k x Hx) in Hk. destruct (g k); congruence.
  - by rewrite (cut_size _ _ _ H2), (cut_size _ _ _ H1).
  - by rewrite (cut_n _ _ _ H2), (cut_n _ _ _ H1).
  - intros b Hb. destruct (cut_foreign _ _ _ H1 b Hb) as [Hb2 <-]. by apply (cut_foreign _ _ _ H2).
Qed.
Lemma cut_ext f g s s' : (forall k, (k < 143)%nat -> f k = g k) -> wf s -> cut f s s' -> cut g s s'.
Proof.
  intros Hfg Hw [? Hr ? ? ? ?]. split; try done. intros k b Hk. rewrite <-Hfg; [by apply Hr|].
  apply lookup_lt_Some in Hk. by rewrite (refs_length s Hw) in Hk.
Qed.
(** The file afterwards: the blocks that are gone read as zeros. *)
Lemma cut_contents f s s' : wf s -> cut f s s' ->
  contents s' = imap (fun k x => if f k then x else zeros) (contents s).
Proof.
  intros Hw Hc. apply list_eq. intros k. rewrite list_lookup_imap. unfold contents. rewrite !list_lookup_fmap.
  destruct (refs s !! k) as [b|] eqn:Hk; cbn.
  - assert (Hk' := cut_refs _ _ _ Hc k b Hk). rewrite Hk'. cbn. f_equal. destruct (f k); [|done].
    unfold block_data. destruct (Z.eqb_spec b 0); [done|]. by apply (cut_blk _ _ _ Hc k).
  - apply lookup_ge_None in Hk. rewrite lookup_ge_None_2; [done|].
    by rewrite (refs_length s' (cut_wf _ _ _ Hc)), <-(refs_length s Hw).
Qed.

Lemma foreign_freed s s' b x : foreign s x -> b <> 0 -> b ∈ slots s -> device s' = device s ->
  (forall j, 0 <= j -> used s' j = negb (b =? j) && used s j) ->
  (forall y, y ∈ slots s' -> y = 0 \/ y ∈ slots s) -> foreign s' x /\ blk s' x = blk s x.
Proof.
  intros (Hu & Hx & Hn) Hb Hbs Hd Hu' Hsl. split; [split; [|split; [done|]]|unfold blk; by rewrite Hd].
  - rewrite Hu', Hu by done. destruct (Z.eqb_spec b x) as [->|]; [by destruct (Hn Hb)|done].
  - intros Hx0 Hin. destruct (Hsl x Hin) as [|Hin']; [done|by apply (Hn Hx0)].
Qed.

(** Freeing one direct block. *)
Lemma free_direct s s1 b k : wf s -> refs s !! k = Some b -> b <> 0 -> (k < 15)%nat -> freed b s s1 ->
  let s2 := set_inode (set_direct (Z.of_nat k) 0 (sv_i s1)) s1 in
  cut (fun k' => negb (Nat.eqb k k')) s s2 /\ device s2 = device s /\ sfi_indirect (sv_i s2) = sfi_indirect (sv_i s).
Proof.
  intros Hw Hk Hb Hk15 Hf s2. pose proof Hf as (Hv & Hi & Hn & Hd & Hu).
  assert (Hind : ind_words s2 = ind_words s) by (unfold ind_words, blk; cbn; by rewrite Hi, Hd).
  assert (Hr : refs s2 = <[k := 0]> (refs s)).
  { unfold refs. rewrite Hind, insert_app_l by (by rewrite (wf_direct s Hw)). cbn. by rewrite Hi, Nat2Z.id. }
  assert (Hs2 : slots s2 = <[S k := 0]> (slots s)) by (unfold slots; rewrite Hr; cbn; by rewrite Hi).
  split; [|split; [done|cbn; by rewrite Hi]]. split.
  - split; [by destruct Hv; split|cbn; rewrite Hi, length_insert; apply Hw|].
    rewrite Hs2. change (sb_nblocks s2) with (sb_nblocks s1). rewrite Hn. eapply slots_clear; [apply Hw|done|done|apply Hu].
  - intros k' x Hx. rewrite Hr. destruct (Nat.eqb_spec k k') as [<-|Hkk]; cbn.
    + apply list_lookup_insert_eq. by eapply lookup_lt_Some.
    + by rewrite list_lookup_insert_ne.
  - intros _ x _ _. unfold blk. change (device s2) with (device s1). by rewrite Hd.
  - cbn. by rewrite Hi.
  - done.
  - intros x Hx. apply (foreign_freed s s2 b x); [done|done|right; by eapply list_elem_of_lookup_2|done|done|].
    intros y. rewrite Hs2. intros [j [(_ & <- & _)|(_ & Hy)]%list_lookup_insert_Some]%list_elem_of_lookup; [by left|].
    right. by eapply list_elem_of_lookup_2.
Qed.

Lemma trunc_direct_spec n s (i : nat) blocklen : wf s -> (i + n = 15)%nat ->
  wp (trunc_direct n (Z.of_nat i) blocklen) (fun _ s' =>
    cut (fun k => negb ((Nat.leb i k) && (Nat.ltb k 15) && (blocklen <=? Z.of_nat k))) s s' /\
    device s' = device s /\ sfi_indirect (sv_i s') = sfi_indirect (sv_i s)) s.
Proof.
  revert s i. induction n as [|n IH]; intros s i Hw Hin; cbn [trunc_direct].
  - rewrite wp_ret. split; [|done]. apply cut_refl; [done|]. intros k b Hk E.
    assert (k < 15 \/ 15 <= k)%nat as [|] by lia; [rewrite (proj2 (Nat.leb_gt i k)) in E by lia; done|].
    rewrite (proj2 (Nat.ltb_ge k 15)) in E by lia. by rewrite andb_false_r in E.
  - wp_simpl. rewrite Nat2Z.id. destruct (lookup_lt_is_Some_2 (sfi_direct (sv_i s)) i) as [b Hb]; [rewrite (wf_direct s Hw); lia|].
    wp_simpl. assert (Hr := Hb). rewrite <-refs_direct in Hr by (done || lia).
    replace (Z.of_nat i + 1) with (Z.of_nat (S i)) by lia.
    set (g := fun k => negb (Nat.leb (S i) k && Nat.ltb k 15 && (blocklen <=? Z.of_nat k))).
    assert (Hext : forall k, (k <> i)%nat -> g k = negb (Nat.leb i k && Nat.ltb k 15 && (blocklen <=? Z.of_nat k))).
    { intros k Hk. unfold g. do 3 f_equal. destruct (Nat.leb_spec i k), (Nat.leb_spec (S i) k); lia || done. }
    destruct ((blocklen <=? Z.of_nat i) && negb (b =? 0)) eqn:E; cbv iota; wp_simpl.
    + apply andb_true_iff in E as [E1 E2]. apply Z.leb_le in E1. apply negb_true_iff, Z.eqb_neq in E2.
      destruct (refs_used s i b Hw Hr E2). eapply wp_mono; [|by apply bfree_spec; [apply Hw|..]].
      cbv beta. intros _ s1 Hf. wp_simpl. destruct (free_direct s s1 b i Hw Hr E2 ltac:(lia) Hf) as (Hc & Hd & Hi).
      set (s2 := set_inode _ _) in *. eapply wp_mono; [|apply (IH s2 (S i)); [apply Hc|lia]].
      cbv beta. intros _ s3 (Hc3 & Hd3 & Hi3). split; [|split; congruence].
      eapply cut_ext; [|done|eapply cut_trans; [exact Hc|exact Hc3]]. intros k Hk. cbv beta.
      destruct (Nat.eqb_spec i k) as [<-|Hik]; cbn [negb andb]; [|apply (Hext k); lia].
      rewrite Nat.leb_refl, (proj2 (Nat.ltb_lt i 15)), (proj2 (Z.leb_le _ _)) by lia. done.
    + eapply wp_mono; [|apply (IH s (S i)); [done|lia]]. cbv beta. intros _ s3 (Hc3 & Hd3 & Hi3). split; [|done].
      assert (Hc0 : cut (fun k => negb (Nat.eqb i k && (blocklen <=? Z.of_nat k))) s s).
      { apply cut_refl; [done|]. intros k x Hk Ek. apply negb_false_iff, andb_true_iff in Ek as [->%Nat.eqb_eq Ek].
        rewrite Ek in E. cbn in E. apply negb_false_iff, Z.eqb_eq in E. congruence. }
      eapply cut_ext; [|done|eapply cut_trans; [exact Hc0|exact Hc3]]. intros k Hk. cbv beta.
      destruct (Nat.eqb_spec i k) as [<-|Hik]; cbn [negb andb]; [|apply (Hext k); lia].
      rewrite Nat.leb_refl, (proj2 (Nat.ltb_lt i 15)), (proj2 (Nat.leb_gt (S i) i)) by lia. cbn. by destruct (blocklen <=? Z.of_nat i).
Qed.

(** The loop over the indirect block: the bitmap follows the buffer [buf], next to the
    other block numbers [pre] of the inode. *)
Record loop_post (pre : list Z) (j : nat) (blocklen : Z) (buf : list Z) (hnz dirty : bool) s
    (r : list Z * bool * bool) s' : Prop := {
  lp_volume : volume_ok s';
  lp_same : sv_i s' = sv_i s /\ sb_nblocks s' = sb_nblocks s /\ device s' = device s;
  lp_slots : slots_ok (used s') (sb_nblocks s) (pre ++ r.1.1);
  lp_length : length r.1.1 = 128%nat;
  lp_words : forall k x, buf !! k = Some x ->
    r.1.1 !! k = Some (if Nat.leb j k && (blocklen <? 15 + Z.of_nat k) then 0 else x);
  lp_zero : r.1.2 = false -> hnz = false /\ forall k x, (j <= k)%nat -> r.1.1 !! k = Some x -> x = 0;
  lp_clean : r.2 = false -> dirty = false /\ r.1.1 = buf;
  lp_dirty : r.2 = true -> dirty = true \/ exists b, b ∈ buf /\ b <> 0 /\ used s' b = false;
  lp_others : forall x, 0 <= x -> used s x = true -> (x <> 0 -> x ∉ pre ++ buf) -> used s' x = true;
  lp_free : forall x, 0 <= x -> used s x = false -> used s' x = false }.

Lemma trunc_indirect_spec pre blocklen n s (j : nat) buf hnz dirty :
  volume_ok s -> slots_ok (used s) (sb_nblocks s) (pre ++ buf) -> length buf = 128%nat -> (j + n = 128)%nat ->
  wp (trunc_indirect n (Z.of_nat j) blocklen buf hnz dirty) (loop_post pre j blocklen buf hnz dirty s) s.
Proof.
  revert s j buf hnz dirty. induction n as [|n IH]; intros s j buf hnz dirty Hv Hsl Hl Hj; cbn [trunc_indirect].
  - rewrite wp_ret. split; cbn [fst snd]; try done; [| |by left].
    + intros k x Hk. assert (Hk' := Hk). apply lookup_lt_Some in Hk'. by rewrite (proj2 (Nat.leb_gt j k)) by lia.
    + intros E. split; [done|]. intros k x Hk Hx. apply lookup_lt_Some in Hx. lia.
  - rewrite Nat2Z.id. destruct (lookup_lt_is_Some_2 buf j) as [b Hb]; [lia|]. rewrite Hb. wp_simpl.
    replace (Z.of_nat j + 1) with (Z.of_nat (S j)) by lia.
    assert (Hpre : (pre ++ buf) !! (length pre + j)%nat = Some b) by (rewrite lookup_app_r by lia; rewrite <-Hb; f_equal; lia).
    assert (Hwords : forall k x, (k <> j)%nat ->
      (if Nat.leb (S j) k && (blocklen <? 15 + Z.of_nat k) then 0 else x) =
      (if Nat.leb j k && (blocklen <? 15 + Z.of_nat k) then 0 else x)).
    { intros k x Hk. destruct (Nat.leb_spec (S j) k), (Nat.leb_spec j k); try done; lia. }
    destruct ((blocklen <? SFS_NDIRECT + Z.of_nat j) && negb (b =? 0)) eqn:E; cbv iota; wp_simpl.
    + apply andb_true_iff in E as [E1 E2]. apply negb_true_iff, Z.eqb_neq in E2. unfold SFS_NDIRECT in E1.
      destruct (so_range _ _ _ Hsl _ _ Hpre E2) as [Hr Hu]. eapply wp_mono; [|by apply bfree_spec].
      cbv beta. intros _ s1 (Hv1 & Hi1 & Hn1 & Hd1 & Hu1). wp_simpl.
      rewrite (list_lookup_insert_eq buf j 0) by lia. wp_simpl. rewrite orb_false_r.
      eapply wp_mono; [|apply (IH s1 (S j) (<[j := 0]> buf) hnz true); [done| |by rewrite length_insert|lia]].
      2:{ rewrite Hn1. rewrite <-insert_app_r. eapply slots_clear; [exact Hsl|exact Hpre|done|done]. }
      cbv beta. intros [[buf' hnz'] dirty'] s2 [? ? ? ? Hw Hz Hc Hdi Ho Hf]; cbn [fst snd] in *.
      split; cbn [fst snd]; [done|naive_solver congruence|by rewrite <-Hn1|done| | | | | |].
      * intros k x Hk. destruct (decide (k = j)) as [->|Hkj].
        -- rewrite (Hw j 0) by (apply list_lookup_insert_eq; lia). rewrite Nat.leb_refl, E1. cbn [andb]. by destruct (_ && _).
        -- rewrite (Hw k x) by (by rewrite list_lookup_insert_ne). by rewrite Hwords.
      * intros E. destruct (Hz E) as [-> Hz']. split; [done|]. intros k x Hk Hx. destruct (decide (k = j)) as [->|]; [|apply (Hz' k); [lia|done]].
        rewrite (Hw j 0) in Hx by (apply list_lookup_insert_eq; lia). case_match; congruence.
      * intros E. by destruct (Hc E).
      * intros _. right. exists b. split_and!; [by eapply list_elem_of_lookup_2|done|].
        apply Hf; [lia|]. rewrite Hu1, Z.eqb_refl by lia. done.
      * intros x Hx Hux Hnx. apply Ho; [done| |].
        -- rewrite Hu1, Hux by done. destruct (Z.eqb_spec b x) as [->|]; [|done]. exfalso. apply (Hnx E2). by eapply list_elem_of_lookup_2.
        -- intros Hx0. specialize (Hnx Hx0). rewrite elem_of_app in *. intros [Hin|[k [(_ & <- & _)|(_ & Hk)]%list_lookup_insert_Some]%list_elem_of_lookup]; [naive_solver|done|].
           apply Hnx. right. by eapply list_elem_of_lookup_2.
      * intros x Hx Hux. apply Hf; [done|]. rewrite Hu1, Hux by done. by rewrite andb_false_r.
    + eapply wp_mono; [|by apply (IH s (S j) buf (hnz || negb (b =? 0)) dirty); [..|lia]].
      cbv beta. intros [[buf' hnz'] dirty'] s2 [? ? ? ? Hw Hz Hc Hdi Ho Hf]; cbn [fst snd] in *.
      split; cbn [fst snd]; try done.
      * intros k x Hk. rewrite (Hw k x Hk). destruct (decide (k = j)) as [->|Hkj]; [|by rewrite Hwords].
        rewrite Nat.leb_refl, (proj2 (Nat.leb_gt (S j) j)) by lia. cbn [andb]. replace x with b by congruence.
        destruct (blocklen <? 15 + Z.of_nat j) eqn:E1; [|done]. unfold SFS_NDIRECT in E. rewrite E1 in E. cbn in E.
        apply negb_false_iff, Z.eqb_eq in E. by subst.
      * intros E'. destruct (Hz E') as [[-> Hb0]%orb_false_iff Hz']. split; [done|]. apply negb_false_iff, Z.eqb_eq in Hb0. subst b.
        intros k x Hk Hx. destruct (decide (k = j)) as [->|]; [|apply (Hz' k); [lia|done]].
        rewrite (Hw j 0 Hb) in Hx. case_match; congruence.
Qed.

(** The blocks that are left, in the indirect part and in all. *)
Definition ind_left (blocklen : Z) (k : nat) : bool := negb (Nat.leb 15 k && (blocklen <? Z.of_nat k)).
Definition survives (blocklen : Z) (k : nat) : bool :=
  if Nat.ltb k 15 then Z.of_nat k <? blocklen else Z.of_nat k <=? blocklen.

Lemma cut_indirect s s' blocklen : let idb := sfi_indirect (sv_i s) in wf s -> wf s' -> idb <> 0 ->
  sfi_direct (sv_i s') = sfi_direct (sv_i s) -> sfi_size (sv_i s') = sfi_size (sv_i s) -> sb_nblocks s' = sb_nblocks s ->
  (sfi_indirect (sv_i s') = 0 \/ sfi_indirect (sv_i s') = idb) ->
  (forall k x, ind_words s !! k = Some x -> ind_words s' !! k = Some (if blocklen <? 15 + Z.of_nat k then 0 else x)) ->
  (forall b, b <> idb -> blk s' b = blk s b) -> (forall x, foreign s x -> used s' x = true) ->
  cut (ind_left blocklen) s s'.
Proof.
  intros idb Hw Hw' Hid Hdir Hsz Hn Hi Hwords Hblk Hu.
  assert (Hrefs : forall k b, refs s !! k = Some b -> refs s' !! k = Some (if ind_left blocklen k then b else 0)).
  { intros k b Hk. unfold ind_left. destruct (Nat.leb_spec 15 k) as [Hk15|Hk15]; cbn [andb negb].
    - replace k with (15 + (k - 15))%nat in Hk |- * by lia. rewrite refs_indirect in Hk by done. rewrite refs_indirect by done.
      rewrite (Hwords _ _ Hk). replace (15 + Z.of_nat (k - 15)) with (Z.of_nat (15 + (k - 15))) by lia. by destruct (_ <? _).
    - rewrite refs_direct in Hk by done. rewrite refs_direct by done. by rewrite Hdir. }
  assert (Hback : forall k b, refs s' !! k = Some b -> b <> 0 -> refs s !! k = Some b).
  { intros k b Hk Hb. destruct (lookup_lt_is_Some_2 (refs s) k) as [x Hx].
    { apply lookup_lt_Some in Hk. rewrite (refs_length s' Hw') in Hk. by rewrite (refs_length s Hw). }
    rewrite (Hrefs k x Hx) in Hk. destruct (ind_left blocklen k); congruence. }
  split; [done|done| |done|done|].
  - intros k b Hk Hb. apply Hblk. apply (refs_not_indirect s k); [done|by apply Hback|done].
  - intros x Hx. pose proof Hx as (Hux & Hx0 & Hns). split.
    + split; [by apply Hu|split; [done|]]. intros Hne [Ei|[k Hk]%list_elem_of_lookup]%elem_of_cons.
      * apply (Hns Hne). destruct Hi as [Hi|Hi]; [congruence|]. rewrite Ei, Hi. left.
      * apply (Hns Hne). right. eapply list_elem_of_lookup_2. by apply Hback.
    + apply Hblk. intros ->. apply (Hns Hid). left.
Qed.

Definition trunc_post (len : Z) s (e : Z) s' : Prop :=
  (forall x, foreign s x -> foreign s' x /\ blk s' x = blk s x) /\
  (e = 0 -> wf s' /\ sfi_size (sv_i s') = len /\
    contents s' = imap (fun k x => if survives (u32 (Z.quot (len + SFS_BLOCKSIZE - 1) SFS_BLOCKSIZE)) k then x else zeros) (contents s)) /\
  (e <> 0 -> sfi_size (sv_i s') = sfi_size (sv_i s) /\
    (wf s' \/ exists k b, slots s' !! k = Some b /\ b <> 0 /\ used s' b = false)).

(** The part that handles the indirect block, written out. *)
Definition ind_post (blocklen : Z) s (e : Z) s' : Prop :=
  (forall x, foreign s x -> foreign s' x /\ blk s' x = blk s x) /\ sfi_size (sv_i s') = sfi_size (sv_i s) /\
  (e = 0 -> cut (ind_left blocklen) s s') /\
  (e <> 0 -> wf s' \/ exists k b, slots s' !! k = Some b /\ b <> 0 /\ used s' b = false).
Lemma ind_post_cut blocklen s e s' : cut (ind_left blocklen) s s' -> ind_post blocklen s e s'.
Proof. intros Hc. split_and!; [apply Hc|apply Hc|done|left; apply Hc]. Qed.

Lemma used_set_device s d x : used (set_device d s) x = used s x.
Proof. done. Qed.

Section after_loop.
Context (s s3 : sfs B D) (blocklen : Z) (r : list Z * bool * bool) (Hw : wf s).
Let idb := sfi_indirect (sv_i s).
Context (Hid : idb <> 0).
Context (HL : loop_post (idb :: sfi_direct (sv_i s)) 0 blocklen (ind_words s) false false s r s3).

Lemma loop_words k x : ind_words s !! k = Some x ->
  r.1.1 !! k = Some (if blocklen <? 15 + Z.of_nat k then 0 else x).
Proof. apply (lp_words _ _ _ _ _ _ _ _ _ HL). Qed.
Lemma loop_foreign x : foreign s x -> used s3 x = true.
Proof. intros (Hu & Hx & Hn). by apply (lp_others _ _ _ _ _ _ _ _ _ HL). Qed.
Lemma loop_words_range : Forall is_word r.1.1.
Proof.
  apply Forall_lookup. intros k w Hk. destruct (lookup_lt_is_Some_2 (ind_words s) k) as [x Hx].
  { rewrite ind_length, <-(lp_length _ _ _ _ _ _ _ _ _ HL). by eapply lookup_lt_Some. }
  rewrite (loop_words k x Hx) in Hk. injection Hk as <-. case_match; [done|].
  pose proof (ind_range s) as Hr. rewrite Forall_lookup in Hr. by eapply Hr.
Qed.

(** No entry is left: the indirect block goes too. *)
Lemma drop_indirect s4 : r.1.2 = false -> freed idb s3 s4 ->
  cut (ind_left blocklen) s (set_inode (set_indirect 0 (sv_i s4)) s4).
Proof.
  intros Hz (Hv & Hi & Hn & Hd & Hu). destruct HL as [_ (Hi3 & Hn3 & Hd3) Hsl Hl _ Hzero _ _ _ _].
  destruct (Hzero Hz) as [_ Hall]. assert (Hbuf : r.1.1 = replicate 128 0).
  { apply list_eq. intros k. destruct (r.1.1 !! k) as [x|] eqn:Hk.
    - assert (Hk' := Hk). apply lookup_lt_Some in Hk'. rewrite (Hall k x) by (done || lia). symmetry. apply lookup_replicate_2. lia.
    - apply lookup_ge_None in Hk. symmetry. apply lookup_ge_None. rewrite length_replicate. lia. }
  assert (Hind : ind_words (set_inode (set_indirect 0 (sv_i s4)) s4) = replicate 128 0) by done.
  set (s5 := set_inode _ _) in *.
  assert (Hw5 : wf s5).
  { split; [by destruct Hv; split|cbn; rewrite Hi, Hi3; apply Hw|]. unfold slots, refs. rewrite Hind, <-Hbuf. cbn. rewrite Hi, Hi3.
    rewrite Hn, Hn3. eapply (slots_clear (used s3) (used s5) _ _ 0 idb) in Hsl; [exact Hsl|done|done|done]. }
  apply cut_indirect; try done.
  - cbn. by rewrite Hi, Hi3.
  - cbn. by rewrite Hi, Hi3.
  - cbn. by rewrite Hn, Hn3.
  - by left.
  - intros k x Hk. rewrite Hind, <-Hbuf. by apply loop_words.
  - intros b _. unfold blk. change (device s5) with (device s4). by rewrite Hd, Hd3.
  - intros x Hx. change (used s5 x) with (used s4 x). pose proof Hx as (_ & Hx0 & Hns). rewrite Hu, (loop_foreign x Hx) by done.
    destruct (Z.eqb_spec idb x) as [<-|]; [|done]. destruct (Hns Hid). left.
Qed.

(** The indirect block is written back. *)
Lemma write_indirect d e : r.2 = true -> dev_step (device s3) d ->
  (forall b, b <> idb -> dev_block d b = blk s3 b) ->
  (dev_block d idb = bytes_of r.1.1 \/ e <> 0 /\ dev_block d idb = blk s3 idb) ->
  ind_post blocklen s e (set_device d s3).
Proof.
  intros Hdirty Hstep Hdo Hdi. destruct HL as [Hv (Hi3 & Hn3 & Hd3) Hsl Hl _ _ _ Hdd Hoth _].
  assert (Hblk : forall b, b <> idb -> blk (set_device d s3) b = blk s b).
  { intros b Hb. unfold blk in *. cbn. rewrite Hdo by done. by rewrite Hd3. }
  assert (Hv' : volume_ok (set_device d s3)) by by apply set_device_volume.
  destruct Hdi as [Hdi|[He Hdi]].
  - assert (Hind : ind_words (set_device d s3) = r.1.1).
    { unfold ind_words. cbn. rewrite Hi3. fold idb. destruct (Z.eqb_spec idb 0); [done|].
      change (blk (set_device d s3) idb) with (dev_block d idb). rewrite Hdi. apply words_of_bytes; [done|apply loop_words_range]. }
    apply ind_post_cut, cut_indirect; try done.
    + split; [done|cbn; rewrite Hi3; apply Hw|]. unfold slots, refs. rewrite Hind. cbn. by rewrite Hi3, Hn3.
    + cbn. by rewrite Hi3.
    + cbn. by rewrite Hi3.
    + right. cbn. by rewrite Hi3.
    + intros k x Hk. rewrite Hind. by apply loop_words.
    + intros x Hx. by apply loop_foreign.
  - assert (Hb : forall b, blk (set_device d s3) b = blk s b).
    { intros b. destruct (Z.eq_dec b idb) as [->|]; [|by apply Hblk]. unfold blk in *. cbn. by rewrite Hdi, Hd3. }
    assert (Hsl' : slots (set_device d s3) = slots s).
    { unfold slots, refs, ind_words. rewrite Hb. cbn. by rewrite Hi3. }
    split_and!; [|cbn; by rewrite Hi3|done|].
    + intros x Hx. split; [|done]. pose proof Hx as (_ & Hx0 & Hns). split; [by apply loop_foreign|split; [done|]]. by rewrite Hsl'.
    + intros _. right. destruct (Hdd Hdirty) as [|(b & [k Hk]%list_elem_of_lookup & Hb0 & Hub)]; [done|].
      exists (S (15 + k)), b. split_and!; [|done|done]. rewrite Hsl'. unfold slots. cbn [lookup list_lookup]. by rewrite refs_indirect.
Qed.

(** Nothing was freed. *)
Lemma keep_indirect : r.2 = false -> cut (ind_left blocklen) s s3.
Proof.
  intros Hc. pose proof loop_foreign as Hfor. pose proof loop_words as Hwo. destruct HL as [Hv (Hi3 & Hn3 & Hd3) Hsl Hl _ _ Hcl _ _ _].
  destruct (Hcl Hc) as [_ Hbuf]. assert (Hb : forall b, blk s3 b = blk s b) by (intros b; unfold blk; by rewrite Hd3).
  assert (Hind : ind_words s3 = ind_words s) by (unfold ind_words; by rewrite Hb, Hi3).
  apply cut_indirect; try done.
  - split; [done|rewrite Hi3; apply Hw|]. unfold slots, refs. by rewrite Hind, Hi3, <-Hbuf, Hn3.
  - by rewrite Hi3.
  - by rewrite Hi3.
  - right. by rewrite Hi3.
  - intros k x Hk. rewrite Hind, <-Hbuf. exact (Hwo k x Hk).
Qed.
End after_loop.

Lemma ind_post_later blocklen s s1 e s2 : wf s -> same_disk s s1 -> ind_post blocklen s1 e s2 -> ind_post blocklen s e s2.
Proof.
  intros Hw Hs (Hf & Hz & Hc & He). destruct (same_refs s s1 Hw Hs) as [Hr _]. pose proof (same_extends s s1 Hw Hs) as Hx.
  assert (Hf' : forall x, foreign s x -> foreign s2 x /\ blk s2 x = blk s x).
  { intros x Hxx. destruct (ex_foreign _ _ Hx x Hxx) as [Hx1 <-]. by apply Hf. }
  split_and!; [done|by rewrite Hz; apply Hx| |done]. intros E. destruct (Hc E) as [? Hrr Hb ? Hnn ?].
  split; [done|by rewrite <-Hr| |by rewrite Hz; apply Hx|by rewrite Hnn; apply Hx|done].
  intros k b Hk Hb0. rewrite (Hb k b Hk Hb0). destruct Hs as (d & -> & _ & Hd). unfold blk. cbn. by rewrite Hd.
Qed.

Lemma itrunc_indirect s blocklen : wf s ->
  wp (if (blocklen <? SFS_NDIRECT + SFS_DBPERIDB - 1) && negb (sfi_indirect (sv_i s) =? 0) then
       '(result, data) ← sfs_readblock (sfi_indirect (sv_i s));
       if negb (result =? 0) then mret result else
       r ← trunc_indirect (Z.to_nat SFS_DBPERIDB) 0 blocklen (words_of data) false false;
       let '(idbuf, hasnonzero, iddirty) := r : list Z * bool * bool in
       if negb hasnonzero then
         sfs_bfree (sfi_indirect (sv_i s));;
         modify (fun s => set_inode (set_indirect 0 (sv_i s)) s);;
         mret 0
       else if iddirty then sfs_writeblock (sfi_indirect (sv_i s)) (bytes_of idbuf)
       else mret 0
     else mret 0 : K (sfs B D) Z) (ind_post blocklen s) s.
Proof.
  intros Hw. change (SFS_NDIRECT + SFS_DBPERIDB - 1) with 142.
  destruct ((blocklen <? 142) && negb (sfi_indirect (sv_i s) =? 0)) eqn:E; cbv iota; wp_simpl.
  2:{ apply ind_post_cut, cut_refl; [done|]. intros k b Hk Ek. unfold ind_left in Ek.
      apply negb_false_iff, andb_true_iff in Ek as [Ek1%Nat.leb_le Ek2%Z.ltb_lt].
      assert (Hlt : (k < 143)%nat) by (rewrite <-(refs_length s Hw); by eapply lookup_lt_Some).
      rewrite (proj2 (Z.ltb_lt blocklen 142)) in E by lia. cbn [andb] in E. apply negb_false_iff in E.
      replace k with (15 + (k - 15))%nat in Hk by lia. rewrite refs_indirect in Hk by done. unfold ind_words in Hk. rewrite E in Hk.
      by apply lookup_replicate in Hk as [-> _]. }
  apply andb_true_iff in E as [_ Hid%negb_true_iff%Z.eqb_neq]. set (idb := sfi_indirect (sv_i s)) in *.
  destruct (indirect_used s Hw Hid) as [Hir Hiu]. fold idb in Hir, Hiu. pose proof (vo_dev s (wf_volume s Hw)).
  eapply wp_mono; [|apply (readblock_spec s); [apply vo_ok, Hw|lia]]. cbv beta. intros [e l] s1 (Hs & Hl & _); cbn [fst snd] in *.
  pose proof (same_extends s s1 Hw Hs) as Hx1. assert (Hw1 := ex_wf _ _ Hx1).
  assert (Hi1 : sv_i s1 = sv_i s) by (by destruct Hs as (? & -> & _)).
  eapply wp_mono with (P := ind_post blocklen s1); [intros e' s'; by apply ind_post_later|].
  destruct (Z.eqb_spec e 0) as [->|He]; wp_simpl.
  2:{ split_and!; [done|done|done|by left]. }
  assert (Hid1 : sfi_indirect (sv_i s1) = idb) by (by rewrite Hi1).
  assert (Hwords : words_of l = ind_words s1).
  { rewrite Hl by done. unfold ind_words. rewrite Hid1. destruct (Z.eqb_spec idb 0); [done|].
    destruct Hs as (d & -> & _ & Hd). unfold blk. cbn. by rewrite Hd. }
  rewrite Hwords. eapply wp_mono; [|apply (trunc_indirect_spec (idb :: sfi_direct (sv_i s1)) blocklen _ s1 0); [apply Hw1| |apply ind_length|done]].
  2:{ rewrite <-Hid1. apply (wf_slots s1 Hw1). }
  cbv beta. intros r s3 HL. rewrite <-Hid1 in HL, Hid. destruct r as [[idbuf hnz] dirty]. cbv zeta iota.
  pose proof (ex_n _ _ Hx1) as Hn1. pose proof HL as [Hv3 (Hi3 & Hn3 & Hd3) Hsl3 Hl3 _ _ _ _ _ _]. cbn [fst snd] in *.
  destruct hnz; [destruct dirty|]; cbn [negb]; wp_simpl.
  - eapply wp_mono; [|apply (writeblock_spec s3); [by apply vo_ok|lia|by apply bytes_of_length|apply bytes_of_bytes]].
    cbv beta. intros e s4 (d & -> & Hstep & Hdo & Hdi). rewrite <-Hid1 in Hdo, Hdi. by eapply (write_indirect s1 s3 blocklen (idbuf, true, true)).
  - by eapply ind_post_cut, (keep_indirect s1 s3 blocklen (idbuf, true, false)).
  - assert (Hu3 : used s3 idb = true).
    { rewrite <-Hid1. by apply (so_range _ _ _ Hsl3 O). }
    eapply wp_mono; [|apply (bfree_spec s3); [done|lia|done]]. cbv beta. intros _ s4 Hf. wp_simpl.
    rewrite <-Hid1 in Hf. by eapply ind_post_cut, (drop_indirect s1 s3 blocklen (idbuf, false, dirty)).
Qed.

Lemma itrunc_spec s len : wf s -> 0 <= len < 2 ^ 32 -> wp (sfs_itrunc len) (trunc_post len s) s.
Proof.
  intros Hw Hlen. unfold sfs_itrunc, trunc_post. set (blocklen := u32 (Z.quot _ _)). wp_simpl.
  eapply wp_mono; [|apply (trunc_direct_spec 15 s 0); [done|lia]]. cbv beta. intros _ s1 (Hc1 & Hd1 & Hi1). wp_simpl.
  assert (Hw1 := cut_wf _ _ _ Hc1).
  eapply wp_mono; [|by apply itrunc_indirect]. cbv beta. intros e s2 (Hf & Hz & Hc & He).
  assert (Hff : forall x, foreign s x -> foreign s2 x /\ blk s2 x = blk s x).
  { intros x Hx. destruct (cut_foreign _ _ _ Hc1 x Hx) as [Hx1 <-]. by apply Hf. }
  destruct (Z.eqb_spec e 0) as [->|He0]; wp_simpl.
  - specialize (Hc eq_refl). destruct (set_inode_size s2 (u32 len) (cut_wf _ _ _ Hc)) as (Hw3 & Hb3 & Hf3 & _).
    split_and!; [|intros _; split_and!|done].
    + intros x Hx. destruct (Hff x Hx) as [Hx2 <-]. by apply Hf3.
    + done.
    + cbn. by apply u32_small.
    + assert (Hcc : cut (survives blocklen) s s2).
      { eapply cut_ext; [|done|eapply cut_trans; [exact Hc1|exact Hc]]. intros k Hk. cbv beta. unfold ind_left, survives.
        destruct (Nat.ltb_spec k 15), (Nat.leb_spec 0 k), (Nat.leb_spec 15 k), (Z.leb_spec blocklen (Z.of_nat k)),
          (Z.ltb_spec blocklen (Z.of_nat k)), (Z.ltb_spec (Z.of_nat k) blocklen), (Z.leb_spec (Z.of_nat k) blocklen);
          cbn; (done || lia). }
      rewrite <-(cut_contents _ _ _ Hw Hcc). done.
  - split_and!; [done|done|]. intros _. rewrite Hz. split; [apply Hc1|by apply He].
Qed.

(** C15. [sfs_metaio] on a well-formed volume is reading and writing bytes of the file.  A
    read that succeeds gives the bytes of the region and changes no block.  A write that
    succeeds replaces exactly the bytes of the region and extends the size if it has to;
    one that fails has replaced them all or none and leaves the size.  Blocks that are
    allocated on the way keep the volume well-formed and are taken from no other file.
    Beyond the largest file both answer [EFBIG]; no other block number panics. *)
Theorem sfs_metaio_correct s pos data dir : wf s ->
  0 <= pos -> pos + Z.of_nat (length data) < 2 ^ 32 -> pos mod 512 + Z.of_nat (length data) <= 512 -> Forall is_byte data ->
  wp (sfs_metaio pos data (Z.of_nat (length data)) dir) (fun r s' =>
    match dir with
    | UIO_READ => same_disk s s' /\ (r.1 = 0 -> r.2 = region pos (Z.of_nat (length data)) (file_bytes s))
    | UIO_WRITE => write_post s pos data r.1 s'
    end /\ (max_size <= pos -> r.1 = EFBIG)) s.
Proof.
  intros Hw Hp Hlt Hfit Hy. destruct dir.
  - eapply wp_mono; [|apply metaio_read; [done|lia|lia|done]]. cbv beta. naive_solver.
  - by apply metaio_write.
Qed.

(** [sfs_bmap] for a block of the file.  Without allocation it changes no block and
    gives the number of the block, 0 for a hole.  With allocation it never gives 0; the
    volume stays well-formed, the file reads as before, and every block that belongs to
    others stays theirs, with its contents, on every path, errors included ([ENOSPC], an
    I/O error while a block is cleared or the indirect block is read or written). *)
Lemma sfs_bmap_correct s fb doalloc : wf s -> 0 <= fb ->
  wp (sfs_bmap fb doalloc) (fun r s' => (if doalloc then extends s s' else same_disk s s') /\
    (r.1 = 0 -> refs s' !! Z.to_nat fb = Some r.2 /\ (doalloc = true -> r.2 <> 0)) /\
    (143 <= fb -> r.1 = EFBIG)) s.
Proof.
  intros Hw Hfb. eapply wp_mono; [|by apply bmap_spec]. cbv beta. intros r s' [(H1 & H2 & _) H3]. by split_and!.
Qed.

(** [sfs_itrunc] to [len] bytes.  When it succeeds the volume is well-formed, the size
    is [len], and the file has lost exactly the blocks that [survives] rejects: the direct
    ones at or behind the end, but of the indirect part only those strictly behind the
    first one that should go.  Blocks that belong to others are untouched.  When it fails
    the size is as before, and the volume is well-formed or, the indirect block not having
    been written back, still names a block that is already free. *)
Lemma sfs_itrunc_correct s len : wf s -> 0 <= len < 2 ^ 32 ->
  wp (sfs_itrunc len) (fun e s' =>
    (forall x, foreign s x -> foreign s' x /\ blk s' x = blk s x) /\
    (e = 0 -> wf s' /\ sfi_size (sv_i s') = len /\
      contents s' = imap (fun k x => if survives ((len + 511) / 512) k then x else zeros) (contents s)) /\
    (e <> 0 -> sfi_size (sv_i s') = sfi_size (sv_i s) /\
      (wf s' \/ exists k b, slots s' !! k = Some b /\ b <> 0 /\ used s' b = false))) s.
Proof.
  intros Hw Hlen. eapply wp_mono; [|by apply itrunc_spec]. cbv beta. intros e s'. unfold trunc_post, SFS_BLOCKSIZE.
  replace (len + 512 - 1) with (len + 511) by lia.
  rewrite Z.quot_div_nonneg, u32_small by (lia || (pose proof (Z.div_lt_upper_bound (len + 511) 512 (2 ^ 32)); pose proof (Z.div_pos (len + 511) 512); lia)).
  done.
Qed.
End theory.

(** ** A small disk *)

Module Sfs_sample.
(** Sixteen blocks; the list says which of the next transfers fail. *)
Definition ram_disk : Type := list bool * gmap Z (list Z).
Definition norm (l : list Z) : list Z := (fun i : nat => default 0 (l !! i) mod 256) <$> seq 0 512.
Definition ram_block (d : ram_disk) (b : Z) : list Z := norm (default [] (d.2 !! b)).
Definition ram_read (b : Z) : K ram_disk (Z * list Z) :=
  d ← get; put (tail d.1, d.2);;
  mret (if negb ((0 <=? b) && (b <? 16)) then (EINVAL, []) else if default false (head d.1) then (EIO, []) else (0, ram_block d b)).
Definition ram_write (b : Z) (l : list Z) : K ram_disk (Z * list Z) :=
  d ← get;
  if negb ((0 <=? b) && (b <? 16)) then mret (EINVAL, l) else
  if default false (head d.1) then put (tail d.1, d.2);; mret (EIO, l) else put (tail d.1, <[b := l]> d.2);; mret (0, []).

Lemma norm_ok l : length (norm l) = 512%nat /\ Forall is_byte (norm l).
Proof.
  unfold norm. split; [by rewrite length_fmap, length_seq|]. apply Forall_fmap, Forall_true. intros i. apply Z.mod_pos_bound. lia.
Qed.
Lemma norm_id l : length l = 512%nat -> Forall is_byte l -> norm l = l.
Proof.
  intros Hl Hy. apply list_eq. intros i. unfold norm. rewrite list_lookup_fmap. destruct (decide (i < 512)%nat) as [Hi|Hi].
  - rewrite lookup_seq_lt by done. cbn. destruct (lookup_lt_is_Some_2 l i) as [x Hx]; [lia|]. rewrite Hx. cbn.
    rewrite Forall_lookup in Hy. f_equal. apply Z.mod_small. by apply (Hy i).
  - rewrite (lookup_ge_None_2 l) by lia. by rewrite lookup_seq_ge by lia.
Qed.

#[local, refine] Instance ram_is_disk : Disk ram_disk := {|
  dev_blocks := 16; dev_block := ram_block; dev_read := ram_read; dev_write := ram_write;
  dev_ok _ := True; dev_step _ _ := True |}.
Proof.
  - by split.
  - done.
  - done.
  - intros d b. apply norm_ok.
  - intros d b _ [??]. unfold ram_read. rewrite (proj2 (Z.leb_le 0 b)), (proj2 (Z.ltb_lt b 16)) by done. cbn [andb negb].
    wp_simpl. split; [done|]. split; [done|]. case_match; by split_and!.
  - intros d b l _ [??] Hl Hy. unfold ram_write. rewrite (proj2 (Z.leb_le 0 b)), (proj2 (Z.ltb_lt b 16)) by done. cbn [andb negb].
    wp_simpl. case_match; wp_simpl.
    + split_and!; [done|done|by right|done|done].
    + split_and!; [done| |left|done|done]; unfold ram_block; cbn; [intros b' Hb; by rewrite lookup_insert_ne|].
      rewrite lookup_insert_eq. by apply norm_id.
Defined.

(** A file of one block, number 5; blocks 0 to 3 are the system's. *)
Definition one_block : dinode := Dinode 512 1 1 (<[0%nat := 5]> (replicate 15 0)) 0.
Definition small (fails : list bool) : sfs Bitmap.bitmap ram_disk :=
  Volume (Bitmap.MkBitmap 16 [0x2f; 0]) false 16 (fails, {[5 := replicate 512 7]}) one_block false.

Lemma small_slots fails : slots (small fails) = <[1%nat := 5]> (replicate 144 0).
Proof. reflexivity. Qed.
Lemma small_wf fails : wf (small fails).
Proof.
  split; [split| |]; try done.
  - split_and!; try done; [forall_list; by compute|]. cbn. lia.
  - cbn. lia.
  - rewrite small_slots. apply slots_insert; [|done|done|].
    + split; [intros k b [-> _]%lookup_replicate|intros i j b [-> _]%lookup_replicate]; done.
    + rewrite elem_of_replicate. by intros [? _].
Qed.

Lemma sfs_metaio_correct_witness :
  match sfs_metaio 510 [1; 2] 2 UIO_WRITE (small []) with
  | Ret r s' => write_post (small []) 510 [1; 2] r.1 s' /\ r.1 = 0
  | _ => False
  end.
Proof.
  assert (Hy : Forall is_byte [1; 2]) by (forall_list; by compute).
  pose proof (sfs_metaio_correct (small []) 510 [1; 2] UIO_WRITE (small_wf []) ltac:(done) eq_refl ltac:(done) Hy) as Hs.
  unfold wp in Hs. change (Z.of_nat (length [1; 2])) with 2 in Hs.
  destruct (sfs_metaio 510 [1; 2] 2 UIO_WRITE (small [])) as [r s'| | |] eqn:E; [|done..]. destruct Hs as [Hs _]. split; [exact Hs|].
  assert (Hr : match sfs_metaio 510 [1; 2] 2 UIO_WRITE (small []) with Ret r _ => r.1 = 0 | _ => False end) by (vm_compute; reflexivity).
  by rewrite E in Hr.
Defined.

(** The indirect block is allocated while the clearing of the data block fails for ever. *)
Definition bad_disk : sfs Bitmap.bitmap ram_disk := small (false :: replicate 11 true).
Lemma sfs_bmap_correct_witness :
  wp (sfs_bmap 20 true) (fun r s' => extends bad_disk s' /\ r.1 = EIO /\ sfi_indirect (sv_i s') = 4) bad_disk.
Proof.
  pose proof (sfs_bmap_correct bad_disk 20 true (small_wf _) ltac:(done)) as Hs. unfold wp in *.
  destruct (sfs_bmap 20 true bad_disk) as [r s'| | |] eqn:E; [|done..]. split; [apply Hs|].
  assert (Hr : match sfs_bmap 20 true bad_disk with Ret r s' => r.1 = EIO /\ sfi_indirect (sv_i s') = 4 | _ => False end)
    by (vm_compute; done).
  by rewrite E in Hr.
Defined.

Lemma sfs_itrunc_correct_witness :
  wp (sfs_itrunc 0) (fun e s' => (e = 0 -> wf s') /\ e = 0) (small []).
Proof.
  pose proof (sfs_itrunc_correct (small []) 0 (small_wf _) ltac:(done)) as Hs. unfold wp in *.
  destruct (sfs_itrunc 0 (small [])) as [e s'| | |] eqn:E; [|done..]. destruct Hs as (_ & Hs & _). split; [intros He; by apply Hs|].
  assert (Hr : match sfs_itrunc 0 (small []) with Ret e _ => e = 0 | _ => False end) by (vm_compute; reflexivity).
  by rewrite E in Hr.
Defined.

(** Block 15 survives truncation to 15 blocks: when the file grows again, the old bytes
    are back. *)
Definition shrink_and_grow : K (sfs Bitmap.bitmap ram_disk) (list Z) :=
  sfs_metaio (15 * 512) [42] 1 UIO_WRITE;; sfs_itrunc (15 * 512);;
  sfs_metaio (15 * 512 + 1) [1] 1 UIO_WRITE;; r ← sfs_metaio (15 * 512) [0] 1 UIO_READ; mret r.2.
Example truncate_keeps_a_block : match shrink_and_grow (small []) with Ret l _ => l = [42] | _ => False end.
Proof. vm_compute. reflexivity. Qed.
End Sfs_sample.
