(* ===== verification/Sfskeep.v ===== *)
(** * What the operations inside a file of SFS keep, and SFS on a disk that does not fail

    Two additions to [Sfs] for those who handle many files at once ([Sfsdir], [Sfsvnode]).
    [touch] is what every operation inside a file, whatever its result, leaves alone: type,
    link count, size of the volume and of its bitmap; and if it changes the inode or the
    bitmap it marks it dirty.
    And under [reliable], where no transfer fails, an operation that fails has done nothing
    to the file's bytes, overwriting what is there does not fail, and truncation does not. *)
From S2P Require Import Prelude Bitmap Sfs.
Import Sfs.Sfs.

Lemma keeps_wp {S A} (R : S -> S -> Prop) (m : K S A) Q s : (forall s, R s s) -> (forall s0, keeps (R s0) m) -> wp m Q s -> wp m (fun a s' => Q a s' /\ R s s') s.
Proof. intros HR Hk Hm. specialize (Hk s s (HR s)). unfold wp, wlp in *. by destruct (m s). Qed.
Lemma wp_cond {S A} (P : Prop) (m : K S A) Q Q' s : wp m Q s -> (P -> wp m Q' s) -> wp m (fun a s' => Q a s' /\ (P -> Q' a s')) s.
Proof. unfold wp. by destruct (m s). Qed.

Lemma keeps_zoom_post {S T A} (P : S -> Prop) (L : lens S T) (m : K T A) (Q : T -> A -> T -> Prop) :
  (forall t, wlp m (Q t) t) -> (forall s a t, P s -> Q (lget L s) a t -> P (lset L t s)) -> keeps P (zoom L m).
Proof. intros Hm HP s Hs. specialize (Hm (lget L s)). unfold wlp, zoom in *. destruct (m (lget L s)); [by eapply HP|done..]. Qed.

Section touch.
Context {B D : Type} {FM : FreeMap B} {DK : Disk D}.
Implicit Types s : sfs B D.

Definition attrs (i : dinode) : Z * Z := (sfi_type i, sfi_linkcount i).
(** The bitmap too is marked when it changes. *)
Definition map_touch s s' : Prop :=
  fm_size (freemap s') = fm_size (freemap s) /\ (freemapdirty s' = true \/ freemapdirty s' = freemapdirty s /\ freemap s' = freemap s).
Definition touch s s' : Prop :=
  attrs (sv_i s') = attrs (sv_i s) /\ sb_nblocks s' = sb_nblocks s /\
  (sv_dirty s' = true \/ sv_dirty s' = sv_dirty s /\ sv_i s' = sv_i s) /\ map_touch s s'.
#[export] Instance touch_preorder : PreOrder touch.
Proof.
  split; [intros s; split_and!; auto; split; auto|]. intros s1 s2 s3 (A1 & A2 & A3 & A4 & A5) (B1 & B2 & B3 & B4 & B5). split_and!; [congruence|congruence| |split; [congruence|]].
  - destruct B3 as [?|[B3 B6]]; [by left|]. destruct A3 as [?|[A3 A6]]; [left; congruence|right; split; congruence].
  - destruct B5 as [?|[B5 B6]]; [by left|]. destruct A5 as [?|[A5 A6]]; [left; congruence|right; split; congruence].
Qed.
Lemma touch_next s0 s s' : touch s0 s -> touch s s' -> touch s0 s'.
Proof. apply touch_preorder. Qed.
Lemma map_touch_same s s' : freemap s' = freemap s -> freemapdirty s' = freemapdirty s -> map_touch s s'.
Proof. intros E1 E2. split; [by rewrite E1|by right]. Qed.
Lemma touch_inode s0 (f : dinode -> dinode) : (forall i, attrs (f i) = attrs i) -> keeps (touch s0) (modify (fun s : sfs B D => set_inode (f (sv_i s)) s)).
Proof. intros Hf. apply keeps_modify. intros s Hs. apply (touch_next s0 s); [done|]. split_and!; [apply Hf|done|by left|by apply map_touch_same]. Qed.
Lemma touch_direct s0 fb b : keeps (touch s0) (modify (fun s : sfs B D => set_inode (set_direct fb b (sv_i s)) s)).
Proof. by apply (touch_inode s0 (set_direct fb b)). Qed.
Lemma touch_indirect s0 b : keeps (touch s0) (modify (fun s : sfs B D => set_inode (set_indirect b (sv_i s)) s)).
Proof. by apply (touch_inode s0 (set_indirect b)). Qed.
Lemma touch_size s0 n : keeps (touch s0) (modify (fun s : sfs B D => set_inode (set_size n (sv_i s)) s)).
Proof. by apply (touch_inode s0 (set_size n)). Qed.
Lemma touch_dev s0 {A} (m : K D A) : keeps (touch s0) (zoom dev_lens m : K (sfs B D) A).
Proof. apply keeps_zoom. intros s t Hs. apply (touch_next s0 s); [done|]. split_and!; [done|done|by right|by apply map_touch_same]. Qed.
Lemma touch_isset s0 i : keeps (touch s0) (zoom map_lens (fm_isset i) : K (sfs B D) Z).
Proof.
  apply (keeps_zoom_post _ _ _ (fun b _ b' => b' = b)); [intros b; apply fm_isset_frame|]. intros s _ b Hs ->. apply (touch_next s0 s); [done|]. split_and!; [done|done|by right|by apply map_touch_same].
Qed.
#[local] Hint Resolve touch_direct touch_indirect touch_size touch_dev touch_isset : keeps.

(** With the bitmap marked. *)
Definition marked s0 s : Prop := touch s0 s /\ freemapdirty s = true.
Lemma marked_unmark s0 i : keeps (marked s0) (zoom map_lens (fm_unmark i) : K (sfs B D) ()).
Proof.
  apply (keeps_zoom_post _ _ _ (fun b _ b' => fm_size b' = fm_size b)); [intros b; apply fm_unmark_frame|]. intros s _ b [Hs Hd] Hb. split; [|done]. apply (touch_next s0 s); [done|].
  split_and!; [done|done|by right|]. split; [done|by left].
Qed.
Lemma marked_dev s0 {A} (m : K D A) : keeps (marked s0) (zoom dev_lens m : K (sfs B D) A).
Proof. apply keeps_zoom. intros s t [Hs Hd]. split; [|done]. apply (touch_next s0 s); [done|]. split_and!; [done|done|by right|by apply map_touch_same]. Qed.
#[local] Hint Resolve marked_unmark marked_dev : keeps.
Lemma marked_clear s0 b : keeps (marked s0) (sfs_clearblock b : K (sfs B D) _).
Proof. unfold sfs_clearblock, sfs_writeblock. keeps_tac. Qed.
#[local] Hint Resolve marked_clear : keeps.
Lemma mark_touch s0 s b : touch s0 s -> fm_size b = fm_size (freemap s) -> marked s0 (mark_freemap (set_freemap b s)).
Proof. intros Hs Hb. split; [|done]. apply (touch_next s0 s); [done|]. split_and!; [done|done|by right|]. split; [done|by left]. Qed.
Lemma balloc_touch s0 : keeps (touch s0) (sfs_balloc : K (sfs B D) _).
Proof.
  intros s Hs. unfold sfs_balloc. rewrite wlp_bind. pose proof (fm_alloc_frame (freemap s)) as Hf. unfold wlp at 1, zoom. unfold wlp in Hf. cbn [map_lens lget lset].
  destruct (fm_alloc (freemap s)) as [[e i] b| | |]; [|done..]. destruct Hf as [Hb He]. cbn [fst] in He. destruct (Z.eqb_spec e 0) as [->|He0]; cbn [negb].
  - destruct i as [i|]; cbn [deref]; [|done]. wlp_simpl. eapply (wlp_mono _ (fun _ => marked s0)); [by intros a s' []|].
    assert (Hk : keeps (marked s0) (s ← get; if sb_nblocks s <=? i then panic "sfs: balloc: invalid block" else
      result ← sfs_clearblock i; (if negb (result =? 0) then zoom map_lens (fm_unmark i) else mret tt);; mret (result, i) : K (sfs B D) (Z * Z))) by keeps_tac.
    apply (Hk (mark_freemap (set_freemap b s))). by apply mark_touch.
  - wlp_simpl. rewrite He by done. apply (touch_next s0 s); [done|]. split_and!; [done|done|by right|by apply map_touch_same].
Qed.
Lemma bfree_touch s0 b : keeps (touch s0) (sfs_bfree b : K (sfs B D) _).
Proof.
  intros s Hs. unfold sfs_bfree. rewrite wlp_bind. pose proof (fm_unmark_frame (freemap s) b) as Hf. unfold wlp at 1, zoom. unfold wlp in Hf. cbn [map_lens lget lset].
  destruct (fm_unmark b (freemap s)); [|done..]. wlp_simpl. by apply mark_touch.
Qed.
Lemma readblock_touch s0 b : keeps (touch s0) (sfs_readblock b : K (sfs B D) _).
Proof. unfold sfs_readblock. keeps_tac. Qed.
Lemma writeblock_touch s0 b l : keeps (touch s0) (sfs_writeblock b l : K (sfs B D) _).
Proof. unfold sfs_writeblock. keeps_tac. Qed.
#[local] Hint Resolve balloc_touch bfree_touch readblock_touch writeblock_touch : keeps.
Lemma bmap_touch s0 fb doalloc : keeps (touch s0) (sfs_bmap fb doalloc : K (sfs B D) _).
Proof. unfold sfs_bmap, hand_back, sfs_bused. keeps_tac. Qed.
Lemma trunc_direct_touch s0 n : forall i blocklen, keeps (touch s0) (trunc_direct n i blocklen : K (sfs B D) _).
Proof. induction n as [|n IH]; intros i blocklen; cbn [trunc_direct]; keeps_tac. Qed.
Lemma trunc_indirect_touch s0 n : forall j blocklen buf h d, keeps (touch s0) (trunc_indirect n j blocklen buf h d : K (sfs B D) _).
Proof. induction n as [|n IH]; intros j blocklen buf h d; cbn [trunc_indirect]; keeps_tac. Qed.
#[local] Hint Resolve bmap_touch trunc_direct_touch trunc_indirect_touch : keeps.
Lemma itrunc_touch s0 len : keeps (touch s0) (sfs_itrunc len : K (sfs B D) _).
Proof. unfold sfs_itrunc. keeps_tac. Qed.
Lemma metaio_touch s0 pos data len dir : keeps (touch s0) (sfs_metaio pos data len dir : K (sfs B D) _).
Proof. unfold sfs_metaio. keeps_tac. Qed.
End touch.
#[export] Hint Resolve touch_direct touch_indirect touch_size touch_isset touch_dev balloc_touch bfree_touch readblock_touch writeblock_touch bmap_touch : keeps.

(** ** A disk that does not fail *)

Section reliable.
Context {B D : Type} {FM : FreeMap B} {DK : Disk D}.
Implicit Types s : sfs B D.

Definition reliable : Prop :=
  (forall d b, dev_ok d -> 0 <= b < dev_blocks (D:=D) -> wp (dev_read b) (fun r _ => r.1 = 0) d) /\
  (forall d b l, dev_ok d -> 0 <= b < dev_blocks (D:=D) -> length l = 512%nat -> Forall is_byte l -> wp (dev_write b l) (fun r _ => r.1 = 0) d).
Context (Hrel : reliable).

Lemma readblock_reliable s b : dev_ok (device s) -> 0 <= b < dev_blocks (D:=D) ->
  wp (sfs_readblock b) (fun r s' => same_disk s s' /\ r = (0, blk s b)) s.
Proof.
  intros Hok Hb. eapply wp_mono; [|apply wp_and; [by apply readblock_spec|]].
  2:{ unfold sfs_readblock. rewrite wp_zoom. instantiate (1 := fun r _ => r.1 = 0). cbn [sfs_rwblock MAX_TRIES].
      rewrite wp_bind. eapply wp_mono; [|by apply (proj1 Hrel)]. cbv beta. intros [e l] d' He. cbn in He. subst e. by wp_simpl. }
  cbv beta. intros [e l] s' [(Hs & Hl & _) He]. cbn in *. subst e. split; [done|]. by rewrite Hl.
Qed.
Lemma writeblock_reliable s b l : dev_ok (device s) -> 0 <= b < dev_blocks (D:=D) -> length l = 512%nat -> Forall is_byte l ->
  wp (sfs_writeblock b l) (fun e s' => e = 0 /\ exists d, s' = set_device d s /\ dev_step (device s) d /\ dev_block d b = l /\
    forall b', b' <> b -> dev_block d b' = blk s b') s.
Proof.
  intros Hok Hb Hl Hy. eapply wp_mono; [|apply wp_and; [by apply (writeblock_spec s b l)|]].
  2:{ unfold sfs_writeblock. rewrite wp_bind, wp_zoom. instantiate (1 := fun e _ => e = 0). cbn [sfs_rwblock MAX_TRIES].
      rewrite wp_bind. eapply wp_mono; [|by apply (proj2 Hrel)]. cbv beta. intros [e l'] d' He. cbn in He. subst e. by wp_simpl. }
  cbv beta. intros e s' [(d & -> & Hst & Ho & Hd) ->]. split; [done|]. exists d. destruct Hd as [Hd|[? _]]; [by split_and!|done].
Qed.

(** A block that the file has is found. *)
Lemma bmap_existing s (fb : nat) b doalloc : wf s -> refs s !! fb = Some b -> b <> 0 ->
  wp (sfs_bmap (Z.of_nat fb) doalloc) (fun r s' => r = (0, b) /\ same_disk s s') s.
Proof.
  intros Hw Hb Hb0. pose proof (lookup_lt_Some _ _ _ Hb) as Hlt. rewrite (refs_length s Hw) in Hlt. unfold sfs_bmap. wp_simpl.
  destruct (Z.ltb_spec (Z.of_nat fb) SFS_NDIRECT) as [Hd|Hd]; unfold SFS_NDIRECT in *.
  - rewrite Nat2Z.id. assert (Hr := Hb). rewrite refs_direct in Hr by (done || lia). rewrite Hr. wp_simpl. destruct (Z.eqb_spec b 0); [done|]. cbn [andb].
    eapply wp_mono; [|apply hand_back_spec; [apply Hw|by eapply refs_used]]. cbv beta. intros r s' [-> ->]. split; [done|apply same_refl].
  - assert (Hk : (Z.of_nat fb - 15) mod SFS_DBPERIDB = Z.of_nat fb - 15 /\ (Z.of_nat fb - 15) / SFS_DBPERIDB = 0).
    { split; [apply Z.mod_small|apply Z.div_small]; unfold SFS_DBPERIDB; lia. }
    destruct Hk as [-> ->]. cbn [Z.leb Z.compare SFS_NINDIRECT]. replace fb with (15 + (fb - 15))%nat in Hb by lia. rewrite refs_indirect in Hb by done.
    assert (Hi : sfi_indirect (sv_i s) <> 0).
    { intros Hi. unfold ind_words in Hb. rewrite Hi in Hb. by apply lookup_replicate in Hb as [-> _]. }
    destruct (Z.eqb_spec (sfi_indirect (sv_i s)) 0); [done|]. cbn [andb]. wp_simpl.
    destruct (indirect_used s Hw Hi). pose proof (vo_dev s (wf_volume s Hw)).
    eapply wp_mono; [|apply (readblock_reliable s); [apply vo_ok, Hw|lia]]. cbv beta. intros r s1 [Hs ->]. wp_simpl.
    assert (Hind : words_of (blk s (sfi_indirect (sv_i s))) = ind_words s) by (unfold ind_words; by destruct (Z.eqb_spec (sfi_indirect (sv_i s)) 0)).
    rewrite Hind. replace (Z.to_nat (Z.of_nat fb - 15)) with (fb - 15)%nat by lia. rewrite Hb. wp_simpl. destruct (Z.eqb_spec b 0); [done|]. cbn [andb].
    assert (Hs1 := same_steady s s1 (wf_volume s Hw) Hs).
    eapply wp_mono; [|apply hand_back_spec; [apply Hs1|]].
    + cbv beta. intros r s' [-> ->]. done.
    + intros _. destruct (refs_used s fb b Hw) as [Hr Hu]; [replace fb with (15 + (fb - 15))%nat by lia; by rewrite refs_indirect|done|]. rewrite (st_n _ _ Hs1). split; [done|]. by apply (st_blk _ _ Hs1); [lia|].
Qed.

(** A write fails only for want of space, and then nothing has been written; what overwrites
    something does not fail. *)
Lemma metaio_reliable s pos data : wf s -> 0 <= pos -> pos + Z.of_nat (length data) < 2 ^ 32 ->
  pos mod 512 + Z.of_nat (length data) <= 512 -> Forall is_byte data ->
  wp (sfs_metaio pos data (Z.of_nat (length data)) UIO_WRITE) (fun r s' => (r.1 <> 0 -> file_bytes s' = file_bytes s) /\
    ((exists b, refs s !! Z.to_nat (pos / 512) = Some b /\ b <> 0) -> r.1 = 0)) s.
Proof.
  intros Hw Hp Hlt Hfit Hy. destruct (position_block pos) as (Eq & Er & Epos); [lia|]. unfold sfs_metaio. rewrite Eq, Er.
  pose proof (Z.mod_pos_bound pos 512). pose proof (Z.div_pos pos 512). wp_simpl.
  assert (Hfound : wp (sfs_bmap (pos / 512) true) (fun r s1 => bmap_post true (Z.to_nat (pos / 512)) s r s1 /\
    ((exists b, refs s !! Z.to_nat (pos / 512) = Some b /\ b <> 0) -> r.1 = 0)) s).
  { destruct (refs s !! Z.to_nat (pos / 512)) as [b|] eqn:Hb; [destruct (Z.eq_dec b 0) as [->|Hb0]|].
    - eapply wp_mono; [|apply (bmap_spec s (pos / 512) true); [done|lia]]. cbv beta. intros r s1 [Hr _]. split; [done|]. by intros (b & [= <-] & ?).
    - eapply wp_mono; [|apply wp_and; [apply (bmap_spec s (pos / 512) true); [done|lia]|]].
      2:{ rewrite <-(Z2Nat.id (pos / 512)) by lia. by apply (bmap_existing s _ b true). }
      cbv beta. intros r s1 [[Hr _] [-> _]]. done.
    - eapply wp_mono; [|apply (bmap_spec s (pos / 512) true); [done|lia]]. cbv beta. intros r s1 [Hr _]. split; [done|]. by intros (b & ? & ?). }
  eapply wp_mono; [|exact Hfound]. cbv beta. intros [e b] s1 [(Hx & Hok & _) Hf]; cbn [fst snd] in *.
  destruct (Z.eqb_spec e 0) as [->|He]; wp_simpl.
  2:{ split; [|done]. intros _. unfold file_bytes. by rewrite (ex_contents _ _ Hx). }
  destruct (Hok eq_refl) as [Hb Hb0]. specialize (Hb0 eq_refl). assert (Hw1 := ex_wf _ _ Hx). destruct (Z.eqb_spec b 0) as [|_]; [done|]. cbv iota. wp_simpl.
  destruct (refs_used s1 _ b Hw1 Hb Hb0). pose proof (vo_dev s1 (wf_volume s1 Hw1)).
  eapply wp_mono; [|apply (readblock_reliable s1); [apply vo_ok, Hw1|lia]]. cbv beta. intros r s2 [Hs2 ->]. wp_simpl.
  assert (Hw2 : wf s2) by apply (same_extends s1 s2 Hw1 Hs2).
  eapply wp_mono; [|apply (writeblock_reliable s2); [apply vo_ok, Hw2|lia|rewrite update_length; rewrite ?blk_length; lia|apply update_bytes; [done|apply blk_bytes]]].
  cbv beta. intros e s3 [-> _]. wp_simpl. by destruct (_ <? _).
Qed.

(** A read within the largest file does not fail. *)
Lemma bmap_reads s fb : wf s -> 0 <= fb < 143 -> wp (sfs_bmap fb false) (fun r _ => r.1 = 0) s.
Proof.
  intros Hw Hfb. destruct (lookup_lt_is_Some_2 (refs s) (Z.to_nat fb)) as [b Hb]; [rewrite (refs_length s Hw); lia|].
  destruct (Z.eq_dec b 0) as [->|Hb0].
  2:{ rewrite <-(Z2Nat.id fb) by lia. eapply wp_mono; [|by apply (bmap_existing s _ b false)]. by intros r s' [-> _]. }
  unfold sfs_bmap. wp_simpl. destruct (Z.ltb_spec fb SFS_NDIRECT) as [Hd|Hd]; unfold SFS_NDIRECT in *.
  - rewrite refs_direct in Hb by (done || lia). rewrite Hb. wp_simpl. cbn [andb].
    eapply wp_mono; [|apply hand_back_spec; [apply Hw|done]]. by intros r s' [-> _].
  - assert (Hk : (fb - 15) mod SFS_DBPERIDB = fb - 15 /\ (fb - 15) / SFS_DBPERIDB = 0).
    { split; [apply Z.mod_small|apply Z.div_small]; unfold SFS_DBPERIDB; lia. }
    destruct Hk as [-> ->]. cbn [Z.leb Z.compare SFS_NINDIRECT]. replace (Z.to_nat fb) with (15 + Z.to_nat (fb - 15))%nat in Hb by lia.
    rewrite refs_indirect in Hb by done. destruct (Z.eqb_spec (sfi_indirect (sv_i s)) 0) as [|Hi]; cbn [andb negb]; wp_simpl; [done|].
    destruct (indirect_used s Hw Hi). pose proof (vo_dev s (wf_volume s Hw)).
    eapply wp_mono; [|apply (readblock_reliable s); [apply vo_ok, Hw|lia]]. cbv beta. intros r s1 [Hs ->]. wp_simpl.
    assert (Hind : words_of (blk s (sfi_indirect (sv_i s))) = ind_words s) by (unfold ind_words; by destruct (Z.eqb_spec (sfi_indirect (sv_i s)) 0)).
    rewrite Hind, Hb. wp_simpl. cbn [andb].
    eapply wp_mono; [|apply hand_back_spec; [apply (same_steady s s1 (wf_volume s Hw) Hs)|done]]. by intros r s' [-> _].
Qed.
Lemma metaio_reads s pos len : wf s -> 0 <= pos < max_size -> wp (sfs_metaio pos [] len UIO_READ) (fun r _ => r.1 = 0) s.
Proof.
  intros Hw Hp. unfold max_size in Hp. destruct (position_block pos) as (Eq & Er & _); [lia|]. unfold sfs_metaio. rewrite Eq, Er.
  pose proof (Z.div_pos pos 512). pose proof (Z.div_lt_upper_bound pos 512 143). wp_simpl.
  eapply wp_mono; [|apply wp_and; [apply (bmap_spec s (pos / 512) false); [done|lia]|apply bmap_reads; [done|lia]]].
  cbv beta. intros [e b] s1 [[(Hs & Hok & _) _] He]; cbn [fst snd] in *. subst e. wp_simpl. destruct (Hok eq_refl) as [Hb _].
  destruct (same_refs s s1 Hw Hs) as [Hr1 _]. rewrite Hr1 in Hb. destruct (Z.eqb_spec b 0) as [->|Hb0]; wp_simpl; [done|].
  destruct (refs_used s _ b Hw Hb Hb0). pose proof (vo_dev s (wf_volume s Hw)).
  eapply wp_mono; [|apply (readblock_reliable s1); [by eapply same_ok; [apply Hw|]|lia]]. cbv beta. intros r s2 [_ ->]. by wp_simpl.
Qed.

Lemma itrunc_reliable s len : wf s -> wp (sfs_itrunc len) (fun e _ => e = 0) s.
Proof.
  intros Hw. unfold sfs_itrunc. set (blocklen := u32 (Z.quot _ _)). wp_simpl.
  eapply wp_mono; [|apply (trunc_direct_spec 15 s 0); [done|lia]]. cbv beta. intros _ s1 (Hc1 & _). wp_simpl. assert (Hw1 := cut_wf _ _ _ Hc1).
  destruct ((blocklen <? _) && negb (sfi_indirect (sv_i s1) =? 0)) eqn:E; cbv iota; wp_simpl; [|done].
  apply andb_true_iff in E as [_ Hid%negb_true_iff%Z.eqb_neq]. destruct (indirect_used s1 Hw1 Hid) as [Hir Hiu]. pose proof (vo_dev s1 (wf_volume s1 Hw1)).
  eapply wp_mono; [|apply (readblock_reliable s1); [apply vo_ok, Hw1|lia]]. cbv beta. intros r s2 [Hs2 ->]. wp_simpl.
  assert (Hw2 : wf s2) by apply (same_extends s1 s2 Hw1 Hs2). assert (Hi2 : sv_i s2 = sv_i s1 /\ sb_nblocks s2 = sb_nblocks s1) by (by destruct Hs2 as (? & -> & _)).
  assert (Hwords : words_of (blk s1 (sfi_indirect (sv_i s1))) = ind_words s2).
  { unfold ind_words. rewrite (proj1 Hi2). destruct (Z.eqb_spec (sfi_indirect (sv_i s1)) 0); [done|]. destruct Hs2 as (d & -> & _ & Hd). unfold blk. cbn. by rewrite Hd. }
  rewrite Hwords. eapply wp_mono; [|apply (trunc_indirect_spec (sfi_indirect (sv_i s2) :: sfi_direct (sv_i s2)) blocklen 128 s2 0); [apply Hw2|apply (wf_slots s2 Hw2)|apply ind_length|done]].
  cbv beta. intros [[idbuf hnz] dirty] s3 [Hv3 (Hi3 & Hn3 & Hd3) Hsl3 Hl3 _ _ _ _ _ _]. cbn [fst snd] in *. destruct hnz; [destruct dirty|]; cbn [negb]; wp_simpl.
  - pose proof (vo_dev s3 Hv3). eapply wp_mono; [|apply (writeblock_reliable s3); [by apply vo_ok|lia|by apply bytes_of_length|apply bytes_of_bytes]].
    cbv beta. intros e s4 [-> _]. by wp_simpl.
  - done.
  - assert (Hu3 : used s3 (sfi_indirect (sv_i s1)) = true) by (rewrite <-(proj1 Hi2); apply (so_range _ _ _ Hsl3 O); [done|by rewrite (proj1 Hi2)]).
    eapply wp_mono; [|apply (bfree_spec s3); [done|destruct Hi2; lia|done]]. cbv beta. intros _ s4 _. by wp_simpl.
Qed.
End reliable.
#[global] Arguments reliable D {DK}.
