(* ===== verification/Lhd.v ===== *)
(** * The disk driver: [kern/dev/lamebus/lhd.c]

    A transfer described by a [uio] goes sector by sector through the card's buffer, which
    is memory at [lh_buf]: the driver programs the registers, sleeps on [lh_done], and the
    interrupt handler stores the result and wakes it up.  The hardware is the interface
    [DiskHardware]; it can fail a sector.

    A write that fails has already taken its bytes out of the [uio].  So when [sfs_rwblock]
    tries it again, nothing is left to write, and the error is lost. *)
From S2P Require Import Prelude Copyinout Uio Sfs.
Import Copyinout Uio.

Module Lhd.
Definition LHD_SECTSIZE : Z := 512.
Definition LHD_IDLE : Z := 0.
Definition LHD_WORKING : Z := 1.
Definition LHD_OK : Z := 4.
Definition LHD_INVSECT : Z := 12.
Definition LHD_MEDIA : Z := 20.
Definition LHD_ISWRITE : Z := 2.
Definition LHD_STATEMASK : Z := 0x1d.
End Lhd.
Import Lhd.

(** The disk: sectors of bytes.  [hw_run] is a run started by writing a word to the status
    register, with the sector's number and the buffer: the status at the end and the buffer
    then.  A failed run has changed no sector, and only a sector that is not there is invalid. *)
Class DiskHardware (H : Type) := {
  hw_nsect : Z;
  hw_sector : H -> Z -> list Z;
  hw_run : Z -> Z -> list Z -> K H (Z * list Z);
  hw_nsect_ok : 0 <= hw_nsect < 2 ^ 32 - 1;
  hw_sector_ok h b : length (hw_sector h b) = 512%nat /\ Forall is_byte (hw_sector h b);
  hw_read_spec h b l : length l = 512%nat -> wp (hw_run LHD_WORKING b l) (fun r h' =>
    length r.2 = 512%nat /\ (forall b', hw_sector h' b' = hw_sector h b') /\
    (Z.land r.1 LHD_STATEMASK = LHD_OK /\ r.2 = hw_sector h b \/ Z.land r.1 LHD_STATEMASK = LHD_MEDIA \/
     Z.land r.1 LHD_STATEMASK = LHD_INVSECT /\ ~ (0 <= b < hw_nsect))) h;
  hw_write_spec h b l : length l = 512%nat -> Forall is_byte l -> wp (hw_run (Z.lor LHD_WORKING LHD_ISWRITE) b l) (fun r h' =>
    r.2 = l /\ (forall b', b' <> b -> hw_sector h' b' = hw_sector h b') /\
    (Z.land r.1 LHD_STATEMASK = LHD_OK /\ hw_sector h' b = l \/
     hw_sector h' b = hw_sector h b /\
     (Z.land r.1 LHD_STATEMASK = LHD_MEDIA \/ Z.land r.1 LHD_STATEMASK = LHD_INVSECT /\ ~ (0 <= b < hw_nsect)))) h }.

Module Driver.
Record driver (H : Type) := Driver {
  memory : machine; lh_clear : Z; lh_done : Z; lh_result : Z; reg_stat : Z; reg_sect : Z; platter : H }.
Arguments Driver {H} _ _ _ _ _ _ _.
Arguments memory {H} _.
Arguments lh_clear {H} _.
Arguments lh_done {H} _.
Arguments lh_result {H} _.
Arguments reg_stat {H} _.
Arguments reg_sect {H} _.
Arguments platter {H} _.

(** [l] at the address [a]; the [n] bytes there. *)
Definition put_bytes (a : Z) (l : list Z) (m : machine) : machine :=
  let n := Z.of_nat (length l) in
  Machine (mapped m) (fun x => if (a <=? x) && (x <? a + n) then default 0 (l !! Z.to_nat (x - a)) else bytes m x) (badfaultfunc m).
Definition get_bytes (a n : Z) (m : machine) : list Z := (fun x => u8 (bytes m x)) <$> seqZ a n.

Section ops.
Context {H : Type} `{DiskHardware H} (lh_buf : Z) (curas : option Z).
Implicit Types s : driver H.

Definition set_memory (m : machine) s : driver H := Driver m (lh_clear s) (lh_done s) (lh_result s) (reg_stat s) (reg_sect s) (platter s).
Definition set_clear (n : Z) s : driver H := Driver (memory s) n (lh_done s) (lh_result s) (reg_stat s) (reg_sect s) (platter s).
Definition set_done (n : Z) s : driver H := Driver (memory s) (lh_clear s) n (lh_result s) (reg_stat s) (reg_sect s) (platter s).
Definition set_result (n : Z) s : driver H := Driver (memory s) (lh_clear s) (lh_done s) n (reg_stat s) (reg_sect s) (platter s).
Definition set_stat (n : Z) s : driver H := Driver (memory s) (lh_clear s) (lh_done s) (lh_result s) n (reg_sect s) (platter s).
Definition set_sect (n : Z) s : driver H := Driver (memory s) (lh_clear s) (lh_done s) (lh_result s) (reg_stat s) n (platter s).
Definition set_platter (h : H) s : driver H := Driver (memory s) (lh_clear s) (lh_done s) (lh_result s) (reg_stat s) (reg_sect s) h.
Definition mem_lens : lens (driver H) machine := Lens memory set_memory.
Definition platter_lens : lens (driver H) H := Lens platter set_platter.

(** [P] and [V] on the two semaphores. *)
Definition P_clear : K (driver H) () := s ← get; if 0 <? lh_clear s then put (set_clear (lh_clear s - 1) s) else block.
Definition V_clear : K (driver H) () := modify (fun s => set_clear (lh_clear s + 1) s).
Definition P_done : K (driver H) () := s ← get; if 0 <? lh_done s then put (set_done (lh_done s - 1) s) else block.
Definition V_done : K (driver H) () := modify (fun s => set_done (lh_done s + 1) s).

Definition lhd_code_to_errno (code : Z) : Z :=
  let c := Z.land code LHD_STATEMASK in
  if c =? LHD_OK then 0 else if c =? LHD_INVSECT then EINVAL else if c =? LHD_MEDIA then EIO else EAGAIN.
Definition lhd_iodone (err : Z) : K (driver H) () := modify (set_result err);; V_done.
Definition lhd_irq : K (driver H) () :=
  val ← gets reg_stat;
  let c := Z.land val LHD_STATEMASK in
  if (c =? LHD_OK) || (c =? LHD_INVSECT) || (c =? LHD_MEDIA) then
    modify (set_stat 0);; lhd_iodone (lhd_code_to_errno val)
  else mret tt.
(** While the driver sleeps: the disk runs and interrupts. *)
Definition interrupt : K (driver H) () :=
  s ← get;
  '(code, buf) ← zoom platter_lens (hw_run (reg_stat s) (reg_sect s) (get_bytes lh_buf LHD_SECTSIZE (memory s)));
  modify (fun s => set_stat code (set_memory (put_bytes lh_buf buf (memory s)) s));;
  lhd_irq.

Definition is_write (u : uio) : bool := match uio_rw u with UIO_WRITE => true | UIO_READ => false end.
Definition buf_move (u : uio) : K (driver H) (Z * uio) := zoom mem_lens (uiomove curas lh_buf LHD_SECTSIZE u).
(** The loop over the sectors from [i], [n] left. *)
Fixpoint io_loop (n : nat) (i sector statval : Z) (u : uio) : K (driver H) (Z * uio) :=
  match n with
  | O => mret (0, u)
  | S n =>
      P_clear;;
      '(result, u) ← (if is_write u then buf_move u else mret (0, u));
      if negb (result =? 0) then V_clear;; mret (result, u) else
      modify (set_sect (u32 (sector + i)));;
      modify (set_stat statval);;
      interrupt;;
      P_done;;
      result ← gets lh_result;
      '(result, u) ← (if (result =? 0) && negb (is_write u) then buf_move u else mret (result, u));
      V_clear;;
      if negb (result =? 0) then mret (result, u) else
      io_loop n (i + 1) sector statval u
  end.
Definition lhd_io (u : uio) : K (driver H) (Z * uio) :=
  let sector := u32 (Z.quot (uio_offset u) LHD_SECTSIZE) in
  let sectoff := u32 (Z.rem (uio_offset u) LHD_SECTSIZE) in
  let len := uio_resid u / LHD_SECTSIZE in
  let lenoff := uio_resid u mod LHD_SECTSIZE in
  if negb (sectoff =? 0) || negb (lenoff =? 0) then mret (EINVAL, u) else
  if hw_nsect <? u32 (sector + len) then mret (EINVAL, u) else
  io_loop (Z.to_nat len) 0 sector (if is_write u then Z.lor LHD_WORKING LHD_ISWRITE else LHD_WORKING) u.
End ops.
End Driver.
Import Driver.

(** ** Memory and descriptors *)

(** The bytes at the addresses [l]. *)
Definition slice (m : machine) (l : list Z) : list Z := (fun a => u8 (bytes m a)) <$> l.
Definition in_region (a n x : Z) : Prop := a <= x < a + n.
(** [u'] is [u] after a transfer of [j] bytes. *)
Record consumed (j : Z) (u u' : uio) : Prop := {
  co_range : 0 <= j <= uio_resid u;
  co_addrs : addrs (uio_iov u') = drop (Z.to_nat j) (addrs (uio_iov u));
  co_resid : uio_resid u' = uio_resid u - j;
  co_offset : uio_offset u' = uio_offset u + j;
  co_segflg : uio_segflg u' = uio_segflg u;
  co_rw : uio_rw u' = uio_rw u;
  co_space : uio_space u' = uio_space u;
  co_wf : wf_iov (uio_iov u') }.

Lemma consumed_refl u : wf_iov (uio_iov u) -> 0 <= uio_resid u -> consumed 0 u u.
Proof. intros. split; try done; lia. Qed.
Lemma consumed_trans j k u u1 u2 : consumed j u u1 -> consumed k u1 u2 -> consumed (j + k) u u2.
Proof.
  intros [A1 A2 A3 A4 A5 A6 A7 A8] [B1 B2 B3 B4 B5 B6 B7 B8]. split; try congruence; try lia; try done.
  rewrite B2, A2, drop_drop. f_equal. lia.
Qed.
Lemma slice_length m l : length (slice m l) = length l.
Proof. apply length_fmap. Qed.
Lemma slice_app m l k : slice m (l ++ k) = slice m l ++ slice m k.
Proof. apply fmap_app. Qed.
Lemma slice_ext m m' l : (forall a, a ∈ l -> bytes m' a = bytes m a) -> slice m' l = slice m l.
Proof. intros Ha. apply list_fmap_ext. intros i a Hi. f_equal. apply Ha. by eapply list_elem_of_lookup_2. Qed.
Lemma slice_bytes m l : Forall is_byte (slice m l).
Proof. apply Forall_fmap, Forall_true. intros a. apply Z.mod_pos_bound. lia. Qed.
Lemma u8_byte x : is_byte x -> u8 x = x.
Proof. intros. by apply Z.mod_small. Qed.
(** What was put at [a] is there. *)
Lemma put_bytes_slice a l m : Forall is_byte l -> slice (put_bytes a l m) (seqZ a (Z.of_nat (length l))) = l.
Proof.
  intros Hl. apply list_eq. intros i. unfold slice. rewrite list_lookup_fmap. destruct (decide (i < length l)%nat) as [Hi|Hi].
  - rewrite lookup_seqZ_lt by lia. cbn [fmap option_fmap option_map put_bytes bytes]. destruct (lookup_lt_is_Some_2 l i Hi) as [x Hx].
    rewrite (proj2 (Z.leb_le a (a + Z.of_nat i))), (proj2 (Z.ltb_lt _ _)) by lia. cbn [andb]. replace (Z.to_nat (a + Z.of_nat i - a)) with i by lia.
    rewrite Hx. cbn. f_equal. apply u8_byte. rewrite Forall_lookup in Hl. eauto.
  - rewrite lookup_seqZ_ge, lookup_ge_None_2 by lia. done.
Qed.
Lemma put_bytes_other a l m x : ~ in_region a (Z.of_nat (length l)) x -> bytes (put_bytes a l m) x = bytes m x.
Proof.
  intros Hx. cbn. destruct (Z.leb_spec a x), (Z.ltb_spec x (a + Z.of_nat (length l))); cbn [andb]; try done. unfold in_region in Hx. lia.
Qed.
(** [uiomove] out of the buffer, or into it. *)
Lemma moved_read m m' ptr l : moved UIO_READ m m' ptr l -> slice m' l = slice m (seqZ ptr (Z.of_nat (length l))).
Proof.
  intros [Hm _]. apply list_eq. intros i. unfold slice. rewrite !list_lookup_fmap. destruct (decide (i < length l)%nat) as [Hi|Hi].
  - destruct (lookup_lt_is_Some_2 l i Hi) as [a Ha]. rewrite Ha, lookup_seqZ_lt by lia. cbn. f_equal. by rewrite (Hm i a Ha).
  - by rewrite lookup_seqZ_ge, lookup_ge_None_2 by lia.
Qed.
Lemma moved_write m m' ptr l : moved UIO_WRITE m m' ptr l -> slice m' (seqZ ptr (Z.of_nat (length l))) = slice m l.
Proof.
  intros [Hm _]. apply list_eq. intros i. unfold slice. rewrite !list_lookup_fmap. destruct (decide (i < length l)%nat) as [Hi|Hi].
  - destruct (lookup_lt_is_Some_2 l i Hi) as [a Ha]. rewrite Ha, lookup_seqZ_lt by lia. cbn. f_equal. by rewrite (Hm i a Ha).
  - by rewrite lookup_seqZ_ge, lookup_ge_None_2 by lia.
Qed.

Section Lhd.
Context {H : Type} {HW : DiskHardware H} (lh_buf : Z) (curas : option Z).
Implicit Types s : driver H.

(** The transfer described by [u] has [n] sectors; its addresses are apart from the buffer. *)
Record io_ready (n : nat) (u : uio) : Prop := {
  ir_wf : wf_iov (uio_iov u);
  ir_resid : uio_resid u = 512 * Z.of_nat n;
  ir_total : uio_resid u <= total (uio_iov u);
  ir_small : uio_resid u < 2 ^ 32;
  ir_offset : 0 <= uio_offset u;
  ir_end : uio_offset u + uio_resid u < 2 ^ 63;
  ir_nodup : NoDup (addrs (uio_iov u));
  ir_apart : forall a, a ∈ addrs (uio_iov u) -> ~ in_region lh_buf 512 a;
  ir_space : uio_space u = (if decide (uio_segflg u = UIO_SYSSPACE) then None else curas) }.
Lemma io_ready_next n u u' : io_ready (S n) u -> consumed 512 u u' -> io_ready n u'.
Proof.
  intros [A1 A2 A3 A4 A5 A6 A7 A8 A9] [B1 B2 B3 B4 B5 B6 B7 B8]. split; rewrite ?B3, ?B4, ?B7, ?B5; try done; try lia.
  - unfold total in *. rewrite B2, length_drop. lia.
  - rewrite B2. eapply sublist_NoDup; [exact A7|apply sublist_drop].
  - intros a Ha. apply A8. rewrite B2 in Ha. by eapply elem_of_subseteq; [apply subseteq_drop|].
Qed.
Lemma consumed_none n u : io_ready n u -> consumed (512 * 0) u u.
Proof. intros Hu. apply consumed_refl; [apply Hu|]. rewrite (ir_resid _ _ Hu). lia. Qed.
Lemma buf_move_spec n u s : io_ready (S n) u ->
  wp (buf_move lh_buf curas u) (fun r s' => exists m, s' = set_memory m s /\
    ((r.1 = 0 /\ consumed 512 u r.2 /\ moved (uio_rw u) (memory s) m lh_buf (take 512 (addrs (uio_iov u)))) \/
     (r.1 = EFAULT /\ uio_segflg u <> UIO_SYSSPACE /\ exists j, 0 <= j <= 512 /\ consumed j u r.2))) s.
Proof.
  intros [A1 A2 A3 A4 A5 A6 A7 A8 A9]. unfold buf_move. rewrite wp_zoom. eapply wp_mono; [|apply uiomove_correct].
  - cbv beta. intros [e u'] m (k & u0 & Eu & Hk & B2 & B3 & B4 & B5 & B6 & B7 & B8 & Hcase). cbn [fst snd] in *. subst u0.
    exists m. split; [done|]. unfold LHD_SECTSIZE in *. assert (Hc : consumed k u u') by (split; try done; lia).
    destruct Hcase as [(-> & Hk' & Hm)|(-> & Hseg)]; [left|right; split_and!; [done|done|exists k; split; [lia|done]]].
    assert (k = 512) as -> by lia. done.
  - unfold ready, LHD_SECTSIZE. split_and!; try done; try lia.
Qed.

(** ** A run of the disk, with the interrupt at its end *)

Lemma get_bytes_length a n m : 0 <= n -> length (get_bytes a n m) = Z.to_nat n.
Proof. intros. unfold get_bytes. by rewrite length_fmap, length_seqZ. Qed.
(** What a run leaves: the card's buffer holds [l], the driver knows the result. *)
Record ran (l : list Z) (e : Z) (s s' : driver H) : Prop := {
  rn_memory : memory s' = put_bytes lh_buf l (memory s);
  rn_length : length l = 512%nat;
  rn_clear : lh_clear s' = lh_clear s;
  rn_done : lh_done s' = lh_done s }.
Lemma wait_spec s (P : Z * list Z -> H -> Prop) :
  wp (hw_run (reg_stat s) (reg_sect s) (get_bytes lh_buf 512 (memory s))) P (platter s) -> 0 <= lh_done s ->
  (forall r h, P r h -> length r.2 = 512%nat /\ (Z.land r.1 LHD_STATEMASK = LHD_OK \/ Z.land r.1 LHD_STATEMASK = LHD_INVSECT \/ Z.land r.1 LHD_STATEMASK = LHD_MEDIA)) ->
  wp (interrupt lh_buf;; P_done;; gets lh_result) (fun e s' => exists code l, P (code, l) (platter s') /\ e = lhd_code_to_errno code /\ ran l e s s') s.
Proof.
  intros Hrun Hd HP. unfold interrupt. wp_simpl. rewrite wp_zoom. cbn [lget platter_lens]. eapply wp_mono; [|exact Hrun]. cbv beta. intros [code l] h Hh.
  destruct (HP _ _ Hh) as [Hl Hcode]. cbn [fst snd] in *. wp_simpl. unfold lhd_irq. wp_simpl. cbn [reg_stat set_stat].
  assert (Hb : (Z.land code LHD_STATEMASK =? LHD_OK) || (Z.land code LHD_STATEMASK =? LHD_INVSECT) || (Z.land code LHD_STATEMASK =? LHD_MEDIA) = true).
  { destruct Hcode as [-> | [-> | ->]]; done. }
  rewrite Hb. wp_simpl. unfold lhd_iodone, V_done, P_done. wp_simpl. cbn [lh_done set_done set_result set_stat set_memory lset platter_lens set_platter memory platter].
  destruct (Z.ltb_spec 0 (lh_done s + 1)); [|lia]. wp_simpl. exists code, l. split; [done|]. split; [done|]. split; cbn; try done. lia.
Qed.
Lemma wait_read s b : reg_stat s = LHD_WORKING -> reg_sect s = b -> 0 <= b < hw_nsect (H:=H) -> 0 <= lh_done s ->
  wp (interrupt lh_buf;; P_done;; gets lh_result) (fun e s' => exists l, ran l e s s' /\ (e = 0 /\ l = hw_sector (platter s) b \/ e = EIO) /\
    forall b', hw_sector (platter s') b' = hw_sector (platter s) b') s.
Proof.
  intros Hst Hse Hb Hd. eapply wp_mono; [|eapply wait_spec; [rewrite Hst, Hse; by apply hw_read_spec|done|]].
  - cbv beta. intros e s' (code & l & (Hl & Hsec & Hc) & -> & Hr). exists l. split; [done|]. split; [|done]. cbn [fst snd] in *. unfold lhd_code_to_errno.
    destruct Hc as [[-> ->]|[-> |[-> Hn]]]; [by left|by right|done].
  - cbv beta. intros [code l] h (Hl & _ & Hc). cbn [fst snd] in *. split; [done|]. destruct Hc as [[? _]|[? |[? _]]]; auto.
Qed.
Lemma wait_write s b : reg_stat s = Z.lor LHD_WORKING LHD_ISWRITE -> reg_sect s = b -> 0 <= b < hw_nsect (H:=H) -> 0 <= lh_done s ->
  let l := get_bytes lh_buf 512 (memory s) in
  wp (interrupt lh_buf;; P_done;; gets lh_result) (fun e s' => ran l e s s' /\
    (e = 0 /\ hw_sector (platter s') b = l \/ e = EIO /\ hw_sector (platter s') b = hw_sector (platter s) b) /\
    forall b', b' <> b -> hw_sector (platter s') b' = hw_sector (platter s) b') s.
Proof.
  intros Hst Hse Hb Hd l. eapply wp_mono; [|eapply wait_spec; [rewrite Hst, Hse; apply hw_write_spec; [done|apply slice_bytes]|done|]].
  - cbv beta. intros e s' (code & l' & (El & Hsec & Hc) & -> & Hr). cbn [fst snd] in *. subst l'. split; [done|]. split; [|done]. unfold lhd_code_to_errno.
    destruct Hc as [[-> ?]|[? [-> |[-> Hn]]]]; [by left|by right|done].
  - cbv beta. intros [code l'] h (-> & _ & Hc). cbn [fst snd] in *. split; [by apply get_bytes_length|]. destruct Hc as [[? _]|[_ [? |[? _]]]]; auto.
Qed.
Lemma wp_wait {A} (f : Z -> K (driver H) A) Q s : wp (interrupt lh_buf;; P_done;; gets lh_result) (fun e s' => wp (f e) Q s') s ->
  wp (interrupt lh_buf) (fun _ s1 => wp (P_done;; result ← gets lh_result; f result) Q s1) s.
Proof.
  rewrite wp_bind. apply wp_mono. intros _ s1. rewrite !wp_bind. apply wp_mono. intros _ s2. by rewrite wp_bind.
Qed.

(** ** The loop *)

(** The bytes of [k] sectors from [b]. *)
Definition sectors (h : H) (b k : Z) : list Z := concat (hw_sector h <$> seqZ b k).
Lemma sectors_length h b k : 0 <= k -> length (sectors h b k) = Z.to_nat (512 * k).
Proof.
  intros Hk. unfold sectors. rewrite (concat_length 512); [rewrite length_fmap, length_seqZ; lia|]. apply Forall_fmap, Forall_true. intros b'. apply hw_sector_ok.
Qed.
Lemma sectors_cons h b k : 0 < k -> sectors h b k = hw_sector h b ++ sectors h (b + 1) (k - 1).
Proof. intros Hk. unfold sectors. rewrite seqZ_cons by lia. cbn [fmap list_fmap concat]. by replace (Z.pred k) with (k - 1) by lia. Qed.
Lemma sectors_one h b : sectors h b 1 = hw_sector h b.
Proof. rewrite sectors_cons by lia. change (sectors h (b + 1) (1 - 1)) with (@nil Z). apply app_nil_r. Qed.
Lemma sectors_ext h h' b k : (forall b', b <= b' < b + k -> hw_sector h' b' = hw_sector h b') -> sectors h' b k = sectors h b k.
Proof. intros Hb. unfold sectors. f_equal. apply list_fmap_ext. intros i x Hi. apply lookup_seqZ in Hi. apply Hb. lia. Qed.
Definition idle s : Prop := lh_clear s = 1 /\ lh_done s = 0.

(** What a read of [n] sectors from [b] does: the first [k] went to the first addresses. *)
Definition read_post (n : nat) (b : Z) (u : uio) s (r : Z * uio) s' : Prop :=
  idle s' /\ (forall b', hw_sector (platter s') b' = hw_sector (platter s) b') /\
  ((exists k : Z, 0 <= k <= Z.of_nat n /\ (r.1 = 0 /\ k = Z.of_nat n \/ r.1 = EIO /\ k < Z.of_nat n) /\ consumed (512 * k) u r.2 /\
      let l := take (Z.to_nat (512 * k)) (addrs (uio_iov u)) in
      slice (memory s') l = sectors (platter s) b k /\
      forall a, a ∉ l -> ~ in_region lh_buf 512 a -> bytes (memory s') a = bytes (memory s) a) \/
   r.1 = EFAULT /\ uio_segflg u <> UIO_SYSSPACE /\ exists j, consumed j u r.2).
Lemma take_add {A} (l : list A) n m : take (n + m) l = take n l ++ take m (drop n l).
Proof. rewrite <-(take_drop n l) at 1. rewrite take_app, take_take, length_take. destruct (Nat.le_gt_cases n (length l)).
  - rewrite (Nat.min_r (n + m) n), (Nat.min_l n) by lia. by replace (n + m - n)%nat with m by lia.
  - rewrite (drop_ge l n), !take_nil, !app_nil_r by lia. by rewrite !take_ge by lia.
Qed.
Lemma io_loop_read sector n : forall i u s, io_ready n u -> uio_rw u = UIO_READ -> idle s -> 0 <= sector + i -> sector + i + Z.of_nat n <= hw_nsect (H:=H) ->
  wp (io_loop lh_buf curas n i sector LHD_WORKING u) (read_post n (sector + i) u s) s.
Proof.
  induction n as [|n IH]; intros i u s Hu Hrw [Hcl Hdo] Hi Hn; cbn [io_loop].
  { rewrite wp_ret. split; [done|]. split; [done|]. left. exists 0. split; [lia|]. split; [by left|]. split; [by eapply consumed_none|]. done. }
  pose proof hw_nsect_ok as Hns. unfold P_clear, V_clear, is_write. rewrite Hrw. wp_simpl. rewrite Hcl. cbn [Z.ltb Z.compare negb]. wp_simpl.
  rewrite u32_small by lia. cbn [negb andb]. set (s1 := set_stat _ _).
  apply wp_wait. eapply wp_mono; [|apply (wait_read s1 (sector + i)); [done|done|lia|cbn; lia]]. cbv beta.
  intros e s2 (l & [R1 R2 R3 R4] & Hcase & Hsec). cbn in R1, R3, R4, Hcase, Hsec. rewrite Hrw. cbn [negb]. rewrite andb_true_r.
  assert (Hout : forall a, ~ in_region lh_buf 512 a -> bytes (memory s2) a = bytes (memory s) a).
  { intros a Ha. rewrite R1. apply put_bytes_other. by rewrite R2. }
  destruct Hcase as [[-> El]| ->]; cbn [Z.eqb].
  2: { wp_simpl. split; [split; cbn; lia|]. split; [done|]. left. exists 0. split; [lia|]. split; [right; split; [done|lia]|]. split; [by eapply consumed_none|].
    split; [done|]. intros a _ Ha. by apply Hout. }
  rewrite wp_bind. eapply wp_mono; [|by apply (buf_move_spec n u s2)]. cbv beta.
  intros [e u'] s3 (m & -> & [(He & Hc & Hm)|(He & Hseg & j & Hj & Hc)]); cbn [fst snd] in *; subst e; cbn [Z.eqb negb]; wp_simpl.
  2: { split; [split; cbn; lia|]. split; [done|]. right. split; [done|]. split; [done|]. by exists j. }
  set (s4 := set_clear _ _). assert (Hu' := io_ready_next n u u' Hu Hc).
  replace (sector + i + Z.of_nat (S n)) with (sector + (i + 1) + Z.of_nat n) in Hn by lia.
  eapply wp_mono; [|apply (IH (i + 1) u' s4); [done|by rewrite (co_rw _ _ _ Hc)|split; cbn; lia|lia|lia]].
  cbv beta. intros [e u''] s5 (Hid & Hsec5 & Hcase). assert (Hsecs : forall b', hw_sector (platter s4) b' = hw_sector (platter s) b') by done.
  split; [done|]. split; [intros b'; by rewrite Hsec5, Hsecs|].
  destruct Hcase as [(k & Hk & He & Hc' & Hsl & Hfr)|(He & Hseg & j & Hc')]; cbn [fst snd] in *.
  2: { right. split; [done|]. rewrite <-(co_segflg _ _ _ Hc). split; [done|]. exists (512 + j). by eapply consumed_trans. }
  left. exists (k + 1). split; [lia|]. split; [destruct He as [[? ->]|[? ?]]; [left|right]; (split; [done|lia])|].
  split; [replace (512 * (k + 1)) with (512 + 512 * k) by lia; by eapply consumed_trans|].
  replace (Z.to_nat (512 * (k + 1))) with (512 + Z.to_nat (512 * k))%nat by lia. rewrite take_add.
  rewrite (co_addrs _ _ _ Hc) in Hsl, Hfr. change (Z.to_nat 512) with 512%nat in *. set (l1 := take 512 (addrs (uio_iov u))) in *. set (l2 := take _ (drop 512 _)) in *.
  assert (Hl1 : length l1 = 512%nat).
  { unfold l1. rewrite length_take. pose proof (ir_total _ _ Hu) as Ht. rewrite (ir_resid _ _ Hu) in Ht. unfold total in Ht. lia. }
  assert (Hnd : NoDup (l1 ++ l2)). { unfold l1, l2. rewrite <-take_add. eapply sublist_NoDup; [apply (ir_nodup _ _ Hu)|apply sublist_take]. }
  apply NoDup_app in Hnd as (_ & Hdis & _).
  assert (Hin1 : forall a, a ∈ l1 -> ~ in_region lh_buf 512 a).
  { intros a Ha. apply (ir_apart _ _ Hu). unfold l1 in Ha. apply elem_of_take in Ha as (j & Hj & _). by eapply list_elem_of_lookup_2. }
  rewrite Hrw in Hm. split.
  - rewrite slice_app, Hsl, (sectors_cons (platter s)) by lia. f_equal.
    + rewrite (slice_ext (memory s4)) by (intros a Ha; apply Hfr; [by apply Hdis|by apply Hin1]). cbn [s4 memory set_clear set_memory].
      rewrite (moved_read _ _ _ _ Hm), Hl1, R1, <-El. change (Z.of_nat 512) with 512. rewrite <-(put_bytes_slice lh_buf l (memory s)) at 2; [by rewrite R2|].
      rewrite El. apply hw_sector_ok.
    + replace (sector + i + 1) with (sector + (i + 1)) by lia. replace (k + 1 - 1) with k by lia. by apply sectors_ext.
  - intros a [Ha1 Ha2]%not_elem_of_app Ha. rewrite Hfr by done. cbn [s4 memory set_clear set_memory]. rewrite (proj2 Hm) by done. by apply Hout.
Qed.

(** What a write of [n] sectors does: the first [k] sectors hold the first bytes.  Where the disk
    failed, the [uio] is already past the sector that was not written. *)
Definition write_post (n : nat) (b : Z) (u : uio) s (r : Z * uio) s' : Prop :=
  idle s' /\ exists k : Z, 0 <= k <= Z.of_nat n /\
    (forall b', ~ (b <= b' < b + k) -> hw_sector (platter s') b' = hw_sector (platter s) b') /\
    sectors (platter s') b k = slice (memory s) (take (Z.to_nat (512 * k)) (addrs (uio_iov u))) /\
    (r.1 <> EFAULT -> forall a, ~ in_region lh_buf 512 a -> bytes (memory s') a = bytes (memory s) a) /\
    (r.1 = 0 /\ k = Z.of_nat n /\ consumed (512 * k) u r.2 \/
     r.1 = EIO /\ k < Z.of_nat n /\ consumed (512 * (k + 1)) u r.2 \/
     r.1 = EFAULT /\ k < Z.of_nat n /\ uio_segflg u <> UIO_SYSSPACE /\ exists j, consumed j u r.2).
Lemma first_sector n u : io_ready (S n) u -> let l1 := take 512 (addrs (uio_iov u)) in
  length l1 = 512%nat /\ (forall a, a ∈ l1 -> ~ in_region lh_buf 512 a).
Proof.
  intros Hu l1. split.
  - unfold l1. rewrite length_take. pose proof (ir_total _ _ Hu) as Ht. rewrite (ir_resid _ _ Hu) in Ht. unfold total in Ht. lia.
  - intros a Ha. apply (ir_apart _ _ Hu). unfold l1 in Ha. apply elem_of_take in Ha as (j & Hj & _). by eapply list_elem_of_lookup_2.
Qed.
Lemma io_loop_write sector n : forall i u s, io_ready n u -> uio_rw u = UIO_WRITE -> idle s -> 0 <= sector + i -> sector + i + Z.of_nat n <= hw_nsect (H:=H) ->
  wp (io_loop lh_buf curas n i sector (Z.lor LHD_WORKING LHD_ISWRITE) u) (write_post n (sector + i) u s) s.
Proof.
  induction n as [|n IH]; intros i u s Hu Hrw [Hcl Hdo] Hi Hn; cbn [io_loop].
  { rewrite wp_ret. split; [done|]. exists 0. split; [lia|]. split; [done|]. split; [done|]. split; [done|]. left. split_and!; [done|done|by eapply consumed_none]. }
  pose proof hw_nsect_ok as Hns. unfold P_clear, V_clear, is_write. rewrite Hrw. wp_simpl. rewrite Hcl. cbn [Z.ltb Z.compare negb]. wp_simpl.
  destruct (first_sector n u Hu) as [Hl1 Hin1]. set (l1 := take 512 (addrs (uio_iov u))) in *.
  eapply wp_mono; [|by apply (buf_move_spec n u)]. cbv beta.
  intros [e u'] s1 (m & -> & [(He & Hc & Hm)|(He & Hseg & j & Hj & Hc)]); cbn [fst snd] in *; subst e; cbn [Z.eqb negb]; wp_simpl.
  2: { split; [split; cbn; lia|]. exists 0. split; [lia|]. split; [done|]. split; [done|]. split; [done|]. right. right. split_and!; [done|lia|done|by exists j]. }
  rewrite u32_small by lia. set (s2 := set_stat _ _). rewrite Hrw in Hm. cbn [memory set_clear] in Hm. fold l1 in Hm.
  assert (Hbuf : get_bytes lh_buf 512 (memory s2) = slice (memory s) l1).
  { unfold get_bytes. pose proof (moved_write _ _ _ _ Hm) as Hmw. rewrite Hl1 in Hmw. exact Hmw. }
  apply wp_wait. eapply wp_mono; [|apply (wait_write s2 (sector + i)); [done|done|lia|cbn; lia]]. rewrite Hbuf. cbv beta.
  intros e s3 ([R1 R2 R3 R4] & Hcase & Hsec). cbn [s2 set_stat set_sect set_memory set_clear memory lh_clear lh_done platter] in R1, R3, R4, Hcase, Hsec.
  rewrite (co_rw _ _ _ Hc), Hrw. cbn [negb]. rewrite andb_false_r.
  assert (Hout : forall a, ~ in_region lh_buf 512 a -> bytes (memory s3) a = bytes (memory s) a).
  { intros a Ha. rewrite R1, put_bytes_other by (by rewrite R2). apply (proj2 Hm). by rewrite Hl1. }
  destruct Hcase as [[-> El]|[-> El]]; cbn [Z.eqb negb]; wp_simpl.
  2: { split; [split; cbn; lia|]. exists 0. split; [lia|]. split; [|split; [done|split; [by intros _|right; left; split_and!; [done|lia|done]]]].
    intros b' _. cbn [platter set_clear]. destruct (decide (b' = sector + i)) as [->|Hne]; [done|by apply Hsec]. }
  set (s4 := set_clear _ _). assert (Hu' := io_ready_next n u u' Hu Hc).
  replace (sector + i + Z.of_nat (S n)) with (sector + (i + 1) + Z.of_nat n) in Hn by lia.
  eapply wp_mono; [|apply (IH (i + 1) u' s4); [done|by rewrite (co_rw _ _ _ Hc)|split; cbn; lia|lia|lia]].
  cbv beta. intros [e u''] s5 (Hid & k & Hk & Hsec5 & Hdata & Hfr & Hcase); cbn [fst snd] in *. split; [done|]. exists (k + 1). split; [lia|].
  split. { intros b' Hb. rewrite Hsec5 by lia. cbn [s4 platter set_clear]. apply Hsec. lia. }
  split. { rewrite sectors_cons by lia. replace (sector + i + 1) with (sector + (i + 1)) by lia. replace (k + 1 - 1) with k by lia.
    rewrite Hsec5 by lia. cbn [s4 platter set_clear]. rewrite El, Hdata.
    replace (Z.to_nat (512 * (k + 1))) with (512 + Z.to_nat (512 * k))%nat by lia. rewrite take_add, slice_app. fold l1. f_equal.
    rewrite (co_addrs _ _ _ Hc). apply slice_ext. intros a Ha. apply Hout. apply (ir_apart _ _ Hu).
    apply elem_of_take in Ha as (x & Hx & _). apply list_elem_of_lookup_2 in Hx. by eapply elem_of_subseteq; [apply subseteq_drop|]. }
  split. { intros Hne a Ha. rewrite Hfr by done. by apply Hout. }
  rewrite <-(co_segflg _ _ _ Hc). destruct Hcase as [(-> & -> & Hc')|[(-> & Hlt & Hc')|(-> & Hlt & Hseg & j & Hc')]].
  - left. split_and!; [done|lia|]. replace (512 * (Z.of_nat n + 1)) with (512 + 512 * Z.of_nat n) by lia. by eapply consumed_trans.
  - right. left. split_and!; [done|lia|]. replace (512 * (k + 1 + 1)) with (512 + 512 * (k + 1)) by lia. by eapply consumed_trans.
  - right. right. split_and!; [done|lia|done|]. exists (512 + j). by eapply consumed_trans.
Qed.

(** ** [lhd_io], and [sfs_rwblock] on it *)

Definition io_post (n : nat) (b : Z) (u : uio) s (r : Z * uio) s' : Prop :=
  match uio_rw u with UIO_READ => read_post n b u s r s' | UIO_WRITE => write_post n b u s r s' end.
(** [lhd_io] on whole sectors: the number of the first is cut to 32 bits, and so is the end
    that is compared with the size of the disk. *)
Lemma lhd_io_aligned n b u s : uio_offset u = 512 * b -> uio_resid u = 512 * Z.of_nat n ->
  lhd_io lh_buf curas u s =
    if hw_nsect (H:=H) <? u32 (u32 b + Z.of_nat n) then Ret (EINVAL, u) s
    else io_loop lh_buf curas n 0 (u32 b) (if is_write u then Z.lor LHD_WORKING LHD_ISWRITE else LHD_WORKING) u s.
Proof.
  intros Ho Hr. unfold lhd_io, LHD_SECTSIZE. rewrite Ho, Hr, !(Z.mul_comm 512), Z.quot_mul, Z.rem_mul, Z.mod_mul, Z.div_mul by lia.
  change (u32 0 =? 0) with true. cbn [Z.eqb negb orb]. rewrite Nat2Z.id. by destruct (hw_nsect (H:=H) <? _).
Qed.
Lemma lhd_io_ready n b u s : io_ready n u -> idle s -> uio_offset u = 512 * b -> u32 b + Z.of_nat n <= hw_nsect (H:=H) ->
  wp (lhd_io lh_buf curas u) (io_post n (u32 b) u s) s.
Proof.
  intros Hu Hs Ho Hn. pose proof hw_nsect_ok as Hns. pose proof (u32_range b).
  unfold wp. rewrite (lhd_io_aligned n b u s Ho (ir_resid _ _ Hu)), (u32_small (u32 b + Z.of_nat n)) by lia.
  destruct (Z.ltb_spec (hw_nsect (H:=H)) (u32 b + Z.of_nat n)); [lia|]. unfold io_post, is_write. fold (@wp (driver H) (Z * uio)).
  destruct (uio_rw u) eqn:Hrw; [pose proof (io_loop_read (u32 b) n 0 u s) as Hl|pose proof (io_loop_write (u32 b) n 0 u s) as Hl];
    rewrite Z.add_0_r in Hl; apply Hl; done || lia.
Qed.
Lemma lhd_io_spec n b u s : io_ready n u -> idle s -> 0 <= b -> uio_offset u = 512 * b -> b + Z.of_nat n <= hw_nsect (H:=H) ->
  wp (lhd_io lh_buf curas u) (io_post n b u s) s.
Proof.
  intros Hu Hs Hb Ho Hn. pose proof hw_nsect_ok as Hns. rewrite <-(u32_small b) by lia. apply lhd_io_ready; try done. by rewrite u32_small by lia.
Qed.
(** C16. The driver moves whole sectors: an offset or a length that is not a multiple of 512 is
    refused, whatever the transfer.  Otherwise the number of the first sector is the offset
    divided by 512, cut to 32 bits.  When that number plus the count, cut to 32 bits, is past
    the end of the disk, the transfer is refused; so every transfer past the end is, unless
    the sum is 2^32 or more: then the check can pass and the loop starts at a sector that need
    not be there, and it also starts at the wrong sector for offsets from 2^41 on.  When the
    sum is within the disk, a read brings the sectors' bytes to the addresses of the
    [uio], a write takes them from there, and nothing else changes but the card's buffer, if
    the disk or a user address does not fail.  If it fails, the error says so, and the first [k]
    sectors were done; the [uio] of a read is past those, but the [uio] of a write is past
    the sector that was not written, too.  The driver, idle before, ends idle.  The addresses of
    the [uio] are distinct and apart from the card's buffer. *)
Theorem lhd_io_correct u s : idle s ->
  (uio_offset u mod 512 <> 0 \/ uio_resid u mod 512 <> 0 -> lhd_io lh_buf curas u s = Ret (EINVAL, u) s) /\
  (forall n b, uio_offset u = 512 * b -> uio_resid u = 512 * Z.of_nat n ->
     (hw_nsect (H:=H) < u32 (u32 b + Z.of_nat n) -> lhd_io lh_buf curas u s = Ret (EINVAL, u) s) /\
     (0 <= b -> b + Z.of_nat n < 2 ^ 32 -> hw_nsect (H:=H) < b + Z.of_nat n -> lhd_io lh_buf curas u s = Ret (EINVAL, u) s) /\
     (2 ^ 32 <= u32 b + Z.of_nat n -> u32 (u32 b + Z.of_nat n) <= hw_nsect (H:=H) ->
        lhd_io lh_buf curas u s =
          io_loop lh_buf curas n 0 (u32 b) (if is_write u then Z.lor LHD_WORKING LHD_ISWRITE else LHD_WORKING) u s) /\
     (io_ready n u -> u32 b + Z.of_nat n <= hw_nsect (H:=H) -> wp (lhd_io lh_buf curas u) (io_post n (u32 b) u s) s)).
Proof.
  intros Hs. split.
  - intros Hm. unfold lhd_io, LHD_SECTSIZE.
    assert (Hne : (u32 (Z.rem (uio_offset u) 512) =? 0) && (uio_resid u mod 512 =? 0) = false).
    { apply andb_false_iff. rewrite !Z.eqb_neq. destruct Hm as [Hm|Hm]; [left|by right]. intros E. apply Hm.
      pose proof (Z.rem_bound_abs (uio_offset u) 512). unfold u32 in E.
      assert (Hr : Z.rem (uio_offset u) 512 = 0) by (apply Z.mod_divide in E as [q Hq]; lia).
      apply Z.mod_divide; [lia|]. by apply Z.rem_divide; [lia|]. }
    by rewrite <-negb_andb, Hne.
  - intros n b Ho Hr. split; [|split; [|split]].
    + intros Hn. rewrite (lhd_io_aligned n b u s Ho Hr). by rewrite (proj2 (Z.ltb_lt _ _) Hn).
    + intros Hb Hlt Hn. rewrite (lhd_io_aligned n b u s Ho Hr), (u32_small b), u32_small by lia. by rewrite (proj2 (Z.ltb_lt _ _) Hn).
    + intros _ Hn. rewrite (lhd_io_aligned n b u s Ho Hr). by rewrite (proj2 (Z.ltb_ge _ _) Hn).
    + intros Hu Hn. by apply lhd_io_ready.
Qed.
(** With nothing left to transfer, there is nothing to do. *)
Lemma lhd_io_empty b u s : io_ready 0 u -> idle s -> 0 <= b -> uio_offset u = 512 * b -> b <= hw_nsect (H:=H) -> lhd_io lh_buf curas u s = Ret (0, u) s.
Proof.
  intros Hu Hs Hb Ho Hn. pose proof hw_nsect_ok as Hns. unfold lhd_io, LHD_SECTSIZE. rewrite Ho, (ir_resid _ _ Hu), Z.quot_div_nonneg, Z.rem_mod_nonneg by lia.
  change (512 * Z.of_nat 0) with 0. rewrite !(Z.mul_comm 512), !Z.mod_mul, !Z.div_mul by lia. rewrite !(u32_small b), ?(u32_small (b + Z.of_nat n)), ?(u32_small (b + 0)) by lia. change (u32 0 =? 0) with true.
  change (0 mod 512 =? 0) with true. change (0 / 512) with 0. cbn [negb orb].
  rewrite Z.add_0_r, u32_small by lia. destruct (Z.ltb_spec (hw_nsect (H:=H)) b); [lia|done].
Qed.
Lemma io_ready_same n u u' : io_ready n u -> consumed 0 u u' -> io_ready n u'.
Proof.
  intros [A1 A2 A3 A4 A5 A6 A7 A8 A9] [B1 B2 B3 B4 B5 B6 B7 B8]. change (Z.to_nat 0) with O in B2. rewrite drop_0 in B2.
  split; rewrite ?B3, ?B4, ?B7, ?B5, ?B2; try done; try lia. unfold total in *. rewrite B2. lia.
Qed.
(** A read through [sfs_rwblock]: the last try counts. *)
Lemma rwblock_read_spec b tries : forall u s, io_ready 1 u -> uio_rw u = UIO_READ -> idle s -> 0 <= b < hw_nsect (H:=H) -> uio_offset u = 512 * b ->
  wp (Sfs.sfs_rwblock tries (lhd_io lh_buf curas) u) (read_post 1 b u s) s.
Proof.
  induction tries as [|n IH]; intros u s Hu Hrw Hs Hb Ho; cbn [Sfs.sfs_rwblock]; rewrite wp_bind;
    (eapply wp_mono; [|apply (lhd_io_spec 1 b u s); done || lia]); unfold io_post; rewrite Hrw; intros [e u1] s1 Hp;
    assert (Hp' := Hp); destruct Hp' as (Hid & Hsec & [(k & Hk & Hcase & Hc & Hsl & Hfr)|(He & Hseg & j & Hc)]); cbn [fst snd] in *;
    try (subst e; exact Hp).
  { destruct Hcase as [[-> _]|[-> _]]; exact Hp. }
  destruct Hcase as [[-> _]|[-> Hk1]]; [exact Hp|]. cbn [Z.eqb]. assert (k = 0) as -> by lia. change (512 * 0) with 0 in *.
  assert (Ea : addrs (uio_iov u1) = addrs (uio_iov u)) by (rewrite (co_addrs _ _ _ Hc); apply drop_0).
  eapply wp_mono; [|apply (IH u1 s1); [by eapply io_ready_same|rewrite (co_rw _ _ _ Hc); exact Hrw|exact Hid|exact Hb|rewrite (co_offset _ _ _ Hc); lia]].
  cbv beta. intros [e2 u2] s2 (Hid2 & Hsec2 & Hcase). split; [done|]. split; [intros b'; by rewrite Hsec2, Hsec|]. cbn [fst snd] in *. rewrite Ea in Hcase.
  destruct Hcase as [(k & Hk2 & Hcase & Hc2 & Hsl2 & Hfr2)|(He & Hseg & j & Hc2)].
  - left. exists k. split; [done|]. split; [done|]. split; [by apply (consumed_trans 0 (512 * k) u u1 u2)|]. split.
    + rewrite Hsl2. apply sectors_ext. intros b' _. apply Hsec.
    + intros a Ha Hb'. rewrite Hfr2 by done. apply Hfr; [|done]. apply not_elem_of_nil.
  - right. split; [done|]. rewrite <-(co_segflg _ _ _ Hc). split; [done|]. exists j. by apply (consumed_trans 0 j u u1 u2).
Qed.
(** C17. An error of the disk on a write is never reported: whatever the disk does, [sfs_rwblock]
    answers 0 to a write of a block from the kernel's memory, though the sector may be as it was.
    After the first failure the [uio] has nothing left, and the second try writes nothing. *)
Theorem write_errors_lost b u s tries : io_ready 1 u -> uio_rw u = UIO_WRITE -> uio_segflg u = UIO_SYSSPACE -> idle s -> 0 <= b < hw_nsect (H:=H) -> uio_offset u = 512 * b ->
  wp (Sfs.sfs_rwblock (S tries) (lhd_io lh_buf curas) u) (fun r s' => r.1 = 0 /\ consumed 512 u r.2 /\ idle s' /\
    (forall b', b' <> b -> hw_sector (platter s') b' = hw_sector (platter s) b') /\
    (hw_sector (platter s') b = slice (memory s) (take 512 (addrs (uio_iov u))) \/ hw_sector (platter s') b = hw_sector (platter s) b)) s.
Proof.
  intros Hu Hrw Hseg Hs Hb Ho. cbn [Sfs.sfs_rwblock]. rewrite wp_bind. eapply wp_mono; [|apply (lhd_io_spec 1 b u s); done || lia].
  unfold io_post. rewrite Hrw. intros [e u1] s1 (Hid & k & Hk & Hsec & Hdata & _ & Hcase); cbn [fst snd] in *.
  destruct Hcase as [(-> & -> & Hc)|[(-> & Hk1 & Hc)|(-> & _ & Hne & _)]]; [| |done].
  - change (0 =? EINVAL) with false. change (0 =? EIO) with false. cbv iota. rewrite wp_ret. split_and!; [done|done|done|intros b' Hb'; apply Hsec; lia|left].
    change (Z.of_nat 1) with 1 in Hdata. by rewrite sectors_one in Hdata.
  - assert (k = 0) as -> by lia. change (EIO =? EINVAL) with false. change (EIO =? EIO) with true. cbv iota. assert (Hu1 := io_ready_next 0 u u1 Hu Hc).
    assert (Hrun : forall n, Sfs.sfs_rwblock n (lhd_io lh_buf curas) u1 s1 = Ret (0, u1) s1).
    { intros n. pose proof (lhd_io_empty (b + 1) u1 s1 Hu1 Hid ltac:(lia) ltac:(rewrite (co_offset _ _ _ Hc); lia) ltac:(lia)) as He.
      destruct n; cbn [Sfs.sfs_rwblock]; unfold mbind, K_bind; by rewrite He. }
    unfold wp. rewrite Hrun. split_and!; [done|done|done|intros b' Hb'; apply Hsec; lia|right]. apply Hsec. lia.
Qed.
End Lhd.

(** ** A disk of sixteen sectors; the list says which of the next runs fail *)

Module Lhd_sample.
Definition disk : Type := list bool * gmap Z (list Z).
Definition sector (d : disk) (b : Z) : list Z := Sfs_sample.norm (default [] (d.2 !! b)).
Definition there (b : Z) : bool := (0 <=? b) && (b <? 16).
Definition run (stat b : Z) (l : list Z) : K disk (Z * list Z) :=
  d ← get; put (tail d.1, d.2);;
  if negb (there b) then mret (LHD_INVSECT, l) else
  if default false (head d.1) then mret (LHD_MEDIA, l) else
  if stat =? LHD_WORKING then mret (LHD_OK, sector d b) else
  put (tail d.1, <[b := l]> d.2);; mret (Z.lor LHD_OK LHD_ISWRITE, l).
Lemma there_spec b : there b = true <-> 0 <= b < 16.
Proof. unfold there. rewrite andb_true_iff, Z.leb_le, Z.ltb_lt. done. Qed.
#[local, refine] Instance disk_hardware : DiskHardware disk := {| hw_nsect := 16; hw_sector := sector; hw_run := run |}.
Proof.
  - done.
  - intros h b. apply Sfs_sample.norm_ok.
  - intros h b l Hl. unfold run. wp_simpl. destruct (there b) eqn:Hb; cbn [negb].
    + destruct (default false (head h.1)); wp_simpl; cbn [fst snd]; (split_and!; [try done; apply Sfs_sample.norm_ok|done|]); [by right; left|by left].
    + split_and!; [done|done|]. right. right. split; [done|]. intros H%there_spec. congruence.
  - intros h b l Hl Hy. unfold run. wp_simpl. destruct (there b) eqn:Hb; cbn [negb].
    + destruct (default false (head h.1)); wp_simpl; cbn [fst snd]; [split_and!; [done|done|]; right; split; [done|by left]|].
      split; [done|]. unfold sector. cbn [snd]. split; [intros b' Hne; by rewrite lookup_insert_ne|]. left. split; [done|]. rewrite lookup_insert_eq. by apply Sfs_sample.norm_id.
    + split_and!; [done|done|]. right. split; [done|]. right. split; [done|]. intros H%there_spec. congruence.
Defined.
Definition mem : machine := Machine (fun _ => true) (fun a => a mod 256) false.
Definition at_rest (fails : list bool) : driver disk := Driver mem 1 0 0 0 0 (fails, {[5 := replicate 512 7]}).
Definition card : Z := 0x90000000.
(** A block of kernel memory to or from the sector 5. *)
Definition block5 (rw : uio_rw_t) : uio := uio_kinit 0x80001000 512 2560 rw.
Lemma block5_ready rw : io_ready card None 1 (block5 rw).
Proof.
  assert (Ha : addrs (uio_iov (block5 rw)) = seqZ 0x80001000 512) by (unfold addrs; cbn [block5 uio_kinit uio_iov fmap list_fmap concat iov_base iov_len]; by rewrite app_nil_r).
  split; try done.
  - repeat constructor; cbn; lia.
  - rewrite Ha. apply NoDup_seqZ.
  - rewrite Ha. intros a [? ?]%elem_of_seqZ. unfold in_region, card. lia.
Qed.
Lemma lhd_io_correct_witness : idle (at_rest []) /\
  wp (lhd_io card None (block5 UIO_READ)) (io_post card 1 5 (block5 UIO_READ) (at_rest [])) (at_rest []) /\
  lhd_io card None (uio_kinit 0x80001000 500 2560 UIO_READ) (at_rest []) = Ret (EINVAL, uio_kinit 0x80001000 500 2560 UIO_READ) (at_rest []).
Proof.
  assert (Hi : idle (at_rest [])) by by split. split; [exact Hi|]. split.
  - destruct (lhd_io_correct card None (block5 UIO_READ) (at_rest []) Hi) as [_ Hc].
    destruct (Hc 1%nat 5 eq_refl eq_refl) as (_ & _ & _ & Hr). apply Hr; [apply block5_ready|by vm_compute].
  - destruct (lhd_io_correct card None (uio_kinit 0x80001000 500 2560 UIO_READ) (at_rest []) Hi) as [Hm _].
    apply Hm. right. discriminate.
Defined.
(** The disk fails every time, the answer is 0, and the sector has its old bytes. *)
Lemma write_errors_lost_witness :
  wp (Sfs.sfs_rwblock 10 (lhd_io card None) (block5 UIO_WRITE)) (fun r _ => r.1 = 0) (at_rest (replicate 20 true)) /\
  match Sfs.sfs_rwblock 10 (lhd_io card None) (block5 UIO_WRITE) (at_rest (replicate 20 true)) with
  | Ret (e, _) s' => e = 0 /\ hw_sector (platter s') 5 = replicate 512 7
  | _ => False
  end.
Proof.
  split; [|by vm_compute].
  refine (wp_mono _ _ _ _ _ (write_errors_lost card None 5 _ (at_rest (replicate 20 true)) 9 (block5_ready UIO_WRITE) eq_refl eq_refl _ _ eq_refl));
    [by intros r s' [? _]|by split|by vm_compute].
Defined.
End Lhd_sample.
