(* ===== verification/Sfsio.v ===== *)
(** * The data of SFS files: [sfs_io] and its helpers ([kern/fs/sfs/sfs_io.c]), on the disk driver

    A transfer of a user or of the kernel goes block by block: whole blocks directly between
    the disk and the addresses of the [uio], partial ones through a static buffer.  Here the
    volume of [Sfs] has the driver of [Lhd] under it, whose memory is also the memory of the
    [uio]s: this is the composition of the file system with its device.

    [Lhd.write_errors_lost] says what the code makes of a disk that fails writes.  Here
    the disk may fail reads, and writes succeed ([ReliableWrites]): then the driver is
    a [Disk].  The static buffers are one, at [iobuf]; each is filled before it is used. *)
From S2P Require Import Prelude Bitmap Copyinout Uio Sfs Lhd.
Import Copyinout Uio Lhd Driver.

(** A run of the disk that writes a sector of it succeeds. *)
Class ReliableWrites (H : Type) {HW : DiskHardware H} :=
  hw_writes_ok h b l : length l = 512%nat -> Forall is_byte l -> 0 <= b < hw_nsect ->
    wp (hw_run (Z.lor LHD_WORKING LHD_ISWRITE) b l) (fun r _ => Z.land r.1 LHD_STATEMASK = LHD_OK) h.

(** ** The driver as a disk *)

Section device.
Context {H : Type} {HW : DiskHardware H} {RW : ReliableWrites H} (lh_buf iobuf : Z) (curas : option Z).
Context (buffers_apart : forall a, in_region iobuf 512 a -> ~ in_region lh_buf 512 a) (iobuf_range : 0 <= iobuf <= 2 ^ 32 - 512).
Implicit Types s : driver H.

(** [sfs_readblock] and [sfs_writeblock] describe their transfers by [SFSUIO]: [n] bytes are left. *)
Definition SFSUIO (n block : Z) (rw : uio_rw_t) : uio :=
  uio_kinit (iobuf + (512 - n)) n (512 * block + (512 - n)) rw.
Definition driver_read (block : Z) : K (driver H) (Z * list Z) :=
  '(result, _) ← lhd_io lh_buf curas (SFSUIO 512 block UIO_READ);
  s ← get;
  mret (result, get_bytes iobuf 512 (memory s)).
Definition driver_write (block : Z) (data : list Z) : K (driver H) (Z * list Z) :=
  let n := Z.of_nat (length data) in
  modify (fun s => set_memory (put_bytes (iobuf + (512 - n)) data (memory s)) s);;
  '(result, u) ← lhd_io lh_buf curas (SFSUIO n block UIO_WRITE);
  mret (result, drop (Z.to_nat (n - uio_resid u)) data).

(** The buffers that the code uses for itself. *)
Definition buffer (a : Z) : Prop := in_region lh_buf 512 a \/ in_region iobuf 512 a.
Definition driver_step s s' : Prop :=
  (idle s -> idle s') /\ forall a, ~ buffer a -> bytes (memory s') a = bytes (memory s) a.
Lemma driver_step_preorder : PreOrder driver_step.
Proof.
  split; [done|]. intros s1 s2 s3 [A1 A2] [B1 B2]. split; [auto|]. intros a Ha. by rewrite B2, A2.
Qed.

Lemma addrs_one a n : addrs [Iovec a n] = seqZ a n.
Proof. unfold addrs. cbn. apply app_nil_r. Qed.
Lemma SFSUIO_ready b rw : 0 <= b < hw_nsect (H:=H) -> io_ready lh_buf curas 1 (SFSUIO 512 b rw).
Proof.
  intros Hb. pose proof hw_nsect_ok as Hns. unfold SFSUIO, uio_kinit. change (512 - 512) with 0. rewrite !Z.add_0_r.
  split; cbn [uio_iov uio_offset uio_resid uio_segflg uio_rw uio_space]; rewrite ?addrs_one; try done; try lia.
  - repeat constructor; cbn; lia.
  - apply NoDup_seqZ.
  - intros a [? ?]%elem_of_seqZ. apply buffers_apart. unfold in_region. lia.
Qed.
Lemma SFSUIO_addrs b rw : addrs (uio_iov (SFSUIO 512 b rw)) = seqZ iobuf 512.
Proof. unfold SFSUIO. cbn [uio_kinit uio_iov]. change (512 - 512) with 0. by rewrite addrs_one, Z.add_0_r. Qed.
Lemma SFSUIO_offset b rw : uio_offset (SFSUIO 512 b rw) = 512 * b.
Proof. cbn. lia. Qed.
Lemma get_bytes_slice a n m : get_bytes a n m = slice m (seqZ a n).
Proof. done. Qed.

(** A write of one block does not fail for the disk's sake. *)
Lemma lhd_write_reliable b u s : io_ready lh_buf curas 1 u -> uio_rw u = UIO_WRITE -> idle s -> 0 <= b < hw_nsect (H:=H) -> uio_offset u = 512 * b ->
  wp (lhd_io lh_buf curas u) (fun r _ => r.1 <> EIO) s.
Proof.
  intros Hu Hrw [Hcl Hdo] Hb Ho. pose proof hw_nsect_ok as Hns. unfold lhd_io, LHD_SECTSIZE, is_write. rewrite Ho, (ir_resid _ _ _ _ Hu), Hrw.
  rewrite Z.quot_div_nonneg, Z.rem_mod_nonneg by lia. change (512 * Z.of_nat 1) with 512. rewrite !(Z.mul_comm 512), !Z.mod_mul, !Z.div_mul by lia.
  rewrite !(u32_small b), ?(u32_small (b + 512 / 512)) by (change (512 / 512) with 1; lia). change (negb (u32 0 =? 0) || negb (512 mod 512 =? 0)) with false. cbv iota.
  change (512 / 512) with 1. destruct (Z.ltb_spec (hw_nsect (H:=H)) (b + 1)); [lia|]. change (Z.to_nat 1) with 1%nat. cbn [io_loop].
  unfold P_clear, V_clear, is_write. rewrite Hrw. wp_simpl. rewrite Hcl. cbn [Z.ltb Z.compare negb]. wp_simpl.
  eapply wp_mono; [|by apply (buf_move_spec lh_buf curas 0 u)]. cbv beta.
  intros [e u'] s1 (m & -> & [(He & Hc & Hm)|(He & Hseg & j & Hj & Hc)]); cbn [fst snd] in *; subst e; cbn [Z.eqb negb]; wp_simpl; [|done].
  rewrite Z.add_0_r, u32_small by lia. set (s2 := set_stat _ _). apply wp_wait.
  assert (Hrun := hw_writes_ok (platter s2) b (get_bytes lh_buf 512 (memory s2)) ltac:(by apply get_bytes_length) (slice_bytes (memory s2) (seqZ lh_buf 512)) Hb).
  eapply wp_mono; [|apply (wait_spec lh_buf s2 (fun r h => length r.2 = 512%nat /\ Z.land r.1 LHD_STATEMASK = LHD_OK));
    [|cbn; lia|intros r h [? ?]; split; [done|by left]]].
  - cbv beta. intros e s3 (code & l & [_ Hok] & -> & _). unfold lhd_code_to_errno. cbn [fst] in Hok. rewrite Hok. change (LHD_OK =? LHD_OK) with true. cbv iota.
    rewrite (co_rw _ _ _ Hc), Hrw. cbn [Z.eqb negb andb]. by wp_simpl.
  - eapply wp_mono; [|apply wp_and; [apply Hrun|apply (hw_write_spec (platter s2) b); [by apply get_bytes_length|apply slice_bytes]]].
    cbv beta. intros r h [Hok (-> & _)]. split; [by apply get_bytes_length|done].
Qed.

Lemma driver_read_spec s b : idle s -> 0 <= b < hw_nsect (H:=H) -> wp (driver_read b) (fun r s' => driver_step s s' /\
  (forall b', hw_sector (platter s') b' = hw_sector (platter s) b') /\ (r.1 = 0 -> r.2 = hw_sector (platter s) b) /\ r.1 <> EINVAL /\ r.1 <> ENOENT) s.
Proof.
  intros Hs Hb. unfold driver_read. wp_simpl.
  eapply wp_mono; [|apply (lhd_io_spec lh_buf curas 1 b); [by apply SFSUIO_ready|done|lia|apply SFSUIO_offset|lia]].
  unfold io_post. change (uio_rw (SFSUIO 512 b UIO_READ)) with UIO_READ. cbv beta iota. intros [e u] s' (Hid & Hsec & Hcase). wp_simpl.
  rewrite SFSUIO_addrs in Hcase. cbn [fst snd] in *. destruct Hcase as [(k & Hk & He & Hc & Hsl & Hfr)|(_ & Hseg & _)]; [|done].
  assert (Hstep : driver_step s s').
  { split; [done|]. intros a Ha. apply Hfr; [|intros ?; apply Ha; by left]. intros (i & Hi & _)%elem_of_take. apply lookup_seqZ in Hi as [-> Hi].
    apply Ha. right. unfold in_region. lia. }
  split_and!; [done|done| |destruct He as [[-> _]|[-> _]]; done..].
  intros ->. destruct He as [[_ ->]|[? _]]; [|done]. rewrite get_bytes_slice. change (Z.of_nat 1) with 1 in Hsl. rewrite sectors_one in Hsl. rewrite <-Hsl.
  by rewrite take_ge by (rewrite length_seqZ; lia).
Qed.
Lemma driver_write_spec s b l : idle s -> 0 <= b < hw_nsect (H:=H) -> length l = 512%nat -> Forall is_byte l ->
  wp (driver_write b l) (fun r s' => driver_step s s' /\ (forall b', b' <> b -> hw_sector (platter s') b' = hw_sector (platter s) b') /\
    hw_sector (platter s') b = l /\ r.1 = 0) s.
Proof.
  intros Hs Hb Hl Hy. unfold driver_write. rewrite Hl. change (Z.of_nat 512) with 512. change (512 - 512) with 0. rewrite Z.add_0_r. wp_simpl.
  set (s1 := set_memory _ s). assert (Hr := SFSUIO_ready b UIO_WRITE Hb).
  eapply wp_mono; [|apply wp_and; [apply (lhd_io_spec lh_buf curas 1 b (SFSUIO 512 b UIO_WRITE) s1); [done|exact Hs|lia|apply SFSUIO_offset|lia]|
    apply (lhd_write_reliable b); [done|done|exact Hs|done|apply SFSUIO_offset]]].
  unfold io_post. change (uio_rw (SFSUIO 512 b UIO_WRITE)) with UIO_WRITE. cbv beta iota.
  intros [e u] s' [(Hid & k & Hk & Hsec & Hdata & Hfr & Hcase) Hne]. wp_simpl. cbn [fst snd] in *.
  destruct Hcase as [(-> & -> & Hc)|[(-> & _)|(_ & _ & Hseg & _)]]; [|done..].
  split_and!; [|intros b' Hb'; apply Hsec; lia| |done].
  - split; [done|]. intros a Ha. rewrite Hfr; [|done|intros ?; apply Ha; by left]. unfold s1. cbn [memory set_memory].
    apply put_bytes_other. rewrite Hl. intros ?. apply Ha. by right.
  - change (Z.of_nat 1) with 1 in Hdata. rewrite sectors_one in Hdata. rewrite Hdata, SFSUIO_addrs. rewrite take_ge by (by rewrite length_seqZ).
    unfold s1. cbn [memory set_memory]. pose proof (put_bytes_slice iobuf l (memory s) Hy) as Hp. by rewrite Hl in Hp.
Qed.

#[refine] Definition driver_disk : Disk (driver H) := {|
  dev_blocks := hw_nsect (H:=H); dev_block s := hw_sector (platter s); dev_read := driver_read; dev_write := driver_write;
  dev_ok := idle; dev_step := driver_step |}.
Proof.
  - apply driver_step_preorder.
  - intros s s' Hs [Hid _]. auto.
  - pose proof hw_nsect_ok. lia.
  - intros s b. apply hw_sector_ok.
  - apply driver_read_spec.
  - intros s b l Hs Hb Hl Hy. eapply wp_mono; [|by apply driver_write_spec]. cbv beta. intros r s' (? & ? & ? & ->). split_and!; auto; done.
Defined.
End device.

(** ** The operations *)

Module Sfsio.
Section ops.
Context {B H : Type} {FM : FreeMap B} {HW : DiskHardware H} {DK : Disk (driver H)} (lh_buf iobuf zeros_at : Z) (curas : option Z).
Notation volume := (Sfs.sfs B (driver H)).

Definition memory_of (s : volume) : machine := memory (Sfs.device s).
Definition put_memory (m : machine) (s : volume) : volume := Sfs.set_device (set_memory m (Sfs.device s)) s.
Definition memory_lens : lens volume machine := Lens memory_of put_memory.
Definition set_offset_resid (offset resid : Z) (u : uio) : uio :=
  Uio (uio_iov u) offset resid (uio_segflg u) (uio_rw u) (uio_space u).

Definition sfs_partialio (u : uio) (skipstart len : Z) : K volume (Z * uio) :=
  let doalloc := is_write u in
  KASSERT (skipstart + len <=? SFS_BLOCKSIZE) "skipstart + len <= SFS_BLOCKSIZE";;
  let fileblock := u32 (Z.quot (uio_offset u) SFS_BLOCKSIZE) in
  '(result, diskblock) ← Sfs.sfs_bmap fileblock doalloc;
  if negb (result =? 0) then mret (result, u) else
  '(result, data) ←
    (if diskblock =? 0 then KASSERT (negb (is_write u)) "uio->uio_rw == UIO_READ";; mret (0, Sfs.zeros)
     else Sfs.sfs_readblock diskblock : K volume (Z * list Z));
  if negb (result =? 0) then mret (result, u) else
  modify (fun s => put_memory (put_bytes iobuf data (memory_of s)) s);;
  '(result, u) ← zoom memory_lens (uiomove curas (iobuf + skipstart) len u);
  if negb (result =? 0) then mret (result, u) else
  if is_write u then
    s ← get;
    result ← Sfs.sfs_writeblock diskblock (get_bytes iobuf SFS_BLOCKSIZE (memory_of s));
    if negb (result =? 0) then mret (result, u) else mret (0, u)
  else mret (0, u).

Definition sfs_blockio (u : uio) : K volume (Z * uio) :=
  let doalloc := is_write u in
  let fileblock := u32 (Z.quot (uio_offset u) SFS_BLOCKSIZE) in
  '(result, diskblock) ← Sfs.sfs_bmap fileblock doalloc;
  if negb (result =? 0) then mret (result, u) else
  if diskblock =? 0 then
    KASSERT (negb (is_write u)) "uio->uio_rw == UIO_READ";;
    zoom memory_lens (uiomovezeros curas zeros_at SFS_BLOCKSIZE u)
  else
  let saveoff := uio_offset u in
  let diskoff := u32 (diskblock * SFS_BLOCKSIZE) in
  KASSERT (SFS_BLOCKSIZE <=? uio_resid u) "uio->uio_resid >= SFS_BLOCKSIZE";;
  let saveres := uio_resid u in
  let diskres := SFS_BLOCKSIZE in
  '(result, u) ← zoom Sfs.dev_lens (Sfs.sfs_rwblock Sfs.MAX_TRIES (lhd_io lh_buf curas) (set_offset_resid diskoff diskres u));
  mret (result, set_offset_resid (uio_offset u - diskoff + saveoff) (u32 (uio_resid u - diskres + saveres)) u).

(** The whole blocks, [n] left. *)
Fixpoint block_loop (n : nat) (u : uio) : K volume (Z * uio) :=
  match n with
  | O => mret (0, u)
  | S n =>
      '(result, u) ← sfs_blockio u;
      if negb (result =? 0) then mret (result, u) else block_loop n u
  end.

(** From the leading partial block to the label [out]. *)
Definition io_body (u : uio) : K volume (Z * uio) :=
  let blkoff := u32 (Z.rem (uio_offset u) SFS_BLOCKSIZE) in
  '(result, u) ←
    (if negb (blkoff =? 0) then
       let len := SFS_BLOCKSIZE - blkoff in
       let len := if uio_resid u <? len then uio_resid u else len in
       sfs_partialio u blkoff len
     else mret (0, u) : K volume (Z * uio));
  if negb (result =? 0) then mret (result, u) else
  if uio_resid u =? 0 then mret (0, u) else
  KASSERT (Z.rem (uio_offset u) SFS_BLOCKSIZE =? 0) "uio->uio_offset % SFS_BLOCKSIZE == 0";;
  let nblocks := u32 (uio_resid u / SFS_BLOCKSIZE) in
  '(result, u) ← block_loop (Z.to_nat nblocks) u;
  if negb (result =? 0) then mret (result, u) else
  KASSERT (uio_resid u <? SFS_BLOCKSIZE) "uio->uio_resid < SFS_BLOCKSIZE";;
  if 0 <? uio_resid u then sfs_partialio u 0 (uio_resid u) else mret (0, u).

(** The code at [out]. *)
Definition io_out (origresid extraresid : Z) (r : Z * uio) : K volume (Z * uio) :=
  let '(result, u) := r in
  s ← get;
  (if negb (uio_resid u =? origresid) && is_write u && (Sfs.sfi_size (Sfs.sv_i s) <? uio_offset u)
   then modify (fun s => Sfs.set_inode (Sfs.set_size (u32 (uio_offset u)) (Sfs.sv_i s)) s) else mret tt);;
  mret (result, set_offset_resid (uio_offset u) (u32 (uio_resid u + extraresid)) u).

Definition sfs_io (u : uio) : K volume (Z * uio) :=
  let origresid := u32 (uio_resid u) in
  s ← get;
  let size := Sfs.sfi_size (Sfs.sv_i s) in
  let endpos := uio_offset u + uio_resid u in
  if negb (is_write u) && (size <=? uio_offset u) then mret (0, u) else
  let extraresid := if negb (is_write u) && (size <? endpos) then u32 (endpos - size) else 0 in
  (if negb (is_write u) && (size <? endpos) then KASSERT (extraresid <? uio_resid u) "uio->uio_resid > extraresid" else mret tt);;
  r ← io_body (set_offset_resid (uio_offset u) (u32 (uio_resid u - extraresid)) u);
  io_out origresid extraresid r.
End ops.
End Sfsio.
Import Sfsio.

(** ** Lists and memory *)

Lemma region_add o j k (l : list Z) : 0 <= o -> 0 <= j -> 0 <= k -> Sfs.region o (j + k) l = Sfs.region o j l ++ Sfs.region (o + j) k l.
Proof. intros. unfold Sfs.region. rewrite !Z2Nat.inj_add by lia. by rewrite take_add, drop_drop. Qed.
Lemma region_fmap {A} (f : A -> Z) (l : list A) o n : Sfs.region o n (f <$> l) = f <$> take (Z.to_nat n) (drop (Z.to_nat o) l).
Proof. unfold Sfs.region. by rewrite <-fmap_drop, <-fmap_take. Qed.
Lemma update_none o l : Sfs.update o [] l = l.
Proof. unfold Sfs.update. cbn [length app]. rewrite Nat.add_0_r. apply take_drop. Qed.
Lemma update_app o d1 d2 l : 0 <= o -> o + Z.of_nat (length d1 + length d2) <= Z.of_nat (length l) ->
  Sfs.update (o + Z.of_nat (length d1)) d2 (Sfs.update o d1 l) = Sfs.update o (d1 ++ d2) l.
Proof.
  intros Ho Hl. unfold Sfs.update. rewrite length_app. replace (Z.to_nat (o + Z.of_nat (length d1))) with (Z.to_nat o + length d1)%nat by lia.
  set (a := Z.to_nat o). assert (Ha : (a + (length d1 + length d2) <= length l)%nat) by lia.
  assert (Hta : length (take a l) = a) by (rewrite length_take; lia).
  rewrite !app_assoc, (take_app_le (take a l ++ d1)) by (rewrite length_app; lia). rewrite take_ge by (rewrite length_app; lia).
  rewrite <-!app_assoc. do 3 f_equal. rewrite app_assoc, drop_app_ge by (rewrite length_app; lia). rewrite length_app, Hta, drop_drop. f_equal. lia.
Qed.
Lemma seqZ_region a n o k : 0 <= o -> 0 <= k -> o + k <= n -> take (Z.to_nat k) (drop (Z.to_nat o) (seqZ a n)) = seqZ (a + o) k.
Proof.
  intros. replace (seqZ a n) with (seqZ a o ++ seqZ (a + o) k ++ seqZ (a + o + k) (n - o - k)) by (rewrite <-!seqZ_app by lia; f_equal; lia).
  rewrite drop_app_length' by (by rewrite length_seqZ). by rewrite take_app_length' by (by rewrite length_seqZ).
Qed.
(** Part of what was put at [a]; and what was put there after another write to a part of it. *)
Lemma put_bytes_region a l m o k : Forall is_byte l -> 0 <= o -> 0 <= k -> o + k <= Z.of_nat (length l) ->
  slice (put_bytes a l m) (seqZ (a + o) k) = Sfs.region o k l.
Proof.
  intros Hl ? ? ?. rewrite <-(put_bytes_slice a l m) at 2 by done. unfold slice at 2. rewrite region_fmap.
  by rewrite seqZ_region.
Qed.
Lemma put_bytes_update a l m m' o d : Forall is_byte l -> 0 <= o -> o + Z.of_nat (length d) <= Z.of_nat (length l) ->
  slice m' (seqZ (a + o) (Z.of_nat (length d))) = d -> (forall x, ~ in_region (a + o) (Z.of_nat (length d)) x -> bytes m' x = bytes (put_bytes a l m) x) ->
  slice m' (seqZ a (Z.of_nat (length l))) = Sfs.update o d l.
Proof.
  intros Hl Ho Hd Hs Hf. unfold Sfs.update.
  replace (seqZ a (Z.of_nat (length l))) with (seqZ a o ++ seqZ (a + o) (Z.of_nat (length d)) ++ seqZ (a + o + Z.of_nat (length d)) (Z.of_nat (length l) - o - Z.of_nat (length d)))
    by (rewrite <-!seqZ_app by lia; f_equal; lia).
  rewrite !slice_app, Hs. f_equal; [|f_equal].
  - rewrite (slice_ext (put_bytes a l m)) by (intros x [? ?]%elem_of_seqZ; apply Hf; unfold in_region; lia).
    rewrite <-(Z.add_0_r a) at 2. rewrite put_bytes_region by (done || lia). unfold Sfs.region. by rewrite drop_0.
  - rewrite (slice_ext (put_bytes a l m)) by (intros x [? ?]%elem_of_seqZ; apply Hf; unfold in_region; lia).
    rewrite <-Z.add_assoc, put_bytes_region by (done || lia). unfold Sfs.region. replace (Z.to_nat (o + Z.of_nat (length d))) with (Z.to_nat o + length d)%nat by lia.
    rewrite take_ge; [done|]. rewrite length_drop. lia.
Qed.

(** ** Transfers of the kernel's own bytes *)

Section transfer.
Context {H : Type} {HW : DiskHardware H} (lh_buf iobuf zeros_at : Z) (curas : option Z).

(** Where the code keeps its own data: the buffers and the zeros. *)
Definition reserved (a : Z) : Prop := buffer lh_buf iobuf a \/ in_region zeros_at 16 a.
(** A transfer that the code can be asked for. *)
Record uio_ok (u : uio) : Prop := {
  uk_wf : wf_iov (uio_iov u);
  uk_resid : 0 <= uio_resid u < 2 ^ 32;
  uk_total : uio_resid u <= total (uio_iov u);
  uk_offset : 0 <= uio_offset u;
  uk_end : uio_offset u + uio_resid u < 2 ^ 63;
  uk_nodup : NoDup (addrs (uio_iov u));
  uk_apart : forall a, a ∈ addrs (uio_iov u) -> ~ reserved a;
  uk_space : uio_space u = (if decide (uio_segflg u = UIO_SYSSPACE) then None else curas) }.

Lemma uio_ok_next k u u' : uio_ok u -> consumed k u u' -> uio_ok u'.
Proof.
  intros [A1 A2 A3 A4 A5 A6 A7 A8] [B1 B2 B3 B4 B5 B6 B7 B8]. split; rewrite ?B3, ?B4, ?B5, ?B7; try done; try lia.
  - unfold total in *. rewrite B2, length_drop. lia.
  - rewrite B2. eapply sublist_NoDup; [exact A6|apply sublist_drop].
  - intros a Ha. apply A7. rewrite B2 in Ha. by eapply elem_of_subseteq; [apply subseteq_drop|].
Qed.
Lemma consumed_zero u : uio_ok u -> consumed 0 u u.
Proof. intros Hu. apply consumed_refl; apply Hu. Qed.
Lemma first_length u n : uio_ok u -> 0 <= n <= uio_resid u -> length (take (Z.to_nat n) (addrs (uio_iov u))) = Z.to_nat n.
Proof. intros Hu Hn. rewrite length_take. pose proof (uk_total _ Hu). unfold total in *. lia. Qed.
Lemma first_apart u n a : uio_ok u -> a ∈ take n (addrs (uio_iov u)) -> ~ reserved a.
Proof. intros Hu (i & Hi & _)%elem_of_take. apply (uk_apart _ Hu). by eapply list_elem_of_lookup_2. Qed.

(** [uiomove] between the [uio] and a part of a buffer or of the zeros. *)
Lemma uiomove_spec m ptr n u : uio_ok u -> 0 <= n <= uio_resid u -> (forall a, in_region ptr n a -> reserved a) ->
  wp (uiomove curas ptr n u) (fun r m' =>
    (r.1 = 0 /\ consumed n u r.2 /\ moved (uio_rw u) m m' ptr (take (Z.to_nat n) (addrs (uio_iov u)))) \/
    (r.1 = EFAULT /\ uio_segflg u <> UIO_SYSSPACE /\ exists j, 0 <= j <= n /\ consumed j u r.2)) m.
Proof.
  intros [A1 A2 A3 A4 A5 A6 A7 A8] Hn Hp. eapply wp_mono; [|apply uiomove_correct].
  - cbv beta. intros [e u'] m' (k & u0 & Eu & Hk & B2 & B3 & B4 & B5 & B6 & B7 & B8 & Hcase). cbn [fst snd] in *. subst u0.
    assert (Hc : consumed k u u') by (split; try done; lia).
    destruct Hcase as [(-> & Hk' & Hm)|(-> & Hseg)]; [left|right; split_and!; [done|done|exists k; split; [lia|done]]].
    assert (k = n) as -> by lia. done.
  - unfold ready. split_and!; try done; try lia. intros a Ha Hr. by apply (A7 a Ha), Hp.
Qed.

(** Zeros to the first [n] addresses. *)
Definition zeros_there (m : machine) : Prop := forall a, in_region zeros_at 16 a -> bytes m a = 0.
Lemma zeros_moved m m' n l : 0 <= n <= 16 -> length l = Z.to_nat n -> zeros_there m -> moved UIO_READ m m' zeros_at l -> slice m' l = replicate (Z.to_nat n) 0.
Proof.
  intros Hn Hl Hz Hm. rewrite (moved_read _ _ _ _ Hm), Hl. apply list_eq. intros i. unfold slice. rewrite list_lookup_fmap.
  destruct (decide (i < Z.to_nat n)%nat).
  - rewrite lookup_seqZ_lt, lookup_replicate_2 by lia. cbn. rewrite Hz by (unfold in_region; lia). done.
  - rewrite lookup_seqZ_ge, lookup_ge_None_2 by (rewrite ?length_replicate; lia). done.
Qed.
Lemma uiomovezeros_spec fuel : forall m n u, uio_ok u -> uio_rw u = UIO_READ -> zeros_there m -> 0 <= n <= uio_resid u -> n <= Z.of_nat fuel ->
  wp (uiomovezeros_loop fuel curas zeros_at n u) (fun r m' =>
    (r.1 = 0 /\ consumed n u r.2 /\ let l := take (Z.to_nat n) (addrs (uio_iov u)) in
      slice m' l = replicate (Z.to_nat n) 0 /\ forall a, a ∉ l -> bytes m' a = bytes m a) \/
    (r.1 = EFAULT /\ uio_segflg u <> UIO_SYSSPACE /\ exists j, 0 <= j <= n /\ consumed j u r.2)) m.
Proof.
  induction fuel as [|fuel IH]; intros m n u Hu Hrw Hz Hn Hf; cbn [uiomovezeros_loop]; (destruct (Z.ltb_spec 0 n) as [Hpos|Hle]; cbn [negb]; [|assert (n = 0) as -> by lia]);
    try lia; try (wp_simpl; left; split; [done|]; split; [by apply consumed_zero|done]).
  set (amt := if n <? 16 then n else 16). assert (Hamt : 0 < amt <= 16 /\ amt <= n) by (unfold amt; destruct (Z.ltb_spec n 16); lia). clearbody amt.
  rewrite wp_bind. eapply wp_mono; [|apply uiomove_spec; [done|lia|intros a Ha; right; unfold in_region in *; lia]].
  cbv beta. intros [e u1] m1 [(He & Hc & Hm)|(He & Hseg & j & Hj & Hc)]; cbn [fst snd] in *; subst e; cbn [Z.eqb negb].
  2: { wp_simpl. right. split_and!; [done|done|]. exists j. split; [lia|done]. }
  assert (Hu1 := uio_ok_next _ _ _ Hu Hc). rewrite Hrw in Hm. set (l1 := take (Z.to_nat amt) (addrs (uio_iov u))) in *.
  assert (Hl1 : length l1 = Z.to_nat amt) by (apply first_length; [done|lia]).
  assert (Hfr1 : forall a, a ∉ l1 -> bytes m1 a = bytes m a) by apply Hm.
  assert (Hz1 : zeros_there m1).
  { intros a Ha. rewrite Hfr1; [by apply Hz|]. intros Hin. apply (first_apart _ _ _ Hu Hin). by right. }
  eapply wp_mono; [|apply (IH m1 (n - amt) u1); [done|by rewrite (co_rw _ _ _ Hc)|done|rewrite (co_resid _ _ _ Hc); lia|lia]].
  cbv beta. intros [e u2] m2 [(He & Hc2 & Hsl & Hfr)|(He & Hseg & j & Hj & Hc2)]; cbn [fst snd] in *; subst e.
  2: { right. rewrite <-(co_segflg _ _ _ Hc). split_and!; [done|done|]. exists (amt + j). split; [lia|by eapply consumed_trans]. }
  left. split; [done|]. split; [replace n with (amt + (n - amt)) by lia; by eapply consumed_trans|].
  replace (Z.to_nat n) with (Z.to_nat amt + Z.to_nat (n - amt))%nat by lia. rewrite take_add. fold l1.
  rewrite (co_addrs _ _ _ Hc) in Hsl, Hfr. set (l2 := take _ (drop _ _)) in *.
  assert (Hdis : forall a, a ∈ l1 -> a ∉ l2).
  { assert (Hnd : NoDup (l1 ++ l2)) by (unfold l1, l2; rewrite <-take_add; eapply sublist_NoDup; [apply (uk_nodup _ Hu)|apply sublist_take]).
    by apply NoDup_app in Hnd as (_ & ? & _). }
  split.
  - rewrite slice_app, Hsl, replicate_add. f_equal. rewrite (slice_ext m1) by (intros a Ha; by apply Hfr, Hdis). by apply (zeros_moved m m1 amt); [lia|..].
  - intros a [Ha1 Ha2]%not_elem_of_app. by rewrite Hfr, Hfr1.
Qed.
End transfer.

(** ** Progress of a transfer *)

Section theory.
Context {B H : Type} {FM : FreeMap B} {HW : DiskHardware H} {RW : ReliableWrites H} (lh_buf iobuf zeros_at : Z) (curas : option Z).
Context (buffers_apart : forall a, in_region iobuf 512 a -> ~ in_region lh_buf 512 a) (iobuf_range : 0 <= iobuf <= 2 ^ 32 - 512).
Context (zeros_apart : forall a, in_region zeros_at 16 a -> ~ buffer lh_buf iobuf a).
(** So that no offset on the disk overflows 32 bits; see [sfs_blockio]. *)
Context (small_disk : hw_nsect (H:=H) <= 2 ^ 23).
#[local] Instance the_disk : Disk (driver H) := driver_disk lh_buf iobuf curas buffers_apart iobuf_range.
Notation volume := (Sfs.sfs B (driver H)).
Implicit Types s : volume.
Notation ok := (uio_ok lh_buf iobuf zeros_at curas).
Notation reserved := (reserved lh_buf iobuf zeros_at).

Definition mem s : machine := memory_of s.
Definition at_zeros s : Prop := zeros_there zeros_at (mem s).
(** The first [k] addresses of the transfer, and the file after the first [k] bytes. *)
Definition first (k : Z) (u : uio) : list Z := take (Z.to_nat k) (addrs (uio_iov u)).
Definition after (k : Z) (u : uio) s : list Z :=
  match uio_rw u with
  | UIO_READ => file_bytes s
  | UIO_WRITE => Sfs.update (uio_offset u) (slice (mem s) (first k u)) (file_bytes s)
  end.
(** The volume is consistent, the file has these bytes, and nothing of others has changed. *)
Record kept (l : list Z) s s' : Prop := {
  kp_wf : wf s';
  kp_bytes : file_bytes s' = l;
  kp_size : Sfs.sfi_size (Sfs.sv_i s') = Sfs.sfi_size (Sfs.sv_i s);
  kp_kind : Sfs.sfi_type (Sfs.sv_i s') = Sfs.sfi_type (Sfs.sv_i s);
  kp_n : Sfs.sb_nblocks s' = Sfs.sb_nblocks s;
  kp_foreign : forall b, foreign s b -> foreign s' b /\ blk s' b = blk s b }.
(** [k] bytes were transferred. *)
Record progress (k : Z) (u u' : uio) s s' : Prop := {
  pg_consumed : consumed k u u';
  pg_kept : kept (after k u s) s s';
  pg_arrived : uio_rw u = UIO_READ -> slice (mem s') (first k u) = Sfs.region (uio_offset u) k (file_bytes s);
  pg_frame : forall a, ~ buffer lh_buf iobuf a -> (uio_rw u = UIO_READ -> a ∉ first k u) -> bytes (mem s') a = bytes (mem s) a;
  pg_range : k = 0 \/ uio_offset u + k <= max_size }.
(** A transfer of at most [n] bytes that failed: [k] bytes reached the file, but the [uio]
    is past [j] of them. *)
Definition stopped (n : Z) (u : uio) s (r : Z * uio) s' : Prop :=
  r.1 <> 0 /\ exists k j, 0 <= k <= j /\ j <= n /\ consumed j u r.2 /\ kept (after k u s) s s' /\ (j = 0 \/ uio_offset u + j <= max_size) /\
    (uio_rw u = UIO_READ -> r.1 <> EFAULT -> progress j u r.2 s s').
Definition transfer_post (n : Z) (u : uio) s (r : Z * uio) s' : Prop :=
  r.1 = 0 /\ progress n u r.2 s s' \/ stopped n u s r s'.

Lemma kept_then l l' s s1 s2 : kept l s s1 -> kept l' s1 s2 -> kept l' s s2.
Proof.
  intros [A1 A2 A3 A4 A5 A6] [B1 B2 B3 B4 B5 B6]. split; try congruence; try done.
  intros b Hb. destruct (A6 b Hb) as [Hb1 <-]. by apply B6.
Qed.
Lemma extends_kept s s' : extends s s' -> kept (file_bytes s) s s'.
Proof. intros [A1 A2 A3 A4 A5 A6 A7]. split; try done. unfold file_bytes. by rewrite A2. Qed.
Lemma extends_mem s s' a : extends s s' -> ~ buffer lh_buf iobuf a -> bytes (mem s') a = bytes (mem s) a.
Proof. intros Hx. apply (ex_step _ _ Hx). Qed.
Lemma put_memory_kept m s : wf s -> kept (file_bytes s) s (put_memory m s).
Proof.
  intros Hw. destruct (other_device s (set_memory m (Sfs.device s)) Hw) as (A1 & _ & A3 & A4);
    [apply (vo_ok _ (wf_volume _ Hw))|intros b; reflexivity|].
  split; [exact A1|unfold file_bytes, put_memory; by rewrite A3|reflexivity|reflexivity|reflexivity|exact A4].
Qed.
Lemma file_length s : wf s -> Z.of_nat (length (file_bytes s)) = max_size.
Proof.
  intros Hw. unfold file_bytes. rewrite (concat_length 512) by apply contents_uniform. unfold contents, max_size. rewrite length_fmap, refs_length by done. lia.
Qed.
Lemma first_zero u : first 0 u = [].
Proof. done. Qed.
Lemma after_zero u s : after 0 u s = file_bytes s.
Proof. unfold after. case_match; [done|]. apply update_none. Qed.
Lemma progress_none u s s' : ok u -> kept (file_bytes s) s s' -> (forall a, ~ buffer lh_buf iobuf a -> bytes (mem s') a = bytes (mem s) a) -> progress 0 u u s s'.
Proof.
  intros Hu Hk Hm. split; [by eapply consumed_zero|by rewrite after_zero|done|auto|by left].
Qed.
Lemma extends_progress u s s' : ok u -> extends s s' -> progress 0 u u s s'.
Proof. intros Hu Hx. apply progress_none; [done|by apply extends_kept|]. intros a. by apply extends_mem. Qed.
(** Nothing was transferred, for some error. *)
Lemma stopped_none n e u s s' : e <> 0 -> 0 <= n -> ok u -> extends s s' -> transfer_post n u s (e, u) s'.
Proof.
  intros He Hn Hu Hx. pose proof (extends_progress u s s' Hu Hx) as Hp. right. split; [done|]. exists 0, 0. cbn [fst snd].
  split_and!; [lia|lia|lia|apply Hp|apply Hp|by left|done].
Qed.
(** An address of the user could not be accessed, before anything was written to the file. *)
Lemma stopped_fault n j u u' s s' : 0 <= j <= n -> consumed j u u' -> kept (file_bytes s) s s' -> (j = 0 \/ uio_offset u + j <= max_size) -> transfer_post n u s (EFAULT, u') s'.
Proof.
  intros Hj Hc Hk Hr. right. split; [done|]. exists 0, j. cbn [fst snd]. split_and!; [lia|lia|lia|done|by rewrite after_zero|done|done].
Qed.
Lemma transfer_weaken n n' u s r s' : n <= n' -> stopped n u s r s' -> stopped n' u s r s'.
Proof. intros Hn (He & k & j & Hk & Hj & Hrest). split; [done|]. exists k, j. split; [done|]. split; [lia|done]. Qed.

Lemma first_add j k u u1 : 0 <= j -> 0 <= k -> consumed j u u1 -> first (j + k) u = first j u ++ first k u1.
Proof. intros Hj Hk Hc. unfold first. rewrite Z2Nat.inj_add by done. by rewrite take_add, (co_addrs _ _ _ Hc). Qed.
Lemma first_reserved k u a : ok u -> a ∈ first k u -> ~ reserved a.
Proof. intros Hu. by apply first_apart with (curas := curas). Qed.
Lemma first_disjoint j k u a : ok u -> 0 <= j -> 0 <= k -> a ∈ first j u -> a ∉ take (Z.to_nat k) (drop (Z.to_nat j) (addrs (uio_iov u))).
Proof.
  intros Hu Hj Hk. assert (Hnd : NoDup (first j u ++ take (Z.to_nat k) (drop (Z.to_nat j) (addrs (uio_iov u))))).
  { unfold first. rewrite <-take_add. eapply sublist_NoDup; [apply (uk_nodup _ _ _ _ _ Hu)|apply sublist_take]. }
  apply NoDup_app in Hnd as (_ & Hd & _). apply Hd.
Qed.
Lemma after_add j k u u1 s s1 : ok u -> wf s -> progress j u u1 s s1 -> 0 <= k -> k = 0 \/ uio_offset u1 + k <= max_size -> k <= uio_resid u1 ->
  after k u1 s1 = after (j + k) u s.
Proof.
  intros Hu Hw [Hc Hk _ Hfr Hr] Hk0 Hr1 Hres. pose proof (co_range _ _ _ Hc) as Hj. rewrite (co_offset _ _ _ Hc), (co_resid _ _ _ Hc) in *.
  unfold after. rewrite (co_rw _ _ _ Hc). assert (Hb := kp_bytes _ _ _ Hk). unfold after in Hb. destruct (uio_rw u) eqn:Hrw; [done|].
  rewrite Hb, (co_offset _ _ _ Hc), (first_add j k u u1) by done || lia. rewrite slice_app.
  assert (Hl1 : length (first j u) = Z.to_nat j) by (apply (first_length _ _ _ _ _ _ Hu); lia).
  assert (Hl2 : length (first k u1) = Z.to_nat k).
  { apply (first_length _ _ _ _ _ _ (uio_ok_next _ _ _ _ _ _ _ Hu Hc)). rewrite (co_resid _ _ _ Hc). lia. }
  assert (Hs : slice (mem s1) (first k u1) = slice (mem s) (first k u1)).
  { apply slice_ext. intros a Ha. apply Hfr; [|done]. intros Hb'. apply (first_reserved k u1 a); [by eapply uio_ok_next|done|by left]. }
  rewrite Hs. destruct (decide (k = 0)) as [->|Hk1]; [rewrite first_zero; cbn [slice fmap list_fmap]; by rewrite app_nil_r, update_none|].
  rewrite <-update_app; [|apply (uk_offset _ _ _ _ _ Hu)|].
  - rewrite slice_length, Hl1. by rewrite Z2Nat.id by lia.
  - rewrite !slice_length, Hl1, Hl2, file_length by done. lia.
Qed.
Lemma progress_trans j k u u1 u2 s s1 s2 : ok u -> wf s -> progress j u u1 s s1 -> progress k u1 u2 s1 s2 -> progress (j + k) u u2 s s2.
Proof.
  intros Hu Hw H1 H2. pose proof (pg_consumed _ _ _ _ _ H1) as C1. pose proof (pg_consumed _ _ _ _ _ H2) as C2.
  pose proof (co_range _ _ _ C1). pose proof (co_range _ _ _ C2). assert (Hadd := first_add j k u u1 ltac:(lia) ltac:(lia) C1).
  assert (Hr2 := pg_range _ _ _ _ _ H2). split.
  - by eapply consumed_trans.
  - rewrite <-(after_add j k u u1 s s1) by (done || lia). eapply kept_then; [apply H1|apply H2].
  - intros Hrw. assert (Hrw1 : uio_rw u1 = UIO_READ) by (by rewrite (co_rw _ _ _ C1)). rewrite Hadd, slice_app, region_add by (lia || apply (uk_offset _ _ _ _ _ Hu)).
    assert (Hb := kp_bytes _ _ _ (pg_kept _ _ _ _ _ H1)). unfold after in Hb. rewrite Hrw in Hb. f_equal.
    + rewrite <-(pg_arrived _ _ _ _ _ H1) by done. apply slice_ext. intros a Ha. apply (pg_frame _ _ _ _ _ H2).
      * intros Hbu. apply (first_reserved j u a Hu Ha). by left.
      * intros _. unfold first. rewrite (co_addrs _ _ _ C1). apply first_disjoint; (done || lia).
    + by rewrite (pg_arrived _ _ _ _ _ H2), Hb, (co_offset _ _ _ C1).
  - intros a Ha Hin. rewrite Hadd in Hin. rewrite (pg_frame _ _ _ _ _ H2), (pg_frame _ _ _ _ _ H1); [done|done| |done|].
    + intros Hrw Hx. apply (Hin Hrw), elem_of_app. by left.
    + intros Hrw Hx. rewrite (co_rw _ _ _ C1) in Hrw. apply (Hin Hrw), elem_of_app. by right.
  - rewrite (co_offset _ _ _ C1) in Hr2. destruct Hr2 as [->|]; [rewrite Z.add_0_r; apply H1|right; lia].
Qed.
Lemma transfer_then j n u u1 s s1 r s2 : ok u -> wf s -> progress j u u1 s s1 -> transfer_post n u1 s1 r s2 -> transfer_post (j + n) u s r s2.
Proof.
  intros Hu Hw H1 [[He H2]|(He & k & i & Hk & Hi & C2 & Hkept & Hr & Hread)]; [left; split; [done|by eapply progress_trans]|].
  right. split; [done|]. pose proof (pg_consumed _ _ _ _ _ H1) as C1. pose proof (co_range _ _ _ C1). pose proof (co_range _ _ _ C2).
  exists (j + k), (j + i). split; [lia|]. split; [lia|]. split; [by eapply consumed_trans|]. split; [|split].
  - rewrite <-(after_add j k u u1 s s1) by (done || lia). eapply kept_then; [apply H1|done].
  - rewrite (co_offset _ _ _ C1) in Hr. destruct Hr as [->|]; [rewrite Z.add_0_r; apply H1|right; lia].
  - intros Hrw Hne. eapply progress_trans; [done|done|done|]. apply Hread; [by rewrite (co_rw _ _ _ C1)|done].
Qed.
Lemma transfer_later n u s s1 r s2 : ok u -> wf s -> progress 0 u u s s1 -> transfer_post n u s1 r s2 -> transfer_post n u s r s2.
Proof. intros Hu Hw Hp Ht. by apply (transfer_then 0 n u u s s1 r s2). Qed.
Lemma progress_ok k u u' s s' : ok u -> at_zeros s -> progress k u u' s s' -> ok u' /\ wf s' /\ at_zeros s'.
Proof.
  intros Hu Hz Hp. split; [by eapply uio_ok_next; [|apply Hp]|]. split; [apply Hp|].
  intros a Ha. rewrite (pg_frame _ _ _ _ _ Hp); [by apply Hz|by apply zeros_apart|]. intros _ Hin. apply (first_reserved k u a Hu Hin). by right.
Qed.

(** ** [sfs_partialio] *)

Lemma bmap_base s fb doalloc : wf s -> 0 <= fb ->
  wp (Sfs.sfs_bmap fb doalloc) (fun r s' => extends s s' /\
    (r.1 = 0 -> refs s' !! Z.to_nat fb = Some r.2 /\ fb < 143 /\ (doalloc = true -> r.2 <> 0))) s.
Proof.
  intros Hw Hfb. eapply wp_mono; [|by apply bmap_spec]. cbv beta. intros r s' [(Hx & Hok & _) Hbig].
  assert (Hx' : extends s s') by (destruct doalloc; [done|by apply same_extends]). split; [done|].
  intros Hr. destruct (Hok Hr) as [Hb Hne]. split_and!; [done| |done].
  apply lookup_lt_Some in Hb. rewrite (refs_length s') in Hb by apply Hx'. lia.
Qed.
Lemma load_spec s b (rd : bool) why : wf s -> (b <> 0 -> 0 <= b < hw_nsect (H:=H)) -> (b = 0 -> rd = true) ->
  wp (if b =? 0 then KASSERT rd why;; mret (0, Sfs.zeros) else Sfs.sfs_readblock b : K volume (Z * list Z))
    (fun r s' => same_disk s s' /\ (r.1 = 0 -> r.2 = block_data s b)) s.
Proof.
  intros Hw Hb Hrd. unfold block_data. destruct (Z.eqb_spec b 0) as [->|Hne].
  - rewrite Hrd by done. wp_simpl. split; [apply same_refl|done].
  - eapply wp_mono; [|apply (readblock_spec s b); [apply (vo_ok _ (wf_volume _ Hw))|by apply Hb]]. cbv beta. tauto.
Qed.
Lemma write_kept s b k o data d : wf s -> refs s !! k = Some b -> b <> 0 -> 0 <= o -> o + Z.of_nat (length data) <= 512 ->
  idle d -> (forall b', b' <> b -> hw_sector (platter d) b' = blk s b') -> hw_sector (platter d) b = Sfs.update o data (blk s b) ->
  kept (Sfs.update (512 * Z.of_nat k + o) data (file_bytes s)) s (Sfs.set_device d s).
Proof.
  intros Hw Hk Hb Ho Hl Hid Hd Hdb. destruct (write_file_block s d k b Hw Hk Hb Hid Hd) as (Hw' & Hc' & Hf').
  assert (Hc := contents_lookup s _ _ Hk). unfold block_data in Hc. destruct (Z.eqb_spec b 0); [done|].
  split; [done| |done|done|done|done]. unfold file_bytes. rewrite Hc'. change (dev_block d b) with (hw_sector (platter d) b). rewrite Hdb.
  symmetry. apply (update_concat 512 _ (contents_uniform s) k (blk s b) o data); [done|lia|lia].
Qed.
Lemma sector_kept s d : wf s -> idle d -> (forall b, hw_sector (platter d) b = blk s b) -> kept (file_bytes s) s (Sfs.set_device d s).
Proof.
  intros Hw Hid Hd. destruct (other_device s d Hw Hid Hd) as (A1 & _ & A3 & A4). split; try done. unfold file_bytes. by rewrite A3.
Qed.
(** Positions: the file block, and the part of it. *)
Lemma block_position s pos k b len : wf s -> 0 <= pos -> k = Z.to_nat (pos / 512) -> refs s !! k = Some b -> 0 <= len -> pos mod 512 + len <= 512 ->
  pos = 512 * Z.of_nat k + pos mod 512 /\ Sfs.region pos len (file_bytes s) = Sfs.region (pos mod 512) len (block_data s b).
Proof.
  intros Hw Hpos -> Hb Hl Hfit. pose proof (Z.div_mod pos 512). pose proof (Z.div_pos pos 512). pose proof (Z.mod_pos_bound pos 512).
  split; [lia|]. replace pos with (Z.of_nat 512 * Z.of_nat (Z.to_nat (pos / 512)) + pos mod 512) at 1 by lia.
  apply region_concat; [apply contents_uniform|by apply contents_lookup|lia|done|lia].
Qed.

(** The write-back at the end. *)
Lemma write_back s b k skip len u u' m0 s3 : wf s -> ok u -> uio_rw u = UIO_WRITE -> 0 <= len <= uio_resid u -> 0 <= skip -> skip + len <= 512 ->
  uio_offset u = 512 * Z.of_nat k + skip -> (k < 143)%nat -> kept (file_bytes s) s s3 -> refs s3 !! k = Some b -> b <> 0 ->
  (forall a, ~ buffer lh_buf iobuf a -> bytes m0 a = bytes (mem s) a) -> consumed len u u' ->
  moved UIO_WRITE (put_bytes iobuf (blk s3 b) m0) (mem s3) (iobuf + skip) (first len u) ->
  wp (result ← Sfs.sfs_writeblock b (get_bytes iobuf 512 (mem s3)); if negb (result =? 0) then mret (result, u') else mret (0, u')) (transfer_post len u s) s3.
Proof.
  intros Hw Hu Hrw Hlen Hs0 Hfit Hoff Hk Hkept Hb Hb0 Hm0 Hc Hmv. assert (Hw3 := kp_wf _ _ _ Hkept).
  destruct (refs_used s3 _ b Hw3 Hb Hb0) as [Hbr _]. pose proof (vo_dev s3 (wf_volume s3 Hw3)) as Hdev. cbn [dev_blocks the_disk driver_disk] in Hdev.
  assert (Hl1 : length (first len u) = Z.to_nat len) by (by apply (first_length _ _ _ _ _ _ Hu)).
  assert (Hfa : forall a, a ∈ first len u -> ~ buffer lh_buf iobuf a) by (intros a Ha Hbu; apply (first_reserved len u a Hu Ha); by left).
  assert (Hblk : length (blk s3 b) = 512%nat) by apply blk_length.
  set (data := slice (mem s) (first len u)). assert (Hdl : Z.of_nat (length data) = len) by (unfold data; rewrite slice_length, Hl1; lia).
  assert (Hgb : get_bytes iobuf 512 (mem s3) = Sfs.update skip data (blk s3 b)).
  { rewrite get_bytes_slice. replace 512 with (Z.of_nat (length (blk s3 b))) by lia. apply (put_bytes_update iobuf (blk s3 b) m0); [apply blk_bytes|lia|lia| |].
    - rewrite Hdl. pose proof (moved_write _ _ _ _ Hmv) as Hmw. rewrite Hl1, Z2Nat.id in Hmw by lia. rewrite Hmw. apply slice_ext.
      intros a Ha. rewrite put_bytes_other, Hm0; [done|by apply Hfa|]. rewrite Hblk. intros Hr. apply (Hfa a Ha). by right.
    - intros x Hx. apply Hmv. rewrite Hl1, Z2Nat.id by lia. unfold in_region in Hx. by rewrite Hdl in Hx. }
  assert (Hmem : forall a, ~ buffer lh_buf iobuf a -> bytes (mem s3) a = bytes (mem s) a).
  { intros a Ha. rewrite (proj2 Hmv), put_bytes_other, Hm0; [done|done| |].
    - rewrite Hblk. intros ?. apply Ha. by right.
    - rewrite Hl1, Z2Nat.id by lia. intros ?. apply Ha. right. unfold in_region. lia. }
  rewrite wp_bind, Hgb. eapply wp_mono; [|apply (writeblock_spec s3); [apply (vo_ok _ (wf_volume _ Hw3))|cbn [dev_blocks the_disk driver_disk]; lia|rewrite update_length; lia|apply update_bytes; [apply slice_bytes|apply blk_bytes]]].
  cbv beta. intros e s4 (d & -> & Hstep & Hdo & Hdi).
  assert (Hid : idle d) by (apply (proj1 Hstep), (vo_ok _ (wf_volume _ Hw3))).
  assert (Hrange : uio_offset u + len <= max_size) by (unfold max_size; lia).
  assert (Hdone : dev_block d b = Sfs.update skip data (blk s3 b) -> progress len u u' s (Sfs.set_device d s3)).
  { intros Hdb. split; [done| |by rewrite Hrw| |by right].
    - eapply kept_then; [exact Hkept|]. unfold after. rewrite Hrw, Hoff, <-(kp_bytes _ _ _ Hkept). fold data. apply write_kept with (b := b); try done. lia.
    - intros a Ha _. rewrite <-Hmem by done. by apply (proj2 Hstep). }
  destruct Hdi as [Hdb|[He Hdb]].
  - specialize (Hdone Hdb). destruct (Z.eqb_spec e 0) as [->|He]; wp_simpl; [by left|]. right. split; [done|]. exists len, len. cbn [fst snd].
    split_and!; [lia|lia|lia|done|apply Hdone|by right|by rewrite Hrw].
  - destruct (Z.eqb_spec e 0) as [|_]; [done|]. wp_simpl. right. split; [done|]. exists 0, len. cbn [fst snd].
    split_and!; [lia|lia|lia|done| |by right|by rewrite Hrw]. rewrite after_zero. eapply kept_then; [exact Hkept|]. rewrite <-(kp_bytes _ _ _ Hkept). apply sector_kept; [done|done|].
    intros b'. destruct (Z.eq_dec b' b) as [->|Hne]; [exact Hdb|by apply Hdo].
Qed.

Lemma partialio_spec s u skip len : wf s -> ok u -> skip = uio_offset u mod 512 -> 0 <= len <= uio_resid u -> skip + len <= 512 -> uio_offset u < 2 ^ 41 ->
  wp (sfs_partialio iobuf curas u skip len) (transfer_post len u s) s.
Proof.
  intros Hw Hu Hskip Hlen Hfit Hsmall. pose proof (uk_offset _ _ _ _ _ Hu) as Hoff. pose proof (Z.mod_pos_bound (uio_offset u) 512 ltac:(lia)).
  destruct (position_block (uio_offset u)) as (Eq & _ & _); [lia|]. unfold sfs_partialio. rewrite Eq. clear Eq. change SFS_BLOCKSIZE with 512.
  wp_simpl. rewrite wp_KASSERT. split; [by apply Z.leb_le|]. wp_simpl.
  pose proof (Z.div_pos (uio_offset u) 512 Hoff ltac:(lia)) as Hdiv.
  eapply wp_mono; [|by apply bmap_base]. cbv beta. intros [e b] s1 [Hx1 Hok]; cbn [fst snd] in Hok.
  destruct (Z.eqb_spec e 0) as [->|He]; wp_simpl; [|by apply stopped_none; [|lia|..]].
  destruct (Hok eq_refl) as (Hb & Hk & Hb0). assert (Hw1 := ex_wf _ _ Hx1). set (k := Z.to_nat (uio_offset u / 512)) in *.
  assert (Hbr : b <> 0 -> 0 <= b < hw_nsect (H:=H)).
  { intros Hne. destruct (refs_used s1 _ b Hw1 Hb Hne). pose proof (vo_dev s1 (wf_volume s1 Hw1)) as Hdev. cbn [dev_blocks the_disk driver_disk] in Hdev. lia. }
  eapply wp_mono; [|apply (load_spec s1 b (negb (is_write u))); [done|done|]].
  2: { intros ->. destruct (is_write u); [by destruct Hb0|done]. }
  cbv beta. intros [e data] s2 [Hs2 Hdata]; cbn [fst snd] in Hdata. assert (Hx2 : extends s s2) by (eapply extends_trans; [done|by apply same_extends]).
  destruct (Z.eqb_spec e 0) as [->|He]; wp_simpl; [|by apply stopped_none; [|lia|..]]. specialize (Hdata eq_refl).
  destruct (same_refs s1 s2 Hw1 Hs2) as [Hr2 Hc2]. rewrite <-Hr2 in Hb. assert (Hw2 := ex_wf _ _ Hx2).
  assert (Hd2 : data = block_data s2 b) by (destruct Hs2 as (d & -> & _ & Hd); rewrite Hdata; unfold block_data; case_match; [done|symmetry; apply Hd]).
  set (m2 := put_bytes iobuf data (memory_of s2)). assert (Hk2 := extends_kept _ _ Hx2).
  assert (Hdl : length data = 512%nat) by (rewrite Hd2; apply block_data_length).
  destruct (block_position s2 (uio_offset u) k b len Hw2 Hoff eq_refl Hb ltac:(lia) ltac:(lia)) as [Hpos Hreg].
  rewrite wp_zoom. change (lget memory_lens (put_memory m2 s2)) with m2.
  eapply wp_mono; [|apply (uiomove_spec lh_buf iobuf zeros_at curas m2 (iobuf + skip) len u Hu Hlen); intros a Ha; left; right; unfold in_region in *; lia].
  cbv beta. intros [e u'] m3 Hcase. cbn [fst snd] in Hcase. change (lset memory_lens m3 (put_memory m2 s2)) with (put_memory m3 s2).
  assert (Hk3 : kept (file_bytes s) s (put_memory m3 s2)).
  { eapply kept_then; [exact Hk2|]. rewrite <-(kp_bytes _ _ _ Hk2). by apply put_memory_kept. }
  assert (Hrange : forall j, 0 <= j <= len -> uio_offset u + j <= max_size) by (unfold max_size; lia).
  destruct Hcase as [(He & Hc & Hm)|(He & Hseg & j & Hj & Hc)]; subst e; cbn [Z.eqb negb]; wp_simpl.
  2: { apply stopped_fault with (j := j); [done|done|exact Hk3|right; auto]. }
  fold (first len u) in Hm. unfold is_write at 1. rewrite (co_rw _ _ _ Hc). destruct (uio_rw u) eqn:Hrw; wp_simpl.
  - left. split; [done|]. cbn [snd]. assert (Hmem : mem (put_memory m3 s2) = m3) by done. split; [done|unfold after; rewrite Hrw; exact Hk3| | |right; apply Hrange; lia].
    + intros _. rewrite Hmem, (moved_read _ _ _ _ Hm). unfold first. rewrite (first_length _ _ _ _ _ _ Hu) by done. rewrite Z2Nat.id by lia.
      unfold m2. rewrite put_bytes_region; [|rewrite Hd2; apply block_data_bytes|lia..]. by rewrite <-(kp_bytes _ _ _ Hk2), Hreg, Hd2, Hskip.
    + intros a Ha Hin. rewrite Hmem, (proj2 Hm) by auto. unfold m2. rewrite put_bytes_other; [by apply extends_mem|]. rewrite Hdl. intros ?. apply Ha. by right.
  - assert (Hbne : b <> 0) by (apply Hb0; unfold is_write; by rewrite Hrw).
    unfold block_data in Hd2. destruct (Z.eqb_spec b 0) as [|_]; [done|].
    apply (proj1 (wp_bind _ _ _ _)). apply (write_back s b k skip len u u' (memory_of s2)); try done; try lia.
    + intros a Ha. by apply extends_mem.
    + change (blk (put_memory m3 s2) b) with (blk s2 b). rewrite <-Hd2. exact Hm.
Qed.

(** ** [sfs_blockio] *)

(** The descriptor for the device, and what its transfer means for the caller's. *)
Lemma direct_ready b u : ok u -> 512 <= uio_resid u -> 0 <= b < hw_nsect (H:=H) -> io_ready lh_buf curas 1 (set_offset_resid (512 * b) 512 u).
Proof.
  intros [A1 A2 A3 A4 A5 A6 A7 A8] Hres Hb. split; cbn [set_offset_resid uio_iov uio_offset uio_resid uio_segflg uio_rw uio_space]; try done; try lia.
  intros a Ha Hr. apply (A7 a Ha). by left; left.
Qed.
Lemma restore_consumed j b u u2 : ok u -> 512 <= uio_resid u -> consumed j (set_offset_resid (512 * b) 512 u) u2 ->
  0 <= j <= 512 /\ consumed j u (set_offset_resid (uio_offset u2 - 512 * b + uio_offset u) (u32 (uio_resid u2 - 512 + uio_resid u)) u2).
Proof.
  intros [A1 A2 A3 A4 A5 A6 A7 A8] Hres [B1 B2 B3 B4 B5 B6 B7 B8]. cbn [set_offset_resid uio_iov uio_offset uio_resid uio_segflg uio_rw uio_space] in *.
  split; [done|]. split; cbn [set_offset_resid uio_iov uio_offset uio_resid uio_segflg uio_rw uio_space]; try done; try lia. rewrite u32_small; lia.
Qed.
Lemma rwblock_write_spec b u (d : driver H) n : io_ready lh_buf curas 1 u -> uio_rw u = UIO_WRITE -> idle d -> 0 <= b < hw_nsect (H:=H) -> uio_offset u = 512 * b ->
  wp (Sfs.sfs_rwblock n (lhd_io lh_buf curas) u) (fun r d' => r.1 <> EIO /\ write_post lh_buf 1 b u d r d') d.
Proof.
  intros Hu Hrw Hd Hb Ho. destruct n; cbn [Sfs.sfs_rwblock]; rewrite wp_bind;
    (eapply wp_mono; [|apply wp_and; [apply (lhd_io_spec lh_buf curas 1 b u d); done || lia|by apply (lhd_write_reliable lh_buf curas b)]]);
    unfold io_post; rewrite Hrw; cbv beta iota; intros [e u1] d1 [Hp Hne]; cbn [fst] in Hne;
    (assert (He : e <> EINVAL) by (destruct Hp as (_ & k & _ & _ & _ & _ & [(He & _)|[(He & _)|(He & _)]]); cbn [fst] in He; by rewrite He));
    (destruct (Z.eqb_spec e EINVAL); [done|]); (destruct (Z.eqb_spec e EIO); [done|]); by rewrite wp_ret.
Qed.
(** The two directions, on the volume. *)
Lemma direct_read s b k u : wf s -> ok u -> uio_rw u = UIO_READ -> 512 <= uio_resid u -> uio_offset u = 512 * Z.of_nat k -> (k < 143)%nat ->
  refs s !! k = Some b -> b <> 0 -> 0 <= b < hw_nsect (H:=H) ->
  wp (zoom Sfs.dev_lens (Sfs.sfs_rwblock Sfs.MAX_TRIES (lhd_io lh_buf curas) (set_offset_resid (512 * b) 512 u)))
    (fun r s' => transfer_post 512 u s (r.1, set_offset_resid (uio_offset r.2 - 512 * b + uio_offset u) (u32 (uio_resid r.2 - 512 + uio_resid u)) r.2) s') s.
Proof.
  intros Hw Hu Hrw Hres Hoff Hk Hb Hb0 Hbr. rewrite wp_zoom. assert (Hid := vo_ok _ (wf_volume _ Hw)).
  eapply wp_mono; [|apply (rwblock_read_spec lh_buf curas b _ (set_offset_resid (512 * b) 512 u)); [by apply direct_ready|done|exact Hid|done|done]].
  cbv beta. intros [e u2] d (Hid' & Hsec & Hcase). cbn [fst snd] in *.
  assert (Hkept : kept (file_bytes s) s (Sfs.set_device d s)) by by apply sector_kept.
  destruct Hcase as [(j & Hj & He & Hc & Hsl & Hfr)|(-> & _ & j & Hc)].
  2: { destruct (restore_consumed j b u u2 Hu Hres Hc) as [Hj Hc']. apply stopped_fault with (j := j); [done|done|exact Hkept|unfold max_size; lia]. }
  destruct (restore_consumed _ b u u2 Hu Hres Hc) as [Hj' Hc']. change (addrs (uio_iov (set_offset_resid (512 * b) 512 u))) with (addrs (uio_iov u)) in Hsl, Hfr.
  assert (Hp : progress (512 * j) u (set_offset_resid (uio_offset u2 - 512 * b + uio_offset u) (u32 (uio_resid u2 - 512 + uio_resid u)) u2) s (Sfs.set_device d s)).
  { split; [done|unfold after; by rewrite Hrw| | |unfold max_size; lia].
    - intros _. change (mem (Sfs.set_device d s)) with (memory d). unfold first. rewrite Hsl. assert (j = 0 \/ j = 1) as [-> | ->] by lia; [done|].
      change (lget Sfs.dev_lens s) with (Sfs.device s). rewrite sectors_one. change (512 * 1) with 512.
      destruct (block_position s (uio_offset u) k b 512 Hw (uk_offset _ _ _ _ _ Hu)) as [_ ->]; [|done|lia| |].
      + rewrite Hoff, (Z.mul_comm 512), Z.div_mul by lia. lia.
      + rewrite Hoff, (Z.mul_comm 512), Z.mod_mul by lia. lia.
      + rewrite Hoff, (Z.mul_comm 512), Z.mod_mul by lia. unfold block_data. destruct (Z.eqb_spec b 0); [done|]. unfold Sfs.region. change (Z.to_nat 0) with O. rewrite drop_0, take_ge; [done|]. rewrite blk_length. lia.
    - intros a Ha Hin. apply Hfr; [by apply Hin|]. intros ?. apply Ha. by left. }
  destruct He as [[-> ->]|[-> Hlt]]; [left; split; [done|exact Hp]|]. assert (j = 0) as -> by lia. right. split; [done|]. exists 0, 0. cbn [fst snd].
  split_and!; [lia|lia|lia|exact Hc'|apply Hp|by left|by intros]. 
Qed.
Lemma direct_write s b k u : wf s -> ok u -> uio_rw u = UIO_WRITE -> 512 <= uio_resid u -> uio_offset u = 512 * Z.of_nat k -> (k < 143)%nat ->
  refs s !! k = Some b -> b <> 0 -> 0 <= b < hw_nsect (H:=H) ->
  wp (zoom Sfs.dev_lens (Sfs.sfs_rwblock Sfs.MAX_TRIES (lhd_io lh_buf curas) (set_offset_resid (512 * b) 512 u)))
    (fun r s' => transfer_post 512 u s (r.1, set_offset_resid (uio_offset r.2 - 512 * b + uio_offset u) (u32 (uio_resid r.2 - 512 + uio_resid u)) r.2) s') s.
Proof.
  intros Hw Hu Hrw Hres Hoff Hk Hb Hb0 Hbr. rewrite wp_zoom. assert (Hid := vo_ok _ (wf_volume _ Hw)).
  eapply wp_mono; [|apply (rwblock_write_spec b (set_offset_resid (512 * b) 512 u)); [by apply direct_ready|done|exact Hid|done|done]].
  cbv beta. intros [e u2] d [Hne (Hid' & j & Hj & Hsec & Hdata & Hfr & Hcase)]. cbn [fst snd] in *.
  destruct Hcase as [(-> & -> & Hc)|[(-> & _)|(-> & Hj1 & Hseg & i & Hc)]]; [|done|].
  2: { assert (j = 0) as -> by lia. destruct (restore_consumed i b u u2 Hu Hres Hc) as [Hi Hc']. apply stopped_fault with (j := i); [done|done| |unfold max_size; lia].
    apply sector_kept; [done|done|]. intros b'. apply Hsec. lia. }
  destruct (restore_consumed _ b u u2 Hu Hres Hc) as [Hj' Hc']. left. split; [done|]. change (512 * Z.of_nat 1) with 512 in *. change (Z.of_nat 1) with 1 in *. cbn [snd].
  rewrite sectors_one in Hdata. change (addrs (uio_iov (set_offset_resid (512 * b) 512 u))) with (addrs (uio_iov u)) in Hdata. fold (first 512 u) in Hdata.
  change (memory (lget Sfs.dev_lens s)) with (mem s) in *.
  split; [done| |by rewrite Hrw| |unfold max_size; lia].
  - unfold after. rewrite Hrw, Hoff, <-(Z.add_0_r (512 * Z.of_nat k)).
    assert (Hl : length (slice (mem s) (first 512 u)) = 512%nat) by (rewrite slice_length; unfold first; rewrite (first_length _ _ _ _ _ _ Hu) by lia; done).
    apply write_kept with (b := b); try done; [lia|intros b' Hb'; apply Hsec; lia|]. rewrite Hdata. unfold Sfs.update. cbn [Z.to_nat take].
    rewrite drop_ge by (rewrite blk_length; lia). by rewrite app_nil_r.
  - intros a Ha _. apply Hfr; [done|]. intros ?. apply Ha. by left.
Qed.

Lemma blockio_spec s u : wf s -> ok u -> at_zeros s -> uio_offset u mod 512 = 0 -> 512 <= uio_resid u -> uio_offset u < 2 ^ 41 ->
  wp (sfs_blockio lh_buf zeros_at curas u) (transfer_post 512 u s) s.
Proof.
  intros Hw Hu Hz Hal Hres Hsmall. pose proof (uk_offset _ _ _ _ _ Hu) as Hoff. pose proof (Z.div_mod (uio_offset u) 512 ltac:(lia)) as Hdm.
  destruct (position_block (uio_offset u)) as (Eq & _ & _); [lia|]. unfold sfs_blockio. rewrite Eq. clear Eq. change SFS_BLOCKSIZE with 512.
  pose proof (Z.div_pos (uio_offset u) 512 Hoff ltac:(lia)) as Hdiv. wp_simpl.
  eapply wp_mono; [|by apply bmap_base]. cbv beta. intros [e b] s1 [Hx1 Hok]; cbn [fst snd] in Hok.
  destruct (Z.eqb_spec e 0) as [->|He]; wp_simpl; [|by apply stopped_none; [|lia|..]].
  destruct (Hok eq_refl) as (Hb & Hk & Hb0). assert (Hw1 := ex_wf _ _ Hx1). set (k := Z.to_nat (uio_offset u / 512)) in *.
  assert (Hoffk : uio_offset u = 512 * Z.of_nat k) by lia. assert (H1 := extends_progress u s s1 Hu Hx1).
  destruct (progress_ok 0 u u s s1 Hu Hz H1) as (_ & _ & Hz1).
  destruct (Z.eqb_spec b 0) as [->|Hbne]; wp_simpl.
  - assert (Hrw : uio_rw u = UIO_READ) by (unfold is_write in Hb0; destruct (uio_rw u); [done|by destruct Hb0]).
    rewrite wp_KASSERT. unfold is_write at 1. rewrite Hrw. split; [done|]. unfold uiomovezeros. rewrite wp_zoom, Hrw, wp_bind, wp_KASSERT. split; [done|].
    eapply wp_mono; [|apply (uiomovezeros_spec lh_buf iobuf zeros_at curas); [exact Hu|done|exact Hz1|lia|lia]].
    cbv beta. intros [e u'] m Hcase. cbn [fst snd] in Hcase. change (lset memory_lens m s1) with (put_memory m s1). apply transfer_later with (s1 := s1); [done|done|done|].
    assert (Hkm := put_memory_kept m s1 Hw1).
    destruct Hcase as [(-> & Hc & Hsl & Hfr)|(-> & _ & j & Hj & Hc)].
    2: { apply stopped_fault with (j := j); [done|done|done|unfold max_size; lia]. }
    left. split; [done|]. cbn [snd]. split; [done|unfold after; rewrite Hrw; exact Hkm| | |unfold max_size; lia].
    + intros _. change (mem (put_memory m s1)) with m. unfold first. rewrite Hsl.
      destruct (block_position s1 (uio_offset u) k 0 512 Hw1 Hoff eq_refl Hb ltac:(lia) ltac:(lia)) as [_ ->]. rewrite Hal. done.
    + intros a _ Hin. apply Hfr. by apply Hin.
  - destruct (refs_used s1 _ b Hw1 Hb Hbne) as [Hbr _]. pose proof (vo_dev s1 (wf_volume s1 Hw1)) as Hdev. cbn [dev_blocks the_disk driver_disk] in Hdev.
    rewrite (u32_small (b * 512)), (Z.mul_comm b) by lia. rewrite wp_KASSERT. split; [by apply Z.leb_le|]. wp_simpl.
    destruct (uio_rw u) eqn:Hrw; [eapply wp_mono; [|apply (direct_read s1 b k u); done || lia]|eapply wp_mono; [|apply (direct_write s1 b k u); done || lia]]; cbv beta;
      intros [e u2] s2 Hp; wp_simpl; by apply transfer_later with (s1 := s1).
Qed.

(** ** [sfs_io] *)

(** One part of the transfer and then the rest, as the code does it. *)
Lemma then_spec n m u s (M1 : K volume (Z * uio)) (M2 : uio -> K volume (Z * uio)) : wf s -> ok u -> at_zeros s -> 0 <= m ->
  wp M1 (transfer_post n u s) s ->
  (forall u1 s1, progress n u u1 s s1 -> wf s1 -> ok u1 -> at_zeros s1 -> wp (M2 u1) (transfer_post m u1 s1) s1) ->
  wp ('(result, u1) ← M1; if negb (result =? 0) then mret (result, u1) else M2 u1) (transfer_post (n + m) u s) s.
Proof.
  intros Hw Hu Hz Hm H1 H2. rewrite wp_bind. eapply wp_mono; [|exact H1]. cbv beta. intros [e u1] s1 [[He Hp]|Hs].
  - cbn [fst snd] in *. subst e. cbn [Z.eqb negb]. destruct (progress_ok n u u1 s s1 Hu Hz Hp) as (Hu1 & Hw1 & Hz1).
    eapply wp_mono; [|by apply H2]. cbv beta. intros r s2. by apply transfer_then.
  - assert (He := proj1 Hs). cbn [fst] in He. destruct (Z.eqb_spec e 0); [done|]. cbn [negb]. rewrite wp_ret. right. eapply transfer_weaken; [|exact Hs]. lia.
Qed.
Lemma block_loop_spec n : forall s u, wf s -> ok u -> at_zeros s -> uio_offset u mod 512 = 0 -> 512 * Z.of_nat n <= uio_resid u -> uio_offset u + uio_resid u < 2 ^ 41 ->
  wp (block_loop lh_buf zeros_at curas n u) (transfer_post (512 * Z.of_nat n) u s) s.
Proof.
  induction n as [|n IH]; intros s u Hw Hu Hz Hal Hres Hsmall; cbn [block_loop].
  - rewrite wp_ret. left. split; [done|]. by apply extends_progress, same_extends, same_refl.
  - replace (512 * Z.of_nat (S n)) with (512 + 512 * Z.of_nat n) by lia. apply then_spec; try done; [lia|apply blockio_spec; (done || lia)|].
    intros u1 s1 Hp Hw1 Hu1 Hz1. pose proof (pg_consumed _ _ _ _ _ Hp) as Hc. apply IH; try done; rewrite ?(co_offset _ _ _ Hc), ?(co_resid _ _ _ Hc); [|lia|lia].
    rewrite <-Z.add_mod_idemp_l, Hal by lia. done.
Qed.
(** The part after the leading partial block. *)
Lemma aligned_spec s u : wf s -> ok u -> at_zeros s -> uio_offset u mod 512 = 0 -> uio_offset u + uio_resid u < 2 ^ 41 ->
  wp (KASSERT (Z.rem (uio_offset u) SFS_BLOCKSIZE =? 0) "uio->uio_offset % SFS_BLOCKSIZE == 0";;
      '(result, u1) ← block_loop lh_buf zeros_at curas (Z.to_nat (u32 (uio_resid u / SFS_BLOCKSIZE))) u;
      if negb (result =? 0) then mret (result, u1) else
      KASSERT (uio_resid u1 <? SFS_BLOCKSIZE) "uio->uio_resid < SFS_BLOCKSIZE";;
      if 0 <? uio_resid u1 then sfs_partialio iobuf curas u1 0 (uio_resid u1) else mret (0, u1)) (transfer_post (uio_resid u) u s) s.
Proof.
  intros Hw Hu Hz Hal Hsmall. pose proof (uk_offset _ _ _ _ _ Hu). pose proof (uk_resid _ _ _ _ _ Hu). change SFS_BLOCKSIZE with 512.
  pose proof (Z.div_mod (uio_resid u) 512 ltac:(lia)) as Hdm. pose proof (Z.mod_pos_bound (uio_resid u) 512 ltac:(lia)). pose proof (Z.div_pos (uio_resid u) 512 ltac:(lia) ltac:(lia)).
  rewrite wp_bind, wp_KASSERT. split; [rewrite Z.rem_mod_nonneg, Hal by lia; done|]. rewrite u32_small by lia.
  apply wp_mono with (P := transfer_post (512 * Z.of_nat (Z.to_nat (uio_resid u / 512)) + uio_resid u mod 512) u s).
  { intros r s' Ht. replace (uio_resid u) with (512 * Z.of_nat (Z.to_nat (uio_resid u / 512)) + uio_resid u mod 512) by lia. exact Ht. }
  apply then_spec; try done; [lia|apply block_loop_spec; (done || lia)|]. intros u1 s1 Hp Hw1 Hu1 Hz1.
  pose proof (pg_consumed _ _ _ _ _ Hp) as Hc. assert (Hr1 : uio_resid u1 = uio_resid u mod 512) by (rewrite (co_resid _ _ _ Hc); lia).
  rewrite wp_bind, wp_KASSERT. split; [apply Z.ltb_lt; lia|]. rewrite Hr1. destruct (Z.ltb_spec 0 (uio_resid u mod 512)).
  - apply partialio_spec; try done; rewrite ?(co_offset _ _ _ Hc); try lia. rewrite <-Z.add_mod_idemp_l, Hal, (Z.mul_comm 512), Z.add_0_l, Z.mod_mul by lia. done.
  - assert (uio_resid u mod 512 = 0) as -> by lia. rewrite wp_ret. left. split; [done|]. by apply extends_progress, same_extends, same_refl.
Qed.
Lemma io_body_spec s u : wf s -> ok u -> at_zeros s -> uio_offset u + uio_resid u < 2 ^ 41 ->
  wp (io_body lh_buf iobuf zeros_at curas u) (transfer_post (uio_resid u) u s) s.
Proof.
  intros Hw Hu Hz Hsmall. pose proof (uk_offset _ _ _ _ _ Hu). pose proof (uk_resid _ _ _ _ _ Hu). pose proof (Z.mod_pos_bound (uio_offset u) 512 ltac:(lia)) as Hmod.
  destruct (position_block (uio_offset u)) as (_ & Er & _); [lia|]. unfold io_body. rewrite Er.
  set (len := if uio_resid u <? SFS_BLOCKSIZE - uio_offset u mod 512 then uio_resid u else SFS_BLOCKSIZE - uio_offset u mod 512).
  set (lead := if negb (uio_offset u mod 512 =? 0) then len else 0).
  assert (Hlen : len = Z.min (uio_resid u) (512 - uio_offset u mod 512)) by (unfold len; change SFS_BLOCKSIZE with 512; destruct (Z.ltb_spec (uio_resid u) (512 - uio_offset u mod 512)); lia).
  assert (Hlead : lead = 0 /\ uio_offset u mod 512 = 0 \/ lead = len /\ uio_offset u mod 512 <> 0) by (unfold lead; destruct (Z.eqb_spec (uio_offset u mod 512) 0); cbn [negb]; auto).
  apply wp_mono with (P := transfer_post (lead + (uio_resid u - lead)) u s).
  { intros r s' Ht. replace (uio_resid u) with (lead + (uio_resid u - lead)) by lia. exact Ht. }
  apply then_spec; try done; [lia| |].
  - unfold lead. destruct (Z.eqb_spec (uio_offset u mod 512) 0); cbn [negb]; [rewrite wp_ret; left; split; [done|]; by apply extends_progress, same_extends, same_refl|].
    cbv zeta. fold len. apply partialio_spec; try done; lia.
  - intros u1 s1 Hp Hw1 Hu1 Hz1. pose proof (pg_consumed _ _ _ _ _ Hp) as Hc. rewrite <-(co_resid _ _ _ Hc). destruct (Z.eqb_spec (uio_resid u1) 0) as [->|Hne].
    + rewrite wp_ret. left. split; [done|]. by apply extends_progress, same_extends, same_refl.
    + rewrite (co_resid _ _ _ Hc) in Hne. apply aligned_spec; try done; rewrite ?(co_offset _ _ _ Hc), ?(co_resid _ _ _ Hc); [|lia].
      destruct Hlead as [[-> Hm0]|[-> Hm0]]; [by rewrite Z.add_0_r|]. assert (len = 512 - uio_offset u mod 512) as -> by lia.
      pose proof (Z.div_mod (uio_offset u) 512 ltac:(lia)). replace (uio_offset u + (512 - uio_offset u mod 512)) with ((uio_offset u / 512 + 1) * 512) by lia. apply Z.mod_mul. lia.
Qed.

(** How many bytes a transfer should move: a read ends at the end of the file. *)
Definition amount (u : uio) s : Z :=
  match uio_rw u with
  | UIO_READ => Z.max 0 (Z.min (uio_resid u) (Sfs.sfi_size (Sfs.sv_i s) - uio_offset u))
  | UIO_WRITE => uio_resid u
  end.
(** The size after the [uio] has advanced by [j]. *)
Definition size_after (j : Z) (u : uio) s : Z :=
  match uio_rw u with
  | UIO_READ => Sfs.sfi_size (Sfs.sv_i s)
  | UIO_WRITE => if j =? 0 then Sfs.sfi_size (Sfs.sv_i s) else Z.max (Sfs.sfi_size (Sfs.sv_i s)) (uio_offset u + j)
  end.
(** [k] bytes reached the file, or for a read all of the [j] bytes reached their addresses. *)
Definition io_result (n : Z) (u : uio) s (r : Z * uio) s' : Prop :=
  wf s' /\ (forall b, foreign s b -> foreign s' b /\ blk s' b = blk s b) /\
  exists k j, 0 <= k <= j /\ j <= n /\ (r.1 = 0 -> k = n) /\ consumed j u r.2 /\ (j = 0 \/ uio_offset u + j <= max_size) /\
    file_bytes s' = after k u s /\ Sfs.sfi_size (Sfs.sv_i s') = size_after j u s /\
    (uio_rw u = UIO_READ -> r.1 <> EFAULT -> slice (mem s') (first j u) = Sfs.region (uio_offset u) j (file_bytes s) /\
       forall a, ~ buffer lh_buf iobuf a -> a ∉ first j u -> bytes (mem s') a = bytes (mem s) a).

(** What the transfer of the clipped [uio] says about the caller's. *)
Lemma clip_consumed x j u u1 : 0 <= x <= uio_resid u -> uio_resid u < 2 ^ 32 -> consumed j (set_offset_resid (uio_offset u) (uio_resid u - x) u) u1 ->
  consumed j u (set_offset_resid (uio_offset u1) (u32 (uio_resid u1 + x)) u1).
Proof.
  intros Hx Hlt [B1 B2 B3 B4 B5 B6 B7 B8]. cbn [set_offset_resid uio_iov uio_offset uio_resid uio_segflg uio_rw uio_space] in *.
  split; cbn [set_offset_resid uio_iov uio_offset uio_resid uio_segflg uio_rw uio_space]; try done; try lia. rewrite u32_small; lia.
Qed.
Lemma clip_ok x u : ok u -> 0 <= x <= uio_resid u -> ok (set_offset_resid (uio_offset u) (uio_resid u - x) u).
Proof. intros [A1 A2 A3 A4 A5 A6 A7 A8] Hx. split; cbn; try done; lia. Qed.
Lemma transfer_summary n u s r s' : transfer_post n u s r s' -> exists k j, 0 <= k <= j /\ j <= n /\ (r.1 = 0 -> k = n) /\ consumed j u r.2 /\
  kept (after k u s) s s' /\ (j = 0 \/ uio_offset u + j <= max_size) /\ (uio_rw u = UIO_READ -> r.1 <> EFAULT -> progress j u r.2 s s').
Proof.
  intros [[He Hp]|(He & k & j & Hk & Hj & Hc & Hkept & Hr & Hread)].
  - exists n, n. pose proof (co_range _ _ _ (pg_consumed _ _ _ _ _ Hp)). split_and!; try done; try lia; apply Hp.
  - exists k, j. do 2 (split; [done|]). split; [by intros ?|]. auto.
Qed.
Lemma io_out_spec x n u s r s1 : ok u -> wf s -> 0 <= x <= uio_resid u -> (uio_rw u = UIO_WRITE -> x = 0) ->
  n = uio_resid u - x -> transfer_post n (set_offset_resid (uio_offset u) (uio_resid u - x) u) s r s1 ->
  wp (io_out (uio_resid u) x r) (io_result n u s) s1.
Proof.
  intros Hu Hw Hx Hxw -> Ht. apply transfer_summary in Ht as (k & j & Hk & Hj & He & Hc & Hkept & Hr & Hread). destruct r as [e u1]. cbn [fst snd] in *.
  pose proof (uk_resid _ _ _ _ _ Hu) as Hres. pose proof (uk_offset _ _ _ _ _ Hu). assert (Hc' := clip_consumed x j u u1 Hx ltac:(lia) Hc).
  pose proof (co_offset _ _ _ Hc) as Hoff. pose proof (co_resid _ _ _ Hc) as Hr1. pose proof (co_rw _ _ _ Hc) as Hrw1. cbn [set_offset_resid uio_offset uio_resid uio_rw] in Hoff, Hr1, Hrw1, Hr.
  change (after k (set_offset_resid (uio_offset u) (uio_resid u - x) u) s) with (after k u s) in Hkept.
  unfold io_out, is_write. rewrite Hrw1. wp_simpl. set (c := negb _ && _ && _).
  assert (Hsize : Sfs.sfi_size (Sfs.sv_i s1) = Sfs.sfi_size (Sfs.sv_i s)) by apply Hkept.
  destruct c eqn:Hcond; unfold c in Hcond; wp_simpl; destruct (uio_rw u) eqn:Hrw; rewrite ?andb_false_r, ?andb_true_r in Hcond; try done.
  - apply andb_true_iff in Hcond as [H1%negb_true_iff%Z.eqb_neq H2%Z.ltb_lt]. rewrite Hxw in * by done.
    destruct (set_inode_size s1 (u32 (uio_offset u1)) (kp_wf _ _ _ Hkept)) as (Hw2 & Hb2 & Hf2 & _). split; [done|]. split.
    + intros b Hb. destruct (kp_foreign _ _ _ Hkept b Hb) as [Hb1 <-]. by apply Hf2.
    + exists k, j. cbn [fst snd]. split_and!; try done; try lia; [by rewrite Hb2, (kp_bytes _ _ _ Hkept)| |by rewrite Hrw].
      unfold size_after. rewrite Hrw. cbn. unfold max_size in Hr. rewrite u32_small by lia. destruct (Z.eqb_spec j 0); lia.
  - split; [apply Hkept|]. split; [apply Hkept|]. exists k, j. cbn [fst snd]. split_and!; try done; try lia; [apply Hkept|unfold size_after; by rewrite Hrw|].
    intros _ Hne. specialize (Hread Hrw Hne). split; [by apply Hread|]. intros a Ha Hin. apply (pg_frame _ _ _ _ _ Hread); [done|by intros _].
  - split; [apply Hkept|]. split; [apply Hkept|]. exists k, j. cbn [fst snd]. split_and!; try done; try lia; [apply Hkept| |by rewrite Hrw].
    unfold size_after. rewrite Hrw, Hsize. rewrite Hxw in * by done. apply andb_false_iff in Hcond as [H1%negb_false_iff%Z.eqb_eq|H2%Z.ltb_ge]; destruct (Z.eqb_spec j 0); lia.
Qed.
Lemma io_tail_spec x s u : wf s -> ok u -> at_zeros s -> 0 <= x <= uio_resid u -> (uio_rw u = UIO_WRITE -> x = 0) -> uio_offset u + (uio_resid u - x) < 2 ^ 41 ->
  wp (r ← io_body lh_buf iobuf zeros_at curas (set_offset_resid (uio_offset u) (u32 (uio_resid u - x)) u); io_out (uio_resid u) x r)
    (io_result (uio_resid u - x) u s) s.
Proof.
  intros Hw Hu Hz Hx Hxw Hsmall. pose proof (uk_resid _ _ _ _ _ Hu) as Hres. rewrite u32_small, wp_bind by lia.
  eapply wp_mono; [|apply io_body_spec; [done|by apply clip_ok|done|exact Hsmall]]. cbv beta. intros r s1 Ht. by apply io_out_spec.
Qed.
Lemma sfs_io_spec s u : wf s -> ok u -> at_zeros s -> 0 <= Sfs.sfi_size (Sfs.sv_i s) < 2 ^ 32 ->
  (uio_rw u = UIO_WRITE -> uio_offset u + uio_resid u < 2 ^ 41) ->
  wp (sfs_io lh_buf iobuf zeros_at curas u) (io_result (amount u s) u s) s.
Proof.
  intros Hw Hu Hz Hsize Hsmall. pose proof (uk_offset _ _ _ _ _ Hu). pose proof (uk_resid _ _ _ _ _ Hu) as Hres. unfold sfs_io, is_write, amount.
  rewrite (u32_small (uio_resid u)) by lia. wp_simpl. destruct (uio_rw u) eqn:Hrw; cbn [negb andb].
  - destruct (Z.leb_spec (Sfs.sfi_size (Sfs.sv_i s)) (uio_offset u)) as [Heof|Hin].
    { rewrite wp_ret, Z.max_l by lia. split; [done|]. split; [done|]. exists 0, 0. cbn [fst snd]. unfold after, size_after. rewrite Hrw. split_and!; try done; try lia. by eapply consumed_zero. }
    destruct (Z.ltb_spec (Sfs.sfi_size (Sfs.sv_i s)) (uio_offset u + uio_resid u)) as [Hlong|Hall]; wp_simpl.
    + set (x := uio_offset u + uio_resid u - Sfs.sfi_size (Sfs.sv_i s)). assert (Hx : 0 < x < uio_resid u) by (unfold x; lia).
      rewrite (u32_small x) by lia. rewrite wp_KASSERT. split; [apply Z.ltb_lt; lia|].
      replace (Z.max 0 _) with (uio_resid u - x) by (unfold x; lia). apply io_tail_spec; try done; [lia|by rewrite Hrw|unfold x; lia].
    + replace (Z.max 0 _) with (uio_resid u - 0) by lia. apply (proj1 (wp_bind _ _ _ _)). apply io_tail_spec; try done; lia.
  - replace (io_result (uio_resid u) u s) with (io_result (uio_resid u - 0) u s) by (f_equal; lia). wp_simpl. specialize (Hsmall eq_refl). apply (proj1 (wp_bind _ _ _ _)). apply io_tail_spec; try done; lia.
Qed.
(** C18. Reading and writing the data of a file, from any address space, over the driver of the
    disk, under these conditions: the disk may fail reads, but its writes succeed ([ReliableWrites];
    see [write_errors_lost] for what the code makes of one that fails); it has at most 2^23
    sectors; a write ends before the position 2^41, where the block number would wrap around (see
    [offset_wraps]); and the addresses of the [uio] are distinct and apart from the kernel's static buffers.
    A read stops at the end of the file, and brings exactly the file's bytes from its offset on
    to the first addresses of the [uio]; a write replaces exactly the bytes from its offset on,
    allocating blocks as it needs them, and the size becomes what it should.  The volume stays
    well-formed, and the blocks of others keep their owner and their contents.  If an error ends the
    transfer (a failed read of the disk, a bad address, no space, the largest file), a prefix is done: for
    a read the [uio] tells which (unless an address was bad); for a write, the [uio] may tell
    more than was written, and the size goes by the [uio]. *)
Theorem sfs_io_correct s u : wf s -> ok u -> at_zeros s -> 0 <= Sfs.sfi_size (Sfs.sv_i s) < 2 ^ 32 ->
  (uio_rw u = UIO_WRITE -> uio_offset u + uio_resid u < 2 ^ 41) ->
  wp (sfs_io lh_buf iobuf zeros_at curas u) (io_result (amount u s) u s) s.
Proof. apply sfs_io_spec. Qed.
End theory.

(** ** A file on a disk that fails some of its reads *)

Module Sfsio_sample.
Definition run (stat b : Z) (l : list Z) : K Lhd_sample.disk (Z * list Z) :=
  d ← get;
  if negb (Lhd_sample.there b) then mret (LHD_INVSECT, l) else
  if stat =? LHD_WORKING then
    put (tail d.1, d.2);;
    mret (if default false (head d.1) then (LHD_MEDIA, l) else (LHD_OK, Lhd_sample.sector d b))
  else put (d.1, <[b := l]> d.2);; mret (Z.lor LHD_OK LHD_ISWRITE, l).
#[local, refine] Instance hardware : DiskHardware Lhd_sample.disk := {| hw_nsect := 16; hw_sector := Lhd_sample.sector; hw_run := run |}.
Proof.
  - done.
  - intros h b. apply Sfs_sample.norm_ok.
  - intros h b l Hl. unfold run. wp_simpl. destruct (Lhd_sample.there b) eqn:Hb; cbn [negb].
    + change (LHD_WORKING =? LHD_WORKING) with true. cbv iota. wp_simpl. destruct (default false (head h.1)); cbn [fst snd];
        (split_and!; [try done; apply Sfs_sample.norm_ok|done|]); [by right; left|by left].
    + wp_simpl. split_and!; [done|done|]. right. right. split; [done|]. intros H%Lhd_sample.there_spec. congruence.
  - intros h b l Hl Hy. unfold run. wp_simpl. destruct (Lhd_sample.there b) eqn:Hb; cbn [negb].
    + change (Z.lor LHD_WORKING LHD_ISWRITE =? LHD_WORKING) with false. cbv iota. wp_simpl. cbn [fst snd].
      split; [done|]. unfold Lhd_sample.sector. cbn [snd]. split; [intros b' Hne; by rewrite lookup_insert_ne|]. left. split; [done|]. rewrite lookup_insert_eq. by apply Sfs_sample.norm_id.
    + wp_simpl. split_and!; [done|done|]. right. split; [done|]. right. split; [done|]. intros H%Lhd_sample.there_spec. congruence.
Defined.
#[local] Instance reliable : ReliableWrites Lhd_sample.disk.
Proof.
  intros h b l Hl Hy Hb. unfold hw_run, hardware, run. wp_simpl. rewrite (proj2 (Lhd_sample.there_spec b) Hb). cbn [negb].
  change (Z.lor LHD_WORKING LHD_ISWRITE =? LHD_WORKING) with false. cbv iota. by wp_simpl.
Qed.
Definition card : Z := 0x90000000.
Definition iobuf : Z := 0x80002000.
Definition zeros : Z := 0x80003000.
(** User addresses below 4096 are mapped. *)
Definition mem : machine := Machine (fun a => a <? 4096) (fun a => if (zeros <=? a) && (a <? zeros + 16) then 0 else a mod 256) false.
Lemma apart a : in_region iobuf 512 a -> ~ in_region card 512 a.
Proof. unfold in_region, iobuf, card. lia. Qed.
Lemma iobuf_fits : 0 <= iobuf <= 2 ^ 32 - 512.
Proof. by vm_compute. Qed.
Lemma zeros_apart a : in_region zeros 16 a -> ~ buffer card iobuf a.
Proof. unfold buffer, in_region, iobuf, card, zeros. lia. Qed.
#[local] Hint Extern 0 (Disk (driver Lhd_sample.disk)) => exact (the_disk card iobuf (Some 1) apart iobuf_fits) : typeclass_instances.
Definition volume (fails : list bool) : Sfs.sfs Bitmap.bitmap (driver Lhd_sample.disk) :=
  Sfs.Volume (Bitmap.MkBitmap 16 [0x2f; 0]) false 16 (Driver mem 1 0 0 0 0 (fails, {[5 := replicate 512 7]})) Sfs_sample.one_block false.
Lemma volume_wf fails : wf (volume fails).
Proof.
  split; [split| |]; try done.
  - split_and!; try done; [forall_list; by compute|]. cbn. lia.
  - cbn. lia.
  - assert (Hs : slots (volume fails) = <[1%nat := 5]> (replicate 144 0)) by reflexivity. rewrite Hs. apply slots_insert; [|done|done|].
    + split; [intros k b [-> _]%lookup_replicate|intros i j b [-> _]%lookup_replicate]; done.
    + rewrite elem_of_replicate. by intros [? _].
Qed.
Lemma kernel_ok base len pos rw : 0 <= base -> 0 <= len -> base + len <= iobuf -> 0 <= pos -> pos + len < 2 ^ 63 ->
  uio_ok card iobuf zeros (Some 1) (uio_kinit base len pos rw).
Proof.
  intros Hb Hl Hs Hp Hpl. unfold iobuf in Hs. assert (Ha : addrs (uio_iov (uio_kinit base len pos rw)) = seqZ base len) by apply addrs_one.
  split; rewrite ?Ha; cbn [uio_kinit uio_iov uio_offset uio_resid uio_segflg uio_rw uio_space]; try done; try lia.
  - repeat constructor; cbn; lia.
  - unfold total. rewrite addrs_one, length_seqZ. lia.
  - apply NoDup_seqZ.
  - intros a [? ?]%elem_of_seqZ [[?|?]|?]; unfold in_region, iobuf, card, zeros in *; lia.
Qed.
(** 600 bytes of the kernel's to the file's position 510. *)
Definition kernel_uio : uio := uio_kinit 0x80001064 600 510 UIO_WRITE.
#[local] Notation write_600 := (sfs_io card iobuf zeros (Some 1) kernel_uio).
Lemma small_disk : hw_nsect (H:=Lhd_sample.disk) <= 2 ^ 23.
Proof. by vm_compute. Qed.
Lemma volume_zeros : at_zeros zeros (volume [true; true]).
Proof. intros a [Ha Hb]. unfold mem. cbn. by rewrite (proj2 (Z.leb_le _ _) Ha), (proj2 (Z.ltb_lt _ _) Hb). Qed.
Lemma volume_size : 0 <= Sfs.sfi_size (Sfs.sv_i (volume [true; true])) < 2 ^ 32.
Proof. by vm_compute. Qed.
Lemma kernel_uio_ok : uio_ok card iobuf zeros (Some 1) kernel_uio.
Proof. apply kernel_ok; unfold iobuf; lia. Qed.
Lemma uio_small : uio_rw kernel_uio = UIO_WRITE -> uio_offset kernel_uio + uio_resid kernel_uio < 2 ^ 41.
Proof. by vm_compute. Qed.
Lemma write_600_result :
  wp write_600 (fun r s' => r.1 = 0 /\ Sfs.sfi_size (Sfs.sv_i s') = 1110 /\ Sfs.region 508 6 (file_bytes s') = [7; 7; 100; 101; 102; 103]) (volume [true; true]).
Proof. vm_compute. done. Qed.
Lemma sfs_io_correct_witness :
  wp write_600 (fun r s' => wf s' /\ r.1 = 0 /\ Sfs.sfi_size (Sfs.sv_i s') = 1110 /\ Sfs.region 508 6 (file_bytes s') = [7; 7; 100; 101; 102; 103]) (volume [true; true]).
Proof.
  refine (wp_mono _ _ _ _ _ (wp_and _ _ _ _
    (sfs_io_correct card iobuf zeros (Some 1) apart iobuf_fits zeros_apart small_disk _ _ (volume_wf _) kernel_uio_ok volume_zeros volume_size uio_small) write_600_result)).
  intros r s' [[Hw _] Hr]. exact (conj Hw Hr).
Defined.
(** The third byte's address is bad: the first two are not written, but the file grows by them. *)
Example fault_extends_file :
  match sfs_io card iobuf zeros (Some 1) (Uio [Iovec 100 2; Iovec 5000 2] 512 4 UIO_USERSPACE UIO_WRITE (Some 1)) (volume []) with
  | Ret r s' => r.1 = EFAULT /\ Sfs.sfi_size (Sfs.sv_i s') = 514 /\ Sfs.region 512 2 (file_bytes s') = [0; 0]
  | _ => False
  end.
Proof. vm_compute. done. Qed.
(** At the position 2^41, the block number wraps around: the write goes to the beginning. *)
Example offset_wraps :
  match sfs_io card iobuf zeros (Some 1) (Uio [Iovec 100 2] (2 ^ 41) 2 UIO_USERSPACE UIO_WRITE (Some 1)) (volume []) with
  | Ret r s' => r.1 = 0 /\ Sfs.region 0 3 (file_bytes s') = [100; 101; 7]
  | _ => False
  end.
Proof. vm_compute. done. Qed.
End Sfsio_sample.
