(* ===== verification/Sfsdir.v ===== *)
(** * Directories of SFS ([kern/fs/sfs/sfs_dir.c])

    A directory is a file of 64-byte slots, each free (inode number 0) or an entry with a
    name.  The code scans and overwrites slots through [sfs_metaio]; what it needs of it
    is the interface [ByteFile], which the block layer of [Sfs] implements.  The
    abstraction is a finite map from names to inode numbers. *)
From S2P Require Import Prelude Bitmap Sfs Sfskeep.
Import Sfs.Sfs.

(** A file as a metadata operation sees it: [bf_cap] bytes that exist or read as zeros, and
    a size.  A write that fails has replaced all the bytes or none.  [bf_step] is what the
    operations do to the rest of the state; [bf_reliable] says that the file is on a
    device that does not fail: then a write that fails has changed nothing, and what overwrites
    bytes that are not all zero does not fail. *)
Class ByteFile (S : Type) := {
  bf_cap : Z;
  bf_read : Z -> Z -> K S (Z * list Z);
  bf_write : Z -> list Z -> K S Z;
  bf_type : S -> Z;
  bf_size : S -> Z;
  bf_bytes : S -> list Z;
  bf_ok : S -> Prop;
  bf_step : S -> S -> Prop;
  bf_reliable : Prop;
  bf_step_preorder : PreOrder bf_step;
  bf_cap_blocks : 0 < bf_cap < 2 ^ 31 /\ bf_cap mod 512 = 0;
  bf_length s : bf_ok s -> Z.of_nat (length (bf_bytes s)) = bf_cap /\ Forall is_byte (bf_bytes s) /\ 0 <= bf_size s <= bf_cap;
  bf_read_spec s pos len : bf_ok s -> 0 <= pos < 2 ^ 31 -> 0 <= len -> pos mod 512 + len <= 512 ->
    wp (bf_read pos len) (fun r s' => bf_ok s' /\ bf_type s' = bf_type s /\ bf_size s' = bf_size s /\
      bf_bytes s' = bf_bytes s /\ (r.1 = 0 -> r.2 = region pos len (bf_bytes s)) /\ r.1 <> ENOENT /\ bf_step s s') s;
  bf_read_reliable s pos len : bf_reliable -> bf_ok s -> 0 <= pos < bf_cap -> 0 <= len -> pos mod 512 + len <= 512 ->
    wp (bf_read pos len) (fun r _ => r.1 = 0) s;
  bf_write_spec s pos data : bf_ok s -> 0 <= pos < 2 ^ 31 -> pos mod 512 + Z.of_nat (length data) <= 512 -> Forall is_byte data ->
    wp (bf_write pos data) (fun e s' => bf_ok s' /\ bf_type s' = bf_type s /\
      (bf_bytes s' = update pos data (bf_bytes s) \/ e <> 0 /\ bf_bytes s' = bf_bytes s) /\
      bf_size s' = (if e =? 0 then Z.max (bf_size s) (pos + Z.of_nat (length data)) else bf_size s) /\
      (bf_cap <= pos -> e <> 0 /\ bf_bytes s' = bf_bytes s) /\ bf_step s s' /\
      (bf_reliable -> (e <> 0 -> bf_bytes s' = bf_bytes s) /\
        ((exists x, x ∈ region pos (Z.of_nat (length data)) (bf_bytes s) /\ x <> 0) -> e = 0))) s }.
#[export] Existing Instance bf_step_preorder.

Module Sfsdir.
Definition SFS_NAMELEN : Z := 60.
Definition SFS_NOINO : Z := 0.
Definition SFS_TYPE_DIR : Z := 2.
Definition sizeof_direntry : Z := 64.

Record sfs_direntry := Direntry { sfd_ino : Z; sfd_name : list Z }.

(** The entry in memory, big-endian. *)
Definition direntry_of (l : list Z) : sfs_direntry := Direntry (be_val (take 4 l)) (drop 4 l).
Definition direntry_bytes (sd : sfs_direntry) : list Z := be_bytes 4 (sfd_ino sd) ++ sfd_name sd.

(** The C string in a buffer: the bytes before the first NUL. *)
Fixpoint cstring (l : list Z) : list Z :=
  match l with
  | [] => []
  | c :: l => if c =? 0 then [] else c :: cstring l
  end.

Section ops.
Context {S : Type} `{ByteFile S}.

Definition sfs_readdir (slot : Z) : K S (Z * sfs_direntry) :=
  let actualpos := u32 (slot * sizeof_direntry) in
  '(result, data) ← bf_read actualpos sizeof_direntry;
  mret (result, direntry_of data).

Definition sfs_writedir (slot : Z) (sd : sfs_direntry) : K S Z :=
  KASSERT (0 <=? slot) "slot>=0";;
  let actualpos := u32 (slot * sizeof_direntry) in
  bf_write actualpos (direntry_bytes sd).

Definition sfs_dir_nentries : K S Z :=
  s ← get;
  KASSERT (bf_type s =? SFS_TYPE_DIR) "sv->sv_i.sfi_type == SFS_TYPE_DIR";;
  if negb (bf_size s mod sizeof_direntry =? 0) then panic "sfs: directory: Invalid size" else
  mret (bf_size s / sizeof_direntry).

(** The loop from slot [i], [n] left: error code, slot and inode number of the name, free
    slot. *)
Fixpoint findname_loop (n : nat) (i : Z) (name : list Z) (found : option (Z * Z)) (emptyslot : option Z)
    : K S (Z * option (Z * Z) * option Z) :=
  match n with
  | O => mret (match found with Some _ => 0 | None => ENOENT end, found, emptyslot)
  | Datatypes.S n =>
      '(result, tsd) ← sfs_readdir i;
      if negb (result =? 0) then mret (result, found, emptyslot) else
      if sfd_ino tsd =? SFS_NOINO then findname_loop n (i + 1) name found (Some i) else
      if bool_decide (cstring (<[Z.to_nat (SFS_NAMELEN - 1) := 0]> (sfd_name tsd)) = name) then
        KASSERT (bool_decide (found = None)) "found==0";;
        findname_loop n (i + 1) name (Some (i, sfd_ino tsd)) emptyslot
      else findname_loop n (i + 1) name found emptyslot
  end.

Definition sfs_dir_findname (name : list Z) : K S (Z * option (Z * Z) * option Z) :=
  nentries ← sfs_dir_nentries;
  findname_loop (Z.to_nat nentries) 0 name None None.

(** Error code and [*slot]. *)
Definition sfs_dir_link (name : list Z) (ino : Z) : K S (Z * option Z) :=
  '(result, _, emptyslot) ← sfs_dir_findname name;
  if negb (result =? 0) && negb (result =? ENOENT) then mret (result, None) else
  if result =? 0 then mret (EEXIST, None) else
  if SFS_NAMELEN <? Z.of_nat (length name) + 1 then mret (ENAMETOOLONG, None) else
  emptyslot ← match emptyslot with Some i => mret i | None => sfs_dir_nentries end;
  let sd := Direntry ino (name ++ replicate (Z.to_nat SFS_NAMELEN - length name) 0) in
  result ← sfs_writedir emptyslot sd;
  mret (result, Some emptyslot).

Definition sfs_dir_unlink (slot : Z) : K S Z :=
  sfs_writedir slot (Direntry SFS_NOINO (replicate (Z.to_nat SFS_NAMELEN) 0)).
End ops.
End Sfsdir.
Import Sfsdir.

(** ** The abstract directory *)

Definition entry_name (e : sfs_direntry) : list Z := cstring (<[59%nat := 0]> (sfd_name e)).
Definition live (e : sfs_direntry) : bool := negb (sfd_ino e =? 0).
(** Names to inode numbers. *)
Fixpoint dir_map (es : list sfs_direntry) : gmap (list Z) Z :=
  match es with
  | [] => ∅
  | e :: es => if live e then <[entry_name e := sfd_ino e]> (dir_map es) else dir_map es
  end.
(** Slot [k] holds [name], with the inode number [ino]. *)
Definition names (es : list sfs_direntry) (k : nat) (name : list Z) (ino : Z) : Prop :=
  exists e, es !! k = Some e /\ live e = true /\ entry_name e = name /\ sfd_ino e = ino.
Definition unique_names (es : list sfs_direntry) : Prop :=
  forall i j name x y, names es i name x -> names es j name y -> i = j.

Section entries.
Implicit Types (es : list sfs_direntry) (name : list Z).

Lemma names_cons e es k name ino : names (e :: es) (S k) name ino <-> names es k name ino.
Proof. done. Qed.
Lemma unique_tail e es : unique_names (e :: es) -> unique_names es.
Proof. intros Hu i j n x y Hi Hj. by pose proof (Hu (S i) (S j) n x y Hi Hj) as [= ->]. Qed.

Lemma dir_map_lookup es name ino : unique_names es ->
  dir_map es !! name = Some ino <-> exists k, names es k name ino.
Proof.
  induction es as [|e es IH]; intros Hu; cbn [dir_map].
  - rewrite lookup_empty. split; [done|]. by intros (k & e & He & _).
  - specialize (IH (unique_tail _ _ Hu)). destruct (live e) eqn:El.
    + rewrite lookup_insert_Some, IH. split.
      * intros [[Hn Hi]|[_ [k Hk]]]; [by exists O, e|by exists (S k)].
      * intros [[|k] Hk].
        -- destruct Hk as (e' & [= ->] & _ & Hn & Hi). by left.
        -- right. split; [|by exists k]. intros Hn. assert (H0 : names (e :: es) O name (sfd_ino e)) by (by exists e).
           by pose proof (Hu _ _ _ _ _ H0 Hk).
    + rewrite IH. split; [intros [k Hk]; by exists (S k)|]. intros [[|k] Hk]; [|by exists k].
      destruct Hk as (e' & [= ->] & Hl & _). congruence.
Qed.
Lemma dir_map_None es name : unique_names es ->
  dir_map es !! name = None <-> forall k ino, ~ names es k name ino.
Proof.
  intros Hu. split.
  - intros E k ino Hk. assert (Hs : dir_map es !! name = Some ino) by (apply dir_map_lookup; eauto). congruence.
  - intros Hn. destruct (dir_map es !! name) as [ino|] eqn:E; [|done]. apply dir_map_lookup in E as [k Hk]; [|done].
    by destruct (Hn k ino).
Qed.

(** [es'] is [es] with one slot changed. *)
Definition set_slot es k e es' : Prop :=
  es' !! k = Some e /\ forall j, j <> k -> es' !! j = es !! j.

Lemma names_other es es' k e j name ino : set_slot es k e es' -> j <> k ->
  names es' j name ino <-> names es j name ino.
Proof. intros [_ Ho] Hj. unfold names. by rewrite Ho. Qed.

(** Entering a new name in a free slot, or behind the last one. *)
Lemma dir_map_add es es' k e : unique_names es -> set_slot es k e es' -> live e = true ->
  (forall x, es !! k = Some x -> live x = false) -> dir_map es !! entry_name e = None ->
  unique_names es' /\ dir_map es' = <[entry_name e := sfd_ino e]> (dir_map es).
Proof.
  intros Hu Hs Hl Hf Hn. rewrite dir_map_None in Hn by done.
  assert (Hk : forall name ino, names es' k name ino <-> name = entry_name e /\ ino = sfd_ino e).
  { intros name ino. unfold names. rewrite (proj1 Hs). split; [naive_solver|]. intros [-> ->]. by exists e. }
  assert (Hu' : unique_names es').
  { intros i j name x y Hi Hj. destruct (decide (i = k)) as [->|Hik], (decide (j = k)) as [->|Hjk]; [done| | |].
    - apply Hk in Hi as [-> _]. apply (names_other _ _ _ _ _ _ _ Hs Hjk) in Hj. by destruct (Hn j y).
    - apply Hk in Hj as [-> _]. apply (names_other _ _ _ _ _ _ _ Hs Hik) in Hi. by destruct (Hn i x).
    - apply (names_other _ _ _ _ _ _ _ Hs Hik) in Hi. apply (names_other _ _ _ _ _ _ _ Hs Hjk) in Hj. by eapply Hu. }
  split; [done|]. apply map_eq. intros name. apply option_eq. intros ino.
  rewrite dir_map_lookup, lookup_insert_Some, dir_map_lookup by done. split.
  - intros [j Hj]. destruct (decide (j = k)) as [->|Hjk]; [apply Hk in Hj as [-> ->]; by left|].
    apply (names_other _ _ _ _ _ _ _ Hs Hjk) in Hj. right. split; [|by exists j]. intros <-. by destruct (Hn j ino).
  - intros [[<- <-]|[Hne [j Hj]]]; [exists k; by apply Hk|]. exists j. apply (names_other _ _ _ _ _ _ _ Hs); [|done].
    intros ->. destruct Hj as (x & Hx & Hlx & _). by rewrite (Hf x Hx) in Hlx.
Qed.

(** Clearing the slot of a name. *)
Lemma dir_map_clear es es' k e name ino : unique_names es -> set_slot es k e es' -> live e = false -> names es k name ino ->
  unique_names es' /\ dir_map es' = delete name (dir_map es).
Proof.
  intros Hu Hs Hl Hk.
  assert (Hnk : forall n i, ~ names es' k n i).
  { intros n i (x & Hx & Hlx & _). rewrite (proj1 Hs) in Hx. congruence. }
  assert (Ho : forall j n i, names es' j n i -> j <> k /\ names es j n i).
  { intros j n i Hj. assert (j <> k) as Hjk by (intros ->; by apply Hnk in Hj). split; [done|]. by apply (names_other _ _ _ _ _ _ _ Hs). }
  assert (Hu' : unique_names es').
  { intros i j n x y Hi Hj. apply Ho in Hi as [_ Hi]. apply Ho in Hj as [_ Hj]. by eapply Hu. }
  split; [done|]. apply map_eq. intros n. apply option_eq. intros i.
  rewrite dir_map_lookup, lookup_delete_Some, dir_map_lookup by done. split.
  - intros [j Hj]. apply Ho in Hj as [Hjk Hj]. split; [|by exists j]. intros <-. apply Hjk. by eapply Hu.
  - intros [Hne [j Hj]]. exists j. apply (names_other _ _ _ _ _ _ _ Hs); [|done]. intros ->.
    destruct Hj as (x & Hx & _ & Hn & _), Hk as (x' & Hx' & _ & Hn' & _). congruence.
Qed.
End entries.

(** ** Slots as regions of the file *)

Section regions.
Implicit Types l data : list Z.
Lemma region_update_same off data l : 0 <= off -> off + Z.of_nat (length data) <= Z.of_nat (length l) ->
  region off (Z.of_nat (length data)) (update off data l) = data.
Proof.
  intros Ho Hl. unfold region, update. rewrite drop_app_length' by (rewrite length_take; lia).
  rewrite Nat2Z.id. by rewrite take_app_length.
Qed.
Lemma region_update_other off off' len data l : 0 <= off -> 0 <= off' -> 0 <= len ->
  off + Z.of_nat (length data) <= Z.of_nat (length l) ->
  off' + len <= off \/ off + Z.of_nat (length data) <= off' ->
  region off' len (update off data l) = region off' len l.
Proof.
  intros Ho Ho' Hlen Hl Hd. unfold region, update. apply list_eq. intros i.
  destruct (decide (i < Z.to_nat len)%nat) as [Hi|Hi]; [|by rewrite !lookup_take_ge by lia].
  rewrite !lookup_take_lt, !lookup_drop by lia. destruct Hd as [Hd|Hd].
  - rewrite lookup_app_l by (rewrite length_take; lia). by rewrite lookup_take_lt by lia.
  - rewrite lookup_app_r by (rewrite length_take; lia). rewrite length_take, lookup_app_r by lia.
    rewrite lookup_drop. f_equal. lia.
Qed.
End regions.

Lemma direntry_roundtrip sd : 0 <= sfd_ino sd < 2 ^ 32 -> direntry_of (direntry_bytes sd) = sd.
Proof.
  intros Hi. unfold direntry_of, direntry_bytes. rewrite take_app_length', drop_app_length' by (by rewrite be_bytes_length).
  rewrite be_val_bytes, Z.mod_small by done. by destruct sd.
Qed.

Section dir.
Context {S : Type} {BF : ByteFile S}.
Implicit Types (s : S) (name : list Z).

Definition nslots s : Z := bf_size s / 64.
Definition entries s : list sfs_direntry :=
  (fun k => direntry_of (region (64 * k) 64 (bf_bytes s))) <$> seqZ 0 (nslots s).
Record dir_ok s : Prop := {
  do_file : bf_ok s;
  do_type : bf_type s = SFS_TYPE_DIR;
  do_size : bf_size s mod 64 = 0;
  do_unique : unique_names (entries s) }.
Definition same_file s s' : Prop :=
  bf_ok s' /\ bf_type s' = bf_type s /\ bf_size s' = bf_size s /\ bf_bytes s' = bf_bytes s /\ bf_step s s'.

Lemma same_entries s s' : same_file s s' -> entries s' = entries s.
Proof. intros (_ & _ & Hz & Hb & _). unfold entries, nslots. by rewrite Hz, Hb. Qed.
Lemma same_dir s s' : dir_ok s -> same_file s s' -> dir_ok s'.
Proof.
  intros [_ Ht Hz Hu] Hs. pose proof Hs as (Hok & Ht' & Hz' & _ & _).
  split; [done|by rewrite Ht'|by rewrite Hz'|by rewrite (same_entries s s')].
Qed.
Lemma same_file_refl s : bf_ok s -> same_file s s.
Proof. intros Hs. by split_and!. Qed.
Lemma same_file_trans s1 s2 s3 : same_file s1 s2 -> same_file s2 s3 -> same_file s1 s3.
Proof. intros (? & ? & ? & ? & ?) (? & ? & ? & ? & ?). split_and!; [congruence..|by transitivity s2]. Qed.
Lemma nslots_size s : dir_ok s -> bf_size s = 64 * nslots s /\ 0 <= nslots s /\ 64 * nslots s <= bf_cap (S:=S).
Proof.
  intros [Hok _ Hz _]. destruct (bf_length s Hok) as (_ & _ & Hr). unfold nslots.
  pose proof (Z.div_mod (bf_size s) 64). pose proof (Z.div_pos (bf_size s) 64). lia.
Qed.
Lemma entries_lookup s (k : nat) : Z.of_nat k < nslots s ->
  entries s !! k = Some (direntry_of (region (64 * Z.of_nat k) 64 (bf_bytes s))).
Proof. intros Hk. unfold entries. by rewrite list_lookup_fmap, lookup_seqZ_lt by lia. Qed.
Lemma entries_None s (k : nat) : nslots s <= Z.of_nat k -> entries s !! k = None.
Proof. intros Hk. unfold entries. rewrite list_lookup_fmap, lookup_seqZ_ge by lia. done. Qed.
Lemma entries_bound s k e : entries s !! k = Some e -> Z.of_nat k < nslots s.
Proof. intros He. destruct (Z.lt_ge_cases (Z.of_nat k) (nslots s)); [done|]. by rewrite entries_None in He. Qed.

Lemma slot_position s (k : nat) : dir_ok s -> Z.of_nat k <= nslots s ->
  u32 (Z.of_nat k * sizeof_direntry) = 64 * Z.of_nat k /\ 0 <= 64 * Z.of_nat k < 2 ^ 31 /\ (64 * Z.of_nat k) mod 512 + 64 <= 512.
Proof.
  intros Hok Hk. destruct (nslots_size s Hok) as (_ & ? & Hc). destruct (bf_cap_blocks (S:=S)) as [Hc2 _].
  unfold sizeof_direntry. rewrite u32_small by lia. split_and!; [lia|lia|lia|].
  change 512 with (64 * 8) at 1. rewrite Z.mul_mod_distr_l by lia.
  pose proof (Z.mod_pos_bound (Z.of_nat k) 8). lia.
Qed.

Lemma nentries_eq s : dir_ok s -> sfs_dir_nentries s = Ret (nslots s) s.
Proof.
  intros [_ Ht Hz _]. unfold sfs_dir_nentries, sizeof_direntry. kunfold. rewrite Ht. cbn [Z.eqb SFS_TYPE_DIR Pos.eqb].
  by rewrite Hz.
Qed.

Lemma readdir_spec s (k : nat) : dir_ok s -> Z.of_nat k < nslots s ->
  wp (sfs_readdir (Z.of_nat k)) (fun r s' => same_file s s' /\ (r.1 = 0 -> entries s !! k = Some r.2) /\ r.1 <> ENOENT) s.
Proof.
  intros Hok Hk. destruct (slot_position s k Hok) as (E & Hp & Hf); [lia|]. unfold sfs_readdir. rewrite E. cbv zeta.
  rewrite wp_bind. eapply wp_mono; [|apply bf_read_spec; [apply Hok|done|done|done]]. cbv beta.
  intros [e data] s' (? & ? & ? & ? & Hd & Hne & ?); cbn [fst snd] in *. rewrite wp_ret. split; [by split_and!|split; [|done]].
  cbn [fst snd]. intros ->. rewrite entries_lookup, Hd by done. done.
Qed.

(** ** Searching *)

(** What is known after the first [i] slots. *)
Definition found_ok (es : list sfs_direntry) name (i : nat) (found : option (Z * Z)) : Prop :=
  match found with
  | Some (k, ino) => exists j, k = Z.of_nat j /\ (j < i)%nat /\ names es j name ino
  | None => forall j ino, (j < i)%nat -> ~ names es j name ino
  end.
Definition empty_ok (es : list sfs_direntry) (empty : option Z) : Prop :=
  match empty with
  | Some k => exists j e, k = Z.of_nat j /\ es !! j = Some e /\ live e = false
  | None => True
  end.

Definition find_post s name (r : Z * option (Z * Z) * option Z) s' : Prop :=
  same_file s s' /\ empty_ok (entries s) r.2 /\
  (r.1.1 = 0 -> exists k ino, r.1.2 = Some (Z.of_nat k, ino) /\ names (entries s) k name ino) /\
  (r.1.1 = ENOENT -> forall k ino, ~ names (entries s) k name ino).

Lemma findname_loop_spec name n s (i : nat) found empty : dir_ok s -> Z.of_nat i + Z.of_nat n = nslots s ->
  found_ok (entries s) name i found -> empty_ok (entries s) empty ->
  wp (findname_loop n (Z.of_nat i) name found empty) (find_post s name) s.
Proof.
  revert s i found empty. induction n as [|n IH]; intros s i found empty Hok Hn Hf He; cbn [findname_loop].
  - rewrite wp_ret. split_and!; [by apply same_file_refl, Hok|done| |]; cbn [fst snd].
    + destruct found as [[k ino]|]; [|done]. destruct Hf as (j & -> & _ & Hj). intros _. by exists j, ino.
    + destruct found as [[k ino]|]; [done|]. intros _ k ino Hk. apply (Hf k ino); [|done].
      destruct Hk as (e & Hk & _). apply entries_bound in Hk. lia.
  - rewrite wp_bind. eapply wp_mono; [|apply readdir_spec; [done|lia]]. cbv beta.
    intros [e tsd] s1 (Hs1 & Hd & Hne); cbn [fst snd] in *. destruct (Z.eqb_spec e 0) as [->|He0]; wp_simpl.
    2:{ by split_and!. }
    specialize (Hd eq_refl). assert (Hes := same_entries s s1 Hs1). assert (Hok1 := same_dir s s1 Hok Hs1).
    assert (Hn1 : Z.of_nat (Datatypes.S i) + Z.of_nat n = nslots s1) by (destruct Hs1 as (_ & _ & Hz & _ & _); unfold nslots in *; rewrite Hz; lia).
    replace (Z.of_nat i + 1) with (Z.of_nat (Datatypes.S i)) by lia.
    assert (Hstep : forall f em, found_ok (entries s) name (Datatypes.S i) f -> empty_ok (entries s) em ->
      wp (findname_loop n (Z.of_nat (Datatypes.S i)) name f em) (find_post s name) s1).
    { intros f em Hf' He'. eapply wp_mono; [|apply (IH s1 (Datatypes.S i)); [done|done|by rewrite Hes|by rewrite Hes]].
      cbv beta. intros r s2 (Hs2 & H1 & H2 & H3). rewrite Hes in H1, H2, H3. split_and!; [by eapply same_file_trans|done..]. }
    assert (Hskip : (forall ino, ~ names (entries s) i name ino) -> found_ok (entries s) name (Datatypes.S i) found).
    { intros Hno. destruct found as [[k ino]|]; [destruct Hf as (j & -> & Hj & Hnm); exists j; split_and!; [done|lia|done]|].
      intros j ino Hj. destruct (decide (j = i)) as [->|]; [apply Hno|apply Hf; lia]. }
    unfold SFS_NOINO. destruct (Z.eqb_spec (sfd_ino tsd) 0) as [Hz|Hz]; [|case_bool_decide as Hname].
    + apply Hstep; [apply Hskip|].
      * intros ino (x & Hx & Hl & _). assert (x = tsd) as -> by congruence. unfold live in Hl. by rewrite Hz in Hl.
      * exists i, tsd. split_and!; [done|done|]. unfold live. by rewrite Hz.
    + assert (Hi : names (entries s) i name (sfd_ino tsd)).
      { exists tsd. split_and!; [done| |exact Hname|done]. unfold live. destruct (Z.eqb_spec (sfd_ino tsd) 0); done. }
      rewrite wp_bind, wp_KASSERT. split.
      * apply bool_decide_eq_true. destruct found as [[k ino]|]; [|done]. destruct Hf as (j & -> & Hj & Hnm).
        pose proof (do_unique s Hok _ _ _ _ _ Hnm Hi). lia.
      * apply Hstep; [|done]. exists i. split_and!; [done|lia|done].
    + apply Hstep; [apply Hskip|done]. intros ino (x & Hx & _ & Hxn & _). assert (x = tsd) as -> by congruence. by apply Hname.
Qed.

Lemma findname_spec s name : dir_ok s -> wp (sfs_dir_findname name) (find_post s name) s.
Proof.
  intros Hok. unfold sfs_dir_findname. rewrite wp_bind. erewrite wp_eq by by apply nentries_eq.
  destruct (nslots_size s Hok) as (_ & ? & _). apply (findname_loop_spec name _ s 0); [done|lia|intros j ino Hj; lia|done].
Qed.

(** On a disk that does not fail, a name is found or is not there. *)
Lemma readdir_reliable s (k : nat) : bf_reliable (S:=S) -> dir_ok s -> Z.of_nat k < nslots s -> wp (sfs_readdir (Z.of_nat k)) (fun r _ => r.1 = 0) s.
Proof.
  intros R Hok Hk. destruct (slot_position s k Hok) as (E & Hp & Hf); [lia|]. destruct (nslots_size s Hok) as (_ & _ & Hc).
  unfold sfs_readdir. rewrite E. cbv zeta. rewrite wp_bind.
  eapply wp_mono; [|apply bf_read_reliable; [done|apply Hok|lia|done|done]]. cbv beta. by intros [e data] s' He.
Qed.
Lemma findname_loop_reliable name n : forall s (i : nat) found empty, bf_reliable (S:=S) -> dir_ok s -> Z.of_nat i + Z.of_nat n = nslots s ->
  wlp (findname_loop n (Z.of_nat i) name found empty) (fun r _ => r.1.1 = 0 \/ r.1.1 = ENOENT) s.
Proof.
  induction n as [|n IH]; intros s i found empty R Hok Hn; cbn [findname_loop].
  { rewrite wlp_ret. destruct found; auto. }
  rewrite wlp_bind. eapply wlp_mono; [|apply wp_wlp, wp_and; [apply (readdir_spec s i); [done|lia]|apply (readdir_reliable s i); [done|done|lia]]]. cbv beta.
  intros [e tsd] s1 [(Hs1 & _ & _) He]; cbn [fst snd] in *. subst e. cbn [Z.eqb negb].
  assert (Hok1 := same_dir s s1 Hok Hs1). replace (Z.of_nat i + 1) with (Z.of_nat (Datatypes.S i)) by lia.
  assert (Hn1 : Z.of_nat (Datatypes.S i) + Z.of_nat n = nslots s1) by (destruct Hs1 as (_ & _ & Hz & _ & _); unfold nslots in *; rewrite Hz; lia).
  destruct (_ =? _); [by apply IH|]. case_bool_decide; [rewrite wlp_bind, wlp_KASSERT; intros _|]; by apply IH.
Qed.
Lemma findname_decides s name : bf_reliable (S:=S) -> dir_ok s -> wp (sfs_dir_findname name) (fun r s' => find_post s name r s' /\
  (dir_map (entries s) !! name = None -> r.1.1 = ENOENT) /\ (is_Some (dir_map (entries s) !! name) -> r.1.1 = 0)) s.
Proof.
  intros R Hok. pose proof (findname_spec s name Hok) as Hf.
  assert (Hr : wlp (sfs_dir_findname name) (fun r _ => r.1.1 = 0 \/ r.1.1 = ENOENT) s).
  { unfold sfs_dir_findname. rewrite wlp_bind. apply wp_wlp. erewrite wp_eq by by apply nentries_eq.
    destruct (nslots_size s Hok) as (_ & ? & _). apply (findname_loop_reliable name _ s 0); [done|done|lia]. }
  unfold wp, wlp in *. destruct (sfs_dir_findname name s) as [r s'|?|?|]; [|done..]. split; [done|].
  destruct Hf as (_ & _ & H0 & Hno). split.
  - intros Hm. destruct Hr as [E|]; [|done]. destruct (H0 E) as (k & ino & _ & Hk).
    by destruct (proj1 (dir_map_None _ _ (do_unique s Hok)) Hm k ino).
  - intros [ino Hm]. destruct Hr as [|E]; [done|]. apply dir_map_lookup in Hm as [k Hk]; [|apply Hok]. by destruct (Hno E k ino).
Qed.

(** ** Overwriting a slot *)

Definition good_entry (sd : sfs_direntry) : Prop :=
  0 <= sfd_ino sd < 2 ^ 32 /\ length (sfd_name sd) = 60%nat /\ Forall is_byte (sfd_name sd).
Lemma good_entry_bytes sd : good_entry sd -> length (direntry_bytes sd) = 64%nat /\ Forall is_byte (direntry_bytes sd).
Proof.
  intros (_ & Hl & Hy). unfold direntry_bytes. rewrite length_app, be_bytes_length, Hl, Forall_app.
  split; [done|]. split; [apply be_bytes_byte|done].
Qed.

(** The slot holds the entry, or, on an error only, everything is as before. *)
Definition written s (k : nat) sd (e : Z) s' : Prop :=
  bf_ok s' /\ bf_type s' = bf_type s /\ bf_size s' mod 64 = 0 /\ bf_step s s' /\
  (bf_reliable (S:=S) -> (e <> 0 -> entries s' = entries s) /\ (forall x, entries s !! k = Some x -> live x = true -> e = 0)) /\
  (set_slot (entries s) k sd (entries s') \/ e <> 0 /\ entries s' = entries s).

Lemma entries_same_size s s' : bf_size s' = bf_size s ->
  (forall k, Z.of_nat k < nslots s -> region (64 * Z.of_nat k) 64 (bf_bytes s') = region (64 * Z.of_nat k) 64 (bf_bytes s)) ->
  entries s' = entries s.
Proof.
  intros Hz Hr. assert (Hn : nslots s' = nslots s) by (unfold nslots; by rewrite Hz). apply list_eq. intros k.
  destruct (Z.lt_ge_cases (Z.of_nat k) (nslots s)).
  - rewrite !entries_lookup by lia. by rewrite Hr.
  - by rewrite !entries_None by lia.
Qed.

(** An entry that is live is not all zeros. *)
Lemma live_region l : live (direntry_of l) = true -> exists x, x ∈ l /\ x <> 0.
Proof.
  intros Hl. destruct (decide (Forall (eq 0) l)) as [Hz|Hnz].
  - exfalso. unfold live, direntry_of in Hl. cbn in Hl. apply negb_true_iff, Z.eqb_neq in Hl. apply Hl. clear Hl.
    assert (Ht : Forall (eq 0) (take 4 l)) by (by apply Forall_take). revert Ht. generalize (take 4 l). unfold be_val. intros l'. induction l' as [|y l' IH] using rev_ind; [done|].
    intros [H1 H2]%Forall_app. apply Forall_inv in H2. rewrite foldl_app. cbn. by rewrite (IH H1), <-H2.
  - apply not_Forall_Exists in Hnz; [|exact _]. apply Exists_exists in Hnz as (x & Hx & Hne). exists x. split; [done|]. congruence.
Qed.
Lemma writedir_spec s (k : nat) sd : dir_ok s -> Z.of_nat k <= nslots s -> good_entry sd ->
  wp (sfs_writedir (Z.of_nat k) sd) (written s k sd) s.
Proof.
  intros Hok Hk Hg. destruct (slot_position s k Hok Hk) as (E & Hp & Hf). destruct (good_entry_bytes sd Hg) as [Hl Hy].
  destruct (nslots_size s Hok) as (Hz & Hn0 & Hcap). destruct (bf_cap_blocks (S:=S)) as [_ Hcb].
  unfold sfs_writedir. rewrite wp_bind, wp_KASSERT. split; [apply Z.leb_le; lia|]. rewrite E. cbv zeta.
  eapply wp_mono; [|apply bf_write_spec; [apply Hok|done|by rewrite Hl|done]]. cbv beta.
  rewrite Hl. change (Z.of_nat 64) with 64. intros e s' (Hok' & Ht & Hb & Hsz & Hbig & Hstep & Hrel).
  destruct (bf_length s (do_file s Hok)) as (Hlen & _ & _).
  assert (Hz' : bf_size s' mod 64 = 0 /\ (bf_size s' = bf_size s \/ e = 0 /\ bf_size s' = 64 * Z.max (nslots s) (Z.of_nat k + 1))).
  { rewrite Hsz. destruct (Z.eqb_spec e 0); [|split; [apply Hok|by left]]. split; [|right; split; [done|lia]].
    rewrite Hz. replace (Z.max _ _) with (Z.max (nslots s) (Z.of_nat k + 1) * 64) by lia. apply Z.mod_mul. lia. }
  destruct Hz' as [Hm Hz']. split_and!; [done|done|done|done| |].
  { intros R. destruct (Hrel R) as [Hsame Hover]. split.
    - intros He. apply entries_same_size; [by destruct Hz' as [|[]]|intros j Hj; by rewrite Hsame].
    - intros x Hx Hlive. apply Hover. apply live_region. rewrite entries_lookup in Hx by (by eapply entries_bound). by injection Hx as ->. }
  destruct (Z.lt_ge_cases (64 * Z.of_nat k) (bf_cap (S:=S))) as [Hlt|Hge].
  2:{ destruct (Hbig Hge) as [He Hbb]. right. split; [done|]. apply entries_same_size; [|by rewrite Hbb]. destruct Hz' as [|[]]; done. }
  assert (Hroom : 64 * Z.of_nat k + 64 <= bf_cap (S:=S)).
  { pose proof (Z.div_mod (bf_cap (S:=S)) 512). lia. }
  destruct Hb as [Hb|[He Hb]].
  2:{ right. split; [done|]. apply entries_same_size; [by destruct Hz' as [|[]]|by rewrite Hb]. }
  assert (Hat : direntry_of (region (64 * Z.of_nat k) 64 (bf_bytes s')) = sd).
  { rewrite Hb. pose proof (region_update_same (64 * Z.of_nat k) (direntry_bytes sd) (bf_bytes s)) as Hr. rewrite Hl in Hr.
    change (Z.of_nat 64) with 64 in Hr. rewrite Hr by lia. apply direntry_roundtrip, Hg. }
  assert (Hother : forall j : nat, j <> k -> region (64 * Z.of_nat j) 64 (bf_bytes s') = region (64 * Z.of_nat j) 64 (bf_bytes s)).
  { intros j Hj. rewrite Hb. apply region_update_other; rewrite ?Hl; lia. }
  destruct (Z.eq_dec (bf_size s') (bf_size s)) as [Hsame|Hgrow].
  - destruct (Z.lt_ge_cases (Z.of_nat k) (nslots s)) as [Hin|Hend].
    + assert (Hn : nslots s' = nslots s) by (unfold nslots; by rewrite Hsame). left. split.
      * rewrite entries_lookup by lia. by rewrite Hat.
      * intros j Hj. destruct (Z.lt_ge_cases (Z.of_nat j) (nslots s)); [|by rewrite !entries_None by lia].
        rewrite !entries_lookup by lia. by rewrite Hother.
    + right. split; [|apply entries_same_size; [done|intros j Hj; apply Hother; lia]].
      intros ->. rewrite Hsz in Hsame. cbn in Hsame. lia.
  - destruct Hz' as [|[-> Hz']]; [done|]. assert (Hn : nslots s' = nslots s + 1 /\ Z.of_nat k = nslots s).
    { unfold nslots at 1. rewrite Hz', Z.mul_comm, Z.div_mul by lia. lia. }
    destruct Hn as [Hn Hkn]. left. split.
    + rewrite entries_lookup by lia. by rewrite Hat.
    + intros j Hj. destruct (Z.lt_ge_cases (Z.of_nat j) (nslots s)); [|by rewrite !entries_None by lia].
      rewrite !entries_lookup by lia. by rewrite Hother.
Qed.

Lemma cstring_app name l : Forall (fun c => c <> 0) name -> cstring (name ++ 0 :: l) = name.
Proof. induction 1 as [|c name Hc _ IH]; cbn; [done|]. destruct (Z.eqb_spec c 0); [done|]. by rewrite IH. Qed.

(** The entry [sfs_dir_link] writes. *)
Definition new_entry name (ino : Z) : sfs_direntry :=
  Direntry ino (name ++ replicate (Z.to_nat SFS_NAMELEN - length name) 0).
Lemma new_entry_ok name ino : Forall (fun c => 0 < c < 256) name -> (length name < 60)%nat -> 0 < ino < 2 ^ 32 ->
  good_entry (new_entry name ino) /\ entry_name (new_entry name ino) = name /\ live (new_entry name ino) = true.
Proof.
  intros Hn Hl Hi. assert (Hrep : name ++ replicate (60 - length name) 0 = name ++ 0 :: replicate (59 - length name) 0).
  { replace (60 - length name)%nat with (Datatypes.S (59 - length name)) by lia. done. }
  unfold new_entry. change (Z.to_nat SFS_NAMELEN) with 60%nat. split_and!.
  - split; [cbn; lia|split; [cbn [sfd_name]; rewrite length_app, length_replicate; lia|]]. cbn [sfd_name]. rewrite Forall_app. split.
    + eapply Forall_impl; [exact Hn|]. cbv beta. unfold is_byte. lia.
    + by apply Forall_replicate.
  - unfold entry_name. cbn [sfd_name]. rewrite list_insert_id.
    + rewrite Hrep. apply cstring_app. eapply Forall_impl; [exact Hn|]. cbv beta. lia.
    + rewrite lookup_app_r by lia. apply lookup_replicate_2. lia.
  - unfold live. cbn. destruct (Z.eqb_spec ino 0); [lia|done].
Qed.

(** [written] on the abstract directory. *)
Lemma written_add s k sd e s' : dir_ok s -> written s k sd e s' -> live sd = true ->
  (forall x, entries s !! k = Some x -> live x = false) -> dir_map (entries s) !! entry_name sd = None ->
  dir_ok s' /\ (e = 0 -> entries s' !! k = Some sd) /\
  (dir_map (entries s') = <[entry_name sd := sfd_ino sd]> (dir_map (entries s)) \/
   e <> 0 /\ dir_map (entries s') = dir_map (entries s)).
Proof.
  intros Hok (Hok' & Ht & Hm & _ & _ & Hw) Hl Hf Hn. destruct Hw as [Hw|[He Hw]].
  - destruct (dir_map_add _ _ _ _ (do_unique s Hok) Hw Hl Hf Hn) as [Hu Hd].
    split_and!; [split; [done|rewrite Ht; apply Hok|done|done]|intros _; apply Hw|by left].
  - split_and!; [split; [done|rewrite Ht; apply Hok|done|rewrite Hw; apply Hok]|done|right]. by rewrite Hw.
Qed.

Lemma link_spec s name ino : dir_ok s -> Forall (fun c => 0 < c < 256) name -> 0 < ino < 2 ^ 32 ->
  wp (sfs_dir_link name ino) (fun r s' => bf_step s s' /\ (bf_reliable (S:=S) -> r.1 <> 0 -> entries s' = entries s) /\
    (forall j n i, names (entries s) j n i -> names (entries s') j n i) /\ dir_ok s' /\
    (r.1 = 0 -> dir_map (entries s) !! name = None /\ (length name < 60)%nat /\
      dir_map (entries s') = <[name := ino]> (dir_map (entries s)) /\
      exists k : nat, r.2 = Some (Z.of_nat k) /\ names (entries s') k name ino) /\
    (r.1 <> 0 -> dir_map (entries s') = dir_map (entries s) \/
      dir_map (entries s) !! name = None /\ dir_map (entries s') = <[name := ino]> (dir_map (entries s)))) s.
Proof.
  intros Hok Hname Hino. unfold sfs_dir_link. rewrite wp_bind. eapply wp_mono; [|by apply findname_spec]. cbv beta.
  intros [[e found] empty] s1 (Hs1 & Hem & H0 & Hno); cbn [fst snd] in *.
  assert (Hes := same_entries s s1 Hs1). assert (Hok1 := same_dir s s1 Hok Hs1).
  assert (Hstep1 : bf_step s s1) by apply Hs1.
  assert (Hstay : forall e', e' <> 0 -> bf_step s s1 /\ (bf_reliable (S:=S) -> e' <> 0 -> entries s1 = entries s) /\
    (forall j n i, names (entries s) j n i -> names (entries s1) j n i) /\ dir_ok s1 /\
    (e' = 0 -> dir_map (entries s) !! name = None /\ (length name < 60)%nat /\
      dir_map (entries s1) = <[name := ino]> (dir_map (entries s)) /\
      exists k : nat, @None Z = Some (Z.of_nat k) /\ names (entries s1) k name ino) /\
    (e' <> 0 -> dir_map (entries s1) = dir_map (entries s) \/
      dir_map (entries s) !! name = None /\ dir_map (entries s1) = <[name := ino]> (dir_map (entries s)))).
  { intros e' He'. split; [done|]. split; [done|]. split; [by rewrite Hes|]. split; [done|]. split; [done|]. intros _. left. by rewrite Hes. }
  destruct (Z.eqb_spec e 0) as [->|He0]; cbn [negb andb]; [wp_simpl; by apply Hstay|].
  destruct (Z.eqb_spec e ENOENT) as [->|HeN]; cbn [negb andb]; [|wp_simpl; by apply Hstay].
  cbn [Z.eqb ENOENT]. specialize (Hno eq_refl).
  destruct (Z.ltb_spec SFS_NAMELEN (Z.of_nat (length name) + 1)) as [|Hlen]; [wp_simpl; by apply Hstay|]. unfold SFS_NAMELEN in Hlen.
  assert (Hslot : exists k : nat, Z.of_nat k <= nslots s1 /\ (forall x, entries s1 !! k = Some x -> live x = false) /\
    match empty with Some i => mret i | None => sfs_dir_nentries end s1 = Ret (Z.of_nat k) s1).
  { destruct empty as [i|].
    - destruct Hem as (k & x & -> & Hx & Hl). exists k. rewrite Hes. split_and!; [|intros x' Hx'; congruence|done].
      rewrite <-Hes in Hx. apply entries_bound in Hx. lia.
    - exists (Z.to_nat (nslots s1)). destruct (nslots_size s1 Hok1) as (_ & Hn & _).
      split_and!; [lia| |rewrite Z2Nat.id by lia; by apply nentries_eq]. intros x Hx. apply entries_bound in Hx. lia. }
  destruct Hslot as (k & Hk & Hfree & Heq). rewrite wp_bind. erewrite wp_eq by exact Heq. cbv zeta.
  fold (new_entry name ino). destruct (new_entry_ok name ino Hname ltac:(lia) Hino) as (Hg & Hnm & Hlv).
  rewrite wp_bind. eapply wp_mono; [|by apply writedir_spec]. cbv beta. intros e s2 Hw.
  assert (Hnone : dir_map (entries s1) !! entry_name (new_entry name ino) = None).
  { rewrite Hes, Hnm. apply dir_map_None; [apply Hok|done]. }
  destruct (written_add s1 k _ e s2 Hok1 Hw Hlv Hfree Hnone) as (Hok2 & Hat & Hmap).
  rewrite Hes, Hnm in Hmap. rewrite Hes, Hnm in Hnone. change (sfd_ino (new_entry name ino)) with ino in Hmap.
  rewrite wp_ret. cbn [fst snd]. split; [transitivity s1; [done|apply Hw]|]. split; [intros R He; rewrite <-Hes; by apply Hw|]. split; [|split; [done|split]].
  - intros j n i. rewrite <-Hes. destruct Hw as (_ & _ & _ & _ & _ & [Hset|[_ ->]]); [|done]. intros Hj. apply (names_other _ _ _ _ _ _ _ Hset); [|done].
    intros ->. destruct Hj as (x & Hx & Hl & _). by rewrite (Hfree x Hx) in Hl.
  - intros ->. destruct Hmap as [Hmap|[]]; [|done]. split_and!; [done|lia|done|]. exists k. split; [done|].
    exists (new_entry name ino). by split_and!; [apply Hat|..].
  - intros _. destruct Hmap as [|[]]; [by right|by left].
Qed.

(** A name that is there, or too long, is refused as such. *)
Lemma link_refused s name ino : bf_reliable (S:=S) -> dir_ok s ->
  wlp (sfs_dir_link name ino) (fun r _ => (is_Some (dir_map (entries s) !! name) -> r.1 = EEXIST) /\
    (dir_map (entries s) !! name = None -> (60 <= length name)%nat -> r.1 = ENAMETOOLONG)) s.
Proof.
  intros R Hok. unfold sfs_dir_link. rewrite wlp_bind. eapply wlp_mono; [|apply wp_wlp, findname_decides; done]. cbv beta.
  intros [[e found] empty] s1 (_ & Hno & Hyes); cbn [fst snd] in *. destruct (dir_map (entries s) !! name) as [i|].
  - rewrite Hyes by by eexists. cbn [Z.eqb negb andb]. rewrite wlp_ret. split; [done|]. done.
  - rewrite Hno by done. change (ENOENT =? 0) with false. change (ENOENT =? ENOENT) with true. cbn [negb andb]. unfold SFS_NAMELEN.
    destruct (Z.ltb_spec 60 (Z.of_nat (length name) + 1)) as [|Hl]; [by rewrite wlp_ret; split; [intros []|]|].
    eapply wlp_mono; [|apply wlp_true]. intros r s' _. split; [by intros []|lia].
Qed.

Lemma unlink_spec s (k : nat) name ino : dir_ok s -> names (entries s) k name ino ->
  wp (sfs_dir_unlink (Z.of_nat k)) (fun e s' => bf_step s s' /\ (bf_reliable (S:=S) -> e = 0) /\ dir_ok s' /\
    (dir_map (entries s') = delete name (dir_map (entries s)) \/ e <> 0 /\ dir_map (entries s') = dir_map (entries s))) s.
Proof.
  intros Hok Hk. assert (Hb : Z.of_nat k < nslots s) by (destruct Hk as (x & Hx & _); by eapply entries_bound).
  unfold sfs_dir_unlink. eapply wp_mono; [|apply (writedir_spec s k); [done|lia|]].
  2:{ split_and!; [done|done|done|]. by apply Forall_replicate. }
  cbv beta. intros e s' (Hok' & Ht & Hm & Hst & Hrel & Hw). split; [done|]. split.
  { intros R. destruct Hk as (x & Hx & Hl & _). by apply (proj2 (Hrel R) x). }
  destruct Hw as [Hw|[He Hw]].
  - destruct (dir_map_clear _ _ _ _ _ _ (do_unique s Hok) Hw eq_refl Hk) as [Hu Hd].
    split; [split; [done|rewrite Ht; apply Hok|done|done]|by left].
  - split; [split; [done|rewrite Ht; apply Hok|done|rewrite Hw; apply Hok]|right]. by rewrite Hw.
Qed.
End dir.

(** ** The block layer is such a file *)

Section sfs_file.
Context {B D : Type} {FM : FreeMap B} {DK : Disk D}.
Implicit Types s : sfs B D.

Lemma file_bytes_ok s : wf s -> Z.of_nat (length (file_bytes s)) = max_size /\ Forall is_byte (file_bytes s).
Proof.
  intros Hw. unfold file_bytes. split.
  - rewrite (concat_length 512) by apply contents_uniform. unfold contents, max_size. rewrite length_fmap, (refs_length s Hw), Nat2Z.inj_mul. lia.
  - apply Forall_concat, Forall_fmap, Forall_true. intros b. apply block_data_bytes.
Qed.

#[export, refine] Instance sfs_bytefile : ByteFile (sfs B D) := {|
  bf_cap := max_size;
  bf_read pos len := sfs_metaio pos [] len UIO_READ;
  bf_write pos data := '(result, _) ← sfs_metaio pos data (Z.of_nat (length data)) UIO_WRITE; mret result;
  bf_type s := sfi_type (sv_i s); bf_size s := sfi_size (sv_i s); bf_bytes := file_bytes;
  bf_ok s := wf s /\ 0 <= sfi_size (sv_i s) <= max_size;
  bf_step s s' := (forall b, foreign s b -> foreign s' b /\ blk s' b = blk s b) /\ touch s s'; bf_reliable := reliable D |}.
Proof.
  - split; [intros s; by split|]. intros s1 s2 s3 [A1 A2] [B1 B2]. split; [|by transitivity s2].
    intros b Hb. destruct (A1 b Hb) as [Hb2 <-]. by apply B1.
  - done.
  - intros s [Hw Hz]. destruct (file_bytes_ok s Hw). done.
  - intros s pos len [Hw Hz] Hp Hl Hf. eapply wp_mono; [|apply (keeps_wp touch); [reflexivity|intros ?; apply metaio_touch|apply metaio_read; [done|lia|done|done]]]. cbv beta.
    intros r s' [(Hs & Hr & _ & Hne) Ht]. destruct (same_refs s s' Hw Hs) as [_ Hc].
    assert (Hw' : wf s') by apply (same_extends s s' Hw Hs). assert (Hi : sv_i s' = sv_i s) by (by destruct Hs as (d & -> & _)).
    rewrite Hi. unfold file_bytes in *. rewrite Hc. assert (Hfr := ex_foreign _ _ (same_extends s s' Hw Hs)). done.
  - intros s pos len R [Hw _] Hp _ _. by apply metaio_reads.
  - intros s pos data [Hw Hz] Hp Hf Hy. pose proof (Z.mod_pos_bound pos 512 eq_refl). rewrite wp_bind.
    eapply wp_mono; [|apply (wp_cond (reliable D)); [apply (keeps_wp touch); [reflexivity|intros ?; apply metaio_touch|apply metaio_write; [done|lia|lia|done|done]]|]].
    2:{ intros R. apply (metaio_reliable R); (done || lia). }
    cbv beta. intros [e l] s' [[((Hw' & Hfr & Hb & Hs & Ht) & Hbig) Htouch] Hrel]; cbn [fst] in *. rewrite wp_ret.
    destruct (file_bytes_ok s Hw) as [Hlen _]. destruct (file_bytes_ok s' Hw') as [Hlen' _].
    assert (Hroom : pos < max_size -> pos + Z.of_nat (length data) <= max_size).
    { unfold max_size. intros. pose proof (Z.div_mod pos 512). lia. }
    assert (Hsmall : e = 0 -> pos < max_size) by (intros ->; destruct (Z.lt_ge_cases pos max_size) as [|Hge]; [done|by apply Hbig in Hge]).
    split_and!; [done|rewrite Hs; destruct (Z.eqb_spec e 0); lia|rewrite Hs; destruct (Z.eqb_spec e 0); [|lia]; specialize (Hsmall ltac:(done)); lia|done|done|done| |done|done|].
    2:{ intros R. destruct (Hrel R) as [Hsame Hover]. split; [done|]. intros (x & Hx & Hx0). apply Hover.
        destruct (lookup_lt_is_Some_2 (refs s) (Z.to_nat (pos / 512))) as [b Hb'].
        { rewrite (refs_length s Hw). destruct (Z.lt_ge_cases pos max_size); [pose proof (Z.div_lt_upper_bound pos 512 143); unfold max_size in *; lia|].
          exfalso. unfold region in Hx. rewrite drop_ge in Hx by lia. rewrite take_nil in Hx. by apply elem_of_nil in Hx. }
        exists b. split; [done|]. intros ->. apply Hx0. clear Hx0. pose proof (contents_lookup s _ 0 Hb') as Hc.
        pose proof (region_concat 512 (contents s) (contents_uniform s) _ _ (pos mod 512) (Z.of_nat (length data)) Hc) as Hr.
        replace (Z.of_nat 512 * Z.of_nat (Z.to_nat (pos / 512)) + pos mod 512) with pos in Hr by (pose proof (Z.div_mod pos 512); pose proof (Z.div_pos pos 512); lia).
        unfold file_bytes in Hx. rewrite Hr in Hx by lia. apply subseteq_take, subseteq_drop in Hx.
        by apply elem_of_replicate in Hx as [-> _]. }
    intros Hge. rewrite (Hbig Hge). split; [done|]. destruct Hb as [Hb|[_ ?]]; [|done]. rewrite Hb.
    assert (Hd : length data = O).
    { rewrite Hb in Hlen'. unfold update in Hlen'. rewrite !length_app, length_take, length_drop in Hlen'. lia. }
    apply nil_length_inv in Hd as ->. unfold update. cbn [app]. rewrite Nat.add_0_r. apply take_drop.
Defined.
End sfs_file.

(** C14. A directory is a map from names to inode numbers.  [sfs_dir_findname] answers 0 with
    the inode number and the slot of the name, or [ENOENT] when the map has no such name,
    and changes nothing.  [sfs_dir_link] enters a name that is new and shorter than 60
    bytes, in a free slot or a new one; otherwise it answers an error.  [sfs_dir_unlink] of
    the slot removes the name.  When a transfer fails the change has happened or it has not.
    Names stay unique, so the assertion that a name occurs once never fails. *)
Theorem directory_is_map {S} `{ByteFile S} (s : S) (name : list Z) : dir_ok s -> Forall (fun c => 0 < c < 256) name ->
  wp (sfs_dir_findname name) (fun r s' => same_file s s' /\
    (r.1.1 = 0 -> exists (k : nat) ino, r.1.2 = Some (Z.of_nat k, ino) /\ names (entries s) k name ino /\
      dir_map (entries s) !! name = Some ino) /\
    (r.1.1 = ENOENT -> dir_map (entries s) !! name = None)) s /\
  (forall ino, 0 < ino < 2 ^ 32 -> wp (sfs_dir_link name ino) (fun r s' => dir_ok s' /\
    (r.1 = 0 -> dir_map (entries s) !! name = None /\ (length name < 60)%nat /\
      dir_map (entries s') = <[name := ino]> (dir_map (entries s)) /\
      exists k : nat, r.2 = Some (Z.of_nat k) /\ names (entries s') k name ino) /\
    (r.1 <> 0 -> dir_map (entries s') = dir_map (entries s) \/
      dir_map (entries s) !! name = None /\ dir_map (entries s') = <[name := ino]> (dir_map (entries s)))) s) /\
  (forall (k : nat) ino, names (entries s) k name ino -> wp (sfs_dir_unlink (Z.of_nat k)) (fun e s' => dir_ok s' /\
    (dir_map (entries s') = delete name (dir_map (entries s)) \/ e <> 0 /\ dir_map (entries s') = dir_map (entries s))) s).
Proof.
  intros Hok Hname. split_and!.
  - eapply wp_mono; [|by apply findname_spec]. cbv beta. intros r s' (Hs & _ & H0 & Hno). split_and!; [done| |].
    + intros E. destruct (H0 E) as (k & ino & Ef & Hk). exists k, ino. split_and!; [done|done|].
      apply dir_map_lookup; [apply Hok|by exists k].
    + intros E. apply dir_map_None; [apply Hok|by apply Hno].
  - intros ino Hino. eapply wp_mono; [|by apply link_spec]. cbv beta. by intros r s' (_ & _ & _ & Hl).
  - intros k ino Hk. eapply wp_mono; [|by eapply unlink_spec]. cbv beta. by intros e s' (_ & _ & Hu).
Qed.

(** ** A directory on the small disk *)

Module Sfsdir_sample.
Import Sfs_sample.
#[local] Existing Instance ram_is_disk.

(** An empty directory. *)
Definition empty_dir (fails : list bool) : sfs Bitmap.bitmap ram_disk :=
  Volume (Bitmap.MkBitmap 16 [0x2f; 0]) false 16 (fails, ∅) (Dinode 0 2 1 (<[0%nat := 5]> (replicate 15 0)) 0) false.
Lemma empty_dir_ok fails : dir_ok (empty_dir fails).
Proof.
  split; [|done|done|].
  - split; [|done]. destruct (small_wf fails) as [[] ? ?]. by split.
  - intros i j n x y (e & He & _). apply entries_bound in He. change (nslots (empty_dir fails)) with 0 in He. lia.
Qed.

(** "ls" is linked while the first transfer fails and is tried again; a second link of the
    name is refused. *)
Definition ls : list Z := [108; 115].
Definition link_twice : K (sfs Bitmap.bitmap ram_disk) (Z * Z * option (Z * Z)) :=
  r1 ← sfs_dir_link ls 7; r2 ← sfs_dir_link ls 8; r3 ← sfs_dir_findname ls; mret (r1.1, r2.1, r3.1.2).
Example link_twice_runs : match link_twice (empty_dir [true]) with Ret r _ => r = (0, EEXIST, Some (0, 7)) | _ => False end.
Proof. vm_compute. reflexivity. Qed.

Lemma directory_is_map_witness :
  wp (sfs_dir_link ls 7) (fun r s' => dir_ok s' /\ r.1 = 0 /\ dir_map (entries s') !! ls = Some 7) (empty_dir [true]).
Proof.
  assert (Hls : Forall (fun c => 0 < c < 256) ls) by (unfold ls; forall_list; lia).
  destruct (directory_is_map (empty_dir [true]) ls (empty_dir_ok _) Hls) as (_ & Hl & _).
  specialize (Hl 7 ltac:(lia)). unfold wp in *.
  destruct (sfs_dir_link ls 7 (empty_dir [true])) as [r s'| | |] eqn:E; [|done..].
  assert (Hr : match sfs_dir_link ls 7 (empty_dir [true]) with Ret r _ => r.1 = 0 | _ => False end) by (vm_compute; reflexivity).
  rewrite E in Hr. destruct Hl as (Hd & H0 & _). destruct (H0 Hr) as (_ & _ & Hm & _).
  split_and!; [done|done|]. rewrite Hm. by rewrite lookup_insert_eq.
Defined.
End Sfsdir_sample.
