(* ===== verification/Sfsvnode.v ===== *)
(** * SFS: inodes in memory, vnode operations, mounting
    ([kern/fs/sfs/sfs_inode.c], [sfs_vnops.c], [sfs_fsops.c], [sfs_lookonce] of [sfs_dir.c])

    A mounted volume: its bitmap, superblock and device, and the vnodes in memory, each with its
    copy of an inode.  The operations inside one file are those of [Sfs] and [Sfsdir], run on the
    volume seen through one vnode ([file_lens]).  Every function runs under the file systems' global
    lock and is one step; [VOP_DECREF] calls [sfs_reclaim] with the last reference.

    A volume is consistent ([fs_ok]) when a checker would find no fault in it: every inode that a name
    or a vnode refers to is a well-formed file, no block belongs to two files, link counts
    count names, and what is not marked dirty is on the disk.  Here are the lemmas on single
    steps; [Sfsops] and [Sfsmount] put them together. *)
From S2P Require Import Prelude Bitmap Sfs Sfskeep Sfsdir.
Import Sfs.Sfs Sfsdir.

Module Sfsvnode.
Definition SFS_ROOTDIR_INO : Z := 1.
Definition SFS_SUPER_BLOCK : Z := 0.
Definition SFS_FREEMAP_START : Z := 2.
Definition SFS_MAGIC : Z := 0xabadf001.
Definition SFS_TYPE_INVAL : Z := 0.
Definition SFS_TYPE_FILE : Z := 1.
Definition SFS_BITSPERBLOCK : Z := 4096.
Definition S_IFDIR : Z := 0x2000.
Definition S_IFREG : Z := 0x1000.
Definition O_ACCMODE : Z := 3.
Definition O_APPEND : Z := 32.

(** ** Structures on the disk

    The unused end of an inode is kept apart from the rest ([Sfs.dinode]). *)

Definition sfs_dinode_bytes (i : dinode) (waste : list Z) : list Z :=
  be_bytes 4 (sfi_size i) ++ be_bytes 2 (sfi_type i) ++ be_bytes 2 (sfi_linkcount i) ++
  concat (be_bytes 4 <$> sfi_direct i) ++ be_bytes 4 (sfi_indirect i) ++ waste.
Definition sfs_dinode_of (l : list Z) : dinode :=
  Dinode (be_val (take 4 l)) (be_val (take 2 (drop 4 l))) (be_val (take 2 (drop 6 l)))
    ((fun j => word_of l (2 + j)) <$> seqZ 0 SFS_NDIRECT) (word_of l 17).
Definition sfs_waste_of (l : list Z) : list Z := drop 72 l.

(** [sb_count] is [sb_nblocks]. *)
Record sfs_superblock := Superblock { sb_magic : Z; sb_count : Z; sb_volname : list Z; sb_reserved : list Z }.
Definition sfs_superblock_bytes (b : sfs_superblock) : list Z :=
  be_bytes 4 (sb_magic b) ++ be_bytes 4 (sb_count b) ++ sb_volname b ++ sb_reserved b.
Definition sfs_superblock_of (l : list Z) : sfs_superblock :=
  Superblock (word_of l 0) (word_of l 1) (take 32 (drop 8 l)) (drop 40 l).

(** ** The state

    [sv_inode] with [sv_waste] is [sv_i], [sv_modified] is [sv_dirty].  [vnodes]: the vnodes in
    memory; [memory]: whether the allocations to come succeed, and afterwards all do. *)

Record sfs_vnode := Sv { sv_ino : Z; sv_inode : dinode; sv_waste : list Z; sv_modified : bool; vn_refcount : Z }.
Record sfs_fs (B D : Type) := SfsFs {
  sfs_freemap : B; sfs_freemapdirty : bool; sfs_sb : sfs_superblock; sfs_superdirty : bool; sfs_device : D;
  sfs_vnodes : list Z; vnodes : gmap Z sfs_vnode; memory : list bool }.
Arguments SfsFs {B D} _ _ _ _ _ _ _ _.
Arguments sfs_freemap {B D} _.
Arguments sfs_freemapdirty {B D} _.
Arguments sfs_sb {B D} _.
Arguments sfs_superdirty {B D} _.
Arguments sfs_device {B D} _.
Arguments sfs_vnodes {B D} _.
Arguments vnodes {B D} _.
Arguments memory {B D} _.

Definition set_refcount (n : Z) (x : sfs_vnode) : sfs_vnode := Sv (sv_ino x) (sv_inode x) (sv_waste x) (sv_modified x) n.
Definition set_modified (b : bool) (x : sfs_vnode) : sfs_vnode := Sv (sv_ino x) (sv_inode x) (sv_waste x) b (vn_refcount x).
Definition set_file (i : dinode) (b : bool) (x : sfs_vnode) : sfs_vnode := Sv (sv_ino x) i (sv_waste x) b (vn_refcount x).
Definition set_linkcount (n : Z) (i : dinode) : dinode := Dinode (sfi_size i) (sfi_type i) n (sfi_direct i) (sfi_indirect i).
Definition set_type (n : Z) (i : dinode) : dinode := Dinode (sfi_size i) n (sfi_linkcount i) (sfi_direct i) (sfi_indirect i).

Section ops.
Context {B D : Type} {FM : FreeMap B} {DK : Disk D}.
Notation fs := (sfs_fs B D).
Implicit Types s : fs.

Definition set_vnodes (m : gmap Z sfs_vnode) s : fs :=
  SfsFs (sfs_freemap s) (sfs_freemapdirty s) (sfs_sb s) (sfs_superdirty s) (sfs_device s) (sfs_vnodes s) m (memory s).
Definition set_table (l : list Z) s : fs :=
  SfsFs (sfs_freemap s) (sfs_freemapdirty s) (sfs_sb s) (sfs_superdirty s) (sfs_device s) l (vnodes s) (memory s).
Definition set_memory (l : list bool) s : fs :=
  SfsFs (sfs_freemap s) (sfs_freemapdirty s) (sfs_sb s) (sfs_superdirty s) (sfs_device s) (sfs_vnodes s) (vnodes s) l.

(** The volume with an inode, as [Sfs] sees it, and what a step of it does here. *)
Definition vol (i : dinode) (dirty : bool) s : Sfs.sfs B D :=
  Volume (sfs_freemap s) (sfs_freemapdirty s) (sb_count (sfs_sb s)) (sfs_device s) i dirty.
Definition put_vol (t : Sfs.sfs B D) s : fs :=
  SfsFs (freemap t) (freemapdirty t) (sfs_sb s) (sfs_superdirty s) (device t) (sfs_vnodes s) (vnodes s) (memory s).
Definition no_inode : dinode := Dinode 0 SFS_TYPE_INVAL 0 (replicate 15 0) 0.
Definition volume_lens : lens fs (Sfs.sfs B D) := Lens (vol no_inode false) put_vol.
Definition file_view (v : Z) s : Sfs.sfs B D :=
  match vnodes s !! v with Some x => vol (sv_inode x) (sv_modified x) s | None => vol no_inode false s end.
Definition file_put (v : Z) (t : Sfs.sfs B D) s : fs := set_vnodes (alter (set_file (sv_i t) (sv_dirty t)) v (vnodes s)) (put_vol t s).
Definition file_lens (v : Z) : lens fs (Sfs.sfs B D) := Lens (file_view v) (file_put v).

Definition on_volume {A} (m : K (Sfs.sfs B D) A) : K fs A := zoom volume_lens m.
Definition sv_of (v : Z) : K fs sfs_vnode := s ← get; deref (vnodes s !! v) "sv".
Definition on_file {A} (v : Z) (m : K (Sfs.sfs B D) A) : K fs A := _ ← sv_of v; zoom (file_lens v) m.
Definition update_sv (v : Z) (f : sfs_vnode -> sfs_vnode) : K fs () := x ← sv_of v; modify (fun s => set_vnodes (<[v := f x]> (vnodes s)) s).
(** [sfi_linkcount] changes by [n] (16 bits), and the inode is dirty. *)
Definition add_links (n : Z) (x : sfs_vnode) : sfs_vnode := set_file (set_linkcount (u16 (sfi_linkcount (sv_inode x) + n)) (sv_inode x)) true x.
Definition kmalloc : K fs bool := s ← get; put (set_memory (tail (memory s)) s);; mret (default true (head (memory s))).

(** ** Inodes in memory ([sfs_inode.c]) *)

Definition sfs_sync_inode (v : Z) : K fs Z :=
  x ← sv_of v;
  if sv_modified x then
    result ← on_volume (sfs_writeblock (sv_ino x) (sfs_dinode_bytes (sv_inode x) (sv_waste x)));
    if negb (result =? 0) then mret result else
    update_sv v (set_modified false);;
    mret 0
  else mret 0.
(** The index of the vnode in the table. *)
Fixpoint vnode_index (l : list Z) (i v : Z) : option Z :=
  match l with [] => None | v2 :: l => if v2 =? v then Some i else vnode_index l (i + 1) v end.
Definition sfs_reclaim (v : Z) : K fs Z :=
  x ← sv_of v;
  if negb (vn_refcount x =? 1) then
    KASSERT (1 <? vn_refcount x) "v->vn_refcount>1";;
    update_sv v (set_refcount (vn_refcount x - 1));;
    mret EBUSY
  else
  result ← (if sfi_linkcount (sv_inode x) =? 0 then on_file v (sfs_itrunc 0) else mret 0);
  if negb (result =? 0) then mret result else
  result ← sfs_sync_inode v;
  if negb (result =? 0) then mret result else
  x ← sv_of v;
  (if sfi_linkcount (sv_inode x) =? 0 then on_volume (sfs_bfree (sv_ino x)) else mret tt);;
  s ← get;
  match vnode_index (sfs_vnodes s) 0 v with
  | None => panic "sfs: reclaim vnode not in vnode pool"
  | Some ix =>
      modify (fun s => set_table (delete (Z.to_nat ix) (sfs_vnodes s)) s);;
      KASSERT (vn_refcount x =? 1) "vn->vn_refcount == 1";;
      modify (fun s => set_vnodes (delete v (vnodes s)) s);;
      mret 0
  end.
Definition VOP_INCREF (v : Z) : K fs () := update_sv v (fun x => set_refcount (vn_refcount x + 1) x).
(** [vnode_decref]; a failure of [sfs_reclaim] is only printed. *)
Definition VOP_DECREF (v : Z) : K fs () :=
  x ← sv_of v;
  KASSERT (0 <? vn_refcount x) "vn->vn_refcount > 0";;
  if 1 <? vn_refcount x then update_sv v (set_refcount (vn_refcount x - 1)) else _ ← sfs_reclaim v; mret tt.

(** The search of [sfs_loadvnode]. *)
Fixpoint find_loop (l : list Z) (ino : Z) : K fs (option Z) :=
  match l with
  | [] => mret None
  | v :: l =>
      x ← sv_of v;
      used ← on_volume (sfs_bused (sv_ino x));
      if used =? 0 then panic "sfs: Found inode in unallocated block" else
      if sv_ino x =? ino then mret (Some v) else find_loop l ino
  end.
(** Error code and [*ret]. *)
Definition sfs_loadvnode (ino forcetype : Z) : K fs (Z * option Z) :=
  s ← get;
  found ← find_loop (sfs_vnodes s) ino;
  match found with
  | Some v =>
      KASSERT (forcetype =? SFS_TYPE_INVAL) "forcetype==SFS_TYPE_INVAL";;
      VOP_INCREF v;;
      mret (0, Some v)
  | None =>
      room ← kmalloc;
      if negb room then mret (ENOMEM, None) else
      used ← on_volume (sfs_bused ino);
      if used =? 0 then panic "sfs: Tried to load inode from unallocated block" else
      '(result, data) ← on_volume (sfs_readblock ino);
      if negb (result =? 0) then mret (result, None) else
      let i := sfs_dinode_of data in
      '(i, dirty) ←
        (if negb (forcetype =? SFS_TYPE_INVAL) then
           KASSERT (sfi_type i =? SFS_TYPE_INVAL) "sv->sv_i.sfi_type == SFS_TYPE_INVAL";;
           mret (set_type forcetype i, true)
         else mret (i, false) : K fs (dinode * bool));
      if negb ((sfi_type i =? SFS_TYPE_FILE) || (sfi_type i =? SFS_TYPE_DIR)) then panic "sfs: loadvnode: Invalid inode type" else
      room ← kmalloc;
      if negb room then mret (ENOMEM, None) else
      s ← get;
      let v := base.fresh (dom (vnodes s)) in
      put (set_table (sfs_vnodes s ++ [v]) (set_vnodes (<[v := Sv ino i (sfs_waste_of data) dirty 1]> (vnodes s)) s));;
      mret (0, Some v)
  end.
Definition sfs_makeobj (type : Z) : K fs (Z * option Z) :=
  '(result, ino) ← on_volume sfs_balloc;
  if negb (result =? 0) then mret (result, None) else
  '(result, v) ← sfs_loadvnode ino type;
  (if negb (result =? 0) then on_volume (sfs_bfree ino) else mret tt);;
  mret (result, v).
Definition sfs_getroot : K fs (Z * option Z) :=
  '(result, sv) ← sfs_loadvnode SFS_ROOTDIR_INO SFS_TYPE_INVAL;
  if negb (result =? 0) then mret (result, None) else
  v ← deref sv "sv";
  x ← sv_of v;
  if negb (sfi_type (sv_inode x) =? SFS_TYPE_DIR) then mret (EINVAL, None) else mret (0, Some v).

(** Error code, [*ret] and [*slot]. *)
Definition sfs_lookonce (v : Z) (name : list Z) : K fs (Z * option Z * Z) :=
  '(result, found, _) ← on_file v (sfs_dir_findname name);
  if negb (result =? 0) then mret (result, None, 0) else
  '(slot, ino) ← deref found "found";
  '(result, ret) ← sfs_loadvnode ino SFS_TYPE_INVAL;
  if negb (result =? 0) then mret (result, None, slot) else
  w ← deref ret "*ret";
  y ← sv_of w;
  if sfi_linkcount (sv_inode y) =? 0 then panic "sfs: name has linkcount 0" else
  mret (0, Some w, slot).

(** ** Vnode operations ([sfs_vnops.c]) *)

Definition sfs_eachopendir (openflags : Z) : Z :=
  if negb (Z.land openflags O_ACCMODE =? 0) then EISDIR else
  if negb (Z.land openflags O_APPEND =? 0) then EISDIR else 0.
Definition sfs_gettype (v : Z) : K fs (Z * Z) :=
  x ← sv_of v;
  if sfi_type (sv_inode x) =? SFS_TYPE_FILE then mret (0, S_IFREG) else
  if sfi_type (sv_inode x) =? SFS_TYPE_DIR then mret (0, S_IFDIR) else
  panic "sfs: gettype: Invalid inode type".
(** [st_mode], [st_size], [st_nlink]. *)
Definition sfs_stat (v : Z) : K fs (Z * (Z * Z * Z)) :=
  '(result, mode) ← sfs_gettype v;
  if negb (result =? 0) then mret (result, (0, 0, 0)) else
  x ← sv_of v;
  mret (0, (mode, sfi_size (sv_inode x), sfi_linkcount (sv_inode x))).
Definition sfs_fsync (v : Z) : K fs Z := sfs_sync_inode v.
Definition sfs_truncate (v len : Z) : K fs Z := on_file v (sfs_itrunc len).
Definition sfs_namefile (v : Z) : K fs Z := x ← sv_of v; KASSERT (sv_ino x =? SFS_ROOTDIR_INO) "sv->sv_ino == SFS_ROOTDIR_INO";; mret 0.

Definition sfs_creat (v : Z) (name : list Z) (excl : bool) : K fs (Z * option Z) :=
  '(result, found, _) ← on_file v (sfs_dir_findname name);
  if negb (result =? 0) && negb (result =? ENOENT) then mret (result, None) else
  if (result =? 0) && excl then mret (EEXIST, None) else
  if result =? 0 then
    '(_, ino) ← deref found "found";
    '(result, newguy) ← sfs_loadvnode ino SFS_TYPE_INVAL;
    if negb (result =? 0) then mret (result, None) else mret (0, newguy)
  else
  '(result, newguy) ← sfs_makeobj SFS_TYPE_FILE;
  if negb (result =? 0) then mret (result, None) else
  w ← deref newguy "newguy";
  y ← sv_of w;
  '(result, _) ← on_file v (sfs_dir_link name (sv_ino y));
  if negb (result =? 0) then VOP_DECREF w;; mret (result, None) else
  update_sv w (add_links 1);;
  mret (0, Some w).
Definition sfs_link (dir : Z) (name : list Z) (file : Z) : K fs Z :=
  f ← sv_of file;
  if sfi_type (sv_inode f) =? SFS_TYPE_DIR then mret EINVAL else
  '(result, _) ← on_file dir (sfs_dir_link name (sv_ino f));
  if negb (result =? 0) then mret result else
  update_sv file (add_links 1);;
  mret 0.
Definition sfs_remove (dir : Z) (name : list Z) : K fs Z :=
  '(result, victim, slot) ← sfs_lookonce dir name;
  if negb (result =? 0) then mret result else
  w ← deref victim "victim";
  result ← on_file dir (sfs_dir_unlink slot);
  (if result =? 0 then
     y ← sv_of w;
     KASSERT (0 <? sfi_linkcount (sv_inode y)) "victim->sv_i.sfi_linkcount > 0";;
     update_sv w (add_links (-1))
   else mret tt);;
  VOP_DECREF w;;
  mret result.
(** The error path [puke_harder]; the inode was marked dirty before. *)
Definition puke_harder (v g1 slot2 result : Z) : K fs Z :=
  result2 ← on_file v (sfs_dir_unlink slot2);
  if negb (result2 =? 0) then panic "sfs: rename: Cannot recover" else
  update_sv g1 (fun x => set_file (set_linkcount (u16 (sfi_linkcount (sv_inode x) - 1)) (sv_inode x)) (sv_modified x) x);;
  VOP_DECREF g1;;
  mret result.
Definition sfs_rename (d1 : Z) (n1 : list Z) (d2 : Z) (n2 : list Z) : K fs Z :=
  KASSERT (d1 =? d2) "d1==d2";;
  x ← sv_of d1;
  KASSERT (sv_ino x =? SFS_ROOTDIR_INO) "sv->sv_ino == SFS_ROOTDIR_INO";;
  '(result, g1, slot1) ← sfs_lookonce d1 n1;
  if negb (result =? 0) then mret result else
  g1 ← deref g1 "g1";
  y ← sv_of g1;
  KASSERT (sfi_type (sv_inode y) =? SFS_TYPE_FILE) "g1->sv_i.sfi_type == SFS_TYPE_FILE";;
  '(result, slot2) ← on_file d1 (sfs_dir_link n2 (sv_ino y));
  if negb (result =? 0) then VOP_DECREF g1;; mret result else
  update_sv g1 (add_links 1);;
  slot2 ← deref slot2 "slot2";
  result ← on_file d1 (sfs_dir_unlink slot1);
  if negb (result =? 0) then puke_harder d1 g1 slot2 result else
  y ← sv_of g1;
  KASSERT (0 <? sfi_linkcount (sv_inode y)) "g1->sv_i.sfi_linkcount>0";;
  update_sv g1 (add_links (-1));;
  VOP_DECREF g1;;
  mret 0.
(** Error code, [*ret] and [buf]. *)
Definition sfs_lookparent (v : Z) (path : list Z) (buflen : Z) : K fs (Z * option Z * list Z) :=
  x ← sv_of v;
  if negb (sfi_type (sv_inode x) =? SFS_TYPE_DIR) then mret (ENOTDIR, None, []) else
  if buflen <? Z.of_nat (length path) + 1 then mret (ENAMETOOLONG, None, []) else
  VOP_INCREF v;; mret (0, Some v, path).
Definition sfs_lookup (v : Z) (path : list Z) : K fs (Z * option Z) :=
  x ← sv_of v;
  if negb (sfi_type (sv_inode x) =? SFS_TYPE_DIR) then mret (ENOTDIR, None) else
  '(result, final, _) ← sfs_lookonce v path;
  if negb (result =? 0) then mret (result, None) else mret (0, final).

(** The tables [sfs_fileops] and [sfs_dirops] where they differ: an operation of directories
    or of files, and the answer of the other table. *)
Definition dirop {A} (v : Z) (m : K fs A) (other : A) : K fs A :=
  x ← sv_of v; if sfi_type (sv_inode x) =? SFS_TYPE_DIR then m else mret other.
Definition fileop {A} (v : Z) (m : K fs A) (other : A) : K fs A :=
  x ← sv_of v; if sfi_type (sv_inode x) =? SFS_TYPE_DIR then mret other else m.
End ops.

(** ** The volume ([sfs_fsops.c]), over the bitmap of [Bitmap] *)

Section volume.
Context {D : Type} {DK : Disk D}.
Notation fs := (sfs_fs Bitmap.bitmap D).
Implicit Types s : fs.

Definition set_sb (b : sfs_superblock) s : fs :=
  SfsFs (sfs_freemap s) (sfs_freemapdirty s) b (sfs_superdirty s) (sfs_device s) (sfs_vnodes s) (vnodes s) (memory s).
Definition set_freemap (m : Bitmap.bitmap) s : fs :=
  SfsFs m (sfs_freemapdirty s) (sfs_sb s) (sfs_superdirty s) (sfs_device s) (sfs_vnodes s) (vnodes s) (memory s).
Definition set_freemapdirty (b : bool) s : fs :=
  SfsFs (sfs_freemap s) b (sfs_sb s) (sfs_superdirty s) (sfs_device s) (sfs_vnodes s) (vnodes s) (memory s).
Definition set_superdirty (b : bool) s : fs :=
  SfsFs (sfs_freemap s) (sfs_freemapdirty s) (sfs_sb s) b (sfs_device s) (sfs_vnodes s) (vnodes s) (memory s).

Definition SFS_ROUNDUP (a b : Z) : Z := u32 (u32 (a + b - 1) / b * b).
Definition SFS_FREEMAPBITS (nblocks : Z) : Z := SFS_ROUNDUP nblocks SFS_BITSPERBLOCK.
Definition SFS_FREEMAPBLOCKS (nblocks : Z) : Z := SFS_FREEMAPBITS nblocks / SFS_BITSPERBLOCK.

(** The loop of [sfs_freemapio] from block [j] of the bitmap, [n] left. *)
Fixpoint freemapio_loop (n : nat) (j : Z) (dir : rw) : K fs Z :=
  match n with
  | O => mret 0
  | S n =>
      s ← get;
      let freemapdata := Bitmap.bitmap_getdata (sfs_freemap s) in
      result ←
        match dir with
        | UIO_READ =>
            '(result, data) ← on_volume (sfs_readblock (SFS_FREEMAP_START + j));
            (if result =? 0 then modify (set_freemap (Bitmap.MkBitmap (Bitmap.nbits (sfs_freemap s)) (update (j * SFS_BLOCKSIZE) data freemapdata)))
             else mret tt);;
            mret result
        | UIO_WRITE => on_volume (sfs_writeblock (SFS_FREEMAP_START + j) (region (j * SFS_BLOCKSIZE) SFS_BLOCKSIZE freemapdata))
        end;
      if negb (result =? 0) then mret result else freemapio_loop n (j + 1) dir
  end.
Definition sfs_freemapio (dir : rw) : K fs Z :=
  s ← get; freemapio_loop (Z.to_nat (SFS_FREEMAPBLOCKS (sb_count (sfs_sb s)))) 0 dir.

(** The errors of [VOP_FSYNC] are lost. *)
Fixpoint sync_loop (l : list Z) : K fs () :=
  match l with [] => mret tt | v :: l => _ ← sfs_fsync v; sync_loop l end.
Definition sfs_sync_vnodes : K fs Z := s ← get; sync_loop (sfs_vnodes s);; mret 0.
Definition sfs_sync_freemap : K fs Z :=
  s ← get;
  if sfs_freemapdirty s then
    result ← sfs_freemapio UIO_WRITE;
    if negb (result =? 0) then mret result else modify (set_freemapdirty false);; mret 0
  else mret 0.
Definition sfs_sync_superblock : K fs Z :=
  s ← get;
  if sfs_superdirty s then
    result ← on_volume (sfs_writeblock SFS_SUPER_BLOCK (sfs_superblock_bytes (sfs_sb s)));
    if negb (result =? 0) then mret result else modify (set_superdirty false);; mret 0
  else mret 0.
Definition sfs_sync : K fs Z :=
  result ← sfs_sync_vnodes;
  if negb (result =? 0) then mret result else
  result ← sfs_sync_freemap;
  if negb (result =? 0) then mret result else
  result ← sfs_sync_superblock;
  if negb (result =? 0) then mret result else mret 0.
Definition sfs_getvolname : K fs (list Z) := s ← get; mret (cstring (sb_volname (sfs_sb s))).
(** Afterwards the structure is gone. *)
Definition sfs_unmount : K fs Z :=
  s ← get;
  if 0 <? Z.of_nat (length (sfs_vnodes s)) then mret EBUSY else
  KASSERT (negb (sfs_superdirty s)) "sfs->sfs_superdirty == false";;
  KASSERT (negb (sfs_freemapdirty s)) "sfs->sfs_freemapdirty == false";;
  mret 0.

(** The structure that [sfs_domount] builds; the state has the device from the start. *)
Definition sfs_fs_create : K fs bool :=
  m1 ← kmalloc;
  if negb m1 then mret false else
  m2 ← kmalloc;
  if negb m2 then mret false else
  modify (fun s => SfsFs (sfs_freemap s) false (sfs_sb s) false (sfs_device s) [] ∅ (memory s));;
  mret true.
Definition terminate_volname (b : sfs_superblock) : sfs_superblock := Superblock (sb_magic b) (sb_count b) (<[31%nat := 0]> (sb_volname b)) (sb_reserved b).
(** A unit of state, for [bitmap_create]. *)
Definition unit_lens : lens fs () := Lens (fun _ => tt) (fun _ s => s).
Definition sfs_domount (d_blocksize : Z) : K fs Z :=
  if negb (d_blocksize =? SFS_BLOCKSIZE) then mret ENXIO else
  created ← sfs_fs_create;
  if negb created then mret ENOMEM else
  '(result, data) ← on_volume (sfs_readblock SFS_SUPER_BLOCK);
  if negb (result =? 0) then mret result else
  modify (set_sb (sfs_superblock_of data));;
  s ← get;
  if negb (sb_magic (sfs_sb s) =? SFS_MAGIC) then mret EINVAL else
  modify (set_sb (terminate_volname (sfs_sb s)));;
  m1 ← kmalloc;
  m2 ← (if m1 then kmalloc else mret false);
  map ← zoom unit_lens (Bitmap.bitmap_create m1 m2 (SFS_FREEMAPBITS (sb_count (sfs_sb s))));
  match map with
  | None => mret ENOMEM
  | Some m =>
      modify (set_freemap m);;
      result ← sfs_freemapio UIO_READ;
      if negb (result =? 0) then mret result else mret 0
  end.
End volume.
End Sfsvnode.
Import Sfsvnode.

(** ** Inodes on the disk *)

Lemma word_of_app p l k j : length p = (4 * k)%nat -> 0 <= j -> word_of (p ++ l) (Z.of_nat k + j) = word_of l j.
Proof.
  intros Hp Hj. unfold word_of. replace (4 * Z.to_nat (Z.of_nat k + j))%nat with (length p + 4 * Z.to_nat j)%nat by lia. by rewrite drop_app_add.
Qed.
Lemma word_of_concat ws r (j : nat) w : ws !! j = Some w -> is_word w -> word_of (concat (be_bytes 4 <$> ws) ++ r) (Z.of_nat j) = w.
Proof.
  revert j. induction ws as [|x ws IH]; intros [|j]; [done|done| |].
  - intros [= ->] Hw. unfold word_of. change (4 * Z.to_nat (Z.of_nat 0))%nat with O. cbn [fmap list_fmap concat]. rewrite drop_0, <-app_assoc, take_app_length' by (by rewrite be_bytes_length).
    rewrite be_val_bytes. by apply Z.mod_small.
  - intros Hj Hw. cbn [fmap list_fmap concat]. rewrite <-app_assoc. replace (Z.of_nat (S j)) with (Z.of_nat 1 + Z.of_nat j) by lia.
    rewrite word_of_app by (done || lia). by apply IH.
Qed.
Lemma take_bytes n z l : take n (be_bytes n z ++ l) = be_bytes n z.
Proof. rewrite take_app_length'; [done|by rewrite be_bytes_length]. Qed.
Lemma drop_bytes n z l : drop n (be_bytes n z ++ l) = l.
Proof. rewrite drop_app_length'; [done|by rewrite be_bytes_length]. Qed.
(** The fields fit. *)
Record fits (i : dinode) : Prop := {
  ft_size : 0 <= sfi_size i < 2 ^ 32; ft_type : 0 <= sfi_type i < 2 ^ 16; ft_links : 0 <= sfi_linkcount i < 2 ^ 16;
  ft_length : length (sfi_direct i) = 15%nat; ft_direct : Forall is_word (sfi_direct i); ft_indirect : is_word (sfi_indirect i) }.
Lemma direct_bytes_length i : length (sfi_direct i) = 15%nat -> length (concat (be_bytes 4 <$> sfi_direct i)) = 60%nat.
Proof. intros Hl. rewrite (concat_length 4), length_fmap, Hl by apply bytes_of_uniform. done. Qed.
Lemma dinode_roundtrip i waste : fits i -> sfs_dinode_of (sfs_dinode_bytes i waste) = i /\ sfs_waste_of (sfs_dinode_bytes i waste) = waste.
Proof.
  intros [Hs Ht Hk Hl Hd Hi]. pose proof (direct_bytes_length i Hl) as Hc. unfold sfs_dinode_of, sfs_waste_of, sfs_dinode_bytes. split.
  - destruct i as [size type links direct ind]. cbn [sfi_size sfi_type sfi_linkcount sfi_direct sfi_indirect] in *. f_equal.
    + rewrite take_bytes, be_val_bytes. by apply Z.mod_small.
    + rewrite drop_bytes, take_bytes, be_val_bytes. by apply Z.mod_small.
    + change 6%nat with (4 + 2)%nat. rewrite <-drop_drop, !drop_bytes, take_bytes, be_val_bytes. by apply Z.mod_small.
    + apply list_eq. intros j. destruct (decide (j < 15)%nat) as [Hj|Hj].
      2:{ rewrite !lookup_ge_None_2; [done|lia|]. rewrite length_fmap, length_seqZ. change (Z.to_nat SFS_NDIRECT) with 15%nat. lia. }
      rewrite list_lookup_fmap, lookup_seqZ_lt by (unfold SFS_NDIRECT; lia). cbn [fmap option_fmap option_map].
      destruct (lookup_lt_is_Some_2 direct j) as [w Hw]; [lia|]. rewrite Hw. f_equal. rewrite !app_assoc. rewrite <-(app_assoc _ _ waste), <-(app_assoc _ (concat _)).
      rewrite Z.add_0_l. change 2 with (Z.of_nat 2). rewrite word_of_app by (rewrite ?length_app, ?be_bytes_length; lia).
      apply word_of_concat; [done|]. rewrite Forall_lookup in Hd. by apply (Hd j).
    + rewrite !app_assoc. rewrite <-(app_assoc _ _ waste). change 17 with (Z.of_nat 17 + 0). rewrite word_of_app; [|rewrite !length_app, !be_bytes_length, Hc; done|lia].
      unfold word_of. change (4 * Z.to_nat 0)%nat with O. rewrite drop_0, take_bytes, be_val_bytes. by apply Z.mod_small.
  - rewrite !app_assoc. apply drop_app_length'. rewrite !length_app, !be_bytes_length, Hc. done.
Qed.
Lemma words_bytes (n : nat) : forall l k, Forall is_byte l -> (4 * (k + n) <= length l)%nat ->
  concat (be_bytes 4 <$> ((fun j => word_of l (Z.of_nat k + j)) <$> seqZ 0 (Z.of_nat n))) = take (4 * n) (drop (4 * k) l).
Proof.
  induction n as [|n IH]; intros l k Hy Hl; [done|]. replace (Z.of_nat (S n)) with (Z.of_nat n + 1) by lia. rewrite seqZ_app by lia.
  rewrite !fmap_app, concat_app, IH by (done || lia). replace (seqZ (0 + Z.of_nat n) 1) with [Z.of_nat n] by (unfold seqZ; cbn; f_equal; lia). cbn [fmap list_fmap concat]. rewrite app_nil_r.
  replace (4 * S n)%nat with (4 * n + 4)%nat by lia. rewrite <-take_take_drop. f_equal. unfold word_of. rewrite drop_drop.
  replace (4 * k + 4 * n)%nat with (4 * Z.to_nat (Z.of_nat k + Z.of_nat n))%nat by lia.
  set (w := take 4 _). assert (Hw : length w = 4%nat) by (unfold w; rewrite length_take, length_drop; lia). rewrite <-Hw at 1. apply be_bytes_val. by apply Forall_take, Forall_drop.
Qed.
Lemma be_bytes_take n m l : Forall is_byte l -> (m + n <= length l)%nat -> be_bytes n (be_val (take n (drop m l))) = take n (drop m l).
Proof.
  intros Hy Hl. set (w := take n _). assert (Hw : length w = n) by (unfold w; rewrite length_take, length_drop; lia). rewrite <-Hw at 1. apply be_bytes_val. by apply Forall_take, Forall_drop.
Qed.
Lemma bytes_roundtrip l : length l = 512%nat -> Forall is_byte l -> sfs_dinode_bytes (sfs_dinode_of l) (sfs_waste_of l) = l.
Proof.
  intros Hl Hy. unfold sfs_dinode_bytes, sfs_dinode_of, sfs_waste_of. cbn [sfi_size sfi_type sfi_linkcount sfi_direct sfi_indirect].
  pose proof (be_bytes_take 4 0 l Hy ltac:(lia)) as E1. rewrite drop_0 in E1. rewrite E1. rewrite !be_bytes_take by (done || lia).
  change SFS_NDIRECT with (Z.of_nat 15). change (fun j : Z => word_of l (2 + j)) with (fun j : Z => word_of l (Z.of_nat 2 + j)). rewrite words_bytes by (done || lia).
  unfold word_of. change (4 * Z.to_nat 17)%nat with 68%nat. rewrite be_bytes_take by (done || lia). change (4 * 15)%nat with 60%nat. change (4 * 2)%nat with 8%nat.
  assert (Hcut : forall m n r, take n (drop m l) ++ r = drop m l <-> r = drop (m + n) l).
  { intros m n r. rewrite <-drop_drop. rewrite <-(take_drop n (drop m l)) at 2. split; [apply app_inv_head|by intros ->]. }
  rewrite <-(drop_0 l) at 6. change (take 4 l) with (take 4 (drop 0 l)). by repeat (apply Hcut; cbn [Nat.add]).
Qed.
Lemma dinode_bytes_ok i waste : length (sfi_direct i) = 15%nat -> length waste = 440%nat -> Forall is_byte waste ->
  length (sfs_dinode_bytes i waste) = 512%nat /\ Forall is_byte (sfs_dinode_bytes i waste).
Proof.
  intros Hl Hw Hy. unfold sfs_dinode_bytes. split.
  - rewrite !length_app, !be_bytes_length, (direct_bytes_length i Hl), Hw. done.
  - rewrite !Forall_app. split_and!; try apply be_bytes_byte; [|done]. apply Forall_concat, Forall_fmap, Forall_true. intros w. apply be_bytes_byte.
Qed.
Lemma waste_ok l : length l = 512%nat -> Forall is_byte l -> length (sfs_waste_of l) = 440%nat /\ Forall is_byte (sfs_waste_of l).
Proof. intros Hl Hy. unfold sfs_waste_of. rewrite length_drop, Hl. split; [done|by apply Forall_drop]. Qed.
Lemma dinode_zeros : sfs_dinode_of zeros = no_inode.
Proof. vm_compute. reflexivity. Qed.

(** ** A consistent volume *)

Section theory.
Context {B D : Type} {FM : FreeMap B} {DK : Disk D}.
Notation fs := (sfs_fs B D).
Implicit Types (s : fs) (t : Sfs.sfs B D) (ino b v : Z).

Definition in_use s b : bool := fm_used (sfs_freemap s) b.
Definition block s b : list Z := dev_block (sfs_device s) b.
(** The vnode for an inode number, and the inode: the one in memory if there is one. *)
Definition in_core s ino : option sfs_vnode := snd <$> list_find (fun x => sv_ino x = ino) (map_to_list (vnodes s)).*2.
Definition inode s ino : dinode := match in_core s ino with Some x => sv_inode x | None => sfs_dinode_of (block s ino) end.
(** The volume as a file of it sees it. *)
Definition file s ino : Sfs.sfs B D := vol (inode s ino) false s.
Definition volume s : Sfs.sfs B D := vol no_inode false s.
Definition owned s ino b : Prop := b <> 0 /\ b ∈ slots (file s ino).
(** The superblock and the bitmap. *)
Definition system s b : Prop := b = SFS_SUPER_BLOCK \/ SFS_FREEMAP_START <= b < SFS_FREEMAP_START + SFS_FREEMAPBLOCKS (sb_count (sfs_sb s)).

Record table_ok s : Prop := {
  tk_nodup : NoDup (sfs_vnodes s);
  tk_live : forall v, v ∈ sfs_vnodes s <-> is_Some (vnodes s !! v);
  tk_count : forall v x, vnodes s !! v = Some x -> 1 <= vn_refcount x;
  tk_one : forall v v' x x', vnodes s !! v = Some x -> vnodes s !! v' = Some x' -> sv_ino x = sv_ino x' -> v = v' }.
Record file_ok s ino : Prop := {
  fk_range : 0 < ino < sb_count (sfs_sb s);
  fk_used : in_use s ino = true;
  fk_wf : wf (file s ino);
  fk_size : 0 <= sfi_size (inode s ino) < 2 ^ 32;
  fk_type : sfi_type (inode s ino) = SFS_TYPE_FILE \/ sfi_type (inode s ino) = SFS_TYPE_DIR;
  fk_links : 0 <= sfi_linkcount (inode s ino) < 2 ^ 16;
  fk_system : ~ system s ino /\ forall b, owned s ino b -> ~ system s b }.
(** The inodes in [A] are files; no block is in two of them, none of their inodes is a
    block of a file, none of all these is one of the system's, and an inode that is not marked
    dirty is on the disk. *)
Record blocks_ok (A : Z -> Prop) s : Prop := {
  bk_volume : volume_ok (volume s);
  bk_table : table_ok s;
  bk_system : forall b, system s b -> in_use s b = true;
  bk_file : forall ino, A ino -> file_ok s ino;
  bk_core : forall v x, vnodes s !! v = Some x -> A (sv_ino x) /\ length (sv_waste x) = 440%nat /\ Forall is_byte (sv_waste x);
  bk_apart : forall ino ino' b, A ino -> A ino' -> owned s ino b -> owned s ino' b -> ino = ino';
  bk_inos : forall ino ino', A ino -> A ino' -> ~ owned s ino ino';
  bk_clean : forall v x, vnodes s !! v = Some x -> sv_modified x = false -> block s (sv_ino x) = sfs_dinode_bytes (sv_inode x) (sv_waste x) }.

Lemma in_core_spec s ino x : table_ok s -> in_core s ino = Some x <-> exists v, vnodes s !! v = Some x /\ sv_ino x = ino.
Proof.
  intros Hk. unfold in_core. split.
  - destruct (list_find _ _) as [[i y]|] eqn:E; [|done]. intros [= ->]. apply list_find_Some in E as (Hi & Hy & _).
    apply list_elem_of_lookup_2, list_elem_of_fmap in Hi as ([v y] & -> & Hin). apply elem_of_map_to_list in Hin. by exists v.
  - intros (v & Hx & Hi). assert (Hin : x ∈ (map_to_list (vnodes s)).*2) by (apply list_elem_of_fmap; exists (v, x); split; [done|by apply elem_of_map_to_list]).
    destruct (list_find (fun x => sv_ino x = ino) (map_to_list (vnodes s)).*2) as [[i y]|] eqn:E.
    + apply list_find_Some in E as (Hy & Ey & _). apply list_elem_of_lookup_2, list_elem_of_fmap in Hy as ([v' y'] & -> & Hin'). apply elem_of_map_to_list in Hin'.
      cbn in *. f_equal. assert (v' = v) as -> by (eapply (tk_one s Hk); [done|done|congruence]). congruence.
    + apply list_find_None in E. rewrite Forall_forall in E. by destruct (E x Hin).
Qed.
Lemma in_core_None s ino : table_ok s -> in_core s ino = None <-> forall v x, vnodes s !! v = Some x -> sv_ino x <> ino.
Proof.
  intros Hk. split.
  - intros E v x Hx Ei. assert (H : in_core s ino = Some x) by (apply in_core_spec; eauto). congruence.
  - intros Hn. destruct (in_core s ino) as [x|] eqn:E; [|done]. apply in_core_spec in E as (v & Hx & Ei); [|done]. by destruct (Hn v x Hx).
Qed.
Lemma inode_core s v x : table_ok s -> vnodes s !! v = Some x -> inode s (sv_ino x) = sv_inode x.
Proof. intros Hk Hx. unfold inode. by rewrite (proj2 (in_core_spec s (sv_ino x) x Hk)) by eauto. Qed.
Lemma inode_disk s ino : table_ok s -> (forall v x, vnodes s !! v = Some x -> sv_ino x <> ino) -> inode s ino = sfs_dinode_of (block s ino).
Proof. intros Hk Hn. unfold inode. by rewrite (proj2 (in_core_None s ino Hk)). Qed.

(** [m] on the volume, on a file. *)
Lemma wp_volume {X} (m : K (Sfs.sfs B D) X) Q s : wp m (fun a t => Q a (put_vol t s)) (volume s) -> wp (on_volume m) Q s.
Proof. intros H. unfold on_volume. by rewrite wp_zoom. Qed.
Lemma wp_sv_of v x s (Q : sfs_vnode -> fs -> Prop) : vnodes s !! v = Some x -> Q x s -> wp (sv_of v) Q s.
Proof. intros Hx HQ. unfold sv_of. by wp_simpl. Qed.
Lemma wp_file {X} v x (m : K (Sfs.sfs B D) X) Q s : vnodes s !! v = Some x ->
  wp m (fun a t => Q a (file_put v t s)) (vol (sv_inode x) (sv_modified x) s) -> wp (on_file v m) Q s.
Proof.
  intros Hx Hm. unfold on_file. rewrite wp_bind. eapply wp_sv_of; [done|]. rewrite wp_zoom. cbn. unfold file_view. by rewrite Hx.
Qed.
Lemma wp_update v x f s (Q : () -> fs -> Prop) : vnodes s !! v = Some x -> Q tt (set_vnodes (<[v := f x]> (vnodes s)) s) -> wp (update_sv v f) Q s.
Proof. intros Hx HQ. unfold update_sv. rewrite wp_bind. eapply wp_sv_of; [done|]. by wp_simpl. Qed.

(** Well-formedness does not depend on the dirty mark. *)
Lemma volume_dirty i d s : volume_ok (vol i d s) <-> volume_ok (volume s).
Proof. split; intros []; by split. Qed.
Lemma wf_dirty i d d' s : wf (vol i d s) -> wf (vol i d' s).
Proof. intros [[] ? ?]. split; [by split|done|done]. Qed.

(** ** What has not changed *)

(** What only [sfs_sync] and mounting change; the bitmap is marked when it changes. *)
Record meta_same s s' : Prop := {
  ms_sb : sfs_sb s' = sfs_sb s;
  ms_super : sfs_superdirty s' = sfs_superdirty s;
  ms_size : fm_size (sfs_freemap s') = fm_size (sfs_freemap s);
  ms_map : sfs_freemapdirty s' = true \/ sfs_freemapdirty s' = sfs_freemapdirty s /\ sfs_freemap s' = sfs_freemap s }.
Definition sys_same s s' : Prop := meta_same s s' /\ forall b, system s b -> block s' b = block s b.
(** The file is the same, its blocks and the system's too. *)
Definition file_same s s' ino : Prop := inode s' ino = inode s ino /\ forall b, owned s ino b -> block s' b = block s b.
Definition kept s s' ino : Prop := file_same s s' ino /\ sys_same s s'.
Lemma kept_inode s s' ino : kept s s' ino -> inode s' ino = inode s ino.
Proof. by intros [[Hi _] _]. Qed.
Lemma system_same s s' b : sb_count (sfs_sb s') = sb_count (sfs_sb s) -> system s' b <-> system s b.
Proof. unfold system. by intros ->. Qed.
Lemma meta_count s s' : meta_same s s' -> sb_count (sfs_sb s') = sb_count (sfs_sb s).
Proof. by intros [-> _ _ _]. Qed.
Lemma meta_eq s s' : sfs_sb s' = sfs_sb s -> sfs_superdirty s' = sfs_superdirty s -> sfs_freemapdirty s' = sfs_freemapdirty s -> sfs_freemap s' = sfs_freemap s -> meta_same s s'.
Proof. intros E1 E2 E3 E4. split; [done|done|by rewrite E4|by right]. Qed.
Lemma meta_vol i dirty s t m : touch (vol i dirty s) t -> meta_same s (set_vnodes m (put_vol t s)).
Proof. intros (_ & _ & _ & H1 & H2). by split. Qed.
Lemma meta_put i dirty s t : touch (vol i dirty s) t -> meta_same s (put_vol t s).
Proof. intros (_ & _ & _ & H1 & H2). by split. Qed.
Lemma sys_same_trans s1 s2 s3 : sys_same s1 s2 -> sys_same s2 s3 -> sys_same s1 s3.
Proof.
  intros [[A1 A2 A3 A4] A5] [[B1 B2 B3 B4] B5]. split.
  - split; [congruence|congruence|congruence|]. destruct B4 as [?|[B4 B6]]; [by left|]. destruct A4 as [?|[A4 A6]]; [left; congruence|right; split; congruence].
  - intros b Hb. rewrite B5, A5; [done|done|]. rewrite (system_same s1 s2); [done|]. by rewrite A1.
Qed.
Lemma sys_same_refl s : sys_same s s.
Proof. split; [by apply meta_eq|done]. Qed.
Lemma file_kept_refl s ino : kept s s ino.
Proof. split; [done|apply sys_same_refl]. Qed.
Lemma kept_core s s' ino : inode s' ino = inode s ino -> meta_same s s' -> (forall b, block s' b = block s b) -> kept s s' ino.
Proof. intros Hi Hm Hb. split; (split; [done|]); intros b _; apply Hb. Qed.
Lemma kept_slots s s' ino : file_same s s' ino -> slots (file s' ino) = slots (file s ino).
Proof.
  intros (Hi & Hb). unfold slots, refs, ind_words. cbn [sv_i file vol]. rewrite Hi. destruct (Z.eqb_spec (sfi_indirect (inode s ino)) 0) as [|Hne]; [done|].
  assert (E : blk (file s' ino) (sfi_indirect (inode s ino)) = blk (file s ino) (sfi_indirect (inode s ino))) by (apply Hb; split; [done|]; by left).
  by rewrite E.
Qed.
Lemma kept_owned s s' ino b : file_same s s' ino -> owned s' ino b <-> owned s ino b.
Proof. intros Hk. unfold owned. by rewrite (kept_slots s s'). Qed.
Lemma kept_refs s s' ino : file_same s s' ino -> refs (file s' ino) = refs (file s ino).
Proof. intros Hk. pose proof (kept_slots s s' ino Hk) as E. unfold slots in E. by injection E. Qed.
Lemma file_kept_trans s1 s2 s3 ino : kept s1 s2 ino -> kept s2 s3 ino -> kept s1 s3 ino.
Proof.
  intros [H1 S1] [H2 S2]. pose proof (fun b => kept_owned s1 s2 ino b H1) as Ho. destruct H1 as (A1 & A3), H2 as (B1 & B3). split; [|by eapply sys_same_trans].
  split; [congruence|]. intros b Hb. rewrite B3, A3; [done|done|]. by apply Ho.
Qed.
Lemma kept_bytes s s' ino : file_same s s' ino -> file_bytes (file s' ino) = file_bytes (file s ino).
Proof.
  intros Hk. unfold file_bytes. f_equal. apply contents_eq; [by apply kept_refs|]. intros b Hb Hb0. apply Hk. split; [done|]. by right.
Qed.
Lemma kept_file_ok s s' ino : file_ok s ino -> file_same s s' ino -> volume_ok (volume s') -> sb_count (sfs_sb s') = sb_count (sfs_sb s) ->
  in_use s' ino = true -> (forall b, owned s ino b -> in_use s' b = true) -> file_ok s' ino.
Proof.
  intros [A1 A2 A3 A4 A5 A6 [A7 A8]] Hk Hv Hc Hu Hub. pose proof (kept_slots s s' ino Hk) as Hs. pose proof (fun b => kept_owned s s' ino b Hk) as Ho. destruct Hk as [Hi _].
  split; rewrite ?Hi; [lia|done| |done|done|done|]; [|rewrite (system_same s s') by done; split; [done|]; intros b Hb; rewrite (system_same s s') by done; by apply A8, Ho]. split.
  - by apply volume_dirty.
  - cbn. rewrite Hi. apply A3.
  - rewrite Hs. destruct (wf_slots _ A3) as [Hr Hinj]. split; [|done]. intros k b Hb Hb0. destruct (Hr k b Hb Hb0) as [Hr1 _]. cbn [sb_nblocks file vol]. rewrite Hc. split; [done|].
    apply Hub. split; [done|]. by eapply list_elem_of_lookup_2.
Qed.
Lemma owned_range A s ino b : blocks_ok A s -> A ino -> owned s ino b -> 0 < b < sb_count (sfs_sb s) /\ in_use s b = true.
Proof.
  intros Hk Ha [Hb0 [k Hb]%list_elem_of_lookup]. by apply (so_range _ _ _ (wf_slots _ (fk_wf _ _ (bk_file A s Hk ino Ha))) k).
Qed.

(** One inode [i0] is new or has changed, the others are as they were. *)
Lemma blocks_change A s s' i0 : blocks_ok A s -> volume_ok (volume s') -> table_ok s' -> sb_count (sfs_sb s') = sb_count (sfs_sb s) -> (forall b, system s b -> in_use s' b = true) ->
  (forall v x, vnodes s' !! v = Some x -> (A (sv_ino x) \/ sv_ino x = i0) /\ length (sv_waste x) = 440%nat /\ Forall is_byte (sv_waste x)) ->
  (forall v x, vnodes s' !! v = Some x -> sv_modified x = false -> block s' (sv_ino x) = sfs_dinode_bytes (sv_inode x) (sv_waste x)) ->
  (forall ino, A ino -> ino <> i0 -> file_same s s' ino /\ in_use s' ino = true /\ (forall b, owned s ino b -> in_use s' b = true) /\ ~ owned s ino i0) ->
  file_ok s' i0 -> (forall ino b, A ino -> ino <> i0 -> owned s ino b -> ~ owned s' i0 b) -> (forall ino, A ino \/ ino = i0 -> ~ owned s' i0 ino) ->
  blocks_ok (fun ino => A ino \/ ino = i0) s'.
Proof.
  intros Hk Hv Ht Hc Hsys Hcore Hclean Hkept Hi0 Hap Hin.
  assert (Hown : forall ino b, A ino -> ino <> i0 -> owned s' ino b <-> owned s ino b) by (intros ino b Ha Hne; apply kept_owned, (Hkept ino Ha Hne)).
  split; [done|done|intros b; rewrite (system_same s s') by done; apply Hsys| |done| | |done].
  - intros ino [Ha| ->]; [|done]. destruct (Z.eq_dec ino i0) as [->|Hne]; [done|]. destruct (Hkept ino Ha Hne) as (H1 & H2 & H3 & _). by apply (kept_file_ok s); [apply Hk|..].
  - intros ino ino' b Ha Ha' Ho Ho'. destruct (Z.eq_dec ino i0) as [->|Hne], (Z.eq_dec ino' i0) as [->|Hne']; [done| | |].
    + destruct Ha' as [Ha'|?]; [|done]. apply Hown in Ho'; [|done|done]. by destruct (Hap ino' b).
    + destruct Ha as [Ha|?]; [|done]. apply Hown in Ho; [|done|done]. by destruct (Hap ino b).
    + destruct Ha as [Ha|?]; [|done]. destruct Ha' as [Ha'|?]; [|done]. apply Hown in Ho; [|done|done]. apply Hown in Ho'; [|done|done]. by apply (bk_apart A s Hk ino ino' b).
  - intros ino ino' Ha Ha' Ho. destruct (Z.eq_dec ino i0) as [->|Hne]; [by apply (Hin ino')|]. destruct Ha as [Ha|?]; [|done]. apply Hown in Ho; [|done|done].
    destruct (Z.eq_dec ino' i0) as [->|Hne']; [by apply (Hkept ino Ha Hne)|]. destruct Ha' as [Ha'|?]; [|done]. by apply (bk_inos A s Hk ino ino').
Qed.
(** All inodes are as they were. *)
Lemma blocks_same (A A' : Z -> Prop) s s' : blocks_ok A s -> (forall ino, A' ino -> A ino) -> volume_ok (volume s') -> table_ok s' -> sb_count (sfs_sb s') = sb_count (sfs_sb s) -> (forall b, system s b -> in_use s' b = true) ->
  (forall v x, vnodes s' !! v = Some x -> A' (sv_ino x) /\ length (sv_waste x) = 440%nat /\ Forall is_byte (sv_waste x)) ->
  (forall v x, vnodes s' !! v = Some x -> sv_modified x = false -> block s' (sv_ino x) = sfs_dinode_bytes (sv_inode x) (sv_waste x)) ->
  (forall ino, A' ino -> file_same s s' ino /\ in_use s' ino = true /\ forall b, owned s ino b -> in_use s' b = true) ->
  blocks_ok A' s'.
Proof.
  intros Hk Ha Hv Ht Hc Hsys Hcore Hclean Hkept.
  assert (Hown : forall ino b, A' ino -> owned s' ino b <-> owned s ino b) by (intros ino b Hi; apply kept_owned, (Hkept ino Hi)).
  split; [done|done|intros b; rewrite (system_same s s') by done; apply Hsys| |done| | |done].
  - intros ino Hi. destruct (Hkept ino Hi) as (H1 & H2 & H3). apply (kept_file_ok s); [apply Hk; auto|done..].
  - intros ino ino' b Hi Hi' Ho Ho'. apply Hown in Ho; [|done]. apply Hown in Ho'; [|done]. apply (bk_apart A s Hk ino ino' b); auto.
  - intros ino ino' Hi Hi' Ho. apply Hown in Ho; [|done]. apply (bk_inos A s Hk ino ino'); auto.
Qed.
Lemma blocks_sub (A A' : Z -> Prop) s : blocks_ok A s -> (forall ino, A' ino -> A ino) -> (forall v x, vnodes s !! v = Some x -> A' (sv_ino x)) -> blocks_ok A' s.
Proof.
  intros Hk Ha Hc. apply (blocks_same A A' s s); try done; try apply Hk.
  - intros v x Hx. split; [by eapply Hc|]. by apply (bk_core A s Hk v x).
  - intros ino Hi. split; [apply file_kept_refl|]. split; [by apply (fk_used _ _ (bk_file A s Hk ino (Ha ino Hi)))|]. intros b Ho. by apply (owned_range A s ino b Hk (Ha ino Hi) Ho).
Qed.

(** ** Steps *)

Lemma table_update s s' v x y : table_ok s -> vnodes s !! v = Some x -> sv_ino y = sv_ino x -> 1 <= vn_refcount y ->
  sfs_vnodes s' = sfs_vnodes s -> vnodes s' = <[v := y]> (vnodes s) -> table_ok s'.
Proof.
  intros [A1 A2 A3 A4] Hx Hi Hr Ht Hm.
  assert (Hl : forall w z, vnodes s' !! w = Some z -> exists z', vnodes s !! w = Some z' /\ sv_ino z = sv_ino z' /\ (z = y \/ z = z')).
  { intros w z. rewrite Hm. intros [(<- & <-)|[_ Hz]]%lookup_insert_Some; [exists x; auto|exists z; auto]. }
  split; rewrite ?Ht; [done| | |].
  - intros w. rewrite Hm, lookup_insert_is_Some', A2. split; [auto|]. intros [<-|?]; [by eexists|done].
  - intros w z Hz. destruct (Hl w z Hz) as (z' & Hz' & _ & [->| ->]); eauto.
  - intros w w' z z' Hz Hz' E. destruct (Hl w z Hz) as (u & Hu & E1 & _), (Hl w' z' Hz') as (u' & Hu' & E2 & _). apply (A4 w w' u u'); [done|done|congruence].
Qed.
Lemma core_other s s' v x y ino : table_ok s -> table_ok s' -> vnodes s !! v = Some x -> sv_ino y = sv_ino x -> vnodes s' = <[v := y]> (vnodes s) ->
  ino <> sv_ino x -> in_core s' ino = in_core s ino.
Proof.
  intros Hk Hk' Hx Hi Hm Hne. apply option_eq. intros z. rewrite !in_core_spec by done. rewrite Hm. split.
  - intros (w & [(<- & <-)|[_ Hz]]%lookup_insert_Some & E); [congruence|eauto].
  - intros (w & Hz & E). exists w. split; [|done]. apply lookup_insert_Some. right. split; [|done]. intros <-. congruence.
Qed.
Lemma in_use_ino A s ino : blocks_ok A s -> A ino -> 0 <= ino /\ in_use s ino = true.
Proof. intros Hk Ha. destruct (bk_file A s Hk ino Ha) as [Hr Hu _ _ _ _]. split; [lia|done]. Qed.

Lemma system_apart A s ino b : blocks_ok A s -> A ino -> system s b -> 0 <= b /\ in_use s b = true /\ ~ owned s ino b.
Proof.
  intros Hk Ha Hb. split; [destruct Hb as [->|[Hb _]]; [done|unfold SFS_FREEMAP_START in Hb; lia]|]. split; [by apply (bk_system A s Hk)|].
  intros Ho. by apply (proj2 (fk_system _ _ (bk_file A s Hk ino Ha)) b).
Qed.

(** An operation on the file of the vnode [v], whose structure is now [y]. *)
Lemma vnode_step A s s' v x y : blocks_ok A s -> vnodes s !! v = Some x -> vnodes s' = <[v := y]> (vnodes s) -> sfs_vnodes s' = sfs_vnodes s ->
  meta_same s s' -> volume_ok (volume s') -> sv_ino y = sv_ino x -> sv_waste y = sv_waste x -> 1 <= vn_refcount y ->
  (sv_modified y = true \/ sv_modified y = sv_modified x /\ sv_inode y = sv_inode x) -> file_ok s' (sv_ino x) ->
  (forall b, 0 <= b -> in_use s b = true -> ~ owned s (sv_ino x) b -> in_use s' b = true /\ block s' b = block s b /\ ~ owned s' (sv_ino x) b) ->
  blocks_ok A s' /\ (forall ino, A ino -> ino <> sv_ino x -> kept s s' ino) /\ inode s' (sv_ino x) = sv_inode y /\ sys_same s s'.
Proof.
  intros Hk Hx Hm Ht Hmeta Hv Hi Hw Hr Hd Hf Hfr. pose proof (meta_count s s' Hmeta) as Hc. pose proof (bk_table A s Hk) as Htab. pose proof (table_update s s' v x y Htab Hx Hi Hr Ht Hm) as Htab'.
  destruct (bk_core A s Hk v x Hx) as (Ha & Hlen & Hby).
  assert (Hnot : forall ino, A ino -> ~ owned s (sv_ino x) ino) by (intros ino Hino; by apply (bk_inos A s Hk)).
  assert (Hap : forall ino b, A ino -> ino <> sv_ino x -> owned s ino b -> ~ owned s (sv_ino x) b) by (intros ino b Hino Hne Ho Ho'; by apply Hne, (bk_apart A s Hk ino (sv_ino x) b)).
  assert (Hsame : sys_same s s') by (split; [done|]; intros b Hb; destruct (system_apart A s _ b Hk Ha Hb) as (? & ? & ?); by apply Hfr).
  assert (Hkept : forall ino, A ino -> ino <> sv_ino x -> kept s s' ino).
  { intros ino Hino Hne. split; [split|done].
    - unfold inode. rewrite (core_other s s' v x y ino) by done. case_match; [done|]. f_equal. destruct (in_use_ino A s ino Hk Hino). by apply Hfr; auto.
    - intros b Ho. destruct (owned_range A s ino b Hk Hino Ho). apply Hfr; [lia|done|by apply (Hap ino)]. }
  assert (Hiy : inode s' (sv_ino x) = sv_inode y) by (rewrite <-Hi; apply (inode_core s' v y Htab'); rewrite Hm; apply lookup_insert_eq).
  split; [|done]. apply (blocks_sub (fun ino => A ino \/ ino = sv_ino x)); [|by intros ino ?; left|].
  - apply (blocks_change A s s'); try done.
    + intros b Hb. destruct (system_apart A s _ b Hk Ha Hb) as (? & ? & ?). by apply Hfr.
    + intros w z. rewrite Hm. intros [(<- & <-)|[_ Hz]]%lookup_insert_Some; [rewrite Hi, Hw; auto|]. destruct (bk_core A s Hk w z Hz) as (H1 & H2 & H3). auto.
    + intros w z. rewrite Hm. intros [(<- & <-)|[Hne Hz]]%lookup_insert_Some Hcl.
      * destruct Hd as [Hd|[Hd1 Hd2]]; [congruence|]. rewrite Hi, Hw, Hd2. destruct (in_use_ino A s _ Hk Ha). rewrite (proj1 (proj2 (Hfr (sv_ino x) ltac:(done) ltac:(done) (Hnot _ Ha)))). apply (bk_clean A s Hk v x Hx). congruence.
      * destruct (bk_core A s Hk w z Hz) as (Haz & _). destruct (in_use_ino A s _ Hk Haz). rewrite (proj1 (proj2 (Hfr (sv_ino z) ltac:(done) ltac:(done) (Hnot _ Haz)))). by apply (bk_clean A s Hk w z Hz).
    + intros ino Hino Hne. split; [by apply Hkept|]. destruct (in_use_ino A s ino Hk Hino). split; [by apply Hfr; auto|]. split; [|by apply (bk_inos A s Hk)].
      intros b Ho. destruct (owned_range A s ino b Hk Hino Ho). apply Hfr; [lia|done|by apply (Hap ino)].
    + intros ino b Hino Hne Ho. destruct (owned_range A s ino b Hk Hino Ho). apply Hfr; [lia|done|by apply (Hap ino)].
    + intros ino [Hino| ->]; [destruct (in_use_ino A s ino Hk Hino)|destruct (in_use_ino A s _ Hk Ha)]; apply Hfr; auto.
  - intros w z. rewrite Hm. intros [(<- & <-)|[_ Hz]]%lookup_insert_Some; [by rewrite Hi|]. apply (bk_core A s Hk w z Hz).
Qed.

Lemma file_put_eq v x t s : vnodes s !! v = Some x -> file_put v t s = set_vnodes (<[v := set_file (sv_i t) (sv_dirty t) x]> (vnodes s)) (put_vol t s).
Proof.
  intros Hx. unfold file_put. f_equal. apply map_eq. intros w. destruct (decide (w = v)) as [->|Hne].
  - by rewrite lookup_alter_eq, lookup_insert_eq, Hx.
  - by rewrite lookup_alter_ne, lookup_insert_ne by done.
Qed.
(** The operations of [Sfs] inside a file. *)
Definition step_ok t t' : Prop :=
  wf t' /\ 0 <= sfi_size (sv_i t') < 2 ^ 32 /\ touch t t' /\ forall b, foreign t b -> foreign t' b /\ blk t' b = blk t b.
Lemma file_step A s v x t' : blocks_ok A s -> vnodes s !! v = Some x -> step_ok (vol (sv_inode x) (sv_modified x) s) t' ->
  let s' := file_put v t' s in
  blocks_ok A s' /\ (forall ino, A ino -> ino <> sv_ino x -> kept s s' ino) /\ inode s' (sv_ino x) = sv_i t' /\ file_bytes (file s' (sv_ino x)) = file_bytes t' /\
  slots (file s' (sv_ino x)) = slots t' /\ vnodes s' = <[v := set_file (sv_i t') (sv_dirty t') x]> (vnodes s) /\ sys_same s s'.
Proof.
  intros Hk Hx (Hw & Hz & Htouch & Hfr) s'. pose proof Htouch as (Hat & Hn & Hd & _). pose proof (bk_table A s Hk) as Htab. assert (Ei : inode s (sv_ino x) = sv_inode x) by by apply (inode_core s v).
  destruct (bk_core A s Hk v x Hx) as (Ha & _). destruct (bk_file A s Hk _ Ha) as [F1 F2 F3 F4 F5 F6 F7].
  assert (Es : s' = set_vnodes (<[v := set_file (sv_i t') (sv_dirty t') x]> (vnodes s)) (put_vol t' s)) by by apply file_put_eq.
  assert (Htab' : table_ok s') by (eapply (table_update s s' v x (set_file (sv_i t') (sv_dirty t') x)); [done|done|done|exact (tk_count s Htab v x Hx)|by rewrite Es|by rewrite Es]).
  assert (Ei' : inode s' (sv_ino x) = sv_i t').
  { apply (inode_core s' v (set_file (sv_i t') (sv_dirty t') x)); [done|]. rewrite Es. apply lookup_insert_eq. }
  assert (Ef : file s' (sv_ino x) = Volume (freemap t') (freemapdirty t') (sb_nblocks t') (device t') (sv_i t') false).
  { unfold file, vol. rewrite Ei', Es. cbn. by rewrite Hn. }
  assert (Eslots : slots (file s' (sv_ino x)) = slots t') by by rewrite Ef.
  assert (Hvol : volume_ok (volume s')).
  { rewrite Es. destruct (wf_volume t' Hw) as [V1 V2 V3 V4 V5 V6]. cbn in Hn. split; unfold used in *; cbn; rewrite <-?Hn; done. }
  assert (Hfor : forall b, 0 <= b -> in_use s b = true -> ~ owned s (sv_ino x) b -> foreign (vol (sv_inode x) (sv_modified x) s) b).
  { intros b Hb Hu Hno. split; [done|]. split; [done|]. intros Hb0 Hin. apply Hno. split; [done|]. unfold file. by rewrite Ei. }
  destruct (vnode_step A s s' v x (set_file (sv_i t') (sv_dirty t') x)) as (H1 & H2 & H3 & H4); try done; try (by rewrite Es).
  - rewrite Es. by eapply meta_vol.
  - exact (tk_count s Htab v x Hx).
  - assert (Hc : sb_count (sfs_sb s') = sb_count (sfs_sb s)) by by rewrite Es.
    split; rewrite ?Ei'; [by rewrite Hc| | |done| | |].
    + destruct (Hfr (sv_ino x)) as [(Hu & _) _]; [apply Hfor; [lia|done|by apply (bk_inos A s Hk)]|]. rewrite Es. exact Hu.
    + rewrite Ef. destruct Hw as [[] ? ?]. split; [by split|done|done].
    + injection Hat as Hat1 Hat2. rewrite Hat1. cbn. by rewrite <-Ei.
    + injection Hat as Hat1 Hat2. rewrite Hat2. cbn. by rewrite <-Ei.
    + rewrite (system_same s s') by done. split; [exact (proj1 F7)|]. intros b [Hb0 Hin]. rewrite (system_same s s') by done. intros Hb. destruct (system_apart A s _ b Hk Ha Hb) as (Hb1 & Hu & Hno).
      destruct (Hfr b (Hfor b Hb1 Hu Hno)) as [(_ & _ & Hns) _]. apply Hns; [done|]. by rewrite <-Eslots.
  - intros b Hb Hu Hno. destruct (Hfr b (Hfor b Hb Hu Hno)) as [(Hu' & _ & Hns) Hbl]. rewrite Es. split; [exact Hu'|]. split; [exact Hbl|]. rewrite <-Es.
    intros [Hb0 Hin]. apply Hns; [done|]. by rewrite <-Eslots.
  - split; [done|]. split; [done|]. split; [done|]. split; [by rewrite Ef|]. split; [done|]. split; [by rewrite Es|done].
Qed.

(** The vnodes stay; the blocks of files and their inodes too. *)
Lemma volume_step A s s' : blocks_ok A s -> vnodes s' = vnodes s -> sfs_vnodes s' = sfs_vnodes s -> meta_same s s' -> volume_ok (volume s') ->
  (forall b, A b \/ (exists ino, A ino /\ owned s ino b) \/ system s b -> in_use s' b = true /\ block s' b = block s b) ->
  blocks_ok A s' /\ forall ino, A ino -> kept s s' ino.
Proof.
  intros Hk Hm Ht Hmeta Hv Hb. pose proof (meta_count s s' Hmeta) as Hc. pose proof (bk_table A s Hk) as [T1 T2 T3 T4].
  assert (Htab : table_ok s') by (split; rewrite ?Hm, ?Ht; done).
  assert (Hkept : forall ino, A ino -> kept s s' ino).
  { intros ino Ha. split; [split|split; [done|]]; [|intros b Ho; apply Hb; eauto..]. unfold inode, in_core. rewrite Hm. case_match; [done|]. f_equal. apply Hb. by left. }
  split; [|done]. apply (blocks_same A A s s'); try done; rewrite ?Hm.
  - intros b Hs. apply Hb. auto.
  - intros v x. apply (bk_core A s Hk v x).
  - intros v x Hx Hd. destruct (bk_core A s Hk v x Hx) as (Ha & _). rewrite (proj2 (Hb (sv_ino x) (or_introl Ha))). by apply (bk_clean A s Hk v x).
  - intros ino Ha. split; [by apply Hkept|]. split; [by apply Hb; left|]. intros b Ho. apply Hb. eauto.
Qed.
Lemma protected A s b : blocks_ok A s -> A b \/ (exists ino, A ino /\ owned s ino b) \/ system s b -> 0 <= b /\ in_use s b = true.
Proof.
  intros Hk [Ha|[(ino & Ha & Ho)|Hs]]; [destruct (bk_file A s Hk b Ha); split; [lia|done]|destruct (owned_range A s ino b Hk Ha Ho); split; [lia|done]|].
  split; [|by apply (bk_system A s Hk)]. destruct Hs as [->|[Hs _]]; [done|]. unfold SFS_FREEMAP_START in Hs. lia.
Qed.
(** A transfer that reads, or any step that leaves the device's blocks and the bitmap alone. *)
Lemma same_disk_step A s t' : blocks_ok A s -> same_disk (volume s) t' -> blocks_ok A (put_vol t' s) /\ forall ino, A ino -> kept s (put_vol t' s) ino.
Proof.
  intros Hk (d & -> & Hst & Hb). apply volume_step; try done.
  - by apply meta_eq.
  - apply (volume_dirty no_inode false). pose proof (set_device_volume (volume s) d (bk_volume A s Hk) Hst) as []. by split.
  - intros b Hp. destruct (protected A s b Hk Hp). split; [done|]. apply Hb.
Qed.
Lemma steady_step A s t' : blocks_ok A s -> steady (volume s) t' -> touch (volume s) t' -> blocks_ok A (put_vol t' s) /\ forall ino, A ino -> kept s (put_vol t' s) ino.
Proof.
  intros Hk [S1 S2 S3 S4 S5] Ht. apply volume_step; try done.
  - by eapply meta_put.
  - destruct S4 as [V1 V2 V3 V4 V5 V6]. cbn in S2. split; unfold used in *; cbn; rewrite <-?S2; done.
  - intros b Hp. destruct (protected A s b Hk Hp) as [Hr Hu]. apply (S5 b); [lia|done].
Qed.
Lemma bused_spec t b : volume_ok t -> 0 <= b < sb_nblocks t -> wp (sfs_bused b) (fun r t' => t' = t /\ (r <> 0 <-> used t b = true)) t.
Proof.
  intros [Hm Hn Ht Hz Hok Hd] Hb. unfold sfs_bused. wp_simpl. destruct (Z.leb_spec (sb_nblocks t) b); [lia|]. cbv iota. wp_simpl. rewrite wp_zoom.
  eapply wp_mono; [|apply (fm_isset_spec (freemap t) b); [done|lia]]. cbv beta. intros r m [-> Hs]. split; [by destruct t|done].
Qed.
Lemma wp_bused ino s (Q : Z -> fs -> Prop) : volume_ok (volume s) -> 0 <= ino < sb_count (sfs_sb s) -> in_use s ino = true ->
  (forall r, r <> 0 -> Q r s) -> wp (on_volume (sfs_bused ino)) Q s.
Proof.
  intros Hv Hr Hu HQ. apply wp_volume. eapply wp_mono; [|by apply bused_spec]. cbv beta. intros r t [-> Hs].
  replace (put_vol (volume s) s) with s by (by destruct s). apply HQ, Hs, Hu.
Qed.

(** ** Vnodes *)

Definition count s v : Z := default 0 (vn_refcount <$> vnodes s !! v).
Definition one (v x : Z) : Z := if x =? v then 1 else 0.
Definition counts s s' (f : Z -> Z) : Prop := forall v, count s' v = count s v + f v.
Definition persists s s' : Prop := forall w y, vnodes s !! w = Some y -> exists y', vnodes s' !! w = Some y' /\ sv_ino y' = sv_ino y.
Definition all_kept A s s' : Prop := forall ino, A ino -> kept s s' ino.
Lemma kept_all_trans A s1 s2 s3 : all_kept A s1 s2 -> all_kept A s2 s3 -> all_kept A s1 s3.
Proof. intros H1 H2 ino Ha. eapply file_kept_trans; eauto. Qed.
Lemma persists_trans s1 s2 s3 : persists s1 s2 -> persists s2 s3 -> persists s1 s3.
Proof. intros H1 H2 w y Hy. destruct (H1 w y Hy) as (y' & Hy' & E). destruct (H2 w y' Hy') as (y'' & Hy'' & E'). exists y''. split; [done|congruence]. Qed.
Lemma persists_same s s' : vnodes s' = vnodes s -> persists s s'.
Proof. intros E w y. rewrite E. eauto. Qed.
Lemma counts_same s s' : vnodes s' = vnodes s -> counts s s' (fun _ => 0).
Proof. intros E v. unfold count. rewrite E. lia. Qed.
Lemma counts_insert s s' v y f : vnodes s' = <[v := y]> (vnodes s) -> (forall x, f x = if x =? v then vn_refcount y - count s v else 0) -> counts s s' f.
Proof.
  intros E Hf x. rewrite Hf. unfold count. rewrite E. destruct (Z.eqb_spec x v) as [->|]; [rewrite lookup_insert_eq; cbn; lia|]. rewrite lookup_insert_ne by done. lia.
Qed.
Lemma counts_trans s1 s2 s3 f g : counts s1 s2 f -> counts s2 s3 g -> counts s1 s3 (fun x => f x + g x).
Proof. intros H1 H2 x. rewrite H2, H1. lia. Qed.
Lemma persists_insert s s' v x y : vnodes s !! v = Some x -> sv_ino y = sv_ino x -> vnodes s' = <[v := y]> (vnodes s) -> persists s s'.
Proof.
  intros Hx Hi E w z Hz. rewrite E. destruct (decide (w = v)) as [->|]; [rewrite lookup_insert_eq|rewrite lookup_insert_ne by done; eauto]. exists y. split; [done|congruence].
Qed.

(** Another reference count, of at least 1. *)
Lemma refcount_step A s v x n : blocks_ok A s -> vnodes s !! v = Some x -> 1 <= n -> let s' := set_vnodes (<[v := set_refcount n x]> (vnodes s)) s in
  blocks_ok A s' /\ all_kept A s s'.
Proof.
  intros Hk Hx Hn s'. destruct (bk_core A s Hk v x Hx) as (Ha & _). pose proof (bk_table A s Hk) as Htab.
  assert (Htab' : table_ok s') by by eapply (table_update s s' v x (set_refcount n x)).
  assert (Ei' : inode s' (sv_ino x) = inode s (sv_ino x)).
  { rewrite (inode_core s v x) by done. apply (inode_core s' v (set_refcount n x)); [done|]. apply lookup_insert_eq. }
  destruct (vnode_step A s s' v x (set_refcount n x)) as (H1 & H2 & H3 & H4); try done; [by apply meta_eq|apply Hk|by right| | |].
  - destruct (bk_file A s Hk _ Ha) as [F1 F2 F3 F4 F5 F6 F7]. split; rewrite ?Ei'; try done.
    + unfold file. rewrite Ei'. destruct F3 as [[] ? ?]. split; [by split|done|done].
    + split; [exact (proj1 F7)|]. intros b Ho. apply (proj2 F7 b). unfold owned, file in *. by rewrite Ei' in Ho.
  - intros b Hb Hu Hno. split; [done|]. split; [done|]. unfold owned, file in *. by rewrite Ei'.
  - split; [done|]. intros ino Hino. destruct (Z.eq_dec ino (sv_ino x)) as [->|Hne]; [by apply kept_core; [|apply meta_eq|]|by apply H2].
Qed.
Lemma sfs_incref_spec A s v x : blocks_ok A s -> vnodes s !! v = Some x -> wp (VOP_INCREF v) (fun _ s' => blocks_ok A s' /\ all_kept A s s' /\ counts s s' (one v) /\
  persists s s' /\ vnodes s' = <[v := set_refcount (vn_refcount x + 1) x]> (vnodes s)) s.
Proof.
  intros Hk Hx. unfold VOP_INCREF. eapply wp_update; [done|]. pose proof (tk_count s (bk_table A s Hk) v x Hx).
  destruct (refcount_step A s v x (vn_refcount x + 1) Hk Hx ltac:(lia)) as [H1 H2]. split; [done|]. split; [done|]. split; [|split; [by apply (persists_insert s _ v x (set_refcount (vn_refcount x + 1) x))|done]].
  eapply counts_insert; [done|]. intros w. unfold one, count. rewrite Hx. cbn. destruct (w =? v); lia.
Qed.

Lemma find_loop_spec A s ino l : blocks_ok A s -> (forall v, v ∈ l -> v ∈ sfs_vnodes s) ->
  wp (find_loop l ino) (fun r s' => s' = s /\ match r with
    | Some v => v ∈ l /\ exists x, vnodes s !! v = Some x /\ sv_ino x = ino
    | None => forall v x, v ∈ l -> vnodes s !! v = Some x -> sv_ino x <> ino end) s.
Proof.
  intros Hk. induction l as [|v l IH]; intros Hl; cbn [find_loop].
  { wp_simpl. split; [done|]. by intros v x ?%elem_of_nil. }
  destruct (proj1 (tk_live s (bk_table A s Hk) v)) as [x Hx]; [apply Hl; by left|]. destruct (bk_core A s Hk v x Hx) as (Ha & _). destruct (bk_file A s Hk _ Ha) as [F1 F2 _ _ _ _].
  rewrite wp_bind. eapply wp_sv_of; [done|]. rewrite wp_bind. apply wp_bused; [apply Hk|lia|done|]. intros r Hr. destruct (Z.eqb_spec r 0); [done|].
  destruct (Z.eqb_spec (sv_ino x) ino) as [E|Hne]; wp_simpl.
  - split; [done|]. split; [by left|]. eauto.
  - eapply wp_mono; [|apply IH; intros w Hw; apply Hl; by right]. cbv beta. intros [w|] s' [-> Hr']; (split; [done|]).
    + destruct Hr' as [Hw Hex]. split; [by right|done].
    + intros w z [->|Hw]%elem_of_cons Hz; [congruence|eauto].
Qed.

(** A new vnode [v]: for an inode of the volume, with what is on the disk. *)
Lemma load_step A s v ino i waste dirty : blocks_ok A s -> vnodes s !! v = None -> (forall w x, vnodes s !! w = Some x -> sv_ino x <> ino) -> A ino ->
  i = sfs_dinode_of (block s ino) -> waste = sfs_waste_of (block s ino) -> dirty = true \/ block s ino = sfs_dinode_bytes i waste ->
  let s' := set_table (sfs_vnodes s ++ [v]) (set_vnodes (<[v := Sv ino i waste dirty 1]> (vnodes s)) s) in
  blocks_ok A s' /\ all_kept A s s' /\ counts s s' (one v) /\ persists s s'.
Proof.
  intros Hk Hv Hno Ha Hi Hw Hd s'. pose proof (bk_table A s Hk) as [T1 T2 T3 T4].
  assert (Hcount : counts s s' (one v)).
  { eapply counts_insert; [done|]. intros w. unfold one, count. rewrite Hv. cbn. destruct (w =? v); lia. }
  assert (Hper : persists s s').
  { intros w y Hy. exists y. split; [|done]. cbn. rewrite lookup_insert_ne; [done|]. intros <-. congruence. }
  assert (Htab : table_ok s').
  { split; cbn.
    - apply NoDup_app. split; [done|]. split; [|apply NoDup_singleton]. intros w Hw' ->%list_elem_of_singleton. apply T2 in Hw' as [? ?]. congruence.
    - intros w. rewrite elem_of_app, list_elem_of_singleton, lookup_insert_is_Some', T2. naive_solver.
    - intros w y [(<- & <-)|[_ Hy]]%lookup_insert_Some; [cbn; lia|eauto].
    - intros w w' y y' [(<- & <-)|[Hne Hy]]%lookup_insert_Some [(<- & <-)|[Hne' Hy']]%lookup_insert_Some E; cbn in E; [done| | |eauto].
      + by destruct (Hno w' y').
      + by destruct (Hno w y). }
  assert (Hin : forall i', inode s' i' = inode s i').
  { intros i'. destruct (Z.eq_dec i' ino) as [->|Hne].
    - rewrite (inode_disk s ino) by done. rewrite <-Hi. apply (inode_core s' v (Sv ino i waste dirty 1)); [done|]. apply lookup_insert_eq.
    - unfold inode. assert (Ec : in_core s' i' = in_core s i'); [|by rewrite Ec]. apply option_eq. intros z. rewrite !in_core_spec by (done || by split). cbn. split.
      + intros (w & [(<- & <-)|[_ Hz]]%lookup_insert_Some & E); [by cbn in E|eauto].
      + intros (w & Hz & E). exists w. split; [|done]. rewrite lookup_insert_ne; [done|]. intros <-. congruence. }
  assert (Hkept : all_kept A s s') by (intros i' _; apply kept_core; [done|by apply meta_eq|done]).
  split; [|done]. apply (blocks_same A A s s'); try done; [apply Hk|exact (bk_system A s Hk)| | |].
  - cbn. intros w y [(<- & <-)|[_ Hy]]%lookup_insert_Some; [|by apply (bk_core A s Hk w y)]. split; [done|]. cbn. rewrite Hw. apply waste_ok; apply dev_block_ok.
  - cbn. intros w y [(<- & <-)|[_ Hy]]%lookup_insert_Some Hcl; [|by apply (bk_clean A s Hk w y)]. cbn in *. destruct Hd as [?|?]; [congruence|done].
  - intros i' Hi'. split; [by apply Hkept|]. destruct (in_use_ino A s i' Hk Hi'). split; [done|]. intros b Ho. by apply (owned_range A s i' b Hk Hi' Ho).
Qed.

(** A new vnode [v] for an inode that did not exist: no file has its block. *)
Definition new_inode : dinode := set_type SFS_TYPE_FILE no_inode.
Lemma new_owned s v b : inode s v = new_inode -> ~ owned s v b.
Proof.
  intros Hi [Hb0 Hin]. unfold slots, refs, ind_words in Hin. cbn [sv_i file vol] in Hin. rewrite Hi in Hin. cbn in Hin.
  repeat (apply elem_of_cons in Hin as [?|Hin]; [done|]). by apply elem_of_nil in Hin.
Qed.
Lemma new_wf s v : volume_ok (volume s) -> inode s v = new_inode -> wf (file s v).
Proof.
  intros Hv Hi. split; [by apply volume_dirty|cbn; by rewrite Hi|].
  assert (Hz : slots (file s v) = replicate 144 0) by (unfold slots, refs, ind_words; cbn [sv_i file vol]; by rewrite Hi).
  rewrite Hz. split; [by intros k b [-> _]%lookup_replicate|]. by intros i j b [-> _]%lookup_replicate.
Qed.
Lemma load_new A s v ino waste : blocks_ok A s -> vnodes s !! v = None -> ~ A ino -> 0 < ino < sb_count (sfs_sb s) -> in_use s ino = true ->
  (forall i, A i -> ~ owned s i ino) -> ~ system s ino -> waste = sfs_waste_of (block s ino) ->
  let s' := set_table (sfs_vnodes s ++ [v]) (set_vnodes (<[v := Sv ino new_inode waste true 1]> (vnodes s)) s) in
  blocks_ok (fun i => A i \/ i = ino) s' /\ all_kept A s s' /\ counts s s' (one v) /\ persists s s'.
Proof.
  intros Hk Hv Hna Hr Hu Hno Hsys Hw s'. pose proof (bk_table A s Hk) as [T1 T2 T3 T4].
  assert (Hcore : forall w x, vnodes s !! w = Some x -> sv_ino x <> ino) by (intros w x Hx <-; by destruct (bk_core A s Hk w x Hx)).
  assert (Hcount : counts s s' (one v)).
  { eapply counts_insert; [done|]. intros w. unfold one, count. rewrite Hv. cbn. destruct (w =? v); lia. }
  assert (Hper : persists s s').
  { intros w y Hy. exists y. split; [|done]. cbn. rewrite lookup_insert_ne; [done|]. intros <-. congruence. }
  assert (Htab : table_ok s').
  { split; cbn.
    - apply NoDup_app. split; [done|]. split; [|apply NoDup_singleton]. intros w Hw' ->%list_elem_of_singleton. apply T2 in Hw' as [? ?]. congruence.
    - intros w. rewrite elem_of_app, list_elem_of_singleton, lookup_insert_is_Some', T2. naive_solver.
    - intros w y [(<- & <-)|[_ Hy]]%lookup_insert_Some; [cbn; lia|eauto].
    - intros w w' y y' [(<- & <-)|[Hne Hy]]%lookup_insert_Some [(<- & <-)|[Hne' Hy']]%lookup_insert_Some E; cbn in E; [done| | |eauto].
      + by destruct (Hcore w' y').
      + by destruct (Hcore w y). }
  assert (Hnew : inode s' ino = new_inode) by (apply (inode_core s' v (Sv ino new_inode waste true 1) Htab); apply lookup_insert_eq).
  assert (Hin : forall i, i <> ino -> inode s' i = inode s i).
  { intros i Hne. unfold inode. assert (Ec : in_core s' i = in_core s i); [|by rewrite Ec]. apply option_eq. intros z. rewrite !in_core_spec by (done || by split). cbn. split.
    + intros (w & [(<- & <-)|[_ Hz]]%lookup_insert_Some & E); [by cbn in E|eauto].
    + intros (w & Hz & E). exists w. split; [|done]. rewrite lookup_insert_ne; [done|]. intros <-. congruence. }
  assert (Hkept : all_kept A s s') by (intros i Ha; apply kept_core; [apply Hin; by intros ->|by apply meta_eq|done]).
  split; [|done]. apply (blocks_change A s s'); try done; [apply Hk|exact (bk_system A s Hk)| | | | | |].
  - cbn. intros w y [(<- & <-)|[_ Hy]]%lookup_insert_Some.
    + split; [by right|]. cbn. rewrite Hw. apply waste_ok; apply dev_block_ok.
    + destruct (bk_core A s Hk w y Hy) as (H1 & H2 & H3). auto.
  - cbn. intros w y [(<- & <-)|[_ Hy]]%lookup_insert_Some Hcl; [done|by apply (bk_clean A s Hk w y)].
  - intros i Ha Hne. split; [by apply Hkept|]. destruct (in_use_ino A s i Hk Ha). split; [done|]. split; [|by apply Hno]. intros b Ho. by apply (owned_range A s i b Hk Ha Ho).
  - split; rewrite ?Hnew; try done; [apply (new_wf s'); [apply Hk|done]|by left|]. split; [done|]. intros b Ho. by apply new_owned in Ho.
  - intros i b Ha Hne Ho. by apply new_owned.
  - intros i _. by apply new_owned.
Qed.

Lemma wp_sfs_kmalloc (Q : bool -> fs -> Prop) s : (forall (ok : bool) m, Q ok (set_memory m s)) -> wp kmalloc Q s.
Proof. intros HQ. unfold kmalloc. wp_simpl. apply HQ. Qed.
Lemma memory_step A m s : blocks_ok A s -> blocks_ok A (set_memory m s) /\ all_kept A s (set_memory m s).
Proof. intros Hk. apply volume_step; try done; [by apply meta_eq|apply Hk|]. intros b Hp. by destruct (protected A s b Hk Hp). Qed.

(** Nothing that the files see has changed. *)
Definition quiet A s s' : Prop := blocks_ok A s' /\ all_kept A s s' /\ vnodes s' = vnodes s /\ sfs_sb s' = sfs_sb s /\ sfs_freemap s' = sfs_freemap s /\ forall b, block s' b = block s b.
Lemma quiet_refl A s : blocks_ok A s -> quiet A s s.
Proof. intros Hk. split; [done|]. split; [intros i _; apply file_kept_refl|done]. Qed.
Lemma quiet_trans A s1 s2 s3 : quiet A s1 s2 -> quiet A s2 s3 -> quiet A s1 s3.
Proof.
  intros (A1 & A2 & A3 & A4 & A5 & A6) (B1 & B2 & B3 & B4 & B5 & B6). split; [done|]. split; [by eapply kept_all_trans|]. split_and!; [congruence..|]. intros b. by rewrite B6.
Qed.
Lemma quiet_memory A m s : blocks_ok A s -> quiet A s (set_memory m s).
Proof. intros Hk. destruct (memory_step A m s Hk). by split_and!. Qed.
Lemma quiet_disk A s t' : blocks_ok A s -> same_disk (volume s) t' -> quiet A s (put_vol t' s).
Proof. intros Hk Hs. destruct (same_disk_step A s t' Hk Hs). destruct Hs as (d & -> & _ & Hd). by split_and!. Qed.

Definition loaded A s ino (r : Z * option Z) s' : Prop :=
  exists v x, r = (0, Some v) /\ blocks_ok A s' /\ vnodes s' !! v = Some x /\ sv_ino x = ino /\ counts s s' (one v) /\ persists s s'.
Lemma find_eq A s ino : blocks_ok A s -> wp (find_loop (sfs_vnodes s) ino) (fun r s' => s' = s /\ match r with
    | Some v => exists x, vnodes s !! v = Some x /\ sv_ino x = ino
    | None => forall v x, vnodes s !! v = Some x -> sv_ino x <> ino end) s.
Proof.
  intros Hk. eapply wp_mono; [|by apply (find_loop_spec A)]. cbv beta. intros [v|] s' [-> Hr]; (split; [done|]); [by destruct Hr|].
  intros v x Hx. apply (Hr v x); [|done]. apply (tk_live s (bk_table A s Hk)). by eexists.
Qed.
Lemma loaded_later A s1 s2 ino r s3 : quiet A s1 s2 -> loaded A s2 ino r s3 -> loaded A s1 ino r s3.
Proof.
  intros (_ & _ & Hm & _) (v & x & Hr & Hk & Hx & Hi & Hc & Hp). exists v, x. split_and!; try done.
  - intros w. rewrite Hc. unfold count. by rewrite Hm.
  - eapply persists_trans; [by apply persists_same|done].
Qed.
(** An inode of the volume. *)
Lemma loadvnode_spec A s ino : blocks_ok A s -> A ino -> wp (sfs_loadvnode ino SFS_TYPE_INVAL) (fun r s' =>
  loaded A s ino r s' /\ all_kept A s s' \/ r.1 <> 0 /\ r.1 <> ENOENT /\ r.2 = None /\ quiet A s s') s.
Proof.
  intros Hk Ha. unfold sfs_loadvnode. wp_simpl. eapply wp_mono; [|by apply (find_eq A)]. cbv beta. intros [v|] s' [-> Hf].
  - destruct Hf as (x & Hx & Hi). rewrite wp_bind, wp_KASSERT. split; [done|]. rewrite wp_bind. eapply wp_mono; [|by apply (sfs_incref_spec A s v x)].
    cbv beta. intros _ s' (H1 & H2 & H3 & H4 & H5). wp_simpl. left. split; [|done]. exists v, (set_refcount (vn_refcount x + 1) x). split_and!; try done. rewrite H5. apply lookup_insert_eq.
  - destruct (bk_file A s Hk ino Ha) as [F1 F2 _ _ F5 _]. rewrite wp_bind. apply wp_sfs_kmalloc. intros room m. set (s1 := set_memory m s).
    assert (Hq1 : quiet A s s1) by by apply quiet_memory. destruct room; cbn [negb]; wp_simpl; [|by right].
    assert (Hk1 : blocks_ok A s1) by apply Hq1. apply wp_bused; [apply Hk1|unfold s1; cbn; lia|done|]. intros u Hu. destruct (Z.eqb_spec u 0); [done|]. wp_simpl.
    apply wp_volume. pose proof (vo_dev _ (bk_volume A s Hk)) as Hdev. cbn [sb_nblocks volume vol] in Hdev.
    eapply wp_mono; [|apply (readblock_spec (volume s1)); [apply (vo_ok _ (bk_volume A s Hk))|lia]]. cbv beta. intros [e data] t (Hs & Hd & Hne). cbn [fst snd] in *.
    assert (Hq2 : quiet A s (put_vol t s1)) by (eapply quiet_trans; [exact Hq1|by apply quiet_disk]). set (s2 := put_vol t s1) in *. wp_simpl.
    destruct (Z.eqb_spec e 0) as [->|He]; cbn [negb]; wp_simpl; [|by right]. specialize (Hd eq_refl). pose proof Hq2 as (Hk2 & _ & Hm2 & _ & _ & Hb2).
    assert (Hdata : data = block s2 ino) by (rewrite Hd, Hb2; done). assert (Hnc : forall w x, vnodes s2 !! w = Some x -> sv_ino x <> ino) by (intros w x; rewrite Hm2; apply Hf).
    assert (Hino : sfs_dinode_of data = inode s ino) by (rewrite (inode_disk s ino) by (done || apply Hk); by rewrite Hdata, Hb2).
    assert (Hty : (sfi_type (sfs_dinode_of data) =? SFS_TYPE_FILE) || (sfi_type (sfs_dinode_of data) =? SFS_TYPE_DIR) = true).
    { rewrite Hino. destruct F5 as [->| ->]; done. }
    change (SFS_TYPE_INVAL =? SFS_TYPE_INVAL) with true. cbn [negb]. wp_simpl. rewrite Hty. cbn [negb]. rewrite wp_bind. apply wp_sfs_kmalloc. intros room m3. set (s3 := set_memory m3 s2).
    assert (Hq3 : quiet A s s3) by (eapply quiet_trans; [exact Hq2|by apply quiet_memory]). destruct room; cbn [negb]; wp_simpl; [|by right].
    set (v := base.fresh (dom (vnodes s3))). assert (Hv : vnodes s3 !! v = None) by (apply not_elem_of_dom, (is_fresh (dom (vnodes s3)))).
    destruct (load_step A s3 v ino (sfs_dinode_of data) (sfs_waste_of data) false) as (L1 & L2 & L3 & L4); try done; [apply Hq3|by rewrite Hdata|by rewrite Hdata| |].
    { right. change (block s3 ino) with (block s2 ino). rewrite <-Hdata. symmetry. apply bytes_roundtrip; rewrite Hdata; apply dev_block_ok. }
    left. split; [|eapply kept_all_trans; [apply Hq3|exact L2]]. eapply loaded_later; [exact Hq3|]. exists v, (Sv ino (sfs_dinode_of data) (sfs_waste_of data) false 1). split_and!; try done. apply lookup_insert_eq.
Qed.

(** [sfs_bfree] of a block that no file needs. *)
Lemma bfree_step A s ino t' : blocks_ok A s -> ~ A ino -> (forall i, A i -> ~ owned s i ino) -> ~ system s ino -> 0 < ino -> freed ino (volume s) t' -> touch (volume s) t' ->
  blocks_ok A (put_vol t' s) /\ all_kept A s (put_vol t' s).
Proof.
  intros Hk Hna Hno Hsys Hpos (Hv & Hi & Hn & Hd & Hu) Ht. apply volume_step; try done.
  - by eapply meta_put.
  - destruct Hv as [V1 V2 V3 V4 V5 V6]. cbn in Hn. split; unfold used in *; cbn; rewrite <-?Hn; done.
  - intros b Hp. destruct (protected A s b Hk Hp) as [Hr Hub]. unfold in_use, block in *. cbn. rewrite Hd. split; [|done]. change (used t' b = true). rewrite Hu by lia. unfold used. cbn. rewrite Hub.
    destruct (Z.eqb_spec ino b) as [->|]; [|done]. exfalso. destruct Hp as [Ha|[(i & Ha & Ho)|Hs]]; [done|by apply (Hno i)|done].
Qed.
Definition made A s ino (r : Z * option Z) s' : Prop :=
  exists v x, r = (0, Some v) /\ ~ A ino /\ blocks_ok (fun i => A i \/ i = ino) s' /\ vnodes s !! v = None /\ vnodes s' !! v = Some x /\ sv_ino x = ino /\ sv_inode x = new_inode /\
    vn_refcount x = 1 /\ counts s s' (one v) /\ persists s s'.
(** The vnode for a block that was just allocated. *)
Lemma load_fresh A s ino : blocks_ok A s -> ~ A ino -> 0 < ino < sb_count (sfs_sb s) -> in_use s ino = true -> (forall i, A i -> ~ owned s i ino) -> ~ system s ino -> block s ino = zeros ->
  wp (sfs_loadvnode ino SFS_TYPE_FILE) (fun r s' => made A s ino r s' /\ all_kept A s s' \/ r.1 <> 0 /\ r.2 = None /\ quiet A s s') s.
Proof.
  intros Hk Hna Hr Hu Hno Hsys Hz. assert (Hnc : forall w x, vnodes s !! w = Some x -> sv_ino x <> ino) by (intros w x Hx <-; by destruct (bk_core A s Hk w x Hx)).
  unfold sfs_loadvnode. wp_simpl. eapply wp_mono; [|by apply (find_eq A)]. cbv beta. intros [v|] s' [-> Hf]; [destruct Hf as (x & Hx & Hi); by destruct (Hnc v x)|].
  rewrite wp_bind. apply wp_sfs_kmalloc. intros room m. set (s1 := set_memory m s).
  assert (Hq1 : quiet A s s1) by by apply quiet_memory. destruct room; cbn [negb]; wp_simpl; [|by right].
  assert (Hk1 : blocks_ok A s1) by apply Hq1. apply wp_bused; [apply Hk1|unfold s1; cbn; lia|done|]. intros u Hu'. destruct (Z.eqb_spec u 0); [done|]. wp_simpl.
  apply wp_volume. pose proof (vo_dev _ (bk_volume A s Hk)) as Hdev. cbn [sb_nblocks volume vol] in Hdev.
  eapply wp_mono; [|apply (readblock_spec (volume s1)); [apply (vo_ok _ (bk_volume A s Hk))|lia]]. cbv beta. intros [e data] t (Hs & Hd & Hne). cbn [fst snd] in *.
  assert (Hq2 : quiet A s (put_vol t s1)) by (eapply quiet_trans; [exact Hq1|by apply quiet_disk]). set (s2 := put_vol t s1) in *. wp_simpl.
  destruct (Z.eqb_spec e 0) as [->|He]; cbn [negb]; wp_simpl; [|by right]. specialize (Hd eq_refl). pose proof Hq2 as (Hk2 & Hke2 & Hm2 & Hsb2 & Hfm2 & Hb2).
  assert (Hdata : data = block s2 ino) by (rewrite Hd, Hb2; done). assert (Hino : sfs_dinode_of data = no_inode) by (rewrite Hdata, Hb2, Hz; apply dinode_zeros).
  change (SFS_TYPE_FILE =? SFS_TYPE_INVAL) with false. cbn [negb]. rewrite Hino. wp_simpl. rewrite wp_KASSERT. split; [done|]. wp_simpl.
  change ((sfi_type (set_type SFS_TYPE_FILE no_inode) =? SFS_TYPE_FILE) || (sfi_type (set_type SFS_TYPE_FILE no_inode) =? SFS_TYPE_DIR)) with true. cbn [negb].
  rewrite wp_bind. apply wp_sfs_kmalloc. intros room m3. set (s3 := set_memory m3 s2).
  assert (Hq3 : quiet A s s3) by (eapply quiet_trans; [exact Hq2|by apply quiet_memory]). destruct room; cbn [negb]; wp_simpl; [|by right].
  set (v := base.fresh (dom (vnodes s3))). assert (Hv : vnodes s3 !! v = None) by (apply not_elem_of_dom, (is_fresh (dom (vnodes s3)))).
  destruct (load_new A s3 v ino (sfs_waste_of data)) as (L1 & L2 & L3 & L4); try done.
  - apply Hq3.
  - change (in_use s2 ino = true). unfold in_use. by rewrite Hfm2.
  - intros i Ha. rewrite (kept_owned s s3) by (by apply Hq3). by apply Hno.
  - by rewrite Hdata.
  - left. split; [|eapply kept_all_trans; [apply Hq3|exact L2]]. exists v, (Sv ino new_inode (sfs_waste_of data) true 1).
    assert (Hv0 : vnodes s !! v = None) by (rewrite <-Hm2; exact Hv). split_and!; [done|done|done|done|apply lookup_insert_eq|done|done|done| |].
    + intros w. rewrite L3. unfold count. change (vnodes s3) with (vnodes s2). by rewrite Hm2.
    + eapply persists_trans; [|exact L4]. by apply persists_same.
Qed.
Lemma counts_eq s s1 s2 f : vnodes s1 = vnodes s -> counts s1 s2 f -> counts s s2 f.
Proof. intros E Hc v. rewrite Hc. unfold count. by rewrite E. Qed.
Lemma makeobj_spec A s : blocks_ok A s -> wp (sfs_makeobj SFS_TYPE_FILE) (fun r s' =>
  (exists ino, made A s ino r s') /\ all_kept A s s' \/ r.1 <> 0 /\ r.2 = None /\ blocks_ok A s' /\ all_kept A s s' /\ vnodes s' = vnodes s) s.
Proof.
  intros Hk. unfold sfs_makeobj. rewrite wp_bind. apply wp_volume. eapply wp_mono; [|apply (keeps_wp touch); [reflexivity|intros ?; apply balloc_touch|apply balloc_spec, Hk]].
  cbv beta. intros [e ino] t [[Hst Hok] Htc]. cbn [fst snd] in *. destruct (steady_step A s t Hk Hst Htc) as [Hk1 Hke1]. set (s1 := put_vol t s) in *. destruct (Z.eqb_spec e 0) as [->|He]; cbn [negb]; wp_simpl; [|by right].
  destruct (Hok eq_refl) as (Hr & Hfree & Hused & Hz). cbn [sb_nblocks volume vol] in Hr.
  assert (Hnot : forall b, A b \/ (exists i, A i /\ owned s i b) \/ system s b -> b <> ino) by (intros b Hp ->; destruct (protected A s ino Hk Hp) as [_ Hu]; unfold in_use, used in *; cbn in Hfree; congruence).
  assert (Hna : ~ A ino) by (intros Ha; by apply (Hnot ino); [left|]).
  assert (Hsys : ~ system s ino) by (intros Hs; apply (Hnot ino); [auto|done]).
  assert (Hno1 : forall i, A i -> ~ owned s1 i ino) by (intros i Ha; rewrite (kept_owned s s1) by (by apply Hke1); intros Ho; apply (Hnot ino); [eauto|done]).
  eapply wp_mono; [|by apply (load_fresh A s1 ino)]. cbv beta. intros [e v] s2 [[(w & x & [= -> ->] & Hm) Hke2]|(He & Ho & Hq)]; cbn [fst snd] in *.
  - cbn [Z.eqb negb]. wp_simpl. left. split; [|by eapply kept_all_trans]. exists ino, w, x. destruct Hm as (M1 & M2 & M3 & M4 & M5 & M6 & M7 & M8 & M9). by split_and!.
  - destruct (Z.eqb_spec e 0); [done|]. subst v. cbn [negb]. wp_simpl. destruct Hq as (Hk2 & Hke2 & Hm2 & Hsb2 & Hfm2 & Hb2). apply wp_volume.
    eapply wp_mono; [|apply (keeps_wp touch); [reflexivity|intros ?; apply bfree_touch|apply (bfree_spec (volume s2)); [apply Hk2| |]]].
    + cbv beta. intros _ t2 [Hfr Htc2]. wp_simpl. right. destruct (bfree_step A s2 ino t2 Hk2 Hna) as [Hk3 Hke3]; [|rewrite (system_same s s2) by (by rewrite Hsb2); exact Hsys|lia|done|done|].
      { intros i Ha. rewrite (kept_owned s1 s2) by (by apply Hke2). by apply Hno1. }
      split_and!; [done|done|done| |done]. eapply kept_all_trans; [exact Hke1|]. by eapply kept_all_trans.
    + cbn [sb_nblocks volume vol]. rewrite Hsb2. exact Hr.
    + unfold used. cbn. rewrite Hfm2. exact Hused.
Qed.

(** ** Inodes are written back, and vnodes dropped *)

Lemma file_fits s ino : file_ok s ino -> fits (inode s ino).
Proof.
  intros [F1 F2 F3 F4 F5 F6]. pose proof (vo_dev _ (wf_volume _ F3)) as Hd. pose proof (dev_blocks_fit (D:=D)) as Hf. cbn [sb_nblocks file vol] in Hd.
  assert (Hr : forall k b, slots (file s ino) !! k = Some b -> is_word b).
  { intros k b Hb. destruct (Z.eq_dec b 0) as [->|Hb0]; [by unfold is_word|]. destruct (so_range _ _ _ (wf_slots _ F3) k b Hb Hb0) as [Hr _]. cbn [sb_nblocks file vol] in Hr. unfold is_word. lia. }
  split; [done| |done|exact (wf_direct _ F3)| |].
  - destruct F5 as [->| ->]; unfold SFS_TYPE_FILE, SFS_TYPE_DIR; lia.
  - apply Forall_lookup. intros k b Hb. apply (Hr (S k)). cbn. unfold refs. cbn [sv_i file vol]. by apply lookup_app_l_Some.
  - by apply (Hr O).
Qed.
Lemma bytes_of_inode A s v x : blocks_ok A s -> vnodes s !! v = Some x -> length (sfs_dinode_bytes (sv_inode x) (sv_waste x)) = 512%nat /\ Forall is_byte (sfs_dinode_bytes (sv_inode x) (sv_waste x)) /\
  sfs_dinode_of (sfs_dinode_bytes (sv_inode x) (sv_waste x)) = sv_inode x.
Proof.
  intros Hk Hx. destruct (bk_core A s Hk v x Hx) as (Ha & Hl & Hy). pose proof (file_fits s _ (bk_file A s Hk _ Ha)) as Hf. rewrite (inode_core s v x) in Hf by (done || apply Hk).
  destruct (dinode_bytes_ok (sv_inode x) (sv_waste x) (ft_length _ Hf) Hl Hy). split; [done|]. split; [done|]. by apply dinode_roundtrip.
Qed.
(** The inode is on the disk now, and not marked. *)
Lemma synced_step A s v x d : blocks_ok A s -> vnodes s !! v = Some x -> dev_step (sfs_device s) d -> dev_block d (sv_ino x) = sfs_dinode_bytes (sv_inode x) (sv_waste x) ->
  (forall b, b <> sv_ino x -> dev_block d b = block s b) ->
  let s' := set_vnodes (<[v := set_modified false x]> (vnodes s)) (put_vol (set_device d (volume s)) s) in blocks_ok A s' /\ all_kept A s s'.
Proof.
  intros Hk Hx Hst Hown Hoth s'. pose proof (bk_table A s Hk) as Htab. destruct (bk_core A s Hk v x Hx) as (Ha & Hlen & Hby).
  assert (Htab' : table_ok s') by (eapply (table_update s s' v x (set_modified false x)); [done|done|done|exact (tk_count s Htab v x Hx)|done|done]).
  assert (Hblk : forall i, A i -> i <> sv_ino x -> block s' i = block s i) by (intros i _ Hne; by apply Hoth).
  assert (Hother : forall i b, A i -> owned s i b \/ system s b -> block s' b = block s b).
  { intros i b Hi Hb. apply Hoth. intros ->. destruct Hb as [Ho|Hs]; [by apply (bk_inos A s Hk i (sv_ino x))|]. by apply (fk_system _ _ (bk_file A s Hk _ Ha)). }
  assert (Hkept : all_kept A s s').
  { intros i Hi. split; [split|split; [by apply meta_eq|]]; [|intros b Hb; apply (Hother i); auto..]. destruct (Z.eq_dec i (sv_ino x)) as [->|Hne].
    - rewrite (inode_core s v x) by done. apply (inode_core s' v (set_modified false x)); [done|apply lookup_insert_eq].
    - unfold inode. rewrite (core_other s s' v x (set_modified false x) i) by done. case_match; [done|]. f_equal. by apply Hblk. }
  split; [|done]. apply (blocks_same A A s s'); try done.
  - pose proof (set_device_volume (volume s) d (bk_volume A s Hk) Hst) as []. by split.
  - exact (bk_system A s Hk).
  - cbn. intros w y [(<- & <-)|[_ Hy]]%lookup_insert_Some; [done|by apply (bk_core A s Hk w y)].
  - cbn. intros w y [(<- & <-)|[Hne Hy]]%lookup_insert_Some Hcl; [done|]. destruct (bk_core A s Hk w y Hy) as (Hay & _).
    rewrite Hblk; [by apply (bk_clean A s Hk w y)|done|]. intros E. apply Hne. symmetry. by apply (tk_one s Htab w v y x).
  - intros i Hi. split; [by apply Hkept|]. destruct (in_use_ino A s i Hk Hi). split; [done|]. intros b Ho. by apply (owned_range A s i b Hk Hi Ho).
Qed.

(** The vnode is gone, its inode is on the disk. *)
Lemma unload_step A s v x l : blocks_ok A s -> vnodes s !! v = Some x -> sv_modified x = false -> sfs_vnodes s ≡ₚ v :: l ->
  let s' := set_vnodes (delete v (vnodes s)) (set_table l s) in blocks_ok A s' /\ all_kept A s s'.
Proof.
  intros Hk Hx Hcl Hl s'. pose proof (bk_table A s Hk) as [T1 T2 T3 T4]. destruct (bytes_of_inode A s v x Hk Hx) as (_ & _ & Hrt).
  assert (Hm : forall w y, vnodes s' !! w = Some y -> v <> w /\ vnodes s !! w = Some y) by (cbn; by intros w y ?%lookup_delete_Some).
  assert (Htab : table_ok s').
  { rewrite Hl in T1. apply NoDup_cons in T1 as [T1 T1']. split; cbn.
    - done.
    - intros w. rewrite lookup_delete_is_Some, <-T2, Hl, elem_of_cons. split; [|naive_solver]. intros Hw. split; [by intros ->|by right].
    - intros w y [_ Hy]%Hm. eauto.
    - intros w w' y y' [_ Hy]%Hm [_ Hy']%Hm. eauto. }
  assert (Hin : forall i, inode s' i = inode s i).
  { intros i. destruct (Z.eq_dec i (sv_ino x)) as [->|Hne].
    - rewrite (inode_core s v x) by (done || by split). rewrite (inode_disk s'); [|done|].
      + unfold block, s'. cbn. change (dev_block (sfs_device s) (sv_ino x)) with (block s (sv_ino x)). by rewrite (bk_clean A s Hk v x).
      + intros w y [Hne Hy]%Hm E. by apply Hne, (T4 v w x y).
    - unfold inode. assert (Ec : in_core s' i = in_core s i); [|by rewrite Ec]. apply option_eq. intros z. rewrite !in_core_spec by (done || by split). split.
      + intros (w & [_ Hz]%Hm & E). eauto.
      + intros (w & Hz & E). exists w. split; [|done]. cbn. rewrite lookup_delete_ne; [done|]. intros <-. congruence. }
  assert (Hkept : all_kept A s s') by (intros i _; apply kept_core; [done|by apply meta_eq|done]).
  split; [|done]. apply (blocks_same A A s s'); try done; [apply Hk|exact (bk_system A s Hk)| | |].
  - intros w y [_ Hy]%Hm. by apply (bk_core A s Hk w y).
  - intros w y [_ Hy]%Hm. by apply (bk_clean A s Hk w y).
  - intros i Hi. split; [by apply Hkept|]. destruct (in_use_ino A s i Hk Hi). split; [done|]. intros b Ho. by apply (owned_range A s i b Hk Hi Ho).
Qed.
Lemma vnode_index_spec l v : forall i, v ∈ l -> exists j : nat, vnode_index l i v = Some (i + Z.of_nat j) /\ l !! j = Some v.
Proof.
  induction l as [|w l IH]; intros i Hv; [by apply elem_of_nil in Hv|]. cbn [vnode_index]. destruct (Z.eqb_spec w v) as [->|Hne].
  - exists O. split; [f_equal; lia|done].
  - apply elem_of_cons in Hv as [?|Hv]; [done|]. destruct (IH (i + 1) Hv) as (j & -> & Hj). exists (S j). split; [f_equal; lia|done].
Qed.

(** ** The directory *)

Definition root s : Sfs.sfs B D := file s SFS_ROOTDIR_INO.
Definition dirmap s : gmap (list Z) Z := dir_map (entries (root s)).
(** An inode that a name or a vnode refers to. *)
Definition alive s ino : Prop := ino = SFS_ROOTDIR_INO \/ (exists v x, vnodes s !! v = Some x /\ sv_ino x = ino) \/ exists name, dirmap s !! name = Some ino.
Definition nlinks (m : gmap (list Z) Z) ino : Z := Z.of_nat (size (filter (fun p => p.2 = ino) m)).
Record fs_ok s : Prop := {
  ok_blocks : blocks_ok (alive s) s;
  ok_root : dir_ok (root s);
  ok_rootlinks : 0 < sfi_linkcount (inode s SFS_ROOTDIR_INO);
  ok_noroot : forall name, dirmap s !! name <> Some SFS_ROOTDIR_INO;
  ok_files : forall ino, alive s ino -> ino <> SFS_ROOTDIR_INO -> sfi_type (inode s ino) = SFS_TYPE_FILE /\ sfi_linkcount (inode s ino) = nlinks (dirmap s) ino }.
(** In the middle of an operation: with [m] for the directory, [L] for the link counts. *)
Record part_ok (A : Z -> Prop) (m : gmap (list Z) Z) (L : Z -> Z) s : Prop := {
  po_blocks : blocks_ok A s;
  po_root : dir_ok (root s);
  po_map : dirmap s = m;
  po_rootin : A SFS_ROOTDIR_INO;
  po_rootlinks : 0 < sfi_linkcount (inode s SFS_ROOTDIR_INO);
  po_names : forall name ino, m !! name = Some ino -> A ino /\ ino <> SFS_ROOTDIR_INO;
  po_files : forall ino, A ino -> ino <> SFS_ROOTDIR_INO -> sfi_type (inode s ino) = SFS_TYPE_FILE /\ sfi_linkcount (inode s ino) = L ino }.
Lemma part_start s : fs_ok s -> part_ok (alive s) (dirmap s) (nlinks (dirmap s)) s.
Proof.
  intros [O1 O2 O3 O4 O5]. split; try done; [by left|]. intros name ino Hn. split; [right; right; eauto|]. intros ->. by apply (O4 name).
Qed.
Lemma part_end (A : Z -> Prop) m L s : part_ok A m L s -> (forall ino, A ino -> ino <> SFS_ROOTDIR_INO -> L ino = nlinks m ino) -> fs_ok s /\ dirmap s = m /\ forall ino, alive s ino -> A ino.
Proof.
  intros [P1 P2 P3 P4 P5 P6 P7] HL.
  assert (Hsub : forall ino, alive s ino -> A ino).
  { intros ino [->|[(v & x & Hx & <-)|(name & Hn)]]; [done|apply (bk_core A s P1 v x Hx)|]. rewrite P3 in Hn. by destruct (P6 name ino Hn). }
  split; [|done]. split; try done.
  - apply (blocks_sub A); [done|done|]. intros v x Hx. right; left. eauto.
  - intros name Hn. rewrite P3 in Hn. by destruct (P6 _ _ Hn).
  - intros ino Ha Hne. rewrite P3. destruct (P7 ino (Hsub ino Ha) Hne) as [H1 H2]. split; [done|]. rewrite H2. by apply HL; [apply Hsub|].
Qed.

(** Other files keep their data. *)
Implicit Types (A : Z -> Prop) (L : Z -> Z) (m : gmap (list Z) Z).
Definition same_data A s s' : Prop := forall ino, A ino -> ino <> SFS_ROOTDIR_INO -> file_bytes (file s' ino) = file_bytes (file s ino) /\ sfi_size (inode s' ino) = sfi_size (inode s ino).
Definition data_kept A s s' : Prop := sys_same s s' /\ same_data A s s'.
Lemma data_refl A s : data_kept A s s.
Proof. split; [apply sys_same_refl|done]. Qed.
Lemma data_trans A s1 s2 s3 : data_kept A s1 s2 -> data_kept A s2 s3 -> data_kept A s1 s3.
Proof. intros [S1 H1] [S2 H2]. split; [by eapply sys_same_trans|]. intros ino Ha Hne. destruct (H1 ino Ha Hne), (H2 ino Ha Hne). split; congruence. Qed.
Lemma data_sub (A A' : Z -> Prop) s1 s2 : data_kept A s1 s2 -> (forall ino, A' ino -> A ino) -> data_kept A' s1 s2.
Proof. intros [S H] Hs. split; [done|]. intros ino Ha. by apply H, Hs. Qed.
Lemma kept_sys s s' ino : kept s s' ino -> sys_same s s'.
Proof. by intros [_ Hs]. Qed.
Lemma kept_data A s s' : A SFS_ROOTDIR_INO -> all_kept A s s' -> data_kept A s s'.
Proof. intros Hr Hk. split; [by eapply kept_sys, Hk|]. intros ino Ha _. split; [by apply kept_bytes, Hk|]. by rewrite (kept_inode _ _ _ (Hk ino Ha)). Qed.
Lemma dir_dirty i (d d' : bool) s : dir_ok (vol i d s) -> dir_ok (vol i d' s).
Proof. intros [[Hw Hz] H2 H3 H4]. split; [|done|done|done]. split; [by eapply wf_dirty|done]. Qed.

Lemma kept_root s s' : file_same s s' SFS_ROOTDIR_INO -> entries (root s') = entries (root s).
Proof.
  intros Hk. unfold entries, nslots. cbn [bf_size bf_bytes sfs_bytefile]. unfold root. rewrite (kept_bytes s s') by done. cbn [sv_i file vol]. by rewrite (proj1 Hk).
Qed.
Lemma kept_root_ok A s s' : blocks_ok A s' -> A SFS_ROOTDIR_INO -> file_same s s' SFS_ROOTDIR_INO -> dir_ok (root s) -> dir_ok (root s').
Proof.
  intros Hb Ha Hk [[Hw Hz] D2 D3 D4]. pose proof (proj1 Hk) as Hi. split; [|cbn; rewrite Hi; exact D2|cbn; rewrite Hi; exact D3|by rewrite (kept_root s s')].
  split; [apply (fk_wf _ _ (bk_file A s' Hb _ Ha))|]. cbn. rewrite Hi. exact Hz.
Qed.
(** Steps that keep the files of [A'], where the names and the vnodes are. *)
Lemma part_kept A A' m L s s' : part_ok A m L s -> blocks_ok A' s' -> (forall ino, A' ino -> file_same s s' ino) -> (forall ino, A' ino -> A ino) -> A' SFS_ROOTDIR_INO ->
  (forall name ino, m !! name = Some ino -> A' ino) -> part_ok A' m L s'.
Proof.
  intros [P1 P2 P3 P4 P5 P6 P7] Hk Hke Hsub Hroot Hnames. pose proof (Hke _ Hroot) as Hkr. split; try done.
  - by apply (kept_root_ok A' s).
  - unfold dirmap. by rewrite (kept_root s s').
  - by rewrite (proj1 Hkr).
  - intros name ino Hn. split; [by eapply Hnames|]. by destruct (P6 name ino Hn).
  - intros ino Ha Hne. rewrite (proj1 (Hke ino Ha)). apply P7; auto.
Qed.
(** A step of the directory itself, through its vnode [v]. *)
Lemma dir_step A m L s v x t' : part_ok A m L s -> vnodes s !! v = Some x -> sv_ino x = SFS_ROOTDIR_INO -> dir_ok t' -> bf_step (vol (sv_inode x) (sv_modified x) s) t' ->
  (forall name ino, dir_map (entries t') !! name = Some ino -> A ino /\ ino <> SFS_ROOTDIR_INO) ->
  let s' := file_put v t' s in part_ok A (dir_map (entries t')) L s' /\ data_kept A s s' /\ vnodes s' = <[v := set_file (sv_i t') (sv_dirty t') x]> (vnodes s) /\
    entries (root s') = entries t'.
Proof.
  intros [P1 P2 P3 P4 P5 P6 P7] Hx Hi Hd [Hfr Ht] Hn s'. pose proof Hd as [[Hw Hz] D2 D3 D4].
  destruct (file_step A s v x t' P1 Hx) as (S1 & S2 & S3 & S4 & S5 & S6 & S7).
  { split; [done|]. split; [|done]. cbn in Hz. unfold max_size in Hz. lia. }
  fold s' in S1, S2, S3, S4, S5, S6, S7. rewrite Hi in S2, S3, S4, S5.
  assert (Hent : entries (root s') = entries t').
  { unfold entries, nslots. cbn [bf_size bf_bytes sfs_bytefile]. unfold root. rewrite S4. cbn [sv_i file vol]. by rewrite S3. }
  split; [|split; [|done]].
  - split; try done.
    + split; [|cbn; rewrite S3; exact D2|cbn; rewrite S3; exact D3|by rewrite Hent]. split; [apply (fk_wf _ _ (bk_file A s' S1 _ P4))|]. cbn. rewrite S3. exact Hz.
    + unfold dirmap. by rewrite Hent.
    + rewrite S3. destruct Ht as ([= _ Hl] & _). rewrite Hl. cbn. rewrite <-(inode_core s v x) by (done || apply P1). by rewrite Hi.
    + intros ino Ha Hne. rewrite (kept_inode _ _ _ (S2 ino Ha Hne)). by apply P7.
  - split; [done|]. intros ino Ha Hne. split; [by apply kept_bytes, S2|]. by rewrite (kept_inode _ _ _ (S2 ino Ha Hne)).
Qed.
(** The link count of a file changes. *)
Definition upd (L : Z -> Z) ino (n : Z) : Z -> Z := fun i => if i =? ino then n else L i.
Lemma links_step A m L s w y n : part_ok A m L s -> vnodes s !! w = Some y -> sv_ino y <> SFS_ROOTDIR_INO -> 0 <= L (sv_ino y) + n < 2 ^ 16 ->
  let s' := set_vnodes (<[w := add_links n y]> (vnodes s)) s in part_ok A m (upd L (sv_ino y) (L (sv_ino y) + n)) s' /\ data_kept A s s' /\ entries (root s') = entries (root s).
Proof.
  intros [P1 P2 P3 P4 P5 P6 P7] Hy Hne Hr s'. pose proof (bk_table A s P1) as Htab. destruct (bk_core A s P1 w y Hy) as (Ha & _). destruct (P7 _ Ha Hne) as [Hty Hlk].
  rewrite (inode_core s w y) in Hty, Hlk by done.
  assert (Htab' : table_ok s') by (eapply (table_update s s' w y (add_links n y)); [done|done|done|exact (tk_count s Htab w y Hy)|done|done]).
  assert (Hi' : inode s' (sv_ino y) = set_linkcount (L (sv_ino y) + n) (sv_inode y)).
  { etransitivity; [apply (inode_core s' w (add_links n y)); [done|apply lookup_insert_eq]|]. cbn. rewrite Hlk. by rewrite u16_small by lia. }
  destruct (bk_file A s P1 _ Ha) as [F1 F2 F3 F4 F5 F6 F7]. rewrite (inode_core s w y) in F4, F5, F6 by done.
  assert (Hslots : slots (file s' (sv_ino y)) = slots (file s (sv_ino y))).
  { unfold slots, refs, ind_words. cbn [sv_i file vol]. rewrite Hi', (inode_core s w y) by done. done. }
  assert (Hf : file_ok s' (sv_ino y)).
  { split; rewrite ?Hi'; try done.
    - destruct F3 as [V W1 W2]. split; [by apply volume_dirty, (volume_dirty (inode s (sv_ino y)) false s)| |rewrite Hslots; exact W2].
      cbn [sv_i file vol] in *. rewrite Hi'. rewrite (inode_core s w y) in W1 by done. exact W1.
    - split; [exact (proj1 F7)|]. intros b Ho. apply (proj2 F7 b). unfold owned in *. by rewrite Hslots in Ho. }
  destruct (vnode_step A s s' w y (add_links n y)) as (S1 & S2 & S3 & S4); try done.
  - by apply meta_eq.
  - apply P1.
  - exact (tk_count s Htab w y Hy).
  - by left.
  - intros b Hb Hu Hno. split; [done|]. split; [done|]. unfold owned. by rewrite Hslots.
  - assert (Hkept : forall ino, A ino -> ino <> sv_ino y -> kept s s' ino) by done.
    assert (Hroot : file_same s s' SFS_ROOTDIR_INO) by (by apply Hkept).
    split; [|split; [|by apply kept_root]].
    + split; try done.
      * by apply (kept_root_ok A s).
      * unfold dirmap. by rewrite (kept_root s s').
      * by rewrite (proj1 Hroot).
      * intros ino Hia Hin. unfold upd. destruct (Z.eqb_spec ino (sv_ino y)) as [->|Hne']; [by rewrite Hi'|]. rewrite (kept_inode _ _ _ (Hkept ino Hia Hne')). by apply P7.
    + split; [done|]. intros ino Hia Hin. destruct (Z.eq_dec ino (sv_ino y)) as [->|Hne']; [|split; [by apply kept_bytes, Hkept|by rewrite (kept_inode _ _ _ (Hkept ino Hia Hne'))]].
      split; [|by rewrite Hi', (inode_core s w y)]. unfold file_bytes. f_equal. apply contents_eq; [|done]. unfold slots in Hslots. by injection Hslots.
Qed.
(** A new file, without a name yet. *)
Lemma made_step A m L s ino r s' : part_ok A m L s -> made A s ino r s' -> all_kept A s s' -> part_ok (fun i => A i \/ i = ino) m (upd L ino 0) s' /\ data_kept A s s'.
Proof.
  intros HP (v & x & Hr & Hna & Hk & _ & Hx & Hix & Hnew & _) Hke. split; [|apply kept_data; [apply HP|done]].
  assert (Hino : ino <> SFS_ROOTDIR_INO) by (intros ->; by apply Hna, HP).
  destruct HP as [P1 P2 P3 P4 P5 P6 P7]. pose proof (proj1 (Hke _ P4)) as Hroot. split; try done.
  - by apply (kept_root_ok (fun i => A i \/ i = ino) s); [|left|..].
  - unfold dirmap. by rewrite (kept_root s s').
  - by left.
  - by rewrite (proj1 Hroot).
  - intros name i Hn. destruct (P6 name i Hn). auto.
  - intros i Hi Hne. unfold upd. destruct (Z.eqb_spec i ino) as [->|Hne'].
    + rewrite <-Hix, (inode_core s' v x), Hnew by (done || apply Hk). done.
    + destruct Hi as [Hi|?]; [|done]. rewrite (kept_inode _ _ _ (Hke i Hi)). by apply P7.
Qed.

(** Counting names. *)
Lemma nlinks_insert m name ino i : m !! name = None -> nlinks (<[name := ino]> m) i = nlinks m i + (if i =? ino then 1 else 0).
Proof.
  intros Hn. unfold nlinks. destruct (Z.eqb_spec i ino) as [->|Hne].
  - rewrite map_filter_insert_True by done. rewrite map_size_insert_None; [lia|]. apply map_lookup_filter_None. by left.
  - rewrite map_filter_insert_not'; [lia|cbn; congruence|]. intros y. by rewrite Hn.
Qed.
Lemma nlinks_delete m name ino i : m !! name = Some ino -> nlinks (delete name m) i = nlinks m i - (if i =? ino then 1 else 0).
Proof.
  intros Hn. pose proof (nlinks_insert (delete name m) name ino i) as H. rewrite insert_delete_id in H by done. rewrite H by apply lookup_delete_eq. lia.
Qed.
Lemma nlinks_pos m name ino : m !! name = Some ino -> 0 < nlinks m ino.
Proof.
  intros Hn. pose proof (nlinks_delete m name ino ino Hn) as H. rewrite Z.eqb_refl in H. unfold nlinks in *. lia.
Qed.
Lemma nlinks_nonneg m ino : 0 <= nlinks m ino.
Proof. unfold nlinks. lia. Qed.
Lemma dir_map_size es : (size (dir_map es) <= length es)%nat.
Proof.
  induction es as [|e es IH]; cbn [dir_map length]; [done|]. destruct (live e); [|lia]. rewrite map_size_insert. destruct (dir_map es !! entry_name e); cbn; lia.
Qed.
Lemma nlinks_bound A m L s ino : part_ok A m L s -> 0 <= nlinks m ino <= 1144.
Proof.
  intros [_ P2 P3 _ _ _ _]. split; [apply nlinks_nonneg|]. unfold nlinks. destruct (nslots_size (root s) P2) as (_ & Hn & Hc).
  pose proof (dir_map_size (entries (root s))) as Hs. unfold dirmap in P3. rewrite P3 in Hs. unfold entries in Hs. rewrite length_fmap, length_seqZ in Hs.
  assert ((size (filter (fun p : list Z * Z => p.2 = ino) m) <= size m)%nat) by (apply map_subseteq_size, map_filter_subseteq).
  change (bf_cap (S := Sfs.sfs B D)) with max_size in Hc. unfold max_size in Hc. lia.
Qed.

(** The directory's vnode [v] and its operations. *)
Definition is_root s v : Prop := exists x, vnodes s !! v = Some x /\ sv_ino x = SFS_ROOTDIR_INO.
Lemma root_persists s s' v : is_root s v -> persists s s' -> is_root s' v.
Proof. intros (x & Hx & Hi) Hp. destruct (Hp v x Hx) as (x' & Hx' & E). exists x'. split; [done|congruence]. Qed.
(** What an operation on the directory leaves alone. *)
Definition side A s s' : Prop := data_kept A s s' /\ counts s s' (fun _ => 0) /\ persists s s'.
Lemma side_trans A s1 s2 s3 : side A s1 s2 -> side A s2 s3 -> side A s1 s3.
Proof.
  intros (A1 & A2 & A3) (B1 & B2 & B3). split; [by eapply data_trans|]. split; [|by eapply persists_trans]. intros v. rewrite B2, A2. lia.
Qed.
Lemma put_side A s s' v x i dirty : vnodes s !! v = Some x -> vnodes s' = <[v := set_file i dirty x]> (vnodes s) -> data_kept A s s' -> side A s s'.
Proof.
  intros Hx Hm Hd. split; [done|]. split; [|by apply (persists_insert s s' v x (set_file i dirty x))]. eapply counts_insert; [exact Hm|]. intros w. unfold count. rewrite Hx. cbn. destruct (w =? v); lia.
Qed.
Lemma root_view A m L s v x : part_ok A m L s -> vnodes s !! v = Some x -> sv_ino x = SFS_ROOTDIR_INO ->
  dir_ok (vol (sv_inode x) (sv_modified x) s) /\ entries (vol (sv_inode x) (sv_modified x) s) = entries (root s).
Proof.
  intros HP Hx Hi. pose proof (po_root _ _ _ _ HP) as Hd. unfold root, file in *. rewrite <-Hi, (inode_core s v x) in * by (done || apply HP). split; [by eapply dir_dirty|done].
Qed.
Definition found_in s m name (r : option (Z * Z)) : Prop :=
  exists (k : nat) ino, r = Some (Z.of_nat k, ino) /\ names (entries (root s)) k name ino /\ m !! name = Some ino.
Lemma dir_names s name ino k : dir_ok (root s) -> names (entries (root s)) k name ino -> dirmap s !! name = Some ino.
Proof. intros Hd Hk. apply dir_map_lookup; [apply Hd|by exists k]. Qed.
Lemma find_step A m L s v name : part_ok A m L s -> is_root s v -> wp (on_file v (sfs_dir_findname name)) (fun r s' =>
  part_ok A m L s' /\ side A s s' /\ (r.1.1 = 0 -> found_in s' m name r.1.2) /\ (r.1.1 = ENOENT -> m !! name = None)) s.
Proof.
  intros HP (x & Hx & Hi). destruct (root_view A m L s v x HP Hx Hi) as [Hd He]. eapply wp_file; [done|]. eapply wp_mono; [|by apply findname_spec].
  cbv beta. intros r t' (Hs & _ & H0 & Hno). pose proof (same_dir _ _ Hd Hs) as Hd'. pose proof (same_entries _ _ Hs) as He'.
  assert (Hm : dir_map (entries t') = m) by (rewrite He', He; apply HP).
  destruct (dir_step A m L s v x t' HP Hx Hi Hd') as (S1 & S2 & S3 & S4); [apply Hs|rewrite Hm; apply HP|]. rewrite Hm in S1.
  assert (Her : forall k ino, names (entries (vol (sv_inode x) (sv_modified x) s)) k name ino -> m !! name = Some ino).
  { intros k ino Hk. rewrite He in Hk. rewrite <-(po_map _ _ _ _ HP). eapply dir_names; [apply HP|done]. }
  split; [done|]. split; [by eapply put_side|]. split.
  - intros E. destruct (H0 E) as (k & ino & Er & Hk). exists k, ino. split; [done|]. split; [|by eapply Her]. by rewrite S4, He'.
  - intros E. rewrite <-(po_map _ _ _ _ HP). unfold dirmap. rewrite <-He. apply dir_map_None; [apply Hd|by apply Hno].
Qed.
Section reliable.
Context (Hrel : reliable D).

Lemma sync_inode_spec A s v x : blocks_ok A s -> vnodes s !! v = Some x -> wp (sfs_sync_inode v) (fun e s' => e = 0 /\ blocks_ok A s' /\ all_kept A s s' /\
  vnodes s' = <[v := set_modified false x]> (vnodes s) /\ sfs_vnodes s' = sfs_vnodes s /\ sfs_sb s' = sfs_sb s /\ sfs_freemap s' = sfs_freemap s) s.
Proof.
  intros Hk Hx. unfold sfs_sync_inode. rewrite wp_bind. eapply wp_sv_of; [done|]. destruct (sv_modified x) eqn:Hmod.
  - destruct (bk_core A s Hk v x Hx) as (Ha & _). destruct (bk_file A s Hk _ Ha) as [F1 _ _ _ _ _]. destruct (bytes_of_inode A s v x Hk Hx) as (Hl & Hy & _).
    pose proof (vo_dev _ (bk_volume A s Hk)) as Hdev. cbn [sb_nblocks volume vol] in Hdev. rewrite wp_bind. apply wp_volume.
    eapply wp_mono; [|apply (writeblock_reliable Hrel (volume s)); [apply (vo_ok _ (bk_volume A s Hk))|lia|done|done]].
    cbv beta. intros e t (-> & d & -> & Hst & Hb & Ho). cbn [Z.eqb negb]. rewrite wp_bind. eapply wp_update; [done|]. wp_simpl.
    destruct (synced_step A s v x d Hk Hx Hst Hb Ho). done.
  - wp_simpl. split; [done|]. split; [done|]. split; [intros i _; apply file_kept_refl|]. split; [|done]. symmetry. apply insert_id. rewrite Hx. destruct x. cbn in *. by subst.
Qed.

(** Without a name and without a reference, a file ends. *)
Definition remains A (x : sfs_vnode) ino : Prop := A ino /\ ~ (vn_refcount x = 1 /\ sfi_linkcount (sv_inode x) = 0 /\ ino = sv_ino x).
Definition released A s v x s' : Prop :=
  blocks_ok (remains A x) s' /\ all_kept (remains A x) s s' /\ counts s s' (fun y => - one v y) /\
  (forall w y, w <> v \/ 1 < vn_refcount x -> vnodes s !! w = Some y -> exists y', vnodes s' !! w = Some y' /\ sv_ino y' = sv_ino y).
(** The end of [sfs_reclaim]. *)
Lemma drop_vnode s v (Q : Z -> fs -> Prop) (Hlive : v ∈ sfs_vnodes s) : (forall l, sfs_vnodes s ≡ₚ v :: l -> Q 0 (set_vnodes (delete v (vnodes s)) (set_table l s))) ->
  wp (s ← get; match vnode_index (sfs_vnodes s) 0 v with
    | None => panic "sfs: reclaim vnode not in vnode pool"
    | Some ix =>
        modify (fun s => set_table (delete (Z.to_nat ix) (sfs_vnodes s)) s);;
        KASSERT true "vn->vn_refcount == 1";;
        modify (fun s => set_vnodes (delete v (vnodes s)) s);;
        mret 0
    end) Q s.
Proof.
  intros HQ. destruct (vnode_index_spec _ v 0 Hlive) as (j & E & Hj). wp_simpl. rewrite E. wp_simpl. rewrite Z.add_0_l, Nat2Z.id.
  apply (HQ (delete j (sfs_vnodes s))). by apply delete_Permutation.
Qed.
Lemma itrunc_step t len : wf t -> 0 <= len < 2 ^ 32 -> wp (sfs_itrunc len) (fun e t' => e = 0 /\ step_ok t t' /\ sfi_size (sv_i t') = len /\
  contents t' = imap (fun k x => if survives (u32 (Z.quot (len + SFS_BLOCKSIZE - 1) SFS_BLOCKSIZE)) k then x else zeros) (contents t)) t.
Proof.
  intros Hw Hl. eapply wp_mono; [|apply wp_and; [by apply (itrunc_reliable Hrel)|apply (keeps_wp touch); [reflexivity|intros ?; apply itrunc_touch|by apply itrunc_spec]]].
  cbv beta. intros e t' [-> [(Hfr & H0 & _) Ht]]. destruct (H0 eq_refl) as (Hw' & Hz & Hc). split; [done|]. split; [|done]. split; [done|]. split; [rewrite Hz; lia|done].
Qed.
Lemma view_wf A s v x : blocks_ok A s -> vnodes s !! v = Some x -> wf (vol (sv_inode x) (sv_modified x) s).
Proof.
  intros Hk Hx. destruct (bk_core A s Hk v x Hx) as (Ha & _). pose proof (fk_wf _ _ (bk_file A s Hk _ Ha)) as Hw. unfold file in Hw. rewrite (inode_core s v x) in Hw by (done || apply Hk). by eapply wf_dirty.
Qed.
Lemma delete_count s s' v x : vnodes s !! v = Some x -> vn_refcount x = 1 -> vnodes s' = delete v (vnodes s) -> counts s s' (fun y => - one v y).
Proof.
  intros Hx Hr E y. unfold count, one. rewrite E. destruct (Z.eqb_spec y v) as [->|Hne]; [rewrite lookup_delete_eq, Hx; cbn; lia|]. rewrite lookup_delete_ne by done. lia.
Qed.
Lemma delete_persists s s' v x : vn_refcount x = 1 -> vnodes s' = delete v (vnodes s) ->
  forall w y, w <> v \/ 1 < vn_refcount x -> vnodes s !! w = Some y -> exists y', vnodes s' !! w = Some y' /\ sv_ino y' = sv_ino y.
Proof. intros Hr E w y [Hne|?] Hy; [|lia]. exists y. split; [|done]. rewrite E. by rewrite lookup_delete_ne. Qed.
(** The vnode [v], written back and unused, is dropped; its block is given back if it has no name. *)
Lemma forget_named A s v x l : blocks_ok A s -> vnodes s !! v = Some x -> sv_modified x = false -> sfs_vnodes s ≡ₚ v :: l -> sfi_linkcount (sv_inode x) <> 0 ->
  let s' := set_vnodes (delete v (vnodes s)) (set_table l s) in blocks_ok (remains A x) s' /\ all_kept (remains A x) s s'.
Proof.
  intros Hk Hx Hcl Hl Hlinks s'. destruct (unload_step A s v x l Hk Hx Hcl Hl) as [H1 H2]. split; [|by intros i [Ha _]; apply H2].
  apply (blocks_sub A); [done|by intros i []|]. intros w y Hy. split; [apply (bk_core A s' H1 w y Hy)|]. by intros (_ & ? & _).
Qed.
Lemma forget_unnamed A s v x l t : blocks_ok A s -> vnodes s !! v = Some x -> sv_modified x = false -> sfs_vnodes s ≡ₚ v :: l -> vn_refcount x = 1 -> sfi_linkcount (sv_inode x) = 0 ->
  freed (sv_ino x) (volume s) t -> touch (volume s) t ->
  let s' := set_vnodes (delete v (vnodes s)) (set_table l (put_vol t s)) in blocks_ok (remains A x) s' /\ all_kept (remains A x) s s'.
Proof.
  intros Hk Hx Hcl Hl Hr Hlinks Hfr Htc s'. set (s1 := set_vnodes (delete v (vnodes s)) (set_table l s)). destruct (unload_step A s v x l Hk Hx Hcl Hl) as [H1 H2]. destruct (bk_core A s Hk v x Hx) as (Ha & _).
  assert (Hk1 : blocks_ok (remains A x) s1).
  { apply (blocks_sub A); [done|by intros i []|]. intros w y Hy. split; [apply (bk_core A s1 H1 w y Hy)|]. intros (_ & _ & E). change (delete v (vnodes s) !! w = Some y) in Hy. apply lookup_delete_Some in Hy as [Hne Hy].
    by apply Hne, (tk_one s (bk_table A s Hk) v w x y). }
  destruct (bfree_step (remains A x) s1 (sv_ino x) t Hk1) as [H3 H4]; [by intros [_ []]| |exact (proj1 (fk_system _ _ (bk_file A s Hk _ Ha)))| |done|done|].
  - intros i [Hi _]. rewrite (kept_owned s s1) by by apply H2. by apply (bk_inos A s Hk).
  - destruct (bk_file A s Hk _ Ha) as [F1 _ _ _ _ _]. lia.
  - split; [exact H3|]. eapply kept_all_trans; [|exact H4]. intros i [Hi _]. by apply H2.
Qed.
Lemma sfs_reclaim_spec A s v x : blocks_ok A s -> vnodes s !! v = Some x -> vn_refcount x = 1 -> wp (sfs_reclaim v) (fun e s' => e = 0 /\ released A s v x s') s.
Proof.
  intros Hk Hx Hr. unfold sfs_reclaim. rewrite wp_bind. eapply wp_sv_of; [done|]. rewrite Hr. change (negb (1 =? 1)) with false. cbv iota. rewrite wp_bind.
  assert (Hmono : forall x', sv_ino x' = sv_ino x -> vn_refcount x' = vn_refcount x -> sfi_linkcount (sv_inode x') = sfi_linkcount (sv_inode x) -> forall i, remains A x i <-> remains A x' i).
  { intros x' E1 E2 E3 i. unfold remains. by rewrite E1, E2, E3. }
  destruct (Z.eqb_spec (sfi_linkcount (sv_inode x)) 0) as [Hl|Hl].
  - eapply wp_file; [done|]. eapply wp_mono; [|apply itrunc_step; [by eapply view_wf|lia]]. cbv beta. intros e t (-> & Hst & _). cbn [Z.eqb negb].
    destruct (file_step A s v x t Hk Hx Hst) as (Hk1 & Hke1 & Hi1 & _ & _ & Hm1 & _). set (s1 := file_put v t s) in *. set (x1 := set_file (sv_i t) (sv_dirty t) x) in *.
    assert (Hx1 : vnodes s1 !! v = Some x1) by (rewrite Hm1; apply lookup_insert_eq).
    assert (Hlk : sfi_linkcount (sv_inode x1) = 0) by (destruct Hst as (_ & _ & ([= _ Hat] & _) & _); cbn; rewrite Hat; exact Hl).
    rewrite wp_bind. eapply wp_mono; [|by apply (sync_inode_spec A s1 v x1)]. cbv beta. intros e s2 (-> & Hk2 & Hke2 & Hm2 & Ht2 & Hsb2 & Hfm2). cbn [Z.eqb negb].
    assert (Hx2 : vnodes s2 !! v = Some (set_modified false x1)) by (rewrite Hm2; apply lookup_insert_eq). rewrite wp_bind. eapply wp_sv_of; [done|].
    change (sfi_linkcount (sv_inode (set_modified false x1))) with (sfi_linkcount (sv_inode x1)). rewrite Hlk. cbn [Z.eqb]. rewrite wp_bind. apply wp_volume.
    destruct (bk_core A s2 Hk2 v _ Hx2) as (Ha & _). destruct (bk_file A s2 Hk2 _ Ha) as [F1 F2 _ _ _ _].
    eapply wp_mono; [|apply (keeps_wp touch); [reflexivity|intros ?; apply bfree_touch|apply (bfree_spec (volume s2)); [apply Hk2|exact F1|exact F2]]]. cbv beta. intros _ t2 [Hfr Htc].
    change (vn_refcount (set_modified false x1)) with (vn_refcount x). rewrite Hr. change (1 =? 1) with true. apply drop_vnode.
    { change (v ∈ sfs_vnodes s2). apply (proj2 (tk_live s2 (bk_table A s2 Hk2) v)). rewrite Hx2. by eexists. }
    intros l Hl2. split; [done|]. destruct (forget_unnamed A s2 v _ l t2 Hk2 Hx2 eq_refl Hl2 Hr Hlk Hfr Htc) as [H3 H4].
    assert (Hdel : delete v (vnodes s2) = delete v (vnodes s)) by (by rewrite Hm2, delete_insert_eq, Hm1, delete_insert_eq).
    assert (Hmm : forall i, remains A x i <-> remains A (set_modified false x1) i) by (apply Hmono; [done|done|rewrite Hl; exact Hlk]).
    split_and!.
    + apply (blocks_sub (remains A (set_modified false x1))); [exact H3|intros i; apply Hmm|]. intros w y Hy. apply Hmm, (bk_core _ _ H3 w y Hy).
    + intros i Hi. eapply file_kept_trans; [apply Hke1|eapply file_kept_trans; [apply Hke2|apply H4]].
      * apply Hi.
      * intros ->. by apply (proj2 Hi).
      * apply Hi.
      * by apply Hmm.
    + by apply (delete_count s _ v x).
    + by apply delete_persists.
  - wp_simpl. eapply wp_mono; [|by apply (sync_inode_spec A s v x)]. cbv beta. intros e s2 (-> & Hk2 & Hke2 & Hm2 & Ht2 & Hsb2 & Hfm2). cbn [Z.eqb negb].
    assert (Hx2 : vnodes s2 !! v = Some (set_modified false x)) by (rewrite Hm2; apply lookup_insert_eq). rewrite wp_bind. eapply wp_sv_of; [done|].
    change (sfi_linkcount (sv_inode (set_modified false x))) with (sfi_linkcount (sv_inode x)). rewrite (proj2 (Z.eqb_neq _ _) Hl). rewrite bind_ret_l.
    change (vn_refcount (set_modified false x)) with (vn_refcount x). rewrite Hr. change (1 =? 1) with true. apply drop_vnode.
    { apply (proj2 (tk_live s2 (bk_table A s2 Hk2) v)). rewrite Hx2. by eexists. }
    intros l Hl2. split; [done|]. destruct (forget_named A s2 v _ l Hk2 Hx2 eq_refl Hl2 Hl) as [H3 H4].
    assert (Hdel : delete v (vnodes s2) = delete v (vnodes s)) by (by rewrite Hm2, delete_insert_eq).
    assert (Hmm : forall i, remains A x i <-> remains A (set_modified false x) i) by (by apply Hmono).
    split_and!.
    + apply (blocks_sub (remains A (set_modified false x))); [exact H3|intros i; apply Hmm|]. intros w y Hy. apply Hmm, (bk_core _ _ H3 w y Hy).
    + intros i Hi. eapply file_kept_trans; [apply Hke2, Hi|apply H4]. by apply Hmm.
    + by apply (delete_count s _ v x).
    + by apply delete_persists.
Qed.
Lemma sfs_decref_spec A s v x : blocks_ok A s -> vnodes s !! v = Some x -> wp (VOP_DECREF v) (fun _ s' => released A s v x s') s.
Proof.
  intros Hk Hx. pose proof (tk_count s (bk_table A s Hk) v x Hx) as Hc. unfold VOP_DECREF. rewrite wp_bind. eapply wp_sv_of; [done|]. rewrite wp_bind, wp_KASSERT. split; [apply Z.ltb_lt; lia|].
  destruct (Z.ltb_spec 1 (vn_refcount x)) as [H1|H1].
  - eapply wp_update; [done|]. destruct (refcount_step A s v x (vn_refcount x - 1) Hk Hx ltac:(lia)) as [H2 H3]. split_and!.
    + apply (blocks_sub A); [done|by intros i []|]. intros w y Hy. split; [apply (bk_core _ _ H2 w y Hy)|]. intros (? & _). lia.
    + intros i [Hi _]. by apply H3.
    + eapply counts_insert; [done|]. intros w. unfold one, count. rewrite Hx. cbn. destruct (w =? v); lia.
    + intros w y _ Hy. by apply (persists_insert s _ v x (set_refcount (vn_refcount x - 1) x)).
  - rewrite wp_bind. eapply wp_mono; [|apply (sfs_reclaim_spec A s v x); [done|done|lia]]. cbv beta. intros e s' [_ Hrel']. by wp_simpl.
Qed.

(** ** Operations on names *)

Definition good_name (name : list Z) : Prop := Forall (fun c => 0 < c < 256) name.
Lemma link_step A m L s v name ino : part_ok A m L s -> is_root s v -> good_name name -> A ino -> ino <> SFS_ROOTDIR_INO -> wp (on_file v (sfs_dir_link name ino)) (fun r s' => side A s s' /\
  (forall j n i, names (entries (root s)) j n i -> names (entries (root s')) j n i) /\
  (r.1 = 0 /\ m !! name = None /\ part_ok A (<[name := ino]> m) L s' /\ (exists k : nat, r.2 = Some (Z.of_nat k) /\ names (entries (root s')) k name ino) \/
   r.1 <> 0 /\ part_ok A m L s')) s.
Proof.
  intros HP (x & Hx & Hi) Hname Ha Hne. destruct (root_view A m L s v x HP Hx Hi) as [Hd He]. pose proof (po_blocks _ _ _ _ HP) as Hk. destruct (bk_file A s Hk ino Ha) as [F1 _ _ _ _ _].
  pose proof (vo_dev _ (bk_volume A s Hk)) as Hdev. pose proof (dev_blocks_fit (D:=D)). cbn [sb_nblocks volume vol] in Hdev.
  eapply wp_file; [done|]. eapply wp_mono; [|apply (link_spec _ name ino); [done|done|lia]]. cbv beta. intros [e k] t' (Hst & Hrel' & Hnm & Hd' & H0 & H1). cbn [fst snd] in *. specialize (Hrel' Hrel).
  assert (Em : dir_map (entries (vol (sv_inode x) (sv_modified x) s)) = m) by (rewrite He; apply HP). rewrite Em in *.
  assert (Hmap : e = 0 /\ m !! name = None /\ dir_map (entries t') = <[name := ino]> m \/ e <> 0 /\ dir_map (entries t') = m).
  { destruct (Z.eq_dec e 0) as [->|He0]; [left; destruct (H0 eq_refl) as (? & _ & ? & _); done|]. right. split; [done|]. by rewrite (Hrel' He0). }
  destruct (dir_step A m L s v x t' HP Hx Hi Hd' Hst) as (S1 & S2 & S3 & S4).
  { intros n i. destruct Hmap as [(_ & _ & ->)|[_ ->]]; [|apply HP]. intros [[<- <-]|[_ Hn]]%lookup_insert_Some; [done|]. by apply (po_names _ _ _ _ HP n). }
  split; [by eapply put_side|]. split; [rewrite S4, <-He; exact Hnm|]. destruct Hmap as [(-> & Hn & E)|[He0 E]]; rewrite E in S1; [left|by right].
  split; [done|]. split; [done|]. split; [done|]. rewrite S4. by destruct (H0 eq_refl) as (_ & _ & _ & ?).
Qed.
Lemma unlink_step A m L s v name ino (k : nat) : part_ok A m L s -> is_root s v -> names (entries (root s)) k name ino -> wp (on_file v (sfs_dir_unlink (Z.of_nat k))) (fun e s' =>
  e = 0 /\ side A s s' /\ part_ok A (delete name m) L s') s.
Proof.
  intros HP (x & Hx & Hi) Hn. destruct (root_view A m L s v x HP Hx Hi) as [Hd He]. eapply wp_file; [done|]. rewrite <-He in Hn.
  eapply wp_mono; [|by apply (unlink_spec _ k name ino)]. cbv beta. intros e t' (Hst & Hrel' & Hd' & Hmap). specialize (Hrel' Hrel). subst e.
  destruct Hmap as [Em|[]]; [|done]. rewrite He in Em. change (dir_map (entries (root s))) with (dirmap s) in Em. rewrite (po_map _ _ _ _ HP) in Em.
  destruct (dir_step A m L s v x t' HP Hx Hi Hd' Hst) as (S1 & S2 & S3 & S4).
  { intros n i. rewrite Em. intros [_ Hn']%lookup_delete_Some. by apply (po_names _ _ _ _ HP n). }
  split; [done|]. split; [by eapply put_side|]. by rewrite Em in S1.
Qed.
End reliable.
End theory.
