(* ===== verification/Sfsops.v ===== *)
(** * SFS: the vnode operations as a whole ([kern/fs/sfs/sfs_vnops.c], [sfs_inode.c])

    The functional behaviour of the operations of [Sfsvnode] over a disk that does not fail, while
    memory and space may run out.  An operation goes in steps, each of which leaves the volume
    partly consistent ([part_ok]); [progress] collects what the steps have done since the
    operation began, and [finished] is what the operation has done. *)
From S2P Require Import Prelude Bitmap Sfs Sfskeep Sfsdir Sfsvnode.
Import Sfs.Sfs Sfsdir Sfsvnode.

(** ** Calls through the tables of operations *)

Section calls.
Context {B D : Type} {FM : FreeMap B} {DK : Disk D}.
Notation fs := (sfs_fs B D).

(** [Call_data]: an operation on the data of a file, [sfs_read] and [sfs_write]. *)
Inductive call :=
| Call_getroot | Call_incref (v : Z) | Call_decref (v : Z)
| Call_lookup (v : Z) (name : list Z) | Call_lookparent (v : Z) (name : list Z) (buflen : Z)
| Call_creat (v : Z) (name : list Z) (excl : bool) | Call_link (v : Z) (name : list Z) (file : Z)
| Call_remove (v : Z) (name : list Z) | Call_rename (v : Z) (n1 : list Z) (v2 : Z) (n2 : list Z)
| Call_truncate (v len : Z) | Call_data (v : Z) (op : K (Sfs.sfs B D) Z)
| Call_fsync (v : Z) | Call_gettype (v : Z) | Call_stat (v : Z) | Call_namefile (v : Z).
(** The error code and the vnode that is returned. *)
Definition without (m : K fs Z) : K fs (Z * option Z) := e ← m; mret (e, None).
Definition do_call (c : call) : K fs (Z * option Z) :=
  match c with
  | Call_getroot => sfs_getroot
  | Call_incref v => VOP_INCREF v;; mret (0, None)
  | Call_decref v => VOP_DECREF v;; mret (0, None)
  | Call_lookup v name => dirop v (sfs_lookup v name) (ENOTDIR, None)
  | Call_lookparent v name buflen => dirop v ('(e, r, _) ← sfs_lookparent v name buflen; mret (e, r)) (ENOTDIR, None)
  | Call_creat v name excl => dirop v (sfs_creat v name excl) (ENOTDIR, None)
  | Call_link v name file => without (dirop v (sfs_link v name file) ENOTDIR)
  | Call_remove v name => without (dirop v (sfs_remove v name) ENOTDIR)
  | Call_rename v n1 v2 n2 => without (dirop v (sfs_rename v n1 v2 n2) ENOTDIR)
  | Call_truncate v len => without (fileop v (sfs_truncate v len) EISDIR)
  | Call_data v op => without (fileop v (on_file v op) EISDIR)
  | Call_fsync v => without (sfs_fsync v)
  | Call_gettype v => without ('(e, _) ← sfs_gettype v; mret e)
  | Call_stat v => without ('(e, _) ← sfs_stat v; mret e)
  | Call_namefile v => without (dirop v (sfs_namefile v) ENOTDIR)
  end.
(** The references that a call takes. *)
Definition taken (c : call) (r : Z * option Z) : Z -> Z :=
  match c with
  | Call_incref v => one v
  | Call_decref v => fun y => - one v y
  | _ => match r.2 with Some w => one w | None => fun _ => 0 end
  end.
End calls.
#[global] Arguments call B D : clear implicits.

Section names.
Context {B D : Type} {FM : FreeMap B} {DK : Disk D} (Hrel : reliable D).
Notation fs := (sfs_fs B D).
Implicit Types (s : fs) (A : Z -> Prop) (L f g : Z -> Z) (m : gmap (list Z) Z) (name : list Z) (v w ino : Z).

Record progress s A m L f s' : Prop := {
  pg_part : part_ok A m L s';
  pg_sub : forall ino, alive s ino -> A ino;
  pg_data : data_kept (alive s) s s';
  pg_counts : counts s s' f;
  pg_stay : persists s s' }.
(** Vnodes that are referred to before and after are for the same file. *)
Definition stays s s' : Prop := forall w x, vnodes s !! w = Some x -> 0 < count s' w -> exists x', vnodes s' !! w = Some x' /\ sv_ino x' = sv_ino x.
(** The directory is [m], the reference counts have changed by [f], the files that still
    exist have the data that they had, but for those of [E]. *)
Record finished (E : Z -> Prop) s m f s' : Prop := {
  fin_ok : fs_ok s';
  fin_map : dirmap s' = m;
  fin_data : data_kept (fun ino => alive s ino /\ alive s' ino /\ ~ E ino) s s';
  fin_counts : counts s s' f;
  fin_stay : stays s s' }.
(** Link counts count the names. *)
Definition settled A m L : Prop := forall ino, A ino -> ino <> SFS_ROOTDIR_INO -> L ino = nlinks m ino.

Lemma count_pos s w : 0 < count s w -> is_Some (vnodes s !! w).
Proof. unfold count. destruct (vnodes s !! w); [eauto|cbn; lia]. Qed.
Lemma sfs_live_count A s w : blocks_ok A s -> is_Some (vnodes s !! w) -> 0 < count s w.
Proof. intros Hk [x Hx]. pose proof (tk_count s (bk_table A s Hk) w x Hx). unfold count. rewrite Hx. cbn. lia. Qed.
Lemma pg_start s : fs_ok s -> progress s (alive s) (dirmap s) (nlinks (dirmap s)) (fun _ => 0) s.
Proof.
  intros Hok. split; [by apply part_start|done|apply data_refl|by apply counts_same|by apply persists_same].
Qed.
Lemma settled_start s : settled (alive s) (dirmap s) (nlinks (dirmap s)).
Proof. by intros ino. Qed.
Lemma pg_next s A m L f s1 A' m' L' g h s2 : progress s A m L f s1 -> part_ok A' m' L' s2 -> (forall ino, A ino -> A' ino) -> data_kept A s1 s2 -> counts s1 s2 g -> persists s1 s2 ->
  (forall x, h x = f x + g x) -> progress s A' m' L' h s2.
Proof.
  intros [P1 P2 P3 P4 P5] Hp Hs Hd Hc Hpe Hh. split; [done|auto| | |by eapply persists_trans].
  - eapply data_trans; [done|]. by eapply data_sub.
  - intros x. rewrite Hh, Hc, P4. lia.
Qed.
Lemma pg_side s A m L f s1 m' L' s2 : progress s A m L f s1 -> part_ok A m' L' s2 -> side A s1 s2 -> progress s A m' L' f s2.
Proof. intros HP Hp (Hd & Hc & Hpe). eapply pg_next; try done. intros x. cbn. lia. Qed.
Lemma pg_root s A m L f s1 : progress s A m L f s1 -> A SFS_ROOTDIR_INO.
Proof. intros HP. apply (po_rootin _ _ _ _ (pg_part _ _ _ _ _ _ HP)). Qed.
Lemma part_all A m L s s' : part_ok A m L s -> blocks_ok A s' -> all_kept A s s' -> part_ok A m L s'.
Proof. intros HP Hk Hke. apply (part_kept A A m L s s'); try done; [intros i Hi; by apply Hke|apply HP|]. intros n i Hn. by apply (po_names _ _ _ _ HP n i). Qed.
Lemma pg_quiet s A m L f s1 s2 : progress s A m L f s1 -> quiet A s1 s2 -> progress s A m L f s2.
Proof.
  intros HP (Hk & Hke & Hm & _). eapply pg_side; [done|by eapply part_all; [apply HP|..]|]. split; [apply kept_data; [by eapply pg_root|done]|]. split; [by apply counts_same|by apply persists_same].
Qed.
Lemma pg_load s A m L f s1 ino r s2 : progress s A m L f s1 -> loaded A s1 ino r s2 -> all_kept A s1 s2 ->
  exists w x, r = (0, Some w) /\ vnodes s2 !! w = Some x /\ sv_ino x = ino /\ progress s A m L (fun y => f y + one w y) s2.
Proof.
  intros HP (w & x & -> & Hk & Hx & Hi & Hc & Hp) Hke. exists w, x. split_and!; [done..|].
  eapply pg_next; [exact HP|by eapply part_all; [apply HP|..]|done|apply kept_data; [by eapply pg_root|done]|done|done|done].
Qed.
Lemma pg_end s A m L f g s' : progress s A m L f s' -> settled A m L -> (forall x, g x = f x) -> finished (fun _ => False) s m g s'.
Proof.
  intros [P1 P2 P3 P4 P5] HL Hg. destruct (part_end A m L s' P1 HL) as (E1 & E2 & E3). split; [done|done| | |].
  - by eapply data_sub; [done|intros ino []].
  - intros x. by rewrite P4, Hg.
  - intros w x Hx _. by apply P5.
Qed.
(** The last step may be to drop a reference. *)
Lemma pg_release s A m L f g s1 w : progress s A m L f s1 -> settled A m L -> is_Some (vnodes s1 !! w) -> (forall x, g x = f x - one w x) ->
  wp (VOP_DECREF w) (fun _ s' => finished (fun _ => False) s m g s') s1.
Proof.
  intros HP HL [x Hx] Hg. pose proof (pg_part _ _ _ _ _ _ HP) as Hpart. pose proof (po_blocks _ _ _ _ Hpart) as Hk.
  eapply wp_mono; [|by apply (sfs_decref_spec Hrel A s1 w x)]. cbv beta. intros _ s' (R1 & R2 & R3 & R4).
  destruct (bk_core A s1 Hk w x Hx) as (Ha & _). pose proof (inode_core s1 w x (bk_table A s1 Hk) Hx) as Hi.
  assert (Hp : part_ok (remains A x) m L s').
  { apply (part_kept A (remains A x) m L s1 s'); try done.
    - intros i Hir. by apply R2.
    - by intros ino [].
    - split; [apply Hpart|]. intros (_ & Hl & E). pose proof (po_rootlinks _ _ _ _ Hpart) as Hr. rewrite E, Hi in Hr. lia.
    - intros n ino Hn. destruct (po_names _ _ _ _ Hpart n ino Hn) as [H1 H2]. split; [done|]. intros (_ & Hl & ->).
      destruct (po_files _ _ _ _ Hpart _ H1 H2) as [_ E]. rewrite Hi, Hl, HL in E by done. pose proof (nlinks_pos m n _ Hn). lia. }
  destruct (part_end _ m L s' Hp) as (E1 & E2 & E3); [intros ino [Hia _]; by apply HL|]. split; [done|done| | |].
  - eapply (data_trans _ s s1); [apply (data_sub (alive s)); [apply HP|by intros ino []]|].
    apply (data_sub (remains A x)); [apply kept_data; [apply Hp|done]|]. intros ino (_ & Hia & _). by apply E3.
  - intros y. rewrite R3, (pg_counts _ _ _ _ _ _ HP), Hg. lia.
  - intros u z Hz Hu. destruct (pg_stay _ _ _ _ _ _ HP u z Hz) as (z1 & Hz1 & Ez1).
    destruct (R4 u z1) as (z2 & Hz2 & Ez2); [|done|exists z2; split; [done|congruence]].
    destruct (Z.eq_dec u w) as [->|?]; [right|by left]. rewrite R3 in Hu. unfold count, one in Hu. rewrite Hx, Z.eqb_refl in Hu. cbn in Hu. lia.
Qed.

(** ** Operations on names *)

Lemma find_progress s A m L f s1 v name : progress s A m L f s1 -> is_root s1 v -> wp (on_file v (sfs_dir_findname name)) (fun r s' =>
  progress s A m L f s' /\ is_root s' v /\ (r.1.1 = 0 -> found_in s' m name r.1.2) /\ (r.1.1 = ENOENT -> m !! name = None)) s1.
Proof.
  intros HP Hv. eapply wp_mono; [|apply (find_step A m L); [apply HP|done]]. cbv beta. intros r s' (Hp & Hs & H0 & Hno).
  split; [by eapply pg_side|]. split; [|done]. eapply root_persists; [done|apply Hs].
Qed.
Lemma load_progress s A m L f s1 ino : progress s A m L f s1 -> A ino -> wp (sfs_loadvnode ino SFS_TYPE_INVAL) (fun r s' => kept s1 s' SFS_ROOTDIR_INO /\ persists s1 s' /\
  ((exists w x, r = (0, Some w) /\ vnodes s' !! w = Some x /\ sv_ino x = ino /\ progress s A m L (fun y => f y + one w y) s') \/
   r.1 <> 0 /\ r.1 <> ENOENT /\ r.2 = None /\ progress s A m L f s')) s1.
Proof.
  intros HP Ha. pose proof (pg_part _ _ _ _ _ _ HP) as Hp. eapply wp_mono; [|by apply (loadvnode_spec A); [apply Hp|]]. cbv beta.
  intros r s' [[Hl Hke]|(H0 & Hn & Hr & Hq)].
  - split; [apply Hke, Hp|]. split; [|left; by eapply pg_load]. destruct Hl as (w & x & _ & _ & _ & _ & _ & Hpe). done.
  - split; [apply Hq, Hp|]. split; [by apply persists_same, Hq|]. right. split_and!; try done. by eapply pg_quiet.
Qed.
(** The vnode of a name, and its slot. *)
Definition looked s A m L f name (r : Z * option Z * Z) s' : Prop :=
  (exists (k : nat) ino w x, r = (0, Some w, Z.of_nat k) /\ names (entries (root s')) k name ino /\ m !! name = Some ino /\
     vnodes s' !! w = Some x /\ sv_ino x = ino /\ progress s A m L (fun y => f y + one w y) s') \/
  (r.1.1 <> 0 /\ r.1.2 = None /\ (r.1.1 = ENOENT -> m !! name = None) /\ progress s A m L f s').
Lemma lookonce_spec s A m L f s1 v name : progress s A m L f s1 -> settled A m L -> is_root s1 v ->
  wp (sfs_lookonce v name) (fun r s' => is_root s' v /\ looked s A m L f name r s') s1.
Proof.
  intros HP HL Hv. unfold sfs_lookonce. rewrite wp_bind. eapply wp_mono; [|by apply (find_progress s A m L f)]. cbv beta.
  intros [[e found] empty] s2 (HP2 & Hv2 & H0 & Hno). cbn [fst snd] in *. destruct (Z.eqb_spec e 0) as [->|He]; cbn [negb]; wp_simpl; [|by split; [|right]].
  destruct (H0 eq_refl) as (k & ino & -> & Hk & Hm). wp_simpl. destruct (po_names _ _ _ _ (pg_part _ _ _ _ _ _ HP2) name ino Hm) as [Ha Hne].
  eapply wp_mono; [|by apply (load_progress s A m L f)]. cbv beta. intros [e r] s3 (Hroot & Hpe & Hcase).
  assert (Hv3 : is_root s3 v) by by eapply root_persists.
  destruct Hcase as [(w & x & [= -> ->] & Hx & Hi & HP3)|(He & Hn & Hr & HP3)]; cbn [fst snd] in *.
  - cbn [Z.eqb negb]. wp_simpl. eapply wp_sv_of; [done|]. pose proof (pg_part _ _ _ _ _ _ HP3) as Hp3.
    destruct (po_files _ _ _ _ Hp3 ino Ha Hne) as [_ Hl]. rewrite <-Hi, (inode_core s3 w x) in Hl by (done || apply Hp3). rewrite Hl, Hi, HL by done.
    pose proof (nlinks_pos m name ino Hm). destruct (Z.eqb_spec (nlinks m ino) 0); [lia|]. wp_simpl. split; [done|].
    left. exists k, ino, w, x. split_and!; try done. by rewrite (kept_root s2 s3) by apply Hroot.
  - destruct (Z.eqb_spec e 0); [done|]. cbn [negb]. wp_simpl. split; [done|]. right. by split_and!.
Qed.

(** The link count of the file of [w]. *)
Lemma pg_links s A m L f s1 w y n : progress s A m L f s1 -> vnodes s1 !! w = Some y -> sv_ino y <> SFS_ROOTDIR_INO -> 0 <= L (sv_ino y) + n < 2 ^ 16 ->
  let s' := set_vnodes (<[w := add_links n y]> (vnodes s1)) s1 in
  progress s A m (upd L (sv_ino y) (L (sv_ino y) + n)) f s' /\ data_kept A s1 s' /\ persists s1 s' /\ entries (root s') = entries (root s1).
Proof.
  intros HP Hy Hne Hr s'. destruct (links_step A m L s1 w y n) as (H1 & H2 & H3); [apply HP|done..|]. fold s' in H1, H2, H3.
  assert (Hpe : persists s1 s') by by apply (persists_insert s1 s' w y (add_links n y)).
  split; [|done]. eapply (pg_next s A m L f s1 A _ _ (fun _ => 0)); try done; [|intros x; lia].
  eapply counts_insert; [done|]. intros x. unfold count. rewrite Hy. cbn. destruct (x =? w); lia.
Qed.
Lemma settled_insert A m L name ino : settled A m L -> m !! name = None -> settled A (<[name := ino]> m) (upd L ino (L ino + 1)).
Proof.
  intros HL Hn i Ha Hne. rewrite nlinks_insert by done. unfold upd. destruct (Z.eqb_spec i ino) as [->|]; rewrite HL by done; lia.
Qed.
Lemma settled_delete A m L name ino : settled A m L -> m !! name = Some ino -> settled A (delete name m) (upd L ino (L ino - 1)).
Proof.
  intros HL Hn i Ha Hne. rewrite (nlinks_delete m name ino) by done. unfold upd. destruct (Z.eqb_spec i ino) as [->|]; rewrite HL by done; lia.
Qed.
Lemma nlinks_none m ino : (forall name, m !! name <> Some ino) -> nlinks m ino = 0.
Proof.
  intros Hn. unfold nlinks. replace (filter (fun p : list Z * Z => p.2 = ino) m) with (∅ : gmap (list Z) Z); [done|]. symmetry. apply map_empty. intros name.
  apply map_lookup_filter_None. right. intros i Hi E. cbn in E. subst i. by apply (Hn name).
Qed.
Lemma link_progress s A m L f s1 v name ino : progress s A m L f s1 -> is_root s1 v -> good_name name -> A ino -> ino <> SFS_ROOTDIR_INO ->
  wp (on_file v (sfs_dir_link name ino)) (fun r s' => is_root s' v /\ persists s1 s' /\ data_kept A s1 s' /\
    (forall j n i, names (entries (root s1)) j n i -> names (entries (root s')) j n i) /\
    (r.1 = 0 /\ m !! name = None /\ progress s A (<[name := ino]> m) L f s' /\ (exists k, r.2 = Some k) \/ r.1 <> 0 /\ progress s A m L f s')) s1.
Proof.
  intros HP Hv Hg Ha Hne. eapply wp_mono; [|by apply (link_step Hrel A m L s1 v name ino); [apply HP|..]]. cbv beta. intros r s' (Hs & Hn & Hcase).
  pose proof Hs as (Hd & _ & Hpe). split; [by eapply root_persists|]. split; [done|]. split; [done|]. split; [done|]. destruct Hcase as [(E & Hm & Hp & k & Hk & _)|[E Hp]]; [left|right].
  - split_and!; [done|done|by eapply pg_side|by eexists].
  - split; [done|]. by eapply pg_side.
Qed.
Lemma unlink_progress s A m L f s1 v name ino (k : nat) : progress s A m L f s1 -> is_root s1 v -> names (entries (root s1)) k name ino ->
  wp (on_file v (sfs_dir_unlink (Z.of_nat k))) (fun e s' => e = 0 /\ persists s1 s' /\ progress s A (delete name m) L f s') s1.
Proof.
  intros HP Hv Hn. eapply wp_mono; [|by apply (unlink_step Hrel A m L s1 v name ino k); [apply HP|..]]. cbv beta. intros e s' (E & Hs & Hp).
  split; [done|]. split; [apply Hs|]. by eapply pg_side.
Qed.
(** A reference to the file of an inode is what is returned. *)
Definition refers s (r : option Z) ino : Prop := exists w x, r = Some w /\ vnodes s !! w = Some x /\ sv_ino x = ino.
Definition gained (r : option Z) : Z -> Z := match r with Some w => one w | None => fun _ => 0 end.
Notation nothing := (fun _ : Z => False).

(** [sfs_loadvnode] of a file that there is, as the end of an operation. *)
Lemma load_end s A m L f s1 ino : progress s A m L f s1 -> settled A m L -> (forall x, f x = 0) -> A ino -> wp (sfs_loadvnode ino SFS_TYPE_INVAL) (fun r s' =>
  finished nothing s m (gained r.2) s' /\ (r.1 = 0 /\ refers s' r.2 ino \/ r.1 <> 0 /\ r.1 <> ENOENT /\ r.2 = None)) s1.
Proof.
  intros HP HL Hf Ha. eapply wp_mono; [|by apply (load_progress s A m L f)]. cbv beta. intros [e r] s' (_ & _ & [(w & x & [= -> ->] & Hx & Hi & HP')|(He & Hn & Hr & HP')]); cbn [fst snd] in *; [|subst r].
  - split; [|left; split; [done|by exists w, x]]. eapply pg_end; [done|done|]. intros y. cbn. by rewrite Hf.
  - split; [|by right]. eapply pg_end; [done|done|]. intros y. cbn. by rewrite Hf.
Qed.
Definition getroot_post s (r : Z * option Z) s' : Prop :=
  finished nothing s (dirmap s) (gained r.2) s' /\ (r.1 = 0 /\ refers s' r.2 SFS_ROOTDIR_INO \/ r.1 <> 0 /\ r.2 = None).
Lemma root_type s : fs_ok s -> sfi_type (inode s SFS_ROOTDIR_INO) = SFS_TYPE_DIR.
Proof. intros Hok. apply (do_type (root s) (ok_root s Hok)). Qed.
Lemma is_root_type s v x : fs_ok s -> vnodes s !! v = Some x -> sfi_type (sv_inode x) = SFS_TYPE_DIR <-> sv_ino x = SFS_ROOTDIR_INO.
Proof.
  intros Hok Hx. pose proof (inode_core s v x (bk_table _ s (ok_blocks s Hok)) Hx) as Hi. split.
  - intros Ht. destruct (Z.eq_dec (sv_ino x) SFS_ROOTDIR_INO) as [|Hne]; [done|]. exfalso.
    destruct (ok_files s Hok (sv_ino x)) as [Hf _]; [right; left; eauto|done|]. rewrite Hi, Ht in Hf. done.
  - intros E. rewrite E in Hi. rewrite <-Hi. by apply root_type.
Qed.
Lemma sfs_getroot_spec s : fs_ok s -> wp sfs_getroot (getroot_post s) s.
Proof.
  intros Hok. unfold sfs_getroot. rewrite wp_bind. eapply wp_mono; [|apply (load_end s _ _ _ _ s SFS_ROOTDIR_INO (pg_start s Hok) (settled_start s)); [done|by left]].
  cbv beta. intros [e r] s' [Hf [[He Hr]|(He & _ & Hr)]]; cbn [fst snd] in *; subst.
  - pose proof Hr as (w & x & -> & Hx & Hi). cbn [Z.eqb negb]. wp_simpl. eapply wp_sv_of; [done|]. rewrite (proj2 (is_root_type s' w x (fin_ok _ _ _ _ _ Hf) Hx) Hi).
    change (SFS_TYPE_DIR =? SFS_TYPE_DIR) with true. cbn [negb]. wp_simpl. split; [done|by left].
  - destruct (Z.eqb_spec e 0); [done|]. cbn [negb]. wp_simpl. split; [done|by right].
Qed.

(** *** [sfs_lookup], [sfs_lookparent] *)

Definition lookup_post s name (r : Z * option Z) s' : Prop :=
  finished nothing s (dirmap s) (gained r.2) s' /\
  (r.1 = 0 -> exists ino, dirmap s !! name = Some ino /\ refers s' r.2 ino) /\ (r.1 <> 0 -> r.2 = None) /\ (r.1 = ENOENT -> dirmap s !! name = None).
Lemma sfs_lookup_spec s v name : fs_ok s -> is_root s v -> wp (sfs_lookup v name) (lookup_post s name) s.
Proof.
  intros Hok Hv. pose proof Hv as (x & Hx & Hi). unfold sfs_lookup. wp_simpl. eapply wp_sv_of; [done|]. rewrite (proj2 (is_root_type s v x Hok Hx) Hi).
  change (SFS_TYPE_DIR =? SFS_TYPE_DIR) with true. cbn [negb]. rewrite wp_bind.
  eapply wp_mono; [|apply (lookonce_spec s _ _ _ _ s v name (pg_start s Hok) (settled_start s) Hv)]. cbv beta.
  intros [[e w] slot] s' (_ & [(k & ino & w' & y & [= -> -> ->] & _ & Hm & Hy & Hyi & HP)|(He & Hw & Hno & HP)]); cbn [fst snd] in *.
  - cbn [Z.eqb negb]. wp_simpl. split; [by eapply pg_end; [done|apply settled_start|]|]. split; [|done]. intros _. exists ino. split; [done|]. by exists w', y.
  - subst w. destruct (Z.eqb_spec e 0); [done|]. cbn [negb]. wp_simpl. split; [by eapply pg_end; [done|apply settled_start|]|]. done.
Qed.
Definition lookparent_post s v name (r : Z * option Z * list Z) s' : Prop :=
  finished nothing s (dirmap s) (gained r.1.2) s' /\ (r = (0, Some v, name) \/ r = (ENAMETOOLONG, None, [])).
Lemma sfs_lookparent_spec s v name buflen : fs_ok s -> is_root s v -> wp (sfs_lookparent v name buflen) (lookparent_post s v name) s.
Proof.
  intros Hok Hv. pose proof Hv as (x & Hx & Hi). unfold sfs_lookparent. wp_simpl. eapply wp_sv_of; [done|]. rewrite (proj2 (is_root_type s v x Hok Hx) Hi).
  change (SFS_TYPE_DIR =? SFS_TYPE_DIR) with true. cbn [negb]. pose proof (pg_start s Hok) as HP. destruct (_ <? _); wp_simpl.
  - split; [|by right]. by eapply pg_end; [done|apply settled_start|].
  - eapply wp_mono; [|by apply (sfs_incref_spec _ s v x (ok_blocks s Hok))]. cbv beta. intros _ s' (H1 & H2 & H3 & H4 & _). wp_simpl. split; [|by left].
    eapply pg_end; [|apply settled_start|]; [|done]. eapply (pg_next s _ _ _ _ s); [exact HP|apply (part_all _ _ _ s s'); [apply HP|done|exact H2]|done|apply kept_data; [by eapply pg_root|done]|exact H3|exact H4|done].
Qed.

(** *** [sfs_creat] *)

Definition creat_post s name excl (r : Z * option Z) s' : Prop :=
  (exists ino, r.1 = 0 /\ excl = false /\ dirmap s !! name = Some ino /\ refers s' r.2 ino /\ finished nothing s (dirmap s) (gained r.2) s') \/
  (exists ino, r.1 = 0 /\ dirmap s !! name = None /\ ~ alive s ino /\ refers s' r.2 ino /\ sfi_size (inode s' ino) = 0 /\
     finished nothing s (<[name := ino]> (dirmap s)) (gained r.2) s') \/
  (r.1 <> 0 /\ r.2 = None /\ finished nothing s (dirmap s) (gained r.2) s').
(** A new file in the place of the name. *)
Lemma creat_new s A m L f s1 v name : progress s A m L f s1 -> settled A m L -> (forall x, f x = 0) -> is_root s1 v -> good_name name -> m !! name = None ->
  wp ('(result, newguy) ← sfs_makeobj SFS_TYPE_FILE;
      if negb (result =? 0) then mret (result, None) else
      w ← deref newguy "newguy";
      y ← sv_of w;
      '(result, _) ← on_file v (sfs_dir_link name (sv_ino y));
      if negb (result =? 0) then VOP_DECREF w;; mret (result, None) else
      update_sv w (add_links 1);;
      mret (0, Some w)) (fun r s' =>
  (exists ino, r.1 = 0 /\ ~ A ino /\ refers s' r.2 ino /\ sfi_size (inode s' ino) = 0 /\ finished nothing s (<[name := ino]> m) (gained r.2) s') \/
  (r.1 <> 0 /\ r.2 = None /\ finished nothing s m (gained r.2) s')) s1.
Proof.
  intros HP HL Hf Hv Hg Hno. pose proof (pg_part _ _ _ _ _ _ HP) as Hp. rewrite wp_bind. eapply wp_mono; [|apply (makeobj_spec A), Hp]. cbv beta.
  intros [e r] s2 [[[ino Hm] Hke]|(He & Hr & Hk & Hke & Hvn)]; cbn [fst snd] in *.
  - destruct (made_step A m L s1 ino _ s2 Hp Hm Hke) as [Hp2 Hd2]. pose proof Hm as (w & y & [= -> ->] & Hna & _ & _ & Hy & Hyi & Hynew & _ & Hc & Hpe).
    set (A' := fun i => A i \/ i = ino) in *. cbn [Z.eqb negb]. wp_simpl. eapply wp_sv_of; [done|]. wp_simpl.
    assert (Hne : ino <> SFS_ROOTDIR_INO) by (intros ->; by apply Hna, Hp).
    assert (HP2 : progress s A' m (upd L ino 0) (one w) s2).
    { eapply (pg_next s A m L f s1); [exact HP|done|by left|done|exact Hc|done|]. intros x. by rewrite Hf. }
    assert (HL2 : settled A' m (upd L ino 0)).
    { intros i Hi Hni. unfold upd. destruct (Z.eqb_spec i ino) as [->|Hni']; [|destruct Hi as [Hi|?]; [by apply HL|done]].
      symmetry. apply nlinks_none. intros n Hn. by apply Hna, (po_names _ _ _ _ Hp n ino). }
    assert (Hsize : sfi_size (inode s2 ino) = 0) by (rewrite <-Hyi, (inode_core s2 w y), Hynew by (done || apply Hp2); done).
    rewrite Hyi. eapply wp_mono; [|apply (link_progress s A' m _ _ s2 v name ino HP2); [by eapply root_persists|done|by right|done]]. cbv beta.
    intros [e k] s3 (Hv3 & Hpe3 & Hd3 & _ & [(He & _ & HP3 & _)|[He HP3]]); cbn [fst snd] in *.
    + subst e. cbn [Z.eqb negb]. destruct (Hpe3 w y Hy) as (z & Hz & Hzi). rewrite Hyi in Hzi. wp_simpl. eapply wp_update; [done|]. wp_simpl. left. exists ino.
      destruct (pg_links s A' _ _ _ s3 w z 1 HP3 Hz) as (HP4 & Hd4 & Hpe4 & _); [congruence|unfold upd; rewrite Hzi, Z.eqb_refl; lia|]. rewrite Hzi in HP4. cbn [fst snd].
      split; [done|]. split; [done|]. split; [exists w, (add_links 1 z); split; [done|]; split; [apply lookup_insert_eq|done]|].
      split; [|eapply pg_end; [exact HP4|by apply settled_insert|done]].
      etransitivity; [apply Hd4; [by right|done]|]. etransitivity; [apply Hd3; [by right|done]|done].
    + destruct (Z.eqb_spec e 0); [done|]. cbn [negb]. wp_simpl. destruct (Hpe3 w y Hy) as (z & Hz & Hzi).
      eapply wp_mono; [|apply (pg_release s A' m _ _ (fun _ => 0) s3 w HP3); [done|by eexists|intros x; lia]]. cbv beta. intros _ s4 Hfin. wp_simpl. by right.
  - subst r. destruct (Z.eqb_spec e 0); [done|]. cbn [negb]. wp_simpl. right. split; [done|]. split; [done|]. eapply pg_end; [|exact HL|]; [|done].
    eapply (pg_next s A m L f s1 A m L (fun _ => 0)); [exact HP|by apply (part_all A m L s1)|done|apply kept_data; [by eapply pg_root|done]|by apply counts_same|by apply persists_same|]. intros x. by rewrite Hf.
Qed.
Lemma sfs_creat_spec s v name excl : fs_ok s -> is_root s v -> good_name name -> wp (sfs_creat v name excl) (creat_post s name excl) s.
Proof.
  intros Hok Hv Hg. unfold sfs_creat. rewrite wp_bind. eapply wp_mono; [|apply (find_progress s _ _ _ _ s v name (pg_start s Hok) Hv)]. cbv beta.
  intros [[e found] empty] s1 (HP & Hv1 & H0 & Hno). cbn [fst snd] in *. pose proof (settled_start s) as HL. destruct (Z.eqb_spec e 0) as [->|He].
  - cbn [negb andb]. destruct (H0 eq_refl) as (k & ino & -> & _ & Hm). destruct excl; wp_simpl.
    + right. right. split; [done|]. split; [done|]. by eapply pg_end.
    + destruct (po_names _ _ _ _ (pg_part _ _ _ _ _ _ HP) name ino Hm) as [Ha _]. eapply wp_mono; [|by apply (load_end s _ _ _ _ s1 ino HP HL)]. cbv beta.
      intros [e r] s2 [Hf [[He Hr]|(He & _ & Hr)]]; cbn [fst snd] in *; subst; cbn [Z.eqb negb].
      * wp_simpl. left. by exists ino.
      * destruct (Z.eqb_spec e 0); [done|]. cbn [negb]. wp_simpl. right. by right.
  - destruct (Z.eqb_spec e ENOENT) as [->|Hne]; cbn [negb andb].
    + specialize (Hno eq_refl). eapply wp_mono; [|by apply (creat_new s _ _ _ _ s1 v name HP HL)]. cbv beta. intros r s2 [(ino & R1 & R2 & R3 & R4 & R5)|?]; [|right; by right].
      right. left. exists ino. split_and!; auto.
    + wp_simpl. right. right. split; [done|]. split; [done|]. by eapply pg_end.
Qed.

(** *** [sfs_link], [sfs_remove], [sfs_rename] *)

Definition link_post s name ino (e : Z) s' : Prop :=
  e = 0 /\ ino <> SFS_ROOTDIR_INO /\ dirmap s !! name = None /\ finished nothing s (<[name := ino]> (dirmap s)) (gained None) s' \/
  e <> 0 /\ finished nothing s (dirmap s) (gained None) s'.
Lemma link_op_spec s v name w y : fs_ok s -> is_root s v -> good_name name -> vnodes s !! w = Some y -> wp (sfs_link v name w) (link_post s name (sv_ino y)) s.
Proof.
  intros Hok Hv Hg Hy. pose proof (is_root_type s w y Hok Hy) as Hty. pose proof (pg_start s Hok) as HP. pose proof (settled_start s) as HL.
  unfold sfs_link. rewrite wp_bind. eapply wp_sv_of; [done|]. destruct (Z.eqb_spec (sfi_type (sv_inode y)) SFS_TYPE_DIR) as [E|Hne].
  { wp_simpl. right. split; [done|]. by eapply pg_end. }
  assert (Hroot : sv_ino y <> SFS_ROOTDIR_INO) by (by rewrite <-Hty). assert (Ha : alive s (sv_ino y)) by (right; left; eauto).
  rewrite wp_bind. eapply wp_mono; [|by apply (link_progress s _ _ _ _ s v name (sv_ino y) HP)]. cbv beta.
  intros [e k] s1 (Hv1 & Hpe & _ & _ & [(He & Hno & HP1 & _)|[He HP1]]); cbn [fst snd] in *.
  - subst e. cbn [Z.eqb negb]. destruct (Hpe w y Hy) as (z & Hz & Hzi). rewrite wp_bind. eapply wp_update; [done|]. wp_simpl. left. do 3 (split; [done|]).
    pose proof (nlinks_bound _ _ _ s (sv_ino y) (pg_part _ _ _ _ _ _ HP)) as Hb.
    destruct (pg_links s _ _ _ _ s1 w z 1 HP1 Hz) as (HP2 & _); [by rewrite Hzi|rewrite Hzi; lia|]. rewrite Hzi in HP2. eapply pg_end; [exact HP2|by apply settled_insert|done].
  - destruct (Z.eqb_spec e 0); [done|]. cbn [negb]. wp_simpl. right. split; [done|]. by eapply pg_end.
Qed.
(** The link count of a file of which a name was removed. *)
Lemma unlinked s A m L f s1 w y name ino : progress s A (delete name m) L f s1 -> settled A m L -> m !! name = Some ino -> A ino -> ino <> SFS_ROOTDIR_INO -> nlinks m ino < 2 ^ 16 ->
  vnodes s1 !! w = Some y -> sv_ino y = ino ->
  0 < sfi_linkcount (sv_inode y) /\ progress s A (delete name m) (upd L ino (L ino - 1)) f (set_vnodes (<[w := add_links (-1) y]> (vnodes s1)) s1).
Proof.
  intros HP HL Hm Ha Hne Hb Hy <-. pose proof (pg_part _ _ _ _ _ _ HP) as Hp. destruct (po_files _ _ _ _ Hp _ Ha Hne) as [_ Hl]. rewrite (inode_core s1 w y) in Hl by (done || apply Hp).
  pose proof (nlinks_pos m name _ Hm) as Hpos. pose proof (HL _ Ha Hne) as HLn. split; [lia|].
  destruct (pg_links s A _ L f s1 w y (-1) HP Hy Hne) as (HP2 & _); [lia|]. exact HP2.
Qed.
(** The end of an operation that removed a name. *)
Lemma unlinked_end s A m L f s1 w y name ino e (Q : Z -> fs -> Prop) : progress s A (delete name m) (upd L ino (L ino - 1)) f (set_vnodes (<[w := y]> (vnodes s1)) s1) ->
  settled A m L -> m !! name = Some ino -> (forall x, f x = one w x) -> (forall s2, finished nothing s (delete name m) (gained None) s2 -> Q e s2) ->
  wp (VOP_DECREF w;; mret e) Q (set_vnodes (<[w := y]> (vnodes s1)) s1).
Proof.
  intros HP HL Hm Hf HQ. rewrite wp_bind.
  eapply wp_mono; [|apply (pg_release s _ _ _ _ (gained None) _ w HP); [by apply settled_delete|cbn; rewrite lookup_insert_eq; by eexists|intros x; rewrite Hf; cbn; lia]].
  cbv beta. intros _ s3 Hfin. wp_simpl. by apply HQ.
Qed.
Definition remove_post s name (e : Z) s' : Prop :=
  (e = 0 /\ is_Some (dirmap s !! name) /\ finished nothing s (delete name (dirmap s)) (gained None) s') \/
  (e <> 0 /\ (e = ENOENT -> dirmap s !! name = None) /\ finished nothing s (dirmap s) (gained None) s').
Lemma sfs_remove_spec s v name : fs_ok s -> is_root s v -> wp (sfs_remove v name) (remove_post s name) s.
Proof.
  intros Hok Hv. pose proof (settled_start s) as HL. unfold sfs_remove. rewrite wp_bind.
  eapply wp_mono; [|apply (lookonce_spec s _ _ _ _ s v name (pg_start s Hok) HL Hv)]. cbv beta.
  intros [[e w] slot] s1 (Hv1 & [(k & ino & w' & y & [= -> -> ->] & Hk & Hm & Hy & Hyi & HP)|(He & Hw & Hno & HP)]); cbn [fst snd] in *.
  - cbn [Z.eqb negb]. wp_simpl. destruct (po_names _ _ _ _ (pg_part _ _ _ _ _ _ HP) name ino Hm) as [Ha Hne]. pose proof (nlinks_bound _ _ _ s ino (pg_part _ _ _ _ _ _ (pg_start s Hok))) as Hb.
    eapply wp_mono; [|by apply (unlink_progress s _ _ _ _ s1 v name ino k HP)]. cbv beta. intros e s2 (-> & Hpe & HP2). destruct (Hpe w' y Hy) as (z & Hz & Hzi). rewrite Hyi in Hzi.
    change (0 =? 0) with true. cbv iota. destruct (unlinked s _ _ _ _ s2 w' z name ino HP2 HL Hm Ha Hne ltac:(lia) Hz Hzi) as [Hpos HP3].
    rewrite wp_bind, wp_bind. eapply wp_sv_of; [done|]. rewrite wp_bind, wp_KASSERT. split; [by apply Z.ltb_lt|]. eapply wp_update; [done|].
    eapply (unlinked_end s); [done..|]. intros s3 Hf. left. split_and!; [done|by eexists|done].
  - destruct (Z.eqb_spec e 0); [done|]. cbn [negb]. wp_simpl. right. split; [done|]. split; [done|]. by eapply pg_end.
Qed.
Definition rename_post s n1 n2 (e : Z) s' : Prop :=
  (exists ino, e = 0 /\ dirmap s !! n1 = Some ino /\ dirmap s !! n2 = None /\ finished nothing s (delete n1 (<[n2 := ino]> (dirmap s))) (gained None) s') \/
  (e <> 0 /\ finished nothing s (dirmap s) (gained None) s').
Lemma sfs_rename_spec s v n1 n2 : fs_ok s -> is_root s v -> good_name n2 -> wp (sfs_rename v n1 v n2) (rename_post s n1 n2) s.
Proof.
  intros Hok Hv Hg. pose proof (settled_start s) as HL. pose proof Hv as (x & Hx & Hxi). unfold sfs_rename. rewrite wp_bind, wp_KASSERT. split; [apply Z.eqb_refl|].
  rewrite wp_bind. eapply wp_sv_of; [done|]. rewrite wp_bind, wp_KASSERT. split; [by rewrite Hxi|]. rewrite wp_bind.
  eapply wp_mono; [|apply (lookonce_spec s _ _ _ _ s v n1 (pg_start s Hok) HL Hv)]. cbv beta.
  intros [[e w] slot] s1 (Hv1 & [(k & ino & w' & y & [= -> -> ->] & Hk & Hm & Hy & Hyi & HP)|(He & Hw & Hno & HP)]); cbn [fst snd] in *.
  2:{ destruct (Z.eqb_spec e 0); [done|]. cbn [negb]. wp_simpl. right. split; [done|]. by eapply pg_end. }
  cbn [Z.eqb negb]. wp_simpl. pose proof (pg_part _ _ _ _ _ _ HP) as Hp. destruct (po_names _ _ _ _ Hp n1 ino Hm) as [Ha Hne].
  pose proof (nlinks_bound _ _ _ s ino (pg_part _ _ _ _ _ _ (pg_start s Hok))) as Hb.
  eapply wp_sv_of; [done|]. rewrite wp_bind, wp_KASSERT. destruct (po_files _ _ _ _ Hp ino Ha Hne) as [Hty _]. rewrite <-Hyi, (inode_core s1 w' y) in Hty by (done || apply Hp).
  split; [by rewrite Hty|]. rewrite Hyi, wp_bind. eapply wp_mono; [|by apply (link_progress s _ _ _ _ s1 v n2 ino HP)]. cbv beta.
  intros [e k2] s2 (Hv2 & Hpe & _ & Hstay & [(He & Hno & HP2 & k2' & Hk2)|[He HP2]]); cbn [fst snd] in *; destruct (Hpe w' y Hy) as (z & Hz & Hzi); rewrite Hyi in Hzi.
  2:{ destruct (Z.eqb_spec e 0); [done|]. cbn [negb]. wp_simpl. eapply wp_mono; [|apply (pg_release s _ _ _ _ (gained None) s2 w' HP2); [done|by eexists|intros u; cbn; lia]].
      cbv beta. intros _ s3 Hf. wp_simpl. by right. }
  subst e k2. cbn [Z.eqb negb]. rewrite wp_bind. eapply wp_update; [done|].
  destruct (pg_links s _ _ _ _ s2 w' z 1 HP2 Hz) as (HP3 & _ & Hpe3 & Hent); [by rewrite Hzi|rewrite Hzi; lia|]. rewrite Hzi in HP3.
  set (s3 := set_vnodes _ s2) in *. wp_simpl. assert (Hm1 : <[n2 := ino]> (dirmap s) !! n1 = Some ino) by (by rewrite lookup_insert_ne by congruence).
  assert (Hv3 : is_root s3 v) by by eapply root_persists.
  eapply wp_mono; [|apply (unlink_progress s _ _ _ _ s3 v n1 ino k HP3 Hv3)]; [|rewrite Hent; by apply Hstay]. cbv beta. intros e s4 (-> & Hpe4 & HP4). cbn [Z.eqb negb].
  assert (Hz3 : vnodes s3 !! w' = Some (add_links 1 z)) by apply lookup_insert_eq. destruct (Hpe4 w' _ Hz3) as (z4 & Hz4 & Hzi4). change (sv_ino (add_links 1 z)) with (sv_ino z) in Hzi4. rewrite Hzi in Hzi4.
  assert (HL3 := settled_insert _ _ _ n2 ino HL Hno).
  destruct (unlinked s _ _ _ _ s4 w' z4 n1 ino HP4 HL3 Hm1 Ha Hne) as [Hpos HP5]; [rewrite nlinks_insert, Z.eqb_refl by done; lia|done..|].
  rewrite wp_bind. eapply wp_sv_of; [done|]. rewrite wp_bind, wp_KASSERT. split; [by apply Z.ltb_lt|]. rewrite wp_bind. eapply wp_update; [done|].
  eapply (unlinked_end s); [done..|]. intros s5 Hf. left. by exists ino.
Qed.

(** *** Which error *)

Lemma find_decides s v name : fs_ok s -> is_root s v -> wp (on_file v (sfs_dir_findname name)) (fun r s' =>
  (dirmap s !! name = None -> r.1.1 = ENOENT) /\ (is_Some (dirmap s !! name) -> r.1.1 = 0)) s.
Proof.
  intros Hok (x & Hx & Hi). destruct (root_view _ _ _ s v x (pg_part _ _ _ _ _ _ (pg_start s Hok)) Hx Hi) as [Hd He].
  eapply wp_file; [done|]. eapply wp_mono; [|apply findname_decides; [exact Hrel|done]]. cbv beta. intros r t' [_ Hr].
  unfold dirmap. by rewrite <-He.
Qed.
Lemma lookonce_missing s v name : fs_ok s -> is_root s v -> dirmap s !! name = None ->
  wp (sfs_lookonce v name) (fun r s' => r = (ENOENT, None, 0)) s.
Proof.
  intros Hok Hv Hm. unfold sfs_lookonce. rewrite wp_bind. eapply wp_mono; [|by apply find_decides]. cbv beta.
  intros [[e found] empty] s1 [He _]. cbn [fst] in He. rewrite (He Hm). by wp_simpl.
Qed.
Lemma name_missing s v name n2 : fs_ok s -> is_root s v -> dirmap s !! name = None ->
  wp (sfs_lookup v name) (fun r _ => r = (ENOENT, None)) s /\ wp (sfs_remove v name) (fun e _ => e = ENOENT) s /\
  wp (sfs_rename v name v n2) (fun e _ => e = ENOENT) s.
Proof.
  intros Hok Hv Hm. pose proof Hv as (x & Hx & Hi). pose proof (lookonce_missing s v name Hok Hv Hm) as Hl. split_and!.
  - unfold sfs_lookup. wp_simpl. eapply wp_sv_of; [done|]. rewrite (proj2 (is_root_type s v x Hok Hx) Hi).
    change (SFS_TYPE_DIR =? SFS_TYPE_DIR) with true. cbn [negb]. rewrite wp_bind. eapply wp_mono; [|exact Hl]. cbv beta. intros ? s' ->. by wp_simpl.
  - unfold sfs_remove. rewrite wp_bind. eapply wp_mono; [|exact Hl]. cbv beta. intros ? s' ->. by wp_simpl.
  - unfold sfs_rename. rewrite wp_bind, wp_KASSERT. split; [apply Z.eqb_refl|]. rewrite wp_bind. eapply wp_sv_of; [done|].
    rewrite wp_bind, wp_KASSERT. split; [by rewrite Hi|]. rewrite wp_bind. eapply wp_mono; [|exact Hl]. cbv beta. intros ? s' ->. by wp_simpl.
Qed.
Lemma creat_exists s v name : fs_ok s -> is_root s v -> is_Some (dirmap s !! name) -> wp (sfs_creat v name true) (fun r _ => r = (EEXIST, None)) s.
Proof.
  intros Hok Hv Hm. unfold sfs_creat. rewrite wp_bind. eapply wp_mono; [|by apply find_decides]. cbv beta.
  intros [[e found] empty] s1 [_ He]. cbn [fst] in He. rewrite (He Hm). by wp_simpl.
Qed.
(** What [sfs_link] answers for the file [ino]. *)
Definition link_error s (name : list Z) (ino e : Z) : Prop :=
  (ino = SFS_ROOTDIR_INO -> e = EINVAL) /\
  (ino <> SFS_ROOTDIR_INO -> (is_Some (dirmap s !! name) -> e = EEXIST) /\
    (dirmap s !! name = None -> (60 <= length name)%nat -> e = ENAMETOOLONG)).
Lemma link_decides s v name ino : fs_ok s -> is_root s v -> good_name name -> alive s ino -> ino <> SFS_ROOTDIR_INO ->
  wp (on_file v (sfs_dir_link name ino)) (fun r s' => persists s s' /\ (is_Some (dirmap s !! name) -> r.1 = EEXIST) /\
    (dirmap s !! name = None -> (60 <= length name)%nat -> r.1 = ENAMETOOLONG)) s.
Proof.
  intros Hok Hv Hg Ha Hne. pose proof (pg_start s Hok) as HP. pose proof Hv as (x & Hx & Hi).
  destruct (root_view _ _ _ s v x (pg_part _ _ _ _ _ _ HP) Hx Hi) as [Hd He].
  assert (Hr : wp (on_file v (sfs_dir_link name ino)) (fun r _ => (is_Some (dirmap s !! name) -> r.1 = EEXIST) /\
      (dirmap s !! name = None -> (60 <= length name)%nat -> r.1 = ENAMETOOLONG)) s).
  { eapply wp_file; [done|]. pose proof (pg_part _ _ _ _ _ _ HP) as Hp. destruct (bk_file _ s (po_blocks _ _ _ _ Hp) ino Ha) as [F1 _ _ _ _ _].
    pose proof (vo_dev _ (bk_volume _ s (po_blocks _ _ _ _ Hp))) as Hdev. pose proof (dev_blocks_fit (D:=D)). cbn [sb_nblocks volume vol] in Hdev.
    assert (Hret := link_spec _ name ino Hd Hg ltac:(lia)). assert (Hw := link_refused _ name ino Hrel Hd).
    unfold dirmap. rewrite <-He. unfold wp, wlp in *. by destruct (sfs_dir_link name ino _). }
  eapply wp_mono; [|apply wp_and; [by apply (link_progress s _ _ _ _ s v name ino HP)|exact Hr]]. cbv beta.
  intros r s' [(_ & Hpe & _) ?]. done.
Qed.
Lemma link_refuses s v name w y : fs_ok s -> is_root s v -> good_name name -> vnodes s !! w = Some y ->
  wp (sfs_link v name w) (fun e _ => link_error s name (sv_ino y) e) s.
Proof.
  intros Hok Hv Hg Hy. pose proof (is_root_type s w y Hok Hy) as Hty.
  unfold sfs_link. rewrite wp_bind. eapply wp_sv_of; [done|]. destruct (Z.eqb_spec (sfi_type (sv_inode y)) SFS_TYPE_DIR) as [E|Hne].
  { wp_simpl. apply Hty in E. by split. }
  assert (Hroot : sv_ino y <> SFS_ROOTDIR_INO) by (by rewrite <-Hty). assert (Ha : alive s (sv_ino y)) by (right; left; eauto).
  rewrite wp_bind. eapply wp_mono; [|by apply link_decides]. cbv beta. intros [e k] s1 (Hpe & Hyes & Hlong); cbn [fst] in *.
  destruct (Z.eqb_spec e 0) as [->|]; cbn [negb]; wp_simpl; [|by split].
  destruct (Hpe w y Hy) as (z & Hz & _). eapply wp_update; [done|]. wp_simpl. by split.
Qed.

(** ** Operations on one vnode *)

(** The file's data are another's business: what is inside stays well-formed, and what
    belongs to others stays as it is ([step_ok]). *)
Lemma file_op s v x t' : fs_ok s -> vnodes s !! v = Some x -> sv_ino x <> SFS_ROOTDIR_INO -> step_ok (vol (sv_inode x) (sv_modified x) s) t' ->
  let s' := file_put v t' s in finished (fun i => i = sv_ino x) s (dirmap s) (gained None) s' /\ file_bytes (file s' (sv_ino x)) = file_bytes t' /\ inode s' (sv_ino x) = sv_i t'.
Proof.
  intros Hok Hx Hne Hst s'. pose proof (pg_part _ _ _ _ _ _ (pg_start s Hok)) as [P1 P2 P3 P4 P5 P6 P7].
  destruct (file_step (alive s) s v x t' P1 Hx Hst) as (S1 & S2 & S3 & S4 & _ & S6 & S7). fold s' in S1, S2, S3, S4, S6, S7. split; [|done].
  assert (Ha : alive s (sv_ino x)) by (right; left; eauto). assert (Hroot : file_same s s' SFS_ROOTDIR_INO) by (apply S2; auto).
  assert (Hp : part_ok (alive s) (dirmap s) (nlinks (dirmap s)) s').
  { split; try done.
    - by apply (kept_root_ok (alive s) s).
    - unfold dirmap. by rewrite (kept_root s s').
    - by rewrite (proj1 Hroot).
    - intros i Hi Hni. destruct (Z.eq_dec i (sv_ino x)) as [->|Hnx]; [|rewrite (kept_inode _ _ _ (S2 i Hi Hnx)); by apply P7].
      rewrite S3. destruct (P7 _ Ha Hne) as [T1 T2]. rewrite (inode_core s v x) in T1, T2 by (done || apply P1). destruct Hst as (_ & _ & ([= -> ->] & _) & _). done. }
  destruct (part_end _ _ _ s' Hp (settled_start s)) as (E1 & E2 & E3). split; [done|done| | |].
  - split; [done|]. intros i (Hi & _ & Hni) _. split; [by apply kept_bytes, S2|]. by rewrite (kept_inode _ _ _ (S2 i Hi Hni)).
  - eapply counts_insert; [exact S6|]. intros w. unfold count. rewrite Hx. cbn. destruct (w =? v); lia.
  - intros w y Hy _. by apply (persists_insert s s' v x (set_file (sv_i t') (sv_dirty t') x)).
Qed.
Lemma file_op_spec s v x (op : K (Sfs.sfs B D) Z) : fs_ok s -> vnodes s !! v = Some x -> sv_ino x <> SFS_ROOTDIR_INO ->
  wp op (fun _ t' => step_ok (vol (sv_inode x) (sv_modified x) s) t') (vol (sv_inode x) (sv_modified x) s) ->
  wp (on_file v op) (fun _ s' => finished (fun i => i = sv_ino x) s (dirmap s) (gained None) s') s.
Proof.
  intros Hok Hx Hne Hop. eapply wp_file; [done|]. eapply wp_mono; [|exact Hop]. cbv beta. intros e t' Hst. by apply file_op.
Qed.
Lemma sfs_truncate_spec s v x len : fs_ok s -> vnodes s !! v = Some x -> sv_ino x <> SFS_ROOTDIR_INO -> 0 <= len < 2 ^ 32 ->
  wp (sfs_truncate v len) (fun _ s' => finished (fun i => i = sv_ino x) s (dirmap s) (gained None) s') s.
Proof.
  intros Hok Hx Hne Hl. apply file_op_spec; [done..|]. eapply wp_mono; [|apply (itrunc_step Hrel); [by apply (view_wf (alive s) s v x (ok_blocks s Hok))|done]]. cbv beta. by intros e t' (_ & Hst & _).
Qed.
Lemma fsync_spec s v x : fs_ok s -> vnodes s !! v = Some x -> wp (sfs_fsync v) (fun e s' => e = 0 /\ finished nothing s (dirmap s) (gained None) s') s.
Proof.
  intros Hok Hx. pose proof (pg_start s Hok) as HP. eapply wp_mono; [|by apply (sync_inode_spec Hrel (alive s) s v x (ok_blocks s Hok))]. cbv beta. intros e s' (-> & Hk & Hke & Hm & _).
  split; [done|]. eapply pg_end; [|apply settled_start|done]. eapply (pg_next s _ _ _ _ s _ _ _ (fun _ => 0)); [exact HP|by eapply part_all; [apply HP|..]|done|apply kept_data; [by eapply pg_root|done]| | |done].
  - eapply counts_insert; [exact Hm|]. intros w. unfold count. rewrite Hx. cbn. destruct (w =? v); lia.
  - by apply (persists_insert s s' v x (set_modified false x)).
Qed.
Lemma incref_op_spec s v x : fs_ok s -> vnodes s !! v = Some x -> wp (VOP_INCREF v) (fun _ s' => finished nothing s (dirmap s) (one v) s') s.
Proof.
  intros Hok Hx. pose proof (pg_start s Hok) as HP. eapply wp_mono; [|by apply (sfs_incref_spec _ s v x (ok_blocks s Hok))]. cbv beta. intros _ s' (H1 & H2 & H3 & H4 & _).
  eapply pg_end; [|apply settled_start|]; [|done]. eapply (pg_next s _ _ _ _ s); [exact HP|apply (part_all _ _ _ s s'); [apply HP|done|exact H2]|done|apply kept_data; [by eapply pg_root|done]|exact H3|exact H4|done].
Qed.
Lemma decref_op_spec s v x : fs_ok s -> vnodes s !! v = Some x -> wp (VOP_DECREF v) (fun _ s' => finished nothing s (dirmap s) (fun y => - one v y) s') s.
Proof. intros Hok Hx. by apply (pg_release s _ _ _ _ _ s v (pg_start s Hok) (settled_start s)). Qed.
Lemma still s : fs_ok s -> finished nothing s (dirmap s) (gained None) s.
Proof. intros Hok. by eapply pg_end; [apply pg_start|apply settled_start|]. Qed.
Lemma gettype_spec s v x : fs_ok s -> vnodes s !! v = Some x -> wp (sfs_gettype v) (fun r s' => r.1 = 0 /\ s' = s) s.
Proof.
  intros Hok Hx. unfold sfs_gettype. rewrite wp_bind. eapply wp_sv_of; [done|].
  assert (Ht : sfi_type (sv_inode x) = SFS_TYPE_FILE \/ sfi_type (sv_inode x) = SFS_TYPE_DIR).
  { rewrite <-(inode_core s v x (bk_table _ s (ok_blocks s Hok)) Hx). apply (bk_file _ s (ok_blocks s Hok)). right. left. eauto. }
  by destruct Ht as [-> | ->]; wp_simpl.
Qed.

(** ** Any call *)

(** The callers' part: vnodes to which they have references, names without zeros; both directories
    of [VOP_RENAME] come from [sfs_lookparent]; a data operation that keeps to its file. *)
Definition held s v : Prop := is_Some (vnodes s !! v).
Definition valid s (c : call B D) : Prop :=
  match c with
  | Call_getroot => True
  | Call_incref v | Call_decref v | Call_fsync v | Call_gettype v | Call_stat v | Call_namefile v => held s v
  | Call_lookup v name | Call_lookparent v name _ | Call_creat v name _ | Call_remove v name => held s v /\ good_name name
  | Call_link v name w => held s v /\ held s w /\ good_name name
  | Call_rename v n1 v2 n2 => held s v /\ is_root s v2 /\ good_name n1 /\ good_name n2
  | Call_truncate v len => held s v /\ 0 <= len < 2 ^ 32
  | Call_data v op => held s v /\ wp op (fun _ t' => step_ok (file_view v s) t') (file_view v s)
  end.
Definition call_post s (c : call B D) (r : Z * option Z) s' : Prop := exists E m, finished E s m (taken c r) s'.
Lemma wp_dirop {X} s v x (m : K fs X) other Q : fs_ok s -> vnodes s !! v = Some x -> (is_root s v -> wp m Q s) -> Q other s -> wp (dirop v m other) Q s.
Proof.
  intros Hok Hx Hm HQ. unfold dirop. rewrite wp_bind. eapply wp_sv_of; [done|]. destruct (Z.eqb_spec (sfi_type (sv_inode x)) SFS_TYPE_DIR) as [E|]; [|by wp_simpl].
  apply Hm. exists x. split; [done|]. by apply (is_root_type s v x).
Qed.
Lemma wp_fileop {X} s v x (m : K fs X) other Q : fs_ok s -> vnodes s !! v = Some x -> (sv_ino x <> SFS_ROOTDIR_INO -> wp m Q s) -> Q other s -> wp (fileop v m other) Q s.
Proof.
  intros Hok Hx Hm HQ. unfold fileop. rewrite wp_bind. eapply wp_sv_of; [done|]. destruct (Z.eqb_spec (sfi_type (sv_inode x)) SFS_TYPE_DIR) as [E|Hne]; [by wp_simpl|].
  apply Hm. intros E. by apply Hne, (is_root_type s v x).
Qed.
Lemma wp_without (m : K fs Z) Q s : wp m (fun e s' => Q (e, None) s') s -> wp (without m) Q s.
Proof. intros Hm. unfold without. rewrite wp_bind. eapply wp_mono; [|exact Hm]. cbv beta. intros e s' HQ. by wp_simpl. Qed.
Lemma root_unique s v v2 : fs_ok s -> is_root s v -> is_root s v2 -> v2 = v.
Proof. intros Hok (x & Hx & Ei) (y & Hy & Ej). apply (tk_one s (bk_table _ s (ok_blocks s Hok)) v2 v y x); [done|done|congruence]. Qed.
Lemma sfs_call_spec s (c : call B D) : fs_ok s -> valid s c -> wp (do_call c) (call_post s c) s.
Proof.
  intros Hok. pose proof (still s Hok) as Hst.
  destruct c as [|v|v|v name|v name buflen|v name excl|v name w|v name|v n1 v2 n2|v len|v op|v|v|v|v]; cbn [valid do_call].
  - intros _. eapply wp_mono; [|by apply sfs_getroot_spec]. intros r s' [Hf _]. by exists nothing, (dirmap s).
  - intros [x Hx]. rewrite wp_bind. eapply wp_mono; [|by apply (incref_op_spec s v x)]. cbv beta. intros _ s' Hf. wp_simpl. by exists nothing, (dirmap s).
  - intros [x Hx]. rewrite wp_bind. eapply wp_mono; [|by apply (decref_op_spec s v x)]. cbv beta. intros _ s' Hf. wp_simpl. by exists nothing, (dirmap s).
  - intros [[x Hx] Hn]. eapply wp_dirop; [done|done|intros Hr|by exists nothing, (dirmap s)]. eapply wp_mono; [|by apply sfs_lookup_spec]. intros r s' [Hf _]. by exists nothing, (dirmap s).
  - intros [[x Hx] Hn]. eapply wp_dirop; [done|done|intros Hr|by exists nothing, (dirmap s)]. rewrite wp_bind. eapply wp_mono; [|by apply sfs_lookparent_spec].
    intros [[e r] l] s' [Hf _]. wp_simpl. by exists nothing, (dirmap s).
  - intros [[x Hx] Hn]. eapply wp_dirop; [done|done|intros Hr|by exists nothing, (dirmap s)]. eapply wp_mono; [|by apply sfs_creat_spec].
    intros r s' [(ino & _ & _ & _ & _ & Hf)|[(ino & _ & _ & _ & _ & _ & Hf)|(_ & _ & Hf)]]; by exists nothing; eexists.
  - intros ([x Hx] & [y Hy] & Hn). apply wp_without. eapply wp_dirop; [done|done|intros Hr|by exists nothing, (dirmap s)]. eapply wp_mono; [|by apply link_op_spec].
    intros e s' [(_ & _ & _ & Hf)|[_ Hf]]; by exists nothing; eexists.
  - intros [[x Hx] Hn]. apply wp_without. eapply wp_dirop; [done|done|intros Hr|by exists nothing, (dirmap s)]. eapply wp_mono; [|by apply sfs_remove_spec].
    intros e s' [(_ & _ & Hf)|(_ & _ & Hf)]; by exists nothing; eexists.
  - intros ([x Hx] & Hv2 & Hn1 & Hn2). apply wp_without. eapply wp_dirop; [done|done|intros Hr|by exists nothing, (dirmap s)]. rewrite (root_unique s v v2) by done.
    eapply wp_mono; [|by apply sfs_rename_spec]. intros e s' [(ino & _ & _ & _ & Hf)|[_ Hf]]; by exists nothing; eexists.
  - intros [[x Hx] Hl]. apply wp_without. eapply wp_fileop; [done|done|intros Hr|by exists nothing, (dirmap s)]. eapply wp_mono; [|by apply (sfs_truncate_spec s v x len)]. intros e s' Hf. by exists (fun i => i = sv_ino x), (dirmap s).
  - intros [[x Hx] Hop]. apply wp_without. eapply wp_fileop; [done|done|intros Hr|by exists nothing, (dirmap s)]. unfold file_view in Hop. rewrite Hx in Hop.
    eapply wp_mono; [|by apply (file_op_spec s v x)]. intros e s' Hf. by exists (fun i => i = sv_ino x), (dirmap s).
  - intros [x Hx]. apply wp_without. eapply wp_mono; [|by apply (fsync_spec s v x)]. intros e s' [_ Hf]. by exists nothing, (dirmap s).
  - intros [x Hx]. apply wp_without. rewrite wp_bind. eapply wp_mono; [|by apply (gettype_spec s v x)]. cbv beta. intros [e t] s' [_ ->]. wp_simpl. by exists nothing, (dirmap s).
  - intros [x Hx]. apply wp_without. unfold sfs_stat. rewrite wp_bind, wp_bind. eapply wp_mono; [|by apply (gettype_spec s v x)]. cbv beta. intros [e t] s' [E ->]. cbn in E. subst e.
    cbn [Z.eqb negb]. rewrite wp_bind. eapply wp_sv_of; [done|]. wp_simpl. by exists nothing, (dirmap s).
  - intros [x Hx]. apply wp_without. eapply wp_dirop; [done|done|intros (y & Hy & Hi)|by exists nothing, (dirmap s)]. unfold sfs_namefile. rewrite wp_bind. eapply wp_sv_of; [done|].
    rewrite wp_bind, wp_KASSERT. rewrite Hi. split; [done|]. wp_simpl. by exists nothing, (dirmap s).
Qed.
(** Sequences of calls, with the references that have been handed out. *)
Inductive reached s0 : (Z -> Z) -> fs -> Prop :=
| reached_start : reached s0 (fun _ => 0) s0
| reached_call h s c r s' : reached s0 h s -> valid s c -> do_call c s = Ret r s' -> reached s0 (fun v => h v + taken c r v) s'.
Lemma reached_ok s0 h s : fs_ok s0 -> vnodes s0 = ∅ -> reached s0 h s -> fs_ok s /\ forall v, count s v = h v.
Proof.
  intros Hok He Hr. induction Hr as [|h s c r s' _ [IH1 IH2] Hv E]; [split; [done|]; intros v; unfold count; by rewrite He|].
  pose proof (sfs_call_spec s c IH1 Hv) as Hw. unfold wp in Hw. rewrite E in Hw. destruct Hw as (X & m & Hf). split; [apply Hf|].
  intros v. rewrite (fin_counts _ _ _ _ _ Hf), IH2. done.
Qed.
End names.

(** ** The theorems *)

(** C5. A file system stays consistent.  Start with a consistent volume and no vnodes in memory, on a
    disk that does not fail, and let any sequence of calls be made (opening, creating, linking,
    removing, renaming, truncating and writing files, dropping references), of which each may
    run out of memory or space.  Then the volume is consistent: blocks belong to one file each and are
    marked in the bitmap, inodes are well formed, link counts count the names, what is not
    marked modified is on the disk; every vnode has as many references as were handed out and not given back,
    so when all were given back none is left; and every further call returns, no assertion fails. *)
Theorem sfs_consistent {B D} `{FreeMap B} `{Disk D} (s0 s : sfs_fs B D) (h : Z -> Z) :
  reliable D -> fs_ok s0 -> vnodes s0 = ∅ -> reached s0 h s ->
  fs_ok s /\ (forall v, count s v = h v) /\ ((forall v, h v = 0) -> sfs_vnodes s = []) /\
  forall c, valid s c -> exists r s', do_call c s = Ret r s'.
Proof.
  intros Hrel Hok He Hr. destruct (reached_ok Hrel s0 h s Hok He Hr) as [Hs Hh]. split; [done|]. split; [done|]. split.
  - intros Hz. pose proof (bk_table _ s (ok_blocks s Hs)) as Hk. destruct (sfs_vnodes s) as [|v l] eqn:E; [done|].
    assert (Hv : 0 < count s v) by (apply (sfs_live_count (alive s)); [apply Hs|]; apply (tk_live s Hk); rewrite E; by left). rewrite Hh, Hz in Hv. lia.
  - intros c Hv. pose proof (sfs_call_spec Hrel s c Hs Hv) as Hw. unfold wp in Hw. destruct (do_call c s) as [r s'| | |]; [eauto|done..].
Qed.

(** C6. On a disk that does not fail (so EIO, and what the code does then, up to the panic "Cannot recover" of
    [sfs_rename], is outside), the operations on names are those of a map from names to files, which the
    directory is.  [sfs_lookup] finds the file of a name; [sfs_creat] enters a new empty file, or with
    [excl] clear opens the one there is; [sfs_link] enters a second name of a file, [sfs_remove] removes
    a name, [sfs_rename] replaces one by another that is new.  A name that is not there is [ENOENT] for
    [sfs_lookup], [sfs_remove] and [sfs_rename]; one that is there is [EEXIST] for [sfs_creat] with [excl] and
    for [sfs_link], which answers [ENAMETOOLONG] to a new name of 60 bytes or more and [EINVAL] for
    the directory itself; memory and space may run out at any time.  An error changes no name, and
    the error of a name that there is is never [ENOENT] for [sfs_lookup] and [sfs_remove].  All other
    files, whether they have names or only references, have the data they had, and the vnodes have gained the
    reference that is returned and no other. *)
Theorem sfs_names_correct {B D} `{FreeMap B} `{Disk D} (s : sfs_fs B D) (v w : Z) (y : sfs_vnode) (n1 n2 : list Z) (excl : bool) :
  reliable D -> fs_ok s -> is_root s v -> vnodes s !! w = Some y -> good_name n1 -> good_name n2 ->
  wp (sfs_lookup v n1) (lookup_post s n1) s /\ wp (sfs_creat v n1 excl) (creat_post s n1 excl) s /\ wp (sfs_link v n1 w) (link_post s n1 (sv_ino y)) s /\
  wp (sfs_remove v n1) (remove_post s n1) s /\ wp (sfs_rename v n1 v n2) (rename_post s n1 n2) s /\
  (dirmap s !! n1 = None -> wp (sfs_lookup v n1) (fun r _ => r = (ENOENT, None)) s /\ wp (sfs_remove v n1) (fun e _ => e = ENOENT) s /\
     wp (sfs_rename v n1 v n2) (fun e _ => e = ENOENT) s) /\
  (is_Some (dirmap s !! n1) -> wp (sfs_creat v n1 true) (fun r _ => r = (EEXIST, None)) s) /\
  wp (sfs_link v n1 w) (fun e _ => link_error s n1 (sv_ino y) e) s.
Proof.
  intros Hrel Hok Hv Hy H1 H2. split_and!; [..|by apply name_missing|by apply creat_exists|by apply link_refuses]; [by apply sfs_lookup_spec|by apply sfs_creat_spec|by apply link_op_spec|by apply sfs_remove_spec|by apply sfs_rename_spec].
Qed.

(** ** A small volume *)

Module Sfsops_sample.
(** Sixteen blocks that do not fail. *)
Record good_disk := Good { good_blocks : gmap Z (list Z) }.
Definition good_block (d : good_disk) (b : Z) : list Z := Sfs_sample.norm (default [] (good_blocks d !! b)).
Definition good_read (b : Z) : K good_disk (Z * list Z) :=
  d ← get; mret (if negb ((0 <=? b) && (b <? 16)) then (EINVAL, []) else (0, good_block d b)).
Definition good_write (b : Z) (l : list Z) : K good_disk (Z * list Z) :=
  if negb ((0 <=? b) && (b <? 16)) then mret (EINVAL, l) else d ← get; put (Good (<[b := l]> (good_blocks d)));; mret (0, []).
#[export, refine] Instance good_is_disk : Disk good_disk := {|
  dev_blocks := 16; dev_block := good_block; dev_read := good_read; dev_write := good_write;
  dev_ok _ := True; dev_step _ _ := True |}.
Proof.
  - by split.
  - done.
  - done.
  - intros d b. apply Sfs_sample.norm_ok.
  - intros d b _ [??]. unfold good_read. rewrite (proj2 (Z.leb_le 0 b)), (proj2 (Z.ltb_lt b 16)) by done. cbn [andb negb]. by wp_simpl.
  - intros d b l _ [??] Hl Hy. unfold good_write. rewrite (proj2 (Z.leb_le 0 b)), (proj2 (Z.ltb_lt b 16)) by done. cbn [andb negb]. wp_simpl.
    split_and!; [done| |left|done|done]; unfold good_block; cbn; [intros b' Hb; by rewrite lookup_insert_ne|]. rewrite lookup_insert_eq. by apply Sfs_sample.norm_id.
Defined.
Lemma good_reliable : reliable good_disk.
Proof.
  split.
  - intros d b _ [??]. cbn [dev_read good_is_disk dev_blocks] in *. unfold good_read. rewrite (proj2 (Z.leb_le 0 b)), (proj2 (Z.ltb_lt b 16)) by done. cbn [andb negb]. by wp_simpl.
  - intros d b l _ [??] _ _. cbn [dev_write good_is_disk dev_blocks] in *. unfold good_write. rewrite (proj2 (Z.leb_le 0 b)), (proj2 (Z.ltb_lt b 16)) by done. cbn [andb negb]. by wp_simpl.
Qed.

(** An empty volume: superblock, root directory, one block of bitmap, whose bits after the
    end of the disk are set.  Block 3 is taken, for a file without a name. *)
Definition root_inode : dinode := Dinode 0 SFS_TYPE_DIR 1 (replicate 15 0) 0.
Definition root_bytes : list Z := sfs_dinode_bytes root_inode (replicate 440 0).
Definition super : sfs_superblock := Superblock SFS_MAGIC 16 (replicate 32 0) (replicate 472 0).
Definition bits (b0 : Z) : Bitmap.bitmap := Bitmap.MkBitmap 4096 (b0 :: 0 :: replicate 510 255).
Lemma bits_ok b0 : is_byte b0 -> fm_ok (bits b0).
Proof. split; [done|]. split; [done|]. split; [done|]. split; [|intros i Hi; cbn in Hi; lia]. apply Forall_cons. split; [done|]. apply Forall_cons. split; [done|]. by apply Forall_replicate. Qed.
Lemma bits_used b0 b : b0 = 7 \/ b0 = 15 -> 16 <= b < 4096 -> fm_used (bits b0) b = true.
Proof.
  intros H0 Hb. assert (Hall : forallb (fm_used (bits b0)) (seqZ 16 4080) = true) by (destruct H0 as [-> | ->]; vm_compute; reflexivity).
  rewrite forallb_forall in Hall. apply Hall, list_elem_of_In, elem_of_seqZ. lia.
Qed.
Section empty.
Context {D : Type} {DK : Disk D} (d : D) (d_ok : dev_ok d) (d_blocks : 16 <= dev_blocks (D:=D)) (d_root : dev_block d 1 = root_bytes).
Context (b0 : Z) (b0_ok : b0 = 7 \/ b0 = 15) (mem : list bool).
Definition volume_of : sfs_fs Bitmap.bitmap D := SfsFs (bits b0) false super false d [] ∅ mem.
Notation s0 := volume_of.

Lemma empty_inode : inode s0 SFS_ROOTDIR_INO = root_inode.
Proof. unfold inode, in_core, block. cbn [vnodes volume_of sfs_device]. rewrite map_to_list_empty. cbn [list_find fmap list_fmap option_map option_fmap]. change SFS_ROOTDIR_INO with 1. rewrite d_root. by apply dinode_roundtrip; split; [..|apply Forall_replicate|]. Qed.
Lemma empty_dirmap : dirmap s0 = ∅.
Proof. unfold dirmap, root, entries, nslots. cbn [bf_size sfs_bytefile sv_i file vol]. by rewrite empty_inode. Qed.
Lemma empty_alive ino : alive s0 ino -> ino = SFS_ROOTDIR_INO.
Proof. intros [->|[(v & x & Hx & _)|(name & Hn)]]; [done|done|by rewrite empty_dirmap in Hn]. Qed.
Lemma empty_slots : slots (file s0 SFS_ROOTDIR_INO) = replicate 144 0.
Proof. unfold slots, refs, ind_words. cbn [sv_i file vol]. by rewrite empty_inode. Qed.
Lemma empty_volume : volume_ok (volume s0).
Proof.
  split; [apply bits_ok; by destruct b0_ok as [-> | ->]|cbn; lia|intros b Hb; by apply bits_used| |done|exact d_blocks].
  unfold used. cbn. by destruct b0_ok as [-> | ->].
Qed.
Lemma empty_wf : wf (file s0 SFS_ROOTDIR_INO).
Proof.
  split; [by apply (volume_dirty _ false), empty_volume|cbn; by rewrite empty_inode|]. rewrite empty_slots. by split; [intros k b [-> _]%lookup_replicate|intros i j b [-> _]%lookup_replicate].
Qed.
Lemma empty_owned b : ~ owned s0 SFS_ROOTDIR_INO b.
Proof. intros [Hb Hin]. rewrite empty_slots in Hin. by apply elem_of_replicate in Hin as [-> _]. Qed.
Lemma empty_system b : system s0 b -> b = 0 \/ b = 2.
Proof. intros [->|Hb]; [by left|right]. change (2 <= b < 3) in Hb. lia. Qed.
Lemma empty_ok : fs_ok s0.
Proof.
  split.
  - split; [apply empty_volume| | | |done| | |done].
    + split; [apply NoDup_nil_2| |done|done]. intros v. cbn. split; [by intros ?%elem_of_nil|by intros []].
    + intros b [-> | ->]%empty_system; unfold in_use; cbn; by destruct b0_ok as [-> | ->].
    + intros ino ->%empty_alive. split; rewrite ?empty_inode; try done; [|apply empty_wf|by right|].
      * unfold in_use. cbn. by destruct b0_ok as [-> | ->].
      * split; [by intros []%empty_system|]. by intros b ?%empty_owned.
    + intros ino ino' b ->%empty_alive ->%empty_alive. done.
    + intros ino ino' ->%empty_alive _. apply empty_owned.
  - split; [|cbn; by rewrite empty_inode|cbn; by rewrite empty_inode|].
    + split; [apply empty_wf|]. cbn. by rewrite empty_inode.
    + intros i j n x y (e & He & _). apply entries_bound in He. unfold nslots in He. cbn [bf_size sfs_bytefile root sv_i file vol] in He. rewrite empty_inode in He. change (Z.of_nat i < 0) in He. lia.
  - by rewrite empty_inode.
  - intros name. by rewrite empty_dirmap.
  - intros ino ->%empty_alive. done.
Qed.
(** With an open file that has no name. *)
Definition open_file : sfs_vnode := Sv 3 new_inode (sfs_waste_of (dev_block d 3)) true 1.
Definition with_file : sfs_fs Bitmap.bitmap D := set_table [0] (set_vnodes {[0 := open_file]} s0).
Lemma with_file_ok : b0 = 15 -> fs_ok with_file.
Proof.
  intros E. pose proof (part_start s0 empty_ok) as HP. assert (Hna : ~ alive s0 3) by (by intros ?%empty_alive).
  destruct (load_new (alive s0) s0 0 3 (sfs_waste_of (dev_block d 3)) (po_blocks _ _ _ _ HP)) as (L1 & L2 & L3 & L4); try done.
  - unfold in_use. cbn. by rewrite E.
  - intros i ->%empty_alive. apply empty_owned.
  - by intros []%empty_system.
  - change (set_table _ _) with with_file in L1, L2, L3, L4.
    assert (Hm : made (alive s0) s0 3 (0, Some 0) with_file) by (exists 0, open_file; by split_and!).
    destruct (made_step _ _ _ s0 3 _ with_file HP Hm L2) as [Hp _]. apply (part_end _ _ _ with_file) in Hp as [Hok _]; [exact Hok|].
    intros i Hi Hne. unfold upd. destruct (Z.eqb_spec i 3) as [->|]; [|done]. symmetry. rewrite empty_dirmap. by apply nlinks_none.
Qed.
End empty.
Definition empty_disk : good_disk := Good (<[0 := sfs_superblock_bytes super]> (<[1 := root_bytes]> {[2 := Bitmap.bitmap_getdata (bits 7)]})).
Definition empty_fs (mem : list bool) : sfs_fs Bitmap.bitmap good_disk := volume_of empty_disk 7 mem.
Lemma empty_fs_ok mem : fs_ok (empty_fs mem).
Proof. apply empty_ok; [done|done|by vm_compute|by left]. Qed.

(** The root directory is opened, a file is created and written, gets a second name, loses the
    first, and all references are given back.  There is no memory for the first attempt. *)
Definition a : list Z := [97].
Definition b : list Z := [98].
Definition write_hi : K (Sfs.sfs Bitmap.bitmap good_disk) Z := '(e, _) ← sfs_metaio 0 [104; 105] 2 UIO_WRITE; mret e.
Definition session : K (sfs_fs Bitmap.bitmap good_disk) (list Z * list (option Z)) :=
  '(_, v) ← do_call Call_getroot;
  v ← deref v "v";
  '(e0, _) ← do_call (Call_creat v a false);
  '(e1, w) ← do_call (Call_creat v a true);
  w ← deref w "w";
  '(e2, _) ← do_call (Call_data w write_hi);
  '(e3, _) ← do_call (Call_link v b w);
  '(e4, _) ← do_call (Call_remove v a);
  '(e5, _) ← do_call (Call_lookup v a);
  '(e6, u) ← do_call (Call_lookup v b);
  '(e7, _) ← do_call (Call_rename v b v b);
  _ ← do_call (Call_decref w);
  _ ← do_call (Call_decref w);
  _ ← do_call (Call_decref v);
  mret ([e0; e1; e2; e3; e4; e5; e6; e7], [Some w; u]).
Example sfs_session_runs : match session (empty_fs [true; true; false]) with
  | Ret r s => r.1 = [ENOMEM; 0; 0; 0; 0; ENOENT; 0; EEXIST] /\ sfs_vnodes s = [] /\ bool_decide (dirmap s = {[b := 3]}) = true /\ sfs_freemapdirty s = true /\
      take 2 (file_bytes (file s 3)) = [104; 105] /\ sfi_linkcount (inode s 3) = 1
  | _ => False end.
Proof. vm_compute. split_and!; reflexivity. Qed.

(** The volume with the root directory open. *)
Definition opened : sfs_fs Bitmap.bitmap good_disk := match do_call Call_getroot (empty_fs []) with Ret _ s => s | _ => empty_fs [] end.
Lemma opened_eq : do_call Call_getroot (empty_fs []) = Ret (0, Some 0) opened.
Proof. vm_compute. reflexivity. Qed.
Lemma opened_reached : reached (empty_fs []) (fun x => 0 + one 0 x) opened.
Proof. apply (reached_call (empty_fs []) (fun _ => 0) (empty_fs []) Call_getroot (0, Some 0)); [apply reached_start|done|apply opened_eq]. Qed.
Lemma opened_ok : fs_ok opened.
Proof. by destruct (reached_ok good_reliable _ _ _ (empty_fs_ok []) eq_refl opened_reached). Qed.
Definition root_vnode : sfs_vnode := Sv 1 root_inode (replicate 440 0) false 1.
Lemma opened_root : vnodes opened !! 0 = Some root_vnode.
Proof. vm_compute. reflexivity. Qed.
Lemma name_ok n : 0 < n < 256 -> good_name [n].
Proof. intros Hn. apply Forall_cons. split; [done|by apply Forall_nil_2]. Qed.

Lemma sfs_consistent_witness : count opened 0 = 1 /\ exists r s', do_call (Call_creat 0 a true) opened = Ret r s'.
Proof.
  destruct (sfs_consistent (empty_fs []) opened (fun x => 0 + one 0 x) good_reliable (empty_fs_ok []) eq_refl opened_reached) as (_ & Hc & _ & Hv).
  split; [apply (Hc 0)|]. apply Hv. split; [exists root_vnode; apply opened_root|by apply name_ok].
Defined.
Lemma sfs_names_correct_witness : wp (sfs_creat 0 a true) (creat_post opened a true) opened /\ wp (sfs_rename 0 a 0 b) (rename_post opened a b) opened.
Proof.
  assert (Hr : is_root opened 0) by (exists root_vnode; split; [apply opened_root|done]).
  destruct (sfs_names_correct opened 0 0 root_vnode a b true good_reliable opened_ok Hr opened_root (name_ok 97 ltac:(done)) (name_ok 98 ltac:(done))) as (_ & H2 & _ & _ & H5 & _).
  split; [exact H2|exact H5].
Defined.
End Sfsops_sample.
