(* ===== verification/Sfsmount.v ===== *)
(** * SFS: writing everything back and mounting ([kern/fs/sfs/sfs_fsops.c])

    What [sfs_sync] leaves on the disk is what [sfs_domount] reads from it: the superblock in
    block 0, the bitmap from block 2 on, and every inode.  So a volume that is mounted
    again has the names and the files that it had. *)
From S2P Require Import Prelude Bitmap Sfs Sfskeep Sfsdir Sfsvnode Sfsops.
Import Sfs.Sfs Sfsdir Sfsvnode.

(** ** The superblock and the size of the bitmap *)

Record super_ok (b : sfs_superblock) : Prop := {
  su_magic : sb_magic b = SFS_MAGIC;
  su_count : 0 < sb_count b <= 2 ^ 32 - 8192;
  su_room : SFS_FREEMAP_START + SFS_FREEMAPBLOCKS (sb_count b) <= sb_count b;
  su_name : length (sb_volname b) = 32%nat /\ Forall is_byte (sb_volname b) /\ sb_volname b !! 31%nat = Some 0;
  su_rest : length (sb_reserved b) = 472%nat /\ Forall is_byte (sb_reserved b) }.

Lemma superblock_roundtrip b : super_ok b -> terminate_volname (sfs_superblock_of (sfs_superblock_bytes b)) = b.
Proof.
  intros [Hm Hc _ (Hl & Hy & Hz) [Hl' Hy']]. destruct b as [m c n r]. cbn [sb_magic sb_count sb_volname sb_reserved] in *. unfold sfs_superblock_of, sfs_superblock_bytes, terminate_volname.
  cbn [sb_magic sb_count sb_volname sb_reserved]. unfold word_of. change (4 * Z.to_nat 0)%nat with 0%nat. change (4 * Z.to_nat 1)%nat with 4%nat. rewrite drop_0, take_bytes, drop_bytes, take_bytes, !be_val_bytes.
  assert (E8 : forall l : list Z, drop 8 l = drop 4 (drop 4 l)) by (intros l; by rewrite drop_drop). assert (E40 : forall l : list Z, drop 40 l = drop 32 (drop 4 (drop 4 l))) by (intros l; by rewrite !drop_drop).
  rewrite E8, E40, !drop_bytes.
  rewrite take_app_length', drop_app_length' by done. rewrite list_insert_id by done. f_equal; apply Z.mod_small; [subst m; done|lia].
Qed.
Lemma superblock_bytes_ok b : super_ok b -> length (sfs_superblock_bytes b) = 512%nat /\ Forall is_byte (sfs_superblock_bytes b).
Proof.
  intros [_ _ _ (Hl & Hy & _) [Hl' Hy']]. unfold sfs_superblock_bytes. rewrite !length_app, !be_bytes_length, Hl, Hl'. split; [done|].
  rewrite !Forall_app. split_and!; try apply be_bytes_byte; done.
Qed.
Lemma freemap_size n : 0 < n <= 2 ^ 32 - 8192 -> SFS_FREEMAPBITS n = 4096 * SFS_FREEMAPBLOCKS n /\ n <= SFS_FREEMAPBITS n < n + 4096.
Proof.
  intros Hn. unfold SFS_FREEMAPBLOCKS, SFS_FREEMAPBITS, SFS_ROUNDUP, SFS_BITSPERBLOCK. pose proof (Z.div_mod (n + 4096 - 1) 4096). pose proof (Z.mod_pos_bound (n + 4096 - 1) 4096).
  rewrite (u32_small (n + 4096 - 1)), u32_small by lia. rewrite Z.div_mul by done. lia.
Qed.

Section mount.
Context {D : Type} {DK : Disk D} (Hrel : reliable D).
Notation fs := (sfs_fs Bitmap.bitmap D).
Implicit Types (s : fs) (d : D) (m : Bitmap.bitmap) (sb : sfs_superblock).

Definition at_device d s : fs := SfsFs (sfs_freemap s) (sfs_freemapdirty s) (sfs_sb s) (sfs_superdirty s) d (sfs_vnodes s) (vnodes s) (memory s).
(** The disk has the superblock and the bitmap. *)
Definition map_on_disk d m (n : Z) : Prop := forall j, 0 <= j < n -> dev_block d (SFS_FREEMAP_START + j) = region (j * SFS_BLOCKSIZE) SFS_BLOCKSIZE (Bitmap.v m).
Record map_ok m sb : Prop := { mp_wf : fm_ok m; mp_bits : Bitmap.nbits m = SFS_FREEMAPBITS (sb_count sb) }.
Lemma map_length m sb : super_ok sb -> map_ok m sb -> Z.of_nat (length (Bitmap.v m)) = 512 * SFS_FREEMAPBLOCKS (sb_count sb) /\ Forall is_byte (Bitmap.v m).
Proof.
  intros Hs [(_ & _ & Hl & Hy & _) Hb]. split; [|done]. destruct (freemap_size _ (su_count _ Hs)) as [E Hr]. pose proof (su_count _ Hs). rewrite Hl, Hb.
  pose proof (DIVROUNDUP_spec (SFS_FREEMAPBITS (sb_count sb)) 8). lia.
Qed.

(** ** Transfers of the bitmap *)

Lemma freemap_write sb (n : nat) : forall j s, super_ok sb -> map_ok (sfs_freemap s) sb -> dev_ok (sfs_device s) -> sb_count sb <= dev_blocks (D:=D) ->
  0 <= j -> j + Z.of_nat n = SFS_FREEMAPBLOCKS (sb_count sb) ->
  wp (freemapio_loop n j UIO_WRITE) (fun e s' => e = 0 /\ exists d, s' = at_device d s /\ dev_step (sfs_device s) d /\
    (forall b, b < SFS_FREEMAP_START + j \/ SFS_FREEMAP_START + SFS_FREEMAPBLOCKS (sb_count sb) <= b -> dev_block d b = block s b) /\
    forall i, j <= i < SFS_FREEMAPBLOCKS (sb_count sb) -> dev_block d (SFS_FREEMAP_START + i) = region (i * SFS_BLOCKSIZE) SFS_BLOCKSIZE (Bitmap.v (sfs_freemap s))) s.
Proof.
  induction n as [|n IH]; intros j s Hs Hm Hd Hc Hj Hn; cbn [freemapio_loop].
  { wp_simpl. split; [done|]. exists (sfs_device s). split; [by destruct s|]. split; [reflexivity|]. split; [done|]. intros i Hi. lia. }
  pose proof (su_room _ Hs) as Hroom. destruct (map_length _ _ Hs Hm) as [Hl Hy]. unfold SFS_FREEMAP_START in *. wp_simpl. apply wp_volume.
  eapply wp_mono; [|apply (writeblock_reliable Hrel (volume s)); [done|lia| |]].
  2:{ unfold region, Bitmap.bitmap_getdata, SFS_BLOCKSIZE. rewrite length_take, length_drop. lia. }
  2:{ by apply Forall_take, Forall_drop. }
  cbv beta. intros e t (-> & d & -> & Hst & Hb & Ho). change (0 =? 0) with true. cbn [negb]. change (put_vol (set_device d (volume s)) s) with (at_device d s).
  eapply wp_mono; [|apply (IH (j + 1) (at_device d s)); try done; [by eapply dev_step_ok|lia|lia]]. cbv beta. intros e s' (-> & d' & -> & Hst' & Ho' & Hb'). split; [done|].
  exists d'. split; [done|]. split; [by transitivity d|]. split.
  - intros b Hbr. rewrite Ho' by lia. apply Ho. lia.
  - intros i Hi. destruct (Z.eq_dec i j) as [->|Hne]; [|apply Hb'; lia]. rewrite Ho' by lia. exact Hb.
Qed.
Definition with_map d (l : list Z) s : fs := set_freemap (Bitmap.MkBitmap (Bitmap.nbits (sfs_freemap s)) l) (at_device d s).
Lemma freemap_read m (n : nat) : forall j s, dev_ok (sfs_device s) -> SFS_FREEMAP_START + j + Z.of_nat n <= dev_blocks (D:=D) -> 0 <= j ->
  Z.of_nat (length (Bitmap.v m)) = 512 * (j + Z.of_nat n) -> map_on_disk (sfs_device s) m (j + Z.of_nat n) ->
  length (Bitmap.v (sfs_freemap s)) = length (Bitmap.v m) -> take (Z.to_nat (512 * j)) (Bitmap.v (sfs_freemap s)) = take (Z.to_nat (512 * j)) (Bitmap.v m) ->
  wp (freemapio_loop n j UIO_READ) (fun e s' => e = 0 /\ exists d, s' = with_map d (Bitmap.v m) s /\ dev_step (sfs_device s) d /\ forall b, dev_block d b = block s b) s.
Proof.
  induction n as [|n IH]; intros j s Hd Hc Hj Hl Hm Hll Ht; cbn [freemapio_loop].
  { wp_simpl. split; [done|]. exists (sfs_device s). rewrite !take_ge in Ht by lia. split; [|done]. unfold with_map, at_device. rewrite <-Ht. by destruct s as [[]]. }
  unfold SFS_FREEMAP_START in *. wp_simpl. apply wp_volume. eapply wp_mono; [|apply (readblock_reliable Hrel (volume s)); [done|unfold SFS_FREEMAP_START; lia]].
  cbv beta. intros r t ((d & -> & Hst & Hb) & ->). wp_simpl. change (0 =? 0) with true. cbn [negb]. wp_simpl.
  set (s1 := set_freemap _ _). assert (Hdata : blk (volume s) (2 + j) = take 512 (drop (Z.to_nat (512 * j)) (Bitmap.v m))).
  { etrans; [apply (Hm j); lia|]. unfold region, SFS_BLOCKSIZE. by rewrite (Z.mul_comm j). }
  assert (Hv1 : Bitmap.v (sfs_freemap s1) = update (512 * j) (take 512 (drop (Z.to_nat (512 * j)) (Bitmap.v m))) (Bitmap.v (sfs_freemap s))).
  { unfold s1. cbn. by rewrite Hdata, (Z.mul_comm j). }
  assert (Hdl : length (take 512 (drop (Z.to_nat (512 * j)) (Bitmap.v m))) = 512%nat) by (rewrite length_take, length_drop; lia).
  eapply wp_mono; [|apply (IH (j + 1) s1)]; try lia.
  - cbv beta. intros e s' (-> & d' & -> & Hst' & Hb'). split; [done|]. exists d'. split; [done|]. split; [by transitivity d|]. intros b. rewrite Hb'. apply Hb.
  - by eapply dev_step_ok.
  - intros i Hi. unfold s1. cbn [sfs_device set_freemap put_vol set_device device]. rewrite Hb. apply Hm. lia.
  - rewrite Hv1, update_length; rewrite ?Hdl; lia.
  - rewrite Hv1. unfold update. rewrite Ht, app_assoc, take_take_drop, Hdl.
    replace (Z.to_nat (512 * (j + 1))) with (Z.to_nat (512 * j) + 512)%nat by lia. rewrite take_app_le by (rewrite length_take; lia). by rewrite take_take, Nat.min_id.
Qed.

(** ** Mounting *)

Record stored sb m d : Prop := {
  sto_sb : dev_block d SFS_SUPER_BLOCK = sfs_superblock_bytes sb;
  sto_map : map_on_disk d m (SFS_FREEMAPBLOCKS (sb_count sb)) }.
(** The volume in memory that mounting makes. *)
Definition fresh_mount m sb d (mem : list bool) : fs := SfsFs m false sb false d [] ∅ mem.
Lemma wp_create_map (ok ok' : bool) sb s (Q : option Bitmap.bitmap -> fs -> Prop) : super_ok sb -> Q None s ->
  (forall m, map_ok m sb -> Q (Some m) s) -> wp (zoom unit_lens (Bitmap.bitmap_create ok ok' (SFS_FREEMAPBITS (sb_count sb)))) Q s.
Proof.
  intros Hs HN HS. destruct (freemap_size _ (su_count _ Hs)) as [_ Hr]. pose proof (su_count _ Hs). rewrite wp_zoom. cbn [lget lset unit_lens].
  eapply wp_mono; [|apply Bitmap.bitmap_create_spec; lia]. cbv beta. intros [m|] _ Hm; [|done]. destruct Hm as (_ & Hw & Hb & _). apply HS. by split.
Qed.
Lemma create_spec s (Q : bool -> fs -> Prop) : (forall s', Q false s') -> (forall mem, Q true (fresh_mount (sfs_freemap s) (sfs_sb s) (sfs_device s) mem)) -> wp sfs_fs_create Q s.
Proof.
  intros HN HS. unfold sfs_fs_create. rewrite wp_bind. apply wp_sfs_kmalloc. intros [] m1; cbn [negb]; wp_simpl; [|done]. apply wp_sfs_kmalloc. intros [] m2; cbn [negb]; wp_simpl; [|done]. apply HS.
Qed.
Definition mount_post m sb d (e : Z) s' : Prop :=
  e = ENOMEM \/ e = 0 /\ exists d' mem, s' = fresh_mount m sb d' mem /\ dev_step d d' /\ forall b, dev_block d' b = dev_block d b.
Lemma mount_map sb m m1 d d0 mem (ok ok' : bool) : super_ok sb -> map_ok m sb -> dev_ok d -> sb_count sb <= dev_blocks (D:=D) ->
  stored sb m d -> dev_step d0 d -> (forall b, dev_block d b = dev_block d0 b) ->
  wp (map ← zoom unit_lens (Bitmap.bitmap_create ok ok' (SFS_FREEMAPBITS (sb_count sb)));
      match map with None => mret ENOMEM | Some m => modify (set_freemap m);; result ← sfs_freemapio UIO_READ; if negb (result =? 0) then mret result else mret 0 end)
    (mount_post m sb d0) (fresh_mount m1 sb d mem).
Proof.
  intros Hs Hm Hd Hc [_ Hmap] Hst Hb. pose proof (su_room _ Hs) as Hroom. destruct (freemap_size _ (su_count _ Hs)) as [Esz Hsz]. pose proof (su_count _ Hs). destruct (map_length _ _ Hs Hm) as [Hl _].
  rewrite wp_bind. apply wp_create_map; [done|wp_simpl; by left|]. intros m0 Hm0. unfold sfs_freemapio. wp_simpl. destruct (map_length _ _ Hs Hm0) as [Hl0 _].
  change (set_freemap m0 (fresh_mount m1 sb d mem)) with (fresh_mount m0 sb d mem). assert (0 < SFS_FREEMAPBLOCKS (sb_count sb)) by lia.
  eapply wp_mono; [|apply (freemap_read m _ 0)]; cbn [sfs_device sfs_freemap fresh_mount sfs_sb]; rewrite ?Z2Nat.id by lia; [|done|unfold SFS_FREEMAP_START in *; lia|done|lia|exact Hmap|lia|done].
  cbv beta. intros e s' (-> & d' & -> & Hst' & Hb'). cbn [Z.eqb negb]. wp_simpl. right. split; [done|]. exists d', mem. split; [|split; [by transitivity d|intros b; etrans; [apply Hb'|apply Hb]]].
  unfold with_map, at_device, set_freemap, fresh_mount. cbn. rewrite (mp_bits _ _ Hm0), <-(mp_bits _ _ Hm). by destruct m.
Qed.
Lemma sfs_mount_spec sb m s : super_ok sb -> map_ok m sb -> dev_ok (sfs_device s) -> sb_count sb <= dev_blocks (D:=D) -> stored sb m (sfs_device s) ->
  wp (sfs_domount SFS_BLOCKSIZE) (mount_post m sb (sfs_device s)) s.
Proof.
  intros Hs Hm Hd Hc Hsto. unfold sfs_domount. rewrite Z.eqb_refl. cbn [negb]. pose proof (su_room _ Hs) as Hroom. pose proof (su_count _ Hs).
  rewrite wp_bind. apply create_spec; [intros s'; cbn [negb]; wp_simpl; by left|]. intros mem. cbn [negb]. set (s1 := fresh_mount _ _ _ _).
  rewrite wp_bind. apply wp_volume. eapply wp_mono; [|apply (readblock_reliable Hrel (volume s1)); [done|unfold SFS_SUPER_BLOCK; lia]].
  cbv beta. intros r t ((d & -> & Hst & Hb) & ->). change (blk (volume s1) SFS_SUPER_BLOCK) with (dev_block (sfs_device s) SFS_SUPER_BLOCK). rewrite (sto_sb _ _ _ Hsto).
  change (put_vol (set_device d (volume s1)) s1) with (fresh_mount (sfs_freemap s) (sfs_sb s) d mem). change (0 =? 0) with true. cbn [negb].
  pose proof (superblock_roundtrip _ Hs) as Hrt. set (raw := sfs_superblock_of _) in *. assert (Emagic : sb_magic raw = SFS_MAGIC) by (rewrite <-(su_magic _ Hs); exact (f_equal sb_magic Hrt)).
  rewrite wp_bind, wp_modify, wp_bind, wp_get. cbn [sfs_sb set_sb fresh_mount]. rewrite Emagic, Z.eqb_refl. cbn [negb]. rewrite wp_bind, wp_modify. cbn [sfs_sb set_sb fresh_mount]. rewrite Hrt.
  cbn [sfs_freemap sfs_freemapdirty sfs_superdirty sfs_device sfs_vnodes vnodes memory].
  assert (Hsto' : stored sb m d) by (destruct Hsto as [A1 A2]; split; [by rewrite Hb|intros j Hj; rewrite Hb; by apply A2]). assert (Hd' : dev_ok d) by by eapply dev_step_ok.
  rewrite (f_equal sb_count Hrt : sb_count raw = sb_count sb).
  rewrite wp_bind. apply wp_sfs_kmalloc. intros ok m3. rewrite wp_bind. destruct ok; [apply wp_sfs_kmalloc; intros ok' m4|wp_simpl].
  - by apply (mount_map sb m (sfs_freemap s) d (sfs_device s) m4 true ok').
  - by apply (mount_map sb m (sfs_freemap s) d (sfs_device s) m3 false false).
Qed.

(** ** What is on the disk *)

(** Of a volume in memory: what is not marked dirty is on the disk. *)
Record meta_ok s : Prop := {
  mo_super : super_ok (sfs_sb s);
  mo_map : map_ok (sfs_freemap s) (sfs_sb s);
  mo_sb : sfs_superdirty s = false -> block s SFS_SUPER_BLOCK = sfs_superblock_bytes (sfs_sb s);
  mo_disk : sfs_freemapdirty s = false -> map_on_disk (sfs_device s) (sfs_freemap s) (SFS_FREEMAPBLOCKS (sb_count (sfs_sb s))) }.
Lemma meta_kept s s' : meta_ok s -> sys_same s s' -> fm_ok (sfs_freemap s') -> meta_ok s'.
Proof.
  intros [M1 [M2 M3] M4 M5] [[S1 S2 S3 S4] S5] Hf. split; rewrite ?S1; [done| | |].
  - split; [done|]. rewrite <-M3. exact S3.
  - intros Hd. rewrite S5 by by left. apply M4. congruence.
  - intros Hd j Hj. change (dev_block (sfs_device s') (SFS_FREEMAP_START + j)) with (block s' (SFS_FREEMAP_START + j)). rewrite S5 by (right; lia).
    destruct S4 as [?|[E1 E2]]; [congruence|]. rewrite E2. apply M5; [congruence|done].
Qed.
Lemma stored_fresh s : meta_ok s -> sfs_freemapdirty s = false -> sfs_superdirty s = false -> stored (sfs_sb s) (sfs_freemap s) (sfs_device s).
Proof. intros [_ _ M4 M5] Hf Hs. split; [by apply M4|by apply M5]. Qed.
Lemma meta_fresh sb m d mem : super_ok sb -> map_ok m sb -> stored sb m d -> meta_ok (fresh_mount m sb d mem).
Proof. intros Hs Hm [S1 S2]. by split. Qed.

(** Writes to blocks of the superblock and the bitmap. *)
Lemma system_step (A : Z -> Prop) s s' : blocks_ok A s -> vnodes s' = vnodes s -> sfs_vnodes s' = sfs_vnodes s -> sfs_sb s' = sfs_sb s -> sfs_freemap s' = sfs_freemap s ->
  dev_step (sfs_device s) (sfs_device s') -> (forall b, ~ system s b -> block s' b = block s b) -> blocks_ok A s' /\ forall ino, A ino -> file_same s s' ino.
Proof.
  intros Hk Hm Ht Hsb Hf Hst Hb. pose proof (bk_table A s Hk) as [T1 T2 T3 T4].
  assert (Htab : table_ok s') by (split; rewrite ?Hm, ?Ht; done).
  assert (Hino : forall ino, A ino -> block s' ino = block s ino) by (intros ino Ha; apply Hb; exact (proj1 (fk_system _ _ (bk_file A s Hk ino Ha)))).
  assert (Hkept : forall ino, A ino -> file_same s s' ino).
  { intros ino Ha. split; [|intros b Ho; apply Hb; exact (proj2 (fk_system _ _ (bk_file A s Hk ino Ha)) b Ho)]. unfold inode, in_core. rewrite Hm. case_match; [done|]. f_equal. by apply Hino. }
  assert (Hu : forall b, in_use s' b = in_use s b) by (intros b; unfold in_use; by rewrite Hf).
  split; [|done]. apply (blocks_same A A s s'); try done; rewrite ?Hsb, ?Hm; [|done|..].
  - destruct (bk_volume A s Hk) as [V1 V2 V3 V4 V5 V6]. split; unfold used, volume, vol in *; cbn in *; rewrite ?Hsb, ?Hf; try done. by eapply dev_step_ok.
  - intros b Hs. rewrite Hu. by apply (bk_system A s Hk).
  - intros v x. apply (bk_core A s Hk v x).
  - intros v x Hx Hd. destruct (bk_core A s Hk v x Hx) as (Ha & _). rewrite (Hino _ Ha). by apply (bk_clean A s Hk v x).
  - intros ino Ha. split; [by apply Hkept|]. rewrite Hu. split; [by apply (fk_used _ _ (bk_file A s Hk ino Ha))|]. intros b Ho. rewrite Hu. by apply (owned_range A s ino b Hk Ha Ho).
Qed.

(** ** [sfs_sync] *)

Definition flush (l : list Z) (v : Z) (x : sfs_vnode) : sfs_vnode := if decide (v ∈ l) then set_modified false x else x.
Lemma sfs_sync_loop_spec (A : Z -> Prop) l : forall s, blocks_ok A s -> A SFS_ROOTDIR_INO -> (forall v, v ∈ l -> is_Some (vnodes s !! v)) ->
  wp (sync_loop l) (fun _ s' => blocks_ok A s' /\ all_kept A s s' /\ vnodes s' = map_imap (fun v x => Some (flush l v x)) (vnodes s) /\
    sfs_vnodes s' = sfs_vnodes s /\ sfs_sb s' = sfs_sb s /\ sfs_freemap s' = sfs_freemap s) s.
Proof.
  induction l as [|v l IH]; intros s Hk Hr Hl; cbn [sync_loop].
  { wp_simpl. split_and!; try done; [intros i _; apply file_kept_refl|]. apply map_eq. intros w. rewrite map_lookup_imap. by destruct (vnodes s !! w). }
  destruct (Hl v) as [x Hx]; [by left|]. rewrite wp_bind. eapply wp_mono; [|by apply (sync_inode_spec Hrel A s v x)]. cbv beta. intros e s1 (-> & Hk1 & Hke1 & Hm1 & Ht1 & Hs1 & Hf1).
  eapply wp_mono; [|apply (IH s1); [done|done|]].
  2:{ intros w Hw. rewrite Hm1. apply lookup_insert_is_Some'. right. apply Hl. by right. }
  cbv beta. intros _ s2 (Hk2 & Hke2 & Hm2 & Ht2 & Hs2 & Hf2). split; [done|]. split; [by eapply kept_all_trans|]. split; [|split_and!; congruence].
  apply map_eq. intros w. rewrite Hm2, !map_lookup_imap, Hm1. unfold flush. destruct (decide (w = v)) as [->|Hne].
  - rewrite lookup_insert_eq, Hx. cbn. destruct (decide (v ∈ v :: l)) as [|Hn]; [|by destruct Hn; left]. by destruct (decide (v ∈ l)).
  - rewrite lookup_insert_ne by done. destruct (vnodes s !! w) as [y|]; [|done]. cbn. destruct (decide (w ∈ l)), (decide (w ∈ v :: l)) as [Hi|]; try done; [set_solver|]. apply elem_of_cons in Hi as [?|?]; done.
Qed.

(** The files are the same, and what is in memory but for the vnodes' marks. *)
Record written (A : Z -> Prop) s s' : Prop := {
  wr_blocks : blocks_ok A s';
  wr_files : forall ino, A ino -> file_same s s' ino;
  wr_table : sfs_vnodes s' = sfs_vnodes s;
  wr_sb : sfs_sb s' = sfs_sb s;
  wr_map : sfs_freemap s' = sfs_freemap s;
  wr_meta : meta_ok s' }.
Lemma file_same_trans s1 s2 s3 ino : file_same s1 s2 ino -> file_same s2 s3 ino -> file_same s1 s3 ino.
Proof.
  intros H1 H2. pose proof (fun b => kept_owned s1 s2 ino b H1) as Ho. destruct H1 as (A1 & A3), H2 as (B1 & B3). split; [congruence|]. intros b Hb. rewrite B3, A3; [done|done|]. by apply Ho.
Qed.
Lemma written_trans A s1 s2 s3 : written A s1 s2 -> written A s2 s3 -> written A s1 s3.
Proof.
  intros [A1 A2 A3 A4 A5 A6] [B1 B2 B3 B4 B5 B6]. split; [done| |congruence..|done]. intros ino Ha. eapply file_same_trans; eauto.
Qed.
Lemma written_refl A s : blocks_ok A s -> meta_ok s -> written A s s.
Proof. by split. Qed.
Lemma sync_vnodes_spec (A : Z -> Prop) s : blocks_ok A s -> A SFS_ROOTDIR_INO -> meta_ok s ->
  wp sfs_sync_vnodes (fun e s' => e = 0 /\ written A s s' /\ vnodes s' = set_modified false <$> vnodes s) s.
Proof.
  intros Hk Hr Hm. unfold sfs_sync_vnodes. wp_simpl. pose proof (bk_table A s Hk) as Htab. eapply wp_mono; [|apply (sfs_sync_loop_spec A); [done|done|intros v; by apply (tk_live s Htab)]].
  cbv beta. intros _ s' (Hk' & Hke & Hv & Ht & Hs & Hf). wp_simpl. split; [done|]. split.
  - split; [done|intros ino Ha; by apply Hke|done|done|done|]. apply (meta_kept s); [done|by apply (Hke SFS_ROOTDIR_INO)|rewrite Hf; apply Hm].
  - rewrite Hv. apply map_eq. intros w. rewrite map_lookup_imap, lookup_fmap. destruct (vnodes s !! w) as [x|] eqn:Hx; [|done]. cbn. unfold flush. rewrite decide_True; [done|]. apply (tk_live s Htab). eauto.
Qed.
Lemma sync_freemap_spec (A : Z -> Prop) s : blocks_ok A s -> meta_ok s ->
  wp sfs_sync_freemap (fun e s' => e = 0 /\ written A s s' /\ vnodes s' = vnodes s /\ sfs_freemapdirty s' = false) s.
Proof.
  intros Hk Hm. unfold sfs_sync_freemap. wp_simpl. destruct (sfs_freemapdirty s) eqn:Hd; wp_simpl; [|by split_and!; [|apply written_refl|..]].
  pose proof (mo_super s Hm) as Hs. destruct (freemap_size _ (su_count _ Hs)) as [Esz Hsz]. pose proof (su_count _ Hs). assert (0 < SFS_FREEMAPBLOCKS (sb_count (sfs_sb s))) by lia.
  unfold sfs_freemapio. wp_simpl. eapply wp_mono; [|apply (freemap_write (sfs_sb s) _ 0 s); [done|apply Hm|apply (bk_volume A s Hk)|apply (vo_dev _ (bk_volume A s Hk))|done|lia]].
  cbv beta. intros e s' (-> & d & -> & Hst & Ho & Hb). cbn [Z.eqb negb]. wp_simpl. set (s' := set_freemapdirty false (at_device d s)).
  destruct (system_step A s s') as [Hk' Hf]; try done.
  { intros b Hns. apply Ho. unfold system in Hns. lia. }
  split; [done|]. split; [|done]. split; try done. destruct Hm as [M1 M2 M3 M4]. split; [done|done| |].
  - intros Hsd. unfold block. cbn [sfs_device s' set_freemapdirty at_device]. rewrite Ho by (left; done). by apply M3.
  - intros _ j Hj. cbn in Hj |- *. by apply Hb.
Qed.
Lemma sync_superblock_spec (A : Z -> Prop) s : blocks_ok A s -> meta_ok s ->
  wp sfs_sync_superblock (fun e s' => e = 0 /\ written A s s' /\ vnodes s' = vnodes s /\ sfs_freemapdirty s' = sfs_freemapdirty s /\ sfs_superdirty s' = false) s.
Proof.
  intros Hk Hm. unfold sfs_sync_superblock. wp_simpl. destruct (sfs_superdirty s) eqn:Hd; wp_simpl; [|by split_and!; [|apply written_refl|..]].
  pose proof (mo_super s Hm) as Hs. pose proof (su_count _ Hs). pose proof (vo_dev _ (bk_volume A s Hk)) as Hdev. cbn [sb_nblocks volume vol] in Hdev. destruct (superblock_bytes_ok _ Hs) as [Hl Hy].
  apply wp_volume. eapply wp_mono; [|apply (writeblock_reliable Hrel (volume s)); [apply (bk_volume A s Hk)|unfold SFS_SUPER_BLOCK; lia|done|done]].
  cbv beta. intros e t (-> & d & -> & Hst & Hb & Ho). cbn [Z.eqb negb]. wp_simpl. set (s' := set_superdirty false _).
  destruct (system_step A s s') as [Hk' Hf]; try done.
  { intros b Hns. apply Ho. unfold system in Hns. intros ->. apply Hns. by left. }
  split; [done|]. split; [|done]. split; try done. destruct Hm as [M1 M2 M3 M4]. split; [done|done|by intros _|].
  intros Hfd j Hj. cbn in Hfd, Hj |- *. rewrite Ho by (unfold SFS_SUPER_BLOCK, SFS_FREEMAP_START; lia). by apply M4.
Qed.
Lemma sync_all_spec (A : Z -> Prop) s : blocks_ok A s -> A SFS_ROOTDIR_INO -> meta_ok s ->
  wp sfs_sync (fun e s' => e = 0 /\ written A s s' /\ vnodes s' = set_modified false <$> vnodes s /\ sfs_freemapdirty s' = false /\ sfs_superdirty s' = false) s.
Proof.
  intros Hk Hr Hm. unfold sfs_sync. rewrite wp_bind. eapply wp_mono; [|by apply (sync_vnodes_spec A)]. cbv beta. intros e s1 (-> & W1 & V1). cbn [Z.eqb negb].
  rewrite wp_bind. eapply wp_mono; [|apply (sync_freemap_spec A); apply W1]. cbv beta. intros e s2 (-> & W2 & V2 & F2). cbn [Z.eqb negb].
  rewrite wp_bind. eapply wp_mono; [|apply (sync_superblock_spec A); apply W2]. cbv beta. intros e s3 (-> & W3 & V3 & F3 & S3). cbn [Z.eqb negb]. wp_simpl.
  split; [done|]. split; [eapply written_trans; [exact W1|by eapply written_trans]|]. split; [congruence|]. split; [congruence|done].
Qed.

(** ** The volume when it is mounted again *)

Lemma remount_step (A : Z -> Prop) s d mem : blocks_ok A s -> (forall v x, vnodes s !! v = Some x -> sv_modified x = false) -> dev_ok d -> (forall b, dev_block d b = block s b) ->
  let s' := fresh_mount (sfs_freemap s) (sfs_sb s) d mem in blocks_ok A s' /\ forall ino, A ino -> file_same s s' ino.
Proof.
  intros Hk Hcl Hd Hb s'. pose proof (bk_table A s Hk) as Htab.
  assert (Htab' : table_ok s') by (split; [apply NoDup_nil_2| |done|done]; intros v; cbn; split; [by intros ?%elem_of_nil|by intros []]).
  assert (Hkept : forall ino, A ino -> file_same s s' ino).
  { intros ino Ha. split; [|intros b _; apply Hb]. rewrite (inode_disk s') by done. change (block s' ino) with (dev_block d ino). rewrite Hb. unfold inode. destruct (in_core s ino) as [x|] eqn:E; [|done].
    apply in_core_spec in E as (v & Hx & <-); [|done]. rewrite (bk_clean A s Hk v x Hx (Hcl v x Hx)). by apply (bytes_of_inode A s v x). }
  split; [|done]. apply (blocks_same A A s s'); try done.
  - destruct (bk_volume A s Hk) as [V1 V2 V3 V4 V5 V6]. by split.
  - apply (bk_system A s Hk).
  - intros ino Ha. split; [by apply Hkept|]. split; [by apply (fk_used _ _ (bk_file A s Hk ino Ha))|]. intros b Ho. by apply (owned_range A s ino b Hk Ha Ho).
Qed.
(** The same names, and the same data in the files of [A]. *)
Record same_volume (A : Z -> Prop) s s' : Prop := {
  sm_ok : fs_ok s';
  sm_meta : meta_ok s';
  sm_names : dirmap s' = dirmap s;
  sm_map : sfs_freemap s' = sfs_freemap s;
  sm_sb : sfs_sb s' = sfs_sb s;
  sm_data : same_data A s s' }.
Definition named s ino : Prop := exists name, dirmap s !! name = Some ino.
Lemma same_files (A : Z -> Prop) s s' : fs_ok s -> blocks_ok (alive s) s' -> (forall ino, alive s ino -> file_same s s' ino) -> meta_ok s' -> sfs_freemap s' = sfs_freemap s -> sfs_sb s' = sfs_sb s ->
  (forall ino, A ino -> alive s ino) -> same_volume A s s'.
Proof.
  intros Hok Hk Hke Hm Hf Hs HA. pose proof (part_start s Hok) as HP.
  assert (HP' : part_ok (alive s) (dirmap s) (nlinks (dirmap s)) s') by (apply (part_kept (alive s) (alive s) _ _ s); try done; [by left|]; intros n i Hn; right; right; eauto).
  destruct (part_end _ _ _ _ HP') as (E1 & E2 & _); [done|]. split; try done. intros ino Ha _. split; [by apply kept_bytes, Hke, HA|]. by rewrite (proj1 (Hke ino (HA ino Ha))).
Qed.

Lemma sfs_unmount_spec s : sfs_vnodes s = [] -> sfs_freemapdirty s = false -> sfs_superdirty s = false -> sfs_unmount s = Ret 0 s.
Proof. destruct s; cbn. by intros -> -> ->. Qed.
Definition mounts_again s s1 : Prop := forall s2, sfs_device s2 = sfs_device s1 ->
  wp (sfs_domount SFS_BLOCKSIZE) (fun e s3 => e = ENOMEM \/ e = 0 /\ same_volume (named s) s s3 /\ vnodes s3 = ∅) s2.
Lemma sync_mount s : fs_ok s -> meta_ok s -> wp sfs_sync (fun e s1 => e = 0 /\ same_volume (alive s) s s1 /\ (sfs_vnodes s = [] -> sfs_unmount s1 = Ret 0 s1) /\ mounts_again s s1) s.
Proof.
  intros Hok Hm. eapply wp_mono; [|apply (sync_all_spec (alive s)); [apply Hok|by left|done]]. cbv beta. intros e s1 (-> & [W1 W2 W3 W4 W5 W6] & V & F & S).
  split; [done|]. split; [by apply same_files|]. split.
  - intros Hv. apply sfs_unmount_spec; [congruence|done|done].
  - intros s2 Hd. pose proof (bk_volume _ s1 W1) as [_ _ _ _ V5 V6]. cbn [sb_nblocks device volume vol] in V5, V6.
    eapply wp_mono; [|apply (sfs_mount_spec (sfs_sb s1) (sfs_freemap s1)); rewrite ?Hd; [apply W6|apply W6|done|done|by apply stored_fresh]].
    cbv beta. intros e s3 [->|(-> & d & mem & -> & Hst & Hb)]; [by left|]. right. rewrite Hd in Hst, Hb. split; [done|]. split; [|done].
    destruct (remount_step (alive s) s1 d mem) as [R1 R2]; [done| |by eapply dev_step_ok|exact Hb|].
    { intros v x. rewrite V, lookup_fmap. destruct (vnodes s !! v); [|done]. by intros [= <-]. }
    apply same_files; try done.
    + intros ino Ha. eapply file_same_trans; [by apply W2|by apply R2].
    + apply meta_fresh; [apply W6|apply W6|]. destruct (stored_fresh s1 W6 F S) as [T1 T2]. split; [by rewrite Hb|]. intros j Hj. rewrite Hb. by apply T2.
    + intros ino Hn. by right; right.
Qed.
Lemma reached_meta s0 h s : fs_ok s0 -> meta_ok s0 -> vnodes s0 = ∅ -> reached s0 h s -> fs_ok s /\ meta_ok s.
Proof.
  intros Hok Hm He Hr. induction Hr as [|h s c r s' _ [IH1 IH2] Hv E]; [done|]. pose proof (sfs_call_spec Hrel s c IH1 Hv) as Hw. unfold wp in Hw. rewrite E in Hw.
  destruct Hw as (X & m & Hf). pose proof (fin_ok _ _ _ _ _ Hf) as Hok'. split; [done|]. apply (meta_kept s); [done|apply (fin_data _ _ _ _ _ Hf)|apply (bk_volume _ _ (ok_blocks _ Hok'))].
Qed.
End mount.

(** C7. What a volume has is on the disk after [sfs_sync].  Start with a consistent volume of which
    superblock and bitmap are on the disk, with no vnodes in memory, and make any calls.  Then
    [sfs_sync] answers 0 and changes no name and no data of any file, open or not; without open files
    [sfs_unmount] then succeeds, none of its assertions failing.  And when whatever is in memory is
    lost and [sfs_domount] reads the volume back from that device it answers [ENOMEM], or 0 and
    a consistent volume with the same superblock, bitmap and names and, in the
    files that have names, the same data; from there on any calls may be made again. *)
Theorem sfs_sync_mount {D} `{Disk D} (s0 s : sfs_fs Bitmap.bitmap D) (h : Z -> Z) :
  reliable D -> fs_ok s0 -> meta_ok s0 -> vnodes s0 = ∅ -> reached s0 h s ->
  wp sfs_sync (fun e s1 => e = 0 /\ same_volume (alive s) s s1 /\ (sfs_vnodes s = [] -> sfs_unmount s1 = Ret 0 s1) /\
    forall s2, sfs_device s2 = sfs_device s1 ->
      wp (sfs_domount SFS_BLOCKSIZE) (fun e s3 => e = ENOMEM \/ e = 0 /\ same_volume (named s) s s3 /\ vnodes s3 = ∅) s2) s.
Proof. intros Hrel Hok Hm He Hr. destruct (reached_meta Hrel s0 h s Hok Hm He Hr) as [H1 H2]. by apply sync_mount. Qed.

(** ** A small volume *)

Module Sfsmount_sample.
Import Sfsops_sample.

Lemma super_good : super_ok super.
Proof. split; [done|done|by vm_compute| |]; [split_and!; [done|by apply Forall_replicate|done]|split; [done|by apply Forall_replicate]]. Qed.
Lemma empty_meta mem : meta_ok (empty_fs mem).
Proof.
  split; [apply super_good|split; [by apply bits_ok|done]|by vm_compute|]. intros _ j Hj. change (0 <= j < 1) in Hj. assert (j = 0) as -> by lia. by vm_compute.
Qed.

(** The session of [Sfsops_sample], [sfs_sync], and a mount with nothing in memory. *)
Definition after_session : sfs_fs Bitmap.bitmap good_disk := match session (empty_fs [true; true; false]) with Ret _ s => s | _ => empty_fs [] end.
Definition rebooted : K (sfs_fs Bitmap.bitmap good_disk) (list Z) :=
  e1 ← sfs_sync;
  e2 ← sfs_unmount;
  s ← get;
  put (SfsFs (Bitmap.MkBitmap 0 []) false (Superblock 0 0 [] []) false (sfs_device s) [] ∅ []);;
  e3 ← sfs_domount SFS_BLOCKSIZE;
  mret [e1; e2; e3].
Example remount_runs : match rebooted after_session with
  | Ret r s => r = [0; 0; 0] /\ bool_decide (dirmap s = {[b := 3]}) = true /\ take 2 (file_bytes (file s 3)) = [104; 105] /\ sfs_freemapdirty s = false
  | _ => False end.
Proof. vm_compute. split_and!; reflexivity. Qed.

Lemma sfs_sync_mount_witness : wp sfs_sync (fun e s1 => e = 0 /\ same_volume (alive opened) opened s1) opened.
Proof.
  eapply wp_mono; [|apply (sfs_sync_mount (empty_fs []) opened (fun x => 0 + one 0 x) good_reliable (empty_fs_ok []) (empty_meta []) eq_refl opened_reached)].
  cbv beta. intros e s1 (H1 & H2 & _). by split.
Defined.
End Sfsmount_sample.
