(* ===== verification/Sfsdata.v ===== *)
(** * SFS: reading and writing through a vnode ([sfs_read], [sfs_write] of [kern/fs/sfs/sfs_vnops.c])

    [sfs_io] of [Sfsio], over the disk driver of [Lhd], run on the file of a vnode of [Sfsvnode]:
    the data arrive as [Sfsio] says, and everything else on the volume stays as it is. *)
From S2P Require Import Prelude Bitmap Copyinout Uio Sfs Sfskeep Lhd Sfsio Sfsdir Sfsvnode Sfsops.
Import Copyinout Uio Lhd Driver.

Module Sfsdata.
Section ops.
Context {B H : Type} {FM : FreeMap B} {HW : DiskHardware H} {DK : Disk (driver H)} (lh_buf iobuf zeros_at : Z) (curas : option Z).
Notation fs := (Sfsvnode.sfs_fs B (driver H)).

Definition sfs_read (v : Z) (u : uio) : K fs (Z * uio) :=
  KASSERT (match uio_rw u with UIO_READ => true | UIO_WRITE => false end) "uio->uio_rw==UIO_READ";;
  Sfsvnode.on_file v (Sfsio.sfs_io lh_buf iobuf zeros_at curas u).
Definition sfs_write (v : Z) (u : uio) : K fs (Z * uio) :=
  KASSERT (is_write u) "uio->uio_rw==UIO_WRITE";;
  Sfsvnode.on_file v (Sfsio.sfs_io lh_buf iobuf zeros_at curas u).
End ops.
End Sfsdata.
Import Sfsdata.

Section touch.
Context {B H : Type} {FM : FreeMap B} {HW : DiskHardware H} {DK : Disk (driver H)} (lh_buf iobuf zeros_at : Z) (curas : option Z).
Notation volume := (Sfs.sfs B (driver H)).

Lemma put_memory_touch s0 (f : volume -> machine) : keeps (touch s0) (modify (fun s : volume => Sfsio.put_memory (f s) s)).
Proof. apply keeps_modify. intros s Hs. apply (touch_next s0 s); [done|]. split_and!; [done|done|by right|by apply map_touch_same]. Qed.
Lemma memory_touch s0 {A} (m : K machine A) : keeps (touch s0) (zoom Sfsio.memory_lens m : K volume A).
Proof. apply keeps_zoom. intros s t Hs. apply (touch_next s0 s); [done|]. split_and!; [done|done|by right|by apply map_touch_same]. Qed.
#[local] Hint Resolve put_memory_touch memory_touch : keeps.
Lemma partialio_touch s0 u skip len : keeps (touch s0) (Sfsio.sfs_partialio iobuf curas u skip len : K volume _).
Proof. unfold Sfsio.sfs_partialio. keeps_tac. Qed.
Lemma blockio_touch s0 u : keeps (touch s0) (Sfsio.sfs_blockio lh_buf zeros_at curas u : K volume _).
Proof. unfold Sfsio.sfs_blockio. keeps_tac. Qed.
#[local] Hint Resolve partialio_touch blockio_touch : keeps.
Lemma block_loop_touch s0 n : forall u, keeps (touch s0) (Sfsio.block_loop lh_buf zeros_at curas n u : K volume _).
Proof. induction n as [|n IH]; intros u; cbn [Sfsio.block_loop]; keeps_tac. Qed.
#[local] Hint Resolve block_loop_touch : keeps.
Lemma io_touch s0 u : keeps (touch s0) (Sfsio.sfs_io lh_buf iobuf zeros_at curas u : K volume _).
Proof. unfold Sfsio.sfs_io, Sfsio.io_body, Sfsio.io_out. keeps_tac. Qed.
End touch.

Import Sfsvnode.Sfsvnode.

Section theory.
Context {B H : Type} {FM : FreeMap B} {HW : DiskHardware H} {RW : ReliableWrites H} (lh_buf iobuf zeros_at : Z) (curas : option Z).
Context (buffers_apart : forall a, in_region iobuf 512 a -> ~ in_region lh_buf 512 a) (iobuf_range : 0 <= iobuf <= 2 ^ 32 - 512).
Context (zeros_apart : forall a, in_region zeros_at 16 a -> ~ buffer lh_buf iobuf a).
Context (small_disk : hw_nsect (H:=H) <= 2 ^ 23).
#[local] Existing Instance the_disk.
#[local] Instance fs_disk : Disk (driver H) := the_disk lh_buf iobuf curas buffers_apart iobuf_range.
Notation fs := (Sfsvnode.sfs_fs B (driver H)).
Notation ok := (uio_ok lh_buf iobuf zeros_at curas).
Notation at_zeros := (Sfsio.at_zeros zeros_at).
Notation io_result := (Sfsio.io_result lh_buf iobuf curas buffers_apart iobuf_range).

Lemma io_step (t : Sfs.sfs B (driver H)) u : wf t -> ok u -> at_zeros t -> 0 <= Sfs.sfi_size (Sfs.sv_i t) < 2 ^ 32 ->
  (uio_rw u = UIO_WRITE -> uio_offset u + uio_resid u < 2 ^ 41) ->
  wp (Sfsio.sfs_io lh_buf iobuf zeros_at curas u) (fun r t' => io_result (amount u t) u t r t' /\ step_ok t t') t.
Proof.
  intros Hw Hu Hz Hs Hsm. eapply wp_mono; [|apply (keeps_wp touch); [reflexivity|intros s0; apply io_touch|]].
  2:{ apply (sfs_io_spec lh_buf iobuf zeros_at curas buffers_apart iobuf_range zeros_apart small_disk t u Hw Hu Hz Hs Hsm). }
  cbv beta. intros r t' [Hr Ht]. split; [done|]. destruct Hr as (Hw' & Hfr & k & j & Hk & Hj & _ & _ & Hrange & _ & Hsize & _). split; [done|]. split; [|done].
  rewrite Hsize. unfold size_after. unfold max_size in Hrange. destruct (uio_rw u); [done|]. destruct (Z.eqb_spec j 0); lia.
Qed.

(** The mark of the inode is no part of the file. *)
Definition unmarked (t : Sfs.sfs B (driver H)) : Sfs.sfs B (driver H) := Sfs.Volume (Sfs.freemap t) (Sfs.freemapdirty t) (Sfs.sb_nblocks t) (Sfs.device t) (Sfs.sv_i t) false.
Lemma io_result_unmarked n u t r t' : io_result n u t r t' -> io_result n u (unmarked t) r (unmarked t').
Proof. intros (Hw & Hfr & Hrest). split; [|split; [exact Hfr|exact Hrest]]. destruct Hw as [[] ? ?]. split; [by split|done|done]. Qed.
Lemma file_put_file (s : fs) v x t' : vnodes s !! v = Some x -> touch (vol (sv_inode x) (sv_modified x) s) t' -> table_ok s -> 
  inode (file_put v t' s) (sv_ino x) = Sfs.sv_i t' -> file (file_put v t' s) (sv_ino x) = unmarked t'.
Proof.
  intros Hx (_ & Hn & _) Htab Hi. unfold file, vol, unmarked. rewrite Hi. rewrite (file_put_eq v x) by done. cbn in *. by rewrite Hn.
Qed.

(** C8. [sfs_read] and [sfs_write] of an open file, over the driver of the disk and on a volume in
    use: the transfer is that of [sfs_io] on this file ([io_result]), while the volume stays
    consistent, all other files keep their data and their blocks, and the directory and the references
    stay as they are; also when a read of the disk fails, an address is bad or space runs out.
    The conditions are those of [sfs_io]: the disk's writes succeed ([ReliableWrites]), it has at
    most 2^23 sectors, a write ends before the position 2^41, and the addresses of the [uio] are distinct
    and apart from the kernel's static buffers. *)
Theorem sfs_data_correct (s : fs) v x u : fs_ok s -> vnodes s !! v = Some x -> sv_ino x <> SFS_ROOTDIR_INO -> ok u -> at_zeros (file s (sv_ino x)) ->
  (uio_rw u = UIO_WRITE -> uio_offset u + uio_resid u < 2 ^ 41) ->
  wp (match uio_rw u with UIO_READ => sfs_read lh_buf iobuf zeros_at curas v u | UIO_WRITE => sfs_write lh_buf iobuf zeros_at curas v u end)
    (fun r s' => finished (fun i => i = sv_ino x) s (dirmap s) (gained None) s' /\
      io_result (amount u (file s (sv_ino x))) u (file s (sv_ino x)) r (file s' (sv_ino x))) s.
Proof.
  intros Hok Hx Hne Hu Hz Hsm. pose proof (inode_core s v x (bk_table _ s (ok_blocks s Hok)) Hx) as Hi.
  assert (Hf : file s (sv_ino x) = unmarked (vol (sv_inode x) (sv_modified x) s)) by (unfold file, unmarked; by rewrite Hi). rewrite Hf in *.
  assert (Hsize : 0 <= Sfs.sfi_size (sv_inode x) < 2 ^ 32).
  { rewrite <-Hi. apply (bk_file _ s (ok_blocks s Hok)). right. left. eauto. }
  assert (Hio : wp (on_file v (Sfsio.sfs_io lh_buf iobuf zeros_at curas u)) (fun r s' => finished (fun i => i = sv_ino x) s (dirmap s) (gained None) s' /\
      io_result (amount u (unmarked (vol (sv_inode x) (sv_modified x) s))) u (unmarked (vol (sv_inode x) (sv_modified x) s)) r (file s' (sv_ino x))) s).
  { eapply wp_file; [done|]. eapply wp_mono; [|apply io_step; [by apply (view_wf (alive s) s v x (ok_blocks s Hok))|done|exact Hz|done|done]].
    cbv beta. intros r t' [Hr Hst]. destruct (file_op s v x t' Hok Hx Hne Hst) as (H1 & _ & H2). split; [exact H1|].
    rewrite (file_put_file s v x t' Hx (proj1 (proj2 (proj2 Hst))) (bk_table _ s (ok_blocks s Hok)) H2). by apply io_result_unmarked. }
  unfold sfs_read, sfs_write, is_write. destruct (uio_rw u); rewrite wp_bind, wp_KASSERT; (split; [done|exact Hio]).
Qed.
End theory.

(** ** A new file on a disk that fails some of its reads *)

Module Sfsdata_sample.
Import Sfsio_sample Sfsops_sample.
#[local] Existing Instances hardware Sfsio_sample.reliable.
#[local] Hint Extern 0 (Disk (driver Lhd_sample.disk)) => exact (the_disk card iobuf (Some 1) apart iobuf_fits) : typeclass_instances.
Definition formatted : driver Lhd_sample.disk := Driver mem 1 0 0 0 0 ([true; true], {[1 := root_bytes]}).
Definition in_use_fs : sfs_fs Bitmap.bitmap (driver Lhd_sample.disk) := with_file formatted 15 [].
Lemma in_use_fs_ok : fs_ok in_use_fs.
Proof. apply with_file_ok; [by split|done|by vm_compute|by right|done]. Qed.
Lemma in_use_zeros : at_zeros zeros (file in_use_fs 3).
Proof.
  intros a [Ha Hb]. change (bytes Sfsio_sample.mem a = 0). unfold Sfsio_sample.mem. cbn. by rewrite (proj2 (Z.leb_le _ _) Ha), (proj2 (Z.ltb_lt _ _) Hb).
Qed.
(** 600 bytes of the kernel's to the position 510 of the file. *)
Example write_600 : match sfs_write card iobuf zeros (Some 1) 0 kernel_uio in_use_fs with
  | Ret r s => r.1 = 0 /\ Sfs.sfi_size (inode s 3) = 1110 /\ Sfs.region 508 6 (file_bytes (file s 3)) = [0; 0; 100; 101; 102; 103]
  | _ => False end.
Proof. vm_compute. done. Qed.
Lemma sfs_data_correct_witness : wp (sfs_write card iobuf zeros (Some 1) 0 kernel_uio) (fun r s' => fs_ok s' /\ dirmap s' = dirmap in_use_fs) in_use_fs.
Proof.
  assert (Hx : vnodes in_use_fs !! 0 = Some (open_file formatted)) by apply lookup_insert_eq.
  eapply wp_mono; [|apply (sfs_data_correct card iobuf zeros (Some 1) apart iobuf_fits zeros_apart small_disk in_use_fs 0 (open_file formatted) kernel_uio in_use_fs_ok Hx); [done|exact kernel_uio_ok|exact in_use_zeros|exact uio_small]].
  cbv beta. intros r s' [[Hok Hm _ _ _] _]. exact (conj Hok Hm).
Defined.
End Sfsdata_sample.
