(* ===== verification/Kgets.v ===== *)
(** * Line input from the console ([kern/lib/kgets.c])

    The console gives keys and shows what is put on it; the buffer is the memory of the
    caller, and a store outside it faults.  [kgets] is proved equivalent to a line editor
    on lists ([edit]), and what the terminal shows ([tty]) to follow the line. *)
From S2P Require Import Prelude.

Module Kgets.
(** The keys still to come, all characters put so far, the caller's buffer. *)
Record console := Console { keys : list Z; screen : list Z; buf : list Z }.

Definition putch (ch : Z) : K console () :=
  modify (fun c => Console (keys c) (screen c ++ [ch]) (buf c)).
(** Sleeps until there is a key. *)
Definition getch : K console Z :=
  c ← get;
  match keys c with
  | [] => block
  | ch :: ks => put (Console ks (screen c) (buf c));; mret ch
  end.
Definition buf_get (i : Z) : K console Z :=
  c ← get; deref (if 0 <=? i then buf c !! Z.to_nat i else None) "buf[i]".
Definition buf_set (i ch : Z) : K console () :=
  c ← get;
  if (0 <=? i) && (i <? Z.of_nat (length (buf c))) then put (Console (keys c) (screen c) (<[Z.to_nat i := ch]> (buf c)))
  else fault "buf[i]".
Fixpoint put_string (l : list Z) : K console () :=
  match l with [] => mret tt | ch :: l => putch ch;; put_string l end.
(** What [%s] prints: the bytes before the first NUL. *)
Fixpoint c_string (l : list Z) : list Z :=
  match l with [] => [] | ch :: l => if ch =? 0 then [] else ch :: c_string l end.

Definition beep : K console () := putch 7.
Definition backsp : K console () := putch 8;; putch 32;; putch 8.

(** [while (pos > 0 && p(buf[pos-1])) { backsp(); pos--; }], [n] at least [pos]. *)
Fixpoint erase_while (n : nat) (p : Z -> bool) (pos : Z) : K console Z :=
  match n with
  | O => mret pos
  | S n =>
      if 0 <? pos then
        ch ← buf_get (pos - 1);
        if p ch then backsp;; erase_while n p (pos - 1) else mret pos
      else mret pos
  end.
(** [while (pos > 0) { backsp(); pos--; }]. *)
Fixpoint erase_all (n : nat) (pos : Z) : K console Z :=
  match n with
  | O => mret pos
  | S n => if 0 <? pos then backsp;; erase_all n (pos - 1) else mret pos
  end.

(** The loop; every turn takes a key, [n] is more than there are. *)
Fixpoint kgets_loop (n : nat) (maxlen pos : Z) : K console Z :=
  match n with
  | O => block
  | S n =>
      ch ← getch;
      if (ch =? 10) || (ch =? 13) then putch 10;; mret pos else
      if (32 <=? ch) && (ch <? 127) && (pos <? u32 (maxlen - 1)) then
        putch ch;; buf_set pos ch;; kgets_loop n maxlen (pos + 1)
      else if ((ch =? 8) || (ch =? 127)) && (0 <? pos) then
        backsp;; kgets_loop n maxlen (pos - 1)
      else if ch =? 3 then
        putch 94;; putch 67;; putch 10;; mret 0
      else if ch =? 18 then
        buf_set pos 0;;
        c ← get;
        put_string ([94; 82; 10] ++ c_string (buf c));;
        kgets_loop n maxlen pos
      else if ch =? 21 then
        pos ← erase_all (Z.to_nat pos) pos;
        kgets_loop n maxlen pos
      else if ch =? 23 then
        pos ← erase_while (Z.to_nat pos) (fun ch => ch =? 32) pos;
        pos ← erase_while (Z.to_nat pos) (fun ch => negb (ch =? 32)) pos;
        kgets_loop n maxlen pos
      else beep;; kgets_loop n maxlen pos
  end.

Definition kgets (maxlen : Z) : K console () :=
  c ← get;
  pos ← kgets_loop (S (length (keys c))) maxlen 0;
  buf_set pos 0.
End Kgets.
Import Kgets.

(** ** The reference: a line editor on lists *)

Definition strip (p : Z -> bool) : list Z -> list Z :=
  fix go l := match l with [] => [] | ch :: l' => if p ch then go l' else l end.
(** The line without its last word and the blanks behind it. *)
Definition drop_word (line : list Z) : list Z :=
  rev (strip (fun ch => negb (ch =? 32)) (strip (fun ch => ch =? 32) (rev line))).
Definition edit (max : nat) (line : list Z) (ch : Z) : list Z :=
  if (32 <=? ch) && (ch <? 127) && Nat.ltb (length line) max then line ++ [ch] else
  if (ch =? 8) || (ch =? 127) then removelast line else
  if ch =? 21 then [] else
  if ch =? 23 then drop_word line else line.
Definition ends_line (ch : Z) : bool := (ch =? 10) || (ch =? 13) || (ch =? 3).

(** A terminal: the row with the cursor, and the cursor's column. *)
Record tty := Tty { row : list Z; cursor : nat }.
Definition show1 (t : tty) (ch : Z) : tty :=
  if ch =? 10 then Tty [] 0 else
  if ch =? 8 then Tty (row t) (pred (cursor t)) else
  if ch =? 7 then t else
  Tty (take (cursor t) (row t) ++ [ch] ++ drop (S (cursor t)) (row t)) (S (cursor t)).
Definition show (l : list Z) : tty := foldl show1 (Tty [] 0) l.
(** The row ends in the line, up to blanks, with the cursor behind it. *)
Definition shows (t : tty) (line : list Z) : Prop :=
  exists pre k, row t = pre ++ line ++ replicate k 32 /\ cursor t = length (pre ++ line).
Definition printable (ch : Z) : Prop := 32 <= ch < 127.

(** ** The terminal *)

Lemma show_app l1 l2 : show (l1 ++ l2) = foldl show1 (show l1) l2.
Proof. apply foldl_app. Qed.

Lemma shows_putch t line ch : shows t line -> printable ch -> shows (show1 t ch) (line ++ [ch]).
Proof.
  intros (pre & k & Hr & Hc) Hp. unfold printable in Hp. exists pre, (pred k). unfold show1.
  destruct (Z.eqb_spec ch 10); [lia|]. destruct (Z.eqb_spec ch 8); [lia|]. destruct (Z.eqb_spec ch 7); [lia|]. cbn [row cursor].
  rewrite (assoc_L (++)) in Hr. rewrite Hr, Hc, take_app_length. split; [|rewrite !length_app; cbn; lia].
  rewrite <-!(assoc_L (++)). do 3 f_equal. rewrite (assoc_L (++)), drop_app_ge by lia.
  replace (S (length (pre ++ line)) - length (pre ++ line))%nat with 1%nat by lia. by destruct k.
Qed.
Lemma shows_backsp t line ch : shows t (line ++ [ch]) -> shows (foldl show1 t [8; 32; 8]) line.
Proof.
  intros (pre & k & Hr & Hc). exists pre, (S k). unfold show1. cbn [foldl Z.eqb Pos.eqb row cursor].
  replace (pred (cursor t)) with (length (pre ++ line)) by (rewrite Hc, !length_app; cbn; lia). cbn [pred]. split; [|done].
  assert (Hr' : row t = (pre ++ line) ++ ch :: replicate k 32) by (rewrite Hr; by rewrite <-!(assoc_L (++))).
  rewrite Hr', take_app_length, drop_app_ge by lia.
  replace (S (length (pre ++ line)) - length (pre ++ line))%nat with 1%nat by lia. by rewrite <-(assoc_L (++)).
Qed.
Lemma shows_string l t line : shows t line -> Forall printable l -> shows (foldl show1 t l) (line ++ l).
Proof.
  revert t line. induction l as [|ch l IH]; intros t line Hs Hp; cbn; [by rewrite app_nil_r|].
  apply Forall_cons in Hp as [Hc Hp]. rewrite cons_middle, (assoc_L (++)). apply IH; [|done]. by apply shows_putch.
Qed.
Lemma shows_reprint t line : Forall printable line -> shows (foldl show1 t ([94; 82; 10] ++ line)) line.
Proof.
  intros Hp. rewrite foldl_app. change (shows (foldl show1 (Tty [] 0) line) ([] ++ line)). apply shows_string; [|done].
  by exists [], O.
Qed.

(** ** The line in the buffer *)

(** The buffer [b0] of the caller, of which [maxlen] bytes may be used, holds the line. *)
Record inv (b0 : list Z) (maxlen : nat) (c : console) (line : list Z) : Prop := {
  inv_length : length (buf c) = length b0;
  inv_beyond : drop maxlen (buf c) = drop maxlen b0;
  inv_line : take (length line) (buf c) = line;
  inv_print : Forall printable line;
  inv_short : (length line < maxlen)%nat;
  inv_shows : shows (show (screen c)) line }.

Lemma put_string_eq l c : put_string l c = Ret tt (Console (keys c) (screen c ++ l) (buf c)).
Proof.
  revert c. induction l as [|ch l IH]; intros c; cbn [put_string].
  - rewrite app_nil_r. by destruct c.
  - erewrite bind_eq by reflexivity. rewrite IH. cbn. by rewrite <-(assoc_L (++)).
Qed.
Lemma backsp_eq c : backsp c = Ret tt (Console (keys c) (screen c ++ [8; 32; 8]) (buf c)).
Proof. destruct c as [k s b]. unfold backsp, putch. kunfold. cbn. by rewrite <-!(assoc_L (++)). Qed.
Lemma buf_set_eq c (k : nat) ch : (k < length (buf c))%nat ->
  buf_set (Z.of_nat k) ch c = Ret tt (Console (keys c) (screen c) (<[k := ch]> (buf c))).
Proof.
  intros Hk. unfold buf_set. kunfold. rewrite (proj2 (Z.leb_le _ _)), (proj2 (Z.ltb_lt _ _)), Nat2Z.id by lia. done.
Qed.
Lemma getch_eq c ch ks : keys c = ch :: ks -> getch c = Ret ch (Console ks (screen c) (buf c)).
Proof. intros E. unfold getch. kunfold. by rewrite E. Qed.
Lemma c_string_line l r : Forall printable l -> c_string (l ++ 0 :: r) = l.
Proof.
  induction 1 as [|ch l Hc _ IH]; cbn; [done|]. unfold printable in Hc. destruct (Z.eqb_spec ch 0); [lia|]. by rewrite IH.
Qed.

Section editor.
Context (b0 : list Z) (maxlen : nat) (Hroom : (maxlen <= length b0)%nat) (Hmax : Z.of_nat maxlen < 2 ^ 32).

(** The same line and buffer, more on the screen. *)
Lemma inv_screen c c' line line' : inv b0 maxlen c line -> buf c' = buf c -> line' `prefix_of` line ->
  shows (show (screen c')) line' -> inv b0 maxlen c' line'.
Proof.
  intros [Hl Hb Ht Hp Hs _] E [l El] Hsh. subst line. apply Forall_app in Hp as [Hp _]. rewrite length_app in *.
  split; rewrite ?E; try done; [|lia]. apply (f_equal (take (length line'))) in Ht. by rewrite take_take, take_app_length, Nat.min_l in Ht by lia.
Qed.


Lemma inv_erase c line ch : inv b0 maxlen c (line ++ [ch]) ->
  inv b0 maxlen (Console (keys c) (screen c ++ [8; 32; 8]) (buf c)) line.
Proof.
  intros Hi. eapply inv_screen; [done|done|by eexists|]. cbn [screen]. rewrite show_app.
  eapply shows_backsp, (inv_shows _ _ _ _ Hi).
Qed.

Lemma inv_store c line ch scr : inv b0 maxlen c line -> shows (show scr) line ->
  inv b0 maxlen (Console (keys c) scr (<[length line := ch]> (buf c))) line.
Proof.
  intros [Hl Hb Ht Hp Hs _] Hsh. split; cbn; try done.
  - by rewrite length_insert.
  - rewrite drop_insert_lt by done. done.
  - by rewrite take_insert_ge by lia.
Qed.
Lemma inv_add c line ch : inv b0 maxlen c line -> printable ch -> (S (length line) < maxlen)%nat ->
  inv b0 maxlen (Console (keys c) (screen c ++ [ch]) (<[length line := ch]> (buf c))) (line ++ [ch]).
Proof.
  intros [Hl Hb Ht Hp Hs Hsh] Hch Hlt. split; cbn.
  - by rewrite length_insert.
  - by rewrite drop_insert_lt by lia.
  - rewrite length_app. cbn [length]. rewrite Nat.add_1_r. erewrite take_S_r; [|apply list_lookup_insert_eq; lia].
    by rewrite take_insert_ge, Ht by lia.
  - apply Forall_app. split; [done|]. by apply Forall_singleton.
  - rewrite length_app. cbn. lia.
  - rewrite show_app. by apply shows_putch.
Qed.

(** Erasing the characters that satisfy a test, from the end. *)
Definition strip_end (p : Z -> bool) (line : list Z) : list Z := rev (strip p (rev line)).

Lemma erase_while_spec p line c : inv b0 maxlen c line ->
  wp (erase_while (length line) p (Z.of_nat (length line))) (fun pos c' =>
    keys c' = keys c /\ pos = Z.of_nat (length (strip_end p line)) /\ inv b0 maxlen c' (strip_end p line)) c.
Proof.
  revert c. unfold strip_end. induction line as [|ch line IH] using rev_ind; intros c Hi; [done|].
  rewrite rev_unit, length_app, Nat.add_1_r. cbn [erase_while strip]. destruct (Z.ltb_spec 0 (Z.of_nat (S (length line)))); [|lia].
  replace (Z.of_nat (S (length line)) - 1) with (Z.of_nat (length line)) by lia.
  assert (Hch : buf c !! length line = Some ch).
  { pose proof (inv_line _ _ _ _ Hi) as Ht. rewrite length_app, Nat.add_1_r in Ht.
    rewrite <-(lookup_take_lt _ (S (length line))), Ht by lia. by rewrite list_lookup_middle. }
  unfold buf_get. wp_simpl. rewrite (proj2 (Z.leb_le _ _)), Nat2Z.id, Hch by lia. wp_simpl.
  destruct (p ch) eqn:Ep; rewrite ?Ep.
  - wp_simpl. erewrite wp_eq by apply backsp_eq. eapply wp_mono; [|by apply IH, inv_erase with ch]. done.
  - rewrite wp_ret. change (rev (ch :: rev line)) with (rev (rev line) ++ [ch]). rewrite rev_involutive, length_app, Nat.add_1_r. done.
Qed.
Lemma erase_all_spec line c : inv b0 maxlen c line ->
  wp (erase_all (length line) (Z.of_nat (length line))) (fun pos c' => keys c' = keys c /\ pos = 0 /\ inv b0 maxlen c' []) c.
Proof.
  revert c. induction line as [|ch line IH] using rev_ind; intros c Hi; [done|].
  rewrite length_app, Nat.add_1_r. cbn [erase_all]. destruct (Z.ltb_spec 0 (Z.of_nat (S (length line)))); [|lia].
  replace (Z.of_nat (S (length line)) - 1) with (Z.of_nat (length line)) by lia.
  wp_simpl. erewrite wp_eq by apply backsp_eq. eapply wp_mono; [|by apply IH, inv_erase with ch]. done.
Qed.

(** ** One key *)

Lemma drop_word_strip line :
  drop_word line = strip_end (fun ch => negb (ch =? 32)) (strip_end (fun ch => ch =? 32) line).
Proof. unfold drop_word, strip_end. by rewrite rev_involutive. Qed.

Lemma c_string_stored c line : inv b0 maxlen c line -> c_string (<[length line := 0]> (buf c)) = line.
Proof.
  intros [Hl _ Ht Hp Hs _]. rewrite <-(take_drop (length line) (<[_ := _]> _)), take_insert_ge, Ht by lia.
  rewrite (drop_S _ 0); [by apply c_string_line|]. apply list_lookup_insert_eq. lia.
Qed.


(** A key that does not end the line: the loop goes on with the edited line. *)
Lemma key_step c line ch ks : inv b0 maxlen c line -> keys c = ch :: ks -> ends_line ch = false ->
  let line' := edit (maxlen - 1) line ch in
  exists c', keys c' = ks /\ inv b0 maxlen c' line' /\ forall n,
    kgets_loop (S n) (Z.of_nat maxlen) (Z.of_nat (length line)) c = kgets_loop n (Z.of_nat maxlen) (Z.of_nat (length line')) c'.
Proof.
  intros Hi Hk He. set (c1 := Console ks (screen c) (buf c)).
  assert (Hstart : forall n, kgets_loop (S n) (Z.of_nat maxlen) (Z.of_nat (length line)) c =
    kgets_loop (S n) (Z.of_nat maxlen) (Z.of_nat (length line)) (Console (ch :: ks) (screen c) (buf c))) by (intros; rewrite <-Hk; by destruct c).
  assert (Hi1 : inv b0 maxlen c1 line) by (eapply inv_screen; [exact Hi|done|done|apply Hi]).
  unfold ends_line in He. apply orb_false_iff in He as [He Hc3].
  pose proof (inv_short _ _ _ _ Hi) as Hs. pose proof (inv_length _ _ _ _ Hi) as Hl.
  assert (Hfull : (Z.of_nat (length line) <? u32 (Z.of_nat maxlen - 1)) = Nat.ltb (length line) (maxlen - 1)).
  { rewrite u32_small by lia. destruct (Z.ltb_spec (Z.of_nat (length line)) (Z.of_nat maxlen - 1)), (Nat.ltb_spec (length line) (maxlen - 1)); lia || done. }
  cbv zeta. unfold edit. setoid_rewrite Hstart. cbn [kgets_loop]. setoid_rewrite (bind_eq getch _ _ c1 ch); [|done].
  rewrite He, Hfull, Hc3. destruct ((32 <=? ch) && (ch <? 127) && Nat.ltb (length line) (maxlen - 1)) eqn:E1.
  { apply andb_true_iff in E1 as [[E1 E2]%andb_true_iff E3%Nat.ltb_lt].
    eexists. split; [|split; [apply (inv_add c1 line ch Hi1); [unfold printable; lia|lia]|]]; [done|]. intros n.
    unfold putch. erewrite bind_eq by reflexivity. run (buf_set_eq (Console ks (screen c ++ [ch]) (buf c)) (length line) ch ltac:(cbn; lia)).
    rewrite length_app, Nat2Z.inj_add. done. }
  destruct ((ch =? 8) || (ch =? 127)) eqn:E8; cbn [andb].
  { destruct line as [|x line _] using rev_ind; cbn [removelast].
    - assert (Hch : ch <> 18 /\ ch <> 21 /\ ch <> 23) by (apply orb_true_iff in E8 as [->%Z.eqb_eq| ->%Z.eqb_eq]; lia).
      destruct (Z.eqb_spec ch 18), (Z.eqb_spec ch 21), (Z.eqb_spec ch 23); try lia.
      exists (Console ks (screen c ++ [7]) (buf c)). split_and!; [done| |by intros ?].
      eapply inv_screen; [exact Hi1|done|done|]. cbn [screen c1]. rewrite show_app. apply Hi.
    - rewrite removelast_last. eexists. split; [|split; [by apply (inv_erase c1 line x)|]]; [done|]. intros n.
      rewrite length_app. cbn [length]. destruct (Z.ltb_spec 0 (Z.of_nat (length line + 1))); [|lia].
      erewrite bind_eq by apply backsp_eq. by replace (Z.of_nat (length line + 1) - 1) with (Z.of_nat (length line)) by lia. }
  destruct (Z.eqb_spec ch 18) as [->|Hc18].
  { set (c2 := Console ks (screen c) (<[length line := 0]> (buf c))).
    exists (Console ks (screen c ++ [94; 82; 10] ++ c_string (buf c2)) (buf c2)).
    split; [done|split; [|intros ?; run (buf_set_eq c1 (length line) 0 ltac:(cbn; lia)); erewrite bind_eq by reflexivity;
      erewrite bind_eq by apply put_string_eq; done]]. unfold c2.
    cbn [buf keys screen c1]. apply (inv_store c1); [done|]. rewrite show_app. fold c1.
    change (buf c) with (buf c1). rewrite c_string_stored by done. apply shows_reprint, Hi. }
  destruct (ch =? 21) eqn:E21; [|destruct (ch =? 23) eqn:E23].
  - destruct (proj1 (wp_returns _ _ _) (erase_all_spec line c1 Hi1)) as (pos & c2 & E & Hk2 & -> & Hi2).
    exists c2. split_and!; [done|done|]. intros n. rewrite Nat2Z.id. by erewrite bind_eq by apply E.
  - destruct (proj1 (wp_returns _ _ _) (erase_while_spec (fun ch => ch =? 32) line c1 Hi1)) as (pos & c2 & E & Hk2 & -> & Hi2).
    destruct (proj1 (wp_returns _ _ _) (erase_while_spec (fun ch => negb (ch =? 32)) _ c2 Hi2)) as (pos' & c3 & E' & Hk3 & -> & Hi3).
    exists c3. rewrite drop_word_strip. split_and!; [by rewrite Hk3, Hk2|done|]. intros n. rewrite Nat2Z.id.
    erewrite bind_eq by apply E. rewrite Nat2Z.id. by erewrite bind_eq by apply E'.
  - exists (Console ks (screen c ++ [7]) (buf c)). split_and!; [done| |by intros ?].
    eapply inv_screen; [exact Hi1|done|done|]. cbn [screen c1]. rewrite show_app. apply Hi.
Qed.

(** ** The whole line *)

(** What is left when the line has been ended by [t]. *)
Definition line_post (line : list Z) (t : Z) (rest : list Z) (pos : Z) (c : console) : Prop :=
  keys c = rest /\ pos = (if t =? 3 then 0 else Z.of_nat (length line)) /\ length (buf c) = length b0 /\
  drop maxlen (buf c) = drop maxlen b0 /\ take (length line) (buf c) = line /\ Forall printable line /\ (length line < maxlen)%nat /\
  exists scr, screen c = scr ++ (if t =? 3 then [94; 67; 10] else [10]) /\ shows (show scr) line.

Lemma end_spec n c line t rest : inv b0 maxlen c line -> keys c = t :: rest -> ends_line t = true ->
  wp (kgets_loop (S n) (Z.of_nat maxlen) (Z.of_nat (length line))) (line_post line t rest) c.
Proof.
  intros Hi Hk Ht. cbn [kgets_loop]. rewrite wp_bind. erewrite wp_eq by by apply getch_eq.
  destruct Hi as [Hl Hb Hta Hp Hs Hsh]. unfold ends_line in Ht. unfold line_post.
  destruct ((t =? 10) || (t =? 13)) eqn:E.
  - unfold putch. wp_simpl. assert (E3 : (t =? 3) = false) by (destruct (Z.eqb_spec t 3) as [->|]; done). rewrite E3.
    split_and!; try done. by exists (screen c).
  - cbn [orb] in Ht. apply Z.eqb_eq in Ht as ->. cbn [Z.leb Z.compare Pos.compare Pos.compare_cont andb orb Z.eqb Pos.eqb].
    unfold putch. wp_simpl. cbn [screen keys buf]. split_and!; try done. exists (screen c). by rewrite <-!(assoc_L (++)).
Qed.

(** The keys before the one that ends the line. *)
Lemma keys_step ks rest : Forall (fun ch => ends_line ch = false) ks -> forall c line,
  inv b0 maxlen c line -> keys c = ks ++ rest -> let line' := foldl (edit (maxlen - 1)) line ks in
  exists c', keys c' = rest /\ inv b0 maxlen c' line' /\ forall n,
    kgets_loop (length ks + n) (Z.of_nat maxlen) (Z.of_nat (length line)) c = kgets_loop n (Z.of_nat maxlen) (Z.of_nat (length line')) c'.
Proof.
  induction 1 as [|ch ks Hc _ IH]; intros c line Hi Hk; cbn [foldl length app] in *; [by exists c|].
  destruct (key_step c line ch _ Hi Hk Hc) as (c1 & Hk1 & Hi1 & E1). destruct (IH c1 _ Hi1 Hk1) as (c2 & Hk2 & Hi2 & E2).
  exists c2. split_and!; [done|done|]. intros n. rewrite <-E2. apply E1.
Qed.
End editor.

(** The program starts with the cursor at the end of a row; the prompt is on it. *)
Definition at_prompt (scr : list Z) : Prop := cursor (show scr) = length (row (show scr)).
Lemma start_inv c maxlen : (0 < maxlen <= length (buf c))%nat -> at_prompt (screen c) -> inv (buf c) maxlen c [].
Proof. intros Hm Hp. split; [done|done|done|by apply Forall_nil|cbn; lia|]. exists (row (show (screen c))), O. cbn. by rewrite app_nil_r. Qed.

Lemma no_key n maxlen pos c : keys c = [] -> kgets_loop (S n) maxlen pos c = Block.
Proof. intros E. cbn [kgets_loop]. unfold getch. kunfold. by rewrite E. Qed.

(** C35. [kgets] is a line editor.  Whatever keys come, up to the first newline, return or ^C:
    it returns, having taken exactly these keys; the buffer holds, terminated, the line the
    reference editor makes of them (the empty line after ^C); only the first [maxlen] bytes
    of the buffer are written, and no access is outside it; and the terminal shows the line
    that was being edited, behind the prompt.  While no such key has come it sleeps. *)
Theorem kgets_is_editor c maxlen ks : (0 < maxlen <= length (buf c))%nat -> Z.of_nat maxlen < 2 ^ 32 -> at_prompt (screen c) ->
  Forall (fun ch => ends_line ch = false) ks ->
  let line := foldl (edit (maxlen - 1)) [] ks in
  (keys c = ks -> kgets (Z.of_nat maxlen) c = Block) /\
  (forall t rest, ends_line t = true -> keys c = ks ++ t :: rest ->
    wp (kgets (Z.of_nat maxlen)) (fun _ c' => keys c' = rest /\
      c_string (buf c') = (if t =? 3 then [] else line) /\ (length line < maxlen)%nat /\
      length (buf c') = length (buf c) /\ drop maxlen (buf c') = drop maxlen (buf c) /\
      exists scr, screen c' = scr ++ (if t =? 3 then [94; 67; 10] else [10]) /\ shows (show scr) line) c).
Proof.
  intros Hroom Hmax Hp Hks line. pose proof (start_inv c maxlen Hroom Hp) as Hi.
  unfold kgets. split.
  - intros Hk. destruct (keys_step (buf c) maxlen ltac:(lia) Hmax ks [] Hks c [] Hi) as (c' & Hk' & Hi' & E); [by rewrite app_nil_r|].
    erewrite bind_eq by reflexivity. unfold mbind, K_bind. replace (S (length (keys c))) with (length ks + 1)%nat by (rewrite Hk; lia).
    change 0 with (Z.of_nat (length (@nil Z))) at 1. rewrite E. by rewrite no_key.
  - intros t rest Ht Hk. destruct (keys_step (buf c) maxlen ltac:(lia) Hmax ks (t :: rest) Hks c [] Hi Hk) as (c1 & Hk1 & Hi1 & E).
    wp_simpl. assert (Hlen : S (length (keys c)) = (length ks + S (S (length rest)))%nat) by (rewrite Hk, length_app; cbn; lia).
    rewrite Hlen. eapply wp_same; [apply (E (S (S (length rest))))|]. eapply wp_mono; [|by apply end_spec].
    cbv beta. intros pos c2 (Hk2 & -> & Hl2 & Hb2 & Ht2 & Hp2 & Hs2 & scr & Hsc & Hsh). fold line in Ht2, Hp2, Hs2, Hsh |- *.
    assert (Hpos : (if t =? 3 then 0 else Z.of_nat (length line)) = Z.of_nat (if t =? 3 then 0%nat else length line)) by (by destruct (t =? 3)).
    rewrite Hpos. erewrite wp_eq by (eapply buf_set_eq; destruct (t =? 3); lia). cbn [keys buf screen].
    split_and!; [done| |done|by rewrite length_insert|rewrite drop_insert_lt; [done|destruct (t =? 3); lia]|by exists scr].
    destruct (t =? 3).
    + destruct (buf c2) as [|x l] eqn:E2; [cbn in Hl2; lia|]. done.
    + rewrite <-(take_drop (length line) (<[_ := _]> _)), take_insert_ge, Ht2 by lia.
      rewrite (drop_S _ 0); [by apply c_string_line|]. apply list_lookup_insert_eq. lia.
Qed.

(** "sh exit", ^W, DEL, "/x", newline: the prompt stays, and the shell reads "sh/x". *)
Definition a_console : console :=
  Console ([115; 104; 32; 101; 120; 105; 116; 23; 127] ++ [47; 120] ++ 10 :: [42]) [36; 32] (replicate 8 170).
Lemma kgets_is_editor_witness :
  wp (kgets 8) (fun _ c' => keys c' = [42] /\ c_string (buf c') = [115; 104; 47; 120]) a_console.
Proof.
  destruct (kgets_is_editor a_console 8 [115; 104; 32; 101; 120; 105; 116; 23; 127; 47; 120]) as [_ Hr];
    [cbn; lia|done|done|by repeat constructor|].
  eapply wp_mono; [|apply (Hr 10 [42]); done]. cbv beta. intros _ c' (Hk & Hb & _). split; [done|]. rewrite Hb. vm_compute. reflexivity.
Defined.
