(* ===== verification/Vfs.v ===== *)
(** * The VFS layer: vnode references, named devices, path names
    ([kern/vfs/vnode.c], [vfscwd.c], [vfslookup.c], [vfspath.c], [vfslist.c])

    Paths start at a named device, at the boot file system or at the current directory;
    what lies behind is looked up by the file system of the start vnode.  File systems and
    devices are the interface [FileSystems].  Every call hands around counted references
    to vnodes; [spare] counts those that are the callers' to give back, and the calls are
    proved to keep this account on every path.  The global lock is recursive and taken
    and released inside the calls. *)
From S2P Require Import Prelude Synch.
Import Synch.

(** File systems: the world [W] keeps the vnodes with their counts.  A vnode whose
    [VOP_RECLAIM] has failed stays with a count of 1 that nobody owns ([vn_kept]).  An
    operation that hands back a vnode has counted the reference. *)
Class FileSystems (W : Type) := {
  vn_count : W -> Z -> Z;
  vn_kept : W -> Z -> Z;
  vn_set_count : Z -> Z -> W -> W;
  vn_fs : Z -> option Z;
  vop_reclaim : Z -> K W Z;
  vop_lookup : Z -> list Z -> K W (Z * Z);
  vop_lookparent : Z -> list Z -> Z -> K W (Z * Z * list Z);
  vop_creat : Z -> list Z -> bool -> Z -> K W (Z * Z);
  vop_eachopen : Z -> Z -> K W Z;
  vop_truncate : Z -> Z -> K W Z;
  vop_gettype : Z -> K W (Z * Z);
  vop_remove : Z -> list Z -> K W Z;
  vop_rename : Z -> list Z -> Z -> list Z -> K W Z;
  vop_link : Z -> list Z -> Z -> K W Z;
  vop_symlink : Z -> list Z -> list Z -> K W Z;
  vop_readlink : Z -> K W Z;
  vop_mkdir : Z -> list Z -> Z -> K W Z;
  vop_rmdir : Z -> list Z -> K W Z;
  vop_namefile : Z -> K W Z;
  fsop_getvolname : Z -> W -> option (list Z);
  fsop_getroot : Z -> K W (Z * Z);
  fsop_sync : Z -> K W Z;
  fsop_unmount : Z -> K W Z;
  w_mountfunc : Z -> K W (Z * Z);
  w_uiomove : list Z -> K W Z;
  w_kmalloc : K W bool;
  w_new_vnode : K W (option Z);
  w_array_room : K W bool }.

Module Vfs.
Definition S_IFDIR : Z := 0x2000.
Definition O_ACCMODE : Z := 3.
Definition O_CREAT : Z := 4.
Definition O_EXCL : Z := 8.
Definition O_TRUNC : Z := 16.
Definition NAME_MAX : Z := 255.
Definition colon : Z := 58.
Definition slash : Z := 47.

(** [kd_fs]: a file system or the placeholder for swap. *)
Inductive fsref := Fs (f : Z) | SWAP_FS.
#[global] Instance fsref_eq_dec : EqDecision fsref.
Proof. solve_decision. Defined.
Record knowndev := Knowndev {
  kd_name : list Z; kd_rawname : option (list Z); kd_device : option Z; kd_vnode : Z; kd_fs : option fsref }.

Record vfs (W : Type) := TheVfs {
  world : W; p_cwd : option Z; bootfs_vnode : option Z; knowndevs : list knowndev;
  vfs_biglock : lock; vfs_biglock_depth : Z }.
Arguments TheVfs {W} _ _ _ _ _ _.
Arguments world {W} _.
Arguments p_cwd {W} _.
Arguments bootfs_vnode {W} _.
Arguments knowndevs {W} _.
Arguments vfs_biglock {W} _.
Arguments vfs_biglock_depth {W} _.

Section ops.
Context {W : Type} `{FileSystems W} (me : Z).
Implicit Types s : vfs W.

Definition set_world (w : W) s : vfs W := TheVfs w (p_cwd s) (bootfs_vnode s) (knowndevs s) (vfs_biglock s) (vfs_biglock_depth s).
Definition set_cwd (v : option Z) s : vfs W := TheVfs (world s) v (bootfs_vnode s) (knowndevs s) (vfs_biglock s) (vfs_biglock_depth s).
Definition set_bootfs (v : option Z) s : vfs W := TheVfs (world s) (p_cwd s) v (knowndevs s) (vfs_biglock s) (vfs_biglock_depth s).
Definition set_devs (l : list knowndev) s : vfs W := TheVfs (world s) (p_cwd s) (bootfs_vnode s) l (vfs_biglock s) (vfs_biglock_depth s).
Definition set_lock (l : lock) s : vfs W := TheVfs (world s) (p_cwd s) (bootfs_vnode s) (knowndevs s) l (vfs_biglock_depth s).
Definition set_depth (n : Z) s : vfs W := TheVfs (world s) (p_cwd s) (bootfs_vnode s) (knowndevs s) (vfs_biglock s) n.
Definition world_lens : lens (vfs W) W := Lens world set_world.
Definition lock_lens : lens (vfs W) lock := Lens vfs_biglock set_lock.

(** ** Reference counts ([vnode.c]) *)

Definition vnode_init (vn : Z) : K W () := modify (vn_set_count vn 1).
Definition vnode_cleanup (vn : Z) : K W () :=
  w ← get; KASSERT (vn_count w vn =? 1) "vn->vn_refcount == 1";; put (vn_set_count vn 0 w).
Definition vnode_incref (vn : Z) : K W () := modify (fun w => vn_set_count vn (vn_count w vn + 1) w).
Definition vnode_decref (vn : Z) : K W () :=
  w ← get;
  KASSERT (0 <? vn_count w vn) "vn->vn_refcount > 0";;
  if 1 <? vn_count w vn then put (vn_set_count vn (vn_count w vn - 1) w)
  else _ ← vop_reclaim vn; mret tt.
Definition vnode_check (vn : Z) : K W () :=
  w ← get;
  if vn_count w vn <? 0 then panic "vnode_check: negative refcount" else
  if vn_count w vn =? 0 then panic "vnode_check: zero refcount" else mret tt.

Definition VOP_INCREF (vn : Z) : K (vfs W) () := zoom world_lens (vnode_incref vn).
Definition VOP_DECREF (vn : Z) : K (vfs W) () := zoom world_lens (vnode_decref vn).
(** [VOP_*(vn, ...)]: the operation behind the check. *)
Definition VOP {A} (vn : Z) (op : K W A) : K (vfs W) A := zoom world_lens (vnode_check vn;; op).
Definition FSOP {A} (op : K W A) : K (vfs W) A := zoom world_lens op.

(** ** The global lock ([vfslist.c]) *)

Definition vfs_biglock_acquire : K (vfs W) () :=
  s ← get;
  (if negb (lock_do_i_hold me (vfs_biglock s)) then zoom lock_lens (lock_acquire me false)
   else if vfs_biglock_depth s =? 0 then zoom lock_lens (lock_acquire me false)
   else mret tt);;
  modify (fun s => set_depth (u32 (vfs_biglock_depth s + 1)) s).
Definition vfs_biglock_release : K (vfs W) () :=
  s ← get;
  KASSERT (lock_do_i_hold me (vfs_biglock s)) "lock_do_i_hold(vfs_biglock)";;
  KASSERT (0 <? vfs_biglock_depth s) "vfs_biglock_depth > 0";;
  modify (fun s => set_depth (u32 (vfs_biglock_depth s - 1)) s);;
  s ← get;
  if vfs_biglock_depth s =? 0 then _ ← zoom lock_lens (lock_release me); mret tt else mret tt.
Definition vfs_biglock_do_i_hold s : bool := lock_do_i_hold me (vfs_biglock s).
Definition assert_held : K (vfs W) () :=
  s ← get; KASSERT (vfs_biglock_do_i_hold s) "vfs_biglock_do_i_hold()".

(** ** The current directory ([vfscwd.c]) *)

Definition vfs_getcurdir : K (vfs W) (Z * Z) :=
  s ← get;
  match p_cwd s with
  | Some v => VOP_INCREF v;; mret (0, v)
  | None => mret (ENOENT, 0)
  end.
Definition vfs_setcurdir (dir : Z) : K (vfs W) Z :=
  '(result, vtype) ← VOP dir (vop_gettype dir);
  if negb (result =? 0) then mret result else
  if negb (vtype =? S_IFDIR) then mret ENOTDIR else
  VOP_INCREF dir;;
  s ← get;
  let old := p_cwd s in
  modify (set_cwd (Some dir));;
  (match old with Some v => VOP_DECREF v | None => mret tt end);;
  mret 0.
Definition vfs_clearcurdir : K (vfs W) Z :=
  s ← get;
  let old := p_cwd s in
  modify (set_cwd None);;
  (match old with Some v => VOP_DECREF v | None => mret tt end);;
  mret 0.

(** ** Devices ([vfslist.c]) *)

Definition real_fs (kd : knowndev) : option Z := match kd_fs kd with Some (Fs f) => Some f | _ => None end.
(** [p != NULL && !strcmp(p, devname)]. *)
Definition samestring (a b : option (list Z)) : bool :=
  match a, b with Some a, Some b => bool_decide (a = b) | _, _ => false end.
Definition samestring3 (a b c d : option (list Z)) : bool := samestring a b || samestring a c || samestring a d.

(** The loop of [vfs_getroot] over the devices. *)
Fixpoint getroot_loop (l : list knowndev) (devname : list Z) : K (vfs W) (Z * Z) :=
  match l with
  | [] => mret (ENODEV, 0)
  | kd :: l =>
      s ← get;
      let go_on :=
        if bool_decide (kd_name kd = devname) then
          KASSERT (bool_decide (kd_fs kd = None)) "kd->kd_fs==NULL";;
          KASSERT (bool_decide (kd_rawname kd = None)) "kd->kd_rawname==NULL";;
          KASSERT (bool_decide (kd_device kd <> None)) "kd->kd_device != NULL";;
          VOP_INCREF (kd_vnode kd);; mret (0, kd_vnode kd)
        else if samestring (kd_rawname kd) (Some devname) then
          KASSERT (bool_decide (kd_device kd <> None)) "kd->kd_device != NULL";;
          VOP_INCREF (kd_vnode kd);; mret (0, kd_vnode kd)
        else getroot_loop l devname in
      match real_fs kd with
      | Some fs =>
          let volname := fsop_getvolname fs (world s) in
          if bool_decide (kd_name kd = devname) || samestring volname (Some devname) then FSOP (fsop_getroot fs)
          else go_on
      | None =>
          if bool_decide (kd_rawname kd <> None) && bool_decide (kd_name kd = devname) then mret (ENXIO, 0)
          else go_on
      end
  end.
Definition vfs_getroot (devname : list Z) : K (vfs W) (Z * Z) :=
  assert_held;;
  s ← get;
  getroot_loop (knowndevs s) devname.

(** [strcmp] with the name of the file system; the first device with it. *)
Definition vfs_getdevname (fs : Z) : K (vfs W) (option (list Z)) :=
  assert_held;;
  s ← get;
  mret ((fun p => kd_name p.2) <$> list_find (fun kd => kd_fs kd = Some (Fs fs)) (knowndevs s)).

(** ** Path names ([vfslookup.c]) *)

(** The first colon or slash, with its index. *)
Fixpoint find_sep (path : list Z) (i : nat) : option (nat * Z) :=
  match path with
  | [] => None
  | c :: path => if (c =? colon) || (c =? slash) then Some (i, c) else find_sep path (S i)
  end.
Fixpoint skip_slashes (path : list Z) : list Z :=
  match path with
  | [] => []
  | c :: path' => if c =? slash then skip_slashes path' else path
  end.

(** Error code, the rest of the path and the start vnode. *)
Definition getdevice (path : list Z) : K (vfs W) (Z * list Z * Z) :=
  assert_held;;
  match path with
  | [] => mret (EINVAL, [], 0)
  | c :: path1 =>
      let sep := find_sep path O in
      let has_colon := match sep with Some (_, c) => c =? colon | None => false end in
      let slash_first := match sep with Some (O, c) => c =? slash | _ => false end in
      if negb has_colon && negb slash_first then
        '(result, v) ← vfs_getcurdir; mret (result, path, v)
      else
      match sep with
      | Some (S i, _) =>
          let subpath := skip_slashes (drop (S (S i)) path) in
          '(result, v) ← vfs_getroot (take (S i) path); mret (result, subpath, v)
      | _ =>
          '(result, v) ←
            (if c =? slash then
               s ← get;
               match bootfs_vnode s with
               | None => mret (ENOENT, 0)
               | Some v => VOP_INCREF v;; mret (0, v)
               end
             else
               KASSERT (c =? colon) "path[0]==':'";;
               '(result, vn) ← vfs_getcurdir;
               if negb (result =? 0) then mret (result, 0) else
               KASSERT (bool_decide (vn_fs vn <> None)) "vn->vn_fs!=NULL";;
               fs ← deref (vn_fs vn) "vn->vn_fs";
               r ← FSOP (fsop_getroot fs);
               VOP_DECREF vn;;
               mret r : K (vfs W) (Z * Z));
          mret (result, skip_slashes path1, v)
      end
  end.

Definition vfs_lookparent (path : list Z) (buflen : Z) : K (vfs W) (Z * Z * list Z) :=
  vfs_biglock_acquire;;
  '(result, path, startvn) ← getdevice path;
  if negb (result =? 0) then vfs_biglock_release;; mret (result, 0, []) else
  r ← match path with
      | [] => mret (EINVAL, 0, [])
      | _ => VOP startvn (vop_lookparent startvn path buflen)
      end;
  VOP_DECREF startvn;;
  vfs_biglock_release;;
  mret r.

Definition vfs_lookup (path : list Z) : K (vfs W) (Z * Z) :=
  vfs_biglock_acquire;;
  '(result, path, startvn) ← getdevice path;
  if negb (result =? 0) then vfs_biglock_release;; mret (result, 0) else
  match path with
  | [] => vfs_biglock_release;; mret (0, startvn)
  | _ =>
      r ← VOP startvn (vop_lookup startvn path);
      VOP_DECREF startvn;;
      vfs_biglock_release;;
      mret r
  end.

(** [vfscwd.c], by path. *)
Definition vfs_chdir (path : list Z) : K (vfs W) Z :=
  '(result, vn) ← vfs_lookup path;
  if negb (result =? 0) then mret result else
  result ← vfs_setcurdir vn;
  VOP_DECREF vn;;
  mret result.
Definition vfs_getcwd : K (vfs W) Z :=
  '(result, cwd) ← vfs_getcurdir;
  if negb (result =? 0) then mret result else
  KASSERT (bool_decide (vn_fs cwd <> None)) "cwd->vn_fs != NULL";;
  fs ← deref (vn_fs cwd) "cwd->vn_fs";
  s ← get;
  name ← match fsop_getvolname fs (world s) with
         | Some name => mret (Some name)
         | None => vfs_biglock_acquire;; name ← vfs_getdevname fs; vfs_biglock_release;; mret name
         end;
  KASSERT (bool_decide (name <> None)) "name != NULL";;
  name ← deref name "strlen(name)";
  result ← FSOP (w_uiomove name);
  result ← (if negb (result =? 0) then mret result else
    result ← FSOP (w_uiomove [colon]);
    if negb (result =? 0) then mret result else VOP cwd (vop_namefile cwd));
  VOP_DECREF cwd;;
  mret result.

(** [change_bootfs]; the name for [vfs_setbootfs] ends in a colon or gets one. *)
Definition change_bootfs (newvn : option Z) : K (vfs W) () :=
  s ← get;
  let oldvn := bootfs_vnode s in
  modify (set_bootfs newvn);;
  match oldvn with Some v => VOP_DECREF v | None => mret tt end.
Definition vfs_setbootfs (fsname : list Z) : K (vfs W) Z :=
  vfs_biglock_acquire;;
  let tmp := take (Z.to_nat NAME_MAX - 1) fsname in
  if bool_decide (colon ∈ tmp) then vfs_biglock_release;; mret EINVAL else
  result ← vfs_chdir (tmp ++ [colon]);
  if negb (result =? 0) then vfs_biglock_release;; mret result else
  '(result, newguy) ← vfs_getcurdir;
  if negb (result =? 0) then vfs_biglock_release;; mret result else
  change_bootfs (Some newguy);;
  vfs_biglock_release;;
  mret 0.
Definition vfs_clearbootfs : K (vfs W) () :=
  vfs_biglock_acquire;; change_bootfs None;; vfs_biglock_release.

(** ** Operations on path names ([vfspath.c]) *)

Definition vfs_open (path : list Z) (openflags mode : Z) : K (vfs W) (Z * Z) :=
  let how := Z.land openflags O_ACCMODE in
  if negb ((how =? 0) || (how =? 1) || (how =? 2)) then mret (EINVAL, 0) else
  let canwrite := negb (how =? 0) in
  '(result, vn) ←
    (if negb (Z.land openflags O_CREAT =? 0) then
       let excl := negb (Z.land openflags O_EXCL =? 0) in
       '(result, dir, name) ← vfs_lookparent path (NAME_MAX + 1);
       if negb (result =? 0) then mret (result, 0) else
       r ← VOP dir (vop_creat dir name excl mode);
       VOP_DECREF dir;;
       mret r
     else vfs_lookup path : K (vfs W) (Z * Z));
  if negb (result =? 0) then mret (result, 0) else
  result ← VOP vn (vop_eachopen vn openflags);
  if negb (result =? 0) then VOP_DECREF vn;; mret (result, 0) else
  if negb (Z.land openflags O_TRUNC =? 0) then
    result ← (if negb canwrite then mret EINVAL else VOP vn (vop_truncate vn 0));
    if negb (result =? 0) then VOP_DECREF vn;; mret (result, 0) else mret (0, vn)
  else mret (0, vn).

Definition vfs_close (vn : Z) : K (vfs W) () := VOP_DECREF vn.

(** The calls with one directory: [vfs_lookparent], the operation, [VOP_DECREF]. *)
Definition in_parent (path : list Z) (op : Z -> list Z -> K W Z) : K (vfs W) Z :=
  '(result, dir, name) ← vfs_lookparent path (NAME_MAX + 1);
  if negb (result =? 0) then mret result else
  result ← VOP dir (op dir name);
  VOP_DECREF dir;;
  mret result.
Definition vfs_remove (path : list Z) : K (vfs W) Z := in_parent path vop_remove.
Definition vfs_symlink (contents path : list Z) : K (vfs W) Z :=
  in_parent path (fun dir name => vop_symlink dir name contents).
Definition vfs_mkdir (path : list Z) (mode : Z) : K (vfs W) Z :=
  in_parent path (fun dir name => vop_mkdir dir name mode).
Definition vfs_rmdir (path : list Z) : K (vfs W) Z := in_parent path vop_rmdir.

Definition vfs_readlink (path : list Z) : K (vfs W) Z :=
  '(result, vn) ← vfs_lookup path;
  if negb (result =? 0) then mret result else
  result ← VOP vn (vop_readlink vn);
  VOP_DECREF vn;;
  mret result.

(** [a->vn_fs==NULL || b->vn_fs==NULL || a->vn_fs != b->vn_fs]. *)
Definition other_fs (a b : Z) : bool :=
  bool_decide (vn_fs a = None) || bool_decide (vn_fs b = None) || bool_decide (vn_fs a <> vn_fs b).

Definition vfs_rename (oldpath newpath : list Z) : K (vfs W) Z :=
  '(result, olddir, oldname) ← vfs_lookparent oldpath (NAME_MAX + 1);
  if negb (result =? 0) then mret result else
  '(result, newdir, newname) ← vfs_lookparent newpath (NAME_MAX + 1);
  if negb (result =? 0) then VOP_DECREF olddir;; mret result else
  if other_fs olddir newdir then VOP_DECREF newdir;; VOP_DECREF olddir;; mret EXDEV else
  result ← VOP olddir (vop_rename olddir oldname newdir newname);
  VOP_DECREF newdir;;
  VOP_DECREF olddir;;
  mret result.

Definition vfs_link (oldpath newpath : list Z) : K (vfs W) Z :=
  '(result, oldfile) ← vfs_lookup oldpath;
  if negb (result =? 0) then mret result else
  '(result, newdir, newname) ← vfs_lookparent newpath (NAME_MAX + 1);
  if negb (result =? 0) then VOP_DECREF oldfile;; mret result else
  if other_fs oldfile newdir then VOP_DECREF newdir;; VOP_DECREF oldfile;; mret EXDEV else
  result ← VOP newdir (vop_link newdir newname oldfile);
  VOP_DECREF newdir;;
  VOP_DECREF oldfile;;
  mret result.

(** ** The table of devices ([vfslist.c]) *)

Definition raw : list Z := [114; 97; 119].
(** [kmalloc], then [strcpy]. *)
Definition kstrdup (name : list Z) : K (vfs W) (option (list Z)) :=
  ok ← FSOP w_kmalloc; mret (if ok : bool then Some name else None).
Definition mkrawname (name : list Z) : K (vfs W) (option (list Z)) :=
  ok ← FSOP w_kmalloc; mret (if ok : bool then Some (name ++ raw) else None).
Definition dev_create_vnode : K (vfs W) (option Z) :=
  v ← FSOP w_new_vnode;
  match v with None => mret None | Some v => zoom world_lens (vnode_init v);; mret (Some v) end.
Definition dev_uncreate_vnode (vn : Z) : K (vfs W) () := zoom world_lens (vnode_cleanup vn).

(** Does a device or a mounted file system have one of the names? *)
Definition badname (w : W) (n1 n2 n3 : option (list Z)) (kd : knowndev) : bool :=
  match real_fs kd with
  | Some fs => samestring3 (fsop_getvolname fs w) n1 n2 n3
  | None => false
  end || (samestring3 (kd_rawname kd) n1 n2 n3 || samestring3 (Some (kd_name kd)) n1 n2 n3).
Definition badnames (n1 n2 n3 : option (list Z)) : K (vfs W) bool :=
  assert_held;;
  s ← get;
  mret (existsb (badname (world s) n1 n2 n3) (knowndevs s)).

(** The exits of [vfs_doadd] after a failure.  What [kfree] gives back and the number that the
    device gets ([d_devnumber]) are not part of the state here. *)
Definition doadd_fail (vnode : option Z) (result : Z) : K (vfs W) Z :=
  (match vnode with Some v => dev_uncreate_vnode v | None => mret tt end);;
  vfs_biglock_release;;
  mret result.
Definition vfs_doadd (dname : list Z) (mountable : bool) (dev : option Z) (fs : option Z) : K (vfs W) Z :=
  vfs_biglock_acquire;;
  name ← kstrdup dname;
  match name with None => doadd_fail None ENOMEM | Some name =>
  rawname ← (if mountable then r ← mkrawname name; mret (r, negb (bool_decide (r = None))) else mret (None, true)
             : K (vfs W) (option (list Z) * bool));
  if negb rawname.2 then doadd_fail None ENOMEM else
  vnode ← dev_create_vnode;
  match vnode with None => doadd_fail None ENOMEM | Some vnode =>
  ok ← FSOP w_kmalloc;
  if negb ok then doadd_fail (Some vnode) ENOMEM else
  s ← get;
  let volname := match fs with Some f => fsop_getvolname f (world s) | None => None end in
  bad ← badnames (Some name) rawname.1 volname;
  if bad : bool then doadd_fail (Some vnode) EEXIST else
  room ← FSOP w_array_room;
  if negb room then doadd_fail (Some vnode) ENOMEM else
  modify (fun s => set_devs (knowndevs s ++ [Knowndev name rawname.1 dev vnode (Fs <$> fs)]) s);;
  vfs_biglock_release;;
  mret 0
  end end.
Definition vfs_adddev (devname : list Z) (dev : Z) (mountable : bool) : K (vfs W) Z := vfs_doadd devname mountable (Some dev) None.
Definition vfs_addfs (devname : list Z) (fs : Z) : K (vfs W) Z := vfs_doadd devname false None (Some fs).

(** The first mountable device with the name: its index and the device. *)
Definition findmount (devname : list Z) : K (vfs W) (option (nat * knowndev)) :=
  assert_held;;
  s ← get;
  mret (list_find (fun kd => kd_rawname kd <> None /\ devname = kd_name kd) (knowndevs s)).
Definition set_fs (f : option fsref) (kd : knowndev) : knowndev :=
  Knowndev (kd_name kd) (kd_rawname kd) (kd_device kd) (kd_vnode kd) f.
(** [kd->kd_fs = f]. *)
Definition update_fs (i : nat) (f : option fsref) : K (vfs W) () :=
  modify (fun s => set_devs (alter (set_fs f) i (knowndevs s)) s).
Definition leave (result : Z) : K (vfs W) Z := vfs_biglock_release;; mret result.

Definition vfs_mount (devname : list Z) : K (vfs W) Z :=
  vfs_biglock_acquire;;
  found ← findmount devname;
  match found with None => leave ENODEV | Some (i, kd) =>
  if bool_decide (kd_fs kd <> None) then leave EBUSY else
  KASSERT (bool_decide (kd_rawname kd <> None)) "kd->kd_rawname != NULL";;
  KASSERT (bool_decide (kd_device kd <> None)) "kd->kd_device != NULL";;
  dev ← deref (kd_device kd) "kd->kd_device";
  '(result, fs) ← FSOP (w_mountfunc dev);
  if negb (result =? 0) then leave result else
  update_fs i (Some (Fs fs));;
  leave 0
  end.

(** Error code and the vnode of the raw device. *)
Definition vfs_swapon (devname : list Z) : K (vfs W) (Z * Z) :=
  let trailing := bool_decide (last devname = Some colon) in
  ok ← (if trailing then FSOP w_kmalloc else mret true);
  if negb ok then mret (ENOMEM, 0) else
  let devname := if trailing then removelast devname else devname in
  vfs_biglock_acquire;;
  found ← findmount devname;
  match found with None => vfs_biglock_release;; mret (ENODEV, 0) | Some (i, kd) =>
  if bool_decide (kd_fs kd <> None) then vfs_biglock_release;; mret (EBUSY, 0) else
  KASSERT (bool_decide (kd_rawname kd <> None)) "kd->kd_rawname != NULL";;
  KASSERT (bool_decide (kd_device kd <> None)) "kd->kd_device != NULL";;
  update_fs i (Some SWAP_FS);;
  VOP_INCREF (kd_vnode kd);;
  vfs_biglock_release;;
  mret (0, kd_vnode kd)
  end.

Definition vfs_unmount (devname : list Z) : K (vfs W) Z :=
  vfs_biglock_acquire;;
  found ← findmount devname;
  match found with None => leave ENODEV | Some (i, kd) =>
  match real_fs kd with
  | None => leave EINVAL
  | Some fs =>
      KASSERT (bool_decide (kd_rawname kd <> None)) "kd->kd_rawname != NULL";;
      KASSERT (bool_decide (kd_device kd <> None)) "kd->kd_device != NULL";;
      result ← FSOP (fsop_sync fs);
      if negb (result =? 0) then leave result else
      result ← FSOP (fsop_unmount fs);
      if negb (result =? 0) then leave result else
      update_fs i None;;
      leave 0
  end end.

Definition vfs_swapoff (devname : list Z) : K (vfs W) Z :=
  vfs_biglock_acquire;;
  found ← findmount devname;
  match found with None => leave ENODEV | Some (i, kd) =>
  if bool_decide (kd_fs kd <> Some SWAP_FS) then leave EINVAL else
  update_fs i None;;
  leave 0
  end.

(** The loops of [vfs_unmountall] and [vfs_sync], from device [i]; [n] are left. *)
Fixpoint unmountall_loop (n i : nat) : K (vfs W) () :=
  match n with
  | O => mret tt
  | S n =>
      s ← get;
      dev ← deref (knowndevs s !! i) "knowndevarray_get";
      (if bool_decide (kd_rawname dev = None) then mret tt else
       match kd_fs dev with
       | None => mret tt
       | Some SWAP_FS => update_fs i None
       | Some (Fs fs) =>
           result ← FSOP (fsop_sync fs);
           result ← (if negb (result =? 0) then FSOP (fsop_sync fs) else mret result);
           if negb (result =? 0) then mret tt else
           result ← FSOP (fsop_unmount fs);
           if negb (result =? 0) then mret tt else update_fs i None
       end);;
      unmountall_loop n (S i)
  end.
Definition vfs_unmountall : K (vfs W) Z :=
  vfs_biglock_acquire;;
  s ← get;
  unmountall_loop (length (knowndevs s)) 0;;
  leave 0.
Fixpoint sync_loop (l : list knowndev) : K (vfs W) () :=
  match l with
  | [] => mret tt
  | dev :: l =>
      (match real_fs dev with Some fs => _ ← FSOP (fsop_sync fs); mret tt | None => mret tt end);;
      sync_loop l
  end.
Definition vfs_sync : K (vfs W) Z :=
  vfs_biglock_acquire;;
  s ← get;
  sync_loop (knowndevs s);;
  leave 0.
(** ** The calls of the layer

    [do_call] runs one, with the error code and the vnode handed back, if the call hands one back. *)
Inductive call :=
  | Clookup (path : list Z) | Clookparent (path : list Z) (buflen : Z) | Copen (path : list Z) (flags mode : Z) | Cclose (v : Z)
  | Cremove (path : list Z) | Crename (old new : list Z) | Clink (old new : list Z) | Csymlink (contents path : list Z)
  | Creadlink (path : list Z) | Cmkdir (path : list Z) (mode : Z) | Crmdir (path : list Z)
  | Cchdir (path : list Z) | Csetcurdir (v : Z) | Cclearcurdir | Cgetcurdir | Cgetcwd
  | Csetbootfs (name : list Z) | Cclearbootfs
  | Cadddev (name : list Z) (dev : Z) (mountable : bool) | Caddfs (name : list Z) (fs : Z)
  | Cmount (name : list Z) | Cunmount (name : list Z) | Cswapon (name : list Z) | Cswapoff (name : list Z)
  | Cunmountall | Csync.
Definition plain (m : K (vfs W) Z) : K (vfs W) (Z * Z) := e ← m; mret (e, 0).
Definition quiet (m : K (vfs W) ()) : K (vfs W) (Z * Z) := m;; mret (0, 0).
Definition do_call (c : call) : K (vfs W) (Z * Z) :=
  match c with
  | Clookup path => vfs_lookup path
  | Clookparent path n => '(e, v, _) ← vfs_lookparent path n; mret (e, v)
  | Copen path flags mode => vfs_open path flags mode
  | Cclose v => quiet (vfs_close v)
  | Cremove path => plain (vfs_remove path)
  | Crename old new => plain (vfs_rename old new)
  | Clink old new => plain (vfs_link old new)
  | Csymlink contents path => plain (vfs_symlink contents path)
  | Creadlink path => plain (vfs_readlink path)
  | Cmkdir path mode => plain (vfs_mkdir path mode)
  | Crmdir path => plain (vfs_rmdir path)
  | Cchdir path => plain (vfs_chdir path)
  | Csetcurdir v => plain (vfs_setcurdir v)
  | Cclearcurdir => plain vfs_clearcurdir
  | Cgetcurdir => vfs_getcurdir
  | Cgetcwd => plain vfs_getcwd
  | Csetbootfs name => plain (vfs_setbootfs name)
  | Cclearbootfs => quiet vfs_clearbootfs
  | Cadddev name dev m => plain (vfs_adddev name dev m)
  | Caddfs name fs => plain (vfs_addfs name fs)
  | Cmount name => plain (vfs_mount name)
  | Cunmount name => plain (vfs_unmount name)
  | Cswapon name => vfs_swapon name
  | Cswapoff name => plain (vfs_swapoff name)
  | Cunmountall => plain vfs_unmountall
  | Csync => plain vfs_sync
  end.
End ops.
End Vfs.
Import Vfs.

(** ** What file systems promise: the account of references *)

(** References somebody answers for. *)
Definition refs {W} `{FileSystems W} (w : W) (v : Z) : Z := vn_count w v - vn_kept w v.
Definition one (v x : Z) : Z := if x =? v then 1 else 0.
Definition same_refs {W A} `{FileSystems W} (w : W) (_ : A) (w' : W) : Prop := forall x, refs w' x = refs w x.
(** Success hands back one more reference, to a vnode of the file system [f]. *)
Definition handed {W} `{FileSystems W} (f : option Z) (w : W) (e r : Z) (w' : W) : Prop :=
  (forall x, refs w' x = refs w x + (if e =? 0 then one r x else 0)) /\ (e = 0 -> vn_fs r = f).

Class FileSystemLaws (W : Type) `{FileSystems W} := {
  kept_pos (w : W) v : 0 <= vn_kept w v;
  set_count_law v n (w : W) x : vn_count (vn_set_count v n w) x = (if x =? v then n else vn_count w x) /\
    vn_kept (vn_set_count v n w) x = vn_kept w x;
  reclaim_law v (w : W) : vn_count w v = 1 -> 0 < refs w v ->
    wp (vop_reclaim v) (fun _ w' => forall x, refs w' x = refs w x - one v x) w;
  lookup_law v path (w : W) : 0 < refs w v -> wp (vop_lookup v path) (fun r => handed (vn_fs v) w r.1 r.2) w;
  lookparent_law v path n (w : W) : 0 < refs w v -> wp (vop_lookparent v path n) (fun r => handed (vn_fs v) w r.1.1 r.1.2) w;
  creat_law v name excl mode (w : W) : 0 < refs w v -> wp (vop_creat v name excl mode) (fun r => handed (vn_fs v) w r.1 r.2) w;
  getroot_law f (w : W) : wp (fsop_getroot f) (fun r => handed (Some f) w r.1 r.2) w;
  gettype_law v (w : W) : 0 < refs w v ->
    wp (vop_gettype v) (fun r w' => same_refs w r w' /\ (r = (0, S_IFDIR) -> vn_fs v <> None)) w;
  unmount_law f (w : W) : wp (fsop_unmount f) (fun e w' => same_refs w e w' /\
    (e = 0 -> forall v, vn_fs v = Some f -> refs w' v <= 0)) w;
  new_vnode_law (w : W) : wp w_new_vnode (fun r w' => same_refs w r w' /\
    forall v, r = Some v -> vn_count w' v = 0 /\ vn_kept w' v = 0 /\ vn_fs v = None) w;
  mount_law d (w : W) : wp (w_mountfunc d) (same_refs w) w;
  sync_law f (w : W) : wp (fsop_sync f) (same_refs w) w;
  eachopen_law v flags (w : W) : 0 < refs w v -> wp (vop_eachopen v flags) (same_refs w) w;
  truncate_law v n (w : W) : 0 < refs w v -> wp (vop_truncate v n) (same_refs w) w;
  remove_law v name (w : W) : 0 < refs w v -> wp (vop_remove v name) (same_refs w) w;
  rmdir_law v name (w : W) : 0 < refs w v -> wp (vop_rmdir v name) (same_refs w) w;
  mkdir_law v name mode (w : W) : 0 < refs w v -> wp (vop_mkdir v name mode) (same_refs w) w;
  symlink_law v name l (w : W) : 0 < refs w v -> wp (vop_symlink v name l) (same_refs w) w;
  readlink_law v (w : W) : 0 < refs w v -> wp (vop_readlink v) (same_refs w) w;
  namefile_law v (w : W) : 0 < refs w v -> wp (vop_namefile v) (same_refs w) w;
  rename_law v name v' name' (w : W) : 0 < refs w v -> 0 < refs w v' -> wp (vop_rename v name v' name') (same_refs w) w;
  link_law v name v' (w : W) : 0 < refs w v -> 0 < refs w v' -> wp (vop_link v name v') (same_refs w) w;
  uiomove_law l (w : W) : wp (w_uiomove l) (same_refs w) w;
  kmalloc_law (w : W) : wp w_kmalloc (fun _ w' => forall x, vn_count w' x = vn_count w x /\ vn_kept w' x = vn_kept w x) w;
  array_room_law (w : W) : wp w_array_room (fun _ w' => forall x, vn_count w' x = vn_count w x /\ vn_kept w' x = vn_kept w x) w }.

Section facts.
Context {W : Type} {FS : FileSystems W} {FL : FileSystemLaws W} (me : Z).
Implicit Types (s : vfs W) (w : W).

Lemma one_self v : one v v = 1.
Proof. unfold one. by rewrite Z.eqb_refl. Qed.
Lemma one_bound v x : 0 <= one v x <= 1.
Proof. unfold one. destruct (x =? v); lia. Qed.

(** ** References that the VFS layer itself holds *)

Definition opt_held (o : option Z) (v : Z) : Z := match o with Some x => one x v | None => 0 end.
Fixpoint devs_held (l : list knowndev) (v : Z) : Z :=
  match l with [] => 0 | kd :: l => one (kd_vnode kd) v + devs_held l v end.
Definition held s v : Z := opt_held (p_cwd s) v + opt_held (bootfs_vnode s) v + devs_held (knowndevs s) v.
(** Those left for the callers. *)
Definition spare s v : Z := refs (world s) v - held s v.

Definition mounted s f : Prop := exists kd, kd ∈ knowndevs s /\ kd_fs kd = Some (Fs f).
Definition dev_ok (kd : knowndev) : Prop :=
  (kd_rawname kd <> None -> kd_device kd <> None) /\
  (kd_rawname kd = None -> kd_fs kd <> Some SWAP_FS /\ (kd_fs kd = None -> kd_device kd <> None)).

Record ok s : Prop := {
  ok_spare : forall v, 0 <= spare s v;
  ok_cwd : forall v, p_cwd s = Some v -> vn_fs v <> None;
  (** no vnode in use belongs to a file system that is not mounted *)
  ok_mounted : forall v f, vn_fs v = Some f -> 0 < refs (world s) v -> mounted s f;
  ok_table : Forall dev_ok (knowndevs s);
  ok_lock : thread_who_acquired (vfs_biglock s) = (if vfs_biglock_depth s =? 0 then None else Some me);
  ok_depth : 0 <= vfs_biglock_depth s }.

(** A step that changes the callers' account by [δ] and the depth of the lock by [k]. *)
Definition step (δ : Z -> Z) (k : Z) s s' : Prop :=
  ok s' /\ (forall v, spare s' v = spare s v + δ v) /\ vfs_biglock_depth s' = vfs_biglock_depth s + k.
Definition none (_ : Z) : Z := 0.

Lemma step_trans δ1 δ2 δ k1 k2 k s1 s2 s3 : step δ1 k1 s1 s2 -> step δ2 k2 s2 s3 ->
  (forall v, δ v = δ1 v + δ2 v) -> k = k1 + k2 -> step δ k s1 s3.
Proof. intros (_ & H1 & D1) (Hok & H2 & D2) Hd ->. split_and!; [done| |lia]. intros v. rewrite H2, H1, Hd. lia. Qed.
Lemma step_refl s : ok s -> step none 0 s s.
Proof. intros Hok. split_and!; [done| |lia]. intros v. unfold none. lia. Qed.

Lemma spare_refs s v : ok s -> 0 < spare s v -> 0 < refs (world s) v.
Proof.
  intros _ Hs. assert (0 <= held s v); [|unfold spare in Hs; lia].
  unfold held. assert (forall l, 0 <= devs_held l v) as Hl by (induction l as [|kd l IH]; cbn; [lia|]; pose proof (one_bound (kd_vnode kd) v); lia).
  assert (forall o, 0 <= opt_held o v) as Ho by (intros [x|]; cbn; [pose proof (one_bound x v)|]; lia).
  pose proof (Hl (knowndevs s)). pose proof (Ho (p_cwd s)). pose proof (Ho (bootfs_vnode s)). lia.
Qed.
Lemma refs_count w v : 0 < refs w v -> 0 < vn_count w v.
Proof. unfold refs. pose proof (kept_pos w v). lia. Qed.

(** A change of the world that the account knows about. *)
Lemma world_step s w δ : ok s -> (forall v, refs w v = refs (world s) v + δ v) -> (forall v, 0 <= spare s v + δ v) ->
  (forall v f, vn_fs v = Some f -> 0 < δ v -> mounted s f) -> step δ 0 s (set_world w s).
Proof.
  intros [H1 H2 H3 H4 H5 H6] Hr Hp Hm.
  assert (Hsp : forall v, spare (set_world w s) v = spare s v + δ v) by (intros v; unfold spare, held; cbn; rewrite Hr; lia).
  split_and!; [split|done|cbn; lia]; try done.
  - intros v. by rewrite Hsp.
  - intros v f Hf Hpos. cbn in Hpos. rewrite Hr in Hpos.
    destruct (Z.lt_ge_cases 0 (refs (world s) v)); [by apply (H3 v)|]. apply (Hm v); [done|lia].
Qed.
Lemma on_world_wp {A} s (m : K W A) (P : A -> W -> Prop) (Q : A -> vfs W -> Prop) :
  wp m P (world s) -> (forall a w, P a w -> Q a (set_world w s)) -> wp (zoom world_lens m) Q s.
Proof. intros Hm HQ. rewrite wp_zoom. eapply wp_mono; [|exact Hm]. cbv beta. exact HQ. Qed.

Lemma set_count_refs v n w x : refs (vn_set_count v n w) x = (if x =? v then n - vn_kept w v else refs w x).
Proof.
  unfold refs. destruct (set_count_law v n w x) as [-> ->]. destruct (Z.eqb_spec x v) as [->|]; done.
Qed.

Lemma incref_spec s v : ok s -> 0 < refs (world s) v -> wp (VOP_INCREF v) (fun _ => step (one v) 0 s) s.
Proof.
  intros Hok Hr. unfold VOP_INCREF, vnode_incref.
  eapply (on_world_wp _ _ (fun _ w => w = vn_set_count v (vn_count (world s) v + 1) (world s))); [done|].
  intros _ w ->. apply world_step; [done| | |].
  - intros x. rewrite set_count_refs. unfold one, refs. destruct (Z.eqb_spec x v) as [->|]; lia.
  - intros x. pose proof (ok_spare s Hok x). pose proof (one_bound v x). lia.
  - intros x f Hf. unfold one. destruct (Z.eqb_spec x v) as [->|]; [|lia]. intros _. by apply (ok_mounted s Hok v).
Qed.
Lemma decref_spec s v : ok s -> 0 < spare s v -> wp (VOP_DECREF v) (fun _ => step (fun x => - one v x) 0 s) s.
Proof.
  intros Hok Hs. assert (Hr := spare_refs s v Hok Hs). assert (Hc := refs_count _ _ Hr).
  unfold VOP_DECREF, vnode_decref. eapply (on_world_wp _ _ (fun _ w => forall x, refs w x = refs (world s) x - one v x)).
  - wp_simpl. rewrite wp_KASSERT. split; [by apply Z.ltb_lt|]. destruct (Z.ltb_spec 1 (vn_count (world s) v)).
    + rewrite wp_put. intros x. rewrite set_count_refs. unfold one, refs. destruct (Z.eqb_spec x v) as [->|]; lia.
    + rewrite wp_bind. eapply wp_mono; [|apply reclaim_law; [lia|done]]. cbv beta. intros _ w Hw. by rewrite wp_ret.
  - intros _ w Hw. apply world_step; [done| | |].
    + intros x. rewrite Hw. lia.
    + intros x. pose proof (ok_spare s Hok x). unfold one. destruct (Z.eqb_spec x v) as [->|]; lia.
    + intros x f _ Hx. pose proof (one_bound v x). lia.
Qed.
Lemma same_step s w : ok s -> (forall x, refs w x = refs (world s) x) -> step none 0 s (set_world w s).
Proof.
  intros Hok Hw. apply world_step; [done| | |unfold none; lia].
  - intros v. rewrite Hw. unfold none. lia.
  - intros v. pose proof (ok_spare s Hok v). unfold none. lia.
Qed.
Lemma FSOP_spec {A} s (op : K W A) : ok s -> wp op (same_refs (world s)) (world s) -> wp (FSOP op) (fun _ => step none 0 s) s.
Proof. intros Hok Hop. eapply on_world_wp; [exact Hop|]. intros a w Hw. by apply same_step. Qed.
(** An operation on a vnode the caller has a reference to. *)
Lemma VOP_wp {A} s v (op : K W A) P (Q : A -> vfs W -> Prop) : 0 < refs (world s) v -> wp op P (world s) ->
  (forall a w, P a w -> Q a (set_world w s)) -> wp (VOP v op) Q s.
Proof.
  intros Hr Hop HQ. unfold VOP. eapply on_world_wp; [|exact HQ]. rewrite wp_bind. assert (Hc := refs_count _ _ Hr).
  unfold vnode_check. wp_simpl. destruct (Z.ltb_spec (vn_count (world s) v) 0); [lia|]. cbv iota.
  destruct (Z.eqb_spec (vn_count (world s) v) 0); [lia|]. cbv iota. by rewrite wp_ret.
Qed.
Lemma VOP_spec {A} s v (op : K W A) : ok s -> 0 < spare s v ->
  (0 < refs (world s) v -> wp op (same_refs (world s)) (world s)) -> wp (VOP v op) (fun _ => step none 0 s) s.
Proof.
  intros Hok Hs Hop. assert (Hr := spare_refs s v Hok Hs). eapply VOP_wp; [done|by apply Hop|].
  intros a w Hw. by apply same_step.
Qed.

(** An operation that hands back a vnode. *)
Definition gives (e r : Z) : Z -> Z := fun x => if e =? 0 then one r x else 0.
Lemma handed_step s f e r w : ok s -> (forall g, f = Some g -> mounted s g) -> handed f (world s) e r w ->
  step (gives e r) 0 s (set_world w s) /\ (e = 0 -> vn_fs r = f).
Proof.
  intros Hok Hm [Hw Hf]. split; [|done]. apply world_step; [done|done| |]; unfold gives.
  - intros v. pose proof (ok_spare s Hok v). pose proof (one_bound r v). destruct (e =? 0); lia.
  - intros v g Hg. unfold one. destruct (Z.eqb_spec e 0); [|lia]. destruct (Z.eqb_spec v r) as [->|]; [|lia]. intros _.
    apply Hm. by rewrite <-Hf.
Qed.
Lemma fs_mounted s v : ok s -> 0 < refs (world s) v -> forall g, vn_fs v = Some g -> mounted s g.
Proof. intros Hok Hr g Hg. by apply (ok_mounted s Hok v). Qed.

(** Settles the account of the steps made, at the vnode [x]. *)
Ltac open_steps := repeat match goal with H : step _ _ _ _ |- _ => destruct H as (? & ? & ?) end.
Ltac know_one a b :=
  lazymatch goal with _ : 0 <= one a b <= 1 |- _ => fail | _ => pose proof (one_bound a b) end.
Ltac settle x :=
  repeat match goal with
  | H : forall v : Z, spare _ v = _ |- _ => specialize (H x)
  | H : ok _ |- _ => apply ok_spare with (v := x) in H
  end;
  unfold none, gives in *; cbn [fst snd] in *;
  repeat match goal with
  | H : context [?e =? 0] |- _ => destruct (Z.eqb_spec e 0)
  | |- context [?e =? 0] => destruct (Z.eqb_spec e 0)
  end;
  rewrite ?one_self in *;
  repeat match goal with
  | |- context [one ?a ?b] => know_one a b
  | H : context [one ?a ?b] |- _ => know_one a b
  end; lia.
(** The goal [step]: the steps so far add up. *)
Ltac account :=
  open_steps; split; [done|split; [let x := fresh "x" in intros x; settle x|lia]].

(** ** The global lock *)

Lemma lock_free_acquire l : thread_who_acquired l = None -> lock_acquire me false l = Ret tt (Lock (Some me) (lock_wchan l)).
Proof. destruct l as [h wc]. cbn. by intros ->. Qed.
Lemma biglock_acquire_eq s : ok s -> vfs_biglock_depth s + 1 < 2 ^ 32 ->
  vfs_biglock_acquire me s = Ret tt (set_depth (vfs_biglock_depth s + 1) (set_lock (Lock (Some me) (lock_wchan (vfs_biglock s))) s)).
Proof.
  intros [_ _ _ _ Hl Hd] Hb. unfold vfs_biglock_acquire. erewrite bind_eq by reflexivity. unfold lock_do_i_hold at 1.
  revert Hl. destruct (Z.eqb_spec (vfs_biglock_depth s) 0) as [E|E]; intros Hl; rewrite Hl.
  - rewrite bool_decide_false by done. cbn [negb].
    erewrite bind_eq; [|by apply zoom_eq, lock_free_acquire].
    unfold modify. cbn [lset lock_lens set_lock vfs_biglock_depth]. by rewrite u32_small by lia.
  - rewrite bool_decide_true by done. cbn [negb]. erewrite bind_eq by reflexivity. unfold modify. rewrite u32_small by lia.
    destruct s as [w c b l [h wc] d]; cbn in *. by subst h.
Qed.
Lemma acquire_spec s : ok s -> vfs_biglock_depth s + 1 < 2 ^ 32 -> wp (vfs_biglock_acquire me) (fun _ => step none 1 s) s.
Proof.
  intros Hok Hb. erewrite wp_eq by by apply biglock_acquire_eq. destruct Hok. split_and!; [split| |]; try done; cbn; try lia.
  - destruct (Z.eqb_spec (vfs_biglock_depth s + 1) 0); [lia|done].
  - intros v. unfold none, spare, held. cbn. lia.
Qed.
Lemma release_spec s : ok s -> 0 < vfs_biglock_depth s < 2 ^ 32 -> wp (vfs_biglock_release me) (fun _ => step none (-1) s) s.
Proof.
  intros [H1 H2 H3 H4 Hl Hd] Hb. unfold vfs_biglock_release. wp_simpl. rewrite !wp_KASSERT. destruct (Z.eqb_spec (vfs_biglock_depth s) 0); [lia|].
  assert (Hh : lock_do_i_hold me (vfs_biglock s) = true) by (unfold lock_do_i_hold; by apply bool_decide_eq_true).
  split; [done|]. wp_simpl. rewrite wp_KASSERT. split; [apply Z.ltb_lt; lia|]. wp_simpl. rewrite u32_small by lia. cbn [vfs_biglock_depth set_depth].
  destruct (Z.eqb_spec (vfs_biglock_depth s - 1) 0) as [E|E].
  - wp_simpl. rewrite wp_zoom. cbn [lget lock_lens vfs_biglock set_depth]. erewrite wp_eq by (rewrite lock_release_eq, Hh; reflexivity). rewrite wp_ret.
    split_and!; [split| |]; try done; cbn; try lia. { by rewrite E. } intros v. unfold none, spare, held. cbn. lia.
  - rewrite wp_ret. split_and!; [split| |]; try done; cbn; try lia.
    + destruct (Z.eqb_spec (vfs_biglock_depth s - 1) 0); done.
    + intros v. unfold none, spare, held. cbn. lia.
Qed.
Lemma assert_held_eq s : ok s -> 0 < vfs_biglock_depth s -> assert_held me s = Ret tt s.
Proof.
  intros [_ _ _ _ Hl _] Hd. unfold assert_held, vfs_biglock_do_i_hold, lock_do_i_hold. kunfold. rewrite Hl.
  destruct (Z.eqb_spec (vfs_biglock_depth s) 0); [lia|]. by rewrite bool_decide_true.
Qed.

(** ** The current directory and the boot file system *)

Lemma opt_held_refs s v : ok s -> p_cwd s = Some v \/ bootfs_vnode s = Some v \/ (exists kd, kd ∈ knowndevs s /\ kd_vnode kd = v) ->
  0 < refs (world s) v.
Proof.
  intros Hok Hv. pose proof (ok_spare s Hok v) as Hs. unfold spare, held in Hs.
  assert (Hl : forall l, 0 <= devs_held l v) by (intros l; induction l as [|kd l IH]; cbn; [lia|]; pose proof (one_bound (kd_vnode kd) v); lia).
  assert (Ho : forall o, 0 <= opt_held o v) by (intros [x|]; cbn; [pose proof (one_bound x v)|]; lia).
  pose proof (Hl (knowndevs s)). pose proof (Ho (p_cwd s)). pose proof (Ho (bootfs_vnode s)).
  destruct Hv as [Hv|[Hv|(kd & Hk & Hv)]].
  - rewrite Hv in *. cbn in *. rewrite one_self in *. lia.
  - rewrite Hv in *. cbn in *. rewrite one_self in *. lia.
  - assert (1 <= devs_held (knowndevs s) v); [|lia]. clear -Hk Hv Hl. induction Hk as [kd l|kd x l _ IH]; cbn.
    + rewrite Hv, one_self. pose proof (Hl l). lia.
    + specialize (IH Hv). pose proof (one_bound (kd_vnode x) v). lia.
Qed.

Lemma getcurdir_spec s : ok s -> wp vfs_getcurdir (fun r s' => step (gives r.1 r.2) 0 s s' /\
  (r.1 = 0 -> vn_fs r.2 <> None)) s.
Proof.
  intros Hok. unfold vfs_getcurdir. wp_simpl. destruct (p_cwd s) as [v|] eqn:E.
  - rewrite wp_bind. eapply wp_mono; [|apply incref_spec; [done|]; apply opt_held_refs; [done|by left]].
    cbv beta. intros _ s' Hs. rewrite wp_ret. split; [exact Hs|]. intros _. by apply (ok_cwd s Hok).
  - rewrite wp_ret. split; [by apply step_refl|done].
Qed.

(** A step that hands a reference of the caller's to the VFS layer, or takes one back. *)
Lemma set_cwd_step s o : ok s -> (forall v, o = Some v -> vn_fs v <> None /\ 0 < spare s v) ->
  step (fun x => opt_held (p_cwd s) x - opt_held o x) 0 s (set_cwd o s).
Proof.
  intros Hok Ho. pose proof Hok as [H1 H2 H3 H4 H5 H6].
  assert (Hsp : forall v, spare (set_cwd o s) v = spare s v + (opt_held (p_cwd s) v - opt_held o v)) by (intros v; unfold spare, held; cbn; lia).
  split_and!; [split| |cbn; lia]; try done.
  - intros v. rewrite Hsp. pose proof (H1 v). assert (0 <= opt_held (p_cwd s) v) by (destruct (p_cwd s) as [x|]; cbn; [pose proof (one_bound x v)|]; lia).
    destruct o as [x|]; cbn; [|lia]. destruct (Ho x eq_refl). unfold one at 1. destruct (Z.eqb_spec v x) as [->|]; lia.
  - intros v Hv. by apply Ho.
Qed.
Lemma set_bootfs_step s o : ok s -> (forall v, o = Some v -> 0 < spare s v) ->
  step (fun x => opt_held (bootfs_vnode s) x - opt_held o x) 0 s (set_bootfs o s).
Proof.
  intros Hok Ho. pose proof Hok as [H1 H2 H3 H4 H5 H6].
  assert (Hsp : forall v, spare (set_bootfs o s) v = spare s v + (opt_held (bootfs_vnode s) v - opt_held o v)) by (intros v; unfold spare, held; cbn; lia).
  split_and!; [split| |cbn; lia]; try done.
  intros v. rewrite Hsp. pose proof (H1 v). assert (0 <= opt_held (bootfs_vnode s) v) by (destruct (bootfs_vnode s) as [x|]; cbn; [pose proof (one_bound x v)|]; lia).
  destruct o as [x|]; cbn; [|lia]. pose proof (Ho x eq_refl). unfold one at 1. destruct (Z.eqb_spec v x) as [->|]; lia.
Qed.

(** Giving back what the VFS layer held before. *)
Lemma drop_old_spec s o : ok s -> (forall v, o = Some v -> 0 < spare s v) ->
  wp (match o with Some v => VOP_DECREF v | None => mret tt end) (fun _ => step (fun x => - opt_held o x) 0 s) s.
Proof.
  intros Hok Ho. destruct o as [v|]; [by apply decref_spec, Ho|]. rewrite wp_ret. split_and!; [done| |lia]. intros v. cbn. lia.
Qed.

Lemma setcurdir_spec s dir : ok s -> 0 < spare s dir -> wp (vfs_setcurdir dir) (fun _ => step none 0 s) s.
Proof.
  intros Hok Hd. unfold vfs_setcurdir. assert (Hr := spare_refs s dir Hok Hd). rewrite wp_bind.
  eapply VOP_wp; [done|by apply gettype_law|]. intros [e t] w [Hw Ht]. pose proof (same_step s w Hok Hw) as Hs1.
  destruct (Z.eqb_spec e 0) as [->|He]; wp_simpl; [|done]. destruct (Z.eqb_spec t S_IFDIR) as [->|Hn]; wp_simpl; [|done].
  specialize (Ht eq_refl). set (s1 := set_world w s) in *. pose proof Hs1 as (Hok1 & Hsp1 & _).
  assert (Hd1 : 0 < spare s1 dir) by (rewrite Hsp1; unfold none; lia).
  eapply wp_mono; [|by apply incref_spec, spare_refs]. cbv beta. intros _ s2 Hs2. pose proof Hs2 as (Hok2 & Hsp2 & _). wp_simpl.
  assert (Hs3 : step (fun x => opt_held (p_cwd s2) x - opt_held (Some dir) x) 0 s2 (set_cwd (Some dir) s2)).
  { apply set_cwd_step; [done|]. intros v [= <-]. split; [done|]. rewrite Hsp2, one_self. lia. }
  set (s3 := set_cwd (Some dir) s2) in *. pose proof Hs3 as (Hok3 & Hsp3 & _).
  eapply wp_mono; [|apply (drop_old_spec s3 (p_cwd s2)); [done|]].
  - cbv beta. intros _ s4 Hs4. rewrite wp_ret. cbn [opt_held] in *. account.
  - intros v Hv. rewrite Hsp3, Hv. cbn [opt_held]. rewrite one_self.
    destruct (Z.eq_dec v dir) as [->|Hne]; [rewrite one_self, Hsp2, one_self; lia|].
    pose proof (ok_spare s2 Hok2 v). unfold one. destruct (Z.eqb_spec v dir); [done|lia].
Qed.
Lemma clearcurdir_spec s : ok s -> wp vfs_clearcurdir (fun _ => step none 0 s) s.
Proof.
  intros Hok. unfold vfs_clearcurdir. wp_simpl.
  assert (Hs1 : step (fun x => opt_held (p_cwd s) x - opt_held None x) 0 s (set_cwd None s)) by (by apply set_cwd_step).
  set (s1 := set_cwd None s) in *. pose proof Hs1 as (Hok1 & Hsp1 & _). eapply wp_mono; [|apply (drop_old_spec s1 (p_cwd s)); [done|]].
  - cbv beta. intros _ s2 Hs2. rewrite wp_ret. cbn [opt_held] in *. account.
  - intros v Hv. rewrite Hsp1, Hv. cbn [opt_held]. rewrite one_self. pose proof (ok_spare s Hok v). lia.
Qed.
Lemma change_bootfs_spec s o : ok s -> (forall v, o = Some v -> 0 < spare s v) ->
  wp (change_bootfs o) (fun _ => step (fun x => - opt_held o x) 0 s) s.
Proof.
  intros Hok Ho. unfold change_bootfs. wp_simpl. pose proof (set_bootfs_step s o Hok Ho) as Hs1.
  set (s1 := set_bootfs o s) in *. pose proof Hs1 as (Hok1 & Hsp1 & _). eapply wp_mono; [|apply (drop_old_spec s1 (bootfs_vnode s)); [done|]].
  - cbv beta. intros _ s2 Hs2. account.
  - intros v Hv. rewrite Hsp1, Hv. cbn [opt_held]. rewrite one_self. pose proof (ok_spare s Hok v).
    destruct o as [x|]; cbn; [|lia]. pose proof (Ho x eq_refl). unfold one. destruct (Z.eqb_spec v x) as [->|]; lia.
Qed.

(** ** Looking up names *)

Lemma gives_error e r v : e <> 0 -> gives e r v = 0.
Proof. intros He. unfold gives. by destruct (Z.eqb_spec e 0). Qed.
Lemma error_step s e r : ok s -> e <> 0 -> step (gives e r) 0 s s.
Proof. intros Hok He. split_and!; [done| |lia]. intros v. rewrite gives_error by done. lia. Qed.
Lemma spare_kept s s' e r k v : step (gives e r) k s s' -> 0 < spare s v -> 0 < spare s' v.
Proof. intros (_ & Hs & _) Hv. rewrite Hs. unfold gives. pose proof (one_bound r v). destruct (e =? 0); lia. Qed.
Lemma spare_given s s' v k : step (gives 0 v) k s s' -> ok s -> 0 < spare s' v.
Proof. intros (_ & Hs & _) Hok. rewrite Hs. unfold gives. cbn. rewrite one_self. pose proof (ok_spare s Hok v). lia. Qed.
(** Handing out a reference to a vnode of the table. *)
Lemma dev_vnode_spec s kd : ok s -> kd ∈ knowndevs s ->
  wp (VOP_INCREF (kd_vnode kd);; mret (0, kd_vnode kd)) (fun r => step (gives r.1 r.2) 0 s) s.
Proof.
  intros Hok Hk. rewrite wp_bind. eapply wp_mono; [|apply incref_spec; [done|]; apply opt_held_refs; [done|by right; right; exists kd]].
  cbv beta. intros _ s' Hs. by rewrite wp_ret.
Qed.

Lemma getroot_fs_spec s kd f : ok s -> kd ∈ knowndevs s -> real_fs kd = Some f ->
  wp (FSOP (fsop_getroot f)) (fun r => step (gives r.1 r.2) 0 s) s.
Proof.
  intros Hok Hk Hf. eapply on_world_wp; [apply getroot_law|]. intros r w Hw. eapply (handed_step s (Some f)); [done| |done].
  intros g [= <-]. exists kd. split; [done|]. unfold real_fs in Hf. by destruct (kd_fs kd) as [[?|]|]; simplify_eq.
Qed.

Lemma getroot_loop_spec name l s : ok s -> (forall kd, kd ∈ l -> kd ∈ knowndevs s) ->
  wp (getroot_loop l name) (fun r => step (gives r.1 r.2) 0 s) s.
Proof.
  intros Hok. induction l as [|kd l IH]; intros Hl; cbn [getroot_loop].
  - rewrite wp_ret. by apply error_step.
  - assert (Hk : kd ∈ knowndevs s) by (apply Hl; left). assert (IH' := IH (fun kd' H => Hl kd' (list_elem_of_further _ _ _ H))). clear IH.
    pose proof (ok_table s Hok) as Ht. rewrite Forall_forall in Ht. destruct (Ht kd Hk) as [Hraw Hnoraw]. wp_simpl.
    destruct (real_fs kd) as [f|] eqn:Ef.
    + destruct (bool_decide (kd_name kd = name)) eqn:En; cbn [orb]; [by eapply getroot_fs_spec|].
      destruct (samestring (fsop_getvolname f (world s)) (Some name)); [by eapply getroot_fs_spec|].
      destruct (samestring (kd_rawname kd) (Some name)) eqn:Er; [|done].
      rewrite wp_bind, wp_KASSERT. split; [|by apply dev_vnode_spec]. apply bool_decide_eq_true, Hraw. by destruct (kd_rawname kd).
    + destruct (kd_rawname kd) as [raw|] eqn:Eraw.
      * rewrite bool_decide_true by done. destruct (bool_decide (kd_name kd = name)); cbn [andb]; [rewrite wp_ret; by apply error_step|].
        destruct (samestring (Some raw) (Some name)); [|done].
        rewrite wp_bind, wp_KASSERT. split; [|by apply dev_vnode_spec]. apply bool_decide_eq_true, Hraw. done.
      * rewrite bool_decide_false by naive_solver. cbn [andb samestring]. destruct (bool_decide (kd_name kd = name)); [|done].
        destruct (Hnoraw eq_refl) as [Hsw Hdev]. assert (Hnone : kd_fs kd = None).
        { unfold real_fs in Ef. by destruct (kd_fs kd) as [[?|]|]. }
        rewrite wp_bind, wp_KASSERT. split; [by apply bool_decide_eq_true|]. rewrite wp_bind, wp_KASSERT. split; [by apply bool_decide_eq_true|].
        rewrite wp_bind, wp_KASSERT. split; [by apply bool_decide_eq_true, Hdev|]. by apply dev_vnode_spec.
Qed.
Lemma getroot_spec name s : ok s -> 0 < vfs_biglock_depth s -> wp (vfs_getroot me name) (fun r => step (gives r.1 r.2) 0 s) s.
Proof.
  intros Hok Hd. unfold vfs_getroot. rewrite wp_bind. erewrite wp_eq by by apply assert_held_eq. wp_simpl. by apply getroot_loop_spec.
Qed.

Lemma find_sep_first c path j c' : find_sep (c :: path) 0 = Some (j, c') ->
  (c' = colon \/ c' = slash) /\ (j = O -> c' = c).
Proof.
  assert (Hgen : forall l i, find_sep l i = Some (j, c') -> (c' = colon \/ c' = slash) /\ (i <= j)%nat).
  { induction l as [|x l IH]; intros i; cbn; [done|]. destruct ((x =? colon) || (x =? slash)) eqn:E.
    - intros [= <- <-]. apply orb_true_iff in E as [E%Z.eqb_eq|E%Z.eqb_eq]; subst; split; [by left|lia|by right|lia].
    - intros Hf. destruct (IH _ Hf) as [? ?]. split; [done|lia]. }
  intros Hf. split; [by apply (Hgen _ _ Hf)|]. cbn in Hf. destruct ((c =? colon) || (c =? slash)); [by injection Hf|].
  intros ->. apply Hgen in Hf. lia.
Qed.

(** [:path]: the root of the current directory's file system. *)
Lemma current_root_spec s : ok s ->
  wp ('(result, vn) ← vfs_getcurdir;
      if negb (result =? 0) then mret (result, 0) else
      KASSERT (bool_decide (vn_fs vn <> None)) "vn->vn_fs!=NULL";;
      fs ← deref (vn_fs vn) "vn->vn_fs";
      r ← FSOP (fsop_getroot fs);
      VOP_DECREF vn;;
      mret r : K (vfs W) (Z * Z)) (fun r => step (gives r.1 r.2) 0 s) s.
Proof.
  intros Hok. rewrite wp_bind. eapply wp_mono; [|by apply getcurdir_spec]. cbv beta. intros [e v] s1 [Hs1 Hf]. cbn [fst snd] in *.
  destruct (Z.eqb_spec e 0) as [->|He]; cbn [negb].
  2:{ rewrite wp_ret. cbn [fst snd]. account. }
  specialize (Hf eq_refl). pose proof Hs1 as (Hok1 & Hsp1 & _). rewrite wp_bind, wp_KASSERT. split; [by apply bool_decide_eq_true|].
  destruct (vn_fs v) as [f|] eqn:Ef; [|done]. wp_simpl.
  assert (Hv : 0 < spare s1 v) by (eapply spare_given; eassumption).
  eapply on_world_wp; [apply getroot_law|]. intros r w Hw.
  destruct (handed_step s1 (Some f) r.1 r.2 w Hok1) as [Hs2 _]; [intros g [= <-]; by apply (fs_mounted s1 v Hok1 (spare_refs s1 v Hok1 Hv))|done|].
  set (s2 := set_world w s1) in *. pose proof Hs2 as (Hok2 & Hsp2 & _).
  rewrite wp_bind. eapply wp_mono; [|apply decref_spec; [done|eapply spare_kept; eassumption]].
  cbv beta. intros _ s3 Hs3. rewrite wp_ret. cbn [fst snd] in *. account.
Qed.

(** The start vnode, with a reference, or an error. *)
Lemma getdevice_spec path s : ok s -> 0 < vfs_biglock_depth s -> 
  wp (getdevice me path) (fun r => step (gives r.1.1 r.2) 0 s) s.
Proof.
  intros Hok Hd. unfold getdevice. rewrite wp_bind. erewrite wp_eq by by apply assert_held_eq.
  destruct path as [|c path1]; [rewrite wp_ret; by apply error_step|]. cbv zeta.
  assert (Hcur : forall p, wp ('(result, v) ← vfs_getcurdir; mret (result, p, v)) (fun r : Z * list Z * Z => step (gives r.1.1 r.2) 0 s) s).
  { intros p. rewrite wp_bind. eapply wp_mono; [|by apply getcurdir_spec]. cbv beta. intros [e v] s' [Hs _]. by rewrite wp_ret. }
  destruct (find_sep (c :: path1) 0) as [[[|i] c']|] eqn:Ef; [| |apply Hcur].
  - destruct (find_sep_first _ _ _ _ Ef) as [Hc' Hc]. rewrite (Hc eq_refl) in *. clear Hc.
    assert (Hor : negb (c =? colon) && negb (c =? slash) = false) by (destruct Hc' as [->| ->]; done). rewrite Hor. rewrite wp_bind.
    eapply wp_mono with (P := fun r => step (gives r.1 r.2) 0 s); [intros [e v] s' Hs; by rewrite wp_ret|].
    destruct (Z.eqb_spec c slash) as [->|Hns].
    + wp_simpl. destruct (bootfs_vnode s) as [v|] eqn:Eb; [|rewrite wp_ret; by apply error_step].
      rewrite wp_bind. eapply wp_mono; [|apply incref_spec; [done|]; apply opt_held_refs; [done|by right; left]].
      cbv beta. intros _ s' Hs. by rewrite wp_ret.
    + destruct Hc' as [->| ->]; [|done]. rewrite wp_bind, wp_KASSERT. split; [done|]. by apply current_root_spec.
  - destruct (negb (c' =? colon) && negb false); [apply Hcur|]. rewrite wp_bind.
    eapply wp_mono; [|by apply getroot_spec]. cbv beta. intros [e v] s' Hs. by rewrite wp_ret.
Qed.

(** ** [vfs_lookup] and [vfs_lookparent] *)

Lemma VOP_handed {A} s v (op : K W A) (er : A -> Z * Z) : ok s -> 0 < spare s v ->
  (0 < refs (world s) v -> wp op (fun r => handed (vn_fs v) (world s) (er r).1 (er r).2) (world s)) ->
  wp (VOP v op) (fun r => step (gives (er r).1 (er r).2) 0 s) s.
Proof.
  intros Hok Hs Hop. assert (Hr := spare_refs s v Hok Hs). eapply VOP_wp; [done|by apply Hop|].
  intros r w Hw. eapply (handed_step s (vn_fs v)); [done|by apply fs_mounted|done].
Qed.

Lemma lookup_spec path s : ok s -> vfs_biglock_depth s + 1 < 2 ^ 32 ->
  wp (vfs_lookup me path) (fun r => step (gives r.1 r.2) 0 s) s.
Proof.
  intros Hok Hd. unfold vfs_lookup. rewrite wp_bind. eapply wp_mono; [|by apply acquire_spec]. cbv beta. intros _ s1 Hs1.
  pose proof Hs1 as (Hok1 & Hsp1 & Hd1). pose proof (ok_depth s Hok). rewrite wp_bind.
  eapply wp_mono; [|apply getdevice_spec; [done|lia]]. cbv beta. intros [[e p] v] s2 Hs2; cbn [fst snd] in *. pose proof Hs2 as (Hok2 & Hsp2 & Hd2).
  assert (Hrel : forall (r : Z * Z) s3, step (gives r.1 r.2) 1 s s3 ->
    wp (vfs_biglock_release me;; mret r) (fun r => step (gives r.1 r.2) 0 s) s3).
  { intros r s3 Hs3. pose proof Hs3 as (Hok3 & Hsp3 & Hd3). rewrite wp_bind. eapply wp_mono; [|apply release_spec; [done|lia]].
    cbv beta. intros _ s4 Hs4. rewrite wp_ret. account. }
  destruct (Z.eqb_spec e 0) as [->|He]; cbn [negb]; [|apply Hrel; cbn [fst snd]; account].
  destruct p as [|c p]; [apply Hrel; cbn [fst snd]; account|].
  assert (Hv : 0 < spare s2 v) by (eapply spare_given; eassumption).
  rewrite wp_bind. eapply wp_mono; [|apply (VOP_handed s2 v _ (fun r => r)); [done|done|intros; by apply lookup_law]]. cbv beta.
  intros r s3 Hs3. pose proof Hs3 as (Hok3 & Hsp3 & Hd3). rewrite wp_bind. eapply wp_mono; [|apply decref_spec; [done|eapply spare_kept; eassumption]].
  cbv beta. intros _ s4 Hs4. apply Hrel. account.
Qed.

Lemma lookparent_spec path n s : ok s -> vfs_biglock_depth s + 1 < 2 ^ 32 ->
  wp (vfs_lookparent me path n) (fun r => step (gives r.1.1 r.1.2) 0 s) s.
Proof.
  intros Hok Hd. unfold vfs_lookparent. rewrite wp_bind. eapply wp_mono; [|by apply acquire_spec]. cbv beta. intros _ s1 Hs1.
  pose proof Hs1 as (Hok1 & Hsp1 & Hd1). pose proof (ok_depth s Hok). rewrite wp_bind.
  eapply wp_mono; [|apply getdevice_spec; [done|lia]]. cbv beta. intros [[e p] v] s2 Hs2; cbn [fst snd] in *. pose proof Hs2 as (Hok2 & Hsp2 & Hd2).
  assert (Hrel : forall (r : Z * Z * list Z) s3, step (gives r.1.1 r.1.2) 1 s s3 ->
    wp (vfs_biglock_release me;; mret r) (fun r => step (gives r.1.1 r.1.2) 0 s) s3).
  { intros r s3 Hs3. pose proof Hs3 as (Hok3 & Hsp3 & Hd3). rewrite wp_bind. eapply wp_mono; [|apply release_spec; [done|lia]].
    cbv beta. intros _ s4 Hs4. rewrite wp_ret. account. }
  destruct (Z.eqb_spec e 0) as [->|He]; cbn [negb]; [|apply Hrel; cbn [fst snd]; account].
  assert (Hv : 0 < spare s2 v) by (eapply spare_given; eassumption).
  rewrite wp_bind. eapply wp_mono with (P := fun r => step (gives r.1.1 r.1.2) 0 s2).
  - intros r s3 Hs3. pose proof Hs3 as (Hok3 & Hsp3 & Hd3). rewrite wp_bind. eapply wp_mono; [|apply decref_spec; [done|eapply spare_kept; eassumption]].
    cbv beta. intros _ s4 Hs4. apply Hrel. account.
  - destruct p as [|c p]; [rewrite wp_ret; by apply error_step|].
    apply (VOP_handed s2 v _ fst); [done|done|intros; by apply lookparent_law].
Qed.

(** ** Calls that use a reference and give it back *)

Lemma drop_spec {A} s v (r : A) : ok s -> 0 < spare s v -> wp (VOP_DECREF v;; mret r) (fun r' s' => r' = r /\ step (fun x => - one v x) 0 s s') s.
Proof. intros Hok Hv. rewrite wp_bind. eapply wp_mono; [|by apply decref_spec]. cbv beta. intros _ s' Hs. by rewrite wp_ret. Qed.
Lemma use_drop_spec {A} s v (op : K W A) : ok s -> 0 < spare s v -> (0 < refs (world s) v -> wp op (same_refs (world s)) (world s)) ->
  wp (r ← VOP v op; VOP_DECREF v;; mret r) (fun _ => step (fun x => - one v x) 0 s) s.
Proof.
  intros Hok Hv Hop. rewrite wp_bind. eapply wp_mono; [|by apply VOP_spec]. cbv beta. intros r s1 Hs1. pose proof Hs1 as (Hok1 & Hsp1 & _).
  eapply wp_mono; [|apply drop_spec; [done|rewrite Hsp1; unfold none; lia]]. cbv beta. intros _ s2 [_ Hs2]. account.
Qed.

Lemma in_parent_spec path op s : ok s -> vfs_biglock_depth s + 1 < 2 ^ 32 ->
  (forall v name w, 0 < refs w v -> wp (op v name) (same_refs w) w) -> wp (in_parent me path op) (fun _ => step none 0 s) s.
Proof.
  intros Hok Hd Hop. unfold in_parent. rewrite wp_bind. eapply wp_mono; [|by apply lookparent_spec]. cbv beta.
  intros [[e v] name] s1 Hs1; cbn [fst snd] in *. pose proof Hs1 as (Hok1 & Hsp1 & _).
  destruct (Z.eqb_spec e 0) as [->|He]; cbn [negb]; [|rewrite wp_ret; account].
  eapply wp_mono; [|apply use_drop_spec; [done|eapply spare_given; eassumption|by apply Hop]]. cbv beta. intros r s2 Hs2. account.
Qed.
Lemma readlink_spec path s : ok s -> vfs_biglock_depth s + 1 < 2 ^ 32 -> wp (vfs_readlink me path) (fun _ => step none 0 s) s.
Proof.
  intros Hok Hd. unfold vfs_readlink. rewrite wp_bind. eapply wp_mono; [|by apply lookup_spec]. cbv beta.
  intros [e v] s1 Hs1; cbn [fst snd] in *. pose proof Hs1 as (Hok1 & Hsp1 & _).
  destruct (Z.eqb_spec e 0) as [->|He]; cbn [negb]; [|rewrite wp_ret; account].
  eapply wp_mono; [|apply use_drop_spec; [done|eapply spare_given; eassumption|by apply readlink_law]]. cbv beta. intros r s2 Hs2. account.
Qed.
Lemma chdir_spec path s : ok s -> vfs_biglock_depth s + 1 < 2 ^ 32 -> wp (vfs_chdir me path) (fun _ => step none 0 s) s.
Proof.
  intros Hok Hd. unfold vfs_chdir. rewrite wp_bind. eapply wp_mono; [|by apply lookup_spec]. cbv beta.
  intros [e v] s1 Hs1; cbn [fst snd] in *. pose proof Hs1 as (Hok1 & Hsp1 & _).
  destruct (Z.eqb_spec e 0) as [->|He]; cbn [negb]; [|rewrite wp_ret; account].
  assert (Hv : 0 < spare s1 v) by (eapply spare_given; eassumption). rewrite wp_bind.
  eapply wp_mono; [|by apply setcurdir_spec]. cbv beta. intros e2 s2 Hs2. pose proof Hs2 as (Hok2 & Hsp2 & _).
  eapply wp_mono; [|apply drop_spec; [done|rewrite Hsp2; unfold none; lia]]. cbv beta. intros _ s3 [_ Hs3]. account.
Qed.

(** The end of [vfs_rename] and [vfs_link]: two references are given back. *)
Lemma drop_two_spec s a b (r : Z) : ok s -> 0 < spare s a -> (forall s', step (fun x => - one a x) 0 s s' -> 0 < spare s' b) ->
  wp (VOP_DECREF a;; VOP_DECREF b;; mret r) (fun _ => step (fun x => - one a x - one b x) 0 s) s.
Proof.
  intros Hok Ha Hb. rewrite wp_bind. eapply wp_mono; [|by apply decref_spec]. cbv beta. intros _ s1 Hs1. pose proof Hs1 as (Hok1 & _ & _).
  eapply wp_mono; [|apply drop_spec; [done|by apply Hb]]. cbv beta. intros _ s2 [_ Hs2]. account.
Qed.
Lemma two_refs_spec s s1 s2 a b (e : Z) (op : K W Z) : ok s -> step (gives 0 a) 0 s s1 -> step (gives 0 b) 0 s1 s2 ->
  (0 < refs (world s2) a -> 0 < refs (world s2) b -> wp op (same_refs (world s2)) (world s2)) ->
  wp (VOP_DECREF b;; VOP_DECREF a;; mret e) (fun _ => step none 0 s) s2 /\
  wp (r ← VOP a op; VOP_DECREF b;; VOP_DECREF a;; mret r) (fun _ => step none 0 s) s2 /\
  wp (r ← VOP b op; VOP_DECREF b;; VOP_DECREF a;; mret r) (fun _ => step none 0 s) s2.
Proof.
  intros Hok Hs1 Hs2 Hop. pose proof Hs1 as (Hok1 & Hsp1 & _). pose proof Hs2 as (Hok2 & Hsp2 & _).
  assert (Hb : 0 < spare s2 b) by (eapply spare_given; eassumption).
  assert (Ha : 0 < spare s2 a) by (eapply spare_kept; [eassumption|]; eapply spare_given; eassumption).
  assert (Hra := spare_refs s2 a Hok2 Ha). assert (Hrb := spare_refs s2 b Hok2 Hb).
  assert (Hdrop : forall (r : Z) s3, step none 0 s2 s3 -> wp (VOP_DECREF b;; VOP_DECREF a;; mret r) (fun _ => step none 0 s) s3).
  { intros r s3 Hs3. pose proof Hs3 as (Hok3 & Hsp3 & _).
    eapply wp_mono; [|apply (drop_two_spec s3 b a r); [done|rewrite Hsp3; unfold none; lia|]].
    - cbv beta. intros _ s4 Hs4. account.
    - intros s4 (_ & Hsp4 & _). rewrite Hsp4, Hsp3, Hsp2, Hsp1. unfold gives, none. cbn. rewrite one_self.
      pose proof (ok_spare s Hok a). lia. }
  split_and!; [by apply Hdrop, step_refl| |]; rewrite wp_bind; (eapply wp_mono; [|apply VOP_spec; [done|done|auto]]);
    cbv beta; intros r s3 Hs3; by apply Hdrop.
Qed.

Lemma rename_spec old new s : ok s -> vfs_biglock_depth s + 1 < 2 ^ 32 -> wp (vfs_rename me old new) (fun _ => step none 0 s) s.
Proof.
  intros Hok Hd. unfold vfs_rename. rewrite wp_bind. eapply wp_mono; [|by apply lookparent_spec]. cbv beta.
  intros [[e a] na] s1 Hs1; cbn [fst snd] in *. pose proof Hs1 as (Hok1 & Hsp1 & Hd1).
  destruct (Z.eqb_spec e 0) as [->|He]; cbn [negb]; [|rewrite wp_ret; account].
  rewrite wp_bind. eapply wp_mono; [|apply lookparent_spec; [done|lia]]. cbv beta.
  intros [[e b] nb] s2 Hs2; cbn [fst snd] in *. pose proof Hs2 as (Hok2 & Hsp2 & Hd2).
  destruct (Z.eqb_spec e 0) as [->|He]; cbn [negb].
  2:{ eapply wp_mono; [|apply drop_spec; [done|eapply spare_kept; [eassumption|]; eapply spare_given; eassumption]].
      cbv beta. intros _ s3 [_ Hs3]. account. }
  destruct (two_refs_spec s s1 s2 a b EXDEV (vop_rename a na b nb) Hok Hs1 Hs2) as (H1 & H2 & _); [intros; by apply rename_law|].
  by destruct (other_fs a b).
Qed.
Lemma link_call_spec old new s : ok s -> vfs_biglock_depth s + 1 < 2 ^ 32 -> wp (vfs_link me old new) (fun _ => step none 0 s) s.
Proof.
  intros Hok Hd. unfold vfs_link. rewrite wp_bind. eapply wp_mono; [|by apply lookup_spec]. cbv beta.
  intros [e a] s1 Hs1; cbn [fst snd] in *. pose proof Hs1 as (Hok1 & Hsp1 & Hd1).
  destruct (Z.eqb_spec e 0) as [->|He]; cbn [negb]; [|rewrite wp_ret; account].
  rewrite wp_bind. eapply wp_mono; [|apply lookparent_spec; [done|lia]]. cbv beta.
  intros [[e b] nb] s2 Hs2; cbn [fst snd] in *. pose proof Hs2 as (Hok2 & Hsp2 & Hd2).
  destruct (Z.eqb_spec e 0) as [->|He]; cbn [negb].
  2:{ eapply wp_mono; [|apply drop_spec; [done|eapply spare_kept; [eassumption|]; eapply spare_given; eassumption]].
      cbv beta. intros _ s3 [_ Hs3]. account. }
  destruct (two_refs_spec s s1 s2 a b EXDEV (vop_link b nb a) Hok Hs1 Hs2) as (H1 & _ & H3); [intros; by apply link_law|].
  by destruct (other_fs a b).
Qed.

Lemma open_spec path flags mode s : ok s -> vfs_biglock_depth s + 1 < 2 ^ 32 ->
  wp (vfs_open me path flags mode) (fun r => step (gives r.1 r.2) 0 s) s.
Proof.
  intros Hok Hd. unfold vfs_open. destruct (negb _); [rewrite wp_ret; by apply error_step|]. cbv zeta. rewrite wp_bind.
  eapply wp_mono with (P := fun r => step (gives r.1 r.2) 0 s).
  - intros [e v] s1 Hs1; cbn [fst snd] in *. pose proof Hs1 as (Hok1 & Hsp1 & _).
    destruct (Z.eqb_spec e 0) as [->|He]; cbn [negb]; [|rewrite wp_ret; cbn [fst snd]; account].
    assert (Hv : 0 < spare s1 v) by (eapply spare_given; eassumption).
    assert (Hdrop : forall (e : Z) s2, e <> 0 -> step none 0 s1 s2 -> wp (VOP_DECREF v;; mret (e, 0)) (fun r => step (gives r.1 r.2) 0 s) s2).
    { intros e s2 He Hs2. pose proof Hs2 as (Hok2 & Hsp2 & _).
      eapply wp_mono; [|apply drop_spec; [done|rewrite Hsp2; unfold none; lia]]. cbv beta. intros r s3 [-> Hs3]. cbn [fst snd]. account. }
    rewrite wp_bind. eapply wp_mono; [|apply VOP_spec; [done|done|intros; by apply eachopen_law]]. cbv beta. intros e s2 Hs2.
    pose proof Hs2 as (Hok2 & Hsp2 & _). destruct (Z.eqb_spec e 0) as [->|He]; cbn [negb]; [|by apply Hdrop].
    destruct (negb (Z.land flags O_TRUNC =? 0)); [|rewrite wp_ret; cbn [fst snd]; account].
    rewrite wp_bind. eapply wp_mono with (P := fun _ => step none 0 s2).
    + intros e s3 Hs3. destruct (Z.eqb_spec e 0) as [->|He]; cbn [negb]; [rewrite wp_ret; cbn [fst snd]; account|].
      apply Hdrop; [done|]. account.
    + destruct (negb (negb _)); [rewrite wp_ret; by apply step_refl|]. apply VOP_spec; [done|rewrite Hsp2; unfold none; lia|].
      intros. by apply truncate_law.
  - destruct (negb (Z.land flags O_CREAT =? 0)); [|by apply lookup_spec]. rewrite wp_bind.
    eapply wp_mono; [|by apply lookparent_spec]. cbv beta. intros [[e d] name] s1 Hs1; cbn [fst snd] in *. pose proof Hs1 as (Hok1 & Hsp1 & _).
    destruct (Z.eqb_spec e 0) as [->|He]; cbn [negb]; [|rewrite wp_ret; cbn [fst snd]; account].
    assert (Hv : 0 < spare s1 d) by (eapply spare_given; eassumption). rewrite wp_bind.
    eapply wp_mono; [|apply (VOP_handed s1 d _ (fun r => r)); [done|done|intros; by apply creat_law]]. cbv beta. intros r s2 Hs2.
    pose proof Hs2 as (Hok2 & Hsp2 & _). eapply wp_mono; [|apply drop_spec; [done|eapply spare_kept; eassumption]].
    cbv beta. intros r' s3 [-> Hs3]. account.
Qed.

(** The name of a mounted file system is found. *)
Lemma getdevname_spec s f : ok s -> 0 < vfs_biglock_depth s -> mounted s f ->
  wp (vfs_getdevname me f) (fun r s' => s' = s /\ r <> None) s.
Proof.
  intros Hok Hd (kd & Hk & Hf). unfold vfs_getdevname. rewrite wp_bind. erewrite wp_eq by by apply assert_held_eq. wp_simpl. split; [done|].
  destruct (list_find_elem_of (fun kd => kd_fs kd = Some (Fs f)) (knowndevs s) kd Hk Hf) as [x ->]. done.
Qed.

Lemma getcwd_spec s : ok s -> vfs_biglock_depth s + 1 < 2 ^ 32 -> wp (vfs_getcwd me) (fun _ => step none 0 s) s.
Proof.
  intros Hok Hd. unfold vfs_getcwd. rewrite wp_bind. eapply wp_mono; [|by apply getcurdir_spec]. cbv beta.
  intros [e v] s1 [Hs1 Hf]; cbn [fst snd] in *. pose proof Hs1 as (Hok1 & Hsp1 & Hd1).
  destruct (Z.eqb_spec e 0) as [->|He]; cbn [negb]; [|rewrite wp_ret; account]. specialize (Hf eq_refl).
  assert (Hv : 0 < spare s1 v) by (eapply spare_given; eassumption).
  rewrite wp_bind, wp_KASSERT. split; [by apply bool_decide_eq_true|]. destruct (vn_fs v) as [f|] eqn:Ef; [|done]. wp_simpl.
  eapply wp_mono with (P := fun name s2 => step none 0 s1 s2 /\ name <> None).
  - intros name s2 [Hs2 Hname]. pose proof Hs2 as (Hok2 & Hsp2 & _). rewrite wp_bind, wp_KASSERT. split; [by apply bool_decide_eq_true|].
    destruct name as [name|]; [|done]. wp_simpl. eapply wp_mono; [|apply FSOP_spec; [done|apply uiomove_law]]. cbv beta. intros e s3 Hs3.
    pose proof Hs3 as (Hok3 & Hsp3 & _). rewrite wp_bind. eapply wp_mono with (P := fun _ => step none 0 s3).
    + intros e' s4 Hs4. pose proof Hs4 as (Hok4 & Hsp4 & _). rewrite wp_bind. eapply wp_mono; [|apply decref_spec; [done|rewrite Hsp4, Hsp3, Hsp2; unfold none; lia]].
      cbv beta. intros _ s5 Hs5. rewrite wp_ret. account.
    + destruct (Z.eqb_spec e 0) as [->|He]; cbn [negb]; [|rewrite wp_ret; by apply step_refl]. rewrite wp_bind.
      eapply wp_mono; [|apply FSOP_spec; [done|apply uiomove_law]]. cbv beta. intros e s4 Hs4. pose proof Hs4 as (Hok4 & Hsp4 & _).
      destruct (Z.eqb_spec e 0) as [->|He]; cbn [negb]; [|by rewrite wp_ret].
      eapply wp_mono; [|apply VOP_spec; [done|rewrite Hsp4, Hsp3, Hsp2; unfold none; lia|intros; by apply namefile_law]].
      cbv beta. intros e' s5 Hs5. account.
  - destruct (fsop_getvolname f (world s1)) as [name|]; [rewrite wp_ret; split; [by apply step_refl|done]|]. rewrite wp_bind.
    eapply wp_mono; [|apply acquire_spec; [done|lia]]. cbv beta. intros _ s2 Hs2. pose proof Hs2 as (Hok2 & Hsp2 & Hd2). pose proof (ok_depth s1 Hok1).
    assert (Hm : mounted s2 f).
    { apply (ok_mounted s2 Hok2 v f Ef), spare_refs; [done|]. rewrite Hsp2. unfold none. lia. }
    rewrite wp_bind. eapply wp_mono; [|apply getdevname_spec; [done|lia|done]]. cbv beta. intros name s3 [-> Hname]. rewrite wp_bind.
    eapply wp_mono; [|apply release_spec; [done|lia]]. cbv beta. intros _ s4 Hs4. rewrite wp_ret. split; [account|done].
Qed.

Lemma setbootfs_spec name s : ok s -> vfs_biglock_depth s + 2 < 2 ^ 32 -> wp (vfs_setbootfs me name) (fun _ => step none 0 s) s.
Proof.
  intros Hok Hd. pose proof (ok_depth s Hok). unfold vfs_setbootfs. rewrite wp_bind. eapply wp_mono; [|apply acquire_spec; [done|lia]]. cbv beta.
  intros _ s1 Hs1. pose proof Hs1 as (Hok1 & Hsp1 & Hd1).
  assert (Hrel : forall (e : Z) s2, step none 1 s s2 -> wp (vfs_biglock_release me;; mret e) (fun _ => step none 0 s) s2).
  { intros e s2 Hs2. pose proof Hs2 as (Hok2 & Hsp2 & Hd2). rewrite wp_bind. eapply wp_mono; [|apply release_spec; [done|lia]].
    cbv beta. intros _ s3 Hs3. rewrite wp_ret. account. }
  destruct (bool_decide _); [by apply Hrel|]. rewrite wp_bind. eapply wp_mono; [|apply chdir_spec; [done|lia]]. cbv beta. intros e s2 Hs2.
  pose proof Hs2 as (Hok2 & Hsp2 & Hd2). destruct (Z.eqb_spec e 0) as [->|He]; cbn [negb]; [|apply Hrel; account]. rewrite wp_bind.
  eapply wp_mono; [|by apply getcurdir_spec]. cbv beta. intros [e v] s3 [Hs3 _]; cbn [fst snd] in *. pose proof Hs3 as (Hok3 & Hsp3 & Hd3).
  destruct (Z.eqb_spec e 0) as [->|He]; cbn [negb]; [|apply Hrel; account]. rewrite wp_bind.
  eapply wp_mono; [|apply change_bootfs_spec; [done|]].
  - cbv beta. intros _ s4 Hs4. cbn [opt_held] in Hs4. apply Hrel. account.
  - intros x [= <-]. eapply spare_given; eassumption.
Qed.
Lemma clearbootfs_spec s : ok s -> vfs_biglock_depth s + 1 < 2 ^ 32 -> wp (vfs_clearbootfs me) (fun _ => step none 0 s) s.
Proof.
  intros Hok Hd. pose proof (ok_depth s Hok). unfold vfs_clearbootfs. rewrite wp_bind. eapply wp_mono; [|by apply acquire_spec]. cbv beta.
  intros _ s1 Hs1. pose proof Hs1 as (Hok1 & Hsp1 & Hd1). rewrite wp_bind. eapply wp_mono; [|by apply change_bootfs_spec]. cbv beta.
  intros _ s2 Hs2. pose proof Hs2 as (Hok2 & Hsp2 & Hd2). cbn [opt_held] in *. eapply wp_mono; [|apply release_spec; [done|lia]].
  cbv beta. intros _ s3 Hs3. account.
Qed.

(** ** The table of devices *)

Definition same_table s s' : Prop := knowndevs s' = knowndevs s.
Definition tstep δ k s s' : Prop := step δ k s s' /\ same_table s s'.

Lemma acquire_table s : ok s -> vfs_biglock_depth s + 1 < 2 ^ 32 -> wp (vfs_biglock_acquire me) (fun _ => tstep none 1 s) s.
Proof.
  intros Hok Hb. pose proof (acquire_spec s Hok Hb) as Hs. unfold wp in *. by rewrite biglock_acquire_eq in *.
Qed.
Lemma release_table s : ok s -> 0 < vfs_biglock_depth s < 2 ^ 32 -> wp (vfs_biglock_release me) (fun _ => tstep none (-1) s) s.
Proof.
  intros Hok Hb. assert (Hk : wlp (vfs_biglock_release me) (fun _ => same_table s) s).
  { unfold vfs_biglock_release. wlp_simpl. rewrite wlp_KASSERT. intros _. wlp_simpl. rewrite wlp_KASSERT. intros _. wlp_simpl.
    destruct (_ =? 0); wlp_simpl; [|done]. apply (keeps_zoom (same_table s)); [|done]. intros s1 t. done. }
  pose proof (release_spec s Hok Hb) as Hs. unfold wp, wlp in *. by destruct (vfs_biglock_release me s).
Qed.
Lemma FSOP_table {A} s (op : K W A) (P : A -> W -> Prop) : ok s -> wp op (fun a w => P a w /\ same_refs (world s) a w) (world s) ->
  wp (FSOP op) (fun a s' => P a (world s') /\ tstep none 0 s s') s.
Proof. intros Hok Hop. eapply on_world_wp; [exact Hop|]. intros a w [Hp Hw]. split; [done|]. split; [by apply same_step|done]. Qed.
Lemma tstep_trans δ1 δ2 δ k1 k2 k s1 s2 s3 : tstep δ1 k1 s1 s2 -> tstep δ2 k2 s2 s3 ->
  (forall v, δ v = δ1 v + δ2 v) -> k = k1 + k2 -> tstep δ k s1 s3.
Proof. intros [H1 E1] [H2 E2] Hd Hk. split; [by eapply step_trans|]. unfold same_table in *. congruence. Qed.

Definition names_of (kd : knowndev) : list (list Z) := kd_name kd :: option_list (kd_rawname kd).
(** No name is used twice. *)
Definition names_unique (l : list knowndev) : Prop :=
  forall i j kd kd' n, l !! i = Some kd -> l !! j = Some kd' -> n ∈ names_of kd -> n ∈ names_of kd' -> i = j.

Lemma names_alter l i f : names_unique l -> names_unique (alter (set_fs f) i l).
Proof.
  intros Hu a b kd kd' n Ha Hb Hn Hn'.
  assert (Hback : forall j x, alter (set_fs f) i l !! j = Some x -> exists y, l !! j = Some y /\ names_of x = names_of y).
  { intros j x Hx. destruct (decide (i = j)) as [->|Hij].
    - rewrite list_lookup_alter_eq in Hx. destruct (l !! j) as [y|]; [|done]. injection Hx as <-. by exists y.
    - rewrite list_lookup_alter_ne in Hx by done. by exists x. }
  destruct (Hback _ _ Ha) as (y & Hy & Ey), (Hback _ _ Hb) as (y' & Hy' & Ey'). rewrite Ey in Hn. rewrite Ey' in Hn'. by eapply Hu.
Qed.

Lemma devs_held_alter l i f v : devs_held (alter (set_fs f) i l) v = devs_held l v.
Proof. revert i. induction l as [|kd l IH]; intros [|i]; cbn; [done..|]. by rewrite IH. Qed.

Lemma update_fs_step s i kd f : ok s -> knowndevs s !! i = Some kd -> kd_rawname kd <> None ->
  (forall g v, kd_fs kd = Some (Fs g) -> vn_fs v = Some g -> refs (world s) v <= 0) ->
  step none 0 s (set_devs (alter (set_fs f) i (knowndevs s)) s).
Proof.
  intros [H1 H2 H3 H4 H5 H6] Hi Hr Hg.
  assert (Hsp : forall v, spare (set_devs (alter (set_fs f) i (knowndevs s)) s) v = spare s v).
  { intros v. unfold spare, held. cbn. by rewrite devs_held_alter. }
  split_and!; [split| |cbn; lia]; try done.
  - intros v. by rewrite Hsp.
  - intros v g Hv Hp. destruct (H3 v g Hv Hp) as (kd' & [j Hj]%list_elem_of_lookup & Hf). destruct (decide (i = j)) as [->|Hij].
    + assert (kd' = kd) as -> by congruence. specialize (Hg g v Hf Hv). cbn in Hp. lia.
    + exists kd'. split; [|done]. cbn. apply list_elem_of_lookup. exists j. by rewrite list_lookup_alter_ne.
  - cbn. apply Forall_lookup. intros j x Hx. destruct (decide (i = j)) as [->|Hij].
    + rewrite list_lookup_alter_eq, Hi in Hx. injection Hx as <-. rewrite Forall_lookup in H4. destruct (H4 j kd Hi) as [Hd _].
      split; [exact Hd|]. cbn. done.
    + rewrite list_lookup_alter_ne in Hx by done. rewrite Forall_lookup in H4. by apply (H4 j).
  - intros v. rewrite Hsp. unfold none. lia.
Qed.

(** [findmount]: the mountable device with the name, if there is one. *)
Definition mountable (l : list knowndev) (i : nat) (kd : knowndev) (name : list Z) : Prop :=
  l !! i = Some kd /\ kd_rawname kd <> None /\ kd_name kd = name.
Lemma findmount_eq s i kd name : ok s -> 0 < vfs_biglock_depth s -> names_unique (knowndevs s) -> mountable (knowndevs s) i kd name ->
  findmount me name s = Ret (Some (i, kd)) s.
Proof.
  intros Hok Hd Hu (Hi & Hr & Hn). unfold findmount. erewrite bind_eq by by apply assert_held_eq. erewrite bind_eq by reflexivity.
  unfold mret, K_ret. f_equal. apply list_find_Some. split_and!; [done|done|done|]. intros j y Hj Hlt [_ Hy].
  assert (j = i); [|lia]. apply (Hu j i y kd name); [done|done|rewrite Hy; left|rewrite <-Hn; left].
Qed.
Lemma findmount_none s name : ok s -> 0 < vfs_biglock_depth s -> (forall i kd, ~ mountable (knowndevs s) i kd name) ->
  findmount me name s = Ret None s.
Proof.
  intros Hok Hd Hn. unfold findmount. erewrite bind_eq by by apply assert_held_eq. erewrite bind_eq by reflexivity.
  unfold mret, K_ret. f_equal. apply list_find_None, Forall_lookup. intros i kd Hi [Hr E]. by destruct (Hn i kd).
Qed.

(** The last act of the calls on the table. *)
Lemma leave_spec s s' (P : vfs W -> Prop) δ e : step δ 1 s s' -> 0 <= vfs_biglock_depth s -> vfs_biglock_depth s + 1 < 2 ^ 32 ->
  (forall s'', knowndevs s'' = knowndevs s' -> P s'') ->
  wp (leave me e) (fun r s'' => r = e /\ step δ 0 s s'' /\ P s'') s'.
Proof.
  intros Hs H0 Hb HP. pose proof Hs as (Hok & Hsp & Hd). unfold leave. rewrite wp_bind. eapply wp_mono; [|apply release_table; [done|lia]].
  cbv beta. intros _ s2 [Hs2 Ht]. rewrite wp_ret. split_and!; [done|account|by apply HP].
Qed.

Section one_device.
Context (s : vfs W) (i : nat) (kd : knowndev) (name : list Z).
Context (Hok : ok s) (Hd : vfs_biglock_depth s + 1 < 2 ^ 32) (Hu : names_unique (knowndevs s)) (Hm : mountable (knowndevs s) i kd name).

(** Enters, and finds the device. *)
Lemma entered {A} (k : option (nat * knowndev) -> K (vfs W) A) (Q : A -> vfs W -> Prop) :
  (forall s1, tstep none 1 s s1 -> wp (k (Some (i, kd))) Q s1) ->
  wp (vfs_biglock_acquire me;; found ← findmount me name; k found) Q s.
Proof using All.
  intros Hk. pose proof (ok_depth s Hok). rewrite wp_bind. eapply wp_mono; [|by apply acquire_table]. cbv beta. intros _ s1 Hs1.
  pose proof Hs1 as [(Hok1 & _ & Hd1) Ht1]. unfold same_table in Ht1. rewrite wp_bind.
  erewrite wp_eq by (apply (findmount_eq s1 i kd name); [done|lia|by rewrite Ht1|by rewrite Ht1]). by apply Hk.
Qed.
(** Sets [kd_fs] and leaves. *)
Lemma set_and_leave s1 f δ (e : Z) : step δ 1 s s1 -> knowndevs s1 = knowndevs s ->
  (forall g v, kd_fs kd = Some (Fs g) -> vn_fs v = Some g -> refs (world s1) v <= 0) ->
  wp (update_fs i f;; leave me e) (fun r s' => r = e /\ step δ 0 s s' /\ knowndevs s' = alter (set_fs f) i (knowndevs s)) s1.
Proof using All.
  intros Hs1 Ht1 Hg. pose proof Hs1 as (Hok1 & _). destruct Hm as (Hi & Hr & Hn).
  assert (Hs2 := update_fs_step s1 i kd f Hok1 ltac:(by rewrite Ht1) Hr Hg). unfold update_fs. wp_simpl. set (s2 := set_devs _ _) in *.
  apply leave_spec; [account|by apply Hok|done|]. intros s3 ->. cbn. by rewrite Ht1.
Qed.
Lemma has_device : kd_device kd <> None.
Proof using All.
  pose proof (ok_table s Hok) as Ht. rewrite Forall_lookup in Ht. destruct Hm as (Hi & Hr & _). exact (proj1 (Ht i kd Hi) Hr).
Qed.

Lemma mount_spec : wp (vfs_mount me name) (fun e s' => step none 0 s s' /\
  (kd_fs kd <> None -> e = EBUSY) /\ (e <> 0 -> same_table s s') /\
  (e = 0 -> kd_fs kd = None /\ exists f, knowndevs s' = alter (set_fs (Some (Fs f))) i (knowndevs s))) s.
Proof using All.
  apply entered. intros s1 [Hs1 Ht1]. pose proof (ok_depth s Hok). pose proof Hs1 as (Hok1 & _ & Hd1).
  destruct (decide (kd_fs kd = None)) as [Hf|Hf].
  2:{ rewrite bool_decide_true by done. eapply wp_mono; [|by apply (leave_spec s s1 (fun s' => same_table s s') none EBUSY); [..|intros s2 E; unfold same_table in *; congruence]].
      cbv beta. intros e s2 (-> & Hs2 & Ht2). by split_and!. }
  rewrite bool_decide_false by naive_solver. destruct Hm as (Hi & Hr & Hn). pose proof has_device as Hdev.
  rewrite wp_bind, wp_KASSERT. split; [by apply bool_decide_eq_true|]. rewrite wp_bind, wp_KASSERT. split; [by apply bool_decide_eq_true|].
  destruct (kd_device kd) as [dev|]; [|done]. wp_simpl.
  eapply wp_mono; [|apply (FSOP_table s1 _ (fun _ _ => True)); [done|]; eapply wp_mono; [|apply mount_law]; done].
  cbv beta. intros [e f] s2 [_ [Hs2 Ht2]]. assert (Ht : same_table s s2) by (unfold same_table in *; congruence).
  pose proof Hs2 as (Hok2 & Hsp2 & Hd2). assert (Hs : step none 1 s s2) by account.
  destruct (Z.eqb_spec e 0) as [->|He]; cbn [negb].
  - eapply wp_mono; [|apply (set_and_leave s2 (Some (Fs f)) none 0 Hs Ht); intros g v Eg; congruence].
    cbv beta. intros e s3 (-> & Hs3 & Ht3). split_and!; [done|done|done|]. intros _. split; [done|by exists f].
  - eapply wp_mono; [|by apply (leave_spec s s2 (fun s' => same_table s s') none e); [..|intros s3 E; unfold same_table in *; congruence]].
    cbv beta. intros e' s3 (-> & Hs3 & Ht3). by split_and!.
Qed.

Lemma unmount_spec : wp (vfs_unmount me name) (fun e s' => step none 0 s s' /\
  (real_fs kd = None -> e = EINVAL) /\ (e <> 0 -> same_table s s') /\
  (e = 0 -> real_fs kd <> None /\ knowndevs s' = alter (set_fs None) i (knowndevs s))) s.
Proof using All.
  apply entered. intros s1 [Hs1 Ht1]. pose proof (ok_depth s Hok). pose proof Hs1 as (Hok1 & _ & Hd1).
  assert (Hleave : forall e s2, e <> 0 -> step none 1 s s2 -> same_table s s2 -> (real_fs kd = None -> e = EINVAL) ->
    wp (leave me e) (fun e s' => step none 0 s s' /\ (real_fs kd = None -> e = EINVAL) /\ (e <> 0 -> same_table s s') /\
      (e = 0 -> real_fs kd <> None /\ knowndevs s' = alter (set_fs None) i (knowndevs s))) s2).
  { intros e s2 He Hs2 Ht2 Hinv. eapply wp_mono; [|by apply (leave_spec s s2 (fun s' => same_table s s') none e); [..|intros s3 E; unfold same_table in *; congruence]].
    cbv beta. intros e' s3 (-> & Hs3 & Ht3). by split_and!. }
  destruct (real_fs kd) as [f|] eqn:Ef; [|by apply Hleave].
  assert (Hf : kd_fs kd = Some (Fs f)) by (unfold real_fs in Ef; by destruct (kd_fs kd) as [[?|]|]; simplify_eq).
  destruct Hm as (Hi & Hr & Hn). pose proof has_device as Hdev.
  rewrite wp_bind, wp_KASSERT. split; [by apply bool_decide_eq_true|]. rewrite wp_bind, wp_KASSERT. split; [by apply bool_decide_eq_true|].
  rewrite wp_bind. eapply wp_mono; [|apply (FSOP_table s1 _ (fun _ _ => True)); [done|]; eapply wp_mono; [|apply sync_law]; done].
  cbv beta. intros e s2 [_ [Hs2 Ht2]]. pose proof Hs2 as (Hok2 & Hsp2 & Hd2). assert (Ht : same_table s s2) by (unfold same_table in *; congruence).
  destruct (Z.eqb_spec e 0) as [->|He]; cbn [negb]; [|apply Hleave; [done|account|done|done]].
  rewrite wp_bind. eapply wp_mono; [|apply (FSOP_table s2 _ (fun e w => e = 0 -> forall v, vn_fs v = Some f -> refs w v <= 0)); [done|];
    eapply wp_mono; [|apply unmount_law]; cbv beta; intros e w [Hw Hv]; by split].
  cbv beta. intros e s3 [Hv [Hs3 Ht3]]. pose proof Hs3 as (Hok3 & Hsp3 & Hd3). assert (Ht' : same_table s s3) by (unfold same_table in *; congruence).
  destruct (Z.eqb_spec e 0) as [->|He]; cbn [negb]; [|apply Hleave; [done|account|done|done]].
  assert (Hs : step none 1 s s3) by account.
  eapply wp_mono; [|apply (set_and_leave s3 None none 0 Hs Ht'); intros g v Eg; assert (g = f) as -> by congruence; by apply Hv].
  cbv beta. intros e s4 (-> & Hs4 & Ht4). by split_and!.
Qed.

Lemma swapoff_spec : wp (vfs_swapoff me name) (fun e s' => step none 0 s s' /\
  (kd_fs kd <> Some SWAP_FS -> e = EINVAL) /\ (e <> 0 -> same_table s s') /\
  (kd_fs kd = Some SWAP_FS -> e = 0 /\ knowndevs s' = alter (set_fs None) i (knowndevs s))) s.
Proof using All.
  apply entered. intros s1 [Hs1 Ht1]. pose proof (ok_depth s Hok). destruct (decide (kd_fs kd = Some SWAP_FS)) as [Hf|Hf].
  - rewrite bool_decide_false by naive_solver.
    eapply wp_mono; [|apply (set_and_leave s1 None none 0 Hs1 Ht1); intros g v Eg; congruence].
    cbv beta. intros e s2 (-> & Hs2 & Ht2). by split_and!.
  - rewrite bool_decide_true by done.
    eapply wp_mono; [|by apply (leave_spec s s1 (fun s' => same_table s s') none EINVAL); [..|intros s2 E; unfold same_table in *; congruence]].
    cbv beta. intros e s2 (-> & Hs2 & Ht2). by split_and!.
Qed.
End one_device.

Lemma kmalloc_same w : wp w_kmalloc (fun _ w' => True /\ same_refs w tt w') w.
Proof. eapply wp_mono; [|apply kmalloc_law]. cbv beta. intros _ w' Hw. split; [done|]. intros x. unfold refs. destruct (Hw x) as [-> ->]. done. Qed.

(** The device a swap name means: a trailing colon is dropped. *)
Definition swap_name (dname : list Z) : list Z := if bool_decide (last dname = Some colon) then removelast dname else dname.
Lemma swapon_spec s i kd dname : ok s -> vfs_biglock_depth s + 1 < 2 ^ 32 -> names_unique (knowndevs s) ->
  mountable (knowndevs s) i kd (swap_name dname) ->
  wp (vfs_swapon me dname) (fun r s' => step (gives r.1 r.2) 0 s s' /\
    (kd_fs kd <> None -> r.1 <> 0) /\ (r.1 <> 0 -> same_table s s') /\
    (r.1 = 0 -> r.2 = kd_vnode kd /\ knowndevs s' = alter (set_fs (Some SWAP_FS)) i (knowndevs s))) s.
Proof.
  intros Hok Hd Hu Hm. pose proof (ok_depth s Hok). unfold vfs_swapon. fold (swap_name dname). rewrite wp_bind.
  eapply wp_mono with (P := fun _ s1 => tstep none 0 s s1).
  2:{ destruct (bool_decide _); [|rewrite wp_ret; split; [by apply step_refl|done]].
      eapply wp_mono; [|apply (FSOP_table s _ (fun _ _ => True)); [done|apply kmalloc_same]]. by intros ? s1 [_ ?]. }
  cbv beta. intros room s0 [Hs0 Ht0]. pose proof Hs0 as (Hok0 & Hsp0 & Hd0).
  assert (Herr : forall e s2, e <> 0 -> step none 0 s s2 -> same_table s s2 ->
    wp (mret (e, 0)) (fun (r : Z * Z) s' => step (gives r.1 r.2) 0 s s' /\ (kd_fs kd <> None -> r.1 <> 0) /\ (r.1 <> 0 -> same_table s s') /\
      (r.1 = 0 -> r.2 = kd_vnode kd /\ knowndevs s' = alter (set_fs (Some SWAP_FS)) i (knowndevs s))) s2).
  { intros e s2 He Hs2 Ht2. rewrite wp_ret. cbn [fst snd]. split_and!; [account|done|done|done]. }
  destruct room; cbn [negb]; [|by apply Herr].
  apply (entered s0 i kd (swap_name dname) Hok0 ltac:(lia) ltac:(by rewrite Ht0) ltac:(by rewrite Ht0)). intros s1 [Hs1 Ht1].
  pose proof Hs1 as (Hok1 & Hsp1 & Hd1). assert (Ht : same_table s s1) by (unfold same_table in *; congruence).
  destruct (decide (kd_fs kd = None)) as [Hf|Hf].
  2:{ rewrite bool_decide_true by done. rewrite wp_bind. eapply wp_mono; [|apply release_table; [done|lia]]. cbv beta. intros _ s2 [Hs2 Ht2].
      apply Herr; [done|account|unfold same_table in *; congruence]. }
  rewrite bool_decide_false by naive_solver. pose proof Hm as (Hi & Hr & Hn).
  assert (Hdev : kd_device kd <> None) by (eapply (has_device s i kd (swap_name dname)); [done|lia|done|done]).
  rewrite wp_bind, wp_KASSERT. split; [by apply bool_decide_eq_true|]. rewrite wp_bind, wp_KASSERT. split; [by apply bool_decide_eq_true|].
  assert (Hs2 := update_fs_step s1 i kd (Some SWAP_FS) Hok1 ltac:(by rewrite Ht) Hr ltac:(intros; congruence)).
  unfold update_fs. wp_simpl. set (s2 := set_devs _ _) in *. pose proof Hs2 as (Hok2 & Hsp2 & Hd2).
  assert (Hin : exists kd', kd' ∈ knowndevs s2 /\ kd_vnode kd' = kd_vnode kd).
  { exists (set_fs (Some SWAP_FS) kd). split; [|done]. apply list_elem_of_lookup. exists i. cbn. rewrite Ht, list_lookup_alter_eq, Hi. done. }
  assert (Hinc := incref_spec s2 (kd_vnode kd) Hok2 (opt_held_refs s2 _ Hok2 (or_intror (or_intror Hin)))).
  assert (Htab : wlp (VOP_INCREF (kd_vnode kd)) (fun _ => same_table s2) s2) by done.
  eapply wp_mono with (P := fun _ s3 => step (one (kd_vnode kd)) 0 s2 s3 /\ same_table s2 s3).
  2:{ unfold wp, wlp in *. by destruct (VOP_INCREF (kd_vnode kd) s2). }
  cbv beta. intros _ s3 [Hs3 Ht3]. pose proof Hs3 as (Hok3 & Hsp3 & Hd3). wp_simpl.
  eapply wp_mono; [|apply release_table; [done|lia]]. cbv beta. intros _ s4 [Hs4 Ht4]. cbn [fst snd].
  split; [account|split; [done|split; [done|]]]. intros _. split; [done|]. unfold same_table in *. rewrite Ht4, Ht3. cbn. by rewrite Ht.
Qed.

(** Without such a device every call answers [ENODEV]. *)
Lemma no_device {A} s name (k : option (nat * knowndev) -> K (vfs W) A) (Q : A -> vfs W -> Prop) :
  ok s -> vfs_biglock_depth s + 1 < 2 ^ 32 -> (forall i kd, ~ mountable (knowndevs s) i kd name) ->
  (forall s1, tstep none 1 s s1 -> wp (k None) Q s1) ->
  wp (vfs_biglock_acquire me;; found ← findmount me name; k found) Q s.
Proof.
  intros Hok Hd Hn Hk. pose proof (ok_depth s Hok). rewrite wp_bind. eapply wp_mono; [|by apply acquire_table]. cbv beta. intros _ s1 Hs1.
  pose proof Hs1 as [(Hok1 & _ & Hd1) Ht1]. unfold same_table in Ht1. rewrite wp_bind.
  erewrite wp_eq by (apply findmount_none; [done|lia|by rewrite Ht1]). by apply Hk.
Qed.
Lemma leave_enodev s s1 : ok s -> vfs_biglock_depth s + 1 < 2 ^ 32 -> tstep none 1 s s1 ->
  wp (leave me ENODEV) (fun e s' => e = ENODEV /\ step none 0 s s' /\ same_table s s') s1.
Proof.
  intros Hok Hd [Hs1 Ht1]. pose proof (ok_depth s Hok). apply leave_spec; [done|done|done|].
  intros s2 E. unfold same_table in *. congruence.
Qed.

(** ** Adding devices *)

Definition no_clash (l : list knowndev) (ns : list (list Z)) : Prop :=
  forall kd n, kd ∈ l -> n ∈ names_of kd -> n ∉ ns.

Lemma samestring3_false a b c d : samestring3 (Some a) b c d = false -> Some a <> b /\ Some a <> c.
Proof.
  unfold samestring3, samestring. intros [[H1 H2]%orb_false_iff _]%orb_false_iff.
  split; intros <-; by rewrite bool_decide_true in *.
Qed.
Lemma badnames_clash w name raw vol l : existsb (badname w (Some name) raw vol) l = false -> no_clash l (name :: option_list raw).
Proof.
  intros He kd n Hk Hn Hin. assert (Hb : badname w (Some name) raw vol kd = false).
  { destruct (badname w (Some name) raw vol kd) eqn:E; [|done]. rewrite <-He. symmetry. apply existsb_exists. exists kd.
    split; [by apply list_elem_of_In|done]. }
  unfold badname in Hb. apply orb_false_iff in Hb as [_ [Hr Hm]%orb_false_iff].
  assert (Hall : forall m, m ∈ names_of kd -> Some m <> Some name /\ Some m <> raw).
  { intros m [->|Hm']%elem_of_cons; [by apply samestring3_false in Hm|]. destruct (kd_rawname kd) as [r|]; [|by apply elem_of_nil in Hm'].
    apply list_elem_of_singleton in Hm' as ->. by apply samestring3_false in Hr. }
  destruct (Hall n Hn) as [H1 H2]. apply elem_of_cons in Hin as [->|Hin]; [done|]. destruct raw as [r|]; [|by apply elem_of_nil in Hin].
  apply list_elem_of_singleton in Hin as ->. done.
Qed.
Lemma names_add l kd : names_unique l -> no_clash l (names_of kd) -> names_unique (l ++ [kd]).
Proof.
  intros Hu Hc i j x y n Hi Hj Hx Hy.
  assert (Hcase : forall k z, (l ++ [kd]) !! k = Some z -> l !! k = Some z \/ k = length l /\ z = kd).
  { intros k z Hk. destruct (decide (k < length l)%nat); [left; by rewrite lookup_app_l in Hk|right].
    rewrite lookup_app_r in Hk by lia. apply list_lookup_singleton_Some in Hk as [? ->]. split; [lia|done]. }
  destruct (Hcase i x Hi) as [Hi'|[-> ->]], (Hcase j y Hj) as [Hj'|[-> ->]]; [by eapply Hu| | |done].
  - exfalso. eapply (Hc x n); [by eapply list_elem_of_lookup_2|done|done].
  - exfalso. eapply (Hc y n); [by eapply list_elem_of_lookup_2|done|done].
Qed.
Lemma devs_held_app l kd v : devs_held (l ++ [kd]) v = devs_held l v + one (kd_vnode kd) v.
Proof. induction l as [|x l IH]; cbn; [lia|]. rewrite IH. lia. Qed.

Lemma add_dev_step s kd : ok s -> dev_ok kd -> 0 < spare s (kd_vnode kd) ->
  step (fun v => - one (kd_vnode kd) v) 0 s (set_devs (knowndevs s ++ [kd]) s).
Proof.
  intros [H1 H2 H3 H4 H5 H6] Hk Hv.
  assert (Hsp : forall v, spare (set_devs (knowndevs s ++ [kd]) s) v = spare s v + - one (kd_vnode kd) v).
  { intros v. unfold spare, held. cbn. rewrite devs_held_app. lia. }
  split_and!; [split| |cbn; lia]; try done.
  - intros v. rewrite Hsp. pose proof (H1 v). unfold one. destruct (Z.eqb_spec v (kd_vnode kd)) as [->|]; lia.
  - intros v f Hf Hp. destruct (H3 v f Hf Hp) as (x & Hx & Hxf). exists x. split; [|done]. cbn. apply elem_of_app. by left.
  - cbn. apply Forall_app. split; [done|]. by apply Forall_singleton.
Qed.

Lemma room_table s (op : K W bool) : ok s ->
  wp op (fun _ w => forall x, vn_count w x = vn_count (world s) x /\ vn_kept w x = vn_kept (world s) x) (world s) ->
  wp (FSOP op) (fun _ s' => (forall x, vn_count (world s') x = vn_count (world s) x) /\ tstep none 0 s s') s.
Proof.
  intros Hok Hop. eapply wp_mono; [|apply (FSOP_table s op (fun _ w => forall x, vn_count w x = vn_count (world s) x)); [done|]].
  - done.
  - eapply wp_mono; [|exact Hop]. cbv beta. intros b w Hw. split; [intros x; apply Hw|]. intros x. unfold refs. by destruct (Hw x) as [-> ->].
Qed.
Lemma kstrdup_spec s n : ok s -> wp (kstrdup n) (fun r s' => (r = None \/ r = Some n) /\ tstep none 0 s s') s.
Proof.
  intros Hok. unfold kstrdup. rewrite wp_bind. eapply wp_mono; [|apply room_table; [done|apply kmalloc_law]]. cbv beta.
  intros r s' [_ Hs]. rewrite wp_ret. split; [|done]. destruct r; [by right|by left].
Qed.
Lemma mkrawname_spec s n : ok s -> wp (mkrawname n) (fun r s' => (r = None \/ r = Some (n ++ raw)) /\ tstep none 0 s s') s.
Proof. exact (kstrdup_spec s (n ++ raw)). Qed.

(** A new vnode comes with the caller's only reference. *)
Lemma create_vnode_spec s : ok s -> wp dev_create_vnode (fun r s' =>
  match r with
  | None => tstep none 0 s s'
  | Some v => tstep (one v) 0 s s' /\ vn_count (world s') v = 1
  end) s.
Proof.
  intros Hok. unfold dev_create_vnode. rewrite wp_bind.
  eapply wp_mono; [|apply (FSOP_table s _ (fun r w => forall v, r = Some v -> vn_count w v = 0 /\ vn_kept w v = 0 /\ vn_fs v = None)); [done|];
    eapply wp_mono; [|apply new_vnode_law]; cbv beta; intros r w [H1 H2]; by split].
  cbv beta. intros [v|] s1 [Hv [Hs1 Ht1]]; [|by rewrite wp_ret]. destruct (Hv v eq_refl) as (Hc & Hk & Hf). pose proof Hs1 as (Hok1 & Hsp1 & Hd1).
  rewrite wp_bind. eapply (on_world_wp _ _ (fun _ w => w = vn_set_count v 1 (world s1))); [done|]. intros _ w ->. rewrite wp_ret.
  assert (Hs2 : step (one v) 0 s1 (set_world (vn_set_count v 1 (world s1)) s1)).
  { apply world_step; [done| | |].
    - intros x. rewrite set_count_refs. unfold one, refs. destruct (Z.eqb_spec x v) as [->|]; lia.
    - intros x. pose proof (ok_spare s1 Hok1 x). pose proof (one_bound v x). lia.
    - intros x f Hx. unfold one. destruct (Z.eqb_spec x v) as [->|]; [congruence|lia]. }
  split; [split; [account|done]|]. cbn. destruct (set_count_law v 1 (world s1) v) as [-> _]. by rewrite Z.eqb_refl.
Qed.
Lemma uncreate_vnode_spec s v : ok s -> 0 < spare s v -> vn_count (world s) v = 1 ->
  wp (dev_uncreate_vnode v) (fun _ => tstep (fun x => - one v x) 0 s) s.
Proof.
  intros Hok Hs Hc. assert (Hr := spare_refs s v Hok Hs). unfold dev_uncreate_vnode, vnode_cleanup.
  eapply (on_world_wp _ _ (fun _ w => w = vn_set_count v 0 (world s))).
  - wp_simpl. rewrite wp_KASSERT. split; [by apply Z.eqb_eq|]. by rewrite wp_put.
  - intros _ w ->. pose proof (kept_pos (world s) v). unfold refs in Hr. split; [|done]. apply world_step; [done| | |].
    + intros x. rewrite set_count_refs. unfold one, refs. destruct (Z.eqb_spec x v) as [->|]; lia.
    + intros x. pose proof (ok_spare s Hok x). unfold one. destruct (Z.eqb_spec x v) as [->|]; lia.
    + intros x f _ Hx. pose proof (one_bound v x). lia.
Qed.
Lemma doadd_fail_spec s s1 o e : tstep (fun x => opt_held o x) 1 s s1 -> ok s -> vfs_biglock_depth s + 1 < 2 ^ 32 ->
  (forall v, o = Some v -> vn_count (world s1) v = 1) ->
  wp (doadd_fail me o e) (fun r s' => r = e /\ step none 0 s s' /\ same_table s s') s1.
Proof.
  intros [Hs1 Ht1] Hok Hd Hc. pose proof (ok_depth s Hok). pose proof Hs1 as (Hok1 & Hsp1 & Hd1). unfold doadd_fail. rewrite wp_bind.
  eapply wp_mono with (P := fun _ s2 => tstep none 1 s s2).
  - intros _ s2 [Hs2 Ht2]. apply leave_spec; [done|done|done|]. intros s3 E. unfold same_table in *. congruence.
  - destruct o as [v|]; cbn [opt_held] in *; [|by rewrite wp_ret].
    eapply wp_mono; [|apply uncreate_vnode_spec; [done| |by apply Hc]].
    + cbv beta. intros _ s2 [Hs2 Ht2]. split; [account|]. unfold same_table in *. congruence.
    + rewrite Hsp1, one_self. pose proof (ok_spare s Hok v). lia.
Qed.

(** The entry that [vfs_doadd] makes. *)
Definition new_dev (dname : list Z) (mountable : bool) (dev fs : option Z) (v : Z) : knowndev :=
  Knowndev dname (if mountable then Some (dname ++ raw) else None) dev v (Fs <$> fs).
Lemma doadd_spec s dname mountable dev fs : ok s -> vfs_biglock_depth s + 1 < 2 ^ 32 ->
  dev <> None \/ (mountable = false /\ fs <> None) ->
  wp (vfs_doadd me dname mountable dev fs) (fun e s' => step none 0 s s' /\
    (e = 0 \/ (e = ENOMEM \/ e = EEXIST) /\ same_table s s') /\
    (e = 0 -> exists v, knowndevs s' = knowndevs s ++ [new_dev dname mountable dev fs v] /\
      no_clash (knowndevs s) (names_of (new_dev dname mountable dev fs v)))) s.
Proof.
  intros Hok Hd Hdev. pose proof (ok_depth s Hok). unfold vfs_doadd. rewrite wp_bind. eapply wp_mono; [|by apply acquire_table]. cbv beta.
  intros _ s1 H1. pose proof H1 as [(Hok1 & _ & _) _].
  assert (Hfail : forall o e s2, tstep (fun x => opt_held o x) 1 s s2 -> (forall v, o = Some v -> vn_count (world s2) v = 1) -> e = ENOMEM \/ e = EEXIST ->
    wp (doadd_fail me o e) (fun e s' => step none 0 s s' /\ (e = 0 \/ (e = ENOMEM \/ e = EEXIST) /\ same_table s s') /\
    (e = 0 -> exists v, knowndevs s' = knowndevs s ++ [new_dev dname mountable dev fs v] /\
      no_clash (knowndevs s) (names_of (new_dev dname mountable dev fs v)))) s2).
  { intros o e s2 H2 Hc He. eapply wp_mono; [|by apply (doadd_fail_spec s)]. cbv beta. intros r s3 (-> & Hs3 & Ht3).
    split; [done|]. split; [by right|]. intros ->. by destruct He. }
  rewrite wp_bind. eapply wp_mono; [|by apply kstrdup_spec]. cbv beta. intros r s2 [Hr [Hs2 Ht2]].
  assert (H2 : tstep none 1 s s2) by (eapply tstep_trans; [exact H1|by split|done|done]). pose proof Hs2 as (Hok2 & _).
  destruct Hr as [->| ->]; [by apply Hfail; [..|left]|]. rewrite wp_bind.
  eapply wp_mono with (P := fun r s3 => tstep none 1 s s3 /\ (r.2 = true -> r.1 = if mountable then Some (dname ++ raw) else None)).
  2:{ destruct mountable; [|rewrite wp_ret; split; [exact H2|done]]. rewrite wp_bind. eapply wp_mono; [|by apply mkrawname_spec]. cbv beta.
      intros r s3 [Hr [Hs3 Ht3]]. rewrite wp_ret. split; [by eapply tstep_trans|]. cbn [fst snd]. by destruct Hr as [->| ->]. }
  clear H1 H2 Hok1 Hok2 Hs2 Ht2 s1 s2. cbv beta. intros [rawname got] s3 [H3 Hraw]; cbn [fst snd] in *.
  pose proof H3 as [(Hok3 & _ & _) _]. destruct got; cbn [negb]; [|by apply Hfail; [..|left]]. rewrite (Hraw eq_refl). clear Hraw rawname.
  rewrite wp_bind. eapply wp_mono; [|by apply create_vnode_spec]. cbv beta. intros [v|] s4 H4.
  2:{ apply Hfail; [by eapply tstep_trans|done|by left]. }
  destruct H4 as [Hs4 Hc4]. assert (H4 : tstep (one v) 1 s s4) by (eapply tstep_trans; [exact H3|exact Hs4|intros x; unfold none; lia|lia]).
  pose proof H4 as [(Hok4 & Hsp4 & Hd4) Ht4].
  assert (Hv : forall s5, tstep none 0 s4 s5 -> tstep (opt_held (Some v)) 1 s s5).
  { intros s5 H5. eapply tstep_trans; [exact H4|exact H5|intros x; unfold none; cbn; lia|lia]. }
  rewrite wp_bind. eapply wp_mono; [|apply room_table; [done|apply kmalloc_law]]. cbv beta. intros got s5 [Hc5 H5].
  pose proof (Hv _ H5) as Hs5. pose proof Hs5 as [(Hok5 & Hsp5 & Hd5) Ht5].
  destruct got; cbn [negb]; [|apply Hfail; [done|intros x [= <-]; by rewrite Hc5|by left]]. rewrite wp_bind, wp_get.
  rewrite wp_bind. unfold badnames. rewrite wp_bind. erewrite wp_eq by (apply assert_held_eq; [done|lia]). wp_simpl.
  destruct (existsb _ _) eqn:Ebad; [apply Hfail; [done|intros x [= <-]; by rewrite Hc5|by right]|].
  apply badnames_clash in Ebad. rewrite Ht5 in Ebad. rewrite wp_bind.
  eapply wp_mono; [|apply room_table; [done|apply array_room_law]]. cbv beta. intros room s6 [Hc6 H6].
  assert (H46 : tstep none 0 s4 s6) by (eapply tstep_trans; [exact H5|exact H6|done|done]).
  pose proof (Hv _ H46) as Hs6. pose proof Hs6 as [(Hok6 & Hsp6 & Hd6) Ht6].
  destruct room; cbn [negb]; [|apply Hfail; [done|intros x [= <-]; by rewrite Hc6, Hc5|by left]]. wp_simpl.
  assert (Hs7 : step (fun x => - one v x) 0 s6 (set_devs (knowndevs s6 ++ [new_dev dname mountable dev fs v]) s6)).
  { apply add_dev_step; [done| |]; cbn.
    - split; cbn; [by destruct mountable, Hdev as [?|[? ?]]|]. intros _. destruct fs; cbn; [by split|]. split; [done|].
      intros _. by destruct Hdev as [?|[? ?]].
    - rewrite Hsp6. cbn. rewrite one_self. pose proof (ok_spare s Hok v). lia. }
  change (Knowndev _ _ _ _ _) with (new_dev dname mountable dev fs v). set (s7 := set_devs _ _) in *. destruct Hs6 as [Hs6 _].
  rewrite <-wp_bind. fold (leave (W:=W) me 0). change (step (one v) 1 s s6) in Hs6.
  eapply wp_mono; [|apply (leave_spec s s7 (fun s' => knowndevs s' = knowndevs s ++ [new_dev dname mountable dev fs v]) none); [account|done|done|]].
  - cbv beta. intros e s8 (-> & Hs8 & Ht8). split; [done|]. split; [by left|]. intros _. exists v. by split.
  - intros s8 ->. cbn. by rewrite Ht6.
Qed.

(** ** All devices at once *)

Lemma sync_loop_spec l s : ok s -> wp (sync_loop l) (fun _ => tstep none 0 s) s.
Proof.
  revert s. induction l as [|kd l IH]; intros s Hok; cbn [sync_loop]; [rewrite wp_ret; split; [by apply step_refl|done]|].
  rewrite wp_bind. eapply wp_mono with (P := fun _ => tstep none 0 s).
  - intros _ s1 H1. pose proof H1 as [(Hok1 & _) _]. eapply wp_mono; [|by apply IH]. cbv beta. intros _ s2 H2. by eapply tstep_trans.
  - destruct (real_fs kd); [|rewrite wp_ret; split; [by apply step_refl|done]]. rewrite wp_bind.
    eapply wp_mono; [|apply (FSOP_table s _ (fun _ _ => True)); [done|]; eapply wp_mono; [|apply sync_law]; done].
    cbv beta. intros e s1 [_ H1]. by rewrite wp_ret.
Qed.
Lemma sync_spec s : ok s -> vfs_biglock_depth s + 1 < 2 ^ 32 ->
  wp (vfs_sync me) (fun e s' => e = 0 /\ step none 0 s s' /\ same_table s s') s.
Proof.
  intros Hok Hd. pose proof (ok_depth s Hok). unfold vfs_sync. rewrite wp_bind. eapply wp_mono; [|by apply acquire_table]. cbv beta.
  intros _ s1 H1. pose proof H1 as [(Hok1 & _) _]. wp_simpl. eapply wp_mono; [|by apply sync_loop_spec]. cbv beta. intros _ s2 H2.
  assert (H12 : tstep none 1 s s2) by (eapply tstep_trans; [exact H1|exact H2|done|done]). destruct H12 as [Hs2 Ht2].
  apply leave_spec; [done|done|done|]. intros s3 E. unfold same_table in *. congruence.
Qed.

(** What [vfs_unmountall] does to a device. *)
Definition let_go (kd kd' : knowndev) : Prop :=
  kd' = set_fs None kd \/ (kd' = kd /\ kd_fs kd <> Some SWAP_FS).
Lemma unmountall_loop_spec todo : forall gone s, ok s -> knowndevs s = gone ++ todo ->
  wp (unmountall_loop (length todo) (length gone)) (fun _ s' => step none 0 s s' /\
    exists todo', knowndevs s' = gone ++ todo' /\ Forall2 let_go todo todo') s.
Proof.
  induction todo as [|kd todo IH]; intros gone s Hok Hl; cbn [unmountall_loop length].
  { rewrite wp_ret. split; [by apply step_refl|]. by exists []. }
  rewrite wp_bind, wp_get. rewrite Hl. rewrite list_lookup_middle by done. wp_simpl.
  assert (Hdev : dev_ok kd).
  { pose proof (ok_table s Hok) as Ht. rewrite Hl in Ht. apply Forall_app in Ht as [_ Ht]. by inversion Ht. }
  eapply wp_mono with (P := fun _ s1 => step none 0 s s1 /\ exists kd', knowndevs s1 = gone ++ kd' :: todo /\ let_go kd kd').
  { intros _ s1 [Hs1 (kd' & Hl1 & Hg)]. pose proof Hs1 as (Hok1 & _). replace (S (length gone)) with (length (gone ++ [kd'])) by (rewrite length_app; cbn; lia).
    eapply wp_mono; [|apply IH; [done|by rewrite Hl1, <-app_assoc]]. cbv beta. intros _ s2 [Hs2 (todo' & Hl2 & Hgs)].
    split; [account|]. exists (kd' :: todo'). rewrite Hl2, <-app_assoc. split; [done|]. by constructor. }
  assert (Hkeep : forall s1, tstep none 0 s s1 -> kd_fs kd <> Some SWAP_FS ->
    step none 0 s s1 /\ exists kd', knowndevs s1 = gone ++ kd' :: todo /\ let_go kd kd').
  { intros s1 [Hs1 Ht1] Hn. split; [done|]. exists kd. split; [by rewrite Ht1|by right]. }
  assert (Hset : forall s1, tstep none 0 s s1 -> kd_rawname kd <> None ->
    (forall g v, kd_fs kd = Some (Fs g) -> vn_fs v = Some g -> refs (world s1) v <= 0) ->
    wp (update_fs (length gone) None) (fun _ s1 => step none 0 s s1 /\ exists kd', knowndevs s1 = gone ++ kd' :: todo /\ let_go kd kd') s1).
  { intros s1 [Hs1 Ht1] Hr Hg. pose proof Hs1 as (Hok1 & _). unfold same_table in Ht1.
    assert (Hs2 := update_fs_step s1 (length gone) kd None Hok1 ltac:(by rewrite Ht1, Hl, list_lookup_middle) Hr Hg).
    unfold update_fs. wp_simpl. split; [account|]. exists (set_fs None kd). split; [|by left]. cbn. rewrite Ht1, Hl.
    rewrite <-(Nat.add_0_r (length gone)) at 1. by rewrite alter_app_r. }
  assert (Hid : tstep none 0 s s) by (split; [by apply step_refl|done]).
  destruct (bool_decide_reflect (kd_rawname kd = None)) as [Hr|Hr].
  { rewrite wp_ret. apply Hkeep; [done|]. by apply Hdev. }
  destruct (kd_fs kd) as [[f|]|] eqn:Ef; [|by apply Hset|rewrite wp_ret; by apply Hkeep].
  assert (Hsync : forall s1, tstep none 0 s s1 -> wp (FSOP (fsop_sync f)) (fun _ => tstep none 0 s) s1).
  { intros s1 H1. pose proof H1 as [(Hok1 & _) _]. eapply wp_mono; [|apply (FSOP_table s1 _ (fun _ _ => True)); [done|]; eapply wp_mono; [|apply sync_law]; done].
    cbv beta. intros e s2 [_ H2]. by eapply tstep_trans. }
  rewrite wp_bind. eapply wp_mono; [|by apply Hsync]. cbv beta. intros e s1 H1. rewrite wp_bind.
  eapply wp_mono with (P := fun _ => tstep none 0 s); [|destruct (negb (e =? 0)); [by apply Hsync|by rewrite wp_ret]].
  cbv beta. intros e' s2 H2. destruct (negb (e' =? 0)); [rewrite wp_ret; by apply Hkeep|]. pose proof H2 as [(Hok2 & _) _]. rewrite wp_bind.
  eapply wp_mono; [|apply (FSOP_table s2 _ (fun e w => e = 0 -> forall v, vn_fs v = Some f -> refs w v <= 0)); [done|];
    eapply wp_mono; [|apply unmount_law]; cbv beta; intros e2 w [Hw Hv]; by split].
  cbv beta. intros e2 s3 [Hv H3]. assert (H3' : tstep none 0 s s3) by by eapply tstep_trans.
  destruct (Z.eqb_spec e2 0) as [->|He2]; cbn [negb]; [|rewrite wp_ret; by apply Hkeep].
  apply Hset; [done|done|]. intros g v [= <-]. by apply Hv.
Qed.
Lemma unmountall_spec s : ok s -> vfs_biglock_depth s + 1 < 2 ^ 32 ->
  wp (vfs_unmountall me) (fun e s' => e = 0 /\ step none 0 s s' /\ Forall2 let_go (knowndevs s) (knowndevs s')) s.
Proof.
  intros Hok Hd. pose proof (ok_depth s Hok). unfold vfs_unmountall. rewrite wp_bind. eapply wp_mono; [|by apply acquire_table]. cbv beta.
  intros _ s1 [Hs1 Ht1]. pose proof Hs1 as (Hok1 & _). wp_simpl. eapply wp_mono; [|by apply (unmountall_loop_spec (knowndevs s1) [])]. cbv beta.
  intros _ s2 [Hs2 (l & Hl & Hg)]. apply (leave_spec s s2 (fun s' => Forall2 let_go (knowndevs s) (knowndevs s')) none 0); [account|done|done|].
  intros s3 E. unfold same_table in *. rewrite E, Hl, <-Ht1. done.
Qed.

(** ** The calls that leave the table alone *)

Section table_kept.
Context (s0 : vfs W).
Notation kept := (keeps (same_table s0)).

Lemma kept_world {A} (m : K W A) : kept (zoom world_lens m).
Proof. by apply keeps_zoom. Qed.
Lemma kept_modify f : (forall s, knowndevs (f s) = knowndevs s) -> kept (modify f).
Proof. intros Hf. apply keeps_modify. unfold same_table. intros s. by rewrite Hf. Qed.
Lemma kept_acquire : kept (vfs_biglock_acquire me).
Proof. unfold vfs_biglock_acquire. keeps_tac; first [by apply kept_modify|by apply keeps_zoom]. Qed.
Lemma kept_release : kept (vfs_biglock_release me).
Proof. unfold vfs_biglock_release. keeps_tac; first [by apply kept_modify|by apply keeps_zoom]. Qed.
Lemma kept_held : kept (assert_held me).
Proof. unfold assert_held. keeps_tac. Qed.
Lemma kept_INCREF v : kept (VOP_INCREF v).
Proof. apply kept_world. Qed.
Lemma kept_DECREF v : kept (VOP_DECREF v).
Proof. apply kept_world. Qed.
Lemma kept_VOP {A} v (op : K W A) : kept (VOP v op).
Proof. apply kept_world. Qed.
Lemma kept_FSOP {A} (op : K W A) : kept (FSOP op).
Proof. apply kept_world. Qed.
Hint Resolve kept_acquire kept_release kept_held kept_INCREF kept_DECREF kept_VOP kept_FSOP : keeps.

Lemma kept_getcurdir : kept vfs_getcurdir.
Proof. unfold vfs_getcurdir. keeps_tac. Qed.
Lemma kept_set_cwd o : kept (modify (set_cwd o)).
Proof. by apply kept_modify. Qed.
Lemma kept_set_bootfs o : kept (modify (set_bootfs o)).
Proof. by apply kept_modify. Qed.
Hint Resolve kept_getcurdir kept_set_cwd kept_set_bootfs : keeps.
Lemma kept_setcurdir v : kept (vfs_setcurdir v).
Proof. unfold vfs_setcurdir. keeps_tac. Qed.
Lemma kept_getroot_loop l n : kept (getroot_loop l n).
Proof. induction l as [|kd l IH]; cbn [getroot_loop]; keeps_tac. Qed.
Hint Resolve kept_setcurdir kept_getroot_loop : keeps.
Lemma kept_getroot n : kept (vfs_getroot me n).
Proof. unfold vfs_getroot. keeps_tac. Qed.
Hint Resolve kept_getroot : keeps.
Lemma kept_getdevice path : kept (getdevice me path).
Proof. unfold getdevice. keeps_tac. Qed.
Hint Resolve kept_getdevice : keeps.
Lemma kept_lookup path : kept (vfs_lookup me path).
Proof. unfold vfs_lookup. keeps_tac. Qed.
Lemma kept_lookparent path n : kept (vfs_lookparent me path n).
Proof. unfold vfs_lookparent. keeps_tac. Qed.
Lemma kept_getdevname f : kept (vfs_getdevname me f).
Proof. unfold vfs_getdevname. keeps_tac. Qed.
Lemma kept_change_bootfs o : kept (change_bootfs o).
Proof. unfold change_bootfs. keeps_tac. Qed.
Hint Resolve kept_lookup kept_lookparent kept_getdevname kept_change_bootfs : keeps.
Lemma kept_chdir path : kept (vfs_chdir me path).
Proof. unfold vfs_chdir. keeps_tac. Qed.
Hint Resolve kept_chdir : keeps.
Lemma kept_in_parent path op : kept (in_parent me path op).
Proof. unfold in_parent. keeps_tac. Qed.
Lemma kept_sync_loop l : kept (sync_loop l).
Proof. induction l as [|kd l IH]; cbn [sync_loop]; keeps_tac. Qed.
Hint Resolve kept_in_parent kept_sync_loop : keeps.

(** The calls about the table itself. *)
Definition about_table (c : call) : bool :=
  match c with Cadddev _ _ _ | Caddfs _ _ | Cmount _ | Cunmount _ | Cswapon _ | Cswapoff _ | Cunmountall => true | _ => false end.
Lemma kept_do_call c : about_table c = false -> kept (do_call me c).
Proof.
  destruct c; try done; intros _; cbn [do_call]; unfold plain, quiet, vfs_open, vfs_close, vfs_remove, vfs_rename, vfs_link, vfs_symlink, vfs_readlink,
    vfs_mkdir, vfs_rmdir, vfs_clearcurdir, vfs_getcwd, vfs_setbootfs, vfs_clearbootfs, vfs_sync, leave; keeps_tac.
Qed.
End table_kept.

(** ** Every call keeps the account *)

Lemma device_cases l name : (exists i kd, mountable l i kd name) \/ (forall i kd, ~ mountable l i kd name).
Proof.
  destruct (list_find (fun kd => kd_rawname kd <> None /\ name = kd_name kd) l) as [[i kd]|] eqn:E.
  - apply list_find_Some in E as (Hi & [Hr Hn] & _). left. by exists i, kd.
  - apply list_find_None in E. rewrite Forall_lookup in E. right. intros i kd (Hi & Hr & Hn). by apply (E i kd Hi).
Qed.
Definition refused (s : vfs W) (e : Z) (s' : vfs W) : Prop := e = ENODEV /\ step none 0 s s' /\ same_table s s'.
Lemma mount_none s name : ok s -> vfs_biglock_depth s + 1 < 2 ^ 32 -> (forall i kd, ~ mountable (knowndevs s) i kd name) ->
  wp (vfs_mount me name) (refused s) s /\ wp (vfs_unmount me name) (refused s) s /\ wp (vfs_swapoff me name) (refused s) s.
Proof. intros Hok Hd Hn. split_and!; (apply no_device; [done..|]; intros s1 H1; by apply leave_enodev). Qed.
Lemma swapon_none s dname : ok s -> vfs_biglock_depth s + 1 < 2 ^ 32 -> (forall i kd, ~ mountable (knowndevs s) i kd (swap_name dname)) ->
  wp (vfs_swapon me dname) (fun r s' => r.1 <> 0 /\ step none 0 s s' /\ same_table s s') s.
Proof.
  intros Hok Hd Hn. unfold vfs_swapon. fold (swap_name dname). rewrite wp_bind.
  eapply wp_mono with (P := fun _ s1 => tstep none 0 s s1).
  2:{ destruct (bool_decide _); [|rewrite wp_ret; split; [by apply step_refl|done]].
      eapply wp_mono; [|apply (FSOP_table s _ (fun _ _ => True)); [done|apply kmalloc_same]]. by intros ? s1 [_ ?]. }
  cbv beta. intros room s0 [Hs0 Ht0]. pose proof Hs0 as (Hok0 & Hsp0 & Hd0). pose proof (ok_depth s Hok).
  destruct room; cbn [negb]; [|by rewrite wp_ret]. apply no_device; [done|lia|by rewrite Ht0|]. intros s1 [Hs1 Ht1].
  pose proof Hs1 as (Hok1 & _ & Hd1). rewrite wp_bind. eapply wp_mono; [|apply release_table; [done|lia]]. cbv beta.
  intros _ s2 [Hs2 Ht2]. rewrite wp_ret. split; [done|]. split; [account|]. unfold same_table in *. congruence.
Qed.

(** What a call's caller gains in references, and what he must hold to make it. *)
Definition credit (c : call) (e v x : Z) : Z :=
  match c with
  | Clookup _ | Clookparent _ _ | Copen _ _ _ | Cgetcurdir | Cswapon _ => gives e v x
  | Cclose w => - one w x
  | _ => 0
  end.
Definition legal (h : Z -> Z) (c : call) : Prop :=
  match c with Cclose v | Csetcurdir v => 0 < h v | _ => True end.

Lemma plain_wp (m : K (vfs W) Z) s (P : Z -> vfs W -> Prop) (Q : Z * Z -> vfs W -> Prop) : wp m P s ->
  (forall e s', P e s' -> Q (e, 0) s') -> wp (plain m) Q s.
Proof. intros Hm HQ. unfold plain. rewrite wp_bind. eapply wp_mono; [|exact Hm]. cbv beta. intros e s' He. rewrite wp_ret. by apply HQ. Qed.
Lemma quiet_wp (m : K (vfs W) ()) s (P : vfs W -> Prop) (Q : Z * Z -> vfs W -> Prop) : wp m (fun _ => P) s ->
  (forall s', P s' -> Q (0, 0) s') -> wp (quiet m) Q s.
Proof. intros Hm HQ. unfold quiet. rewrite wp_bind. eapply wp_mono; [|exact Hm]. cbv beta. intros _ s' He. rewrite wp_ret. by apply HQ. Qed.

Lemma names_same l l' : names_of <$> l = names_of <$> l' -> names_unique l -> names_unique l'.
Proof.
  intros E Hu i j kd kd' n Hi Hj Hn Hn'.
  assert (Hback : forall k x, l' !! k = Some x -> exists y, l !! k = Some y /\ names_of y = names_of x).
  { intros k x Hk. assert (Hf : (names_of <$> l) !! k = Some (names_of x)) by (by rewrite E, list_lookup_fmap, Hk).
    rewrite list_lookup_fmap in Hf. destruct (l !! k) as [y|]; [|done]. exists y. split; [done|]. by apply (inj Some). }
  destruct (Hback i kd Hi) as (y & Hy & Ey), (Hback j kd' Hj) as (y' & Hy' & Ey'). rewrite <-Ey in Hn. rewrite <-Ey' in Hn'. by eapply Hu.
Qed.
Lemma let_go_names l l' : Forall2 let_go l l' -> names_of <$> l = names_of <$> l'.
Proof. induction 1 as [|kd kd' l l' Hg _ IH]; [done|]. rewrite !fmap_cons, IH. by destruct Hg as [->|[-> _]]. Qed.

(** The calls about the table keep the account and the names. *)
Definition fine c s (r : Z * Z) s' : Prop := step (credit c r.1 r.2) 0 s s' /\ names_unique (knowndevs s').
Lemma table_call_fine c s : ok s -> vfs_biglock_depth s + 1 < 2 ^ 32 -> names_unique (knowndevs s) -> about_table c = true ->
  wp (do_call me c) (fine c s) s.
Proof.
  intros Hok Hd Hu Hc. assert (Hst : forall c e s', (forall v, credit c e 0 v = 0) -> step none 0 s s' -> names_unique (knowndevs s') -> fine c s (e, 0) s').
  { intros c' e s' Hcr Hs Hn. split; [|done]. destruct Hs as (H1 & H2 & H3). split; [done|split; [|done]]. intros v. cbn [fst snd].
    rewrite H2, Hcr. done. }
  assert (Hsame : forall s', same_table s s' -> names_unique (knowndevs s')) by (intros s' E; unfold same_table in E; by rewrite E).
  assert (Halt : forall s' i f, knowndevs s' = alter (set_fs f) i (knowndevs s) -> names_unique (knowndevs s')) by (intros s' i f ->; by apply names_alter).
  destruct c as [ | | | | | | | | | | | | | | | | | |name dev m|name fs|name|name|name|name| |]; try done; cbn [do_call].
  - eapply plain_wp; [apply doadd_spec; [done|done|by left]|]. cbv beta. intros e s' (Hs & Hor & Ha). apply Hst; [done|done|].
    destruct Hor as [->|[_ Ht]]; [|by apply Hsame]. destruct (Ha eq_refl) as (v & -> & Hn). by apply names_add.
  - eapply plain_wp; [apply doadd_spec; [done|done|by right]|]. cbv beta. intros e s' (Hs & Hor & Ha). apply Hst; [done|done|].
    destruct Hor as [->|[_ Ht]]; [|by apply Hsame]. destruct (Ha eq_refl) as (v & -> & Hn). by apply names_add.
  - destruct (device_cases (knowndevs s) name) as [(i & kd & Hm)|Hm].
    + eapply plain_wp; [by apply (mount_spec s i kd)|]. cbv beta. intros e s' (Hs & _ & Hne & He). apply Hst; [done|done|].
      destruct (Z.eq_dec e 0) as [->|]; [|by apply Hsame, Hne]. destruct (He eq_refl) as (_ & f & Hk). by eapply Halt.
    + eapply plain_wp; [by apply mount_none|]. intros e s' (_ & Hs & Ht). apply Hst; [done|done|by apply Hsame].
  - destruct (device_cases (knowndevs s) name) as [(i & kd & Hm)|Hm].
    + eapply plain_wp; [by apply (unmount_spec s i kd)|]. cbv beta. intros e s' (Hs & _ & Hne & He). apply Hst; [done|done|].
      destruct (Z.eq_dec e 0) as [->|]; [|by apply Hsame, Hne]. destruct (He eq_refl) as (_ & Hk). by eapply Halt.
    + eapply plain_wp; [by apply mount_none|]. intros e s' (_ & Hs & Ht). apply Hst; [done|done|by apply Hsame].
  - destruct (device_cases (knowndevs s) (swap_name name)) as [(i & kd & Hm)|Hm].
    + eapply wp_mono; [|by apply (swapon_spec s i kd)]. cbv beta. intros [e v] s' (Hs & _ & Hne & He). split; [exact Hs|].
      cbn [fst snd] in *. destruct (Z.eq_dec e 0) as [->|]; [|by apply Hsame, Hne]. destruct (He eq_refl) as (_ & Hk). by eapply Halt.
    + eapply wp_mono; [|by apply swapon_none]. cbv beta. intros [e v] s' (He & Hs & Ht). cbn [fst snd] in *. split; [|by apply Hsame].
      change (step (gives e v) 0 s s'). account.
  - destruct (device_cases (knowndevs s) name) as [(i & kd & Hm)|Hm].
    + eapply plain_wp; [by apply (swapoff_spec s i kd)|]. cbv beta. intros e s' (Hs & Hinv & Hne & He). apply Hst; [done|done|].
      destruct (decide (kd_fs kd = Some SWAP_FS)) as [E|E]; [destruct (He E) as [_ Hk]; by eapply Halt|].
      apply Hsame, Hne. by rewrite (Hinv E).
    + eapply plain_wp; [by apply mount_none|]. intros e s' (_ & Hs & Ht). apply Hst; [done|done|by apply Hsame].
  - eapply plain_wp; [by apply unmountall_spec|]. cbv beta. intros e s' (_ & Hs & Hg). apply Hst; [done|done|].
    eapply names_same; [by apply let_go_names|done].
Qed.

Lemma path_call_step c s : ok s -> vfs_biglock_depth s + 2 < 2 ^ 32 -> legal (spare s) c -> about_table c = false ->
  wp (do_call me c) (fun r => step (credit c r.1 r.2) 0 s) s.
Proof.
  intros Hok Hd Hl Hc. assert (Hd1 : vfs_biglock_depth s + 1 < 2 ^ 32) by lia.
  assert (Hplain : forall c m, (forall e v x, credit c e v x = 0) -> wp m (fun _ => step none 0 s) s ->
    wp (plain m) (fun r => step (credit c r.1 r.2) 0 s) s).
  { intros c' m Hcr Hm. eapply plain_wp; [exact Hm|]. cbv beta. intros e s' (H1 & H2 & H3). split; [done|split; [|done]].
    intros v. by rewrite H2, Hcr. }
  destruct c; try done; cbn [do_call legal] in *.
  - by apply lookup_spec.
  - rewrite wp_bind. eapply wp_mono; [|by apply lookparent_spec]. cbv beta. intros [[e v] name] s' Hs. by rewrite wp_ret.
  - by apply open_spec.
  - eapply quiet_wp; [by apply decref_spec|]. done.
  - apply Hplain; [done|]. apply in_parent_spec; [done|done|]. intros. by apply remove_law.
  - apply Hplain; [done|]. by apply rename_spec.
  - apply Hplain; [done|]. by apply link_call_spec.
  - apply Hplain; [done|]. apply in_parent_spec; [done|done|]. intros. by apply symlink_law.
  - apply Hplain; [done|]. by apply readlink_spec.
  - apply Hplain; [done|]. apply in_parent_spec; [done|done|]. intros. by apply mkdir_law.
  - apply Hplain; [done|]. apply in_parent_spec; [done|done|]. intros. by apply rmdir_law.
  - apply Hplain; [done|]. by apply chdir_spec.
  - apply Hplain; [done|]. by apply setcurdir_spec.
  - apply Hplain; [done|]. by apply clearcurdir_spec.
  - eapply wp_mono; [|by apply getcurdir_spec]. cbv beta. by intros r s' [Hs _].
  - apply Hplain; [done|]. by apply getcwd_spec.
  - apply Hplain; [done|]. by apply setbootfs_spec.
  - eapply quiet_wp; [by apply clearbootfs_spec|]. done.
  - apply Hplain; [done|]. eapply wp_mono; [|by apply sync_spec]. cbv beta. by intros e s' (_ & Hs & _).
Qed.
Lemma do_call_fine c s : ok s -> vfs_biglock_depth s + 2 < 2 ^ 32 -> names_unique (knowndevs s) -> legal (spare s) c ->
  wp (do_call me c) (fine c s) s.
Proof.
  intros Hok Hd Hu Hl. destruct (about_table c) eqn:Ec; [apply table_call_fine; [done|lia|done|done]|].
  pose proof (path_call_step c s Hok Hd Hl Ec) as Hs. pose proof (kept_do_call s c Ec s eq_refl) as Ht.
  unfold wp, wlp in *. destruct (do_call me c s) as [r s'| | |]; try done. split; [done|]. unfold same_table in Ht. by rewrite Ht.
Qed.

(** The states reached by legal calls from [s0], with the references the callers hold. *)
Inductive reach (s0 : vfs W) : (Z -> Z) -> vfs W -> Prop :=
  | reach_start h : (forall x, h x = spare s0 x) -> reach s0 h s0
  | reach_call h s c e v s' h' : reach s0 h s -> legal h c -> do_call me c s = Ret (e, v) s' ->
      (forall x, h' x = h x + credit c e v x) -> reach s0 h' s'.
Lemma legal_ext h h' c : (forall x, h' x = h x) -> legal h c -> legal h' c.
Proof. intros E. destruct c; cbn; try done; by rewrite E. Qed.
Lemma reach_ok s0 h s : ok s0 -> vfs_biglock_depth s0 = 0 -> names_unique (knowndevs s0) -> reach s0 h s ->
  ok s /\ vfs_biglock_depth s = 0 /\ names_unique (knowndevs s) /\ (forall x, spare s x = h x).
Proof.
  intros Hok0 Hd0 Hu0. induction 1 as [h Hh|h s c e v s' h' _ (Hok & Hd & Hu & Hh) Hl Hc Hh'].
  - split_and!; [done..|]. intros x. by rewrite Hh.
  - assert (Hf : wp (do_call me c) (fine c s) s) by (apply do_call_fine; [done|rewrite Hd; done|done|by eapply legal_ext]).
    unfold wp in Hf. rewrite Hc in Hf. destruct Hf as ((Hok' & Hsp' & Hd') & Hu'). cbn [fst snd] in *.
    split_and!; [done|lia|done|]. intros x. rewrite Hsp', Hh, Hh'. done.
Qed.

(** C13. Whatever calls on paths, the current directory, devices and file systems are made, each
    returns and none panics; the lock is free again after it, no device name is used twice, no vnode in
    use belongs to an unmounted file system, and the count of every vnode is exactly the references
    the current directory, the boot file system and the table hold plus those handed to the callers. *)
Theorem vfs_keeps_account s0 h s : ok s0 -> vfs_biglock_depth s0 = 0 -> names_unique (knowndevs s0) -> reach s0 h s ->
  (forall v, vn_count (world s) v = vn_kept (world s) v + held s v + h v) /\
  (forall v f, vn_fs v = Some f -> 0 < refs (world s) v -> mounted s f) /\
  thread_who_acquired (vfs_biglock s) = None /\ names_unique (knowndevs s) /\
  (forall c, legal h c -> exists e v s', do_call me c s = Ret (e, v) s').
Proof.
  intros H1 H2 H3 Hr. destruct (reach_ok s0 h s H1 H2 H3 Hr) as (Hok & Hd & Hu & Hh). split.
  { intros v. specialize (Hh v). unfold spare, refs in Hh. lia. }
  split; [apply ok_mounted; done|]. split; [rewrite (ok_lock s Hok), Hd; done|]. split; [done|]. intros c Hl.
  assert (Hf : wp (do_call me c) (fine c s) s) by (apply do_call_fine; [done|rewrite Hd; done|done|by eapply legal_ext]).
  apply wp_returns in Hf as ([e v] & s' & Hc & _). by exists e, v, s'.
Qed.

(** ** A device's life *)

Lemma unmounted_unused s s' i f v : ok s' -> knowndevs s' = alter (set_fs None) i (knowndevs s) ->
  (forall j kd, knowndevs s !! j = Some kd -> kd_fs kd = Some (Fs f) -> j = i) -> vn_fs v = Some f -> refs (world s') v <= 0.
Proof.
  intros Hok Hk Hj Hv. destruct (Z.le_gt_cases (refs (world s') v) 0) as [|Hp]; [done|exfalso].
  destruct (ok_mounted s' Hok v f Hv ltac:(lia)) as (kd & [j Hx]%list_elem_of_lookup & Hf). rewrite Hk in Hx.
  destruct (decide (i = j)) as [->|Hne].
  - rewrite list_lookup_alter_eq in Hx. destruct (knowndevs s !! j); [|done]. injection Hx as <-. done.
  - rewrite list_lookup_alter_ne in Hx by done. apply Hne. symmetry. by eapply Hj.
Qed.

(** A mountable device is free, mounted or used for swap.  [vfs_mount] mounts a free one or fails
    with the table as it was, and answers [EBUSY] for the others; [vfs_swapon] the same, handing out
    the device's vnode; [vfs_unmount] frees a mounted one, of whose file system no vnode is in use
    afterwards, and answers [EINVAL] for the others; [vfs_swapoff] frees one used for swap and
    answers [EINVAL] for the others; [vfs_unmountall] frees all that let themselves be freed.
    Without a device of the name the answer is [ENODEV]. *)
Lemma mount_table_correct s i kd name : ok s -> vfs_biglock_depth s + 1 < 2 ^ 32 -> names_unique (knowndevs s) ->
  mountable (knowndevs s) i kd name ->
  let becomes s' f := knowndevs s' = alter (set_fs f) i (knowndevs s) in
  wp (vfs_mount me name) (fun e s' =>
    match kd_fs kd with
    | None => (e = 0 /\ exists f, becomes s' (Some (Fs f))) \/ (e <> 0 /\ same_table s s')
    | Some _ => e = EBUSY /\ same_table s s'
    end) s /\
  wp (vfs_unmount me name) (fun e s' =>
    match kd_fs kd with
    | Some (Fs f) => (e = 0 /\ becomes s' None /\
        ((forall j kd', knowndevs s !! j = Some kd' -> kd_fs kd' = Some (Fs f) -> j = i) ->
         forall v, vn_fs v = Some f -> refs (world s') v <= 0)) \/ (e <> 0 /\ same_table s s')
    | _ => e = EINVAL /\ same_table s s'
    end) s /\
  (forall dname, swap_name dname = name -> wp (vfs_swapon me dname) (fun r s' =>
    match kd_fs kd with
    | None => (r = (0, kd_vnode kd) /\ becomes s' (Some SWAP_FS)) \/ (r.1 <> 0 /\ same_table s s')
    | Some _ => r.1 <> 0 /\ same_table s s'
    end) s) /\
  wp (vfs_swapoff me name) (fun e s' =>
    match kd_fs kd with
    | Some SWAP_FS => e = 0 /\ becomes s' None
    | _ => e = EINVAL /\ same_table s s'
    end) s /\
  wp (vfs_unmountall me) (fun e s' => e = 0 /\ exists kd', knowndevs s' !! i = Some kd' /\ let_go kd kd') s /\
  (forall name', (forall j kd', ~ mountable (knowndevs s) j kd' name') ->
    wp (vfs_mount me name') (refused s) s /\ wp (vfs_unmount me name') (refused s) s /\ wp (vfs_swapoff me name') (refused s) s).
Proof.
  intros Hok Hd Hu Hm becomes. split_and!.
  - eapply wp_mono; [|by apply (mount_spec s i kd)]. cbv beta. intros e s' (_ & Hb & Hne & He).
    destruct (Z.eq_dec e 0) as [->|Hn]; [destruct (He eq_refl) as [-> Hf]; by left|].
    destruct (kd_fs kd); [split; [by apply Hb|by apply Hne]|]. right. split; [done|by apply Hne].
  - eapply wp_mono; [|by apply (unmount_spec s i kd)]. cbv beta. intros e s' ((Hok' & _) & Hb & Hne & He). unfold real_fs in *.
    destruct (kd_fs kd) as [[f|]|]; [|split; [by apply Hb|apply Hne; by rewrite Hb]..].
    destruct (Z.eq_dec e 0) as [->|Hn]; [destruct (He eq_refl) as [_ Hf]; left|right; split; [done|by apply Hne]].
    split; [done|split; [done|]]. intros Hj v Hv. by eapply unmounted_unused.
  - intros dname <-. eapply wp_mono; [|by apply (swapon_spec s i kd)]. cbv beta. intros [e v] s' (_ & Hb & Hne & He); cbn [fst snd] in *.
    destruct (kd_fs kd); [assert (e <> 0) by (by apply Hb); split; [done|by apply Hne]|].
    destruct (Z.eq_dec e 0) as [->|Hn]; [left|right; split; [done|by apply Hne]]. by destruct (He eq_refl) as [-> ?].
  - eapply wp_mono; [|by apply (swapoff_spec s i kd)]. cbv beta. intros e s' (_ & Hb & Hne & He).
    destruct (kd_fs kd) as [[f|]|]; [|by apply He|]; (split; [by apply Hb|apply Hne; by rewrite Hb]).
  - eapply wp_mono; [|by apply unmountall_spec]. cbv beta. intros e s' (He & _ & Hg). split; [done|]. destruct Hm as (Hi & _).
    destruct (Forall2_lookup_l _ _ _ _ _ Hg Hi) as (kd' & Hk & Hl). by exists kd'.
  - intros name' Hn. by apply mount_none.
Qed.

(** ** Where a path starts *)

Definition is_sep (c : Z) : bool := (c =? colon) || (c =? slash).
Lemma find_sep_app pre c rest i : Forall (fun x => is_sep x = false) pre -> is_sep c = true ->
  find_sep (pre ++ c :: rest) i = Some (i + length pre, c)%nat.
Proof.
  intros Hp Hc. revert i. induction Hp as [|x pre Hx _ IH]; intros i; cbn.
  - unfold is_sep in Hc. rewrite Hc. by rewrite Nat.add_0_r.
  - unfold is_sep in Hx. rewrite Hx, IH. by rewrite Nat.add_succ_r.
Qed.
Lemma find_sep_none pre i : Forall (fun x => is_sep x = false) pre -> find_sep pre i = None.
Proof. intros Hp. revert i. induction Hp as [|x pre Hx _ IH]; intros i; cbn; [done|]. unfold is_sep in Hx. by rewrite Hx. Qed.

(** The vnode that a device name means. *)
Definition start_at (name : list Z) (kd : knowndev) : K (vfs W) (Z * Z) :=
  match kd_fs kd with
  | Some (Fs f) => if bool_decide (kd_name kd = name) then FSOP (fsop_getroot f)
                   else VOP_INCREF (kd_vnode kd);; mret (0, kd_vnode kd)
  | _ => if bool_decide (kd_rawname kd <> None) && bool_decide (kd_name kd = name) then mret (ENXIO, 0)
         else VOP_INCREF (kd_vnode kd);; mret (0, kd_vnode kd)
  end.
Definition no_volume (s : vfs W) (name : list Z) : Prop :=
  forall kd f, kd ∈ knowndevs s -> real_fs kd = Some f -> fsop_getvolname f (world s) <> Some name.

Lemma samestring_true a n : samestring a (Some n) = true <-> a = Some n.
Proof. destruct a as [x|]; cbn; [|done]. rewrite bool_decide_eq_true. naive_solver. Qed.
Lemma samestring_false a n : a <> Some n -> samestring a (Some n) = false.
Proof. intros Hn. destruct (samestring a (Some n)) eqn:E; [|done]. by apply samestring_true in E. Qed.
Lemma getroot_skip s kd l name : name ∉ names_of kd ->
  (forall f, real_fs kd = Some f -> fsop_getvolname f (world s) <> Some name) ->
  getroot_loop (kd :: l) name s = getroot_loop l name s.
Proof.
  intros Hn Hv. cbn [getroot_loop]. erewrite bind_eq by reflexivity.
  assert (kd_name kd <> name) by (intros <-; apply Hn; left).
  assert (Hr : kd_rawname kd <> Some name) by (intros E; apply Hn; unfold names_of; rewrite E; right; left).
  rewrite (bool_decide_false (kd_name kd = name)) by done. rewrite (samestring_false _ _ Hr).
  destruct (real_fs kd) as [f|]; [by rewrite samestring_false by by apply Hv|]. by rewrite andb_false_r.
Qed.
Lemma getroot_found s kd l name : dev_ok kd -> name ∈ names_of kd ->
  (forall f, real_fs kd = Some f -> fsop_getvolname f (world s) <> Some name) ->
  getroot_loop (kd :: l) name s = start_at name kd s.
Proof.
  intros [Hdev Hnoraw] Hn Hv. cbn [getroot_loop]. erewrite bind_eq by reflexivity. unfold start_at, real_fs in *.
  assert (Hraw : kd_name kd <> name -> kd_rawname kd = Some name).
  { intros Hne. apply elem_of_cons in Hn as [->|Hn]; [done|]. destruct (kd_rawname kd) as [r|]; [|by apply elem_of_nil in Hn].
    by apply list_elem_of_singleton in Hn as ->. }
  destruct (bool_decide_reflect (kd_name kd = name)) as [E|E].
  - destruct (kd_fs kd) as [[f|]|] eqn:Ef; [done|..]; rewrite andb_true_r.
    + destruct (bool_decide_reflect (kd_rawname kd <> None)) as [|Hr]; [done|]. assert (kd_rawname kd = None) as Hr' by (by apply dec_stable).
      by destruct (Hnoraw Hr').
    + destruct (bool_decide_reflect (kd_rawname kd <> None)) as [|Hr]; [done|]. assert (kd_rawname kd = None) as Hr' by (by apply dec_stable).
      destruct (Hnoraw Hr') as [_ Hd]. rewrite Hr'. rewrite (bool_decide_true (None = None)) by done.
      by rewrite (bool_decide_true (kd_device kd <> None)) by by apply Hd.
  - specialize (Hraw E). assert (Hd : kd_device kd <> None) by (apply Hdev; by rewrite Hraw).
    rewrite (bool_decide_true (kd_device kd <> None)) by done. rewrite andb_false_r. rewrite Hraw. cbn [samestring].
    rewrite (bool_decide_true (name = name)) by done.
    destruct (kd_fs kd) as [[f|]|] eqn:Ef; [|done..]. by rewrite samestring_false by by apply Hv.
Qed.

Lemma getroot_eq s kd name : ok s -> 0 < vfs_biglock_depth s -> names_unique (knowndevs s) -> no_volume s name ->
  kd ∈ knowndevs s -> name ∈ names_of kd -> vfs_getroot me name s = start_at name kd s.
Proof.
  intros Hok Hd Hu Hv [i Hi]%list_elem_of_lookup Hn. unfold vfs_getroot. erewrite bind_eq by by apply assert_held_eq. erewrite bind_eq by reflexivity.
  pose proof (ok_table s Hok) as Ht. rewrite Forall_lookup in Ht. specialize (Ht i kd Hi).
  assert (Hskip : forall l1 l2, knowndevs s = l1 ++ kd :: l2 -> getroot_loop (l1 ++ kd :: l2) name s = start_at name kd s).
  { intros l1 l2 E.
    assert (Hnot : forall x, x ∈ l1 -> name ∉ names_of x).
    { intros x [j Hj]%list_elem_of_lookup Hx. assert (Hlt := lookup_lt_Some _ _ _ Hj).
      assert (j = length l1); [|lia]. apply (Hu j (length l1) x kd name); [|by rewrite E, list_lookup_middle|done|done].
      rewrite E. by rewrite lookup_app_l. }
    assert (Hvol : forall x f, x ∈ l1 ++ kd :: l2 -> real_fs x = Some f -> fsop_getvolname f (world s) <> Some name).
    { intros x f Hx. apply Hv. by rewrite E. }
    clear E. induction l1 as [|x l1 IH].
    - cbn [app]. apply getroot_found; [done|done|]. intros f. apply Hvol. left.
    - cbn [app]. rewrite getroot_skip; [apply IH| |].
      + intros y Hy. apply Hnot. by right.
      + intros y f Hy. apply Hvol. by right.
      + apply Hnot. left.
      + intros f. apply Hvol. left. }
  destruct (list_elem_of_split_length _ _ _ Hi) as (l1 & l2 & E & _). rewrite E. by apply Hskip.
Qed.
Lemma getroot_unknown s name : ok s -> 0 < vfs_biglock_depth s -> no_volume s name ->
  (forall kd, kd ∈ knowndevs s -> name ∉ names_of kd) -> vfs_getroot me name s = Ret (ENODEV, 0) s.
Proof.
  intros Hok Hd Hv Hn. unfold vfs_getroot. erewrite bind_eq by by apply assert_held_eq. erewrite bind_eq by reflexivity.
  assert (Hall : forall l, (forall kd, kd ∈ l -> kd ∈ knowndevs s) -> getroot_loop l name s = Ret (ENODEV, 0) s).
  { induction l as [|kd l IH]; intros Hl; [done|]. assert (kd ∈ knowndevs s) by (apply Hl; left).
    rewrite getroot_skip; [apply IH; intros x Hx; apply Hl; by right|by apply Hn|by intros f; apply Hv]. }
  by apply Hall.
Qed.

Section getdevice.
Context (s : vfs W) (Hok : ok s) (Hd : 0 < vfs_biglock_depth s).
Lemma getdevice_name dev rest : dev <> [] -> Forall (fun c => is_sep c = false) dev ->
  getdevice me (dev ++ colon :: rest) s = ('(e, v) ← vfs_getroot me dev; mret (e, skip_slashes rest, v)) s.
Proof using All.
  destruct dev as [|c dev]; [done|]. intros _ Hdev. unfold getdevice. erewrite bind_eq by by apply assert_held_eq. cbn [app].
  change (c :: dev ++ colon :: rest) with ((c :: dev) ++ colon :: rest). rewrite find_sep_app by done. cbn [length Nat.add]. cbv zeta.
  rewrite Z.eqb_refl. cbn [negb andb].
  rewrite (take_app_length' (c :: dev)) by done.
  replace (drop (S (S (length dev))) ((c :: dev) ++ colon :: rest)) with rest; [done|].
  symmetry. cbn [app drop]. replace (S (length dev)) with (length (dev ++ [colon])) by (rewrite length_app; cbn; lia).
  replace (dev ++ colon :: rest) with ((dev ++ [colon]) ++ rest) by (by rewrite <-app_assoc). apply drop_app_length.
Qed.
Lemma getdevice_boot rest : getdevice me (slash :: rest) s =
  match bootfs_vnode s with
  | None => Ret (ENOENT, skip_slashes rest, 0) s
  | Some v => (VOP_INCREF v;; mret (0, skip_slashes rest, v)) s
  end.
Proof using All.
  unfold getdevice. erewrite bind_eq by by apply assert_held_eq. cbn [find_sep Z.eqb slash colon orb negb andb]. cbv zeta iota.
  cbn. unfold mbind at 1, K_bind at 1. unfold mbind at 1, K_bind at 1, get at 1. destruct (bootfs_vnode s) as [v|]; [|done].
  unfold mbind, K_bind. by destruct (VOP_INCREF v s).
Qed.
Lemma getdevice_root rest v f : p_cwd s = Some v -> vn_fs v = Some f -> getdevice me (colon :: rest) s =
  (VOP_INCREF v;; r ← FSOP (fsop_getroot f); VOP_DECREF v;; mret (r.1, skip_slashes rest, r.2)) s.
Proof using All.
  intros Hc Hf. unfold getdevice. erewrite bind_eq by by apply assert_held_eq. cbn. unfold vfs_getcurdir.
  cbv [mbind K_bind get KASSERT mret K_ret deref]. cbn. rewrite Hc. cbn. rewrite Hf. cbn.
  destruct (FSOP (fsop_getroot f) _) as [[e r] s2| | |]; [|done..]. by destruct (VOP_DECREF v s2).
Qed.
Lemma getdevice_cwd pre rest : pre <> [] -> Forall (fun c => is_sep c = false) pre -> rest = [] \/ head rest = Some slash ->
  getdevice me (pre ++ rest) s = ('(e, v) ← vfs_getcurdir; mret (e, pre ++ rest, v)) s.
Proof using All.
  destruct pre as [|c pre]; [done|]. intros _ Hp Hr. unfold getdevice. erewrite bind_eq by by apply assert_held_eq.
  change ((c :: pre) ++ rest) with (c :: (pre ++ rest)). cbv iota. change (c :: (pre ++ rest)) with ((c :: pre) ++ rest).
  destruct Hr as [->|Hr].
  - rewrite !app_nil_r, find_sep_none by done. done.
  - destruct rest as [|x rest]; [done|]. injection Hr as ->. rewrite find_sep_app by done. done.
Qed.
Lemma skip_slashes_split rest : exists n, rest = replicate n slash ++ skip_slashes rest /\ head (skip_slashes rest) <> Some slash.
Proof using.
  induction rest as [|c rest (n & E & Hn)]; cbn [skip_slashes]; [by exists O|]. destruct (Z.eqb_spec c slash) as [->|Hc].
  - exists (S n). cbn. by rewrite <-E.
  - exists O. split; [done|]. cbn. congruence.
Qed.
End getdevice.

(** The start of a path.  [dev:rest] starts at the device or volume, [/rest] at the boot file
    system, [:rest] at the root of the current directory's file system, another path at the current
    directory, each with the slashes in front of the rest skipped; an empty path is [EINVAL].  If no
    volume has the name, a device's name means the root of the file system mounted on it, or
    [ENXIO] if it can be mounted and is not; the name of a device that cannot, and a raw name, mean
    the device itself; a name that nothing has is [ENODEV]. *)
Lemma path_start_correct s : ok s -> 0 < vfs_biglock_depth s -> names_unique (knowndevs s) ->
  (forall dev rest, dev <> [] -> Forall (fun c => is_sep c = false) dev ->
    getdevice me (dev ++ colon :: rest) s = ('(e, v) ← vfs_getroot me dev; mret (e, skip_slashes rest, v)) s) /\
  (forall rest, getdevice me (slash :: rest) s =
    match bootfs_vnode s with
    | None => Ret (ENOENT, skip_slashes rest, 0) s
    | Some v => (VOP_INCREF v;; mret (0, skip_slashes rest, v)) s
    end) /\
  (forall rest v f, p_cwd s = Some v -> vn_fs v = Some f -> getdevice me (colon :: rest) s =
    (VOP_INCREF v;; r ← FSOP (fsop_getroot f); VOP_DECREF v;; mret (r.1, skip_slashes rest, r.2)) s) /\
  (forall pre rest, pre <> [] -> Forall (fun c => is_sep c = false) pre -> rest = [] \/ head rest = Some slash ->
    getdevice me (pre ++ rest) s = ('(e, v) ← vfs_getcurdir; mret (e, pre ++ rest, v)) s) /\
  getdevice me [] s = Ret (EINVAL, [], 0) s /\
  (forall rest, exists n, rest = replicate n slash ++ skip_slashes rest /\ head (skip_slashes rest) <> Some slash) /\
  (forall name, no_volume s name ->
    (forall kd, kd ∈ knowndevs s -> name ∈ names_of kd -> vfs_getroot me name s = start_at name kd s) /\
    ((forall kd, kd ∈ knowndevs s -> name ∉ names_of kd) -> vfs_getroot me name s = Ret (ENODEV, 0) s)).
Proof.
  intros Hok Hd Hu. split; [by apply getdevice_name|]. split; [by apply getdevice_boot|]. split; [by apply getdevice_root|].
  split; [by apply getdevice_cwd|]. split; [unfold getdevice; by erewrite bind_eq by by apply assert_held_eq|].
  split; [apply skip_slashes_split|]. intros name Hv. split; [intros kd Hk Hn; by apply getroot_eq|by apply getroot_unknown].
Qed.
End facts.

(** * A world for the witnesses

    Ten file systems; the vnodes [10 * f] (the root) to [10 * f + 9] belong to the file system [f],
    those from 100 on to devices.  A file system has one file, [f], and lets itself be unmounted
    when none of its vnodes is in use. *)
Module Vfs_sample.
Notation W := (gmap Z Z).
Definition count (w : W) (v : Z) : Z := default 0 (w !! v).
Definition fs_of (v : Z) : option Z := if (0 <=? v) && (v <? 100) then Some (v / 10) else None.
Definition hand {A} (a : A) (v : Z) : K W A := modify (fun w => <[v := count w v + 1]> w);; mret a.
Definition child (v : Z) : K W (Z * Z) :=
  match fs_of v with Some f => hand (0, 10 * f + 1) (10 * f + 1) | None => mret (ENOTDIR, 0) end.
Definition idle (f : Z) (w : W) : bool := forallb (fun v => count w v <=? 0) (seqZ (10 * f) 10).

#[global] Instance sample_fs : FileSystems W := {
  vn_count := count;
  vn_kept _ _ := 0;
  vn_set_count v n w := <[v := n]> w;
  vn_fs := fs_of;
  vop_reclaim v := modify (fun w => <[v := 0]> w);; mret 0;
  vop_lookup v path := if bool_decide (path = [102]) then child v else mret (ENOENT, 0);
  vop_lookparent v path _ := hand (0, v, path) v;
  vop_creat v _ _ _ := child v;
  vop_eachopen _ _ := mret 0;
  vop_truncate _ _ := mret 0;
  vop_gettype v := mret (0, if bool_decide (fs_of v = None) then 0x3000 else S_IFDIR);
  vop_remove _ _ := mret 0;
  vop_rename _ _ _ _ := mret 0;
  vop_link _ _ _ := mret 0;
  vop_symlink _ _ _ := mret ENOSYS;
  vop_readlink _ := mret ENOSYS;
  vop_mkdir _ _ _ := mret 0;
  vop_rmdir _ _ := mret 0;
  vop_namefile _ := mret 0;
  fsop_getvolname _ _ := None;
  fsop_getroot f := if (0 <=? f) && (f <? 10) then hand (0, 10 * f) (10 * f) else mret (EIO, 0);
  fsop_sync _ := mret 0;
  fsop_unmount f := w ← get; mret (if idle f w then 0 else EBUSY);
  w_mountfunc d := mret (0, d);
  w_uiomove _ := mret 0;
  w_kmalloc := mret true;
  w_new_vnode := w ← get; mret (snd <$> list_find (fun v => count w v = 0) (seqZ 100 50));
  w_array_room := mret true }.

Lemma count_insert v n (w : W) x : count (<[v := n]> w) x = if x =? v then n else count w x.
Proof.
  unfold count. destruct (Z.eqb_spec x v) as [->|Hx]; [by rewrite lookup_insert_eq|by rewrite lookup_insert_ne].
Qed.
Lemma same_here {A} (w : W) (a : A) : same_refs w a w.
Proof. by intros x. Qed.
Lemma hand_wp {A} (a : A) v (w : W) (Q : A -> W -> Prop) :
  (forall w', (forall x, refs w' x = refs w x + one v x) -> Q a w') -> wp (hand a v) Q w.
Proof.
  intros HQ. unfold hand. wp_simpl. apply HQ. intros x. unfold refs. cbn. rewrite count_insert. unfold one.
  destruct (Z.eqb_spec x v) as [->|]; lia.
Qed.
Lemma fs_of_lt f k : 0 <= f < 10 -> 0 <= k < 10 -> fs_of (10 * f + k) = Some f.
Proof.
  intros Hf Hk. unfold fs_of. destruct (Z.leb_spec 0 (10 * f + k)); [|lia]. destruct (Z.ltb_spec (10 * f + k) 100); [|lia]. cbn [andb].
  f_equal. symmetry. by apply Z.div_unique with k; [left|].
Qed.
Lemma fs_of_some v f : fs_of v = Some f -> 0 <= f < 10 /\ 10 * f <= v < 10 * f + 10.
Proof.
  unfold fs_of. destruct (Z.leb_spec 0 v); [|done]. destruct (Z.ltb_spec v 100); [|done]. cbn [andb]. intros [= <-].
  pose proof (Z.div_mod v 10 ltac:(done)). pose proof (Z.mod_pos_bound v 10 ltac:(done)). lia.
Qed.
Lemma child_wp v (w : W) : wp (child v) (fun r => handed (fs_of v) w r.1 r.2) w.
Proof.
  unfold child. destruct (fs_of v) as [f|] eqn:Ef.
  - apply hand_wp. intros w' Hw. cbn [fst snd]. split; [intros x; cbn [Z.eqb]; apply Hw|]. intros _. apply fs_of_lt; [destruct (fs_of_some _ _ Ef); lia|lia].
  - wp_simpl. split; [|done]. intros x. cbn. lia.
Qed.
Lemma idle_unused f v (w : W) : idle f w = true -> fs_of v = Some f -> count w v <= 0.
Proof.
  intros Hi Hf. destruct (fs_of_some _ _ Hf) as [_ Hv]. unfold idle in Hi. rewrite forallb_forall in Hi.
  apply Z.leb_le, Hi, list_elem_of_In, elem_of_seqZ. lia.
Qed.
Lemma new_vnode_fresh (w : W) v : snd <$> list_find (fun v => count w v = 0) (seqZ 100 50) = Some v -> count w v = 0 /\ fs_of v = None.
Proof.
  destruct (list_find _ _) as [[i x]|] eqn:E; [|done]. intros [= ->]. apply list_find_Some in E as (Hi & Hc & _). split; [done|].
  apply list_elem_of_lookup_2, elem_of_seqZ in Hi. unfold fs_of. destruct (Z.leb_spec 0 v), (Z.ltb_spec v 100); cbn; (lia || done).
Qed.

#[global] Instance sample_laws : FileSystemLaws W.
Proof.
  split; intros; cbn; try (by wp_simpl; apply same_here); try (by rewrite ?wp_ret; apply same_here).
  - done.
  - split; [apply count_insert|done].
  - wp_simpl. intros x. unfold refs. cbn in *. rewrite count_insert. unfold one. destruct (Z.eqb_spec x v) as [->|]; lia.
  - destruct (bool_decide _); [apply child_wp|]. wp_simpl. split; [|done]. intros x. cbn. lia.
  - apply hand_wp. intros w' Hw. split; [intros x; apply Hw|done].
  - apply child_wp.
  - destruct (Z.leb_spec 0 f), (Z.ltb_spec f 10); cbn [andb]; try (wp_simpl; split; [|done]; intros x; cbn; lia).
    apply hand_wp. intros w' Hw. split; [intros x; apply Hw|]. intros _. cbn [fst snd]. rewrite <-(Z.add_0_r (10 * f)). apply fs_of_lt; lia.
  - split; [apply same_here|]. by destruct (fs_of v).
  - wp_simpl. split; [apply same_here|]. intros He v Hv. unfold refs. cbn. destruct (idle f w) eqn:Ei; [|done].
    pose proof (idle_unused f v w Ei Hv). lia.
  - wp_simpl. split; [apply same_here|]. intros v Hv. by destruct (new_vnode_fresh w v Hv).
  - done.
  - done.
Qed.

(** At boot: no device, nothing in use, the lock free. *)
Definition boot : vfs W := TheVfs ∅ None None [] (Lock None []) 0.
Lemma boot_ok : ok 1 boot.
Proof. split; [done|done| |by constructor|done|done]. intros v f _ Hr. cbn in Hr. done. Qed.
Lemma boot_names : names_unique (knowndevs boot).
Proof. intros i j kd kd' n Hi. done. Qed.

(** The disk [lhd0] is added, mounted, and the file [lhd0:f] opened, which is the vnode 11; while it is
    open the disk cannot be unmounted. *)
Definition lhd0 : list Z := [108; 104; 100; 48].
Definition session : list call := [Cadddev lhd0 1 true; Cmount lhd0; Copen (lhd0 ++ [colon; 102]) 0 0; Cunmount lhd0].
Fixpoint run_calls (cs : list call) : K (vfs W) (list (Z * Z)) :=
  match cs with [] => mret [] | c :: cs => r ← do_call 1 c; rs ← run_calls cs; mret (r :: rs) end.
Example session_runs : match run_calls session boot with
  | Ret rs s => rs = [(0, 0); (0, 0); (0, 11); (EBUSY, 0)] /\ held s 11 = 0
  | _ => False
  end.
Proof. by vm_compute. Qed.
Lemma run_reach cs s rs s' h : reach 1 boot h s -> Forall (fun c => forall v, c <> Cclose v /\ c <> Csetcurdir v) cs ->
  run_calls cs s = Ret rs s' -> exists h', reach 1 boot h' s' /\
    (forall x, h' x = h x + foldr (fun cr a => credit cr.1 cr.2.1 cr.2.2 x + a) 0 (zip cs rs)).
Proof.
  revert s rs h. induction cs as [|c cs IH]; intros s rs h Hr Hl; cbn [run_calls].
  { intros [= <- <-]. exists h. split; [done|]. intros x. cbn. lia. }
  inversion Hl as [|? ? Hc Hcs]; subst. unfold mbind, K_bind. destruct (do_call 1 c s) as [[e v] s1| | |] eqn:Ec; [|done..].
  destruct (run_calls cs s1) as [rs' s2| | |] eqn:Er; [|done..]. intros [= <- <-].
  destruct (IH s1 rs' (fun x => h x + credit c e v x)) as (h' & Hr' & Hh'); [|done|done|].
  - eapply reach_call; [exact Hr| |exact Ec|done]. destruct c as [| | |w| | | | | | | | |w| | | | | | | | | | | | |]; try done; by destruct (Hc w).
  - exists h'. split; [done|]. intros x. rewrite Hh'. cbn [zip zip_with foldr fst snd]. lia.
Qed.
Lemma vfs_keeps_account_witness : exists h s, reach 1 boot h s /\ h 11 = 1 /\ vn_count (world s) 11 = 1 /\
  exists e v s', do_call 1 (Cclose 11) s = Ret (e, v) s'.
Proof.
  destruct (run_calls session boot) as [rs s| | |] eqn:Er; [|by vm_compute in Er..].
  pose proof session_runs as Hrs. rewrite Er in Hrs. destruct Hrs as [Hrs Hheld].
  destruct (run_reach session boot rs s (spare boot)) as (h & Hr & Hh); [by constructor| |done|].
  { unfold session. repeat constructor; done. }
  assert (H11 : h 11 = 1) by (rewrite Hh, Hrs; done).
  destruct (vfs_keeps_account 1 boot h s boot_ok eq_refl boot_names Hr) as (Hc & _ & _ & _ & Hall).
  exists h, s. split; [done|]. split; [done|]. split; [|apply Hall; cbn; lia].
  specialize (Hc 11). rewrite Hheld, H11 in Hc. cbn in *. lia.
Defined.

(** The table with the disk, free or mounted; the lock is held in the second. *)
Definition disk (f : option fsref) : knowndev := Knowndev lhd0 (Some (lhd0 ++ raw)) (Some 1) 100 f.
Definition with_disk (f : option fsref) (depth : Z) : vfs W :=
  TheVfs {[ 100 := 1 ]} None None [disk f] (Lock (if depth =? 0 then None else Some 1) []) depth.
Lemma count_disk f d x : refs (world (with_disk f d)) x = one 100 x.
Proof.
  unfold refs, one. cbn. unfold count. rewrite Z.sub_0_r. destruct (Z.eqb_spec x 100) as [->|Hx].
  - by rewrite lookup_singleton_eq.
  - by rewrite lookup_singleton_ne by congruence.
Qed.
Lemma with_disk_ok f d : 0 <= d -> ok 1 (with_disk f d).
Proof.
  intros Hd. split.
  - intros v. unfold spare. rewrite count_disk. unfold held. cbn. lia.
  - done.
  - intros v g Hv Hr. rewrite count_disk in Hr. unfold one in Hr. destruct (Z.eqb_spec v 100) as [->|]; [done|lia].
  - constructor; [|constructor]. by split.
  - cbn. by destruct (d =? 0).
  - done.
Qed.
Lemma with_disk_names f d : names_unique (knowndevs (with_disk f d)).
Proof. intros [|i] [|j] kd kd' n; cbn; done. Qed.

Lemma mount_table_correct_witness : exists s', vfs_mount 1 lhd0 (with_disk None 0) = Ret 0 s' /\ knowndevs s' = [disk (Some (Fs 1))].
Proof.
  destruct (mount_table_correct 1 (with_disk None 0) 0 (disk None) lhd0) as (Hm & _).
  - by apply with_disk_ok.
  - done.
  - apply with_disk_names.
  - by split.
  - apply wp_returns in Hm as (e & s' & He & Hor). exists s'. cbn [disk kd_fs] in Hor.
    assert (Hr : match vfs_mount 1 lhd0 (with_disk None 0) with Ret e s' => e = 0 /\ knowndevs s' = [disk (Some (Fs 1))] | _ => False end) by (by vm_compute).
    rewrite He in Hr. destruct Hr as [-> Hr]. destruct Hor as [(_ & f & Hf)|[? _]]; [|done]. by split.
Defined.
Lemma path_start_correct_witness :
  exists s', getdevice 1 (lhd0 ++ [colon; slash; 102]) (with_disk (Some (Fs 1)) 1) = Ret (0, [102], 10) s' /\ count (world s') 10 = 1.
Proof.
  destruct (path_start_correct 1 (with_disk (Some (Fs 1)) 1)) as (Hdev & _ & _ & _ & _ & _ & Hname).
  - by apply with_disk_ok.
  - done.
  - apply with_disk_names.
  - rewrite Hdev; [|done|by repeat constructor]. destruct (Hname lhd0) as [Hn _]; [by intros kd f _ _|].
    unfold mbind at 1, K_bind at 1. rewrite (Hn (disk (Some (Fs 1)))); [|left|left]. eexists. split; [reflexivity|]. by vm_compute.
Defined.
End Vfs_sample.
