(* ===== verification/Semfs.v ===== *)
(** * The semaphore file system ([kern/fs/semfs/])

    A volume ["sem:"] whose files are semaphores: reading [n] bytes is [n] times P, writing is V,
    truncating sets the count.  There is one directory.  A semaphore is named by its slot in
    [semfs_sems]; it exists while it is in the directory ([sems_linked]) or has a vnode
    ([sems_hasvnode]).  Vnodes come and go with their references.

    First the tables, where each operation runs under the locks from its start to its end, so it is
    one step; then the threads on one semaphore, as a step relation.  A semaphore object is the
    value in its slot; freeing it is emptying the slot. *)
From S2P Require Import Prelude.

Module Semfs.
Definition SEMFS_ROOTDIR : Z := 0xffffffff.
Definition O_ACCMODE : Z := 3.
Definition O_APPEND : Z := 32.
Definition S_IFDIR : Z := 0x2000.
Definition S_IFREG : Z := 0x1000.

(** The lock and the condition variable are in the second part. *)
Record semfs_sem := Sem { sems_count : Z; sems_hasvnode : bool; sems_linked : bool }.
Record semfs_direntry := Direntry { semd_name : list Z; semd_semnum : Z }.
Record semfs_vnode := Semv { semv_semnum : Z; vn_refcount : Z }.
(** [vnodes]: the vnodes in memory; [memory]: whether the allocations to come succeed, and
    afterwards all do. *)
Record semfs := TheSemfs {
  semfs_vnodes : list Z; semfs_sems : list (option semfs_sem); semfs_dents : list (option semfs_direntry);
  vnodes : gmap Z semfs_vnode; memory : list bool }.

Definition set_table (l : list Z) (s : semfs) : semfs := TheSemfs l (semfs_sems s) (semfs_dents s) (vnodes s) (memory s).
Definition set_sems (l : list (option semfs_sem)) (s : semfs) : semfs := TheSemfs (semfs_vnodes s) l (semfs_dents s) (vnodes s) (memory s).
Definition set_dents (l : list (option semfs_direntry)) (s : semfs) : semfs := TheSemfs (semfs_vnodes s) (semfs_sems s) l (vnodes s) (memory s).
Definition set_vnodes (m : gmap Z semfs_vnode) (s : semfs) : semfs := TheSemfs (semfs_vnodes s) (semfs_sems s) (semfs_dents s) m (memory s).
Definition set_memory (l : list bool) (s : semfs) : semfs := TheSemfs (semfs_vnodes s) (semfs_sems s) (semfs_dents s) (vnodes s) l.
Definition set_hasvnode (b : bool) (x : semfs_sem) : semfs_sem := Sem (sems_count x) b (sems_linked x).
Definition set_linked (b : bool) (x : semfs_sem) : semfs_sem := Sem (sems_count x) (sems_hasvnode x) b.
Definition set_count (n : Z) (x : semfs_sem) : semfs_sem := Sem n (sems_hasvnode x) (sems_linked x).

Definition kmalloc : K semfs bool :=
  s ← get; put (set_memory (tail (memory s)) s);; mret (default true (head (memory s))).

(** ** The arrays *)

Definition num {A} (l : list A) : Z := Z.of_nat (length l).
Definition semarray_get (n : Z) : K semfs (option semfs_sem) :=
  s ← get; KASSERT (n <? num (semfs_sems s)) "index < a->num";; mret (mjoin (semfs_sems s !! Z.to_nat n)).
Definition semarray_set (n : Z) (o : option semfs_sem) : K semfs () :=
  s ← get; KASSERT (n <? num (semfs_sems s)) "index < a->num";; put (set_sems (<[Z.to_nat n := o]> (semfs_sems s)) s).
Definition direntryarray_set (n : Z) (o : option semfs_direntry) : K semfs () :=
  s ← get; KASSERT (n <? num (semfs_dents s)) "index < a->num";; put (set_dents (<[Z.to_nat n := o]> (semfs_dents s)) s).
(** An access through the pointer to a semaphore. *)
Definition with_sem (n : Z) (f : semfs_sem -> semfs_sem) : K semfs () :=
  o ← semarray_get n; x ← deref o "sem"; semarray_set n (Some (f x)).

(** ** Objects ([semfs_obj.c]) *)

Definition semfs_sem_create : K semfs (option semfs_sem) :=
  m1 ← kmalloc;
  if negb m1 then mret None else
  m2 ← kmalloc;
  if negb m2 then mret None else
  m3 ← kmalloc;
  if negb m3 then mret None else mret (Some (Sem 0 false false)).
(** The first free slot. *)
Fixpoint free_slot (l : list (option semfs_sem)) (i : Z) : option Z :=
  match l with
  | [] => None
  | None :: _ => Some i
  | Some _ :: l => free_slot l (i + 1)
  end.
(** Error code and slot. *)
Definition semfs_sem_insert (sem : semfs_sem) : K semfs (Z * Z) :=
  s ← get;
  if num (semfs_sems s) =? SEMFS_ROOTDIR then mret (ENOSPC, 0) else
  match free_slot (semfs_sems s) 0 with
  | Some i => semarray_set i (Some sem);; mret (0, i)
  | None =>
      room ← kmalloc;
      if negb room then mret (ENOMEM, 0) else
      modify (fun s => set_sems (semfs_sems s ++ [Some sem]) s);;
      mret (0, num (semfs_sems s))
  end.
Definition semfs_direntry_create (name : list Z) (semnum : Z) : K semfs (option semfs_direntry) :=
  m1 ← kmalloc;
  if negb m1 then mret None else
  m2 ← kmalloc;
  if negb m2 then mret None else mret (Some (Direntry name semnum)).

(** ** Vnodes *)

Definition VOP_INCREF (vn : Z) : K semfs () :=
  s ← get;
  x ← deref (vnodes s !! vn) "vn";
  put (set_vnodes (<[vn := Semv (semv_semnum x) (vn_refcount x + 1)]> (vnodes s)) s).
Definition semfs_vnode_create (semnum : Z) : K semfs (option Z) :=
  m ← kmalloc;
  if negb m then mret None else
  s ← get;
  let vn := fresh (dom (vnodes s)) in
  put (set_vnodes (<[vn := Semv semnum 1]> (vnodes s)) s);;
  mret (Some vn).
(** [vnode_cleanup] and [kfree]. *)
Definition semfs_vnode_destroy (vn : Z) : K semfs () :=
  s ← get;
  x ← deref (vnodes s !! vn) "vn";
  KASSERT (vn_refcount x =? 1) "vn->vn_refcount == 1";;
  put (set_vnodes (delete vn (vnodes s)) s).
Fixpoint vnode_loop (l : list Z) (semnum : Z) : K semfs (option Z) :=
  match l with
  | [] => mret None
  | vn :: l =>
      s ← get;
      x ← deref (vnodes s !! vn) "vn";
      if semv_semnum x =? semnum then mret (Some vn) else vnode_loop l semnum
  end.
(** Error code and [*ret]. *)
Definition semfs_getvnode (semnum : Z) : K semfs (Z * option Z) :=
  s ← get;
  found ← vnode_loop (semfs_vnodes s) semnum;
  match found with
  | Some vn => VOP_INCREF vn;; mret (0, Some vn)
  | None =>
      o ← semfs_vnode_create semnum;
      match o with
      | None => mret (ENOMEM, None)
      | Some vn =>
          room ← kmalloc;
          if negb room then semfs_vnode_destroy vn;; mret (ENOMEM, None) else
          modify (fun s => set_table (semfs_vnodes s ++ [vn]) s);;
          (if negb (semnum =? SEMFS_ROOTDIR) then
             o ← semarray_get semnum;
             KASSERT (bool_decide (o <> None)) "sem != NULL";;
             x ← deref o "sem";
             KASSERT (negb (sems_hasvnode x)) "sem->sems_hasvnode == false";;
             semarray_set semnum (Some (set_hasvnode true x))
           else mret tt);;
          mret (0, Some vn)
      end
  end.
Definition semfs_getroot : K semfs (Z * option Z) := semfs_getvnode SEMFS_ROOTDIR.

(** The first [vn] of the table. *)
Fixpoint vnodearray_remove (vn : Z) (l : list Z) : list Z :=
  match l with [] => [] | vn2 :: l => if vn2 =? vn then l else vn2 :: vnodearray_remove vn l end.
(** [VOP_RECLAIM], called with the last reference. *)
Definition semfs_reclaim (vn : Z) : K semfs Z :=
  s ← get;
  x ← deref (vnodes s !! vn) "vn";
  if 1 <? vn_refcount x then
    put (set_vnodes (<[vn := Semv (semv_semnum x) (vn_refcount x - 1)]> (vnodes s)) s);; mret EBUSY
  else
  modify (fun s => set_table (vnodearray_remove vn (semfs_vnodes s)) s);;
  (if negb (semv_semnum x =? SEMFS_ROOTDIR) then
     o ← semarray_get (semv_semnum x);
     sem ← deref o "sem";
     KASSERT (sems_hasvnode sem) "sem->sems_hasvnode";;
     semarray_set (semv_semnum x) (Some (set_hasvnode false sem));;
     if negb (sems_linked sem) then semarray_set (semv_semnum x) None else mret tt
   else mret tt);;
  semfs_vnode_destroy vn;;
  mret 0.
(** [vnode_decref]. *)
Definition VOP_DECREF (vn : Z) : K semfs () :=
  s ← get;
  x ← deref (vnodes s !! vn) "vn";
  KASSERT (0 <? vn_refcount x) "vn->vn_refcount > 0";;
  if 1 <? vn_refcount x then put (set_vnodes (<[vn := Semv (semv_semnum x) (vn_refcount x - 1)]> (vnodes s)) s)
  else _ ← semfs_reclaim vn; mret tt.

(** ** The directory *)

Definition dots (name : list Z) : bool := bool_decide (name = [46]) || bool_decide (name = [46; 46]).
(** The loop of [semfs_creat]: [empty] and the entry found. *)
Fixpoint creat_loop (l : list (option semfs_direntry)) (i n empty : Z) (name : list Z) : Z * option semfs_direntry :=
  match l with
  | [] => (empty, None)
  | None :: l => creat_loop l (i + 1) n (if empty =? n then i else empty) name
  | Some d :: l => if bool_decide (semd_name d = name) then (empty, Some d) else creat_loop l (i + 1) n empty name
  end.
(** The loops of [semfs_remove] and [semfs_lookup]: index and entry. *)
Fixpoint find_entry (l : list (option semfs_direntry)) (i : Z) (name : list Z) : option (Z * semfs_direntry) :=
  match l with
  | [] => None
  | None :: l => find_entry l (i + 1) name
  | Some d :: l => if bool_decide (name = semd_name d) then Some (i, d) else find_entry l (i + 1) name
  end.

(** The rest of [semfs_creat] once there is a semaphore, the entry, and the vnode.  Where
    [semfs_direntry_create] fails, [result] is still 0. *)
Definition creat_vnode (empty semnum : Z) : K semfs (Z * option Z) :=
  '(result, vn) ← semfs_getvnode semnum;
  if negb (result =? 0) then
    direntryarray_set empty None;; semarray_set semnum None;; mret (result, None)
  else
  with_sem semnum (set_linked true);;
  mret (0, vn).
Definition creat_entry (n empty : Z) (name : list Z) (semnum : Z) : K semfs (Z * option Z) :=
  let result := 0 in
  dent ← semfs_direntry_create name semnum;
  match dent with
  | None => semarray_set semnum None;; mret (result, None)
  | Some dent =>
      '(result, empty) ←
        (if empty <? n then direntryarray_set empty (Some dent);; mret (0, empty)
         else
           room ← kmalloc;
           if negb room then mret (ENOMEM, empty) else
           modify (fun s => set_dents (semfs_dents s ++ [Some dent]) s);; mret (0, n) : K semfs (Z * Z));
      if negb (result =? 0) then semarray_set semnum None;; mret (result, None) else
      creat_vnode empty semnum
  end.
(** Error code and [*resultvn]. *)
Definition semfs_creat (name : list Z) (excl : bool) : K semfs (Z * option Z) :=
  if dots name then mret (EEXIST, None) else
  s ← get;
  let n := num (semfs_dents s) in
  let '(empty, found) := creat_loop (semfs_dents s) 0 n n name in
  match found with
  | Some dent => if excl then mret (EEXIST, None) else semfs_getvnode (semd_semnum dent)
  | None =>
      sem ← semfs_sem_create;
      match sem with
      | None => mret (ENOMEM, None)
      | Some sem =>
          '(result, semnum) ← semfs_sem_insert sem;
          if negb (result =? 0) then mret (result, None) else
          creat_entry n empty name semnum
      end
  end.

(** [semfs_remove] when the entry is found: under the semaphore's lock, up to the test of
    [sems_hasvnode], and from there. *)
Definition remove_unlink (semnum : Z) : K semfs () :=
  o ← semarray_get semnum;
  sem ← deref o "sem";
  KASSERT (sems_linked sem) "sem->sems_linked";;
  semarray_set semnum (Some (set_linked false sem)).
Definition remove_finish (semnum i : Z) : K semfs () :=
  o ← semarray_get semnum;
  sem ← deref o "sem";
  (if negb (sems_hasvnode sem) then semarray_set semnum None else mret tt);;
  direntryarray_set i None.
Definition semfs_remove (name : list Z) : K semfs Z :=
  if dots name then mret EINVAL else
  s ← get;
  match find_entry (semfs_dents s) 0 name with
  | Some (i, dent) => remove_unlink (semd_semnum dent);; remove_finish (semd_semnum dent) i;; mret 0
  | None => mret ENOENT
  end.
Definition semfs_lookup (dirvn : Z) (path : list Z) : K semfs (Z * option Z) :=
  if dots path then VOP_INCREF dirvn;; mret (0, Some dirvn) else
  s ← get;
  match find_entry (semfs_dents s) 0 path with
  | Some (_, dent) => semfs_getvnode (semd_semnum dent)
  | None => mret (ENOENT, None)
  end.
(** Error code, [*resultdirvn] and [namebuf]. *)
Definition semfs_lookparent (dirvn : Z) (path : list Z) (bufmax : Z) : K semfs (Z * option Z * list Z) :=
  if bufmax <? num path + 1 then mret (ENAMETOOLONG, None, []) else
  VOP_INCREF dirvn;; mret (0, Some dirvn, path).

(** ** The rest of the vnode operations *)

Definition semfs_eachopen (semnum openflags : Z) : Z :=
  if semnum =? SEMFS_ROOTDIR then
    if negb (Z.land openflags O_ACCMODE =? 0) then EISDIR else
    if negb (Z.land openflags O_APPEND =? 0) then EISDIR else 0
  else 0.
Definition semfs_gettype (semnum : Z) : Z := if semnum =? SEMFS_ROOTDIR then S_IFDIR else S_IFREG.
Definition semfs_isseekable (semnum : Z) : bool := semnum =? SEMFS_ROOTDIR.
(** [st_size], [st_nlink]. *)
Definition semfs_semstat (semnum : Z) : K semfs (Z * Z) :=
  o ← semarray_get semnum; sem ← deref o "sem"; mret (sems_count sem, if sems_linked sem then 1 else 0).
Definition semfs_dirstat : K semfs (Z * Z) := s ← get; mret (num (semfs_dents s), 2).
(** [None] at the end; otherwise the name that is moved to the [uio], whose offset is [pos]. *)
Definition semfs_getdirentry (pos : Z) : K semfs (option (list Z)) :=
  s ← get;
  let pos := u32 pos in
  if num (semfs_dents s) <=? pos then mret None else
  dent ← deref (mjoin (semfs_dents s !! Z.to_nat pos)) "dent";
  mret (Some (semd_name dent)).

(** ** Mount and unmount ([semfs_fsops.c]) *)

Definition semfs_create : K semfs bool :=
  m1 ← kmalloc; if negb m1 then mret false else
  m2 ← kmalloc; if negb m2 then mret false else
  m3 ← kmalloc; if negb m3 then mret false else
  m4 ← kmalloc; if negb m4 then mret false else
  m5 ← kmalloc; if negb m5 then mret false else
  m6 ← kmalloc; if negb m6 then mret false else
  modify (fun s => TheSemfs [] [] [] ∅ (memory s));;
  mret true.
Fixpoint destroy_sems (l : list (option semfs_sem)) : K semfs () :=
  match l with [] => mret tt | o :: l => _ ← deref o "sem"; destroy_sems l end.
Fixpoint destroy_dents (l : list (option semfs_direntry)) : K semfs () :=
  match l with [] => mret tt | o :: l => _ ← deref o "dent"; destroy_dents l end.
Definition semfs_destroy : K semfs () :=
  s ← get;
  destroy_sems (semfs_sems s);;
  modify (set_sems []);;
  destroy_dents (semfs_dents s);;
  modify (set_dents []).
Definition semfs_unmount : K semfs Z :=
  s ← get;
  if 0 <? num (semfs_vnodes s) then mret EBUSY else semfs_destroy;; mret 0.

(** ** Calls on the file system *)

Inductive call :=
  | Cgetroot | Clookup (dirvn : Z) (name : list Z) | Clookparent (dirvn : Z) (name : list Z) (buf : Z)
  | Ccreat (name : list Z) (excl : bool) | Cremove (name : list Z) | Cclose (vn : Z).
Definition do_call (c : call) : K semfs (Z * option Z) :=
  match c with
  | Cgetroot => semfs_getroot
  | Clookup v name => semfs_lookup v name
  | Clookparent v name n => '(e, o, _) ← semfs_lookparent v name n; mret (e, o)
  | Ccreat name excl => semfs_creat name excl
  | Cremove name => e ← semfs_remove name; mret (e, None)
  | Cclose v => VOP_DECREF v;; mret (0, None)
  end.

(** ** The threads on one semaphore

    Between [lock_acquire] and [cv_wait] or [lock_release] a thread has the semaphore for
    itself, so that is one step.  [q_cv]: the threads that sleep, with the bytes they still want. *)
Record semq := SemQ { q_count : Z; q_cv : list (Z * Z) }.
(** The loop of [semfs_read], up to the end or to [cv_wait]; what is still wanted. *)
Fixpoint read_loop (fuel : nat) (t resid : Z) : K semq Z :=
  if negb (0 <? resid) then mret 0 else
  match fuel with
  | O => block
  | S fuel =>
      s ← get;
      resid ← (if 0 <? q_count s then
                 let consume := if q_count s <? resid then q_count s else resid in
                 put (SemQ (u32 (q_count s - consume)) (q_cv s));; mret (resid - consume)
               else mret resid : K semq Z);
      if resid =? 0 then mret 0 else
      s ← get;
      if q_count s =? 0 then put (SemQ (q_count s) (q_cv s ++ [(t, resid)]));; mret resid
      else read_loop fuel t resid
  end.
Definition semfs_read (t resid : Z) : K semq Z := read_loop 1 t resid.
(** The threads that are woken. *)
Definition semfs_wakeup (newcount : Z) : K semq (list (Z * Z)) :=
  s ← get;
  if (0 <? q_count s) || (newcount =? 0) then mret [] else
  if newcount =? 1 then put (SemQ (q_count s) (tail (q_cv s)));; mret (take 1 (q_cv s))
  else put (SemQ (q_count s) []);; mret (q_cv s).
Definition semfs_write (resid : Z) : K semq (Z * list (Z * Z)) :=
  if negb (0 <? resid) then mret (0, []) else
  s ← get;
  let newcount := u32 (q_count s + resid) in
  if newcount <? q_count s then mret (EFBIG, []) else
  woken ← semfs_wakeup newcount;
  modify (fun s => SemQ newcount (q_cv s));;
  mret (0, woken).
Definition semfs_truncate (len : Z) : K semq (Z * list (Z * Z)) :=
  if len <? 0 then mret (EINVAL, []) else
  if 0xffffffff <? len then mret (EFBIG, []) else
  let newcount := u32 len in
  woken ← semfs_wakeup newcount;
  modify (fun s => SemQ newcount (q_cv s));;
  mret (0, woken).

(** All threads: [y_ready] are those inside [semfs_read] that do not sleep; [y_taken] and
    [y_posted] count the units taken and given. *)
Record sem_sys := SemSys { y_sem : semq; y_ready : list (Z * Z); y_taken : Z; y_posted : Z }.
(** At most [k] threads are reading at a time. *)
Inductive sem_step (k : nat) : sem_sys -> sem_sys -> Prop :=
  | step_read t n q r d p :
      0 <= n < 2 ^ 32 -> t ∉ (r ++ q_cv q).*1 -> (length (r ++ q_cv q) < k)%nat ->
      sem_step k (SemSys q r d p) (SemSys q (r ++ [(t, n)]) d p)
  | step_turn t n q q' r1 r2 d p left :
      semfs_read t n q = Ret left q' ->
      sem_step k (SemSys q (r1 ++ (t, n) :: r2) d p) (SemSys q' (r1 ++ r2) (d + (n - left)) p)
  | step_write n q q' r d p e woken :
      0 <= n < 2 ^ 32 -> semfs_write n q = Ret (e, woken) q' ->
      sem_step k (SemSys q r d p) (SemSys q' (r ++ woken) d (if e =? 0 then p + n else p))
  | step_truncate len q q' r d p e woken :
      semfs_truncate len q = Ret (e, woken) q' ->
      sem_step k (SemSys q r d p) (SemSys q' (r ++ woken) d (if e =? 0 then p + (len - q_count q) else p)).
Definition new_sem : sem_sys := SemSys (SemQ 0 []) [] 0 0.
End Semfs.
Import Semfs.

(** ** The tables are consistent *)

Implicit Types (s : semfs) (n : Z).

Definition sem_at s n : option semfs_sem := if 0 <=? n then mjoin (semfs_sems s !! Z.to_nat n) else None.
Definition dent_at s (i : nat) : option semfs_direntry := mjoin (semfs_dents s !! i).
(** Some vnode is for the semaphore [n]. *)
Definition has_vnode s n : Prop := exists v x, vnodes s !! v = Some x /\ semv_semnum x = n.
Definition in_directory s n : Prop := exists i d, dent_at s i = Some d /\ semd_semnum d = n.

(** The vnodes and the marks that go with them. *)
Record vnodes_ok s : Prop := {
  vk_nodup : NoDup (semfs_vnodes s);
  vk_live : forall v, v ∈ semfs_vnodes s <-> is_Some (vnodes s !! v);
  vk_count : forall v x, vnodes s !! v = Some x -> 1 <= vn_refcount x;
  vk_one : forall v v' x x', vnodes s !! v = Some x -> vnodes s !! v' = Some x' -> semv_semnum x = semv_semnum x' -> v = v';
  vk_sem : forall v x, vnodes s !! v = Some x -> semv_semnum x = SEMFS_ROOTDIR \/ is_Some (sem_at s (semv_semnum x));
  vk_mark : forall n x, sem_at s n = Some x -> sems_hasvnode x = true <-> has_vnode s n;
  vk_size : num (semfs_sems s) <= SEMFS_ROOTDIR }.
(** The directory and the marks that go with it. *)
Record dents_ok s : Prop := {
  dk_names : forall i j d d', dent_at s i = Some d -> dent_at s j = Some d' -> semd_name d = semd_name d' -> i = j;
  dk_one : forall i j d d', dent_at s i = Some d -> dent_at s j = Some d' -> semd_semnum d = semd_semnum d' -> i = j;
  dk_sem : forall i d, dent_at s i = Some d -> is_Some (sem_at s (semd_semnum d));
  dk_dots : forall i d, dent_at s i = Some d -> dots (semd_name d) = false;
  dk_mark : forall n x, sem_at s n = Some x -> sems_linked x = true <-> in_directory s n }.
Record inv s : Prop := {
  inv_vnodes : vnodes_ok s;
  inv_dents : dents_ok s;
  (** nothing is kept that nobody can reach *)
  inv_used : forall n x, sem_at s n = Some x -> sems_linked x || sems_hasvnode x = true }.

Lemma sem_at_range s n x : sem_at s n = Some x -> 0 <= n < num (semfs_sems s).
Proof.
  unfold sem_at, num. destruct (Z.leb_spec 0 n); [|done]. destruct (semfs_sems s !! Z.to_nat n) eqn:E; [|done]. apply lookup_lt_Some in E. lia.
Qed.
Lemma dent_at_range s i d : dent_at s i = Some d -> (i < length (semfs_dents s))%nat.
Proof. unfold dent_at. destruct (semfs_dents s !! i) eqn:E; [|done]. by apply lookup_lt_Some in E. Qed.
Lemma sem_at_set s n o m : 0 <= n < num (semfs_sems s) -> sem_at (set_sems (<[Z.to_nat n := o]> (semfs_sems s)) s) m = if m =? n then o else sem_at s m.
Proof.
  intros Hn. unfold sem_at, num in *. cbn. destruct (Z.eqb_spec m n) as [->|Hne].
  - rewrite (proj2 (Z.leb_le 0 n)) by lia. rewrite list_lookup_insert_eq by lia. by destruct o.
  - destruct (Z.leb_spec 0 m); [|done]. rewrite list_lookup_insert_ne by lia. done.
Qed.
Lemma sem_at_app s o m : sem_at (set_sems (semfs_sems s ++ [o]) s) m = if m =? num (semfs_sems s) then o else sem_at s m.
Proof.
  unfold sem_at, num. cbn. destruct (Z.leb_spec 0 m); [|destruct (Z.eqb_spec m (Z.of_nat (length (semfs_sems s)))); (lia || done)].
  destruct (Z.eqb_spec m (Z.of_nat (length (semfs_sems s)))) as [->|Hne].
  - rewrite Nat2Z.id, list_lookup_middle by done. by destruct o.
  - destruct (decide (Z.to_nat m < length (semfs_sems s))%nat); [by rewrite lookup_app_l|].
    rewrite !lookup_ge_None_2; [done|lia|]. rewrite length_app. cbn. lia.
Qed.
Lemma dent_at_set s (i : nat) o j : (i < length (semfs_dents s))%nat -> dent_at (set_dents (<[i := o]> (semfs_dents s)) s) j = if decide (j = i) then o else dent_at s j.
Proof.
  intros Hi. unfold dent_at. cbn. destruct (decide (j = i)) as [->|Hne]; [rewrite list_lookup_insert_eq by done; by destruct o|].
  by rewrite list_lookup_insert_ne.
Qed.
Lemma dent_at_app s o j : dent_at (set_dents (semfs_dents s ++ [o]) s) j = if decide (j = length (semfs_dents s)) then o else dent_at s j.
Proof.
  unfold dent_at. cbn. destruct (decide (j = length (semfs_dents s))) as [->|Hne]; [rewrite list_lookup_middle by done; by destruct o|].
  destruct (decide (j < length (semfs_dents s))%nat); [by rewrite lookup_app_l|]. rewrite !lookup_ge_None_2; [done|lia|]. rewrite length_app. cbn. lia.
Qed.

(** A change that the directory does not see, and one that the vnodes do not see. *)
Definition dir_view (x : semfs_sem) : Z * bool := (sems_count x, sems_linked x).
Definition same_dir s s' : Prop := (forall i, dent_at s' i = dent_at s i) /\ forall n, dir_view <$> sem_at s' n = dir_view <$> sem_at s n.
Definition same_vnodes s s' : Prop := semfs_vnodes s' = semfs_vnodes s /\ vnodes s' = vnodes s /\ num (semfs_sems s') <= SEMFS_ROOTDIR /\
  forall n, sems_hasvnode <$> sem_at s' n = sems_hasvnode <$> sem_at s n.
Lemma fmap_view {A B} (f : A -> B) (o o' : option A) x : f <$> o' = f <$> o -> o' = Some x -> exists y, o = Some y /\ f y = f x.
Proof. intros Hf ->. destruct o as [y|]; [|done]. injection Hf as Hf. eauto. Qed.
Lemma view_some {A B} (f : A -> B) (o o' : option A) : f <$> o' = f <$> o -> is_Some o -> is_Some o'.
Proof. intros Hf [x ->]. destruct o'; [by eexists|done]. Qed.
Lemma same_dir_dents s s' : same_dir s s' -> dents_ok s -> dents_ok s'.
Proof.
  intros [Ha Hv] [A1 A2 A3 A4 A5].
  split; intros *; rewrite ?Ha; eauto.
  - intros H1. apply (view_some _ _ _ (Hv _)). eauto.
  - intros (y & Hy & [=Hc Hl])%(fmap_view _ _ _ _ (Hv n)). rewrite <-Hl, (A5 n y Hy). unfold in_directory. by setoid_rewrite Ha.
Qed.
Lemma same_vnodes_ok s s' : same_vnodes s s' -> vnodes_ok s -> vnodes_ok s'.
Proof.
  intros (Ht & Hm & Hn & Hv) [A1 A2 A3 A4 A5 A6 A7]. split; rewrite ?Ht, ?Hm; eauto.
  - intros v x Hx. destruct (A5 v x Hx) as [?|Hs]; [by left|right]. by apply (view_some _ _ _ (Hv _)).
  - intros n x (y & Hy & Hl)%(fmap_view _ _ _ _ (Hv n)). rewrite <-Hl, (A6 n y Hy). unfold has_vnode. by rewrite Hm.
Qed.

(** ** The operations on the tables *)

Lemma wp_kmalloc (Q : bool -> semfs -> Prop) s :
  (forall b m, (memory s = [] -> b = true /\ m = []) -> Q b (set_memory m s)) -> wp kmalloc Q s.
Proof. intros HQ. unfold kmalloc. wp_simpl. apply HQ. intros ->. done. Qed.
Lemma sem_at_memory m s n : sem_at (set_memory m s) n = sem_at s n.
Proof. done. Qed.
Lemma memory_vnodes m s : vnodes_ok s -> vnodes_ok (set_memory m s).
Proof. intros Hk. apply (same_vnodes_ok s); [|done]. split_and!; try done. apply Hk. Qed.
Lemma memory_dents m s : dents_ok s -> dents_ok (set_memory m s).
Proof. by apply same_dir_dents. Qed.

Lemma semarray_get_eq s n x : sem_at s n = Some x -> semarray_get n s = Ret (Some x) s.
Proof.
  intros Hx. pose proof (sem_at_range _ _ _ Hx). unfold semarray_get. kunfold. rewrite (proj2 (Z.ltb_lt _ _)) by lia. cbn.
  unfold sem_at in Hx. destruct (Z.leb_spec 0 n); [|lia]. by rewrite Hx.
Qed.
Lemma semarray_set_eq s n o : 0 <= n < num (semfs_sems s) -> semarray_set n o s = Ret tt (set_sems (<[Z.to_nat n := o]> (semfs_sems s)) s).
Proof. intros Hn. unfold semarray_set. kunfold. by rewrite (proj2 (Z.ltb_lt _ _)) by lia. Qed.

Lemma vnode_loop_spec n s l : (forall v, v ∈ l -> is_Some (vnodes s !! v)) ->
  exists r, vnode_loop l n s = Ret r s /\
    match r with
    | Some v => v ∈ l /\ exists x, vnodes s !! v = Some x /\ semv_semnum x = n
    | None => forall v x, v ∈ l -> vnodes s !! v = Some x -> semv_semnum x <> n
    end.
Proof.
  induction l as [|v l IH]; intros Hl; cbn [vnode_loop].
  { exists None. split; [done|]. by intros v x ?%elem_of_nil. }
  destruct (Hl v ltac:(left)) as [x Hx]. unfold mbind, K_bind, get, deref. rewrite Hx. cbn. destruct (Z.eqb_spec (semv_semnum x) n) as [Hn|Hn].
  - exists (Some v). split; [done|]. split; [by left|]. eauto.
  - destruct IH as (r & -> & Hr); [intros v' Hv'; apply Hl; by right|]. exists r. split; [done|]. destruct r as [v'|].
    + destruct Hr as [Hin Hex]. split; [by right|done].
    + intros v' x' [->|Hin]%elem_of_cons Hx'; [congruence|eauto].
Qed.

(** The state after [semfs_getvnode] has counted one more reference to [v]. *)
Definition counted v n s s' : Prop :=
  vnodes s' = <[v := Semv n (default 0 (vn_refcount <$> vnodes s !! v) + 1)]> (vnodes s) /\
  (forall x, vnodes s !! v = Some x -> semv_semnum x = n) /\
  semfs_dents s' = semfs_dents s /\ num (semfs_sems s') = num (semfs_sems s) /\
  forall m, sem_at s' m = if m =? n then set_hasvnode true <$> sem_at s m else sem_at s m.
Definition getvnode_post n s (r : Z * option Z) s' : Prop :=
  vnodes_ok s' /\ (memory s = [] -> memory s' = []) /\
  ((exists v, r = (0, Some v) /\ counted v n s s') \/
   r = (ENOMEM, None) /\ memory s <> [] /\ exists m, s' = set_memory m s).

Lemma counted_vnodes v n s s' t : vnodes_ok s -> n = SEMFS_ROOTDIR \/ is_Some (sem_at s n) -> counted v n s s' ->
  semfs_vnodes s' = t -> NoDup t -> (forall w, w ∈ t <-> w = v \/ w ∈ semfs_vnodes s) ->
  (forall w x, vnodes s !! w = Some x -> semv_semnum x = n -> w = v) -> vnodes_ok s'.
Proof.
  intros [A1 A2 A3 A4 A5 A6 A7] Hn (Hm & Hold & _ & Hnum & Hsem) <- Hnd Ht Hone.
  assert (Hl : forall w x, vnodes s' !! w = Some x -> w = v /\ semv_semnum x = n /\ 1 <= vn_refcount x \/ w <> v /\ vnodes s !! w = Some x).
  { intros w x. rewrite Hm. intros [(<- & <-)|[Hne Hx]]%lookup_insert_Some; [left|by right]. split_and!; [done|done|]. cbn.
    destruct (vnodes s !! v) as [y|] eqn:Hy; cbn; [specialize (A3 v y Hy)|]; lia. }
  split; [done| | | | | |by rewrite Hnum].
  - intros w. rewrite Ht, Hm, lookup_insert_is_Some', A2. naive_solver.
  - intros w x Hx. destruct (Hl w x Hx) as [(_ & _ & ?)|[_ ?]]; eauto.
  - intros w w' x x' Hx Hx' E. destruct (Hl w x Hx) as [(-> & E1 & _)|[Hne H1]], (Hl w' x' Hx') as [(-> & E2 & _)|[Hne' H2]]; eauto.
    + symmetry. apply (Hone w' x'); [done|congruence].
    + apply (Hone w x); [done|congruence].
  - intros w x Hx. assert (Hs : forall m, is_Some (sem_at s m) -> is_Some (sem_at s' m)).
    { intros m [y Hy]. rewrite Hsem. case_match; [rewrite Hy|]; eauto. }
    destruct (Hl w x Hx) as [(-> & -> & _)|[_ H1]]; [destruct Hn; auto|]. destruct (A5 w x H1); auto.
  - intros m x Hx. rewrite Hsem in Hx. destruct (Z.eqb_spec m n) as [->|Hne].
    + destruct (sem_at s n) as [y|]; [|done]. injection Hx as <-. cbn. split; [|done]. intros _. exists v. eexists. rewrite Hm, lookup_insert_eq. done.
    + rewrite (A6 m x Hx). split; intros (w & y & Hw & E); exists w, y; (split; [|done]).
      * rewrite Hm, lookup_insert_ne; [done|]. intros ->. apply Hold in Hw. congruence.
      * destruct (Hl w y Hw) as [(-> & E' & _)|[_ ?]]; [congruence|done].
Qed.
Lemma vnode_loop_eq s n r : vnodes_ok s -> vnode_loop (semfs_vnodes s) n s = Ret r s -> 
  match r with
  | Some v => exists x, vnodes s !! v = Some x /\ semv_semnum x = n
  | None => forall v x, vnodes s !! v = Some x -> semv_semnum x <> n
  end.
Proof.
  intros Hk E. destruct (vnode_loop_spec n s (semfs_vnodes s)) as (r' & E' & Hr); [intros v; apply Hk|]. rewrite E' in E. injection E as <-.
  destruct r' as [v|]; [by destruct Hr|]. intros v x Hx. apply (Hr v x); [|done]. apply Hk. by eexists.
Qed.
Lemma getvnode_spec s n : vnodes_ok s -> n = SEMFS_ROOTDIR \/ is_Some (sem_at s n) -> wp (semfs_getvnode n) (getvnode_post n s) s.
Proof.
  intros Hk Hn. unfold semfs_getvnode. wp_simpl.
  destruct (vnode_loop_spec n s (semfs_vnodes s)) as (r & Er & _); [intros v; apply Hk|]. erewrite wp_eq by exact Er. apply vnode_loop_eq in Er; [|done].
  destruct r as [v|].
  - destruct Er as (x & Hx & Ex). unfold VOP_INCREF. wp_simpl. set (s' := set_vnodes _ s).
    assert (Hc : counted v n s s').
    { split; [unfold s'; cbn; rewrite Hx, Ex; done|]. split; [intros y Hy; congruence|]. split; [done|]. split; [done|]. intros m. unfold s'. change (sem_at (set_vnodes _ s) m) with (sem_at s m).
      destruct (Z.eqb_spec m n) as [->|]; [|done]. destruct (sem_at s n) as [y|] eqn:Hy; [|done]. cbn. f_equal. destruct y as [c h l]. unfold set_hasvnode. cbn. f_equal.
      apply (proj2 (vk_mark s Hk n _ Hy)). exists v, x. done. }
    split; [|split; [done|left; exists v; done]]. eapply (counted_vnodes v n s s'); [done|done|done|reflexivity|apply Hk| |].
    + intros w. cbn. split; [auto|]. intros [->|?]; [|done]. apply Hk. by eexists.
    + intros w y Hw Ey. eapply (vk_one s Hk); [done|done|congruence].
  - unfold semfs_vnode_create. wp_simpl. apply wp_kmalloc. intros b m Hb. destruct b; cbn [negb]; wp_simpl.
    2: { split; [by apply memory_vnodes|]. split; [intros H0; by apply Hb|]. right. split; [done|]. split; [intros H0; by destruct (Hb H0)|]. by exists m. }
    set (v := fresh (dom (vnodes (set_memory m s)))). assert (Hv : vnodes s !! v = None) by (apply not_elem_of_dom, (is_fresh (dom (vnodes s)))).
    apply wp_kmalloc. intros b m' Hb'. destruct b; cbn [negb]; wp_simpl.
    2: { unfold semfs_vnode_destroy. wp_simpl. cbn [vnodes set_memory set_vnodes]. rewrite lookup_insert_eq. wp_simpl. cbn [vn_refcount]. rewrite wp_KASSERT. split; [done|]. wp_simpl.
      assert (Hms : memory s <> []) by (intros H0; destruct (Hb H0) as [_ ->]; by destruct (Hb' eq_refl)).
      cbn [vnodes set_memory set_vnodes]. rewrite delete_insert_id by done. replace (set_vnodes _ _) with (set_memory m' s) by (by destruct s).
      split; [by apply memory_vnodes|]. split; [done|]. right. split; [done|]. split; [done|by exists m']. }
    assert (Hmem : memory s = [] -> m' = []) by (intros H0; destruct (Hb H0) as [_ ->]; by destruct (Hb' eq_refl)).
    set (s1 := set_table _ _). assert (Hat : forall k, sem_at s1 k = sem_at s k) by done.
    assert (Hnv : forall y, sem_at s n = Some y -> sems_hasvnode y = false).
    { intros y Hy. apply not_true_iff_false. rewrite (vk_mark s Hk n y Hy). intros (w & x & Hw & Ex). by apply (Er w x). }
    assert (Hok : forall s', counted v n s s' -> semfs_vnodes s' = semfs_vnodes s ++ [v] -> (memory s = [] -> memory s' = []) -> getvnode_post n s (0, Some v) s').
    { intros s' Hc Ht Hms. split; [|split; [done|left; by exists v]]. eapply (counted_vnodes v n s s'); [done|done|done|exact Ht| | |].
      - apply NoDup_app. split; [apply Hk|]. split; [|apply NoDup_singleton]. intros w Hw ->%list_elem_of_singleton. apply (vk_live s Hk) in Hw. rewrite Hv in Hw. by destruct Hw.
      - intros w. rewrite elem_of_app, list_elem_of_singleton. naive_solver.
      - intros w x Hw Ex. by destruct (Er w x). }
    destruct (Z.eqb_spec n SEMFS_ROOTDIR) as [->|Hne]; wp_simpl.
    + apply Hok; [|done|done]. split; [unfold s1; cbn; by rewrite Hv|]. split; [intros y; by rewrite Hv|]. split; [done|]. split; [done|]. intros k. rewrite Hat.
      destruct (Z.eqb_spec k SEMFS_ROOTDIR) as [->|]; [|done]. destruct (sem_at s SEMFS_ROOTDIR) as [y|] eqn:Hy; [|done]. apply sem_at_range in Hy. pose proof (vk_size s Hk). lia.
    + destruct Hn as [?|[y Hy]]; [done|]. pose proof (sem_at_range _ _ _ Hy) as Hr. erewrite wp_eq by (by apply (semarray_get_eq s1 n y)). wp_simpl.
      rewrite wp_KASSERT. split; [done|]. wp_simpl. rewrite wp_KASSERT. split; [by rewrite (Hnv y Hy)|]. wp_simpl. erewrite wp_eq by (by apply semarray_set_eq). 
      apply Hok; [|done|done]. split; [cbn; by rewrite Hv|]. split; [intros z; by rewrite Hv|]. split; [done|]. split; [unfold num; cbn; by rewrite length_insert|]. intros k. rewrite sem_at_set by done. rewrite Hat.
      destruct (Z.eqb_spec k n) as [->|]; [|done]. by rewrite Hy.
Qed.

(** The same tables, but for slots that are empty in both. *)
Record same_tables s s' : Prop := {
  sm_table : semfs_vnodes s' = semfs_vnodes s;
  sm_vnodes : vnodes s' = vnodes s;
  sm_size : num (semfs_sems s') <= SEMFS_ROOTDIR;
  sm_sems : forall n, sem_at s' n = sem_at s n;
  sm_dents : forall i, dent_at s' i = dent_at s i }.
Lemma same_tables_inv s s' : same_tables s s' -> inv s -> inv s'.
Proof.
  intros [A1 A2 A3 A4 A5] [B1 B2 B3]. split.
  - apply (same_vnodes_ok s); [|done]. split_and!; try done. intros n. by rewrite A4.
  - apply (same_dir_dents s); [|done]. split; [done|]. intros n. by rewrite A4.
  - intros n x. rewrite A4. apply B3.
Qed.
Lemma memory_same m s : inv s -> same_tables s (set_memory m s).
Proof. intros Hi. split; try done. apply Hi. Qed.

(** The directory as a relation, and the searches in it. *)
Definition dir s (name : list Z) n : Prop := exists i d, dent_at s i = Some d /\ semd_name d = name /\ semd_semnum d = n.
Lemma dir_functional s name n m : dents_ok s -> dir s name n -> dir s name m -> n = m.
Proof. intros Hk (i & d & Hi & E & <-) (j & d' & Hj & E' & <-). assert (i = j) as -> by (eapply (dk_names s Hk); [done|done|congruence]). congruence. Qed.
Lemma dir_sem s name n : dents_ok s -> dir s name n -> is_Some (sem_at s n).
Proof. intros Hk (i & d & Hi & _ & <-). by eapply (dk_sem s Hk). Qed.
Lemma find_entry_spec l name : forall i, match find_entry l i name with
  | Some (k, d) => exists j, k = i + Z.of_nat j /\ l !! j = Some (Some d) /\ semd_name d = name
  | None => forall j d, l !! j = Some (Some d) -> semd_name d <> name
  end.
Proof.
  induction l as [|[d|] l IH]; intros i; cbn [find_entry]; [done|case_bool_decide as Hd|].
  - exists O. split_and!; [lia|done|done].
  - specialize (IH (i + 1)). destruct (find_entry l (i + 1) name) as [[k d']|].
    + destruct IH as (j & -> & Hj). exists (S j). split; [lia|done].
    + intros [|j] d'; [intros [= ->]; congruence|apply IH].
  - specialize (IH (i + 1)). destruct (find_entry l (i + 1) name) as [[k d']|].
    + destruct IH as (j & -> & Hj). exists (S j). split; [lia|done].
    + intros [|j] d'; [done|apply IH].
Qed.
Lemma find_entry_dir s name : match find_entry (semfs_dents s) 0 name with
  | Some (k, d) => exists j, k = Z.of_nat j /\ dent_at s j = Some d /\ semd_name d = name /\ dir s name (semd_semnum d)
  | None => forall n, ~ dir s name n
  end.
Proof.
  pose proof (find_entry_spec (semfs_dents s) name 0) as Hf. destruct (find_entry _ 0 name) as [[k d]|].
  - destruct Hf as (j & -> & Hj & Hn). assert (Hd : dent_at s j = Some d) by (unfold dent_at; by rewrite Hj).
    exists j. split_and!; [lia|done|done|]. by exists j, d.
  - intros n (i & d & Hi & Hn & _). unfold dent_at in Hi. destruct (semfs_dents s !! i) as [[d'|]|] eqn:Ei; [|done..]. injection Hi as ->. by apply (Hf i d).
Qed.
Lemma creat_loop_spec l n name : forall i empty, let r := creat_loop l i n empty name in
  match r.2 with
  | Some d => exists j, l !! j = Some (Some d) /\ semd_name d = name
  | None => (forall j d, l !! j = Some (Some d) -> semd_name d <> name) /\
      (r.1 = empty \/ exists j : nat, r.1 = i + Z.of_nat j /\ l !! j = Some None)
  end.
Proof.
  induction l as [|[d|] l IH]; intros i empty; cbn [creat_loop]; [by split; [|left]|case_bool_decide as Hd; [by exists O|]|];
    [specialize (IH (i + 1) empty)|specialize (IH (i + 1) (if empty =? n then i else empty))]; cbn zeta in *; destruct (creat_loop _ _ _ _ _) as [e [d'|]]; cbn [fst snd] in *.
  - destruct IH as (j & Hj). by exists (S j).
  - destruct IH as [H1 H2]. split; [intros [|j] d'; [by intros [= <-]|apply H1]|]. destruct H2 as [->|(j & -> & Hj)]; [by left|right]. exists (S j). split; [lia|done].
  - destruct IH as (j & Hj). by exists (S j).
  - destruct IH as [H1 H2]. split; [intros [|j] d'; [done|apply H1]|]. destruct H2 as [->|(j & -> & Hj)].
    + destruct (empty =? n); [right; exists O; split; [lia|done]|by left].
    + right. exists (S j). split; [lia|done].
Qed.

(** ** [semfs_getvnode], [semfs_lookup] *)

Lemma counted_inv v n s s' : inv s -> vnodes_ok s' -> counted v n s s' -> inv s'.
Proof.
  intros [A1 A2 A3] Hk (_ & _ & Hd & _ & Hs). split; [done| |].
  - apply (same_dir_dents s); [|done]. split; [intros i; unfold dent_at; by rewrite Hd|]. intros m. rewrite Hs. case_match; [|done]. by destruct (sem_at s m).
  - intros m x. rewrite Hs. case_match; [|apply A3]. destruct (sem_at s m) as [y|]; [|done]. intros [= <-]. cbn. apply orb_true_r.
Qed.
Lemma getvnode_inv s n : inv s -> n = SEMFS_ROOTDIR \/ is_Some (sem_at s n) -> wp (semfs_getvnode n) (fun r s' => inv s' /\ getvnode_post n s r s') s.
Proof.
  intros Hi Hn. eapply wp_mono; [|by apply getvnode_spec; [apply Hi|]]. cbv beta. intros r s' Hp. split; [|done].
  destruct Hp as (Hk & _ & [(v & _ & Hc)|(_ & _ & m & ->)]); [by eapply counted_inv|]. apply (same_tables_inv s); [by apply memory_same|done].
Qed.
Definition lookup_post dirvn path s (r : Z * option Z) s' : Prop :=
  inv s' /\
  (dots path = true -> r = (0, Some dirvn) /\ exists x, vnodes s !! dirvn = Some x /\ s' = set_vnodes (<[dirvn := Semv (semv_semnum x) (vn_refcount x + 1)]> (vnodes s)) s) /\
  (dots path = false -> (forall n, dir s path n -> getvnode_post n s r s') /\ ((forall n, ~ dir s path n) -> r = (ENOENT, None) /\ s' = s)).
Lemma incref_inv v x s : inv s -> vnodes s !! v = Some x -> inv (set_vnodes (<[v := Semv (semv_semnum x) (vn_refcount x + 1)]> (vnodes s)) s).
Proof.
  intros Hi Hx. pose proof (inv_vnodes s Hi) as Hk. assert (Hn : semv_semnum x = SEMFS_ROOTDIR \/ is_Some (sem_at s (semv_semnum x))) by by apply (vk_sem s Hk v x).
  assert (Hc : counted v (semv_semnum x) s (set_vnodes (<[v := Semv (semv_semnum x) (vn_refcount x + 1)]> (vnodes s)) s)).
  { split; [cbn; by rewrite Hx|]. split; [intros y Hy; congruence|]. split; [done|]. split; [done|]. intros m. change (sem_at (set_vnodes _ s) m) with (sem_at s m).
    destruct (Z.eqb_spec m (semv_semnum x)) as [->|]; [|done]. destruct (sem_at s (semv_semnum x)) as [[c h l]|] eqn:Hy; [|done]. cbn. unfold set_hasvnode. cbn. do 2 f_equal.
    apply (proj2 (vk_mark s Hk _ _ Hy)). by exists v, x. }
  eapply counted_inv; [done| |done]. eapply (counted_vnodes v); [done|done|done|reflexivity|apply Hk| |].
  - intros w. cbn. split; [auto|]. intros [->|?]; [|done]. apply Hk. by eexists.
  - intros w y Hw Ey. by eapply (vk_one s Hk).
Qed.
Lemma sem_lookup_spec dirvn path s : inv s -> is_Some (vnodes s !! dirvn) -> wp (semfs_lookup dirvn path) (lookup_post dirvn path s) s.
Proof.
  intros Hi [x Hx]. unfold semfs_lookup. destruct (dots path) eqn:Hd.
  - unfold VOP_INCREF. wp_simpl. split; [by apply incref_inv|]. split; [|by rewrite Hd]. intros _. split; [done|]. by exists x.
  - wp_simpl. pose proof (find_entry_dir s path) as Hf. destruct (find_entry _ 0 path) as [[k d]|].
    + destruct Hf as (j & _ & Hj & _ & Hdir). eapply wp_mono; [|apply getvnode_inv; [done|right; apply (dir_sem s path); [apply Hi|done]]].
      cbv beta. intros r s' [Hi' Hp]. split; [done|]. split; [by rewrite Hd|]. intros _. split; [|intros Hno; by destruct (Hno _ Hdir)].
      intros n Hn. by rewrite (dir_functional s path n (semd_semnum d)) by (done || apply Hi).
    + wp_simpl. split; [done|]. split; [by rewrite Hd|]. intros _. split; [intros n Hn; by destruct (Hf n)|done].
Qed.

(** ** [semfs_remove] and [semfs_reclaim] *)

Lemma dent_index s (i : nat) o : (i < length (semfs_dents s))%nat -> direntryarray_set (Z.of_nat i) o s = Ret tt (set_dents (<[i := o]> (semfs_dents s)) s).
Proof. intros Hi. unfold direntryarray_set, num. kunfold. rewrite (proj2 (Z.ltb_lt _ _)) by lia. by rewrite Nat2Z.id. Qed.
(** The slot [n] holds [o] now; the entry [i] is [e]. *)
Definition slot_is n o s s' : Prop :=
  (forall m, sem_at s' m = if m =? n then o else sem_at s m) /\ num (semfs_sems s') = num (semfs_sems s).
Definition entry_is (i : nat) e s s' : Prop := forall j, dent_at s' j = if decide (j = i) then e else dent_at s j.

(** Nothing is in the way of a change to a slot that the vnodes or the directory do not use. *)
Lemma slot_vnodes n o s s' : vnodes_ok s -> slot_is n o s s' -> semfs_vnodes s' = semfs_vnodes s -> vnodes s' = vnodes s ->
  (forall x, o = Some x -> sems_hasvnode x = true <-> has_vnode s n) -> (has_vnode s n -> is_Some o) -> vnodes_ok s'.
Proof.
  intros [A1 A2 A3 A4 A5 A6 A7] [Hs Hn] Ht Hm Hmark Ho. split; rewrite ?Ht, ?Hm, ?Hn; eauto.
  - intros v x Hx. destruct (A5 v x Hx) as [?|Hy]; [by left|right]. rewrite Hs. destruct (Z.eqb_spec (semv_semnum x) n) as [E|]; [|done]. apply Ho. by exists v, x.
  - intros m x. rewrite Hs. assert (Hh : forall k, has_vnode s' k <-> has_vnode s k) by (intros k; unfold has_vnode; by rewrite Hm). rewrite Hh.
    destruct (Z.eqb_spec m n) as [->|]; [apply Hmark|apply A6].
Qed.
Lemma in_dir_entry i e s s' m : entry_is i e s s' -> (forall d, dent_at s i = Some d -> semd_semnum d <> m) -> (forall d, e = Some d -> semd_semnum d <> m) ->
  in_directory s' m <-> in_directory s m.
Proof.
  intros He H1 H2. split; intros (j & d & Hj & E); exists j, d; (split; [|done]).
  - rewrite He in Hj. case_decide; [|done]. by destruct (H2 d Hj).
  - rewrite He. case_decide as Hji; [|done]. rewrite Hji in Hj. by destruct (H1 d Hj).
Qed.

Definition remove_post name s (e : Z) s' : Prop :=
  inv s' /\ (memory s' = memory s) /\
  (dots name = true -> e = EINVAL /\ s' = s) /\
  (dots name = false -> ((forall n, ~ dir s name n) -> e = ENOENT /\ s' = s) /\
    (forall n x, dir s name n -> sem_at s n = Some x -> e = 0 /\ vnodes s' = vnodes s /\ semfs_vnodes s' = semfs_vnodes s /\
       slot_is n (if sems_hasvnode x then Some (set_linked false x) else None) s s' /\
       forall name' m, dir s' name' m <-> name' <> name /\ dir s name' m)).
Lemma remove_dents i d n s s' : dents_ok s -> dent_at s i = Some d -> semd_semnum d = n ->
  entry_is i None s s' -> (forall m, m <> n -> sem_at s' m = sem_at s m) -> (forall x, sem_at s' n = Some x -> sems_linked x = false) ->
  dents_ok s' /\ forall name' m, dir s' name' m <-> name' <> semd_name d /\ dir s name' m.
Proof.
  intros Hk Hd <- He Hs Hn.
  assert (Hl : forall j d', dent_at s' j = Some d' -> j <> i /\ dent_at s j = Some d') by (intros j d'; rewrite He; by case_decide).
  assert (Hne : forall j d', j <> i -> dent_at s j = Some d' -> semd_semnum d' <> semd_semnum d) by (intros j d' Hj Hj' E; by apply Hj, (dk_one s Hk j i d' d)).
  pose proof Hk as [A1 A2 A3 A4 A5]. split; [split|].
  - intros j k dj dk [_ Hj]%Hl [_ Hk']%Hl. eauto.
  - intros j k dj dk [_ Hj]%Hl [_ Hk']%Hl. eauto.
  - intros j d' [Hj Hj']%Hl. rewrite Hs by by eapply Hne. eauto.
  - intros j d' [_ Hj]%Hl. eauto.
  - intros m x Hx. destruct (Z.eq_dec m (semd_semnum d)) as [->|Hm].
    + rewrite (Hn x Hx). split; [done|]. intros (j & d' & Hj & E). apply Hl in Hj as [Hj Hj']. by destruct (Hne j d').
    + rewrite Hs in Hx by done. rewrite (A5 m x Hx). symmetry. apply (in_dir_entry i None); [done| |done]. intros d' Hd'. congruence.
  - intros name' m. split.
    + intros (j & d' & Hj & <- & E). apply Hl in Hj as [Hj Hj']. split; [|by exists j, d']. intros E'. by apply Hj, (A1 j i d' d).
    + intros [Hnm (j & d' & Hj & <- & E)]. exists j, d'. split; [|done]. rewrite He. case_decide; [|done]. subst. congruence.
Qed.
Lemma remove_steps s i d x : inv s -> dent_at s i = Some d -> sem_at s (semd_semnum d) = Some x ->
  wp (remove_unlink (semd_semnum d);; remove_finish (semd_semnum d) (Z.of_nat i)) (fun _ s' => memory s' = memory s /\ vnodes s' = vnodes s /\
    semfs_vnodes s' = semfs_vnodes s /\ slot_is (semd_semnum d) (if sems_hasvnode x then Some (set_linked false x) else None) s s' /\ entry_is i None s s') s.
Proof.
  intros Hi Hd Hx. set (n := semd_semnum d) in *. pose proof (sem_at_range _ _ _ Hx) as Hn. pose proof (dent_at_range _ _ _ Hd) as Hil.
  assert (Hlink : sems_linked x = true) by (apply (dk_mark s (inv_dents s Hi) n x Hx); by exists i, d).
  unfold remove_unlink, remove_finish. wp_simpl. erewrite wp_eq by (by apply semarray_get_eq). wp_simpl. rewrite wp_KASSERT. split; [done|]. wp_simpl.
  erewrite wp_eq by (by apply semarray_set_eq). set (s1 := set_sems _ s). assert (Hs1 : forall m, sem_at s1 m = if m =? n then Some (set_linked false x) else sem_at s m) by (intros m; by apply sem_at_set).
  assert (Hx1 : sem_at s1 n = Some (set_linked false x)) by (by rewrite Hs1, Z.eqb_refl).
  assert (Hn1 : num (semfs_sems s1) = num (semfs_sems s)) by (unfold num, s1; cbn; by rewrite length_insert).
  wp_simpl. erewrite wp_eq by (by apply semarray_get_eq). wp_simpl. cbn [sems_hasvnode set_linked]. destruct (sems_hasvnode x); cbn [negb]; wp_simpl.
  - erewrite wp_eq by (by apply (dent_index s1)). split_and!; [done|done|done| |].
    + split; [exact Hs1|exact Hn1].
    + intros j. by rewrite (dent_at_set s1).
  - erewrite wp_eq by (apply semarray_set_eq; by rewrite Hn1). set (s2 := set_sems _ s1). erewrite wp_eq by (by apply (dent_index s2)).
    assert (Hs2 : forall m, sem_at s2 m = if m =? n then None else sem_at s m).
    { intros m. unfold s2. rewrite sem_at_set by (by rewrite Hn1). rewrite Hs1. by destruct (m =? n). }
    split_and!; [done|done|done| |intros j; by rewrite (dent_at_set s2)].
    split; [exact Hs2|]. unfold num, s2, s1. cbn. by rewrite !length_insert.
Qed.
Lemma remove_spec name s : inv s -> wp (semfs_remove name) (remove_post name s) s.
Proof.
  intros Hi. unfold semfs_remove. destruct (dots name) eqn:Hdots.
  { wp_simpl. split; [done|]. split; [done|]. split; [done|]. by rewrite Hdots. }
  wp_simpl. pose proof (find_entry_dir s name) as Hf. destruct (find_entry _ 0 name) as [[k d]|].
  2: { wp_simpl. split; [done|]. split; [done|]. split; [by rewrite Hdots|]. intros _. split; [done|]. intros n x Hd. by destruct (Hf n). }
  destruct Hf as (i & -> & Hd & Hname & Hdir). destruct (dir_sem s name _ (inv_dents s Hi) Hdir) as [x Hx].
  pose proof (remove_steps s i d x Hi Hd Hx) as Hst. rewrite wp_bind in Hst. wp_simpl. eapply wp_mono; [|exact Hst]. cbv beta. intros _ s1 H1. wp_simpl.
  eapply wp_mono; [|exact H1]. cbv beta. intros _ s' (Hm & Hv & Ht & Hs & He). wp_simpl. set (n := semd_semnum d) in *.
  assert (Hnew : sem_at s' n = if sems_hasvnode x then Some (set_linked false x) else None) by (rewrite (proj1 Hs), Z.eqb_refl; done).
  assert (Hold : forall m, m <> n -> sem_at s' m = sem_at s m) by (intros m Hne; rewrite (proj1 Hs); by destruct (Z.eqb_spec m n)).
  destruct (remove_dents i d n s s' (inv_dents s Hi) Hd eq_refl He Hold) as [Hdk Hdir'].
  { intros y. rewrite Hnew. destruct (sems_hasvnode x); [|done]. by intros [= <-]. }
  assert (Hmark := vk_mark s (inv_vnodes s Hi) n x Hx).
  assert (Hi' : inv s').
  { split; [|done|].
    - eapply (slot_vnodes n); [apply Hi|exact Hs|done|done| |].
      + intros y. destruct (sems_hasvnode x) eqn:Hh; [|done]. intros [= <-]. cbn. by rewrite Hh.
      + intros Hhv. rewrite (proj2 Hmark Hhv). by eexists.
    - intros m y. destruct (Z.eq_dec m n) as [->|Hne]; [|rewrite Hold by done; apply Hi]. rewrite Hnew. destruct (sems_hasvnode x) eqn:Hh; [|done]. intros [= <-]. cbn. by rewrite Hh. }
  split; [done|]. split; [done|]. split; [by rewrite Hdots|]. intros _. split; [intros Hno; by destruct (Hno n)|]. intros m y Hdm Hy.
  assert (m = n) as -> by (by apply (dir_functional s name); [apply Hi|..]). assert (y = x) as -> by congruence. rewrite <-Hname. done.
Qed.

(** The last reference goes: so does the vnode, and the semaphore if it was removed before. *)
Definition reclaim_post v x s (e : Z) s' : Prop :=
  inv s' /\ memory s' = memory s /\ semfs_dents s' = semfs_dents s /\
  (1 < vn_refcount x -> e = EBUSY /\ vnodes s' = <[v := Semv (semv_semnum x) (vn_refcount x - 1)]> (vnodes s) /\ semfs_sems s' = semfs_sems s) /\
  (vn_refcount x <= 1 -> e = 0 /\ vnodes s' = delete v (vnodes s) /\ forall m, sem_at s' m =
    if m =? semv_semnum x then y ← sem_at s m; if sems_linked y then Some (set_hasvnode false y) else None else sem_at s m).
Lemma vnodearray_remove_spec v l : NoDup l -> NoDup (vnodearray_remove v l) /\ forall w, w ∈ vnodearray_remove v l <-> w <> v /\ w ∈ l.
Proof.
  induction l as [|x l IH]; intros Hl; cbn; [split; [done|]; intros w; rewrite elem_of_nil; naive_solver|].
  apply NoDup_cons in Hl as [Hx Hl]. destruct (IH Hl) as [H1 H2]. destruct (Z.eqb_spec x v) as [->|Hne].
  - split; [done|]. intros w. rewrite elem_of_cons. split; [|naive_solver]. intros Hw. split; [|by right]. by intros ->.
  - split; [apply NoDup_cons; split; [|done]; rewrite H2; naive_solver|]. intros w. rewrite !elem_of_cons, H2. naive_solver.
Qed.
Lemma decr_inv v x s : inv s -> vnodes s !! v = Some x -> 1 < vn_refcount x -> inv (set_vnodes (<[v := Semv (semv_semnum x) (vn_refcount x - 1)]> (vnodes s)) s).
Proof.
  intros [[A1 A2 A3 A4 A5 A6 A7] B C] Hx Hc. set (s' := set_vnodes _ s).
  assert (Hl : forall w y, vnodes s' !! w = Some y -> 1 <= vn_refcount y /\ exists z, vnodes s !! w = Some z /\ semv_semnum z = semv_semnum y).
  { intros w y. unfold s'. cbn [vnodes set_vnodes]. intros [(<- & <-)|[Hne Hy]]%lookup_insert_Some; cbn; [split; [lia|]; by exists x|]. split; [eauto|]. by exists y. }
  assert (Hh : forall n, has_vnode s' n <-> has_vnode s n).
  { intros n. split; intros (w & y & Hw & <-); [destruct (Hl w y Hw) as (_ & z & Hz & E); by exists w, z|].
    destruct (decide (w = v)) as [->|Hne]; [|exists w, y; split; [|done]; cbn; by rewrite lookup_insert_ne].
    exists v. eexists. cbn. rewrite lookup_insert_eq. split; [done|]. cbn. congruence. }
  split; [split| |]; [done| | | | | |done| |].
  - intros w. cbn. rewrite lookup_insert_is_Some', A2. split; [naive_solver|]. intros [->|?]; [|done]. by eexists.
  - intros w y Hw. apply (Hl w y Hw).
  - intros w w' y y' (_ & z & Hz & E)%Hl (_ & z' & Hz' & E')%Hl Eq. apply (A4 w w' z z'); [done|done|congruence].
  - intros w y (_ & z & Hz & <-)%Hl. by apply (A5 w z).
  - intros n y Hy. rewrite Hh. by apply A6.
  - by apply (same_dir_dents s).
  - exact C.
Qed.
Lemma reclaim_drop_inv v x s s' : inv s -> vnodes s !! v = Some x -> semfs_vnodes s' = vnodearray_remove v (semfs_vnodes s) -> vnodes s' = delete v (vnodes s) ->
  semfs_dents s' = semfs_dents s -> num (semfs_sems s') = num (semfs_sems s) -> (forall m, sem_at s' m =
    if m =? semv_semnum x then y ← sem_at s m; if sems_linked y then Some (set_hasvnode false y) else None else sem_at s m) -> inv s'.
Proof.
  intros [[A1 A2 A3 A4 A5 A6 A7] [B1 B2 B3 B4 B5] C] Hx Ht Hm Hd Hnum Hs. destruct (vnodearray_remove_spec v _ A1) as [H1 H2].
  assert (Hl : forall w y, vnodes s' !! w = Some y -> w <> v /\ vnodes s !! w = Some y) by (intros w y; rewrite Hm; by intros [? ?]%lookup_delete_Some).
  assert (Hne : forall w y, w <> v -> vnodes s !! w = Some y -> semv_semnum y <> semv_semnum x) by (intros w y Hw Hy E; by apply Hw, (A4 w v y x)).
  assert (Hde : forall i, dent_at s' i = dent_at s i) by (intros i; unfold dent_at; by rewrite Hd).
  assert (Hsome : forall m, is_Some (sem_at s m) -> m <> semv_semnum x -> is_Some (sem_at s' m)) by (intros m Hy Hmx; rewrite Hs; by destruct (Z.eqb_spec m (semv_semnum x))).
  assert (Hin : forall m, in_directory s' m <-> in_directory s m) by (intros m; unfold in_directory; by setoid_rewrite Hde).
  split; [split| split|].
  - by rewrite Ht.
  - intros w. rewrite Ht, H2, A2, Hm, lookup_delete_is_Some. naive_solver.
  - intros w y [_ Hy]%Hl. eauto.
  - intros w w' y y' [_ Hy]%Hl [_ Hy']%Hl. eauto.
  - intros w y [Hw Hy]%Hl. destruct (A5 w y Hy) as [?|Hse]; [by left|right]. apply Hsome; [done|by eapply Hne].
  - intros m y. rewrite Hs. destruct (Z.eqb_spec m (semv_semnum x)) as [->|Hmx].
    + intros (z & Hz & Hy)%bind_Some. destruct (sems_linked z); [|done]. injection Hy as <-. cbn. split; [done|]. intros (w & y & [Hw Hy]%Hl & E). by destruct (Hne w y).
    + intros Hy. rewrite (A6 m y Hy). split; intros (w & z & Hw & E).
      * exists w, z. split; [|done]. rewrite Hm. apply lookup_delete_Some. split; [|done]. intros <-. congruence.
      * apply Hl in Hw as [_ Hw]. by exists w, z.
  - by rewrite Hnum.
  - intros i j d d'. rewrite !Hde. apply B1.
  - intros i j d d'. rewrite !Hde. apply B2.
  - intros i d. rewrite Hde. intros Hi. destruct (B3 i d Hi) as [y Hy]. rewrite Hs. destruct (Z.eqb_spec (semd_semnum d) (semv_semnum x)); [|by eexists].
    rewrite Hy. cbn. assert (Hlk : sems_linked y = true) by (apply (B5 _ y Hy); by exists i, d). rewrite Hlk. by eexists.
  - intros i d. rewrite Hde. apply B4.
  - intros m y. rewrite Hin, Hs. destruct (Z.eqb_spec m (semv_semnum x)); [|apply B5]. intros (z & Hz & Hy)%bind_Some. destruct (sems_linked z) eqn:Hlk; [|done].
    injection Hy as <-. cbn. rewrite <-(B5 m z Hz). by rewrite Hlk.
  - intros m y. rewrite Hs. destruct (Z.eqb_spec m (semv_semnum x)); [|apply C]. intros (z & Hz & Hy)%bind_Some. destruct (sems_linked z) eqn:Hlk; [|done]. injection Hy as <-. cbn. by rewrite Hlk.
Qed.
Lemma reclaim_spec v x s : inv s -> vnodes s !! v = Some x -> wp (semfs_reclaim v) (reclaim_post v x s) s.
Proof.
  intros Hi Hx. unfold semfs_reclaim. wp_simpl. destruct (Z.ltb_spec 1 (vn_refcount x)) as [Hc|Hc]; wp_simpl.
  { split; [by apply decr_inv|]. split; [done|]. split; [done|]. split; [done|lia]. }
  set (s1 := set_table _ s). pose proof (vk_count s (inv_vnodes s Hi) v x Hx) as Hone.
  assert (Hend : forall s', memory s' = memory s -> vnodes s' = vnodes s -> semfs_vnodes s' = vnodearray_remove v (semfs_vnodes s) -> semfs_dents s' = semfs_dents s ->
    num (semfs_sems s') = num (semfs_sems s) -> (forall m, sem_at s' m =
      if m =? semv_semnum x then y ← sem_at s m; if sems_linked y then Some (set_hasvnode false y) else None else sem_at s m) ->
    wp (semfs_vnode_destroy v) (fun _ => reclaim_post v x s 0) s').
  { intros s' E1 E2 E3 E4 E5 E6. unfold semfs_vnode_destroy. wp_simpl. rewrite E2, Hx. wp_simpl. rewrite wp_KASSERT. split; [apply Z.eqb_eq; lia|]. wp_simpl.
    split; [|split_and!; [done|done|lia|done]]. by eapply (reclaim_drop_inv v x s). }
  destruct (Z.eqb_spec (semv_semnum x) SEMFS_ROOTDIR) as [Er|Hne]; cbn [negb].
  - wp_simpl. apply Hend; try done. intros m. destruct (Z.eqb_spec m (semv_semnum x)) as [->|]; [|done].
    assert (Hno : sem_at s (semv_semnum x) = None).
    { destruct (sem_at s (semv_semnum x)) as [y|] eqn:Hy; [|done]. apply sem_at_range in Hy. pose proof (vk_size s (inv_vnodes s Hi)). lia. }
    change (sem_at s1 (semv_semnum x)) with (sem_at s (semv_semnum x)). by rewrite Hno.
  - destruct (vk_sem s (inv_vnodes s Hi) v x Hx) as [?|[y Hy]]; [done|]. pose proof (sem_at_range _ _ _ Hy) as Hn. set (n := semv_semnum x) in *.
    wp_simpl. erewrite wp_eq by (by apply (semarray_get_eq s1 n y)). wp_simpl. rewrite wp_KASSERT. split; [apply (vk_mark s (inv_vnodes s Hi) n y Hy); by exists v, x|]. wp_simpl.
    erewrite wp_eq by (by apply (semarray_set_eq s1)). set (s2 := set_sems _ s1). assert (Hs2 : forall m, sem_at s2 m = if m =? n then Some (set_hasvnode false y) else sem_at s m) by (intros m; by apply (sem_at_set s1)).
    assert (Hn2 : num (semfs_sems s2) = num (semfs_sems s)) by (unfold num, s2; cbn; by rewrite length_insert).
    destruct (sems_linked y) eqn:Hlk; cbn [negb]; wp_simpl.
    + apply Hend; try done. intros m. rewrite Hs2. destruct (Z.eqb_spec m n) as [->|]; [|done]. rewrite Hy. cbn. by rewrite Hlk.
    + erewrite wp_eq by (apply semarray_set_eq; by rewrite Hn2). rewrite wp_bind. apply Hend; try done.
      * unfold num. cbn. by rewrite !length_insert.
      * intros m. rewrite sem_at_set by (by rewrite Hn2). rewrite Hs2. destruct (Z.eqb_spec m n) as [->|]; [|done]. rewrite Hy. cbn. by rewrite Hlk.
Qed.

(** ** [semfs_creat] *)

Lemma sem_create_spec s : wp semfs_sem_create (fun o s' => exists m, s' = set_memory m s /\ (memory s = [] -> m = []) /\
  (o = Some (Sem 0 false false) \/ o = None /\ memory s <> [])) s.
Proof.
  unfold semfs_sem_create. rewrite wp_bind. apply wp_kmalloc. intros b1 m1 H1. destruct b1; cbn [negb]; wp_simpl.
  2: { exists m1. split; [done|]. split; [intros H0; by apply H1|]. right. split; [done|]. intros H0. by destruct (H1 H0). }
  apply wp_kmalloc. intros b2 m2 H2. cbn [memory set_memory] in H2. destruct b2; cbn [negb]; wp_simpl.
  2: { exists m2. split; [by destruct s|]. split; [intros H0; by apply H2, H1|]. right. split; [done|]. intros H0. by destruct (H2 (proj2 (H1 H0))). }
  apply wp_kmalloc. intros b3 m3 H3. cbn [memory set_memory] in H3. destruct b3; cbn [negb]; wp_simpl; exists m3; (split; [by destruct s|]);
    (split; [intros H0; by apply H3, H2, H1|]); [by left|right]. split; [done|]. intros H0. by destruct (H3 (proj2 (H2 (proj2 (H1 H0))))).
Qed.
Lemma direntry_create_spec name n s : wp (semfs_direntry_create name n) (fun o s' => exists m, s' = set_memory m s /\ (memory s = [] -> m = []) /\
  (o = Some (Direntry name n) \/ o = None /\ memory s <> [])) s.
Proof.
  unfold semfs_direntry_create. rewrite wp_bind. apply wp_kmalloc. intros b1 m1 H1. destruct b1; cbn [negb]; wp_simpl.
  2: { exists m1. split; [done|]. split; [intros H0; by apply H1|]. right. split; [done|]. intros H0. by destruct (H1 H0). }
  apply wp_kmalloc. intros b2 m2 H2. cbn [memory set_memory] in H2. destruct b2; cbn [negb]; wp_simpl; exists m2; (split; [by destruct s|]);
    (split; [intros H0; by apply H2, H1|]); [by left|right]. split; [done|]. intros H0. by destruct (H2 (proj2 (H1 H0))).
Qed.
Lemma free_slot_spec l : forall i, match free_slot l i with
  | Some k => exists j, k = i + Z.of_nat j /\ l !! j = Some None
  | None => True
  end.
Proof.
  induction l as [|[x|] l IH]; intros i; cbn [free_slot]; [done| |exists O; split; [lia|done]].
  specialize (IH (i + 1)). destruct (free_slot l (i + 1)) as [k|]; [|done]. destruct IH as (j & -> & Hj). exists (S j). split; [lia|done].
Qed.
(** A new semaphore in the slot [n], and otherwise the same. *)
Record placed n o s s' : Prop := {
  pl_free : sem_at s n = None;
  pl_range : 0 <= n < SEMFS_ROOTDIR /\ n < num (semfs_sems s') <= SEMFS_ROOTDIR;
  pl_slot : forall m, sem_at s' m = if m =? n then o else sem_at s m;
  pl_dents : semfs_dents s' = semfs_dents s;
  pl_table : semfs_vnodes s' = semfs_vnodes s;
  pl_vnodes : vnodes s' = vnodes s;
  pl_memory : memory s = [] -> memory s' = [] }.
Lemma insert_spec sem s : num (semfs_sems s) <= SEMFS_ROOTDIR -> wp (semfs_sem_insert sem) (fun r s' =>
  r.1 = 0 /\ placed r.2 (Some sem) s s' \/
  r.1 = ENOSPC /\ s' = s /\ num (semfs_sems s) = SEMFS_ROOTDIR \/ r.1 = ENOMEM /\ memory s <> [] /\ exists m, s' = set_memory m s) s.
Proof.
  intros Hsz. unfold semfs_sem_insert. wp_simpl. destruct (Z.eqb_spec (num (semfs_sems s)) SEMFS_ROOTDIR) as [Hfull|Hroom]; wp_simpl.
  { right. left. done. }
  pose proof (free_slot_spec (semfs_sems s) 0) as Hf. destruct (free_slot (semfs_sems s) 0) as [k|].
  - destruct Hf as (j & -> & Hj). rewrite Z.add_0_l. assert (Hjl := lookup_lt_Some _ _ _ Hj). assert (Hn : 0 <= Z.of_nat j < num (semfs_sems s)) by (unfold num; lia).
    wp_simpl. erewrite wp_eq by (by apply semarray_set_eq). wp_simpl. left. split; [done|]. cbn [snd]. split; try done.
    + unfold sem_at. rewrite (proj2 (Z.leb_le 0 _)), Nat2Z.id by lia. by rewrite Hj.
    + unfold num in *. cbn. rewrite length_insert. lia.
    + intros m. by apply sem_at_set.
  - wp_simpl. apply wp_kmalloc. intros b m Hb. destruct b; cbn [negb]; wp_simpl.
    2: { right. right. split; [done|]. split; [|by exists m]. intros H0. by destruct (Hb H0). }
    left. split; [done|]. cbn [snd]. split; try done.
    + destruct (sem_at s _) as [y|] eqn:Hy; [|done]. apply sem_at_range in Hy. lia.
    + unfold num in *. cbn. rewrite length_app. cbn. lia.
    + intros k. apply (sem_at_app (set_memory m s)).
    + intros H0. cbn. by apply Hb.
Qed.

(** Where a new entry goes. *)
Definition entry_added (d : semfs_direntry) s s' : Prop :=
  exists i, dent_at s i = None /\ entry_is i (Some d) s s' /\ (i < length (semfs_dents s'))%nat.
Definition creat_post (name : list Z) (excl : bool) s (r : Z * option Z) s' : Prop :=
  inv s' /\ (memory s = [] -> memory s' = []) /\
  (dots name = true -> r = (EEXIST, None) /\ s' = s) /\
  (dots name = false ->
    (forall n, dir s name n -> if excl then r = (EEXIST, None) /\ s' = s else getvnode_post n s r s') /\
    ((forall n, ~ dir s name n) ->
      (exists v n, r = (0, Some v) /\ sem_at s n = None /\ vnodes s !! v = None /\ vnodes s' = <[v := Semv n 1]> (vnodes s) /\
         (forall m, sem_at s' m = if m =? n then Some (Sem 0 true true) else sem_at s m) /\
         forall name' m, dir s' name' m <-> name' = name /\ m = n \/ dir s name' m) \/
      r.2 = None /\ same_tables s s' /\ (memory s <> [] \/ r.1 = ENOSPC /\ num (semfs_sems s) = SEMFS_ROOTDIR) /\ (r.1 = 0 \/ r.1 = ENOMEM \/ r.1 = ENOSPC))).

Lemma placed_vnodes n o s s' : vnodes_ok s -> placed n o s s' -> o = None \/ o = Some (Sem 0 false false) -> vnodes_ok s'.
Proof.
  intros Hk [A1 A2 A3 A4 A5 A6 A7] Ho. pose proof Hk as [B1 B2 B3 B4 B5 B6 B7].
  assert (Hno : ~ has_vnode s n). { intros (v & x & Hv & Ex). destruct (B5 v x Hv) as [?|[y Hy]]; [lia|congruence]. }
  assert (Hh : forall m, has_vnode s' m <-> has_vnode s m) by (intros m; unfold has_vnode; by rewrite A6).
  split; rewrite ?A5, ?A6; eauto; [|intros m x|lia].
  - intros v x Hv. destruct (B5 v x Hv) as [?|Hy]; [by left|right]. rewrite A3. destruct (Z.eqb_spec (semv_semnum x) n) as [E|]; [|done].
    destruct Hno. by exists v, x.
  - rewrite A3, Hh. destruct (Z.eqb_spec m n) as [->|]; [|apply B6]. destruct Ho as [-> | ->]; [done|]. intros [= <-]. cbn. split; [done|]. intros ?. by destruct Hno.
Qed.
(** The slot is emptied again, on a path of failure. *)
Lemma undo_slot n o s s1 s2 : vnodes_ok s -> placed n o s s1 -> semfs_vnodes s2 = semfs_vnodes s1 -> vnodes s2 = vnodes s1 ->
  (forall i, dent_at s2 i = dent_at s1 i) -> num (semfs_sems s2) = num (semfs_sems s1) ->
  (forall m, m <> n -> sem_at s2 m = sem_at s1 m) ->
  exists s3, semarray_set n None s2 = Ret tt s3 /\ same_tables s s3 /\ memory s3 = memory s2 /\ semfs_dents s3 = semfs_dents s2.
Proof.
  intros Hk [A1 A2 A3 A4 A5 A6 A7] Ht Hv Hd Hn Hs. assert (Hr : 0 <= n < num (semfs_sems s2)) by lia.
  eexists. split; [by apply semarray_set_eq|]. split; [|done]. split.
  - cbn. congruence.
  - cbn. congruence.
  - unfold num in *. cbn. rewrite length_insert. lia.
  - intros m. rewrite sem_at_set by done. destruct (Z.eqb_spec m n) as [->|Hne]; [done|]. rewrite Hs, A3 by done. by destruct (Z.eqb_spec m n).
  - intros i. change (dent_at (set_sems _ s2) i) with (dent_at s2 i). rewrite Hd. unfold dent_at. by rewrite A4.
Qed.

(** What the creation of a name that is not there comes to. *)
Definition new_post (name : list Z) s (r : Z * option Z) s' : Prop :=
  inv s' /\ (memory s = [] -> memory s' = []) /\
  ((exists v n, r = (0, Some v) /\ sem_at s n = None /\ vnodes s !! v = None /\ vnodes s' = <[v := Semv n 1]> (vnodes s) /\
      (forall m, sem_at s' m = if m =? n then Some (Sem 0 true true) else sem_at s m) /\
      forall name' m, dir s' name' m <-> name' = name /\ m = n \/ dir s name' m) \/
   r.2 = None /\ same_tables s s' /\ (memory s <> [] \/ r.1 = ENOSPC /\ num (semfs_sems s) = SEMFS_ROOTDIR) /\ (r.1 = 0 \/ r.1 = ENOMEM \/ r.1 = ENOSPC)).
Lemma new_fail name e s s' : inv s -> same_tables s s' -> memory s <> [] -> e = 0 \/ e = ENOMEM -> new_post name s (e, None) s'.
Proof.
  intros Hi Hs Hm He. split; [by apply (same_tables_inv s)|]. split; [done|]. right. split; [done|]. split; [done|]. split; [by left|]. cbn. destruct He; auto.
Qed.
Lemma added_dents s s' i name n : dents_ok s -> (forall m, ~ dir s name m) -> dots name = false -> sem_at s n = None ->
  dent_at s i = None -> entry_is i (Some (Direntry name n)) s s' -> (forall m, sem_at s' m = if m =? n then Some (Sem 0 true true) else sem_at s m) ->
  dents_ok s' /\ forall name' m, dir s' name' m <-> name' = name /\ m = n \/ dir s name' m.
Proof.
  intros [A1 A2 A3 A4 A5] Hno Hdots Hfree Hi He Hs.
  assert (Hl : forall j d, dent_at s' j = Some d -> j = i /\ d = Direntry name n \/ j <> i /\ dent_at s j = Some d).
  { intros j d. rewrite He. case_decide; [intros [= <-]; by left|by right]. }
  assert (Hn : forall j d, dent_at s j = Some d -> semd_semnum d <> n) by (intros j d Hj E; destruct (A3 j d Hj) as [y Hy]; congruence).
  assert (Hnm : forall j d, dent_at s j = Some d -> semd_name d <> name) by (intros j d Hj E; apply (Hno (semd_semnum d)); by exists j, d).
  split; [split|].
  - intros j k d d' Hj Hk E. destruct (Hl j d Hj) as [[-> ->]|[_ H1]], (Hl k d' Hk) as [[-> ->]|[_ H2]]; eauto; cbn in E; [by destruct (Hnm k d')|by destruct (Hnm j d)].
  - intros j k d d' Hj Hk E. destruct (Hl j d Hj) as [[-> ->]|[_ H1]], (Hl k d' Hk) as [[-> ->]|[_ H2]]; eauto; cbn in E; [by destruct (Hn k d')|by destruct (Hn j d)].
  - intros j d Hj. rewrite Hs. destruct (Hl j d Hj) as [[-> ->]|[_ H1]]; [cbn; rewrite Z.eqb_refl; by eexists|]. case_match; [by eexists|eauto].
  - intros j d Hj. destruct (Hl j d Hj) as [[-> ->]|[_ H1]]; [done|eauto].
  - intros m x. rewrite Hs. destruct (Z.eqb_spec m n) as [->|Hne].
    + intros [= <-]. cbn. split; [|done]. intros _. exists i, (Direntry name n). split; [|done]. rewrite He. by case_decide.
    + intros Hx. rewrite (A5 m x Hx). symmetry. apply (in_dir_entry i (Some (Direntry name n))); [done| |]; intros d Hd; [congruence|]. injection Hd as <-. cbn. congruence.
  - intros name' m. split.
    + intros (j & d & Hj & <- & <-). destruct (Hl j d Hj) as [[-> ->]|[_ H1]]; [by left|right]. by exists j, d.
    + intros [[-> ->]|(j & d & Hj & <- & <-)]; [exists i, (Direntry name n); split; [|done]; rewrite He; by case_decide|].
      exists j, d. split; [|done]. rewrite He. case_decide; [|done]. congruence.
Qed.
Lemma creat_vnode_spec name n i s s1 s2 : inv s -> (forall m, ~ dir s name m) -> dots name = false -> placed n (Some (Sem 0 false false)) s s1 ->
  dent_at s i = None -> entry_is i (Some (Direntry name n)) s s2 -> (i < length (semfs_dents s2))%nat ->
  semfs_sems s2 = semfs_sems s1 -> semfs_vnodes s2 = semfs_vnodes s1 -> vnodes s2 = vnodes s1 -> (memory s = [] -> memory s2 = []) ->
  wp (creat_vnode (Z.of_nat i) n) (new_post name s) s2.
Proof.
  intros Hi Hno Hdots Hpl Hfree He Hil Hsems Ht Hv Hm. pose proof Hi as [Hk Hd Hu]. pose proof Hpl as [A1 A2 A3 A4 A5 A6 A7].
  assert (Hat : forall m, sem_at s2 m = sem_at s1 m) by (intros m; unfold sem_at; by rewrite Hsems).
  assert (Hk2 : vnodes_ok s2).
  { apply (same_vnodes_ok s1); [|by eapply placed_vnodes; [..|right]]. split_and!; [done|done|rewrite Hsems; lia|]. intros m. by rewrite Hat. }
  assert (Hnew : sem_at s2 n = Some (Sem 0 false false)) by (by rewrite Hat, A3, Z.eqb_refl).
  unfold creat_vnode. rewrite wp_bind. eapply wp_mono; [|apply getvnode_spec; [done|right; rewrite Hnew; by eexists]]. cbv beta.
  intros r s3 (Hk3 & Hm3 & [(v & -> & Hc)|(-> & Hms & m & ->)]).
  - destruct Hc as (Hvs & Hold & Hde & Hn3 & Hs3). wp_simpl.
    assert (Hvn : vnodes s !! v = None).
    { destruct (vnodes s !! v) as [x|] eqn:Hx; [|done]. rewrite Hv, A6 in Hold. specialize (Hold x Hx). destruct (vk_sem s Hk v x Hx) as [?|[y Hy]]; [lia|congruence]. }
    rewrite Hv, A6, Hvn in Hvs. cbn [fmap option_fmap option_map default] in Hvs. assert (Hx3 : sem_at s3 n = Some (Sem 0 true false)) by (by rewrite Hs3, Z.eqb_refl, Hnew).
    unfold with_sem. wp_simpl. erewrite wp_eq by (by apply semarray_get_eq). wp_simpl. pose proof (sem_at_range _ _ _ Hx3) as Hr3. erewrite wp_eq by (by apply semarray_set_eq). set (s4 := set_sems _ s3).
    assert (Hs4 : forall m, sem_at s4 m = if m =? n then Some (Sem 0 true true) else sem_at s m).
    { intros m. unfold s4. rewrite sem_at_set by done. destruct (Z.eqb_spec m n) as [->|Hne]; [done|]. rewrite Hs3. destruct (Z.eqb_spec m n); [done|]. rewrite Hat, A3. by destruct (Z.eqb_spec m n). }
    assert (He4 : entry_is i (Some (Direntry name n)) s s4) by (intros j; rewrite <-He; unfold dent_at, s4; cbn; by rewrite Hde).
    destruct (added_dents s s4 i name n Hd Hno Hdots A1 Hfree He4 Hs4) as [Hd4 Hdir4].
    split; [|split; [intros H0; cbn; auto|left; exists v, n; done]]. split; [|done|].
    + apply (same_vnodes_ok s3); [|done]. split_and!; [done|done| |].
      * unfold num, s4 in *. cbn. rewrite length_insert. pose proof (vk_size s3 Hk3). unfold num in *. lia.
      * intros m. unfold s4. rewrite sem_at_set by done. destruct (Z.eqb_spec m n) as [->|]; [by rewrite Hx3|done].
    + intros m x. rewrite Hs4. destruct (Z.eqb_spec m n); [by intros [= <-]|apply Hu].
  - wp_simpl. erewrite wp_eq by (by apply (dent_index (set_memory m s2))). set (s4 := set_dents _ _).
    wp_simpl.
    erewrite wp_eq by (apply semarray_set_eq; unfold s4, num in *; cbn; rewrite Hsems; lia). wp_simpl. apply new_fail; [done| |intros H0; by apply Hms, Hm|by right]. split.
    + cbn. congruence.
    + cbn. congruence.
    + unfold num, s4 in *. cbn. rewrite length_insert, Hsems. lia.
    + intros k. rewrite sem_at_set by (unfold s4, num in *; cbn; rewrite Hsems; lia). destruct (Z.eqb_spec k n) as [->|Hne]; [done|]. change (sem_at s4 k) with (sem_at s2 k). rewrite Hat, A3. by destruct (Z.eqb_spec k n).
    + intros j. change (dent_at (set_sems _ s4) j) with (dent_at s4 j). unfold s4. rewrite (dent_at_set (set_memory m s2)) by done. case_decide as Hj; [by subst|].
      change (dent_at (set_memory m s2) j) with (dent_at s2 j). rewrite He. by case_decide.
Qed.

Lemma set_undone n name e s s1 s2 m : inv s -> placed n (Some (Sem 0 false false)) s s1 -> s2 = set_memory m s1 -> memory s <> [] -> e = 0 \/ e = ENOMEM ->
  wp (semarray_set n None) (fun _ => new_post name s (e, None)) s2.
Proof.
  intros Hi Hpl -> Hms He. destruct (undo_slot n _ s s1 (set_memory m s1) (inv_vnodes s Hi) Hpl) as (s3 & E & Hsame & _); try done.
  erewrite wp_eq by exact E. by apply new_fail.
Qed.
Lemma creat_entry_spec name n empty s s1 : inv s -> (forall m, ~ dir s name m) -> dots name = false -> placed n (Some (Sem 0 false false)) s s1 ->
  (empty = num (semfs_dents s) \/ exists j : nat, empty = Z.of_nat j /\ semfs_dents s !! j = Some None) ->
  wp (creat_entry (num (semfs_dents s)) empty name n) (new_post name s) s1.
Proof.
  intros Hi Hno Hdots Hpl Hempty. pose proof Hpl as [A1 A2 A3 A4 A5 A6 A7]. unfold creat_entry. cbv zeta. rewrite wp_bind.
  eapply wp_mono; [|apply direntry_create_spec]. cbv beta. intros o s2 (m & -> & Hm & [->|[-> Hms]]).
  2: { wp_simpl. apply (set_undone n name 0 s s1 _ m); try done; [intros H0; auto|by left]. }
  wp_simpl. destruct (Z.ltb_spec empty (num (semfs_dents s))) as [Hlt|Hge].
  - destruct Hempty as [->|(j & -> & Hj)]; [lia|]. wp_simpl. assert (Hjl := lookup_lt_Some _ _ _ Hj). rewrite <-A4 in Hjl.
    erewrite wp_eq by (by apply (dent_index (set_memory m s1))). wp_simpl. apply (creat_vnode_spec name n j s s1); try done.
    + unfold dent_at. by rewrite Hj.
    + intros k. rewrite (dent_at_set (set_memory m s1)) by done. case_decide; [done|]. change (dent_at (set_memory m s1) k) with (dent_at s1 k). unfold dent_at. by rewrite A4.
    + cbn. by rewrite length_insert.
    + intros H0. cbn. auto.
  - assert (Hn : empty = num (semfs_dents s)).
    { destruct Hempty as [->|(j & -> & Hj)]; [done|]. apply lookup_lt_Some in Hj. unfold num in *. lia. }
    clear Hempty. subst empty. wp_simpl. apply wp_kmalloc. intros b m' Hb. destruct b; cbn [negb]; wp_simpl.
    2: { assert (Hms : memory s <> []) by (intros H0; destruct (Hb (Hm (A7 H0))) as [? _]; done).
      apply (set_undone n name ENOMEM s s1 _ m'); [done|done|by destruct s1|done|by right]. }
    apply (creat_vnode_spec name n (length (semfs_dents s)) s s1); try done.
    + unfold dent_at. by rewrite lookup_ge_None_2.
    + intros k. rewrite (dent_at_app (set_memory m' (set_memory m s1))). cbn [semfs_dents set_memory]. rewrite A4. case_decide; [done|].
      unfold dent_at. cbn. by rewrite A4.
    + cbn. rewrite A4, length_app. cbn. lia.
    + intros H0. cbn. apply (Hb (Hm (A7 H0))).
Qed.
Lemma creat_spec name excl s : inv s -> wp (semfs_creat name excl) (creat_post name excl s) s.
Proof.
  intros Hi. unfold semfs_creat. destruct (dots name) eqn:Hdots.
  { wp_simpl. split; [done|]. split; [done|]. split; [done|]. by rewrite Hdots. }
  wp_simpl. pose proof (creat_loop_spec (semfs_dents s) (num (semfs_dents s)) name 0 (num (semfs_dents s))) as Hloop. cbn zeta in Hloop.
  destruct (creat_loop _ _ _ _ _) as [empty [d|]]; cbn [fst snd] in Hloop.
  - destruct Hloop as (j & Hj & <-). assert (Hd : dir s (semd_name d) (semd_semnum d)) by (exists j, d; split; [unfold dent_at; by rewrite Hj|done]).
    assert (Hone : forall n, dir s (semd_name d) n -> n = semd_semnum d) by (intros n Hn; apply (dir_functional s (semd_name d)); [apply Hi|done|done]).
    destruct excl; wp_simpl.
    + split; [done|]. split; [done|]. split; [by rewrite Hdots|]. intros _. split; [done|]. intros Hno. by destruct (Hno _ Hd).
    + eapply wp_mono; [|apply getvnode_inv; [done|right; apply (dir_sem s (semd_name d)); [apply Hi|done]]]. cbv beta. intros r s' [Hi' Hp].
      split; [done|]. split; [apply Hp|]. split; [by rewrite Hdots|]. intros _. split; [intros n Hn; by rewrite (Hone n Hn)|]. intros Hno. by destruct (Hno _ Hd).
  - destruct Hloop as [Hnone Hempty].
    assert (Hno : forall n, ~ dir s name n).
    { intros n (j & d & Hj & Hnm & _). unfold dent_at in Hj. destruct (semfs_dents s !! j) as [[d'|]|] eqn:Ej; [|done..]. injection Hj as ->. by apply (Hnone j d). }
    eapply wp_mono with (P := new_post name s).
    { intros r s' (Hi' & Hm & Hp). split; [done|]. split; [done|]. split; [by rewrite Hdots|]. intros _. split; [intros n Hn; by destruct (Hno n)|]. by intros _. }
    rewrite wp_bind. eapply wp_mono; [|apply sem_create_spec]. cbv beta. intros o s1 (m & -> & Hm & [->|[-> Hms]]).
    2: { wp_simpl. apply new_fail; [done|by apply memory_same|done|by right]. }
    wp_simpl. eapply wp_mono; [|apply insert_spec; apply Hi]. cbv beta. intros [e n] s2 [[He Hpl]|[(He & -> & Hfull)|(He & Hms & m' & ->)]]; cbn [fst snd] in *; subst e; cbn [Z.eqb negb]; wp_simpl.
    + apply creat_entry_spec; [done|done|done| |].
      * destruct Hpl as [B1 B2 B3 B4 B5 B6 B7]. split; try done. intros H0. apply B7. cbn. auto.
      * destruct Hempty as [->|(j & -> & Hj)]; [by left|right]. exists j. split; [lia|done].
    + split; [apply (same_tables_inv s); [by apply memory_same|done]|]. split; [done|]. right. split; [done|]. split; [by apply memory_same|]. split; [by right|]. cbn. auto.
    + assert (Hms' : memory s <> []) by (intros H0; apply Hms; cbn; auto). replace (set_memory m' (set_memory m s)) with (set_memory m' s) by (by destruct s).
      apply new_fail; [done|by apply memory_same|done|by right].
Qed.

(** ** The file system over any calls *)

Section calls.
(** The references to a vnode. *)
Definition count s v : Z := default 0 (vn_refcount <$> vnodes s !! v).
Definition one (v x : Z) : Z := if x =? v then 1 else 0.
(** What a call gives its caller, or takes from him. *)
Definition credit (c : call) (r : Z * option Z) (x : Z) : Z :=
  match c, r with
  | Cclose v, _ => - one v x
  | _, (_, Some v) => one v x
  | _, _ => 0
  end.
(** The vnodes that a call is made on, to be referenced by the caller. *)
Definition named (c : call) : list Z :=
  match c with Clookup v _ | Clookparent v _ _ | Cclose v => [v] | _ => [] end.
(** [h v]: the references to [v] that the callers hold. *)
Inductive reach : (Z -> Z) -> semfs -> Prop :=
  | reach_start m : reach (fun _ => 0) (TheSemfs [] [] [] ∅ m)
  | reach_call h s c r s' : reach h s -> (forall v, v ∈ named c -> 0 < h v) -> do_call c s = Ret r s' -> reach (fun x => h x + credit c r x) s'.

Lemma empty_inv m : inv (TheSemfs [] [] [] ∅ m).
Proof.
  assert (Hs : forall n, sem_at (TheSemfs [] [] [] ∅ m) n = None) by (intros n; unfold sem_at; cbn; by case_match).
  split; [split|split|]; intros *; rewrite ?Hs; try done; [by apply NoDup_nil_2|].
  cbn. rewrite elem_of_nil, lookup_empty. split; [done|]. by intros [? ?].
Qed.
Lemma refs_insert v n c s s' x : vnodes s' = <[v := Semv n c]> (vnodes s) -> count s' x = if x =? v then c else count s x.
Proof. intros Hv. unfold count. rewrite Hv. destruct (Z.eqb_spec x v) as [->|]; [by rewrite lookup_insert_eq|by rewrite lookup_insert_ne]. Qed.
Lemma count_one v s s' n : vnodes s' = <[v := Semv n (count s v + 1)]> (vnodes s) -> forall x, count s' x = count s x + one v x.
Proof. intros Hv x. rewrite (refs_insert v n (count s v + 1) s s' x Hv). unfold one. destruct (Z.eqb_spec x v) as [->|]; lia. Qed.
Lemma count_same s s' : vnodes s' = vnodes s -> forall x, count s' x = count s x + 0.
Proof. intros Hv x. unfold count. rewrite Hv. lia. Qed.
Lemma getvnode_count n s r s' : getvnode_post n s r s' -> forall x, count s' x = count s x + match r.2 with Some v => one v x | None => 0 end.
Proof.
  intros (_ & _ & [(v & -> & Hv & _)|(-> & _ & m & ->)]); cbn [snd]; [by apply (count_one v s s' n)|by apply count_same].
Qed.
Lemma live_count s v : 0 < count s v -> is_Some (vnodes s !! v).
Proof. unfold count. destruct (vnodes s !! v); [by eexists|done]. Qed.
Lemma incref_count v x s : vnodes s !! v = Some x -> forall y, count (set_vnodes (<[v := Semv (semv_semnum x) (vn_refcount x + 1)]> (vnodes s)) s) y = count s y + one v y.
Proof. intros Hx. apply (count_one v s _ (semv_semnum x)). unfold count. by rewrite Hx. Qed.
Lemma sem_decref_spec v s : inv s -> 0 < count s v -> wp (VOP_DECREF v) (fun _ s' => inv s' /\ forall x, count s' x = count s x - one v x) s.
Proof.
  intros Hi Hc. destruct (live_count s v Hc) as [x Hx]. assert (Ec : count s v = vn_refcount x) by (unfold count; by rewrite Hx).
  unfold VOP_DECREF. wp_simpl. rewrite wp_KASSERT. split; [apply Z.ltb_lt; lia|]. destruct (Z.ltb_spec 1 (vn_refcount x)) as [H1|H1]; wp_simpl.
  - split; [by apply decr_inv|]. intros y. rewrite (refs_insert v (semv_semnum x) (vn_refcount x - 1) s) by done. unfold one. destruct (Z.eqb_spec y v) as [->|]; lia.
  - eapply wp_mono; [|by apply (reclaim_spec v x)]. cbv beta. intros e s' (Hi' & _ & _ & _ & Hr). split; [done|]. destruct (Hr H1) as (_ & Hv & _).
    intros y. unfold count, one in *. rewrite Hv. destruct (Z.eqb_spec y v) as [->|]; [rewrite lookup_delete_eq, Hx in *; cbn in *; lia|]. rewrite lookup_delete_ne by done. lia.
Qed.
Lemma call_spec c s : inv s -> (forall v, v ∈ named c -> 0 < count s v) -> wp (do_call c) (fun r s' => inv s' /\ forall x, count s' x = count s x + credit c r x) s.
Proof.
  intros Hi Hn. destruct c as [|v name|v name n|name excl|name|v]; cbn [do_call].
  - eapply wp_mono; [|apply getvnode_inv; [done|by left]]. cbv beta. intros [e o] s' [Hi' Hp]. split; [done|]. apply (getvnode_count _ _ _ _ Hp).
  - assert (Hl : is_Some (vnodes s !! v)) by (apply live_count, Hn; by left). eapply wp_mono; [|by apply sem_lookup_spec]. cbv beta. intros [e o] s' (Hi' & Hd & Hnd). split; [done|]. destruct (dots name) eqn:Hdots.
    + destruct (Hd eq_refl) as ([= -> ->] & x & Hx & ->). by apply incref_count.
    + destruct (Hnd eq_refl) as [Hf Hno]. pose proof (find_entry_dir s name) as Hfe. destruct (find_entry _ 0 name) as [[k d]|].
      * destruct Hfe as (j & _ & _ & _ & Hdir). apply (getvnode_count _ _ _ _ (Hf _ Hdir)).
      * destruct (Hno Hfe) as [[= -> ->] ->]. intros x. cbn. lia.
  - destruct (live_count s v) as [x Hx]; [apply Hn; by left|]. unfold semfs_lookparent, VOP_INCREF. destruct (n <? num name + 1); wp_simpl; [split; [done|intros y; cbn; lia]|].
    split; [by apply incref_inv|]. by apply incref_count.
  - eapply wp_mono; [|by apply creat_spec]. cbv beta. intros [e o] s' (Hi' & _ & Hd & Hnd). split; [done|]. destruct (dots name) eqn:Hdots.
    { destruct (Hd eq_refl) as [[= -> ->] ->]. intros x. cbn. lia. }
    destruct (Hnd eq_refl) as [Hf Hno]. pose proof (find_entry_dir s name) as Hfe. destruct (find_entry _ 0 name) as [[k d]|].
    + destruct Hfe as (j & _ & _ & _ & Hdir). specialize (Hf _ Hdir). destruct excl; [destruct Hf as [[= -> ->] ->]; intros x; cbn; lia|]. apply (getvnode_count _ _ _ _ Hf).
    + destruct (Hno Hfe) as [(v & m & [= -> ->] & _ & Hv & Hv' & _)|(Ho & Hs & _)].
      * apply (count_one v s s' m). unfold count. by rewrite Hv.
      * cbn in Ho. subst o. apply count_same, Hs.
  - rewrite wp_bind. eapply wp_mono; [|by apply remove_spec]. cbv beta. intros e s' (Hi' & _ & Hd & Hnd). wp_simpl. split; [done|]. apply count_same. destruct (dots name) eqn:Hdots; [by destruct (Hd eq_refl) as [_ ->]|].
    destruct (Hnd eq_refl) as [Hno Hf]. pose proof (find_entry_dir s name) as Hfe. destruct (find_entry _ 0 name) as [[k d]|]; [|by destruct (Hno Hfe) as [_ ->]].
    destruct Hfe as (j & _ & _ & _ & Hdir). destruct (dir_sem s name _ (inv_dents s Hi) Hdir) as [x Hx]. by destruct (Hf _ x Hdir Hx) as (_ & ? & _).
  - rewrite wp_bind. eapply wp_mono; [|apply sem_decref_spec; [done|apply Hn; by left]]. cbv beta. intros _ s' [Hi' Hc]. wp_simpl. split; [done|]. intros x. rewrite Hc. cbn. lia.
Qed.

Lemma reach_inv h s : reach h s -> inv s /\ forall v, count s v = h v.
Proof.
  induction 1 as [m|h s c r s' Hr [Hi Hc] Hn E]; [split; [apply empty_inv|done]|].
  pose proof (call_spec c s Hi) as Hs. unfold wp in Hs. rewrite E in Hs. destruct Hs as [Hi' Hc']; [intros v Hv; rewrite Hc; by apply Hn|].
  split; [done|]. intros v. by rewrite Hc', Hc.
Qed.

#[global] Instance semfs_sem_dec : EqDecision semfs_sem := ltac:(solve_decision).
#[global] Instance semfs_direntry_dec : EqDecision semfs_direntry := ltac:(solve_decision).
Lemma destroy_sems_eq l s : destroy_sems l s = if decide (None ∈ l) then Fault "sem" else Ret tt s.
Proof.
  induction l as [|[x|] l IH]; cbn [destroy_sems].
  - by rewrite decide_False by apply not_elem_of_nil.
  - cbn [deref]. rewrite bind_ret_l, IH. apply decide_ext. rewrite elem_of_cons. naive_solver.
  - by rewrite decide_True by by left.
Qed.
Lemma destroy_dents_eq l s : destroy_dents l s = if decide (None ∈ l) then Fault "dent" else Ret tt s.
Proof.
  induction l as [|[x|] l IH]; cbn [destroy_dents].
  - by rewrite decide_False by apply not_elem_of_nil.
  - cbn [deref]. rewrite bind_ret_l, IH. apply decide_ext. rewrite elem_of_cons. naive_solver.
  - by rewrite decide_True by by left.
Qed.
(** Unmounting, from any state. *)
Lemma unmount_cases s :
  (semfs_vnodes s <> [] -> semfs_unmount s = Ret EBUSY s) /\
  (semfs_vnodes s = [] -> None ∈ semfs_sems s \/ None ∈ semfs_dents s -> exists why, semfs_unmount s = Fault why) /\
  (semfs_vnodes s = [] -> None ∉ semfs_sems s -> None ∉ semfs_dents s -> exists s', semfs_unmount s = Ret 0 s').
Proof.
  unfold semfs_unmount, semfs_destroy. split; [|split].
  - intros Hv. rewrite (bind_eq get _ s s s) by done. unfold num. destruct (semfs_vnodes s); [done|]. by cbn [length].
  - intros Hv Hn. rewrite (bind_eq get _ s s s) by done. rewrite Hv. change (0 <? num []) with false. cbv iota.
    unfold mbind, K_bind, get. rewrite destroy_sems_eq. case_decide; [by eexists|]. cbn [modify]. unfold modify.
    rewrite destroy_dents_eq, decide_True; [by eexists|]. by destruct Hn.
  - intros Hv H1 H2. rewrite (bind_eq get _ s s s) by done. rewrite Hv. change (0 <? num []) with false. cbv iota.
    unfold mbind, K_bind, get. rewrite destroy_sems_eq, decide_False by done. unfold modify.
    rewrite destroy_dents_eq, decide_False by done. by eexists.
Qed.
Lemma getdirentry_cases pos s :
  (u32 pos < num (semfs_dents s) /\ dent_at s (Z.to_nat (u32 pos)) = None -> semfs_getdirentry pos s = Fault "dent") /\
  (~ (u32 pos < num (semfs_dents s) /\ dent_at s (Z.to_nat (u32 pos)) = None) -> exists r, semfs_getdirentry pos s = Ret r s).
Proof.
  unfold semfs_getdirentry, dent_at. kunfold. destruct (Z.leb_spec (num (semfs_dents s)) (u32 pos)).
  - split; [lia|]. intros _. by eexists.
  - split; [by intros [_ ->]|]. intros Hn. destruct (mjoin (semfs_dents s !! Z.to_nat (u32 pos))) as [x|]; [by eexists|]. by destruct Hn.
Qed.

(** C19. The semaphore file system over any sequence of the calls getroot, lookup, lookparent, creat, remove
    and close (dropping a reference, with the reclaim of the vnode), with memory running out at any
    time; each call is one step, from its start to its end.  The tables are consistent in every state: a
    vnode is in memory exactly while somebody
    holds a reference to it, with that count; no semaphore has two vnodes and no name two entries;
    a semaphore exists exactly while it is in the directory or has a vnode, and its marks say which.
    Each of these calls, on vnodes that the caller has references to, returns, without failing an assertion
    or following a pointer to a freed object; so does fstat of a semaphore that has a vnode.  It is
    not so for the others: reading the directory follows a null pointer exactly at a slot that
    a removed name has left (otherwise it returns, and changes nothing), and unmounting is EBUSY
    while there are vnodes, then follows a null pointer exactly if there is such a slot in a
    table, and otherwise succeeds.  That a call is one step is an assumption: [semfs_reclaim] takes
    only the lock of the table and can run inside [semfs_remove], which then uses a freed
    semaphore ([Semfs_sample.reclaim_races_remove]). *)
Theorem semfs_tables_safe h s : reach h s ->
  inv s /\ (forall v, count s v = h v) /\
  (forall c, (forall v, v ∈ named c -> 0 < h v) -> wp (do_call c) (fun _ s' => inv s') s) /\
  (forall v x, vnodes s !! v = Some x -> semv_semnum x <> SEMFS_ROOTDIR -> exists r, semfs_semstat (semv_semnum x) s = Ret r s) /\
  (forall pos, (u32 pos < num (semfs_dents s) /\ dent_at s (Z.to_nat (u32 pos)) = None -> semfs_getdirentry pos s = Fault "dent") /\
     (~ (u32 pos < num (semfs_dents s) /\ dent_at s (Z.to_nat (u32 pos)) = None) -> exists r, semfs_getdirentry pos s = Ret r s)) /\
  (semfs_vnodes s <> [] -> semfs_unmount s = Ret EBUSY s) /\
  (semfs_vnodes s = [] -> None ∈ semfs_sems s \/ None ∈ semfs_dents s -> exists why, semfs_unmount s = Fault why) /\
  (semfs_vnodes s = [] -> None ∉ semfs_sems s -> None ∉ semfs_dents s -> exists s', semfs_unmount s = Ret 0 s').
Proof.
  intros [Hi Hc]%reach_inv. split; [done|]. split; [done|]. split; [|split; [|split; [intros pos; exact (getdirentry_cases pos s)|exact (unmount_cases s)]]].
  - intros c Hn. eapply wp_mono; [|apply call_spec; [done|]].
    + cbv beta. by intros r s' [? _].
    + intros v Hv. rewrite Hc. by apply Hn.
  - intros v x Hv Hne. destruct (vk_sem s (inv_vnodes s Hi) v x Hv) as [|[sem Hsem]]; [done|].
    unfold semfs_semstat. rewrite (bind_eq _ _ _ _ _ (semarray_get_eq s _ _ Hsem)). cbn [deref]. rewrite bind_ret_l. by eexists.
Qed.
(** The directory is a partial function from names to semaphores.  [creat] of a new name makes
    a semaphore with count 0 and its vnode; of an old one it hands back the vnode, or is refused if
    it was to be exclusive.  [remove] takes the name away, and the semaphore with it unless
    somebody has it open; [lookup] finds it.  If memory or the table is full, nothing has changed,
    but [creat] may answer 0 without a vnode. *)
Lemma directory_correct s name dirvn excl : inv s -> is_Some (vnodes s !! dirvn) ->
  (forall n m, dir s name n -> dir s name m -> n = m) /\
  wp (semfs_lookup dirvn name) (lookup_post dirvn name s) s /\
  wp (semfs_creat name excl) (creat_post name excl s) s /\
  wp (semfs_remove name) (remove_post name s) s.
Proof.
  intros Hi Hd. split; [intros n m; apply dir_functional, Hi|]. split; [by apply sem_lookup_spec|]. split; [by apply creat_spec|by apply remove_spec].
Qed.
(** A name that was removed leaves an empty slot.  Reading the directory at such a slot
    follows a null pointer, and so does unmounting when no vnode is left. *)
Theorem holes_fault s i : 0 <= i < num (semfs_dents s) -> i < 2 ^ 32 -> dent_at s (Z.to_nat i) = None ->
  (exists why, semfs_getdirentry i s = Fault why) /\ (semfs_vnodes s = [] -> exists why, semfs_unmount s = Fault why).
Proof.
  intros Hr Hlt Hd. split; [|intros Hv].
  - unfold semfs_getdirentry. kunfold. rewrite u32_small by lia. destruct (Z.leb_spec (num (semfs_dents s)) i); [lia|]. unfold dent_at in Hd. rewrite Hd. by eexists.
  - assert (Hsems : forall l t, (exists t', destroy_sems l t = Ret tt t' /\ t' = t) \/ exists why, destroy_sems l t = Fault why).
    { induction l as [|[x|] l IH]; intros t; cbn; [left; by exists t| |right; by eexists]. kunfold. apply IH. }
    assert (Hdents : forall l t, None ∈ l -> exists why, destroy_dents l t = Fault why).
    { induction l as [|[x|] l IH]; intros t Hin; cbn; [by apply elem_of_nil in Hin| |by eexists]. kunfold. apply IH. by apply elem_of_cons in Hin as [?|?]. }
    assert (Hin : None ∈ semfs_dents s).
    { unfold dent_at in Hd. destruct (lookup_lt_is_Some_2 (semfs_dents s) (Z.to_nat i)) as [o Ho]; [unfold num in *; lia|]. rewrite Ho in Hd. destruct o; [done|]. by eapply list_elem_of_lookup_2. }
    unfold semfs_unmount, semfs_destroy. kunfold. rewrite Hv. change (0 <? num []) with false. cbn.
    destruct (Hsems (semfs_sems s) s) as [(t & E & ->)|[why E]]; rewrite E; [|by eexists].
    destruct (Hdents (semfs_dents s) (set_sems [] s) Hin) as [why E']. cbn. rewrite E'. by eexists.
Qed.
End calls.

(** ** The threads on one semaphore *)

Implicit Types (q : semq) (y : sem_sys) (r : list (Z * Z)).

(** How many sleepers a change of the count to [new] wakes. *)
Lemma wakeup_spec new q : exists i, semfs_wakeup new q = Ret (take i (q_cv q)) (SemQ (q_count q) (drop i (q_cv q))) /\
  (0 < q_count q \/ new = 0 -> i = O) /\ (~ 0 < q_count q -> new = 1 -> i = 1%nat) /\
  (~ 0 < q_count q -> new <> 0 -> new <> 1 -> i = length (q_cv q)).
Proof.
  destruct q as [c l]. unfold semfs_wakeup. kunfold. cbn. destruct (Z.ltb_spec 0 c); [exists O; split; [done|lia]|].
  destruct (Z.eqb_spec new 0); [exists O; split; [done|lia]|]. destruct (Z.eqb_spec new 1); cbn.
  - exists 1%nat. split; [|lia]. by destruct l.
  - exists (length l). rewrite firstn_all, drop_all. split; [done|lia].
Qed.
Lemma write_spec n q : 0 <= q_count q < 2 ^ 32 -> 0 <= n < 2 ^ 32 ->
  if decide (q_count q + n < 2 ^ 32) then
    exists i, semfs_write n q = Ret (0, take i (q_cv q)) (SemQ (q_count q + n) (drop i (q_cv q))) /\
      (0 < q_count q -> i = O) /\ (q_count q = 0 -> 1 < n -> i = length (q_cv q)) /\ (q_count q = 0 -> n = 1 -> i = 1%nat)
  else semfs_write n q = Ret (EFBIG, []) q.
Proof.
  intros Hc Hn. unfold semfs_write. destruct (Z.ltb_spec 0 n) as [H0|H0]; cbn [negb].
  2: { assert (n = 0) as -> by lia. rewrite Z.add_0_r. rewrite decide_True by lia. exists O. split; [by destruct q|lia]. }
  kunfold. case_decide as Hs.
  - rewrite u32_small by lia. destruct (Z.ltb_spec (q_count q + n) (q_count q)); [lia|]. destruct (wakeup_spec (q_count q + n) q) as (i & -> & H1 & H2 & H3). cbn. exists i.
    split; [done|]. split_and!; intros; [apply H1; lia|apply H3; lia|apply H2; lia].
  - replace (u32 (q_count q + n)) with (q_count q + n - 2 ^ 32) by (unfold u32; apply (Z.mod_unique _ _ 1); lia).
    by destruct (Z.ltb_spec (q_count q + n - 2 ^ 32) (q_count q)); [|lia].
Qed.
Lemma truncate_spec len q :
  if decide (len < 0) then semfs_truncate len q = Ret (EINVAL, []) q else
  if decide (2 ^ 32 <= len) then semfs_truncate len q = Ret (EFBIG, []) q else
  exists i, semfs_truncate len q = Ret (0, take i (q_cv q)) (SemQ len (drop i (q_cv q))) /\
    (0 < q_count q \/ len = 0 -> i = O) /\ (~ 0 < q_count q -> 1 < len -> i = length (q_cv q)) /\ (~ 0 < q_count q -> len = 1 -> i = 1%nat).
Proof.
  unfold semfs_truncate. case_decide; destruct (Z.ltb_spec len 0); try lia; [done|]. case_decide; destruct (Z.ltb_spec 4294967295 len); try lia; [done|].
  kunfold. rewrite u32_small by lia. destruct (wakeup_spec len q) as (i & -> & W1 & W2 & W3). cbn. exists i.
  split; [done|]. split_and!; intros; [by apply W1|apply W3; lia|apply W2; lia].
Qed.
(** A turn of a reader: it takes what it can and wants, and sleeps if that is not all. *)
Lemma sem_read_spec t n q : 0 <= q_count q < 2 ^ 32 -> 0 <= n ->
  semfs_read t n q = Ret (n - Z.min n (q_count q)) (SemQ (q_count q - Z.min n (q_count q))
    (if decide (q_count q < n) then q_cv q ++ [(t, n - q_count q)] else q_cv q)).
Proof.
  intros Hc Hn. destruct q as [c l]. cbn [q_count q_cv] in *. unfold semfs_read, read_loop. destruct (Z.ltb_spec 0 n); cbn [negb].
  2: { rewrite decide_False by lia. replace (Z.min n c) with 0 by lia. assert (n = 0) as -> by lia. by rewrite !Z.sub_0_r. }
  kunfold. cbn. destruct (Z.ltb_spec 0 c); cbn.
  - destruct (Z.ltb_spec c n).
    + rewrite Z.min_r, decide_True by lia. rewrite u32_small by lia. destruct (Z.eqb_spec (n - c) 0); [lia|]. cbn. by rewrite Z.sub_diag.
    + rewrite Z.min_l, decide_False by lia. rewrite u32_small by lia. by rewrite Z.sub_diag.
  - assert (c = 0) as -> by lia. rewrite Z.min_r, decide_True by lia. destruct (Z.eqb_spec n 0); [lia|]. cbn. by rewrite !Z.sub_0_r.
Qed.

(** All readers, and what holds of the semaphore at any time. *)
Definition readers y : list (Z * Z) := y_ready y ++ q_cv (y_sem y).
Record sem_ok (k : nat) y : Prop := {
  so_count : y_posted y = q_count (y_sem y) + y_taken y;
  so_range : 0 <= q_count (y_sem y) < 2 ^ 32;
  so_threads : NoDup (readers y).*1;
  so_most : (length (readers y) <= k)%nat;
  so_wanted : forall t n, (t, n) ∈ readers y -> 0 <= n < 2 ^ 32;
  so_asleep : forall t n, (t, n) ∈ q_cv (y_sem y) -> 0 < n;
  so_taken : 0 <= y_taken y }.
(** Waking permutes the readers. *)
Lemma woken_ok k c p i y : sem_ok k y -> 0 <= c < 2 ^ 32 -> p = c + y_taken y ->
  sem_ok k (SemSys (SemQ c (drop i (q_cv (y_sem y)))) (y_ready y ++ take i (q_cv (y_sem y))) (y_taken y) p).
Proof.
  intros [A1 A2 A3 A4 A5 A6 A7] Hc Hp. assert (E : readers (SemSys (SemQ c (drop i (q_cv (y_sem y)))) (y_ready y ++ take i (q_cv (y_sem y))) (y_taken y) p) = readers y).
  { unfold readers. cbn. by rewrite <-app_assoc, take_drop. }
  split; rewrite ?E; try done. intros t n Hin. apply (A6 t n). cbn in Hin. by apply (subseteq_drop i).
Qed.
Lemma sem_step_ok k y y' : sem_ok k y -> sem_step k y y' -> sem_ok k y'.
Proof.
  intros Hok Hs. pose proof Hok as [A1 A2 A3 A4 A5 A6 A7]. destruct Hs as [t n q r d p Hn Ht Hk|t n q q' r1 r2 d p left E|n q q' r d p e woken Hn E|len q q' r d p e woken E];
    unfold readers in *; cbn [y_ready y_sem y_taken y_posted] in *.
  - assert (Hp : (r ++ [(t, n)]) ++ q_cv q ≡ₚ (t, n) :: r ++ q_cv q) by (rewrite <-app_assoc; apply Permutation_sym, Permutation_middle).
    split; unfold readers; cbn [y_ready y_sem y_taken y_posted]; try done.
    + rewrite Hp. cbn. by apply NoDup_cons.
    + rewrite Hp. cbn. lia.
    + intros u m. rewrite Hp. intros [[= -> ->]|?]%elem_of_cons; [done|eauto].
  - assert (Hw : 0 <= n < 2 ^ 32) by (apply (A5 t); set_solver). rewrite sem_read_spec in E by lia. injection E as <- <-. cbn [q_count q_cv].
    assert (Hf : exists l, (r1 ++ r2) ++ (if decide (q_count q < n) then q_cv q ++ [(t, n - q_count q)] else q_cv q) ≡ₚ l ++ r1 ++ r2 ++ q_cv q /\ (l = [] \/ q_count q < n /\ l = [(t, n - q_count q)])).
    { case_decide; [exists [(t, n - q_count q)]|exists []]; (split; [|auto]); [|by rewrite <-app_assoc].
      rewrite !app_assoc, Permutation_app_comm. by rewrite <-!app_assoc. }
    destruct Hf as (l & Hp & Hl). assert (Hold : (r1 ++ (t, n) :: r2) ++ q_cv q ≡ₚ (t, n) :: r1 ++ r2 ++ q_cv q) by (rewrite <-!app_assoc; apply Permutation_sym, Permutation_middle).
    rewrite Hold in A3, A4. cbn in A3, A4. apply NoDup_cons in A3 as [Ht A3].
    split; unfold readers; cbn [y_ready y_sem y_taken y_posted q_count q_cv]; [lia|lia|rewrite Hp|rewrite Hp| | |lia].
    + destruct Hl as [->|[_ ->]]; [done|]. cbn. by apply NoDup_cons.
    + destruct Hl as [->|[_ ->]]; cbn; lia.
    + intros u m. rewrite Hp, elem_of_app. intros [Hin|Hin]; [|apply (A5 u m); rewrite Hold; by right].
      destruct Hl as [->|[Hlt ->]]; [by apply elem_of_nil in Hin|]. apply list_elem_of_singleton in Hin. injection Hin as -> ->. lia.
    + intros u m. case_decide; [|eauto]. rewrite elem_of_app, list_elem_of_singleton. intros [?|[= -> ->]]; [eauto|lia].
  - pose proof (write_spec n q A2 Hn) as Hw. case_decide.
    + destruct Hw as (i & Ew & _). rewrite Ew in E. injection E as <- <- <-. apply (woken_ok k _ _ i (SemSys q r d p) Hok); cbn; lia.
    + rewrite Hw in E. injection E as <- <- <-. rewrite app_nil_r. exact Hok.
  - pose proof (truncate_spec len q) as Hw. repeat case_decide; try (rewrite Hw in E; injection E as <- <- <-; rewrite app_nil_r; exact Hok).
    destruct Hw as (i & Ew & _). rewrite Ew in E. injection E as <- <- <-. apply (woken_ok k _ _ i (SemSys q r d p) Hok); cbn; lia.
Qed.
Lemma new_sem_ok k : sem_ok k new_sem.
Proof. split; cbn; try lia; [by apply NoDup_nil_2|..]; intros t n; by intros ?%elem_of_nil. Qed.
Lemma reachable_ok k y : rtc (sem_step k) new_sem y -> sem_ok k y.
Proof. intros Hr. assert (G : forall y1 y2, rtc (sem_step k) y1 y2 -> sem_ok k y1 -> sem_ok k y2) by (induction 1; eauto using sem_step_ok). exact (G _ _ Hr (new_sem_ok k)). Qed.

(** C20. Threads reading and writing one semaphore, in any order.  The count is the units given
    less the units taken and fits 32 bits; no thread is in [semfs_read] twice; those that sleep
    still want something.  A turn of a reader takes the smaller of the count and what it wants,
    and it sleeps exactly if it wants more; a write adds its bytes, or, if the sum does not
    fit, answers EFBIG and changes nothing. *)
Theorem semaphore_counts k y : rtc (sem_step k) new_sem y ->
  y_posted y = q_count (y_sem y) + y_taken y /\ 0 <= q_count (y_sem y) < 2 ^ 32 /\ NoDup (readers y).*1 /\
  (forall t n, (t, n) ∈ q_cv (y_sem y) -> 0 < n < 2 ^ 32) /\
  (forall t n, (t, n) ∈ y_ready y -> let took := Z.min n (q_count (y_sem y)) in
     semfs_read t n (y_sem y) = Ret (n - took) (SemQ (q_count (y_sem y) - took)
       (q_cv (y_sem y) ++ if decide (q_count (y_sem y) < n) then [(t, n - took)] else []))) /\
  (forall n, 0 <= n < 2 ^ 32 -> exists e woken q', semfs_write n (y_sem y) = Ret (e, woken) q' /\
     if decide (q_count (y_sem y) + n < 2 ^ 32) then e = 0 /\ q_count q' = q_count (y_sem y) + n /\ woken ++ q_cv q' = q_cv (y_sem y)
     else e = EFBIG /\ woken = [] /\ q' = y_sem y).
Proof.
  intros [A1 A2 A3 A4 A5 A6 A7]%reachable_ok. split_and!; try done; try lia.
  - intros t n Hin. split; [by apply (A6 t)|]. apply (A5 t). apply elem_of_app. by right.
  - intros t n Hin. cbn zeta. rewrite sem_read_spec by (try done; apply (A5 t n), elem_of_app; by left). case_decide; [rewrite Z.min_r by lia; done|by rewrite app_nil_r].
  - intros n Hn. pose proof (write_spec n (y_sem y) A2 Hn) as Hw. case_decide.
    + destruct Hw as (i & -> & _). do 3 eexists. split; [reflexivity|]. cbn. by rewrite take_drop.
    + do 3 eexists. by split.
Qed.

(** With one reader, nobody sleeps while there is something to take. *)
Definition awake y : Prop := q_cv (y_sem y) = [] \/ q_count (y_sem y) = 0.
Lemma woken_awake q (c : Z) i r d p : (length (q_cv q) <= 1)%nat -> awake (SemSys q r d p) ->
  (c <> 0 -> 0 < q_count q \/ (1 <= i)%nat \/ i = length (q_cv q)) -> forall r' p', awake (SemSys (SemQ c (drop i (q_cv q))) r' d p').
Proof.
  intros Hl Ha Hc r' p'. unfold awake in *. cbn in *. destruct (decide (c = 0)) as [->|Hne]; [by right|]. left. destruct Ha as [->|H0]; [by rewrite drop_nil|].
  apply drop_ge. destruct (Hc Hne) as [?|[?| ->]]; lia.
Qed.
Lemma awake_step y y' : sem_ok 1 y -> awake y -> sem_step 1 y y' -> awake y'.
Proof.
  intros Hok Ha Hs. pose proof Hok as [A1 A2 A3 A4 A5 A6 A7]. unfold readers in *. destruct Hs as [t n q r d p Hn Ht Hk|t n q q' r1 r2 d p left E|n q q' r d p e woken Hn E|len q q' r d p e woken E];
    cbn [y_ready y_sem y_taken y_posted] in *; rewrite ?length_app in A4; cbn [length] in A4; [exact Ha| | |].
  - assert (q_cv q = []) as Hcv by (apply length_zero_iff_nil; lia). assert (Hw : 0 <= n < 2 ^ 32) by (apply (A5 t); set_solver).
    rewrite sem_read_spec, Hcv in E by lia. injection E as <- <-. unfold awake. cbn. case_decide; [right; lia|by left].
  - pose proof (write_spec n q A2 Hn) as Hw. case_decide.
    + destruct Hw as (i & Ew & _ & W2 & W3). rewrite Ew in E. injection E as <- <- <-. eapply woken_awake; [lia|exact Ha|]. intros Hne.
      destruct (decide (0 < q_count q)); [by left|]. destruct (decide (n = 1)); [right; left; rewrite W3; lia|]. right; right. apply W2; lia.
    + rewrite Hw in E. injection E as <- <- <-. exact Ha.
  - pose proof (truncate_spec len q) as Hw. repeat case_decide; try (rewrite Hw in E; injection E as <- <- <-; exact Ha).
    destruct Hw as (i & Ew & _ & W2 & W3). rewrite Ew in E. injection E as <- <- <-. eapply woken_awake; [lia|exact Ha|]. intros Hne.
    destruct (decide (0 < q_count q)); [by left|]. destruct (decide (len = 1)); [right; left; rewrite W3; lia|]. right; right. apply W2; lia.
Qed.

(** The run in which a wakeup is lost: threads 1 and 2 sleep, one unit is given and then another. *)
Lemma lost_wakeup : rtc (sem_step 2) new_sem (SemSys (SemQ 1 [(2, 1)]) [] 1 2).
Proof.
  unfold new_sem. eapply rtc_l; [apply (step_read 2 1 1); [lia|set_solver|cbn; lia]|]. eapply rtc_l; [by apply (step_turn 2 1 1 _ (SemQ 0 [(1, 1)]) [] [] 0 0 1)|].
  eapply rtc_l; [apply (step_read 2 2 1); [lia|set_solver|cbn; lia]|]. eapply rtc_l; [by apply (step_turn 2 2 1 _ (SemQ 0 [(1, 1); (2, 1)]) [] [] 0 0 1)|].
  eapply rtc_l; [apply (step_write 2 1 _ (SemQ 1 [(2, 1)]) [] 0 0 0 [(1, 1)]); [lia|done]|].
  eapply rtc_l; [apply (step_write 2 1 _ (SemQ 2 [(2, 1)]) [(1, 1)] 0 1 0 []); [lia|done]|].
  eapply rtc_l; [by apply (step_turn 2 1 1 _ (SemQ 1 [(2, 1)]) [] [] 0 2 0)|]. apply rtc_refl.
Qed.
(** C21. Wakeups.  With one reader, no thread sleeps while the count is not 0.  With two that is
    not so: a write while the count is not 0 wakes nobody, so that of two sleepers and two units
    given one after the other, one thread may sleep on with a unit there, and no other
    thread to wake it. *)
Theorem wakeups :
  (forall y, rtc (sem_step 1) new_sem y -> q_cv (y_sem y) <> [] -> q_count (y_sem y) = 0) /\
  (forall n q e woken q', 0 < q_count q -> semfs_write n q = Ret (e, woken) q' -> woken = []) /\
  exists y t, rtc (sem_step 2) new_sem y /\ y_ready y = [] /\ q_count (y_sem y) = 1 /\ q_cv (y_sem y) = [(t, 1)].
Proof.
  split_and!.
  - intros y Hr Hne. assert (G : forall y1 y2, rtc (sem_step 1) y1 y2 -> sem_ok 1 y1 -> awake y1 -> awake y2) by (induction 1; eauto using sem_step_ok, awake_step).
    destruct (G _ _ Hr (new_sem_ok 1)) as [?|?]; [by left|done|done].
  - intros n q e woken q' Hc. unfold semfs_write, semfs_wakeup. kunfold. destruct (0 <? n); cbn; [|by intros [= <- <- <-]].
    destruct (_ <? _); [by intros [= <- <- <-]|]. rewrite (proj2 (Z.ltb_lt _ _)) by done. cbn. by intros [= <- <- <-].
  - eexists _, 2. split; [apply lost_wakeup|done].
Qed.

(** ** Sample runs *)

Module Semfs_sample.
Definition start (m : list bool) : semfs := TheSemfs [] [] [] ∅ m.
Definition a : list Z := [97].
(** The directory's vnode is 0, the one of the semaphore "a" 1. *)
Definition rooted : semfs := TheSemfs [0] [] [] (<[0 := Semv SEMFS_ROOTDIR 1]> ∅) [].
Definition opened : semfs :=
  TheSemfs [0; 1] [Some (Sem 0 true true)] [Some (Direntry a 0)] (<[1 := Semv 0 1]> (<[0 := Semv SEMFS_ROOTDIR 1]> ∅)) [].
Lemma opened_run : exists h, reach h opened /\ 0 < h 0 /\ 0 < h 1.
Proof.
  eexists. split; [|split].
  - eapply (reach_call _ rooted (Ccreat a true) (0, Some 1)); [|by intros v ?%elem_of_nil|vm_compute; reflexivity].
    eapply (reach_call _ (start []) Cgetroot (0, Some 0) rooted); [apply (reach_start [])|by intros v ?%elem_of_nil|vm_compute; reflexivity].
  - done.
  - done.
Qed.
Lemma semfs_tables_safe_witness : exists h, reach h opened /\ wp (do_call (Cclose 1)) (fun _ s' => inv s') opened.
Proof.
  destruct opened_run as (h & Hr & _ & H1). exists h. split; [done|]. apply (proj1 (proj2 (proj2 (semfs_tables_safe h opened Hr)))).
  intros v ->%list_elem_of_singleton. exact H1.
Defined.

Lemma opened_inv : inv opened.
Proof. destruct opened_run as (h & Hr & _). by destruct (reach_inv h opened Hr). Qed.
Lemma directory_correct_witness : wp (semfs_remove a) (remove_post a opened) opened /\ dir opened a 0.
Proof.
  split; [|by exists O, (Direntry a 0)]. apply (directory_correct opened a 0 false opened_inv). by eexists.
Defined.

(** After the removal of "a", and with the last vnode closed. *)
Definition removed : semfs := TheSemfs [] [None] [None] ∅ [].
Lemma removed_run : exists h, reach h removed.
Proof.
  destruct opened_run as (h & Hr & H0 & H1). eexists.
  eapply (reach_call _ (set_vnodes (<[0 := Semv SEMFS_ROOTDIR 1]> ∅) (set_table [0] removed)) (Cclose 0) (0, None)).
  - eapply (reach_call _ (set_dents [None] (set_sems [Some (Sem 0 true false)] opened)) (Cclose 1) (0, None)); 
      [eapply (reach_call _ opened (Cremove a) (0, None)); [exact Hr|by intros v ?%elem_of_nil|vm_compute; reflexivity]| |vm_compute; reflexivity].
    intros v ->%list_elem_of_singleton. cbn. lia.
  - intros v ->%list_elem_of_singleton. cbn. lia.
  - vm_compute. reflexivity.
Qed.
Lemma holes_fault_witness : exists why, semfs_unmount removed = Fault why.
Proof. apply (proj2 (holes_fault removed 0 ltac:(vm_compute; done) ltac:(lia) ltac:(done))). done. Defined.

Lemma semaphore_counts_witness : NoDup (readers (SemSys (SemQ 1 [(2, 1)]) [] 1 2)).*1.
Proof. apply (semaphore_counts 2 _ lost_wakeup). Defined.

(** Memory runs out when the entry is made: [creat] answers 0 and there is no vnode. *)
Example creat_forgets_error : exists s', semfs_creat a true (start [true; true; true; true; false]) = Ret (0, None) s'.
Proof. eexists. vm_compute. reflexivity. Qed.
(** The last reference is dropped while [semfs_remove] has the semaphore's lock: [semfs_reclaim]
    does not take that lock, and frees the semaphore that [semfs_remove] goes on to use. *)
Example reclaim_races_remove : remove_unlink 0 opened = Ret tt (set_sems [Some (Sem 0 true false)] opened) /\
  (remove_unlink 0;; VOP_DECREF 1;; remove_finish 0 0) opened = Fault "sem".
Proof. by split; vm_compute. Qed.
(** The entry 0 is "a"; the offset has then moved by the length of the name.  With a longer name
    the next call is past the end. *)
Example getdirentry_skips :
  semfs_getdirentry 0 (set_dents [Some (Direntry [97; 98; 99] 0); Some (Direntry a 1)] opened) = Ret (Some [97; 98; 99]) (set_dents [Some (Direntry [97; 98; 99] 0); Some (Direntry a 1)] opened) /\
  semfs_getdirentry 3 (set_dents [Some (Direntry [97; 98; 99] 0); Some (Direntry a 1)] opened) = Ret None (set_dents [Some (Direntry [97; 98; 99] 0); Some (Direntry a 1)] opened).
Proof. done. Qed.
End Semfs_sample.
